(* ===== verification/_CoqProject ===== *)
-Q . S2P
Prelude.v
Bakery.v
BakeryLive.v
Regmap.v
RegBits.v
ClkMpll.v
ClkDualdiv.v
ClkSclk.v
ClkPhase.v
ClkVidPll.v
ClkCpuDyn.v
ClkRegmap.v
ClkPll.v
ClkPllOps.v
ClkPllV3.v
ClkPllV4.v
DmxCrc.v
DmxTsParser.v
DmxSection.v
DmxDemux.v
PinMeson.v
PinPmx.v
PinTables.v
PinBanks.v
IrqGpio.v
PinIrq.v
Mem.v
KeyTlv.v
KeyStore.v
KeyIf.v
MmcKey.v
KeyCrash.v
Rsv.v
RsvChip.v
RsvScan.v
RsvSave.v
RsvCrash.v
RsvKeys.v
RsvSim.v
RsvDemo.v
UniKey.v
Cjson.v
CjsonGrammar.v
CjsonHeap.v
CjsonMem.v
CjsonUse.v
Vfm.v
VfmSpec.v
VfmReg.v
VfmRace.v
Canvas.v
CanvasSpec.v
Rtc.v
ResMan.v
ResManInv.v
ResManRun.v
ResManPreempt.v
ResManDemo.v
ResManJson.v
IrMap.v
IrKey.v
IrXmp.v
HdmiMode.v
Edid.v
EdidSafe.v
EdidParse.v
EdidSpec.v
EdidTiming.v
EdidAudio.v
EdidDemo.v
