(* ===== verification/Prelude.v ===== *)
(** * Verification of the Amlogic common drivers

    The repository holds the Amlogic SoC drivers of a Linux kernel tree.  This
    library models, as executable definitions, the drivers whose correctness
    is a matter of algorithms rather than of register recipes, and proves the
    properties their users rely on.

    ** The parts of the program and the files that model them

    - [Bakery.v], Module [Bakery]: src/drivers/hwspinlock/hwspinlock_bakery.c,
      the bakery lock that several processors share without atomic
      instructions.  [state] holds the lock words and a program counter for
      each CPU; every definition between [probe_clear] and [unlock] is one
      access of pBakery_get_ticket, aml_hwspinlock_trylock or
      aml_hwspinlock_unlock; [step] interleaves them.  The routine of this
      kernel runs at position 0 (plat_my_core_pos); the other positions are
      the other processors, running the same protocol.  [BakeryLive.v]: its
      liveness over infinite fair schedules.
    - [Regmap.v]: src/drivers/clk/meson/parm.h, bit fields of 32-bit registers.
      The regmap of Linux is the class [Regmap] (its operations) with the laws
      [RegmapOk]; hardware may change the bits declared [volatile].  All the
      clock files are proved against this interface; [plain_regmap] and the
      simulated PLL registers of [ClkPllOps.v] are its instances.
    - Clocks, src/drivers/clk/meson: [ClkMpll.v] (clk-mpll.c), [ClkDualdiv.v]
      (clk-dualdiv.c), [ClkSclk.v] (sclk-div.c), [ClkPhase.v] (clk-phase.c),
      [ClkVidPll.v] (vid-pll-div.c), [ClkCpuDyn.v] (clk-cpu-dyndiv.c),
      [ClkRegmap.v] (clk-regmap.c), and clk-pll.c in four files: [ClkPll.v]
      (rate arithmetic and the parameter search), [ClkPllOps.v] (the standard,
      PCIe and secure operations), [ClkPllV3.v] and [ClkPllV4.v].  A clk_ops
      function with its clk_hw argument becomes a function of the register
      state, the record with the fields of its data struct, and the rates it
      asks the clock framework for; a function that writes registers returns
      the new register state.  The configuration is arm64.
    - [RegBits.v]: single bits and masks of registers, shared by the files below
      and the clocks.
    - Pins, src/drivers/gpio/pinctrl: [PinMeson.v] (pinctrl-meson.c: banks,
      bias, drive strength, direction and level of a pin, with the abstract
      [pin] settings it refines), [PinPmx.v] (pinctrl-meson-axg-pmx.c: the
      function of a pin), [PinTables.v] (the main bank and mux tables of fifteen
      SoCs, pinctrl-meson-*.c), [PinBanks.v] (all other bank tables, with the
      hooks that alias register windows; only the G12A is left out, whose pin
      numbers are not in the repository).
    - Pin interrupts, src/drivers/gpio/irqchip/irq-meson-gpio.c: [IrqGpio.v] (the
      channels of the interrupt multiplexer, their triggers, the domain
      operations), [PinIrq.v] (its composition with the pin tables).
    - Normal keys: [Mem.v] (byte buffers with faults), [KeyTlv.v] and
      [KeyStore.v] (src/drivers/efuse_unifykey/normal_key.c: the record format
      and the store of named keys), [KeyIf.v] (storage_key.c: loading from and
      writing through to a flash driver, the class [Storage]), [MmcKey.v]
      (src/drivers/mmc/host/mmc_key.c: two copies on an eMMC whose transfers
      may fail; instance of [Storage]), [KeyCrash.v] (the composition of all
      these), [UniKey.v] (unifykey.c: the key manager on top).
    - Reserved areas of a NAND flash, src/drivers/mtd/common/reserve: [Rsv.v]
      (rsv-manage.c, rsv-key.c, rsv-dev.c: an area is a log of records in
      tagged pages; the driver of the chip is the class [NandOps]), [RsvChip.v]
      (what a chip promises, as the class [NandOk], and the pool of free
      nodes), [RsvScan.v] (the scan at start-up), [RsvSave.v] (saving and
      reading), [RsvCrash.v] (what a failure or a loss of power leaves),
      [RsvKeys.v] (the keys on such an area, an instance of [Storage]),
      [RsvSim.v] (a chip that runs, an instance of [NandOk]), [RsvDemo.v]
      (runs on it).
    - Software demux, src/drivers/dvb/demux/sw_demux: [DmxCrc.v]
      (swdmx_crc32.c), [DmxTsParser.v] (swdmx_ts_parser.c, swdmx_cb_list.c),
      [DmxSection.v] (the section code of swdmx_demux.c) and [DmxDemux.v] (its
      filters).  Buffers are lists of bytes, heap objects live in finite maps
      indexed by location, intrusive lists are lists of locations, and
      callbacks are recorded as events.
    - JSON reader of the media resource manager,
      src/drivers/media/common/resource_mgr/cjson.c: [Cjson.v] (all functions;
      text and strings in blocks of an allocator that may fail),
      [CjsonGrammar.v] (the grammar it accepts), [CjsonHeap.v] (blocks and
      termination), [CjsonMem.v] (what failing allocations change), [CjsonUse.v]
      (lookups, and texts it cannot read safely).
    - Video frame manager, src/drivers/media/common/vfm: [Vfm.v] (vfm.c,
      vframe_provider.c, vframe_receiver.c: paths of named nodes, tables of
      providers and receivers, frame requests through them; the drivers behind
      the callbacks are a parameter), [VfmSpec.v] (paths), [VfmReg.v]
      (registration, removal, calls), [VfmRace.v] (requests against removal as
      an interleaving of single accesses).
    - Canvases, src/drivers/media/common/canvas: [Canvas.v] (canvas_mgr.c, the
      pool of picture descriptors, and canvas.c, their hardware words),
      [CanvasSpec.v] (its theorems).
    - Real-time clock, src/drivers/rtc/meson-rtc.c: [Rtc.v], over any [Regmap].
    - Media resource manager,
      src/drivers/media/common/resource_mgr/resourcemanage.c: [ResMan.v] (the
      sessions, the five kinds of resources, preemption, waits, creation),
      [ResManInv.v] (the account of one resource, and what an acquisition and
      a release change of it), [ResManRun.v] (all sessions together, as a step
      relation), [ResManPreempt.v] (who is preempted, and when the search
      ends), [ResManDemo.v] (concrete managers), [ResManJson.v] (the
      configuration, read with the JSON reader).  An acquisition can wait twice:
      at the gate, without limit, for the acquisitions before it
      (pending_acquire), and after a preemption for the release.  It is cut at
      both waits into steps of its own.
    - Infrared receiver, src/drivers/input/ir: [IrMap.v] (key maps of
      meson_ir_main.c: their sorting, their binary search, the maps by vendor),
      [IrKey.v] (meson_ir_core.c, meson_ir_main.c, meson_ir_common_input.c:
      presses, repeats and releases by a timer, mouse mode, the input device
      shared by several receivers), [IrXmp.v] (meson_ir_decoder_xmp.c and
      meson_ir_raw.c: from edges queued by interrupts to scan codes and, with
      [IrKey.v], to key events).
    - HDMI sinks, src/drivers/media/vout/hdmitx_common: [HdmiMode.v]
      (hdmitx_mode.c: the tables of modes and their lookups), [Edid.v]
      (hdmitx_edid_parse.c: from the EDID of a display to the record of its
      capabilities, rx_cap; every access to an array is checked), [EdidSafe.v]
      (the invariant [good] of that record and what each step keeps of it),
      [EdidParse.v] (the whole EDID), [EdidSpec.v] (data blocks and the physical
      address), [EdidTiming.v] (timing descriptors), [EdidAudio.v] (audio
      formats), [EdidDemo.v] (EDIDs, some of which the parser does not survive).
    - This file: machine integers, kernel arithmetic macros, tactics, bit
      lemmas.

    The parts interact as in the code: the clock files call the fields of
    [Regmap.v]; the PLL operations call the search of [ClkPll.v]; the v3 and v4
    operations reuse lock polling and contexts of [ClkPllOps.v]; the demux
    feeds packets of [DmxTsParser.v] to the reassembly of [DmxSection.v], which
    checks them with the CRC of [DmxCrc.v]; a pin gets its interrupt from the
    tables and its channel from [IrqGpio.v]; the key manager calls the key
    interface, which keeps the store and writes it to the flash driver, the eMMC
    partition or an area of the NAND flash; the
    resource manager creates its resources from what the JSON reader returns;
    a scan code of the XMP decoder is looked up in a sorted map and pressed;
    the EDID parser looks up timings in the tables of modes.

    ** What the theorems show

    - Lock: mutual exclusion, absence of deadlock and of failed assertions,
      first come first served, over all interleavings in which tickets fit
      their 15 bits; and under fair schedules every CPU that asks for the lock
      gets it ([no_starvation]).
    - Clocks: a rate that was set is read back as the rate that round_rate
      announced ([_recalc] theorems), on every branch including lock failures;
      the search for parameters ends and is optimal ([_optimal], [_nearest],
      [_search]); accuracy bounds; suspend and resume give the state back
      ([_save_restore], [_restore_context]); changing the CPU clock never
      touches the bank in use.
    - Demux: the table CRC equals the bit-serial one and detects bursts; the
      parser and the section reassembly stay in their buffers for every input,
      do not depend on how the stream is cut, and refine a byte automaton; a
      section is delivered exactly once, to the filters that match it;
      filters match what their parameters say; every sequence of operations
      keeps the links consistent; packets reach exactly the running filters.
    - Pins: settings of a pin refine an abstract record and leave the other
      pins alone, on controllers whose tables give every setting bits of its
      own: all tables but seven do, and in those seven two settings that share
      a bit are shown ([pin_tables_layouts]); on the S5 two pins share the bits
      of their function; making a pin an output does not glitch.
    - Pin interrupts: over all sequences of requests every mapped interrupt
      owns one channel routed to its pin; error results; triggers.
    - Keys: the store refines a finite map; what is written to the block is
      read back; writers stay in their space; an acknowledged write survives a
      restart; a write is atomic under every failing transfer, for the
      partition ([key_write_atomic]) and for the keys ([crash_atomic_keys]);
      and the defects that were found: encrypted keys that cannot be read,
      keys too large that block the store, records that are read for ever, a
      repair of copies that does not repair.
    - Reserved areas: a save appends the record or moves to the next good
      block; whatever operation of the chip fails, and also when the power is
      lost at any moment, the next scan ends and finds the old or the new
      content, entire ([save_atomic]), and so for the keys kept there
      ([nand_keys_atomic]).  The hypotheses say where this ends: the
      last scan did not find the area abnormal and nothing fails during the
      scan of the restart, stamps below 2^15, a good block left; the runs of
      [RsvDemo.v] show what happens beyond.
    - JSON: every text of a grammar of JSON with integers parses to its value;
      whatever the text and the failing allocations, no block leaks or is freed
      twice; a text of the grammar is read safely and to an end whatever
      allocations fail; parsing does not loop when the numbers are integers;
      lookups; and texts that make the reader leave its buffers or never return.
    - Frame manager: the text of a path gives its nodes; active bits;
      registration keeps the table; an open path is transparent; no driver
      function runs after its provider was closed and none is used after
      removal returned, over all interleavings, but for the notifier, whose race
      is shown.
    - Canvases: every canvas handed out was unused; no canvas is shared by two
      tables or with a fixed range over all sequences of requests; freeing
      undoes allocating, but for canvas 0; configured words read back, but for
      the wrap bits.
    - Clock and alarm of the RTC: what is set reads back; two defects.
    - Resource manager: over all interleavings of sessions the account of every
      resource, codec memory included, is exact, and within its limit for a
      counter or capacity; no session holds twice, holders
      of a counter have different indices, closing never fails and gives
      everything back; only holders of the same or lower priority are
      preempted; past the gate an acquisition ends unless a holder is inside another call,
      and a pair of sessions that wait for each other for ever is shown; a
      configuration creates exactly what its text says.
    - Infrared receiver: a sorted map is searched right; over all sequences of
      frames, timer runs and switches at most one key is down, the one the
      device remembers; a key without repeats is released by two timer runs;
      the edges of a frame give exactly its key event, and the decoder stays in
      its array for any edges; and the defects: a key left down on another
      device, reports lost on the shared device, a window of a nibble that begins too
      late, spaces outside all windows that are decoded.
    - HDMI sinks: an EDID is refused and gives the fallback modes, or parsed
      within all arrays, and then every mode of its video blocks is listed
      ([edid_parse_complete]); the condition [tame] says which announced
      lengths the arrays hold, and [EdidDemo.v] has EDIDs with right checksums
      beyond it, each an overflow; data blocks are handed over in order; modes
      keep the order of the display; the physical address is found; a mode of
      the tables, encoded as a descriptor, is recognized, but for those that
      the special cases for interlaced modes spoil ([lost]); audio formats.

    ** Conventions and bounds

    A w-bit integer is a [Z] with its reduction ([u32], [s64], ...) written
    where the code wraps.  Loops whose length is not structural take fuel and
    return [option]; the theorems give a fuel that is enough: [settings_fuel]
    for the parameter search (one turn per table entry or value of n), the
    length of the payload plus one for [sec_loop], the length of the buffer for
    [run_loop], three activations for [meson_clk_pll_v4_set_rate], the number
    of filters for [swdmx_demux_free], eight plus the number of keys for
    loading a block, two transfers for an area of the eMMC, more than the
    length of the text for the JSON parser, one more than the frames that are
    ready for the dummy receiver, three turns for one canvas and as many
    attempts as canvases for a run, one turn more than there are holders for
    the search for victims, more than the length of the map for the search of a
    key, two scans of a reserved area, the number of free blocks plus one for
    the search of a good one, the pages of a record plus one for reading it,
    128 data blocks and 8 descriptors for an extension of an EDID (an offset
    below 128 grows by at least 1, or by 18), and inside one data block the
    bytes it has or the size of the field that is filled, and one more.
    The key, flash, JSON, frame, canvas, resource and EDID files
    return an [outcome], in which an access outside a buffer is [Fault] and
    fuel that ran out [Spin].  Contents of uninitialised memory are
    explicit inputs.  Rates are below 2^63 Hz and parents below 2^32 Hz where a
    theorem needs a bound; allocation succeeds, because SWDMX_ASSERT does not
    return otherwise.

    ** Not modelled

    The CONFIG_ARM variants of the PLL code, spinlocks around register
    sequences, module and device-tree plumbing, logging, and the remaining
    drivers of the repository (PWM, video, sound, buses), the
    secure keys, the parameters of the reserved areas from device tree
    and command line, the sysfs files of the key manager,
    the frame registers, learning mode and wake-up tables of the infrared
    receiver, the debug files of the frame manager, of the canvases and of the resource
    manager, and its query and error-report ioctls, the printing of an EDID and
    the programming of the HDMI transmitter.  Runs of the resource
    manager have fewer than 2^31 sessions, limits and requests below 2^31, and
    create no resource again.
    The clock framework, the secure monitor, the regmap, SHA-256, the allocator,
    the NAND chip, the custom mode of the command line and the fuses are parameters with their documented behaviour as
    hypotheses. *)

From stdpp Require Import base list numbers functions.
From Stdlib Require Import ZArith Lia.

#[global] Open Scope Z_scope.

(** ** Machine integers

    The C types of the sources are kept as [Z] together with the explicit
    reduction to their width.  The kernel is built with
    [-fno-strict-overflow], so signed arithmetic wraps as well. *)

Declare Scope cint_scope.
Delimit Scope cint_scope with cint.

Definition u8 (x : Z) : Z := x mod 2 ^ 8.
Definition u16 (x : Z) : Z := x mod 2 ^ 16.
Definition u32 (x : Z) : Z := x mod 2 ^ 32.
Definition u64 (x : Z) : Z := x mod 2 ^ 64.
Definition s16 (x : Z) : Z := (x + 2 ^ 15) mod 2 ^ 16 - 2 ^ 15.
Definition s32 (x : Z) : Z := (x + 2 ^ 31) mod 2 ^ 32 - 2 ^ 31.
Definition s64 (x : Z) : Z := (x + 2 ^ 63) mod 2 ^ 64 - 2 ^ 63.

(** C truth value of an integer expression. *)
Definition truthy (x : Z) : bool := negb (x =? 0).

Notation "x .& y" := (Z.land x y) (at level 40, left associativity) : cint_scope.
Notation "x .| y" := (Z.lor x y) (at level 50, left associativity) : cint_scope.
Notation "x .^ y" := (Z.lxor x y) (at level 45, left associativity) : cint_scope.
Notation "x << y" := (Z.shiftl x y) (at level 38, left associativity) : cint_scope.
Notation "x >> y" := (Z.shiftr x y) (at level 38, left associativity) : cint_scope.
#[global] Open Scope cint_scope.

(** Kernel error numbers (include/uapi/asm-generic/errno*.h). *)
Definition EIO : Z := 5.
Definition EAGAIN : Z := 11.
Definition ENOMEM : Z := 12.
Definition ENODEV : Z := 19.
Definition EINVAL : Z := 22.
Definition ENODATA : Z := 61.
Definition ETIMEDOUT : Z := 110.
Definition ENOTSUPP : Z := 524.
Definition ULONG_MAX : Z := 2 ^ 64 - 1.

(** ** Tactics *)

Create HintDb cint.
Create Rewrite HintDb cint.

(** Turn boolean comparisons in the hypotheses into propositions. *)
Ltac b2p :=
  repeat match goal with
  | H : (_ && _)%bool = true |- _ => apply andb_prop in H; destruct H
  | H : (_ || _)%bool = false |- _ => apply orb_false_elim in H; destruct H
  | H : negb _ = true |- _ => apply negb_true_iff in H
  | H : negb _ = false |- _ => apply negb_false_iff in H
  | H : (_ =? _) = true |- _ => apply Z.eqb_eq in H
  | H : (_ =? _) = false |- _ => apply Z.eqb_neq in H
  | H : (_ <? _) = true |- _ => apply Z.ltb_lt in H
  | H : (_ <? _) = false |- _ => apply Z.ltb_ge in H
  | H : (_ <=? _) = true |- _ => apply Z.leb_le in H
  | H : (_ <=? _) = false |- _ => apply Z.leb_gt in H
  end.

(** Case analysis on the first condition of the goal, keeping its meaning. *)
Ltac case_if :=
  match goal with
  | |- context [if ?b then _ else _] => let E := fresh "E" in destruct b eqn:E; b2p
  end.

Ltac case_if_in H :=
  match type of H with
  | context [if ?b then _ else _] => let E := fresh "E" in destruct b eqn:E; b2p
  end.

(** Membership in an explicit list. *)
Ltac solve_in := solve [repeat first [left | right]].

(** ** Bounds of the width reductions *)

Lemma u8_range x : 0 <= u8 x < 256.
Proof. unfold u8. change (2 ^ 8) with 256. apply Z.mod_pos_bound; lia. Qed.

Lemma u16_range x : 0 <= u16 x < 65536.
Proof. unfold u16. change (2 ^ 16) with 65536. apply Z.mod_pos_bound; lia. Qed.

Lemma u32_range x : 0 <= u32 x < 2 ^ 32.
Proof. unfold u32. apply Z.mod_pos_bound; lia. Qed.

Lemma u64_range x : 0 <= u64 x < 2 ^ 64.
Proof. unfold u64. apply Z.mod_pos_bound; lia. Qed.

Lemma u8_small x : 0 <= x < 256 -> u8 x = x.
Proof. intros. apply Z.mod_small. change (2 ^ 8) with 256. lia. Qed.

Lemma u16_small x : 0 <= x < 65536 -> u16 x = x.
Proof. intros. apply Z.mod_small. change (2 ^ 16) with 65536. lia. Qed.

Lemma u32_small x : 0 <= x < 2 ^ 32 -> u32 x = x.
Proof. apply Z.mod_small. Qed.

Lemma u64_small x : 0 <= x < 2 ^ 64 -> u64 x = x.
Proof. apply Z.mod_small. Qed.

Lemma s16_small x : - 2 ^ 15 <= x < 2 ^ 15 -> s16 x = x.
Proof. intros. unfold s16. rewrite Z.mod_small by lia. lia. Qed.

Lemma s32_small x : - 2 ^ 31 <= x < 2 ^ 31 -> s32 x = x.
Proof. intros. unfold s32. rewrite Z.mod_small by lia. lia. Qed.

Lemma s64_small x : - 2 ^ 63 <= x < 2 ^ 63 -> s64 x = x.
Proof. intros. unfold s64. rewrite Z.mod_small by lia. lia. Qed.

#[export] Hint Resolve u8_range u16_range u32_range u64_range : cint.
#[export] Hint Rewrite u8_small u16_small u32_small u64_small using lia : cint.

(** ** Bits *)

(** Equality of integers bit by bit, with the masks pushed inwards. *)
Lemma land_ones_low x n : 0 <= n -> Z.land x (Z.ones n) = x mod 2 ^ n.
Proof. apply Z.land_ones. Qed.

Lemma land_mask_mod x n : 0 <= n -> Z.land x (2 ^ n - 1) = x mod 2 ^ n.
Proof. intros. rewrite <- Z.land_ones by done. by rewrite Z.ones_equiv, Z.sub_1_r. Qed.

Lemma lor_disjoint_add a b : Z.land a b = 0 -> Z.lor a b = a + b.
Proof. intros H. pose proof (Z.add_lor_land a b). lia. Qed.

(** [hi << n] and [lo < 2^n] do not overlap. *)
Lemma shiftl_lor_add hi lo n :
  0 <= n -> 0 <= lo < 2 ^ n -> Z.lor (Z.shiftl hi n) lo = hi * 2 ^ n + lo.
Proof.
  intros Hn Hlo. rewrite lor_disjoint_add; [by rewrite Z.shiftl_mul_pow2|].
  apply Z.bits_inj'. intros i Hi. rewrite Z.land_spec, Z.bits_0.
  destruct (Z.lt_ge_cases i n).
  - rewrite Z.shiftl_spec_low by done. done.
  - replace lo with (lo mod 2 ^ n) by (apply Z.mod_small; lia).
    rewrite Z.mod_pow2_bits_high by lia. apply andb_false_r.
Qed.

(** Linux: the first clear bit below [size], or [size]. *)
Fixpoint first_zero (m : Z) (i : Z) (n : nat) : Z :=
  match n with
  | O => i
  | S n => if Z.testbit m i then first_zero m (i + 1) n else i
  end.
Definition find_first_zero_bit (m size : Z) : Z := first_zero m 0 (Z.to_nat size).

Lemma first_zero_spec m n i :
  0 <= i -> let k := first_zero m i n in
  i <= k <= i + Z.of_nat n /\ (forall j, i <= j < k -> Z.testbit m j = true) /\
  (k < i + Z.of_nat n -> Z.testbit m k = false).
Proof.
  revert i. induction n as [|n IH]; intros i Hi; cbn [first_zero].
  - split; [lia|]. split; [intros; lia|lia].
  - destruct (Z.testbit m i) eqn:Ei.
    + destruct (IH (i + 1) ltac:(lia)) as (Hk & Hall & Hz). split; [lia|]. split; [|intros; apply Hz; lia].
      intros j Hj. destruct (Z.eq_dec j i) as [->|]; [done|]. apply Hall. lia.
    + split; [lia|]. split; [intros; lia|done].
Qed.

Lemma land_range a b : 0 <= a -> 0 <= Z.land a b <= a.
Proof.
  intros Ha. split; [apply Z.land_nonneg; by left|].
  pose proof (Z.add_lor_land a (Z.land a b)).
  apply Z.ldiff_le; [done|]. apply Z.bits_inj'. intros i Hi.
  rewrite Z.ldiff_spec, Z.land_spec, Z.bits_0.
  by destruct (Z.testbit a i), (Z.testbit b i).
Qed.

Lemma lor_bound a b n : 0 <= n -> 0 <= a < 2 ^ n -> 0 <= b < 2 ^ n -> 0 <= Z.lor a b < 2 ^ n.
Proof.
  intros Hn Ha Hb. split; [apply Z.lor_nonneg; lia|].
  rewrite <- (Z.mod_small a (2 ^ n)), <- (Z.mod_small b (2 ^ n)) by lia.
  replace (Z.lor (a mod 2 ^ n) (b mod 2 ^ n)) with ((Z.lor a b) mod 2 ^ n).
  - apply Z.mod_pos_bound. lia.
  - rewrite <- !Z.land_ones by done. by rewrite Z.land_lor_distr_l.
Qed.

Lemma lxor_bound a b n : 0 <= n -> 0 <= a < 2 ^ n -> 0 <= b < 2 ^ n -> 0 <= Z.lxor a b < 2 ^ n.
Proof.
  intros Hn Ha Hb. split; [apply Z.lxor_nonneg; lia|].
  replace (Z.lxor a b) with ((Z.lxor a b) mod 2 ^ n); [apply Z.mod_pos_bound; lia|].
  apply Z.bits_inj'. intros i Hi. destruct (Z.lt_ge_cases i n).
  - by rewrite Z.mod_pow2_bits_low.
  - rewrite Z.mod_pow2_bits_high by lia. rewrite Z.lxor_spec.
    rewrite <- (Z.mod_small a (2 ^ n)), <- (Z.mod_small b (2 ^ n)) by lia.
    by rewrite !Z.mod_pow2_bits_high by lia.
Qed.

(** ** Kernel arithmetic macros (include/linux/math.h, asm-generic/div64.h)

    On 64-bit targets [do_div] stores its divisor in a [uint32_t].  AArch64
    division by zero yields zero, as [Z.div] does. *)

Definition do_div_q (n base : Z) : Z := u64 n / u32 base.
Definition do_div_r (n base : Z) : Z := u64 n mod u32 base.
Definition div_u64 (n d : Z) : Z := u64 n / u32 d.
Definition DIV_ROUND_UP_ULL (ll d : Z) : Z := do_div_q (u64 (ll + d - 1)) d.
Definition DIV_ROUND_CLOSEST_ULL (x d : Z) : Z := do_div_q (u64 (x + d / 2)) d.

(** [abs] of an [unsigned long] expression: the kernel macro reads it as [long]. *)
Definition abs_ul (x : Z) : Z := let s := s64 x in if s <? 0 then s64 (- s) else s.

(** Rounded-up division. *)
Definition cdiv (a d : Z) : Z := (a + d - 1) / d.

Lemma cdiv_le a d q : 0 < d -> cdiv a d <= q <-> a <= d * q.
Proof.
  intros Hd. unfold cdiv. split; intros Hq.
  - pose proof (Z.mul_succ_div_gt (a + d - 1) d Hd). nia.
  - assert ((a + d - 1) / d < q + 1); [|lia]. apply Z.div_lt_upper_bound; lia.
Qed.

Lemma cdiv_ge a d : 0 < d -> a <= d * cdiv a d.
Proof. intros Hd. by apply cdiv_le. Qed.

Lemma cdiv_lt a d q : 0 < d -> q < cdiv a d <-> d * q < a.
Proof. intros Hd. pose proof (cdiv_le a d q Hd). lia. Qed.

Lemma cdiv_swap a d q : 0 < d -> 0 < q -> cdiv a d <= q <-> cdiv a q <= d.
Proof. intros Hd Hq. rewrite !cdiv_le by done. by rewrite Z.mul_comm. Qed.

Lemma cdiv_nonneg a d : 0 < d -> 0 <= a -> 0 <= cdiv a d.
Proof. intros. unfold cdiv. apply Z.div_pos; lia. Qed.

Lemma cdiv_antimono a d d' : 0 < d <= d' -> 0 <= a -> cdiv a d' <= cdiv a d.
Proof.
  intros Hd Ha. apply cdiv_le; [lia|]. pose proof (cdiv_le a d (cdiv a d) ltac:(lia)).
  pose proof (cdiv_nonneg a d). nia.
Qed.

(** Rounding the quotient and dividing again is stable. *)
Lemma cdiv_cdiv_idem a d :
  0 < d -> 0 < a -> cdiv a (cdiv a (cdiv a d)) = cdiv a d.
Proof.
  intros Hd Ha. set (r := cdiv a d).
  assert (Hr : 0 < r) by (apply cdiv_lt; lia).
  assert (Hd' : 0 < cdiv a r) by (apply cdiv_lt; lia).
  assert (cdiv a r <= d).
  { by apply cdiv_swap. }
  apply Z.le_antisymm.
  - by apply cdiv_swap.
  - unfold r at 1. apply cdiv_antimono; lia.
Qed.

(** Splitting off the integer part of a scaled quotient. *)
Lemma cdiv_scaled p r k :
  0 < r -> 0 <= p -> 0 < k -> k * (p / r) + cdiv ((p mod r) * k) r = cdiv (p * k) r.
Proof.
  intros Hr Hp Hk. unfold cdiv.
  replace (p * k + r - 1) with (k * (p / r) * r + ((p mod r) * k + r - 1))
    by (pose proof (Z.div_mod p r); nia).
  rewrite Z.div_add_l by lia. lia.
Qed.

Lemma DIV_ROUND_UP_ULL_cdiv ll d :
  0 <= ll -> 0 < d < 2 ^ 32 -> ll + d - 1 < 2 ^ 64 -> DIV_ROUND_UP_ULL ll d = cdiv ll d.
Proof.
  intros. unfold DIV_ROUND_UP_ULL, do_div_q, cdiv.
  by rewrite (u64_small (ll + d - 1)), u64_small, u32_small by lia.
Qed.

Lemma abs_ul_small x y :
  0 <= x < 2 ^ 63 -> 0 <= y < 2 ^ 63 -> abs_ul (u64 (x - y)) = Z.abs (x - y).
Proof.
  intros. unfold abs_ul.
  assert (s64 (u64 (x - y)) = x - y) as ->.
  { unfold s64, u64. rewrite Zplus_mod_idemp_l. rewrite Z.mod_small; lia. }
  case_if; [rewrite s64_small|]; lia.
Qed.

(** ** Concrete bit positions

    [bits_at] evaluates the bits of shifted and masked words at closed
    positions; [bits_upto] splits an equation between [n]-bit words into its
    bits. *)

Lemma testbit_above x n i : 0 <= x < 2 ^ n -> 0 <= n <= i -> Z.testbit x i = false.
Proof.
  intros Hx Hi. rewrite <- (Z.mod_small x (2 ^ n)) by done. apply Z.mod_pow2_bits_high. lia.
Qed.

Lemma testbit_u32 x i : 0 <= i < 32 -> Z.testbit (u32 x) i = Z.testbit x i.
Proof. intros. apply Z.mod_pow2_bits_low. lia. Qed.

Lemma bits_upto (n : nat) a b :
  0 <= a < 2 ^ Z.of_nat n -> 0 <= b < 2 ^ Z.of_nat n ->
  (forall i, (i < n)%nat -> Z.testbit a (Z.of_nat i) = Z.testbit b (Z.of_nat i)) -> a = b.
Proof.
  intros Ha Hb H. apply Z.bits_inj'. intros i Hi.
  destruct (Z.lt_ge_cases i (Z.of_nat n)).
  - specialize (H (Z.to_nat i)). rewrite Z2Nat.id in H by done. apply H. lia.
  - by rewrite !(testbit_above _ (Z.of_nat n)) by lia.
Qed.

Ltac is_closed x :=
  tryif (match x with context [?v] => is_var v end) then fail else idtac.

Ltac eval_index :=
  repeat match goal with
  | |- context [Z.testbit ?x ?n] =>
      lazymatch n with Z0 => fail | Zpos _ => fail | Zneg _ => fail | _ => idtac end;
      is_closed n;
      let m := eval vm_compute in n in
      lazymatch m with Z0 => idtac | Zpos _ => idtac | Zneg _ => idtac end;
      change (Z.testbit x n) with (Z.testbit x m)
  end.

Ltac eval_const_bits :=
  repeat match goal with
  | |- context [Z.testbit ?x ?n] =>
      is_closed x; is_closed n;
      let b := eval vm_compute in (Z.testbit x n) in
      lazymatch b with true => idtac | false => idtac end;
      change (Z.testbit x n) with b
  end.

Ltac bits_at :=
  repeat (eval_index; eval_const_bits;
    first [ rewrite Z.lor_spec | rewrite Z.land_spec | rewrite Z.lxor_spec
          | rewrite Z.lnot_spec by lia | rewrite testbit_u32 by lia
          | rewrite Z.shiftl_spec by lia | rewrite Z.shiftr_spec by lia
          | rewrite Z.testbit_neg_r by lia
          | match goal with H : 0 <= ?x < 2 ^ ?n |- context [Z.testbit ?x ?i] =>
              rewrite (testbit_above x n i H) by lia end ]);
  rewrite ?andb_true_r, ?andb_false_r, ?orb_true_r, ?orb_false_r, ?andb_true_l, ?andb_false_l,
    ?orb_true_l, ?orb_false_l; cbn [negb andb orb].

(** The bits below [n], one goal each, evaluated. *)
Tactic Notation "bit_cases" integer(n) :=
  let i := fresh "i" in
  intros i ?;
  do n (destruct i as [|i];
    [cbn [Z.of_nat Pos.of_succ_nat Pos.succ]; bits_at; try reflexivity|]); lia.
