(* ===== verification/Bakery.v ===== *)
(** * Bakery hardware spinlock (src/drivers/hwspinlock/hwspinlock_bakery.c)

    The lock lives in coherent memory shared by several CPUs that may not use
    exclusive-access instructions.  Every CPU runs the same routine at its own
    position; one step of the model is one access to the shared words (or a
    loop exit), so every interleaving of the real accesses is an execution of
    [step].  The theorems: mutual exclusion, the priority order between
    waiters, absence of deadlock, and what happens when a ticket does not fit
    the 15 bits of a word. *)

From S2P Require Import Prelude.
From stdpp Require Import base list numbers functions relations.

Local Open Scope Z_scope.
Local Open Scope cint_scope.

Module Bakery.

Definition HWSPINLOCK_DEFAULT_VALUE : Z := 0xa5a5a5a5.
Definition HWSPINLOCK_MAX_CPUS : nat := 5.
Definition CHOOSING_TICKET : Z := 1.
Definition CHOSEN_TICKET : Z := 0.

Definition PRIORITY (t pos : Z) : Z := u32 ((t << 8) .| pos).

Definition bakery_is_choosing (info : Z) : Z := info .& 1.
Definition bakery_ticket_number (info : Z) : Z := (info >> 1) .& 0x7FFF.
Definition make_bakery_data (choosing number : Z) : Z :=
  ((choosing .& 1) .| u32 (number << 1)) .& 0xFFFF.

(** Program counter of one CPU, with the live locals of
    [pBakery_get_ticket] and [aml_hwspinlock_trylock]:
    - [PUninit]: before [aml_hwspinlock_probe] cleared its word;
    - [PIdle]: not contending;
    - [PMax1 they my], [PMax2 they my]: the ticket loop, before the
      comparison with the default value and before the ticket read;
    - [PCheck t they]: the acquisition loop, before the default-value read;
    - [PWaitChoosing t they]: the inner loop on the choosing bit;
    - [PSpin t they their]: the inner loop on the other's ticket;
    - [PCritical t]: [trylock] has returned true;
    - [PAssert]: stopped in [__assert]. *)
Inductive pc :=
  | PUninit
  | PIdle
  | PMax1 (they : nat) (my : Z)
  | PMax2 (they : nat) (my : Z)
  | PCheck (t : Z) (they : nat)
  | PWaitChoosing (t : Z) (they : nat)
  | PSpin (t : Z) (they : nat) (their : Z)
  | PCritical (t : Z)
  | PAssert.

Record state := State {
  lock_data : nat -> Z;
  pcs : nat -> pc;
}.

(** Write one's own word and move. *)
Definition put (s : state) (me : nat) (v : Z) (p : pc) : state :=
  State (<[me := v]> (lock_data s)) (<[me := p]> (pcs s)).

(** Move without writing. *)
Definition goto (s : state) (me : nat) (p : pc) : state :=
  State (lock_data s) (<[me := p]> (pcs s)).

(** The part of [aml_hwspinlock_probe] that initialises the lock words: every
    CPU clears the word at its own position. *)
Definition probe_clear (s : state) (me : nat) : state := put s me 0 PIdle.

Section Steps.
Context (cpus : nat).

(** [pBakery_get_ticket], one access at a time: entry (assertion, choosing
    mark), the loop over the other words, and the final write. *)
Definition get_ticket_enter (s : state) (me : nat) : state :=
  if truthy (bakery_ticket_number (lock_data s me)) then goto s me PAssert
  else put s me (make_bakery_data CHOOSING_TICKET 0) (PMax1 0 0).

Definition get_ticket_loop (s : state) (me they : nat) (my : Z) : state :=
  if (they <? cpus)%nat then
    if (they =? me)%nat || (lock_data s they =? HWSPINLOCK_DEFAULT_VALUE)
    then goto s me (PMax1 (S they) my)
    else goto s me (PMax2 they my)
  else
    let my := u32 (my + 1) in
    put s me (make_bakery_data CHOSEN_TICKET my) (PCheck my 0).

Definition get_ticket_read (s : state) (me they : nat) (my : Z) : state :=
  let their_ticket := bakery_ticket_number (lock_data s they) in
  goto s me (PMax1 (S they) (if my <? their_ticket then their_ticket else my)).

(** [aml_hwspinlock_trylock] after the ticket, one access at a time. *)
Definition trylock_check (s : state) (me they : nat) (t : Z) : state :=
  if (they <? cpus)%nat then
    if (me =? they)%nat || (lock_data s they =? HWSPINLOCK_DEFAULT_VALUE)
    then goto s me (PCheck t (S they))
    else goto s me (PWaitChoosing t they)
  else goto s me (PCritical t).

Definition trylock_choosing (s : state) (me they : nat) (t : Z) : state :=
  let their_bakery_data := lock_data s they in
  if truthy (bakery_is_choosing their_bakery_data) then s
  else
    let their_ticket := bakery_ticket_number their_bakery_data in
    if truthy their_ticket
       && (PRIORITY their_ticket (Z.of_nat they) <? PRIORITY t (Z.of_nat me))
    then goto s me (PSpin t they their_ticket)
    else goto s me (PCheck t (S they)).

Definition trylock_spin (s : state) (me they : nat) (t their : Z) : state :=
  if their =? bakery_ticket_number (lock_data s they) then s
  else goto s me (PCheck t (S they)).

(** [aml_hwspinlock_unlock]. *)
Definition unlock (s : state) (me : nat) : state :=
  if truthy (bakery_ticket_number (lock_data s me)) then put s me 0 PIdle
  else goto s me PAssert.

(** One atomic action of CPU [me]. *)
Definition exec (me : nat) (s : state) : state :=
  match pcs s me with
  | PUninit => probe_clear s me
  | PIdle => get_ticket_enter s me
  | PMax1 they my => get_ticket_loop s me they my
  | PMax2 they my => get_ticket_read s me they my
  | PCheck t they => trylock_check s me they t
  | PWaitChoosing t they => trylock_choosing s me they t
  | PSpin t they their => trylock_spin s me they t their
  | PCritical t => unlock s me
  | PAssert => s
  end.

(** Any CPU may act next. *)
Inductive step (s : state) : state -> Prop :=
  | step_cpu me : (me < cpus)%nat -> step s (exec me s).

(** Before the first probe every word holds the default value. *)
Definition init : state := State (fun _ => HWSPINLOCK_DEFAULT_VALUE) (fun _ => PUninit).

(** The ticket a CPU holds, when it has finished choosing. *)
Definition ticket_of (p : pc) : option Z :=
  match p with
  | PCheck t _ | PWaitChoosing t _ | PSpin t _ _ | PCritical t => Some t
  | _ => None
  end.

(** Between the start of [trylock] and the end of [unlock]. *)
Definition contending (p : pc) : bool :=
  match p with PUninit | PIdle | PAssert => false | _ => true end.

(** Every ticket held fits the 15 bits the word has for it. *)
Definition tickets_fit (s : state) : Prop :=
  forall i t, ticket_of (pcs s i) = Some t -> t < 2 ^ 15.

(** Executions along which no ticket outgrows its field. *)
Inductive reachable : state -> Prop :=
  | reach_init : reachable init
  | reach_step s s' : reachable s -> step s s' -> tickets_fit s' -> reachable s'.

End Steps.

(** ** The packed words *)

Lemma PRIORITY_eq t pos :
  0 <= t < 2 ^ 15 -> 0 <= pos < 256 -> PRIORITY t pos = t * 256 + pos.
Proof.
  intros Ht Hp. unfold PRIORITY. rewrite shiftl_lor_add by lia.
  change (2 ^ 8) with 256. rewrite u32_small; lia.
Qed.

Lemma make_chosen n : 0 <= n < 2 ^ 15 -> make_bakery_data CHOSEN_TICKET n = 2 * n.
Proof.
  intros Hn. unfold make_bakery_data, CHOSEN_TICKET.
  rewrite Z.land_0_l, Z.lor_0_l, Z.shiftl_mul_pow2, u32_small by lia.
  change 0xFFFF with (2 ^ 16 - 1). rewrite land_mask_mod by lia.
  rewrite Z.mod_small; lia.
Qed.

Lemma ticket_chosen n :
  0 <= n < 2 ^ 15 -> bakery_ticket_number (make_bakery_data CHOSEN_TICKET n) = n.
Proof.
  intros Hn. rewrite make_chosen by done. unfold bakery_ticket_number.
  rewrite Z.shiftr_div_pow2 by lia. change 0x7FFF with (2 ^ 15 - 1).
  rewrite land_mask_mod by lia. change (2 ^ 1) with 2.
  replace (2 * n / 2) with n by (symmetry; rewrite Z.mul_comm; apply Z.div_mul; lia).
  apply Z.mod_small; lia.
Qed.

Lemma choosing_chosen n :
  0 <= n < 2 ^ 15 -> bakery_is_choosing (make_bakery_data CHOSEN_TICKET n) = 0.
Proof.
  intros Hn. rewrite make_chosen by done. unfold bakery_is_choosing.
  change 1 with (2 ^ 1 - 1). rewrite land_mask_mod by lia.
  change (2 ^ 1) with 2. rewrite Z.mul_comm. apply Z.mod_mul. lia.
Qed.

Lemma chosen_not_default n :
  0 <= n < 2 ^ 15 -> make_bakery_data CHOSEN_TICKET n <> HWSPINLOCK_DEFAULT_VALUE.
Proof. intros Hn. rewrite make_chosen by done. unfold HWSPINLOCK_DEFAULT_VALUE. lia. Qed.

(** ** The invariant *)

Section Invariant.
Context (cpus : nat) (Hcpus : (cpus <= HWSPINLOCK_MAX_CPUS)%nat).

(** CPU [i], holding ticket [t], precedes CPU [j] whose counter is [p]. *)
Definition before (t : Z) (i : nat) (p : pc) (j : nat) : Prop :=
  match p with
  | PUninit | PIdle => True
  | PMax1 k my | PMax2 k my => (i < k)%nat -> t <= my
  | PCheck u _ | PWaitChoosing u _ | PSpin u _ _ | PCritical u =>
      PRIORITY t (Z.of_nat i) < PRIORITY u (Z.of_nat j)
  | PAssert => False
  end.

(** What the own word and counter of CPU [i] satisfy. *)
Definition local_ok (i : nat) (p : pc) (w : Z) : Prop :=
  ((cpus <= i)%nat -> p = PUninit) /\
  match p with
  | PUninit => w = HWSPINLOCK_DEFAULT_VALUE
  | PIdle => w = 0
  | PMax1 k my => w = 1 /\ 0 <= my < 2 ^ 15 /\ (k <= cpus)%nat
  | PMax2 k my => w = 1 /\ 0 <= my < 2 ^ 15 /\ (k < cpus)%nat /\ k <> i
  | PCheck t k => w = make_bakery_data CHOSEN_TICKET t /\ 0 < t < 2 ^ 15 /\ (k <= cpus)%nat
  | PWaitChoosing t k =>
      w = make_bakery_data CHOSEN_TICKET t /\ 0 < t < 2 ^ 15 /\ (k < cpus)%nat /\ k <> i
  | PSpin t k their =>
      w = make_bakery_data CHOSEN_TICKET t /\ 0 < t < 2 ^ 15 /\ (k < cpus)%nat /\ k <> i /\
      their <> 0 /\ PRIORITY their (Z.of_nat k) < PRIORITY t (Z.of_nat i)
  | PCritical t => w = make_bakery_data CHOSEN_TICKET t /\ 0 < t < 2 ^ 15
  | PAssert => False
  end.

(** What CPU [i] knows of CPU [j]: once past [j] it precedes [j]; while it
    spins on [j]'s ticket, either [j] still holds it or [i] precedes [j]. *)
Definition pair_ok (i : nat) (p : pc) (j : nat) (q : pc) : Prop :=
  match p with
  | PCheck t k => (j < k)%nat -> before t i q j
  | PWaitChoosing t k => ((j < k)%nat -> before t i q j) /\ (j = k -> q <> PUninit)
  | PSpin t k their =>
      ((j < k)%nat -> before t i q j) /\
      (j = k -> q <> PUninit /\ (ticket_of q = Some their \/ before t i q j))
  | PCritical t => before t i q j
  | _ => True
  end.

Definition inv (s : state) : Prop :=
  (forall i, local_ok i (pcs s i) (lock_data s i)) /\
  (forall i j, i <> j -> pair_ok i (pcs s i) j (pcs s j)).

Lemma inv_init : inv init.
Proof. by split; [intros i; split|]. Qed.

(** Rule for one CPU's move: its own obligations, and both directions of the
    pairs it takes part in. *)
Lemma inv_put s me v p :
  inv s -> local_ok me p v ->
  (forall j, j <> me -> pair_ok me p j (pcs s j)) ->
  (forall i, i <> me -> pair_ok i (pcs s i) me p) ->
  inv (put s me v p).
Proof.
  intros [HL HP] Hme Hout Hin. split; cbn.
  - intros i. destruct (decide (i = me)) as [->|Hne].
    + by rewrite !fn_lookup_insert.
    + by rewrite !fn_lookup_insert_ne by done.
  - intros i j Hij. destruct (decide (i = me)) as [->|Hi], (decide (j = me)) as [->|Hj].
    + done.
    + rewrite fn_lookup_insert, fn_lookup_insert_ne by done. auto.
    + rewrite fn_lookup_insert, fn_lookup_insert_ne by done. auto.
    + rewrite !fn_lookup_insert_ne by done. auto.
Qed.

Lemma inv_goto s me p :
  inv s -> local_ok me p (lock_data s me) ->
  (forall j, j <> me -> pair_ok me p j (pcs s j)) ->
  (forall i, i <> me -> pair_ok i (pcs s i) me p) ->
  inv (goto s me p).
Proof.
  intros Hinv Hme Hout Hin. pose proof (inv_put s me _ p Hinv Hme Hout Hin) as [HL HP].
  split; [|done]. intros i. specialize (HL i). revert HL. cbn.
  destruct (decide (i = me)) as [->|Hne].
  - by rewrite !fn_lookup_insert.
  - by rewrite !fn_lookup_insert_ne by done.
Qed.

(** What the others know of [me] survives a move that keeps precedence. *)
Lemma pair_ok_mono i q me p p' :
  (forall t, ticket_of q = Some t -> before t i p me -> before t i p' me) ->
  (forall t th, ticket_of q = Some t -> ticket_of p = Some th ->
     ticket_of p' = Some th \/ before t i p' me) ->
  (p' = PUninit -> p = PUninit) ->
  pair_ok i q me p -> pair_ok i q me p'.
Proof.
  intros Hb Ht Hu. destruct q; cbn in *; naive_solver.
Qed.

(** Reading a word tells where its owner is. *)
Lemma read_default s j :
  inv s -> lock_data s j = HWSPINLOCK_DEFAULT_VALUE -> pcs s j = PUninit.
Proof.
  intros [HL _] Hw. destruct (HL j) as [_ H]. rewrite Hw in H.
  destruct (pcs s j); try done; destruct_and?; try done; exfalso;
    match goal with H : _ = make_bakery_data _ ?t |- _ =>
      symmetry in H; revert H; apply chosen_not_default; lia end.
Qed.

Lemma read_ticketed s j t :
  inv s -> ticket_of (pcs s j) = Some t ->
  lock_data s j = make_bakery_data CHOSEN_TICKET t /\ 0 < t < 2 ^ 15 /\ (j < cpus)%nat.
Proof.
  intros [HL _] Ht. destruct (HL j) as [Hlt H].
  assert ((j < cpus)%nat).
  { destruct (decide (j < cpus)%nat) as [|Hge]; [done|].
    rewrite Hlt in Ht by lia. done. }
  destruct (pcs s j); cbn in *; try done; destruct_and?; simplify_eq; done.
Qed.

Lemma read_not_choosing s j :
  inv s -> bakery_is_choosing (lock_data s j) = 0 ->
  pcs s j = PIdle \/ exists t, ticket_of (pcs s j) = Some t.
Proof.
  intros [HL _] Hw. destruct (HL j) as [_ H].
  destruct (pcs s j); cbn in *; destruct_and?; subst; eauto; try done.
  - rewrite H in Hw. done.
  - match goal with H : lock_data s j = 1 |- _ => rewrite H in Hw end. done.
  - match goal with H : lock_data s j = 1 |- _ => rewrite H in Hw end. done.
Qed.

Lemma PRIORITY_lt t i u j :
  0 < t < 2 ^ 15 -> 0 < u < 2 ^ 15 -> (i < cpus)%nat -> (j < cpus)%nat ->
  (PRIORITY t (Z.of_nat i) < PRIORITY u (Z.of_nat j) <-> t < u \/ t = u /\ (i < j)%nat).
Proof. intros. unfold HWSPINLOCK_MAX_CPUS in Hcpus. rewrite !PRIORITY_eq by lia. lia. Qed.

(** ** Every step preserves the invariant *)

Lemma inv_probe s me : inv s -> (me < cpus)%nat -> inv (probe_clear s me).
Proof.
  intros Hinv Hme. apply inv_put; [done| split; [lia|done] | done |].
  intros i Hi. destruct Hinv as [_ HP]. eapply pair_ok_mono, HP; try done.
  intros. by right.
Qed.

Lemma inv_enter s me : inv s -> (me < cpus)%nat -> pcs s me = PIdle -> inv (get_ticket_enter s me).
Proof.
  intros Hinv Hme Hpc. pose proof Hinv as [HL HP]. destruct (HL me) as [_ Hw].
  rewrite Hpc in Hw. unfold get_ticket_enter. rewrite Hw. cbn.
  apply inv_put; [done| split; [lia|split; [done|lia]] | done |].
  intros i Hi. eapply pair_ok_mono, HP; [..|done]; rewrite Hpc; cbn; try done; lia.
Qed.

(** Precedence over a CPU that is choosing survives its reads. *)
Lemma before_max1 s me k my i t :
  inv s -> (me < cpus)%nat -> pcs s me = PMax1 k my ->
  tickets_fit (get_ticket_loop cpus s me k my) -> i <> me ->
  ticket_of (pcs s i) = Some t -> before t i (PMax1 k my) me ->
  before t i (pcs (get_ticket_loop cpus s me k my) me) me.
Proof.
  intros Hinv Hme Hpc Hfit Hi Ht Hb. pose proof Hinv as [HL _]. destruct (HL me) as [_ Hw].
  rewrite Hpc in Hw. destruct Hw as (Hw & Hmy & Hk).
  destruct (read_ticketed s i t Hinv Ht) as (_ & Htr & Hic).
  revert Hfit. unfold get_ticket_loop. destruct (Nat.ltb_spec k cpus) as [Hkc|Hkc].
  - intros _. destruct (_ || _) eqn:E; cbn; rewrite fn_lookup_insert; cbn in *; [|done].
    intros Hik. apply Hb. enough (i <> k) by lia. intros ->.
    apply orb_prop in E as [E|E]; [apply Nat.eqb_eq in E; done|]. apply Z.eqb_eq in E.
    apply (read_default s) in E; [|done]. rewrite E in Ht. done.
  - rewrite (u32_small (my + 1)) by lia. intros Hfit.
    assert (my + 1 < 2 ^ 15) by (apply (Hfit me); cbn; by rewrite fn_lookup_insert).
    cbn in *. rewrite fn_lookup_insert. cbn. apply PRIORITY_lt; lia.
Qed.

Lemma before_max2 s me k my i t :
  inv s -> pcs s me = PMax2 k my -> ticket_of (pcs s i) = Some t ->
  before t i (PMax2 k my) me -> before t i (pcs (get_ticket_read s me k my) me) me.
Proof.
  intros Hinv Hpc Ht Hb. unfold get_ticket_read. cbn in *. rewrite fn_lookup_insert. cbn.
  intros Hik. destruct (decide (i = k)) as [->|Hne].
  - apply (read_ticketed s) in Ht as (Hwk & Ht & _); [|done].
    rewrite Hwk, ticket_chosen by lia. case_if; lia.
  - specialize (Hb ltac:(lia)). case_if; lia.
Qed.

Lemma inv_max1 s me k my :
  inv s -> (me < cpus)%nat -> pcs s me = PMax1 k my ->
  tickets_fit (get_ticket_loop cpus s me k my) -> inv (get_ticket_loop cpus s me k my).
Proof.
  intros Hinv Hme Hpc Hfit. pose proof Hinv as [HL HP]. destruct (HL me) as [_ Hw].
  rewrite Hpc in Hw. destruct Hw as (Hw & Hmy & Hk).
  pose proof (fun i t => before_max1 s me k my i t Hinv Hme Hpc Hfit) as HB.
  revert HB Hfit. unfold get_ticket_loop.
  destruct (Nat.ltb_spec k cpus) as [Hkc|Hkc]; [destruct (_ || _) eqn:E|];
    cbn [pcs goto put]; rewrite fn_lookup_insert; intros HB Hfit.
  - apply inv_goto; [done| split; [lia|cbn; lia] | done |].
    intros i Hi. eapply pair_ok_mono, HP; [..|done]; rewrite Hpc; eauto; done.
  - apply orb_false_elim in E as [E _]. apply Nat.eqb_neq in E.
    apply inv_goto; [done| split; [lia|cbn; lia] | done |].
    intros i Hi. eapply pair_ok_mono, HP; [..|done]; rewrite Hpc; eauto; done.
  - rewrite (u32_small (my + 1)) in * by lia.
    assert (my + 1 < 2 ^ 15) by (apply (Hfit me); cbn; by rewrite fn_lookup_insert).
    apply inv_put; [done| split; [lia|split; [done|lia]] | cbn; lia |].
    intros i Hi. eapply pair_ok_mono, HP; [..|done]; rewrite Hpc; eauto; done.
Qed.

Lemma inv_max2 s me k my :
  inv s -> (me < cpus)%nat -> pcs s me = PMax2 k my -> inv (get_ticket_read s me k my).
Proof.
  intros Hinv Hme Hpc. pose proof Hinv as [HL HP]. destruct (HL me) as [_ Hw].
  rewrite Hpc in Hw. destruct Hw as (Hw & Hmy & Hk & Hkm).
  pose proof (fun i t => before_max2 s me k my i t Hinv Hpc) as HB.
  revert HB. unfold get_ticket_read. cbn [pcs goto]. rewrite fn_lookup_insert. intros HB.
  assert (0 <= bakery_ticket_number (lock_data s k) < 2 ^ 15).
  { unfold bakery_ticket_number. change 0x7FFF with (2 ^ 15 - 1).
    rewrite land_mask_mod by lia. apply Z.mod_pos_bound. lia. }
  apply inv_goto; [done| split; [lia|split; [done|case_if; lia]] | done |].
  intros i Hi. eapply pair_ok_mono, HP; [..|done]; rewrite Hpc; eauto; done.
Qed.

(** The moves that keep the ticket do not change what the others know. *)
Lemma same_ticket_in s me p t i :
  inv s -> ticket_of (pcs s me) = Some t -> ticket_of p = Some t -> i <> me ->
  pair_ok i (pcs s i) me p.
Proof.
  intros [_ HP] Ht Hp Hi. specialize (HP i me Hi). revert HP.
  apply pair_ok_mono.
  - intros u _. by destruct (pcs s me), p; cbn in *; simplify_eq.
  - intros u th _ Hth. left. congruence.
  - intros ->. done.
Qed.

Lemma inv_check s me k t :
  inv s -> (me < cpus)%nat -> pcs s me = PCheck t k -> inv (trylock_check cpus s me k t).
Proof.
  intros Hinv Hme Hpc. pose proof Hinv as [HL HP]. destruct (HL me) as [_ Hw].
  rewrite Hpc in Hw. destruct Hw as (Hw & Ht & Hk). unfold trylock_check.
  assert (Hkn : forall j, j <> me -> (j < k)%nat -> before t me (pcs s j) j).
  { intros j Hj Hjk. specialize (HP me j ltac:(done)). rewrite Hpc in HP. auto. }
  assert (Hin : forall p i, ticket_of p = Some t -> i <> me -> pair_ok i (pcs s i) me p).
  { intros p i. apply same_ticket_in; [done|by rewrite Hpc]. }
  destruct (Nat.ltb_spec k cpus) as [Hkc|Hkc]; [destruct (_ || _) eqn:E|].
  - apply inv_goto; [done| split; [lia|split; [done|lia]] | | auto].
    intros j Hj Hjk. destruct (decide (j = k)) as [->|]; [|apply Hkn; lia].
    apply orb_prop in E as [E|E]; [apply Nat.eqb_eq in E; done|]. apply Z.eqb_eq in E.
    apply (read_default s) in E; [|done]. by rewrite E.
  - apply orb_false_elim in E as [E1 E2]. apply Nat.eqb_neq in E1. b2p.
    apply inv_goto; [done| split; [lia|split; [done|lia]] | | auto].
    intros j Hj. split; [auto|]. intros -> Hu. destruct (HL k) as [_ Hwk].
    rewrite Hu in Hwk. done.
  - apply inv_goto; [done| split; [lia|done] | | auto].
    intros j Hj. destruct (decide (j < cpus)%nat); [apply Hkn; lia|].
    destruct (HL j) as [Hu _]. cbn. rewrite Hu by lia. done.
Qed.

Lemma inv_wait s me k t :
  inv s -> (me < cpus)%nat -> pcs s me = PWaitChoosing t k -> inv (trylock_choosing s me k t).
Proof.
  intros Hinv Hme Hpc. pose proof Hinv as [HL HP]. destruct (HL me) as [_ Hw].
  rewrite Hpc in Hw. destruct Hw as (Hw & Ht & Hk & Hkm). unfold trylock_choosing.
  assert (Hkn : forall j, j <> me -> (j < k)%nat -> before t me (pcs s j) j).
  { intros j Hj Hjk. specialize (HP me j ltac:(done)). rewrite Hpc in HP. by apply HP. }
  assert (Hin : forall p i, ticket_of p = Some t -> i <> me -> pair_ok i (pcs s i) me p).
  { intros p i. apply same_ticket_in; [done|by rewrite Hpc]. }
  destruct (truthy (bakery_is_choosing _)) eqn:Ec; [done|].
  unfold truthy in Ec. b2p. pose proof (read_not_choosing s k Hinv Ec) as Hnc.
  destruct (truthy _ && _) eqn:E.
  - b2p. apply inv_goto; [done| | | auto].
    { split; [lia|]. unfold truthy in *. b2p. done. }
    intros j Hj. split; [auto|]. intros ->.
    destruct Hnc as [Hi|[u Hu]].
    + destruct (HL k) as [_ Hwk]. rewrite Hi in Hwk. cbn in Hwk.
      match goal with H : truthy _ = true |- _ => rewrite Hwk in H; done end.
    + destruct (read_ticketed s k u Hinv Hu) as (Hwk & Hur & _).
      rewrite Hwk, ticket_chosen by lia. split; [by intros Hn; rewrite Hn in Hu|by left].
  - apply inv_goto; [done| split; [lia|split; [done|lia]] | | auto].
    intros j Hj Hjk. destruct (decide (j = k)) as [->|]; [|apply Hkn; lia].
    destruct Hnc as [Hi|[u Hu]]; [by rewrite Hi|].
    destruct (read_ticketed s k u Hinv Hu) as (Hwk & Hur & Hkc).
    rewrite Hwk, ticket_chosen in E by lia. unfold truthy in E.
    destruct (Z.eqb_spec u 0); [lia|]. cbn in E. b2p.
    pose proof (PRIORITY_lt t me u k). pose proof (PRIORITY_lt u k t me).
    assert (PRIORITY t (Z.of_nat me) < PRIORITY u (Z.of_nat k)) by lia.
    destruct (pcs s k); cbn in Hu |- *; simplify_eq; done.
Qed.

Lemma inv_spin s me k t their :
  inv s -> (me < cpus)%nat -> pcs s me = PSpin t k their -> inv (trylock_spin s me k t their).
Proof.
  intros Hinv Hme Hpc. pose proof Hinv as [HL HP]. destruct (HL me) as [_ Hw].
  rewrite Hpc in Hw. destruct Hw as (Hw & Ht & Hk & Hkm & _ & _). unfold trylock_spin.
  destruct (Z.eqb_spec their (bakery_ticket_number (lock_data s k))) as [|Hne]; [done|].
  apply inv_goto; [done| split; [lia|split; [done|lia]] | |].
  - intros j Hj Hjk. specialize (HP me j ltac:(done)). rewrite Hpc in HP.
    destruct HP as [H1 H2]. destruct (decide (j = k)) as [->|]; [|apply H1; lia].
    destruct (H2 eq_refl) as [_ [Hu|]]; [|done].
    destruct (read_ticketed s k _ Hinv Hu) as (Hwk & Hur & _).
    rewrite Hwk, ticket_chosen in Hne by lia. done.
  - intros i. by apply same_ticket_in with t; [|rewrite Hpc|].
Qed.

Lemma inv_unlock s me t :
  inv s -> (me < cpus)%nat -> pcs s me = PCritical t -> inv (unlock s me).
Proof.
  intros Hinv Hme Hpc. pose proof Hinv as [HL HP].
  destruct (read_ticketed s me t Hinv ltac:(by rewrite Hpc)) as (Hw & Ht & _).
  unfold unlock. rewrite Hw, ticket_chosen by lia.
  unfold truthy. destruct (Z.eqb_spec t 0); [lia|]. cbn.
  apply inv_put; [done| split; [lia|done] | done |].
  intros i Hi. eapply pair_ok_mono, HP; try done. intros. by right.
Qed.

Lemma inv_exec s me :
  inv s -> (me < cpus)%nat -> tickets_fit (exec cpus me s) -> inv (exec cpus me s).
Proof.
  intros Hinv Hme Hfit. unfold exec in *.
  destruct (pcs s me) eqn:Hpc;
    eauto using inv_probe, inv_enter, inv_max1, inv_max2, inv_check, inv_wait,
      inv_spin, inv_unlock.
Qed.

Lemma inv_reachable s : reachable cpus s -> inv s.
Proof.
  induction 1 as [|s s' _ IH Hstep Hfit]; [apply inv_init|].
  destruct Hstep. by apply inv_exec.
Qed.

(** Precedence over [me] survives any action of [me]. *)
Lemma before_exec s me i t :
  inv s -> (me < cpus)%nat -> tickets_fit (exec cpus me s) -> i <> me ->
  ticket_of (pcs s i) = Some t -> before t i (pcs s me) me ->
  before t i (pcs (exec cpus me s) me) me.
Proof.
  intros Hinv Hme Hfit Hi Ht. pose proof (inv_exec s me Hinv Hme Hfit) as [HL' _].
  specialize (HL' me). revert Hfit HL'. unfold exec.
  destruct (pcs s me) eqn:Hpc; intros Hfit HL' Hb.
  - cbn. by rewrite fn_lookup_insert.
  - revert HL'. unfold get_ticket_enter. case_if; cbn; rewrite !fn_lookup_insert; cbn; [|lia].
    by intros [].
  - by apply before_max1.
  - by apply before_max2.
  - unfold trylock_check. repeat case_if; cbn; by rewrite fn_lookup_insert.
  - unfold trylock_choosing. repeat case_if; cbn; rewrite ?fn_lookup_insert; by rewrite ?Hpc.
  - unfold trylock_spin. case_if; cbn; rewrite ?fn_lookup_insert; by rewrite ?Hpc.
  - revert HL'. unfold unlock. case_if; cbn; rewrite !fn_lookup_insert; cbn; [done|].
    by intros [].
  - done.
Qed.

Lemma exec_other s me j : j <> me -> pcs (exec cpus me s) j = pcs s j.
Proof.
  intros Hj. unfold exec, probe_clear, get_ticket_enter, get_ticket_loop, get_ticket_read,
    trylock_check, trylock_choosing, trylock_spin, unlock.
  destruct (pcs s me); repeat case_if; cbn; by rewrite ?fn_lookup_insert_ne by done.
Qed.

(** Whether CPU [me] can leave its current program point. *)
Definition advances (s : state) (me : nat) : Prop :=
  pcs (exec cpus me s) me <> pcs s me.

Lemma choosing_advances s me k my :
  inv s -> pcs s me = PMax1 k my \/ pcs s me = PMax2 k my -> advances s me.
Proof.
  intros [HL _] Hpc. unfold advances, exec. destruct (HL me) as [_ Hw].
  destruct Hpc as [Hpc|Hpc]; rewrite Hpc.
  - unfold get_ticket_loop. repeat case_if; cbn; rewrite fn_lookup_insert; try done.
    intros [=]. lia.
  - unfold get_ticket_read. cbn. by rewrite fn_lookup_insert.
Qed.

(** A CPU with a ticket advances, or waits for one that is choosing, or waits
    for one with a strictly better priority. *)
Lemma ticketed_advances s me t :
  inv s -> (me < cpus)%nat -> ticket_of (pcs s me) = Some t ->
  advances s me \/
  (exists j k my, (j < cpus)%nat /\ (pcs s j = PMax1 k my \/ pcs s j = PMax2 k my)) \/
  (exists j u, (j < cpus)%nat /\ ticket_of (pcs s j) = Some u /\
     PRIORITY u (Z.of_nat j) < PRIORITY t (Z.of_nat me)).
Proof.
  intros Hinv Hme Ht. pose proof Hinv as [HL HP]. destruct (HL me) as [_ Hw].
  unfold advances, exec. destruct (pcs s me) as [| | | |t' k|t' k|t' k th|t'|] eqn:Hpc;
    cbn in Ht; simplify_eq.
  - left. unfold trylock_check. repeat case_if; cbn; rewrite fn_lookup_insert; try done.
    intros [=]. lia.
  - destruct Hw as (_ & _ & Hk & Hkm). unfold trylock_choosing.
    destruct (truthy (bakery_is_choosing _)) eqn:Ec.
    + right; left. specialize (HP me k ltac:(done)). rewrite Hpc in HP.
      destruct HP as [_ Hu]. specialize (Hu eq_refl). destruct (HL k) as [_ Hwk].
      destruct (pcs s k) as [| |k' my|k' my| | | | |] eqn:Hk'; try done;
        [rewrite Hwk in Ec; done | eauto 10 | eauto 10 |..];
        destruct_and?; match goal with H : lock_data s k = _ |- _ => rewrite H in Ec end;
        rewrite choosing_chosen in Ec by lia; done.
    + left. case_if; cbn; by rewrite fn_lookup_insert.
  - destruct Hw as (_ & Ht & Hk & Hkm & Hth & Hp). unfold trylock_spin.
    destruct (Z.eqb_spec th (bakery_ticket_number (lock_data s k))) as [He|];
      [right|left; cbn; by rewrite fn_lookup_insert].
    specialize (HP me k ltac:(done)). rewrite Hpc in HP.
    destruct HP as [_ Hu]. destruct (Hu eq_refl) as [Hnu _]. destruct (HL k) as [_ Hwk].
    destruct (ticket_of (pcs s k)) as [u|] eqn:Hku.
    + destruct (read_ticketed s k u Hinv Hku) as (Hwu & Hur & _).
      rewrite Hwu, ticket_chosen in He by lia. subst. eauto 10.
    + destruct (pcs s k) as [| |k' my|k' my| | | | |] eqn:Hk'; try done; [|left; eauto 10..].
      cbn in Hwk. rewrite Hwk in He. done.
  - left. unfold unlock. case_if; cbn; by rewrite fn_lookup_insert.
Qed.

Lemma some_advances n : forall s me t,
  inv s -> (me < cpus)%nat -> ticket_of (pcs s me) = Some t ->
  PRIORITY t (Z.of_nat me) < Z.of_nat n ->
  exists j, (j < cpus)%nat /\ contending (pcs s j) = true /\ advances s j.
Proof.
  induction n as [|n IH]; intros s me t Hinv Hme Ht Hn.
  - pose proof (u32_range ((t << 8) .| Z.of_nat me)). unfold PRIORITY in Hn. lia.
  - destruct (ticketed_advances s me t Hinv Hme Ht)
      as [H|[(j & k & my & Hj & Hpc)|(j & u & Hj & Hu & Hlt)]].
    + exists me. split; [done|]. split; [by destruct (pcs s me)|done].
    + exists j. split; [done|]. split; [by destruct Hpc as [-> | ->]|]. by eapply choosing_advances.
    + apply (IH s j u); [done..|lia].
Qed.

End Invariant.

(** ** Properties of the lock *)

(** C1: mutual exclusion.  In every state reached by interleaving the accesses
    of at most five CPUs, as long as every ticket is below 2^15 (a larger one is
    stored as the word of a CPU that does not contend), at most one CPU is
    between the return of [aml_hwspinlock_trylock] and [aml_hwspinlock_unlock]. *)
Theorem mutual_exclusion cpus s i j t u :
  (cpus <= HWSPINLOCK_MAX_CPUS)%nat -> reachable cpus s ->
  pcs s i = PCritical t -> pcs s j = PCritical u -> i = j.
Proof.
  intros Hc Hr Hi Hj. destruct (decide (i = j)) as [|Hne]; [done|exfalso].
  apply inv_reachable in Hr as [_ HP]; [|done].
  pose proof (HP i j Hne) as H1. pose proof (HP j i ltac:(done)) as H2.
  rewrite Hi, Hj in H1, H2. cbn in H1, H2. lia.
Qed.

(** No deadlock.  Whenever some CPU is contending for the lock or holds
    it, one of these CPUs can leave its current program point; and no CPU ever
    stops in [__assert]. *)
Theorem deadlock_free cpus s i :
  (cpus <= HWSPINLOCK_MAX_CPUS)%nat -> reachable cpus s ->
  pcs s i <> PUninit -> pcs s i <> PIdle ->
  pcs s i <> PAssert /\ exists j, (j < cpus)%nat /\ contending (pcs s j) = true /\ advances cpus s j.
Proof.
  intros Hc Hr Hu Hi. apply inv_reachable in Hr as Hinv; [|done].
  pose proof Hinv as [HL _]. destruct (HL i) as [Hlt Hw].
  assert ((i < cpus)%nat) by (destruct (decide (i < cpus)%nat); [done|by rewrite Hlt in Hu by lia]).
  split; [by intros HA; rewrite HA in Hw|].
  destruct (ticket_of (pcs s i)) as [t|] eqn:Ht.
  - apply (some_advances cpus Hc (Z.to_nat (2 ^ 32)) s i t); try done.
    pose proof (u32_range ((t << 8) .| Z.of_nat i)). unfold PRIORITY. lia.
  - exists i. split; [done|]. destruct (pcs s i) eqn:Hpc; try done;
      (split; [done|]; eapply choosing_advances; eauto).
Qed.

(** One step during which CPU [i] keeps ticket [t]. *)
Definition holding (cpus i : nat) (t : Z) (s s' : state) : Prop :=
  step cpus s s' /\ tickets_fit s' /\ ticket_of (pcs s' i) = Some t.

Lemma before_holding cpus i j t s s' :
  (cpus <= HWSPINLOCK_MAX_CPUS)%nat -> i <> j -> rtc (holding cpus i t) s s' ->
  inv cpus s -> ticket_of (pcs s i) = Some t -> before t i (pcs s j) j ->
  inv cpus s' /\ ticket_of (pcs s' i) = Some t /\ before t i (pcs s' j) j.
Proof.
  intros Hc Hij. induction 1 as [|s s1 s' (Hst & Hfit & Ht1) _ IH]; [done|].
  intros Hinv Ht Hb. destruct Hst as [me Hme]. apply IH; [by apply inv_exec|done|].
  destruct (decide (j = me)) as [->|]; [by apply before_exec|].
  by rewrite exec_other.
Qed.

(** C39: first come, first served, as long as every ticket is below 2^15.  If CPU
    [i] has its ticket while CPU [j] is not contending, then [j] does not enter
    the critical section before [i] gives its ticket back, whatever the
    interleaving. *)
Theorem first_come_first_served cpus s s' i j t u :
  (cpus <= HWSPINLOCK_MAX_CPUS)%nat -> reachable cpus s ->
  ticket_of (pcs s i) = Some t -> pcs s j = PIdle ->
  rtc (holding cpus i t) s s' -> pcs s' j <> PCritical u.
Proof.
  intros Hc Hr Ht Hj Hrun Hcr.
  assert (i <> j) by (intros ->; by rewrite Hj in Ht).
  destruct (before_holding cpus i j t s s') as ([_ HP] & Ht' & Hb);
    [done..|by apply inv_reachable|done|by rewrite Hj|].
  rewrite Hcr in Hb. cbn in Hb. specialize (HP j i ltac:(done)). rewrite Hcr in HP. cbn in HP.
  destruct (pcs s' i); cbn in *; simplify_eq; lia.
Qed.

(** The words of the lock are the single point where the algorithm's
    unbounded tickets meet a machine width: a ticket below 2^15 is read back
    exactly and marks the owner as having chosen, and the ticket 2^15 is
    written as the word of a CPU that does not contend at all. *)
Theorem ticket_roundtrip n :
  0 <= n < 2 ^ 15 ->
  bakery_ticket_number (make_bakery_data CHOSEN_TICKET n) = n /\
  bakery_is_choosing (make_bakery_data CHOSEN_TICKET n) = 0 /\
  make_bakery_data CHOSEN_TICKET (2 ^ 15) = 0.
Proof. intros Hn. split; [by apply ticket_chosen|]. split; [by apply choosing_chosen|done]. Qed.

(** ** Concrete schedules *)

(** Run the CPUs in the given order, stopping when a ticket outgrows its field. *)
Fixpoint run (cpus : nat) (sched : list nat) (s : state) : option state :=
  match sched with
  | [] => Some s
  | me :: rest =>
      let s' := exec cpus me s in
      if (me <? cpus)%nat
         && forallb (fun i => match ticket_of (pcs s' i) with
                              | Some t => t <? 2 ^ 15 | None => true end) (seq 0 cpus)
      then run cpus rest s' else None
  end.

Lemma run_reachable cpus sched : forall s s',
  (forall i, (cpus <= i)%nat -> pcs s i = PUninit) ->
  reachable cpus s -> run cpus sched s = Some s' -> reachable cpus s'.
Proof.
  induction sched as [|me rest IH]; cbn; intros s s' Hout Hr; [by intros [= <-]|].
  destruct (_ && _) eqn:E; [|done]. apply andb_prop in E as [Hme Hfit].
  apply Nat.ltb_lt in Hme. rewrite forallb_forall in Hfit.
  assert (Hout' : forall i, (cpus <= i)%nat -> pcs (exec cpus me s) i = PUninit).
  { intros i Hi. rewrite exec_other by lia. auto. }
  intros Hrun. eapply IH; [exact Hout'| |exact Hrun].
  econstructor; [done|by constructor|]. intros i t Hi.
  destruct (decide (i < cpus)%nat); [|by rewrite Hout' in Hi by lia].
  specialize (Hfit i ltac:(apply in_seq; lia)). rewrite Hi in Hfit. by apply Z.ltb_lt.
Qed.

Lemma reachable_fits cpus s : reachable cpus s -> tickets_fit s.
Proof. destruct 1; [by intros i t|done]. Qed.

Lemma run_init cpus sched s : run cpus sched init = Some s -> reachable cpus s.
Proof. intros. eapply run_reachable; [|constructor|done]; done. Qed.

(** CPU 0 takes the lock alone, then CPU 1 starts contending and spins. *)
Definition demo_sched : list nat :=
  [0; 1; 0; 0; 0; 0; 0; 0; 0; 0; 0; 1; 1; 1; 1; 1; 1; 1]%nat.
Definition demo (n : nat) : state := default init (run 2 (take n demo_sched) init).

Lemma demo_reachable n : reachable 2 (demo n).
Proof.
  unfold demo. destruct (run 2 (take n demo_sched) init) eqn:E; [|constructor].
  cbn. by eapply run_init.
Qed.

Example demo_trace :
  (pcs (demo 11) 0%nat, pcs (demo 11) 1%nat, pcs (demo 18) 1%nat)
  = (PCritical 1, PIdle, PSpin 2 0 1).
Proof. vm_compute. reflexivity. Qed.

Lemma mutual_exclusion_witness :
  pcs (demo 11) 0%nat = PCritical 1 /\ (0 = 0)%nat.
Proof.
  split; [vm_compute; reflexivity|].
  apply (mutual_exclusion 2 (demo 11) 0 0 1 1);
    [unfold HWSPINLOCK_MAX_CPUS; lia | apply demo_reachable | vm_compute; reflexivity..].
Defined.

Lemma deadlock_free_witness :
  pcs (demo 18) 1%nat = PSpin 2 0 1 /\
  (pcs (demo 18) 1%nat <> PAssert /\ exists j, (j < 2)%nat /\ contending (pcs (demo 18) j) = true /\ advances 2 (demo 18) j).
Proof.
  split; [vm_compute; reflexivity|].
  apply (deadlock_free 2 (demo 18) 1);
    [unfold HWSPINLOCK_MAX_CPUS; lia | apply demo_reachable | vm_compute; discriminate..].
Defined.

Lemma first_come_first_served_witness :
  ticket_of (pcs (demo 11) 0%nat) = Some 1 /\ pcs (demo 13) 1%nat <> PCritical 2.
Proof.
  split; [vm_compute; reflexivity|].
  apply (first_come_first_served 2 (demo 11) (demo 13) 0 1 1 2);
    [unfold HWSPINLOCK_MAX_CPUS; lia | apply demo_reachable | vm_compute; reflexivity..|].
  pose proof (fun n => reachable_fits 2 (demo n) (demo_reachable n)) as Hfit.
  apply rtc_l with (demo 12); [|apply rtc_once];
    (split; [|split; [apply Hfit|vm_compute; reflexivity]]).
  - exact (step_cpu 2 (demo 11) 1 ltac:(lia)).
  - exact (step_cpu 2 (demo 12) 1 ltac:(lia)).
Defined.

Lemma ticket_roundtrip_witness :
  bakery_ticket_number (make_bakery_data CHOSEN_TICKET 7) = 7.
Proof. apply (ticket_roundtrip 7). lia. Defined.

End Bakery.
