(* ===== verification/BakeryLive.v ===== *)
(** * Progress of the bakery lock

    Over every fair schedule each CPU that asks for the lock gets it.  While a
    CPU holds a ticket, every step of any CPU that is not a turn of a waiting
    loop decreases a rank: the others can overtake it at most once, and then
    wait for it. *)

From S2P Require Import Prelude Bakery.
From stdpp Require Import base list numbers functions relations.
From Stdlib Require Import ZArith Lia.

Local Open Scope Z_scope.
Local Open Scope cint_scope.

Module BakeryLive.
Import Bakery.

#[export] Instance pc_eq_dec : EqDecision pc.
Proof. solve_decision. Defined.

Section Live.
Context (cpus : nat) (Hcpus : (cpus <= HWSPINLOCK_MAX_CPUS)%nat).

(** ** The rank *)

(** A bound on the steps that are left to the end of [unlock], waits aside. *)
Definition way (p : pc) : nat :=
  match p with
  | PUninit => 5 * cpus + 4
  | PIdle => 5 * cpus + 3
  | PMax1 k _ => 3 * cpus + 2 + 2 * (cpus - k)
  | PMax2 k _ => 3 * cpus + 1 + 2 * (cpus - k)
  | PCheck _ k => 1 + 3 * (cpus - k)
  | PWaitChoosing _ k => 3 * (cpus - k)
  | PSpin _ k _ => 3 * (cpus - k) - 1
  | PCritical _ | PAssert => 0
  end%nat.

#[export] Instance before_dec t i p j : Decision (before t i p j).
Proof. destruct p; cbn; apply _. Defined.

(** For CPU [me] with ticket [t]: a CPU that may still overtake it has a
    whole turn more to go. *)
Definition rank_of (t : Z) (me : nat) (s : state) (j : nat) : nat :=
  (way (pcs s j) + if decide (j = me \/ before t me (pcs s j) j) then 0 else 5 * cpus + 5)%nat.
Definition rank (t : Z) (me : nat) (s : state) : nat := sum_list_with (rank_of t me s) (seq 0 cpus).

Lemma stuck_same s j : ~ advances cpus s j -> exec cpus j s = s.
Proof.
  unfold advances, exec, probe_clear, get_ticket_enter, get_ticket_loop, get_ticket_read, trylock_check, trylock_choosing, trylock_spin, unlock.
  destruct (pcs s j) eqn:E; repeat case_if; cbn; rewrite ?fn_lookup_insert; try done; intros Hs; exfalso; apply Hs; try done; intros [=]; lia.
Qed.

(** The way of a CPU gets shorter with each of its steps but the last. *)
Lemma way_steps s j : inv cpus s -> advances cpus s j ->
  (exists t, pcs s j = PCritical t) \/ (way (pcs (exec cpus j s) j) < way (pcs s j))%nat.
Proof.
  intros [HL _] Ha. destruct (HL j) as [_ Hw]. unfold advances, exec in *.
  destruct (pcs s j) eqn:E; [right..|left; by eexists|done];
    unfold probe_clear, get_ticket_enter, get_ticket_loop, get_ticket_read, trylock_check, trylock_choosing, trylock_spin in *;
    repeat case_match; rewrite ?Nat.ltb_lt, ?Nat.ltb_ge in *; cbn in *; rewrite ?fn_lookup_insert; rewrite ?E in Ha |- *; try done; cbn; b2p; lia.
Qed.

(** ** The rank decreases *)

(** Until [me] has entered, nobody it precedes enters. *)
Lemma critical_not_before s me t j u : inv cpus s -> j <> me -> ticket_of (pcs s me) = Some t -> pcs s j = PCritical u -> ~ before t me (pcs s j) j.
Proof.
  intros [_ HP] Hj Ht Hc Hb. specialize (HP j me Hj). rewrite Hc in HP, Hb. cbn in HP, Hb.
  destruct (pcs s me); cbn in *; simplify_eq; lia.
Qed.

Lemma ticket_kept s i me t : inv cpus s -> ticket_of (pcs s me) = Some t -> (forall u, pcs s me <> PCritical u) ->
  ticket_of (pcs (exec cpus i s) me) = Some t.
Proof.
  intros Hinv Ht Hn. destruct (decide (me = i)) as [<-|]; [|by rewrite exec_other].
  unfold exec. destruct (pcs s me) eqn:E; cbn in Ht; try done; unfold trylock_check, trylock_choosing, trylock_spin;
    repeat case_if; cbn; rewrite ?fn_lookup_insert; rewrite ?E; try done. by destruct (Hn t0).
Qed.

Lemma sum_list_with_lt {A} (f g : A -> nat) (l : list A) x : x ∈ l -> (forall y, y ∈ l -> (f y <= g y)%nat) -> (f x < g x)%nat ->
  (sum_list_with f l < sum_list_with g l)%nat.
Proof.
  induction l as [|y l IH]; [by intros ?%elem_of_nil|]. intros Hx Hle Hlt. cbn.
  assert (Hy : (f y <= g y)%nat) by (apply Hle; left).
  assert (Hl : (sum_list_with f l <= sum_list_with g l)%nat).
  { clear IH Hx Hy. assert (H : forall z, z ∈ l -> (f z <= g z)%nat) by (intros z Hz; apply Hle; by right). clear Hle.
    induction l as [|z l IH]; cbn; [lia|]. assert (f z <= g z)%nat by (apply H; left). assert (sum_list_with f l <= sum_list_with g l)%nat; [|lia].
    apply IH. intros w Hw. apply H. by right. }
  apply elem_of_cons in Hx as [->|Hx]; [lia|]. enough (sum_list_with f l < sum_list_with g l)%nat by lia. apply IH; [done| |done].
  intros z Hz. apply Hle. by right.
Qed.

Lemma rank_of_lt s me t j : inv cpus s -> (me < cpus)%nat -> (j < cpus)%nat -> ticket_of (pcs s me) = Some t -> (forall u, pcs s me <> PCritical u) ->
  tickets_fit (exec cpus j s) -> advances cpus s j -> (rank_of t me (exec cpus j s) j < rank_of t me s j)%nat.
Proof.
  intros Hinv Hme Hj Ht Hn Hfit Ha. unfold rank_of. pose proof (way_steps s j Hinv Ha) as [[u Hu]|Hw].
  - destruct (decide (j = me)) as [->|Hjm]; [by destruct (Hn u)|]. pose proof (critical_not_before s me t j u Hinv Hjm Ht Hu) as Hb.
    rewrite (decide_False (P := j = me \/ before t me (pcs s j) j)) by tauto.
    assert (E : pcs (exec cpus j s) j = PIdle).
    { pose proof (inv_exec cpus Hcpus s j Hinv Hj Hfit) as [HL _]. destruct (HL j) as [_ Hl]. revert Hl.
      unfold exec. rewrite Hu. unfold unlock. case_if; cbn; by rewrite fn_lookup_insert. }
    rewrite Hu, E. rewrite decide_True by (by right). cbn. lia.
  - destruct (decide (j = me \/ before t me (pcs s j) j)) as [Hb|Hb]; [|case_decide; lia].
    rewrite decide_True; [lia|]. destruct Hb as [->|Hb]; [by left|]. destruct (decide (j = me)) as [->|Hjm]; [by left|right].
    by apply before_exec.
Qed.

Lemma rank_decreases s me t j : inv cpus s -> (me < cpus)%nat -> (j < cpus)%nat -> ticket_of (pcs s me) = Some t -> (forall u, pcs s me <> PCritical u) ->
  tickets_fit (exec cpus j s) -> advances cpus s j -> (rank t me (exec cpus j s) < rank t me s)%nat.
Proof.
  intros Hinv Hme Hj Ht Hn Hfit Ha. pose proof (rank_of_lt s me t j Hinv Hme Hj Ht Hn Hfit Ha) as H.
  apply sum_list_with_lt with j; [apply elem_of_seq; lia| |exact H].
  intros i _. destruct (decide (i = j)) as [->|Hij]; [lia|]. unfold rank_of. by rewrite exec_other.
Qed.

(** ** Fair runs *)

(** At each moment one CPU acts, or none. *)
Record fair_run (sched : nat -> option nat) (run : nat -> state) : Prop := {
  fr_init : run 0%nat = init;
  fr_step : forall n, match sched n with
                      | Some j => (j < cpus)%nat /\ run (S n) = exec cpus j (run n)
                      | None => run (S n) = run n
                      end;
  fr_fit : forall n, tickets_fit (run n);
  fr_fair : forall n j, contending (pcs (run n) j) = true -> exists m, (n <= m)%nat /\ sched m = Some j;
}.

Section Run.
Context (sched : nat -> option nat) (run : nat -> state) (Hrun : fair_run sched run).

Lemma fair_run_inv n : inv cpus (run n).
Proof.
  induction n as [|n IH]; [rewrite (fr_init _ _ Hrun); apply inv_init|].
  pose proof (fr_step _ _ Hrun n) as Hs. pose proof (fr_fit _ _ Hrun (S n)) as Hf.
  destruct (sched n) as [j|]; [|by rewrite Hs]. destruct Hs as [Hj Hs]. rewrite Hs in *. by apply inv_exec.
Qed.

(** The next step that changes anything. *)
Lemma next_advance d : forall n m j, (m = n + d)%nat -> sched m = Some j -> advances cpus (run n) j ->
  exists p i, (n <= p)%nat /\ run p = run n /\ (i < cpus)%nat /\ run (S p) = exec cpus i (run p) /\ advances cpus (run p) i.
Proof.
  induction d as [|d IH]; intros n m j Hm Hs Ha; pose proof (fr_step _ _ Hrun n) as Hn.
  - replace m with n in Hs by lia. rewrite Hs in Hn. exists n, j. repeat split; tauto || lia.
  - destruct (sched n) as [i|] eqn:En.
    + destruct Hn as [Hi Hn]. destruct (decide (advances cpus (run n) i)) as [Ha'|Ha'].
      * exists n, i. repeat split; tauto || lia.
      * rewrite (stuck_same _ _ Ha') in Hn. rewrite <- Hn in Ha.
        destruct (IH (S n) m j ltac:(lia) Hs Ha) as (p & k & H1 & H2 & H3). exists p, k. split; [lia|]. split; [congruence|done].
    + rewrite <- Hn in Ha. destruct (IH (S n) m j ltac:(lia) Hs Ha) as (p & k & H1 & H2 & H3). exists p, k. split; [lia|]. split; [congruence|done].
Qed.

Lemma ticket_enters me t : forall r n, (rank t me (run n) <= r)%nat -> (me < cpus)%nat -> ticket_of (pcs (run n) me) = Some t ->
  exists m u, (n <= m)%nat /\ pcs (run m) me = PCritical u.
Proof.
  induction r as [r IH] using lt_wf_ind. intros n Hr Hme Ht.
  destruct (decide (pcs (run n) me = PCritical t)) as [Hc|Hc]; [exists n, t; by split|].
  assert (Hn : forall u, pcs (run n) me <> PCritical u) by (intros u E; rewrite E in Ht; cbn in Ht; congruence).
  destruct (some_advances cpus Hcpus (Z.to_nat (2 ^ 32)) (run n) me t) as (j & Hj & Hcj & Ha); [apply fair_run_inv|done..| |].
  { pose proof (u32_range ((t << 8) .| Z.of_nat me)). unfold PRIORITY. lia. }
  destruct (fr_fair _ _ Hrun n j Hcj) as (m & Hm & Hs).
  destruct (next_advance (m - n) n m j ltac:(lia) Hs Ha) as (p & i & Hp & E & Hi & E' & Hai). rewrite E in *.
  assert (Hd : (rank t me (run (S p)) < rank t me (run n))%nat).
  { pose proof (fr_fit _ _ Hrun (S p)) as Hf. rewrite E' in *. apply rank_decreases; try done. apply fair_run_inv. }
  destruct (IH (rank t me (run (S p))) ltac:(lia) (S p) ltac:(lia) Hme) as (q & u & Hq & Hu).
  { rewrite E'. apply ticket_kept; [apply fair_run_inv|done..]. }
  exists q, u. split; [lia|done].
Qed.

(** A CPU that is choosing gets its ticket. *)
Lemma own_step d : forall n m me, (m = n + d)%nat -> sched m = Some me ->
  exists p, (n <= p)%nat /\ pcs (run p) me = pcs (run n) me /\ run (S p) = exec cpus me (run p).
Proof.
  induction d as [|d IH]; intros n m me Hm Hs; pose proof (fr_step _ _ Hrun n) as Hn.
  - replace m with n in Hs by lia. rewrite Hs in Hn. exists n. split; [lia|tauto].
  - destruct (IH (S n) m me ltac:(lia) Hs) as (p & H1 & H2 & H3). destruct (sched n) as [i|].
    + destruct (decide (i = me)) as [->|Hi]; [exists n; split; [lia|tauto]|]. exists p. split; [lia|]. split; [|done].
      rewrite H2. destruct Hn as [_ ->]. by apply exec_other.
    + exists p. split; [lia|]. split; [|done]. by rewrite H2, Hn.
Qed.

Lemma gets_ticket me : forall r n, (way (pcs (run n) me) <= r)%nat -> (me < cpus)%nat -> contending (pcs (run n) me) = true ->
  exists m t, (n <= m)%nat /\ ticket_of (pcs (run m) me) = Some t.
Proof.
  induction r as [r IH] using lt_wf_ind. intros n Hr Hme Hc.
  destruct (ticket_of (pcs (run n) me)) as [t|] eqn:Et; [by exists n, t|].
  destruct (fr_fair _ _ Hrun n me Hc) as (m & Hm & Hs). destruct (own_step (m - n) n m me ltac:(lia) Hs) as (p & Hp & E & E').
  assert (Ha : advances cpus (run p) me).
  { destruct (pcs (run n) me) eqn:En; try done; eapply choosing_advances; eauto using fair_run_inv. }
  destruct (way_steps _ _ (fair_run_inv p) Ha) as [[u Hu]|Hw]; [by rewrite <- E, Hu in Et|]. rewrite <- E' in Hw.
  destruct (IH (way (pcs (run (S p)) me)) ltac:(rewrite E in Hw; lia) (S p) ltac:(lia) Hme) as (q & t & Hq & Ht); [|exists q, t; split; [lia|done]].
  pose proof (fair_run_inv (S p)) as [HL _]. destruct (HL me) as [_ Hl]. revert Hl. rewrite E'. unfold exec. rewrite E.
  destruct (pcs (run n) me) eqn:En; try done; unfold get_ticket_loop, get_ticket_read; repeat case_if; cbn; by rewrite ?fn_lookup_insert.
Qed.

End Run.
End Live.

(** C2: nobody starves.  In every schedule in which each CPU that contends for
    the lock or holds it acts again and again (the others may rest or contend
    as they like), as long as every ticket is below 2^15, a CPU that has asked
    for the lock enters the critical section, and none stops in [__assert]. *)
Theorem no_starvation cpus sched run n me :
  (cpus <= HWSPINLOCK_MAX_CPUS)%nat -> fair_run cpus sched run -> contending (pcs (run n) me) = true ->
  exists m t, (n <= m)%nat /\ pcs (run m) me = PCritical t /\ forall i, pcs (run m) i <> PAssert.
Proof.
  intros Hc Hr Hm. assert (Hme : (me < cpus)%nat).
  { destruct (fair_run_inv cpus Hc sched run Hr n) as [HL _]. destruct (HL me) as [Hlt _].
    destruct (decide (me < cpus)%nat); [done|]. by rewrite Hlt in Hm by lia. }
  destruct (gets_ticket cpus Hc sched run Hr me _ n (le_n _) Hme Hm) as (p & t & Hp & Ht).
  destruct (ticket_enters cpus Hc sched run Hr me t _ p (le_n _) Hme Ht) as (q & u & Hq & Hu).
  exists q, u. split; [lia|]. split; [done|]. intros i Hi. destruct (fair_run_inv cpus Hc sched run Hr q) as [HL _]. destruct (HL i) as [_ Hw].
  by rewrite Hi in Hw.
Qed.

(** ** Two CPUs meet *)

(** CPU 0 takes the lock, CPU 1 waits for it; both release it and rest. *)
Definition turns : list nat := demo_sched ++ [0; 1; 1; 1; 1]%nat.
Definition follow (n : nat) : state := foldl (fun s j => exec 2 j s) init (take n turns).

Lemma follow_step n : match turns !! n with Some j => (j < 2)%nat /\ follow (S n) = exec 2 j (follow n) | None => follow (S n) = follow n end.
Proof.
  destruct (turns !! n) as [j|] eqn:E; unfold follow.
  - rewrite (take_S_r _ _ j) by done. rewrite foldl_app. split; [|done]. apply list_elem_of_lookup_2 in E.
    assert (H : Forall (fun j => (j < 2)%nat) turns) by (repeat constructor). by apply (proj1 (Forall_forall _ _) H).
  - apply lookup_ge_None_1 in E. by rewrite !take_ge by lia.
Qed.
Lemma follow_out n i : (2 <= i)%nat -> pcs (follow n) i = PUninit.
Proof.
  intros Hi. induction n as [|n IH]; [done|]. pose proof (follow_step n) as H. destruct (turns !! n) as [j|]; [|by rewrite H].
  destruct H as [Hj ->]. rewrite exec_other by lia. done.
Qed.
(** Each moment is one of the first 24. *)
Lemma follow_upto (P : nat -> nat -> Prop) :
  (forall n i, (n < 24)%nat -> (i < 2)%nat -> P n i) -> (forall n i, (23 <= n)%nat -> P 23%nat i -> P n i) -> (forall n i, (2 <= i)%nat -> P n i) -> forall n i, P n i.
Proof.
  intros H1 H2 H3 n i. destruct (decide (i < 2)%nat); [|apply H3; lia]. destruct (decide (n < 24)%nat); [by apply H1|]. apply H2; [lia|]. apply H1; lia.
Qed.
Lemma follow_end n : (23 <= n)%nat -> follow n = follow 23.
Proof. intros Hn. unfold follow. by rewrite !take_ge by (cbn; lia). Qed.

Definition fits_at (n i : nat) : bool := match ticket_of (pcs (follow n) i) with Some t => t <? 2 ^ 15 | None => true end.
Definition acts_at (n i : nat) : bool := negb (contending (pcs (follow n) i)) || existsb (fun m => bool_decide (turns !! m = Some i)) (seq n (23 - n)).
Lemma all_moments (f : nat -> nat -> bool) : forallb (fun n => f n 0%nat && f n 1%nat) (seq 0 24) = true -> forall n i, (n < 24)%nat -> (i < 2)%nat -> f n i = true.
Proof.
  intros H n i Hn Hi. rewrite forallb_forall in H. specialize (H n ltac:(apply in_seq; lia)). apply andb_prop in H as [H0 H1].
  destruct i as [|[|i]]; [done..|lia].
Qed.

Lemma follow_fair : fair_run 2 (fun n => turns !! n) follow.
Proof.
  split; [done|apply follow_step| |].
  - intros n i t. revert n i t. apply (follow_upto (fun n i => forall t, ticket_of (pcs (follow n) i) = Some t -> t < 2 ^ 15)).
    + intros n i Hn Hi t Ht. pose proof (all_moments fits_at ltac:(by vm_compute) n i Hn Hi) as H. unfold fits_at in H. rewrite Ht in H. b2p. done.
    + intros n i Hn H t. rewrite follow_end by done. apply H.
    + intros n i Hi t. by rewrite follow_out.
  - apply (follow_upto (fun n i => contending (pcs (follow n) i) = true -> exists m, (n <= m)%nat /\ turns !! m = Some i)).
    + intros n i Hn Hi Hc. pose proof (all_moments acts_at ltac:(by vm_compute) n i Hn Hi) as H. unfold acts_at in H. rewrite Hc in H. cbn in H.
      apply existsb_exists in H as (m & Hm & Hs). apply in_seq in Hm. apply bool_decide_eq_true in Hs. exists m. split; [lia|done].
    + intros n i Hn _. rewrite follow_end by done. intros Hc. destruct (decide (i < 2)%nat); [|by rewrite follow_out in Hc by lia].
      by destruct i as [|[|i]]; [vm_compute in Hc..|lia].
    + intros n i Hi. by rewrite follow_out.
Qed.

Lemma no_starvation_witness :
  pcs (follow 18) 1%nat = PSpin 2 0 1 /\
  exists m t, (18 <= m)%nat /\ pcs (follow m) 1%nat = PCritical t /\ forall i, pcs (follow m) i <> PAssert.
Proof.
  split; [vm_compute; reflexivity|].
  apply (no_starvation 2 (fun n => turns !! n) follow 18 1); [unfold HWSPINLOCK_MAX_CPUS; lia|apply follow_fair|vm_compute; reflexivity].
Defined.
End BakeryLive.
