(* ===== verification/Regmap.v ===== *)
(** * Register access of the clock drivers

    The kernel's regmap library is not part of this repository: it is the
    interface [Regmap] (operations) and [RegmapOk] (its documented behaviour
    for memory-mapped 32-bit registers).  On top of it, this file models
    src/drivers/clk/meson/parm.h, the bit fields every clock is made of, and
    proves the field algebra the clock theorems use: a field reads back what
    was written, disjoint fields do not disturb each other.

    Hardware may change status bits (a PLL's lock bit) on its own.  The law
    class therefore speaks of the bits that are not [volatile]; [udelay] lets
    the hardware run. *)

From S2P Require Import Prelude.
From stdpp Require Import base list numbers gmap.

Local Open Scope Z_scope.
Local Open Scope cint_scope.

(** ** Kernel bit macros (include/linux/bits.h, 64-bit [unsigned long]) *)

Definition BIT (n : Z) : Z := u64 (1 << n).
Definition GENMASK (h l : Z) : Z :=
  u64 (ULONG_MAX - (1 << l) + 1) .& (ULONG_MAX >> (63 - h)).

Lemma testbit_ULONG_MAX b : 0 <= b -> Z.testbit ULONG_MAX b = (b <? 64).
Proof.
  intros Hb. unfold ULONG_MAX. replace (2 ^ 64 - 1) with (Z.ones 64) by done.
  destruct (Z.ltb_spec b 64).
  - by apply Z.ones_spec_low.
  - by apply Z.ones_spec_high.
Qed.

Lemma GENMASK_testbit h l b :
  0 <= l -> l <= h < 64 -> 0 <= b -> Z.testbit (GENMASK h l) b = (l <=? b) && (b <=? h).
Proof.
  intros Hl Hh Hb. unfold GENMASK. rewrite Z.land_spec, Z.shiftr_spec by done.
  rewrite testbit_ULONG_MAX by lia.
  replace (ULONG_MAX - (1 << l) + 1) with (2 ^ 64 - 2 ^ l)
    by (unfold ULONG_MAX; rewrite Z.shiftl_mul_pow2 by lia; lia).
  assert (0 < 2 ^ l < 2 ^ 64) by (split; [|apply Z.pow_lt_mono_r]; lia).
  rewrite u64_small by lia.
  replace (2 ^ 64 - 2 ^ l) with (Z.shiftl (Z.ones (64 - l)) l).
  2:{ rewrite Z.shiftl_mul_pow2, Z.ones_equiv by lia.
      rewrite <- Z.sub_1_r, Z.mul_sub_distr_r, <- Z.pow_add_r by lia.
      replace (64 - l + l) with 64 by lia. lia. }
  rewrite Z.shiftl_spec by done.
  destruct (Z.leb_spec l b), (Z.leb_spec b h); cbn;
    rewrite ?Z.testbit_neg_r by lia; cbn; try done.
  - rewrite Z.ones_spec_low by lia. apply Z.ltb_lt. lia.
  - rewrite (proj2 (Z.ltb_ge _ _)) by lia. apply andb_false_r.
Qed.

(** ** The regmap interface *)

(** One entry of a register sequence (struct reg_sequence). *)
Record reg_sequence := RegSeq { seq_reg : Z; seq_def : Z; seq_delay_us : Z }.

Class Regmap (S : Type) := {
  regmap_read : S -> Z -> Z * Z;             (* (ret, value) *)
  regmap_write : S -> Z -> Z -> S * Z;
  regmap_update_bits : S -> Z -> Z -> Z -> S * Z;  (* reg, mask, val *)
  regmap_multi_reg_write : S -> list reg_sequence -> S * Z;
  udelay : S -> Z -> S;
}.

(** The value of a register. *)
Definition reg_val {S} `{Regmap S} (s : S) (r : Z) : Z := snd (regmap_read s r).

(** What the drivers rely on: MMIO accesses succeed, values have 32 bits, and
    the bits that are not volatile are changed by writes only. *)
Class RegmapOk (S : Type) `{Regmap S} := {
  volatile : Z -> Z -> bool;                 (* register, bit *)
  rm_read_ok s r : fst (regmap_read s r) = 0;
  rm_read_range s r : 0 <= reg_val s r < 2 ^ 32;
  rm_write_ok s r v : snd (regmap_write s r v) = 0;
  rm_write_bit s r v r' b : 0 <= b < 32 -> volatile r' b = false ->
    Z.testbit (reg_val (fst (regmap_write s r v)) r') b =
      if decide (r' = r) then Z.testbit v b else Z.testbit (reg_val s r') b;
  rm_update_ok s r m v : snd (regmap_update_bits s r m v) = 0;
  rm_update_bit s r m v r' b : 0 <= b < 32 -> volatile r' b = false ->
    Z.testbit (reg_val (fst (regmap_update_bits s r m v)) r') b =
      if decide (r' = r) then (if Z.testbit m b then Z.testbit v b else Z.testbit (reg_val s r') b)
      else Z.testbit (reg_val s r') b;
  rm_multi_ok s l : snd (regmap_multi_reg_write s l) = 0;
  rm_multi_nil s : fst (regmap_multi_reg_write s []) = s;
  rm_multi_cons s e l : fst (regmap_multi_reg_write s (e :: l)) =
    let s := fst (regmap_write s (seq_reg e) (seq_def e)) in
    fst (regmap_multi_reg_write
      (if truthy (seq_delay_us e) then udelay s (seq_delay_us e) else s) l);
  rm_udelay_bit s n r b : 0 <= b < 32 -> volatile r b = false ->
    Z.testbit (reg_val (udelay s n) r) b = Z.testbit (reg_val s r) b;
}.

(** ** parm.h *)

Record parm := Parm { reg_off : Z; shift : Z; width : Z }.

Definition SETPMASK (width shift : Z) : Z := GENMASK (shift + width - 1) shift.
Definition CLRPMASK (width shift : Z) : Z := u64 (Z.lnot (SETPMASK width shift)).
Definition PARM_GET (width shift reg : Z) : Z := (reg .& SETPMASK width shift) >> shift.
Definition PARM_SET (width shift reg val : Z) : Z :=
  (reg .& CLRPMASK width shift) .| (val << shift).
Definition MESON_PARM_APPLICABLE (p : parm) : bool := truthy (width p).

Section Parm.
Context {S : Type} `{Regmap S}.

Definition meson_parm_read (map : S) (p : parm) : Z :=
  let '(ret, val) := regmap_read map (reg_off p) in
  if truthy ret then u32 ret else PARM_GET (width p) (shift p) val.

Definition meson_parm_write (map : S) (p : parm) (val : Z) : S :=
  fst (regmap_update_bits map (reg_off p) (u32 (SETPMASK (width p) (shift p)))
         (u32 (val << shift p))).
End Parm.

(** A field that lies inside a 32-bit register. *)
Definition parm_wf (p : parm) : Prop := 0 <= shift p /\ 0 < width p /\ shift p + width p <= 32.

Definition parm_disjoint (p q : parm) : Prop :=
  reg_off p <> reg_off q \/ shift p + width p <= shift q \/ shift q + width q <= shift p.

Section ParmLaws.
Context {S : Type} `{RegmapOk S}.
Implicit Types (s : S) (p q : parm).

(** No bit of the field is changed by the hardware on its own. *)
Definition parm_stable p : Prop :=
  forall b, shift p <= b < shift p + width p -> volatile (reg_off p) b = false.

Lemma parm_read_field s p :
  parm_wf p -> meson_parm_read s p = (reg_val s (reg_off p) >> shift p) mod 2 ^ width p.
Proof.
  intros (Hs & Hw & Hsum). unfold meson_parm_read, reg_val.
  pose proof (rm_read_ok s (reg_off p)) as Hok.
  destruct (regmap_read s (reg_off p)) as [ret v]. cbn in *. subst ret. cbn.
  unfold PARM_GET, SETPMASK. apply Z.bits_inj'. intros i Hi.
  rewrite Z.shiftr_spec, Z.land_spec, GENMASK_testbit by lia.
  destruct (Z.lt_ge_cases i (width p)).
  - rewrite Z.mod_pow2_bits_low, Z.shiftr_spec by lia.
    rewrite (proj2 (Z.leb_le _ _)), (proj2 (Z.leb_le _ _)) by lia. apply andb_true_r.
  - rewrite Z.mod_pow2_bits_high by lia.
    rewrite (proj2 (Z.leb_gt (i + shift p) _)) by lia. rewrite andb_false_r. apply andb_false_r.
Qed.

Lemma parm_read_bit s p b :
  parm_wf p -> 0 <= b ->
  Z.testbit (meson_parm_read s p) b
  = (b <? width p) && Z.testbit (reg_val s (reg_off p)) (b + shift p).
Proof.
  intros Hp Hb. rewrite parm_read_field by done. destruct Hp as (Hs & Hw & Hsum).
  destruct (Z.ltb_spec b (width p)).
  - by rewrite Z.mod_pow2_bits_low, Z.shiftr_spec by lia.
  - by rewrite Z.mod_pow2_bits_high by lia.
Qed.

Lemma parm_read_range s p : parm_wf p -> 0 <= meson_parm_read s p < 2 ^ width p.
Proof.
  intros Hp. rewrite parm_read_field by done. destruct Hp.
  apply Z.mod_pos_bound. apply Z.pow_pos_nonneg; lia.
Qed.

(** The bits of a register after a field write. *)
Lemma parm_write_bit s p v r b :
  parm_wf p -> 0 <= b < 32 -> volatile r b = false ->
  Z.testbit (reg_val (meson_parm_write s p v) r) b =
    if decide (r = reg_off p /\ shift p <= b < shift p + width p)
    then Z.testbit v (b - shift p) else Z.testbit (reg_val s r) b.
Proof.
  intros (Hs & Hw & Hsum) Hb Hv. unfold meson_parm_write. rewrite rm_update_bit by done.
  assert (Hm : Z.testbit (u32 (SETPMASK (width p) (shift p))) b
               = (shift p <=? b) && (b <=? shift p + width p - 1)).
  { unfold u32, SETPMASK. rewrite Z.mod_pow2_bits_low by lia. apply GENMASK_testbit; lia. }
  rewrite Hm.
  repeat case_decide; try tauto; try (destruct (Z.leb_spec (shift p) b),
    (Z.leb_spec b (shift p + width p - 1)); cbn; try done; try lia).
  - unfold u32. rewrite Z.mod_pow2_bits_low, Z.shiftl_spec by lia. done.
Qed.

Lemma parm_read_write s p v :
  parm_wf p -> parm_stable p -> meson_parm_read (meson_parm_write s p v) p = v mod 2 ^ width p.
Proof.
  intros Hp Hst. pose proof Hp as (Hs & Hw & Hsum). apply Z.bits_inj'. intros i Hi.
  rewrite parm_read_bit by done. destruct (Z.ltb_spec i (width p)); cbn.
  - rewrite parm_write_bit by (done || lia || (apply Hst; lia)).
    rewrite decide_True by (split; [done|lia]).
    rewrite Z.mod_pow2_bits_low by lia. f_equal. lia.
  - by rewrite Z.mod_pow2_bits_high by lia.
Qed.

Lemma parm_read_write_small s p v :
  parm_wf p -> parm_stable p -> 0 <= v < 2 ^ width p ->
  meson_parm_read (meson_parm_write s p v) p = v.
Proof. intros. rewrite parm_read_write by done. by apply Z.mod_small. Qed.

Lemma parm_read_write_other s p q v :
  parm_wf p -> parm_wf q -> parm_stable q -> parm_disjoint p q ->
  meson_parm_read (meson_parm_write s p v) q = meson_parm_read s q.
Proof.
  intros Hp Hq Hst Hd. pose proof Hq as (Hs & Hw & Hsum). apply Z.bits_inj'. intros i Hi.
  rewrite !parm_read_bit by done. destruct (Z.ltb_spec i (width q)); cbn; [|done].
  rewrite parm_write_bit by (done || lia || (apply Hst; lia)).
  rewrite decide_False; [done|]. intros [Hr Hb]. destruct Hd as [?|[?|?]]; [congruence|lia|lia].
Qed.

Lemma parm_read_udelay s n p :
  parm_wf p -> parm_stable p -> meson_parm_read (udelay s n) p = meson_parm_read s p.
Proof.
  intros Hp Hst. pose proof Hp as (Hs & Hw & Hsum). apply Z.bits_inj'. intros i Hi.
  rewrite !parm_read_bit by done. destruct (Z.ltb_spec i (width p)); cbn; [|done].
  by rewrite rm_udelay_bit by (lia || (apply Hst; lia)).
Qed.

(** Several fields written in turn. *)
Definition parm_writes s (l : list (parm * Z)) : S :=
  foldl (fun s pv => meson_parm_write s pv.1 pv.2) s l.

(** Fields that can be programmed independently of each other. *)
Definition fields_ok (l : list parm) : Prop :=
  Forall parm_wf l /\ Forall parm_stable l /\ ForallOrdPairs parm_disjoint l.

Lemma parm_disjoint_sym p q : parm_disjoint p q -> parm_disjoint q p.
Proof. unfold parm_disjoint. intros [?|[?|?]]; auto. Qed.

Lemma parm_read_writes_other s l q :
  Forall parm_wf l.*1 -> parm_wf q -> parm_stable q ->
  Forall (fun p => parm_disjoint p q) l.*1 ->
  meson_parm_read (parm_writes s l) q = meson_parm_read s q.
Proof.
  revert s. induction l as [|[p v] l IH]; intros s Hl Hq Hst Hd; cbn; [done|].
  cbn in Hl, Hd. apply Forall_cons_1 in Hl as [? ?], Hd as [? ?].
  unfold parm_writes in IH. rewrite IH by done. by apply parm_read_write_other.
Qed.

Lemma parm_read_writes s l p v :
  fields_ok l.*1 -> (p, v) ∈ l ->
  meson_parm_read (parm_writes s l) p = v mod 2 ^ width p.
Proof.
  intros (Hwf & Hst & Hd) Hin. revert s. induction l as [|[q w] l IH]; [by apply elem_of_nil in Hin|].
  intros s. cbn in *. apply Forall_cons_1 in Hwf as [Hq Hwf], Hst as [Hqs Hst].
  inversion Hd as [|? ? Hqd Hd']; subst.
  apply elem_of_cons in Hin as [[= -> ->]|Hin]; [|by apply IH].
  rewrite (parm_read_writes_other _ l q Hwf Hq Hqs).
  - by apply parm_read_write.
  - eapply Forall_impl; [exact Hqd|]. intros ?. apply parm_disjoint_sym.
Qed.

Lemma fields_ok_app l1 l2 :
  fields_ok (l1 ++ l2) ->
  fields_ok l1 /\ fields_ok l2 /\ (forall p q, p ∈ l1 -> q ∈ l2 -> parm_disjoint p q).
Proof.
  intros (Hwf & Hst & Hd). apply Forall_app in Hwf as [? ?], Hst as [? ?].
  assert (ForallOrdPairs parm_disjoint l1 /\ ForallOrdPairs parm_disjoint l2 /\
          (forall p q, p ∈ l1 -> q ∈ l2 -> parm_disjoint p q)) as (? & ? & ?).
  { clear -Hd. induction l1 as [|p l1 IH]; cbn in Hd.
    - repeat split; [constructor|done|]. intros p q Hp. by apply elem_of_nil in Hp.
    - inversion Hd as [|? ? Hp Hd']; subst. apply Forall_app in Hp as [Hp1 Hp2].
      destruct (IH Hd') as (? & ? & Hx). repeat split; [by constructor|done|].
      intros p' q [-> | Hp']%elem_of_cons Hq; [|by apply Hx].
      rewrite Forall_forall in Hp2. by apply Hp2. }
  done.
Qed.

Lemma fields_ok_cons p l :
  fields_ok (p :: l) ->
  (parm_wf p /\ parm_stable p) /\ (forall q, q ∈ l -> parm_disjoint p q /\ parm_disjoint q p) /\
  fields_ok l.
Proof.
  intros (Hw & Hs & Hd). apply Forall_cons_1 in Hw as [? ?], Hs as [? ?].
  inversion Hd as [|? ? Hp Hd']; subst. rewrite Forall_forall in Hp.
  repeat (split; [done|]). split; [|by repeat split].
  intros q Hq. split; [|apply parm_disjoint_sym]; auto.
Qed.

(** ** Frame of an operation

    [writes_only l s s']: [s'] is reached from [s] by writing fields of [l]
    and letting the hardware run. *)
Inductive writes_only (l : list parm) : S -> S -> Prop :=
| wo_refl s : writes_only l s s
| wo_write s s' p v : writes_only l s s' -> p ∈ l -> writes_only l s (meson_parm_write s' p v)
| wo_udelay s s' n : writes_only l s s' -> writes_only l s (udelay s' n).

Lemma wo_trans l s1 s2 s3 : writes_only l s1 s2 -> writes_only l s2 s3 -> writes_only l s1 s3.
Proof. intros H1 H2. revert H1. induction H2; intros; [done|..]; constructor; auto. Qed.

Lemma wo_mono l l' s s' : l ⊆ l' -> writes_only l s s' -> writes_only l' s s'.
Proof. intros Hl. induction 1; constructor; auto. Qed.

(** A stable field disjoint from everything written keeps its value. *)
Lemma wo_read l s s' q :
  writes_only l s s' -> parm_wf q -> parm_stable q ->
  (forall p, p ∈ l -> parm_wf p /\ parm_disjoint p q) ->
  meson_parm_read s' q = meson_parm_read s q.
Proof.
  intros Hw Hq Hst Hl. induction Hw as [|s s' p v ? IH Hp|s s' n ? IH]; [done|..].
  - destruct (Hl p Hp). rewrite parm_read_write_other by done. by apply IH.
  - rewrite parm_read_udelay by done. by apply IH.
Qed.

(** The fields of a well-formed list are distinct, and each keeps its value
    while the others are written. *)
Lemma fields_ok_NoDup l : fields_ok l -> NoDup l.
Proof.
  intros (Hw & _ & Hd). induction l as [|p l IH]; [constructor|].
  apply Forall_cons_1 in Hw as [Hp Hw]. inversion Hd as [|? ? Hpd Hd']; subst.
  constructor; [|by apply IH]. intros Hin. rewrite Forall_forall in Hpd.
  specialize (Hpd p Hin). destruct Hp as (? & ? & ?). destruct Hpd as [?|[?|?]]; [done|lia..].
Qed.

Lemma fields_ok_disjoint l p q : fields_ok l -> p ∈ l -> q ∈ l -> p <> q -> parm_disjoint p q.
Proof.
  intros (_ & _ & Hd). induction Hd as [|x l Hx Hd IH]; [by intros ?%elem_of_nil|].
  rewrite Forall_forall in Hx. rewrite !elem_of_cons.
  intros [-> | Hp] [-> | Hq] Hne; [done|by apply Hx|by apply parm_disjoint_sym, Hx|by apply IH].
Qed.

Lemma fields_read l l' s s' q :
  fields_ok l -> writes_only l' s s' -> l' ⊆ l -> q ∈ l -> q ∉ l' ->
  meson_parm_read s' q = meson_parm_read s q.
Proof.
  intros Hl Hw Hsub Hq Hnot. pose proof Hl as (Hwf & Hst & _). rewrite Forall_forall in Hwf, Hst.
  eapply wo_read; [done|auto..|]. intros p Hp. split; [auto|].
  eapply fields_ok_disjoint; [done|auto..|]. by intros ->.
Qed.

End ParmLaws.

Create HintDb frame.

(** Membership in a list of fields. *)
Ltac in_list := repeat rewrite ?elem_of_cons, ?elem_of_app; tauto.

(** Read a field through a sequence of field writes. *)
Ltac read_writes :=
  repeat first [rewrite parm_read_write_small by (done || lia)
               | rewrite parm_read_write_other by done
               | rewrite parm_read_udelay by done]; try done.

(** Decompose a sequence of writes and delays. *)
Ltac frame_steps :=
  repeat first [apply wo_refl | apply wo_udelay | apply wo_write]; auto with frame.
#[export] Hint Constructors writes_only : frame.
#[export] Hint Extern 1 (_ ∈ _) => in_list : frame.

(** Boolean form of the static part of [fields_ok]. *)
Definition parm_wfb (p : parm) : bool :=
  (0 <=? shift p) && (0 <? width p) && (shift p + width p <=? 32).
Definition parm_disjointb (p q : parm) : bool :=
  negb (reg_off p =? reg_off q) || (shift p + width p <=? shift q)
  || (shift q + width q <=? shift p).
Fixpoint fields_okb (l : list parm) : bool :=
  match l with
  | [] => true
  | p :: l => parm_wfb p && forallb (parm_disjointb p) l && fields_okb l
  end.

Lemma fields_okb_ok {S} `{RegmapOk S} (l : list parm) :
  fields_okb l = true -> Forall parm_stable l -> fields_ok l.
Proof.
  intros Hb Hst. split; [|split; [done|]].
  - clear Hst. induction l as [|p l IH]; cbn in Hb; [done|]. b2p. constructor; [|auto].
    unfold parm_wfb in *. b2p. unfold parm_wf. lia.
  - clear Hst. induction l as [|p l IH]; cbn in Hb; [constructor|]. b2p. constructor; [|auto].
    apply Forall_forall. intros q Hq.
    match goal with H : forallb _ _ = true |- _ => rewrite forallb_forall in H;
      specialize (H q ltac:(by apply list_elem_of_In)) end.
    unfold parm_disjointb, parm_disjoint in *.
    destruct (Z.eqb_spec (reg_off p) (reg_off q)); cbn in *; [|by left].
    match goal with H : (_ || _) = true |- _ => apply orb_prop in H as [H|H]; b2p; lia end.
Qed.

(** ** A plain register file

    Instance used to evaluate the drivers on concrete inputs: no volatile
    bits, delays do nothing. *)

Definition plain_read (m : gmap Z Z) (r : Z) : Z := u32 (default 0 (m !! r)).
Definition plain_write (m : gmap Z Z) (r v : Z) : gmap Z Z := <[r := u32 v]> m.
Definition plain_update (m : gmap Z Z) (r mask v : Z) : gmap Z Z :=
  plain_write m r ((plain_read m r .& Z.lnot mask) .| (v .& mask)).
Definition plain_multi (m : gmap Z Z) (l : list reg_sequence) : gmap Z Z :=
  foldl (fun m e => plain_write m (seq_reg e) (seq_def e)) m l.

#[export] Instance plain_regmap : Regmap (gmap Z Z) := {|
  regmap_read m r := (0, plain_read m r);
  regmap_write m r v := (plain_write m r v, 0);
  regmap_update_bits m r mask v := (plain_update m r mask v, 0);
  regmap_multi_reg_write m l := (plain_multi m l, 0);
  udelay m _ := m;
|}.

Lemma plain_read_write m r v r' :
  plain_read (plain_write m r v) r' = if decide (r' = r) then u32 v else plain_read m r'.
Proof.
  unfold plain_read, plain_write. case_decide as Hr.
  - subst. rewrite lookup_insert_eq. cbn. apply u32_small, u32_range.
  - by rewrite lookup_insert_ne.
Qed.

Lemma u32_testbit v b : 0 <= b < 32 -> Z.testbit (u32 v) b = Z.testbit v b.
Proof. intros. unfold u32. by rewrite Z.mod_pow2_bits_low by lia. Qed.

#[export, refine] Instance plain_regmap_ok : RegmapOk (gmap Z Z) := {|
  volatile _ _ := false;
|}.
Proof.
  all: try done.
  - intros. unfold reg_val. cbn. apply u32_range.
  - intros s r v r' b Hb _. unfold reg_val. cbn. rewrite plain_read_write.
    case_decide; [by rewrite u32_testbit|done].
  - intros s r m v r' b Hb _. unfold reg_val. cbn. unfold plain_update.
    rewrite plain_read_write. case_decide as Hr; [|done]. subst.
    rewrite u32_testbit, Z.lor_spec, !Z.land_spec, Z.lnot_spec by lia.
    destruct (Z.testbit m b); cbn.
    + by rewrite andb_false_r, andb_true_r.
    + by rewrite andb_true_r, andb_false_r, orb_false_r.
  - intros s e l. cbn. by case_match.
Defined.

(** In the plain register file every field is stable. *)
Lemma plain_fields_ok l : fields_okb l = true -> fields_ok (S := gmap Z Z) l.
Proof. intros Hb. apply fields_okb_ok; [done|]. apply Forall_forall. by intros p _ b _. Qed.
