(* ===== verification/RegBits.v ===== *)
(** * Single bits and masks of registers

    Drivers that do not use parm.h build their masks with BIT and shifts.
    This file connects those idioms to the fields of [Regmap.v]: an update of
    a run of bits is a field write, a test of a bit is a field read. *)

From S2P Require Import Prelude Regmap.
From stdpp Require Import base list numbers.

Local Open Scope Z_scope.
Local Open Scope cint_scope.

(** ** Plain accesses

    readl and writel, relaxed or not, on a register given by its address. *)

Definition readl {S} `{Regmap S} (map : S) (addr : Z) : Z := snd (regmap_read map addr).
Definition writel {S} `{Regmap S} (map : S) (v addr : Z) : S := fst (regmap_write map addr v).

(** One bit of a register. *)
Definition rbit {S} `{Regmap S} (map : S) (r b : Z) : bool := Z.testbit (reg_val map r) b.

(** ** Masks *)

Lemma ones_mask s w :
  0 <= s -> 0 < w -> s + w <= 32 -> u32 (((1 << w) - 1) << s) = u32 (SETPMASK w s).
Proof.
  intros Hs Hw Hsw. unfold SETPMASK, u32.
  apply Z.bits_inj'. intros i Hi. destruct (Z.lt_ge_cases i 32).
  - rewrite !Z.mod_pow2_bits_low, GENMASK_testbit, Z.shiftl_spec by lia.
    rewrite Z.shiftl_mul_pow2, Z.mul_1_l by lia.
    replace (2 ^ w - 1) with (Z.ones w) by (rewrite Z.ones_equiv; lia).
    destruct (Z.leb_spec s i), (Z.leb_spec i (s + w - 1)); cbn;
      [apply Z.ones_spec_low|apply Z.ones_spec_high|apply Z.testbit_neg_r|apply Z.testbit_neg_r]; lia.
  - by rewrite !Z.mod_pow2_bits_high by lia.
Qed.

Lemma BIT_pow n : 0 <= n < 32 -> BIT n = 2 ^ n /\ u32 (BIT n) = 2 ^ n.
Proof.
  intros Hn. assert (0 < 2 ^ n < 2 ^ 32) by (split; [|apply Z.pow_lt_mono_r]; lia).
  unfold BIT. rewrite Z.shiftl_mul_pow2, Z.mul_1_l, u64_small by lia.
  split; [done|]. apply u32_small; lia.
Qed.

Lemma BIT_bit n b : 0 <= n < 32 -> 0 <= b -> Z.testbit (u32 (BIT n)) b = (b =? n).
Proof.
  intros Hn Hb. rewrite (proj2 (BIT_pow n Hn)). destruct (Z.eqb_spec b n) as [->|].
  - by apply Z.pow2_bits_true.
  - apply Z.pow2_bits_false; lia.
Qed.

Lemma BIT_mask n : 0 <= n < 32 -> u32 (BIT n) = u32 (SETPMASK 1 n).
Proof.
  intros Hn. rewrite <- ones_mask by lia. rewrite (proj2 (BIT_pow n Hn)).
  change ((1 << 1) - 1) with 1.
  rewrite Z.shiftl_mul_pow2, Z.mul_1_l by lia. symmetry. apply u32_small.
  split; [|apply Z.pow_lt_mono_r]; lia.
Qed.

(** [x & BIT(b)] as a condition. *)
Lemma land_pow2_truthy x b : 0 <= b -> truthy (x .& 2 ^ b) = Z.testbit x b.
Proof.
  intros Hb. unfold truthy. destruct (Z.testbit x b) eqn:E.
  - destruct (Z.eqb_spec (x .& 2 ^ b) 0) as [H1|]; [|done].
    apply (f_equal (fun z => Z.testbit z b)) in H1.
    rewrite Z.land_spec, E, Z.bits_0, Z.pow2_bits_true in H1 by lia. done.
  - assert (x .& 2 ^ b = 0) as ->; [|done]. apply Z.bits_inj'. intros i Hi.
    rewrite Z.land_spec, Z.bits_0. destruct (Z.eq_dec i b) as [->|]; [by rewrite E|].
    rewrite Z.pow2_bits_false by lia. apply andb_false_r.
Qed.

(** ** Fields *)

Section Fields.
Context {S : Type} `{RegmapOk S}.
Implicit Types (map : S).

Lemma update_field map r s w v :
  0 <= s -> 0 < w -> s + w <= 32 ->
  regmap_update_bits map r (u32 (((1 << w) - 1) << s)) (u32 (v << s))
  = (meson_parm_write map (Parm r s w) v, 0).
Proof.
  intros ? ? ?. rewrite (surjective_pairing (regmap_update_bits _ _ _ _)), rm_update_ok.
  f_equal. unfold meson_parm_write. cbn [reg_off Regmap.shift width]. by rewrite ones_mask.
Qed.

Lemma update_bit map r b (arg : bool) :
  0 <= b < 32 ->
  regmap_update_bits map r (u32 (BIT b)) (if arg then u32 (BIT b) else 0)
  = (meson_parm_write map (Parm r b 1) (Z.b2z arg), 0).
Proof.
  intros Hb. rewrite (surjective_pairing (regmap_update_bits _ _ _ _)), rm_update_ok.
  f_equal. unfold meson_parm_write. cbn [reg_off Regmap.shift width]. rewrite <- BIT_mask by lia.
  f_equal. f_equal. destruct arg; cbn [Z.b2z]; [|by rewrite Z.shiftl_0_l]. rewrite (proj2 (BIT_pow b Hb)).
  assert (0 < 2 ^ b < 2 ^ 32) by (split; [|apply Z.pow_lt_mono_r]; lia).
  rewrite Z.shiftl_mul_pow2, Z.mul_1_l by lia. symmetry. apply u32_small. lia.
Qed.

Lemma read_bit map r b :
  0 <= b < 32 -> meson_parm_read map (Parm r b 1) = Z.b2z (Z.testbit (reg_val map r) b).
Proof.
  intros Hb. rewrite parm_read_field by (unfold parm_wf; cbn; lia). cbn [reg_off Regmap.shift width].
  change (2 ^ 1) with 2. rewrite <- Z.bit0_mod, Z.shiftr_spec by lia. done.
Qed.

Lemma test_bit map r b :
  0 <= b < 32 ->
  truthy (reg_val map r .& u32 (BIT b)) = truthy (meson_parm_read map (Parm r b 1)).
Proof.
  intros Hb. rewrite (proj2 (BIT_pow b Hb)), land_pow2_truthy, read_bit by lia.
  by destruct (Z.testbit (reg_val map r) b).
Qed.

Lemma regmap_read_val map r : regmap_read map r = (0, reg_val map r).
Proof. rewrite (surjective_pairing (regmap_read map r)). by rewrite rm_read_ok. Qed.

Lemma test_field map r s w :
  0 <= s -> 0 < w -> s + w <= 32 ->
  (reg_val map r >> s) .& ((1 << w) - 1) = meson_parm_read map (Parm r s w).
Proof.
  intros ? ? ?. rewrite parm_read_field by (unfold parm_wf; cbn; lia). cbn [reg_off Regmap.shift width].
  rewrite <- land_mask_mod by lia. by rewrite (Z.shiftl_mul_pow2 1), Z.mul_1_l by lia.
Qed.
Lemma writel_parm_other map v a q :
  parm_wf q -> parm_stable q -> a <> reg_off q -> meson_parm_read (writel map v a) q = meson_parm_read map q.
Proof.
  intros Hq Hst Ha. pose proof Hq as (Hs & Hw & Hsum). apply Z.bits_inj'. intros i Hi.
  rewrite !parm_read_bit by done. destruct (Z.ltb_spec i (width q)); cbn; [|done].
  unfold writel. rewrite rm_write_bit by (done || lia || (apply Hst; lia)).
  by rewrite decide_False by congruence.
Qed.

Lemma writel_bit map v a r b :
  0 <= b < 32 -> volatile r b = false ->
  rbit (writel map v a) r b = if decide (r = a) then Z.testbit v b else rbit map r b.
Proof. intros. unfold rbit, writel. by apply rm_write_bit. Qed.
End Fields.
