(* ===== verification/ClkMpll.v ===== *)
(** * MPLL fractional divider (src/drivers/clk/meson/clk-mpll.c)

    f = parent / (n2 + sdm/16384).  The parameters are computed from the
    requested rate, written to two register fields and read back by
    [mpll_recalc_rate].  The theorems: the parameters stay in the hardware
    range, the rounding mode "up" picks the best rate not above the request,
    the registers round-trip, and suspend/resume restores the rate. *)

From S2P Require Import Prelude Regmap.
From stdpp Require Import base list numbers gmap.

Local Open Scope Z_scope.
Local Open Scope cint_scope.

Module Mpll.

Definition SDM_DEN : Z := 16384.
Definition N2_MIN : Z := 4.
Definition N2_MAX : Z := 511.

Definition CLK_MESON_MPLL_ROUND_CLOSEST : Z := BIT 0.
Definition CLK_MESON_MPLL_SPREAD_SPECTRUM : Z := BIT 1.

Record meson_clk_mpll_data := MpllData {
  sdm : parm;
  sdm_en : parm;
  n2 : parm;
  ssen : parm;
  misc : parm;
  init_regs : list reg_sequence;   (* init_regs and init_count *)
  flags : Z;
  saved_rate : Z;
}.

Definition set_saved_rate (d : meson_clk_mpll_data) (r : Z) : meson_clk_mpll_data :=
  MpllData (sdm d) (sdm_en d) (n2 d) (ssen d) (misc d) (init_regs d) (flags d) r.

Definition rate_from_params (parent_rate sdm n2 : Z) : Z :=
  let divisor := u32 (u32 (SDM_DEN * n2) + sdm) in
  if n2 <? N2_MIN then - EINVAL
  else s64 (DIV_ROUND_UP_ULL (u64 (parent_rate * SDM_DEN)) divisor).

(** Returns ( *sdm, *n2). *)
Definition params_from_rate (requested_rate parent_rate flags : Z) : Z * Z :=
  let div := do_div_q parent_rate requested_rate in
  let frac := do_div_r parent_rate requested_rate in
  let frac := u64 (frac * SDM_DEN) in
  let sdm :=
    if truthy (flags .& CLK_MESON_MPLL_ROUND_CLOSEST)
    then u32 (DIV_ROUND_CLOSEST_ULL frac requested_rate)
    else u32 (DIV_ROUND_UP_ULL frac requested_rate) in
  let '(sdm, div) := if sdm =? SDM_DEN then (0, u64 (div + 1)) else (sdm, div) in
  if div <? N2_MIN then (0, N2_MIN)
  else if N2_MAX <? div then (SDM_DEN - 1, N2_MAX)
  else (sdm, u32 div).

Section Ops.
Context {S : Type} `{Regmap S}.

Definition mpll_recalc_rate (map : S) (mpll : meson_clk_mpll_data) (parent_rate : Z) : Z :=
  let sdm := meson_parm_read map (sdm mpll) in
  let n2 := meson_parm_read map (n2 mpll) in
  let rate := rate_from_params parent_rate sdm n2 in
  if rate <? 0 then 0 else rate.

Definition mpll_round_rate (mpll : meson_clk_mpll_data) (rate parent_rate : Z) : Z :=
  let '(sdm, n2) := params_from_rate rate parent_rate (flags mpll) in
  rate_from_params parent_rate sdm n2.

Definition mpll_set_rate (map : S) (mpll : meson_clk_mpll_data) (rate parent_rate : Z) : S :=
  let '(vsdm, vn2) := params_from_rate rate parent_rate (flags mpll) in
  let map := meson_parm_write map (sdm mpll) vsdm in
  meson_parm_write map (n2 mpll) vn2.

Definition mpll_init (map : S) (mpll : meson_clk_mpll_data) : S :=
  let map :=
    match init_regs mpll with
    | [] => map
    | l => fst (regmap_multi_reg_write map l)
    end in
  let map := meson_parm_write map (sdm_en mpll) 1 in
  let map :=
    if MESON_PARM_APPLICABLE (ssen mpll) then
      let ss := if truthy (flags mpll .& CLK_MESON_MPLL_SPREAD_SPECTRUM) then 1 else 0 in
      meson_parm_write map (ssen mpll) ss
    else map in
  if MESON_PARM_APPLICABLE (misc mpll) then meson_parm_write map (misc mpll) 1 else map.

(** [parent_rate] stands for clk_hw_get_rate(clk_hw_get_parent(hw)). *)
Definition mpll_save_context (map : S) (mpll : meson_clk_mpll_data) (parent_rate : Z)
  : meson_clk_mpll_data :=
  set_saved_rate mpll (mpll_recalc_rate map mpll parent_rate).

Definition mpll_restore_context (map : S) (mpll : meson_clk_mpll_data) (parent_rate : Z) : S :=
  let map := mpll_init map mpll in
  mpll_set_rate map mpll (saved_rate mpll) parent_rate.

End Ops.

(** ** Parameters *)

(** The divisor the hardware applies, in 1/16384. *)
Definition divisor_of (params : Z * Z) : Z := SDM_DEN * params.2 + params.1.

(** Parameters the hardware fields can hold and [rate_from_params] accepts. *)
Definition params_ok (params : Z * Z) : Prop :=
  0 <= params.1 < SDM_DEN /\ N2_MIN <= params.2 <= N2_MAX.

(** Rates and parent rates met in practice: positive, below 4.29 GHz. *)
Definition rate_ok (r : Z) : Prop := 0 < r < 2 ^ 32.

Lemma rate_from_params_cdiv parent sdm n2 :
  rate_ok parent -> params_ok (sdm, n2) ->
  rate_from_params parent sdm n2 = cdiv (parent * SDM_DEN) (SDM_DEN * n2 + sdm).
Proof.
  unfold rate_ok, params_ok, SDM_DEN, N2_MIN, N2_MAX. cbn [fst snd]. intros Hp [Hs Hn].
  unfold rate_from_params, SDM_DEN, N2_MIN. rewrite (proj2 (Z.ltb_ge _ _)) by lia.
  rewrite (u32_small (16384 * n2)), u32_small, u64_small by lia.
  rewrite DIV_ROUND_UP_ULL_cdiv by lia. apply s64_small. split.
  - pose proof (cdiv_nonneg (parent * 16384) (16384 * n2 + sdm)). lia.
  - assert (cdiv (parent * 16384) (16384 * n2 + sdm) <= 2 ^ 62); [|lia].
    apply cdiv_le; lia.
Qed.

(** The raw quotient before the range is applied, in rounding mode "up". *)
Lemma params_from_rate_up rate parent flags :
  rate_ok rate -> rate_ok parent -> flags .& CLK_MESON_MPLL_ROUND_CLOSEST = 0 ->
  let D := cdiv (parent * SDM_DEN) rate in
  params_from_rate rate parent flags =
    if D <? SDM_DEN * N2_MIN then (0, N2_MIN)
    else if SDM_DEN * (N2_MAX + 1) <=? D then (SDM_DEN - 1, N2_MAX)
    else (D mod SDM_DEN, D / SDM_DEN).
Proof.
  intros Hr Hp Hf D. unfold rate_ok in *. unfold params_from_rate. rewrite Hf. cbn [truthy Z.eqb negb].
  unfold do_div_q, do_div_r. rewrite (u64_small parent), (u32_small rate) by lia.
  pose proof (Z.mod_pos_bound parent rate ltac:(lia)).
  assert (0 <= parent / rate <= parent).
  { split; [apply Z.div_pos; lia|]. apply Z.div_le_upper_bound; nia. }
  rewrite (u64_small (parent mod rate * SDM_DEN)) by (unfold SDM_DEN; lia).
  rewrite DIV_ROUND_UP_ULL_cdiv by (unfold SDM_DEN; lia).
  set (F := cdiv (parent mod rate * SDM_DEN) rate).
  assert (HF : 0 <= F <= SDM_DEN).
  { split; [apply cdiv_nonneg; unfold SDM_DEN; lia|]. apply cdiv_le; unfold SDM_DEN; nia. }
  assert (HD : D = SDM_DEN * (parent / rate) + F).
  { unfold D, F. rewrite cdiv_scaled; unfold SDM_DEN; lia. }
  rewrite (u32_small F) by (unfold SDM_DEN in *; lia).
  unfold SDM_DEN, N2_MIN, N2_MAX in *. rewrite HD. clear HD D.
  destruct (Z.eqb_spec F 16384) as [->|HF'].
  - rewrite (u64_small (parent / rate + 1)) by lia.
    replace (16384 * (parent / rate) + 16384) with ((parent / rate + 1) * 16384) by lia.
    rewrite Z.mod_mul, Z.div_mul by lia. repeat case_if; try lia; rewrite ?u32_small by lia; done.
  - rewrite (Z.add_comm (16384 * _)), (Z.mul_comm 16384).
    rewrite Z.mod_add, Z.div_add by lia. rewrite (Z.mod_small F), (Z.div_small F) by lia.
    repeat case_if; try lia; rewrite ?u32_small by lia; done.
Qed.

(** Whatever the request and the rounding mode, the parameters fit the
    hardware fields and are accepted by [rate_from_params]. *)
Lemma params_from_rate_ok rate parent flags :
  rate_ok rate -> rate_ok parent -> params_ok (params_from_rate rate parent flags).
Proof.
  unfold rate_ok, params_ok. intros Hr Hp. unfold params_from_rate.
  unfold do_div_q, do_div_r. rewrite (u64_small parent), (u32_small rate) by lia.
  pose proof (Z.mod_pos_bound parent rate ltac:(lia)).
  assert (0 <= parent / rate <= parent).
  { split; [apply Z.div_pos; lia|]. apply Z.div_le_upper_bound; nia. }
  rewrite (u64_small (parent mod rate * SDM_DEN)) by (unfold SDM_DEN; lia).
  set (F := if truthy _ then _ else _).
  assert (HF : 0 <= F <= SDM_DEN).
  { unfold F. case_if.
    - unfold DIV_ROUND_CLOSEST_ULL, do_div_q. unfold SDM_DEN in *.
      pose proof (Z.div_pos rate 2 ltac:(lia) ltac:(lia)).
      pose proof (Z.mul_div_le rate 2 ltac:(lia)).
      rewrite (u64_small (_ + _)), u64_small, (u32_small rate) by lia.
      assert (0 <= (parent mod rate * 16384 + rate / 2) / rate <= 16384); [|rewrite u32_small; lia].
      split; [apply Z.div_pos; lia|].
      assert ((parent mod rate * 16384 + rate / 2) / rate < 16385); [|lia].
      apply Z.div_lt_upper_bound; lia.
    - unfold SDM_DEN in *. rewrite DIV_ROUND_UP_ULL_cdiv by lia.
      assert (0 <= cdiv (parent mod rate * 16384) rate <= 16384); [|rewrite u32_small; lia].
      split; [apply cdiv_nonneg; lia|]. apply cdiv_le; nia. }
  unfold SDM_DEN, N2_MIN, N2_MAX in *.
  destruct (Z.eqb_spec F 16384); [rewrite u64_small by lia|];
    repeat case_if; cbn; rewrite ?u32_small by lia; lia.
Qed.

(** In rounding mode "up" (the default), a request the divider can reach
    is rounded to the best rate not above it: every parameter pair the
    hardware accepts whose rate does not exceed the request is at most the
    rate chosen. *)
Theorem mpll_round_rate_optimal mpll rate parent sdm' n2' :
  rate_ok rate -> rate_ok parent ->
  flags mpll .& CLK_MESON_MPLL_ROUND_CLOSEST = 0 ->
  SDM_DEN * N2_MIN <= cdiv (parent * SDM_DEN) rate < SDM_DEN * (N2_MAX + 1) ->
  let best := mpll_round_rate mpll rate parent in
  0 < best <= rate /\
  (params_ok (sdm', n2') -> rate_from_params parent sdm' n2' <= rate ->
   rate_from_params parent sdm' n2' <= best).
Proof.
  intros Hr Hp Hf HD best.
  assert (Hb : best = cdiv (parent * SDM_DEN) (cdiv (parent * SDM_DEN) rate)).
  { unfold best, mpll_round_rate. pose proof (params_from_rate_ok rate parent (flags mpll) Hr Hp).
    rewrite params_from_rate_up in * by done.
    rewrite (proj2 (Z.ltb_ge _ _)), (proj2 (Z.leb_gt _ _)) in * by lia.
    rewrite rate_from_params_cdiv by done. f_equal. symmetry. apply Z.div_mod. done. }
  rewrite Hb. unfold rate_ok, SDM_DEN, N2_MIN, N2_MAX in *. split.
  - split; [apply cdiv_lt; lia|]. apply cdiv_swap; lia.
  - intros Hok. rewrite rate_from_params_cdiv by done.
    unfold params_ok, SDM_DEN, N2_MIN, N2_MAX in *. cbn in Hok. intros Hle.
    apply cdiv_antimono; [|lia]. split; [lia|]. apply cdiv_swap; lia.
Qed.

(** ** Registers *)

(** A well-formed MPLL description: the fields hold the parameter ranges and
    do not overlap. *)
Record mpll_wf {S} `{RegmapOk S} (mpll : meson_clk_mpll_data) : Prop := {
  wf_sdm : parm_wf (sdm mpll);
  wf_n2 : parm_wf (n2 mpll);
  wf_sdm_stable : parm_stable (sdm mpll);
  wf_n2_stable : parm_stable (n2 mpll);
  wf_sdm_width : 14 <= width (sdm mpll);
  wf_n2_width : 9 <= width (n2 mpll);
  wf_disjoint : parm_disjoint (n2 mpll) (sdm mpll);
}.

Section Registers.
Context {S : Type} `{RegmapOk S}.
Implicit Types (map : S).

Lemma mpll_set_rate_fields map mpll rate parent :
  mpll_wf mpll -> rate_ok rate -> rate_ok parent ->
  let map' := mpll_set_rate map mpll rate parent in
  (meson_parm_read map' (sdm mpll), meson_parm_read map' (n2 mpll))
  = params_from_rate rate parent (flags mpll).
Proof.
  intros [] Hr Hp. cbn. unfold mpll_set_rate.
  pose proof (params_from_rate_ok rate parent (flags mpll) Hr Hp) as [Hs Hn].
  destruct (params_from_rate _ _ _) as [v w]. cbn in Hs, Hn.
  unfold SDM_DEN, N2_MIN, N2_MAX in *.
  assert (2 ^ 14 <= 2 ^ width (sdm mpll)) by (apply Z.pow_le_mono_r; lia).
  assert (2 ^ 9 <= 2 ^ width (n2 mpll)) by (apply Z.pow_le_mono_r; lia).
  rewrite parm_read_write_other, !parm_read_write_small by (done || lia). done.
Qed.

Lemma mpll_set_recalc map mpll rate parent :
  mpll_wf mpll -> rate_ok rate -> rate_ok parent ->
  mpll_recalc_rate (mpll_set_rate map mpll rate parent) mpll parent
  = mpll_round_rate mpll rate parent.
Proof.
  intros Hwf Hr Hp. pose proof (mpll_set_rate_fields map mpll rate parent Hwf Hr Hp) as Hf.
  pose proof (params_from_rate_ok rate parent (flags mpll) Hr Hp) as Hok.
  unfold mpll_recalc_rate, mpll_round_rate. cbn in Hf.
  destruct (params_from_rate _ _ _) as [v w]. injection Hf as -> ->.
  rewrite rate_from_params_cdiv by done. unfold params_ok, rate_ok, SDM_DEN, N2_MIN in *. cbn in Hok.
  rewrite (proj2 (Z.ltb_ge _ _)); [done|]. apply cdiv_nonneg; lia.
Qed.

(** What [mpll_set_rate] programs is what [mpll_round_rate] promised, for
    every request and rounding mode, as read back from the registers by
    [mpll_recalc_rate]; the fields then hold a pair the hardware accepts. *)
Theorem mpll_set_rate_recalc map mpll rate parent :
  mpll_wf mpll -> rate_ok rate -> rate_ok parent ->
  let map' := mpll_set_rate map mpll rate parent in
  mpll_recalc_rate map' mpll parent = mpll_round_rate mpll rate parent /\
  params_ok (meson_parm_read map' (sdm mpll), meson_parm_read map' (n2 mpll)).
Proof.
  intros Hwf Hr Hp map'. split; [by apply mpll_set_recalc|].
  pose proof (mpll_set_rate_fields map mpll rate parent Hwf Hr Hp) as E. cbn zeta in E.
  unfold map'. rewrite E. by apply params_from_rate_ok.
Qed.

(** Suspend and resume.  For a divider programmed within its range, in
    rounding mode "up", [mpll_save_context] followed (after the registers lost
    their content) by [mpll_restore_context] brings back the same rate. *)
Theorem mpll_save_restore map0 map1 mpll parent :
  mpll_wf mpll -> rate_ok parent -> flags mpll .& CLK_MESON_MPLL_ROUND_CLOSEST = 0 ->
  params_ok (meson_parm_read map0 (sdm mpll), meson_parm_read map0 (n2 mpll)) ->
  let mpll' := mpll_save_context map0 mpll parent in
  mpll_recalc_rate (mpll_restore_context map1 mpll' parent) mpll' parent
  = mpll_recalc_rate map0 mpll parent.
Proof.
  intros Hwf Hp Hf Hok mpll'. unfold mpll_restore_context.
  assert (Hwf' : mpll_wf mpll') by (destruct Hwf; by constructor).
  set (P := parent * SDM_DEN).
  set (D := SDM_DEN * meson_parm_read map0 (n2 mpll) + meson_parm_read map0 (sdm mpll)).
  assert (HP : 0 < P) by (unfold P, rate_ok, SDM_DEN in *; lia).
  assert (HD : SDM_DEN * N2_MIN <= D < SDM_DEN * (N2_MAX + 1))
    by (unfold D, params_ok, SDM_DEN, N2_MIN, N2_MAX in *; cbn in Hok; lia).
  assert (HR : mpll_recalc_rate map0 mpll parent = cdiv P D).
  { unfold mpll_recalc_rate. rewrite rate_from_params_cdiv by done. fold P. fold D.
    rewrite (proj2 (Z.ltb_ge _ _)); [done|]. apply cdiv_nonneg; unfold SDM_DEN, N2_MIN in *; lia. }
  rewrite HR in *. assert (Hr : rate_ok (cdiv P D)).
  { unfold rate_ok, SDM_DEN, N2_MIN in *. split; [apply cdiv_lt; lia|].
    assert (cdiv P D <= parent); [|lia]. apply cdiv_le; [lia|]. unfold P. nia. }
  rewrite mpll_set_recalc by (done || (unfold mpll'; cbn; by rewrite HR)).
  unfold mpll', mpll_save_context. cbn. rewrite HR.
  unfold mpll_round_rate. cbn.
  assert (Hle : cdiv P (cdiv P D) <= D) by (apply cdiv_swap; unfold rate_ok, SDM_DEN, N2_MIN in *; lia).
  pose proof (params_from_rate_ok (cdiv P D) parent (flags mpll) Hr Hp) as Hok'.
  rewrite params_from_rate_up in * by done. fold P in Hok'. fold P.
  assert (Hid : cdiv P (cdiv P (cdiv P D)) = cdiv P D)
    by (apply cdiv_cdiv_idem; unfold SDM_DEN, N2_MIN in *; lia).
  assert (H1 : 0 < cdiv P (cdiv P D)) by (apply cdiv_lt; unfold rate_ok in Hr; lia).
  destruct (Z.ltb_spec (cdiv P (cdiv P D)) (SDM_DEN * N2_MIN)).
  { rewrite rate_from_params_cdiv by done. rewrite Z.add_0_r. fold P.
    pose proof (cdiv_antimono P (cdiv P (cdiv P D)) (SDM_DEN * N2_MIN)).
    pose proof (cdiv_antimono P (SDM_DEN * N2_MIN) D). unfold SDM_DEN, N2_MIN in *. lia. }
  destruct (Z.leb_spec (SDM_DEN * (N2_MAX + 1)) (cdiv P (cdiv P D))); [lia|].
  rewrite rate_from_params_cdiv by done. rewrite <- Z.div_mod by done. exact Hid.
Qed.

End Registers.

(** ** A concrete MPLL (MPLL0 of the G12A: sdm 14 bits, n2 9 bits) *)

Definition mpll0 : meson_clk_mpll_data :=
  MpllData (Parm 0x278 0 14) (Parm 0x278 30 1) (Parm 0x278 20 9) (Parm 0 0 0)
    (Parm 0x278 29 1) [RegSeq 0x278 0x543 0] 0 0.

Lemma mpll0_wf : mpll_wf (S := gmap Z Z) mpll0.
Proof. split; cbn; unfold parm_wf, parm_disjoint; cbn; lia || done. Qed.

Lemma mpll_round_rate_optimal_witness :
  mpll_round_rate mpll0 294912000 2000000000 = 294909641 /\
  0 < mpll_round_rate mpll0 294912000 2000000000 <= 294912000.
Proof.
  split; [vm_compute; reflexivity|].
  apply (mpll_round_rate_optimal mpll0 294912000 2000000000 0 4);
    [unfold rate_ok; lia..|reflexivity|vm_compute; split; [discriminate|reflexivity]].
Defined.

Lemma mpll_set_rate_recalc_witness :
  let map' := mpll_set_rate (∅ : gmap Z Z) mpll0 294912000 2000000000 in
  mpll_recalc_rate map' mpll0 2000000000 = mpll_round_rate mpll0 294912000 2000000000 /\
  params_ok (meson_parm_read map' (sdm mpll0), meson_parm_read map' (n2 mpll0)).
Proof. apply mpll_set_rate_recalc; [apply mpll0_wf|unfold rate_ok; lia..]. Defined.

Lemma mpll_save_restore_witness :
  let map0 := mpll_set_rate (∅ : gmap Z Z) mpll0 294912000 2000000000 in
  let mpll' := mpll_save_context map0 mpll0 2000000000 in
  mpll_recalc_rate (mpll_restore_context (∅ : gmap Z Z) mpll' 2000000000) mpll' 2000000000
  = mpll_recalc_rate map0 mpll0 2000000000.
Proof.
  intros map0 mpll'.
  apply (mpll_save_restore map0 ∅ mpll0 2000000000);
    [apply mpll0_wf | unfold rate_ok; lia | reflexivity
    | vm_compute; repeat split; discriminate || reflexivity].
Defined.

End Mpll.
