(* ===== verification/ClkDualdiv.v ===== *)
(** * Dual divider of the 32 kHz clocks (src/drivers/clk/meson/clk-dualdiv.c)

    Two dividers n1, n2 used alternately m1 and m2 times.  The settings come
    from a table closed by an entry with n1 = 0.  The theorems: the table
    search returns a nearest setting, the registers round-trip, and resume
    either restores the saved rate or leaves the divider alone. *)

From S2P Require Import Prelude Regmap.
From stdpp Require Import base list numbers gmap.

Local Open Scope Z_scope.
Local Open Scope cint_scope.

Module Dualdiv.

Record meson_clk_dualdiv_param := DParam { n1 : Z; n2 : Z; m1 : Z; m2 : Z; dual : Z }.

Record meson_clk_dualdiv_data := DData {
  f_n1 : parm;
  f_n2 : parm;
  f_m1 : parm;
  f_m2 : parm;
  f_dual : parm;
  table : option (list meson_clk_dualdiv_param);   (* None: NULL *)
  saved_rate : Z;
}.

Definition set_saved_rate (d : meson_clk_dualdiv_data) (r : Z) : meson_clk_dualdiv_data :=
  DData (f_n1 d) (f_n2 d) (f_m1 d) (f_m2 d) (f_dual d) (table d) r.

(** DIV_ROUND_CLOSEST of an unsigned long by an unsigned int. *)
Definition DIV_ROUND_CLOSEST_ul (x d : Z) : Z := u64 (x + d / 2) / d.

Definition __dualdiv_param_to_rate (parent_rate : Z) (p : meson_clk_dualdiv_param) : Z :=
  if negb (truthy (dual p)) then DIV_ROUND_CLOSEST_ul parent_rate (n1 p)
  else DIV_ROUND_CLOSEST_ULL (u64 (parent_rate * u32 (m1 p + m2 p)))
         (u32 (u32 (n1 p * m1 p) + u32 (n2 p * m2 p))).

(** The loop of [__dualdiv_get_setting] from index [i] on: [rest] is the table
    from [i].  Returns the index of the setting. *)
Fixpoint get_setting_loop (rate parent_rate : Z) (rest : list meson_clk_dualdiv_param)
    (i : nat) (best : Z) (best_i : nat) : nat :=
  match rest with
  | [] => best_i
  | p :: rest =>
      if negb (truthy (n1 p)) then best_i
      else
        let now := __dualdiv_param_to_rate parent_rate p in
        if now =? rate then i
        else if abs_ul (u64 (now - rate)) <? abs_ul (u64 (best - rate))
        then get_setting_loop rate parent_rate rest (S i) now i
        else get_setting_loop rate parent_rate rest (S i) best best_i
  end.

Definition __dualdiv_get_setting (rate parent_rate : Z) (dualdiv : meson_clk_dualdiv_data)
  : option meson_clk_dualdiv_param :=
  match table dualdiv with
  | None => None
  | Some t => t !! get_setting_loop rate parent_rate t 0 0 0
  end.

Section Ops.
Context {R : Type} `{Regmap R}.

Definition meson_clk_dualdiv_recalc_rate (map : R) (dualdiv : meson_clk_dualdiv_data)
    (parent_rate : Z) : Z :=
  let setting := {|
    dual := meson_parm_read map (f_dual dualdiv);
    n1 := u32 (meson_parm_read map (f_n1 dualdiv) + 1);
    m1 := u32 (meson_parm_read map (f_m1 dualdiv) + 1);
    n2 := u32 (meson_parm_read map (f_n2 dualdiv) + 1);
    m2 := u32 (meson_parm_read map (f_m2 dualdiv) + 1);
  |} in
  __dualdiv_param_to_rate parent_rate setting.

Definition meson_clk_dualdiv_round_rate (map : R) (dualdiv : meson_clk_dualdiv_data)
    (rate parent_rate : Z) : Z :=
  match __dualdiv_get_setting rate parent_rate dualdiv with
  | None => meson_clk_dualdiv_recalc_rate map dualdiv parent_rate
  | Some setting => __dualdiv_param_to_rate parent_rate setting
  end.

(** [x ? x - 1 : 0] *)
Definition dec0 (x : Z) : Z := if truthy x then x - 1 else 0.

Definition meson_clk_dualdiv_set_rate (map : R) (dualdiv : meson_clk_dualdiv_data)
    (rate parent_rate : Z) : R * Z :=
  match __dualdiv_get_setting rate parent_rate dualdiv with
  | None => (map, - EINVAL)
  | Some setting =>
      let map := meson_parm_write map (f_dual dualdiv) (dual setting) in
      let map := meson_parm_write map (f_n1 dualdiv) (dec0 (n1 setting)) in
      let map := meson_parm_write map (f_m1 dualdiv) (dec0 (m1 setting)) in
      let map := meson_parm_write map (f_n2 dualdiv) (dec0 (n2 setting)) in
      let map := meson_parm_write map (f_m2 dualdiv) (dec0 (m2 setting)) in
      (map, 0)
  end.

Definition meson_clk_dualdiv_save_context (map : R) (dualdiv : meson_clk_dualdiv_data)
    (parent_rate : Z) : meson_clk_dualdiv_data :=
  set_saved_rate dualdiv (meson_clk_dualdiv_recalc_rate map dualdiv parent_rate).

Definition meson_clk_dualdiv_restore_context (map : R) (dualdiv : meson_clk_dualdiv_data)
    (parent_rate : Z) : R :=
  if negb (meson_clk_dualdiv_round_rate map dualdiv (saved_rate dualdiv) parent_rate
           =? saved_rate dualdiv)
  then map
  else fst (meson_clk_dualdiv_set_rate map dualdiv (saved_rate dualdiv) parent_rate).

End Ops.

(** ** The table search *)

(** Entries before the closing one. *)
Fixpoint entries (t : list meson_clk_dualdiv_param) : list meson_clk_dualdiv_param :=
  match t with
  | [] => []
  | p :: t => if negb (truthy (n1 p)) then [] else p :: entries t
  end.

(** A setting the hardware fields can hold (12-bit dividers, 8-bit counters). *)
Definition param_wf (p : meson_clk_dualdiv_param) : Prop :=
  0 < n1 p <= 4096 /\
  (dual p = 0 \/ dual p = 1 /\ 0 < n2 p <= 4096 /\ 0 < m1 p <= 256 /\ 0 < m2 p <= 256).

Lemma param_to_rate_range parent p :
  0 <= parent < 2 ^ 32 -> param_wf p -> 0 <= __dualdiv_param_to_rate parent p < 2 ^ 63.
Proof.
  intros Hp (Hn1 & Hd). unfold __dualdiv_param_to_rate.
  destruct Hd as [Hd|(Hd & Hn2 & Hm1 & Hm2)]; rewrite Hd; cbn [truthy Z.eqb negb].
  - unfold DIV_ROUND_CLOSEST_ul. assert (0 <= n1 p / 2 <= 4096)
      by (split; [apply Z.div_pos|apply Z.div_le_upper_bound]; lia).
    rewrite u64_small by lia. split; [apply Z.div_pos; lia|]. apply Z.div_lt_upper_bound; lia.
  - assert (0 < n1 p * m1 p <= 4096 * 256) by nia.
    assert (0 < n2 p * m2 p <= 4096 * 256) by nia.
    rewrite (u32_small (m1 p + m2 p)), (u32_small (n1 p * m1 p)), (u32_small (n2 p * m2 p)),
      (u32_small (_ + _)) by lia.
    assert (0 <= parent * (m1 p + m2 p) <= 2 ^ 32 * 512) by nia.
    set (d := n1 p * m1 p + n2 p * m2 p) in *. set (x := parent * _) in *.
    unfold DIV_ROUND_CLOSEST_ULL, do_div_q.
    assert (0 <= d / 2 <= d) by (split; [apply Z.div_pos|apply Z.div_le_upper_bound]; lia).
    rewrite (u64_small x), (u64_small (x + d / 2)), u64_small, u32_small by lia.
    split; [apply Z.div_pos; lia|]. apply Z.div_lt_upper_bound; lia.
Qed.

Section Search.
Context (rate parent : Z) (Hrate : 0 <= rate < 2 ^ 63) (Hparent : 0 <= parent < 2 ^ 32).

Local Abbreviation dist r := (Z.abs (r - rate)).
Local Abbreviation rate_of := (__dualdiv_param_to_rate parent).

(** Invariant of the loop: what it returns is an entry at least as near as
    [best] and as every entry still to visit, or [best_i] itself. *)
Lemma loop_nearest rest : forall i best best_i,
  0 <= best < 2 ^ 63 -> Forall param_wf (entries rest) ->
  let k := get_setting_loop rate parent rest i best best_i in
  (k = best_i /\ (forall p, p ∈ entries rest -> dist best <= dist (rate_of p))) \/
  (exists p, entries rest !! (k - i)%nat = Some p /\ (i <= k)%nat /\
     dist (rate_of p) < dist best + (if decide (rate_of p = rate) then 1 else 0) /\
     (forall q, q ∈ entries rest -> dist (rate_of p) <= dist (rate_of q))).
Proof.
  induction rest as [|p rest IH]; intros i best best_i Hb Hwf; cbn.
  - left. split; [done|]. intros p Hp. by apply elem_of_nil in Hp.
  - cbn in Hwf. destruct (negb (truthy (n1 p))) eqn:En.
    { left. split; [done|]. intros q Hq. by apply elem_of_nil in Hq. }
    apply Forall_cons_1 in Hwf as [Hp Hwf].
    pose proof (param_to_rate_range parent p Hparent Hp) as Hr.
    destruct (Z.eqb_spec (rate_of p) rate) as [Heq|Hne].
    { right. exists p. rewrite Nat.sub_diag. cbn. split; [done|]. split; [lia|].
      rewrite decide_True by done. split; [lia|]. intros q Hq. lia. }
    rewrite !abs_ul_small by lia.
    destruct (Z.ltb_spec (dist (rate_of p)) (dist best)) as [Hlt|Hge].
    + destruct (IH (S i) (rate_of p) i Hr Hwf) as [[Hk Hall]|(q & Hq & Hk & Hd & Hall)];
        cbn zeta in *.
      * right. exists p. rewrite Hk, Nat.sub_diag. split; [done|]. split; [lia|].
        split; [case_decide; lia|]. intros q Hq. apply elem_of_cons in Hq as [->|Hq]; [lia|auto].
      * right. exists q. destruct (_ - i)%nat as [|n] eqn:En'; [lia|].
        split; [cbn; rewrite <- Hq; f_equal; lia|]. split; [lia|].
        split; [case_decide; lia|]. intros q' Hq'. apply elem_of_cons in Hq' as [->|Hq']; [|auto].
        case_decide; lia.
    + destruct (IH (S i) best best_i Hb Hwf) as [[Hk Hall]|(q & Hq & Hk & Hd & Hall)];
        cbn zeta in *.
      * left. split; [done|]. intros q Hq'. apply elem_of_cons in Hq' as [->|Hq']; [lia|auto].
      * right. exists q. destruct (_ - i)%nat as [|n] eqn:En'; [lia|].
        split; [cbn; rewrite <- Hq; f_equal; lia|]. split; [lia|]. split; [done|].
        intros q' Hq'. apply elem_of_cons in Hq' as [->|Hq']; [|auto]. case_decide; lia.
Qed.

End Search.

Lemma entries_lookup t k p : entries t !! k = Some p -> t !! k = Some p.
Proof.
  revert k. induction t as [|q t IH]; intros k; cbn; [done|].
  destruct (negb _); [done|]. destruct k; cbn; auto.
Qed.

Lemma dualdiv_get_setting_nearest' dualdiv t rate parent :
  table dualdiv = Some t -> entries t <> [] -> Forall param_wf (entries t) ->
  0 < rate < 2 ^ 63 -> 0 <= parent < 2 ^ 32 ->
  exists p, __dualdiv_get_setting rate parent dualdiv = Some p /\ p ∈ entries t /\
    ((forall q, q ∈ entries t ->
        Z.abs (__dualdiv_param_to_rate parent p - rate)
        <= Z.abs (__dualdiv_param_to_rate parent q - rate)) \/
     (t !! 0%nat = Some p /\ forall q, q ∈ entries t ->
        rate <= Z.abs (__dualdiv_param_to_rate parent q - rate))).
Proof.
  intros Ht Hne Hwf Hr Hp. unfold __dualdiv_get_setting. rewrite Ht.
  destruct (loop_nearest rate parent ltac:(lia) Hp t 0 0 0 ltac:(lia) Hwf)
    as [[Hk Hall]|(p & Hl & _ & _ & Hall)]; cbn zeta in *.
  - rewrite Hk. destruct (entries t) as [|p l] eqn:El; [done|].
    exists p. assert (t !! 0%nat = Some p) by (apply entries_lookup; by rewrite El).
    split; [done|]. split; [left|]. right. split; [done|]. intros q Hq.
    specialize (Hall q Hq). lia.
  - rewrite Nat.sub_0_r in Hl. exists p. split; [by apply entries_lookup|].
    split; [by eapply list_elem_of_lookup_2|]. by left.
Qed.

(** The setting chosen for a request is an entry of the table nearest to
    the request, whenever some entry is nearer to it than 0 Hz is (an entry
    below twice the request); otherwise it is the first entry. *)
Theorem dualdiv_get_setting_nearest dualdiv t rate parent :
  table dualdiv = Some t -> entries t <> [] -> Forall param_wf (entries t) ->
  0 < rate < 2 ^ 63 -> 0 <= parent < 2 ^ 32 ->
  exists p, __dualdiv_get_setting rate parent dualdiv = Some p /\ p ∈ entries t /\
    ((forall q, q ∈ entries t ->
        Z.abs (__dualdiv_param_to_rate parent p - rate)
        <= Z.abs (__dualdiv_param_to_rate parent q - rate)) \/
     (t !! 0%nat = Some p /\ forall q, q ∈ entries t ->
        rate <= Z.abs (__dualdiv_param_to_rate parent q - rate))).
Proof. apply dualdiv_get_setting_nearest'. Qed.

(** ** Registers *)

Definition fields (d : meson_clk_dualdiv_data) : list parm :=
  [f_dual d; f_n1 d; f_m1 d; f_n2 d; f_m2 d].

(** The fields are disjoint and as wide as the hardware's (m1 and m2 have 8
    or 12 bits). *)
Definition dualdiv_wf {R} `{RegmapOk R} (d : meson_clk_dualdiv_data) : Prop :=
  fields_ok (fields d) /\ width (f_dual d) = 1 /\ width (f_n1 d) = 12 /\ width (f_n2 d) = 12 /\
  8 <= width (f_m1 d) <= 12 /\ 8 <= width (f_m2 d) <= 12.

Section Registers.
Context {R : Type} `{RegmapOk R}.

(** Programming a setting and reading it back give the rate of the setting. *)
Lemma recalc_set_setting (map : R) d rate parent setting :
  dualdiv_wf d -> param_wf setting ->
  __dualdiv_get_setting rate parent d = Some setting ->
  meson_clk_dualdiv_recalc_rate (fst (meson_clk_dualdiv_set_rate map d rate parent)) d parent
  = __dualdiv_param_to_rate parent setting.
Proof.
  intros (Hf & Wd & Wn1 & Wn2 & Wm1 & Wm2) (Hn1 & Hdual) Hset.
  unfold meson_clk_dualdiv_set_rate. rewrite Hset. cbn [fst].
  set (l := [(f_dual d, dual setting); (f_n1 d, dec0 (n1 setting)); (f_m1 d, dec0 (m1 setting));
             (f_n2 d, dec0 (n2 setting)); (f_m2 d, dec0 (m2 setting))]).
  change (meson_parm_write _ (f_m2 d) _) with (parm_writes map l).
  assert (Hread : forall p v, (p, v) ∈ l ->
    meson_parm_read (parm_writes map l) p = v mod 2 ^ width p)
    by (intros p v; by apply parm_read_writes).
  unfold meson_clk_dualdiv_recalc_rate.
  rewrite (Hread (f_dual d) (dual setting)), (Hread (f_n1 d) (dec0 (n1 setting))),
    (Hread (f_m1 d) (dec0 (m1 setting))), (Hread (f_n2 d) (dec0 (n2 setting))),
    (Hread (f_m2 d) (dec0 (m2 setting))) by solve_in.
  rewrite Wd, Wn1, Wn2.
  assert (2 ^ 8 <= 2 ^ width (f_m1 d)) by (apply Z.pow_le_mono_r; lia).
  assert (2 ^ 8 <= 2 ^ width (f_m2 d)) by (apply Z.pow_le_mono_r; lia).
  assert (Hdec : forall x n, 0 < x <= 2 ^ n -> n <= 12 -> u32 (dec0 x mod 2 ^ n + 1) = x).
  { intros x n Hx Hn. unfold dec0, truthy. destruct (Z.eqb_spec x 0); [lia|]. cbn.
    assert (2 ^ n <= 2 ^ 12) by (destruct (Z.le_gt_cases 0 n); [apply Z.pow_le_mono_r; lia|
      rewrite Z.pow_neg_r by lia; lia]).
    rewrite Z.mod_small, u32_small by lia. lia. }
  unfold __dualdiv_param_to_rate. cbn [dual n1 n2 m1 m2].
  destruct Hdual as [Hd|(Hd & Hn2 & Hm1 & Hm2)]; rewrite Hd; cbn [truthy Z.eqb negb].
  - change (0 mod 2 ^ 1) with 0. cbn [truthy Z.eqb negb]. by rewrite Hdec by lia.
  - change (1 mod 2 ^ 1) with 1. cbn [truthy Z.eqb negb]. by rewrite !Hdec by lia.
Qed.

(** [set_rate] programs exactly the rate [round_rate] announces; without
    a table it fails with -EINVAL and writes nothing. *)
Theorem dualdiv_set_rate_recalc (map : R) d rate parent :
  dualdiv_wf d ->
  match table d with
  | None => meson_clk_dualdiv_set_rate map d rate parent = (map, - EINVAL)
  | Some t =>
      entries t <> [] -> Forall param_wf (entries t) -> 0 < rate < 2 ^ 63 -> 0 <= parent < 2 ^ 32 ->
      meson_clk_dualdiv_recalc_rate (fst (meson_clk_dualdiv_set_rate map d rate parent)) d parent
      = meson_clk_dualdiv_round_rate map d rate parent
  end.
Proof.
  intros Hwf. destruct (table d) as [t|] eqn:Ht.
  - intros Hne Hp Hr Hpar.
    destruct (dualdiv_get_setting_nearest' d t rate parent Ht Hne Hp Hr Hpar) as (p & Hs & Hin & _).
    unfold meson_clk_dualdiv_round_rate. rewrite Hs.
    apply recalc_set_setting; [done| |done]. by eapply Forall_forall in Hp.
  - unfold meson_clk_dualdiv_set_rate, __dualdiv_get_setting. by rewrite Ht.
Qed.

(** Resume.  [restore_context] either leaves every register as it is
    (the saved rate is not one the table produces) or reprograms the divider
    so that it runs at the saved rate. *)
Theorem dualdiv_restore_context (map : R) d t parent :
  dualdiv_wf d -> table d = Some t -> entries t <> [] -> Forall param_wf (entries t) ->
  0 < saved_rate d < 2 ^ 63 -> 0 <= parent < 2 ^ 32 ->
  let map' := meson_clk_dualdiv_restore_context map d parent in
  if existsb (fun p => __dualdiv_param_to_rate parent p =? saved_rate d) (entries t)
  then meson_clk_dualdiv_recalc_rate map' d parent = saved_rate d
  else map' = map.
Proof.
  intros Hwf Ht Hne Hp Hr Hpar map'.
  destruct (dualdiv_get_setting_nearest' d t (saved_rate d) parent Ht Hne Hp Hr Hpar)
    as (p & Hs & Hin & Hnear).
  assert (Hround : meson_clk_dualdiv_round_rate map d (saved_rate d) parent
                   = __dualdiv_param_to_rate parent p)
    by (unfold meson_clk_dualdiv_round_rate; by rewrite Hs).
  unfold map', meson_clk_dualdiv_restore_context. rewrite Hround.
  destruct (existsb _ _) eqn:Hex.
  - apply existsb_exists in Hex. assert (Heq : __dualdiv_param_to_rate parent p = saved_rate d).
    { destruct Hex as (q & Hq & Hqr). apply list_elem_of_In in Hq. b2p. destruct Hnear as [Hn|[_ Hn]]; specialize (Hn q Hq); lia. }
    rewrite Heq, Z.eqb_refl. cbn [negb].
    rewrite (recalc_set_setting map d _ parent p); [done|done| |done].
    by eapply Forall_forall in Hp.
  - destruct (Z.eqb_spec (__dualdiv_param_to_rate parent p) (saved_rate d)); [|done].
    rewrite <- not_true_iff_false, existsb_exists in Hex. exfalso. apply Hex.
    exists p. rewrite <- list_elem_of_In. split; [done|]. by apply Z.eqb_eq.
Qed.

End Registers.

(** ** A concrete divider (32 kHz clock of the G12A always-on domain) *)

Definition g12a_32k_div_table : list meson_clk_dualdiv_param :=
  [DParam 733 732 8 11 1; DParam 0 0 0 0 0].

Definition g12a_32k : meson_clk_dualdiv_data :=
  DData (Parm 0x94 0 12) (Parm 0x94 12 12) (Parm 0x98 0 12) (Parm 0x98 12 12) (Parm 0x94 28 1)
    (Some g12a_32k_div_table) 0.
Definition g12a_32k_saved : meson_clk_dualdiv_data := set_saved_rate g12a_32k 32768.

Lemma g12a_32k_wf : dualdiv_wf (R := gmap Z Z) g12a_32k.
Proof. split; [by apply plain_fields_ok|cbn; lia]. Qed.
Lemma g12a_32k_saved_wf : dualdiv_wf (R := gmap Z Z) g12a_32k_saved.
Proof. split; [by apply plain_fields_ok|cbn; lia]. Qed.

Lemma g12a_entries_wf : Forall param_wf (entries g12a_32k_div_table).
Proof. apply Forall_cons; split; [|done]. split; [cbn; lia|right; cbn; lia]. Qed.

Lemma dualdiv_get_setting_nearest_witness :
  exists p, __dualdiv_get_setting 32768 24000000 g12a_32k = Some p /\
    __dualdiv_param_to_rate 24000000 p = 32768.
Proof.
  destruct (dualdiv_get_setting_nearest g12a_32k g12a_32k_div_table 32768 24000000)
    as (p & Hs & _); [done|done|apply g12a_entries_wf|lia|lia|].
  exists p. split; [exact Hs|].
  assert (Hv : __dualdiv_get_setting 32768 24000000 g12a_32k = Some (DParam 733 732 8 11 1))
    by (vm_compute; reflexivity).
  rewrite Hv in Hs. injection Hs as <-. vm_compute. reflexivity.
Defined.

Lemma dualdiv_set_rate_recalc_witness :
  meson_clk_dualdiv_recalc_rate
    (fst (meson_clk_dualdiv_set_rate (∅ : gmap Z Z) g12a_32k 32768 24000000)) g12a_32k 24000000
  = meson_clk_dualdiv_round_rate (∅ : gmap Z Z) g12a_32k 32768 24000000.
Proof.
  apply (dualdiv_set_rate_recalc (∅ : gmap Z Z) g12a_32k 32768 24000000);
    [apply g12a_32k_wf|done|apply g12a_entries_wf|lia|lia].
Defined.

Lemma dualdiv_restore_context_witness :
  meson_clk_dualdiv_recalc_rate
    (meson_clk_dualdiv_restore_context (∅ : gmap Z Z) g12a_32k_saved 24000000) g12a_32k_saved 24000000 = 32768.
Proof.
  exact (dualdiv_restore_context (∅ : gmap Z Z) g12a_32k_saved g12a_32k_div_table 24000000
    g12a_32k_saved_wf eq_refl ltac:(done) g12a_entries_wf ltac:(cbn; lia) ltac:(lia)).
Defined.

End Dualdiv.
