(* ===== verification/ClkSclk.v ===== *)
(** * Sample clock divider (src/drivers/clk/meson/sclk-div.c)

    A divider that is gated by the value 0: the driver keeps the divider and
    the duty cycle in memory and programs them when the clock is enabled.  The
    theorems: the cached divider stays in range, gating and ungating preserve
    it, the search over the parent's rates is optimal, and the programmed duty
    cycle is within half a step of the request. *)

From S2P Require Import Prelude Regmap.
From stdpp Require Import base list numbers gmap.

Local Open Scope Z_scope.
Local Open Scope cint_scope.

Module Sclk.

Record clk_duty := Duty { num : Z; den : Z }.

Record meson_sclk_div_data := SclkData {
  div : parm;
  hi : parm;
  cached_div : Z;
  cached_duty : clk_duty;
}.

Definition set_cached_div (d : meson_sclk_div_data) (v : Z) : meson_sclk_div_data :=
  SclkData (div d) (hi d) v (cached_duty d).
Definition set_cached_duty (d : meson_sclk_div_data) (v : clk_duty) : meson_sclk_div_data :=
  SclkData (div d) (hi d) (cached_div d) v.

Definition sclk_div_maxval (sclk : meson_sclk_div_data) : Z := s32 ((1 << width (div sclk)) - 1).
Definition sclk_div_maxdiv (sclk : meson_sclk_div_data) : Z := sclk_div_maxval sclk + 1.

Definition clamp (v lo hi : Z) : Z := Z.min (Z.max v lo) hi.

Definition sclk_div_getdiv (rate prate maxdiv : Z) : Z :=
  let div := s32 (DIV_ROUND_CLOSEST_ULL prate rate) in
  clamp div 2 maxdiv.

Section BestDiv.
(** clk_hw_round_rate of the parent clock: the clock framework's, hence a
    parameter; [set_rate_parent] is the flag CLK_SET_RATE_PARENT. *)
Context (parent_round_rate : Z -> Z) (set_rate_parent : bool).

(** The loop of [sclk_div_bestdiv] from [i] on, [n] iterations left; [inl i]
    is the early return. *)
Fixpoint bestdiv_loop (rate prate : Z) (n : nat) (i : Z) (bestdiv best best_parent : Z)
  : Z + (Z * Z) :=
  match n with
  | O => inr (bestdiv, best_parent)
  | S n =>
      if u64 (rate * i) =? prate then inl i
      else
        let parent_now := parent_round_rate (u64 (rate * i)) in
        let now := DIV_ROUND_UP_ULL parent_now i in
        if abs_ul (u64 (rate - now)) <? abs_ul (u64 (rate - best))
        then bestdiv_loop rate prate n (i + 1) i now parent_now
        else bestdiv_loop rate prate n (i + 1) bestdiv best best_parent
  end.

(** Returns the divider and the updated [*prate]. *)
Definition sclk_div_bestdiv (rate prate : Z) (sclk : meson_sclk_div_data) : Z * Z :=
  let rate := if rate =? 0 then 1 else rate in
  let maxdiv := sclk_div_maxdiv sclk in
  if negb set_rate_parent then (sclk_div_getdiv rate prate maxdiv, prate)
  else
    let maxdiv := Z.min (ULONG_MAX / rate) maxdiv in
    match bestdiv_loop rate prate (Z.to_nat (maxdiv - 1)) 2 0 0 0 with
    | inl i => (i, prate)
    | inr (bestdiv, best_parent) =>
        if bestdiv =? 0 then (sclk_div_maxdiv sclk, prate) else (bestdiv, best_parent)
    end.

(** Returns the rate and the updated [*prate]. *)
Definition sclk_div_round_rate (sclk : meson_sclk_div_data) (rate prate : Z) : Z * Z :=
  let '(div, prate) := sclk_div_bestdiv rate prate sclk in
  (DIV_ROUND_UP_ULL prate div, prate).
End BestDiv.

Section Ops.
Context {R : Type} `{Regmap R}.

Definition sclk_apply_ratio (map : R) (sclk : meson_sclk_div_data) : R :=
  let x := u32 (cached_div sclk * num (cached_duty sclk)) in
  let d := den (cached_duty sclk) in
  let vhi := u32 (x + d / 2) / d in
  let vhi := if truthy vhi then vhi - 1 else vhi in
  meson_parm_write map (hi sclk) vhi.

Definition sclk_div_set_duty_cycle (map : R) (sclk : meson_sclk_div_data) (duty : clk_duty)
  : R * meson_sclk_div_data :=
  if MESON_PARM_APPLICABLE (hi sclk) then
    let sclk := set_cached_duty sclk duty in
    (sclk_apply_ratio map sclk, sclk)
  else (map, sclk).

Definition sclk_div_get_duty_cycle (map : R) (sclk : meson_sclk_div_data) : clk_duty :=
  if negb (MESON_PARM_APPLICABLE (hi sclk)) then Duty 1 2
  else
    let vhi := meson_parm_read map (hi sclk) in
    Duty (u32 (vhi + 1)) (cached_div sclk).

Definition sclk_apply_divider (map : R) (sclk : meson_sclk_div_data) : R :=
  let map := if MESON_PARM_APPLICABLE (hi sclk) then sclk_apply_ratio map sclk else map in
  meson_parm_write map (div sclk) (u32 (cached_div sclk - 1)).

Definition sclk_div_is_enabled (map : R) (sclk : meson_sclk_div_data) : bool :=
  truthy (meson_parm_read map (div sclk)).

(** [enabled] stands for clk_hw_is_enabled(hw). *)
Definition sclk_div_set_rate (enabled : bool) (map : R) (sclk : meson_sclk_div_data)
    (rate prate : Z) : R * meson_sclk_div_data :=
  let maxdiv := sclk_div_maxdiv sclk in
  let sclk := set_cached_div sclk (sclk_div_getdiv rate prate maxdiv) in
  ((if enabled then sclk_apply_divider map sclk else map), sclk).

Definition sclk_div_recalc_rate (sclk : meson_sclk_div_data) (prate : Z) : Z :=
  DIV_ROUND_UP_ULL prate (cached_div sclk).

Definition sclk_div_enable (map : R) (sclk : meson_sclk_div_data) : R :=
  sclk_apply_divider map sclk.

Definition sclk_div_disable (bypass_clk_disable : bool) (map : R) (sclk : meson_sclk_div_data) : R :=
  if bypass_clk_disable then map else meson_parm_write map (div sclk) 0.

Definition sclk_div_init (map : R) (sclk : meson_sclk_div_data) : meson_sclk_div_data :=
  let val := meson_parm_read map (div sclk) in
  let sclk := set_cached_div sclk
    (if val =? 0 then sclk_div_maxdiv sclk else u32 (val + 1)) in
  set_cached_duty sclk (sclk_div_get_duty_cycle map sclk).

End Ops.

(** ** Well-formedness and invariant *)

(** Divider and (if present) high-time fields, disjoint and stable. *)
Definition sclk_wf {R} `{RegmapOk R} (sclk : meson_sclk_div_data) : Prop :=
  width (div sclk) <= 16 /\
  (if MESON_PARM_APPLICABLE (hi sclk) then fields_ok [hi sclk; div sclk]
   else fields_ok [div sclk]).

(** The cached divider can be programmed and does not gate the clock. *)
Definition sclk_inv (sclk : meson_sclk_div_data) : Prop :=
  2 <= cached_div sclk <= 2 ^ width (div sclk).

Lemma maxdiv_pow sclk :
  0 < width (div sclk) <= 16 -> sclk_div_maxdiv sclk = 2 ^ width (div sclk) /\
  2 <= 2 ^ width (div sclk) <= 65536.
Proof.
  intros Hw. assert (2 ^ 1 <= 2 ^ width (div sclk) <= 2 ^ 16)
    by (split; apply Z.pow_le_mono_r; lia).
  split; [|lia]. unfold sclk_div_maxdiv, sclk_div_maxval.
  rewrite Z.shiftl_mul_pow2, s32_small by lia. lia.
Qed.

Section Laws.
Context {R : Type} `{RegmapOk R}.
Implicit Types (map : R) (sclk : meson_sclk_div_data).

Lemma sclk_wf_div sclk :
  sclk_wf sclk -> parm_wf (div sclk) /\ parm_stable (div sclk) /\ 0 < width (div sclk) <= 16.
Proof.
  intros [Hw Hf]. destruct (MESON_PARM_APPLICABLE _); destruct Hf as (Hwf & Hst & _);
    repeat match goal with H : Forall _ (_ :: _) |- _ => apply Forall_cons_1 in H as [? ?] end;
    unfold parm_wf in *; repeat split; try done; lia.
Qed.

Lemma apply_divider_div map sclk :
  sclk_wf sclk -> sclk_inv sclk ->
  meson_parm_read (sclk_apply_divider map sclk) (div sclk) = cached_div sclk - 1.
Proof.
  intros Hwf Hinv. destruct (sclk_wf_div sclk Hwf) as (Hd & Hst & Hw).
  destruct (maxdiv_pow sclk Hw) as [_ Hp]. unfold sclk_inv in Hinv.
  unfold sclk_apply_divider. rewrite u32_small by lia.
  apply parm_read_write_small; [done..|lia].
Qed.

(** The cached divider is programmable and never gates the clock: [init]
    establishes it whatever the registers hold, and [set_rate], [set_duty_cycle]
    keep it, whatever the requested rate. *)
Theorem sclk_cached_div_inv map sclk :
  sclk_wf sclk ->
  sclk_inv (sclk_div_init map sclk) /\
  (forall enabled rate prate, sclk_inv (sclk_div_set_rate enabled map sclk rate prate).2) /\
  (forall duty, sclk_inv sclk -> sclk_inv (sclk_div_set_duty_cycle map sclk duty).2).
Proof.
  intros Hwf. destruct (sclk_wf_div sclk Hwf) as (Hd & Hst & Hw).
  destruct (maxdiv_pow sclk Hw) as [Hm Hp]. split; [|split].
  - unfold sclk_inv. cbn. pose proof (parm_read_range map (div sclk) Hd).
    case_if; [rewrite Hm; lia|]. rewrite u32_small; lia.
  - intros en rate prate. unfold sclk_inv. cbn. rewrite Hm.
    unfold sclk_div_getdiv, clamp. lia.
  - intros duty Hi. unfold sclk_div_set_duty_cycle. by case_if.
Qed.

(** Gating.  Enabling a clock programs its cached divider and makes it
    run; disabling gates it (unless disabling is bypassed) and a later enable
    brings back the same divider. *)
Theorem sclk_gate_ungate map sclk :
  sclk_wf sclk -> sclk_inv sclk ->
  sclk_div_is_enabled (sclk_div_enable map sclk) sclk = true /\
  sclk_div_is_enabled (sclk_div_disable false map sclk) sclk = false /\
  sclk_div_disable true map sclk = map /\
  sclk_div_init (sclk_div_enable (sclk_div_disable false map sclk) sclk) sclk
  = set_cached_duty sclk (sclk_div_get_duty_cycle (sclk_div_enable (sclk_div_disable false map sclk) sclk) sclk).
Proof.
  intros Hwf Hinv. destruct (sclk_wf_div sclk Hwf) as (Hd & Hst & Hw).
  pose proof (fun m => apply_divider_div m sclk Hwf Hinv) as Hap.
  destruct (maxdiv_pow sclk Hw) as [_ Hp]. unfold sclk_inv in Hinv.
  unfold sclk_div_is_enabled, sclk_div_enable, sclk_div_disable.
  split; [|split; [|split; [done|]]].
  - rewrite Hap. unfold truthy. destruct (Z.eqb_spec (cached_div sclk - 1) 0); [lia|done].
  - rewrite parm_read_write_small by (done || lia). done.
  - unfold sclk_div_init. rewrite Hap.
    destruct (Z.eqb_spec (cached_div sclk - 1) 0); [lia|].
    replace (cached_div sclk - 1 + 1) with (cached_div sclk) by lia.
    rewrite u32_small by lia. by destruct sclk.
Qed.

(** Duty cycle.  The duty cycle read back after [set_duty_cycle] has the
    cached divider as denominator and is the nearest multiple of one step to
    the request, or one step when the request rounds to none. *)
Theorem sclk_duty_accuracy map sclk duty :
  sclk_wf sclk -> sclk_inv sclk -> MESON_PARM_APPLICABLE (hi sclk) = true ->
  width (div sclk) <= width (hi sclk) ->
  0 < den duty < 2 ^ 16 -> 0 <= num duty <= den duty ->
  let '(map', sclk') := sclk_div_set_duty_cycle map sclk duty in
  let got := sclk_div_get_duty_cycle map' sclk' in
  den got = cached_div sclk /\ 1 <= num got <= den got /\
  (num got = 1 \/ 2 * (num got * den duty) <= 2 * (cached_div sclk * num duty) + den duty) /\
  2 * (cached_div sclk * num duty) < 2 * (num got * den duty) + den duty.
Proof.
  intros Hwf Hinv Hap Hwi Hden Hnum. destruct (sclk_wf_div sclk Hwf) as (_ & _ & Hw).
  destruct (maxdiv_pow sclk Hw) as [_ Hp]. unfold sclk_inv in Hinv.
  unfold sclk_div_set_duty_cycle. rewrite Hap. unfold sclk_div_get_duty_cycle. cbn. rewrite Hap. cbn.
  destruct Hwf as [_ Hf]. rewrite Hap in Hf.
  destruct Hf as (Hfw & Hfs & _). apply Forall_cons_1 in Hfw as [Hhw _], Hfs as [Hhs _].
  unfold sclk_apply_ratio. cbn.
  assert (Hn : 0 <= cached_div sclk * num duty <= 65536 * 65535)
    by (split; [apply Z.mul_nonneg_nonneg|apply Z.mul_le_mono_nonneg]; lia).
  assert (Hh : 0 <= den duty / 2 <= den duty)
    by (split; [apply Z.div_pos|apply Z.div_le_upper_bound]; lia).
  pose proof (Z.div_mod (den duty) 2 ltac:(lia)). pose proof (Z.mod_pos_bound (den duty) 2 ltac:(lia)).
  rewrite (u32_small (cached_div sclk * num duty)),
    (u32_small (cached_div sclk * num duty + _)) by lia.
  set (x := cached_div sclk * num duty) in *. set (q := (x + den duty / 2) / den duty).
  pose proof (Z.div_mod (x + den duty / 2) (den duty) ltac:(lia)) as Hdm. fold q in Hdm.
  pose proof (Z.mod_pos_bound (x + den duty / 2) (den duty) ltac:(lia)).
  assert (Hq : 0 <= q <= cached_div sclk).
  { split; [apply Z.div_pos; lia|]. unfold q.
    assert ((x + den duty / 2) / den duty < cached_div sclk + 1); [|lia].
    apply Z.div_lt_upper_bound; [lia|]. unfold x. nia. }
  assert (2 ^ width (div sclk) <= 2 ^ width (hi sclk)) by (apply Z.pow_le_mono_r; lia).
  assert (Hrd : forall v, 0 <= v < cached_div sclk ->
    meson_parm_read (meson_parm_write map (hi sclk) v) (hi sclk) = v)
    by (intros v Hv; apply parm_read_write_small; done || lia).
  unfold truthy. destruct (Z.eqb_spec q 0) as [Hq0|Hq0]; cbn.
  - rewrite Hq0, Hrd, u32_small by lia. repeat split; lia || nia.
  - rewrite Hrd, u32_small by lia. repeat split; first [lia | nia | right; nia].
Qed.

End Laws.

(** ** The search over the parent's rates *)

Section Best.
Context (parent_round_rate : Z -> Z).
(** The clock framework rounds to a rate it can represent. *)
Context (Hparent : forall r, 0 <= parent_round_rate r < 2 ^ 62).

(** The rate divider [i] gives, the parent being asked for [rate * i]. *)
Definition rate_with (rate i : Z) : Z :=
  DIV_ROUND_UP_ULL (parent_round_rate (u64 (rate * i))) i.

Lemma rate_with_range rate i : 2 <= i <= 65536 -> 0 <= rate_with rate i < 2 ^ 63.
Proof using Hparent.
  intros Hi. unfold rate_with. pose proof (Hparent (u64 (rate * i))).
  rewrite DIV_ROUND_UP_ULL_cdiv by lia. split; [apply cdiv_nonneg; lia|].
  assert (cdiv (parent_round_rate (u64 (rate * i))) i <= 2 ^ 62); [apply cdiv_le; lia|lia].
Qed.

Lemma bestdiv_loop_spec rate prate n : forall i bestdiv best best_parent,
  0 <= rate < 2 ^ 63 -> 0 <= best < 2 ^ 63 -> 2 <= i -> i + Z.of_nat n <= 65537 ->
  match bestdiv_loop parent_round_rate rate prate n i bestdiv best best_parent with
  | inl k => i <= k < i + Z.of_nat n /\ u64 (rate * k) = prate
  | inr (bd, bp) =>
      (bd = bestdiv /\ bp = best_parent /\
       forall k, i <= k < i + Z.of_nat n -> Z.abs (rate - best) <= Z.abs (rate - rate_with rate k)) \/
      (i <= bd < i + Z.of_nat n /\ bp = parent_round_rate (u64 (rate * bd)) /\
       Z.abs (rate - rate_with rate bd) < Z.abs (rate - best) /\
       forall k, i <= k < i + Z.of_nat n ->
         Z.abs (rate - rate_with rate bd) <= Z.abs (rate - rate_with rate k))
  end.
Proof using Hparent.
  induction n as [|n IH]; intros i bd best bp Hr Hb Hi Hn; cbn [bestdiv_loop].
  - left. repeat split. lia.
  - destruct (Z.eqb_spec (u64 (rate * i)) prate) as [|Hne]; [lia|].
    fold (rate_with rate i). pose proof (rate_with_range rate i ltac:(lia)) as Hw.
    rewrite !abs_ul_small by lia.
    destruct (Z.ltb_spec (Z.abs (rate - rate_with rate i)) (Z.abs (rate - best))) as [Hlt|Hge].
    + specialize (IH (i + 1) i (rate_with rate i) (parent_round_rate (u64 (rate * i)))
        Hr Hw ltac:(lia) ltac:(lia)).
      destruct (bestdiv_loop _ _ _ _ _ _ _ _) as [k|[bd' bp']]; [lia|]. right.
      destruct IH as [(-> & -> & Hall)|(Hbd & -> & Hd & Hall)]; repeat split; try lia;
        intros k Hk; destruct (Z.eq_dec k i) as [->|]; try lia; apply Hall; lia.
    + specialize (IH (i + 1) bd best bp Hr Hb ltac:(lia) ltac:(lia)).
      destruct (bestdiv_loop _ _ _ _ _ _ _ _) as [k|[bd' bp']]; [lia|].
      destruct IH as [(-> & -> & Hall)|(Hbd & -> & Hd & Hall)]; [left|right]; repeat split; try lia;
        intros k Hk; destruct (Z.eq_dec k i) as [->|]; try lia; apply Hall; lia.
Qed.

(** When the parent may be re-rated (CLK_SET_RATE_PARENT), the rounded
    rate is the nearest to the request over all the dividers, or no divider
    does better than 0 Hz and the largest one is used on the current parent. *)
Theorem sclk_round_rate_optimal sclk rate prate :
  0 < width (div sclk) <= 16 -> 0 < rate < 2 ^ 47 -> 0 <= prate < 2 ^ 62 ->
  let '(r, prate') := sclk_div_round_rate parent_round_rate true sclk rate prate in
  (forall i, 2 <= i <= sclk_div_maxdiv sclk -> Z.abs (rate - r) <= Z.abs (rate - rate_with rate i)) \/
  (r = cdiv prate (sclk_div_maxdiv sclk) /\ prate' = prate /\
   forall i, 2 <= i <= sclk_div_maxdiv sclk -> rate <= Z.abs (rate - rate_with rate i)).
Proof using Hparent.
  intros Hw Hr Hp. destruct (maxdiv_pow sclk Hw) as [Hm Hmax].
  unfold sclk_div_round_rate, sclk_div_bestdiv. rewrite (proj2 (Z.eqb_neq rate 0)) by lia. cbn [negb].
  assert (Hmin : Z.min (ULONG_MAX / rate) (sclk_div_maxdiv sclk) = sclk_div_maxdiv sclk).
  { apply Z.min_r. rewrite Hm. apply Z.div_le_lower_bound; [lia|]. unfold ULONG_MAX. nia. }
  rewrite Hmin.
  pose proof (bestdiv_loop_spec rate prate (Z.to_nat (sclk_div_maxdiv sclk - 1)) 2 0 0 0) as Hl.
  destruct (bestdiv_loop _ _ _ _ _ _ _ _) as [k|[bd bp]].
  - left. destruct Hl as [Hk Hu]; [lia..|]. intros i Hi.
    rewrite u64_small in Hu by nia. rewrite DIV_ROUND_UP_ULL_cdiv by lia.
    assert (cdiv prate k = rate) as ->; [|lia]. subst prate. unfold cdiv.
    replace (rate * k + k - 1) with (rate * k + (k - 1)) by lia.
    rewrite Z.div_add_l, Z.div_small by lia. lia.
  - destruct Hl as [(-> & -> & Hall)|(Hbd & -> & _ & Hall)]; [lia..| |].
    + right. rewrite DIV_ROUND_UP_ULL_cdiv by lia.
      split; [done|]. split; [done|]. intros i Hi. specialize (Hall i ltac:(lia)). lia.
    + rewrite (proj2 (Z.eqb_neq bd 0)) by lia. left. intros i Hi. apply Hall. lia.
Qed.

End Best.

(** ** A concrete divider (10-bit divider, 10-bit high time) *)

Definition demo_sclk : meson_sclk_div_data :=
  SclkData (Parm 0x40 20 10) (Parm 0x44 0 10) 250 (Duty 1 2).

Lemma demo_sclk_wf : sclk_wf (R := gmap Z Z) demo_sclk.
Proof. split; [cbn; lia|]. by apply (plain_fields_ok [hi demo_sclk; div demo_sclk]). Qed.

Lemma sclk_cached_div_inv_witness :
  sclk_inv (sclk_div_init (∅ : gmap Z Z) demo_sclk).
Proof. apply (sclk_cached_div_inv (∅ : gmap Z Z) demo_sclk). apply demo_sclk_wf. Defined.

Lemma sclk_gate_ungate_witness :
  sclk_div_is_enabled (sclk_div_enable (∅ : gmap Z Z) demo_sclk) demo_sclk = true.
Proof.
  apply (sclk_gate_ungate (∅ : gmap Z Z) demo_sclk);
    [apply demo_sclk_wf|unfold sclk_inv; cbn; lia].
Defined.

Lemma sclk_duty_accuracy_witness :
  let '(map', sclk') := sclk_div_set_duty_cycle (∅ : gmap Z Z) demo_sclk (Duty 1 3) in
  den (sclk_div_get_duty_cycle map' sclk') = 250 /\
  num (sclk_div_get_duty_cycle map' sclk') = 83.
Proof.
  pose proof (sclk_duty_accuracy (∅ : gmap Z Z) demo_sclk (Duty 1 3) demo_sclk_wf
    ltac:(unfold sclk_inv; cbn; lia) eq_refl ltac:(cbn; lia) ltac:(cbn; lia) ltac:(cbn; lia)) as Hd.
  destruct (sclk_div_set_duty_cycle _ _ _) as [m' s'] eqn:E. split; [apply Hd|].
  clear Hd. revert E. intros [= <- <-]. vm_compute. reflexivity.
Defined.

(** A parent that only runs at multiples of 1 kHz. *)
Definition khz_parent (r : Z) : Z := (r mod 2 ^ 61) / 1000 * 1000.

Lemma sclk_round_rate_optimal_witness :
  let '(r, _) := sclk_div_round_rate khz_parent true demo_sclk 48001 12288000 in
  (forall i, 2 <= i <= sclk_div_maxdiv demo_sclk ->
     Z.abs (48001 - r) <= Z.abs (48001 - rate_with khz_parent 48001 i)) \/
  (r = cdiv 12288000 (sclk_div_maxdiv demo_sclk) /\
   forall i, 2 <= i <= sclk_div_maxdiv demo_sclk ->
     48001 <= Z.abs (48001 - rate_with khz_parent 48001 i)).
Proof.
  assert (Hk : forall r, 0 <= khz_parent r < 2 ^ 62).
  { intros r. unfold khz_parent. pose proof (Z.mod_pos_bound r (2 ^ 61) ltac:(lia)).
    pose proof (Z.mul_div_le (r mod 2 ^ 61) 1000 ltac:(lia)).
    pose proof (Z.div_pos (r mod 2 ^ 61) 1000 ltac:(lia) ltac:(lia)). lia. }
  pose proof (sclk_round_rate_optimal khz_parent Hk demo_sclk 48001 12288000
    ltac:(cbn; lia) ltac:(lia) ltac:(lia)) as Ho.
  destruct (sclk_div_round_rate _ _ _ _ _) as [r p']. tauto.
Defined.

End Sclk.
