(* ===== verification/ClkPhase.v ===== *)
(** * Phase clocks (src/drivers/clk/meson/clk-phase.c)

    A register field selects the phase of a clock in steps of
    360 / 2^width degrees; the triphase clock drives three such fields
    together.  The theorems: values and degrees round-trip, a requested phase
    is approximated to half a step around the circle, and the three fields of
    a triphase clock stay in step. *)

From S2P Require Import Prelude Regmap.
From stdpp Require Import base list numbers gmap.

Local Open Scope Z_scope.
Local Open Scope cint_scope.

Module Phase.

Definition phase_step (width : Z) : Z := Z.quot 360 (1 << width).

(** DIV_ROUND_CLOSEST on [int]: rounds half away from zero. *)
Definition DIV_ROUND_CLOSEST_int (x d : Z) : Z :=
  if Bool.eqb (0 <? x) (0 <? d) then Z.quot (x + Z.quot d 2) d
  else Z.quot (x - Z.quot d 2) d.

Definition meson_clk_degrees_from_val (val width : Z) : Z := s32 (u32 (phase_step width * val)).

Definition meson_clk_degrees_to_val (degrees width : Z) : Z :=
  let val := u32 (DIV_ROUND_CLOSEST_int degrees (phase_step width)) in
  val mod (1 << width).

Record meson_clk_phase_data := PhaseData { ph : parm }.
Record meson_clk_triphase_data := TriphaseData { ph0 : parm; ph1 : parm; ph2 : parm }.

Section Ops.
Context {R : Type} `{Regmap R}.

Definition meson_clk_phase_get_phase (map : R) (phase : meson_clk_phase_data) : Z :=
  meson_clk_degrees_from_val (meson_parm_read map (ph phase)) (width (ph phase)).

Definition meson_clk_phase_set_phase (map : R) (phase : meson_clk_phase_data) (degrees : Z) : R :=
  meson_parm_write map (ph phase) (meson_clk_degrees_to_val degrees (width (ph phase))).

Definition meson_clk_triphase_sync (map : R) (tph : meson_clk_triphase_data) : R :=
  let val := meson_parm_read map (ph0 tph) in
  let map := meson_parm_write map (ph1 tph) val in
  meson_parm_write map (ph2 tph) val.

Definition meson_clk_triphase_get_phase (map : R) (tph : meson_clk_triphase_data) : Z :=
  meson_clk_degrees_from_val (meson_parm_read map (ph0 tph)) (width (ph0 tph)).

Definition meson_clk_triphase_set_phase (map : R) (tph : meson_clk_triphase_data) (degrees : Z) : R :=
  let val := meson_clk_degrees_to_val degrees (width (ph0 tph)) in
  let map := meson_parm_write map (ph0 tph) val in
  let map := meson_parm_write map (ph1 tph) val in
  meson_parm_write map (ph2 tph) val.
End Ops.

(** ** Degrees and values *)

Lemma width_cases (P : Z -> Prop) n :
  (forall k, (k < n)%nat -> P (Z.of_nat k + 1)) -> forall w, 1 <= w <= Z.of_nat n -> P w.
Proof.
  intros H w Hw. replace w with (Z.of_nat (Z.to_nat (w - 1)) + 1) by lia. apply H. lia.
Qed.

(** Up to 8 bits the step is at least one degree. *)
Lemma phase_step_bounds w : 1 <= w <= 8 -> 0 < 2 ^ w <= 256 /\ 1 <= phase_step w <= 180 /\
  phase_step w * 2 ^ w <= 360.
Proof.
  revert w. apply (width_cases _ 8). intros k Hk.
  do 8 (destruct k as [|k]; [vm_compute; repeat split; discriminate || reflexivity|]). lia.
Qed.

Lemma degrees_to_val_nonneg d w :
  1 <= w <= 8 -> 0 <= d < 2 ^ 31 - 360 ->
  meson_clk_degrees_to_val d w = ((d + phase_step w / 2) / phase_step w) mod 2 ^ w.
Proof.
  intros Hw Hd. destruct (phase_step_bounds w Hw) as (Hp & Hs & _).
  unfold meson_clk_degrees_to_val, DIV_ROUND_CLOSEST_int.
  rewrite Z.shiftl_mul_pow2, Z.mul_1_l by lia.
  assert (0 <= phase_step w / 2 <= phase_step w)
    by (split; [apply Z.div_pos|apply Z.div_le_upper_bound]; lia).
  assert (0 <= (d + phase_step w / 2) / phase_step w < 2 ^ 32).
  { split; [apply Z.div_pos; lia|]. apply Z.div_lt_upper_bound; nia. }
  rewrite (proj2 (Z.ltb_lt 0 (phase_step w))) by lia.
  rewrite (Z.quot_div_nonneg (phase_step w)) by lia.
  destruct (Z.ltb_spec 0 d); cbn [Bool.eqb].
  - rewrite Z.quot_div_nonneg, u32_small by lia. done.
  - assert (d = 0) as -> by lia. rewrite Z.add_0_l, Z.sub_0_l.
    assert (phase_step w / 2 < phase_step w) by (apply Z.div_lt; lia).
    rewrite Z.quot_opp_l, Z.quot_small, Z.opp_0 by lia.
    by rewrite (Z.div_small (phase_step w / 2)) by lia.
Qed.

(** Every value of a phase field survives the conversion to degrees and
    back. *)
Theorem phase_val_roundtrip v w :
  1 <= w <= 8 -> 0 <= v < 2 ^ w ->
  meson_clk_degrees_to_val (meson_clk_degrees_from_val v w) w = v.
Proof.
  intros Hw Hv. destruct (phase_step_bounds w Hw) as (Hp & Hs & Hm).
  unfold meson_clk_degrees_from_val. rewrite u32_small, s32_small by nia.
  rewrite degrees_to_val_nonneg by nia.
  assert (0 <= phase_step w / 2 < phase_step w)
    by (split; [apply Z.div_pos|apply Z.div_lt]; lia).
  rewrite Z.mul_comm, Z.div_add_l, (Z.div_small (_ / 2)) by lia.
  rewrite Z.add_0_r. apply Z.mod_small. lia.
Qed.

Section Laws.
Context {R : Type} `{RegmapOk R}.

(** For the field widths that divide the circle evenly (up to 3 bits),
    [get_phase] after [set_phase] differs from any requested angle of the
    circle by at most half a step, turns not counted. *)
Theorem phase_set_get (map : R) phase degrees :
  parm_wf (ph phase) -> parm_stable (ph phase) -> width (ph phase) <= 3 ->
  0 <= degrees < 360 ->
  let got := meson_clk_phase_get_phase (meson_clk_phase_set_phase map phase degrees) phase in
  let step := phase_step (width (ph phase)) in
  0 <= got < 360 /\ exists turns, 2 * Z.abs (degrees - (got + 360 * turns)) <= step.
Proof.
  intros Hwf Hst Hw Hd got step. pose proof Hwf as (_ & Hw0 & _).
  unfold got, meson_clk_phase_get_phase, meson_clk_phase_set_phase. clear got.
  set (w := width (ph phase)) in *.
  destruct (phase_step_bounds w ltac:(lia)) as (Hp & Hs & _).
  change (1 <= step <= 180) in Hs.
  assert (Hfull : step * 2 ^ w = 360).
  { unfold step. assert (w = 1 \/ w = 2 \/ w = 3) as [-> | [-> | ->]] by lia; reflexivity. }
  rewrite degrees_to_val_nonneg by lia. change (phase_step w) with step.
  set (q := (degrees + step / 2) / step).
  pose proof (Z.mod_pos_bound q (2 ^ w) ltac:(lia)) as Hqm.
  rewrite parm_read_write_small by done.
  unfold meson_clk_degrees_from_val. change (phase_step w) with step. rewrite u32_small, s32_small by nia.
  split; [nia|]. exists (q / 2 ^ w).
  replace (step * (q mod 2 ^ w) + 360 * (q / 2 ^ w)) with (step * q)
    by (rewrite <- Hfull; pose proof (Z.div_mod q (2 ^ w) ltac:(lia)); nia).
  pose proof (Z.div_mod (degrees + step / 2) step ltac:(lia)) as Hdm. fold q in Hdm.
  pose proof (Z.mod_pos_bound (degrees + step / 2) step ltac:(lia)).
  pose proof (Z.div_mod step 2 ltac:(lia)). pose proof (Z.mod_pos_bound step 2 ltac:(lia)). lia.
Qed.

(** The three fields of a triphase clock hold the same value after the
    initial [sync] and after every [set_phase], and [sync] keeps the phase. *)
Theorem triphase_in_step (map : R) tph degrees :
  fields_ok [ph0 tph; ph1 tph; ph2 tph] ->
  width (ph1 tph) = width (ph0 tph) -> width (ph2 tph) = width (ph0 tph) ->
  let in_step m := meson_parm_read m (ph1 tph) = meson_parm_read m (ph0 tph) /\
                   meson_parm_read m (ph2 tph) = meson_parm_read m (ph0 tph) in
  in_step (meson_clk_triphase_sync map tph) /\
  in_step (meson_clk_triphase_set_phase map tph degrees) /\
  meson_clk_triphase_get_phase (meson_clk_triphase_sync map tph) tph
  = meson_clk_triphase_get_phase map tph.
Proof.
  intros Hf W1 W2 in_step. pose proof Hf as (Hwf & Hst & Hd).
  apply Forall_cons_1 in Hwf as [Hw0 Hwf], Hst as [Hs0 Hst].
  inversion Hd as [|? ? Hd0 Hd12]; subst.
  assert (H12 : fields_ok [ph1 tph; ph2 tph]) by (split; [done|split; done]).
  set (v := meson_parm_read map (ph0 tph)).
  assert (Hv : v mod 2 ^ width (ph0 tph) = v) by (apply Z.mod_small, parm_read_range; done).
  assert (Hsync0 : meson_parm_read (meson_clk_triphase_sync map tph) (ph0 tph) = v).
  { change (meson_clk_triphase_sync map tph) with (parm_writes map [(ph1 tph, v); (ph2 tph, v)]).
    apply parm_read_writes_other; try done.
    eapply Forall_impl; [exact Hd0|]. intros ?. apply parm_disjoint_sym. }
  unfold in_step. split; [|split].
  - rewrite Hsync0.
    change (meson_clk_triphase_sync map tph) with (parm_writes map [(ph1 tph, v); (ph2 tph, v)]).
    rewrite !(parm_read_writes map [(ph1 tph, v); (ph2 tph, v)] _ v) by (done || solve_in).
    by rewrite W1, W2.
  - set (u := meson_clk_degrees_to_val degrees (width (ph0 tph))).
    change (meson_clk_triphase_set_phase map tph degrees)
      with (parm_writes map [(ph0 tph, u); (ph1 tph, u); (ph2 tph, u)]).
    rewrite !(parm_read_writes map [(ph0 tph, u); (ph1 tph, u); (ph2 tph, u)] _ u)
      by (done || solve_in).
    by rewrite W1, W2.
  - unfold meson_clk_triphase_get_phase. by rewrite Hsync0.
Qed.

End Laws.

Lemma phase_val_roundtrip_witness :
  meson_clk_degrees_to_val (meson_clk_degrees_from_val 5 3) 3 = 5.
Proof. apply phase_val_roundtrip; lia. Defined.

Lemma phase_set_get_witness :
  let phase := PhaseData (Parm 0x30 0 3) in
  let got := meson_clk_phase_get_phase (meson_clk_phase_set_phase (∅ : gmap Z Z) phase 350) phase in
  got = 0 /\ exists turns, 2 * Z.abs (350 - (got + 360 * turns)) <= 45.
Proof.
  intros phase got. split; [vm_compute; reflexivity|].
  apply (phase_set_get (∅ : gmap Z Z) phase 350);
    [unfold parm_wf; cbn; lia|by intros b|cbn; lia|lia].
Defined.

Lemma triphase_in_step_witness :
  let tph := TriphaseData (Parm 0x44 0 1) (Parm 0x44 2 1) (Parm 0x44 4 1) in
  meson_parm_read (meson_clk_triphase_set_phase (∅ : gmap Z Z) tph 180) (ph2 tph)
  = meson_parm_read (meson_clk_triphase_set_phase (∅ : gmap Z Z) tph 180) (ph0 tph).
Proof.
  intros tph. apply (triphase_in_step (∅ : gmap Z Z) tph 180);
    [by apply plain_fields_ok|done|done].
Defined.

End Phase.
