(* ===== verification/ClkVidPll.v ===== *)
(** * Video PLL fractional divider (src/drivers/clk/meson/vid-pll-div.c)

    A read-only clock: the divider is recognised by looking the programmed
    shift pattern up in a fixed table.  The theorems: the lookup identifies
    every table entry, and the rate it yields. *)

From S2P Require Import Prelude Regmap.
From stdpp Require Import base list numbers gmap.

Local Open Scope Z_scope.
Local Open Scope cint_scope.

Module VidPll.

Record vid_pll_div := VID_PLL_DIV {
  shift_val : Z; shift_sel : Z; divider : Z; multiplier : Z;
}.

Definition vid_pll_div_table : list vid_pll_div := [
  VID_PLL_DIV 0x0aaa 0 2 1;
  VID_PLL_DIV 0x5294 2 5 2;
  VID_PLL_DIV 0x0db6 0 3 1;
  VID_PLL_DIV 0x36cc 1 7 2;
  VID_PLL_DIV 0x6666 2 15 4;
  VID_PLL_DIV 0x0ccc 0 4 1;
  VID_PLL_DIV 0x739c 2 5 1;
  VID_PLL_DIV 0x0e38 0 6 1;
  VID_PLL_DIV 0x0000 3 25 4;
  VID_PLL_DIV 0x3c78 1 7 1;
  VID_PLL_DIV 0x78f0 2 15 2;
  VID_PLL_DIV 0x0fc0 0 12 1;
  VID_PLL_DIV 0x3f80 1 14 1;
  VID_PLL_DIV 0x7f80 2 15 1
].

Definition _get_table_val (vval vsel : Z) : option vid_pll_div :=
  find (fun d => (shift_val d =? vval) && (shift_sel d =? vsel)) vid_pll_div_table.

Record meson_vid_pll_div_data := VidData { val : parm; sel : parm }.

Section Ops.
Context {R : Type} `{Regmap R}.

Definition meson_vid_pll_div_recalc_rate (map : R) (pll_div : meson_vid_pll_div_data)
    (parent_rate : Z) : Z :=
  match _get_table_val (meson_parm_read map (val pll_div)) (meson_parm_read map (sel pll_div)) with
  | None => 0
  | Some d =>
      if divider d =? 0 then 0
      else DIV_ROUND_UP_ULL (u64 (parent_rate * multiplier d)) (divider d)
  end.
End Ops.

#[export] Instance vid_pll_div_eq_dec : EqDecision vid_pll_div.
Proof. solve_decision. Defined.

Lemma get_table_val_complete d :
  d ∈ vid_pll_div_table -> _get_table_val (shift_val d) (shift_sel d) = Some d.
Proof.
  intros Hd. assert (Hall : Forall (fun d => _get_table_val (shift_val d) (shift_sel d) = Some d)
    vid_pll_div_table) by (apply (bool_decide_unpack _); vm_compute; exact I).
  rewrite Forall_forall in Hall. auto.
Qed.

Lemma get_table_val_sound v s d :
  _get_table_val v s = Some d -> d ∈ vid_pll_div_table /\ shift_val d = v /\ shift_sel d = s.
Proof.
  intros Hf. apply find_some in Hf as [Hin Hb]. b2p. by rewrite list_elem_of_In.
Qed.

Lemma table_divider d :
  d ∈ vid_pll_div_table -> 0 < divider d <= 25 /\ 0 < multiplier d <= 4.
Proof.
  intros Hd. assert (Hall : Forall (fun d => 0 < divider d <= 25 /\ 0 < multiplier d <= 4)
    vid_pll_div_table) by (apply (bool_decide_unpack _); vm_compute; exact I).
  rewrite Forall_forall in Hall. auto.
Qed.

(** The rate is parent * multiplier / divider (rounded up) for exactly
    the fourteen shift patterns of the table, each recognised from the two
    register fields; every other content of the fields reads as rate 0. *)
Theorem vid_pll_div_recalc {R} `{RegmapOk R} (map : R) pll_div parent_rate :
  0 <= parent_rate < 2 ^ 32 ->
  let v := meson_parm_read map (val pll_div) in
  let s := meson_parm_read map (sel pll_div) in
  (forall d, d ∈ vid_pll_div_table -> shift_val d = v -> shift_sel d = s ->
     meson_vid_pll_div_recalc_rate map pll_div parent_rate
     = cdiv (parent_rate * multiplier d) (divider d)) /\
  ((forall d, d ∈ vid_pll_div_table -> shift_val d <> v \/ shift_sel d <> s) ->
     meson_vid_pll_div_recalc_rate map pll_div parent_rate = 0).
Proof.
  intros Hp v s. unfold meson_vid_pll_div_recalc_rate. fold v s. split.
  - intros d Hd Hv Hs. rewrite <- Hv, <- Hs, (get_table_val_complete d Hd).
    destruct (table_divider d Hd) as [Hdiv Hm].
    rewrite (proj2 (Z.eqb_neq _ _)), u64_small by nia. apply DIV_ROUND_UP_ULL_cdiv; nia.
  - intros Hno. destruct (_get_table_val v s) as [d|] eqn:E; [|done].
    apply get_table_val_sound in E as (Hd & Hv & Hs). destruct (Hno d Hd); congruence.
Qed.

Lemma vid_pll_div_recalc_witness :
  let pd := VidData (Parm 0x1a0 0 15) (Parm 0x1a0 16 2) in
  let map := meson_parm_write (meson_parm_write (∅ : gmap Z Z) (val pd) 0x739c) (sel pd) 2 in
  meson_vid_pll_div_recalc_rate map pd 2970000000 = 594000000.
Proof.
  intros pd map.
  rewrite (proj1 (vid_pll_div_recalc map pd 2970000000 ltac:(lia)) (VID_PLL_DIV 0x739c 2 5 1));
    [reflexivity | solve_in | vm_compute; reflexivity..].
Defined.

End VidPll.
