(* ===== verification/ClkCpuDyn.v ===== *)
(** * CPU dynamic clock (src/drivers/clk/meson/clk-cpu-dyndiv.c)

    The CPU clock has two complete settings (source, divider on/off, divider)
    in one register and a select bit.  A rate change programs the unused
    setting and flips the select bit, so that the running clock is never
    disturbed.  On secured SoCs the same register is reached through firmware
    calls.  The theorems: the switch is glitch free and takes effect, the
    table search of [round_rate] and [set_rate], and what is read back. *)

From S2P Require Import Prelude Regmap.
From stdpp Require Import base list numbers gmap sorting.

Local Open Scope Z_scope.
Local Open Scope cint_scope.

Module CpuDyn.

Definition CPU_DYN_SEL_MASK : Z := BIT 10.
Definition SYS_CLK_SEL_MASK : Z := BIT 15.

Record cpu_dyn_table := CPU_LOW_PARAMS {
  t_rate : Z; dyn_pre_mux : Z; dyn_post_mux : Z; dyn_div : Z;
}.

Record meson_clk_cpu_dyn_data := CpuDynData {
  table : list cpu_dyn_table;     (* table and table_cnt *)
  offset : Z;
  smc_id : Z;
  secid_dyn_rd : Z;
  secid_dyn : Z;
  saved_rate : Z;
}.

Definition set_saved_rate (d : meson_clk_cpu_dyn_data) (r : Z) : meson_clk_cpu_dyn_data :=
  CpuDynData (table d) (offset d) (smc_id d) (secid_dyn_rd d) (secid_dyn d) r.

(** The word [meson_cpu_dyn_set] writes, from the word it read. *)
Definition dyn_control (control dyn_pre_mux dyn_post_mux dyn_div : Z) : Z :=
  let control := control .| (1 << 26) in
  if truthy (control .& (1 << 10)) then
    (control .& u32 (Z.lnot ((1 << 10) .| (0x3f << 4) .| (1 << 2) .| (0x3 << 0))))
    .| u32 ((0 << 10) .| (dyn_div << 4) .| (dyn_post_mux << 2) .| (dyn_pre_mux << 0))
  else
    (control .& u32 (Z.lnot ((1 << 10) .| (0x3f << 20) .| (1 << 18) .| (0x3 << 16))))
    .| u32 ((1 << 10) .| (dyn_div << 20) .| (dyn_post_mux << 18) .| (dyn_pre_mux << 16)).

(** The entry [meson_clk_cpu_dyn_set_rate] settles on: the loop stops at the
    first entry that has the rate or lies within 0xffff of it; [None] when it
    runs to the end, and the first entry is used. *)
Fixpoint find_parms (rate : Z) (l : list cpu_dyn_table) : option cpu_dyn_table :=
  match l with
  | [] => None
  | e :: l =>
      if rate =? t_rate e then Some e
      else if abs_ul (u64 (rate - t_rate e)) <? 0xffff then Some e
      else find_parms rate l
  end.

(** The loop of [meson_clk_cpu_dyn_round_rate]. *)
Fixpoint round_loop (rate min : Z) (l : list cpu_dyn_table) : Z :=
  match l with
  | [] => min
  | e :: l => if rate <=? t_rate e then t_rate e else round_loop rate min l
  end.

(** [None]: the table is empty (the source would read outside it). *)
Definition meson_clk_cpu_dyn_round_rate (data : meson_clk_cpu_dyn_data) (rate : Z) : option Z :=
  match table data, last (table data) with
  | first :: _, Some last_e =>
      let min := t_rate first in
      let max := t_rate last_e in
      Some (if rate <? min then min
            else if max <? rate then max
            else round_loop rate min (table data))
  | _, _ => None
  end.

Section Ops.
Context {R : Type} `{Regmap R}.
(** Outside the driver: the firmware call (new state and result a0), and the
    clock framework: rates of the parents by index, the number of parents,
    whether this is "dsu_dyn_clk", the cached rate of this clock, and setting
    the rate of parent 3. *)
Context (arm_smccc_smc : R -> Z -> list Z -> R * Z).
Context (parent_rate_by_index : Z -> Z) (num_parents : Z) (is_dsu : bool).
Context (clk_get_rate : R -> Z) (clk_set_parent3_rate : R -> Z -> R).

(** The register, read directly or through firmware. *)
Definition read_cpu_reg (map : R) (data : meson_clk_cpu_dyn_data) : R * Z :=
  if truthy (smc_id data) then
    let '(map, a0) := arm_smccc_smc map (smc_id data) [secid_dyn_rd data; 0; 0; 0; 0; 0; 0] in
    (map, u32 a0)
  else (map, snd (regmap_read map (offset data))).

Definition meson_clk_cpu_dyn_recalc_rate (map : R) (data : meson_clk_cpu_dyn_data) : R * Z :=
  let '(map, val) := read_cpu_reg map data in
  if truthy (val .& CPU_DYN_SEL_MASK) then
    let pindex := (val >> 16) .& 0x3 in
    let nprate := parent_rate_by_index pindex in
    if truthy ((val >> 18) .& 0x1) then
      let div := (val >> 20) .& 0x3f in
      (map, DIV_ROUND_UP_ULL nprate (div + 1))
    else (map, nprate)
  else
    let pindex := val .& 0x3 in
    let nprate := parent_rate_by_index pindex in
    if truthy ((val >> 2) .& 0x1) then
      let div := (val >> 4) .& 0x3f in
      (map, DIV_ROUND_UP_ULL nprate (div + 1))
    else (map, nprate).

(** The busy wait: at most 101 reads ([tries] counts down cnt = 1 .. 101). *)
Fixpoint dyn_wait (tries : nat) (map : R) (data : meson_clk_cpu_dyn_data) : R * Z :=
  let control := snd (regmap_read map (offset data)) in
  let map := udelay map 1 in
  match tries with
  | O => (map, control)
  | S tries => if truthy (control .& (1 << 28)) then dyn_wait tries map data else (map, control)
  end.

Definition meson_cpu_dyn_set (map : R) (data : meson_clk_cpu_dyn_data)
    (dyn_pre_mux dyn_post_mux dyn_div : Z) : R :=
  let '(map, control) := dyn_wait 100 map data in
  fst (regmap_write map (offset data) (dyn_control control dyn_pre_mux dyn_post_mux dyn_div)).

(** [None]: the table is empty. *)
Definition meson_clk_cpu_dyn_set_rate (map : R) (data : meson_clk_cpu_dyn_data) (rate : Z)
  : option R :=
  match table data with
  | [] => None
  | first :: _ =>
      let parms := default first (find_parms rate (table data)) in
      let nrate := u32 (t_rate parms) in
      let map :=
        if (1000000000 <? nrate) && is_dsu then
          let map :=
            if 1000000000 <? clk_get_rate map then
              if truthy (smc_id data)
              then fst (arm_smccc_smc map (smc_id data) [secid_dyn data; 1; 0; 0; 0; 0; 0])
              else meson_cpu_dyn_set map data 1 0 0
            else map in
          clk_set_parent3_rate map nrate
        else map in
      Some (if truthy (smc_id data)
            then fst (arm_smccc_smc map (smc_id data)
                   [secid_dyn data; dyn_pre_mux parms; dyn_post_mux parms; dyn_div parms; 0; 0; 0])
            else meson_cpu_dyn_set map data (dyn_pre_mux parms) (dyn_post_mux parms) (dyn_div parms))
  end.

Definition meson_clk_cpu_dyn_get_parent (map : R) (data : meson_clk_cpu_dyn_data) : R * Z :=
  let '(map, val) := read_cpu_reg map data in
  let pre_shift := if truthy (val .& CPU_DYN_SEL_MASK) then 16 else 0 in
  let val := (val >> pre_shift) .& 0x3 in
  (map, if num_parents <=? val then u8 (- EINVAL) else u8 val).

Definition read_sys_reg (map : R) (data : meson_clk_cpu_dyn_data) : R * Z :=
  let '(map, a0) := arm_smccc_smc map (smc_id data) [secid_dyn_rd data; 0; 0; 0; 0; 0; 0] in
  (map, u32 a0).

Definition meson_sec_sys_clk_get_parent (map : R) (data : meson_clk_cpu_dyn_data) : R * Z :=
  let '(map, val) := read_sys_reg map data in
  let pre_shift := if truthy (val .& SYS_CLK_SEL_MASK) then 26 else 10 in
  let val := (val >> pre_shift) .& 0x7 in
  (map, if num_parents <=? val then u8 (- EINVAL) else u8 val).

Definition meson_sec_sys_clk_recalc_rate (map : R) (data : meson_clk_cpu_dyn_data) : R * Z :=
  let '(map, val) := read_sys_reg map data in
  let '(pindex, div) :=
    if truthy (val .& SYS_CLK_SEL_MASK)
    then ((val >> 26) .& 0x7, (val >> 16) .& 0x3ff)
    else ((val >> 10) .& 0x7, (val >> 0) .& 0x3ff) in
  (map, DIV_ROUND_UP_ULL (parent_rate_by_index pindex) (div + 1)).

Definition meson_sec_sys_clk_save_context (map : R) (data : meson_clk_cpu_dyn_data)
  : R * meson_clk_cpu_dyn_data :=
  let '(map, rate) := meson_sec_sys_clk_recalc_rate map data in
  (map, set_saved_rate data rate).

Definition meson_sec_sys_clk_restore_context (map : R) (data : meson_clk_cpu_dyn_data) : option R :=
  meson_clk_cpu_dyn_set_rate map data (saved_rate data).

End Ops.

(** ** The control word *)

(** The setting in bank [b]: source, divider enable, divider. *)
Definition bank (b : bool) (val : Z) : Z * Z * Z :=
  if b then ((val >> 16) .& 0x3, (val >> 18) .& 0x1, (val >> 20) .& 0x3f)
  else (val .& 0x3, (val >> 2) .& 0x1, (val >> 4) .& 0x3f).

(** The selected bank. *)
Definition selected (val : Z) : bool := truthy (val .& CPU_DYN_SEL_MASK).

(** The rate of a setting. *)
Definition rate_of (parent_rate : Z -> Z) (s : Z * Z * Z) : Z :=
  let '(pre, post, div) := s in
  if truthy post then DIV_ROUND_UP_ULL (parent_rate pre) (div + 1) else parent_rate pre.

(** Settings that fit their fields. *)
Definition setting_ok (pre post div : Z) : Prop :=
  0 <= pre < 2 ^ 2 /\ 0 <= post < 2 ^ 1 /\ 0 <= div < 2 ^ 6.

Lemma selected_bit v : 0 <= v -> selected v = Z.testbit v 10.
Proof.
  intros Hv. unfold selected, truthy. change CPU_DYN_SEL_MASK with (2 ^ 10).
  destruct (Z.testbit v 10) eqn:E.
  - destruct (Z.eqb_spec (v .& 2 ^ 10) 0) as [H0|]; [|done].
    apply (f_equal (fun z => Z.testbit z 10)) in H0.
    rewrite Z.land_spec, E in H0. done.
  - assert (v .& 2 ^ 10 = 0) as ->; [|done]. apply Z.bits_inj'. intros i Hi.
    rewrite Z.land_spec, Z.bits_0. destruct (Z.eq_dec i 10) as [->|].
    + by rewrite E.
    + rewrite Z.pow2_bits_false by lia. apply andb_false_r.
Qed.

Lemma field_upto (n : nat) a : 0 <= a .& (2 ^ Z.of_nat n - 1) < 2 ^ Z.of_nat n.
Proof. rewrite land_mask_mod by lia. apply Z.mod_pos_bound. lia. Qed.

(** Words that agree on the low 27 bits have the same banks and selection. *)
Lemma bank_agree v w b :
  (forall i, 0 <= i < 27 -> Z.testbit v i = Z.testbit w i) -> bank b v = bank b w.
Proof.
  intros H. unfold bank.
  assert (Hf : forall s n, 0 <= s -> 0 <= n -> s + n <= 27 ->
    (v >> s) .& (2 ^ n - 1) = (w >> s) .& (2 ^ n - 1)).
  { intros s n Hs Hn Hsn. rewrite !land_mask_mod by done. apply Z.bits_inj'. intros i Hi.
    destruct (Z.lt_ge_cases i n).
    - rewrite !Z.mod_pow2_bits_low, !Z.shiftr_spec by lia. apply H. lia.
    - by rewrite !Z.mod_pow2_bits_high by lia. }
  pose proof (Hf 0 2 ltac:(lia) ltac:(lia) ltac:(lia)) as H0. rewrite !Z.shiftr_0_r in H0.
  pose proof (Hf 2 1 ltac:(lia) ltac:(lia) ltac:(lia)). pose proof (Hf 4 6 ltac:(lia) ltac:(lia) ltac:(lia)).
  pose proof (Hf 16 2 ltac:(lia) ltac:(lia) ltac:(lia)).
  pose proof (Hf 18 1 ltac:(lia) ltac:(lia) ltac:(lia)).
  pose proof (Hf 20 6 ltac:(lia) ltac:(lia) ltac:(lia)).
  destruct b; f_equal; [f_equal| |f_equal|]; assumption.
Qed.

(** Programming flips the selection, fills the bank it selects, and leaves the
    bank that was running alone. *)
Lemma dyn_control_spec c pre post div :
  0 <= c < 2 ^ 32 -> setting_ok pre post div ->
  let c' := dyn_control c pre post div in
  0 <= c' < 2 ^ 32 /\ selected c' = negb (selected c) /\
  bank (selected c') c' = (pre, post, div) /\
  bank (selected c) c' = bank (selected c) c /\
  Z.testbit c' 11 = Z.testbit c 11 /\ Z.testbit c' 26 = true.
Proof.
  intros Hc (Hpre & Hpost & Hdiv) c'.
  assert (Hr : 0 <= c' < 2 ^ 32).
  { assert (Hl : 0 <= c .| (1 << 26) < 2 ^ 32) by (apply lor_bound; [lia|lia|done]).
    unfold c', dyn_control. case_if; (apply lor_bound; [lia| |apply u32_range]);
      match goal with |- 0 <= ?x .& ?y < _ => pose proof (land_range x y ltac:(lia)) end; lia. }
  assert (Hsel : truthy ((c .| (1 << 26)) .& (1 << 10)) = selected c).
  { change (1 << 10) with CPU_DYN_SEL_MASK. fold (selected (c .| (1 << 26))).
    assert (0 <= c .| (1 << 26)) by (apply Z.lor_nonneg; split; [lia|done]).
    rewrite !selected_bit by lia. bits_at. done. }
  split; [done|]. rewrite (selected_bit c') by lia. unfold c', dyn_control. rewrite Hsel.
  rewrite (selected_bit c) by lia. destruct (Z.testbit c 10) eqn:E.
  - split; [bits_at; reflexivity|]. split; [|split; [|split; bits_at; reflexivity]].
    + match goal with |- bank ?b _ = _ => assert (b = false) as -> by (bits_at; reflexivity) end.
      unfold bank. f_equal; [f_equal|].
      * apply (bits_upto 2); [apply (field_upto 2)|done|bit_cases 2].
      * apply (bits_upto 1); [apply (field_upto 1)|done|bit_cases 1].
      * apply (bits_upto 6); [apply (field_upto 6)|done|bit_cases 6].
    + unfold bank. f_equal; [f_equal|].
      * apply (bits_upto 2); [apply (field_upto 2)..|bit_cases 2].
      * apply (bits_upto 1); [apply (field_upto 1)..|bit_cases 1].
      * apply (bits_upto 6); [apply (field_upto 6)..|bit_cases 6].
  - split; [bits_at; reflexivity|]. split; [|split; [|split; bits_at; reflexivity]].
    + match goal with |- bank ?b _ = _ => assert (b = true) as -> by (bits_at; reflexivity) end.
      unfold bank. f_equal; [f_equal|].
      * apply (bits_upto 2); [apply (field_upto 2)|done|bit_cases 2].
      * apply (bits_upto 1); [apply (field_upto 1)|done|bit_cases 1].
      * apply (bits_upto 6); [apply (field_upto 6)|done|bit_cases 6].
    + unfold bank. f_equal; [f_equal|].
      * apply (bits_upto 2); [apply (field_upto 2)..|bit_cases 2].
      * apply (bits_upto 1); [apply (field_upto 1)..|bit_cases 1].
      * apply (bits_upto 6); [apply (field_upto 6)..|bit_cases 6].
Qed.

(** ** Register accesses *)

Section Laws.
Context {R : Type} `{RegmapOk R}.
Context (smc : R -> Z -> list Z -> R * Z) (parent_rate : Z -> Z).

(** The hardware changes nothing but the status bits above bit 26. *)
Definition dyn_stable (data : meson_clk_cpu_dyn_data) : Prop :=
  forall b, 0 <= b < 27 -> volatile (offset data) b = false.

Definition low_agree (v w : Z) : Prop := forall i, 0 <= i < 27 -> Z.testbit v i = Z.testbit w i.

Lemma dyn_wait_spec n : forall (map : R) data,
  dyn_stable data ->
  let '(map', control) := dyn_wait n map data in
  0 <= control < 2 ^ 32 /\ low_agree control (reg_val map (offset data)).
Proof.
  induction n as [|n IH]; intros map data Hst; cbn.
  - split; [apply rm_read_range|]. by intros i Hi.
  - case_if.
    + specialize (IH (udelay map 1) data Hst).
      destruct (dyn_wait n (udelay map 1) data) as [map' control].
      destruct IH as [Hr Ha]. split; [done|]. intros i Hi. rewrite Ha by done.
      apply rm_udelay_bit; [lia|auto].
    + split; [apply rm_read_range|]. by intros i Hi.
Qed.

Lemma selected_agree v w : 0 <= v -> 0 <= w -> low_agree v w -> selected v = selected w.
Proof. intros Hv Hw Ha. rewrite !selected_bit by done. apply Ha. lia. Qed.

Lemma recalc_bank (map : R) data :
  smc_id data = 0 ->
  meson_clk_cpu_dyn_recalc_rate smc parent_rate map data
  = (map, rate_of parent_rate
       (let v := reg_val map (offset data) in bank (selected v) v)).
Proof.
  intros Hs. unfold meson_clk_cpu_dyn_recalc_rate, read_cpu_reg. rewrite Hs.
  cbn [truthy Z.eqb negb]. fold (reg_val map (offset data)).
  set (v := reg_val map (offset data)). cbn zeta. fold (selected v).
  unfold bank, rate_of. destruct (selected v); by case_if.
Qed.

Lemma dyn_set_word (map : R) data pre post div :
  dyn_stable data -> setting_ok pre post div ->
  let v := reg_val map (offset data) in
  let v' := reg_val (meson_cpu_dyn_set map data pre post div) (offset data) in
  exists c, 0 <= c < 2 ^ 32 /\ low_agree c v /\ low_agree v' (dyn_control c pre post div).
Proof.
  intros Hst Hok. cbn zeta. unfold meson_cpu_dyn_set.
  pose proof (dyn_wait_spec 100 map data Hst) as Hw.
  destruct (dyn_wait 100 map data) as [map' c]. destruct Hw as [Hc Ha].
  exists c. split; [done|]. split; [done|]. intros i Hi.
  rewrite rm_write_bit by (lia || auto). by rewrite decide_True.
Qed.

Lemma cpu_dyn_set_recalc' (map : R) data pre post div :
  smc_id data = 0 -> dyn_stable data -> setting_ok pre post div ->
  let v := reg_val map (offset data) in
  let v' := reg_val (meson_cpu_dyn_set map data pre post div) (offset data) in
  selected v' = negb (selected v) /\ bank (selected v) v' = bank (selected v) v /\
  Z.testbit v' 11 = Z.testbit v 11 /\ bank (selected v') v' = (pre, post, div).
Proof.
  intros Hs Hst Hok v v'.
  destruct (dyn_set_word map data pre post div Hst Hok) as (c & Hc & Hcv & Hv').
  fold v v' in Hcv, Hv'.
  assert (Hv : 0 <= v < 2 ^ 32) by apply rm_read_range.
  assert (Hvr : 0 <= v' < 2 ^ 32) by apply rm_read_range.
  destruct (dyn_control_spec c pre post div Hc Hok) as (Hr & Hsel & Hnew & Hold & H11 & _).
  rewrite (selected_agree v' (dyn_control c pre post div)) by (lia || done).
  rewrite <- (selected_agree c v) by (lia || done).
  split; [done|]. split; [|split].
  - rewrite (bank_agree v' _ _ Hv'), Hold. by apply bank_agree.
  - rewrite Hv' by lia. rewrite H11. apply Hcv. lia.
  - by rewrite (bank_agree v' _ _ Hv'), Hnew.
Qed.

(** A rate change of the CPU clock is glitch free and takes effect:
    [meson_cpu_dyn_set] flips the selection, the bank that was driving the CPU
    keeps its setting, bit 11 (owned by another clock) is untouched, and
    [recalc_rate] then reports the rate of the setting just programmed. *)
Theorem cpu_dyn_set_switches (map : R) data pre post div :
  smc_id data = 0 -> dyn_stable data -> setting_ok pre post div ->
  let map' := meson_cpu_dyn_set map data pre post div in
  let v := reg_val map (offset data) in
  let v' := reg_val map' (offset data) in
  selected v' = negb (selected v) /\ bank (selected v) v' = bank (selected v) v /\
  Z.testbit v' 11 = Z.testbit v 11 /\
  snd (meson_clk_cpu_dyn_recalc_rate smc parent_rate map' data) = rate_of parent_rate (pre, post, div).
Proof.
  intros Hs Hst Hok. cbn zeta. rewrite recalc_bank by done. cbn zeta. cbn [snd].
  destruct (cpu_dyn_set_recalc' map data pre post div Hs Hst Hok) as (H1 & H2 & H3 & H4).
  by rewrite H4.
Qed.

End Laws.

(** ** The rate table *)

(** Ascending table. *)
Definition table_sorted (l : list cpu_dyn_table) : Prop :=
  StronglySorted (fun a b => t_rate a < t_rate b) l.

Lemma round_loop_spec rate min l :
  table_sorted l -> (exists e, e ∈ l /\ rate <= t_rate e) ->
  exists e, e ∈ l /\ round_loop rate min l = t_rate e /\ rate <= t_rate e /\
    forall e', e' ∈ l -> rate <= t_rate e' -> t_rate e <= t_rate e'.
Proof.
  induction 1 as [|e l Hs IH Hall]; intros (x & Hx & Hr); [by apply elem_of_nil in Hx|].
  cbn. destruct (Z.leb_spec rate (t_rate e)) as [Hle|Hgt].
  - exists e. split; [left|]. split; [done|]. split; [done|].
    intros e' He' _. apply elem_of_cons in He' as [->|He']; [lia|].
    rewrite Forall_forall in Hall. specialize (Hall e' He'). lia.
  - apply elem_of_cons in Hx as [->|Hx]; [lia|].
    destruct IH as (y & Hy & Hl & Hry & Hmin); [eauto|]. exists y. split; [by right|].
    split; [done|]. split; [done|]. intros e' He' Hr'.
    apply elem_of_cons in He' as [->|He']; [lia|auto].
Qed.

Lemma last_max l e : table_sorted l -> last l = Some e -> e ∈ l /\ forall x, x ∈ l -> t_rate x <= t_rate e.
Proof.
  intros Hs Hl. apply last_Some in Hl as [l' ->]. split; [set_solver|].
  intros x Hx. apply elem_of_app in Hx as [Hx|Hx]; [|by apply list_elem_of_singleton in Hx as ->].
  induction l' as [|y l' IH]; [by apply elem_of_nil in Hx|].
  cbn in Hs. apply StronglySorted_inv in Hs as [Hs Hall].
  apply elem_of_cons in Hx as [->|Hx]; [|auto].
  rewrite Forall_forall in Hall. specialize (Hall e ltac:(set_solver)). lia.
Qed.

(** On an ascending table, [round_rate] answers with a table rate: the
    smallest one that is at least the request, or the largest one when the
    request exceeds them all. *)
Theorem cpu_dyn_round_rate_spec data rate :
  table_sorted (table data) -> table data <> [] ->
  exists e, e ∈ table data /\ meson_clk_cpu_dyn_round_rate data rate = Some (t_rate e) /\
    ((rate <= t_rate e /\ forall x, x ∈ table data -> rate <= t_rate x -> t_rate e <= t_rate x) \/
     (forall x, x ∈ table data -> t_rate x < rate /\ t_rate x <= t_rate e)).
Proof.
  intros Hs Hne. unfold meson_clk_cpu_dyn_round_rate.
  destruct (table data) as [|f l] eqn:Et; [done|]. rewrite <- Et in *.
  destruct (last (table data)) as [m|] eqn:El; [|by rewrite Et, last_cons in El; destruct (last l)].
  destruct (last_max _ _ Hs El) as [Hm Hmax].
  assert (Hmin : forall x, x ∈ table data -> t_rate f <= t_rate x).
  { intros x Hx. rewrite Et in Hx, Hs. apply StronglySorted_inv in Hs as [_ Hall].
    rewrite Forall_forall in Hall. apply elem_of_cons in Hx as [->|Hx]; [lia|].
    specialize (Hall x Hx). lia. }
  destruct (Z.ltb_spec rate (t_rate f)); [|destruct (Z.ltb_spec (t_rate m) rate)].
  - exists f. split; [rewrite Et; left|]. split; [done|]. left. split; [lia|]. auto.
  - exists m. split; [done|]. split; [done|]. right. intros x Hx.
    specialize (Hmax x Hx). lia.
  - destruct (round_loop_spec rate (t_rate f) _ Hs) as (e & He & Hl & Hr & Hall); [eauto|].
    exists e. split; [done|]. split; [by rewrite Hl|]. by left.
Qed.

(** Table rates at least 0xffff Hz apart, as all the tables of the SoCs are. *)
Definition table_spaced (l : list cpu_dyn_table) : Prop :=
  (forall e, e ∈ l -> 0 <= t_rate e < 2 ^ 63) /\
  (forall a b, a ∈ l -> b ∈ l -> t_rate a <> t_rate b -> 0xffff <= Z.abs (t_rate a - t_rate b)).

Lemma find_parms_in_table l e :
  table_spaced l -> e ∈ l ->
  exists e', find_parms (t_rate e) l = Some e' /\ e' ∈ l /\ t_rate e' = t_rate e.
Proof.
  intros [Hr Hsp] He.
  assert (Hgen : forall l', (forall x, x ∈ l' -> x ∈ l) -> e ∈ l' ->
    exists e', find_parms (t_rate e) l' = Some e' /\ e' ∈ l /\ t_rate e' = t_rate e).
  { induction l' as [|x l' IH]; intros Hsub Hin; [by apply elem_of_nil in Hin|]. cbn.
    assert (Hx : x ∈ l) by (apply Hsub; left).
    destruct (Z.eqb_spec (t_rate e) (t_rate x)) as [Heq|Hne]; [by exists x|].
    rewrite abs_ul_small by auto.
    specialize (Hsp e x He Hx Hne). rewrite (proj2 (Z.ltb_ge _ _)) by lia.
    apply elem_of_cons in Hin as [->|Hin]; [done|].
    apply IH; [|done]. intros y Hy. apply Hsub. by right. }
  apply Hgen; auto.
Qed.

(** Setting a rate the table holds makes the clock run at it: on a
    spaced table whose entries state the rate of their setting, [set_rate] of
    a table rate is followed by [recalc_rate] reporting that rate. *)
Theorem cpu_dyn_set_rate_recalc {R} `{RegmapOk R} (map : R) smc parent_rate get_rate set_parent3 data e :
  smc_id data = 0 -> dyn_stable data -> table_spaced (table data) ->
  (forall x, x ∈ table data -> setting_ok (dyn_pre_mux x) (dyn_post_mux x) (dyn_div x) /\
     rate_of parent_rate (dyn_pre_mux x, dyn_post_mux x, dyn_div x) = t_rate x) ->
  e ∈ table data ->
  exists map', meson_clk_cpu_dyn_set_rate smc false get_rate set_parent3 map data (t_rate e) = Some map' /\
    snd (meson_clk_cpu_dyn_recalc_rate smc parent_rate map' data) = t_rate e.
Proof.
  intros Hs Hst Hsp Hwf He.
  destruct (find_parms_in_table _ e Hsp He) as (e' & Hf & He' & Hrate).
  unfold meson_clk_cpu_dyn_set_rate. rewrite Hf.
  destruct (table data) as [|f l] eqn:Et; [by apply elem_of_nil in He|].
  rewrite andb_false_r, Hs. cbn [from_option id truthy Z.eqb negb].
  eexists. split; [reflexivity|]. destruct (Hwf e' He') as [Hok Hr].
  rewrite recalc_bank by done. cbn [snd].
  destruct (cpu_dyn_set_recalc' map data _ _ _ Hs Hst Hok) as (_ & _ & _ & Hb).
  cbn zeta in *. by rewrite Hb, Hr.
Qed.

(** The search of [set_rate] does not look for the nearest rate: here an
    entry 100 kHz away from the request is passed over, and the first entry,
    100 MHz away, is programmed. *)
Theorem cpu_dyn_set_rate_not_nearest :
  let near := CPU_LOW_PARAMS 200000000 0 1 4 in
  let far := CPU_LOW_PARAMS 100000000 0 1 9 in
  let rate := 199900000 in
  Z.abs (rate - t_rate near) < Z.abs (rate - t_rate far) /\
  find_parms rate [far; near] = None /\
  default far (find_parms rate [far; near]) = far.
Proof. vm_compute. repeat split. Qed.

(** ** A concrete clock *)

Definition demo_parents (i : Z) : Z := if i =? 0 then 1000000000 else 24000000.
Definition demo_table : list cpu_dyn_table :=
  [CPU_LOW_PARAMS 24000000 1 0 0; CPU_LOW_PARAMS 100000000 0 1 9;
   CPU_LOW_PARAMS 500000000 0 1 1; CPU_LOW_PARAMS 1000000000 0 0 0].
Definition demo_data : meson_clk_cpu_dyn_data := CpuDynData demo_table 0x19c 0 0 0 0.
Definition no_smc (m : gmap Z Z) (_ : Z) (_ : list Z) : gmap Z Z * Z := (m, 0).

Lemma demo_stable : dyn_stable (R := gmap Z Z) demo_data.
Proof. by intros b Hb. Qed.

Lemma demo_sorted : table_sorted demo_table.
Proof. repeat constructor. Qed.

Lemma demo_cases (P : cpu_dyn_table -> Prop) :
  Forall P demo_table -> forall e, e ∈ demo_table -> P e.
Proof. intros Hall e He. rewrite Forall_forall in Hall. auto. Qed.

Lemma cpu_dyn_set_switches_witness :
  let map' := meson_cpu_dyn_set (∅ : gmap Z Z) demo_data 0 1 9 in
  reg_val map' 0x19c = 0x4940400 /\
  snd (meson_clk_cpu_dyn_recalc_rate no_smc demo_parents map' demo_data)
  = rate_of demo_parents (0, 1, 9).
Proof.
  intros map'. split; [vm_compute; reflexivity|].
  apply (cpu_dyn_set_switches no_smc demo_parents (∅ : gmap Z Z) demo_data 0 1 9);
    [done | apply demo_stable | unfold setting_ok; lia].
Defined.

Lemma cpu_dyn_round_rate_spec_witness :
  exists e, e ∈ demo_table /\ meson_clk_cpu_dyn_round_rate demo_data 300000000 = Some (t_rate e).
Proof.
  destruct (cpu_dyn_round_rate_spec demo_data 300000000 demo_sorted ltac:(done))
    as (e & He & Hr & _).
  exists e. split; [exact He|exact Hr].
Defined.

Lemma cpu_dyn_set_rate_recalc_witness :
  exists map', meson_clk_cpu_dyn_set_rate no_smc false (fun _ => 0) (fun m _ => m)
      (∅ : gmap Z Z) demo_data 500000000 = Some map' /\
    snd (meson_clk_cpu_dyn_recalc_rate no_smc demo_parents map' demo_data) = 500000000.
Proof.
  apply (cpu_dyn_set_rate_recalc (∅ : gmap Z Z) no_smc demo_parents (fun _ => 0) (fun m _ => m)
    demo_data (CPU_LOW_PARAMS 500000000 0 1 1)).
  - done.
  - apply demo_stable.
  - split.
    + apply demo_cases. repeat (constructor; [cbn; lia|]). constructor.
    + intros a b Ha Hb.
      refine (demo_cases (fun b => t_rate a <> t_rate b -> 0xffff <= Z.abs (t_rate a - t_rate b)) _ b Hb).
      revert a Ha. apply demo_cases.
      repeat (constructor; [repeat (constructor; [cbn; lia|]); constructor|]). constructor.
  - apply demo_cases. repeat (constructor; [split; [unfold setting_ok; cbn; lia|reflexivity]|]).
    constructor.
  - solve_in.
Defined.

End CpuDyn.
