(* ===== verification/ClkRegmap.v ===== *)
(** * Gates, dividers and multiplexers (src/drivers/clk/meson/clk-regmap.c)

    The three basic clocks of every SoC, each one bit field of a register.
    The generic parts of the kernel's divider and mux clocks
    (divider_recalc_rate, divider_get_val, clk_mux_val_to_index, ...) are
    parameters.  The theorems: a gate is on exactly after enable and off after
    disable, for both polarities; suspend and resume bring back gates,
    dividers and muxes; switching a mux on resume leaves the gates of both
    parents as they were. *)

From S2P Require Import Prelude Regmap RegBits.
From stdpp Require Import base list numbers gmap.

Local Open Scope Z_scope.
Local Open Scope cint_scope.

Module ClkRegmap.

(** Flags of the clock framework used here. *)
Definition CLK_GATE_SET_TO_DISABLE : Z := BIT 0.
Definition CLK_DIVIDER_READ_ONLY : Z := BIT 5.
Definition CLK_DIVIDER_SECURE_IGNORE_RESTORE : Z := BIT 8.

Record clk_regmap_gate_data := GateData {
  g_offset : Z;
  bit_idx : Z;
  check_offset : Z;
  check_bit : Z;
  g_flags : Z;
  saved_is_enabled : Z;
}.

Record clk_regmap_div_data := DivData {
  d_offset : Z;
  d_smc_id : Z;
  d_shift : Z;
  d_width : Z;
  d_flags : Z;
  d_secid : Z;
  saved_divider : Z;
}.

Record clk_regmap_mux_data := MuxData {
  m_offset : Z;
  m_mask : Z;
  m_smc_id : Z;
  m_shift : Z;
  m_flags : Z;
  m_secid : Z;
  m_secid_rd : Z;
  saved_parent : Z;
}.

Definition set_saved_enabled (g : clk_regmap_gate_data) (v : Z) : clk_regmap_gate_data :=
  GateData (g_offset g) (bit_idx g) (check_offset g) (check_bit g) (g_flags g) v.
Definition set_saved_divider (d : clk_regmap_div_data) (v : Z) : clk_regmap_div_data :=
  DivData (d_offset d) (d_smc_id d) (d_shift d) (d_width d) (d_flags d) (d_secid d) v.
Definition set_saved_parent (m : clk_regmap_mux_data) (v : Z) : clk_regmap_mux_data :=
  MuxData (m_offset m) (m_mask m) (m_smc_id m) (m_shift m) (m_flags m) (m_secid m) (m_secid_rd m) v.

(** clk_div_mask(width) *)
Definition clk_div_mask (width : Z) : Z := (1 << width) - 1.

Section Gate.
Context {R : Type} `{Regmap R}.

(** The polling loop with [cnt] polls left. *)
Fixpoint check_loop (cnt : nat) (map : R) (gate : clk_regmap_gate_data) : R * Z :=
  match cnt with
  | O => (map, - ETIMEDOUT)
  | S cnt =>
      let map := udelay map 1200 in
      let val := snd (regmap_read map (check_offset gate)) in
      if truthy (val .& BIT (check_bit gate)) then (map, 0) else check_loop cnt map gate
  end.

Definition clk_regmap_check_is_satisfied (map : R) (gate : clk_regmap_gate_data) : R * Z :=
  if truthy (check_offset gate) then check_loop 3 map gate else (map, 0).

Definition clk_regmap_gate_endisable (map : R) (gate : clk_regmap_gate_data) (enable : Z) : R * Z :=
  let set := if truthy (g_flags gate .& CLK_GATE_SET_TO_DISABLE) then 1 else 0 in
  let set := set .^ enable in
  regmap_update_bits map (g_offset gate) (u32 (BIT (bit_idx gate)))
    (if truthy set then u32 (BIT (bit_idx gate)) else 0).

Definition clk_regmap_gate_enable (map : R) (gate : clk_regmap_gate_data) : R * Z :=
  let '(map, ret) := clk_regmap_gate_endisable map gate 1 in
  if truthy ret then (map, ret) else clk_regmap_check_is_satisfied map gate.

Definition clk_regmap_gate_disable (bypass_clk_disable : bool) (map : R)
    (gate : clk_regmap_gate_data) : R :=
  if bypass_clk_disable then map else fst (clk_regmap_gate_endisable map gate 0).

Definition clk_regmap_gate_is_enabled (map : R) (gate : clk_regmap_gate_data) : Z :=
  let val := snd (regmap_read map (g_offset gate)) in
  let val := if truthy (g_flags gate .& CLK_GATE_SET_TO_DISABLE)
             then val .^ u32 (BIT (bit_idx gate)) else val in
  let val := val .& u32 (BIT (bit_idx gate)) in
  if truthy val then 1 else 0.

Definition clk_regmap_gate_save_context (map : R) (gate : clk_regmap_gate_data)
  : clk_regmap_gate_data :=
  set_saved_enabled gate (clk_regmap_gate_is_enabled map gate).

Definition clk_regmap_gate_restore_context (map : R) (gate : clk_regmap_gate_data) : R :=
  fst (clk_regmap_gate_endisable map gate (saved_is_enabled gate)).
End Gate.

Section Div.
Context {R : Type} `{Regmap R}.
(** The kernel's generic divider: rate of a field value, rounding (free and
    for a fixed value), field value of a rate (negative: error). *)
Context (divider_recalc_rate : Z -> Z -> Z)          (* prate, val *)
        (divider_round_rate : Z -> Z -> Z * Z)       (* rate, prate: rate and new *prate *)
        (divider_ro_round_rate : Z -> Z -> Z -> Z * Z)
        (divider_get_val : Z -> Z -> Z).             (* rate, parent_rate *)
Context (arm_smccc_smc : R -> Z -> list Z -> R * Z).

Definition clk_regmap_div_recalc_rate (map : R) (div : clk_regmap_div_data) (prate : Z) : Z :=
  let '(ret, val) := regmap_read map (d_offset div) in
  if truthy ret then 0
  else divider_recalc_rate prate ((val >> d_shift div) .& clk_div_mask (d_width div)).

Definition clk_regmap_div_round_rate (map : R) (div : clk_regmap_div_data) (rate prate : Z) : Z * Z :=
  if truthy (d_flags div .& CLK_DIVIDER_READ_ONLY) then
    let '(ret, val) := regmap_read map (d_offset div) in
    if truthy ret then (0, prate)
    else divider_ro_round_rate rate prate ((val >> d_shift div) .& clk_div_mask (d_width div))
  else divider_round_rate rate prate.

Definition clk_regmap_div_set_rate (map : R) (div : clk_regmap_div_data) (rate parent_rate : Z) : R * Z :=
  let ret := divider_get_val rate parent_rate in
  if ret <? 0 then (map, ret)
  else regmap_update_bits map (d_offset div)
         (u32 (clk_div_mask (d_width div) << d_shift div)) (u32 (ret << d_shift div)).

Definition clk_regmap_secure_v2_div_set_rate (map : R) (div : clk_regmap_div_data)
    (rate parent_rate : Z) : R * Z :=
  let ret := divider_get_val rate parent_rate in
  if ret <? 0 then (map, ret)
  else
    (fst (arm_smccc_smc map (d_smc_id div)
       [d_secid div; u32 (clk_div_mask (d_width div) << d_shift div); u32 (ret << d_shift div);
        0; 0; 0; 0]), 0).

Definition clk_regmap_div_save_context (map : R) (div : clk_regmap_div_data) : clk_regmap_div_data :=
  if negb (truthy (d_flags div .& CLK_DIVIDER_SECURE_IGNORE_RESTORE)) then
    let val := snd (regmap_read map (d_offset div)) in
    set_saved_divider div ((val >> d_shift div) .& clk_div_mask (d_width div))
  else div.

Definition clk_regmap_div_restore_context (map : R) (div : clk_regmap_div_data) : R :=
  if negb (truthy (d_flags div .& CLK_DIVIDER_SECURE_IGNORE_RESTORE)) then
    fst (regmap_update_bits map (d_offset div) (u32 (clk_div_mask (d_width div) << d_shift div))
           (u32 (saved_divider div << d_shift div)))
  else map.

Definition clk_regmap_div_secure_v2_restore_context (map : R) (div : clk_regmap_div_data) : R :=
  if negb (truthy (d_flags div .& CLK_DIVIDER_SECURE_IGNORE_RESTORE)) then
    fst (arm_smccc_smc map (d_smc_id div)
       [d_secid div; u32 (clk_div_mask (d_width div) << d_shift div);
        u32 (saved_divider div << d_shift div); 0; 0; 0; 0])
  else map.
End Div.

Section Mux.
Context {R : Type} `{Regmap R}.
(** The kernel's generic mux: index of a field value and back. *)
Context (clk_mux_val_to_index clk_mux_index_to_val : Z -> Z).
Context (arm_smccc_smc : R -> Z -> list Z -> R * Z).
(** The gates of the parents by index, and CLK_OPS_PARENT_ENABLE. *)
Context (parent_gate : Z -> clk_regmap_gate_data) (ops_parent_enable bypass_clk_disable : bool).

Definition clk_regmap_mux_get_parent (map : R) (mux : clk_regmap_mux_data) : R * Z :=
  if truthy (m_smc_id mux) then
    let '(map, a0) := arm_smccc_smc map (m_smc_id mux) [m_secid_rd mux; 0; 0; 0; 0; 0; 0] in
    (map, u8 (clk_mux_val_to_index ((u32 a0 >> m_shift mux) .& m_mask mux)))
  else
    let '(ret, val) := regmap_read map (m_offset mux) in
    if truthy ret then (map, u8 ret)
    else (map, u8 (clk_mux_val_to_index ((val >> m_shift mux) .& m_mask mux))).

Definition clk_regmap_mux_set_parent (map : R) (mux : clk_regmap_mux_data) (index : Z) : R :=
  let val := clk_mux_index_to_val index in
  if truthy (m_smc_id mux) then
    fst (arm_smccc_smc map (m_smc_id mux)
      [m_secid mux; u32 (m_mask mux << m_shift mux); u32 (val << m_shift mux); 0; 0; 0; 0])
  else
    fst (regmap_update_bits map (m_offset mux) (u32 (m_mask mux << m_shift mux))
           (u32 (val << m_shift mux))).

Definition clk_regmap_mux_save_context (map : R) (mux : clk_regmap_mux_data) : R * clk_regmap_mux_data :=
  if negb (truthy (m_smc_id mux)) then
    let '(map, p) := clk_regmap_mux_get_parent map mux in
    (map, set_saved_parent mux p)
  else (map, mux).

Definition clk_regmap_mux_restore_context (map : R) (mux : clk_regmap_mux_data) : R :=
  if negb (truthy (m_smc_id mux)) then
    let '(map, now_parent_id) := clk_regmap_mux_get_parent map mux in
    if negb (saved_parent mux =? now_parent_id) then
      if ops_parent_enable then
        let now_parent := parent_gate now_parent_id in
        let res_parent := parent_gate (saved_parent mux) in
        let now_parent_is_enabled := clk_regmap_gate_is_enabled map now_parent in
        let res_parent_is_enabled := clk_regmap_gate_is_enabled map res_parent in
        let map := fst (clk_regmap_gate_enable map now_parent) in
        let map := fst (clk_regmap_gate_enable map res_parent) in
        let map := clk_regmap_mux_set_parent map mux (saved_parent mux) in
        let map := if negb (truthy now_parent_is_enabled)
                   then clk_regmap_gate_disable bypass_clk_disable map now_parent else map in
        if negb (truthy res_parent_is_enabled)
        then clk_regmap_gate_disable bypass_clk_disable map res_parent else map
      else clk_regmap_mux_set_parent map mux (saved_parent mux)
    else map
  else map.
End Mux.

(** ** The clocks as register fields *)

Definition gate_field (g : clk_regmap_gate_data) : parm := Parm (g_offset g) (bit_idx g) 1.
Definition div_field (d : clk_regmap_div_data) : parm := Parm (d_offset d) (d_shift d) (d_width d).
Definition gate_inverted (g : clk_regmap_gate_data) : bool :=
  truthy (g_flags g .& CLK_GATE_SET_TO_DISABLE).

Section Laws.
Context {R : Type} `{RegmapOk R}.
Implicit Types (map : R).

Lemma endisable_field map g en :
  parm_wf (gate_field g) -> en = 0 \/ en = 1 ->
  fst (clk_regmap_gate_endisable map g en)
  = meson_parm_write map (gate_field g) (if gate_inverted g then 1 - en else en).
Proof.
  intros (Hs & _ & Hsum) Hen. cbn in Hs, Hsum. unfold clk_regmap_gate_endisable, meson_parm_write.
  fold (gate_inverted g). cbn [reg_off Regmap.shift width gate_field]. rewrite <- BIT_mask by lia.
  f_equal. f_equal. rewrite (proj2 (BIT_pow (bit_idx g) ltac:(lia))).
  assert (0 < 2 ^ bit_idx g < 2 ^ 32) by (split; [|apply Z.pow_lt_mono_r]; lia).
  rewrite Z.shiftl_mul_pow2 by lia.
  destruct (gate_inverted g), Hen as [-> | ->]; cbn [Z.lxor truthy Z.eqb negb Z.sub Z.opp Z.add Z.pos_sub];
    rewrite ?Z.mul_1_l, ?Z.mul_0_l, ?u32_small by lia; done.
Qed.

Lemma is_enabled_field map g :
  parm_wf (gate_field g) ->
  clk_regmap_gate_is_enabled map g
  = (if gate_inverted g then 1 - meson_parm_read map (gate_field g)
     else meson_parm_read map (gate_field g)).
Proof.
  intros Hwf. pose proof Hwf as (Hs & _ & Hsum). cbn in Hs, Hsum.
  unfold clk_regmap_gate_is_enabled. fold (gate_inverted g) (reg_val map (g_offset g)).
  set (v := reg_val map (g_offset g)). set (b := bit_idx g) in *.
  rewrite (proj2 (BIT_pow b ltac:(lia))).
  assert (Hr : meson_parm_read map (gate_field g) = Z.b2z (Z.testbit v b)).
  { rewrite parm_read_field by done. cbn. change (2 ^ 1) with 2. fold b v.
    rewrite <- Z.bit0_mod, Z.shiftr_spec by lia. done. }
  pose proof (fun x => land_pow2_truthy x b) as Hl.
  assert (0 <= v < 2 ^ 32) by apply rm_read_range.
  assert (0 < 2 ^ b) by (apply Z.pow_pos_nonneg; lia).
  rewrite Hr. destruct (gate_inverted g).
  - rewrite Hl by lia. rewrite Z.lxor_spec, Z.pow2_bits_true by lia.
    by destruct (Z.testbit v b).
  - rewrite Hl by lia. by destruct (Z.testbit v b).
Qed.

Lemma is_enabled_endisable map g en :
  parm_wf (gate_field g) -> parm_stable (gate_field g) -> en = 0 \/ en = 1 ->
  clk_regmap_gate_is_enabled (fst (clk_regmap_gate_endisable map g en)) g = en.
Proof.
  intros Hwf Hst Hen. rewrite is_enabled_field, endisable_field by done.
  rewrite parm_read_write_small by (done || (change (2 ^ width (gate_field g)) with 2;
    destruct (gate_inverted g); lia)).
  destruct (gate_inverted g); lia.
Qed.

(** Waiting for the check bit does not disturb stable fields. *)
Lemma check_read map g p :
  parm_wf p -> parm_stable p ->
  meson_parm_read (fst (clk_regmap_check_is_satisfied map g)) p = meson_parm_read map p.
Proof.
  intros Hp Hst. unfold clk_regmap_check_is_satisfied. case_if; [|done].
  assert (Hl : forall n m, meson_parm_read (fst (check_loop n m g)) p = meson_parm_read m p).
  { induction n as [|n IH]; intros m; cbn; [done|].
    case_if; cbn; rewrite ?IH; by apply parm_read_udelay. }
  apply Hl.
Qed.

Lemma gate_enable_read map g p :
  parm_wf p -> parm_stable p ->
  meson_parm_read (fst (clk_regmap_gate_enable map g)) p
  = meson_parm_read (fst (clk_regmap_gate_endisable map g 1)) p.
Proof.
  intros Hp Hst. unfold clk_regmap_gate_enable.
  destruct (clk_regmap_gate_endisable map g 1) as [m r]. cbn.
  case_if; [done|]. by apply check_read.
Qed.

(** A gate reads as enabled after [enable] (whether or not the check bit
    came up) and as disabled after [disable], for either polarity of its bit;
    with the disable bypass set, [disable] changes nothing; and no other
    stable field of the registers is disturbed. *)
Theorem gate_enable_disable map g :
  parm_wf (gate_field g) -> parm_stable (gate_field g) ->
  clk_regmap_gate_is_enabled (fst (clk_regmap_gate_enable map g)) g = 1 /\
  clk_regmap_gate_is_enabled (clk_regmap_gate_disable false map g) g = 0 /\
  clk_regmap_gate_disable true map g = map /\
  forall p, parm_wf p -> parm_stable p -> parm_disjoint (gate_field g) p ->
    meson_parm_read (fst (clk_regmap_gate_enable map g)) p = meson_parm_read map p /\
    meson_parm_read (clk_regmap_gate_disable false map g) p = meson_parm_read map p.
Proof.
  intros Hwf Hst. split; [|split; [|split; [done|]]].
  - rewrite is_enabled_field, gate_enable_read, <- is_enabled_field by done.
    by apply is_enabled_endisable; [..|right].
  - by apply is_enabled_endisable; [..|left].
  - intros p Hp Hps Hd. rewrite gate_enable_read by done. unfold clk_regmap_gate_disable.
    rewrite !endisable_field by (auto; done). by rewrite !parm_read_write_other.
Qed.

(** Resume brings a gate back to the state [save_context] saw, whatever
    happened to the registers in between. *)
Theorem gate_save_restore map0 map1 g :
  parm_wf (gate_field g) -> parm_stable (gate_field g) ->
  let g' := clk_regmap_gate_save_context map0 g in
  clk_regmap_gate_is_enabled (clk_regmap_gate_restore_context map1 g') g
  = clk_regmap_gate_is_enabled map0 g.
Proof.
  intros Hwf Hst. cbn zeta. unfold clk_regmap_gate_restore_context.
  apply (is_enabled_endisable map1 (clk_regmap_gate_save_context map0 g)
    (clk_regmap_gate_is_enabled map0 g)); [done|done|].
  unfold clk_regmap_gate_is_enabled. case_if; auto.
Qed.

(** Dividers and muxes are fields, too. *)
Lemma div_update_field map off s w v :
  parm_wf (Parm off s w) ->
  fst (regmap_update_bits map off (u32 (clk_div_mask w << s)) (u32 (v << s)))
  = meson_parm_write map (Parm off s w) v.
Proof. intros (Hs & Hw & Hsum). cbn in *. unfold clk_div_mask. by rewrite update_field. Qed.

Lemma read_field map off s w :
  parm_wf (Parm off s w) ->
  (reg_val map off >> s) .& clk_div_mask w = meson_parm_read map (Parm off s w).
Proof. intros (Hs & Hw & Hsum). by apply RegBits.test_field. Qed.

Lemma div_recalc_field recalc map d prate :
  parm_wf (div_field d) ->
  clk_regmap_div_recalc_rate recalc map d prate = recalc prate (meson_parm_read map (div_field d)).
Proof.
  intros Hwf. unfold clk_regmap_div_recalc_rate. pose proof (rm_read_ok map (d_offset d)) as Hok.
  unfold div_field. rewrite <- read_field by done. unfold reg_val.
  destruct (regmap_read map (d_offset d)) as [r v]. cbn in *. by rewrite Hok.
Qed.

(** A divider runs at the rate of the value [divider_get_val] chose; an
    error of [divider_get_val] is returned and nothing is written; and resume
    brings back the value [save_context] saw, or leaves the divider alone when
    the firmware owns it. *)
Theorem div_set_save_restore recalc get_val map map1 d rate prate :
  parm_wf (div_field d) -> parm_stable (div_field d) ->
  get_val rate prate < 2 ^ d_width d ->
  (if get_val rate prate <? 0
   then clk_regmap_div_set_rate get_val map d rate prate = (map, get_val rate prate)
   else snd (clk_regmap_div_set_rate get_val map d rate prate) = 0 /\
        clk_regmap_div_recalc_rate recalc (fst (clk_regmap_div_set_rate get_val map d rate prate)) d prate
        = recalc prate (get_val rate prate)) /\
  (let d' := clk_regmap_div_save_context map d in
   if truthy (d_flags d .& CLK_DIVIDER_SECURE_IGNORE_RESTORE)
   then clk_regmap_div_restore_context map1 d' = map1
   else clk_regmap_div_recalc_rate recalc (clk_regmap_div_restore_context map1 d') d prate
        = clk_regmap_div_recalc_rate recalc map d prate).
Proof.
  intros Hwf Hst Hv. split.
  - unfold clk_regmap_div_set_rate. case_if; [done|].
    split; [apply rm_update_ok|]. rewrite div_recalc_field by done.
    rewrite div_update_field by done. f_equal. by apply parm_read_write_small.
  - unfold clk_regmap_div_save_context, clk_regmap_div_restore_context.
    destruct (truthy (d_flags d .& _)) eqn:E; cbn [negb]; [by rewrite E|].
    cbn [set_saved_divider d_flags d_offset d_width d_shift saved_divider]. rewrite E. cbn [negb].
    fold (reg_val map (d_offset d)). rewrite read_field by done.
    rewrite !div_recalc_field by done. rewrite div_update_field by done. f_equal.
    apply parm_read_write_small; [done|done|]. by apply parm_read_range.
Qed.

Section MuxLaws.
Context (to_index to_val : Z -> Z) (smc : R -> Z -> list Z -> R * Z).
Context (parent_gate : Z -> clk_regmap_gate_data).
Context (mux : clk_regmap_mux_data) (w : Z).

(** A mux driven through its register, with a contiguous field of [w] bits
    whose values name the parents. *)
Record mux_wf : Prop := {
  mux_direct : m_smc_id mux = 0;
  mux_mask : m_mask mux = clk_div_mask w;
  mux_field_wf : parm_wf (Parm (m_offset mux) (m_shift mux) w);
  mux_field_stable : parm_stable (Parm (m_offset mux) (m_shift mux) w);
}.

(** [i] is the index of a parent. *)
Definition parent_ok (i : Z) : Prop :=
  0 <= i < 256 /\ 0 <= to_val i < 2 ^ w /\ to_index (to_val i) = i.

Local Abbreviation field := (Parm (m_offset mux) (m_shift mux) w).

Lemma mux_get_field map :
  mux_wf -> clk_regmap_mux_get_parent to_index smc map mux
            = (map, u8 (to_index (meson_parm_read map field))).
Proof.
  intros []. unfold clk_regmap_mux_get_parent. rewrite mux_direct0. cbn [truthy Z.eqb negb].
  rewrite <- read_field by done. unfold reg_val. pose proof (rm_read_ok map (m_offset mux)) as Hok.
  destruct (regmap_read map (m_offset mux)) as [r v]. cbn in *. rewrite Hok, mux_mask0. done.
Qed.

Lemma mux_set_field map i :
  mux_wf -> clk_regmap_mux_set_parent to_val smc map mux i = meson_parm_write map field (to_val i).
Proof.
  intros []. unfold clk_regmap_mux_set_parent. rewrite mux_direct0, mux_mask0.
  cbn [truthy Z.eqb negb]. by apply div_update_field.
Qed.

Lemma mux_set_get map i :
  mux_wf -> parent_ok i ->
  snd (clk_regmap_mux_get_parent to_index smc (clk_regmap_mux_set_parent to_val smc map mux i) mux) = i.
Proof.
  intros Hwf (Hi & Hv & Hinv). rewrite mux_get_field, mux_set_field by done.
  destruct Hwf. cbn. rewrite parm_read_write_small by done. rewrite Hinv. by apply u8_small.
Qed.

Lemma gate_enable_other map g p :
  parm_wf (gate_field g) -> parm_wf p -> parm_stable p -> parm_disjoint (gate_field g) p ->
  meson_parm_read (fst (clk_regmap_gate_enable map g)) p = meson_parm_read map p.
Proof.
  intros Hg Hp Hs Hd. rewrite gate_enable_read, endisable_field by auto.
  by apply parm_read_write_other.
Qed.

Lemma gate_disable_other bypass map g p :
  parm_wf (gate_field g) -> parm_wf p -> parm_stable p -> parm_disjoint (gate_field g) p ->
  meson_parm_read (clk_regmap_gate_disable bypass map g) p = meson_parm_read map p.
Proof.
  intros Hg Hp Hs Hd. unfold clk_regmap_gate_disable. case_if; [done|].
  rewrite endisable_field by auto. by apply parm_read_write_other.
Qed.

Lemma fields_three {p q r} :
  fields_ok [p; q; r] ->
  parm_wf q /\ parm_wf r /\ parm_stable q /\ parm_stable r /\
  parm_disjoint p q /\ parm_disjoint p r /\ parm_disjoint q r.
Proof.
  intros (Hw & Hs & Hd). rewrite !Forall_cons in Hw, Hs.
  inversion Hd as [|? ? D1 Hd']; subst. inversion Hd' as [|? ? D2 _]; subst.
  apply Forall_cons_1 in D1 as [? D1]. apply Forall_cons_1 in D1 as [? _]. apply Forall_cons_1 in D2 as [? _].
  tauto.
Qed.

Lemma mux_set_gate map g :
  mux_wf -> parm_wf (gate_field g) -> parm_stable (gate_field g) -> parm_disjoint field (gate_field g) ->
  clk_regmap_gate_is_enabled (clk_regmap_mux_set_parent to_val smc map mux (saved_parent mux)) g
  = clk_regmap_gate_is_enabled map g.
Proof.
  intros Hwf ? ? ?. rewrite !is_enabled_field by done.
  by rewrite mux_set_field, parm_read_write_other by (done || apply Hwf).
Qed.

Lemma is_enabled_bit map g :
  truthy (clk_regmap_gate_is_enabled map g) = (clk_regmap_gate_is_enabled map g =? 1) /\
  (clk_regmap_gate_is_enabled map g = 0 \/ clk_regmap_gate_is_enabled map g = 1).
Proof. unfold clk_regmap_gate_is_enabled. case_if; cbn; auto. Qed.

(** The switch with both parents' gates opened around it. *)
Lemma mux_gated_switch map gn gr :
  mux_wf -> parent_ok (saved_parent mux) -> fields_ok [field; gate_field gn; gate_field gr] ->
  let m2 := fst (clk_regmap_gate_enable (fst (clk_regmap_gate_enable map gn)) gr) in
  let m3 := clk_regmap_mux_set_parent to_val smc m2 mux (saved_parent mux) in
  let m4 := if negb (truthy (clk_regmap_gate_is_enabled map gn)) then clk_regmap_gate_disable false m3 gn else m3 in
  let m5 := if negb (truthy (clk_regmap_gate_is_enabled map gr)) then clk_regmap_gate_disable false m4 gr else m4 in
  snd (clk_regmap_mux_get_parent to_index smc m5 mux) = saved_parent mux /\
  clk_regmap_gate_is_enabled m5 gn = clk_regmap_gate_is_enabled map gn /\
  clk_regmap_gate_is_enabled m5 gr = clk_regmap_gate_is_enabled map gr.
Proof.
  intros Hwf Hpar Hfs m2 m3 m4 m5.
  destruct (fields_three Hfs) as (Wn & Wr & Sn & Sr & Dmn & Dmr & Dnr).
  apply parm_disjoint_sym in Dmn as Dnm, Dmr as Drm, Dnr as Drn.
  pose proof (mux_field_wf Hwf) as Wm. pose proof (mux_field_stable Hwf) as Sm.
  assert (En2 : clk_regmap_gate_is_enabled m2 gn = 1).
  { unfold m2. rewrite is_enabled_field by done. rewrite gate_enable_other by done.
    rewrite gate_enable_read, <- is_enabled_field by done. apply is_enabled_endisable; auto. }
  assert (Er2 : clk_regmap_gate_is_enabled m2 gr = 1).
  { unfold m2. rewrite is_enabled_field, gate_enable_read, <- is_enabled_field by done.
    apply is_enabled_endisable; auto. }
  assert (Hm5 : forall p, parm_wf p -> parm_stable p -> parm_disjoint (gate_field gr) p ->
    meson_parm_read m5 p = meson_parm_read m4 p).
  { intros p ? ? ?. unfold m5. case_if; [|done]. by apply gate_disable_other. }
  assert (Hm4 : forall p, parm_wf p -> parm_stable p -> parm_disjoint (gate_field gn) p ->
    meson_parm_read m4 p = meson_parm_read m3 p).
  { intros p ? ? ?. unfold m4. case_if; [|done]. by apply gate_disable_other. }
  split; [|split].
  - rewrite mux_get_field by done. cbn [snd]. rewrite Hm5, Hm4 by done.
    pose proof (mux_set_get m2 _ Hwf Hpar) as Hsg. rewrite mux_get_field in Hsg by done. exact Hsg.
  - rewrite (is_enabled_field m5), Hm5, <- is_enabled_field by done. unfold m4.
    destruct (is_enabled_bit map gn) as [-> [Hb|Hb]]; rewrite Hb; cbn.
    + apply is_enabled_endisable; auto.
    + unfold m3. by rewrite mux_set_gate.
  - unfold m5. destruct (is_enabled_bit map gr) as [-> [Hb|Hb]]; rewrite Hb; cbn.
    + apply is_enabled_endisable; auto.
    + rewrite is_enabled_field, Hm4, <- is_enabled_field by done. unfold m3. by rewrite mux_set_gate.
Qed.

(** Resume of a mux selects the parent that was saved; when the parents
    are gated around the switch (CLK_OPS_PARENT_ENABLE), both gates end in the
    state they had before, and a mux that already selects the saved parent is
    not touched. *)
Theorem mux_restore_context map ops_parent_enable :
  mux_wf -> parent_ok (saved_parent mux) ->
  let now := snd (clk_regmap_mux_get_parent to_index smc map mux) in
  let map' := clk_regmap_mux_restore_context to_index to_val smc parent_gate ops_parent_enable
                false map mux in
  fields_ok [field; gate_field (parent_gate now); gate_field (parent_gate (saved_parent mux))] ->
  snd (clk_regmap_mux_get_parent to_index smc map' mux) = saved_parent mux /\
  clk_regmap_gate_is_enabled map' (parent_gate now) = clk_regmap_gate_is_enabled map (parent_gate now) /\
  clk_regmap_gate_is_enabled map' (parent_gate (saved_parent mux))
  = clk_regmap_gate_is_enabled map (parent_gate (saved_parent mux)) /\
  (now = saved_parent mux -> map' = map).
Proof.
  intros Hwf Hpar now map' Hfs. destruct (fields_three Hfs) as (Wn & Wr & Sn & Sr & Dmn & Dmr & _).
  unfold map', clk_regmap_mux_restore_context. rewrite (mux_direct Hwf). cbn [truthy Z.eqb negb].
  assert (Hget : clk_regmap_mux_get_parent to_index smc map mux = (map, now))
    by (unfold now; by rewrite mux_get_field).
  rewrite Hget.
  destruct (Z.eqb_spec (saved_parent mux) now) as [Heq|Hne]; cbn [negb]; [by rewrite Heq|].
  destruct ops_parent_enable.
  - destruct (mux_gated_switch map _ _ Hwf Hpar Hfs) as (? & ? & ?).
    split; [done|]. split; [done|]. split; [done|]. congruence.
  - split; [by apply mux_set_get|]. split; [by apply mux_set_gate|]. split; [by apply mux_set_gate|]. congruence.
Qed.

End MuxLaws.
End Laws.

(** ** Concrete clocks *)

Definition demo_gate (b : Z) : clk_regmap_gate_data := GateData 0x50 b 0 0 CLK_GATE_SET_TO_DISABLE 0.
Definition demo_div : clk_regmap_div_data := DivData 0x54 0 4 7 0 0 0.
Definition demo_mux : clk_regmap_mux_data := MuxData 0x58 7 0 9 0 0 0 5.

Lemma gate_enable_disable_witness :
  clk_regmap_gate_is_enabled (fst (clk_regmap_gate_enable (∅ : gmap Z Z) (demo_gate 8))) (demo_gate 8) = 1.
Proof.
  apply (gate_enable_disable (∅ : gmap Z Z) (demo_gate 8)); [unfold parm_wf; cbn; lia|by intros b].
Defined.

Lemma gate_save_restore_witness :
  clk_regmap_gate_is_enabled (clk_regmap_gate_restore_context (<[0x50 := 0xffff]> ∅ : gmap Z Z)
    (clk_regmap_gate_save_context (∅ : gmap Z Z) (demo_gate 8))) (demo_gate 8) = 1.
Proof.
  rewrite (gate_save_restore (∅ : gmap Z Z) _ (demo_gate 8)); [vm_compute; reflexivity
    |unfold parm_wf; cbn; lia|by intros b].
Defined.

Lemma div_set_save_restore_witness :
  clk_regmap_div_recalc_rate (fun p v => p / (v + 1))
    (fst (clk_regmap_div_set_rate (fun r p => p / r - 1) (∅ : gmap Z Z) demo_div 100 1000)) demo_div 1000
  = 100.
Proof.
  refine (proj2 (proj1 (div_set_save_restore (fun p v => p / (v + 1)) (fun r p => p / r - 1)
    (∅ : gmap Z Z) ∅ demo_div 100 1000 _ _ _)));
    [unfold parm_wf; cbn; lia|by intros b|vm_compute; reflexivity].
Defined.

Lemma mux_restore_context_witness :
  let map := (<[0x58 := 0x400]> ∅ : gmap Z Z) in
  let smc := fun (m : gmap Z Z) (_ : Z) (_ : list Z) => (m, 0) in
  snd (clk_regmap_mux_get_parent id smc
    (clk_regmap_mux_restore_context id id smc demo_gate true false map demo_mux) demo_mux) = 5.
Proof.
  intros map smc.
  apply (mux_restore_context id id smc demo_gate demo_mux 3 map true).
  - split; [done|done|unfold parm_wf; cbn; lia|by intros b].
  - unfold parent_ok. cbn. lia.
  - apply plain_fields_ok. vm_compute. reflexivity.
Defined.

End ClkRegmap.
