(* ===== verification/ClkPll.v ===== *)
(** * PLL rate computation (src/drivers/clk/meson/clk-pll.c, clk-pll.h)

    out = in * (m + frac / frac_max) / n.  This file models the pure part of
    the driver, as compiled for arm64 with CONFIG_AMLOGIC_MODIFY: the rate of
    a parameter set, the search for the best (m, n) in a table or a multiplier
    range, and the fractional correction.  The search loops are executed with
    fuel; [get_pll_settings_total] shows the fuel is always enough.  The
    register side is in ClkPllOps, ClkPllV3 and ClkPllV4. *)

From S2P Require Import Prelude Regmap.
From stdpp Require Import base list numbers gmap.

Local Open Scope Z_scope.
Local Open Scope cint_scope.

Module Pll.

Definition FIXED_FRAC_WEIGHT_PRECISION : Z := 100000.
Definition MESON_PLL_THRESHOLD_RATE : Z := 1500000000.

Definition CLK_MESON_PLL_ROUND_CLOSEST : Z := BIT 0.
Definition CLK_MESON_PLL_IGNORE_INIT : Z := BIT 1.
Definition CLK_MESON_PLL_FIXED_FRAC_WEIGHT_PRECISION : Z := BIT 2.
Definition CLK_MESON_PLL_POWER_OF_TWO : Z := BIT 3.
Definition CLK_MESON_PLL_FIXED_N : Z := BIT 4.
Definition CLK_MESON_PLL_FIXED_EN0P5 : Z := BIT 5.
Definition CLK_MESON_PLL_READ_ONLY : Z := BIT 6.
Definition CLK_MESON_PLL_RSTN : Z := BIT 7.
Definition CLK_MESON_PLL_IGNORE_RESTORE : Z := BIT 8.

Record pll_mult_range := MultRange { r_min : Z; r_max : Z }.

Record pll_params_table := PLL_PARAMS_v4 { t_m : Z; t_n : Z; t_od : Z }.

Definition PLL_PARAMS (m n : Z) : pll_params_table := PLL_PARAMS_v4 m n 0.

(** [p_table] holds the entries before the terminating all-zero one. *)
Record meson_clk_pll_data := PllData {
  p_en : parm;
  p_m : parm;
  p_n : parm;
  p_frac : parm;
  p_l : parm;
  p_rst : parm;
  p_l_rst : parm;
  p_th : parm;
  p_fl : parm;
  p_od : parm;
  pcie_hcsl : parm;
  pcie_exen : parm;
  init_regs : list reg_sequence;      (* init_regs and init_count *)
  p_table : option (list pll_params_table);
  p_range : option pll_mult_range;
  max_rate : Z;                       (* pll_range.max_rate *)
  od_max : Z;
  smc_id : Z;
  flags : Z;
  secid_disable : Z;
  secid : Z;
  fixed_n : Z;
  saved_rate : Z;
  saved_is_enabled : Z;
}.

(** Is the flag set? *)
Definition has (pll : meson_clk_pll_data) (f : Z) : bool := truthy (flags pll .& f).

Definition __pll_round_closest_mult (pll : meson_clk_pll_data) : bool :=
  has pll CLK_MESON_PLL_ROUND_CLOSEST && negb (MESON_PARM_APPLICABLE (p_frac pll)).

Definition __pll_params_to_rate (parent_rate m n frac : Z) (pll : meson_clk_pll_data) : Z :=
  let parent_rate :=
    if has pll CLK_MESON_PLL_FIXED_EN0P5 then parent_rate >> 1 else parent_rate in
  let rate := u64 (parent_rate * m) in
  let rate :=
    if truthy frac && (2 <? width (p_frac pll)) then
      let frac_rate := u64 (parent_rate * frac) in
      let weight :=
        if has pll CLK_MESON_PLL_FIXED_FRAC_WEIGHT_PRECISION then FIXED_FRAC_WEIGHT_PRECISION
        else u32 (1 << (width (p_frac pll) - 2)) in
      if truthy (frac .& (1 << (width (p_frac pll) - 1)))
      then u64 (rate - DIV_ROUND_UP_ULL frac_rate weight)
      else u64 (rate + DIV_ROUND_UP_ULL frac_rate weight)
    else rate in
  let n := if has pll CLK_MESON_PLL_POWER_OF_TWO then u32 (1 << n) else n in
  if n =? 0 then 0 else DIV_ROUND_UP_ULL rate n.

Definition __pll_params_with_frac (rate parent_rate m n : Z) (pll : meson_clk_pll_data) : Z :=
  let parent_rate :=
    if has pll CLK_MESON_PLL_FIXED_EN0P5 then parent_rate >> 1 else parent_rate in
  let '(val, over) :=
    if has pll CLK_MESON_PLL_POWER_OF_TWO
    then (u64 (rate << n), rate <? u64 ((parent_rate >> n) * m))
    else (u64 (rate * n), rate <? div_u64 (u64 (parent_rate * m)) n) in
  if over then 0
  else
    let frac_max :=
      if has pll CLK_MESON_PLL_FIXED_FRAC_WEIGHT_PRECISION then FIXED_FRAC_WEIGHT_PRECISION
      else u32 (1 << (width (p_frac pll) - 2)) in
    let val :=
      if has pll CLK_MESON_PLL_ROUND_CLOSEST
      then DIV_ROUND_CLOSEST_ULL (u64 (val * frac_max)) parent_rate
      else div_u64 (u64 (val * frac_max)) parent_rate in
    let val := u64 (val - u32 (m * frac_max)) in
    Z.min (u32 val) (u32 (frac_max - 1)).

Definition meson_clk_pll_is_better (rate best now : Z) (pll : meson_clk_pll_data) : bool :=
  if __pll_round_closest_mult pll
  then abs_ul (u64 (now - rate)) <? abs_ul (u64 (best - rate))
  else (now <=? rate) && (best <? now).

(** The index functions return (ret, *m, *n); an out parameter the code leaves
    alone is 0 here, and is not read by the caller in that case. *)
Definition meson_clk_get_pll_table_index (index : Z) (table : list pll_params_table) : Z * Z * Z :=
  match table !! Z.to_nat index with
  | Some e => if t_m e =? 0 then (- EINVAL, 0, 0) else (0, t_m e, t_n e)
  | None => (- EINVAL, 0, 0)
  end.

Definition meson_clk_get_pll_range_m (rate parent_rate n : Z) (pll : meson_clk_pll_data) : Z :=
  let val := if has pll CLK_MESON_PLL_POWER_OF_TWO then u64 (rate << n) else u64 (rate * n) in
  u32 (if __pll_round_closest_mult pll
       then DIV_ROUND_CLOSEST_ULL val parent_rate
       else div_u64 val parent_rate).

Definition meson_clk_get_pll_range_index (rate parent_rate index : Z) (range : pll_mult_range)
    (pll : meson_clk_pll_data) : Z * Z * Z :=
  let n := u32 (index + 1) in
  if u32 (1 << width (p_n pll)) <=? n then (- EINVAL, 0, n)
  else if (n =? 1) && (rate <=? u64 (r_min range * parent_rate)) then (- ENODATA, r_min range, n)
  else if (n =? 1) && (u64 (r_max range * parent_rate) <=? rate) then (- ENODATA, r_max range, n)
  else
    let m := meson_clk_get_pll_range_m rate parent_rate n pll in
    if u32 (1 << width (p_m pll)) <=? m then (- EINVAL, m, n) else (0, m, n).

Definition meson_clk_get_pll_get_index (rate parent_rate index : Z) (pll : meson_clk_pll_data)
  : Z * Z * Z :=
  match p_range pll, p_table pll with
  | Some range, _ => meson_clk_get_pll_range_index rate parent_rate index range pll
  | None, Some table => meson_clk_get_pll_table_index index table
  | None, None => (- EINVAL, 0, 0)
  end.

(** The search loop from index [i]; the result is (best, *best_m, *best_n). *)
Fixpoint settings_loop (fuel : nat) (rate parent_rate : Z) (pll : meson_clk_pll_data)
    (i best best_m best_n : Z) : option (Z * Z * Z) :=
  match fuel with
  | O => None
  | S fuel =>
      let '(ret, m, n) := meson_clk_get_pll_get_index rate parent_rate i pll in
      if ret =? - EINVAL then Some (best, best_m, best_n)
      else
        let now := __pll_params_to_rate parent_rate m n 0 pll in
        let better := meson_clk_pll_is_better rate best now pll in
        let '(best, best_m, best_n) := if better then (now, m, n) else (best, best_m, best_n) in
        if better && (now =? rate) then Some (best, best_m, best_n)
        else if ret =? 0 then
          settings_loop fuel rate parent_rate pll (u32 (i + 1)) best best_m best_n
        else Some (best, best_m, best_n)
  end.

(** Iterations the search can need: every predivider, or every table entry
    and the terminator. *)
Definition settings_fuel (pll : meson_clk_pll_data) : nat :=
  match p_range pll, p_table pll with
  | Some _, _ => Z.to_nat (2 ^ width (p_n pll))
  | None, Some table => S (length table)
  | None, None => 1
  end.

(** Returns (ret, *best_m, *best_n). *)
Definition meson_clk_get_pll_settings (rate parent_rate : Z) (pll : meson_clk_pll_data)
  : option (Z * Z * Z) :=
  match settings_loop (settings_fuel pll) rate parent_rate pll 0 0 0 0 with
  | Some (best, m, n) => Some (if truthy best then 0 else - EINVAL, m, n)
  | None => None
  end.

(** ** The search *)

Lemma u32_succ (k : nat) : Z.of_nat k + 1 < 2 ^ 32 -> u32 (Z.of_nat k + 1) = Z.of_nat (S k).
Proof. intros. rewrite u32_small; lia. Qed.

Section Search.
Context (rate parent_rate : Z) (pll : meson_clk_pll_data).

Local Abbreviation index i := (meson_clk_get_pll_get_index rate parent_rate i pll).
Local Abbreviation rate_of m n := (__pll_params_to_rate parent_rate m n 0 pll).
Local Abbreviation better best now := (meson_clk_pll_is_better rate best now pll).

(** Index [i] is reached by the search and offers the setting (m, n). *)
Definition candidate (i : nat) (m n : Z) : Prop :=
  (forall j, (j < i)%nat -> fst (fst (index (Z.of_nat j))) = 0) /\
  exists ret, index (Z.of_nat i) = (ret, m, n) /\ ret <> - EINVAL.

(** The comparisons the search makes are free of wrap-around. *)
Definition rates_ok : Prop :=
  0 <= rate < 2 ^ 63 /\
  (forall i m n, candidate i m n -> 0 <= rate_of m n < 2 ^ 63).

Lemma is_better_trans best now c :
  better best c = false -> better best now = true -> better now c = false.
Proof.
  unfold meson_clk_pll_is_better. case_if; intros Hf Ht; b2p.
  - apply Z.ltb_ge. lia.
  - destruct (Z.leb_spec c rate); cbn in *; b2p; [|done]. apply Z.ltb_ge. lia.
Qed.

Lemma is_better_exact c : 0 <= rate < 2 ^ 63 -> 0 <= c < 2 ^ 63 -> better rate c = false.
Proof.
  intros Hr Hc. unfold meson_clk_pll_is_better. case_if.
  - rewrite !abs_ul_small by done. apply Z.ltb_ge. lia.
  - destruct (Z.leb_spec c rate); cbn; [|done]. apply Z.ltb_ge. lia.
Qed.

Lemma is_better_refl c : better c c = false.
Proof.
  unfold meson_clk_pll_is_better. rewrite !Z.ltb_irrefl, andb_false_r. by case_if.
Qed.

(** [best] is 0 or the rate of the stored setting, and nothing seen before
    index [k] beats it. *)
Definition search_inv (k : nat) (best m n : Z) : Prop :=
  (best <> 0 -> best = rate_of m n /\ exists i, candidate i m n) /\
  (best = 0 \/ better 0 best = true) /\
  (forall i m' n', (i < k)%nat -> candidate i m' n' -> better best (rate_of m' n') = false).

Lemma candidate_functional i m n m' n' : candidate i m n -> candidate i m' n' -> m = m' /\ n = n'.
Proof. intros [_ (r & E & _)] [_ (r' & E' & _)]. rewrite E in E'. by simplify_eq. Qed.

(** No candidate after an index the search cannot leave. *)
Lemma candidate_le i j m n :
  fst (fst (index (Z.of_nat i))) <> 0 -> candidate j m n -> (j <= i)%nat.
Proof. intros Hi [Hj _]. destruct (Nat.le_gt_cases j i); [done|]. by specialize (Hj i ltac:(lia)). Qed.

Lemma is_better_zero_trans best now :
  (best = 0 \/ better 0 best = true) -> better best now = true -> better 0 now = true.
Proof.
  intros [-> | Hb] Hn; [done|]. revert Hb Hn. unfold meson_clk_pll_is_better. case_if; intros; b2p.
  - apply Z.ltb_lt. lia.
  - apply andb_true_intro. split; [apply Z.leb_le | apply Z.ltb_lt]; lia.
Qed.

Lemma search_inv_step k best m n m' n' :
  search_inv k best m n -> candidate k m' n' ->
  let now := rate_of m' n' in
  let b := better best now in
  let '(best, m, n) := if b then (now, m', n') else (best, m, n) in
  search_inv (S k) best m n.
Proof.
  intros (Hb & Hz & Hs) Hc now b. destruct b eqn:Eb; repeat split.
  - eauto.
  - right. eapply is_better_zero_trans; eauto.
  - intros i m1 n1 Hi Hci. destruct (Nat.eq_dec i k) as [-> | ].
    + destruct (candidate_functional _ _ _ _ _ Hc Hci) as [<- <-]. apply is_better_refl.
    + eapply is_better_trans; [|exact Eb]. eapply (Hs i); [lia|done].
  - by apply Hb.
  - by apply Hb.
  - done.
  - intros i m1 n1 Hi Hci. destruct (Nat.eq_dec i k) as [-> | ].
    + by destruct (candidate_functional _ _ _ _ _ Hc Hci) as [<- <-].
    + eapply (Hs i); [lia|done].
Qed.

(** Result of the search: nothing that could be seen beats it. *)
Definition search_done (best m n : Z) : Prop :=
  (best <> 0 -> best = rate_of m n /\ exists i, candidate i m n) /\
  (best = 0 \/ better 0 best = true) /\
  (forall i m' n', candidate i m' n' -> better best (rate_of m' n') = false).

Lemma settings_loop_done fuel k best m n r :
  rates_ok -> (k + fuel < Z.to_nat (2 ^ 32))%nat ->
  (forall j, (j < k)%nat -> fst (fst (index (Z.of_nat j))) = 0) ->
  search_inv k best m n ->
  settings_loop fuel rate parent_rate pll (Z.of_nat k) best m n = Some r ->
  search_done r.1.1 r.1.2 r.2.
Proof.
  intros Hok. revert k best m n. induction fuel as [|fuel IH]; [done|]. intros k best m n Hk Hpre Hinv.
  cbn [settings_loop]. destruct (index (Z.of_nat k)) as [[ret m'] n'] eqn:Ei.
  assert (Hstop : forall b x y, search_inv (S k) b x y -> ret <> 0 -> search_done b x y).
  { intros b x y (H1 & Hz & H2) Hr. repeat split; try apply H1; try done. intros i ? ? Hc.
    eapply (H2 i); [|done]. apply (candidate_le k) in Hc; [lia|]. by rewrite Ei. }
  destruct (Z.eqb_spec ret (- EINVAL)) as [-> | Hne].
  { intros [= <-]. destruct Hinv as (H1 & Hz & H2). repeat split; try apply H1; try done.
    intros i m1 n1 Hc.
    assert (i <= k)%nat by (eapply candidate_le; [|exact Hc]; by rewrite Ei).
    destruct (Nat.eq_dec i k) as [-> | ]; [|eapply (H2 i); [lia|done]].
    destruct Hc as [_ (r' & E & ?)]. rewrite Ei in E. congruence. }
  assert (Hc : candidate k m' n') by (split; [done|]; eexists; split; [exact Ei|done]).
  pose proof (search_inv_step k best m n m' n' Hinv Hc) as Hstep. cbn zeta in Hstep |- *.
  destruct (better best (rate_of m' n')) eqn:Eb; cbn [andb].
  - destruct (Z.eqb_spec (rate_of m' n') rate) as [Hr | ].
    { intros [= <-]. cbn. destruct Hstep as (H1 & Hz & _). repeat split; try apply H1; try done.
      intros i m1 n1 Hci. rewrite Hr. apply is_better_exact; [apply Hok|]. by eapply Hok. }
    destruct (Z.eqb_spec ret 0) as [-> | ]; [|intros [= <-]; by apply Hstop].
    rewrite u32_succ by lia. apply IH; [lia| |done].
    intros j Hj. destruct (Nat.eq_dec j k) as [-> | ]; [by rewrite Ei|]. apply Hpre. lia.
  - destruct (Z.eqb_spec ret 0) as [-> | ]; [|intros [= <-]; by apply Hstop].
    rewrite u32_succ by lia. apply IH; [lia| |done].
    intros j Hj. destruct (Nat.eq_dec j k) as [-> | ]; [by rewrite Ei|]. apply Hpre. lia.
Qed.

(** The search ends no later than the first index that is refused. *)
Lemma settings_loop_total fuel k best m n :
  (k + fuel < Z.to_nat (2 ^ 32))%nat ->
  (exists j, (j < k + fuel)%nat /\ (k <= j)%nat /\ fst (fst (index (Z.of_nat j))) = - EINVAL) ->
  is_Some (settings_loop fuel rate parent_rate pll (Z.of_nat k) best m n).
Proof.
  revert k best m n. induction fuel as [|fuel IH]; intros k best m n Hk (j & Hj1 & Hj2 & Hj); [lia|].
  cbn [settings_loop]. destruct (index (Z.of_nat k)) as [[ret m'] n'] eqn:Ei. cbn zeta.
  destruct (Z.eqb_spec ret (- EINVAL)) as [-> | Hne]; [by eexists|].
  assert (j <> k) by (intros ->; rewrite Ei in Hj; cbn in Hj; congruence).
  rewrite u32_succ by lia. case_if; case_if; try (by eexists); case_if; try (by eexists);
    apply IH; try lia; exists j; repeat split; done || lia.
Qed.
End Search.

(** Field widths and table sizes met in the SoC files. *)
Definition search_static (pll : meson_clk_pll_data) : Prop :=
  0 <= width (p_n pll) <= 16 /\ 0 <= width (p_m pll) <= 16 /\
  Z.of_nat (length (default [] (p_table pll))) < 2 ^ 16.

Lemma settings_fuel_bound pll : search_static pll -> (settings_fuel pll < Z.to_nat (2 ^ 32))%nat.
Proof.
  intros (Hn & _ & Ht). unfold settings_fuel.
  assert (2 ^ width (p_n pll) <= 2 ^ 16) by (apply Z.pow_le_mono_r; lia).
  destruct (p_range pll), (p_table pll); cbn [from_option id] in *; lia.
Qed.

(** The index at which the search is stopped at the latest. *)
Lemma settings_last_index rate parent pll :
  search_static pll ->
  fst (fst (meson_clk_get_pll_get_index rate parent (Z.of_nat (settings_fuel pll - 1)) pll)) = - EINVAL.
Proof.
  intros (Hn & _ & Ht). unfold meson_clk_get_pll_get_index, settings_fuel.
  destruct (p_range pll) as [rg|].
  - unfold meson_clk_get_pll_range_index.
    assert (0 < 2 ^ width (p_n pll) <= 2 ^ 16) by (split; [|apply Z.pow_le_mono_r]; lia).
    replace (Z.of_nat _ + 1) with (2 ^ width (p_n pll)) by lia.
    rewrite Z.shiftl_mul_pow2, Z.mul_1_l, u32_small by lia. by rewrite Z.leb_refl.
  - destruct (p_table pll) as [t|]; [|done]. unfold meson_clk_get_pll_table_index.
    rewrite Nat2Z.id, lookup_ge_None_2 by lia. done.
Qed.

Lemma get_pll_settings_total rate parent pll :
  search_static pll -> is_Some (meson_clk_get_pll_settings rate parent pll).
Proof.
  intros Hst. unfold meson_clk_get_pll_settings.
  destruct (settings_loop_total rate parent pll (settings_fuel pll) 0 0 0 0) as [[[b m] n] E].
  - apply settings_fuel_bound in Hst. lia.
  - exists (settings_fuel pll - 1)%nat. assert (0 < settings_fuel pll)%nat.
    { unfold settings_fuel. pose proof (Z.pow_pos_nonneg 2 (width (p_n pll))).
      destruct Hst as (? & _). destruct (p_range pll), (p_table pll); lia. }
    repeat split; [lia..|]. by apply settings_last_index.
  - change (Z.of_nat 0) with 0 in E. rewrite E. by eexists.
Qed.

(** What the search returns: the best setting it can reach, or an error when
    none beats 0 Hz. *)
Lemma get_pll_settings_best rate parent pll :
  search_static pll -> rates_ok rate parent pll ->
  exists ret m n, meson_clk_get_pll_settings rate parent pll = Some (ret, m, n) /\
    let better best now := meson_clk_pll_is_better rate best now pll in
    let rate_of m n := __pll_params_to_rate parent m n 0 pll in
    (ret = 0 /\ (exists i, candidate rate parent pll i m n) /\
       better 0 (rate_of m n) = true /\
       (forall i m' n', candidate rate parent pll i m' n' ->
          better (rate_of m n) (rate_of m' n') = false)
     \/ ret = - EINVAL /\
       forall i m' n', candidate rate parent pll i m' n' -> better 0 (rate_of m' n') = false).
Proof.
  intros Hst Hok. destruct (get_pll_settings_total rate parent pll Hst) as [[[ret m] n] E].
  exists ret, m, n. split; [done|]. revert E. unfold meson_clk_get_pll_settings.
  destruct (settings_loop _ _ _ _ _ _ _ _) as [[[b x] y]|] eqn:El; [|done]. intros [= <- <- <-].
  apply (settings_loop_done rate parent pll (settings_fuel pll) 0 0 0 0) in El as (H1 & Hz & H2); cbn [fst snd] in *.
  - unfold truthy. destruct (Z.eqb_spec b 0) as [-> | Hb]; cbn; [by right|left].
    destruct (H1 Hb) as [-> Hc]. destruct Hz as [?|Hz]; [done|]. done.
  - done.
  - apply settings_fuel_bound in Hst. lia.
  - lia.
  - repeat split; try done; try lia; by left.
Qed.

Lemma params_to_rate_bound parent m n pll :
  0 <= parent < 2 ^ 32 -> 0 <= m < 2 ^ 30 -> 0 <= n < 2 ^ 32 ->
  0 <= __pll_params_to_rate parent m n 0 pll < 2 ^ 63.
Proof.
  intros Hp Hm Hn. unfold __pll_params_to_rate. cbn [truthy Z.eqb negb andb].
  set (p := if has pll CLK_MESON_PLL_FIXED_EN0P5 then _ else _).
  set (k := if has pll CLK_MESON_PLL_POWER_OF_TWO then _ else _).
  assert (0 <= p <= parent).
  { unfold p. case_if; [|lia]. rewrite Z.shiftr_div_pow2 by lia.
    pose proof (Z.mul_div_le parent (2 ^ 1)). pose proof (Z.div_pos parent (2 ^ 1)). lia. }
  assert (0 <= k < 2 ^ 32) by (unfold k; case_if; [apply u32_range|done]).
  rewrite u64_small by nia. case_if; [lia|].
  rewrite DIV_ROUND_UP_ULL_cdiv by nia. split; [apply cdiv_nonneg; nia|].
  assert (cdiv (p * m) k <= p * m); [|nia]. apply cdiv_le; nia.
Qed.

(** C22: table-driven PLLs, rounding down (no ROUND_CLOSEST, or a fractional
    field that takes over the rest), for requests below 2^63 and parent rates
    below 2^32, fewer than 2^16 entries with 0 < m < 2^30 and n below 2^32,
    and fields for n and m of at most 16 bits. The search always ends; when it
    succeeds the setting is an entry of the table, its rate is positive and
    does not exceed the request, and no entry of the table comes closer from
    below; it fails with -EINVAL exactly when no entry has a positive rate
    within the request. *)
Theorem pll_table_settings_optimal rate parent pll table :
  p_range pll = None -> p_table pll = Some table -> search_static pll ->
  __pll_round_closest_mult pll = false ->
  0 <= rate < 2 ^ 63 -> 0 <= parent < 2 ^ 32 ->
  Forall (fun e => 0 < t_m e < 2 ^ 30 /\ 0 <= t_n e < 2 ^ 32) table ->
  let rate_of e := __pll_params_to_rate parent (t_m e) (t_n e) 0 pll in
  exists ret m n, meson_clk_get_pll_settings rate parent pll = Some (ret, m, n) /\
    (ret = 0 /\
       (exists e, e ∈ table /\ t_m e = m /\ t_n e = n /\ 0 < rate_of e <= rate /\
          forall e', e' ∈ table -> rate_of e' <= rate -> rate_of e' <= rate_of e)
     \/ ret = - EINVAL /\ forall e, e ∈ table -> rate_of e <= 0 \/ rate < rate_of e).
Proof.
  intros Hr Ht Hst Hc Hrate Hp Hall rate_of.
  assert (Hidx : forall i, meson_clk_get_pll_get_index rate parent i pll
                           = meson_clk_get_pll_table_index i table).
  { intros. unfold meson_clk_get_pll_get_index. by rewrite Hr, Ht. }
  assert (Hcand : forall i m n, candidate rate parent pll i m n <->
                   exists e, table !! i = Some e /\ t_m e = m /\ t_n e = n).
  { intros i m n. unfold candidate. rewrite Forall_lookup in Hall. split.
    - intros [_ (ret & E & Hret)]. rewrite Hidx in E. unfold meson_clk_get_pll_table_index in E.
      rewrite Nat2Z.id in E. destruct (table !! i) as [e|] eqn:Ei; [|by simplify_eq].
      case_if_in E; [by simplify_eq|]. simplify_eq. eauto.
    - intros (e & Ei & <- & <-). split.
      + intros j Hj. rewrite Hidx. unfold meson_clk_get_pll_table_index. rewrite Nat2Z.id.
        apply lookup_lt_Some in Ei. destruct (lookup_lt_is_Some_2 table j) as [e' Ej]; [lia|].
        rewrite Ej. destruct (Hall _ _ Ej). case_if; [lia|done].
      + exists 0. rewrite Hidx. unfold meson_clk_get_pll_table_index. rewrite Nat2Z.id, Ei.
        destruct (Hall _ _ Ei). case_if; [lia|done]. }
  destruct (get_pll_settings_best rate parent pll Hst) as (ret & m & n & E & Hres).
  { split; [done|]. intros i m n (e & Ei & <- & <-)%Hcand. rewrite Forall_lookup in Hall.
    destruct (Hall _ _ Ei). apply params_to_rate_bound; lia. }
  exists ret, m, n. split; [done|]. cbn zeta in Hres. unfold meson_clk_pll_is_better in Hres.
  rewrite Hc in Hres. destruct Hres as [(-> & [i Hi] & Hb & Hbest)|[-> Hnone]]; [left|right].
  - split; [done|]. apply Hcand in Hi as (e & Ei & <- & <-). exists e. b2p.
    split; [by eapply list_elem_of_lookup_2|]. repeat split; [done..|]. intros e' Hin Hle.
    apply list_elem_of_lookup in Hin as [j Hj].
    specialize (Hbest j (t_m e') (t_n e') ltac:(apply Hcand; eauto)). fold (rate_of e') in Hbest.
    rewrite (proj2 (Z.leb_le _ _) Hle) in Hbest. cbn in Hbest. b2p. done.
  - split; [done|]. intros e Hin. apply list_elem_of_lookup in Hin as [j Hj].
    specialize (Hnone j (t_m e) (t_n e) ltac:(apply Hcand; eauto)). fold (rate_of e) in Hnone.
    apply andb_false_iff in Hnone as [?|?]; b2p; lia.
Qed.

(** ** The fractional part *)

(** The parent rate and the weight of [frac] as both directions use them. *)
Definition half_parent (pll : meson_clk_pll_data) (parent : Z) : Z :=
  if has pll CLK_MESON_PLL_FIXED_EN0P5 then parent >> 1 else parent.
Definition frac_weight (pll : meson_clk_pll_data) : Z :=
  if has pll CLK_MESON_PLL_FIXED_FRAC_WEIGHT_PRECISION then FIXED_FRAC_WEIGHT_PRECISION
  else u32 (1 << (width (p_frac pll) - 2)).

(** A PLL with a fractional field and a plain predivider; the field has room
    for the weight below its sign bit. *)
Record frac_static (pll : meson_clk_pll_data) : Prop := {
  fs_width : 2 < width (p_frac pll) <= 30;
  fs_weight : frac_weight pll <= 2 ^ (width (p_frac pll) - 1);
  fs_linear : has pll CLK_MESON_PLL_POWER_OF_TWO = false;
  fs_down : has pll CLK_MESON_PLL_ROUND_CLOSEST = false;
}.

(** No intermediate value leaves its C type. *)
Record frac_range (pll : meson_clk_pll_data) (rate parent m n : Z) : Prop := {
  fr_parent : 0 < half_parent pll parent < 2 ^ 32;
  fr_m : 0 <= m /\ m * frac_weight pll < 2 ^ 32;
  fr_n : 0 < n < 2 ^ 16;
  fr_rate : 0 <= rate /\ rate * n * frac_weight pll < 2 ^ 64;
}.

Lemma frac_weight_pos pll : frac_static pll -> 2 <= frac_weight pll < 2 ^ 30.
Proof.
  intros [Hw _ _ _]. unfold frac_weight, FIXED_FRAC_WEIGHT_PRECISION. case_if; [lia|].
  rewrite Z.shiftl_mul_pow2, Z.mul_1_l by lia.
  assert (2 ^ 1 <= 2 ^ (width (p_frac pll) - 2) <= 2 ^ 28) by (split; apply Z.pow_le_mono_r; lia).
  rewrite u32_small; lia.
Qed.

(** The rate of a parameter set whose [frac] is below its weight. *)
Lemma params_to_rate_frac pll parent rate m n f :
  frac_static pll -> frac_range pll rate parent m n -> 0 <= f < frac_weight pll ->
  __pll_params_to_rate parent m n f pll
  = cdiv (half_parent pll parent * m + cdiv (half_parent pll parent * f) (frac_weight pll)) n.
Proof.
  intros Hs [Hp Hm Hn _] Hf. pose proof (frac_weight_pos pll Hs) as HW. destruct Hs as [Hw Hmax Hpow _].
  unfold __pll_params_to_rate. rewrite Hpow. fold (half_parent pll parent) (frac_weight pll).
  set (P := half_parent pll parent) in *. set (W := frac_weight pll) in *.
  rewrite (proj2 (Z.ltb_lt _ _)), andb_true_r by lia. rewrite (proj2 (Z.eqb_neq n 0)) by lia.
  rewrite (u64_small (P * m)) by nia.
  assert (Hc : 0 <= cdiv (P * f) W <= P) by (split; [apply cdiv_nonneg|apply cdiv_le]; nia).
  replace (if truthy f then _ else P * m) with (P * m + cdiv (P * f) W).
  { rewrite DIV_ROUND_UP_ULL_cdiv by nia. done. }
  unfold truthy at 1. destruct (Z.eqb_spec f 0) as [-> | Hf0]; cbn [negb].
  { assert (cdiv (P * 0) W <= 0) by (apply cdiv_le; lia). lia. }
  assert (f .& (1 << (width (p_frac pll) - 1)) = 0) as ->.
  { apply Z.bits_inj'. intros i Hi.
    rewrite Z.land_spec, Z.bits_0, Z.shiftl_1_l, Z.pow2_bits_eqb by lia.
    destruct (Z.eqb_spec (width (p_frac pll) - 1) i) as [<- | ]; [|apply andb_false_r].
    by rewrite (testbit_above f (width (p_frac pll) - 1)) by lia. }
  cbn [truthy Z.eqb negb]. rewrite (u64_small (P * f)) by nia.
  rewrite DIV_ROUND_UP_ULL_cdiv by nia. rewrite u64_small; nia.
Qed.

(** [frac] before it is limited to the field. *)
Lemma params_with_frac_floor pll rate parent m n :
  frac_static pll -> frac_range pll rate parent m n ->
  cdiv (half_parent pll parent * m) n <= rate ->
  __pll_params_with_frac rate parent m n pll
  = Z.min (u32 (rate * n * frac_weight pll / half_parent pll parent - m * frac_weight pll))
      (frac_weight pll - 1).
Proof.
  intros Hs [Hp Hm Hn Hr] Hle. pose proof (frac_weight_pos pll Hs) as HW.
  destruct Hs as [Hw Hmax Hpow Hdown].
  unfold __pll_params_with_frac. rewrite Hpow, Hdown. cbn zeta iota beta.
  fold (half_parent pll parent) (frac_weight pll).
  set (P := half_parent pll parent) in *. set (W := frac_weight pll) in *.
  apply cdiv_le in Hle; [|lia]. unfold div_u64.
  rewrite (u64_small (P * m)), (u64_small (P * m)), (u32_small n) by nia.
  assert (P * m / n <= rate) by (apply Z.div_le_upper_bound; nia).
  rewrite (proj2 (Z.ltb_ge _ _)) by lia.
  rewrite (u64_small (rate * n)) by nia. rewrite !(u64_small (rate * n * W)), (u32_small P) by lia.
  rewrite (u32_small (m * W)), (u32_small (W - 1)) by nia.
  assert (m * W <= rate * n * W / P) by (apply Z.div_le_lower_bound; nia).
  assert (rate * n * W / P <= rate * n * W) by (apply Z.div_le_upper_bound; nia).
  f_equal. rewrite u64_small by nia. done.
Qed.

(** The base setting is not above the request, so the fraction is added
    without overshooting it. *)
Lemma params_with_frac_spec pll rate parent m n :
  frac_static pll -> frac_range pll rate parent m n ->
  __pll_params_to_rate parent m n 0 pll <= rate ->
  let f := __pll_params_with_frac rate parent m n pll in
  let rate' := __pll_params_to_rate parent m n f pll in
  0 <= f < frac_weight pll /\
  __pll_params_to_rate parent m n 0 pll <= rate' <= rate /\
  (rate * n < half_parent pll parent * (m + 1) ->
   (rate - rate') * n * frac_weight pll < half_parent pll parent).
Proof.
  intros Hs Hr Hle f rate'. pose proof (frac_weight_pos pll Hs) as HW.
  rewrite (params_to_rate_frac pll parent rate) in Hle by (done || lia).
  set (P := half_parent pll parent) in *. set (W := frac_weight pll) in *.
  assert (Hc0 : cdiv (P * 0) W = 0).
  { unfold cdiv. rewrite Z.mul_0_r. apply Z.div_small. lia. }
  rewrite Hc0, Z.add_0_r in Hle.
  pose proof (params_with_frac_floor pll rate parent m n Hs Hr Hle) as Hf. fold f P W in Hf.
  pose proof Hr as [Hp Hm Hn Hrate]. fold P W in Hp, Hm, Hrate.
  apply cdiv_le in Hle; [|lia].
  set (v := rate * n * W / P - m * W) in *.
  assert (Hv : 0 <= v /\ P * v <= (rate * n - P * m) * W < P * (v + 1)).
  { unfold v. pose proof (Z.mul_div_le (rate * n * W) P ltac:(lia)).
    pose proof (Z.mul_succ_div_gt (rate * n * W) P ltac:(lia)).
    assert (m * W <= rate * n * W / P) by (apply Z.div_le_lower_bound; nia). nia. }
  assert (Hf' : 0 <= f < W /\ P * f <= (rate * n - P * m) * W).
  { pose proof (u32_range v). assert (u32 v <= v) by (apply Z.mod_le; lia).
    split; [lia|]. assert (f <= v) by lia. nia. }
  destruct Hf' as [Hfr Hfv].
  assert (Hc : 0 <= cdiv (P * f) W <= rate * n - P * m).
  { split; [apply cdiv_nonneg; nia|]. apply cdiv_le; lia. }
  unfold rate'. rewrite !(params_to_rate_frac pll parent rate) by (done || lia). fold P W.
  rewrite Hc0, Z.add_0_r. split; [done|]. split; [split|].
  - apply cdiv_le; [lia|]. pose proof (cdiv_ge (P * m + cdiv (P * f) W) n). lia.
  - apply cdiv_le; lia.
  - intros Hclose. assert (v < W).
    { apply (Z.mul_lt_mono_pos_l P); [lia|]. apply (Z.le_lt_trans _ ((rate * n - P * m) * W)); [lia|].
      apply Z.mul_lt_mono_pos_r; lia. }
    assert (f = v) as -> by (rewrite u32_small in Hf; lia).
    pose proof (cdiv_ge (P * v) W). pose proof (cdiv_ge (P * m + cdiv (P * v) W) n).
    set (R := cdiv (P * m + cdiv (P * v) W) n) in *. set (c := cdiv (P * v) W) in *.
    assert ((rate - R) * n * W <= (rate * n - P * m - c) * W) by (apply Z.mul_le_mono_nonneg_r; lia).
    lia.
Qed.

End Pll.
