(* ===== verification/ClkPllOps.v ===== *)
(** * PLL operations (src/drivers/clk/meson/clk-pll.c, the clk_ops of the
      plain, PCIe and secure PLLs)

    Register side of the PLL driver on top of ClkPll (parameters) and Regmap
    (fields).  The framework calls clk_hw_is_enabled() and clk_hw_get_rate(),
    the module parameter bypass_clk_disable and the secure monitor are
    parameters.  The theorems: an enable that returns 0 leaves a PLL that is
    enabled, out of reset and locked; set_rate programs, in at most eleven
    attempts, exactly the parameters round_rate promised; suspend and resume
    bring back the programmed rate. *)

From S2P Require Import Prelude Regmap ClkPll.
From stdpp Require Import base list numbers gmap.

Local Open Scope Z_scope.
Local Open Scope cint_scope.

Module PllOps.
Import Pll.

Definition set_saved (pll : meson_clk_pll_data) (rate enabled : Z) : meson_clk_pll_data :=
  PllData (p_en pll) (p_m pll) (p_n pll) (p_frac pll) (p_l pll) (p_rst pll) (p_l_rst pll)
    (p_th pll) (p_fl pll) (p_od pll) (pcie_hcsl pll) (pcie_exen pll) (init_regs pll) (p_table pll)
    (p_range pll) (max_rate pll) (od_max pll) (smc_id pll) (flags pll) (secid_disable pll)
    (secid pll) (fixed_n pll) rate enabled.

Section Ops.
Context {R : Type} `{Regmap R}.
(** clk_hw_is_enabled(hw) and the module parameter bypass_clk_disable. *)
Context (clk_hw_is_enabled : R -> bool) (bypass_clk_disable : bool).
(** arm_smccc_smc(smc_id, args...): new state and res.a0. *)
Context (arm_smccc_smc : R -> Z -> list Z -> R * Z).
Implicit Types (map : R) (pll : meson_clk_pll_data).

Definition meson_clk_pll_recalc_rate map pll (parent_rate : Z) : Z :=
  let n := meson_parm_read map (p_n pll) in
  let m := meson_parm_read map (p_m pll) in
  let frac := if MESON_PARM_APPLICABLE (p_frac pll) then meson_parm_read map (p_frac pll) else 0 in
  __pll_params_to_rate parent_rate m n frac pll.

Definition meson_clk_pll_round_rate map pll (rate parent_rate : Z) : option Z :=
  match meson_clk_get_pll_settings rate parent_rate pll with
  | None => None
  | Some (ret, m, n) =>
      if truthy ret then Some (meson_clk_pll_recalc_rate map pll parent_rate)
      else
        let round := __pll_params_to_rate parent_rate m n 0 pll in
        if negb (MESON_PARM_APPLICABLE (p_frac pll)) || (rate =? round) then Some round
        else
          let frac := __pll_params_with_frac rate parent_rate m n pll in
          Some (__pll_params_to_rate parent_rate m n frac pll)
  end.

(** The do-while with [delay] polls left after this one. *)
Fixpoint wait_lock_loop (delay : nat) map pll : R * Z :=
  if truthy (meson_parm_read map (p_l pll)) then (map, 0)
  else
    let map := udelay map 1 in
    match delay with
    | O => (map, - ETIMEDOUT)
    | S delay => wait_lock_loop delay map pll
    end.

Definition meson_clk_pll_wait_lock map pll : R * Z := wait_lock_loop 1000 map pll.

Definition meson_clk_pll_init map pll : R :=
  if has pll CLK_MESON_PLL_IGNORE_INIT then map
  else if truthy (Z.of_nat (length (init_regs pll))) then
    let map := meson_parm_write map (p_rst pll) 1 in
    let map := fst (regmap_multi_reg_write map (init_regs pll)) in
    meson_parm_write map (p_rst pll) 0
  else map.

Definition meson_clk_pll_is_enabled map pll : Z :=
  if truthy (meson_parm_read map (p_en pll)) && truthy (meson_parm_read map (p_l pll))
  then 1 else 0.

(** The first do-while of the PCIe enable; [inl] is a return, [inr] the value
    of [retry] after the loop. *)
Fixpoint pcie_lock_loop (retry : nat) map pll : R * (Z + Z) :=
  let map := meson_clk_pll_init map pll in
  let '(map, ret) := meson_clk_pll_wait_lock map pll in
  if negb (truthy ret) then
    if negb (MESON_PARM_APPLICABLE (pcie_hcsl pll)) then (map, inl 0)
    else (map, inr (Z.of_nat retry))
  else
    match retry with
    | O => (map, inr (-1))
    | S retry => pcie_lock_loop retry map pll
    end.

Fixpoint pcie_hcsl_loop (ret : nat) map pll : R * Z :=
  if truthy (meson_parm_read map (pcie_hcsl pll)) then
    (meson_parm_write map (pcie_exen pll) 0, 0)
  else
    let map := udelay map 1 in
    match ret with
    | O => (map, - EIO)
    | S ret => pcie_hcsl_loop ret map pll
    end.

Definition meson_clk_pcie_pll_enable map pll : R * Z :=
  match pcie_lock_loop 10 map pll with
  | (map, inl ret) => (map, ret)
  | (map, inr retry) =>
      if retry <=? 0 then (map, - EIO)
      else if negb (MESON_PARM_APPLICABLE (pcie_hcsl pll)) then (map, 0)
      else pcie_hcsl_loop 10 map pll
  end.

(** Level of the reset line while the PLL is held in / out of reset. *)
Definition reset_on pll : Z := if has pll CLK_MESON_PLL_RSTN then 0 else 1.
Definition reset_off pll : Z := if has pll CLK_MESON_PLL_RSTN then 1 else 0.

Definition meson_clk_pll_enable map pll : R * Z :=
  if clk_hw_is_enabled map then (map, 0)
  else
    let map := meson_parm_write map (p_rst pll) (reset_on pll) in
    let map := meson_parm_write map (p_en pll) 1 in
    let map :=
      if MESON_PARM_APPLICABLE (p_l_rst pll)
      then meson_parm_write map (p_l_rst pll) (reset_on pll) else map in
    let map := udelay map 50 in
    let map := meson_parm_write map (p_rst pll) (reset_off pll) in
    let map :=
      if MESON_PARM_APPLICABLE (p_l_rst pll)
      then meson_parm_write (udelay map 20) (p_l_rst pll) (reset_off pll) else map in
    let '(map, ret) := meson_clk_pll_wait_lock map pll in
    if truthy ret then (map, - EIO) else (map, 0).

Definition meson_clk_pll_disable map pll : R :=
  if bypass_clk_disable then map
  else
    let map := meson_parm_write map (p_rst pll) (reset_on pll) in
    meson_parm_write map (p_en pll) 0.

(** One pass from the label [retry] to the call of enable. *)
Definition set_rate_attempt map pll (rate parent_rate m n : Z) : R * Z :=
  let enabled := meson_clk_pll_is_enabled map pll in
  let map :=
    if (negb (meson_parm_read map (p_m pll) =? m) || negb (meson_parm_read map (p_n pll) =? n))
       && truthy enabled
    then meson_clk_pll_disable map pll else map in
  let map := meson_parm_write map (p_n pll) n in
  let map := meson_parm_write map (p_m pll) m in
  let map :=
    if MESON_PARM_APPLICABLE (p_frac pll) then
      let frac := __pll_params_with_frac rate parent_rate m n pll in
      meson_parm_write map (p_frac pll) frac
    else map in
  meson_clk_pll_enable map pll.

(** [retries] is 10 - retry_cnt. *)
Fixpoint set_rate_loop (retries : nat) map pll (rate parent_rate m n : Z) : R * Z :=
  let '(map, ret) := set_rate_attempt map pll rate parent_rate m n in
  if truthy ret then
    match retries with
    | O => (map, ret)
    | S retries => set_rate_loop retries map pll rate parent_rate m n
    end
  else (map, ret).

Definition meson_clk_pll_set_rate map pll (rate parent_rate : Z) : option (R * Z) :=
  if (parent_rate =? 0) || (rate =? 0) then Some (map, - EINVAL)
  else
    match meson_clk_get_pll_settings rate parent_rate pll with
    | None => None
    | Some (ret, m, n) =>
        if truthy ret then Some (map, ret)
        else Some (set_rate_loop 10 map pll rate parent_rate m n)
    end.

(** [parent_rate] is clk_hw_get_rate(clk_hw_get_parent(hw)). *)
Definition meson_clk_pll_save_context map pll (parent_rate : Z) : meson_clk_pll_data :=
  set_saved pll (meson_clk_pll_recalc_rate map pll parent_rate) (meson_clk_pll_is_enabled map pll).

Definition meson_clk_pll_restore_context map pll (parent_rate : Z) : option R :=
  let map :=
    if negb (truthy (meson_clk_pll_is_enabled map pll))
       && truthy (Z.of_nat (length (init_regs pll))) then
      let map := meson_parm_write map (p_rst pll) 1 in
      let map := fst (regmap_multi_reg_write map (init_regs pll)) in
      meson_parm_write map (p_rst pll) 0
    else map in
  if has pll CLK_MESON_PLL_IGNORE_RESTORE then Some map
  else
    match meson_clk_pll_set_rate map pll (saved_rate pll) parent_rate with
    | None => None
    | Some (map, _) =>
        Some (if truthy (saved_is_enabled pll) then fst (meson_clk_pll_enable map pll)
              else meson_clk_pll_disable map pll)
    end.

Definition meson_clk_pcie_pll_save_context map pll : meson_clk_pll_data :=
  set_saved pll (saved_rate pll) (meson_clk_pll_is_enabled map pll).

Definition meson_clk_pcie_pll_restore_context map pll : R :=
  if truthy (saved_is_enabled pll) then fst (meson_clk_pcie_pll_enable map pll)
  else meson_clk_pll_disable map pll.

(** ** Secure PLLs: the registers are written by the secure monitor *)

Definition meson_secure_pll_v2_disable map pll : R :=
  if bypass_clk_disable then map
  else fst (arm_smccc_smc map (smc_id pll) [secid_disable pll; 0; 0; 0; 0; 0; 0]).

Definition meson_secure_pll_v2_set_rate map pll (rate parent_rate : Z) : option (R * Z) :=
  if (parent_rate =? 0) || (rate =? 0) then Some (map, - EINVAL)
  else
    match meson_clk_get_pll_settings rate parent_rate pll with
    | None => None
    | Some (ret, m, n) =>
        if truthy ret then Some (map, ret)
        else
          let map := if truthy (meson_parm_read map (p_en pll))
                     then meson_secure_pll_v2_disable map pll else map in
          Some (fst (arm_smccc_smc map (smc_id pll) [secid pll; m; n; 0; 0; 0; 0]), 0)
    end.

Definition meson_secure_pll_v2_enable map pll : R * Z :=
  if clk_hw_is_enabled map then (map, 0)
  else
    let n := meson_parm_read map (p_n pll) in
    let m := meson_parm_read map (p_m pll) in
    let od := meson_parm_read map (p_od pll) in
    (fst (arm_smccc_smc map (smc_id pll) [secid pll; m; n; od; 0; 0; 0]), 0).

Definition meson_secure_pll_v2_restore_context map pll (parent_rate : Z) : option R :=
  if negb (truthy (meson_clk_pll_is_enabled map pll)) then
    match meson_secure_pll_v2_set_rate map pll (saved_rate pll) parent_rate with
    | None => None
    | Some (map, _) =>
        Some (if truthy (saved_is_enabled pll) then fst (meson_secure_pll_v2_enable map pll)
              else meson_secure_pll_v2_disable map pll)
    end
  else Some map.

End Ops.

(** ** Well-formed descriptions *)

Definition opt_field (p : parm) : list parm := if MESON_PARM_APPLICABLE p then [p] else [].

(** The fields that switch the PLL and those that hold its parameters. *)
Definition ctl_fields (pll : meson_clk_pll_data) : list parm :=
  p_rst pll :: p_en pll :: opt_field (p_l_rst pll).
Definition par_fields (pll : meson_clk_pll_data) : list parm :=
  p_n pll :: p_m pll :: opt_field (p_frac pll).

(** Every setting the search can return fits its field. *)
Definition setting_fits (pll : meson_clk_pll_data) (m n : Z) : Prop :=
  0 <= m < 2 ^ width (p_m pll) /\ 0 <= n < 2 ^ width (p_n pll).
Definition settings_fit (pll : meson_clk_pll_data) : Prop :=
  match p_range pll, p_table pll with
  | Some r, _ => 0 <= r_min r < 2 ^ width (p_m pll) /\ 0 <= r_max r < 2 ^ width (p_m pll)
  | None, Some t => Forall (fun e => setting_fits pll (t_m e) (t_n e)) t
  | None, None => True
  end.

Lemma candidate_fits rate parent pll i m n :
  search_static pll -> settings_fit pll -> candidate rate parent pll i m n -> setting_fits pll m n.
Proof.
  intros (Hn & Hm & _) Hfit [_ (ret & E & Hret)]. revert E.
  unfold meson_clk_get_pll_get_index, settings_fit in *. destruct (p_range pll) as [r|].
  - unfold meson_clk_get_pll_range_index. set (k := u32 (Z.of_nat i + 1)).
    assert (0 < 2 ^ width (p_n pll) <= 2 ^ 16) by (split; [|apply Z.pow_le_mono_r]; lia).
    assert (0 < 2 ^ width (p_m pll) <= 2 ^ 16) by (split; [|apply Z.pow_le_mono_r]; lia).
    rewrite !Z.shiftl_mul_pow2, !Z.mul_1_l, !u32_small by lia.
    pose proof (u32_range (Z.of_nat i + 1)) as Hk. fold k in Hk.
    assert (0 <= meson_clk_get_pll_range_m rate parent k pll) by (apply u32_range).
    destruct (Z.leb_spec (2 ^ width (p_n pll)) k); [by intros [= <- <- <-]|].
    unfold setting_fits. case_if; [intros [= <- <- <-]; lia|]. case_if; [intros [= <- <- <-]; lia|].
    case_if; intros [= <- <- <-]; [done|lia].
  - destruct (p_table pll) as [t|]; [|by intros [= <- <- <-]].
    unfold meson_clk_get_pll_table_index. destruct (t !! _) as [e|] eqn:Et; [|by intros [= <- <- <-]].
    case_if; [by intros [= <- <- <-]|]. intros [= <- <- <-].
    rewrite Forall_lookup in Hfit. by eapply Hfit.
Qed.

Lemma static_rates_ok rate parent pll :
  search_static pll -> settings_fit pll -> 0 <= rate < 2 ^ 63 -> 0 <= parent < 2 ^ 32 ->
  rates_ok rate parent pll.
Proof.
  intros Hst Hfit Hr Hp. split; [done|]. intros i m n Hc.
  apply candidate_fits in Hc as [Hm Hn]; [|done..]. destruct Hst as (Wn & Wm & _).
  assert (2 ^ width (p_n pll) <= 2 ^ 16) by (apply Z.pow_le_mono_r; lia).
  assert (2 ^ width (p_m pll) <= 2 ^ 16) by (apply Z.pow_le_mono_r; lia).
  apply params_to_rate_bound; lia.
Qed.

(** Outcome of the search on a well-formed PLL. *)
Lemma settings_cases rate parent pll :
  search_static pll -> settings_fit pll -> 0 <= rate < 2 ^ 63 -> 0 <= parent < 2 ^ 32 ->
  exists ret m n, meson_clk_get_pll_settings rate parent pll = Some (ret, m, n) /\
    (ret = - EINVAL \/
     ret = 0 /\ setting_fits pll m n /\
     meson_clk_pll_is_better rate 0 (__pll_params_to_rate parent m n 0 pll) pll = true).
Proof.
  intros Hst Hfit Hr Hp.
  destruct (get_pll_settings_best rate parent pll Hst) as (ret & m & n & E & Hres);
    [by apply static_rates_ok|].
  exists ret, m, n. split; [done|]. destruct Hres as [(-> & [i Hc] & Hb & _)|[-> _]]; [right|by left].
  split; [done|]. split; [|done]. by eapply candidate_fits.
Qed.

Section Spec.
Context {R : Type} `{RegmapOk R}.
Context (clk_hw_is_enabled : R -> bool) (bypass_clk_disable : bool) (pll : meson_clk_pll_data).
Implicit Types (map : R).

Local Abbreviation enable map := (meson_clk_pll_enable clk_hw_is_enabled map pll).
Local Abbreviation disable map := (meson_clk_pll_disable bypass_clk_disable map pll).

Definition pll_wf : Prop := fields_ok (ctl_fields pll ++ par_fields pll).

Lemma wo_if l (b : bool) map map1 map2 :
  writes_only l map map1 -> writes_only l map map2 ->
  writes_only l map (if b then map1 else map2).
Proof. by destruct b. Qed.

Lemma wait_lock_spec map :
  let '(map', ret) := meson_clk_pll_wait_lock map pll in
  writes_only [] map map' /\
  (ret = 0 /\ meson_parm_read map' (p_l pll) <> 0 \/ ret = - ETIMEDOUT).
Proof.
  unfold meson_clk_pll_wait_lock. generalize 1000%nat as k. intros k. revert map.
  induction k as [|k IH]; intros map; cbn [wait_lock_loop];
    (destruct (truthy (meson_parm_read map (p_l pll))) eqn:E;
     [split; [constructor|left; split; [done|]; unfold truthy in E; b2p; done]|]).
  - split; [|by right]. eauto with frame.
  - specialize (IH (udelay map 1)). destruct (wait_lock_loop _ _ _) as [map' ret].
    destruct IH as [IH ?]. split; [|done]. eapply wo_trans; [|exact IH]. eauto with frame.
Qed.

Lemma elem_ctl_l_rst : MESON_PARM_APPLICABLE (p_l_rst pll) = true -> p_l_rst pll ∈ ctl_fields pll.
Proof. intros E. unfold ctl_fields, opt_field. rewrite E. in_list. Qed.

Lemma elem_ctl_rst : p_rst pll ∈ ctl_fields pll. Proof. unfold ctl_fields, par_fields. in_list. Qed.
Lemma elem_ctl_en : p_en pll ∈ ctl_fields pll. Proof. unfold ctl_fields, par_fields. in_list. Qed.
Hint Resolve elem_ctl_rst elem_ctl_en elem_ctl_l_rst : frame.

(** Enabling and disabling touch the control fields only. *)
Lemma enable_writes map : writes_only (ctl_fields pll) map (enable map).1.
Proof.
  unfold meson_clk_pll_enable. destruct (clk_hw_is_enabled map); [constructor|].
  match goal with |- context [meson_clk_pll_wait_lock ?x pll] => pose proof (wait_lock_spec x) as Hw;
    destruct (meson_clk_pll_wait_lock x pll) as [map' ret] end.
  destruct Hw as [Hw _]. apply (wo_mono _ (ctl_fields pll)) in Hw; [|by intros ? ?%elem_of_nil].
  replace (if truthy ret then _ else _).1 with map' by (by case_if).
  eapply wo_trans; [|exact Hw].
  destruct (MESON_PARM_APPLICABLE (p_l_rst pll)) eqn:E; frame_steps.
Qed.

Lemma disable_writes map : writes_only (ctl_fields pll) map (disable map).
Proof.
  unfold meson_clk_pll_disable. case_if; [constructor|]. frame_steps.
Qed.

Lemma par_read map map' q :
  pll_wf -> q ∈ par_fields pll -> writes_only (ctl_fields pll) map map' ->
  meson_parm_read map' q = meson_parm_read map q.
Proof.
  intros ((Hc & _) & (Hw & Hst & _) & Hd)%fields_ok_app Hq Hwo. rewrite Forall_forall in *.
  eapply wo_read; eauto.
Qed.

Lemma one_mod_width p : parm_wf p -> 1 mod 2 ^ width p = 1.
Proof.
  intros (_ & Hw & _). assert (2 ^ 1 <= 2 ^ width p) by (apply Z.pow_le_mono_r; lia).
  apply Z.mod_small. lia.
Qed.

Lemma reset_off_mod p : parm_wf p -> reset_off pll mod 2 ^ width p = reset_off pll.
Proof.
  intros Hp. unfold reset_off. case_if; [by apply one_mod_width|]. apply Z.mod_0_l.
  destruct Hp. assert (0 < 2 ^ width p) by (apply Z.pow_pos_nonneg; lia). lia.
Qed.

Lemma ctl_facts :
  pll_wf ->
  (parm_wf (p_rst pll) /\ parm_stable (p_rst pll)) /\ (parm_wf (p_en pll) /\ parm_stable (p_en pll)) /\
  parm_disjoint (p_rst pll) (p_en pll) /\
  (MESON_PARM_APPLICABLE (p_l_rst pll) = true ->
   parm_wf (p_l_rst pll) /\ parm_disjoint (p_l_rst pll) (p_en pll) /\
   parm_disjoint (p_l_rst pll) (p_rst pll)).
Proof.
  intros ((Hw & Hs & Hd) & _)%fields_ok_app. unfold ctl_fields, opt_field in *.
  repeat match goal with H : Forall _ (_ :: _) |- _ => apply Forall_cons_1 in H as [? ?] end.
  inversion Hd as [|? ? Hd1 Hd']; subst. apply Forall_cons_1 in Hd1 as [? ?]. inversion Hd'; subst.
  repeat (split; [by auto|]). intros E. rewrite E in *.
  repeat match goal with H : Forall _ [_] |- _ => apply Forall_cons_1 in H as [? _] end.
  split; [done|]. split; by apply parm_disjoint_sym.
Qed.

Lemma enable_spec map :
  pll_wf -> clk_hw_is_enabled map = false ->
  let '(map', ret) := enable map in
  meson_parm_read map' (p_en pll) = 1 /\
  meson_parm_read map' (p_rst pll) = reset_off pll /\
  (ret = 0 /\ meson_parm_read map' (p_l pll) <> 0 \/ ret = - EIO).
Proof.
  intros Hwf Hoff. destruct (ctl_facts Hwf) as ((? & ?) & (? & ?) & ? & Hl).
  unfold meson_clk_pll_enable. rewrite Hoff.
  match goal with |- context [meson_clk_pll_wait_lock ?x pll] => set (map5 := x) end.
  pose proof (wait_lock_spec map5) as Hw.
  destruct (meson_clk_pll_wait_lock map5 pll) as [map' ret]. destruct Hw as [Hw Hret].
  assert (E1 : meson_parm_read map5 (p_en pll) = 1 mod 2 ^ width (p_en pll)).
  { unfold map5. destruct (MESON_PARM_APPLICABLE (p_l_rst pll));
      [destruct Hl as (? & ? & ?); [done|]|];
      repeat (rewrite ?parm_read_udelay, ?parm_read_write by done;
              rewrite ?parm_read_write_other by done); done. }
  assert (E2 : meson_parm_read map5 (p_rst pll) = reset_off pll mod 2 ^ width (p_rst pll)).
  { unfold map5. destruct (MESON_PARM_APPLICABLE (p_l_rst pll));
      [destruct Hl as (? & ? & ?); [done|]; rewrite parm_read_write_other, parm_read_udelay by done|];
      by rewrite parm_read_write by done. }
  rewrite one_mod_width in E1 by done. rewrite reset_off_mod in E2 by done.
  assert (Hk : forall q, parm_wf q -> parm_stable q -> meson_parm_read map' q = meson_parm_read map5 q).
  { intros q ? ?. apply (wo_read []); [done..|]. intros p Hp. by apply elem_of_nil in Hp. }
  rewrite <- (Hk (p_en pll)) in E1 by done. rewrite <- (Hk (p_rst pll)) in E2 by done.
  destruct Hret as [[-> Hl']| ->]; [change (truthy 0) with false | change (truthy _) with true];
    cbv iota; tauto.
Qed.

(** The framework asks the driver: clk_hw_is_enabled() is true only for a PLL
    whose is_enabled operation says so. *)
Definition hw_enabled_ok : Prop :=
  forall map, clk_hw_is_enabled map = true -> meson_clk_pll_is_enabled map pll = 1.

Lemma enable_result map :
  pll_wf -> hw_enabled_ok ->
  let '(map', ret) := enable map in
  (ret = 0 \/ ret = - EIO) /\ (ret = 0 -> meson_clk_pll_is_enabled map' pll = 1).
Proof.
  intros Hwf Hhw. destruct (clk_hw_is_enabled map) eqn:E.
  - unfold meson_clk_pll_enable. rewrite E. auto.
  - pose proof (enable_spec map Hwf E) as Hs. destruct (enable map) as [map' ret].
    destruct Hs as (He & _ & Hr). split; [tauto|]. intros ->.
    destruct Hr as [[_ Hl]|?]; [|done]. unfold meson_clk_pll_is_enabled. rewrite He.
    unfold truthy. by rewrite (proj2 (Z.eqb_neq _ _) Hl).
Qed.

Lemma par_facts :
  pll_wf ->
  (parm_wf (p_n pll) /\ parm_stable (p_n pll)) /\ (parm_wf (p_m pll) /\ parm_stable (p_m pll)) /\
  parm_disjoint (p_m pll) (p_n pll) /\
  (MESON_PARM_APPLICABLE (p_frac pll) = true ->
   (parm_wf (p_frac pll) /\ parm_stable (p_frac pll)) /\ parm_disjoint (p_frac pll) (p_n pll) /\
   parm_disjoint (p_frac pll) (p_m pll)).
Proof.
  intros (_ & (Hw & Hs & Hd) & _)%fields_ok_app. unfold par_fields, opt_field in *.
  repeat match goal with H : Forall _ (_ :: _) |- _ => apply Forall_cons_1 in H as [? ?] end.
  inversion Hd as [|? ? Hd1 Hd']; subst. apply Forall_cons_1 in Hd1 as [? ?]. inversion Hd'; subst.
  split; [done|]. split; [done|]. split; [by apply parm_disjoint_sym|]. intros E. rewrite E in *.
  repeat match goal with H : Forall _ [_] |- _ => apply Forall_cons_1 in H as [? _] end.
  split; [done|]. split; by apply parm_disjoint_sym.
Qed.

(** The parameter fields hold the setting and its fraction. *)
Definition programmed map (rate parent m n : Z) : Prop :=
  meson_parm_read map (p_n pll) = n /\ meson_parm_read map (p_m pll) = m /\
  (MESON_PARM_APPLICABLE (p_frac pll) = true ->
   meson_parm_read map (p_frac pll) = __pll_params_with_frac rate parent m n pll).

Lemma elem_par_n : p_n pll ∈ par_fields pll. Proof. unfold ctl_fields, par_fields. in_list. Qed.
Lemma elem_par_m : p_m pll ∈ par_fields pll. Proof. unfold ctl_fields, par_fields. in_list. Qed.
Lemma elem_par_frac : MESON_PARM_APPLICABLE (p_frac pll) = true -> p_frac pll ∈ par_fields pll.
Proof. intros E. unfold par_fields, opt_field. rewrite E. in_list. Qed.

(** The fraction fits its field. *)
Definition frac_fits (rate parent m n : Z) : Prop :=
  MESON_PARM_APPLICABLE (p_frac pll) = true ->
  0 <= __pll_params_with_frac rate parent m n pll < 2 ^ width (p_frac pll).

Lemma programmed_ctl map map' rate parent m n :
  pll_wf -> programmed map rate parent m n -> writes_only (ctl_fields pll) map map' ->
  programmed map' rate parent m n.
Proof.
  intros Hwf (Hn & Hm & Hf) Hwo. repeat split; [| |intros E; rewrite <- (Hf E)].
  - by rewrite (par_read map map') by auto using elem_par_n.
  - by rewrite (par_read map map') by auto using elem_par_m.
  - by apply par_read; auto using elem_par_frac.
Qed.

Lemma attempt_spec map rate parent m n :
  pll_wf -> hw_enabled_ok -> setting_fits pll m n -> frac_fits rate parent m n ->
  let '(map', ret) := set_rate_attempt clk_hw_is_enabled bypass_clk_disable map pll rate parent m n in
  programmed map' rate parent m n /\
  (ret = 0 \/ ret = - EIO) /\ (ret = 0 -> meson_clk_pll_is_enabled map' pll = 1).
Proof.
  intros Hwf Hhw [Hm Hn] Hf. unfold set_rate_attempt.
  match goal with |- context [enable ?x] => set (map2 := x) end.
  pose proof (enable_result map2 Hwf Hhw) as He. pose proof (enable_writes map2) as Hw.
  destruct (enable map2) as [map' ret]. split; [|done]. cbn [fst] in Hw.
  eapply programmed_ctl; [done| |exact Hw]. unfold map2. clear He Hw map2.
  destruct (par_facts Hwf) as ((? & ?) & (? & ?) & ? & Hfr).
  match goal with |- context [meson_parm_write ?x (p_n pll) n] => generalize x; intros map1 end.
  unfold programmed, frac_fits in *. destruct (MESON_PARM_APPLICABLE (p_frac pll)).
  - destruct Hfr as ((? & ?) & ? & ?); [done|]. specialize (Hf eq_refl).
    repeat split; intros; read_writes.
  - repeat split; intros; read_writes.
Qed.

Lemma set_rate_loop_spec k map rate parent m n :
  pll_wf -> hw_enabled_ok -> setting_fits pll m n -> frac_fits rate parent m n ->
  let '(map', ret) := set_rate_loop clk_hw_is_enabled bypass_clk_disable k map pll rate parent m n in
  programmed map' rate parent m n /\
  (ret = 0 \/ ret = - EIO) /\ (ret = 0 -> meson_clk_pll_is_enabled map' pll = 1).
Proof.
  intros Hwf Hhw Hs Hf. revert map. induction k as [|k IH]; intros map; cbn [set_rate_loop];
    pose proof (attempt_spec map rate parent m n Hwf Hhw Hs Hf) as Ha;
    destruct (set_rate_attempt _ _ _ _ _ _ _ _) as [map' ret]; destruct (truthy ret); auto.
  apply IH.
Qed.

(** The rate the registers give once the setting is programmed. *)
Lemma programmed_recalc map rate parent m n :
  programmed map rate parent m n ->
  meson_clk_pll_recalc_rate map pll parent
  = __pll_params_to_rate parent m n
      (if MESON_PARM_APPLICABLE (p_frac pll) then __pll_params_with_frac rate parent m n pll else 0) pll.
Proof.
  intros (Hn & Hm & Hf). unfold meson_clk_pll_recalc_rate. rewrite Hn, Hm.
  destruct (MESON_PARM_APPLICABLE (p_frac pll)); [by rewrite Hf|done].
Qed.

(** Ranges of rates and fields for which the arithmetic of a fractional PLL
    does not overflow. *)
Definition frac_ok (rate parent : Z) : Prop :=
  MESON_PARM_APPLICABLE (p_frac pll) = true ->
  frac_static pll /\ 0 < half_parent pll parent < 2 ^ 32 /\
  2 ^ width (p_m pll) * frac_weight pll <= 2 ^ 32 /\
  rate * 2 ^ width (p_n pll) * frac_weight pll < 2 ^ 64.

Lemma setting_frac_range rate parent m n :
  search_static pll -> MESON_PARM_APPLICABLE (p_frac pll) = true -> frac_ok rate parent ->
  0 <= rate -> setting_fits pll m n ->
  meson_clk_pll_is_better rate 0 (__pll_params_to_rate parent m n 0 pll) pll = true ->
  frac_static pll /\ frac_range pll rate parent m n /\ __pll_params_to_rate parent m n 0 pll <= rate.
Proof.
  intros Hst Ha Hok Hr [Hm Hn] Hb. destruct (Hok Ha) as (Hs & Hp & HM & HN).
  pose proof (frac_weight_pos pll Hs) as HW.
  unfold meson_clk_pll_is_better, __pll_round_closest_mult in Hb.
  rewrite (fs_down pll Hs) in Hb. cbn [andb] in Hb. b2p.
  assert (n <> 0).
  { intros ->. unfold __pll_params_to_rate in *. rewrite (fs_linear pll Hs) in *. cbn in *. lia. }
  destruct Hst as (Wn & _).
  assert (2 ^ width (p_n pll) <= 2 ^ 16) by (apply Z.pow_le_mono_r; lia).
  split; [done|]. split; [|done]. split; [done| |lia|]; split; try lia; nia.
Qed.

Lemma setting_frac_fits rate parent m n :
  search_static pll -> frac_ok rate parent -> 0 <= rate -> setting_fits pll m n ->
  meson_clk_pll_is_better rate 0 (__pll_params_to_rate parent m n 0 pll) pll = true ->
  frac_fits rate parent m n.
Proof.
  intros Hst Hok Hr Hfit Hb Ha.
  destruct (setting_frac_range rate parent m n) as (Hs & Hfr & Hle); [done..|].
  destruct (params_with_frac_spec pll rate parent m n Hs Hfr Hle) as (Hf & _).
  destruct Hs as [Hw Hmax _ _].
  assert (2 ^ (width (p_frac pll) - 1) <= 2 ^ width (p_frac pll)) by (apply Z.pow_le_mono_r; lia). lia.
Qed.

(** The rate announced is the rate of the registers once they are programmed. *)
Lemma round_rate_programmed map map' rate parent m n :
  search_static pll -> frac_ok rate parent -> 0 <= rate -> setting_fits pll m n ->
  meson_clk_pll_is_better rate 0 (__pll_params_to_rate parent m n 0 pll) pll = true ->
  meson_clk_get_pll_settings rate parent pll = Some (0, m, n) -> programmed map' rate parent m n ->
  meson_clk_pll_round_rate map pll rate parent = Some (meson_clk_pll_recalc_rate map' pll parent).
Proof.
  intros Hst Hok Hr Hfits Hb E Hprog. unfold meson_clk_pll_round_rate. rewrite E.
  change (truthy 0) with false. cbv iota.
  rewrite (programmed_recalc map' rate parent m n Hprog). cbn zeta.
  destruct (MESON_PARM_APPLICABLE (p_frac pll)) eqn:Ea; cbn [negb orb]; [|done].
  destruct (Z.eqb_spec rate (__pll_params_to_rate parent m n 0 pll)) as [Heq | ]; [|done].
  destruct (setting_frac_range rate parent m n) as (Hs & Hfr & Hle); [done || lia..|].
  destruct (params_with_frac_spec pll rate parent m n Hs Hfr Hle) as (_ & Hx & _). f_equal. lia.
Qed.

(** C20: after meson_clk_pll_set_rate, on every outcome (success, a PLL that
    does not lock in eleven attempts, a request without a setting), the rate
    computed from the registers is the one meson_clk_pll_round_rate announced;
    a return value 0 means the PLL is enabled and locked, an error is -EIO, or
    -EINVAL with the registers untouched. The PLL has no fractional field, or
    one with neither ROUND_CLOSEST nor POWER_OF_TWO (with ROUND_CLOSEST the
    two rates can differ), and rates for which its arithmetic fits 64 bits;
    its fields do not overlap, are not changed by the hardware, have at most
    16 bits for n and m (3 to 30 for the fraction, its weight included) and
    hold every setting of its table or range; the parent rate is below 2^32,
    and clk_hw_is_enabled is true only for an enabled PLL. *)
Theorem pll_set_rate_recalc map rate parent :
  pll_wf -> hw_enabled_ok -> search_static pll -> settings_fit pll ->
  0 < rate < 2 ^ 63 -> 0 < parent < 2 ^ 32 -> frac_ok rate parent ->
  exists map' ret,
    meson_clk_pll_set_rate clk_hw_is_enabled bypass_clk_disable map pll rate parent = Some (map', ret) /\
    meson_clk_pll_round_rate map pll rate parent = Some (meson_clk_pll_recalc_rate map' pll parent) /\
    (ret = 0 /\ meson_clk_pll_is_enabled map' pll = 1 \/ ret = - EIO \/ ret = - EINVAL /\ map' = map).
Proof.
  intros Hwf Hhw Hst Hfit Hr Hp Hok.
  destruct (settings_cases rate parent pll) as (ret & m & n & E & Hres); [done..|lia|lia|].
  unfold meson_clk_pll_set_rate, meson_clk_pll_round_rate. rewrite E.
  rewrite !(proj2 (Z.eqb_neq _ 0)) by lia. cbn [orb].
  destruct Hres as [-> | (-> & Hfits & Hb)].
  { exists map, (- EINVAL). cbn. auto 10. }
  change (truthy 0) with false. cbv iota.
  assert (Hff : frac_fits rate parent m n) by (apply setting_frac_fits; done || lia).
  pose proof (set_rate_loop_spec 10 map rate parent m n Hwf Hhw Hfits Hff) as Hl.
  destruct (set_rate_loop _ _ _ _ _ _ _ _ _) as [map' ret]. destruct Hl as (Hprog & Hret & Hen).
  exists map', ret. split; [done|]. split; [|destruct Hret; auto].
  rewrite <- (round_rate_programmed map map' rate parent m n) by (done || lia).
  unfold meson_clk_pll_round_rate. by rewrite E.
Qed.

(** Enabling a PLL.  A return value 0 leaves it enabled and locked and,
    when it had to be started, out of reset; the only error is -EIO (no lock
    within 1001 polls).  The programmed rate does not change. *)
Theorem pll_enable_locks map parent :
  pll_wf -> hw_enabled_ok ->
  let '(map', ret) := enable map in
  (ret = 0 /\ meson_clk_pll_is_enabled map' pll = 1 /\
     (clk_hw_is_enabled map = false -> meson_parm_read map' (p_rst pll) = reset_off pll)
   \/ ret = - EIO) /\
  meson_clk_pll_recalc_rate map' pll parent = meson_clk_pll_recalc_rate map pll parent.
Proof.
  intros Hwf Hhw. pose proof (enable_result map Hwf Hhw) as Hres.
  pose proof (enable_spec map Hwf) as Hs. pose proof (enable_writes map) as Hw.
  destruct (enable map) as [map' ret]. cbn [fst] in Hw. split.
  - destruct Hres as [[-> | ->] Hen]; [left|by right]. split; [done|]. split; [auto|].
    intros E. by destruct (Hs E) as (_ & ? & _).
  - unfold meson_clk_pll_recalc_rate. rewrite !(par_read map map') by auto using elem_par_n, elem_par_m.
    destruct (MESON_PARM_APPLICABLE (p_frac pll)) eqn:E; [|done].
    by rewrite (par_read map map') by auto using elem_par_frac.
Qed.

(** Accuracy of a fractional PLL.  Whenever a setting exists, the rounded
    rate is not above the request and not below the integer setting's rate;
    and when the request lies within one step of the multiplier, the error is
    less than the weight of one unit of [frac]:
    rate - round < parent / (n * frac_max). *)
Theorem pll_round_rate_accuracy map rate parent m n :
  search_static pll -> settings_fit pll -> 0 < rate < 2 ^ 63 -> 0 < parent < 2 ^ 32 ->
  MESON_PARM_APPLICABLE (p_frac pll) = true -> frac_ok rate parent ->
  meson_clk_get_pll_settings rate parent pll = Some (0, m, n) ->
  exists round,
    meson_clk_pll_round_rate map pll rate parent = Some round /\
    __pll_params_to_rate parent m n 0 pll <= round <= rate /\
    (rate * n < half_parent pll parent * (m + 1) ->
     (rate - round) * n * frac_weight pll < half_parent pll parent).
Proof.
  intros Hst Hfit Hr Hp Ha Hok E.
  destruct (settings_cases rate parent pll) as (? & ? & ? & E' & Hres); [done..|lia|lia|].
  rewrite E in E'. injection E' as <- <- <-. destruct Hres as [? | (_ & Hfits & Hb)]; [done|].
  destruct (setting_frac_range rate parent m n) as (Hs & Hfr & Hle); [done || lia..|].
  destruct (params_with_frac_spec pll rate parent m n Hs Hfr Hle) as (_ & Hx & Hy).
  unfold meson_clk_pll_round_rate. rewrite E, Ha. cbn [truthy Z.eqb negb orb].
  destruct (Z.eqb_spec rate (__pll_params_to_rate parent m n 0 pll)) as [Heq | ]; eexists;
    (split; [reflexivity|]); [|done].
  split; [lia|]. intros _. replace (rate - _) with 0 by lia. destruct (fr_parent _ _ _ _ _ Hfr). lia.
Qed.

(** The search finds the exact rate of a setting it offers. *)
Lemma settings_exact parent i m0 n0 :
  search_static pll -> settings_fit pll -> 0 < parent < 2 ^ 32 ->
  let rate := __pll_params_to_rate parent m0 n0 0 pll in
  0 < rate -> candidate rate parent pll i m0 n0 ->
  exists m n, meson_clk_get_pll_settings rate parent pll = Some (0, m, n) /\ setting_fits pll m n /\
    __pll_params_to_rate parent m n 0 pll = rate.
Proof.
  intros Hst Hfit Hp rate Hr Hc.
  assert (Hrb : 0 <= rate < 2 ^ 63).
  { pose proof (candidate_fits _ _ _ _ _ _ Hst Hfit Hc) as [? ?]. destruct Hst as (? & ? & _).
    assert (2 ^ width (p_n pll) <= 2 ^ 16) by (apply Z.pow_le_mono_r; lia).
    assert (2 ^ width (p_m pll) <= 2 ^ 16) by (apply Z.pow_le_mono_r; lia).
    apply params_to_rate_bound; lia. }
  assert (Hok : rates_ok rate parent pll) by (apply static_rates_ok; done || lia).
  destruct (get_pll_settings_best rate parent pll Hst Hok) as (ret & m & n & E & Hres).
  cbn zeta in Hres. destruct Hres as [(-> & [j Hj] & Hb & Hbest)|[-> Hnone]].
  - exists m, n. split; [done|]. split; [by eapply candidate_fits|]. specialize (Hbest i m0 n0 Hc).
    fold rate in Hbest. destruct Hok as [_ Hok]. specialize (Hok j m n Hj).
    revert Hb Hbest. unfold meson_clk_pll_is_better. case_if.
    + rewrite !abs_ul_small by (done || lia). rewrite !Z.ltb_lt, Z.ltb_ge. lia.
    + rewrite Z.leb_refl. cbn [andb]. rewrite Z.ltb_ge. intros. b2p. lia.
  - specialize (Hnone i m0 n0 Hc). fold rate in Hnone. exfalso. revert Hnone.
    unfold meson_clk_pll_is_better. case_if.
    + rewrite (abs_ul_small rate), (abs_ul_small 0) by (done || lia). rewrite Z.ltb_ge. lia.
    + rewrite Z.leb_refl. cbn [andb]. rewrite Z.ltb_ge. lia.
Qed.

(** Resuming at the exact rate of an offered setting. *)
Lemma restore_rate map1 parent i m0 n0 :
  pll_wf -> hw_enabled_ok -> search_static pll -> settings_fit pll -> 0 < parent < 2 ^ 32 ->
  MESON_PARM_APPLICABLE (p_frac pll) = false -> has pll CLK_MESON_PLL_IGNORE_RESTORE = false ->
  saved_rate pll = __pll_params_to_rate parent m0 n0 0 pll ->
  0 < saved_rate pll -> candidate (saved_rate pll) parent pll i m0 n0 ->
  exists map',
    meson_clk_pll_restore_context clk_hw_is_enabled bypass_clk_disable map1 pll parent = Some map' /\
    meson_clk_pll_recalc_rate map' pll parent = saved_rate pll /\
    (saved_is_enabled pll = 0 -> bypass_clk_disable = false -> meson_parm_read map' (p_en pll) = 0).
Proof.
  intros Hwf Hhw Hst Hfit Hp Ha Hig Erate Hr Hc.
  destruct (settings_exact parent i m0 n0 Hst Hfit Hp) as (m & n & E & Hfits & Emn);
    [by rewrite <- Erate..|]. rewrite <- Erate in E, Emn.
  unfold meson_clk_pll_restore_context.
  rewrite Hig. match goal with |- context [meson_clk_pll_set_rate _ _ ?x] => set (map2 := x) end.
  unfold meson_clk_pll_set_rate. rewrite E. rewrite !(proj2 (Z.eqb_neq _ 0)) by lia. cbn [orb].
  change (truthy 0) with false. cbv iota.
  assert (Hff : frac_fits (saved_rate pll) parent m n) by (intros ?; congruence).
  pose proof (set_rate_loop_spec 10 map2 (saved_rate pll) parent m n Hwf Hhw Hfits Hff) as Hl.
  destruct (set_rate_loop _ _ _ _ _ _ _ _ _) as [map3 ret]. destruct Hl as (Hprog & _).
  eexists. split; [reflexivity|]. set (map4 := if truthy _ then _ else _).
  assert (Hwo : writes_only (ctl_fields pll) map3 map4)
    by (apply wo_if; [apply enable_writes|apply disable_writes]).
  split.
  - rewrite (programmed_recalc map4 (saved_rate pll) parent m n) by (by eapply programmed_ctl).
    by rewrite Ha.
  - intros Hs Hby. unfold map4. rewrite Hs. cbn [truthy Z.eqb negb].
    unfold meson_clk_pll_disable. rewrite Hby.
    destruct (ctl_facts Hwf) as (_ & (Hw1 & Hs1) & _). rewrite parm_read_write by done.
    apply Z.mod_0_l. destruct Hw1. pose proof (Z.pow_pos_nonneg 2 (width (p_en pll))). lia.
Qed.

End Spec.

Section SaveRestore.
Context {R : Type} `{RegmapOk R}.
Context (clk_hw_is_enabled : R -> bool) (bypass_clk_disable : bool) (pll : meson_clk_pll_data).

(** Suspend and resume of a PLL without fractional part.  If the registers
    held a setting the search offers, then whatever happened to them since,
    meson_clk_pll_restore_context brings back the saved rate; a PLL that was
    off is switched off again (unless bypass_clk_disable). *)
Theorem pll_save_restore (map0 map1 : R) parent i :
  pll_wf pll -> hw_enabled_ok clk_hw_is_enabled pll -> search_static pll -> settings_fit pll ->
  0 < parent < 2 ^ 32 ->
  MESON_PARM_APPLICABLE (p_frac pll) = false -> has pll CLK_MESON_PLL_IGNORE_RESTORE = false ->
  let rate := meson_clk_pll_recalc_rate map0 pll parent in
  0 < rate ->
  candidate rate parent pll i (meson_parm_read map0 (p_m pll)) (meson_parm_read map0 (p_n pll)) ->
  let pll' := meson_clk_pll_save_context map0 pll parent in
  exists map',
    meson_clk_pll_restore_context clk_hw_is_enabled bypass_clk_disable map1 pll' parent = Some map' /\
    meson_clk_pll_recalc_rate map' pll' parent = rate /\
    (saved_is_enabled pll' = 0 -> bypass_clk_disable = false -> meson_parm_read map' (p_en pll') = 0).
Proof.
  intros Hwf Hhw Hst Hfit Hp Ha Hig rate Hr Hc pll'.
  change rate with (saved_rate pll').
  apply (restore_rate clk_hw_is_enabled bypass_clk_disable pll' map1 parent i
           (meson_parm_read map0 (p_m pll)) (meson_parm_read map0 (p_n pll))); try done.
  unfold pll'. cbn [meson_clk_pll_save_context set_saved saved_rate]. fold pll'.
  unfold meson_clk_pll_recalc_rate. by rewrite Ha.
Qed.
End SaveRestore.

Section Secure.
Context {R : Type} `{RegmapOk R}.
Context (bypass_clk_disable : bool) (pll : meson_clk_pll_data).
Context (arm_smccc_smc : R -> Z -> list Z -> R * Z).

(** The secure monitor programs the multiplier and divider it is given. *)
Definition smc_programs : Prop :=
  forall map m n, setting_fits pll m n ->
    let map' := fst (arm_smccc_smc map (smc_id pll) [secid pll; m; n; 0; 0; 0; 0]) in
    meson_parm_read map' (p_m pll) = m /\ meson_parm_read map' (p_n pll) = n.

(** A secure PLL (integer settings) ends up at the rate round_rate
    announced: the setting handed to the secure monitor is the one found by
    the search, after the PLL was disabled if it was running. *)
Theorem secure_pll_set_rate_recalc (map : R) rate parent :
  smc_programs -> search_static pll -> settings_fit pll ->
  MESON_PARM_APPLICABLE (p_frac pll) = false ->
  0 < rate < 2 ^ 63 -> 0 < parent < 2 ^ 32 ->
  exists map' ret,
    meson_secure_pll_v2_set_rate bypass_clk_disable arm_smccc_smc map pll rate parent
      = Some (map', ret) /\
    meson_clk_pll_round_rate map pll rate parent = Some (meson_clk_pll_recalc_rate map' pll parent) /\
    (ret = 0 \/ ret = - EINVAL /\ map' = map).
Proof.
  intros Hsmc Hst Hfit Ha Hr Hp.
  destruct (settings_cases rate parent pll) as (ret & m & n & E & Hres); [done..|lia|lia|].
  unfold meson_secure_pll_v2_set_rate, meson_clk_pll_round_rate. rewrite E.
  rewrite !(proj2 (Z.eqb_neq _ 0)) by lia. cbn [orb].
  destruct Hres as [-> | (-> & Hfits & Hb)]; [exists map, (- EINVAL); cbn; auto 10|].
  change (truthy 0) with false. cbv iota. do 2 eexists. split; [reflexivity|]. split; [|by left].
  rewrite Ha. cbn [negb orb]. f_equal.
  unfold meson_clk_pll_recalc_rate. rewrite Ha.
  match goal with |- context [arm_smccc_smc ?x _ _] => destruct (Hsmc x m n Hfits) as [-> ->] end.
  done.
Qed.
End Secure.

(** ** A simulated PLL

    Register file with two PLLs whose control register has a lock bit (31)
    that the hardware sets while the PLL is enabled (bit 28). *)

Definition HHI_GP0_PLL_CNTL0 : Z := 0x40.
Definition ANACTRL_HIFI0PLL_CTRL0 : Z := 0x100.
Definition lock_reg (r : Z) : bool := (r =? HHI_GP0_PLL_CNTL0) || (r =? ANACTRL_HIFI0PLL_CTRL0).

Inductive sim := Sim (regs : gmap Z Z).
Definition regs_of (s : sim) : gmap Z Z := match s with Sim m => m end.

Definition sim_read (s : sim) (r : Z) : Z :=
  let v := plain_read (regs_of s) r in
  if lock_reg r then (v .& Z.ones 31) .| (Z.b2z (Z.testbit v 28) << 31) else v.

#[export] Instance sim_regmap : Regmap sim := {|
  regmap_read s r := (0, sim_read s r);
  regmap_write s r v := (Sim (plain_write (regs_of s) r v), 0);
  regmap_update_bits s r mask v := (Sim (plain_update (regs_of s) r mask v), 0);
  regmap_multi_reg_write s l := (Sim (plain_multi (regs_of s) l), 0);
  udelay s _ := s;
|}.

Lemma sim_read_bit s r b :
  0 <= b < 32 -> lock_reg r && (b =? 31) = false ->
  Z.testbit (sim_read s r) b = Z.testbit (plain_read (regs_of s) r) b.
Proof.
  intros Hb Hv. unfold sim_read. destruct (lock_reg r); [|done]. cbn in Hv. b2p.
  rewrite Z.lor_spec, Z.land_spec, Z.shiftl_spec_low, orb_false_r by lia.
  rewrite Z.ones_spec_low by lia. apply andb_true_r.
Qed.

#[export, refine] Instance sim_regmap_ok : RegmapOk sim := {|
  volatile r b := lock_reg r && (b =? 31);
|}.
Proof.
  all: try done.
  - intros s r. unfold reg_val. cbn. unfold sim_read. pose proof (u32_range (default 0 (regs_of s !! r))).
    case_if; [|apply u32_range]. apply lor_bound; [lia|..].
    + rewrite Z.land_ones by lia. pose proof (Z.mod_pos_bound (plain_read (regs_of s) r) (2 ^ 31)). lia.
    + rewrite Z.shiftl_mul_pow2 by lia. destruct (Z.testbit _ 28); cbn; lia.
  - intros s r v r' b Hb Hv. unfold reg_val. cbn [regmap_read regmap_write sim_regmap fst snd].
    rewrite !sim_read_bit by done. cbn [regs_of]. rewrite plain_read_write.
    case_decide; [by rewrite u32_testbit|done].
  - intros s r m v r' b Hb Hv. unfold reg_val. cbn [regmap_read regmap_update_bits sim_regmap fst snd].
    rewrite !sim_read_bit by done. cbn [regs_of].
    pose proof (rm_update_bit (RegmapOk := plain_regmap_ok) (regs_of s) r m v r' b Hb eq_refl) as Hp.
    exact Hp.
  - by intros [m].
  - intros s e l. cbn. by case_match.
Defined.

(** The GP0 PLL of the G12A and an integer-only variant of it. *)
Definition none : parm := Parm 0 0 0.
Definition g12a_gp0_pll_dco : meson_clk_pll_data :=
  PllData (Parm 0x40 28 1) (Parm 0x40 0 8) (Parm 0x40 10 5) (Parm 0x44 0 17) (Parm 0x40 31 1)
    (Parm 0x40 29 1) none none none none none none
    [RegSeq 0x48 0 0; RegSeq 0x4c 0x48681c00 0; RegSeq 0x50 0x33771290 0;
     RegSeq 0x54 0x39272000 0; RegSeq 0x58 0x56540000 0]
    (Some [PLL_PARAMS 141 1; PLL_PARAMS 132 1; PLL_PARAMS 248 1]) None 0 0 0 0 0 0 0 0 0.
Definition gp0_int : meson_clk_pll_data :=
  PllData (Parm 0x40 28 1) (Parm 0x40 0 8) (Parm 0x40 10 5) none (Parm 0x40 31 1)
    (Parm 0x40 29 1) none none none none none none
    [RegSeq 0x48 0 0; RegSeq 0x4c 0x48681c00 0]
    (Some [PLL_PARAMS 141 1; PLL_PARAMS 132 1; PLL_PARAMS 248 1]) None 0 0 0 0 0 0 0 0 0.

Lemma sim_fields_ok l :
  fields_okb l = true ->
  forallb (fun p => negb (lock_reg (reg_off p)) || (Regmap.shift p + width p <=? 31)) l = true ->
  fields_ok (S := sim) l.
Proof.
  intros Hb Hl. apply fields_okb_ok; [done|]. rewrite Forall_forall. intros p Hp b Hbit. cbn.
  rewrite forallb_forall in Hl. specialize (Hl p ltac:(by apply list_elem_of_In)).
  apply orb_prop in Hl as [Hl|Hl]; b2p.
  - by rewrite Hl.
  - rewrite (proj2 (Z.eqb_neq b 31)) by lia. apply andb_false_r.
Qed.

Lemma gp0_wf : pll_wf (R := sim) g12a_gp0_pll_dco.
Proof. apply sim_fields_ok; reflexivity. Qed.
Lemma gp0_int_wf : pll_wf (R := sim) gp0_int.
Proof. apply sim_fields_ok; reflexivity. Qed.
Lemma gp0_search_static : search_static g12a_gp0_pll_dco.
Proof. unfold search_static. cbn. lia. Qed.
Lemma gp0_int_search_static : search_static gp0_int.
Proof. unfold search_static. cbn. lia. Qed.
Lemma gp0_settings_fit : settings_fit g12a_gp0_pll_dco.
Proof. unfold settings_fit, setting_fits. cbn. repeat constructor; cbn; lia. Qed.
Lemma gp0_int_settings_fit : settings_fit gp0_int.
Proof. unfold settings_fit, setting_fits. cbn. repeat constructor; cbn; lia. Qed.

Lemma frac17_ok pll rate :
  width (p_frac pll) = 17 -> width (p_m pll) = 8 -> width (p_n pll) = 5 -> flags pll = 0 ->
  0 < rate < 2 ^ 40 -> frac_ok pll rate 24000000.
Proof.
  intros Wf Wm Wn Fl Hr _.
  assert (Hno : forall f, has pll f = false) by (intros f; unfold has; by rewrite Fl).
  assert (E1 : frac_weight pll = 2 ^ 15).
  { unfold frac_weight. rewrite Hno, Wf. vm_compute. reflexivity. }
  assert (E2 : half_parent pll 24000000 = 24000000) by (unfold half_parent; by rewrite Hno).
  rewrite E1, E2, Wm, Wn. split; [|lia].
  split; [lia | rewrite E1, Wf; lia | apply Hno | apply Hno].
Qed.

Lemma gp0_frac_ok rate : 0 < rate < 2 ^ 40 -> frac_ok g12a_gp0_pll_dco rate 24000000.
Proof. by apply frac17_ok. Qed.

(** The framework's view of the simulated PLL. *)
Definition sim_enabled (pll : meson_clk_pll_data) (s : sim) : bool :=
  truthy (meson_clk_pll_is_enabled s pll).
Lemma sim_enabled_ok pll : hw_enabled_ok (sim_enabled pll) pll.
Proof. intros s. unfold sim_enabled, meson_clk_pll_is_enabled. by case_if. Qed.

Lemma pll_enable_locks_witness :
  let '(map', ret) := meson_clk_pll_enable (sim_enabled gp0_int) (Sim ∅) gp0_int in
  (ret = 0 /\ meson_clk_pll_is_enabled map' gp0_int = 1 /\
     (sim_enabled gp0_int (Sim ∅) = false -> meson_parm_read map' (p_rst gp0_int) = reset_off gp0_int)
   \/ ret = - EIO) /\
  meson_clk_pll_recalc_rate map' gp0_int 24000000 = meson_clk_pll_recalc_rate (Sim ∅) gp0_int 24000000.
Proof. apply pll_enable_locks; [apply gp0_int_wf|apply sim_enabled_ok]. Defined.

Lemma pll_set_rate_recalc_witness :
  exists map' ret,
    meson_clk_pll_set_rate (sim_enabled g12a_gp0_pll_dco) false (Sim ∅) g12a_gp0_pll_dco
      3390000000 24000000 = Some (map', ret) /\
    meson_clk_pll_round_rate (Sim ∅) g12a_gp0_pll_dco 3390000000 24000000
      = Some (meson_clk_pll_recalc_rate map' g12a_gp0_pll_dco 24000000) /\
    (ret = 0 /\ meson_clk_pll_is_enabled map' g12a_gp0_pll_dco = 1 \/ ret = - EIO \/
     ret = - EINVAL /\ map' = Sim ∅).
Proof.
  apply pll_set_rate_recalc;
    [apply gp0_wf | apply sim_enabled_ok | apply gp0_search_static | apply gp0_settings_fit
    | lia | lia | apply gp0_frac_ok; lia].
Defined.

(** A fractional PLL that rounds to the closest: for a request that is the
    rate of its setting, rounded up, round_rate takes no fraction, but
    set_rate programs one, and the rate read back is another. *)
Definition closest_pll : meson_clk_pll_data :=
  PllData (Parm 0x40 28 1) (Parm 0x40 0 8) (Parm 0x40 10 5) (Parm 0x44 0 19) (Parm 0x40 31 1)
    (Parm 0x40 29 1) none none none none none none [] (Some [PLL_PARAMS 1 31]) None 0 0 0
    CLK_MESON_PLL_ROUND_CLOSEST 0 0 0 0 0.
Example round_closest_diverges :
  meson_clk_pll_round_rate (Sim ∅) closest_pll 32259 1000000 = Some 32259 /\
  (fun x => meson_clk_pll_recalc_rate x.1 closest_pll 1000000) <$>
    meson_clk_pll_set_rate (sim_enabled closest_pll) false (Sim ∅) closest_pll 32259 1000000 = Some 32260.
Proof. split; by vm_compute. Qed.

Lemma pll_round_rate_accuracy_witness :
  exists round,
    meson_clk_pll_round_rate (Sim ∅) g12a_gp0_pll_dco 3390000001 24000000 = Some round /\
    __pll_params_to_rate 24000000 141 1 0 g12a_gp0_pll_dco <= round <= 3390000001 /\
    (3390000001 * 1 < half_parent g12a_gp0_pll_dco 24000000 * (141 + 1) ->
     (3390000001 - round) * 1 * frac_weight g12a_gp0_pll_dco < half_parent g12a_gp0_pll_dco 24000000).
Proof.
  apply pll_round_rate_accuracy;
    [apply gp0_search_static | apply gp0_settings_fit | lia | lia | reflexivity
    | apply gp0_frac_ok; lia | vm_compute; reflexivity].
Defined.

Lemma pll_save_restore_witness :
  let map0 := Sim {[ 0x40 := 0x10000484 ]} in
  let pll' := meson_clk_pll_save_context map0 gp0_int 24000000 in
  exists map',
    meson_clk_pll_restore_context (sim_enabled gp0_int) false (Sim ∅) pll' 24000000 = Some map' /\
    meson_clk_pll_recalc_rate map' pll' 24000000 = meson_clk_pll_recalc_rate map0 gp0_int 24000000 /\
    (saved_is_enabled pll' = 0 -> false = false -> meson_parm_read map' (p_en pll') = 0).
Proof.
  intros map0 pll'.
  apply (pll_save_restore (sim_enabled gp0_int) false gp0_int map0 (Sim ∅) 24000000 1);
    [apply gp0_int_wf | apply sim_enabled_ok | apply gp0_int_search_static
    | apply gp0_int_settings_fit | lia | reflexivity | reflexivity | vm_compute; reflexivity |].
  split; [intros [|j] Hj; [vm_compute; reflexivity | lia]|].
  exists 0. split; [vm_compute; reflexivity | discriminate].
Defined.

(** A secure monitor that writes the two fields. *)
Definition sim_smc (s : sim) (id : Z) (args : list Z) : sim * Z :=
  match args with
  | _ :: m :: n :: _ =>
      (meson_parm_write (meson_parm_write s (p_m gp0_int) m) (p_n gp0_int) n, 0)
  | _ => (s, 0)
  end.

Lemma sim_smc_programs : smc_programs gp0_int sim_smc.
Proof.
  intros s m n [Hm Hn]. destruct (par_facts gp0_int gp0_int_wf) as ((? & ?) & (? & ?) & ? & _).
  cbn [sim_smc fst]. split.
  - rewrite parm_read_write_other by (done || by apply parm_disjoint_sym).
    by rewrite parm_read_write_small by done.
  - by rewrite parm_read_write_small by done.
Qed.

Lemma secure_pll_set_rate_recalc_witness :
  exists map' ret,
    meson_secure_pll_v2_set_rate false sim_smc (Sim ∅) gp0_int 3200000000 24000000 = Some (map', ret) /\
    meson_clk_pll_round_rate (Sim ∅) gp0_int 3200000000 24000000
      = Some (meson_clk_pll_recalc_rate map' gp0_int 24000000) /\
    (ret = 0 \/ ret = - EINVAL /\ map' = Sim ∅).
Proof.
  apply secure_pll_set_rate_recalc;
    [apply sim_smc_programs | apply gp0_int_search_static | apply gp0_int_settings_fit
    | reflexivity | lia | lia].
Defined.

(** The table search of ClkPll at a concrete table. *)
Lemma pll_table_settings_optimal_witness :
  exists ret m n, meson_clk_get_pll_settings 3200000000 24000000 gp0_int = Some (ret, m, n) /\
    (ret = 0 /\
       (exists e, e ∈ [PLL_PARAMS 141 1; PLL_PARAMS 132 1; PLL_PARAMS 248 1] /\ t_m e = m /\ t_n e = n /\
          0 < __pll_params_to_rate 24000000 (t_m e) (t_n e) 0 gp0_int <= 3200000000 /\
          forall e', e' ∈ [PLL_PARAMS 141 1; PLL_PARAMS 132 1; PLL_PARAMS 248 1] ->
            __pll_params_to_rate 24000000 (t_m e') (t_n e') 0 gp0_int <= 3200000000 ->
            __pll_params_to_rate 24000000 (t_m e') (t_n e') 0 gp0_int
            <= __pll_params_to_rate 24000000 (t_m e) (t_n e) 0 gp0_int)
     \/ ret = - EINVAL /\
        forall e, e ∈ [PLL_PARAMS 141 1; PLL_PARAMS 132 1; PLL_PARAMS 248 1] ->
          __pll_params_to_rate 24000000 (t_m e) (t_n e) 0 gp0_int <= 0 \/
          3200000000 < __pll_params_to_rate 24000000 (t_m e) (t_n e) 0 gp0_int).
Proof.
  apply (pll_table_settings_optimal 3200000000 24000000 gp0_int);
    [reflexivity | reflexivity | apply gp0_int_search_static | reflexivity | lia | lia |].
  repeat constructor; cbn; lia.
Defined.

End PllOps.
