(* ===== verification/ClkPllV3.v ===== *)
(** * PLLs programmed by their init sequence, "v3"
      (src/drivers/clk/meson/clk-pll.c, meson_clk_pll_v3_ops)

    set_rate walks the register sequence of the SoC file and inserts m, n,
    frac, the threshold bit and the force-lock bit into the words it writes.
    The theorems: a walk leaves the chosen parameters in the registers
    although whole words are written; set_rate therefore ends at the announced
    rate, in at most ten walks. *)

From S2P Require Import Prelude Regmap ClkPll ClkPllOps.
From stdpp Require Import base list numbers gmap.

Local Open Scope Z_scope.
Local Open Scope cint_scope.

Module PllV3.
Import Pll PllOps.

Section Ops.
Context {R : Type} `{Regmap R}.
Context (clk_hw_is_enabled : R -> bool) (bypass_clk_disable : bool).
Implicit Types (map : R) (pll : meson_clk_pll_data).

(** [val &= CLRPMASK(p); val |= x << p->shift] on a 32-bit [val]. *)
Definition clr_field (p : parm) (val : Z) : Z := u32 (val .& CLRPMASK (width p) (Regmap.shift p)).
Definition or_field (p : parm) (val x : Z) : Z := u32 (val .| u32 (x << Regmap.shift p)).

(** The word for one entry of the init sequence. *)
Definition v3_word pll (parent_rate m n frac : Z) (e : reg_sequence) : Z :=
  if reg_off (p_n pll) =? seq_reg e then
    let val := seq_def e in
    let val :=
      if MESON_PARM_APPLICABLE (p_th pll) then
        let val := clr_field (p_th pll) val in
        if MESON_PLL_THRESHOLD_RATE <=? __pll_params_to_rate parent_rate m n frac pll
        then or_field (p_th pll) val 1 else val
      else val in
    let val := clr_field (p_n pll) val in
    let val := clr_field (p_m pll) val in
    let val := or_field (p_n pll) val n in
    or_field (p_m pll) val m
  else if (reg_off (p_frac pll) =? seq_reg e) && MESON_PARM_APPLICABLE (p_frac pll) then
    or_field (p_frac pll) (clr_field (p_frac pll) (seq_def e)) frac
  else if MESON_PARM_APPLICABLE (p_fl pll) && (reg_off (p_fl pll) =? seq_reg e) then
    clr_field (p_fl pll) (seq_def e)
  else seq_def e.

(** One walk over the init sequence.  In the first three branches the code
    names the register through the field; it is the entry's register. *)
Fixpoint v3_walk (l : list reg_sequence) map pll (parent_rate m n frac : Z) : R :=
  match l with
  | [] => map
  | e :: l =>
      let map := fst (regmap_write map (seq_reg e) (v3_word pll parent_rate m n frac e)) in
      let map := if truthy (seq_delay_us e) then udelay map (seq_delay_us e) else map in
      v3_walk l map pll parent_rate m n frac
  end.

(** The do-while; [retry] is the number of walks left. *)
Fixpoint v3_loop (retry : nat) map pll (parent_rate m n frac : Z) : R * Z :=
  match retry with
  | O => (map, - EIO)
  | S retry =>
      let map := v3_walk (init_regs pll) map pll parent_rate m n frac in
      let '(map, ret) := meson_clk_pll_wait_lock map pll in
      if negb (truthy ret) then
        (if MESON_PARM_APPLICABLE (p_fl pll)
         then fst (regmap_update_bits map (reg_off (p_fl pll)) (u32 (BIT (Regmap.shift (p_fl pll))))
                     (u32 (BIT (Regmap.shift (p_fl pll)))))
         else map, 0)
      else v3_loop retry map pll parent_rate m n frac
  end.

(** Only the fraction changes and the PLL runs: [Some map] after the update,
    with the result of the lock poll. *)
Definition v3_frac_only map pll (m n frac : Z) : R * bool :=
  if MESON_PARM_APPLICABLE (p_frac pll)
     && (meson_parm_read map (p_m pll) =? m) && (meson_parm_read map (p_n pll) =? n)
     && truthy (meson_parm_read map (p_en pll)) then
    let val := snd (regmap_read map (reg_off (p_frac pll))) in
    let val := or_field (p_frac pll) (clr_field (p_frac pll) val) frac in
    let map := fst (regmap_write map (reg_off (p_frac pll)) val) in
    let '(map, ret) := meson_clk_pll_wait_lock map pll in
    (map, negb (truthy ret))
  else (map, false).

(** The local [frac] is only computed for a PLL with a fractional field; its
    other use, in __pll_params_to_rate, ignores it without one. *)
Definition meson_clk_pll_v3_set_rate map pll (rate parent_rate : Z) : option (R * Z) :=
  if (parent_rate =? 0) || (rate =? 0) then Some (map, - EINVAL)
  else
    match meson_clk_get_pll_settings rate parent_rate pll with
    | None => None
    | Some (ret, m, n) =>
        if truthy ret then Some (map, ret)
        else
          let frac := if MESON_PARM_APPLICABLE (p_frac pll)
                      then __pll_params_with_frac rate parent_rate m n pll else 0 in
          let '(map, done) := v3_frac_only map pll m n frac in
          if done : bool then Some (map, 0)
          else
            let map := if truthy (meson_parm_read map (p_en pll))
                       then meson_clk_pll_disable bypass_clk_disable map pll else map in
            Some (v3_loop 10 map pll parent_rate m n frac)
    end.

(** [parent_rate] is clk_hw_get_rate(clk_hw_get_parent(hw)). *)
Definition meson_clk_pll_v3_enable map pll (parent_rate : Z) : option (R * Z) :=
  if clk_hw_is_enabled map then Some (map, 0)
  else
    let rate := meson_clk_pll_recalc_rate map pll parent_rate in
    match meson_clk_pll_v3_set_rate map pll rate parent_rate with
    | None => None
    | Some (map, _) =>
        let '(map, ret) := meson_clk_pll_wait_lock map pll in
        Some (map, if truthy ret then - EIO else 0)
    end.

Definition meson_clk_pll_v3_restore_context map pll (parent_rate : Z) : option R :=
  match meson_clk_pll_v3_set_rate map pll (saved_rate pll) parent_rate with
  | None => None
  | Some (map, _) =>
      if truthy (saved_is_enabled pll) then option_map fst (meson_clk_pll_v3_enable map pll parent_rate)
      else Some (meson_clk_pll_disable bypass_clk_disable map pll)
  end.

End Ops.

(** ** Fields of a word *)

Definition field_of (p : parm) (v : Z) : Z := (v >> Regmap.shift p) mod 2 ^ width p.

Lemma field_of_bit p v i :
  parm_wf p -> 0 <= i ->
  Z.testbit (field_of p v) i = (i <? width p) && Z.testbit v (i + Regmap.shift p).
Proof.
  intros (? & ? & ?) Hi. unfold field_of. destruct (Z.ltb_spec i (width p)).
  - by rewrite Z.mod_pow2_bits_low, Z.shiftr_spec by lia.
  - by rewrite Z.mod_pow2_bits_high by lia.
Qed.

Lemma clr_field_bit p v b :
  parm_wf p -> 0 <= b < 32 ->
  Z.testbit (clr_field p v) b
  = Z.testbit v b && negb ((Regmap.shift p <=? b) && (b <? Regmap.shift p + width p)).
Proof.
  intros (? & ? & ?) Hb. unfold clr_field, CLRPMASK, SETPMASK.
  rewrite testbit_u32, Z.land_spec by lia. f_equal. unfold u64.
  rewrite Z.mod_pow2_bits_low, Z.lnot_spec, GENMASK_testbit by lia. do 2 f_equal.
  destruct (Z.leb_spec b (Regmap.shift p + width p - 1)), (Z.ltb_spec b (Regmap.shift p + width p)); lia || done.
Qed.

Lemma or_field_bit p v x b :
  parm_wf p -> 0 <= x < 2 ^ width p -> 0 <= b < 32 ->
  Z.testbit (or_field p v x) b
  = Z.testbit v b || ((Regmap.shift p <=? b) && (b <? Regmap.shift p + width p)
                      && Z.testbit x (b - Regmap.shift p)).
Proof.
  intros (? & ? & ?) Hx Hb. unfold or_field. rewrite testbit_u32, Z.lor_spec, testbit_u32 by lia. f_equal.
  rewrite Z.shiftl_spec by lia. destruct (Z.leb_spec (Regmap.shift p) b); cbn [andb].
  - destruct (Z.ltb_spec b (Regmap.shift p + width p)); cbn [andb]; [done|].
    apply (testbit_above x (width p)); lia.
  - by rewrite Z.testbit_neg_r by lia.
Qed.

Lemma field_clr_same p v : parm_wf p -> field_of p (clr_field p v) = 0.
Proof.
  intros Hp. apply Z.bits_inj'. intros i Hi. rewrite field_of_bit, Z.bits_0 by done.
  destruct (Z.ltb_spec i (width p)); [|done]. pose proof Hp as (? & ? & ?).
  rewrite clr_field_bit by (done || lia).
  rewrite (proj2 (Z.leb_le _ _)), (proj2 (Z.ltb_lt _ _)) by lia. apply andb_false_r.
Qed.

(** Fields of the same word that do not overlap. *)
Definition apart (p q : parm) : Prop :=
  Regmap.shift p + width p <= Regmap.shift q \/ Regmap.shift q + width q <= Regmap.shift p.

Lemma field_clr_other p q v :
  parm_wf p -> parm_wf q -> apart p q -> field_of q (clr_field p v) = field_of q v.
Proof.
  intros Hp Hq Ha. apply Z.bits_inj'. intros i Hi. rewrite !field_of_bit by done.
  destruct (Z.ltb_spec i (width q)); [|done]. pose proof Hq as (? & ? & ?).
  rewrite clr_field_bit by (done || lia).
  destruct (Z.leb_spec (Regmap.shift p) (i + Regmap.shift q)),
    (Z.ltb_spec (i + Regmap.shift q) (Regmap.shift p + width p)); cbn; rewrite ?andb_true_r; try done.
  unfold apart in Ha. lia.
Qed.

Lemma field_or_other p q v x :
  parm_wf p -> parm_wf q -> apart p q -> 0 <= x < 2 ^ width p ->
  field_of q (or_field p v x) = field_of q v.
Proof.
  intros Hp Hq Ha Hx. apply Z.bits_inj'. intros i Hi. rewrite !field_of_bit by done.
  destruct (Z.ltb_spec i (width q)); [|done]. pose proof Hq as (? & ? & ?).
  rewrite or_field_bit by (done || lia).
  destruct (Z.leb_spec (Regmap.shift p) (i + Regmap.shift q)),
    (Z.ltb_spec (i + Regmap.shift q) (Regmap.shift p + width p)); cbn; rewrite ?orb_false_r; try done.
  unfold apart in Ha. lia.
Qed.

Lemma field_or_same p v x :
  parm_wf p -> 0 <= x < 2 ^ width p -> field_of p v = 0 -> field_of p (or_field p v x) = x.
Proof.
  intros Hp Hx Hv. apply Z.bits_inj'. intros i Hi.
  assert (Hvi : Z.testbit (field_of p v) i = false) by (rewrite Hv; apply Z.bits_0).
  rewrite field_of_bit in * by done. pose proof Hp as (? & ? & ?).
  destruct (Z.ltb_spec i (width p)); cbn [andb] in *; [|by rewrite (testbit_above x (width p)) by lia].
  rewrite or_field_bit by (done || lia). rewrite Hvi.
  rewrite (proj2 (Z.leb_le _ _)), (proj2 (Z.ltb_lt _ _)) by lia. cbn. f_equal. lia.
Qed.

(** ** The walk *)

Section Spec.
Context {R : Type} `{RegmapOk R}.
Context (bypass_clk_disable : bool) (pll : meson_clk_pll_data).
Implicit Types (map : R).

Lemma write_field_same map p v :
  parm_wf p -> parm_stable p ->
  meson_parm_read (fst (regmap_write map (reg_off p) v)) p = field_of p v.
Proof.
  intros Hp Hst. apply Z.bits_inj'. intros i Hi. rewrite parm_read_bit, field_of_bit by done.
  destruct (Z.ltb_spec i (width p)); [|done]. pose proof Hp as (? & ? & ?). cbn [andb].
  rewrite rm_write_bit by (lia || (apply Hst; lia)). by rewrite decide_True.
Qed.

Lemma write_field_other map p r v :
  parm_wf p -> parm_stable p -> r <> reg_off p ->
  meson_parm_read (fst (regmap_write map r v)) p = meson_parm_read map p.
Proof.
  intros Hp Hst Hr. apply Z.bits_inj'. intros i Hi. rewrite !parm_read_bit by done.
  destruct (Z.ltb_spec i (width p)); [|done]. pose proof Hp as (? & ? & ?). cbn [andb].
  rewrite rm_write_bit by (lia || (apply Hst; lia)). by rewrite decide_False.
Qed.

(** A field whose value every word of its register carries has that value
    after the walk. *)
Lemma walk_field l map prate m n frac p x :
  parm_wf p -> parm_stable p ->
  (forall e, seq_reg e = reg_off p -> field_of p (v3_word pll prate m n frac e) = x) ->
  reg_off p ∈ seq_reg <$> l \/ meson_parm_read map p = x ->
  meson_parm_read (v3_walk l map pll prate m n frac) p = x.
Proof.
  intros Hp Hst Hx. revert map. induction l as [|e l IH]; intros map Hor; cbn [v3_walk].
  { destruct Hor as [Hin|Hv]; [by apply elem_of_nil in Hin|done]. }
  apply IH. rewrite fmap_cons, elem_of_cons in Hor.
  assert (Hd : forall s, meson_parm_read (if truthy (seq_delay_us e) then udelay s (seq_delay_us e) else s) p
                         = meson_parm_read s p) by (intros s; case_if; [by apply parm_read_udelay|done]).
  rewrite Hd. destruct (Z.eq_dec (seq_reg e) (reg_off p)) as [He | He].
  - right. rewrite He. rewrite write_field_same by done. by apply Hx.
  - rewrite write_field_other by done. destruct Hor as [[Heq | Hin] | Hv]; auto. congruence.
Qed.

(** A description whose init sequence can carry the parameters. *)
Record v3_wf : Prop := {
  v3_m : parm_wf (p_m pll) /\ parm_stable (p_m pll);
  v3_n : parm_wf (p_n pll) /\ parm_stable (p_n pll);
  v3_mn : reg_off (p_m pll) = reg_off (p_n pll) /\ apart (p_m pll) (p_n pll);
  v3_n_regs : reg_off (p_n pll) ∈ seq_reg <$> init_regs pll;
  v3_frac : MESON_PARM_APPLICABLE (p_frac pll) = true ->
    (parm_wf (p_frac pll) /\ parm_stable (p_frac pll)) /\
    reg_off (p_frac pll) <> reg_off (p_n pll) /\ reg_off (p_frac pll) ∈ seq_reg <$> init_regs pll;
  v3_fl : MESON_PARM_APPLICABLE (p_fl pll) = true ->
    parm_wf (p_fl pll) /\ parm_disjoint (p_fl pll) (p_m pll) /\ parm_disjoint (p_fl pll) (p_n pll) /\
    (MESON_PARM_APPLICABLE (p_frac pll) = true -> parm_disjoint (p_fl pll) (p_frac pll));
}.

Lemma apart_sym p q : apart p q -> apart q p.
Proof. unfold apart. tauto. Qed.

Lemma walk_programmed map rate prate m n :
  v3_wf -> setting_fits pll m n -> frac_fits pll rate prate m n ->
  let frac := if MESON_PARM_APPLICABLE (p_frac pll)
              then __pll_params_with_frac rate prate m n pll else 0 in
  programmed pll (v3_walk (init_regs pll) map pll prate m n frac) rate prate m n.
Proof.
  intros [[Wm Sm] [Wn Sn] [Rmn Amn] Hin Hfrac _] [Hm Hn] Hff frac.
  split; [|split; [|intros Ea]].
  - apply walk_field; [done|done| |by left]. intros e He. unfold v3_word. rewrite He, Z.eqb_refl. cbn zeta.
    rewrite field_or_other by done. apply field_or_same; [done..|].
    rewrite field_clr_other by done. by apply field_clr_same.
  - apply walk_field; [done|done| |left; by rewrite Rmn]. intros e He. unfold v3_word.
    rewrite He, Rmn, Z.eqb_refl. cbn zeta. apply field_or_same; [done..|].
    rewrite field_or_other by (done || by apply apart_sym). by apply field_clr_same.
  - destruct (Hfrac Ea) as ([Wf Sf] & Rf & Hinf). specialize (Hff Ea).
    unfold frac. rewrite Ea.
    apply walk_field; [done|done| |by left]. intros e He. unfold v3_word.
    rewrite He, Ea, (proj2 (Z.eqb_neq _ _)) by done. rewrite Z.eqb_refl. cbn [andb].
    apply field_or_same; [done..|]. by apply field_clr_same.
Qed.

(** Fields no step of a lock poll can change. *)
Lemma wait_lock_programmed map rate prate m n :
  v3_wf -> programmed pll map rate prate m n ->
  programmed pll (fst (meson_clk_pll_wait_lock map pll)) rate prate m n.
Proof.
  intros Hwf (Pn & Pm & Pf). pose proof (wait_lock_spec pll map) as Hw.
  destruct (meson_clk_pll_wait_lock map pll) as [map' ret]. destruct Hw as [Hw _]. cbn [fst].
  assert (Hk : forall q, parm_wf q -> parm_stable q -> meson_parm_read map' q = meson_parm_read map q).
  { intros q ? ?. apply (wo_read []); [done..|]. by intros p Hp%elem_of_nil. }
  destruct Hwf as [[? ?] [? ?] _ _ Hfrac _].
  split; [by rewrite Hk|]. split; [by rewrite Hk|]. intros Ea. destruct (Hfrac Ea) as ([? ?] & _).
  rewrite Hk by done. auto.
Qed.

Lemma BIT_testbit k b : 0 <= k < 32 -> 0 <= b < 32 -> Z.testbit (u32 (BIT k)) b = (b =? k).
Proof.
  intros Hk Hb. rewrite testbit_u32 by lia. unfold BIT, u64.
  rewrite Z.mod_pow2_bits_low, Z.shiftl_1_l, Z.pow2_bits_eqb by lia. apply Z.eqb_sym.
Qed.

(** Setting the force-lock bit does not disturb the parameters. *)
Lemma fl_update_read map q v :
  parm_wf (p_fl pll) -> parm_wf q -> parm_stable q -> parm_disjoint (p_fl pll) q ->
  meson_parm_read (fst (regmap_update_bits map (reg_off (p_fl pll))
                          (u32 (BIT (Regmap.shift (p_fl pll)))) v)) q
  = meson_parm_read map q.
Proof.
  intros (? & ? & ?) Hq Hst Hd. apply Z.bits_inj'. intros i Hi. rewrite !parm_read_bit by done.
  destruct (Z.ltb_spec i (width q)); [|done]. pose proof Hq as (? & ? & ?). cbn [andb].
  rewrite rm_update_bit by (lia || (apply Hst; lia)). case_decide as Hr; [|done].
  rewrite BIT_testbit by lia. destruct (Z.eqb_spec (i + Regmap.shift q) (Regmap.shift (p_fl pll))); [|done].
  destruct Hd as [?|[?|?]]; [congruence|lia..].
Qed.

Lemma loop_programmed k map rate prate m n :
  v3_wf -> setting_fits pll m n -> frac_fits pll rate prate m n ->
  let frac := if MESON_PARM_APPLICABLE (p_frac pll)
              then __pll_params_with_frac rate prate m n pll else 0 in
  let '(map', ret) := v3_loop (S k) map pll prate m n frac in
  programmed pll map' rate prate m n /\ (ret = 0 \/ ret = - EIO).
Proof.
  intros Hwf Hfits Hff frac. revert map. induction k as [|k IH]; intros map; cbn [v3_loop];
    pose proof (wait_lock_programmed _ rate prate m n Hwf
                  (walk_programmed map rate prate m n Hwf Hfits Hff)) as Hp; fold frac in Hp;
    destruct (meson_clk_pll_wait_lock _ pll) as [map' ret]; cbn [fst] in Hp.
  all: destruct (negb (truthy ret)).
  2: by auto.
  3: by apply IH.
  all: split; [|by left].
  all: destruct (MESON_PARM_APPLICABLE (p_fl pll)) eqn:Efl; [|done].
  all: destruct Hp as (Pn & Pm & Pf), Hwf as [[? ?] [? ?] _ _ Hfrac Hfl];
    destruct (Hfl Efl) as (? & ? & ? & Hflf).
  all: split; [by rewrite fl_update_read|]; split; [by rewrite fl_update_read|]; intros Ea;
    destruct (Hfrac Ea) as ([? ?] & _); rewrite fl_update_read by auto; auto.
Qed.

(** The fraction alone is rewritten while m and n already match. *)
Lemma frac_only_programmed map map' rate prate m n :
  v3_wf -> frac_fits pll rate prate m n ->
  let frac := if MESON_PARM_APPLICABLE (p_frac pll)
              then __pll_params_with_frac rate prate m n pll else 0 in
  v3_frac_only map pll m n frac = (map', true) -> programmed pll map' rate prate m n.
Proof.
  intros Hwf Hff frac. unfold v3_frac_only, frac, frac_fits in *.
  destruct (MESON_PARM_APPLICABLE (p_frac pll)) eqn:Ea; cbn [andb]; [|done].
  specialize (Hff eq_refl). case_if; [|done].
  match goal with |- context [meson_clk_pll_wait_lock ?x pll] =>
    enough (Hp : programmed pll x rate prate m n);
    [apply (wait_lock_programmed x rate prate m n Hwf) in Hp;
     destruct (meson_clk_pll_wait_lock x pll); by intros [= <- _]|] end.
  destruct Hwf as [[? ?] [? ?] [Rmn _] _ Hfrac _]. destruct (Hfrac Ea) as ([? ?] & Rf & _).
  split; [by rewrite write_field_other|].
  split; [rewrite write_field_other by (done || by rewrite Rmn); done|]. intros _. rewrite write_field_same by done.
  apply field_or_same; [done..|]. by apply field_clr_same.
Qed.

(** Meson_clk_pll_v3_set_rate, on every path (fraction only, walk of the
    init sequence with up to ten attempts, no setting), leaves the registers
    at the rate round_rate announced and returns 0, -EIO or, with the
    registers untouched, -EINVAL. *)
Theorem v3_set_rate_recalc map rate parent :
  v3_wf -> search_static pll -> settings_fit pll ->
  0 < rate < 2 ^ 63 -> 0 < parent < 2 ^ 32 -> frac_ok pll rate parent ->
  exists map' ret,
    meson_clk_pll_v3_set_rate bypass_clk_disable map pll rate parent = Some (map', ret) /\
    meson_clk_pll_round_rate map pll rate parent = Some (meson_clk_pll_recalc_rate map' pll parent) /\
    (ret = 0 \/ ret = - EIO \/ ret = - EINVAL /\ map' = map).
Proof.
  intros Hwf Hst Hfit Hr Hp Hok.
  destruct (settings_cases rate parent pll) as (ret & m & n & E & Hres); [done..|lia|lia|].
  unfold meson_clk_pll_v3_set_rate. rewrite E, !(proj2 (Z.eqb_neq _ 0)) by lia. cbn [orb].
  destruct Hres as [-> | (-> & Hfits & Hb)].
  { exists map, (- EINVAL). unfold meson_clk_pll_round_rate. rewrite E.
    change (truthy (- EINVAL)) with true. cbv iota. do 2 (split; [done|]). by do 2 right. }
  change (truthy 0) with false. cbv iota.
  assert (Hff : frac_fits pll rate parent m n) by (apply setting_frac_fits; done || lia).
  assert (Hround : forall map', programmed pll map' rate parent m n ->
    meson_clk_pll_round_rate map pll rate parent = Some (meson_clk_pll_recalc_rate map' pll parent)).
  { intros. eapply round_rate_programmed; eauto. lia. }
  pose proof (frac_only_programmed map) as Hfo. cbn zeta in Hfo |- *.
  destruct (v3_frac_only _ _ _ _ _) as [map1 [|]] eqn:Ef.
  { exists map1, 0. split; [done|]. split; [|by left]. apply Hround. by eapply Hfo. }
  match goal with |- context [v3_loop 10 ?x] =>
    pose proof (loop_programmed 9 x rate parent m n Hwf Hfits Hff) as Hl end.
  cbn zeta in Hl. destruct (v3_loop _ _ _ _ _ _ _) as [map' ret]. destruct Hl as [Hprog Hret].
  exists map', ret. split; [done|]. split; [by apply Hround|]. tauto.
Qed.
End Spec.

(** ** A concrete v3 PLL: the init sequence of the C3's GP0 PLL (c3.c), at the
       addresses of the simulated registers *)

Definition v3_pll : meson_clk_pll_data :=
  PllData (Parm 0x40 28 1) (Parm 0x40 0 8) (Parm 0x40 10 5) (Parm 0x44 0 17) (Parm 0x40 31 1)
    (Parm 0x40 29 1) none none none none none none
    [RegSeq 0x44 0 0; RegSeq 0x48 0 0; RegSeq 0x4c 0x48681c00 0; RegSeq 0x50 0x88770290 0;
     RegSeq 0x54 0x3927200a 0; RegSeq 0x58 0x56540000 10; RegSeq 0x40 0x080304fa 0;
     RegSeq 0x40 0x380304fa 10; RegSeq 0x40 0x180304fa 0]
    (Some [PLL_PARAMS 141 1; PLL_PARAMS 132 1; PLL_PARAMS 248 1]) None 0 0 0 0 0 0 0 0 0.

Lemma v3_pll_wf : v3_wf (R := sim) v3_pll.
Proof.
  assert (Hst : forall p, Regmap.shift p + width p <= 31 -> parm_stable (S := sim) p).
  { intros p Hp b Hb. cbn. rewrite (proj2 (Z.eqb_neq b 31)) by lia. apply andb_false_r. }
  split; unfold apart, parm_wf, parm_disjoint; cbn; try (split; [lia | apply Hst; cbn; lia]);
    try lia; try in_list.
  - intros _. split; [split; [lia | apply Hst; cbn; lia]|]. split; [lia|in_list].
Qed.

Lemma v3_set_rate_recalc_witness :
  exists map' ret,
    meson_clk_pll_v3_set_rate false (Sim ∅) v3_pll 3390000000 24000000 = Some (map', ret) /\
    meson_clk_pll_round_rate (Sim ∅) v3_pll 3390000000 24000000
      = Some (meson_clk_pll_recalc_rate map' v3_pll 24000000) /\
    (ret = 0 \/ ret = - EIO \/ ret = - EINVAL /\ map' = Sim ∅).
Proof.
  apply v3_set_rate_recalc;
    [ apply v3_pll_wf | exact gp0_search_static | exact gp0_settings_fit | lia | lia
    | apply frac17_ok; reflexivity || lia ].
Defined.
End PllV3.
