(* ===== verification/ClkPllV4.v ===== *)
(** * PLLs with an output divider, "v4" (src/drivers/clk/meson/clk-pll.c,
      meson_clk_pll_v4_ops)

    out = in / n * (m + frac / 2^width) >> od.  The search functions leave
    their out parameters alone when no candidate is better than 0 Hz and still
    return 0, and *best_frac is written only for a PLL with a fractional
    field; the callers' locals are uninitialised, so their contents on entry
    are the argument [locals].  meson_clk_pll_v4_set_rate calls itself to go
    back to the old rate when the PLL does not lock; it is executed with fuel,
    and [v4_set_rate_terminates] shows that three activations are enough. *)

From S2P Require Import Prelude Regmap ClkPll ClkPllOps.
From stdpp Require Import base list numbers gmap.

Local Open Scope Z_scope.
Local Open Scope cint_scope.

Module PllV4.
Import Pll PllOps.

(** The locals m, n, od and frac of a caller. *)
Record locals := Locals { l_m : Z; l_n : Z; l_od : Z; l_frac : Z }.

Definition meson_clk_pll_params_to_rate (pll : meson_clk_pll_data) (prate m n frac od : Z) : Z :=
  let n := if has pll CLK_MESON_PLL_POWER_OF_TWO then u32 (BIT n) else n in
  if n =? 0 then 0
  else
    let prate := if has pll CLK_MESON_PLL_FIXED_EN0P5 then prate >> 1 else prate in
    let prate := DIV_ROUND_UP_ULL prate n in
    let vco_rate := u64 (prate * m) in
    let vco_rate :=
      if truthy frac then
        let frac_precision :=
          if has pll CLK_MESON_PLL_FIXED_FRAC_WEIGHT_PRECISION then FIXED_FRAC_WEIGHT_PRECISION
          else u32 (BIT (width (p_frac pll))) in
        let frac_rate := u64 (prate * frac) in
        u64 (vco_rate + DIV_ROUND_UP_ULL frac_rate frac_precision)
      else vco_rate in
    vco_rate >> od.

Definition meson_clk_pll_v4_get_range_m (rate parent_rate n : Z) (pll : meson_clk_pll_data) : Z :=
  let val := if has pll CLK_MESON_PLL_POWER_OF_TWO then u64 (rate << n) else u64 (rate * n) in
  u32 (if __pll_round_closest_mult pll
       then DIV_ROUND_CLOSEST_ULL val parent_rate
       else div_u64 val parent_rate).

(** The loop over the output dividers, [k] of them left from [idx] on;
    returns ( *m, *od). *)
Fixpoint range_value_loop (k : nat) (pll : meson_clk_pll_data) (range : pll_mult_range)
    (rate prate n idx best m od : Z) : Z * Z :=
  match k with
  | O => (m, od)
  | S k =>
      let vco_rate := u64 (rate << idx) in
      let t_prate := if has pll CLK_MESON_PLL_FIXED_EN0P5 then prate >> 1 else prate in
      let t_m := meson_clk_pll_v4_get_range_m vco_rate t_prate n pll in
      if r_max range <? t_m then (m, od)
      else if t_m <? r_min range then range_value_loop k pll range rate prate n (idx + 1) best m od
      else
        let now := meson_clk_pll_params_to_rate pll prate t_m n 0 idx in
        if meson_clk_pll_is_better rate best now pll then
          if now =? rate then (t_m, idx)
          else range_value_loop k pll range rate prate n (idx + 1) now t_m idx
        else range_value_loop k pll range rate prate n (idx + 1) best m od
  end.

(** Returns (ret, *m, *n, *od). *)
Definition meson_clk_pll_get_range_value (pll : meson_clk_pll_data) (range : pll_mult_range)
    (rate prate : Z) (l : locals) : Z * Z * Z * Z :=
  let od_max' := u32 (BIT (width (p_od pll)) - 1) in
  let od_max' := if truthy (od_max pll) then u32 (od_max pll) else od_max' in
  let n :=
    if has pll CLK_MESON_PLL_FIXED_N then fixed_n pll
    else if has pll CLK_MESON_PLL_POWER_OF_TWO then 0 else 1 in
  let '(m, od) :=
    range_value_loop (Z.to_nat (od_max' + 1)) pll range rate prate n 0 0 (l_m l) (l_od l) in
  (0, m, n, od).

Fixpoint table_value_loop (table : list pll_params_table) (pll : meson_clk_pll_data)
    (rate prate best m n od : Z) : Z * Z * Z :=
  match table with
  | [] => (m, n, od)
  | e :: table =>
      if t_m e =? 0 then (m, n, od)
      else
        let now := meson_clk_pll_params_to_rate pll prate (t_m e) (t_n e) 0 (t_od e) in
        if meson_clk_pll_is_better rate best now pll then
          if now =? rate then (t_m e, t_n e, t_od e)
          else table_value_loop table pll rate prate now (t_m e) (t_n e) (t_od e)
        else table_value_loop table pll rate prate best m n od
  end.

Definition meson_clk_pll_get_table_value (pll : meson_clk_pll_data) (table : list pll_params_table)
    (rate prate : Z) (l : locals) : Z * Z * Z * Z :=
  let '(m, n, od) := table_value_loop table pll rate prate 0 (l_m l) (l_n l) (l_od l) in
  (0, m, n, od).

Definition meson_clk_pll_get_params_table (pll : meson_clk_pll_data) (rate prate : Z) (l : locals)
  : Z * Z * Z * Z :=
  match p_range pll, p_table pll with
  | Some range, _ => meson_clk_pll_get_range_value pll range rate prate l
  | None, Some table => meson_clk_pll_get_table_value pll table rate prate l
  | None, None => (- EINVAL, l_m l, l_n l, l_od l)
  end.

Definition meson_clk_pll_get_param_frac (pll : meson_clk_pll_data) (rate prate m n od : Z) : Z :=
  let vco_rate := u64 (rate << od) in
  let prate := if has pll CLK_MESON_PLL_FIXED_EN0P5 then prate >> 1 else prate in
  let '(frac, over) :=
    if has pll CLK_MESON_PLL_POWER_OF_TWO
    then (u64 (vco_rate << n), vco_rate <? u64 ((prate >> n) * m))
    else (u64 (vco_rate * n), vco_rate <? div_u64 (u64 (prate * m)) n) in
  if over then 0
  else
    let frac_max :=
      if has pll CLK_MESON_PLL_FIXED_FRAC_WEIGHT_PRECISION then FIXED_FRAC_WEIGHT_PRECISION
      else u32 (1 << width (p_frac pll)) in
    let frac :=
      if has pll CLK_MESON_PLL_ROUND_CLOSEST
      then DIV_ROUND_CLOSEST_ULL (u64 (frac * frac_max)) prate
      else div_u64 (u64 (frac * frac_max)) prate in
    let frac := u64 (frac - u64 (m * frac_max)) in
    Z.min (u32 frac) frac_max.

(** Returns (ret, *best_m, *best_n, *best_od, *best_frac). *)
Definition meson_clk_pll_v4_get_params (pll : meson_clk_pll_data) (rate prate : Z) (l : locals)
  : Z * Z * Z * Z * Z :=
  let '(ret, m, n, od) := meson_clk_pll_get_params_table pll rate prate l in
  if truthy ret then (ret, m, n, od, l_frac l)
  else if MESON_PARM_APPLICABLE (p_frac pll)
  then (0, m, n, od, meson_clk_pll_get_param_frac pll rate prate m n od)
  else (0, m, n, od, l_frac l).

(** Returns (ret, req->rate); [hw_rate] is clk_hw_get_rate(hw). *)
Definition meson_clk_pll_v4_determine_rate (pll : meson_clk_pll_data) (hw_rate rate prate : Z)
    (l : locals) : Z * Z :=
  if has pll CLK_MESON_PLL_READ_ONLY then (0, hw_rate)
  else
    let '(ret, m, n, od, frac) := meson_clk_pll_v4_get_params pll rate prate l in
    if truthy ret then (ret, rate)
    else (0, meson_clk_pll_params_to_rate pll prate m n frac od).

Definition set_max_rate (pll : meson_clk_pll_data) (r : Z) : meson_clk_pll_data :=
  PllData (p_en pll) (p_m pll) (p_n pll) (p_frac pll) (p_l pll) (p_rst pll) (p_l_rst pll)
    (p_th pll) (p_fl pll) (p_od pll) (pcie_hcsl pll) (pcie_exen pll) (init_regs pll) (p_table pll)
    (p_range pll) r (od_max pll) (smc_id pll) (flags pll) (secid_disable pll)
    (secid pll) (fixed_n pll) (saved_rate pll) (saved_is_enabled pll).

Section Ops.
Context {R : Type} `{Regmap R}.
Context (clk_hw_is_enabled : R -> bool) (bypass_clk_disable : bool).
Implicit Types (map : R) (pll : meson_clk_pll_data).

Definition meson_clk_pll_v4_recalc_rate map pll (prate : Z) : Z :=
  let n := meson_parm_read map (p_n pll) in
  let m := meson_parm_read map (p_m pll) in
  let od := meson_parm_read map (p_od pll) in
  let frac := if MESON_PARM_APPLICABLE (p_frac pll) then meson_parm_read map (p_frac pll) else 0 in
  meson_clk_pll_params_to_rate pll prate m n frac od.

Definition meson_clk_pll_od_or_frac_correct map pll (m n : Z) : bool :=
  (meson_parm_read map (p_m pll) =? m) && (meson_parm_read map (p_n pll) =? n)
  && truthy (meson_parm_read map (p_en pll)).

(** The init sequence shared by init and restore_context. *)
Definition v4_init_regs map pll : R :=
  let map := meson_parm_write map (p_rst pll) (reset_on pll) in
  let map := fst (regmap_multi_reg_write map (init_regs pll)) in
  meson_parm_write map (p_rst pll) (reset_off pll).

Definition meson_clk_pll_v4_init map pll : R * meson_clk_pll_data :=
  let pll := if max_rate pll =? 0 then set_max_rate pll ULONG_MAX else pll in
  if has pll CLK_MESON_PLL_IGNORE_INIT then (map, pll)
  else if truthy (Z.of_nat (length (init_regs pll))) then (v4_init_regs map pll, pll)
  else (map, pll).

Definition meson_clk_pll_v4_enable map pll : R * Z :=
  if clk_hw_is_enabled map then (map, 0)
  else
    let map := meson_parm_write map (p_rst pll) (reset_on pll) in
    let map := meson_parm_write map (p_en pll) 1 in
    let map :=
      if MESON_PARM_APPLICABLE (p_l_rst pll)
      then meson_parm_write map (p_l_rst pll) (reset_on pll) else map in
    let map :=
      if MESON_PARM_APPLICABLE (p_fl pll) then meson_parm_write map (p_fl pll) 0 else map in
    let map := udelay map 50 in
    let map := meson_parm_write map (p_rst pll) (reset_off pll) in
    let map :=
      if MESON_PARM_APPLICABLE (p_l_rst pll)
      then meson_parm_write (udelay map 20) (p_l_rst pll) (reset_off pll) else map in
    let '(map, ret) := meson_clk_pll_wait_lock map pll in
    if truthy ret then (map, - EIO)
    else if MESON_PARM_APPLICABLE (p_fl pll) then (meson_parm_write map (p_fl pll) 1, 0)
    else (map, 0).

Definition meson_clk_pll_v4_disable map pll : R :=
  if bypass_clk_disable then map
  else
    let map := meson_parm_write map (p_rst pll) (reset_on pll) in
    meson_parm_write map (p_en pll) 0.

(** The branch that leaves the PLL running. *)
Definition v4_set_running map pll (od frac : Z) : R :=
  let map :=
    if truthy frac && negb (frac =? meson_parm_read map (p_frac pll))
    then meson_parm_write map (p_frac pll) frac else map in
  if truthy od && negb (od =? meson_parm_read map (p_od pll))
  then meson_parm_write map (p_od pll) od else map.

(** The branch that stops it: threshold bit and parameters. *)
Definition v4_program map pll (prate m n od frac : Z) : R :=
  let map :=
    if MESON_PARM_APPLICABLE (p_th pll) then
      let vco_rate := meson_clk_pll_params_to_rate pll prate m n frac 0 in
      meson_parm_write map (p_th pll) (if MESON_PLL_THRESHOLD_RATE <=? vco_rate then 1 else 0)
    else map in
  let map := meson_parm_write map (p_n pll) n in
  let map := meson_parm_write map (p_m pll) m in
  let map := meson_parm_write map (p_od pll) od in
  if MESON_PARM_APPLICABLE (p_frac pll) then meson_parm_write map (p_frac pll) frac else map.

(** [old_rate] is clk_hw_get_rate(hw), the rate the framework has cached;
    [junk fuel] are the contents of the uninitialised locals of the activation
    that runs with [fuel]. *)
Fixpoint meson_clk_pll_v4_set_rate (fuel : nat) (junk : nat -> locals) (old_rate : Z)
    map pll (rate prate : Z) : option (R * Z) :=
  match fuel with
  | O => None
  | S fuel' =>
      if (prate =? 0) || (rate =? 0) then Some (map, - EINVAL)
      else
        let '(ret, m, n, od, frac) := meson_clk_pll_v4_get_params pll rate prate (junk fuel) in
        if truthy ret then Some (map, ret)
        else if meson_clk_pll_od_or_frac_correct map pll m n then
          Some (v4_set_running map pll od frac, 0)
        else
          let enabled := meson_parm_read map (p_en pll) in
          let map := if truthy enabled then meson_clk_pll_v4_disable map pll else map in
          let map := v4_program map pll prate m n od frac in
          if negb (truthy enabled) then Some (map, 0)
          else
            let '(map, ret) := meson_clk_pll_v4_enable map pll in
            if truthy ret then
              match meson_clk_pll_v4_set_rate fuel' junk old_rate map pll old_rate prate with
              | Some (map, _) => Some (map, ret)
              | None => None
              end
            else Some (map, ret)
  end.

(** [parent_rate] is clk_hw_get_rate(clk_hw_get_parent(hw)). *)
Definition meson_clk_pll_v4_restore_context (junk : nat -> locals) (old_rate : Z)
    map pll (parent_rate : Z) : option R :=
  let map :=
    if truthy (Z.of_nat (length (init_regs pll))) && negb (truthy (meson_clk_pll_is_enabled map pll))
    then v4_init_regs map pll else map in
  match meson_clk_pll_v4_set_rate 3 junk old_rate map pll (saved_rate pll) parent_rate with
  | None => None
  | Some (map, _) =>
      Some (if truthy (saved_is_enabled pll) then fst (meson_clk_pll_v4_enable map pll)
            else meson_clk_pll_v4_disable map pll)
  end.

End Ops.

(** ** The search *)

Lemma table_value_loop_spec table pll rate prate best m n od :
  __pll_round_closest_mult pll = false -> 0 <= best ->
  let rate_of e := meson_clk_pll_params_to_rate pll prate (t_m e) (t_n e) 0 (t_od e) in
  Forall (fun e => t_m e <> 0) table ->
  let r := table_value_loop table pll rate prate best m n od in
  (exists e, e ∈ table /\ r = (t_m e, t_n e, t_od e) /\ best < rate_of e <= rate /\
     forall e', e' ∈ table -> rate_of e' <= rate -> rate_of e' <= rate_of e) \/
  (r = (m, n, od) /\ forall e, e ∈ table -> rate_of e <= best \/ rate < rate_of e).
Proof.
  intros Hc Hbest rate_of Hall. revert best m n od Hbest.
  induction Hall as [|e table He Hall IH]; intros best m n od Hbest r.
  { right. split; [done|]. by intros e ?%elem_of_nil. }
  unfold r. cbn [table_value_loop]. rewrite (proj2 (Z.eqb_neq _ _) He). fold (rate_of e). cbn zeta.
  unfold meson_clk_pll_is_better. rewrite Hc.
  destruct ((rate_of e <=? rate) && (best <? rate_of e)) eqn:Eb; b2p.
  - destruct (Z.eqb_spec (rate_of e) rate) as [Heq | ].
    { left. exists e. split; [in_list|]. split; [done|]. split; [lia|]. intros. lia. }
    destruct (IH (rate_of e) (t_m e) (t_n e) (t_od e)) as [(e' & Hin & Hr & Hlt & Hmax)|[Hr Hmax]]; [lia|..];
      left; rewrite Hr.
    + exists e'. split; [in_list|]. split; [done|]. split; [lia|].
      intros e1 [-> | Hin1]%elem_of_cons Hle; [lia|auto].
    + exists e. split; [in_list|]. split; [done|]. split; [lia|].
      intros e1 [-> | Hin1]%elem_of_cons Hle; [lia|]. destruct (Hmax e1 Hin1); lia.
  - assert (rate_of e <= best \/ rate < rate_of e).
    { apply andb_false_iff in Eb as [?|?]; b2p; lia. }
    destruct (IH best m n od Hbest) as [(e' & Hin & Hr & Hlt & Hmax)|[Hr Hmax]]; rewrite Hr.
    + left. exists e'. split; [in_list|]. split; [done|]. split; [lia|].
      intros e1 [-> | Hin1]%elem_of_cons Hle; [lia|auto].
    + right. split; [done|]. intros e1 [-> | Hin1]%elem_of_cons; auto.
Qed.

(** Table-driven v4 PLLs, rounding down: the search returns the best entry
    not above the request; when no entry has a positive rate within the
    request it still returns 0, and the parameters are whatever the caller's
    uninitialised locals held. *)
Theorem v4_table_search pll table rate prate l :
  p_range pll = None -> p_table pll = Some table -> __pll_round_closest_mult pll = false ->
  Forall (fun e => t_m e <> 0) table ->
  let rate_of e := meson_clk_pll_params_to_rate pll prate (t_m e) (t_n e) 0 (t_od e) in
  let r := meson_clk_pll_get_params_table pll rate prate l in
  (exists e, e ∈ table /\ r = (0, t_m e, t_n e, t_od e) /\ 0 < rate_of e <= rate /\
     forall e', e' ∈ table -> rate_of e' <= rate -> rate_of e' <= rate_of e) \/
  (r = (0, l_m l, l_n l, l_od l) /\ forall e, e ∈ table -> rate_of e <= 0 \/ rate < rate_of e).
Proof.
  intros Hr Ht Hc Hall rate_of r. unfold r, meson_clk_pll_get_params_table. rewrite Hr, Ht.
  unfold meson_clk_pll_get_table_value.
  destruct (table_value_loop_spec table pll rate prate 0 (l_m l) (l_n l) (l_od l) Hc ltac:(lia) Hall)
    as [(e & Hin & Hx & Hrest)|[Hx Hrest]]; rewrite Hx; [left|right]; eauto.
Qed.

(** ** Registers *)

Definition v4_switch_fields (pll : meson_clk_pll_data) : list parm :=
  p_rst pll :: opt_field (p_l_rst pll) ++ opt_field (p_fl pll).
Definition v4_par_fields (pll : meson_clk_pll_data) : list parm :=
  p_n pll :: p_m pll :: p_od pll :: opt_field (p_frac pll).
Definition v4_fields (pll : meson_clk_pll_data) : list parm :=
  p_en pll :: v4_switch_fields pll ++ opt_field (p_th pll) ++ v4_par_fields pll.

Section Spec.
Context {R : Type} `{RegmapOk R}.
Context (clk_hw_is_enabled : R -> bool) (bypass_clk_disable : bool) (pll : meson_clk_pll_data).
Implicit Types (map : R).

Local Abbreviation enable map := (meson_clk_pll_v4_enable clk_hw_is_enabled map pll).
Local Abbreviation disable map := (meson_clk_pll_v4_disable bypass_clk_disable map pll).
Local Abbreviation set_rate := (meson_clk_pll_v4_set_rate clk_hw_is_enabled bypass_clk_disable).

Definition v4_wf : Prop := fields_ok (v4_fields pll).

Lemma elem_opt p : MESON_PARM_APPLICABLE p = true -> p ∈ opt_field p.
Proof. intros E. unfold opt_field. rewrite E. in_list. Qed.

Lemma wf_field p : v4_wf -> p ∈ v4_fields pll -> parm_wf p /\ parm_stable p.
Proof. intros (Hw & Hs & _) Hp. rewrite Forall_forall in Hw, Hs. auto. Qed.

(** Everything enable writes after the enable bit, and before the lock. *)
Lemma v4_enable_writes map :
  writes_only (p_en pll :: v4_switch_fields pll) map (enable map).1.
Proof.
  unfold meson_clk_pll_v4_enable. destruct (clk_hw_is_enabled map); [constructor|].
  match goal with |- context [meson_clk_pll_wait_lock ?x pll] => pose proof (wait_lock_spec pll x) as Hw;
    set (map5 := x) in * end.
  destruct (meson_clk_pll_wait_lock map5 pll) as [map' ret]. destruct Hw as [Hw _].
  apply (wo_mono _ (p_en pll :: v4_switch_fields pll)) in Hw; [|by intros ? ?%elem_of_nil].
  assert (H5 : writes_only (p_en pll :: v4_switch_fields pll) map map').
  { eapply wo_trans; [|exact Hw]. unfold map5, v4_switch_fields, opt_field.
    destruct (MESON_PARM_APPLICABLE (p_l_rst pll)), (MESON_PARM_APPLICABLE (p_fl pll)); frame_steps. }
  case_if; [done|]. destruct (MESON_PARM_APPLICABLE (p_fl pll)) eqn:Efl; [|done].
  apply wo_write; [done|]. pose proof (elem_opt _ Efl). unfold v4_switch_fields. in_list.
Qed.

(** A failed enable leaves the enable bit set. *)
Lemma v4_enable_en map :
  v4_wf -> (enable map).2 <> 0 -> meson_parm_read (enable map).1 (p_en pll) = 1.
Proof.
  intros Hwf. unfold meson_clk_pll_v4_enable. destruct (clk_hw_is_enabled map); [done|].
  set (map1 := meson_parm_write (meson_parm_write map (p_rst pll) (reset_on pll)) (p_en pll) 1).
  match goal with |- context [meson_clk_pll_wait_lock ?x pll] => pose proof (wait_lock_spec pll x) as Hw;
    set (map5 := x) in * end.
  destruct (meson_clk_pll_wait_lock map5 pll) as [map' ret]. destruct Hw as [Hw _].
  destruct (truthy ret); [|by case_if]. intros _. cbn [fst].
  assert (H5 : writes_only (v4_switch_fields pll) map1 map').
  { eapply wo_trans; [|apply (wo_mono []); [by intros ? ?%elem_of_nil|exact Hw]].
    unfold map5, v4_switch_fields, opt_field.
    destruct (MESON_PARM_APPLICABLE (p_l_rst pll)), (MESON_PARM_APPLICABLE (p_fl pll)); frame_steps. }
  assert (Hin : p_en pll ∈ v4_fields pll) by (unfold v4_fields; in_list). destruct (wf_field _ Hwf Hin).
  rewrite (fields_read _ _ _ _ _ Hwf H5); [|intros p Hp; unfold v4_fields; in_list|done|].
  - unfold map1. rewrite parm_read_write by done. by apply one_mod_width.
  - apply fields_ok_NoDup in Hwf. unfold v4_fields in Hwf. apply NoDup_cons in Hwf as [Hn _].
    intros Hx. apply Hn. in_list.
Qed.

Lemma v4_program_writes map prate m n od frac :
  writes_only (opt_field (p_th pll) ++ v4_par_fields pll) map (v4_program map pll prate m n od frac).
Proof.
  unfold v4_program, v4_par_fields, opt_field.
  destruct (MESON_PARM_APPLICABLE (p_th pll)), (MESON_PARM_APPLICABLE (p_frac pll)); frame_steps.
Qed.

(** The setting fits the fields. *)
Definition v4_fits (m n od : Z) : Prop :=
  setting_fits pll m n /\ 0 <= od < 2 ^ width (p_od pll).

Lemma v4_par_ok : v4_wf -> fields_ok (v4_par_fields pll).
Proof. intros (_ & _ & [_ [(_ & ? & _)%fields_ok_app _]]%fields_ok_app)%fields_ok_cons. done. Qed.

Lemma v4_program_read map prate m n od frac :
  v4_wf -> v4_fits m n od ->
  let map' := v4_program map pll prate m n od frac in
  meson_parm_read map' (p_n pll) = n /\ meson_parm_read map' (p_m pll) = m /\
  meson_parm_read map' (p_od pll) = od /\
  (MESON_PARM_APPLICABLE (p_frac pll) = true ->
   meson_parm_read map' (p_frac pll) = frac mod 2 ^ width (p_frac pll)).
Proof.
  intros Hwf [[Hm Hn] Hod]. unfold v4_program.
  match goal with |- context [meson_parm_write ?x (p_n pll) n] => generalize x; intros map1 end.
  destruct (fields_ok_cons _ _ (v4_par_ok Hwf)) as ((? & ?) & Hdn & Hok).
  apply fields_ok_cons in Hok as ((? & ?) & Hdm & Hok).
  apply fields_ok_cons in Hok as ((? & ?) & Hdo & Hok).
  destruct (Hdn (p_m pll)) as [? ?]; [in_list|]. destruct (Hdn (p_od pll)) as [? ?]; [in_list|].
  destruct (Hdm (p_od pll)) as [? ?]; [in_list|].
  destruct (MESON_PARM_APPLICABLE (p_frac pll)) eqn:Ef; cbn zeta.
  - pose proof (elem_opt _ Ef). unfold opt_field in Hok. rewrite Ef in Hok.
    apply fields_ok_cons in Hok as ((? & ?) & _).
    destruct (Hdn (p_frac pll)) as [? ?]; [in_list|]. destruct (Hdm (p_frac pll)) as [? ?]; [in_list|].
    destruct (Hdo (p_frac pll)) as [? ?]; [in_list|].
    split; [|split; [|split; [|intros _; by rewrite parm_read_write]]]; read_writes.
  - split; [|split; [|split; [|done]]]; read_writes.
Qed.

Lemma v4_par_read map map' q :
  v4_wf -> q ∈ v4_par_fields pll -> writes_only (p_en pll :: v4_switch_fields pll) map map' ->
  meson_parm_read map' q = meson_parm_read map q.
Proof.
  intros Hwf Hq Hw. apply (fields_read _ _ _ _ _ Hwf Hw).
  - intros p. unfold v4_fields. in_list.
  - unfold v4_fields. in_list.
  - apply fields_ok_NoDup in Hwf. unfold v4_fields in Hwf.
    rewrite app_comm_cons in Hwf. apply NoDup_app in Hwf as (_ & Hx & _).
    intros Hin. apply (Hx q Hin). in_list.
Qed.

Lemma elem_v4_n : p_n pll ∈ v4_par_fields pll. Proof. unfold v4_par_fields. in_list. Qed.
Lemma elem_v4_m : p_m pll ∈ v4_par_fields pll. Proof. unfold v4_par_fields. in_list. Qed.
Lemma elem_v4_od : p_od pll ∈ v4_par_fields pll. Proof. unfold v4_par_fields. in_list. Qed.
Lemma elem_v4_frac : MESON_PARM_APPLICABLE (p_frac pll) = true -> p_frac pll ∈ v4_par_fields pll.
Proof. intros ?%elem_opt. unfold v4_par_fields. in_list. Qed.

(** The search finds a setting for [rate], whatever the locals hold, and it
    fits the fields. *)
Definition v4_settled (rate prate m n od : Z) : Prop :=
  (forall l, meson_clk_pll_get_params_table pll rate prate l = (0, m, n, od)) /\ v4_fits m n od.

Lemma v4_settled_params rate prate m n od l :
  v4_settled rate prate m n od ->
  exists frac, meson_clk_pll_v4_get_params pll rate prate l = (0, m, n, od, frac).
Proof.
  intros [Hs _]. unfold meson_clk_pll_v4_get_params. rewrite Hs. cbn.
  destruct (MESON_PARM_APPLICABLE (p_frac pll)); eauto.
Qed.

(** Going back to the old rate from a PLL that did not lock. *)
Lemma v4_back_to_old junk old map prate m n od :
  v4_wf -> v4_settled old prate m n od -> meson_parm_read map (p_en pll) = 1 ->
  is_Some (set_rate 2 junk old map pll old prate).
Proof.
  intros Hwf Hs Hen. cbn [meson_clk_pll_v4_set_rate]. case_if; [by eexists|].
  destruct (v4_settled_params _ _ _ _ _ (junk 2%nat) Hs) as [frac ->].
  destruct (v4_settled_params _ _ _ _ _ (junk 1%nat) Hs) as [frac' ->].
  change (truthy 0) with false. cbv iota. case_if; [by eexists|]. rewrite Hen.
  change (truthy 1) with true. cbn [negb].
  match goal with |- context [v4_program ?x pll prate m n od frac] => set (map1 := x) end.
  destruct Hs as [_ Hfits].
  destruct (v4_program_read map1 prate m n od frac Hwf Hfits) as (Hn & Hm & _).
  set (map2 := v4_program map1 pll prate m n od frac) in *.
  pose proof (v4_enable_writes map2) as Hw. pose proof (v4_enable_en map2 Hwf) as He.
  destruct (enable map2) as [map3 ret]. cbn [fst snd] in Hw, He.
  destruct (truthy ret) eqn:Er; [|by eexists]. unfold truthy in Er. b2p.
  assert (Hfast : meson_clk_pll_od_or_frac_correct map3 pll m n = true).
  { unfold meson_clk_pll_od_or_frac_correct.
    rewrite !(v4_par_read map2 map3) by auto using elem_v4_n, elem_v4_m.
    rewrite Hn, Hm, !Z.eqb_refl, He by done. done. }
  rewrite Hfast. by eexists.
Qed.

Lemma v4_set_rate_total junk old map rate prate m n od :
  v4_wf -> old = 0 \/ v4_settled old prate m n od ->
  is_Some (set_rate 3 junk old map pll rate prate).
Proof.
  intros Hwf Hold.
  assert (Hback : forall map, meson_parm_read map (p_en pll) = 1 ->
                  is_Some (set_rate 2 junk old map pll old prate)).
  { intros map1 Hen. destruct Hold as [-> | Hs]; [|by eapply v4_back_to_old].
    cbn. rewrite orb_true_r. by eexists. }
  remember 2%nat as two eqn:E2. cbn [meson_clk_pll_v4_set_rate]. case_if; [by eexists|].
  destruct (meson_clk_pll_v4_get_params _ _ _ _) as [[[[ret m1] n1] od1] frac1].
  case_if; [by eexists|]. case_if; [by eexists|]. cbn zeta. case_if; [by eexists|].
  match goal with |- context [enable ?x] => pose proof (v4_enable_en x Hwf) as He;
    destruct (enable x) as [map3 ret3] end. cbn [fst snd] in He.
  destruct (truthy ret3) eqn:Er; [|by eexists]. unfold truthy in Er. b2p.
  destruct (Hback map3 (He Er)) as [[map4 r4] ->]. by eexists.
Qed.

(** Meson_clk_pll_v4_set_rate always returns, within three nested
    activations, on hardware that may or may not lock, provided the rate to go
    back to is 0 or has a setting: the recursion its FIXME comment fears
    cannot go on. *)
Theorem v4_set_rate_terminates junk old map rate prate m n od :
  v4_wf -> old = 0 \/ v4_settled old prate m n od ->
  is_Some (set_rate 3 junk old map pll rate prate).
Proof. apply v4_set_rate_total. Qed.

(** The parameters are in the registers. *)
Definition v4_programmed map (m n od frac : Z) : Prop :=
  meson_parm_read map (p_n pll) = n /\ meson_parm_read map (p_m pll) = m /\
  meson_parm_read map (p_od pll) = od /\ meson_parm_read map (p_frac pll) = frac.

(** The running branch would have to write a zero over an old value. *)
Definition v4_stale map (m n od frac : Z) : Prop :=
  meson_clk_pll_od_or_frac_correct map pll m n = true /\
  (frac = 0 /\ meson_parm_read map (p_frac pll) <> 0 \/ od = 0 /\ meson_parm_read map (p_od pll) <> 0).

Lemma v4_running_programmed map m n od frac :
  v4_wf -> MESON_PARM_APPLICABLE (p_frac pll) = true -> v4_fits m n od ->
  0 <= frac < 2 ^ width (p_frac pll) ->
  meson_clk_pll_od_or_frac_correct map pll m n = true -> ~ v4_stale map m n od frac ->
  v4_programmed (v4_set_running map pll od frac) m n od frac.
Proof.
  intros Hwf Ef [[Hm Hn] Hod] Hf Hfast Hst.
  assert (Hs : (frac = 0 -> meson_parm_read map (p_frac pll) = 0) /\
               (od = 0 -> meson_parm_read map (p_od pll) = 0)).
  { split; intros ->; apply Z.eq_dne; intros Hne; apply Hst; split; auto. }
  clear Hst. destruct Hs as [Hs1 Hs2].
  unfold meson_clk_pll_od_or_frac_correct in Hfast. b2p.
  destruct (fields_ok_cons _ _ (v4_par_ok Hwf)) as ((? & ?) & Hdn & Hok).
  apply fields_ok_cons in Hok as ((? & ?) & Hdm & Hok).
  apply fields_ok_cons in Hok as ((? & ?) & Hdo & Hok).
  pose proof (elem_opt _ Ef) as Hin. unfold opt_field in Hok. rewrite Ef in Hok.
  apply fields_ok_cons in Hok as ((? & ?) & _).
  destruct (Hdn (p_od pll)) as [? ?]; [in_list|]. destruct (Hdm (p_od pll)) as [? ?]; [in_list|].
  destruct (Hdn (p_frac pll)) as [? ?]; [in_list|]. destruct (Hdm (p_frac pll)) as [? ?]; [in_list|].
  destruct (Hdo (p_frac pll) Hin) as [? ?].
  unfold v4_set_running, v4_programmed, truthy.
  destruct (Z.eqb_spec frac 0) as [-> | ]; cbn [negb andb];
    [|destruct (Z.eqb_spec frac (meson_parm_read map (p_frac pll))); cbn [negb]];
    (destruct (Z.eqb_spec od 0) as [-> | ]; cbn [negb andb];
     [|match goal with |- context [od =? ?x] => destruct (Z.eqb_spec od x) as [Ho | Ho] end; cbn [negb]]);
    repeat split; read_writes; auto; try (revert Ho; read_writes; congruence).
Qed.

Lemma v4_set_rate_success fuel junk old map map' rate prate m n od hw_rate l :
  v4_wf -> MESON_PARM_APPLICABLE (p_frac pll) = true -> has pll CLK_MESON_PLL_READ_ONLY = false ->
  0 < rate -> 0 < prate -> v4_settled rate prate m n od ->
  let frac := meson_clk_pll_get_param_frac pll rate prate m n od in
  0 <= frac < 2 ^ width (p_frac pll) -> ~ v4_stale map m n od frac ->
  set_rate (S fuel) junk old map pll rate prate = Some (map', 0) ->
  meson_clk_pll_v4_determine_rate pll hw_rate rate prate l
  = (0, meson_clk_pll_v4_recalc_rate map' pll prate).
Proof.
  intros Hwf Ef Hro Hr Hp Hs frac Hfrac Hst.
  assert (Hpar : forall l, meson_clk_pll_v4_get_params pll rate prate l = (0, m, n, od, frac)).
  { intros l'. unfold meson_clk_pll_v4_get_params. destruct Hs as [-> _]. by rewrite Ef. }
  cbn [meson_clk_pll_v4_set_rate]. rewrite Hpar, !(proj2 (Z.eqb_neq _ 0)) by lia. cbn [orb].
  change (truthy 0) with false. cbv iota. unfold meson_clk_pll_v4_determine_rate. rewrite Hro, Hpar.
  change (truthy 0) with false. cbv iota. intros Hset.
  enough (v4_programmed map' m n od frac) as (Hn & Hm & Ho & Hf).
  { unfold meson_clk_pll_v4_recalc_rate. by rewrite Hn, Hm, Ho, Ef, Hf. }
  revert Hset. destruct Hs as [_ Hfits].
  destruct (meson_clk_pll_od_or_frac_correct map pll m n) eqn:Efast.
  { intros [= <-]. by apply v4_running_programmed. }
  match goal with |- context [v4_program ?x pll prate m n od frac] => generalize x; intros map1 end.
  destruct (v4_program_read map1 prate m n od frac Hwf Hfits) as (Hn & Hm & Ho & Hf).
  specialize (Hf Ef). rewrite (Z.mod_small frac) in Hf by done.
  destruct (negb _); [by intros [= <-]|].
  pose proof (v4_enable_writes (v4_program map1 pll prate m n od frac)) as Hw.
  destruct (enable (v4_program map1 pll prate m n od frac)) as [map3 ret]. cbn [fst] in Hw.
  destruct (truthy ret) eqn:Er.
  { destruct (set_rate _ _ _ _ _ _ _) as [[? ?]|]; [|done]. intros [= <- ->]. done. }
  intros [= <- _]. unfold v4_programmed.
  by rewrite !(v4_par_read _ map3 _ Hwf) by (done || auto using elem_v4_n, elem_v4_m, elem_v4_od, elem_v4_frac).
Qed.

(** Meson_clk_pll_v4_set_rate returns, and when it returns 0 the registers
    are at the rate determine_rate announced, provided the fraction fits its
    field and the running branch does not have to write a zero over an old
    value. *)
Theorem v4_set_rate_recalc junk old map rate prate m0 n0 od0 m n od hw_rate l :
  v4_wf -> MESON_PARM_APPLICABLE (p_frac pll) = true -> has pll CLK_MESON_PLL_READ_ONLY = false ->
  0 < rate -> 0 < prate -> old = 0 \/ v4_settled old prate m0 n0 od0 ->
  v4_settled rate prate m n od ->
  let frac := meson_clk_pll_get_param_frac pll rate prate m n od in
  0 <= frac < 2 ^ width (p_frac pll) -> ~ v4_stale map m n od frac ->
  exists map' ret, set_rate 3 junk old map pll rate prate = Some (map', ret) /\
    (ret = 0 -> meson_clk_pll_v4_determine_rate pll hw_rate rate prate l
                = (0, meson_clk_pll_v4_recalc_rate map' pll prate)).
Proof.
  intros Hwf Ef Hro Hr Hp Hold Hs frac Hf Hst.
  destruct (v4_set_rate_total junk old map rate prate m0 n0 od0 Hwf Hold) as [[map' ret] E].
  exists map', ret. split; [done|]. intros ->. by eapply v4_set_rate_success.
Qed.
End Spec.

(** ** The HIFI PLL of the S6 (src/drivers/clk/meson/s6.c) on the simulated
       registers *)

Definition hifi_pll_table : list pll_params_table :=
  [PLL_PARAMS_v4 150 0 0; PLL_PARAMS_v4 150 0 2; PLL_PARAMS_v4 163 0 2].
Definition hifi_flags : Z :=
  CLK_MESON_PLL_ROUND_CLOSEST .| CLK_MESON_PLL_POWER_OF_TWO
  .| CLK_MESON_PLL_FIXED_FRAC_WEIGHT_PRECISION .| CLK_MESON_PLL_FIXED_EN0P5
  .| CLK_MESON_PLL_RSTN .| CLK_MESON_PLL_IGNORE_INIT.
Definition hifi_pll : meson_clk_pll_data :=
  PllData (Parm 0x100 28 1) (Parm 0x100 0 9) (Parm 0x100 12 3) (Parm 0x104 0 19) (Parm 0x100 31 1)
    (Parm 0x100 29 1) (Parm 0x10c 29 1) none none (Parm 0x100 20 3) none none
    [RegSeq 0x100 0x01010000 0; RegSeq 0x104 0x11480000 0; RegSeq 0x108 0x121db010 0;
     RegSeq 0x10c 0x20008010 0; RegSeq 0x110 0x00001000 0]
    (Some hifi_pll_table) None 0 0 0 hifi_flags 0 0 0 0 0.

Definition no_junk (_ : nat) : locals := Locals 0 0 0 0.

(** A request to the running or stopped PLL, with 24 MHz as its parent; the
    return value is 1 if the model runs out of fuel. *)
Definition hifi_set (old : Z) (s : sim) (rate : Z) : sim * Z :=
  default (s, 1)
    (meson_clk_pll_v4_set_rate (sim_enabled hifi_pll) false 3 no_junk old s hifi_pll rate 24000000).
(** The PLL programmed for [rate] and enabled. *)
Definition hifi_at (rate : Z) : sim :=
  fst (meson_clk_pll_v4_enable (sim_enabled hifi_pll) (fst (hifi_set 0 (Sim ∅) rate)) hifi_pll).
Definition hifi_rate (s : sim) : Z := meson_clk_pll_v4_recalc_rate s hifi_pll 24000000.

(** The running branch writes the fraction and the output divider only
    when they are not zero.  With the HIFI PLL running at 490 MHz, a successful
    request for 489 MHz (same m and n, fraction 0) leaves it at the old rate. *)
Theorem v4_set_rate_stale_frac :
  let s := hifi_at 490000000 in
  let '(s', ret) := hifi_set (hifi_rate s) s 489000000 in
  hifi_rate s = 489999990 /\ ret = 0 /\
  meson_clk_pll_v4_determine_rate hifi_pll (hifi_rate s) 489000000 24000000 (no_junk 0) = (0, 489000000) /\
  hifi_rate s' = hifi_rate s.
Proof. vm_compute. repeat split. Qed.

(** Meson_clk_pll_v4_ops saves its rate with meson_clk_pll_save_context,
    whose rate computation ignores the output divider.  The HIFI PLL running
    at 489 MHz is resumed at 1812 MHz. *)
Theorem v4_save_restore_wrong_rate :
  let s := hifi_at 489000000 in
  let pll' := meson_clk_pll_save_context s hifi_pll 24000000 in
  hifi_rate s = 489000000 /\
  option_map hifi_rate
    (meson_clk_pll_v4_restore_context (sim_enabled hifi_pll) false no_junk 489000000 (Sim ∅) pll' 24000000)
  = Some 1812000000.
Proof. vm_compute. repeat split. Qed.

Lemma hifi_wf : v4_wf (R := sim) hifi_pll.
Proof. apply sim_fields_ok; reflexivity. Qed.

Lemma hifi_settled rate :
  rate = 489000000 \/ rate = 490000000 -> v4_settled hifi_pll rate 24000000 163 0 2.
Proof.
  intros [-> | ->]; (split; [intros l; vm_compute; reflexivity|]);
    unfold v4_fits, setting_fits; cbn; lia.
Qed.

Lemma v4_table_search_witness :
  let rate_of e := meson_clk_pll_params_to_rate hifi_pll 24000000 (t_m e) (t_n e) 0 (t_od e) in
  let r := meson_clk_pll_get_params_table hifi_pll 490000000 24000000 (no_junk 0) in
  (exists e, e ∈ hifi_pll_table /\ r = (0, t_m e, t_n e, t_od e) /\ 0 < rate_of e <= 490000000 /\
     forall e', e' ∈ hifi_pll_table -> rate_of e' <= 490000000 -> rate_of e' <= rate_of e) \/
  (r = (0, 0, 0, 0) /\ forall e, e ∈ hifi_pll_table -> rate_of e <= 0 \/ 490000000 < rate_of e).
Proof.
  apply v4_table_search; [reflexivity | reflexivity | reflexivity | repeat constructor; discriminate].
Defined.

Lemma v4_set_rate_terminates_witness :
  is_Some (meson_clk_pll_v4_set_rate (sim_enabled hifi_pll) false 3 no_junk 489000000 (Sim ∅)
             hifi_pll 490000000 24000000).
Proof.
  apply (v4_set_rate_terminates (sim_enabled hifi_pll) false hifi_pll _ _ _ _ _ 163 0 2);
    [apply hifi_wf | right; apply hifi_settled; auto].
Defined.

Lemma v4_set_rate_recalc_witness :
  exists map' ret,
    meson_clk_pll_v4_set_rate (sim_enabled hifi_pll) false 3 no_junk 0 (Sim ∅) hifi_pll 490000000 24000000
      = Some (map', ret) /\
    (ret = 0 -> meson_clk_pll_v4_determine_rate hifi_pll 0 490000000 24000000 (no_junk 0)
                = (0, meson_clk_pll_v4_recalc_rate map' hifi_pll 24000000)).
Proof.
  apply (v4_set_rate_recalc (sim_enabled hifi_pll) false hifi_pll no_junk 0 (Sim ∅)
           490000000 24000000 0 0 0 163 0 2 0 (no_junk 0));
    [apply hifi_wf | reflexivity | reflexivity | lia | lia | left; reflexivity | apply hifi_settled; auto
    | vm_compute; split; [discriminate | reflexivity]
    | intros [Hx _]; vm_compute in Hx; discriminate].
Defined.
End PllV4.
