(* ===== verification/DmxCrc.v ===== *)
(** * Section CRC of the software demux
      (src/drivers/dvb/demux/sw_demux/swdmx_crc32.c)

    The table-driven CRC-32/MPEG-2.  The reference is the bit-serial shift
    register of ISO/IEC 13818-1 Annex A: the table lookup performs exactly
    eight of its steps.  From the algebra of the register follow the two facts
    the demux relies on: a section that ends with its CRC leaves 0, and any
    error confined to four consecutive bytes leaves something else. *)

From S2P Require Import Prelude.
From stdpp Require Import base list numbers.

Local Open Scope Z_scope.
Local Open Scope cint_scope.

Module Crc.

Definition POLY : Z := 0x04c11db7.

(** The inner loop of crc32_table_init. *)
Fixpoint table_loop (fuel : nat) (j k : Z) : option Z :=
  match fuel with
  | O => None
  | S fuel =>
      if j =? 0x80000000 then Some k
      else
        table_loop fuel (u32 (j << 1))
          (u32 (k << 1) .^ (if truthy ((k .^ j) .& 0x80000000) then POLY else 0))
  end.

Definition table_entry (i : Z) : option Z := table_loop 9 (u32 (i << 24) .| 0x800000) 0.

(** crc32_table after crc32_table_init; every entry is computed in 8 steps
    ([table_entry_total]). *)
Definition crc32_table : list Z :=
  (fun i => default 0 (table_entry (Z.of_nat i))) <$> seq 0 256.

Definition crc32_table_init : option (list Z) :=
  mapM (fun i => table_entry (Z.of_nat i)) (seq 0 256).

(** One iteration of the while loop of swdmx_crc32. *)
Definition crc_byte (i_crc b : Z) : Z :=
  u32 (i_crc << 8) .^ (crc32_table !!! Z.to_nat ((i_crc >> 24) .^ b)).

Definition swdmx_crc32 (p : list Z) : Z := foldl crc_byte 0xffffffff p.

(** ** The bit-serial reference *)

(** One step of the shift register with input bit [b]. *)
Definition ref_bit (c : Z) (b : bool) : Z :=
  u32 (c << 1) .^ (if xorb (Z.testbit c 31) b then POLY else 0).

(** The bits of a byte, most significant first. *)
Definition byte_bits (b : Z) : list bool :=
  (fun i => Z.testbit b (7 - Z.of_nat i)) <$> seq 0 8.

Definition ref_crc (p : list Z) : Z := foldl ref_bit 0xffffffff (p ≫= byte_bits).

Definition is_byte (b : Z) : Prop := 0 <= b < 256.
Definition is_u32 (c : Z) : Prop := 0 <= c < 2 ^ 32.

Lemma table_init_total : crc32_table_init = Some crc32_table.
Proof. vm_compute. reflexivity. Qed.

(** ** Algebra of the register *)

(** One step without input. *)
Definition step (c : Z) : Z := u32 (c << 1) .^ (if Z.testbit c 31 then POLY else 0).

Lemma u32_lxor a b : u32 (a .^ b) = u32 a .^ u32 b.
Proof.
  unfold u32. apply Z.bits_inj'. intros i Hi. rewrite Z.lxor_spec.
  destruct (Z.lt_ge_cases i 32); rewrite ?Z.mod_pow2_bits_low, ?Z.mod_pow2_bits_high by lia;
    [apply Z.lxor_spec|done].
Qed.

Lemma is_u32_lxor a b : is_u32 a -> is_u32 b -> is_u32 (a .^ b).
Proof. apply lxor_bound. lia. Qed.

Lemma step_u32 c : is_u32 (step c).
Proof. apply is_u32_lxor; [apply u32_range|]. unfold is_u32, POLY. case_if; lia. Qed.

Lemma step_lxor a b : step (a .^ b) = step a .^ step b.
Proof.
  unfold step. rewrite Z.shiftl_lxor, u32_lxor, Z.lxor_spec.
  destruct (Z.testbit a 31), (Z.testbit b 31); cbn [xorb];
    apply Z.bits_inj'; intros i Hi; rewrite !Z.lxor_spec, ?Z.bits_0;
    destruct (Z.testbit (u32 (a << 1)) i), (Z.testbit (u32 (b << 1)) i), (Z.testbit POLY i); done.
Qed.

Definition steps (n : nat) (c : Z) : Z := Nat.iter n step c.

Lemma steps_add n m c : steps (n + m) c = steps n (steps m c).
Proof. apply Nat.iter_add. Qed.

Lemma steps_S n c : steps (S n) c = step (steps n c).
Proof. done. Qed.

Lemma steps_lxor n a b : steps n (a .^ b) = steps n a .^ steps n b.
Proof. induction n as [|n IH]; [done|]. by rewrite !steps_S, IH, step_lxor. Qed.

Lemma steps_0 n : steps n 0 = 0.
Proof. induction n as [|n IH]; [done|]. by rewrite steps_S, IH. Qed.

Lemma steps_u32 n c : is_u32 c -> is_u32 (steps n c).
Proof. destruct n; [done|]. intros _. apply step_u32. Qed.

(** While no bit leaves the register, it only shifts. *)
Lemma steps_shift n c : 0 <= c < 2 ^ (32 - Z.of_nat n) -> (n <= 32)%nat ->
  steps n c = c << Z.of_nat n.
Proof.
  induction n as [|n IH]; intros Hc Hn; [by rewrite Z.shiftl_0_r|].
  assert (2 ^ (32 - Z.of_nat (S n)) * 2 = 2 ^ (32 - Z.of_nat n)).
  { rewrite <- (Z.pow_1_r 2) at 2. rewrite <- Z.pow_add_r by lia. f_equal. lia. }
  rewrite steps_S, IH by lia. unfold step.
  assert (Hp : 0 < 2 ^ Z.of_nat n) by lia.
  assert (2 ^ (32 - Z.of_nat (S n)) * 2 ^ Z.of_nat n = 2 ^ 31).
  { rewrite <- Z.pow_add_r by lia. f_equal. lia. }
  assert (0 <= c << Z.of_nat n < 2 ^ 31) by (rewrite Z.shiftl_mul_pow2 by lia; nia).
  rewrite (testbit_above _ 31) by lia. rewrite Z.lxor_0_r, Z.shiftl_shiftl by lia.
  rewrite u32_small; [f_equal; lia|]. rewrite <- Z.shiftl_shiftl by lia.
  rewrite (Z.shiftl_mul_pow2 _ 1) by lia. lia.
Qed.

(** The step can be undone: the polynomial is odd. *)
Lemma step_inj0 c : is_u32 c -> step c = 0 -> c = 0.
Proof.
  intros Hc H0. assert (Hb : Z.testbit (step c) 0 = Z.testbit c 31).
  { unfold step. rewrite Z.lxor_spec, testbit_u32, Z.shiftl_spec_low by lia. by case_if. }
  rewrite H0, Z.bits_0 in Hb. revert H0. unfold step. rewrite <- Hb, Z.lxor_0_r.
  intros H0. apply Z.bits_inj'. intros i Hi. rewrite Z.bits_0.
  destruct (Z.lt_ge_cases i 32); [|apply (testbit_above c 32); unfold is_u32 in Hc; lia].
  destruct (Z.eq_dec i 31) as [-> | ]; [done|].
  assert (Hx : Z.testbit (u32 (c << 1)) (i + 1) = false) by (rewrite H0; apply Z.bits_0).
  rewrite testbit_u32, Z.shiftl_spec in Hx by lia. by replace (i + 1 - 1) with i in Hx by lia.
Qed.

Lemma steps_inj n a b : is_u32 a -> is_u32 b -> steps n a = steps n b -> a = b.
Proof.
  intros Ha Hb H. apply Z.lxor_eq. assert (Hx : is_u32 (a .^ b)) by by apply is_u32_lxor.
  assert (H0 : steps n (a .^ b) = 0) by (rewrite steps_lxor, H; apply Z.lxor_nilpotent).
  clear H Ha Hb. induction n as [|n IH]; [done|]. apply IH. apply step_inj0; [|done].
  by apply steps_u32.
Qed.

(** ** The table *)

Lemma table_steps_all :
  forallb (fun i => crc32_table !!! i =? steps 8 (Z.of_nat i << 24)) (seq 0 256) = true.
Proof. vm_compute. reflexivity. Qed.

Lemma table_steps i : is_byte i -> crc32_table !!! Z.to_nat i = steps 8 (i << 24).
Proof.
  intros Hi. pose proof table_steps_all as Ht. rewrite forallb_forall in Ht.
  specialize (Ht (Z.to_nat i)). rewrite in_seq in Ht. unfold is_byte in Hi.
  specialize (Ht ltac:(lia)). apply Z.eqb_eq in Ht. by rewrite Ht, Z2Nat.id by lia.
Qed.

(** The table lookup is eight steps of the register. *)
Lemma crc_byte_steps c b : is_u32 c -> is_byte b -> crc_byte c b = steps 8 (c .^ (b << 24)).
Proof.
  intros Hc Hb. unfold crc_byte, is_u32, is_byte in *.
  assert (Hh : 0 <= c >> 24 < 256).
  { rewrite Z.shiftr_div_pow2 by lia. split; [apply Z.div_pos; lia|apply Z.div_lt_upper_bound; lia]. }
  rewrite table_steps by (apply (lxor_bound _ _ 8); lia).
  rewrite Z.shiftl_lxor, steps_lxor, <- Z.lxor_assoc, steps_lxor. f_equal.
  set (lo := c mod 2 ^ 24). assert (0 <= lo < 2 ^ 24) by (apply Z.mod_pos_bound; lia).
  assert (Hsplit : c = ((c >> 24) << 24) .^ lo).
  { apply Z.bits_inj'. intros i Hi. rewrite Z.lxor_spec, Z.shiftl_spec by lia. unfold lo.
    destruct (Z.lt_ge_cases i 24).
    - by rewrite (Z.testbit_neg_r _ (i - 24)), Z.mod_pow2_bits_low by lia.
    - rewrite Z.mod_pow2_bits_high, Z.shiftr_spec, xorb_false_r by lia. f_equal. lia. }
  assert (E1 : u32 (c << 8) = lo << 8).
  { rewrite !Z.shiftl_mul_pow2 by lia. unfold u32, lo. change (2 ^ 32) with (2 ^ 24 * 2 ^ 8).
    by rewrite Z.mul_mod_distr_r. }
  assert (E2 : steps 8 c = steps 8 ((c >> 24) << 24) .^ (lo << 8)).
  { rewrite Hsplit at 1. rewrite steps_lxor, (steps_shift 8 lo) by lia. reflexivity. }
  rewrite E1, E2. apply Z.lxor_comm.
Qed.

(** ** Feeding bits and words *)

(** Bits placed in a register from position [k] downwards. *)
Fixpoint word (bs : list bool) (k : Z) : Z :=
  match bs with
  | [] => 0
  | b :: bs => (Z.b2z b << k) .^ word bs (k - 1)
  end.

Lemma word_shift bs k :
  Z.of_nat (length bs) <= k + 1 -> word bs (k + 1) = word bs k << 1.
Proof.
  revert k. induction bs as [|b bs IH]; intros k Hk; cbn [word length] in *; [done|].
  rewrite Z.shiftl_lxor, Z.shiftl_shiftl by lia. f_equal.
  replace (k + 1 - 1) with (k - 1 + 1) by lia. apply IH. lia.
Qed.

Lemma word_bound bs k :
  Z.of_nat (length bs) <= k + 1 -> 0 <= word bs k < 2 ^ (k + 1).
Proof.
  revert k. induction bs as [|b bs IH]; intros k Hk; cbn [word length] in *; [lia|].
  apply lxor_bound; [lia|..].
  - rewrite Z.shiftl_mul_pow2, Z.pow_add_r by lia. destruct b; cbn [Z.b2z]; lia.
  - specialize (IH (k - 1) ltac:(lia)). replace (k - 1 + 1) with k in IH by lia.
    rewrite Z.pow_add_r by lia. lia.
Qed.

Lemma ref_bit_step c b : ref_bit c b = step (c .^ (Z.b2z b << 31)).
Proof.
  unfold ref_bit, step. rewrite Z.shiftl_lxor, u32_lxor, Z.lxor_spec, Z.shiftl_spec, Z.shiftl_shiftl by lia.
  change (31 - 31) with 0. change (31 + 1) with 32.
  assert (Z.testbit (Z.b2z b) 0 = b) as -> by (by destruct b).
  assert (u32 (Z.b2z b << 32) = 0) as -> by (by destruct b). by rewrite Z.lxor_0_r.
Qed.

(** Feeding up to 32 bits is as many steps of the register with the bits
    added at its top. *)
Lemma ref_bits_steps bs c :
  (length bs <= 32)%nat -> foldl ref_bit c bs = steps (length bs) (c .^ word bs 31).
Proof.
  revert c. induction bs as [|b bs IH]; intros c Hl; cbn [length foldl word] in *.
  { by rewrite Z.lxor_0_r. }
  rewrite IH, ref_bit_step by lia. replace (S (length bs)) with (length bs + 1)%nat by lia.
  rewrite steps_add. apply (f_equal (steps (length bs))). rewrite (steps_S 0).
  change (steps 0 (c .^ ((Z.b2z b << 31) .^ word bs (31 - 1)))) with (c .^ ((Z.b2z b << 31) .^ word bs (31 - 1))).
  rewrite <- Z.lxor_assoc, (step_lxor (c .^ _)). apply (f_equal (Z.lxor _)).
  change (31 - 1) with 30. pose proof (word_bound bs 30 ltac:(lia)) as Hb. change (30 + 1) with 31 in Hb.
  unfold step. rewrite (testbit_above _ 31) by lia. rewrite Z.lxor_0_r.
  rewrite <- word_shift by lia. change (30 + 1) with 31. symmetry. apply u32_small.
  pose proof (word_bound bs 31 ltac:(lia)). lia.
Qed.

Lemma byte_word_all :
  forallb (fun i => word (byte_bits (Z.of_nat i)) 31 =? Z.of_nat i << 24) (seq 0 256) = true.
Proof. vm_compute. reflexivity. Qed.

Lemma byte_word b : is_byte b -> word (byte_bits b) 31 = b << 24.
Proof.
  intros Hb. pose proof byte_word_all as Ht. rewrite forallb_forall in Ht.
  specialize (Ht (Z.to_nat b)). rewrite in_seq in Ht. unfold is_byte in Hb.
  specialize (Ht ltac:(lia)). apply Z.eqb_eq in Ht. by rewrite Z2Nat.id in Ht by lia.
Qed.

Lemma crc_byte_u32 c b : is_u32 c -> is_byte b -> is_u32 (crc_byte c b).
Proof.
  intros Hc Hb. rewrite crc_byte_steps by done. apply steps_u32, is_u32_lxor; [done|].
  unfold is_byte, is_u32 in *. rewrite Z.shiftl_mul_pow2 by lia. lia.
Qed.

Lemma foldl_crc_u32 p c : is_u32 c -> Forall is_byte p -> is_u32 (foldl crc_byte c p).
Proof.
  intros Hc Hp. revert c Hc. induction Hp as [|b p Hb Hp IH]; intros c Hc; [done|].
  cbn [foldl]. apply IH. by apply crc_byte_u32.
Qed.

(** A big-endian 32-bit word. *)
Definition be32 (w : Z) : list Z := [w >> 24; (w >> 16) .& 255; (w >> 8) .& 255; w .& 255].

(** Four bytes from any register: 32 steps with the word added. *)
Lemma crc_word c b0 b1 b2 b3 :
  is_u32 c -> is_byte b0 -> is_byte b1 -> is_byte b2 -> is_byte b3 ->
  foldl crc_byte c [b0; b1; b2; b3]
  = steps 32 (c .^ (b0 << 24) .^ (b1 << 16) .^ (b2 << 8) .^ b3).
Proof.
  intros Hc H0 H1 H2 H3. cbn [foldl].
  assert (U : forall b, is_byte b -> is_u32 (b << 24)).
  { intros b Hb. unfold is_byte, is_u32 in *. rewrite Z.shiftl_mul_pow2 by lia. lia. }
  repeat (rewrite crc_byte_steps; [|repeat (apply crc_byte_u32; try done)|done]); [|done].
  assert (S8 : forall k b, is_byte b -> 0 <= k <= 16 -> b << (k + 8) = steps 8 (b << k)).
  { intros k b Hb Hk. rewrite steps_shift; [by rewrite Z.shiftl_shiftl by lia| |lia].
    unfold is_byte in Hb. rewrite Z.shiftl_mul_pow2 by lia.
    assert (2 ^ k <= 2 ^ 16) by (apply Z.pow_le_mono_r; lia). change (32 - Z.of_nat 8) with 24. nia. }
  pose proof (fun b Hb => S8 16 b Hb ltac:(lia)) as S24. pose proof (fun b Hb => S8 8 b Hb ltac:(lia)) as S16.
  pose proof (fun b Hb => S8 0 b Hb ltac:(lia)) as S0. change (16 + 8) with 24 in S24.
  change (8 + 8) with 16 in S16. change (0 + 8) with 8 in S0.
  rewrite (S24 b1), (S24 b2), (S24 b3) by done. rewrite <- !steps_lxor.
  rewrite (S16 b2), (S16 b3) by done. rewrite <- !steps_lxor.
  rewrite (S0 b3), Z.shiftl_0_r by done.
  rewrite <- !steps_lxor, <- !steps_add. reflexivity.
Qed.

(** ** Theorems *)

Lemma byte_at_bit c k i :
  0 <= k -> 0 <= i ->
  Z.testbit (((c >> k) .& 255) << k) i = Z.testbit c i && ((k <=? i) && (i <? k + 8)).
Proof.
  intros Hk Hi. rewrite Z.shiftl_spec, Z.land_spec by lia. change 255 with (Z.ones 8).
  destruct (Z.leb_spec k i); cbn [andb].
  - rewrite Z.shiftr_spec, Z.testbit_ones_nonneg by lia. f_equal; [f_equal; lia|].
    destruct (Z.ltb_spec (i - k) 8), (Z.ltb_spec i (k + 8)); lia || done.
  - by rewrite (Z.testbit_neg_r (c >> k)), andb_false_r by lia.
Qed.

(** The bytes of a word put together again. *)
Lemma be32_word c :
  is_u32 c ->
  ((c >> 24) << 24) .^ (((c >> 16) .& 255) << 16) .^ (((c >> 8) .& 255) << 8) .^ (c .& 255) = c.
Proof.
  intros Hc. replace (c .& 255) with (((c >> 0) .& 255) << 0) by (by rewrite Z.shiftl_0_r, Z.shiftr_0_r).
  replace (c >> 24) with ((c >> 24) .& 255).
  2:{ change 255 with (2 ^ 8 - 1). rewrite land_mask_mod, Z.shiftr_div_pow2 by lia.
      apply Z.mod_small. unfold is_u32 in Hc. split; [apply Z.div_pos; lia|apply Z.div_lt_upper_bound; lia]. }
  apply Z.bits_inj'. intros i Hi. rewrite !Z.lxor_spec, !byte_at_bit by lia.
  destruct (Z.lt_ge_cases i 32); [|rewrite (testbit_above c 32); done || lia].
  destruct (Z.leb_spec 24 i), (Z.ltb_spec i (24 + 8)), (Z.leb_spec 16 i), (Z.ltb_spec i (16 + 8)),
    (Z.leb_spec 8 i), (Z.ltb_spec i (8 + 8)), (Z.leb_spec 0 i), (Z.ltb_spec i (0 + 8)); try lia;
    cbn [andb]; rewrite ?andb_true_r, ?andb_false_r, ?xorb_false_l, ?xorb_false_r; done.
Qed.

Lemma shl_u32 b k : is_byte b -> 0 <= k <= 24 -> is_u32 (b << k).
Proof.
  unfold is_byte, is_u32. intros Hb Hk. rewrite Z.shiftl_mul_pow2 by lia.
  assert (0 < 2 ^ k <= 2 ^ 24) by (split; [|apply Z.pow_le_mono_r]; lia). nia.
Qed.

Lemma word_u32 c b0 b1 b2 b3 :
  is_u32 c -> is_byte b0 -> is_byte b1 -> is_byte b2 -> is_byte b3 ->
  is_u32 (c .^ (b0 << 24) .^ (b1 << 16) .^ (b2 << 8) .^ b3).
Proof.
  intros. repeat apply is_u32_lxor; try done; try (apply shl_u32; done || lia).
  unfold is_byte, is_u32 in *. lia.
Qed.

Lemma lxor_cancel_l a b c : a .^ b = a .^ c -> b = c.
Proof.
  intros H. apply (f_equal (Z.lxor a)) in H.
  by rewrite <- !Z.lxor_assoc, Z.lxor_nilpotent, !Z.lxor_0_l in H.
Qed.

(** A byte of a word read back. *)
Lemma four_bytes_byte b0 b1 b2 b3 :
  is_byte b0 -> is_byte b1 -> is_byte b2 -> is_byte b3 ->
  (b0 << 24) .^ (b1 << 16) .^ (b2 << 8) .^ b3 = b0 * 2 ^ 24 + b1 * 2 ^ 16 + b2 * 2 ^ 8 + b3.
Proof.
  unfold is_byte. intros.
  assert (X : forall hi lo n, 0 <= n -> 0 <= lo < 2 ^ n -> (hi << n) .^ lo = hi * 2 ^ n + lo).
  { intros hi lo n Hn Hlo. rewrite <- shiftl_lor_add by done. rewrite Z.lxor_lor; [done|].
    apply Z.bits_inj'. intros i Hi. rewrite Z.land_spec, Z.shiftl_spec, Z.bits_0 by lia.
    destruct (Z.lt_ge_cases i n); [by rewrite Z.testbit_neg_r by lia|].
    by rewrite (testbit_above lo n), andb_false_r by lia. }
  rewrite !Z.lxor_assoc. rewrite (X b2 b3 8) by lia. rewrite (X b1 _ 16) by lia. rewrite X by lia. lia.
Qed.

Lemma four_bytes_inj b0 b1 b2 b3 d0 d1 d2 d3 :
  is_byte b0 -> is_byte b1 -> is_byte b2 -> is_byte b3 ->
  is_byte d0 -> is_byte d1 -> is_byte d2 -> is_byte d3 ->
  (b0 << 24) .^ (b1 << 16) .^ (b2 << 8) .^ b3 = (d0 << 24) .^ (d1 << 16) .^ (d2 << 8) .^ d3 ->
  b0 = d0 /\ b1 = d1 /\ b2 = d2 /\ b3 = d3.
Proof. intros. rewrite !four_bytes_byte in * by done. unfold is_byte in *. lia. Qed.

(** C33: the initialisation of the table terminates with the table used, and
    the table-driven CRC is the bit-serial CRC-32/MPEG-2 of the standard, for
    every byte string. *)
Theorem swdmx_crc32_ref p :
  Forall is_byte p -> crc32_table_init = Some crc32_table /\ swdmx_crc32 p = ref_crc p.
Proof.
  intros Hp. split; [apply table_init_total|]. unfold swdmx_crc32, ref_crc. assert (Hc : is_u32 0xffffffff) by (unfold is_u32; lia).
  revert Hc. generalize 0xffffffff. induction Hp as [|b p Hb Hp IH]; intros c Hc; [done|].
  rewrite bind_cons, foldl_app. cbn [foldl].
  rewrite (ref_bits_steps (byte_bits b)) by (cbn; lia). change (length (byte_bits b)) with 8%nat.
  rewrite byte_word, <- crc_byte_steps by done. apply IH. by apply crc_byte_u32.
Qed.

(** A section that ends with its own CRC passes the check: the CRC over
    all of it is 0. *)
Theorem swdmx_crc32_residue p :
  Forall is_byte p -> swdmx_crc32 (p ++ be32 (swdmx_crc32 p)) = 0.
Proof.
  intros Hp. unfold swdmx_crc32. rewrite foldl_app.
  assert (Hc : is_u32 (foldl crc_byte 0xffffffff p)) by (apply foldl_crc_u32; [unfold is_u32; lia|done]).
  set (c := foldl crc_byte 0xffffffff p) in *. unfold be32. unfold is_u32 in Hc.
  assert (B : forall x, 0 <= x -> is_byte (x .& 255)).
  { intros x Hx. unfold is_byte. change 255 with (2 ^ 8 - 1). rewrite land_mask_mod by lia.
    pose proof (Z.mod_pos_bound x (2 ^ 8)). lia. }
  assert (is_byte (c >> 24)).
  { unfold is_byte. rewrite Z.shiftr_div_pow2 by lia.
    split; [apply Z.div_pos; lia|apply Z.div_lt_upper_bound; lia]. }
  rewrite crc_word; [|done|done|apply B; rewrite ?Z.shiftr_div_pow2 by lia; try apply Z.div_pos; lia..].
  rewrite !Z.lxor_assoc, <- (Z.lxor_assoc ((c >> 24) << 24)), <- (Z.lxor_assoc _ _ (c .& 255)).
  rewrite be32_word, Z.lxor_nilpotent by done. apply steps_0.
Qed.

(** An error confined to four consecutive bytes (a burst of up to 32
    bits) is always detected: byte strings that differ only there have
    different CRCs. *)
Theorem swdmx_crc32_burst pre post b0 b1 b2 b3 d0 d1 d2 d3 :
  Forall is_byte pre -> Forall is_byte post ->
  Forall is_byte [b0; b1; b2; b3] -> Forall is_byte [d0; d1; d2; d3] ->
  [b0; b1; b2; b3] <> [d0; d1; d2; d3] ->
  swdmx_crc32 (pre ++ [b0; b1; b2; b3] ++ post) <> swdmx_crc32 (pre ++ [d0; d1; d2; d3] ++ post).
Proof.
  unfold swdmx_crc32. rewrite !foldl_app. intros Hpre Hpost Hb Hd Hne. contradict Hne. revert Hne.
  assert (Hc : is_u32 (foldl crc_byte 0xffffffff pre)) by (apply foldl_crc_u32; [unfold is_u32; lia|done]).
  pose proof (foldl_crc_u32 _ _ Hc Hb) as U1. pose proof (foldl_crc_u32 _ _ Hc Hd) as U2.
  set (c := foldl crc_byte 0xffffffff pre) in *. intros Heq.
  assert (Heq' : foldl crc_byte c [b0; b1; b2; b3] = foldl crc_byte c [d0; d1; d2; d3]).
  { revert Heq U1 U2. generalize (foldl crc_byte c [b0; b1; b2; b3]), (foldl crc_byte c [d0; d1; d2; d3]).
    clear -Hpost. induction Hpost as [|x post Hx Hpost IH]; intros u v Huv Hu Hv; [done|].
    cbn [foldl] in Huv. apply IH in Huv; [|by apply crc_byte_u32..].
    rewrite !crc_byte_steps in Huv by done. apply steps_inj in Huv; [|apply is_u32_lxor; [done|by apply shl_u32]..].
    apply (lxor_cancel_l (x << 24)). by rewrite !(Z.lxor_comm (x << 24)). }
  clear Heq U1 U2 Hpost Hpre.
  apply Forall_cons_1 in Hb as [B0 [B1 [B2 [B3 _]%Forall_cons_1]%Forall_cons_1]%Forall_cons_1].
  apply Forall_cons_1 in Hd as [D0 [D1 [D2 [D3 _]%Forall_cons_1]%Forall_cons_1]%Forall_cons_1].
  rewrite !crc_word in Heq' by done. apply steps_inj in Heq'; [|by apply word_u32..].
  rewrite !Z.lxor_assoc in Heq'. apply lxor_cancel_l in Heq'. rewrite <- !Z.lxor_assoc in Heq'.
  apply four_bytes_inj in Heq' as (-> & -> & -> & ->); done.
Qed.

(** ** Concrete inputs *)

(** The check value of CRC-32/MPEG-2: the ASCII digits 1 to 9. *)
Definition digits : list Z := [0x31; 0x32; 0x33; 0x34; 0x35; 0x36; 0x37; 0x38; 0x39].
Lemma digits_bytes : Forall is_byte digits.
Proof. unfold is_byte. repeat constructor; cbn; lia. Qed.

Lemma swdmx_crc32_ref_witness :
  (crc32_table_init = Some crc32_table /\ swdmx_crc32 digits = ref_crc digits) /\
  swdmx_crc32 digits = 0x0376e6e7.
Proof. split; [apply swdmx_crc32_ref, digits_bytes | vm_compute; reflexivity]. Defined.

Lemma swdmx_crc32_residue_witness : swdmx_crc32 (digits ++ be32 0x0376e6e7) = 0.
Proof. exact (swdmx_crc32_residue digits digits_bytes). Defined.

Lemma swdmx_crc32_burst_witness :
  swdmx_crc32 (digits ++ [1; 2; 3; 4] ++ digits) <> swdmx_crc32 (digits ++ [1; 9; 3; 5] ++ digits).
Proof.
  apply (swdmx_crc32_burst digits digits 1 2 3 4 1 9 3 5);
    [apply digits_bytes | apply digits_bytes
    | unfold is_byte; repeat constructor; lia | unfold is_byte; repeat constructor; lia | discriminate].
Defined.
End Crc.
