(* ===== verification/DmxTsParser.v ===== *)
(** * TS packet parser of the software demux
      (src/drivers/dvb/demux/sw_demux/swdmx_ts_parser.c, swdmx_cb_list.c)

    Splits a byte stream into transport stream packets, decodes their headers
    and hands them to the registered callbacks.  Pointers into the input are
    modelled by the bytes they address: a slice that has the announced length
    lies inside the input.  A callback is its function and user pointer, and
    a call of it an event.  SWDMX_ASSERT spins on failure, so allocations and
    arguments are valid wherever the code continues. *)

From S2P Require Import Prelude.
From stdpp Require Import base list numbers.

Local Open Scope Z_scope.
Local Open Scope cint_scope.

Module TsParser.

Definition SWDMX_OK : Z := 1.
Definition SWDMX_ERR : Z := -1.

(** struct swdmx_cb_entry *)
Record cb_entry := CbEntry { cb : Z; cb_data : Z }.

#[global] Instance cb_entry_eq_dec : EqDecision cb_entry.
Proof. solve_decision. Defined.

Definition swdmx_cb_list_add (l : list cb_entry) (cb data : Z) : list cb_entry :=
  if cb =? 0 then l else l ++ [CbEntry cb data].

Fixpoint swdmx_cb_list_remove (l : list cb_entry) (c data : Z) : list cb_entry :=
  match l with
  | [] => []
  | ent :: l =>
      if (cb ent =? c) && (cb_data ent =? data) then l
      else ent :: swdmx_cb_list_remove l c data
  end.

Definition swdmx_cb_list_clear (l : list cb_entry) : list cb_entry := [].

(** struct swdmx_tspacket *)
Record swdmx_tspacket := TsPacket {
  pid : Z;
  payload_start : Z;
  priority : Z;
  error : Z;
  scramble : Z;
  cc : Z;
  packet : list Z;              (* packet, packet_len bytes *)
  adp_field : option (list Z);  (* adp_field, adp_field_len bytes *)
  adp_field_len : Z;
  payload : option (list Z);    (* payload, payload_len bytes *)
  payload_len : Z;
}.

Record swdmx_ts_parser := Parser { packet_size : Z; cb_list : list cb_entry }.

Definition swdmx_ts_parser_new : swdmx_ts_parser := Parser 188 [].

Definition swdmx_ts_parser_set_packet_size (tsp : swdmx_ts_parser) (size : Z) : swdmx_ts_parser * Z :=
  if size <? 188 then (tsp, SWDMX_ERR) else (Parser size (cb_list tsp), SWDMX_OK).

Definition swdmx_ts_parser_add_ts_packet_cb (tsp : swdmx_ts_parser) (cb data : Z)
  : swdmx_ts_parser * Z :=
  if cb =? 0 then (tsp, SWDMX_ERR)
  else (Parser (packet_size tsp) (swdmx_cb_list_add (cb_list tsp) cb data), SWDMX_OK).

Definition swdmx_ts_parser_remove_ts_packet_cb (tsp : swdmx_ts_parser) (cb data : Z)
  : swdmx_ts_parser * Z :=
  if cb =? 0 then (tsp, SWDMX_ERR)
  else (Parser (packet_size tsp) (swdmx_cb_list_remove (cb_list tsp) cb data), SWDMX_OK).

(** The bytes [p[off .. off+len-1]]. *)
Definition slice (p : list Z) (off len : Z) : list Z := take (Z.to_nat len) (drop (Z.to_nat off) p).

(** Header decoding of ts_packet; [None]: the packet is dropped. *)
Definition ts_packet_decode (packet_size : Z) (p : list Z) : option swdmx_tspacket :=
  let pid := ((p !!! 1%nat .& 0x1f) << 8) .| p !!! 2%nat in
  if pid =? 0x1fff then None
  else
    let error := (p !!! 1%nat .& 0x80) >> 7 in
    let payload_start := (p !!! 1%nat .& 0x40) >> 6 in
    let priority := (p !!! 1%nat .& 0x20) >> 5 in
    let scramble := p !!! 3%nat >> 6 in
    let afc := (p !!! 3%nat >> 4) .& 0x03 in
    let cc := p !!! 3%nat .& 0x0f in
    let off := 4 in
    let len := 184 in
    let adp_len := p !!! 4%nat in
    let '(off, len, adp, adp_len) :=
      if truthy (afc .& 2)
      then (off + 1 + adp_len, len - 1 - adp_len, Some (slice p 5 adp_len), adp_len)
      else (off, len, None, 0) in
    if truthy (afc .& 2) && (len <? 0) then None
    else
      let '(pay, pay_len) :=
        if truthy (afc .& 1) then (Some (slice p off len), len) else (None, 0) in
      Some (TsPacket pid payload_start priority error scramble cc (slice p 0 packet_size)
              adp adp_len pay pay_len).

(** A call of a TS packet callback. *)
Definition call : Type := cb_entry * swdmx_tspacket.

Definition ts_packet (tsp : swdmx_ts_parser) (p : list Z) : list call :=
  match ts_packet_decode (packet_size tsp) p with
  | Some pkt => (fun e => (e, pkt)) <$> cb_list tsp
  | None => []
  end.

(** The while loop on the bytes that are left; returns the calls and the rest. *)
Fixpoint run_loop (fuel : nat) (tsp : swdmx_ts_parser) (p : list Z) : option (list call * list Z) :=
  match fuel with
  | O => None
  | S fuel =>
      if packet_size tsp <=? Z.of_nat (length p) then
        if p !!! 0%nat =? 0x47 then
          match run_loop fuel tsp (drop (Z.to_nat (packet_size tsp)) p) with
          | Some (calls, rest) => Some (ts_packet tsp p ++ calls, rest)
          | None => None
          end
        else run_loop fuel tsp (drop 1 p)
      else Some ([], p)
  end.

(** Returns the calls made and the number of bytes parsed. *)
Definition swdmx_ts_parser_run (tsp : swdmx_ts_parser) (data : list Z) : option (list call * Z) :=
  match run_loop (S (length data)) tsp data with
  | Some (calls, rest) => Some (calls, Z.of_nat (length data) - Z.of_nat (length rest))
  | None => None
  end.

(** ** Header fields *)

Definition is_byte (b : Z) : Prop := 0 <= b < 256.

(** The packet size every parser has. *)
Definition parser_ok (tsp : swdmx_ts_parser) : Prop := 188 <= packet_size tsp.

Lemma parser_new_ok : parser_ok swdmx_ts_parser_new.
Proof. unfold parser_ok. cbn. lia. Qed.

Lemma parser_set_ok tsp size : parser_ok tsp -> parser_ok (swdmx_ts_parser_set_packet_size tsp size).1.
Proof. unfold swdmx_ts_parser_set_packet_size, parser_ok. intros. case_if; cbn; lia. Qed.

Lemma slice_length p off len :
  0 <= off -> 0 <= len -> off + len <= Z.of_nat (length p) -> Z.of_nat (length (slice p off len)) = len.
Proof. intros. unfold slice. rewrite length_take, length_drop. lia. Qed.

Lemma byte_at p i : Forall is_byte p -> is_byte (p !!! i).
Proof.
  intros Hp. destruct (p !! i) as [b|] eqn:E.
  - rewrite (list_lookup_total_correct _ _ _ E). rewrite Forall_lookup in Hp. by eapply Hp.
  - rewrite list_lookup_total_alt, E. unfold is_byte. cbn. lia.
Qed.

(** The parser never reads outside a packet.  For any packet contents the
    fields of a packet that is passed on have their ranges, and the packet,
    the adaptation field and the payload are slices of the announced lengths,
    the payload ending exactly at byte 188. *)
Theorem ts_packet_bounds tsp p pkt :
  parser_ok tsp -> Forall is_byte p -> packet_size tsp <= Z.of_nat (length p) ->
  ts_packet_decode (packet_size tsp) p = Some pkt ->
  (0 <= pid pkt < 0x1fff) /\ (0 <= scramble pkt < 4) /\ (0 <= cc pkt < 16) /\
  Z.of_nat (length (packet pkt)) = packet_size tsp /\
  (forall a, adp_field pkt = Some a -> Z.of_nat (length a) = adp_field_len pkt /\ 0 <= adp_field_len pkt <= 183) /\
  (forall a, payload pkt = Some a -> Z.of_nat (length a) = payload_len pkt /\
     (adp_field pkt = None -> payload_len pkt = 184) /\
     (adp_field pkt <> None -> payload_len pkt = 183 - adp_field_len pkt)).
Proof.
  unfold parser_ok. intros Hok Hb Hlen. unfold ts_packet_decode.
  pose proof (byte_at p 1 Hb) as B1. pose proof (byte_at p 2 Hb) as B2.
  pose proof (byte_at p 3 Hb) as B3. pose proof (byte_at p 4 Hb) as B4. unfold is_byte in *.
  generalize dependent (p !!! 1%nat). generalize dependent (p !!! 2%nat).
  generalize dependent (p !!! 3%nat). generalize dependent (p !!! 4%nat).
  intros b4 B4 b3 B3 b2 B2 b1 B1.
  assert (Hpid : 0 <= (b1 .& 0x1f) << 8 .| b2 <= 0x1fff).
  { change 0x1f with (2 ^ 5 - 1). rewrite land_mask_mod by lia.
    pose proof (Z.mod_pos_bound b1 (2 ^ 5)). rewrite shiftl_lor_add by lia. lia. }
  assert (Hscr : 0 <= b3 >> 6 < 4).
  { rewrite Z.shiftr_div_pow2 by lia. split; [apply Z.div_pos; lia|apply Z.div_lt_upper_bound; lia]. }
  assert (Hcc : 0 <= b3 .& 0x0f < 16).
  { change 0x0f with (2 ^ 4 - 1). rewrite land_mask_mod by lia. pose proof (Z.mod_pos_bound b3 (2 ^ 4)). lia. }
  destruct (Z.eqb_spec ((b1 .& 0x1f) << 8 .| b2) 0x1fff); [done|].
  destruct (truthy (((b3 >> 4) .& 3) .& 2)) eqn:E2; cbn [andb];
    [destruct (Z.ltb_spec (184 - 1 - b4) 0); [done|]|];
    destruct (truthy (((b3 >> 4) .& 3) .& 1)) eqn:E1; intros [= <-];
    cbn [pid scramble cc packet adp_field adp_field_len payload payload_len];
    (split; [lia|]); (split; [lia|]); (split; [lia|]); (split; [apply slice_length; lia|]);
    split; try (intros a [= <-]); try (intros a Ha; discriminate Ha);
    repeat split; try (apply slice_length; lia); try lia; done || (intros; lia) || (intros ?; done).
Qed.

(** ** The loop *)

Lemma run_loop_total fuel tsp p :
  parser_ok tsp -> (length p < fuel)%nat ->
  exists calls rest, run_loop fuel tsp p = Some (calls, rest) /\
    Z.of_nat (length rest) < packet_size tsp /\ (length rest <= length p)%nat /\ suffix rest p.
Proof.
  unfold parser_ok. intros Hok. revert p. induction fuel as [|fuel IH]; intros p Hf; [lia|].
  cbn [run_loop]. destruct (Z.leb_spec (packet_size tsp) (Z.of_nat (length p))).
  - destruct (p !!! 0%nat =? 0x47).
    + destruct (IH (drop (Z.to_nat (packet_size tsp)) p)) as (calls & rest & -> & ? & ? & Hs);
        rewrite length_drop in *; [lia|].
      eexists _, rest. split; [reflexivity|]. repeat split; [done|lia|].
      by etrans; [|apply suffix_drop].
    + destruct (IH (drop 1 p)) as (calls & rest & -> & ? & ? & Hs); rewrite length_drop in *; [lia|].
      eexists _, rest. split; [reflexivity|]. repeat split; [done|lia|].
      by etrans; [|apply suffix_drop].
  - eexists _, p. split; [reflexivity|]. repeat split; lia || done.
Qed.

Lemma run_loop_mono fuel fuel' tsp p r :
  (fuel <= fuel')%nat -> run_loop fuel tsp p = Some r -> run_loop fuel' tsp p = Some r.
Proof.
  revert fuel' p r. induction fuel as [|fuel IH]; intros fuel' p r Hf; [done|].
  destruct fuel' as [|fuel']; [lia|]. cbn [run_loop]. case_if; [|done]. case_if.
  - destruct (run_loop fuel tsp _) as [[c rest]|] eqn:Er; [|done]. by rewrite (IH fuel' _ _ ltac:(lia) Er).
  - apply IH. lia.
Qed.

(** The loop with enough fuel: calls made and bytes left. *)
Definition run (tsp : swdmx_ts_parser) (p : list Z) : list call * list Z :=
  default ([], p) (run_loop (S (length p)) tsp p).

Lemma run_loop_run fuel tsp p :
  parser_ok tsp -> (length p < fuel)%nat -> run_loop fuel tsp p = Some (run tsp p).
Proof.
  intros Hok Hf. unfold run.
  destruct (run_loop_total (S (length p)) tsp p Hok ltac:(lia)) as (c & r & E & _). rewrite E. cbn.
  eapply run_loop_mono; [|exact E]. lia.
Qed.

(** The loop as an equation. *)
Lemma run_eq tsp p :
  parser_ok tsp ->
  run tsp p =
    if packet_size tsp <=? Z.of_nat (length p) then
      if p !!! 0%nat =? 0x47 then
        let r := run tsp (drop (Z.to_nat (packet_size tsp)) p) in (ts_packet tsp p ++ r.1, r.2)
      else run tsp (drop 1 p)
    else ([], p).
Proof.
  intros Hok. unfold run at 1. cbn [run_loop]. unfold parser_ok in Hok.
  destruct (Z.leb_spec (packet_size tsp) (Z.of_nat (length p))); [|done].
  case_if; rewrite run_loop_run by (done || rewrite length_drop; lia); [|done].
  by destruct (run tsp _).
Qed.

(** ** What a packet is decoded from *)

Lemma slice_app p q off len :
  0 <= off -> 0 <= len -> off + len <= Z.of_nat (length p) -> slice (p ++ q) off len = slice p off len.
Proof. intros. unfold slice. rewrite drop_app_le, take_app_le by (rewrite ?length_drop; lia). done. Qed.

Lemma decode_app tsp p q :
  parser_ok tsp -> Forall is_byte p -> packet_size tsp <= Z.of_nat (length p) ->
  ts_packet_decode (packet_size tsp) (p ++ q) = ts_packet_decode (packet_size tsp) p.
Proof.
  unfold parser_ok. intros Hok Hb Hl. unfold ts_packet_decode.
  pose proof (byte_at p 4 Hb) as B4. unfold is_byte in B4.
  rewrite !(lookup_total_app_l p q) by lia. case_if; [done|].
  destruct (truthy (_ .& 2)); cbn [andb].
  - case_if; [done|]. rewrite !(slice_app p q) by lia. done.
  - rewrite !(slice_app p q) by lia. done.
Qed.

Lemma ts_packet_app tsp p q :
  parser_ok tsp -> Forall is_byte p -> packet_size tsp <= Z.of_nat (length p) ->
  ts_packet tsp (p ++ q) = ts_packet tsp p.
Proof. intros. unfold ts_packet. by rewrite decode_app. Qed.

(** C35: the parser is incremental.  Parsing [a], then parsing the bytes it
    left followed by [b], makes the same calls in the same order and leaves
    the same bytes as parsing [a ++ b] at once; less than a packet is left. *)
Theorem ts_parser_run_incremental tsp a b :
  parser_ok tsp -> Forall is_byte a ->
  exists calls1 (rest1 : list Z) calls2 (rest2 : list Z),
    swdmx_ts_parser_run tsp a = Some (calls1, Z.of_nat (length a) - Z.of_nat (length rest1)) /\
    suffix rest1 a /\ Z.of_nat (length rest1) < packet_size tsp /\
    swdmx_ts_parser_run tsp (rest1 ++ b)
      = Some (calls2, Z.of_nat (length (rest1 ++ b)) - Z.of_nat (length rest2)) /\
    swdmx_ts_parser_run tsp (a ++ b)
      = Some (calls1 ++ calls2, Z.of_nat (length (a ++ b)) - Z.of_nat (length rest2)).
Proof.
  intros Hok Hb.
  destruct (run_loop_total (S (length a)) tsp a Hok ltac:(lia)) as (c1 & r1 & E1 & Hl & _ & Hs).
  rewrite run_loop_run in E1 by (done || lia). injection E1 as E1.
  exists c1, r1, (run tsp (r1 ++ b)).1, (run tsp (r1 ++ b)).2.
  unfold swdmx_ts_parser_run. rewrite !run_loop_run by (done || lia). rewrite E1.
  split; [done|]. split; [done|]. split; [done|]. split; [by destruct (run tsp (r1 ++ b))|].
  assert (run tsp (a ++ b) = (c1 ++ (run tsp (r1 ++ b)).1, (run tsp (r1 ++ b)).2)) as ->; [|done].
  clear Hl Hs. revert c1 r1 E1. remember (length a) as k eqn:Ek. revert a Ek Hb.
  induction k as [k IH] using lt_wf_ind. intros a -> Hb c1 r1 E1. unfold parser_ok in Hok.
  rewrite run_eq in E1 by done. destruct (Z.leb_spec (packet_size tsp) (Z.of_nat (length a))).
  - rewrite (run_eq tsp (a ++ b)) by done. rewrite (proj2 (Z.leb_le _ _)) by (rewrite length_app; lia).
    rewrite lookup_total_app_l by lia. rewrite !drop_app_le by lia. case_if.
    + destruct (run tsp (drop _ a)) as [c r] eqn:Er. cbn in E1. injection E1 as <- <-.
      rewrite (IH (length (drop (Z.to_nat (packet_size tsp)) a))
                 ltac:(rewrite length_drop; lia) _ eq_refl ltac:(by apply Forall_drop) _ _ Er).
      cbn. by rewrite ts_packet_app, app_assoc by done.
    + apply (IH (length (drop 1 a))); [rewrite length_drop; lia|done|by apply Forall_drop|done].
  - injection E1 as <- <-. by destruct (run tsp (a ++ b)).
Qed.

(** Bytes before the first sync byte are skipped: whatever precedes [p],
    as long as it holds no 0x47, the calls are those made for [p]. *)
Theorem ts_parser_resync tsp garbage p :
  parser_ok tsp -> Forall (fun b => b <> 0x47) garbage ->
  fst <$> swdmx_ts_parser_run tsp (garbage ++ p) = fst <$> swdmx_ts_parser_run tsp p.
Proof.
  intros Hok Hg. unfold swdmx_ts_parser_run. rewrite !run_loop_run by (done || lia).
  enough (Hc : (run tsp (garbage ++ p)).1 = (run tsp p).1).
  { destruct (run tsp (garbage ++ p)), (run tsp p). cbn in *. by rewrite Hc. }
  induction Hg as [|b garbage Hb Hg IH]; [done|]. cbn [app].
  rewrite run_eq by done. destruct (Z.leb_spec (packet_size tsp) (Z.of_nat (length (b :: garbage ++ p)))).
  - cbn [lookup_total list_lookup_total]. rewrite (proj2 (Z.eqb_neq _ _)) by done. exact IH.
  - rewrite (run_eq tsp p) by done. rewrite (proj2 (Z.leb_gt _ _)); [done|].
    cbn [length] in *. rewrite length_app in *. lia.
Qed.

(** An aligned stream: every packet is handed over exactly once, in
    order, and an incomplete last packet is left for the next call. *)
Theorem ts_parser_run_aligned tsp pkts tail :
  parser_ok tsp ->
  Forall (fun p => Forall is_byte p /\ Z.of_nat (length p) = packet_size tsp /\ p !!! 0%nat = 0x47) pkts ->
  Z.of_nat (length tail) < packet_size tsp ->
  swdmx_ts_parser_run tsp (concat pkts ++ tail)
  = Some (pkts ≫= ts_packet tsp, Z.of_nat (length pkts) * packet_size tsp).
Proof.
  intros Hok Hp Ht. unfold swdmx_ts_parser_run. rewrite run_loop_run by (done || lia).
  assert (Hlen : Z.of_nat (length (concat pkts)) = Z.of_nat (length pkts) * packet_size tsp).
  { induction Hp as [|p pkts (_ & Hl & _) _ IH]; [done|]. cbn [concat length]. rewrite length_app. lia. }
  assert (run tsp (concat pkts ++ tail) = (pkts ≫= ts_packet tsp, tail)) as ->.
  { clear Hlen. induction Hp as [|p pkts (Hb & Hl & H0) _ IH]; cbn [concat app].
    - rewrite run_eq by done. by rewrite (proj2 (Z.leb_gt _ _)).
    - unfold parser_ok in Hok. rewrite <- app_assoc, run_eq by done.
      rewrite (proj2 (Z.leb_le _ _)) by (rewrite length_app; lia).
      rewrite lookup_total_app_l, H0 by lia. change (0x47 =? 0x47) with true. cbv iota.
      rewrite drop_app_length', IH by lia. by rewrite ts_packet_app by (done || lia). }
  rewrite length_app. do 2 f_equal. lia.
Qed.

(** ** Encoding *)

(** The four header bytes of ISO/IEC 13818-1. *)
Definition header (pid start prio err scr afc cc : Z) : list Z :=
  [0x47; (err << 7) .| (start << 6) .| (prio << 5) .| (pid >> 8); pid .& 0xff;
   (scr << 6) .| (afc << 4) .| cc].

Definition encode (pid start prio err scr cc : Z) (adp pay : list Z) : list Z :=
  header pid start prio err scr 3 cc ++ Z.of_nat (length adp) :: adp ++ pay.

(** The second and fourth header bytes decode to their fields: all values. *)
Definition range (n : nat) : list Z := Z.of_nat <$> seq 0 n.

Lemma forall_range n f x : forallb f (range n) = true -> 0 <= x < Z.of_nat n -> f x = true.
Proof.
  intros Hf Hx. rewrite forallb_forall in Hf. apply Hf. apply list_elem_of_In, list_elem_of_fmap.
  exists (Z.to_nat x). split; [lia|]. apply elem_of_seq. lia.
Qed.

Definition byte1_ok (err start prio h : Z) : bool :=
  let b := (err << 7) .| (start << 6) .| (prio << 5) .| h in
  (b .& 0x1f =? h) && ((b .& 0x80) >> 7 =? err) && ((b .& 0x40) >> 6 =? start)
  && ((b .& 0x20) >> 5 =? prio).
Definition byte3_ok (scr cc : Z) : bool :=
  let b := (scr << 6) .| (3 << 4) .| cc in
  (b >> 6 =? scr) && ((b >> 4) .& 0x03 =? 3) && (b .& 0x0f =? cc).

Lemma byte1_decodes err start prio h :
  0 <= err < 2 -> 0 <= start < 2 -> 0 <= prio < 2 -> 0 <= h < 32 -> byte1_ok err start prio h = true.
Proof.
  intros He Hs Hp Hh.
  apply (forall_range 32 (byte1_ok err start prio)); [|lia].
  apply (forall_range 2 (fun p => forallb (byte1_ok err start p) (range 32))); [|lia].
  apply (forall_range 2 (fun s => forallb (fun p => forallb (byte1_ok err s p) (range 32)) (range 2))); [|lia].
  apply (forall_range 2 (fun e => forallb (fun s => forallb (fun p =>
           forallb (byte1_ok e s p) (range 32)) (range 2)) (range 2))); [|lia].
  vm_compute. reflexivity.
Qed.

Lemma byte3_decodes scr cc : 0 <= scr < 4 -> 0 <= cc < 16 -> byte3_ok scr cc = true.
Proof.
  intros Hs Hc. apply (forall_range 16 (byte3_ok scr)); [|lia].
  apply (forall_range 4 (fun s => forallb (byte3_ok s) (range 16))); [|lia].
  vm_compute. reflexivity.
Qed.

(** Round trip.  A packet with an adaptation field and a payload, encoded
    by the standard's layout, is decoded to exactly the fields, the adaptation
    field and the payload it was made from. *)
Theorem ts_packet_roundtrip vpid start prio err scr vcc adp pay :
  0 <= vpid < 0x1fff -> 0 <= start < 2 -> 0 <= prio < 2 -> 0 <= err < 2 -> 0 <= scr < 4 ->
  0 <= vcc < 16 -> (length adp + length pay = 183)%nat ->
  let p := encode vpid start prio err scr vcc adp pay in
  ts_packet_decode 188 p
  = Some (TsPacket vpid start prio err scr vcc p (Some adp) (Z.of_nat (length adp))
            (Some pay) (Z.of_nat (length pay))).
Proof.
  intros Hpid Hst Hpr Herr Hscr Hcc Hlen p.
  assert (Hh : 0 <= vpid >> 8 < 32).
  { rewrite Z.shiftr_div_pow2 by lia. split; [apply Z.div_pos; lia|apply Z.div_lt_upper_bound; lia]. }
  pose proof (byte1_decodes err start prio (vpid >> 8) Herr Hst Hpr Hh) as B1.
  pose proof (byte3_decodes scr vcc Hscr Hcc) as B3.
  unfold byte1_ok, byte3_ok in B1, B3. b2p.
  assert (Hid : ((vpid >> 8) << 8) .| (vpid .& 0xff) = vpid).
  { change 0xff with (2 ^ 8 - 1). rewrite land_mask_mod by lia.
    pose proof (Z.mod_pos_bound vpid (2 ^ 8)). rewrite shiftl_lor_add by lia.
    rewrite Z.shiftr_div_pow2 by lia. pose proof (Z.div_mod vpid (2 ^ 8)). lia. }
  assert (L1 : p !!! 1%nat = (err << 7) .| (start << 6) .| (prio << 5) .| (vpid >> 8)) by done.
  assert (L2 : p !!! 2%nat = vpid .& 0xff) by done.
  assert (L3 : p !!! 3%nat = (scr << 6) .| (3 << 4) .| vcc) by done.
  assert (L4 : p !!! 4%nat = Z.of_nat (length adp)) by done.
  assert (Hp : length p = 188%nat).
  { unfold p, encode. cbn [header app length]. rewrite length_app. lia. }
  unfold ts_packet_decode. rewrite L1, L2, L3, L4.
  repeat match goal with H : _ = _ |- _ => progress rewrite H end.
  rewrite (proj2 (Z.eqb_neq _ _)) by lia.
  change (truthy (3 .& 2)) with true. change (truthy (3 .& 1)) with true. cbv iota. cbn [andb].
  rewrite (proj2 (Z.ltb_ge _ _)) by lia.
  assert (S0 : slice p 0 188 = p) by (unfold slice; rewrite drop_0; apply take_ge; lia).
  assert (S1 : slice p 5 (Z.of_nat (length adp)) = adp).
  { unfold slice. rewrite Nat2Z.id. change (Z.to_nat 5) with 5%nat. unfold p, encode.
    cbn [header app drop]. apply take_app_length. }
  assert (S2 : slice p (4 + 1 + Z.of_nat (length adp)) (184 - 1 - Z.of_nat (length adp)) = pay).
  { unfold slice. replace (Z.to_nat (4 + 1 + Z.of_nat (length adp))) with (5 + length adp)%nat by lia.
    unfold p, encode. cbn [header app drop Nat.add]. rewrite drop_app_length. apply take_ge. lia. }
  rewrite S0, S1, S2. do 2 f_equal. lia.
Qed.

(** ** Concrete packets *)

Definition demo_packet : list Z := encode 0x100 1 0 0 0 5 [0; 0; 0] (replicate 180 0xaa).
Definition demo_parser : swdmx_ts_parser := Parser 188 [CbEntry 1 2].

Lemma demo_bytes : Forall is_byte demo_packet.
Proof.
  apply Forall_forall. intros x Hx.
  assert (Hb : forallb (fun b => (0 <=? b) && (b <? 256)) demo_packet = true) by (vm_compute; reflexivity).
  rewrite forallb_forall in Hb. specialize (Hb x Hx). b2p. by split.
Qed.

Lemma demo_parser_ok : parser_ok demo_parser.
Proof. unfold parser_ok. cbn. lia. Qed.

Lemma ts_packet_bounds_witness :
  exists pkt, ts_packet_decode (packet_size demo_parser) demo_packet = Some pkt /\
    Z.of_nat (length (packet pkt)) = packet_size demo_parser.
Proof.
  eexists. split; [vm_compute; reflexivity|].
  eapply (ts_packet_bounds demo_parser demo_packet);
    [apply demo_parser_ok | apply demo_bytes | vm_compute; discriminate | vm_compute; reflexivity].
Defined.

Lemma ts_parser_run_incremental_witness :
  exists calls1 (rest1 : list Z) calls2 (rest2 : list Z),
    swdmx_ts_parser_run demo_parser (take 100 demo_packet)
      = Some (calls1, Z.of_nat (length (take 100 demo_packet)) - Z.of_nat (length rest1)) /\
    suffix rest1 (take 100 demo_packet) /\ Z.of_nat (length rest1) < packet_size demo_parser /\
    swdmx_ts_parser_run demo_parser (rest1 ++ drop 100 demo_packet)
      = Some (calls2, Z.of_nat (length (rest1 ++ drop 100 demo_packet)) - Z.of_nat (length rest2)) /\
    swdmx_ts_parser_run demo_parser (take 100 demo_packet ++ drop 100 demo_packet)
      = Some (calls1 ++ calls2,
              Z.of_nat (length (take 100 demo_packet ++ drop 100 demo_packet)) - Z.of_nat (length rest2)).
Proof.
  apply ts_parser_run_incremental; [apply demo_parser_ok | apply Forall_take, demo_bytes].
Defined.

Lemma ts_parser_resync_witness :
  fst <$> swdmx_ts_parser_run demo_parser ([0; 1; 2] ++ demo_packet)
  = fst <$> swdmx_ts_parser_run demo_parser demo_packet.
Proof. apply ts_parser_resync; [apply demo_parser_ok | repeat constructor; discriminate]. Defined.

Lemma ts_parser_run_aligned_witness :
  swdmx_ts_parser_run demo_parser (concat [demo_packet; demo_packet] ++ [0x47; 1])
  = Some ([demo_packet; demo_packet] ≫= ts_packet demo_parser,
          Z.of_nat (length [demo_packet; demo_packet]) * packet_size demo_parser).
Proof.
  assert (Forall is_byte demo_packet /\ Z.of_nat (length demo_packet) = packet_size demo_parser /\
          demo_packet !!! 0%nat = 0x47)
    by (split; [apply demo_bytes | split; vm_compute; reflexivity]).
  apply ts_parser_run_aligned; [apply demo_parser_ok | repeat constructor; done | vm_compute; reflexivity].
Defined.

Lemma ts_packet_roundtrip_witness :
  let p := encode 0x100 1 0 0 0 5 [0; 0; 0] (replicate 180 0xaa) in
  ts_packet_decode 188 p
  = Some (TsPacket 0x100 1 0 0 0 5 p (Some [0; 0; 0]) 3 (Some (replicate 180 0xaa)) 180).
Proof. apply (ts_packet_roundtrip 0x100 1 0 0 0 5 [0; 0; 0] (replicate 180 0xaa)); lia || done. Defined.
End TsParser.
