(* ===== verification/DmxSection.v ===== *)
(** * Section reassembly and filtering of the software demux
      (src/drivers/dvb/demux/sw_demux/swdmx_demux.c: sec_filter_match,
      sec_data, the section part of pid_filter_data)

    Sections arrive in arbitrary pieces of packet payloads.  The specification
    is an automaton that takes one byte at a time; [sec_loop_refines] shows
    that the chunked code with its memcpy calls implements it, so that the
    cut into packets does not matter.  The invariant [sec_inv] bounds the
    buffer accesses and makes the loop of pid_filter_data terminate. *)

From S2P Require Import Prelude DmxCrc DmxTsParser.
From stdpp Require Import base list numbers.

Local Open Scope Z_scope.
Local Open Scope cint_scope.

Module Sec.
Import TsParser.

Definition SWDMX_SEC_FILTER_LEN : nat := 16.
Definition SEC_BUF_SIZE : Z := 4096 + 3.

(** struct swdmx_secfilter: the parts used on data. *)
Record secfilter := SecFilter {
  s_crc32 : Z;                (* params.crc32 *)
  s_value : list Z;           (* SWDMX_SEC_FILTER_LEN + 2 bytes each *)
  s_mam : list Z;
  s_manm : list Z;
  s_cbs : list cb_entry;
}.

Definition match_step (data : list Z) (f : secfilter) (acc : Z * Z * Z) (i : nat) : Z * Z * Z :=
  let '(m, n, has_n) := acc in
  let d := data !!! i .& s_mam f !!! i in
  let v := s_value f !!! i .& s_mam f !!! i in
  let m := m .| (d .^ v) in
  let d := data !!! i .& s_manm f !!! i in
  let v := s_value f !!! i .& s_manm f !!! i in
  let n := n .| (d .^ v) in
  (m, n, has_n .| s_manm f !!! i).

Definition sec_filter_match (data : list Z) (f : secfilter) : bool :=
  let '(m, n, has_n) := foldl (match_step data f) (0, 0, 0) (seq 0 SWDMX_SEC_FILTER_LEN) in
  if truthy m then false
  else if truthy has_n && negb (truthy n) then false
  else true.

(** A call of a section callback: the entry and the section. *)
Definition sec_call : Type := cb_entry * list Z.

(** The loop over the section filters; [crc]: the CRC was checked already. *)
Fixpoint deliver (filters : list secfilter) (crc : bool) (sec : list Z) (recv : Z) : list sec_call :=
  match filters with
  | [] => []
  | f :: filters =>
      let data := take (Z.to_nat recv) sec in
      if truthy (s_crc32 f) && negb crc && truthy (Crc.swdmx_crc32 data) then []
      else
        let crc := crc || truthy (s_crc32 f) in
        (if sec_filter_match sec f then (fun e => (e, data)) <$> s_cbs f else [])
        ++ deliver filters crc sec recv
  end.

(** memcpy(buf + off, src, n) *)
Fixpoint memcpy (buf : list Z) (off : nat) (src : list Z) (n : nat) {struct n} : list Z :=
  match n, src with
  | S n, b :: src => memcpy (<[off := b]> buf) (S off) src n
  | _, _ => buf
  end.

(** The section state of a PID filter: sec_data (4096 + 3 bytes) and sec_recv. *)
Record sec_state := SecState { buf : list Z; recv : Z }.

(** Total length of the section in the buffer. *)
Definition sec_len_of (sec : list Z) : Z := (((sec !!! 1%nat .& 0xf) << 8) .| sec !!! 2%nat) + 3.

Definition copy (st : sec_state) (p : list Z) (n : Z) : sec_state :=
  SecState (memcpy (buf st) (Z.to_nat (recv st)) p (Z.to_nat n)) (recv st + n).

(** Returns the new state, the calls and the number of bytes used. *)
Definition sec_data (filters : list secfilter) (st : sec_state) (p : list Z)
  : sec_state * list sec_call * Z :=
  let len := Z.of_nat (length p) in
  let '(st, p, left_) :=
    if recv st <? 3 then
      let n := Z.min len (3 - recv st) in
      if truthy n then (copy st p n, drop (Z.to_nat n) p, len - n) else (st, p, len)
    else (st, p, len) in
  if recv st <? 3 then (st, [], len)
  else if buf st !!! 0%nat =? 0xff then (st, [], len)
  else
    let sec_len := sec_len_of (buf st) in
    let n := Z.min (sec_len - recv st) left_ in
    let '(st, left_) := if truthy n then (copy st p n, left_ - n) else (st, left_) in
    if recv st =? sec_len then
      (SecState (buf st) 0, deliver filters false (buf st) (recv st), len - left_)
    else (st, [], len - left_).

(** The loop of pid_filter_data. *)
Fixpoint sec_loop (fuel : nat) (filters : list secfilter) (st : sec_state) (p : list Z)
  : option (sec_state * list sec_call) :=
  match fuel with
  | O => None
  | S fuel =>
      if 0 <? Z.of_nat (length p) then
        let '(st, calls, n) := sec_data filters st p in
        match sec_loop fuel filters st (drop (Z.to_nat n) p) with
        | Some (st, calls') => Some (st, calls ++ calls')
        | None => None
        end
      else Some (st, [])
  end.

(** The section part of pid_filter_data, from "Solve section data" on. *)
Definition sec_payload (filters : list secfilter) (st : sec_state) (payload_start : Z) (p : list Z)
  : option (sec_state * list sec_call) :=
  let run st calls p :=
    match sec_loop (S (length p)) filters st p with
    | Some (st, calls') => Some (st, calls ++ calls')
    | None => None
    end in
  if truthy payload_start then
    match p with
    | [] => run (SecState (buf st) 0) [] p
    | ptr :: p =>
        if truthy ptr then
          if Z.of_nat (length p) <? ptr then Some (st, [])
          else
            let '(st, calls) :=
              if truthy (recv st) then
                let '(st, calls, _) := sec_data filters st (take (Z.to_nat ptr) p) in (st, calls)
              else (st, []) in
            run (SecState (buf st) 0) calls (drop (Z.to_nat ptr) p)
        else run (SecState (buf st) 0) [] p
    end
  else run st [] p.

(** ** The specification: one byte at a time *)

Definition feed1 (filters : list secfilter) (st : sec_state) (b : Z) : sec_state * list sec_call :=
  if (3 <=? recv st) && (buf st !!! 0%nat =? 0xff) then (st, [])
  else
    let st := SecState (<[Z.to_nat (recv st) := b]> (buf st)) (recv st + 1) in
    if recv st <? 3 then (st, [])
    else if buf st !!! 0%nat =? 0xff then (st, [])
    else if recv st =? sec_len_of (buf st)
    then (SecState (buf st) 0, deliver filters false (buf st) (recv st))
    else (st, []).

Fixpoint feed (filters : list secfilter) (st : sec_state) (p : list Z) : sec_state * list sec_call :=
  match p with
  | [] => (st, [])
  | b :: p =>
      let '(st, calls) := feed1 filters st b in
      let '(st, calls') := feed filters st p in
      (st, calls ++ calls')
  end.

(** ** The invariant *)

Record sec_inv (st : sec_state) : Prop := {
  inv_len : Z.of_nat (length (buf st)) = SEC_BUF_SIZE;
  inv_bytes : Forall is_byte (buf st);
  inv_recv : 0 <= recv st < 3 \/ (recv st = 3 /\ buf st !!! 0%nat = 0xff) \/
             (3 <= recv st < sec_len_of (buf st) /\ buf st !!! 0%nat <> 0xff);
}.

Lemma sec_len_range sec : Forall is_byte sec -> 3 <= sec_len_of sec <= 4098.
Proof.
  intros Hb. unfold sec_len_of. pose proof (byte_at sec 1 Hb) as B1. pose proof (byte_at sec 2 Hb) as B2.
  unfold is_byte in *. change 0xf with (2 ^ 4 - 1). rewrite land_mask_mod by lia.
  pose proof (Z.mod_pos_bound (sec !!! 1%nat) (2 ^ 4)). rewrite shiftl_lor_add by lia. lia.
Qed.

Lemma insert_far (l : list Z) i j b : i <> j -> <[i := b]> l !!! j = l !!! j.
Proof. intros. by apply list_lookup_total_insert_ne. Qed.

(** Bytes from position 3 on do not change the header. *)
Lemma sec_len_insert sec i b : (3 <= i)%nat -> sec_len_of (<[i := b]> sec) = sec_len_of sec.
Proof. intros. unfold sec_len_of. by rewrite !insert_far by lia. Qed.

Lemma feed1_inv filters st b : is_byte b -> sec_inv st -> sec_inv (feed1 filters st b).1.
Proof.
  intros Hb [Hl Hbs Hr]. unfold feed1, SEC_BUF_SIZE in *.
  destruct ((3 <=? recv st) && (buf st !!! 0%nat =? 0xff)) eqn:Eff; [by constructor|].
  set (st' := SecState _ _). pose proof (sec_len_range _ Hbs).
  assert (Hl' : Z.of_nat (length (buf st')) = 4096 + 3) by (cbn; by rewrite length_insert).
  assert (Hbs' : Forall is_byte (buf st')) by (cbn; by apply Forall_insert).
  assert (Hr' : 0 <= recv st) by (destruct Hr as [?|[?|?]]; lia).
  assert (Hlt : recv st' <= sec_len_of (buf st') \/ recv st' <= 3).
  { cbn. destruct Hr as [?|[[? Hx]|[? ?]]]; [right; lia|..].
    - rewrite Hx in Eff. rewrite (proj2 (Z.leb_le _ _)) in Eff by lia. done.
    - left. rewrite sec_len_insert by lia. lia. }
  pose proof (sec_len_range _ Hbs').
  destruct (Z.ltb_spec (recv st') 3); [constructor; cbn [fst]; [done..|left; cbn in *; lia]|].
  destruct (Z.eqb_spec (buf st' !!! 0%nat) 0xff).
  { constructor; cbn [fst]; [done..|]. right. left. split; [|done].
    destruct Hr as [?|[[? Hx]|[? Hx]]]; cbn in *; [lia|..].
    - rewrite Hx in Eff. rewrite (proj2 (Z.leb_le _ _)) in Eff by lia. done.
    - exfalso. revert e. rewrite insert_far by lia. done. }
  destruct (Z.eqb_spec (recv st') (sec_len_of (buf st'))); constructor; cbn [fst buf recv]; try done.
  - left. lia.
  - right. right. split; [lia|done].
Qed.

Lemma feed_inv filters st p : Forall is_byte p -> sec_inv st -> sec_inv (feed filters st p).1.
Proof.
  intros Hp. revert st. induction Hp as [|b p Hb Hp IH]; intros st Hi; [done|]. cbn [feed].
  pose proof (feed1_inv filters st b Hb Hi) as H1. destruct (feed1 filters st b) as [st1 c1].
  specialize (IH st1 H1). destruct (feed filters st1 p). done.
Qed.

(** ** Refinement *)

Lemma copy_cons st b p n :
  0 <= recv st -> 0 < n ->
  copy st (b :: p) n = copy (SecState (<[Z.to_nat (recv st) := b]> (buf st)) (recv st + 1)) p (n - 1).
Proof.
  intros Hr Hn. unfold copy. cbn [buf recv]. f_equal; [|lia].
  replace (Z.to_nat n) with (S (Z.to_nat (n - 1))) by lia.
  replace (Z.to_nat (recv st + 1)) with (S (Z.to_nat (recv st))) by lia. done.
Qed.

Lemma copy_0 st p : copy st p 0 = st.
Proof. unfold copy. destruct st as [b r]. cbn. by rewrite Z.add_0_r. Qed.

(** The code after the header bytes are in place. *)
Definition sec_body (filters : list secfilter) (st : sec_state) (p : list Z) (len : Z)
  : sec_state * list sec_call * Z :=
  if buf st !!! 0%nat =? 0xff then (st, [], len)
  else
    let sec_len := sec_len_of (buf st) in
    let n := Z.min (sec_len - recv st) (Z.of_nat (length p)) in
    let st := copy st p n in
    if recv st =? sec_len then
      (SecState (buf st) 0, deliver filters false (buf st) (recv st), len - (Z.of_nat (length p) - n))
    else (st, [], len - (Z.of_nat (length p) - n)).

Lemma sec_data_eq filters st p :
  0 <= recv st ->
  sec_data filters st p =
    let len := Z.of_nat (length p) in
    let n := if recv st <? 3 then Z.min len (3 - recv st) else 0 in
    let st := copy st p n in
    if recv st <? 3 then (st, [], len) else sec_body filters st (drop (Z.to_nat n) p) len.
Proof.
  intros Hr. unfold sec_data, sec_body. cbn zeta.
  assert (Hcopy : forall (s : sec_state) q m l, (if truthy m then (copy s q m, l - m) else (s, l)) = (copy s q m, l - m)).
  { intros. unfold truthy. destruct (Z.eqb_spec m 0) as [-> | ]; cbn; [|done]. by rewrite copy_0, Z.sub_0_r. }
  destruct (Z.ltb_spec (recv st) 3) as [Hlt | Hge].
  - unfold truthy at 1. destruct (Z.eqb_spec (Z.min (Z.of_nat (length p)) (3 - recv st)) 0) as [E | E]; cbn [negb].
    + rewrite E, copy_0. rewrite (proj2 (Z.ltb_lt _ _)) by lia. done.
    + case_if; [done|]. case_if; [done|]. rewrite Hcopy, length_drop.
      rewrite Nat2Z.inj_sub, Z2Nat.id by lia. done.
  - rewrite copy_0. rewrite (proj2 (Z.ltb_ge _ _)) by lia. cbn [Z.to_nat drop].
    case_if; [done|]. by rewrite Hcopy.
Qed.

(** One byte of the body. *)
Lemma sec_body_cons filters st b p len :
  sec_inv st -> 3 <= recv st -> 0 < len ->
  let '(st1, c1) := feed1 filters st b in
  sec_body filters st (b :: p) len =
    if (recv st1 =? 0) then (st1, c1, len - Z.of_nat (length p))
    else let '(st2, c2, n) := sec_body filters st1 p (len - 1) in (st2, c1 ++ c2, n + 1).
Proof.
  intros [_ Hbs Hr] H3 Hlen. unfold feed1, sec_body. rewrite (proj2 (Z.leb_le _ _)) by lia. cbn [andb].
  destruct (Z.eqb_spec (buf st !!! 0%nat) 0xff) as [Hff | Hff].
  { rewrite (proj2 (Z.eqb_neq (recv st) 0)) by lia. rewrite Hff. cbn. do 2 f_equal. lia. }
  destruct Hr as [?|[[_ ?]|[Hr _]]]; [lia|done|].
  set (st1 := SecState (<[Z.to_nat (recv st) := b]> (buf st)) (recv st + 1)).
  assert (Hsl : sec_len_of (buf st1) = sec_len_of (buf st)) by (cbn; apply sec_len_insert; lia).
  assert (H0 : buf st1 !!! 0%nat = buf st !!! 0%nat) by (cbn; rewrite insert_far by lia; done).
  rewrite (proj2 (Z.ltb_ge (recv st1) 3)) by (cbn; lia). rewrite H0, (proj2 (Z.eqb_neq _ _)) by done.
  rewrite Hsl. cbn [length].
  set (n := Z.min (sec_len_of (buf st) - recv st) (Z.of_nat (S (length p)))).
  rewrite copy_cons by (unfold n; lia). fold st1.
  destruct (Z.eqb_spec (recv st1) (sec_len_of (buf st))) as [Heq | Hne]; cbn [recv].
  - assert (n = 1) as -> by (unfold n; cbn in Heq; lia). rewrite copy_0, Heq, Z.eqb_refl. f_equal. lia.
  - rewrite (proj2 (Z.eqb_neq (recv st1) 0)) by (cbn; lia).
    rewrite H0, (proj2 (Z.eqb_neq (buf st !!! 0%nat) 0xff) Hff), Hsl.
    assert (n - 1 = Z.min (sec_len_of (buf st) - recv st1) (Z.of_nat (length p))) as <-
      by (unfold n; cbn; lia).
    case_if; f_equal; lia.
Qed.

Lemma sec_body_shift filters st p len :
  sec_body filters st p (len + 1)
  = let '(st', c, n) := sec_body filters st p len in (st', c, n + 1).
Proof. unfold sec_body. case_if; [done|]. case_if; f_equal; lia. Qed.

Lemma sec_data_body filters st p :
  3 <= recv st -> sec_data filters st p = sec_body filters st p (Z.of_nat (length p)).
Proof.
  intros Hr. rewrite sec_data_eq by lia. cbn zeta. rewrite (proj2 (Z.ltb_ge (recv st) 3)) by lia.
  rewrite copy_0. by rewrite (proj2 (Z.ltb_ge (recv st) 3)) by lia.
Qed.

(** A body without input leaves the state alone. *)
Lemma sec_body_nil filters st len :
  sec_inv st -> 3 <= recv st -> sec_body filters st [] len = (st, [], len).
Proof.
  intros [_ _ Hr] H3. unfold sec_body.
  destruct (Z.eqb_spec (buf st !!! 0%nat) 0xff); [done|].
  destruct Hr as [?|[[_ ?]|[Hr _]]]; [lia|done|]. cbn [length].
  rewrite Z.min_r, copy_0 by lia. rewrite (proj2 (Z.eqb_neq _ _)) by lia. f_equal. lia.
Qed.

(** The chunked code takes one byte as the automaton does: in the body. *)
Lemma sec_data_cons_body filters st b p :
  sec_inv st -> is_byte b -> 3 <= recv st ->
  let '(st1, c1) := feed1 filters st b in
  sec_data filters st (b :: p) =
    if (recv st1 =? 0) || (Z.of_nat (length p) =? 0) then (st1, c1, 1)
    else let '(st2, c2, n) := sec_data filters st1 p in (st2, c1 ++ c2, n + 1).
Proof.
  intros Hi Hb Hge. pose proof (feed1_inv filters st b Hb Hi) as Hi1.
  assert (Hlen : Z.of_nat (length (b :: p)) = Z.of_nat (length p) + 1) by (cbn; lia).
  pose proof (sec_body_cons filters st b p (Z.of_nat (length (b :: p))) Hi Hge ltac:(lia)) as Hc.
  destruct (feed1 filters st b) as [st1 c1] eqn:Ef. cbn [fst] in Hi1.
  rewrite sec_data_body, Hc by done.
  destruct (Z.eqb_spec (recv st1) 0); cbn [orb]; [f_equal; lia|].
  assert (3 <= recv st1).
  { revert Ef. unfold feed1. rewrite (proj2 (Z.leb_le _ _)) by lia. repeat case_if; intros [= <- <-]; cbn in *; lia. }
  rewrite Hlen, Z.add_simpl_r, <- sec_data_body by done.
  destruct p as [|b' p]; cbn [length Z.of_nat Z.eqb]; [|done].
  rewrite sec_data_body, sec_body_nil by done. by rewrite app_nil_r.
Qed.

(** The chunked code takes one byte as the automaton does: everywhere. *)
Lemma sec_data_cons filters st b p :
  sec_inv st -> is_byte b ->
  let '(st1, c1) := feed1 filters st b in
  sec_data filters st (b :: p) =
    if (recv st1 =? 0) || (Z.of_nat (length p) =? 0) then (st1, c1, 1)
    else let '(st2, c2, n) := sec_data filters st1 p in (st2, c1 ++ c2, n + 1).
Proof.
  intros Hi Hb. pose proof (feed1_inv filters st b Hb Hi) as Hi1.
  assert (H0 : 0 <= recv st) by (destruct Hi as [_ _ [?|[?|?]]]; lia).
  assert (Hlen : Z.of_nat (length (b :: p)) = Z.of_nat (length p) + 1) by (cbn; lia).
  destruct (Z.lt_ge_cases (recv st) 3) as [Hlt | Hge].
  2:{ by apply sec_data_cons_body. }
  set (st' := SecState (<[Z.to_nat (recv st) := b]> (buf st)) (recv st + 1)).
  assert (Hf : feed1 filters st b =
    if recv st' <? 3 then (st', [])
    else if buf st' !!! 0%nat =? 0xff then (st', [])
    else if recv st' =? sec_len_of (buf st')
    then (SecState (buf st') 0, deliver filters false (buf st') (recv st')) else (st', [])).
  { unfold feed1. by rewrite (proj2 (Z.leb_gt _ _)) by lia. }
  rewrite Hf in *. rewrite sec_data_eq by done. cbn zeta.
  rewrite (proj2 (Z.ltb_lt (recv st) 3)) by lia.
  set (n := Z.min (Z.of_nat (length (b :: p))) (3 - recv st)).
  assert (1 <= n) by (unfold n; lia). rewrite copy_cons by lia. fold st'.
  assert (Hdrop : drop (Z.to_nat n) (b :: p) = drop (Z.to_nat (n - 1)) p).
  { by replace (Z.to_nat n) with (S (Z.to_nat (n - 1))) by lia. }
  rewrite Hdrop. destruct (Z.ltb_spec (recv st') 3) as [Hlt' | Hge'].
  - rewrite (proj2 (Z.eqb_neq (recv st') 0)) by (cbn; lia). cbn [orb].
    destruct (Z.eqb_spec (Z.of_nat (length p)) 0) as [Hp | Hp].
    { assert (n = 1) as -> by (unfold n; lia). change (1 - 1) with 0. rewrite copy_0, (proj2 (Z.ltb_lt _ _)) by lia. f_equal. lia. }
    rewrite sec_data_eq by (cbn; lia). cbn zeta. rewrite (proj2 (Z.ltb_lt (recv st') 3)) by lia.
    replace (Z.min (Z.of_nat (length p)) (3 - recv st')) with (n - 1) by (unfold n; cbn; lia).
    case_if; [f_equal; lia|]. rewrite Hlen, sec_body_shift.
    by destruct (sec_body _ _ _ _) as [[? ?] ?].
  - assert (n = 1) as -> by (unfold n; cbn in Hge'; lia). change (1 - 1) with 0. rewrite copy_0.
    rewrite (proj2 (Z.ltb_ge (recv st') 3)) by lia. change (drop (Z.to_nat 0) p) with p.
    assert (E3 : recv st' = 3) by (cbn in *; lia).
    assert (Hgo : sec_inv st' ->
      sec_body filters st' p (Z.of_nat (length (b :: p))) =
        if (recv st' =? 0) || (Z.of_nat (length p) =? 0) then (st', [], 1)
        else let '(st2, c2, n) := sec_data filters st' p in (st2, [] ++ c2, n + 1)).
    { intros Hi'. rewrite E3. cbn [Z.eqb orb]. destruct p as [|b' p]; cbn [length Z.of_nat Z.eqb].
      - by rewrite sec_body_nil by (done || lia).
      - change (Z.pos (Pos.of_succ_nat (length (b' :: p)))) with (Z.of_nat (S (length (b' :: p)))).
        rewrite Nat2Z.inj_succ, <- Z.add_1_r, sec_body_shift, <- sec_data_body by lia. done. }
    destruct (Z.eqb_spec (buf st' !!! 0%nat) 0xff) as [Hff | Hff]; [by apply Hgo|].
    destruct (Z.eqb_spec (recv st') (sec_len_of (buf st'))) as [Heq | Hne]; [|by apply Hgo].
    cbn [recv Z.eqb orb]. unfold sec_body. rewrite (proj2 (Z.eqb_neq _ _) Hff), <- Heq.
    rewrite Z.sub_diag, Z.min_l, copy_0, Z.eqb_refl by lia. f_equal. cbn [length]. lia.
Qed.

Lemma feed_app filters st p q :
  feed filters st (p ++ q) =
    let '(st1, c1) := feed filters st p in
    let '(st2, c2) := feed filters st1 q in (st2, c1 ++ c2).
Proof.
  revert st. induction p as [|b p IH]; intros st; cbn [app feed].
  - by destruct (feed filters st q).
  - destruct (feed1 filters st b) as [st1 c1]. rewrite IH.
    destruct (feed filters st1 p) as [st2 c2]. destruct (feed filters st2 q). by rewrite app_assoc.
Qed.

(** A call of sec_data uses at least one byte and is the automaton on the
    bytes it used. *)
Lemma sec_data_feed filters st b p :
  sec_inv st -> Forall is_byte (b :: p) ->
  let '(st', c, n) := sec_data filters st (b :: p) in
  1 <= n <= Z.of_nat (length (b :: p)) /\ feed filters st (take (Z.to_nat n) (b :: p)) = (st', c).
Proof.
  revert st b. induction p as [|b' p IH]; intros st b Hi Hb; apply Forall_cons_1 in Hb as [Hb Hp];
    pose proof (sec_data_cons filters st b) as Hc; pose proof (feed1_inv filters st b Hb Hi) as Hi1.
  - specialize (Hc [] Hi Hb). destruct (feed1 filters st b) as [st1 c1] eqn:Ef.
    rewrite Hc. cbn [length Z.of_nat Z.eqb]. rewrite orb_true_r. split; [done|].
    change (take (Z.to_nat 1) [b]) with [b]. cbn. rewrite Ef. by rewrite app_nil_r.
  - specialize (Hc (b' :: p) Hi Hb). destruct (feed1 filters st b) as [st1 c1] eqn:Ef. cbn [fst] in Hi1.
    rewrite Hc. destruct (Z.eqb_spec (recv st1) 0); cbn [orb].
    { split; [cbn; lia|]. change (take (Z.to_nat 1) (b :: b' :: p)) with [b]. cbn. rewrite Ef.
      by rewrite app_nil_r. }
    rewrite (proj2 (Z.eqb_neq _ _)) by (cbn; lia). specialize (IH st1 b' Hi1 Hp).
    destruct (sec_data filters st1 (b' :: p)) as [[st2 c2] n2]. destruct IH as [Hn Hfeed].
    split; [cbn [length] in *; lia|].
    replace (Z.to_nat (n2 + 1)) with (S (Z.to_nat n2)) by lia. cbn [take feed]. rewrite Ef.
    cbn [take] in Hfeed. by rewrite Hfeed.
Qed.

Lemma sec_loop_feed fuel filters st p :
  sec_inv st -> Forall is_byte p -> (length p < fuel)%nat ->
  sec_loop fuel filters st p = Some (feed filters st p).
Proof.
  revert st p. induction fuel as [|fuel IH]; intros st p Hi Hp Hf; [lia|]. cbn [sec_loop].
  destruct p as [|b p]; [done|]. rewrite (proj2 (Z.ltb_lt _ _)) by (cbn; lia).
  pose proof (sec_data_feed filters st b p Hi Hp) as Hd.
  destruct (sec_data filters st (b :: p)) as [[st' c] n]. destruct Hd as [Hn Hfeed].
  pose proof (feed_inv filters st (take (Z.to_nat n) (b :: p)) (Forall_take _ _ _ Hp) Hi) as Hi'.
  rewrite Hfeed in Hi'. rewrite IH; [|done|by apply Forall_drop|rewrite length_drop; lia].
  rewrite <- (take_drop (Z.to_nat n) (b :: p)) at 2. rewrite feed_app, Hfeed.
  by destruct (feed filters st' _).
Qed.

(** C9: the chunked reassembly refines the byte automaton: the loop over a
    payload of any length terminates and gives the state and the calls of
    feeding its bytes one at a time. *)
Theorem sec_loop_refines filters st p :
  sec_inv st -> Forall is_byte p ->
  sec_loop (S (length p)) filters st p = Some (feed filters st p) /\ sec_inv (feed filters st p).1.
Proof. intros Hi Hp. split; [apply sec_loop_feed; done || lia|by apply feed_inv]. Qed.

(** The two memcpy calls of sec_data stay inside the input and inside the
    4096 + 3 byte buffer, for every input and every state reached. *)
Theorem sec_data_copies_in_bounds st p :
  sec_inv st -> Forall is_byte p ->
  let n1 := if recv st <? 3 then Z.min (Z.of_nat (length p)) (3 - recv st) else 0 in
  let st1 := copy st p n1 in
  let left_ := Z.of_nat (length p) - n1 in
  let n2 := Z.min (sec_len_of (buf st1) - recv st1) left_ in
  0 <= recv st /\ 0 <= n1 <= Z.of_nat (length p) /\ recv st + n1 <= SEC_BUF_SIZE /\
  (3 <= recv st1 -> buf st1 !!! 0%nat <> 0xff ->
   0 <= n2 <= left_ /\ recv st1 + n2 <= SEC_BUF_SIZE).
Proof.
  intros Hi Hp n1 st1 left_ n2. pose proof Hi as [Hl Hbs Hr]. unfold SEC_BUF_SIZE in *.
  assert (H0 : 0 <= recv st) by (destruct Hr as [?|[?|?]]; lia).
  pose proof (sec_len_range _ Hbs).
  assert (Hn1 : 0 <= n1 <= Z.of_nat (length p)) by (unfold n1; case_if; lia).
  split; [done|]. split; [done|]. split.
  { unfold n1. destruct Hr as [?|[[? ?]|[? ?]]]; case_if; lia. }
  intros H3 Hff. assert (Hb1 : Forall is_byte (buf st1)).
  { unfold st1, copy. cbn [buf]. generalize (Z.to_nat n1), (Z.to_nat (recv st)). clear -Hbs Hp.
    intros k. revert Hbs. generalize (buf st). revert p Hp.
    induction k as [|k IH]; intros p Hp l Hl off; [done|]. destruct p as [|b p]; [done|].
    cbn [memcpy]. apply Forall_cons_1 in Hp as [? ?]. apply IH; [done|]. by apply Forall_insert. }
  pose proof (sec_len_range _ Hb1). unfold n2, left_.
  assert (recv st1 <= sec_len_of (buf st1)); [|lia].
  destruct (Z.ltb_spec (recv st) 3) as [Hlt | Hge].
  - assert (recv st1 <= 3) by (unfold st1, copy, n1; cbn [recv]; lia). lia.
  - assert (Heq : st1 = st) by apply copy_0. rewrite Heq in *.
    destruct Hr as [?|[[? ?]|[? ?]]]; [lia|done|lia].
Qed.

(** ** Delivery *)

(** A complete section: header, length field, first byte not stuffing. *)
Definition is_section (s : list Z) : Prop :=
  Forall is_byte s /\ s !!! 0%nat <> 0xff /\ Z.of_nat (length s) = sec_len_of s.

(** The buffer after the first [k] bytes of a section, k <= 3. *)
Lemma take_insert_snoc (l : list Z) k b : (k < length l)%nat -> take (S k) (<[k := b]> l) = take k l ++ [b].
Proof.
  intros Hk. rewrite (take_S_r _ _ b) by (by apply list_lookup_insert_eq).
  by rewrite take_insert_ge.
Qed.

Lemma lookup_total_take (l : list Z) k i : (i < k)%nat -> take k l !!! i = l !!! i.
Proof. intros. by rewrite !list_lookup_total_alt, lookup_take_lt. Qed.

(** A byte stored at [k] leaves what comes after it. *)
Lemma drop_insert_S (l l0 : list Z) k b : drop k l = drop k l0 -> drop (S k) (<[k := b]> l) = drop (S k) l0.
Proof.
  intros Hd. rewrite drop_insert_lt by lia. replace (S k) with (k + 1)%nat by lia.
  by rewrite <- !drop_drop, Hd.
Qed.

(** While a section [s] is incomplete, the automaton stores its bytes. *)
Lemma feed_partial filters st s k :
  sec_inv st -> recv st = 0 -> is_section s -> (k < length s)%nat ->
  exists st', feed filters st (take k s) = (st', []) /\ recv st' = Z.of_nat k /\
              take k (buf st') = take k s /\ drop k (buf st') = drop k (buf st) /\ sec_inv st'.
Proof.
  intros Hi H0 (Hb & Hff & Hlen). pose proof (sec_len_range s Hb) as Hsl.
  induction k as [|k IH]; intros Hk.
  { exists st. cbn. done. }
  destruct IH as (st' & Hf & Hr & Ht & Hd & Hi'); [lia|].
  destruct (lookup_lt_is_Some_2 s k) as [b Hsk]; [lia|].
  rewrite (take_S_r s k b) by done. rewrite feed_app, Hf. cbn [feed app].
  pose proof (feed1_inv filters st' b) as Hi1.
  assert (Hbb : is_byte b) by (rewrite Forall_lookup in Hb; by eapply Hb). specialize (Hi1 Hbb Hi').
  pose proof Hi' as [Hl _ _]. unfold SEC_BUF_SIZE in Hl.
  set (l' := <[k := b]> (buf st')).
  assert (Htk : take (S k) l' = take (S k) s).
  { unfold l'. rewrite take_insert_snoc by lia. by rewrite Ht, (take_S_r s k b). }
  assert (Hat : forall i, (i <= k)%nat -> l' !!! i = s !!! i).
  { intros i Hik. by rewrite <- (lookup_total_take l' (S k)), Htk, lookup_total_take by lia. }
  exists (SecState l' (Z.of_nat (S k))).
  assert (Ef : feed1 filters st' b = (SecState l' (Z.of_nat (S k)), [])).
  { unfold feed1. rewrite Hr, Nat2Z.id. fold l'. cbn [buf recv].
    replace (Z.of_nat k + 1) with (Z.of_nat (S k)) by lia.
    assert (E1 : (3 <=? Z.of_nat k) && (buf st' !!! 0%nat =? 0xff) = false).
    { destruct (Z.leb_spec 3 (Z.of_nat k)); [|done]. cbn [andb]. apply Z.eqb_neq.
      rewrite <- (lookup_total_take (buf st') k), Ht, lookup_total_take by lia. done. }
    rewrite E1. case_if; [done|]. rewrite (Hat 0%nat) by lia. rewrite (proj2 (Z.eqb_neq _ _)) by done.
    rewrite (proj2 (Z.eqb_neq (Z.of_nat (S k)) _)); [done|].
    unfold sec_len_of in *. rewrite (Hat 1%nat), (Hat 2%nat) by lia. lia. }
  rewrite Ef in *. cbn [fst] in Hi1. split; [done|]. split; [done|]. cbn [buf].
  split; [by rewrite Htk, (take_S_r s k b)|]. split; [|done]. unfold l'. by apply drop_insert_S.
Qed.

(** Its last byte completes it. *)
Lemma feed_section filters st s :
  sec_inv st -> recv st = 0 -> is_section s ->
  let b := s ++ drop (length s) (buf st) in
  feed filters st s = (SecState b 0, deliver filters false b (Z.of_nat (length s))) /\
  sec_inv (SecState b 0).
Proof.
  intros Hi H0 Hs bb.
  pose proof Hs as (Hb & Hff & Hlen). pose proof (sec_len_range s Hb) as Hsl.
  destruct (feed_partial filters st s (length s - 1) Hi H0 Hs) as (st' & Hf & Hr & Ht & Hd & Hi'); [lia|].
  destruct (lookup_lt_is_Some_2 s (length s - 1)) as [b Hsk]; [lia|].
  assert (Hsplit : s = take (length s - 1) s ++ [b]).
  { rewrite <- (take_S_r s _ b) by done. symmetry. apply take_ge. lia. }
  assert (Hfs : feed filters st s = feed filters st' [b]).
  { rewrite Hsplit, feed_app, Hf. by destruct (feed filters st' [b]). }
  rewrite Hfs. cbn [feed app].
  pose proof Hi' as [Hl _ _]. unfold SEC_BUF_SIZE in Hl.
  set (l' := <[(length s - 1)%nat := b]> (buf st')).
  assert (Htk : take (length s) l' = s).
  { replace (length s) with (S (length s - 1)) at 1 by lia. unfold l'.
    rewrite take_insert_snoc by lia. by rewrite Ht. }
  assert (Hat : forall i, (i < length s)%nat -> l' !!! i = s !!! i).
  { intros i Hik. by rewrite <- (lookup_total_take l' (length s)), Htk by lia. }
  pose proof (feed1_inv filters st' b) as Hi1.
  assert (Ef : feed1 filters st' b
               = (SecState l' 0, deliver filters false l' (Z.of_nat (length s)))).
  { unfold feed1. rewrite Hr, Nat2Z.id. fold l'. cbn [buf recv].
    replace (Z.of_nat (length s - 1) + 1) with (Z.of_nat (length s)) by lia.
    assert (E1 : (3 <=? Z.of_nat (length s - 1)) && (buf st' !!! 0%nat =? 0xff) = false).
    { destruct (Z.leb_spec 3 (Z.of_nat (length s - 1))); [|done]. cbn [andb]. apply Z.eqb_neq.
      rewrite <- (lookup_total_take (buf st') (length s - 1)), Ht, lookup_total_take by lia. done. }
    rewrite E1, (proj2 (Z.ltb_ge _ _)) by lia. rewrite (Hat 0%nat) by lia.
    rewrite (proj2 (Z.eqb_neq _ _)) by done. unfold sec_len_of. rewrite (Hat 1%nat), (Hat 2%nat) by lia.
    fold (sec_len_of s). by rewrite Hlen, Z.eqb_refl. }
  assert (Hl' : l' = bb).
  { rewrite <- (take_drop (length s) l'), Htk. unfold bb. f_equal.
    replace (length s) with (S (length s - 1)) by lia. unfold l'. by apply drop_insert_S. }
  rewrite Ef, Hl' in *. rewrite app_nil_r. split; [done|].
  apply Hi1; [|done]. rewrite Forall_lookup in Hb. by eapply Hb.
Qed.

(** The chunks of a payload, one after the other, are its bytes. *)
Lemma feed_chunks filters cs st calls :
  sec_inv st -> Forall is_byte (concat cs) ->
  foldl (fun acc c =>
           '(st, calls) ← acc; '(st, calls') ← sec_loop (S (length c)) filters st c;
           Some (st, calls ++ calls')) (Some (st, calls)) cs
  = let '(st1, c1) := feed filters st (concat cs) in Some (st1, calls ++ c1).
Proof.
  revert st calls. induction cs as [|c cs IH]; intros st0 calls0 Hi0 Hb; cbn [foldl concat] in *.
  - cbn. by rewrite app_nil_r.
  - apply Forall_app in Hb as [Hb1 Hb2]. cbn [mbind option_bind]. rewrite sec_loop_feed by (done || lia).
    pose proof (feed_inv filters st0 c Hb1 Hi0) as Hi1. rewrite feed_app.
    destruct (feed filters st0 c) as [st1 c1]. cbn [mbind option_bind fst] in *. rewrite IH by done.
    destruct (feed filters st1 (concat cs)). by rewrite app_assoc.
Qed.

(** ** Who gets a section *)

(** A call belongs to a filter that matches the section; if the filter asks
    for it, the CRC of the section is right. *)
Definition call_ok (filters : list secfilter) (c : sec_call) : Prop :=
  exists f sec, f ∈ filters /\ c.1 ∈ s_cbs f /\ sec_filter_match sec f = true /\
    c.2 = take (length c.2) sec /\ (truthy (s_crc32 f) = true -> Crc.swdmx_crc32 c.2 = 0).

Lemma deliver_sound filters fs crc sec rcv c :
  fs ⊆ filters -> (crc = true -> Crc.swdmx_crc32 (take (Z.to_nat rcv) sec) = 0) ->
  c ∈ deliver fs crc sec rcv -> call_ok filters c.
Proof.
  revert crc. induction fs as [|f fs IH]; intros crc Hsub Hcrc; cbn [deliver]; [by intros ?%elem_of_nil|].
  set (data := take (Z.to_nat rcv) sec) in *.
  destruct (truthy (s_crc32 f) && negb crc && truthy (Crc.swdmx_crc32 data)) eqn:E; [by intros ?%elem_of_nil|].
  assert (Hok : truthy (s_crc32 f) = true \/ crc = true -> Crc.swdmx_crc32 data = 0).
  { intros Ho. destruct crc; [by apply Hcrc|]. destruct Ho as [Ho|?]; [|done]. rewrite Ho in E. cbn in E.
    unfold truthy in E. b2p. done. }
  rewrite elem_of_app. intros [Hc|Hc].
  - destruct (sec_filter_match sec f) eqn:Em; [|by apply elem_of_nil in Hc].
    apply list_elem_of_fmap in Hc as (e & -> & He). exists f, sec. cbn [fst snd].
    split; [apply Hsub, elem_of_cons; by left|]. split; [done|]. split; [done|]. split; [|auto].
    unfold data. rewrite length_take. destruct (Nat.min_spec (Z.to_nat rcv) (length sec)) as [[_ ->]|[? ->]]; [done|].
    rewrite !take_ge by lia. done.
  - eapply IH; [|..|exact Hc]; [intros x Hx; apply Hsub, elem_of_cons; by right|].
    intros Ho. apply Hok. destruct crc; [by right|left; done].
Qed.

Lemma feed1_sound filters st b : Forall (call_ok filters) (feed1 filters st b).2.
Proof.
  unfold feed1. repeat case_if; cbn [snd]; try constructor.
  apply Forall_forall. intros c Hc. eapply (deliver_sound filters filters false); [done|done|].
  first [exact Hc | by apply list_elem_of_In].
Qed.

Lemma feed_sound filters st p : Forall (call_ok filters) (feed filters st p).2.
Proof.
  revert st. induction p as [|b p IH]; intros st; cbn [feed]; [constructor|].
  pose proof (feed1_sound filters st b) as H1. destruct (feed1 filters st b) as [st1 c1].
  specialize (IH st1). destruct (feed filters st1 p). cbn in *. by apply Forall_app.
Qed.

Lemma sec_loop_sound filters st p st' calls :
  sec_inv st -> Forall is_byte p ->
  sec_loop (S (length p)) filters st p = Some (st', calls) -> Forall (call_ok filters) calls.
Proof.
  intros Hi Hp. rewrite sec_loop_feed by (done || lia). intros E.
  pose proof (feed_sound filters st p) as Hs. injection E as E. by rewrite E in Hs.
Qed.

(** The section part of a payload: total, keeps the invariant, and calls only
    filters that match. *)
Lemma sec_payload_spec filters st start p :
  sec_inv st -> Forall is_byte p ->
  exists st' calls, sec_payload filters st start p = Some (st', calls) /\ sec_inv st' /\
    Forall (call_ok filters) calls.
Proof.
  intros Hi Hp. unfold sec_payload. cbn zeta.
  assert (Hrun : forall s (c : list sec_call) q, sec_inv s -> Forall (call_ok filters) c -> Forall is_byte q ->
    exists st' calls, match sec_loop (S (length q)) filters s q with
      | Some (s', c') => Some (s', c ++ c') | None => None end = Some (st', calls) /\ sec_inv st' /\
      Forall (call_ok filters) calls).
  { intros s c q Hs Hc Hq. rewrite sec_loop_feed by (done || lia). pose proof (feed_inv filters s q Hq Hs) as Hf.
    pose proof (feed_sound filters s q) as Ho. destruct (feed filters s q). do 2 eexists.
    split; [done|]. split; [done|]. by apply Forall_app. }
  assert (H0 : forall s, sec_inv s -> sec_inv (SecState (buf s) 0)).
  { intros s [? ? ?]. split; [done..|]. left. cbn. lia. }
  destruct (truthy start); [|by apply Hrun].
  destruct p as [|ptr p]; [by apply Hrun; auto|]. apply Forall_cons_1 in Hp as [Hptr Hp].
  unfold truthy at 1. destruct (Z.eqb_spec ptr 0); cbn [negb]; [by apply Hrun; auto|].
  case_if; [by do 2 eexists|]. unfold is_byte in Hptr.
  assert (Hst : exists st1 c1, (if truthy (recv st) then
              let '(st, calls, _) := sec_data filters st (take (Z.to_nat ptr) p) in (st, calls)
            else (st, [])) = (st1, c1) /\ sec_inv st1 /\ Forall (call_ok filters) c1).
  { destruct (truthy (recv st)); [|by do 2 eexists].
    destruct (take (Z.to_nat ptr) p) as [|b q] eqn:Et.
    { apply (f_equal length) in Et. rewrite length_take in Et. cbn in Et. lia. }
    assert (Hb : Forall is_byte (b :: q)) by (rewrite <- Et; by apply Forall_take).
    pose proof (sec_data_feed filters st b q Hi Hb) as Hd.
    destruct (sec_data filters st (b :: q)) as [[st1 c1] n1]. destruct Hd as [_ Hd].
    exists st1, c1. split; [done|]. pose proof (feed_inv filters st (take (Z.to_nat n1) (b :: q))) as Hf.
    pose proof (feed_sound filters st (take (Z.to_nat n1) (b :: q))) as Ho.
    rewrite Hd in Hf, Ho. split; [apply Hf; [by apply Forall_take|done]|done]. }
  destruct Hst as (st1 & c1 & -> & Hi1 & Hc1). apply Hrun; [auto|done|by apply Forall_drop].
Qed.

(** ** Filter parameters *)

Record secfilter_params := SecParams {
  sp_pid : Z;
  sp_crc32 : Z;
  sp_value : list Z;            (* SWDMX_SEC_FILTER_LEN bytes each *)
  sp_mask : list Z;
  sp_mode : list Z;
}.

(** Parameter byte [i] applies to this byte of the section: bytes 1 and 2 are
    the length field and are skipped. *)
Definition filter_pos (i : nat) : nat := if Nat.eqb i 0 then i else (i + 2)%nat.

(** One iteration of the loop of swdmx_sec_filter_set_params. *)
Definition set_byte (params : secfilter_params) (f : secfilter) (i : nat) : secfilter :=
  let j := filter_pos i in
  let v := sp_value params !!! i in
  let mask := sp_mask params !!! i in
  let mode := u8 (Z.lnot (sp_mode params !!! i)) in
  SecFilter (s_crc32 f) (<[j := v]> (s_value f)) (<[j := mask .& mode]> (s_mam f))
    (<[j := u8 (mask .& Z.lnot mode)]> (s_manm f)) (s_cbs f).

(** The parameters copied into the filter (the part of
    swdmx_sec_filter_set_params between the two state checks). *)
Definition set_arrays (params : secfilter_params) (f : secfilter) : secfilter :=
  let f := SecFilter (sp_crc32 params) (s_value f) (s_mam f) (s_manm f) (s_cbs f) in
  let f := foldl (set_byte params) f (seq 0 SWDMX_SEC_FILTER_LEN) in
  SecFilter (s_crc32 f) (<[2%nat := 0]> (<[1%nat := 0]> (s_value f)))
    (<[2%nat := 0]> (<[1%nat := 0]> (s_mam f))) (<[2%nat := 0]> (<[1%nat := 0]> (s_manm f))) (s_cbs f).

Definition arrays_ok (f : secfilter) : Prop :=
  length (s_value f) = 18%nat /\ length (s_mam f) = 18%nat /\ length (s_manm f) = 18%nat.

Lemma set_byte_lookup params f i j :
  arrays_ok f -> (i < 16)%nat ->
  let f' := set_byte params f i in
  arrays_ok f' /\
  s_value f' !!! j = (if decide (j = filter_pos i) then sp_value params !!! i else s_value f !!! j) /\
  s_mam f' !!! j = (if decide (j = filter_pos i)
    then sp_mask params !!! i .& u8 (Z.lnot (sp_mode params !!! i)) else s_mam f !!! j) /\
  s_manm f' !!! j = (if decide (j = filter_pos i)
    then u8 (sp_mask params !!! i .& Z.lnot (u8 (Z.lnot (sp_mode params !!! i)))) else s_manm f !!! j).
Proof.
  intros (L1 & L2 & L3) Hi f'. assert (Hp : (filter_pos i < 18)%nat).
  { unfold filter_pos. destruct (Nat.eqb_spec i 0); lia. }
  split; [unfold f', arrays_ok, set_byte; cbn; by rewrite !length_insert|].
  unfold f', set_byte. cbn [s_value s_mam s_manm].
  case_decide as Hj; [subst j; rewrite !list_lookup_total_insert_eq by lia
                     |rewrite !list_lookup_total_insert_ne by congruence]; done.
Qed.

(** The bytes a filter compares: positive and negative mask. *)
Definition pos_mask (params : secfilter_params) (i : nat) : Z :=
  sp_mask params !!! i .& u8 (Z.lnot (sp_mode params !!! i)).
Definition neg_mask (params : secfilter_params) (i : nat) : Z :=
  u8 (sp_mask params !!! i .& Z.lnot (u8 (Z.lnot (sp_mode params !!! i)))).

Lemma filter_pos_inj i j : filter_pos i = filter_pos j -> i = j.
Proof. unfold filter_pos. destruct (Nat.eqb_spec i 0), (Nat.eqb_spec j 0); lia. Qed.

(** The arrays after the first [k] iterations. *)
Lemma set_bytes_lookup params f k :
  arrays_ok f -> (k <= 16)%nat ->
  let f' := foldl (set_byte params) f (seq 0 k) in
  arrays_ok f' /\
  forall i, (i < k)%nat ->
    s_value f' !!! filter_pos i = sp_value params !!! i /\
    s_mam f' !!! filter_pos i = pos_mask params i /\ s_manm f' !!! filter_pos i = neg_mask params i.
Proof.
  intros Hf. induction k as [|k IH]; intros Hk; [split; [done|lia]|].
  rewrite seq_S, foldl_app. cbn [foldl Nat.add]. destruct IH as [Hok Hi]; [lia|].
  set (f1 := foldl (set_byte params) f (seq 0 k)) in *.
  split; [by apply (set_byte_lookup params f1 k 0)|]. intros i Hik.
  destruct (set_byte_lookup params f1 k (filter_pos i) Hok ltac:(lia)) as (_ & -> & -> & ->).
  destruct (Nat.eq_dec i k) as [-> | Hne]; [by rewrite !decide_True|].
  rewrite !decide_False by (intros ?%filter_pos_inj; done). apply Hi. lia.
Qed.

Lemma set_arrays_lookup params f i :
  arrays_ok f -> (i < 16)%nat ->
  let f' := set_arrays params f in
  s_value f' !!! filter_pos i = sp_value params !!! i /\
  s_mam f' !!! filter_pos i = pos_mask params i /\ s_manm f' !!! filter_pos i = neg_mask params i.
Proof.
  intros Hf Hi f'. assert (Hp : filter_pos i <> 1%nat /\ filter_pos i <> 2%nat).
  { unfold filter_pos. destruct (Nat.eqb_spec i 0); lia. }
  unfold f', set_arrays. cbn [s_value s_mam s_manm].
  rewrite !(list_lookup_total_insert_ne _ _ (filter_pos i)) by lia.
  destruct (set_bytes_lookup params (SecFilter (sp_crc32 params) (s_value f) (s_mam f) (s_manm f) (s_cbs f)) 16)
    as [_ Hx]; [done|lia|]. by apply Hx.
Qed.

Lemma set_arrays_length params f j :
  arrays_ok f -> (j = 1 \/ j = 2)%nat ->
  s_value (set_arrays params f) !!! j = 0 /\ s_mam (set_arrays params f) !!! j = 0 /\
  s_manm (set_arrays params f) !!! j = 0.
Proof.
  intros Hf Hj. unfold set_arrays. cbn [s_value s_mam s_manm].
  destruct (set_bytes_lookup params (SecFilter (sp_crc32 params) (s_value f) (s_mam f) (s_manm f) (s_cbs f)) 16)
    as [(L1 & L2 & L3) _]; [done|lia|].
  unfold SWDMX_SEC_FILTER_LEN.
  destruct Hj as [-> | ->];
    rewrite ?(list_lookup_total_insert_ne _ 2 1), ?list_lookup_total_insert_eq
      by (rewrite ?length_insert; lia); done.
Qed.

(** The accumulated differences. *)
Lemma match_fold data f l m n h :
  let '(m', n', h') := foldl (match_step data f) (m, n, h) l in
  (m' = 0 <-> m = 0 /\ forall j, j ∈ l -> data !!! j .& s_mam f !!! j = s_value f !!! j .& s_mam f !!! j) /\
  (n' = 0 <-> n = 0 /\ forall j, j ∈ l -> data !!! j .& s_manm f !!! j = s_value f !!! j .& s_manm f !!! j) /\
  (h' = 0 <-> h = 0 /\ forall j, j ∈ l -> s_manm f !!! j = 0).
Proof.
  revert m n h. induction l as [|j l IH]; intros m n h; cbn [foldl].
  - split; [|split]; (split; [intros ->; split; [done|by intros ? ?%elem_of_nil]|by intros [-> _]]).
  - unfold match_step at 2.
    match goal with |- context [foldl _ (?m1, ?n1, ?h1) l] => specialize (IH m1 n1 h1) end.
    destruct (foldl _ _ l) as [[m' n'] h'].
    destruct IH as (-> & -> & ->). rewrite !Z.lor_eq_0_iff, !Z.lxor_eq_0_iff.
    setoid_rewrite elem_of_cons.
    repeat split; intros; intuition (subst; eauto).
Qed.

(** Both directions of a condition on the arrays and its parameter form. *)
Local Ltac via_params params f Hf :=
  let H := fresh "H" in let i := fresh "i" in let Hi := fresh "Hi" in
  let Ev := fresh "Ev" in let Em := fresh "Em" in let En := fresh "En" in
  split; [intros [_ H] i Hi | intros H; split; [done|]; intros i Hi];
  destruct (set_arrays_lookup params f i Hf ltac:(lia)) as (Ev & Em & En);
  specialize (H i Hi); congruence.

(** What a section filter matches.  After the parameters are set, a
    section passes exactly if every byte agrees with the value under the
    positive mask and, when there is a negative mask, some byte differs under
    it.  The parameter bytes 14 and 15 are not compared: the loop covers 16 of
    the 18 section bytes the parameters are spread over. *)
Theorem sec_filter_semantics params f data :
  arrays_ok f ->
  let agree mask := forall i, (i < 14)%nat ->
    data !!! filter_pos i .& mask i = sp_value params !!! i .& mask i in
  sec_filter_match data (set_arrays params f) = true <->
  agree (pos_mask params) /\
  ((forall i, (i < 14)%nat -> neg_mask params i = 0) \/ ~ agree (neg_mask params)).
Proof.
  intros Hf agree. unfold sec_filter_match. set (f' := set_arrays params f).
  pose proof (match_fold data f' (seq 0 16) 0 0 0) as Hm.
  unfold SWDMX_SEC_FILTER_LEN. destruct (foldl _ _ _) as [[m n] h]. destruct Hm as (Hm & Hn & Hh).
  assert (Hidx : forall P : nat -> Prop, P 1%nat -> P 2%nat ->
            (forall j, j ∈ seq 0 16 -> P j) <-> (forall i, (i < 14)%nat -> P (filter_pos i))).
  { intros P P1 P2. split.
    - intros HP i Hi. apply HP, elem_of_seq. unfold filter_pos. destruct (Nat.eqb_spec i 0); lia.
    - intros HP j Hj. apply elem_of_seq in Hj. destruct (decide (j = 0%nat)) as [-> | ].
      { apply (HP 0%nat). lia. }
      destruct (decide (j = 1%nat)) as [-> | ]; [done|]. destruct (decide (j = 2%nat)) as [-> | ]; [done|].
      specialize (HP (j - 2)%nat ltac:(lia)). unfold filter_pos in HP.
      destruct (Nat.eqb_spec (j - 2) 0); [lia|]. by replace (j - 2 + 2)%nat with j in HP by lia. }
  destruct (set_arrays_length params f 1 Hf ltac:(lia)) as (V1 & M1 & N1).
  destruct (set_arrays_length params f 2 Hf ltac:(lia)) as (V2 & M2 & N2). fold f' in V1, M1, N1, V2, M2, N2.
  rewrite Hidx in Hm by (by rewrite ?M1, ?M2, ?V1, ?V2, !Z.land_0_r).
  rewrite Hidx in Hn by (by rewrite ?N1, ?N2, ?V1, ?V2, !Z.land_0_r).
  rewrite Hidx in Hh by done.
  assert (Hm' : m = 0 <-> agree (pos_mask params)).
  { rewrite Hm. unfold agree, f'. via_params params f Hf. }
  assert (Hn' : n = 0 <-> agree (neg_mask params)).
  { rewrite Hn. unfold agree, f'. via_params params f Hf. }
  assert (Hh' : h = 0 <-> forall i, (i < 14)%nat -> neg_mask params i = 0).
  { rewrite Hh. unfold f'. via_params params f Hf. }
  rewrite <- Hm', <- Hn', <- Hh'. unfold truthy.
  destruct (Z.eqb_spec m 0), (Z.eqb_spec n 0), (Z.eqb_spec h 0); cbn; intuition congruence.
Qed.

(** ** What a section makes the demux do, said without its loops *)

(** Under a mask the section has the bytes of the filter. *)
Definition agrees (data mask value : list Z) : bool :=
  forallb (fun j => data !!! j .& mask !!! j =? value !!! j .& mask !!! j) (seq 0 SWDMX_SEC_FILTER_LEN).

(** All bytes agree under the positive mask, and, when there is a negative
    one, not all agree under it. *)
Definition wants (f : secfilter) (data : list Z) : bool :=
  agrees data (s_mam f) (s_value f) &&
  (forallb (fun j => s_manm f !!! j =? 0) (seq 0 SWDMX_SEC_FILTER_LEN) ||
   negb (agrees data (s_manm f) (s_value f))).

(** The filters before the first one that asks for the CRC. *)
Fixpoint ahead_of_crc (filters : list secfilter) : list secfilter :=
  match filters with
  | [] => []
  | f :: filters => if s_crc32 f =? 0 then f :: ahead_of_crc filters else []
  end.

(** The filters that get to see a section: all of them when its CRC is right. *)
Definition served (filters : list secfilter) (s : list Z) : list secfilter :=
  if Crc.swdmx_crc32 s =? 0 then filters else ahead_of_crc filters.

(** The calls for one filter: each callback once, in order, with the section. *)
Definition calls_for (data s : list Z) (f : secfilter) : list sec_call :=
  if wants f data then (fun e => (e, s)) <$> s_cbs f else [].

Lemma forallb_eqb (g h : nat -> Z) l :
  forallb (fun j => g j =? h j) l = true <-> (forall j, j ∈ l -> g j = h j).
Proof. rewrite forallb_forall. setoid_rewrite list_elem_of_In. setoid_rewrite Z.eqb_eq. done. Qed.

Lemma sec_filter_match_wants data f : sec_filter_match data f = wants f data.
Proof.
  unfold sec_filter_match, wants. pose proof (match_fold data f (seq 0 SWDMX_SEC_FILTER_LEN) 0 0 0) as Hm.
  destruct (foldl _ _ _) as [[m n] h]. destruct Hm as (Hm & Hn & Hh). unfold truthy.
  apply eq_true_iff_eq. rewrite andb_true_iff, orb_true_iff, negb_true_iff, <- not_true_iff_false.
  unfold agrees. rewrite !forallb_eqb.
  destruct (Z.eqb_spec m 0), (Z.eqb_spec n 0), (Z.eqb_spec h 0); cbn; intuition congruence.
Qed.

Lemma deliver_calls filters crc data s :
  take (length s) data = s -> (crc = true -> Crc.swdmx_crc32 s = 0) ->
  deliver filters crc data (Z.of_nat (length s)) = concat (calls_for data s <$> served filters s).
Proof.
  intros Hs. unfold served. revert crc. induction filters as [|f fs IH]; intros crc Hc; cbn [deliver].
  { by case_match. }
  rewrite Nat2Z.id, Hs, sec_filter_match_wants. unfold truthy. cbn [ahead_of_crc].
  destruct (Z.eqb_spec (Crc.swdmx_crc32 s) 0), (Z.eqb_spec (s_crc32 f) 0), crc; cbn [negb andb orb fmap list_fmap concat];
    try done; try (specialize (Hc eq_refl); done);
    rewrite IH by done; done.
Qed.

(** C34: a complete section is delivered exactly once, however it is cut: fed
    in any pieces into an idle PID filter it leaves the filter idle, and the
    calls made are, for each section filter in its order that the section
    agrees with, each of its callbacks once, with exactly the bytes of the
    section.  Every filter is served when the CRC of the section is right;
    when it is wrong only those before the first filter that asks for the
    CRC.  A section shorter than the 16 bytes a filter compares is compared
    with the older bytes of the buffer after it. *)
Theorem section_delivered_once filters st chunks s :
  sec_inv st -> recv st = 0 -> is_section s -> concat chunks = s ->
  let data := s ++ drop (length s) (buf st) in
  foldl (fun acc c =>
           '(st, calls) ← acc; '(st, calls') ← sec_loop (S (length c)) filters st c;
           Some (st, calls ++ calls')) (Some (st, [])) chunks
  = Some (SecState data 0, concat (calls_for data s <$> served filters s)) /\
  sec_inv (SecState data 0).
Proof.
  intros Hi H0 Hs Hcat data. rewrite feed_chunks, Hcat by (done || (rewrite Hcat; apply Hs)).
  destruct (feed_section filters st s Hi H0 Hs) as (-> & ?). fold data.
  rewrite deliver_calls; [done| |done]. by apply take_app_length.
Qed.

(** ** Concrete sections *)

Definition idle : sec_state := SecState (replicate 4099 0) 0.

Lemma idle_inv : sec_inv idle.
Proof.
  constructor; cbn [idle buf recv].
  - rewrite length_replicate. reflexivity.
  - apply Forall_replicate. unfold is_byte. lia.
  - left. lia.
Qed.

(** A short section and a filter on its table id. *)
Definition demo_sec : list Z := [0x42; 0x80; 5; 1; 2; 3; 4; 5].
Definition demo_filter : secfilter :=
  SecFilter 0 (0x42 :: replicate 17 0) (0xff :: replicate 17 0) (replicate 18 0) [CbEntry 1 2].
Definition demo_params : secfilter_params :=
  SecParams 0x10 0 (0x42 :: replicate 15 0) (0xff :: replicate 15 0) (replicate 16 0).

Lemma demo_sec_bytes : Forall is_byte demo_sec.
Proof. unfold is_byte. repeat constructor; lia. Qed.
Lemma demo_sec_section : is_section demo_sec.
Proof. split; [apply demo_sec_bytes | split; [discriminate | reflexivity]]. Qed.
Lemma demo_filter_ok : arrays_ok demo_filter.
Proof. split; [|split]; reflexivity. Qed.

Lemma sec_loop_refines_witness :
  sec_loop (S (length demo_sec)) [demo_filter] idle demo_sec = Some (feed [demo_filter] idle demo_sec) /\
  sec_inv (feed [demo_filter] idle demo_sec).1.
Proof. apply sec_loop_refines; [apply idle_inv | apply demo_sec_bytes]. Defined.

Lemma sec_data_copies_in_bounds_witness :
  let n1 := if recv idle <? 3 then Z.min (Z.of_nat (length demo_sec)) (3 - recv idle) else 0 in
  let st1 := copy idle demo_sec n1 in
  let left_ := Z.of_nat (length demo_sec) - n1 in
  let n2 := Z.min (sec_len_of (buf st1) - recv st1) left_ in
  0 <= recv idle /\ 0 <= n1 <= Z.of_nat (length demo_sec) /\ recv idle + n1 <= SEC_BUF_SIZE /\
  (3 <= recv st1 -> buf st1 !!! 0%nat <> 0xff -> 0 <= n2 <= left_ /\ recv st1 + n2 <= SEC_BUF_SIZE).
Proof. apply sec_data_copies_in_bounds; [apply idle_inv | apply demo_sec_bytes]. Defined.

Lemma section_delivered_once_witness :
  (let data := demo_sec ++ drop (length demo_sec) (buf idle) in
   foldl (fun acc c =>
            '(st, calls) ← acc; '(st, calls') ← sec_loop (S (length c)) [demo_filter] st c;
            Some (st, calls ++ calls')) (Some (idle, [])) [take 2 demo_sec; [5; 1]; drop 4 demo_sec]
   = Some (SecState data 0, concat (calls_for data demo_sec <$> served [demo_filter] demo_sec)) /\
   sec_inv (SecState data 0)) /\
  concat (calls_for demo_sec demo_sec <$> served [demo_filter] demo_sec) = [(CbEntry 1 2, demo_sec)].
Proof.
  split; [|vm_compute; reflexivity].
  apply section_delivered_once; [apply idle_inv | reflexivity | apply demo_sec_section | reflexivity].
Defined.

Lemma sec_filter_semantics_witness :
  let agree mask := forall i, (i < 14)%nat ->
    demo_sec !!! filter_pos i .& mask i = sp_value demo_params !!! i .& mask i in
  sec_filter_match demo_sec (set_arrays demo_params demo_filter) = true <->
  agree (pos_mask demo_params) /\
  ((forall i, (i < 14)%nat -> neg_mask demo_params i = 0) \/ ~ agree (neg_mask demo_params)).
Proof. exact (sec_filter_semantics demo_params demo_filter demo_sec demo_filter_ok). Defined.
End Sec.
