(* ===== verification/DmxDemux.v ===== *)
(** * Filters of the software demux
      (src/drivers/dvb/demux/sw_demux/swdmx_demux.c)

    The demux owns TS and section filters; a running filter hangs on the PID
    filter of its PID, which is created for the first filter and freed with
    the last one.  Objects live in heaps indexed by location, intrusive lists
    are lists of locations.  The functions for TS and section filters are the
    same code twice; they are modelled once, for a [kind].

    Theorems: every operation preserves the invariant [wf] (no dangling or
    duplicate links, one PID filter per PID, none without filters), and a
    packet reaches exactly the callbacks of the running filters of its PID. *)

From S2P Require Import Prelude DmxCrc DmxTsParser DmxSection.
From stdpp Require Import base list numbers gmap.

Local Open Scope Z_scope.

Module Demux.
Import TsParser Sec.

Inductive kind := KTs | KSec.
#[global] Instance kind_eq_dec : EqDecision kind.
Proof. solve_decision. Defined.

(** enum swdmx_filter_state *)
Inductive filter_state := STATE_INIT | STATE_SET | STATE_RUN.
#[global] Instance filter_state_eq_dec : EqDecision filter_state.
Proof. solve_decision. Defined.

Abbreviation loc := nat (only parsing).

(** struct swdmx_tsfilter and struct swdmx_secfilter; [f_data] holds the
    callback list and, for section filters, the match arrays. *)
Record swdmx_filter := Filter {
  f_kind : kind;
  f_state : filter_state;
  f_pid : Z;                    (* params.pid *)
  f_pf : option loc;            (* pid_filter *)
  f_data : secfilter;
}.

(** struct swdmx_pid_filter *)
Record pid_filter := PidFilter {
  pf_pid : Z;
  pf_ts : list loc;             (* ts_filter_list *)
  pf_sec : list loc;            (* sec_filter_list *)
  pf_sec_data : option (list Z);
  pf_sec_recv : Z;
}.

(** struct swdmx_demux and the heaps *)
Record demux := Dmx {
  pfs : gmap nat pid_filter;
  pf_list : list loc;           (* pid_filter_list *)
  filters : gmap nat swdmx_filter;
  ts_list : list loc;           (* ts_filter_list *)
  sec_list : list loc;          (* sec_filter_list *)
  next : loc;                   (* next free location *)
}.

Definition swdmx_is_valid_pid (pid : Z) : bool := pid <=? 0x1fff.

Definition swdmx_demux_new : demux := Dmx ∅ [] ∅ [] [] 0.

Definition pf_links (k : kind) (pf : pid_filter) : list loc :=
  match k with KTs => pf_ts pf | KSec => pf_sec pf end.
Definition set_links (k : kind) (pf : pid_filter) (l : list loc) : pid_filter :=
  match k with
  | KTs => PidFilter (pf_pid pf) l (pf_sec pf) (pf_sec_data pf) (pf_sec_recv pf)
  | KSec => PidFilter (pf_pid pf) (pf_ts pf) l (pf_sec_data pf) (pf_sec_recv pf)
  end.

Definition set_pf (d : demux) (l : loc) (pf : pid_filter) : demux :=
  Dmx (<[l := pf]> (pfs d)) (pf_list d) (filters d) (ts_list d) (sec_list d) (next d).
Definition set_filter (d : demux) (fid : loc) (f : swdmx_filter) : demux :=
  Dmx (pfs d) (pf_list d) (<[fid := f]> (filters d)) (ts_list d) (sec_list d) (next d).

(** swdmx_list_remove of a node. *)
Definition list_remove_node (x : loc) (l : list loc) : list loc := filter (fun y => y <> x) l.

(** The PID filter with this PID in the list. *)
Fixpoint find_pf (h : gmap nat pid_filter) (l : list loc) (pid : Z) : option loc :=
  match l with
  | [] => None
  | x :: l =>
      match h !! x with
      | Some pf => if pf_pid pf =? pid then Some x else find_pf h l pid
      | None => find_pf h l pid
      end
  end.

Definition pid_filter_get (d : demux) (pid : Z) : demux * loc :=
  match find_pf (pfs d) (pf_list d) pid with
  | Some l => (d, l)
  | None =>
      let l := next d in
      (Dmx (<[l := PidFilter pid [] [] None 0]> (pfs d)) (pf_list d ++ [l]) (filters d)
         (ts_list d) (sec_list d) (S l), l)
  end.

Definition pid_filter_remove (d : demux) (l : loc) : demux :=
  match pfs d !! l with
  | Some pf =>
      match pf_ts pf, pf_sec pf with
      | [], [] =>
          Dmx (delete l (pfs d)) (list_remove_node l (pf_list d)) (filters d)
            (ts_list d) (sec_list d) (next d)
      | _, _ => d
      end
  | None => d
  end.

Definition swdmx_demux_alloc_filter (k : kind) (junk : secfilter) (d : demux) : demux * loc :=
  let l := next d in
  let f := Filter k STATE_INIT 0 None
             (SecFilter (s_crc32 junk) (s_value junk) (s_mam junk) (s_manm junk) []) in
  (match k with
   | KTs => Dmx (pfs d) (pf_list d) (<[l := f]> (filters d)) (ts_list d ++ [l]) (sec_list d) (S l)
   | KSec => Dmx (pfs d) (pf_list d) (<[l := f]> (filters d)) (ts_list d) (sec_list d ++ [l]) (S l)
   end, l).

(** swdmx_list_remove(&filter->pid_ln); pid_filter_remove(filter->pid_filter) *)
Definition unlink (d : demux) (k : kind) (fid l : loc) : demux :=
  match pfs d !! l with
  | Some pf =>
      pid_filter_remove (set_pf d l (set_links k pf (list_remove_node fid (pf_links k pf)))) l
  | None => d
  end.

(** pid_filter_get, then swdmx_list_append(&pid_filter->..., &filter->pid_ln) *)
Definition link (d : demux) (k : kind) (fid : loc) (pid : Z) : demux * loc :=
  let '(d, l) := pid_filter_get d pid in
  match pfs d !! l with
  | Some pf => (set_pf d l (set_links k pf (pf_links k pf ++ [fid])), l)
  | None => (d, l)
  end.

Definition swdmx_filter_enable (d : demux) (fid : loc) : demux * Z :=
  match filters d !! fid with
  | None => (d, SWDMX_ERR)
  | Some f =>
      match f_state f with
      | STATE_INIT => (d, SWDMX_ERR)
      | STATE_SET =>
          let '(d, l) := link d (f_kind f) fid (f_pid f) in
          (set_filter d fid (Filter (f_kind f) STATE_RUN (f_pid f) (Some l) (f_data f)), SWDMX_OK)
      | STATE_RUN => (d, SWDMX_OK)
      end
  end.

Definition swdmx_filter_disable (d : demux) (fid : loc) : demux * Z :=
  match filters d !! fid with
  | None => (d, SWDMX_ERR)
  | Some f =>
      match f_state f with
      | STATE_RUN =>
          match f_pf f with
          | None => (d, SWDMX_ERR)
          | Some l =>
              let d := unlink d (f_kind f) fid l in
              (set_filter d fid (Filter (f_kind f) STATE_SET (f_pid f) None (f_data f)), SWDMX_OK)
          end
      | _ => (d, SWDMX_OK)
      end
  end.

(** [params] carries the PID and, for a section filter, the match data. *)
Definition swdmx_filter_set_params (d : demux) (fid : loc) (params : secfilter_params) : demux * Z :=
  match filters d !! fid with
  | None => (d, SWDMX_ERR)
  | Some f =>
      let pid := sp_pid params in
      if negb (swdmx_is_valid_pid pid) || (pid =? 0x1fff) then (d, SWDMX_ERR)
      else
        let data := match f_kind f with KTs => f_data f | KSec => set_arrays params (f_data f) end in
        match f_state f with
        | STATE_RUN =>
            match f_pf f with
            | None => (d, SWDMX_ERR)
            | Some l =>
                if negb (f_pid f =? pid) then
                  let d := unlink d (f_kind f) fid l in
                  let '(d, l) := link d (f_kind f) fid pid in
                  (set_filter d fid (Filter (f_kind f) STATE_RUN pid (Some l) data), SWDMX_OK)
                else (set_filter d fid (Filter (f_kind f) STATE_RUN pid (Some l) data), SWDMX_OK)
            end
        | _ => (set_filter d fid (Filter (f_kind f) STATE_SET pid (f_pf f) data), SWDMX_OK)
        end
  end.

Definition set_cbs (f : swdmx_filter) (l : list cb_entry) : swdmx_filter :=
  Filter (f_kind f) (f_state f) (f_pid f) (f_pf f)
    (SecFilter (s_crc32 (f_data f)) (s_value (f_data f)) (s_mam (f_data f)) (s_manm (f_data f)) l).

Definition swdmx_filter_add_cb (d : demux) (fid : loc) (cb data : Z) : demux * Z :=
  match filters d !! fid with
  | Some f =>
      if cb =? 0 then (d, SWDMX_ERR)
      else (set_filter d fid (set_cbs f (swdmx_cb_list_add (s_cbs (f_data f)) cb data)), SWDMX_OK)
  | None => (d, SWDMX_ERR)
  end.

Definition swdmx_filter_remove_cb (d : demux) (fid : loc) (cb data : Z) : demux * Z :=
  match filters d !! fid with
  | Some f =>
      if cb =? 0 then (d, SWDMX_ERR)
      else (set_filter d fid (set_cbs f (swdmx_cb_list_remove (s_cbs (f_data f)) cb data)), SWDMX_OK)
  | None => (d, SWDMX_ERR)
  end.

Definition swdmx_filter_free (d : demux) (fid : loc) : demux :=
  let d := fst (swdmx_filter_disable d fid) in
  Dmx (pfs d) (pf_list d) (delete fid (filters d)) (list_remove_node fid (ts_list d))
    (list_remove_node fid (sec_list d)) (next d).

(** The entry points for TS and for section filters: the handle of the
    caller is a filter of that kind. *)
Definition swdmx_ts_filter_set_params := swdmx_filter_set_params.
Definition swdmx_sec_filter_set_params := swdmx_filter_set_params.
Definition swdmx_ts_filter_enable := swdmx_filter_enable.
Definition swdmx_sec_filter_enable := swdmx_filter_enable.
Definition swdmx_ts_filter_disable := swdmx_filter_disable.
Definition swdmx_sec_filter_disable := swdmx_filter_disable.
Definition swdmx_ts_filter_free := swdmx_filter_free.
Definition swdmx_sec_filter_free := swdmx_filter_free.
Definition swdmx_ts_filter_add_ts_packet_cb := swdmx_filter_add_cb.
Definition swdmx_ts_filter_remove_ts_packet_cb := swdmx_filter_remove_cb.
Definition swdmx_sec_filter_add_section_cb := swdmx_filter_add_cb.
Definition swdmx_sec_filter_remove_section_cb := swdmx_filter_remove_cb.
Definition swdmx_demux_alloc_ts_filter := swdmx_demux_alloc_filter KTs.
Definition swdmx_demux_alloc_sec_filter := swdmx_demux_alloc_filter KSec.

(** The loops of swdmx_demux_free: while the list is not empty, free its first
    node.  [None] when the fuel runs out before. *)
Fixpoint free_filters (fuel : nat) (k : kind) (d : demux) : option demux :=
  match (match k with KTs => ts_list d | KSec => sec_list d end), fuel with
  | [], _ => Some d
  | fid :: _, S fuel =>
      free_filters fuel k
        (match k with KTs => swdmx_ts_filter_free d fid | KSec => swdmx_sec_filter_free d fid end)
  | _, O => None
  end.

Fixpoint free_pid_filters (fuel : nat) (d : demux) : option demux :=
  match pf_list d, fuel with
  | [], _ => Some d
  | l :: _, S fuel => free_pid_filters fuel (pid_filter_remove d l)
  | _, O => None
  end.

Definition swdmx_demux_free (fuel : nat) (d : demux) : option demux :=
  d ← free_filters fuel KTs d; d ← free_filters fuel KSec d; free_pid_filters fuel d.

(** ** Data *)

Inductive event := EvPacket (e : cb_entry) (pkt : swdmx_tspacket) | EvSection (c : sec_call).

Definition cbs_of (d : demux) (fid : loc) : list cb_entry :=
  match filters d !! fid with Some f => s_cbs (f_data f) | None => [] end.
Definition sec_filters_of (d : demux) (pf : pid_filter) : list secfilter :=
  omap (fun fid => f_data <$> filters d !! fid) (pf_sec pf).

(** pid_filter_data; [malloc] are the contents of a new 4096 + 3 byte buffer. *)
Definition pid_filter_data (malloc : list Z) (d : demux) (l : loc) (pkt : swdmx_tspacket)
  : option (demux * list event) :=
  match pfs d !! l with
  | None => None
  | Some pf =>
      let evs := (fun e => EvPacket e pkt) <$> (pf_ts pf ≫= cbs_of d) in
      match pf_sec pf, payload pkt with
      | [], _ => Some (d, evs)
      | _, None => Some (d, evs)
      | _, Some p =>
          if truthy (scramble pkt) then Some (d, evs)
          else
            let sec := default malloc (pf_sec_data pf) in
            match sec_payload (sec_filters_of d pf) (SecState sec (pf_sec_recv pf)) (payload_start pkt) p with
            | None => None
            | Some (st, calls) =>
                Some (set_pf d l (PidFilter (pf_pid pf) (pf_ts pf) (pf_sec pf) (Some (buf st)) (recv st)),
                      evs ++ (EvSection <$> calls))
            end
      end
  end.

Definition swdmx_demux_ts_packet_cb (malloc : list Z) (d : demux) (pkt : swdmx_tspacket)
  : option (demux * list event) :=
  match find_pf (pfs d) (pf_list d) (pid pkt) with
  | Some l => pid_filter_data malloc d l pkt
  | None => Some (d, [])
  end.

(** ** The invariant *)

Definition flist (k : kind) (d : demux) : list loc :=
  match k with KTs => ts_list d | KSec => sec_list d end.

(** Filter [fid] of kind [k] runs on the PID filter at [l]. *)
Definition runs_on (d : demux) (k : kind) (fid l : loc) : Prop :=
  exists f, filters d !! fid = Some f /\ f_kind f = k /\ f_pf f = Some l.

Record wf (d : demux) : Prop := {
  (* the PID filter list holds exactly the live PID filters, once *)
  wf_pf_list : NoDup (pf_list d) /\ forall l, l ∈ pf_list d <-> is_Some (pfs d !! l);
  (* one PID filter per PID *)
  wf_pf_pid : forall l l' pf pf', pfs d !! l = Some pf -> pfs d !! l' = Some pf' ->
    pf_pid pf = pf_pid pf' -> l = l';
  (* a PID filter holds exactly the filters that run on it, once, and at
     least one *)
  wf_links : forall l pf k, pfs d !! l = Some pf ->
    NoDup (pf_links k pf) /\ forall fid, fid ∈ pf_links k pf <-> runs_on d k fid l;
  wf_used : forall l pf, pfs d !! l = Some pf -> pf_ts pf <> [] \/ pf_sec pf <> [];
  (* a filter points to a PID filter exactly when it runs, and to the one of
     its own PID *)
  wf_run : forall fid f, filters d !! fid = Some f -> (f_state f = STATE_RUN <-> is_Some (f_pf f));
  wf_pid : forall fid f l, filters d !! fid = Some f -> f_pf f = Some l ->
    exists pf, pfs d !! l = Some pf /\ pf_pid pf = f_pid f;
  (* the filter lists hold exactly the live filters of their kind, once *)
  wf_flist : forall k, NoDup (flist k d) /\
    forall fid, fid ∈ flist k d <-> exists f, filters d !! fid = Some f /\ f_kind f = k;
  (* locations are allocated in order *)
  wf_next : forall l, is_Some (pfs d !! l) \/ is_Some (filters d !! l) -> (l < next d)%nat;
}.

Lemma wf_new : wf swdmx_demux_new.
Proof.
  split; cbn; try done.
  - split; [constructor|]. intros l. rewrite lookup_empty, is_Some_alt. split; [by intros ?%elem_of_nil|done].
  - intros k. split; [destruct k; constructor|]. intros fid. rewrite lookup_empty.
    split; [destruct k; by intros ?%elem_of_nil|by intros (? & ? & _)].
  - intros l [Hl|Hl]; rewrite lookup_empty in Hl; by apply is_Some_None in Hl.
Qed.

Lemma elem_remove_node x y l : x ∈ list_remove_node y l <-> x <> y /\ x ∈ l.
Proof. unfold list_remove_node. by rewrite list_elem_of_filter. Qed.

Lemma NoDup_remove_node y l : NoDup l -> NoDup (list_remove_node y l).
Proof. apply NoDup_filter. Qed.

Lemma pf_links_set k k' pf l :
  pf_links k' (set_links k pf l) = if decide (k' = k) then l else pf_links k' pf.
Proof. destruct k, k'; done. Qed.

Lemma pf_pid_set k pf l : pf_pid (set_links k pf l) = pf_pid pf.
Proof. by destruct k. Qed.

Lemma used_links k pf fid : fid ∈ pf_links k pf -> pf_ts pf <> [] \/ pf_sec pf <> [].
Proof. destruct k; cbn; intros Hin; [left|right]; intros E; rewrite E in Hin; by apply elem_of_nil in Hin. Qed.

Lemma find_pf_spec h l pid :
  (exists x pf, find_pf h l pid = Some x /\ x ∈ l /\ h !! x = Some pf /\ pf_pid pf = pid) \/
  (find_pf h l pid = None /\ forall x pf, x ∈ l -> h !! x = Some pf -> pf_pid pf <> pid).
Proof.
  induction l as [|y l IH]; cbn [find_pf].
  - right. split; [done|]. by intros ? ? ?%elem_of_nil.
  - destruct (h !! y) as [pf|] eqn:E.
    + destruct (Z.eqb_spec (pf_pid pf) pid).
      * left. exists y, pf. repeat split; try done. apply elem_of_cons. by left.
      * destruct IH as [(x & pf' & ? & ? & ?)|[? Hn]]; [left|right].
        -- exists x, pf'. repeat split; try tauto. apply elem_of_cons. by right.
        -- split; [done|]. intros x pf' [-> | Hx]%elem_of_cons Hp; [congruence|eauto].
    + destruct IH as [(x & pf' & ? & ? & ?)|[? Hn]]; [left|right].
      -- exists x, pf'. repeat split; try tauto. apply elem_of_cons. by right.
      -- split; [done|]. intros x pf' [-> | Hx]%elem_of_cons Hp; [congruence|eauto].
Qed.

(** The parts of the invariant that an update of one filter does not touch. *)
Lemma wf_update d d' fid f f' :
  wf d -> filters d !! fid = Some f -> f_kind f' = f_kind f ->
  filters d' = <[fid := f']> (filters d) -> ts_list d' = ts_list d -> sec_list d' = sec_list d ->
  (next d <= next d')%nat -> (f_state f' = STATE_RUN <-> is_Some (f_pf f')) ->
  (NoDup (pf_list d') /\ forall l, l ∈ pf_list d' <-> is_Some (pfs d' !! l)) ->
  (forall l l' pf pf', pfs d' !! l = Some pf -> pfs d' !! l' = Some pf' ->
     pf_pid pf = pf_pid pf' -> l = l') ->
  (forall l pf k, pfs d' !! l = Some pf ->
     NoDup (pf_links k pf) /\ forall x, x ∈ pf_links k pf <-> runs_on d' k x l) ->
  (forall l pf, pfs d' !! l = Some pf -> pf_ts pf <> [] \/ pf_sec pf <> []) ->
  (forall x g l, filters d' !! x = Some g -> f_pf g = Some l ->
     exists pf, pfs d' !! l = Some pf /\ pf_pid pf = f_pid g) ->
  (forall l, is_Some (pfs d' !! l) -> (l < next d')%nat) ->
  wf d'.
Proof.
  intros Hwf Hf Hk Hfs Hts Hsec Hnext Hrun Hpl Hpid Hlinks Hused Hfpid Hpn. split; try done.
  - intros x g. rewrite Hfs, lookup_insert_Some. intros [[<- <-]|[_ Hg]]; [done|]. by apply (wf_run d Hwf x).
  - intros k. destruct (wf_flist d Hwf k) as [Hnd Hin].
    assert (flist k d' = flist k d) as -> by (by destruct k). split; [done|]. intros x. rewrite Hin, Hfs.
    destruct (decide (x = fid)) as [-> | Hx].
    + rewrite lookup_insert_eq. split; intros (g & Hg & <-); simplify_eq; eauto.
    + by rewrite lookup_insert_ne.
  - intros m [Hm|Hm]; [by apply Hpn|]. rewrite Hfs, lookup_insert_is_Some' in Hm.
    assert (is_Some (filters d !! m)) by (destruct Hm as [<- | ?]; eauto).
    pose proof (wf_next d Hwf m). eapply Nat.lt_le_trans; [|exact Hnext]. tauto.
Qed.

(** Who runs where after filter [fid] was replaced. *)
Lemma runs_on_update d d' fid f' k x m :
  filters d' = <[fid := f']> (filters d) ->
  runs_on d' k x m <-> (x <> fid /\ runs_on d k x m) \/ (x = fid /\ f_kind f' = k /\ f_pf f' = Some m).
Proof.
  intros Hd'. unfold runs_on. rewrite Hd'. destruct (decide (x = fid)) as [-> | Hx].
  - rewrite lookup_insert_eq. split; [intros (? & [= <-] & ? & ?); tauto|]. intros [[? _]|(_ & ? & ?)]; [done|eauto].
  - rewrite lookup_insert_ne by done. tauto.
Qed.

(** ** Detaching a filter *)

Section Unlink.
Context (d : demux) (fid l : loc) (f : swdmx_filter) (pf : pid_filter).
Context (Hwf : wf d) (Hf : filters d !! fid = Some f) (Hl : f_pf f = Some l) (Hpf : pfs d !! l = Some pf).
Let k := f_kind f.
Let pf1 := set_links k pf (list_remove_node fid (pf_links k pf)).

Lemma unlink_links k' m pfm :
  <[l := pf1]> (pfs d) !! m = Some pfm ->
  NoDup (pf_links k' pfm) /\ forall x, x ∈ pf_links k' pfm <-> x <> fid /\ runs_on d k' x m.
Proof.
  intros Hm. apply lookup_insert_Some in Hm as [[<- <-]|[Hne Hm]].
  - unfold pf1. rewrite pf_links_set. destruct (wf_links d Hwf l pf k' Hpf) as [Hnd Hin].
    case_decide as Hkk.
    + subst k'. split; [by apply NoDup_remove_node|]. intros x. by rewrite elem_remove_node, Hin.
    + split; [done|]. intros x. rewrite Hin. split; [|tauto]. intros Hx. split; [|done].
      intros ->. destruct Hx as (g & Hg & Hgk & _). unfold k in Hkk. simplify_eq.
  - destruct (wf_links d Hwf m pfm k' Hm) as [Hnd Hin]. split; [done|]. intros x. rewrite Hin.
    split; [|tauto]. intros Hx. split; [|done]. intros ->. destruct Hx as (g & Hg & _ & Hgm). simplify_eq.
Qed.

Context (f' : swdmx_filter) (Hk' : f_kind f' = k) (Hpf' : f_pf f' = None) (Hst' : f_state f' <> STATE_RUN).

Lemma unlink_run : f_state f' = STATE_RUN <-> is_Some (f_pf f').
Proof. rewrite Hpf'. split; [done|]. by intros ?%is_Some_None. Qed.

Lemma unlink_old x g m :
  <[fid := f']> (filters d) !! x = Some g -> f_pf g = Some m -> x <> fid /\ filters d !! x = Some g.
Proof. rewrite lookup_insert_Some. intros [[<- <-]|[? ?]]; [congruence|auto]. Qed.

(** The last filter of its PID: the PID filter goes with it. *)
Lemma unlink_drop_wf :
  pf_ts pf1 = [] -> pf_sec pf1 = [] ->
  wf (set_filter (Dmx (delete l (<[l := pf1]> (pfs d))) (list_remove_node l (pf_list d)) (filters d)
                    (ts_list d) (sec_list d) (next d)) fid f').
Proof.
  intros E1 E2. pose proof unlink_links as Hlk. pose proof unlink_old as Hold. pose proof unlink_run.
  destruct (wf_pf_list d Hwf) as [Hnd Hin].
  apply (wf_update d _ fid f f'); try done; cbn [set_filter pfs pf_list filters next].
  - split; [by apply NoDup_remove_node|]. intros m. rewrite elem_remove_node, Hin, delete_insert_eq.
    rewrite lookup_delete_is_Some. split; intros [? ?]; split; congruence || done.
  - intros m m' p p'. rewrite delete_insert_eq, !lookup_delete_Some.
    intros [_ ?] [_ ?]. by apply (wf_pf_pid d Hwf).
  - intros m p k' [Hm Hp]%lookup_delete_Some. destruct (Hlk k' m p) as [? Hx].
    { rewrite lookup_insert_ne in Hp by done. by rewrite lookup_insert_ne. }
    split; [done|]. intros x. rewrite (runs_on_update d _ fid f') by done. rewrite Hx, Hpf'. intuition done.
  - intros m p [Hm Hp]%lookup_delete_Some. rewrite lookup_insert_ne in Hp by done. by apply (wf_used d Hwf m).
  - intros x g m Hx Hg. destruct (Hold x g m Hx Hg) as [Hxf Hx'].
    destruct (wf_pid d Hwf x g m Hx' Hg) as (pm & Hpm & ?).
    assert (Hml : m <> l).
    { intros ->. destruct (Hlk (f_kind g) l pf1) as [_ Hy]; [by rewrite lookup_insert_eq|].
      assert (Hin1 : x ∈ pf_links (f_kind g) pf1) by (apply Hy; split; [done|]; exists g; done).
      apply used_links in Hin1. tauto. }
    exists pm. split; [|done]. by rewrite delete_insert_eq, lookup_delete_ne.
  - intros m. rewrite delete_insert_eq, lookup_delete_is_Some. intros [_ ?]. apply (wf_next d Hwf). auto.
Qed.

(** Other filters stay on the PID filter. *)
Lemma unlink_keep_wf :
  ~ (pf_ts pf1 = [] /\ pf_sec pf1 = []) ->
  wf (set_filter (Dmx (<[l := pf1]> (pfs d)) (pf_list d) (filters d) (ts_list d) (sec_list d) (next d)) fid f').
Proof.
  intros Hne. pose proof unlink_links as Hlk. pose proof unlink_old as Hold. pose proof unlink_run.
  destruct (wf_pf_list d Hwf) as [Hnd Hin].
  assert (Hpid1 : forall m pfm, <[l := pf1]> (pfs d) !! m = Some pfm ->
            exists pf0, pfs d !! m = Some pf0 /\ pf_pid pf0 = pf_pid pfm).
  { intros m pfm [[<- <-]|[_ ?]]%lookup_insert_Some; [|eauto]. exists pf. unfold pf1. by rewrite pf_pid_set. }
  apply (wf_update d _ fid f f'); try done; cbn [set_filter pfs pf_list filters next].
  - split; [done|]. intros m. rewrite Hin, lookup_insert_is_Some'. split; [auto|]. intros [<- | ?]; eauto.
  - intros m m' p p' (p0 & ? & E)%Hpid1 (p0' & ? & E')%Hpid1 Heq. eapply (wf_pf_pid d Hwf); eauto. congruence.
  - intros m p k' Hm. destruct (Hlk k' m p Hm) as [? Hx]. split; [done|]. intros x.
    rewrite (runs_on_update d _ fid f') by done. rewrite Hx, Hpf'. intuition done.
  - intros m p [[<- <-]|[_ Hm]]%lookup_insert_Some; [|by apply (wf_used d Hwf m)].
    destruct (pf_ts pf1); [|by left]. destruct (pf_sec pf1); [|by right]. by exfalso; apply Hne.
  - intros x g m Hx Hg. destruct (Hold x g m Hx Hg) as [Hxf Hx'].
    destruct (wf_pid d Hwf x g m Hx' Hg) as (pm & Hpm & ?). destruct (decide (m = l)) as [-> | ].
    + exists pf1. rewrite lookup_insert_eq. split; [done|]. unfold pf1. rewrite pf_pid_set. congruence.
    + exists pm. by rewrite lookup_insert_ne.
  - intros m. rewrite lookup_insert_is_Some'. intros Hm. apply (wf_next d Hwf). left. destruct Hm as [<- | ?]; eauto.
Qed.

Lemma unlink_wf : wf (set_filter (unlink d k fid l) fid f').
Proof.
  pose proof unlink_drop_wf as Hdrop. pose proof unlink_keep_wf as Hkeep. unfold unlink. rewrite Hpf. fold pf1.
  unfold pid_filter_remove, set_pf. cbn [pfs]. rewrite lookup_insert_eq.
  destruct (pf_ts pf1) eqn:E1; [|apply Hkeep; by intros [? _]].
  destruct (pf_sec pf1) eqn:E2; [by apply Hdrop|]. apply Hkeep. by intros [_ ?].
Qed.
End Unlink.

(** ** Attaching a filter *)

(** What pid_filter_get returns: an existing PID filter of that PID, or a new
    one without filters. *)
Lemma pid_filter_get_spec d pid :
  wf d ->
  let '(d1, l) := pid_filter_get d pid in
  filters d1 = filters d /\ ts_list d1 = ts_list d /\ sec_list d1 = sec_list d /\
  (next d <= next d1)%nat /\ (NoDup (pf_list d1) /\ forall m, m ∈ pf_list d1 <-> is_Some (pfs d1 !! m)) /\
  (forall m, is_Some (pfs d1 !! m) -> (m < next d1)%nat) /\
  exists pf, pfs d1 !! l = Some pf /\ pf_pid pf = pid /\
    (forall m pm, pfs d1 !! m = Some pm -> pfs d !! m = Some pm \/ (m = l /\ pm = pf /\ pfs d !! l = None)) /\
    (forall m pm, pfs d !! m = Some pm -> pfs d1 !! m = Some pm) /\
    (forall m pm, pfs d !! m = Some pm -> pf_pid pm = pid -> m = l) /\
    (pfs d !! l = None -> pf_ts pf = [] /\ pf_sec pf = []).
Proof.
  intros Hwf. destruct (wf_pf_list d Hwf) as [Hnd Hin]. unfold pid_filter_get.
  destruct (find_pf_spec (pfs d) (pf_list d) pid) as [(l & pf & -> & Hl & Hpf & Hpid)|[-> Hnone]].
  - repeat split; try done; try (intros; by apply Hin); try (intros; apply (wf_next d Hwf); auto).
    exists pf. repeat split; try done; auto; try congruence.
    intros m pm Hm Hp. eapply (wf_pf_pid d Hwf); eauto. congruence.
  - assert (Hfresh : pfs d !! next d = None).
    { apply eq_None_not_Some. intros Hs. pose proof (wf_next d Hwf (next d) (or_introl Hs)). lia. }
    cbn [filters ts_list sec_list next pf_list pfs]. repeat (split; [done || lia|]). split; [split|split].
    + apply NoDup_app. split; [done|]. split; [|apply NoDup_singleton].
      intros m Hm ->%list_elem_of_singleton. apply Hin in Hm. rewrite Hfresh in Hm. by apply is_Some_None in Hm.
    + intros m. rewrite elem_of_app, list_elem_of_singleton, Hin, lookup_insert_is_Some'. intuition congruence.
    + intros m. rewrite lookup_insert_is_Some'. intros [<- | Hm]; [lia|].
      pose proof (wf_next d Hwf m (or_introl Hm)). lia.
    + exists (PidFilter pid [] [] None 0). rewrite lookup_insert_eq.
      split; [done|]. split; [done|]. split; [|split; [|split]].
      * intros m pm [[<- <-]|[_ ?]]%lookup_insert_Some; auto.
      * intros m pm Hm. rewrite lookup_insert_ne; [done|]. congruence.
      * intros m pm Hm Hp. exfalso. eapply Hnone; eauto. apply Hin. eauto.
      * done.
Qed.

(** The links after the filter was appended to those of the PID filter. *)
Lemma link_links d d1 fid f' l pf k k' m pm :
  wf d -> (forall k' m, ~ runs_on d k' fid m) -> f_kind f' = k -> f_pf f' = Some l ->
  filters d1 = filters d ->
  (forall k', NoDup (pf_links k' pf) /\ forall x, x ∈ pf_links k' pf <-> runs_on d k' x l) ->
  (forall m pm, pfs d1 !! m = Some pm -> pfs d !! m = Some pm \/ (m = l /\ pm = pf /\ pfs d !! l = None)) ->
  let pf1 := set_links k pf (pf_links k pf ++ [fid]) in
  <[l := pf1]> (pfs d1) !! m = Some pm ->
  NoDup (pf_links k' pm) /\
  forall x, x ∈ pf_links k' pm <-> runs_on (set_filter (set_pf d1 l pf1) fid f') k' x m.
Proof.
  intros Hwf Hnotin Hk Hfl Efs Hlinks0 Hbwd pf1 Hm.
  assert (Hrun : forall x, runs_on (set_filter (set_pf d1 l pf1) fid f') k' x m <->
            (x <> fid /\ runs_on d k' x m) \/ (x = fid /\ k = k' /\ l = m)).
  { intros x. rewrite (runs_on_update d _ fid f') by (cbn; congruence). rewrite Hk, Hfl. intuition congruence. }
  apply lookup_insert_Some in Hm as [[<- <-]|[Hne Hm]].
  - destruct (Hlinks0 k') as [Hnd Hin]. rewrite (pf_links_set k k' pf (pf_links k pf ++ [fid]) : pf_links k' pf1 = _).
    case_decide as Hkk.
    + subst k'. split.
      { apply NoDup_app. split; [done|]. split; [|apply NoDup_singleton].
        intros x Hx ->%list_elem_of_singleton. apply Hin in Hx. by apply Hnotin in Hx. }
      intros x. rewrite elem_of_app, list_elem_of_singleton, Hrun, Hin. split; [|intuition congruence].
      intros [Hx | ->]; [left|by right]. split; [|done]. intros ->. by apply Hnotin in Hx.
    + split; [done|]. intros x. rewrite Hrun, Hin. split; [|intuition congruence].
      intros Hx. left. split; [|done]. intros ->. by apply Hnotin in Hx.
  - destruct (Hbwd m pm Hm) as [Hm'|(-> & _)]; [|done].
    destruct (wf_links d Hwf m pm k' Hm') as [Hnd Hin]. split; [done|]. intros x. rewrite Hrun, Hin.
    split; [|intuition congruence]. intros Hx. left. split; [|done]. intros ->. by apply Hnotin in Hx.
Qed.

Lemma link_wf d fid f pid st data :
  wf d -> filters d !! fid = Some f -> f_pf f = None ->
  let '(d', l) := link d (f_kind f) fid pid in
  st = STATE_RUN -> wf (set_filter d' fid (Filter (f_kind f) st pid (Some l) data)).
Proof.
  intros Hwf Hf Hpf0. unfold link. pose proof (pid_filter_get_spec d pid Hwf) as Hget.
  destruct (pid_filter_get d pid) as [d1 l].
  destruct Hget as (Efs & Ets & Esec & Hnx & Hpl & Hpn & pf & Hpf & Hpid & Hbwd & Hfwd & Huniq & Hempty).
  rewrite Hpf. intros ->. set (k := f_kind f). set (f' := Filter k STATE_RUN pid (Some l) data).
  set (pf1 := set_links k pf (pf_links k pf ++ [fid])).
  assert (Hnotin : forall k' m, ~ runs_on d k' fid m) by (intros k' m (g & ? & _ & ?); congruence).
  assert (Hlinks0 : forall k', NoDup (pf_links k' pf) /\ forall x, x ∈ pf_links k' pf <-> runs_on d k' x l).
  { intros k'. destruct (pfs d !! l) as [pf0|] eqn:E.
    - assert (pf0 = pf) as -> by (apply Hfwd in E; congruence). by apply (wf_links d Hwf).
    - destruct (Hempty eq_refl) as [E1 E2]. assert (pf_links k' pf = []) as -> by (by destruct k').
      split; [constructor|]. intros x. split; [by intros ?%elem_of_nil|]. intros (g & Hg & _ & Hgl).
      destruct (wf_pid d Hwf x g l Hg Hgl) as (? & ? & _). congruence. }
  apply (wf_update d _ fid f f'); try done; cbn [set_filter set_pf pfs pf_list filters next ts_list sec_list];
    try congruence.
  - destruct Hpl as [? Hin]. split; [done|]. intros m. rewrite Hin, lookup_insert_is_Some'.
    split; [auto|]. intros [<- | ?]; eauto.
  - assert (Hb : forall m pm, <[l := pf1]> (pfs d1) !! m = Some pm -> (m = l /\ pf_pid pm = pid) \/ pfs d !! m = Some pm).
    { intros m pm [[<- <-]|[Hne Hm]]%lookup_insert_Some; [left; split; [done|]; unfold pf1; by rewrite pf_pid_set|].
      destruct (Hbwd m pm Hm) as [?|(-> & _)]; [by right|done]. }
    intros m m' p p' [[-> E]|E]%Hb [[-> E']|E']%Hb Heq; [done|..].
    + symmetry. eapply Huniq; eauto. congruence.
    + eapply Huniq; eauto. congruence.
    + eapply (wf_pf_pid d Hwf); eauto.
  - intros m pm k' Hm. by apply (link_links d d1 fid f' l pf k k' m pm).
  - intros m pm [[<- <-]|[Hne Hm]]%lookup_insert_Some.
    + apply (used_links k _ fid). unfold pf1. rewrite pf_links_set, decide_True by done.
      apply elem_of_app. right. by apply list_elem_of_singleton.
    + destruct (Hbwd m pm Hm) as [Hm'|(-> & _)]; [|done]. by apply (wf_used d Hwf m).
  - intros x g m. rewrite Efs, lookup_insert_Some. intros [[<- <-]|[Hx Hg]] Hgm.
    + injection Hgm as <-. exists pf1. rewrite lookup_insert_eq. split; [done|]. unfold pf1. by rewrite pf_pid_set.
    + destruct (wf_pid d Hwf x g m Hg Hgm) as (pm & Hpm & ?). apply Hfwd in Hpm as Hpm1.
      destruct (decide (m = l)) as [-> | ].
      * exists pf1. rewrite lookup_insert_eq. split; [done|]. unfold pf1. rewrite pf_pid_set. congruence.
      * exists pm. by rewrite lookup_insert_ne.
  - intros m. rewrite lookup_insert_is_Some'. intros [<- | ?]; apply Hpn; eauto.
Qed.

(** ** Operations preserve the invariant *)

(** The section buffer of a PID filter is empty and unallocated, or satisfies
    the reassembly invariant. *)
Definition sec_ok (pf : pid_filter) : Prop :=
  match pf_sec_data pf with
  | None => pf_sec_recv pf = 0
  | Some b => sec_inv (SecState b (pf_sec_recv pf))
  end.

Definition inv (d : demux) : Prop := wf d /\ map_Forall (fun _ pf => sec_ok pf) (pfs d).

Lemma sec_ok_set_links k pf l : sec_ok pf -> sec_ok (set_links k pf l).
Proof. by destruct k. Qed.

Lemma unlink_sec_ok d k fid l :
  map_Forall (fun _ pf => sec_ok pf) (pfs d) -> map_Forall (fun _ pf => sec_ok pf) (pfs (unlink d k fid l)).
Proof.
  intros Hs. unfold unlink. destruct (pfs d !! l) as [pf|] eqn:E; [|done].
  unfold pid_filter_remove. set (d1 := set_pf _ _ _).
  assert (Hs1 : map_Forall (fun _ pf => sec_ok pf) (pfs d1)).
  { apply map_Forall_insert_2; [|done]. by apply sec_ok_set_links, (Hs l). }
  destruct (pfs d1 !! l) as [pf1|]; [|done].
  destruct (pf_ts pf1), (pf_sec pf1); try done. by apply map_Forall_delete.
Qed.

Lemma link_sec_ok d k fid pid :
  map_Forall (fun _ pf => sec_ok pf) (pfs d) -> map_Forall (fun _ pf => sec_ok pf) (pfs (link d k fid pid).1).
Proof.
  intros Hs. unfold link. assert (Hs1 : map_Forall (fun _ pf => sec_ok pf) (pfs (pid_filter_get d pid).1)).
  { unfold pid_filter_get. destruct (find_pf _ _ _); [done|]. by apply map_Forall_insert_2. }
  destruct (pid_filter_get d pid) as [d1 l]. cbn [fst] in Hs1.
  destruct (pfs d1 !! l) as [pf|] eqn:E; [|done].
  apply map_Forall_insert_2; [|done]. by apply sec_ok_set_links, (Hs1 l).
Qed.

(** Replacing a filter by one that is linked the same way. *)
Lemma set_filter_wf d fid f f' :
  wf d -> filters d !! fid = Some f -> f_kind f' = f_kind f -> f_pf f' = f_pf f ->
  (f_state f' = STATE_RUN <-> f_state f = STATE_RUN) -> (f_pf f <> None -> f_pid f' = f_pid f) ->
  wf (set_filter d fid f').
Proof.
  intros Hwf Hf Hk Hpf Hst Hpid. apply (wf_update d _ fid f f'); try done; cbn [set_filter pfs pf_list filters next].
  - rewrite Hst, Hpf. by apply (wf_run d Hwf fid).
  - apply (wf_pf_list d Hwf).
  - apply (wf_pf_pid d Hwf).
  - intros l pf k Hl. destruct (wf_links d Hwf l pf k Hl) as [? Hin]. split; [done|]. intros x.
    rewrite Hin, (runs_on_update d (set_filter d fid f') fid f') by done. rewrite Hk, Hpf.
    destruct (decide (x = fid)) as [-> | ]; [|intuition congruence].
    unfold runs_on. split; [intros (g & ? & ? & ?); simplify_eq; tauto|].
    intros [[? _]|(_ & ? & ?)]; [done|eauto].
  - apply (wf_used d Hwf).
  - intros x g l [[<- <-]|[_ Hg]]%lookup_insert_Some Hgl; [|by apply (wf_pid d Hwf x)].
    rewrite Hpid by congruence. apply (wf_pid d Hwf fid f); [done|congruence].
  - intros l Hl. apply (wf_next d Hwf). auto.
Qed.

Lemma enable_inv d fid : inv d -> inv (swdmx_filter_enable d fid).1.
Proof.
  intros [Hwf Hs]. unfold swdmx_filter_enable. destruct (filters d !! fid) as [f|] eqn:Hf; [|done].
  destruct (f_state f) eqn:Est; try done.
  assert (Hpf : f_pf f = None).
  { pose proof (wf_run d Hwf fid f Hf) as Hr. rewrite Est in Hr.
    destruct (f_pf f); [|done]. destruct Hr as [_ Hr]. specialize (Hr ltac:(eauto)). done. }
  pose proof (link_wf d fid f (f_pid f) STATE_RUN (f_data f) Hwf Hf Hpf) as Hl.
  pose proof (link_sec_ok d (f_kind f) fid (f_pid f) Hs) as Hs'.
  destruct (link d (f_kind f) fid (f_pid f)) as [d' l]. split; [by apply Hl|done].
Qed.

Lemma disable_inv d fid : inv d -> inv (swdmx_filter_disable d fid).1.
Proof.
  intros [Hwf Hs]. unfold swdmx_filter_disable. destruct (filters d !! fid) as [f|] eqn:Hf; [|done].
  destruct (f_state f) eqn:Est; try done. destruct (f_pf f) as [l|] eqn:Hl; [|done].
  destruct (wf_pid d Hwf fid f l Hf Hl) as (pf & Hpf & _). split.
  - by apply (unlink_wf d fid l f pf).
  - by apply unlink_sec_ok.
Qed.

Lemma link_set_filter d x g k fid pid :
  link (set_filter d x g) k fid pid = let '(d', l) := link d k fid pid in (set_filter d' x g, l).
Proof.
  unfold link, pid_filter_get. cbn [pfs pf_list set_filter next filters ts_list sec_list].
  destruct (find_pf (pfs d) (pf_list d) pid) as [l|]; cbn [pfs set_filter].
  - by destruct (pfs d !! l).
  - by rewrite lookup_insert_eq.
Qed.

Lemma set_filter_twice d x g g' : set_filter (set_filter d x g) x g' = set_filter d x g'.
Proof. unfold set_filter. cbn. by rewrite insert_insert_eq. Qed.

Lemma link_set_wf d fid f k pid data :
  wf (set_filter d fid f) -> f_pf f = None -> f_kind f = k ->
  let '(d', l) := link d k fid pid in wf (set_filter d' fid (Filter k STATE_RUN pid (Some l) data)).
Proof.
  intros Hwf Hpf <-. pose proof (link_wf (set_filter d fid f) fid f pid STATE_RUN data Hwf) as Hl.
  rewrite link_set_filter in Hl. destruct (link d (f_kind f) fid pid) as [d' l].
  rewrite set_filter_twice in Hl. apply Hl; [|done|done]. cbn. apply lookup_insert_eq.
Qed.

Lemma set_params_inv d fid params : inv d -> inv (swdmx_filter_set_params d fid params).1.
Proof.
  intros [Hwf Hs]. unfold swdmx_filter_set_params. destruct (filters d !! fid) as [f|] eqn:Hf; [|done].
  case_if; [done|]. set (data := match f_kind f with KTs => _ | KSec => _ end).
  pose proof (wf_run d Hwf fid f Hf) as Hrun.
  assert (Hset : f_state f <> STATE_RUN ->
    inv (set_filter d fid (Filter (f_kind f) STATE_SET (sp_pid params) (f_pf f) data))).
  { intros Hst. split; [|done]. apply (set_filter_wf d fid f); try done; cbn.
    destruct (f_pf f); [|done]. destruct Hst. apply Hrun. eauto. }
  destruct (f_state f) eqn:Est; [by apply Hset|by apply Hset|].
  destruct (f_pf f) as [l|] eqn:Hl; [|done].
  destruct (Z.eqb_spec (f_pid f) (sp_pid params)) as [Heq | Hne]; cbn [negb].
  - split; [|done]. apply (set_filter_wf d fid f); cbn; try done; by rewrite Est || auto.
  - destruct (wf_pid d Hwf fid f l Hf Hl) as (pf & Hpf & _).
    set (mid := Filter (f_kind f) STATE_SET (f_pid f) None (f_data f)).
    pose proof (unlink_wf d fid l f pf Hwf Hf Hl Hpf mid eq_refl eq_refl ltac:(done)) as Hmid.
    pose proof (link_set_wf _ fid mid (f_kind f) (sp_pid params) data Hmid eq_refl eq_refl) as Hfin.
    pose proof (link_sec_ok _ (f_kind f) fid (sp_pid params) (unlink_sec_ok d (f_kind f) fid l Hs)) as Hs'.
    destruct (link _ _ _ _) as [d' l']. by split.
Qed.

Lemma set_cbs_inv d fid f l : inv d -> filters d !! fid = Some f -> inv (set_filter d fid (set_cbs f l)).
Proof. intros [Hwf Hs] Hf. split; [|done]. by apply (set_filter_wf d fid f). Qed.

Lemma alloc_inv k junk d : inv d -> inv (swdmx_demux_alloc_filter k junk d).1.
Proof.
  intros [Hwf Hs]. set (l := next d).
  assert (Hfresh : filters d !! l = None).
  { apply eq_None_not_Some. intros Hx. pose proof (wf_next d Hwf l (or_intror Hx)). unfold l in *. lia. }
  unfold swdmx_demux_alloc_filter. fold l. set (f := Filter k STATE_INIT 0 None _).
  set (d' := fst _). assert (Hfs : filters d' = <[l := f]> (filters d)) by (by destruct k).
  assert (Hpfs : pfs d' = pfs d) by (by destruct k). assert (Hpl : pf_list d' = pf_list d) by (by destruct k).
  split; [|by rewrite Hpfs].
  assert (Hruns : forall k' x m, runs_on d' k' x m <-> runs_on d k' x m).
  { intros k' x m. rewrite (runs_on_update d d' l f) by done. cbn.
    split; [intros [[_ ?]|(_ & _ & ?)]; done|]. intros Hx. left. split; [|done]. intros ->.
    destruct Hx as (g & Hg & _). congruence. }
  split; rewrite ?Hpfs, ?Hpl; try apply Hwf.
  - intros m pf k' Hm. destruct (wf_links d Hwf m pf k' Hm) as [? Hin]. split; [done|]. intros x. by rewrite Hin, Hruns.
  - intros x g. rewrite Hfs, lookup_insert_Some. intros [[<- <-]|[_ Hg]]; [|by apply (wf_run d Hwf x)].
    split; [done|]. by intros ?%is_Some_None.
  - intros x g m. rewrite Hfs, lookup_insert_Some. intros [[<- <-]|[_ Hg]]; [done|]. by apply (wf_pid d Hwf x).
  - intros k'. destruct (wf_flist d Hwf k') as [Hnd Hin].
    assert (El : flist k' d' = flist k' d ++ (if decide (k' = k) then [l] else [])).
    { destruct k, k'; cbn; by rewrite ?app_nil_r. }
    rewrite El. split.
    { apply NoDup_app. split; [done|]. split; [|case_decide; [apply NoDup_singleton|constructor]].
      intros x Hx Hx'. apply Hin in Hx as (g & Hg & _). case_decide; [|by apply elem_of_nil in Hx'].
      apply list_elem_of_singleton in Hx'. congruence. }
    intros x. rewrite elem_of_app, Hin, Hfs. destruct (decide (x = l)) as [-> | Hx].
    + rewrite lookup_insert_eq. split.
      * intros [(g & ? & _)|Hx]; [congruence|]. case_decide; [eauto|by apply elem_of_nil in Hx].
      * intros (g & [= <-] & <-). right. rewrite decide_True by done. by apply list_elem_of_singleton.
    + rewrite lookup_insert_ne by done. split; [|auto]. intros [?|Hx']; [done|].
      case_decide; [by apply list_elem_of_singleton in Hx'|by apply elem_of_nil in Hx'].
  - assert (Hn : next d' = S l) by (by destruct k). intros m. rewrite Hfs, Hn, lookup_insert_is_Some'.
    intros Hm. pose proof (wf_next d Hwf m). unfold l in *. destruct Hm as [?|[<- | ?]]; [|lia|]; specialize (H ltac:(auto)); lia.
Qed.

(** Deleting a filter that is not linked. *)
Lemma delete_wf d fid :
  wf d -> (forall f, filters d !! fid = Some f -> f_pf f = None) ->
  wf (Dmx (pfs d) (pf_list d) (delete fid (filters d)) (list_remove_node fid (ts_list d))
        (list_remove_node fid (sec_list d)) (next d)).
Proof.
  intros Hwf Hun. set (d' := Dmx _ _ _ _ _ _).
  assert (Hruns : forall k x m, runs_on d' k x m <-> runs_on d k x m).
  { intros k x m. unfold runs_on, d'. cbn [filters]. split.
    - intros (g & [_ Hg]%lookup_delete_Some & ?). eauto.
    - intros (g & Hg & ? & Hm). exists g. split; [|done]. apply lookup_delete_Some. split; [|done].
      intros ->. specialize (Hun g Hg). congruence. }
  split; cbn [pfs pf_list filters next d']; try apply Hwf.
  - intros m pf k Hm. destruct (wf_links d Hwf m pf k Hm) as [? Hin]. split; [done|]. intros x. by rewrite Hin, Hruns.
  - intros x g [_ Hg]%lookup_delete_Some. by apply (wf_run d Hwf x).
  - intros x g m [_ Hg]%lookup_delete_Some. by apply (wf_pid d Hwf x).
  - intros k. destruct (wf_flist d Hwf k) as [Hnd Hin].
    assert (flist k d' = list_remove_node fid (flist k d)) as -> by (by destruct k).
    split; [by apply NoDup_remove_node|]. intros x. rewrite elem_remove_node, Hin.
    split; [intros [? (g & ? & ?)]; exists g|intros (g & Hg & ?)]; rewrite lookup_delete_Some in *; [done|].
    destruct Hg. split; [congruence|eauto].
  - intros m Hm. apply (wf_next d Hwf). destruct Hm as [?|[? [_ ?]%lookup_delete_Some]]; eauto.
Qed.

Lemma disable_unlinked d fid f :
  inv d -> filters (swdmx_filter_disable d fid).1 !! fid = Some f -> f_pf f = None.
Proof.
  intros [Hwf Hs]. unfold swdmx_filter_disable. destruct (filters d !! fid) as [g|] eqn:Hg; [|cbn; congruence].
  pose proof (wf_run d Hwf fid g Hg) as Hr.
  assert (Hun : f_state g <> STATE_RUN -> filters d !! fid = Some f -> f_pf f = None).
  { intros Hst Hf. rewrite Hg in Hf. injection Hf as ->. destruct (f_pf f); [|done].
    destruct Hst. apply Hr. eauto. }
  destruct (f_state g) eqn:Est; [by apply Hun|by apply Hun|]. destruct Hr as [Hr _].
  destruct (Hr eq_refl) as [l ->]. cbn. rewrite lookup_insert_eq. by intros [= <-].
Qed.

Lemma free_inv d fid : inv d -> inv (swdmx_filter_free d fid).
Proof.
  intros Hi. pose proof (disable_inv d fid Hi) as [Hwf' Hs']. split; [|done].
  apply delete_wf; [done|]. intros f. by apply disable_unlinked.
Qed.


(** ** Packets *)

(** A new buffer and a packet as the TS parser makes it. *)
Definition malloc_ok (m : list Z) : Prop := Z.of_nat (length m) = SEC_BUF_SIZE /\ Forall is_byte m.
Definition packet_ok (pkt : swdmx_tspacket) : Prop := forall p, payload pkt = Some p -> Forall is_byte p.

(** Replacing the section state of a PID filter. *)
Lemma set_pf_wf d l pf pf' :
  wf d -> pfs d !! l = Some pf -> pf_pid pf' = pf_pid pf -> pf_ts pf' = pf_ts pf -> pf_sec pf' = pf_sec pf ->
  wf (set_pf d l pf').
Proof.
  intros Hwf Hl Hpid Hts Hsec.
  assert (Hb : forall m pm, <[l := pf']> (pfs d) !! m = Some pm ->
            exists p0, pfs d !! m = Some p0 /\ pf_pid p0 = pf_pid pm /\ forall k, pf_links k p0 = pf_links k pm).
  { intros m pm [[<- <-]|[_ ?]]%lookup_insert_Some; [|by eauto]. exists pf.
    split; [done|]. split; [done|]. by intros []. }
  split; cbn [set_pf pfs pf_list filters next]; try apply Hwf.
  - destruct (wf_pf_list d Hwf) as [? Hin]. split; [done|]. intros m.
    rewrite Hin, lookup_insert_is_Some'. split; [auto|]. intros [<- | ?]; eauto.
  - intros m m' p p' (p0 & ? & ? & _)%Hb (p0' & ? & ? & _)%Hb ?. eapply (wf_pf_pid d Hwf); eauto. congruence.
  - intros m p k (p0 & Hp0 & _ & Hk)%Hb. rewrite <- Hk. by apply (wf_links d Hwf).
  - intros m p (p0 & Hp0 & _ & Hk)%Hb. pose proof (Hk KTs) as E1. pose proof (Hk KSec) as E2. cbn in E1, E2.
    rewrite <- E1, <- E2. by apply (wf_used d Hwf m).
  - intros x g m Hx Hg. destruct (wf_pid d Hwf x g m Hx Hg) as (p & Hp & ?).
    destruct (decide (m = l)) as [-> | ]; [exists pf'; rewrite lookup_insert_eq|exists p; by rewrite lookup_insert_ne].
    split; [done|]. congruence.
  - intros m [Hm|Hm]; [|apply (wf_next d Hwf); auto]. apply (wf_next d Hwf). left.
    apply lookup_insert_is_Some' in Hm as [<- | ?]; eauto.
Qed.

(** The running filters of a kind on a PID. *)
Definition running (d : demux) (k : kind) (p : Z) (f : swdmx_filter) : Prop :=
  exists fid, filters d !! fid = Some f /\ f_kind f = k /\ f_state f = STATE_RUN /\ f_pid f = p.

Lemma links_running d l pf k fid f :
  wf d -> pfs d !! l = Some pf -> fid ∈ pf_links k pf -> filters d !! fid = Some f ->
  running d k (pf_pid pf) f.
Proof.
  intros Hwf Hl Hin Hf. apply (wf_links d Hwf l pf k Hl) in Hin as (g & Hg & Hk & Hgl).
  rewrite Hf in Hg. injection Hg as <-.
  destruct (wf_pid d Hwf fid f l Hf Hgl) as (pf0 & Hl0 & Hp). rewrite Hl in Hl0. injection Hl0 as <-.
  exists fid. repeat split; try done. apply (wf_run d Hwf fid); eauto.
Qed.

Lemma running_links d l pf k f :
  wf d -> pfs d !! l = Some pf -> running d k (pf_pid pf) f ->
  exists fid, fid ∈ pf_links k pf /\ filters d !! fid = Some f.
Proof.
  intros Hwf Hl (fid & Hf & Hk & Hst & Hp). apply (wf_run d Hwf fid) in Hst as [m Hm]; [|done].
  destruct (wf_pid d Hwf fid f m Hf Hm) as (pm & Hpm & ?).
  assert (m = l) as -> by (eapply (wf_pf_pid d Hwf); eauto; congruence).
  exists fid. split; [|done]. apply (wf_links d Hwf l pf k Hl). exists f. done.
Qed.

(** What a packet causes at the PID filter it belongs to. *)
Lemma pid_filter_data_spec malloc d l pf pkt :
  inv d -> malloc_ok malloc -> packet_ok pkt -> pfs d !! l = Some pf ->
  exists d' calls,
    pid_filter_data malloc d l pkt
      = Some (d', ((fun e => EvPacket e pkt) <$> (pf_ts pf ≫= cbs_of d)) ++ (EvSection <$> calls)) /\
    inv d' /\ filters d' = filters d /\ Forall (call_ok (sec_filters_of d pf)) calls.
Proof.
  intros [Hwf Hs] [Hml Hmb] Hpkt Hl. unfold pid_filter_data. rewrite Hl.
  set (evs := (fun e => EvPacket e pkt) <$> (pf_ts pf ≫= cbs_of d)).
  assert (Hquiet : exists d' calls, Some (d, evs) = Some (d', evs ++ (EvSection <$> calls)) /\
            inv d' /\ filters d' = filters d /\ Forall (call_ok (sec_filters_of d pf)) calls).
  { exists d, []. cbn. rewrite app_nil_r. split; [done|]. split; [by split|]. split; [done|constructor]. }
  destruct (pf_sec pf) as [|s secs] eqn:Esec; [done|]. destruct (payload pkt) as [p|] eqn:Ep; [|done].
  case_if; [done|].
  assert (Hst : sec_inv (SecState (default malloc (pf_sec_data pf)) (pf_sec_recv pf))).
  { pose proof (Hs l pf Hl) as Ho. unfold sec_ok in Ho. destruct (pf_sec_data pf); [done|]. cbn.
    rewrite Ho. split; [done|done|]. left. cbn. lia. }
  destruct (sec_payload_spec (sec_filters_of d pf) _ (payload_start pkt) p Hst (Hpkt p Ep))
    as (st' & calls & -> & Hi' & Hc).
  do 2 eexists. split; [reflexivity|]. split; [|done]. split.
  - by eapply set_pf_wf.
  - apply map_Forall_insert_2; [|done]. unfold sec_ok. cbn. by destruct st'.
Qed.

(** C14: dispatch.  A packet reaches exactly the callbacks of the TS filters
    that run on its PID, unchanged; every section it completes goes only to
    callbacks of section filters that run on its PID and match it, and with a
    right CRC where the filter asks for one.  The demux keeps its invariant
    and its filters. *)
Theorem demux_dispatch malloc d pkt :
  inv d -> malloc_ok malloc -> packet_ok pkt ->
  exists d' evs, swdmx_demux_ts_packet_cb malloc d pkt = Some (d', evs) /\
    inv d' /\ filters d' = filters d /\
    (forall e pkt', EvPacket e pkt' ∈ evs <->
       pkt' = pkt /\ exists f, running d KTs (pid pkt) f /\ e ∈ s_cbs (f_data f)) /\
    (forall e s, EvSection (e, s) ∈ evs ->
       exists f sec, running d KSec (pid pkt) f /\ e ∈ s_cbs (f_data f) /\
         sec_filter_match sec (f_data f) = true /\ s = take (length s) sec /\
         (truthy (s_crc32 (f_data f)) = true -> Crc.swdmx_crc32 s = 0)).
Proof.
  intros Hi Hm Hp. pose proof Hi as [Hwf _]. unfold swdmx_demux_ts_packet_cb.
  destruct (find_pf_spec (pfs d) (pf_list d) (pid pkt)) as [(l & pf & -> & _ & Hl & Hpid)|[-> Hnone]].
  - destruct (pid_filter_data_spec malloc d l pf pkt Hi Hm Hp Hl) as (d' & calls & E & Hi' & Hfs & Hcalls).
    rewrite E. do 2 eexists. split; [reflexivity|]. split; [done|]. split; [done|]. split.
    + intros e pkt'. rewrite elem_of_app, !list_elem_of_fmap. split.
      * intros [(e' & [= -> ->] & He)|(c & ? & _)]; [|done]. split; [done|].
        apply list_elem_of_bind in He as (fid & He & Hin). unfold cbs_of in He.
        destruct (filters d !! fid) as [f|] eqn:Hf; [|by apply elem_of_nil in He].
        exists f. split; [|done]. rewrite <- Hpid. by eapply (links_running d l pf KTs).
      * intros (-> & f & Hr & He). left. exists e. split; [done|]. rewrite <- Hpid in Hr.
        destruct (running_links d l pf KTs f Hwf Hl Hr) as (fid & Hin & Hf).
        apply list_elem_of_bind. exists fid. unfold cbs_of. by rewrite Hf.
    + intros e s. rewrite elem_of_app, !list_elem_of_fmap. intros [(e' & ? & _)|(c & [= <-] & Hc)]; [done|].
      assert (Hok : call_ok (sec_filters_of d pf) (e, s)).
      { clear -Hcalls Hc. induction Hcalls; [by apply elem_of_nil in Hc|].
        apply elem_of_cons in Hc as [<- | ?]; auto. }
      destruct Hok as (sf & sec & Hsf & He & Hmt & Hs & Hcrc). cbn [fst snd] in *.
      unfold sec_filters_of in Hsf. apply list_elem_of_omap in Hsf as (fid & Hin & Hfd).
      destruct (filters d !! fid) as [f|] eqn:Hf; [|done]. injection Hfd as <-.
      exists f, sec. split; [|done]. rewrite <- Hpid. by eapply (links_running d l pf KSec).
  - exists d, []. split; [done|]. split; [done|]. split; [done|]. split; [|by intros ? ? ?%elem_of_nil].
    intros e pkt'. split; [by intros ?%elem_of_nil|].
    intros (-> & f & (fid & Hf & _ & Hst & Hfp) & _). exfalso.
    apply (wf_run d Hwf fid) in Hst as [l Hl]; [|done].
    destruct (wf_pid d Hwf fid f l Hf Hl) as (pf & Hpf & Hpp).
    eapply (Hnone l pf); [|done|congruence]. apply (wf_pf_list d Hwf). eauto.
Qed.

(** ** Any sequence of operations *)

(** The calls of the demux interface; [junk] and [malloc] are the contents
    of fresh memory. *)
Inductive op :=
  | OpAlloc (k : kind) (junk : secfilter)
  | OpSetParams (k : kind) (fid : loc) (params : secfilter_params)
  | OpAddCb (k : kind) (fid : loc) (cb data : Z)
  | OpRemoveCb (k : kind) (fid : loc) (cb data : Z)
  | OpEnable (k : kind) (fid : loc)
  | OpDisable (k : kind) (fid : loc)
  | OpFree (k : kind) (fid : loc)
  | OpPacket (malloc : list Z) (pkt : swdmx_tspacket).

Definition step (d : demux) (o : op) : option demux :=
  match o with
  | OpAlloc KTs junk => Some (fst (swdmx_demux_alloc_ts_filter junk d))
  | OpAlloc KSec junk => Some (fst (swdmx_demux_alloc_sec_filter junk d))
  | OpSetParams KTs fid params => Some (fst (swdmx_ts_filter_set_params d fid params))
  | OpSetParams KSec fid params => Some (fst (swdmx_sec_filter_set_params d fid params))
  | OpAddCb KTs fid cb data => Some (fst (swdmx_ts_filter_add_ts_packet_cb d fid cb data))
  | OpAddCb KSec fid cb data => Some (fst (swdmx_sec_filter_add_section_cb d fid cb data))
  | OpRemoveCb KTs fid cb data => Some (fst (swdmx_ts_filter_remove_ts_packet_cb d fid cb data))
  | OpRemoveCb KSec fid cb data => Some (fst (swdmx_sec_filter_remove_section_cb d fid cb data))
  | OpEnable KTs fid => Some (fst (swdmx_ts_filter_enable d fid))
  | OpEnable KSec fid => Some (fst (swdmx_sec_filter_enable d fid))
  | OpDisable KTs fid => Some (fst (swdmx_ts_filter_disable d fid))
  | OpDisable KSec fid => Some (fst (swdmx_sec_filter_disable d fid))
  | OpFree KTs fid => Some (swdmx_ts_filter_free d fid)
  | OpFree KSec fid => Some (swdmx_sec_filter_free d fid)
  | OpPacket malloc pkt => fst <$> swdmx_demux_ts_packet_cb malloc d pkt
  end.

Fixpoint steps (d : demux) (ops : list op) : option demux :=
  match ops with
  | [] => Some d
  | o :: ops => d ← step d o; steps d ops
  end.

Definition op_ok (o : op) : Prop :=
  match o with OpPacket malloc pkt => malloc_ok malloc /\ packet_ok pkt | _ => True end.

Lemma packet_inv malloc d pkt :
  inv d -> malloc_ok malloc -> packet_ok pkt ->
  exists r, swdmx_demux_ts_packet_cb malloc d pkt = Some r /\ inv r.1.
Proof.
  intros Hi Hm Hp. unfold swdmx_demux_ts_packet_cb.
  destruct (find_pf_spec (pfs d) (pf_list d) (pid pkt)) as [(l & pf & -> & _ & Hl & _)|[-> _]]; [|by eexists].
  destruct (pid_filter_data_spec malloc d l pf pkt Hi Hm Hp Hl) as (d' & calls & -> & ? & _). by eexists.
Qed.

Lemma add_cb_inv d fid cb data : inv d -> inv (swdmx_filter_add_cb d fid cb data).1.
Proof.
  intros Hi. unfold swdmx_filter_add_cb. destruct (filters d !! fid) eqn:E; [|done]. case_if; [done|].
  by apply set_cbs_inv.
Qed.

Lemma remove_cb_inv d fid cb data : inv d -> inv (swdmx_filter_remove_cb d fid cb data).1.
Proof.
  intros Hi. unfold swdmx_filter_remove_cb. destruct (filters d !! fid) eqn:E; [|done]. case_if; [done|].
  by apply set_cbs_inv.
Qed.

Lemma step_inv d o : inv d -> op_ok o -> exists d', step d o = Some d' /\ inv d'.
Proof.
  intros Hi Ho. destruct o as [k junk|k fid params|k fid cb data|k fid cb data|k fid|k fid|k fid|malloc pkt];
    [destruct k; cbn [step]; eexists; (split; [reflexivity|]);
     first [by apply alloc_inv | by apply set_params_inv | by apply add_cb_inv | by apply remove_cb_inv
           | by apply enable_inv | by apply disable_inv | by apply free_inv]..|].
  destruct Ho as [Hm Hp]. cbn [step]. destruct (packet_inv malloc d pkt Hi Hm Hp) as (r & -> & ?). by eexists.
Qed.

Lemma inv_new : inv swdmx_demux_new.
Proof. split; [apply wf_new|]. apply map_Forall_empty. Qed.

Lemma steps_total d ops : inv d -> Forall op_ok ops -> exists d', steps d ops = Some d' /\ inv d'.
Proof.
  intros Hi Ho. revert d Hi. induction Ho as [|o ops Ho _ IH]; intros d Hi; cbn [steps]; [by eexists|].
  destruct (step_inv d o Hi Ho) as (d1 & -> & Hi1). by apply IH.
Qed.


(** ** Freeing the demux *)

Lemma unlink_lists d k fid l : ts_list (unlink d k fid l) = ts_list d /\ sec_list (unlink d k fid l) = sec_list d.
Proof.
  unfold unlink. destruct (pfs d !! l) as [pf|]; [|done]. unfold pid_filter_remove.
  destruct (pfs (set_pf _ _ _) !! l) as [p|]; [|done]. by destruct (pf_ts p), (pf_sec p).
Qed.

Lemma disable_flist d fid k : flist k (swdmx_filter_disable d fid).1 = flist k d.
Proof.
  unfold swdmx_filter_disable. destruct (filters d !! fid) as [f|]; [|done].
  destruct (f_state f); try done. destruct (f_pf f) as [l|]; [|done].
  destruct (unlink_lists d (f_kind f) fid l) as [Ht Hs]. destruct k; [exact Ht|exact Hs].
Qed.

Lemma free_flist d fid k : flist k (swdmx_filter_free d fid) = list_remove_node fid (flist k d).
Proof. pose proof (disable_flist d fid k) as H. destruct k; cbn in *; by rewrite H. Qed.

Lemma remove_node_head x l : NoDup (x :: l) -> list_remove_node x (x :: l) = l.
Proof.
  intros [Hx _]%NoDup_cons. unfold list_remove_node. rewrite filter_cons_False by (intros H; by apply H).
  induction l as [|y l IH]; [done|]. apply not_elem_of_cons in Hx as [? ?].
  rewrite filter_cons_True by done. by rewrite IH.
Qed.

Lemma free_filters_spec fuel k d :
  inv d -> (length (flist k d) <= fuel)%nat ->
  exists d', free_filters fuel k d = Some d' /\ inv d' /\ flist k d' = [] /\
    forall k', (length (flist k' d') <= length (flist k' d))%nat.
Proof.
  revert d. induction fuel as [|fuel IH]; intros d Hi Hlen; cbn [free_filters]; fold (flist k d).
  - destruct (flist k d) eqn:E; [|cbn in Hlen; lia]. by exists d.
  - destruct (flist k d) as [|x l] eqn:E; [by exists d|].
    pose proof (free_flist d x k) as Hf. rewrite E in Hf.
    assert (Hnd : NoDup (x :: l)) by (rewrite <- E; apply Hi). rewrite remove_node_head in Hf by done.
    assert (Hfree : match k with KTs => swdmx_ts_filter_free d x | KSec => swdmx_sec_filter_free d x end
              = swdmx_filter_free d x) by (by destruct k).
    rewrite Hfree. destruct (IH (swdmx_filter_free d x)) as (d' & -> & ? & ? & Hk).
    + by apply free_inv.
    + rewrite Hf. cbn in Hlen. lia.
    + exists d'. repeat (split; [done|]). intros k'. specialize (Hk k'). rewrite free_flist in Hk.
      pose proof (length_filter (fun y => y <> x) (flist k' d)). unfold list_remove_node in Hk. lia.
Qed.

Lemma no_filters_no_pfs d :
  wf d -> (forall k, flist k d = []) -> filters d = ∅ /\ pfs d = ∅ /\ pf_list d = [].
Proof.
  intros Hwf Hk.
  assert (Hf : filters d = ∅).
  { apply map_empty. intros x. apply eq_None_not_Some. intros [f Hf].
    destruct (wf_flist d Hwf (f_kind f)) as [_ Hin]. rewrite Hk in Hin.
    apply (elem_of_nil x), Hin. eauto. }
  assert (Hnolink : forall l pf k, pfs d !! l = Some pf -> pf_links k pf = []).
  { intros l pf k Hl. destruct (wf_links d Hwf l pf k Hl) as [_ Hin]. destruct (pf_links k pf) as [|x ?]; [done|].
    destruct (proj1 (Hin x)) as (f & Hx & _); [apply elem_of_cons; by left|]. by rewrite Hf in Hx. }
  assert (Hp : pfs d = ∅).
  { apply map_empty. intros l. apply eq_None_not_Some. intros [pf Hl].
    destruct (wf_used d Hwf l pf Hl) as [H|H]; apply H; [apply (Hnolink l pf KTs)|apply (Hnolink l pf KSec)]; done. }
  split; [done|]. split; [done|]. destruct (wf_pf_list d Hwf) as [_ Hin]. rewrite Hp in Hin.
  destruct (pf_list d) as [|l ?]; [done|]. destruct (proj1 (Hin l)) as [? Hl]; [apply elem_of_cons; by left|done].
Qed.

(** Swdmx_demux_free ends after as many turns as there are filters and
    leaves no filter and no PID filter allocated. *)
Theorem demux_free_empties d fuel :
  inv d -> (length (ts_list d) <= fuel)%nat -> (length (sec_list d) <= fuel)%nat ->
  exists d', swdmx_demux_free fuel d = Some d' /\ filters d' = ∅ /\ pfs d' = ∅ /\
    ts_list d' = [] /\ sec_list d' = [] /\ pf_list d' = [].
Proof.
  intros Hi Ht Hs. unfold swdmx_demux_free.
  destruct (free_filters_spec fuel KTs d Hi Ht) as (d1 & -> & Hi1 & Ht1 & Hle1). cbn [mbind option_bind].
  destruct (free_filters_spec fuel KSec d1 Hi1) as (d2 & -> & Hi2 & Hs2 & Hle2).
  { pose proof (Hle1 KSec) as H. cbn in H |- *. lia. }
  assert (Ht2 : flist KTs d2 = []).
  { pose proof (Hle2 KTs) as H. rewrite Ht1 in H. apply length_zero_iff_nil. cbn [length] in H. lia. }
  destruct (no_filters_no_pfs d2) as (? & ? & Hl); [apply Hi2|by intros []|].
  exists d2. cbn [mbind option_bind]. split; [destruct fuel; cbn [free_pid_filters]; by rewrite Hl|]. done.
Qed.

(** ** A concrete session *)

(** A TS filter (location 0) and a section filter (1) on PID 0x10, and the
    packet that carries the section of [demo_sec]. *)
Definition demo_ops : list op :=
  [OpAlloc KTs demo_filter; OpAlloc KSec demo_filter; OpSetParams KTs 0 demo_params; OpSetParams KSec 1 demo_params;
   OpAddCb KTs 0 7 8; OpAddCb KSec 1 1 2; OpEnable KTs 0; OpEnable KSec 1].
Definition demo_packet : swdmx_tspacket :=
  TsPacket 0x10 1 0 0 0 0 [] None 0 (Some (0 :: demo_sec)) 9.
Definition demo_malloc : list Z := replicate 4099 0.

Definition demo_demux : demux := default swdmx_demux_new (steps swdmx_demux_new demo_ops).

Lemma demo_ops_ok : Forall op_ok demo_ops.
Proof. repeat constructor. Qed.
Lemma demo_demux_inv : inv demo_demux.
Proof.
  destruct (steps_total _ demo_ops inv_new demo_ops_ok) as (d & E & Hi). unfold demo_demux. by rewrite E.
Qed.
Lemma demo_malloc_ok : malloc_ok demo_malloc.
Proof. split; [unfold demo_malloc; by rewrite length_replicate|]. apply Forall_replicate. unfold is_byte. lia. Qed.
Lemma demo_packet_ok : packet_ok demo_packet.
Proof. intros p [= <-]. constructor; [unfold is_byte; lia|apply demo_sec_bytes]. Qed.

(** The packet goes to the TS filter, its section to the section filter. *)
Example demo_events :
  snd <$> swdmx_demux_ts_packet_cb demo_malloc demo_demux demo_packet =
  Some [EvPacket (CbEntry 7 8) demo_packet; EvSection (CbEntry 1 2, demo_sec)].
Proof. vm_compute. reflexivity. Qed.


Lemma demux_dispatch_witness :
  exists d' evs, swdmx_demux_ts_packet_cb demo_malloc demo_demux demo_packet = Some (d', evs) /\
    inv d' /\ filters d' = filters demo_demux /\
    (forall e pkt', EvPacket e pkt' ∈ evs <->
       pkt' = demo_packet /\ exists f, running demo_demux KTs (pid demo_packet) f /\ e ∈ s_cbs (f_data f)) /\
    (forall e s, EvSection (e, s) ∈ evs ->
       exists f sec, running demo_demux KSec (pid demo_packet) f /\ e ∈ s_cbs (f_data f) /\
         sec_filter_match sec (f_data f) = true /\ s = take (length s) sec /\
         (truthy (s_crc32 (f_data f)) = true -> Crc.swdmx_crc32 s = 0)).
Proof. apply demux_dispatch; [apply demo_demux_inv | apply demo_malloc_ok | apply demo_packet_ok]. Defined.

Lemma demux_free_empties_witness :
  exists d', swdmx_demux_free 1 demo_demux = Some d' /\ filters d' = ∅ /\ pfs d' = ∅ /\
    ts_list d' = [] /\ sec_list d' = [] /\ pf_list d' = [].
Proof. apply demux_free_empties; [apply demo_demux_inv | vm_compute; lia | vm_compute; lia]. Defined.
End Demux.
