(* ===== verification/PinMeson.v ===== *)
(** * Pin configuration and GPIOs (src/drivers/gpio/pinctrl/pinctrl-meson.c)

    Every pin has a bit (two for the drive strength) in each of several
    register sets; a bank is a run of pins with consecutive bits.  A regmap of
    the driver is a window of the memory-mapped registers: its handle is the
    base address of the window, so handles that the device-tree hooks make
    equal (reg_pull = reg_gpio, ...) alias as in the code.

    The theorems: on a layout without overlaps, configuring a pin refines an
    abstract update of that pin's settings and touches no other pin; what was
    configured is read back; and a GPIO driven as output has its level before
    it drives. *)

From S2P Require Import Prelude Regmap RegBits.
From stdpp Require Import base numbers strings functions gmap list.

Local Open Scope Z_scope.
Local Open Scope cint_scope.

Module Pinctrl.

Definition EOPNOTSUPP : Z := 95.

(** enum meson_reg_type *)
Inductive meson_reg_type := REG_PULLEN | REG_PULL | REG_DIR | REG_OUT | REG_IN | REG_DS | REG_VTHX.
#[global] Instance meson_reg_type_eq_dec : EqDecision meson_reg_type.
Proof. solve_decision. Defined.

Definition meson_bit_strides (t : meson_reg_type) : Z := match t with REG_DS => 2 | _ => 1 end.

Record meson_reg_desc := RegDesc { d_reg : Z; d_bit : Z }.

Record meson_bank := Bank {
  bk_name : string;
  first : Z;
  last : Z;
  irq_first : Z;
  irq_last : Z;
  regs : meson_reg_type -> meson_reg_desc;
}.

Definition BANK_REF (n : string) (f l fi li per peb pr pb dr db or ob ir ib dsr dsb rvr rvb : Z) : meson_bank :=
  Bank n f l fi li (fun t =>
    match t with
    | REG_PULLEN => RegDesc (u32 per) (u32 peb)
    | REG_PULL => RegDesc (u32 pr) (u32 pb)
    | REG_DIR => RegDesc (u32 dr) (u32 db)
    | REG_OUT => RegDesc (u32 or) (u32 ob)
    | REG_IN => RegDesc (u32 ir) (u32 ib)
    | REG_DS => RegDesc (u32 dsr) (u32 dsb)
    | REG_VTHX => RegDesc (u32 rvr) (u32 rvb)
    end).
Definition BANK_DS (n : string) (f l fi li per peb pr pb dr db or ob ir ib dsr dsb : Z) : meson_bank :=
  BANK_REF n f l fi li per peb pr pb dr db or ob ir ib dsr dsb 0 0.
Definition BANK (n : string) (f l fi li per peb pr pb dr db or ob ir ib : Z) : meson_bank :=
  BANK_DS n f l fi li per peb pr pb dr db or ob ir ib 0 0.

(** A group of pins with the function its data selects. *)
Record meson_pmx_group := Group { g_name : string; g_pins : list Z; g_func : Z }.

Record meson_pmx_bank := PmxBank {
  pb_name : string;
  pb_first : Z;
  pb_last : Z;
  pb_reg : Z;
  pb_offset : Z;
}.
Definition BANK_PMX (n : string) (f l r o : Z) : meson_pmx_bank := PmxBank n f l (u32 r) (u32 o).

(** The secondary selection of some pins. *)
Record meson_pmx_expand := PmxExpand {
  px_pin : Z;
  px_func : Z;
  px_reg_name : string;
  px_value : Z;
  px_mask : Z;
}.

(** struct meson_pinctrl with the fields of its data that the operations use;
    a NULL mux_expand_reg is the empty list. *)
Record meson_pinctrl := Pc {
  banks : list meson_bank;
  ds_mask : Z;
  groups : list meson_pmx_group;
  pmx_banks : list meson_pmx_bank;
  pmx_expand : list meson_pmx_expand;
  mux_expand_reg : list (string * Z);
  reg_mux : Z;
  reg_pullen : Z;
  reg_pull : Z;
  reg_gpio : Z;
  reg_ds : option Z;            (* None: NULL *)
  reg_vthx : option Z;
  of_irq : bool;                (* the interrupt controller's node was found *)
}.

Definition with_windows (pc : meson_pinctrl) (pullen pull : Z) (ds : option Z) : meson_pinctrl :=
  Pc (banks pc) (ds_mask pc) (groups pc) (pmx_banks pc) (pmx_expand pc) (mux_expand_reg pc) (reg_mux pc)
    pullen pull (reg_gpio pc) ds (reg_vthx pc) (of_irq pc).

(** The hooks that alias the windows. *)
Definition meson_g12a_aobus_parse_dt_extra (pc : meson_pinctrl) : meson_pinctrl * Z :=
  (with_windows pc (reg_gpio pc) (reg_gpio pc) (reg_ds pc), 0).
Definition meson_t5w_workaround_parse_dt_extra (pc : meson_pinctrl) : meson_pinctrl * Z :=
  (with_windows pc (reg_pullen pc) (reg_pull pc) (Some (reg_mux pc)), 0).
Definition meson_a1_parse_dt_extra (pc : meson_pinctrl) : meson_pinctrl * Z :=
  (with_windows pc (reg_gpio pc) (reg_gpio pc) (Some (reg_gpio pc)), 0).

Fixpoint bank_loop (l : list meson_bank) (pin : Z) : option meson_bank :=
  match l with
  | [] => None
  | b :: l => if (first b <=? pin) && (pin <=? last b) then Some b else bank_loop l pin
  end.

(** [None]: -EINVAL. *)
Definition meson_get_bank (pc : meson_pinctrl) (pin : Z) : option meson_bank := bank_loop (banks pc) pin.

(** Returns (reg, bit). *)
Definition meson_calc_reg_and_bit (bank : meson_bank) (pin : Z) (reg_type : meson_reg_type) : Z * Z :=
  let desc := regs bank reg_type in
  let bit := u32 (u32 (d_bit desc + pin - first bank) * meson_bit_strides reg_type) in
  let reg := u32 (u32 (d_reg desc + bit / 32) * 4) in
  (reg, bit .& 0x1f).

(** enum meson_pinconf_drv *)
Definition MESON_PINCONF_DRV_500UA : Z := 0.
Definition MESON_PINCONF_DRV_2500UA : Z := 1.
Definition MESON_PINCONF_DRV_3000UA : Z := 2.
Definition MESON_PINCONF_DRV_4000UA : Z := 3.

(** The parameters of the generic pin configuration the driver knows;
    a configuration is a parameter with its 24-bit argument, which the kernel
    packs into one word. *)
Inductive param :=
  | PIN_CONFIG_BIAS_DISABLE
  | PIN_CONFIG_BIAS_PULL_UP
  | PIN_CONFIG_BIAS_PULL_DOWN
  | PIN_CONFIG_DRIVE_STRENGTH_UA
  | PIN_CONFIG_INPUT_ENABLE
  | PIN_CONFIG_OUTPUT_ENABLE
  | PIN_CONFIG_OUTPUT
  | PIN_CONFIG_VIN_THRESHOLD
  | PIN_CONFIG_OTHER (n : Z).
#[global] Instance param_eq_dec : EqDecision param.
Proof. solve_decision. Defined.

Definition config : Type := param * Z.

Section Ops.
Context {R : Type} `{Regmap R}.
Implicit Types (map : R) (pc : meson_pinctrl).

Definition meson_pinconf_set_gpio_bit map pc (pin : Z) (reg_type : meson_reg_type) (arg : bool) : R * Z :=
  match meson_get_bank pc pin with
  | None => (map, - EINVAL)
  | Some bank =>
      let '(reg, bit) := meson_calc_reg_and_bit bank pin reg_type in
      regmap_update_bits map (reg_gpio pc + reg) (u32 (BIT bit)) (if arg then u32 (BIT bit) else 0)
  end.

Definition meson_pinconf_get_gpio_bit map pc (pin : Z) (reg_type : meson_reg_type) : Z :=
  match meson_get_bank pc pin with
  | None => - EINVAL
  | Some bank =>
      let '(reg, bit) := meson_calc_reg_and_bit bank pin reg_type in
      let '(ret, val) := regmap_read map (reg_gpio pc + reg) in
      if truthy ret then ret else if truthy (val .& u32 (BIT bit)) then 1 else 0
  end.

Definition meson_pinconf_set_output map pc (pin : Z) (out : bool) : R * Z :=
  meson_pinconf_set_gpio_bit map pc pin REG_DIR (negb out).

Definition meson_pinconf_get_output map pc (pin : Z) : Z :=
  let ret := meson_pinconf_get_gpio_bit map pc pin REG_DIR in
  if ret <? 0 then ret else if truthy ret then 0 else 1.

Definition meson_pinconf_set_drive map pc (pin : Z) (high : bool) : R * Z :=
  meson_pinconf_set_gpio_bit map pc pin REG_OUT high.

Definition meson_pinconf_get_drive map pc (pin : Z) : Z :=
  meson_pinconf_get_gpio_bit map pc pin REG_OUT.

Definition meson_pinconf_set_output_drive map pc (pin : Z) (high : bool) : R * Z :=
  let '(map, ret) := meson_pinconf_set_drive map pc pin high in
  if truthy ret then (map, ret) else meson_pinconf_set_output map pc pin true.

Definition meson_pinconf_disable_bias map pc (pin : Z) : R * Z :=
  match meson_get_bank pc pin with
  | None => (map, - EINVAL)
  | Some bank =>
      let '(reg, bit) := meson_calc_reg_and_bit bank pin REG_PULLEN in
      regmap_update_bits map (reg_pullen pc + reg) (u32 (BIT bit)) 0
  end.

Definition meson_pinconf_enable_bias map pc (pin : Z) (pull_up : bool) : R * Z :=
  match meson_get_bank pc pin with
  | None => (map, - EINVAL)
  | Some bank =>
      let '(reg, bit) := meson_calc_reg_and_bit bank pin REG_PULL in
      let '(map, ret) := regmap_update_bits map (reg_pull pc + reg) (u32 (BIT bit))
                           (if pull_up then u32 (BIT bit) else 0) in
      if truthy ret then (map, ret)
      else
        let '(reg, bit) := meson_calc_reg_and_bit bank pin REG_PULLEN in
        regmap_update_bits map (reg_pullen pc + reg) (u32 (BIT bit)) (u32 (BIT bit))
  end.

Definition ds_val_of (drive_strength_ua : Z) : Z :=
  if drive_strength_ua <=? 500 then MESON_PINCONF_DRV_500UA
  else if drive_strength_ua <=? 2500 then MESON_PINCONF_DRV_2500UA
  else if drive_strength_ua <=? 3000 then MESON_PINCONF_DRV_3000UA
  else if drive_strength_ua <=? 4000 then MESON_PINCONF_DRV_4000UA
  else MESON_PINCONF_DRV_4000UA.

Definition meson_pinconf_set_drive_strength map pc (pin drive_strength_ua : Z) : R * Z :=
  match reg_ds pc with
  | None => (map, - ENOTSUPP)
  | Some base =>
      match meson_get_bank pc pin with
      | None => (map, - EINVAL)
      | Some bank =>
          let '(reg, bit) := meson_calc_reg_and_bit bank pin REG_DS in
          let ds_val := ds_val_of drive_strength_ua in
          if truthy (BIT ds_val .& ds_mask pc) then (map, - EOPNOTSUPP)
          else regmap_update_bits map (base + reg) (u32 (0x3 << bit)) (u32 (ds_val << bit))
      end
  end.

Definition meson_pinconf_set_vthx map pc (pin ref_arg : Z) : R * Z :=
  match reg_vthx pc with
  | None => (map, - EOPNOTSUPP)
  | Some base =>
      match meson_get_bank pc pin with
      | None => (map, - EINVAL)
      | Some bank =>
          let '(reg, bit) := meson_calc_reg_and_bit bank pin REG_VTHX in
          regmap_update_bits map (base + reg) (u32 (BIT bit)) (if truthy ref_arg then u32 (BIT bit) else 0)
      end
  end.

(** Returns (ret, arg); the register is read through reg_pullen. *)
Definition meson_pinconf_get_vthx map pc (pin : Z) : Z * Z :=
  match reg_vthx pc with
  | None => (- EOPNOTSUPP, 0)
  | Some _ =>
      match meson_get_bank pc pin with
      | None => (- EINVAL, 0)
      | Some bank =>
          let '(reg, bit) := meson_calc_reg_and_bit bank pin REG_VTHX in
          let '(ret, val) := regmap_read map (reg_pullen pc + reg) in
          if truthy ret then (ret, 0) else (0, if truthy (val .& u32 (BIT bit)) then 1 else 0)
      end
  end.

(** One turn of the loop of meson_pinconf_set: the two switches. *)
Definition pinconf_set_one map pc (pin : Z) (c : config) : R * Z :=
  let arg := c.2 in
  match c.1 with
  | PIN_CONFIG_BIAS_DISABLE => meson_pinconf_disable_bias map pc pin
  | PIN_CONFIG_BIAS_PULL_UP => meson_pinconf_enable_bias map pc pin true
  | PIN_CONFIG_BIAS_PULL_DOWN => meson_pinconf_enable_bias map pc pin false
  | PIN_CONFIG_DRIVE_STRENGTH_UA => meson_pinconf_set_drive_strength map pc pin (u16 arg)
  | PIN_CONFIG_OUTPUT_ENABLE => meson_pinconf_set_output map pc pin (truthy arg)
  | PIN_CONFIG_OUTPUT => meson_pinconf_set_output_drive map pc pin (truthy arg)
  | PIN_CONFIG_INPUT_ENABLE => meson_pinconf_set_output map pc pin (negb (truthy arg))
  | PIN_CONFIG_VIN_THRESHOLD => meson_pinconf_set_vthx map pc pin arg
  | PIN_CONFIG_OTHER _ => (map, - ENOTSUPP)
  end.

Fixpoint meson_pinconf_set map pc (pin : Z) (configs : list config) : R * Z :=
  match configs with
  | [] => (map, 0)
  | c :: configs =>
      let '(map, ret) := pinconf_set_one map pc pin c in
      if truthy ret then (map, ret) else meson_pinconf_set map pc pin configs
  end.

(** The PIN_CONFIG_* value found, or the error. *)
Definition meson_pinconf_get_pull map pc (pin : Z) : param + Z :=
  match meson_get_bank pc pin with
  | None => inr (- EINVAL)
  | Some bank =>
      let '(reg, bit) := meson_calc_reg_and_bit bank pin REG_PULLEN in
      let '(ret, val) := regmap_read map (reg_pullen pc + reg) in
      if truthy ret then inr ret
      else if negb (truthy (val .& u32 (BIT bit))) then inl PIN_CONFIG_BIAS_DISABLE
      else
        let '(reg, bit) := meson_calc_reg_and_bit bank pin REG_PULL in
        let '(ret, val) := regmap_read map (reg_pull pc + reg) in
        if truthy ret then inr ret
        else if truthy (val .& u32 (BIT bit)) then inl PIN_CONFIG_BIAS_PULL_UP
        else inl PIN_CONFIG_BIAS_PULL_DOWN
  end.

Definition ds_ua_of (v : Z) : Z :=
  if v =? MESON_PINCONF_DRV_500UA then 500
  else if v =? MESON_PINCONF_DRV_2500UA then 2500
  else if v =? MESON_PINCONF_DRV_3000UA then 3000
  else 4000.

Definition meson_pinconf_get_drive_strength map pc (pin : Z) : Z * Z :=
  match reg_ds pc with
  | None => (- ENOTSUPP, 0)
  | Some base =>
      match meson_get_bank pc pin with
      | None => (- EINVAL, 0)
      | Some bank =>
          let '(reg, bit) := meson_calc_reg_and_bit bank pin REG_DS in
          let '(ret, val) := regmap_read map (base + reg) in
          if truthy ret then (ret, 0) else (0, ds_ua_of ((val >> bit) .& 0x3))
      end
  end.

(** Returns the configuration, or the error. *)
Definition meson_pinconf_get map pc (pin : Z) (p : param) : config + Z :=
  match p with
  | PIN_CONFIG_BIAS_DISABLE | PIN_CONFIG_BIAS_PULL_DOWN | PIN_CONFIG_BIAS_PULL_UP =>
      match meson_pinconf_get_pull map pc pin with
      | inl q => if decide (q = p) then inl (p, 1) else inr (- EINVAL)
      | inr _ => inr (- EINVAL)
      end
  | PIN_CONFIG_DRIVE_STRENGTH_UA =>
      let '(ret, arg) := meson_pinconf_get_drive_strength map pc pin in
      if truthy ret then inr ret else inl (p, arg)
  | PIN_CONFIG_OUTPUT_ENABLE =>
      if meson_pinconf_get_output map pc pin <=? 0 then inr (- EINVAL) else inl (p, 1)
  | PIN_CONFIG_OUTPUT =>
      if meson_pinconf_get_output map pc pin <=? 0 then inr (- EINVAL)
      else
        let ret := meson_pinconf_get_drive map pc pin in
        if ret <? 0 then inr (- EINVAL) else inl (p, u16 ret)
  | PIN_CONFIG_VIN_THRESHOLD =>
      let '(ret, arg) := meson_pinconf_get_vthx map pc pin in
      if ret <? 0 then inr (- EINVAL) else inl (p, arg)
  | _ => inr (- ENOTSUPP)
  end.

(** Errors of single pins are ignored. *)
Definition meson_pinconf_group_set map pc (num_group : nat) (configs : list config) : option (R * Z) :=
  match groups pc !! num_group with
  | None => None
  | Some group => Some (foldl (fun map pin => fst (meson_pinconf_set map pc pin configs)) map (g_pins group), 0)
  end.

Definition GPIO_LINE_DIRECTION_OUT : Z := 0.
Definition GPIO_LINE_DIRECTION_IN : Z := 1.

Definition meson_gpio_get_direction map pc (gpio : Z) : Z :=
  let ret := meson_pinconf_get_output map pc gpio in
  if ret <? 0 then ret else if truthy ret then GPIO_LINE_DIRECTION_OUT else GPIO_LINE_DIRECTION_IN.

Definition meson_gpio_direction_input map pc (gpio : Z) : R * Z :=
  meson_pinconf_set_output map pc gpio false.

Definition meson_gpio_direction_output map pc (gpio value : Z) : R * Z :=
  meson_pinconf_set_output_drive map pc gpio (truthy value).

Definition meson_gpio_set map pc (gpio value : Z) : R :=
  fst (meson_pinconf_set_drive map pc gpio (truthy value)).

Definition meson_gpio_get map pc (gpio : Z) : Z :=
  match meson_get_bank pc gpio with
  | None => - EINVAL
  | Some bank =>
      let '(reg, bit) := meson_calc_reg_and_bit bank gpio REG_IN in
      let '(ret, val) := regmap_read map (reg_gpio pc + reg) in
      if truthy ret then ret else if truthy (val .& u32 (BIT bit)) then 1 else 0
  end.

(** [irq_create_fwspec_mapping] of the interrupt core gets the hwirq. *)
Definition meson_gpio_to_irq (irq_create_fwspec_mapping : Z -> Z) pc (gpio : Z) : Z :=
  match meson_get_bank pc gpio with
  | None => - EINVAL
  | Some bank =>
      if irq_first bank <? 0 then - EINVAL
      else if negb (of_irq pc) then - EINVAL
      else irq_create_fwspec_mapping (s32 (gpio - first bank + irq_first bank))
  end.
End Ops.

(** ** The fields of a pin *)

(** The window a register set lives in. *)
Definition base_of (pc : meson_pinctrl) (t : meson_reg_type) : option Z :=
  match t with
  | REG_PULLEN => Some (reg_pullen pc)
  | REG_PULL => Some (reg_pull pc)
  | REG_DIR | REG_OUT | REG_IN => Some (reg_gpio pc)
  | REG_DS => reg_ds pc
  | REG_VTHX => reg_vthx pc
  end.

Definition pin_parm (pc : meson_pinctrl) (pin : Z) (t : meson_reg_type) : option parm :=
  match meson_get_bank pc pin, base_of pc t with
  | Some bank, Some base =>
      let '(reg, bit) := meson_calc_reg_and_bit bank pin t in
      Some (Parm (base + reg) bit (meson_bit_strides t))
  | _, _ => None
  end.

Lemma calc_bit_range bank pin t :
  let '(_, bit) := meson_calc_reg_and_bit bank pin t in
  0 <= bit < 32 /\ bit + meson_bit_strides t <= 32.
Proof.
  unfold meson_calc_reg_and_bit. set (x := u32 (_ * _)). change 0x1f with (2 ^ 5 - 1).
  rewrite land_mask_mod by lia. pose proof (Z.mod_pos_bound x (2 ^ 5) ltac:(lia)).
  split; [lia|]. destruct (decide (t = REG_DS)) as [-> | Ht]; [|destruct t; done || (cbn; lia)].
  assert (Hm : x mod 2 ^ 5 mod 2 = 0).
  { unfold x, u32, meson_bit_strides. set (y := _ - _). generalize (y mod 2 ^ 32). intros z.
    change (2 ^ 32) with (2 ^ 31 * 2). rewrite Z.mul_mod_distr_r by lia.
    change (2 ^ 5) with (2 ^ 4 * 2). rewrite Z.mul_mod_distr_r by lia. by apply Z.mod_mul. }
  cbn [meson_bit_strides]. pose proof (Z.div_mod (x mod 2 ^ 5) 2). change (2 ^ 5) with 32 in *. lia.
Qed.

Lemma pin_parm_wf pc pin t f : pin_parm pc pin t = Some f -> parm_wf f /\ width f = meson_bit_strides t.
Proof.
  unfold pin_parm. destruct (meson_get_bank pc pin) as [b|]; [|done]. destruct (base_of pc t); [|done].
  pose proof (calc_bit_range b pin t) as Hr. destruct (meson_calc_reg_and_bit b pin t) as [reg bit].
  intros [= <-]. unfold parm_wf. cbn. split; [|done]. destruct t; cbn in *; lia.
Qed.

Section Refinement.
Context {R : Type} `{RegmapOk R}.
Implicit Types (map : R) (pc : meson_pinctrl).

(** No two settings share a bit, and only the input levels change on their
    own. *)
Record layout_ok pc : Prop := {
  lay_stable : forall pin t f, t <> REG_IN -> pin_parm pc pin t = Some f -> parm_stable f;
  lay_disjoint : forall p q t u f g, pin_parm pc p t = Some f -> pin_parm pc q u = Some g ->
    (p, t) <> (q, u) -> parm_disjoint f g;
}.

(** ** The abstract pin *)

(** The settings of one pin, by register set. *)
#[local] Abbreviation pstate := (meson_reg_type -> Z).

(** The registers hold the settings [ps] for [pin]. *)
Definition agrees map pc (pin : Z) (ps : pstate) : Prop :=
  forall t f, t <> REG_IN -> pin_parm pc pin t = Some f -> meson_parm_read map f = ps t.

(** What a configuration means for the settings of a pin. *)
Definition spec_one pc (ps : pstate) (c : config) : pstate * Z :=
  let arg := c.2 in
  match c.1 with
  | PIN_CONFIG_BIAS_DISABLE => (<[REG_PULLEN := 0]> ps, 0)
  | PIN_CONFIG_BIAS_PULL_UP => (<[REG_PULLEN := 1]> (<[REG_PULL := 1]> ps), 0)
  | PIN_CONFIG_BIAS_PULL_DOWN => (<[REG_PULLEN := 1]> (<[REG_PULL := 0]> ps), 0)
  | PIN_CONFIG_DRIVE_STRENGTH_UA =>
      match reg_ds pc with
      | None => (ps, - ENOTSUPP)
      | Some _ =>
          let v := ds_val_of (u16 arg) in
          if truthy (BIT v .& ds_mask pc) then (ps, - EOPNOTSUPP) else (<[REG_DS := v]> ps, 0)
      end
  | PIN_CONFIG_OUTPUT_ENABLE => (<[REG_DIR := Z.b2z (negb (truthy arg))]> ps, 0)
  | PIN_CONFIG_INPUT_ENABLE => (<[REG_DIR := Z.b2z (truthy arg)]> ps, 0)
  | PIN_CONFIG_OUTPUT => (<[REG_DIR := 0]> (<[REG_OUT := Z.b2z (truthy arg)]> ps), 0)
  | PIN_CONFIG_VIN_THRESHOLD =>
      match reg_vthx pc with
      | None => (ps, - EOPNOTSUPP)
      | Some _ => (<[REG_VTHX := Z.b2z (truthy arg)]> ps, 0)
      end
  | PIN_CONFIG_OTHER _ => (ps, - ENOTSUPP)
  end.

Fixpoint spec_configs pc (ps : pstate) (l : list config) : pstate * Z :=
  match l with
  | [] => (ps, 0)
  | c :: l => let '(ps, ret) := spec_one pc ps c in if truthy ret then (ps, ret) else spec_configs pc ps l
  end.

(** [map'] results from [map] by changing the settings of [pin] to [ps]. *)
Definition reconfigured map map' pc (pin : Z) (ps : pstate) : Prop :=
  agrees map' pc pin ps /\ forall q qs, q <> pin -> agrees map pc q qs -> agrees map' pc q qs.

Lemma reconfigured_refl map pc pin ps : agrees map pc pin ps -> reconfigured map map pc pin ps.
Proof. by split. Qed.

Lemma reconfigured_trans m1 m2 m3 pc pin ps ps' :
  reconfigured m1 m2 pc pin ps -> reconfigured m2 m3 pc pin ps' -> reconfigured m1 m3 pc pin ps'.
Proof. intros [_ H1] [H2 H3]. split; [done|]. intros. apply H3; [done|]. by apply H1. Qed.

(** Writing one field of a pin. *)
Lemma write_reconfigured map pc pin t f v ps :
  layout_ok pc -> pin_parm pc pin t = Some f -> t <> REG_IN -> 0 <= v < 2 ^ meson_bit_strides t ->
  agrees map pc pin ps -> reconfigured map (meson_parm_write map f v) pc pin (<[t := v]> ps).
Proof.
  intros Hl Hf Ht Hv Ha. destruct (pin_parm_wf _ _ _ _ Hf) as [Wf Ew].
  pose proof (lay_stable pc Hl pin t f Ht Hf) as Sf. split.
  - intros u g Hu Hg. destruct (decide (u = t)) as [-> | Hut].
    + rewrite fn_lookup_insert. assert (g = f) as -> by congruence.
      apply parm_read_write_small; [done|done|]. by rewrite Ew.
    + rewrite fn_lookup_insert_ne by done. destruct (pin_parm_wf _ _ _ _ Hg) as [Wg _].
      rewrite parm_read_write_other; [by apply Ha|done|done|by apply (lay_stable pc Hl pin u)|].
      apply (lay_disjoint pc Hl pin pin t u); [done|done|]. congruence.
  - intros q qs Hq Hqs u g Hu Hg. destruct (pin_parm_wf _ _ _ _ Hg) as [Wg _].
    rewrite parm_read_write_other; [by apply Hqs|done|done|by apply (lay_stable pc Hl q u)|].
    apply (lay_disjoint pc Hl pin q t u); [done|done|]. congruence.
Qed.

(** The field of a pin in a bank, as the code computes it. *)
Lemma pin_parm_bank pc pin t bank base :
  meson_get_bank pc pin = Some bank -> base_of pc t = Some base ->
  let '(reg, bit) := meson_calc_reg_and_bit bank pin t in
  pin_parm pc pin t = Some (Parm (base + reg) bit (meson_bit_strides t)) /\ 0 <= bit < 32 /\
  bit + meson_bit_strides t <= 32.
Proof.
  intros Hb Hbase. pose proof (calc_bit_range bank pin t) as Hr. unfold pin_parm. rewrite Hb, Hbase.
  by destruct (meson_calc_reg_and_bit bank pin t).
Qed.

(** Updating one bit of a pin, as every setting of one bit does. *)
Lemma bit_reconfigured map pc pin t bank base (arg : bool) ps :
  layout_ok pc -> meson_get_bank pc pin = Some bank -> base_of pc t = Some base ->
  t <> REG_IN -> t <> REG_DS -> agrees map pc pin ps ->
  let '(reg, bit) := meson_calc_reg_and_bit bank pin t in
  exists map', regmap_update_bits map (base + reg) (u32 (BIT bit)) (if arg then u32 (BIT bit) else 0)
    = (map', 0) /\ reconfigured map map' pc pin (<[t := Z.b2z arg]> ps).
Proof.
  intros Hl Hb Hbase Ht Hd Ha. pose proof (pin_parm_bank pc pin t bank base Hb Hbase) as Hp.
  destruct (meson_calc_reg_and_bit bank pin t) as [reg bit]. destruct Hp as (Hf & Hbit & _).
  assert (Es : meson_bit_strides t = 1) by (by destruct t). rewrite Es in Hf.
  rewrite update_bit by done. eexists. split; [done|].
  apply write_reconfigured; try done. rewrite Es. destruct arg; cbn; lia.
Qed.

Lemma set_gpio_bit_refines map pc pin t bank (arg : bool) ps :
  layout_ok pc -> meson_get_bank pc pin = Some bank -> t = REG_DIR \/ t = REG_OUT -> agrees map pc pin ps ->
  exists map', meson_pinconf_set_gpio_bit map pc pin t arg = (map', 0) /\
    reconfigured map map' pc pin (<[t := Z.b2z arg]> ps).
Proof.
  intros Hl Hb Ht Ha. unfold meson_pinconf_set_gpio_bit. rewrite Hb.
  pose proof (bit_reconfigured map pc pin t bank (reg_gpio pc) arg ps Hl Hb) as Hr.
  destruct (meson_calc_reg_and_bit bank pin t) as [reg bit].
  apply Hr; destruct Ht as [-> | ->]; done.
Qed.

Lemma enable_bias_refines map pc pin bank (up : bool) ps :
  layout_ok pc -> meson_get_bank pc pin = Some bank -> agrees map pc pin ps ->
  exists map', meson_pinconf_enable_bias map pc pin up = (map', 0) /\
    reconfigured map map' pc pin (<[REG_PULLEN := 1]> (<[REG_PULL := Z.b2z up]> ps)).
Proof.
  intros Hl Hb Ha. unfold meson_pinconf_enable_bias. rewrite Hb.
  pose proof (bit_reconfigured map pc pin REG_PULL bank (reg_pull pc) up ps Hl Hb eq_refl ltac:(done) ltac:(done) Ha) as H1.
  destruct (meson_calc_reg_and_bit bank pin REG_PULL) as [reg bit]. destruct H1 as (m1 & -> & Hr1).
  change (truthy 0) with false. cbv iota.
  pose proof (bit_reconfigured m1 pc pin REG_PULLEN bank (reg_pullen pc) true _ Hl Hb eq_refl ltac:(done) ltac:(done)
                (proj1 Hr1)) as H2.
  destruct (meson_calc_reg_and_bit bank pin REG_PULLEN) as [reg' bit']. destruct H2 as (m2 & -> & Hr2).
  exists m2. split; [done|]. by eapply reconfigured_trans.
Qed.

Lemma ds_val_range ua : 0 <= ds_val_of ua < 4.
Proof. unfold ds_val_of. repeat case_if; vm_compute; split; discriminate || reflexivity. Qed.

Lemma set_drive_strength_refines map pc pin bank ua ps :
  layout_ok pc -> meson_get_bank pc pin = Some bank -> agrees map pc pin ps ->
  exists map', let '(ps', ret) := spec_one pc ps (PIN_CONFIG_DRIVE_STRENGTH_UA, ua) in
    meson_pinconf_set_drive_strength map pc pin (u16 ua) = (map', ret) /\ reconfigured map map' pc pin ps'.
Proof.
  intros Hl Hb Ha. unfold meson_pinconf_set_drive_strength, spec_one. cbn [fst snd].
  destruct (reg_ds pc) as [base|] eqn:Eds; [|by exists map; split; [|apply reconfigured_refl]].
  rewrite Hb. pose proof (pin_parm_bank pc pin REG_DS bank base Hb Eds) as Hp.
  destruct (meson_calc_reg_and_bit bank pin REG_DS) as [reg bit]. destruct Hp as (Hf & Hbit & Hw).
  case_if; [by exists map; split; [|apply reconfigured_refl]|].
  change 0x3 with ((1 << 2) - 1). cbn [meson_bit_strides] in *. rewrite update_field by lia.
  eexists. split; [done|]. apply write_reconfigured; try done. apply ds_val_range.
Qed.

Lemma set_vthx_refines map pc pin bank arg ps :
  layout_ok pc -> meson_get_bank pc pin = Some bank -> agrees map pc pin ps ->
  exists map', let '(ps', ret) := spec_one pc ps (PIN_CONFIG_VIN_THRESHOLD, arg) in
    meson_pinconf_set_vthx map pc pin arg = (map', ret) /\ reconfigured map map' pc pin ps'.
Proof.
  intros Hl Hb Ha. unfold meson_pinconf_set_vthx, spec_one. cbn [fst snd].
  destruct (reg_vthx pc) as [base|] eqn:Ev; [|by exists map; split; [|apply reconfigured_refl]].
  rewrite Hb.
  pose proof (bit_reconfigured map pc pin REG_VTHX bank base (truthy arg) ps Hl Hb Ev ltac:(done) ltac:(done) Ha) as H1.
  by destruct (meson_calc_reg_and_bit bank pin REG_VTHX).
Qed.

Lemma disable_bias_refines map pc pin bank ps :
  layout_ok pc -> meson_get_bank pc pin = Some bank -> agrees map pc pin ps ->
  exists map', meson_pinconf_disable_bias map pc pin = (map', 0) /\
    reconfigured map map' pc pin (<[REG_PULLEN := 0]> ps).
Proof.
  intros Hl Hb Ha. unfold meson_pinconf_disable_bias. rewrite Hb.
  pose proof (bit_reconfigured map pc pin REG_PULLEN bank (reg_pullen pc) false ps Hl Hb eq_refl
                ltac:(done) ltac:(done) Ha) as H1.
  by destruct (meson_calc_reg_and_bit bank pin REG_PULLEN).
Qed.

Lemma set_output_refines map pc pin bank (out : bool) ps :
  layout_ok pc -> meson_get_bank pc pin = Some bank -> agrees map pc pin ps ->
  exists map', meson_pinconf_set_output map pc pin out = (map', 0) /\
    reconfigured map map' pc pin (<[REG_DIR := Z.b2z (negb out)]> ps).
Proof. intros. eapply set_gpio_bit_refines; eauto. Qed.

Lemma set_output_drive_refines map pc pin bank (high : bool) ps :
  layout_ok pc -> meson_get_bank pc pin = Some bank -> agrees map pc pin ps ->
  exists map', meson_pinconf_set_output_drive map pc pin high = (map', 0) /\
    reconfigured map map' pc pin (<[REG_DIR := 0]> (<[REG_OUT := Z.b2z high]> ps)).
Proof.
  intros Hl Hb Ha. unfold meson_pinconf_set_output_drive, meson_pinconf_set_drive.
  destruct (set_gpio_bit_refines map pc pin REG_OUT bank high ps Hl Hb ltac:(by right) Ha) as (m1 & -> & H1).
  change (truthy 0) with false. cbv iota.
  destruct (set_output_refines m1 pc pin bank true _ Hl Hb (proj1 H1)) as (m2 & -> & H2).
  exists m2. split; [done|]. by eapply reconfigured_trans.
Qed.

Lemma set_one_refines map pc pin bank c ps :
  layout_ok pc -> meson_get_bank pc pin = Some bank -> agrees map pc pin ps ->
  exists map', let '(ps', ret) := spec_one pc ps c in
    pinconf_set_one map pc pin c = (map', ret) /\ reconfigured map map' pc pin ps'.
Proof.
  intros Hl Hb Ha. destruct c as [p arg]. destruct p.
  - by eapply disable_bias_refines.
  - by eapply (enable_bias_refines map pc pin bank true).
  - by eapply (enable_bias_refines map pc pin bank false).
  - by eapply set_drive_strength_refines.
  - unfold pinconf_set_one, spec_one; cbn [fst snd].
    destruct (set_output_refines map pc pin bank (negb (truthy arg)) ps Hl Hb Ha) as (m & ? & Hm).
    rewrite negb_involutive in Hm. by exists m.
  - by eapply set_output_refines.
  - by eapply set_output_drive_refines.
  - by eapply set_vthx_refines.
  - exists map. split; [done|]. by apply reconfigured_refl.
Qed.

Lemma set_refines map pc pin bank l ps :
  layout_ok pc -> meson_get_bank pc pin = Some bank -> agrees map pc pin ps ->
  exists map', meson_pinconf_set map pc pin l = (map', (spec_configs pc ps l).2) /\
    reconfigured map map' pc pin (spec_configs pc ps l).1.
Proof.
  intros Hl Hb. revert map ps. induction l as [|c l IH]; intros map ps Ha; cbn [meson_pinconf_set spec_configs].
  - exists map. split; [done|]. by apply reconfigured_refl.
  - destruct (set_one_refines map pc pin bank c ps Hl Hb Ha) as (m1 & H1).
    destruct (spec_one pc ps c) as [ps1 ret]. destruct H1 as [-> Hr].
    case_if; [by exists m1|]. destruct (IH m1 ps1 (proj1 Hr)) as (m2 & -> & Hr2).
    exists m2. split; [done|]. by eapply reconfigured_trans.
Qed.

(** ** Reading the configuration back *)

Definition spec_pull (ps : pstate) : param :=
  if ps REG_PULLEN =? 0 then PIN_CONFIG_BIAS_DISABLE
  else if ps REG_PULL =? 0 then PIN_CONFIG_BIAS_PULL_DOWN else PIN_CONFIG_BIAS_PULL_UP.

(** What a query means for the settings of a pin. *)
Definition spec_get pc (ps : pstate) (p : param) : config + Z :=
  match p with
  | PIN_CONFIG_BIAS_DISABLE | PIN_CONFIG_BIAS_PULL_DOWN | PIN_CONFIG_BIAS_PULL_UP =>
      if decide (spec_pull ps = p) then inl (p, 1) else inr (- EINVAL)
  | PIN_CONFIG_DRIVE_STRENGTH_UA =>
      match reg_ds pc with None => inr (- ENOTSUPP) | Some _ => inl (p, ds_ua_of (ps REG_DS)) end
  | PIN_CONFIG_OUTPUT_ENABLE => if ps REG_DIR =? 0 then inl (p, 1) else inr (- EINVAL)
  | PIN_CONFIG_OUTPUT => if ps REG_DIR =? 0 then inl (p, ps REG_OUT) else inr (- EINVAL)
  | PIN_CONFIG_VIN_THRESHOLD =>
      match reg_vthx pc with None => inr (- EINVAL) | Some _ => inl (p, ps REG_VTHX) end
  | _ => inr (- ENOTSUPP)
  end.

(** Reading one bit of a pin. *)
Lemma bit_agrees map pc pin t bank base ps :
  meson_get_bank pc pin = Some bank -> base_of pc t = Some base -> t <> REG_IN -> t <> REG_DS ->
  agrees map pc pin ps ->
  let '(reg, bit) := meson_calc_reg_and_bit bank pin t in
  regmap_read map (base + reg) = (0, reg_val map (base + reg)) /\
  truthy (reg_val map (base + reg) .& u32 (BIT bit)) = negb (ps t =? 0) /\ 0 <= ps t < 2.
Proof.
  intros Hb Hbase Ht Hd Ha. pose proof (pin_parm_bank pc pin t bank base Hb Hbase) as Hp.
  destruct (meson_calc_reg_and_bit bank pin t) as [reg bit]. destruct Hp as (Hf & Hbit & _).
  assert (Es : meson_bit_strides t = 1) by (by destruct t). rewrite Es in Hf.
  rewrite regmap_read_val, test_bit, <- (Ha t _ Ht Hf) by done.
  split; [done|]. split; [done|]. change 2 with (2 ^ 1).
  apply (parm_read_range map (Parm (base + reg) bit 1)). unfold parm_wf; cbn; lia.
Qed.

Lemma get_gpio_bit_agrees map pc pin t bank ps :
  meson_get_bank pc pin = Some bank -> t = REG_DIR \/ t = REG_OUT -> agrees map pc pin ps ->
  meson_pinconf_get_gpio_bit map pc pin t = ps t /\ 0 <= ps t < 2.
Proof.
  intros Hb Ht Ha. unfold meson_pinconf_get_gpio_bit. rewrite Hb.
  pose proof (bit_agrees map pc pin t bank (reg_gpio pc) ps Hb) as Hr.
  destruct (meson_calc_reg_and_bit bank pin t) as [reg bit].
  destruct Hr as (-> & -> & Hps); [by destruct Ht as [-> | ->]..|done|]. split; [|done].
  change (truthy 0) with false. cbv iota. destruct (Z.eqb_spec (ps t) 0); cbn; lia.
Qed.

Lemma get_output_agrees map pc pin bank ps :
  meson_get_bank pc pin = Some bank -> agrees map pc pin ps ->
  meson_pinconf_get_output map pc pin = if ps REG_DIR =? 0 then 1 else 0.
Proof.
  intros Hb Ha. unfold meson_pinconf_get_output.
  destruct (get_gpio_bit_agrees map pc pin REG_DIR bank ps Hb ltac:(by left) Ha) as [-> Hr].
  unfold truthy. destruct (Z.ltb_spec (ps REG_DIR) 0); [lia|]. by destruct (ps REG_DIR =? 0).
Qed.

Lemma get_pull_agrees map pc pin bank ps :
  meson_get_bank pc pin = Some bank -> agrees map pc pin ps ->
  meson_pinconf_get_pull map pc pin = inl (spec_pull ps).
Proof.
  intros Hb Ha. unfold meson_pinconf_get_pull, spec_pull. rewrite Hb.
  pose proof (bit_agrees map pc pin REG_PULLEN bank (reg_pullen pc) ps Hb eq_refl ltac:(done) ltac:(done) Ha) as H1.
  pose proof (bit_agrees map pc pin REG_PULL bank (reg_pull pc) ps Hb eq_refl ltac:(done) ltac:(done) Ha) as H2.
  destruct (meson_calc_reg_and_bit bank pin REG_PULLEN). destruct H1 as (-> & -> & _).
  destruct (meson_calc_reg_and_bit bank pin REG_PULL). destruct H2 as (-> & -> & _).
  change (truthy 0) with false. cbv iota. destruct (ps REG_PULLEN =? 0), (ps REG_PULL =? 0); done.
Qed.

Lemma get_drive_strength_agrees map pc pin bank base ps :
  meson_get_bank pc pin = Some bank -> reg_ds pc = Some base -> agrees map pc pin ps ->
  meson_pinconf_get_drive_strength map pc pin = (0, ds_ua_of (ps REG_DS)).
Proof.
  intros Hb Eds Ha. unfold meson_pinconf_get_drive_strength. rewrite Hb, Eds.
  pose proof (pin_parm_bank pc pin REG_DS bank base Hb Eds) as Hp.
  destruct (meson_calc_reg_and_bit bank pin REG_DS) as [reg bit]. destruct Hp as (Hf & Hbit & Hw).
  cbn [meson_bit_strides] in *. rewrite regmap_read_val. change (truthy 0) with false. cbv iota.
  change 0x3 with ((1 << 2) - 1). rewrite test_field by lia. by rewrite (Ha REG_DS _ ltac:(done) Hf).
Qed.

Lemma get_vthx_agrees map pc pin bank ps :
  meson_get_bank pc pin = Some bank -> reg_vthx pc = Some (reg_pullen pc) -> agrees map pc pin ps ->
  meson_pinconf_get_vthx map pc pin = (0, ps REG_VTHX).
Proof.
  intros Hb Ev Ha. unfold meson_pinconf_get_vthx. rewrite Hb, Ev.
  pose proof (bit_agrees map pc pin REG_VTHX bank (reg_pullen pc) ps Hb Ev ltac:(done) ltac:(done) Ha) as H1.
  destruct (meson_calc_reg_and_bit bank pin REG_VTHX). destruct H1 as (-> & -> & Hr).
  change (truthy 0) with false. cbv iota. f_equal. destruct (Z.eqb_spec (ps REG_VTHX) 0); cbn; lia.
Qed.

(** The pins of the group are configured one by one. *)
Lemma group_loop_refines pc pins l (f : Z -> pstate) map :
  layout_ok pc -> NoDup pins ->
  (forall pin, pin ∈ pins -> exists bank, meson_get_bank pc pin = Some bank) ->
  (forall pin, agrees map pc pin (f pin)) ->
  let map' := foldl (fun map pin => fst (meson_pinconf_set map pc pin l)) map pins in
  forall pin, agrees map' pc pin (if decide (pin ∈ pins) then (spec_configs pc (f pin) l).1 else f pin).
Proof.
  intros Hl. revert f map. induction pins as [|p pins IH]; intros f map Hnd Hbk Ha; cbn [foldl].
  - intros pin. rewrite decide_False by apply not_elem_of_nil. apply Ha.
  - apply list.NoDup_cons in Hnd as [Hp Hnd]. destruct (Hbk p ltac:(left)) as [bank Hb].
    destruct (set_refines map pc p bank l (f p) Hl Hb (Ha p)) as (m1 & E1 & Hr1 & Hr2). rewrite E1. cbn [fst].
    intros pin.
    specialize (IH (fun q => if decide (q = p) then (spec_configs pc (f p) l).1 else f q) m1 Hnd).
    ospecialize (IH _ _).
    { intros q Hq. apply Hbk. by right. }
    { intros q. case_decide as Hq; [by subst|]. apply Hr2; [done|]. apply Ha. }
    specialize (IH pin). cbn beta in IH.
    destruct (decide (pin = p)) as [-> | Hne].
    + rewrite decide_False in IH by done. rewrite decide_True; [done|left].
    + destruct (decide (pin ∈ pins)).
      * rewrite decide_True by (by right). done.
      * rewrite decide_False by (rewrite not_elem_of_cons; done). done.
Qed.
End Refinement.

(** ** Checking a layout *)

Definition reg_types : list meson_reg_type := [REG_PULLEN; REG_PULL; REG_DIR; REG_OUT; REG_IN; REG_DS; REG_VTHX].
Definition bank_pins (b : meson_bank) : list Z := seqZ (first b) (last b - first b + 1).
Definition layout_fields (pc : meson_pinctrl) : list (Z * meson_reg_type * parm) :=
  (banks pc ≫= bank_pins) ≫= fun pin => reg_types ≫= fun t =>
  match pin_parm pc pin t with Some f => [(pin, t, f)] | None => [] end.
Definition layout_okb (pc : meson_pinctrl) : bool := fields_okb (snd <$> layout_fields pc).

Lemma bank_loop_pins l pin b : bank_loop l pin = Some b -> pin ∈ l ≫= bank_pins.
Proof.
  induction l as [|c l IH]; cbn; [done|]. destruct (_ && _) eqn:Hc; intros Hb.
  - apply elem_of_app. left. b2p. apply elem_of_seqZ. lia.
  - apply elem_of_app. right. by apply IH.
Qed.

Lemma layout_fields_complete pc pin t f : pin_parm pc pin t = Some f -> (pin, t, f) ∈ layout_fields pc.
Proof.
  intros Hf. unfold layout_fields. apply list_elem_of_bind. exists pin. split.
  - apply list_elem_of_bind. exists t. rewrite Hf. split; [left|]. destruct t; unfold reg_types; in_list.
  - unfold pin_parm in Hf. destruct (meson_get_bank pc pin) as [b|] eqn:Eb; [|done]. by eapply bank_loop_pins.
Qed.

(** Two fields of a checked list are one entry or disjoint. *)
Lemma fields_okb_disjoint {K} (l : list (K * parm)) (x y : K * parm) :
  fields_okb (snd <$> l) = true -> x ∈ l -> y ∈ l -> x <> y -> parm_disjoint x.2 y.2.
Proof.
  intros Hok Hx Hy Hne. apply plain_fields_ok in Hok as (_ & _ & Hd).
  revert Hd. induction l as [|a l IH]; intros Hd; [by apply not_elem_of_nil in Hx|].
  cbn in Hd. inversion Hd as [|? ? Ha Hd']; subst. rewrite Forall_forall in Ha.
  apply elem_of_cons in Hx as [-> | Hx], Hy as [-> | Hy]; [done| | |by auto].
  - apply Ha. by apply list_elem_of_fmap_2.
  - apply parm_disjoint_sym, Ha. by apply list_elem_of_fmap_2.
Qed.

Lemma layout_okb_ok {R} `{RegmapOk R} pc :
  layout_okb pc = true ->
  (forall pin t f, t <> REG_IN -> pin_parm pc pin t = Some f -> parm_stable f) -> layout_ok pc.
Proof.
  intros Hok Hst. split; [done|]. intros p q t u f g Hf Hg Hne.
  apply (fields_okb_disjoint _ (p, t, f) (q, u, g) Hok); [by apply layout_fields_complete..|congruence].
Qed.

(** ** Properties *)

Section Properties.
Context {R : Type} `{RegmapOk R}.
Implicit Types (map : R) (pc : meson_pinctrl).

(** C36: where the settings of the controller's pins are in different bits
    ([layout_ok]; not so on seven tables of the repository, see [PinBanks.v]),
    applying a list of configurations to a pin of a bank changes the settings
    of that pin exactly as the abstract update says, stops at the first
    configuration that is not supported with its error and what was applied
    before it, and leaves every setting of every other pin alone. *)
Theorem pinconf_set_refines map pc pin bank l ps :
  layout_ok pc -> meson_get_bank pc pin = Some bank -> agrees map pc pin ps ->
  exists map', meson_pinconf_set map pc pin l = (map', (spec_configs pc ps l).2) /\
    agrees map' pc pin (spec_configs pc ps l).1 /\
    forall q qs, q <> pin -> agrees map pc q qs -> agrees map' pc q qs.
Proof. apply set_refines. Qed.

(** A configuration of a group reaches each of its pins and no other. *)
Theorem pinconf_group_set_refines pc n group l (f : Z -> meson_reg_type -> Z) map :
  layout_ok pc -> groups pc !! n = Some group -> NoDup (g_pins group) ->
  (forall pin, pin ∈ g_pins group -> is_Some (meson_get_bank pc pin)) ->
  (forall pin, agrees map pc pin (f pin)) ->
  exists map', meson_pinconf_group_set map pc n l = Some (map', 0) /\
  forall pin, agrees map' pc pin
    (if decide (pin ∈ g_pins group) then (spec_configs pc (f pin) l).1 else f pin).
Proof.
  intros Hl Hg Hnd Hb Ha. unfold meson_pinconf_group_set. rewrite Hg. eexists. split; [done|].
  by apply group_loop_refines.
Qed.

(** A query of a pin reports the settings its registers hold, when the
    input thresholds, if any, live in the pull-enable window. *)
Theorem pinconf_get_refines map pc pin bank ps p :
  meson_get_bank pc pin = Some bank -> agrees map pc pin ps ->
  (forall base, reg_vthx pc = Some base -> base = reg_pullen pc) ->
  meson_pinconf_get map pc pin p = spec_get pc ps p.
Proof.
  intros Hb Ha Hv. destruct p; cbn [meson_pinconf_get spec_get]; try done.
  1-3: rewrite (get_pull_agrees map pc pin bank ps Hb Ha); done.
  - destruct (reg_ds pc) as [base|] eqn:Eds.
    + by rewrite (get_drive_strength_agrees map pc pin bank base ps).
    + unfold meson_pinconf_get_drive_strength. by rewrite Eds.
  - rewrite (get_output_agrees map pc pin bank ps Hb Ha). by destruct (ps REG_DIR =? 0).
  - rewrite (get_output_agrees map pc pin bank ps Hb Ha). destruct (ps REG_DIR =? 0); [|done]. cbn [Z.leb Z.compare].
    destruct (get_gpio_bit_agrees map pc pin REG_OUT bank ps Hb ltac:(by right) Ha) as [Ho Hr].
    unfold meson_pinconf_get_drive. rewrite Ho. destruct (Z.ltb_spec (ps REG_OUT) 0); [lia|].
    by rewrite u16_small by lia.
  - destruct (reg_vthx pc) as [base|] eqn:Ev.
    + specialize (Hv base eq_refl) as ->. by rewrite (get_vthx_agrees map pc pin bank ps).
    + unfold meson_pinconf_get_vthx. by rewrite Ev.
Qed.

(** Making a GPIO an output first sets its level with the direction as it
    was, so the pin never drives a stale level, and then switches the
    direction; afterwards it is reported as an output with that level. *)
Theorem gpio_direction_output_no_glitch map pc gpio bank value ps :
  layout_ok pc -> meson_get_bank pc gpio = Some bank -> agrees map pc gpio ps ->
  exists m1 m2,
    meson_pinconf_set_drive map pc gpio (truthy value) = (m1, 0) /\
    agrees m1 pc gpio (<[REG_OUT := Z.b2z (truthy value)]> ps) /\
    meson_gpio_direction_output map pc gpio value = meson_pinconf_set_output m1 pc gpio true /\
    meson_gpio_direction_output map pc gpio value = (m2, 0) /\
    meson_gpio_get_direction m2 pc gpio = GPIO_LINE_DIRECTION_OUT /\
    meson_pinconf_get m2 pc gpio PIN_CONFIG_OUTPUT = inl (PIN_CONFIG_OUTPUT, Z.b2z (truthy value)).
Proof.
  intros Hl Hb Ha.
  destruct (set_gpio_bit_refines map pc gpio REG_OUT bank (truthy value) ps Hl Hb ltac:(by right) Ha)
    as (m1 & E1 & H1).
  destruct (set_output_drive_refines map pc gpio bank (truthy value) ps Hl Hb Ha) as (m2 & E2 & H2 & _).
  exists m1, m2. split; [done|]. split; [by destruct H1|].
  split; [unfold meson_gpio_direction_output, meson_pinconf_set_output_drive, meson_pinconf_set_drive;
          by rewrite E1|].
  split; [done|]. unfold meson_gpio_get_direction. cbn [meson_pinconf_get].
  rewrite (get_output_agrees m2 pc gpio bank _ Hb H2). split; [done|].
  destruct (get_gpio_bit_agrees m2 pc gpio REG_OUT bank _ Hb ltac:(by right) H2) as [Ho _].
  unfold meson_pinconf_get_drive. rewrite Ho. cbn. by destruct (truthy value).
Qed.
End Properties.

(** ** A small layout *)

(** Two banks as on the A1, all registers in one window. *)
Definition demo_pc : meson_pinctrl :=
  fst (meson_a1_parse_dt_extra
    (Pc [BANK_DS "P" 0 12 0 12 0x3 0 0x4 0 0x2 0 0x1 0 0x0 0 0x5 0;
         BANK_DS "B" 13 19 13 19 0x13 0 0x14 0 0x12 0 0x11 0 0x10 0 0x15 0]
       0 [Group "pair" [3; 14] 2] [] [] [] 0x1000 0 0 0x2000 None None true)).

Lemma demo_layout : layout_ok (R := gmap Z Z) demo_pc.
Proof. apply layout_okb_ok; [by vm_compute|]. by intros pin t f _ _ b _. Qed.

Definition demo_configs : list config :=
  [(PIN_CONFIG_BIAS_PULL_UP, 1); (PIN_CONFIG_DRIVE_STRENGTH_UA, 2600); (PIN_CONFIG_OUTPUT, 1)].

(** With all registers zero every setting is zero. *)
Lemma demo_agrees pin : agrees (∅ : gmap Z Z) demo_pc pin (fun _ => 0).
Proof.
  intros t f _ Hf. rewrite parm_read_field by (by eapply pin_parm_wf). unfold reg_val. cbn [regmap_read plain_regmap snd].
  unfold plain_read. rewrite lookup_empty. cbn [default]. change (u32 0) with 0. by rewrite Z.shiftr_0_l, Zmod_0_l.
Qed.

Lemma pinconf_set_refines_witness :
  exists map', meson_pinconf_set (∅ : gmap Z Z) demo_pc 14 demo_configs = (map', 0) /\
    agrees map' demo_pc 14
      (<[REG_DIR := 0]> (<[REG_OUT := 1]> (<[REG_DS := 2]> (<[REG_PULLEN := 1]> (<[REG_PULL := 1]> (fun _ => 0)))))) /\
    agrees map' demo_pc 3 (fun _ => 0).
Proof.
  destruct (pinconf_set_refines (∅ : gmap Z Z) demo_pc 14 _ demo_configs (fun _ => 0) demo_layout eq_refl
              (demo_agrees 14)) as (map' & E & Ha & Ho).
  exists map'. split; [exact E|]. split; [exact Ha|]. apply Ho; [lia|]. apply demo_agrees.
Defined.

Lemma pinconf_group_set_refines_witness :
  exists map', meson_pinconf_group_set (∅ : gmap Z Z) demo_pc 0 demo_configs = Some (map', 0) /\
    agrees map' demo_pc 15 (fun _ => 0).
Proof.
  destruct (pinconf_group_set_refines demo_pc 0 _ demo_configs (fun _ _ => 0) (∅ : gmap Z Z) demo_layout eq_refl)
    as (map' & E & Ha).
  - apply (bool_decide_unpack _). by vm_compute.
  - intros pin Hp. cbn in Hp. rewrite !elem_of_cons, elem_of_nil in Hp. destruct Hp as [-> | [-> | []]]; by eexists.
  - apply demo_agrees.
  - exists map'. split; [exact E|]. exact (Ha 15).
Defined.

Lemma pinconf_get_refines_witness :
  meson_pinconf_get (∅ : gmap Z Z) demo_pc 5 PIN_CONFIG_DRIVE_STRENGTH_UA = inl (PIN_CONFIG_DRIVE_STRENGTH_UA, 500).
Proof.
  apply (pinconf_get_refines (∅ : gmap Z Z) demo_pc 5 _ (fun _ => 0) PIN_CONFIG_DRIVE_STRENGTH_UA eq_refl
           (demo_agrees 5)).
  intros base. discriminate.
Defined.

Lemma gpio_direction_output_no_glitch_witness :
  exists m2, meson_gpio_direction_output (∅ : gmap Z Z) demo_pc 5 1 = (m2, 0) /\
    meson_gpio_get_direction m2 demo_pc 5 = GPIO_LINE_DIRECTION_OUT.
Proof.
  destruct (gpio_direction_output_no_glitch (∅ : gmap Z Z) demo_pc 5 _ 1 (fun _ => 0) demo_layout eq_refl
              (demo_agrees 5)) as (m1 & m2 & _ & _ & _ & E & Hd & _).
  exists m2. by split.
Defined.

End Pinctrl.
