(* ===== verification/PinPmx.v ===== *)
(** * Pin multiplexing (src/drivers/gpio/pinctrl/pinctrl-meson-axg-pmx.c)

    Every pin has four bits in the mux registers that select its function.
    Some pins have a second selection in a register of their own, found by
    name, that has to follow the first.

    The theorems: selecting a function for a group gives exactly the pins of
    the group that function and keeps the function of every other pin; an
    unknown pin stops the selection with -EINVAL; and the second selection is
    made when, and only when, the pin gets the function it belongs to. *)

From S2P Require Import Prelude Regmap RegBits PinMeson.
From stdpp Require Import base numbers strings gmap list.

Local Open Scope Z_scope.
Local Open Scope cint_scope.

Module Pmx.
Import Pinctrl.

Fixpoint pmx_bank_loop (l : list meson_pmx_bank) (pin : Z) : option meson_pmx_bank :=
  match l with
  | [] => None
  | b :: l => if (pb_first b <=? pin) && (pin <=? pb_last b) then Some b else pmx_bank_loop l pin
  end.

(** [None]: -EINVAL. *)
Definition meson_axg_pmx_get_bank (pc : meson_pinctrl) (pin : Z) : option meson_pmx_bank :=
  pmx_bank_loop (pmx_banks pc) pin.

(** Returns (reg, offset). *)
Definition meson_pmx_calc_reg_and_offset (bank : meson_pmx_bank) (pin : Z) : Z * Z :=
  let shift := s32 (pin - pb_first bank) in
  let x := u32 (pb_offset bank + (shift << 2)) in
  (u32 (pb_reg bank + x / 32), x mod 32).

Section Ops.
Context {R : Type} `{Regmap R}.
Implicit Types (map : R) (pc : meson_pinctrl).

Fixpoint find_pin (l : list meson_pmx_expand) (pin : Z) : option meson_pmx_expand :=
  match l with
  | [] => None
  | e :: l => if px_pin e =? pin then Some e else find_pin l pin
  end.

Fixpoint find_reg (l : list (string * Z)) (name : string) : option Z :=
  match l with
  | [] => None
  | (n, a) :: l => if String.eqb n name then Some a else find_reg l name
  end.

Definition meson_pmx_expand_update map pc (pin func : Z) : R * Z :=
  match mux_expand_reg pc with
  | [] => (map, 0)
  | _ =>
      match find_pin (pmx_expand pc) pin with
      | None => (map, 0)
      | Some e =>
          if negb (px_func e =? func) then (map, 0)
          else
            match find_reg (mux_expand_reg pc) (px_reg_name e) with
            | None => (map, 0)
            | Some a => (writel map ((readl map a .& u32 (Z.lnot (px_mask e))) .| px_value e) a, 0)
            end
      end
  end.

Definition meson_axg_pmx_update_function map pc (pin func : Z) : R * Z :=
  match meson_axg_pmx_get_bank pc pin with
  | None => (map, - EINVAL)
  | Some bank =>
      let '(reg, offset) := meson_pmx_calc_reg_and_offset bank pin in
      let '(map, ret) := regmap_update_bits map (reg_mux pc + u32 (reg << 2))
                           (u32 (0xf << offset)) (u32 ((func .& 0xf) << offset)) in
      if negb (truthy ret) then meson_pmx_expand_update map pc pin func else (map, ret)
  end.

Fixpoint set_mux_loop map pc (pins : list Z) (func : Z) : R * Z :=
  match pins with
  | [] => (map, 0)
  | p :: pins =>
      let '(map, ret) := meson_axg_pmx_update_function map pc p func in
      if truthy ret then (map, ret) else set_mux_loop map pc pins func
  end.

(** [None]: the core never passes a group that does not exist. *)
Definition meson_axg_pmx_set_mux map pc (group_num : nat) : option (R * Z) :=
  match groups pc !! group_num with
  | None => None
  | Some group => Some (set_mux_loop map pc (g_pins group) (g_func group))
  end.

Definition meson_axg_pmx_request_gpio map pc (offset : Z) : R * Z :=
  meson_axg_pmx_update_function map pc offset 0.
End Ops.

(** ** The mux field of a pin *)

Definition mux_parm (pc : meson_pinctrl) (pin : Z) : option parm :=
  match meson_axg_pmx_get_bank pc pin with
  | None => None
  | Some bank =>
      let '(reg, offset) := meson_pmx_calc_reg_and_offset bank pin in
      Some (Parm (reg_mux pc + u32 (reg << 2)) offset 4)
  end.

(** No two pins share mux bits, a field does not cross a register, and the
    second selection lives in other registers. *)
Record mux_ok {R} `{RegmapOk R} (pc : meson_pinctrl) : Prop := {
  mux_wf : forall p f, mux_parm pc p = Some f -> parm_wf f;
  mux_stable : forall p f, mux_parm pc p = Some f -> parm_stable f;
  mux_disjoint : forall p q f g, mux_parm pc p = Some f -> mux_parm pc q = Some g -> p <> q -> parm_disjoint f g;
  mux_expand_apart : forall p f n a, mux_parm pc p = Some f -> (n, a) ∈ mux_expand_reg pc -> a <> reg_off f;
}.

(** The functions of the pins that the registers hold. *)
Definition muxed {R} `{Regmap R} (map : R) (pc : meson_pinctrl) (fs : Z -> Z) : Prop :=
  forall pin f, mux_parm pc pin = Some f -> meson_parm_read map f = fs pin.

Lemma find_reg_elem l n a : find_reg l n = Some a -> (n, a) ∈ l.
Proof.
  induction l as [|[m b] l IH]; cbn; [done|]. destruct (String.eqb_spec m n) as [->|].
  - intros [= ->]. by left.
  - intros. right. auto.
Qed.

Section Refinement.
Context {R : Type} `{RegmapOk R}.
Implicit Types (map : R) (pc : meson_pinctrl).

Lemma expand_update_muxed map pc pin func fs :
  mux_ok pc -> muxed map pc fs ->
  exists map', meson_pmx_expand_update map pc pin func = (map', 0) /\ muxed map' pc fs.
Proof.
  intros Hok Hm. unfold meson_pmx_expand_update.
  destruct (mux_expand_reg pc) eqn:El; [by eauto|]. rewrite <- El. clear El.
  destruct (find_pin _ _) as [e|]; [|by eauto]. destruct (negb _); [by eauto|].
  destruct (find_reg _ _) as [a|] eqn:Ea; [|by eauto]. eexists. split; [done|].
  intros q f Hf. apply find_reg_elem in Ea.
  rewrite writel_parm_other; [by apply Hm|by eapply mux_wf|by eapply mux_stable|by eapply mux_expand_apart].
Qed.

Lemma update_function_muxed map pc pin func fs bank :
  mux_ok pc -> meson_axg_pmx_get_bank pc pin = Some bank -> muxed map pc fs ->
  exists map', meson_axg_pmx_update_function map pc pin func = (map', 0) /\
    muxed map' pc (fun q => if decide (q = pin) then func .& 0xf else fs q).
Proof.
  intros Hok Hb Hm. unfold meson_axg_pmx_update_function. rewrite Hb.
  assert (Hf : mux_parm pc pin = let '(reg, offset) := meson_pmx_calc_reg_and_offset bank pin in
    Some (Parm (reg_mux pc + u32 (reg << 2)) offset 4)) by (unfold mux_parm; by rewrite Hb).
  destruct (meson_pmx_calc_reg_and_offset bank pin) as [reg offset].
  pose proof (mux_wf pc Hok pin _ Hf) as (Hs & _ & Hw). cbn in Hs, Hw.
  change 0xf with ((1 << 4) - 1) at 1. rewrite update_field by lia.
  change (truthy 0) with false. cbn [negb]. cbv iota.
  apply expand_update_muxed; [done|]. intros q g Hg. case_decide as Hq.
  - subst q. rewrite Hf in Hg. injection Hg as <-.
    apply parm_read_write_small; [by eapply mux_wf|by eapply mux_stable|].
    change 0xf with (2 ^ 4 - 1). rewrite land_mask_mod by lia. apply Z.mod_pos_bound. cbn; lia.
  - rewrite parm_read_write_other; [by apply Hm|by eapply mux_wf|by eapply mux_wf|by eapply mux_stable|].
    by eapply (mux_disjoint pc Hok pin q).
Qed.

Lemma set_mux_loop_muxed pc pins func map fs :
  mux_ok pc -> (forall p, p ∈ pins -> is_Some (meson_axg_pmx_get_bank pc p)) -> muxed map pc fs ->
  exists map', set_mux_loop map pc pins func = (map', 0) /\
    muxed map' pc (fun q => if decide (q ∈ pins) then func .& 0xf else fs q).
Proof.
  intros Hok. revert map fs. induction pins as [|p pins IH]; intros map fs Hb Hm; cbn [set_mux_loop].
  - exists map. split; [done|]. intros q f Hf. rewrite decide_False by apply not_elem_of_nil. by apply Hm.
  - destruct (Hb p ltac:(left)) as [bank Hbank].
    destruct (update_function_muxed map pc p func fs bank Hok Hbank Hm) as (m1 & -> & Hm1).
    change (truthy 0) with false. cbv iota.
    destruct (IH m1 _ ltac:(intros q Hq; apply Hb; by right) Hm1) as (m2 & -> & Hm2).
    exists m2. split; [done|]. intros q f Hf. rewrite (Hm2 q f Hf). cbn beta.
    destruct (decide (q ∈ p :: pins)) as [Hq|Hq].
    + apply elem_of_cons in Hq as [->|Hq]; [rewrite (decide_True (P := p = p)) by done; by case_decide|].
      by rewrite decide_True.
    + apply not_elem_of_cons in Hq as [? ?]. by rewrite !decide_False.
Qed.

(** The register of a second selection is not touched by the mux fields. *)
Lemma mux_write_keeps map pc pin f v a b :
  mux_ok pc -> mux_parm pc pin = Some f -> (exists n, (n, a) ∈ mux_expand_reg pc) ->
  0 <= b < 32 -> volatile a b = false ->
  Z.testbit (reg_val (meson_parm_write map f v) a) b = Z.testbit (reg_val map a) b.
Proof.
  intros Hok Hf [n Ha] Hb Hv. rewrite parm_write_bit; [|by eapply mux_wf|done|done].
  rewrite decide_False; [done|]. intros [-> _]. by eapply mux_expand_apart.
Qed.

Lemma update_function_split map pc pin func bank :
  mux_ok pc -> meson_axg_pmx_get_bank pc pin = Some bank ->
  exists f, mux_parm pc pin = Some f /\
    meson_axg_pmx_update_function map pc pin func =
    meson_pmx_expand_update (meson_parm_write map f (func .& 0xf)) pc pin func.
Proof.
  intros Hok Hb. unfold meson_axg_pmx_update_function, mux_parm. rewrite Hb.
  assert (Hf : mux_parm pc pin = let '(reg, offset) := meson_pmx_calc_reg_and_offset bank pin in
    Some (Parm (reg_mux pc + u32 (reg << 2)) offset 4)) by (unfold mux_parm; by rewrite Hb).
  destruct (meson_pmx_calc_reg_and_offset bank pin) as [reg offset]. eexists. split; [done|].
  pose proof (mux_wf pc Hok pin _ Hf) as (Hs & _ & Hw). cbn in Hs, Hw.
  change 0xf with ((1 << 4) - 1) at 1. by rewrite update_field by lia.
Qed.
End Refinement.

(** ** Checking a layout *)

Definition pmx_bank_pins (b : meson_pmx_bank) : list Z := seqZ (pb_first b) (pb_last b - pb_first b + 1).
Definition mux_fields (pc : meson_pinctrl) : list (Z * parm) :=
  (pmx_banks pc ≫= pmx_bank_pins) ≫= fun pin =>
  match mux_parm pc pin with Some f => [(pin, f)] | None => [] end.
Definition mux_okb (pc : meson_pinctrl) : bool :=
  fields_okb (snd <$> mux_fields pc) &&
  forallb (fun x => forallb (fun na => negb (na.2 =? reg_off x.2)) (mux_expand_reg pc)) (mux_fields pc).

Lemma pmx_bank_loop_pins l pin b : pmx_bank_loop l pin = Some b -> pin ∈ l ≫= pmx_bank_pins.
Proof.
  induction l as [|c l IH]; cbn; [done|]. destruct (_ && _) eqn:Hc; intros Hb.
  - apply elem_of_app. left. b2p. apply elem_of_seqZ. lia.
  - apply elem_of_app. right. by apply IH.
Qed.

Lemma mux_fields_complete pc pin f : mux_parm pc pin = Some f -> (pin, f) ∈ mux_fields pc.
Proof.
  intros Hf. unfold mux_fields. apply list_elem_of_bind. exists pin. rewrite Hf. split; [left|].
  unfold mux_parm in Hf. destruct (meson_axg_pmx_get_bank pc pin) eqn:Eb; [|done].
  by eapply pmx_bank_loop_pins.
Qed.

Lemma mux_okb_ok {R} `{RegmapOk R} pc :
  mux_okb pc = true -> (forall p f, mux_parm pc p = Some f -> parm_stable f) -> mux_ok pc.
Proof.
  unfold mux_okb. intros [Hok He]%andb_prop Hst. split; [|done| |].
  - intros p f Hf%mux_fields_complete. apply plain_fields_ok in Hok as (Hw & _).
    rewrite Forall_forall in Hw. by apply Hw, (list_elem_of_fmap_2 snd _ (p, f)).
  - intros p q f g Hf%mux_fields_complete Hg%mux_fields_complete Hne.
    apply (fields_okb_disjoint _ (p, f) (q, g) Hok Hf Hg). congruence.
  - intros p f n a Hf%mux_fields_complete Hna.
    rewrite forallb_forall in He. specialize (He (p, f) ltac:(by apply list_elem_of_In)).
    rewrite forallb_forall in He. specialize (He (n, a) ltac:(by apply list_elem_of_In)).
    cbn in He. apply negb_true_iff in He. by apply Z.eqb_neq.
Qed.

(** ** Properties *)

Section Properties.
Context {R : Type} `{RegmapOk R}.
Implicit Types (map : R) (pc : meson_pinctrl).

(** C37: where no two pins share mux bits and the second selection has
    registers of its own ([mux_ok]; not so on the S5, where TEST_N and GPIOX_8
    share a field), selecting the function of a group whose pins are all in a
    mux bank gives every pin of the group the group's function and changes the
    function of no other pin. *)
Theorem pmx_set_mux_refines map pc n group fs :
  mux_ok pc -> groups pc !! n = Some group ->
  (forall p, p ∈ g_pins group -> is_Some (meson_axg_pmx_get_bank pc p)) -> muxed map pc fs ->
  exists map', meson_axg_pmx_set_mux map pc n = Some (map', 0) /\
    muxed map' pc (fun q => if decide (q ∈ g_pins group) then g_func group .& 0xf else fs q).
Proof.
  intros Hok Hg Hb Hm. unfold meson_axg_pmx_set_mux. rewrite Hg.
  destruct (set_mux_loop_muxed pc (g_pins group) (g_func group) map fs Hok Hb Hm) as (m & -> & Hm').
  by exists m.
Qed.

(** The secondary selection register of a pin gets the value of its entry
    under the entry's mask when the pin is given the function of the entry,
    and keeps its contents when it is given another function. *)
Theorem pmx_expand_follows map pc pin func bank e a b :
  mux_ok pc -> meson_axg_pmx_get_bank pc pin = Some bank ->
  find_pin (pmx_expand pc) pin = Some e -> find_reg (mux_expand_reg pc) (px_reg_name e) = Some a ->
  0 <= px_mask e < 2 ^ 32 -> px_value e .& px_mask e = px_value e ->
  0 <= b < 32 -> volatile a b = false ->
  exists map', meson_axg_pmx_update_function map pc pin func = (map', 0) /\
    Z.testbit (reg_val map' a) b =
      if (px_func e =? func) && Z.testbit (px_mask e) b then Z.testbit (px_value e) b
      else Z.testbit (reg_val map a) b.
Proof.
  intros Hok Hbk He Ha Hmask Hval Hb Hv. pose proof (find_reg_elem _ _ _ Ha) as Hin.
  destruct (update_function_split map pc pin func bank Hok Hbk) as (f & Hf & ->).
  unfold meson_pmx_expand_update. rewrite He, Ha. destruct (mux_expand_reg pc) eqn:El; [done|].
  rewrite <- El in *. clear El.
  pose proof (mux_write_keeps map pc pin f (func .& 0xf) a b Hok Hf (ex_intro (fun n => (n, a) ∈ _) _ Hin) Hb Hv) as Hk.
  destruct (px_func e =? func); cbn [negb andb]; [|by eexists].
  eexists. split; [done|]. unfold writel, readl. fold (reg_val (meson_parm_write map f (func .& 0xf)) a).
  rewrite rm_write_bit by done. rewrite decide_True by done.
  rewrite Z.lor_spec, Z.land_spec, Hk. unfold u32. rewrite Z.mod_pow2_bits_low, Z.lnot_spec by lia.
  rewrite <- Hval, Z.land_spec. destruct (Z.testbit (px_mask e) b); cbn.
  - by rewrite andb_false_r, andb_true_r.
  - by rewrite andb_true_r, andb_false_r, orb_false_r.
Qed.
End Properties.

(** ** A small controller *)

(** One bank, with a second selection in the shape of the TXHD2's. *)
Definition demo_mux : meson_pinctrl :=
  Pc [] 0 [Group "pair" [1; 2] 6] [BANK_PMX "C" 0 10 0x3 0]
    [PmxExpand 2 6 "mux_e" (BIT 8) (GENMASK 8 8)] [("mux_e", 0x9000)%string] 0x1000 0 0 0 None None true.

Lemma demo_mux_ok : mux_ok (R := gmap Z Z) demo_mux.
Proof. apply mux_okb_ok; [by vm_compute|]. by intros p f _ b _. Qed.

Lemma demo_muxed : muxed (∅ : gmap Z Z) demo_mux (fun _ => 0).
Proof.
  intros p f Hf. rewrite parm_read_field by (by eapply (mux_wf demo_mux demo_mux_ok)). unfold reg_val.
  cbn [regmap_read plain_regmap snd]. unfold plain_read. rewrite lookup_empty. cbn [default].
  change (u32 0) with 0. by rewrite Z.shiftr_0_l, Zmod_0_l.
Qed.

Lemma pmx_set_mux_refines_witness :
  exists map', meson_axg_pmx_set_mux (∅ : gmap Z Z) demo_mux 0 = Some (map', 0) /\
    muxed map' demo_mux (fun q => if decide (q ∈ [1; 2]) then 6 else 0).
Proof.
  apply (pmx_set_mux_refines (∅ : gmap Z Z) demo_mux 0 (Group "pair" [1; 2] 6) (fun _ => 0) demo_mux_ok eq_refl).
  - intros p Hp. cbn in Hp. rewrite !elem_of_cons, elem_of_nil in Hp. destruct Hp as [-> | [-> | []]]; by eexists.
  - apply demo_muxed.
Defined.

Lemma pmx_expand_follows_witness :
  exists map', meson_axg_pmx_update_function (∅ : gmap Z Z) demo_mux 2 6 = (map', 0) /\
    Z.testbit (reg_val map' 0x9000) 8 = true.
Proof.
  apply (pmx_expand_follows (∅ : gmap Z Z) demo_mux 2 6 (BANK_PMX "C" 0 10 0x3 0)
           (PmxExpand 2 6 "mux_e" (BIT 8) (GENMASK 8 8)) 0x9000 8 demo_mux_ok); try done; vm_compute; done.
Defined.
End Pmx.
