(* ===== verification/PinTables.v ===== *)
(** * The pin tables of the SoCs (src/drivers/gpio/pinctrl/pinctrl-meson-*.c)

    The theorems of [PinMeson.v] and [PinPmx.v] hold on layouts whose fields
    do not overlap.  This file has the main tables of the SoCs that the hook
    meson_a1_parse_dt_extra sets up, with the pin numbers of
    src/include/dt-bindings/gpio, and checks them ([PinBanks.v] has the others): for every window base, the
    settings of the pins are apart, every pin that can be configured can be
    multiplexed and back, and no two pins have the same interrupt.  The mux table of the
    S5 is the exception: two pins share a field. *)

From S2P Require Import Prelude Regmap RegBits PinMeson PinPmx.
From stdpp Require Import base numbers strings gmap list.

Local Open Scope Z_scope.
Local Open Scope cint_scope.

Module PinTables.
Import Pinctrl Pmx.

(** ** Tables *)

Definition meson_a1_periphs_banks : list meson_bank :=
  [BANK_DS "P" 0 12 0 12 0x3 0 0x4 0 0x2 0 0x1 0 0x0 0 0x5 0;
   BANK_DS "B" 13 19 13 19 0x13 0 0x14 0 0x12 0 0x11 0 0x10 0 0x15 0;
   BANK_DS "X" 20 36 20 36 0x23 0 0x24 0 0x22 0 0x21 0 0x20 0 0x25 0;
   BANK_DS "F" 37 49 37 49 0x33 0 0x34 0 0x32 0 0x31 0 0x30 0 0x35 0;
   BANK_DS "A" 50 61 50 61 0x43 0 0x44 0 0x42 0 0x41 0 0x40 0 0x45 0].

Definition meson_a1_periphs_pmx_banks : list meson_pmx_bank :=
  [BANK_PMX "P" 0 12 0x0 0;
   BANK_PMX "B" 13 19 0x2 0;
   BANK_PMX "X" 20 36 0x3 0;
   BANK_PMX "F" 37 49 0x6 0;
   BANK_PMX "A" 50 61 0x8 0].

Definition meson_c1_periphs_banks : list meson_bank :=
  [BANK_DS "D" 0 12 0 12 0x3 0 0x4 0 0x2 0 0x1 0 0x0 0 0x5 0;
   BANK_DS "E" 13 14 13 14 0x13 0 0x14 0 0x12 0 0x11 0 0x10 0 0x15 0;
   BANK_DS "B" 15 28 15 28 0x23 0 0x24 0 0x22 0 0x21 0 0x20 0 0x25 0;
   BANK_DS "C" 29 36 29 36 0x33 0 0x34 0 0x32 0 0x31 0 0x30 0 0x35 0;
   BANK_DS "X" 37 56 37 56 0x43 0 0x44 0 0x42 0 0x41 0 0x40 0 0x45 0;
   BANK_DS "M" 57 72 57 72 0x53 0 0x54 0 0x52 0 0x51 0 0x50 0 0x55 0;
   BANK_DS "A" 73 88 73 88 0x63 0 0x64 0 0x62 0 0x61 0 0x60 0 0x65 0;
   BANK_DS "TEST_N" 89 89 (-1) (-3) 0x73 0 0x74 0 0x72 0 0x71 0 0x70 0 0x75 0].

Definition meson_c1_periphs_pmx_banks : list meson_pmx_bank :=
  [BANK_PMX "D" 0 12 0x0 0;
   BANK_PMX "E" 13 14 0x2 0;
   BANK_PMX "B" 15 28 0x3 0;
   BANK_PMX "C" 29 36 0x5 0;
   BANK_PMX "X" 37 56 0x6 0;
   BANK_PMX "M" 57 72 0x9 0;
   BANK_PMX "A" 73 88 0xb 0;
   BANK_PMX "TEST_N" 89 89 0xf 0].

Definition meson_c2_periphs_banks : list meson_bank :=
  [BANK_REF "D" 0 13 0 13 0x3 0 0x4 0 0x2 0 0x1 0 0x0 0 0x5 0 0x6 0;
   BANK_REF "E" 14 16 14 16 0x13 0 0x14 0 0x12 0 0x11 0 0x10 0 0x15 0 0x16 0;
   BANK_REF "B" 17 30 17 30 0x23 0 0x24 0 0x22 0 0x21 0 0x20 0 0x25 0 0x26 0;
   BANK_REF "C" 31 37 31 37 0x33 0 0x34 0 0x32 0 0x31 0 0x30 0 0x35 0 0x36 0;
   BANK_REF "X" 38 58 38 58 0x43 0 0x44 0 0x42 0 0x41 0 0x40 0 0x45 0 0x47 0;
   BANK_REF "M" 59 72 59 72 0x53 0 0x54 0 0x52 0 0x51 0 0x50 0 0x55 0 0x56 0;
   BANK_REF "A" 73 88 73 88 0x63 0 0x64 0 0x62 0 0x61 0 0x60 0 0x65 0 0x66 0;
   BANK_REF "TEST_N" 89 89 89 89 0x73 0 0x74 0 0x72 0 0x71 0 0x70 0 0x75 0 0x76 0].

Definition meson_c2_periphs_pmx_banks : list meson_pmx_bank :=
  [BANK_PMX "D" 0 13 0x0 0;
   BANK_PMX "E" 14 16 0x2 0;
   BANK_PMX "B" 17 30 0x3 0;
   BANK_PMX "C" 31 37 0x5 0;
   BANK_PMX "X" 38 58 0x6 0;
   BANK_PMX "M" 59 72 0x9 0;
   BANK_PMX "A" 73 88 0xb 0;
   BANK_PMX "TEST_N" 89 89 0xf 0].

Definition meson_c3_periphs_banks : list meson_bank :=
  [BANK_DS "X" 27 40 40 53 0x3 0 0x4 0 0x2 0 0x1 0 0x0 0 0x7 0;
   BANK_DS "D" 41 47 33 39 0x23 0 0x24 0 0x22 0 0x21 0 0x20 0 0x27 0;
   BANK_DS "E" 0 4 22 26 0x33 0 0x34 0 0x32 0 0x31 0 0x30 0 0x37 0;
   BANK_DS "C" 20 26 15 21 0x43 0 0x44 0 0x42 0 0x41 0 0x40 0 0x47 0;
   BANK_DS "B" 5 19 0 14 0x53 0 0x54 0 0x52 0 0x51 0 0x50 0 0x57 0;
   BANK_DS "A" 48 53 27 32 0x63 0 0x64 0 0x62 0 0x61 0 0x60 0 0x67 0;
   BANK_DS "TEST_N" 54 54 54 54 0x73 0 0x74 0 0x72 0 0x71 0 0x70 0 0x77 0].

Definition meson_c3_periphs_pmx_banks : list meson_pmx_bank :=
  [BANK_PMX "B" 5 19 0x0 0;
   BANK_PMX "X" 27 40 0x3 0;
   BANK_PMX "C" 20 26 0x9 0;
   BANK_PMX "A" 48 53 0xb 0;
   BANK_PMX "D" 41 47 0x10 0;
   BANK_PMX "E" 0 4 0x12 0;
   BANK_PMX "TEST_N" 54 54 0x2 0].

Definition meson_s4_periphs_banks : list meson_bank :=
  [BANK_DS "B" 0 13 0 13 0x63 0 0x64 0 0x62 0 0x61 0 0x60 0 0x67 0;
   BANK_DS "C" 14 21 14 21 0x53 0 0x54 0 0x52 0 0x51 0 0x50 0 0x57 0;
   BANK_DS "E" 22 23 22 23 0x43 0 0x44 0 0x42 0 0x41 0 0x40 0 0x47 0;
   BANK_DS "D" 24 35 24 35 0x33 0 0x34 0 0x32 0 0x31 0 0x30 0 0x37 0;
   BANK_DS "H" 36 47 36 47 0x23 0 0x24 0 0x22 0 0x21 0 0x20 0 0x27 0;
   BANK_DS "X" 48 67 48 67 0x13 0 0x14 0 0x12 0 0x11 0 0x10 0 0x17 0;
   BANK_DS "Z" 68 80 68 80 0x3 0 0x4 0 0x2 0 0x1 0 0x0 0 0x7 0;
   BANK_DS "TEST_N" 81 81 (-1) (-1) 0x83 0 0x84 0 0x82 0 0x81 0 0x80 0 0x87 0].

Definition meson_s4_periphs_pmx_banks : list meson_pmx_bank :=
  [BANK_PMX "B" 0 13 0x0 0;
   BANK_PMX "C" 14 21 0x9 0;
   BANK_PMX "E" 22 23 0x12 0;
   BANK_PMX "D" 24 35 0x10 0;
   BANK_PMX "H" 36 47 0xb 0;
   BANK_PMX "X" 48 67 0x3 0;
   BANK_PMX "Z" 68 80 0x6 0;
   BANK_PMX "TEST_N" 81 81 0xf 0].

Definition meson_s5_periphs_banks : list meson_bank :=
  [BANK_DS "TEST_N" 106 106 (-1) (-1) 0x3 0 0x4 0 0x2 0 0x1 0 0x0 0 0x7 0;
   BANK_DS "A" 95 105 13 23 0x13 0 0x14 0 0x12 0 0x11 0 0x10 0 0x17 0;
   BANK_DS "C" 17 24 24 31 0x23 0 0x24 0 0x22 0 0x21 0 0x20 0 0x27 0;
   BANK_DS "D" 0 11 32 43 0x33 0 0x34 0 0x32 0 0x31 0 0x30 0 0x37 0;
   BANK_DS "E" 12 16 44 48 0x43 0 0x44 0 0x42 0 0x41 0 0x40 0 0x47 0;
   BANK_DS "H" 45 53 49 57 0x53 0 0x54 0 0x52 0 0x51 0 0x50 0 0x57 0;
   BANK_DS "T" 70 94 58 82 0x73 0 0x74 0 0x72 0 0x71 0 0x70 0 0x77 0;
   BANK_DS "X" 25 44 83 102 0x83 0 0x84 0 0x82 0 0x81 0 0x80 0 0x87 0;
   BANK_DS "Z" 54 69 103 118 0x93 0 0x94 0 0x92 0 0x91 0 0x90 0 0x97 0].

Definition meson_s5_periphs_pmx_banks : list meson_pmx_bank :=
  [BANK_PMX "TEST_N" 106 106 0xf 0;
   BANK_PMX "A" 95 105 0x0 0;
   BANK_PMX "C" 17 24 0x3 0;
   BANK_PMX "D" 0 11 0x5 0;
   BANK_PMX "E" 12 16 0x7 0;
   BANK_PMX "H" 45 53 0x8 0;
   BANK_PMX "T" 70 94 0xa 0;
   BANK_PMX "X" 25 44 0xe 0;
   BANK_PMX "Z" 54 69 0x11 0].

Definition meson_s6_periphs_banks : list meson_bank :=
  [BANK_DS "D" 0 6 25 31 0x33 0 0x34 0 0x32 0 0x31 0 0x30 0 0x37 0;
   BANK_DS "F" 7 11 32 36 0x3b 0 0x3c 0 0x3a 0 0x39 0 0x38 0 0x3f 0;
   BANK_DS "E" 12 14 22 24 0x43 0 0x44 0 0x42 0 0x41 0 0x40 0 0x47 0;
   BANK_DS "B" 15 28 0 13 0x63 0 0x64 0 0x62 0 0x61 0 0x60 0 0x67 0;
   BANK_DS "C" 29 36 14 21 0x53 0 0x54 0 0x52 0 0x51 0 0x50 0 0x57 0;
   BANK_DS "X" 37 56 46 65 0x13 0 0x14 0 0x12 0 0x11 0 0x10 0 0x17 0;
   BANK_DS "H" 57 65 37 45 0x23 0 0x24 0 0x22 0 0x21 0 0x20 0 0x27 0;
   BANK_DS "Z" 66 81 66 81 0x3 0 0x4 0 0x2 0 0x1 0 0x0 0 0x7 0;
   BANK_DS "A" 82 97 82 97 0x73 0 0x74 0 0x72 0 0x71 0 0x70 0 0x77 0;
   BANK_DS "TEST_N" 98 98 98 98 0x83 0 0x84 0 0x82 0 0x81 0 0x80 0 0x87 0;
   BANK_DS "CC" 99 100 99 100 0x91 2 0x91 4 0x92 0 0x91 0 0x90 0 0x91 6].

Definition meson_s6_periphs_pmx_banks : list meson_pmx_bank :=
  [BANK_PMX "D" 0 5 0x2 0;
   BANK_PMX "D1" 6 6 0x8 0;
   BANK_PMX "F" 7 11 0x8 4;
   BANK_PMX "E" 12 14 0x12 0;
   BANK_PMX "B" 15 28 0x0 0;
   BANK_PMX "C" 29 36 0x9 0;
   BANK_PMX "X" 37 56 0x3 0;
   BANK_PMX "H" 57 65 0xb 0;
   BANK_PMX "Z" 66 81 0x6 0;
   BANK_PMX "A" 82 97 0x10 0;
   BANK_PMX "TEST_N" 98 98 0xf 0;
   BANK_PMX "CC" 99 100 0x5 24].

Definition meson_s7_periphs_banks : list meson_bank :=
  [BANK_DS "B" 0 13 0 13 0x63 0 0x64 0 0x62 0 0x61 0 0x60 0 0x67 0;
   BANK_DS "C" 14 21 14 21 0x53 0 0x54 0 0x52 0 0x51 0 0x50 0 0x57 0;
   BANK_DS "E" 22 23 22 23 0x43 0 0x44 0 0x42 0 0x41 0 0x40 0 0x47 0;
   BANK_DS "D" 24 35 24 35 0x33 0 0x34 0 0x32 0 0x31 0 0x30 0 0x37 0;
   BANK_DS "H" 36 47 36 47 0x23 0 0x24 0 0x22 0 0x21 0 0x20 0 0x27 0;
   BANK_DS "X" 48 67 48 67 0x13 0 0x14 0 0x12 0 0x11 0 0x10 0 0x17 0;
   BANK_DS "Z" 68 80 68 80 0x3 0 0x4 0 0x2 0 0x1 0 0x0 0 0x7 0;
   BANK_DS "TEST_N" 81 81 81 81 0x83 0 0x84 0 0x82 0 0x81 0 0x80 0 0x87 0;
   BANK_DS "CC" 82 83 82 83 0x91 2 0x91 4 0x92 0 0x91 0 0x90 0 0x91 6].

Definition meson_s7_periphs_pmx_banks : list meson_pmx_bank :=
  [BANK_PMX "B" 0 13 0x0 0;
   BANK_PMX "C" 14 21 0x9 0;
   BANK_PMX "E" 22 23 0x12 0;
   BANK_PMX "D" 24 35 0x10 0;
   BANK_PMX "H" 36 47 0xb 0;
   BANK_PMX "X" 48 67 0x3 0;
   BANK_PMX "Z" 68 80 0x6 0;
   BANK_PMX "TEST_N" 81 81 0xf 0;
   BANK_PMX "CC" 82 83 0x5 24].

Definition meson_s7d_periphs_banks : list meson_bank :=
  [BANK_DS "E" 0 1 22 23 0x43 0 0x44 0 0x42 0 0x41 0 0x40 0 0x47 0;
   BANK_DS "B" 2 15 0 13 0x63 0 0x64 0 0x62 0 0x61 0 0x60 0 0x67 0;
   BANK_DS "C" 16 23 14 21 0x53 0 0x54 0 0x52 0 0x51 0 0x50 0 0x57 0;
   BANK_DS "D" 24 28 24 28 0x33 0 0x34 0 0x32 0 0x31 0 0x30 0 0x37 0;
   BANK_DS "DV" 29 35 75 81 0x73 0 0x74 0 0x72 0 0x71 0 0x70 0 0x77 0;
   BANK_DS "H" 36 47 29 40 0x23 0 0x24 0 0x22 0 0x21 0 0x20 0 0x27 0;
   BANK_DS "X" 48 67 41 60 0x13 0 0x14 0 0x12 0 0x11 0 0x10 0 0x17 0;
   BANK_DS "Z" 68 80 61 73 0x3 0 0x4 0 0x2 0 0x1 0 0x0 0 0x7 0;
   BANK_DS "TEST_N" 81 81 74 74 0x83 0 0x84 0 0x82 0 0x81 0 0x80 0 0x87 0;
   BANK_DS "CC" 82 83 82 83 0x91 2 0x91 4 0x92 0 0x91 0 0x90 0 0x91 6].

Definition meson_s7d_periphs_pmx_banks : list meson_pmx_bank :=
  [BANK_PMX "E" 0 1 0x12 0;
   BANK_PMX "B" 2 15 0x0 0;
   BANK_PMX "C" 16 23 0x9 0;
   BANK_PMX "D" 24 28 0x10 0;
   BANK_PMX "DV" 29 35 0x2 0;
   BANK_PMX "H" 36 47 0xb 0;
   BANK_PMX "X" 48 67 0x3 0;
   BANK_PMX "Z" 68 80 0x6 0;
   BANK_PMX "TEST_N" 81 81 0xf 0;
   BANK_PMX "CC" 82 83 0x5 24].

Definition meson_sc2_periphs_banks : list meson_bank :=
  [BANK_DS "Z" 70 85 70 85 0x3 0 0x4 0 0x2 0 0x1 0 0x0 0 0x7 0;
   BANK_DS "X" 50 69 50 69 0x13 0 0x14 0 0x12 0 0x11 0 0x10 0 0x17 0;
   BANK_DS "H" 41 49 41 49 0x23 0 0x24 0 0x22 0 0x21 0 0x20 0 0x27 0;
   BANK_DS "D" 29 40 29 49 0x33 0 0x34 0 0x32 0 0x31 0 0x30 0 0x37 0;
   BANK_DS "E" 26 28 26 28 0x43 0 0x44 0 0x42 0 0x41 0 0x40 0 0x47 0;
   BANK_DS "C" 18 25 18 25 0x53 0 0x54 0 0x52 0 0x51 0 0x50 0 0x57 0;
   BANK_DS "B" 2 17 2 17 0x63 0 0x64 0 0x62 0 0x61 0 0x60 0 0x67 0;
   BANK_DS "A" 0 1 0 1 0x73 14 0x74 14 0x72 14 0x71 14 0x70 14 0x77 14;
   BANK_DS "TEST_N" 86 86 86 86 0x83 0 0x84 0 0x82 0 0x81 0 0x80 0 0x87 0].

Definition meson_sc2_periphs_pmx_banks : list meson_pmx_bank :=
  [BANK_PMX "Z" 70 85 0x6 0;
   BANK_PMX "X" 50 69 0x3 0;
   BANK_PMX "H" 41 49 0xb 0;
   BANK_PMX "D" 29 40 0x10 0;
   BANK_PMX "E" 26 28 0x12 0;
   BANK_PMX "C" 18 25 0x9 0;
   BANK_PMX "B" 2 17 0x0 0;
   BANK_PMX "A" 0 1 0xe 24;
   BANK_PMX "TEST_N" 86 86 0xf 0].

Definition meson_t3_periphs_banks : list meson_bank :=
  [BANK_DS "GPIOD" 43 53 43 53 0x3 0 0x4 0 0x2 0 0x1 0 0x0 0 0x7 0;
   BANK_DS "GPIOE" 54 55 54 55 0xb 0 0xc 0 0xa 0 0x9 0 0x8 0 0xf 0;
   BANK_DS "GPIOZ" 56 71 56 71 0x13 0 0x14 0 0x12 0 0x11 0 0x10 0 0x17 0;
   BANK_DS "GPIOZ1" 72 75 72 75 0x13 16 0x14 16 0x12 16 0x11 16 0x10 16 0xc0 0;
   BANK_DS "GPIOH" 107 122 107 122 0x1b 0 0x1c 0 0x1a 0 0x19 0 0x18 0 0x1f 0;
   BANK_DS "GPIOH1" 123 134 123 134 0x1b 16 0x1c 16 0x1a 16 0x19 16 0x18 16 0xc1 0;
   BANK_DS "GPIOB" 0 13 0 13 0x2b 0 0x2c 0 0x2a 0 0x29 0 0x28 0 0x2f 0;
   BANK_DS "GPIOC" 14 29 14 29 0x33 0 0x34 0 0x32 0 0x31 0 0x30 0 0x37 0;
   BANK_DS "GPIOW" 30 42 30 42 0x63 0 0x64 0 0x62 0 0x61 0 0x60 0 0x67 0;
   BANK_DS "GPIOM" 76 91 76 91 0x73 0 0x74 0 0x72 0 0x71 0 0x70 0 0x77 0;
   BANK_DS "GPIOM1" 92 106 92 106 0x73 16 0x74 16 0x72 16 0x71 16 0x70 16 0xc2 0;
   BANK_DS "GPIO_TEST_N" 135 135 135 135 0x83 0 0x84 0 0x82 0 0x81 0 0x80 0 0x87 0].

Definition meson_t3_periphs_pmx_banks : list meson_pmx_bank :=
  [BANK_PMX "D" 43 53 0xb 0;
   BANK_PMX "E" 54 55 0xd 0;
   BANK_PMX "Z" 56 75 0x4 0;
   BANK_PMX "H" 107 134 0x7 0;
   BANK_PMX "B" 0 13 0x0 0;
   BANK_PMX "C" 14 29 0x2 0;
   BANK_PMX "W" 30 42 0x12 0;
   BANK_PMX "M" 76 106 0xe 0;
   BANK_PMX "TEST_N" 135 135 0x14 0].

Definition meson_t3x_periphs_banks : list meson_bank :=
  [BANK_DS "D" 17 31 42 56 0x3 0 0x4 0 0x2 0 0x1 0 0x0 0 0x7 0;
   BANK_DS "E" 32 34 57 59 0xb 0 0xc 0 0xa 0 0x9 0 0x8 0 0xf 0;
   BANK_DS "Z" 60 75 60 75 0x13 0 0x14 0 0x12 0 0x11 0 0x10 0 0x17 0;
   BANK_DS "Z1" 76 79 76 79 0x13 16 0x14 16 0x12 16 0x11 16 0x10 16 0xc0 0;
   BANK_DS "H" 80 95 110 125 0x1b 0 0x1c 0 0x1a 0 0x19 0 0x18 0 0x1f 0;
   BANK_DS "H1" 96 109 126 139 0x1b 16 0x1c 16 0x1a 16 0x19 16 0x18 16 0xc1 0;
   BANK_DS "B" 35 48 0 13 0x2b 0 0x2c 0 0x2a 0 0x29 0 0x28 0 0x2f 0;
   BANK_DS "C" 49 59 14 24 0x33 0 0x34 0 0x32 0 0x31 0 0x30 0 0x37 0;
   BANK_DS "P" 110 119 140 149 0x3b 0 0x3c 0 0x3a 0 0x39 0 0x38 0 0x3f 0;
   BANK_DS "W" 0 16 25 41 0x63 0 0x64 0 0x62 0 0x61 0 0x60 0 0x67 0;
   BANK_DS "M" 120 135 80 95 0x73 0 0x74 0 0x72 0 0x71 0 0x70 0 0x77 0;
   BANK_DS "M1" 136 149 96 109 0x73 16 0x74 16 0x72 16 0x71 16 0x70 16 0xc2 0;
   BANK_DS "GPIO_TEST_N" 150 150 139 139 0x83 0 0x84 0 0x82 0 0x81 0 0x80 0 0x87 0].

Definition meson_t3x_periphs_pmx_banks : list meson_pmx_bank :=
  [BANK_PMX "B" 35 48 0x0 0;
   BANK_PMX "C" 49 59 0x2 0;
   BANK_PMX "Z" 60 79 0x4 0;
   BANK_PMX "H" 80 109 0x7 0;
   BANK_PMX "D" 17 31 0xb 0;
   BANK_PMX "E" 32 34 0xd 0;
   BANK_PMX "M" 120 149 0xe 0;
   BANK_PMX "W" 0 15 0x12 0;
   BANK_PMX "W1" 16 16 0x11 28;
   BANK_PMX "P" 110 119 0x14 0;
   BANK_PMX "TSTN" 150 150 0x15 16].

Definition meson_t5m_periphs_banks : list meson_bank :=
  [BANK_DS "D" 17 31 42 56 0x3 0 0x4 0 0x2 0 0x1 0 0x0 0 0x7 0;
   BANK_DS "E" 32 33 57 58 0xb 0 0xc 0 0xa 0 0x9 0 0x8 0 0xf 0;
   BANK_DS "Z" 59 74 59 74 0x13 0 0x14 0 0x12 0 0x11 0 0x10 0 0x17 0;
   BANK_DS "Z1" 75 78 75 78 0x13 16 0x14 16 0x12 16 0x11 16 0x10 16 0xc0 0;
   BANK_DS "H" 79 94 109 124 0x1b 0 0x1c 0 0x1a 0 0x19 0 0x18 0 0x1f 0;
   BANK_DS "H1" 95 108 125 138 0x1b 16 0x1c 16 0x1a 16 0x19 16 0x18 16 0xc1 0;
   BANK_DS "B" 34 47 0 13 0x2b 0 0x2c 0 0x2a 0 0x29 0 0x28 0 0x2f 0;
   BANK_DS "C" 48 58 14 24 0x33 0 0x34 0 0x32 0 0x31 0 0x30 0 0x37 0;
   BANK_DS "P" 109 118 143 152 0x3b 0 0x3c 0 0x3a 0 0x39 0 0x38 0 0x3f 0;
   BANK_DS "W" 0 16 25 41 0x63 0 0x64 0 0x62 0 0x61 0 0x60 0 0x67 0;
   BANK_DS "M" 119 134 79 94 0x73 0 0x74 0 0x72 0 0x71 0 0x70 0 0x77 0;
   BANK_DS "M1" 135 148 95 108 0x73 16 0x74 16 0x72 16 0x71 16 0x70 16 0xc2 0;
   BANK_DS "GPIO_TEST_N" 149 149 139 139 0x83 0 0x84 0 0x82 0 0x81 0 0x80 0 0x87 0].

Definition meson_t5m_periphs_pmx_banks : list meson_pmx_bank :=
  [BANK_PMX "B" 34 47 0x0 0;
   BANK_PMX "C" 48 58 0x2 0;
   BANK_PMX "Z" 59 78 0x4 0;
   BANK_PMX "H" 79 108 0x7 0;
   BANK_PMX "D" 17 31 0xb 0;
   BANK_PMX "E" 32 33 0xd 0;
   BANK_PMX "M" 119 148 0xe 0;
   BANK_PMX "W" 0 15 0x12 0;
   BANK_PMX "W1" 16 16 0x11 28;
   BANK_PMX "P" 109 118 0x14 0;
   BANK_PMX "TSTN" 149 149 0x15 16].

Definition meson_t6d_periphs_banks : list meson_bank :=
  [BANK_DS "W" 0 12 25 37 0x63 0 0x64 0 0x62 0 0x61 0 0x60 0 0x67 0;
   BANK_DS "D" 13 27 38 52 0x3 0 0x4 0 0x2 0 0x1 0 0x0 0 0x7 0;
   BANK_DS "E" 28 30 53 55 0xb 0 0xc 0 0xa 0 0x9 0 0x8 0 0xf 0;
   BANK_DS "B" 31 44 0 13 0x2b 0 0x2c 0 0x2a 0 0x29 0 0x28 0 0x2f 0;
   BANK_DS "C" 45 55 14 24 0x33 0 0x34 0 0x32 0 0x31 0 0x30 0 0x37 0;
   BANK_DS "Z" 56 71 56 71 0x13 0 0x14 0 0x12 0 0x11 0 0x10 0 0x17 0;
   BANK_DS "Z1" 72 75 72 75 0x13 16 0x14 16 0x12 16 0x11 16 0x10 16 0xc0 0;
   BANK_DS "H" 76 91 106 121 0x1b 0 0x1c 0 0x1a 0 0x19 0 0x18 0 0x1f 0;
   BANK_DS "H1" 92 97 122 127 0x1b 16 0x1c 16 0x1a 16 0x19 16 0x18 16 0xc1 0;
   BANK_DS "M" 98 113 76 91 0x73 0 0x74 0 0x72 0 0x71 0 0x70 0 0x77 0;
   BANK_DS "M1" 114 127 92 105 0x73 16 0x74 16 0x72 16 0x71 16 0x70 16 0xc2 0;
   BANK_DS "TEST_N" 128 128 128 128 0x83 0 0x84 0 0x82 0 0x81 0 0x80 0 0x87 0].

Definition meson_t6d_periphs_pmx_banks : list meson_pmx_bank :=
  [BANK_PMX "W" 0 12 0x12 0;
   BANK_PMX "D" 13 27 0xb 0;
   BANK_PMX "E" 28 30 0xd 0;
   BANK_PMX "B" 31 44 0x0 0;
   BANK_PMX "C" 45 55 0x2 0;
   BANK_PMX "Z" 56 75 0x4 0;
   BANK_PMX "H" 76 97 0x7 0;
   BANK_PMX "M" 98 127 0xe 0;
   BANK_PMX "TEST_N" 128 128 0x14 0].

Definition meson_t7_periphs_banks : list meson_bank :=
  [BANK_DS "GPIOD_" 57 69 57 69 0x3 0 0x4 0 0x2 0 0x1 0 0x0 0 0x7 0;
   BANK_DS "GPIOE_" 70 76 70 76 0xb 0 0xc 0 0xa 0 0x9 0 0x8 0 0xf 0;
   BANK_DS "GPIOZ_" 77 90 77 90 0x13 0 0x14 0 0x12 0 0x11 0 0x10 0 0x17 0;
   BANK_DS "GPIOH_" 148 155 148 155 0x1b 0 0x1c 0 0x1a 0 0x19 0 0x18 0 0x1f 0;
   BANK_DS "GPIOC_" 13 19 13 19 0x23 0 0x24 0 0x22 0 0x21 0 0x20 0 0x27 0;
   BANK_DS "GPIOB_" 0 12 0 12 0x2b 0 0x2c 0 0x2a 0 0x29 0 0x28 0 0x2f 0;
   BANK_DS "GPIOX_" 20 39 20 39 0x33 0 0x34 0 0x32 0 0x31 0 0x30 0 0x37 0;
   BANK_DS "GPIOT_" 91 114 91 114 0x43 0 0x44 0 0x42 0 0x41 0 0x40 0 0x47 0;
   BANK_DS "GPIOY_" 129 147 129 147 0x53 0 0x54 0 0x52 0 0x51 0 0x50 0 0x57 0;
   BANK_DS "GPIOW_" 40 56 40 56 0x63 0 0x64 0 0x62 0 0x61 0 0x60 0 0x67 0;
   BANK_DS "GPIOM_" 115 128 115 128 0x73 0 0x74 0 0x72 0 0x71 0 0x70 0 0x77 0;
   BANK_DS "GPIO_TEST_N" 156 156 156 156 0x83 0 0x84 0 0x82 0 0x81 0 0x80 0 0x87 0].

Definition meson_t7_periphs_pmx_banks : list meson_pmx_bank :=
  [BANK_PMX "D" 57 69 0xa 0;
   BANK_PMX "E" 70 76 0xc 0;
   BANK_PMX "Z" 77 90 0x5 0;
   BANK_PMX "H" 148 155 0x8 0;
   BANK_PMX "C" 13 19 0x7 0;
   BANK_PMX "B" 0 12 0x0 0;
   BANK_PMX "X" 20 39 0x2 0;
   BANK_PMX "T" 91 114 0xf 0;
   BANK_PMX "Y" 129 147 0x13 0;
   BANK_PMX "W" 40 56 0x16 0;
   BANK_PMX "M" 115 128 0xd 0;
   BANK_PMX "TEST_N" 156 156 0x9 0].

(** Pins of the two tables that have an entry in common with another. *)
Definition GPIO_TEST_N_s5 : Z := 106.
Definition GPIOX_8_s5 : Z := 33.
Definition GPIO_TEST_N_t3x : Z := 150.
Definition GPIOH_29_t3x : Z := 109.

(** ** Controllers *)

(** The data of a controller that its SoC fixes; [s_vthx]: the SoC has input
    thresholds. *)
Record soc := Soc {
  s_banks : list meson_bank;
  s_pmx_banks : list meson_pmx_bank;
  s_ds_mask : Z;
  s_vthx : bool;
}.

Inductive soc_id := A1 | C1 | C2 | C3 | S4 | S5 | S6 | S7 | S7D | SC2 | T3 | T3X | T5M | T6D | T7.
#[global] Instance soc_id_eq_dec : EqDecision soc_id.
Proof. solve_decision. Defined.

Definition soc_of (i : soc_id) : soc :=
  match i with
  | A1 => Soc meson_a1_periphs_banks meson_a1_periphs_pmx_banks 0 false
  | C1 => Soc meson_c1_periphs_banks meson_c1_periphs_pmx_banks 0 false
  | C2 => Soc meson_c2_periphs_banks meson_c2_periphs_pmx_banks 0 true
  | C3 => Soc meson_c3_periphs_banks meson_c3_periphs_pmx_banks 0 false
  | S4 => Soc meson_s4_periphs_banks meson_s4_periphs_pmx_banks 0 false
  | S5 => Soc meson_s5_periphs_banks meson_s5_periphs_pmx_banks 0 false
  | S6 => Soc meson_s6_periphs_banks meson_s6_periphs_pmx_banks 0 false
  | S7 => Soc meson_s7_periphs_banks meson_s7_periphs_pmx_banks (BIT 0) false
  | S7D => Soc meson_s7d_periphs_banks meson_s7d_periphs_pmx_banks 0 false
  | SC2 => Soc meson_sc2_periphs_banks meson_sc2_periphs_pmx_banks 0 false
  | T3 => Soc meson_t3_periphs_banks meson_t3_periphs_pmx_banks 0 false
  | T3X => Soc meson_t3x_periphs_banks meson_t3x_periphs_pmx_banks 0 false
  | T5M => Soc meson_t5m_periphs_banks meson_t5m_periphs_pmx_banks 0 false
  | T6D => Soc meson_t6d_periphs_banks meson_t6d_periphs_pmx_banks 0 false
  | T7 => Soc meson_t7_periphs_banks meson_t7_periphs_pmx_banks 0 false
  end.

(** The controller with its groups and the bases of its two windows. *)
Definition soc_pc (i : soc_id) (gs : list meson_pmx_group) (mux gpio : Z) : meson_pinctrl :=
  let s := soc_of i in
  fst (meson_a1_parse_dt_extra
    (Pc (s_banks s) (s_ds_mask s) gs (s_pmx_banks s) [] [] mux 0 0 gpio None
       (if s_vthx s then Some gpio else None) true)).

(** ** Moving a window *)

Definition parm_move (d : Z) (f : parm) : parm := Parm (d + reg_off f) (Regmap.shift f) (width f).

Lemma parm_move_disjoint d f g : parm_disjoint f g -> parm_disjoint (parm_move d f) (parm_move d g).
Proof. unfold parm_disjoint, parm_move. cbn. lia. Qed.

Lemma pin_parm_move i gs mux gpio pin t :
  pin_parm (soc_pc i gs mux gpio) pin t = parm_move gpio <$> pin_parm (soc_pc i [] 0 0) pin t.
Proof.
  unfold pin_parm. change (meson_get_bank (soc_pc i gs mux gpio) pin) with (meson_get_bank (soc_pc i [] 0 0) pin).
  destruct (meson_get_bank _ pin) as [bank|]; [|done]. unfold soc_pc. generalize (soc_of i). intros s.
  destruct t, s as [? ? ? []]; cbn [base_of meson_a1_parse_dt_extra with_windows fst reg_vthx reg_pullen
    reg_pull reg_gpio reg_ds s_vthx]; try done;
    (destruct (meson_calc_reg_and_bit bank pin _); cbn; unfold parm_move; cbn; do 2 f_equal; lia).
Qed.

Lemma mux_parm_move i gs mux gpio pin :
  mux_parm (soc_pc i gs mux gpio) pin = parm_move mux <$> mux_parm (soc_pc i [] 0 0) pin.
Proof.
  unfold mux_parm.
  change (meson_axg_pmx_get_bank (soc_pc i gs mux gpio) pin) with (meson_axg_pmx_get_bank (soc_pc i [] 0 0) pin).
  destruct (meson_axg_pmx_get_bank _ pin) as [bank|]; [|done].
  destruct (meson_pmx_calc_reg_and_offset bank pin); cbn; unfold parm_move; cbn; do 2 f_equal; lia.
Qed.

(** ** What the tables are checked for *)

(** The hwirq a GPIO asks the interrupt core for. *)
Definition gpio_hwirq (pc : meson_pinctrl) (gpio : Z) : option Z :=
  match meson_get_bank pc gpio with
  | None => None
  | Some bank =>
      if (irq_first bank <? 0) || negb (of_irq pc) then None else Some (s32 (gpio - first bank + irq_first bank))
  end.

Lemma to_irq_hwirq create pc gpio :
  meson_gpio_to_irq create pc gpio = match gpio_hwirq pc gpio with Some h => create h | None => - EINVAL end.
Proof.
  unfold meson_gpio_to_irq, gpio_hwirq. destruct (meson_get_bank pc gpio) as [b|]; [|done].
  destruct (irq_first b <? 0); [done|]. by destruct (of_irq pc).
Qed.

Definition hwirqs (pc : meson_pinctrl) : list (Z * Z) :=
  (banks pc ≫= bank_pins) ≫= fun pin =>
  match gpio_hwirq pc pin with Some h => [(pin, h)] | None => [] end.

Lemma hwirqs_complete pc gpio h : gpio_hwirq pc gpio = Some h -> (gpio, h) ∈ hwirqs pc.
Proof.
  intros Hh. unfold hwirqs. apply list_elem_of_bind. exists gpio. rewrite Hh. split; [left|].
  unfold gpio_hwirq in Hh. destruct (meson_get_bank pc gpio) eqn:Eb; [|done]. by eapply bank_loop_pins.
Qed.

(** A list without repeated second components is a function backwards. *)
Lemma NoDup_snd_inj {A B} (l : list (A * B)) x y b :
  NoDup (snd <$> l) -> (x, b) ∈ l -> (y, b) ∈ l -> x = y.
Proof.
  induction l as [|[a c] l IH]; [intros _ Hx; by apply not_elem_of_nil in Hx|]. cbn.
  intros [Hc Hnd]%list.NoDup_cons Hx Hy. apply elem_of_cons in Hx, Hy.
  assert (Hin : forall z, (z, c) ∈ l -> False) by (intros z Hz; apply Hc; by apply (list_elem_of_fmap_2 snd _ (z, c))).
  destruct Hx as [Hx|Hx], Hy as [Hy|Hy]; simplify_eq; [done|naive_solver..|auto].
Qed.

Definition irqs_okb (i : soc_id) : bool := bool_decide (NoDup (hwirqs (soc_pc i [] 0 0)).*2).
Definition pins_okb (i : soc_id) : bool :=
  let s := soc_of i in
  bool_decide ((s_banks s ≫= bank_pins) ⊆ (s_pmx_banks s ≫= pmx_bank_pins)).

Lemma all_layouts i : layout_okb (soc_pc i [] 0 0) = true.
Proof. destruct i; by vm_compute. Qed.
Lemma all_mux i : i <> S5 -> mux_okb (soc_pc i [] 0 0) = true.
Proof. destruct i; intros ?; by vm_compute. Qed.
Lemma all_irqs i : i <> T3X -> irqs_okb i = true.
Proof. destruct i; intros ?; by vm_compute. Qed.
Lemma all_pins i : pins_okb i = true.
Proof. destruct i; by vm_compute. Qed.

Lemma bank_pins_loop l pin : pin ∈ l ≫= pmx_bank_pins -> is_Some (pmx_bank_loop l pin).
Proof.
  induction l as [|b l IH]; cbn; [by intros ?%not_elem_of_nil|].
  intros [Hp|Hp]%elem_of_app.
  - apply elem_of_seqZ in Hp. rewrite (proj2 (Z.leb_le _ _)), (proj2 (Z.leb_le _ _)) by lia. by eexists.
  - destruct (_ && _); [by eexists|by apply IH].
Qed.

Lemma configurable_muxable i gs mux gpio pin bank :
  meson_get_bank (soc_pc i gs mux gpio) pin = Some bank ->
  is_Some (meson_axg_pmx_get_bank (soc_pc i gs mux gpio) pin).
Proof.
  pose proof (all_pins i) as Hp. unfold pins_okb in Hp. apply bool_decide_eq_true in Hp. revert Hp.
  unfold meson_axg_pmx_get_bank, meson_get_bank, soc_pc. generalize (soc_of i). clear i. intros s Hp Hb.
  apply bank_loop_pins in Hb. exact (bank_pins_loop _ _ (Hp _ Hb)).
Qed.

(** ** Properties *)

Section Properties.
Context {R : Type} `{RegmapOk R}.

(** On each of these SoCs, wherever the register window is mapped, the
    settings of the pins do not overlap, so the refinement theorems of the pin
    configuration apply to it. *)
Theorem soc_layouts_ok i gs mux gpio :
  (forall pin t f, t <> REG_IN -> pin_parm (soc_pc i gs mux gpio) pin t = Some f -> parm_stable f) ->
  layout_ok (soc_pc i gs mux gpio).
Proof.
  intros Hst. split; [done|]. intros p q t u f g. rewrite (pin_parm_move i gs mux gpio p), (pin_parm_move i gs mux gpio q).
  intros (f0 & Hf & ->)%fmap_Some (g0 & Hg & ->)%fmap_Some Hne. apply parm_move_disjoint.
  apply (fields_okb_disjoint _ (p, t, f0) (q, u, g0) (all_layouts i));
    [by apply layout_fields_complete..|congruence].
Qed.

(** On each of these SoCs but the S5 no two pins share their mux bits and
    every pin that can be configured can be multiplexed; on the S5 the fields
    of TEST_N and GPIOX_8 coincide. *)
Theorem soc_muxes_ok i gs mux gpio :
  (forall pin f, mux_parm (soc_pc i gs mux gpio) pin = Some f -> parm_stable f) ->
  (forall pin bank, meson_get_bank (soc_pc i gs mux gpio) pin = Some bank ->
    is_Some (meson_axg_pmx_get_bank (soc_pc i gs mux gpio) pin)) /\
  (i <> S5 -> mux_ok (soc_pc i gs mux gpio)) /\
  (i = S5 -> exists f, mux_parm (soc_pc i gs mux gpio) GPIO_TEST_N_s5 = Some f /\
    mux_parm (soc_pc i gs mux gpio) GPIOX_8_s5 = Some f).
Proof.
  intros Hst. split; [|split].
  - intros pin bank Hb. by apply (configurable_muxable i gs mux gpio pin bank).
  - intros Hi. apply all_mux in Hi. unfold mux_okb in Hi. apply andb_prop in Hi as [Hok _]. split; [|done| |].
    + intros p f. rewrite mux_parm_move. intros (f0 & Hf%mux_fields_complete & ->)%fmap_Some.
      apply plain_fields_ok in Hok as (Hw & _). rewrite Forall_forall in Hw.
      by apply (Hw f0), (list_elem_of_fmap_2 snd _ (p, f0)).
    + intros p q f g. rewrite (mux_parm_move i gs mux gpio p), (mux_parm_move i gs mux gpio q).
      intros (f0 & Hf%mux_fields_complete & ->)%fmap_Some (g0 & Hg%mux_fields_complete & ->)%fmap_Some Hne.
      apply parm_move_disjoint, (fields_okb_disjoint _ (p, f0) (q, g0) Hok Hf Hg). congruence.
    + intros p f n a _ Hna. by apply not_elem_of_nil in Hna.
  - intros ->. rewrite (mux_parm_move S5 gs mux gpio GPIO_TEST_N_s5), (mux_parm_move S5 gs mux gpio GPIOX_8_s5).
    eexists. by split.
Qed.
End Properties.

(** On each of these SoCs but the T3X two GPIOs never get the same
    interrupt, when the interrupt core gives different hwirqs different
    interrupts; on the T3X the table gives TEST_N the hwirq of GPIOH_29. *)
Theorem soc_irqs_unique i gs mux gpio (create : Z -> Z) :
  (forall h h', create h = create h' -> 0 < create h -> h = h') ->
  let pc := soc_pc i gs mux gpio in
  (i <> T3X -> forall p q, 0 < meson_gpio_to_irq create pc p ->
    meson_gpio_to_irq create pc p = meson_gpio_to_irq create pc q -> p = q) /\
  (i = T3X -> meson_gpio_to_irq create pc GPIO_TEST_N_t3x = meson_gpio_to_irq create pc GPIOH_29_t3x /\
    meson_gpio_to_irq create pc GPIO_TEST_N_t3x = create 139).
Proof.
  intros Hinj pc. split; [|by intros ->].
  intros Hi p q. rewrite !to_irq_hwirq. intros Hpos Heq.
  destruct (gpio_hwirq pc p) as [h|] eqn:Hp; [|done].
  destruct (gpio_hwirq pc q) as [h'|] eqn:Hq; [|unfold EINVAL in *; lia].
  assert (h = h') as <- by auto. apply all_irqs, bool_decide_eq_true in Hi.
  by apply (NoDup_snd_inj _ p q h Hi); apply (hwirqs_complete (soc_pc i [] 0 0)).
Qed.

Lemma soc_layouts_ok_witness : layout_ok (R := gmap Z Z) (soc_pc SC2 [] 0xfe004000 0xfe004400).
Proof. apply (soc_layouts_ok SC2 [] 0xfe004000 0xfe004400). by intros pin t f _ _ b _. Defined.

Lemma soc_muxes_ok_witness : mux_ok (R := gmap Z Z) (soc_pc SC2 [] 0xfe004000 0xfe004400).
Proof. apply (soc_muxes_ok (R := gmap Z Z) SC2 [] 0xfe004000 0xfe004400); [by intros pin f _ b _|done]. Defined.

Lemma soc_irqs_unique_witness :
  meson_gpio_to_irq (fun h => h + 1) (soc_pc SC2 [] 0 0) 30 <> meson_gpio_to_irq (fun h => h + 1) (soc_pc SC2 [] 0 0) 31.
Proof.
  intros Heq. discriminate (proj1 (soc_irqs_unique SC2 [] 0 0 (fun h => h + 1) ltac:(cbn beta; lia)) ltac:(done) 30 31
    ltac:(by vm_compute) Heq).
Defined.
End PinTables.
