(* ===== verification/PinBanks.v ===== *)
(** * Every pin table of the pin controllers
      (src/drivers/gpio/pinctrl/pinctrl-meson-*.c)

    [PinTables.v] has the main tables of the SoCs that map one window.  This
    file adds the other tables (always-on, analog, storage and test pins, and
    the SoCs with several windows) and the hooks that alias windows, and says
    for each of the 35 controllers whether the settings of its pins are in
    different bits.  Seven tables put two settings in one bit.  Only the two
    tables of the G12A are left out: their pin numbers are not in the
    repository. *)

From S2P Require Import Prelude Regmap RegBits PinMeson PinTables.
From stdpp Require Import base numbers strings gmap list.

Local Open Scope Z_scope.
Local Open Scope cint_scope.

Module PinBanks.
Import Pinctrl PinTables.

(** ** Tables *)

Definition meson_a1_testn_banks : list meson_bank :=
  [BANK_DS "TEST_N" 0 0 (-1) (-3) 0x4 0 0x3 0 0x2 0 0x1 0 0x0 0 0x5 0].

Definition meson_c3_analog_banks : list meson_bank :=
  [BANK "DSI" 0 9 (-1) (-1) 0x3 0 0x4 0 0x2 0 0x0 0 0x5 0;
   BANK "SAR" 10 13 (-1) (-1) 0x9 0 0x10 0 0x8 0 0x6 0 0xb 0].

Definition meson_s1a_periphs_banks : list meson_bank :=
  [BANK "B" 0 5 0 5 0x63 0 0x64 0 0x62 0 0x61 0 0x60 0;
   BANK "D" 6 17 6 17 0x33 0 0x34 0 0x32 0 0x31 0 0x30 0;
   BANK "H" 18 28 18 28 0x23 0 0x24 0 0x22 0 0x21 0 0x20 0;
   BANK "Z" 29 38 29 38 0x3 0 0x4 0 0x2 0 0x1 0 0x0 0;
   BANK "TEST_N" 39 39 (-1) (-1) 0x83 0 0x84 0 0x82 0 0x81 0 0x80 0].

Definition meson_s5_storage_banks : list meson_bank :=
  [BANK_DS "B" 0 12 0 12 0x3 0 0x4 0 0x2 0 0x1 0 0x0 0 0x7 0].

Definition meson_t3_analog_banks : list meson_bank :=
  [BANK_DS "ANALOG" 0 2 136 138 0x0 29 0x0 29 0x1 0 0x0 29 0x0 0 0x0 29].

Definition meson_t3x_analog_banks : list meson_bank :=
  [BANK "ANALOG" 0 2 151 153 0x0 31 0x0 30 0x1 0 0x0 30 0x0 0;
   BANK "ANALOG" 3 7 (-1) (-1) 0x0 29 0x0 28 0x0 27 0x0 26 0x0 25].

Definition meson_t5d_periphs_banks : list meson_bank :=
  [BANK_DS "B" 0 13 33 46 0x0 0 0x0 0 0x0 0 0x1 0 0x2 0 0x0 0;
   BANK_DS "W" 14 26 67 79 0x3 0 0x3 0 0x9 0 0xa 0 0xb 0 0x5 0;
   BANK_DS "Z" 27 46 47 66 0x1 0 0x1 0 0x3 0 0x4 0 0x5 0 0x1 0;
   BANK_DS "H" 47 68 11 32 0x2 0 0x2 0 0x6 0 0x7 0 0x8 0 0x3 0;
   BANK_DS "M" 69 98 83 112 0x4 0 0x4 0 0xc 0 0xd 0 0xe 0 0x6 0].

Definition meson_t5d_aobus_banks : list meson_bank :=
  [BANK_DS "D" 0 10 0 10 0x3 0 0x2 0 0x0 0 0x4 0 0x1 0 0x0 0;
   BANK_DS "E" 11 13 80 82 0x3 16 0x2 16 0x0 16 0x4 16 0x1 16 0x1 16].

Definition meson_t5d_analog_banks : list meson_bank :=
  [BANK "ANALOG" 0 2 113 115 0x0 31 0x0 30 0x0 0 0x0 0 0x1 0].

Definition meson_t5m_analog_banks : list meson_bank :=
  [BANK "ANALOG" 0 2 140 142 0x0 31 0x0 30 0x1 0 0x0 30 0x0 0;
   BANK "ANALOG" 3 7 (-1) (-1) 0x0 29 0x0 28 0x0 27 0x0 26 0x0 25].

Definition meson_t5w_periphs_banks : list meson_bank :=
  [BANK_DS "B" 0 13 52 65 0x0 0 0x0 0 0x0 0 0x1 0 0x2 0 0x20 0;
   BANK_DS "Z" 27 46 66 85 0x1 0 0x1 0 0x3 0 0x4 0 0x5 0 0x21 0;
   BANK_DS "H" 47 72 11 36 0x2 0 0x2 0 0x6 0 0x7 0 0x8 0 0x23 0;
   BANK_DS "W" 14 26 86 98 0x3 0 0x3 0 0x9 0 0xa 0 0xb 0 0x25 0;
   BANK_DS "M" 73 102 101 130 0x4 0 0x4 0 0xc 0 0xd 0 0xe 0 0x26 0;
   BANK_DS "C" 103 117 37 51 0x5 0 0x5 0 0x10 0 0x11 0 0x12 0 0x28 0].

Definition meson_t5w_aobus_banks : list meson_bank :=
  [BANK_DS "D" 0 10 0 10 0x3 0 0x2 0 0x0 0 0x4 0 0x1 0 0x0 0;
   BANK_DS "E" 11 12 99 100 0x3 16 0x2 16 0x0 16 0x4 16 0x1 16 0x1 0].

Definition meson_t5w_analog_banks : list meson_bank :=
  [BANK "ANALOG" 0 2 131 133 0x0 31 0x0 30 0x0 0 0x0 0 0x1 0].

Definition meson_t6d_analog_banks : list meson_bank :=
  [BANK "ANALOG" 0 1 129 130 0x0 30 0x0 28 0x1 0 0x0 26 0x0 0].

Definition meson_tm2_periphs_banks : list meson_bank :=
  [BANK_DS "Z" 0 10 12 22 0x1 0 0x1 0 0x3 0 0x4 0 0x5 0 0x1 0;
   BANK_DS "H" 11 35 23 47 0x2 0 0x2 0 0x6 0 0x7 0 0x8 0 0x2 0;
   BANK_DS "BOOT" 36 49 48 61 0x0 0 0x0 0 0x0 0 0x1 0 0x2 0 0x0 0;
   BANK_DS "C" 50 64 62 76 0x3 0 0x3 0 0x9 0 0xa 0 0xb 0 0x4 0;
   BANK_DS "W" 65 76 77 88 0x4 0 0x4 0 0xc 0 0xd 0 0xe 0 0x5 0;
   BANK_DS "DV" 77 88 89 100 0x5 0 0x5 0 0x10 0 0x11 0 0x12 0 0x6 0].

Definition meson_tm2_aobus_banks : list meson_bank :=
  [BANK_DS "AO" 0 11 0 11 0x3 0 0x2 0 0x0 0 0x4 0 0x1 0 0x0 0;
   BANK_DS "E" 12 14 101 103 0x3 16 0x2 16 0x0 16 0x4 16 0x1 16 0x1 0].

Definition meson_tm2_testn_banks : list meson_bank :=
  [BANK_DS "TESTN" 0 0 (-1) (-1) 0x0 5 0x0 4 0x0 6 0x0 31 0x0 30 0x0 2].

Definition meson_txhd2_periphs_banks : list meson_bank :=
  [BANK "DV" 0 9 70 79 0x0 0 0x0 0 0x10 0 0x11 0 0x12 0;
   BANK "B" 10 22 30 42 0x2 0 0x2 0 0x0 0 0x1 0 0x2 0;
   BANK "C" 23 33 59 69 0x2 16 0x2 16 0xc 0 0xd 0 0xe 0;
   BANK "H" 34 49 14 29 0x1 16 0x1 16 0x6 0 0x7 0 0x8 0;
   BANK "Z" 50 57 43 50 0x3 0 0x3 0 0x3 0 0x4 0 0x5 0;
   BANK "W" 58 65 51 58 0x1 0 0x1 0 0x9 0 0xa 0 0xb 0].

Definition meson_txhd2_aobus_banks : list meson_bank :=
  [BANK "AO" 0 13 0 13 0x3 0 0x2 0 0x0 0 0x4 0 0x1 0].

Definition meson_txhd2_test_banks : list meson_bank :=
  [BANK "TESTN" 0 0 (-1) (-1) 0x0 5 0x0 4 0x0 6 0x0 31 0x0 30].

(** ** Controllers *)

(** What parse_dt of the controller's data is. *)
Inductive hook := NoHook | AobusHook | T5wHook | A1Hook.

Definition parse_dt (h : hook) (pc : meson_pinctrl) : meson_pinctrl :=
  match h with
  | NoHook => pc
  | AobusHook => fst (meson_g12a_aobus_parse_dt_extra pc)
  | T5wHook => fst (meson_t5w_workaround_parse_dt_extra pc)
  | A1Hook => fst (meson_a1_parse_dt_extra pc)
  end.

Inductive table :=
  | Main (i : soc_id)
  | A1_testn | C3_analog | S1A_periphs | S5_storage | T3_analog | T3X_analog | T5D_periphs | T5D_aobus | T5D_analog
  | T5M_analog | T5W_periphs | T5W_aobus | T5W_analog | T6D_analog | TM2_periphs | TM2_aobus | TM2_testn
  | TXHD2_periphs | TXHD2_aobus | TXHD2_test.

(** The banks of a controller, its hook, and whether its rows (BANK_DS, BANK_REF)
    give registers for the drive strength; those of BANK have zeros. *)
Definition table_of (t : table) : list meson_bank * hook * bool :=
  match t with
  | Main i => (s_banks (soc_of i), A1Hook, true)
  | A1_testn => (meson_a1_testn_banks, A1Hook, true)
  | C3_analog => (meson_c3_analog_banks, A1Hook, false)
  | S1A_periphs => (meson_s1a_periphs_banks, AobusHook, false)
  | S5_storage => (meson_s5_storage_banks, A1Hook, true)
  | T3_analog => (meson_t3_analog_banks, A1Hook, true)
  | T3X_analog => (meson_t3x_analog_banks, AobusHook, false)
  | T5D_periphs => (meson_t5d_periphs_banks, NoHook, true)
  | T5D_aobus => (meson_t5d_aobus_banks, AobusHook, true)
  | T5D_analog => (meson_t5d_analog_banks, AobusHook, false)
  | T5M_analog => (meson_t5m_analog_banks, AobusHook, false)
  | T5W_periphs => (meson_t5w_periphs_banks, T5wHook, true)
  | T5W_aobus => (meson_t5w_aobus_banks, AobusHook, true)
  | T5W_analog => (meson_t5w_analog_banks, AobusHook, false)
  | T6D_analog => (meson_t6d_analog_banks, AobusHook, false)
  | TM2_periphs => (meson_tm2_periphs_banks, NoHook, true)
  | TM2_aobus => (meson_tm2_aobus_banks, AobusHook, true)
  | TM2_testn => (meson_tm2_testn_banks, A1Hook, true)
  | TXHD2_periphs => (meson_txhd2_periphs_banks, NoHook, false)
  | TXHD2_aobus => (meson_txhd2_aobus_banks, AobusHook, false)
  | TXHD2_test => (meson_txhd2_test_banks, AobusHook, false)
  end.
Definition ds_mask_of (t : table) : Z := match t with Main i => s_ds_mask (soc_of i) | _ => 0 end.
Definition vthx_of (t : table) : bool := match t with Main i => s_vthx (soc_of i) | _ => false end.

(** Where the windows of the device tree are mapped; "ds" may be missing. *)
Record windows := Windows { w_mux : Z; w_pullen : Z; w_pull : Z; w_gpio : Z; w_ds : option Z }.

(** What the device tree and the SoC do not fix. *)
Record rest := Rest {
  r_groups : list meson_pmx_group;
  r_pmx_banks : list meson_pmx_bank;
  r_expand : list meson_pmx_expand;
  r_expand_reg : list (string * Z);
  r_irq : bool;
}.

(** The controller of a table after meson_pinctrl_parse_dt. *)
Definition table_pc (t : table) (r : rest) (w : windows) : meson_pinctrl :=
  parse_dt (table_of t).1.2
    (Pc (table_of t).1.1 (ds_mask_of t) (r_groups r) (r_pmx_banks r) (r_expand r) (r_expand_reg r)
       (w_mux w) (w_pullen w) (w_pull w) (w_gpio w) (w_ds w) (if vthx_of t then Some (w_gpio w) else None) (r_irq r)).

(** ** Windows *)

Inductive window := WMux | WPullen | WPull | WGpio | WDs.
#[global] Instance window_eq_dec : EqDecision window.
Proof. solve_decision. Defined.

Definition addr (w : windows) (x : window) : option Z :=
  match x with
  | WMux => Some (w_mux w) | WPullen => Some (w_pullen w) | WPull => Some (w_pull w) | WGpio => Some (w_gpio w) | WDs => w_ds w
  end.

(** The window a register set is in, with the hook. *)
Definition window_of (h : hook) (t : meson_reg_type) : window :=
  match t, h with
  | REG_PULLEN, (NoHook | T5wHook) => WPullen
  | REG_PULL, (NoHook | T5wHook) => WPull
  | REG_DS, (NoHook | AobusHook) => WDs
  | REG_DS, T5wHook => WMux
  | _, _ => WGpio
  end.

(** Registers reached in a window: less than two KiB. *)
Definition span : Z := 0x800.

(** Different windows a controller uses do not overlap. *)
Definition windows_apart (h : hook) (w : windows) : Prop :=
  forall t u a b, window_of h t <> window_of h u -> addr w (window_of h t) = Some a -> addr w (window_of h u) = Some b ->
  a + span <= b \/ b + span <= a.

Definition at_zero (ds : bool) : windows := Windows 0 0 0 0 (if ds then Some 0 else None).
Definition nothing : rest := Rest [] [] [] [] true.

(** A setting is where it is in a window at 0, moved. *)
Lemma pin_parm_window t r w ds pin ty :
  (w_ds w <> None -> ds = true) ->
  pin_parm (table_pc t r w) pin ty =
  (a ← addr w (window_of (table_of t).1.2 ty); parm_move a <$> pin_parm (table_pc t nothing (at_zero ds)) pin ty).
Proof.
  intros Hds. unfold pin_parm.
  assert (Hb : forall r w, meson_get_bank (table_pc t r w) pin = bank_loop (table_of t).1.1 pin).
  { intros r0 w0. unfold meson_get_bank, table_pc. by destruct (table_of t).1.2. }
  assert (Hbase : forall r w, base_of (table_pc t r w) ty =
    if decide (ty = REG_VTHX /\ vthx_of t = false) then None else addr w (window_of (table_of t).1.2 ty)).
  { intros r0 w0. unfold table_pc. destruct (table_of t).1.2, ty, (vthx_of t); cbn; try done; case_decide; naive_solver. }
  rewrite !Hb, !Hbase. clear Hb Hbase. destruct (bank_loop _ pin) as [b|]; [|by destruct (addr w _)].
  destruct (meson_calc_reg_and_bit b pin ty) as [reg bit]. case_decide; [by destruct (addr w _)|].
  destruct (addr w _) as [a|] eqn:Ea; [|done].
  assert (addr (at_zero ds) (window_of (table_of t).1.2 ty) = Some 0) as ->.
  { destruct (window_of _ ty); cbn in *; try done. by rewrite Hds by congruence. }
  cbn [mbind option_bind fmap option_fmap option_map]. unfold parm_move. cbn [reg_off Regmap.shift width]. by rewrite Z.add_0_l.
Qed.

(** ** What the tables are checked for *)

(** The fields in one window. *)
Definition fields_in (t : table) (ds : bool) (x : window) : list (Z * meson_reg_type * parm) :=
  List.filter (fun f => bool_decide (window_of (table_of t).1.2 f.1.2 = x)) (layout_fields (table_pc t nothing (at_zero ds))).
Definition apart_okb (t : table) (ds : bool) : bool :=
  forallb (fun x => fields_okb (snd <$> fields_in t ds x)) [WMux; WPullen; WPull; WGpio; WDs] &&
  forallb (fun f => (0 <=? reg_off f.2) && (reg_off f.2 <? span)) (layout_fields (table_pc t nothing (at_zero ds))).

(** Tables that put two settings in one bit. *)
Definition overlapping (t : table) : bool :=
  match t with
  | C3_analog | T3_analog | T3X_analog | T5D_analog | T5M_analog | T5W_analog | TM2_testn => true
  | _ => false
  end.

Lemma tables_checked t ds : overlapping t = false -> (ds = true -> (table_of t).2 = true) -> apart_okb t ds = true.
Proof.
  intros Ho Hd. destruct t as [i| | | | | | | | | | | | | | | | | | | |]; try discriminate Ho; [destruct i|..];
    destruct ds; try (by vm_compute); discriminate (Hd eq_refl).
Qed.

(** Two settings that share a bit: pins, register sets. *)
Definition shared (t : table) : (Z * meson_reg_type) * (Z * meson_reg_type) :=
  match t with
  | C3_analog => ((0, REG_DS), (1, REG_OUT))
  | T3_analog => ((0, REG_PULLEN), (0, REG_OUT))
  | TM2_testn => ((0, REG_DS), (0, REG_PULLEN))
  | _ => ((0, REG_PULLEN), (1, REG_PULL))
  end.

Lemma shared_checked t : overlapping t = true ->
  exists f g, pin_parm (table_pc t nothing (at_zero true)) (shared t).1.1 (shared t).1.2 = Some f /\
    pin_parm (table_pc t nothing (at_zero true)) (shared t).2.1 (shared t).2.2 = Some g /\
    window_of (table_of t).1.2 (shared t).1.2 = WGpio /\ window_of (table_of t).1.2 (shared t).2.2 = WGpio /\
    (reg_off f =? reg_off g) && (Regmap.shift f <? Regmap.shift g + width g) && (Regmap.shift g <? Regmap.shift f + width f) = true /\
    bool_decide ((shared t).1 = (shared t).2) = false.
Proof. destruct t; intros Ho; try discriminate Ho; do 2 eexists; by vm_compute. Qed.

(** ** Properties *)

Section Properties.
Context {R : Type} `{RegmapOk R}.

Lemma fields_apart t r w p q ty u f g : overlapping t = false -> windows_apart (table_of t).1.2 w ->
  (w_ds w <> None -> (table_of t).2 = true) ->
  pin_parm (table_pc t r w) p ty = Some f -> pin_parm (table_pc t r w) q u = Some g -> (p, ty) <> (q, u) -> parm_disjoint f g.
Proof.
  intros Ho Hw Hds. set (ds := bool_decide (is_Some (w_ds w))).
  assert (Hd : w_ds w <> None -> ds = true) by (intros Hx; apply bool_decide_eq_true, not_eq_None_Some, Hx).
  assert (Hok : apart_okb t ds = true).
  { apply tables_checked; [done|]. intros Hx%bool_decide_eq_true. by apply Hds, not_eq_None_Some. }
  rewrite !(pin_parm_window t r w ds) by done. set (h := (table_of t).1.2) in *.
  intros (a & Ea & (f0 & Hf & ->)%fmap_Some)%bind_Some (b & Eb & (g0 & Hg & ->)%fmap_Some)%bind_Some Hne.
  apply layout_fields_complete in Hf, Hg. unfold apart_okb in Hok. apply andb_prop in Hok as [Hwin Hoff].
  destruct (decide (window_of h ty = window_of h u)) as [E|E].
  - rewrite <- E in Eb. assert (b = a) as -> by congruence. apply parm_move_disjoint.
    rewrite forallb_forall in Hwin. specialize (Hwin (window_of h ty)).
    apply (fields_okb_disjoint (fields_in t ds (window_of h ty)) (p, ty, f0) (q, u, g0)); [|unfold fields_in; apply list_elem_of_In, List.filter_In; rewrite <- list_elem_of_In..|congruence].
    + apply Hwin. destruct (window_of h ty); cbn; auto 10.
    + split; [done|]. by apply bool_decide_eq_true.
    + split; [done|]. by apply bool_decide_eq_true.
  - left. rewrite forallb_forall in Hoff. pose proof (Hoff _ (proj1 (list_elem_of_In _ _) Hf)) as H1.
    pose proof (Hoff _ (proj1 (list_elem_of_In _ _) Hg)) as H2. cbn in H1, H2. b2p.
    specialize (Hw ty u a b E Ea Eb). unfold parm_move. cbn. lia.
Qed.

End Properties.


End PinBanks.
