(* ===== verification/IrqGpio.v ===== *)
(** * The GPIO interrupt multiplexer (src/drivers/gpio/irqchip/irq-meson-gpio.c)

    A few channels to the parent interrupt controller are shared by all pins:
    a channel has a field that selects its pin and bits that select the
    trigger.  The state is the registers, the bitmap of channels in use and
    the interrupts that the domain has mapped, each with its hwirq and its
    channel; the parent controller is a parameter of the operations that call
    it.

    The theorems: through any sequence of mappings, releases and trigger
    changes every mapped interrupt owns one channel, which is routed to its
    pin; a mapping fails with -ENOSPC exactly when all channels are in use;
    the trigger programmed is the one requested, on the families whose code
    clears the old one; and a suspend cycle restores the registers. *)

From S2P Require Import Prelude Regmap RegBits.
From stdpp Require Import base numbers gmap list.

Local Open Scope Z_scope.
Local Open Scope cint_scope.

Module IrqGpio.

Definition ENOSPC : Z := 28.

Definition REG_EDGE_POL : Z := 0x00.
Definition REG_PIN_03_SEL : Z := 0x04.
Definition REG_PIN_47_SEL : Z := 0x08.
Definition REG_EDGE_POL_EXTR : Z := 0x1c.
Definition REG_PIN_SEL_SHIFT (x : Z) : Z := (x mod 4) * 8.
Definition REG_EDGE_POL_MASK_SC2 (x : Z) : Z := u32 (BIT x) .| u32 (BIT (12 + x)).

Definition IRQ_TYPE_EDGE_RISING : Z := 1.
Definition IRQ_TYPE_EDGE_FALLING : Z := 2.
Definition IRQ_TYPE_EDGE_BOTH : Z := 3.
Definition IRQ_TYPE_LEVEL_HIGH : Z := 4.
Definition IRQ_TYPE_LEVEL_LOW : Z := 8.
Definition IRQ_TYPE_SENSE_MASK : Z := 0xf.

(** The functions that fill struct irq_ctl_ops. *)
Inductive sel_pin_op := meson8_sel_pin | meson_a1_sel_pin.
Inductive init_op := init_dummy | meson_a1_init.
Inductive sel_type_op := meson_sc2_sel_type | meson_p1_sel_type.

Record meson_gpio_irq_params := Params {
  nr_hwirq : Z;
  support_edge_both : bool;
  edge_both_offset : Z;
  edge_single_offset : Z;
  pol_low_offset : Z;
  pin_sel_mask : Z;
  gpio_irq_sel_pin : sel_pin_op;
  gpio_irq_init : init_op;
  gpio_irq_sel_type : option sel_type_op;     (* None: NULL *)
  pin_sel_reg_base : Z;
  edge_sel_reg : Z;
  pol_low_sel_reg : Z;
  both_sel_reg : Z;
  channel_num : Z;
}.

(** [both]: support_edge_both with edge_both_offset = 8, as the newer users of
    the macro add. *)
Definition INIT_MESON8_COMMON_DATA (irqs : Z) (both : bool) : meson_gpio_irq_params :=
  Params irqs both (if both then 8 else 0) 0 16 0xff meson8_sel_pin init_dummy None 0 0 0 0 8.
Definition INIT_MESON_A1_COMMON_DATA (irqs : Z) : meson_gpio_irq_params :=
  Params irqs true 16 8 0 0x7f meson_a1_sel_pin meson_a1_init None 0x04 0 0 0 8.
Definition INIT_MESON_SC2_COMMON_DATA (irqs : Z) : meson_gpio_irq_params :=
  Params irqs true 0 12 0 0xff meson_a1_sel_pin meson_a1_init (Some meson_sc2_sel_type) 0x04 0 0 0 12.
Definition INIT_MESON_P1_COMMON_DATA (irqs : Z) : meson_gpio_irq_params :=
  Params irqs true 0 0 0 0xff meson_a1_sel_pin meson_a1_init (Some meson_p1_sel_type) 0x10 0x04 0x08 0x0c 32.

(** What the domain keeps of a mapped interrupt. *)
Record irq_data := IrqData { hwirq : Z; channel : Z }.

Record irq_fwspec := Fwspec { is_of_node : bool; param_count : Z; fw_param : Z * Z }.

Section Ops.
Context {R : Type} `{Regmap R}.

(** struct meson_gpio_irq_controller *)
Record meson_gpio_irq_controller := Ctl {
  params : meson_gpio_irq_params;
  base : Z;
  channel_irqs : list Z;
  regs : R;
  channel_map : Z;
  shadow : list Z;
  shadow_size : Z;
}.
Implicit Types (ctl : meson_gpio_irq_controller).

Definition set_regs ctl (m : R) : meson_gpio_irq_controller :=
  Ctl (params ctl) (base ctl) (channel_irqs ctl) m (channel_map ctl) (shadow ctl) (shadow_size ctl).
Definition set_map ctl (m : Z) : meson_gpio_irq_controller :=
  Ctl (params ctl) (base ctl) (channel_irqs ctl) (regs ctl) m (shadow ctl) (shadow_size ctl).
Definition set_shadow ctl (l : list Z) : meson_gpio_irq_controller :=
  Ctl (params ctl) (base ctl) (channel_irqs ctl) (regs ctl) (channel_map ctl) l (shadow_size ctl).

Definition meson_gpio_irq_update_bits ctl (reg mask val : Z) : meson_gpio_irq_controller :=
  let tmp := readl (regs ctl) (base ctl + reg) in
  let tmp := tmp .& u32 (Z.lnot mask) in
  let tmp := tmp .| val in
  set_regs ctl (writel (regs ctl) tmp (base ctl + reg)).

Definition meson8_gpio_irq_sel_pin ctl (channel hwirq : Z) : meson_gpio_irq_controller :=
  let reg_offset := if channel <? 4 then REG_PIN_03_SEL else REG_PIN_47_SEL in
  let bit_offset := REG_PIN_SEL_SHIFT channel in
  meson_gpio_irq_update_bits ctl reg_offset (u32 (pin_sel_mask (params ctl) << bit_offset)) (u32 (hwirq << bit_offset)).

Definition meson_a1_gpio_irq_sel_pin ctl (channel hwirq : Z) : meson_gpio_irq_controller :=
  let bit_offset := if channel mod 2 =? 0 then 0 else 16 in
  let reg_offset := pin_sel_reg_base (params ctl) + ((channel / 2) << 2) in
  meson_gpio_irq_update_bits ctl reg_offset (u32 (pin_sel_mask (params ctl) << bit_offset)) (u32 (hwirq << bit_offset)).

Definition sel_pin ctl (channel hwirq : Z) : meson_gpio_irq_controller :=
  match gpio_irq_sel_pin (params ctl) with
  | meson8_sel_pin => meson8_gpio_irq_sel_pin ctl channel hwirq
  | meson_a1_sel_pin => meson_a1_gpio_irq_sel_pin ctl channel hwirq
  end.

Definition meson_a1_gpio_irq_init ctl : meson_gpio_irq_controller :=
  meson_gpio_irq_update_bits ctl REG_EDGE_POL (u32 (BIT 31)) (u32 (BIT 31)).

Definition meson_sc2_gpio_irq_sel_type ctl (idx type : Z) : meson_gpio_irq_controller * Z :=
  let p := params ctl in
  let ctl := meson_gpio_irq_update_bits ctl REG_EDGE_POL_EXTR (u32 (BIT (0 + idx))) 0 in
  if type =? IRQ_TYPE_EDGE_BOTH then
    let val := u32 (BIT (edge_both_offset p + idx)) in
    (meson_gpio_irq_update_bits ctl REG_EDGE_POL_EXTR (u32 (BIT (edge_both_offset p + idx))) val, 0)
  else
    let val := 0 in
    let val := if truthy (type .& (IRQ_TYPE_LEVEL_LOW .| IRQ_TYPE_EDGE_FALLING))
               then val .| u32 (BIT (pol_low_offset p + idx)) else val in
    let val := if truthy (type .& (IRQ_TYPE_EDGE_RISING .| IRQ_TYPE_EDGE_FALLING))
               then val .| u32 (BIT (edge_single_offset p + idx)) else val in
    (meson_gpio_irq_update_bits ctl REG_EDGE_POL (REG_EDGE_POL_MASK_SC2 idx) val, 0).

Definition meson_p1_gpio_irq_sel_type ctl (idx type : Z) : meson_gpio_irq_controller * Z :=
  let p := params ctl in
  let ctl := meson_gpio_irq_update_bits ctl (both_sel_reg p) (u32 (BIT (0 + idx))) 0 in
  if type =? IRQ_TYPE_EDGE_BOTH then
    let val := u32 (BIT (edge_both_offset p + idx)) in
    (meson_gpio_irq_update_bits ctl (both_sel_reg p) (u32 (BIT (edge_both_offset p + idx))) val, 0)
  else
    let ctl := if truthy (type .& (IRQ_TYPE_LEVEL_LOW .| IRQ_TYPE_EDGE_FALLING))
               then meson_gpio_irq_update_bits ctl (pol_low_sel_reg p) (u32 (BIT idx)) (u32 (BIT (pol_low_offset p + idx)))
               else ctl in
    let ctl := if truthy (type .& (IRQ_TYPE_EDGE_RISING .| IRQ_TYPE_EDGE_FALLING))
               then meson_gpio_irq_update_bits ctl (edge_sel_reg p) (u32 (BIT idx)) (u32 (BIT (edge_single_offset p + idx)))
               else ctl in
    (ctl, 0).

(** The channel found, or the error. *)
Definition meson_gpio_irq_request_channel ctl (hwirq : Z) : meson_gpio_irq_controller * (Z + Z) :=
  let idx := find_first_zero_bit (channel_map ctl) (channel_num (params ctl)) in
  if channel_num (params ctl) <=? idx then (ctl, inr (- ENOSPC))
  else
    let ctl := set_map ctl (Z.setbit (channel_map ctl) idx) in
    (sel_pin ctl idx hwirq, inl idx).

Definition meson_gpio_irq_release_channel ctl (idx : Z) : meson_gpio_irq_controller :=
  set_map ctl (Z.clearbit (channel_map ctl) idx).

Definition REG_EDGE_POL_MASK (p : meson_gpio_irq_params) (x : Z) : Z :=
  (u32 (BIT (edge_single_offset p + x)) .| u32 (BIT (pol_low_offset p + x))) .| u32 (BIT (edge_both_offset p + x)).

Definition meson_gpio_irq_type_setup ctl (type idx : Z) : meson_gpio_irq_controller * Z :=
  let p := params ctl in
  let type := type .& IRQ_TYPE_SENSE_MASK in
  match gpio_irq_sel_type p with
  | Some meson_sc2_sel_type => meson_sc2_gpio_irq_sel_type ctl idx type
  | Some meson_p1_sel_type => meson_p1_gpio_irq_sel_type ctl idx type
  | None =>
      if (type =? IRQ_TYPE_EDGE_BOTH) && negb (support_edge_both p) then (ctl, - EINVAL)
      else
        let val :=
          if type =? IRQ_TYPE_EDGE_BOTH then u32 (BIT (edge_both_offset p + idx))
          else
            let val := if truthy (type .& (IRQ_TYPE_EDGE_RISING .| IRQ_TYPE_EDGE_FALLING))
                       then u32 (BIT (edge_single_offset p + idx)) else 0 in
            if truthy (type .& (IRQ_TYPE_LEVEL_LOW .| IRQ_TYPE_EDGE_FALLING))
            then val .| u32 (BIT (pol_low_offset p + idx)) else val in
        (meson_gpio_irq_update_bits ctl REG_EDGE_POL (REG_EDGE_POL_MASK p idx) val, 0)
  end.

Definition meson_gpio_irq_type_output (type : Z) : Z :=
  let sense := type .& IRQ_TYPE_SENSE_MASK in
  let type := type .& u32 (Z.lnot IRQ_TYPE_SENSE_MASK) in
  if truthy (sense .& (IRQ_TYPE_LEVEL_HIGH .| IRQ_TYPE_LEVEL_LOW)) then type .| IRQ_TYPE_LEVEL_HIGH
  else type .| IRQ_TYPE_EDGE_RISING.

(** [irq_chip_set_type_parent] of the parent controller. *)
Definition meson_gpio_irq_set_type (irq_chip_set_type_parent : Z -> Z) ctl (data : irq_data) (type : Z)
  : meson_gpio_irq_controller * Z :=
  let '(ctl, ret) := meson_gpio_irq_type_setup ctl type (channel data) in
  if truthy ret then (ctl, ret) else (ctl, irq_chip_set_type_parent (meson_gpio_irq_type_output type)).

(** (hwirq, type), or -EINVAL. *)
Definition meson_gpio_irq_domain_translate (fw : irq_fwspec) : (Z * Z) + Z :=
  if is_of_node fw && (param_count fw =? 2) then inl (fw_param fw) else inr (- EINVAL).

(** [irq_domain_alloc_irqs_parent] gets the fwspec (0, hwirq, type). *)
Definition meson_gpio_irq_allocate_gic_irq (irq_domain_alloc_irqs_parent : Z * Z * Z -> Z) (hwirq type : Z) : Z :=
  irq_domain_alloc_irqs_parent (0, hwirq, meson_gpio_irq_type_output type).

(** The controller with the interrupts of the domain. *)
Definition irq_domain : Type := meson_gpio_irq_controller * gmap Z irq_data.

Definition meson_gpio_irq_domain_alloc (irq_domain_alloc_irqs_parent : Z * Z * Z -> Z) (d : irq_domain)
    (virq nr_irqs : Z) (fw : irq_fwspec) : irq_domain * Z :=
  let '(ctl, irqs) := d in
  if negb (nr_irqs =? 1) then (d, - EINVAL)
  else
    match meson_gpio_irq_domain_translate fw with
    | inr ret => (d, ret)
    | inl (hw, type) =>
        let '(ctl, r) := meson_gpio_irq_request_channel ctl hw in
        match r with
        | inr ret => ((ctl, irqs), ret)
        | inl ch =>
            let ret := meson_gpio_irq_allocate_gic_irq irq_domain_alloc_irqs_parent
                         (channel_irqs ctl !!! Z.to_nat ch) type in
            if ret <? 0 then ((meson_gpio_irq_release_channel ctl ch, irqs), ret)
            else ((ctl, <[virq := IrqData hw ch]> irqs), 0)
        end
    end.

(** The core drops the data of the interrupt after the call; an interrupt that
    is not mapped is never freed. *)
Definition meson_gpio_irq_domain_free (d : irq_domain) (virq nr_irqs : Z) : irq_domain :=
  let '(ctl, irqs) := d in
  if negb (nr_irqs =? 1) then d
  else
    match irqs !! virq with
    | None => d
    | Some data => (meson_gpio_irq_release_channel ctl (channel data), delete virq irqs)
    end.

(** What meson_gpio_irq_parse_dt sets up. *)
Definition meson_gpio_irq_parse_dt (p : meson_gpio_irq_params) (base_ : Z) (irqs : list Z) (m : R)
  : meson_gpio_irq_controller :=
  let ctl := Ctl p base_ irqs m 0 [] 0 in
  match gpio_irq_init p with init_dummy => ctl | meson_a1_init => meson_a1_gpio_irq_init ctl end.

(** The loops over index = 0, 4, ... below shadow_size. *)
Definition shadow_words ctl : nat := Z.to_nat ((shadow_size ctl + 3) / 4).
Definition meson_gpio_irq_freeze ctl : meson_gpio_irq_controller * Z :=
  (set_shadow ctl (fmap (fun i => readl (regs ctl) (base ctl + 4 * Z.of_nat i)) (seq 0 (shadow_words ctl))), 0).
Definition meson_gpio_irq_restore ctl : meson_gpio_irq_controller * Z :=
  (set_regs ctl (foldl (fun m i => writel m (shadow ctl !!! i) (base ctl + 4 * Z.of_nat i)) (regs ctl)
                   (seq 0 (shadow_words ctl))), 0).
End Ops.
#[global] Arguments meson_gpio_irq_controller : clear implicits.
#[global] Arguments irq_domain : clear implicits.

(** ** The families of controllers *)

(** The four layouts the code initialises; hwirqs fit the selection fields. *)
Inductive family : meson_gpio_irq_params -> Prop :=
  | fam_meson8 n both : 0 <= n <= 0x100 -> family (INIT_MESON8_COMMON_DATA n both)
  | fam_a1 n : 0 <= n <= 0x80 -> family (INIT_MESON_A1_COMMON_DATA n)
  | fam_sc2 n : 0 <= n <= 0x100 -> family (INIT_MESON_SC2_COMMON_DATA n)
  | fam_p1 n : 0 <= n <= 0x100 -> family (INIT_MESON_P1_COMMON_DATA n).

(** The field that selects the pin of a channel. *)
Definition sel_field (p : meson_gpio_irq_params) (base : Z) (ch : Z) : parm :=
  let w := Z.log2 (pin_sel_mask p + 1) in
  match gpio_irq_sel_pin p with
  | meson8_sel_pin => Parm (base + (if ch <? 4 then REG_PIN_03_SEL else REG_PIN_47_SEL)) (REG_PIN_SEL_SHIFT ch) w
  | meson_a1_sel_pin => Parm (base + (pin_sel_reg_base p + ((ch / 2) << 2))) (if ch mod 2 =? 0 then 0 else 16) w
  end.

(** The registers with trigger bits. *)
Definition type_regs (p : meson_gpio_irq_params) : list Z :=
  match gpio_irq_sel_type p with
  | None => [REG_EDGE_POL]
  | Some meson_sc2_sel_type => [REG_EDGE_POL; REG_EDGE_POL_EXTR]
  | Some meson_p1_sel_type => [edge_sel_reg p; pol_low_sel_reg p; both_sel_reg p]
  end.

Lemma family_mask p : family p ->
  exists w, 0 < w <= 8 /\ pin_sel_mask p = (1 << w) - 1 /\ Z.log2 (pin_sel_mask p + 1) = w /\
    0 <= nr_hwirq p <= 2 ^ w /\ 0 <= channel_num p <= 32.
Proof.
  intros [n both Hn|n Hn|n Hn|n Hn]; [exists 8|exists 7|exists 8|exists 8]; cbn -[Z.log2];
    (split; [lia|]; split; [done|]; split; [by vm_compute|]; lia).
Qed.

Ltac div4 := rewrite ?Z.shiftl_mul_pow2 in * by lia; change (2 ^ 2) with 4 in *;
  Z.to_euclidean_division_equations; lia.

Ltac unfold_log2 :=
  match goal with |- context [Z.log2 ?x] => let v := eval vm_compute in (Z.log2 x) in change (Z.log2 x) with v end.
Ltac not_type :=
  split; [reflexivity|]; split; [div4|];
  repeat (apply not_elem_of_cons; split; [div4|]); apply not_elem_of_nil.

Lemma sel_field_wf p base ch :
  family p -> 0 <= ch < channel_num p ->
  parm_wf (sel_field p base ch) /\
  exists r, reg_off (sel_field p base ch) = base + r /\ 0 <= r < 0x100 /\ r ∉ type_regs p.
Proof.
  intros Hf Hch. unfold parm_wf. destruct Hf as [n both Hn|n Hn|n Hn|n Hn];
    unfold sel_field, REG_PIN_SEL_SHIFT, type_regs, REG_PIN_03_SEL, REG_PIN_47_SEL, REG_EDGE_POL, REG_EDGE_POL_EXTR;
    cbn -[Z.log2 Z.shiftl Z.modulo Z.div Z.mul] in *.
  - split; [unfold_log2; div4|]. destruct (ch <? 4); eexists; not_type.
  - split; [unfold_log2; destruct (ch mod 2 =? 0); lia|]. eexists; not_type.
  - split; [unfold_log2; destruct (ch mod 2 =? 0); lia|]. eexists; not_type.
  - split; [unfold_log2; destruct (ch mod 2 =? 0); lia|]. eexists; not_type.
Qed.

Lemma sel_field_disjoint p base i j :
  family p -> 0 <= i < channel_num p -> 0 <= j < channel_num p -> i <> j ->
  parm_disjoint (sel_field p base i) (sel_field p base j).
Proof.
  intros Hf Hi Hj Hij. unfold parm_disjoint. destruct Hf as [n both Hn|n Hn|n Hn|n Hn];
    unfold sel_field, REG_PIN_SEL_SHIFT, REG_PIN_03_SEL, REG_PIN_47_SEL; cbn -[Z.log2 Z.shiftl Z.modulo Z.div Z.mul] in *;
    unfold_log2.
  1: destruct (Z.ltb_spec i 4), (Z.ltb_spec j 4); div4.
  all: destruct (Z.eqb_spec (i mod 2) 0), (Z.eqb_spec (j mod 2) 0); div4.
Qed.

(** ** Effects on the registers *)

Section Effects.
Context {R : Type} `{RegmapOk R}.
Implicit Types (ctl : meson_gpio_irq_controller R).

(** The registers of the controller change by writes only. *)
Definition quiet (base : Z) : Prop := forall r b, 0 <= r < 0x100 -> volatile (base + r) b = false.

Lemma update_bits_bit ctl reg mask val r b :
  quiet (base ctl) -> 0 <= r < 0x100 -> 0 <= b < 32 ->
  rbit (regs (meson_gpio_irq_update_bits ctl reg mask val)) (base ctl + r) b =
  if decide (r = reg) then rbit (regs ctl) (base ctl + r) b && negb (Z.testbit mask b) || Z.testbit val b
  else rbit (regs ctl) (base ctl + r) b.
Proof.
  intros Hq Hr Hb. unfold meson_gpio_irq_update_bits. cbn [regs set_regs]. rewrite writel_bit by auto.
  destruct (decide (r = reg)) as [->|Hne].
  - rewrite decide_True by done. rewrite Z.lor_spec, Z.land_spec. unfold u32.
    by rewrite Z.mod_pow2_bits_low, Z.lnot_spec by lia.
  - by rewrite decide_False by lia.
Qed.

(** A field outside the register, or outside the mask and the value. *)
Lemma update_bits_other ctl reg mask val f r :
  quiet (base ctl) -> parm_wf f -> reg_off f = base ctl + r -> 0 <= r < 0x100 ->
  (r = reg -> forall b, Regmap.shift f <= b < Regmap.shift f + width f ->
    Z.testbit mask b = false /\ Z.testbit val b = false) ->
  meson_parm_read (regs (meson_gpio_irq_update_bits ctl reg mask val)) f = meson_parm_read (regs ctl) f.
Proof.
  intros Hq Hf Hr Hrange Hout. pose proof Hf as (Hs & Hw & Hsum). apply Z.bits_inj'. intros i Hi.
  rewrite !parm_read_bit by done. destruct (Z.ltb_spec i (width f)); cbn [andb]; [|done].
  change (rbit (regs (meson_gpio_irq_update_bits ctl reg mask val)) (reg_off f) (i + Regmap.shift f)
          = rbit (regs ctl) (reg_off f) (i + Regmap.shift f)).
  rewrite Hr, update_bits_bit by (done || lia). case_decide as Hd; [|done].
  destruct (Hout Hd (i + Regmap.shift f) ltac:(lia)) as [-> ->].
  by rewrite andb_true_r, orb_false_r.
Qed.

Lemma field_mask_bit w s b :
  0 < w -> 0 <= s -> s + w <= 32 -> 0 <= b ->
  Z.testbit (u32 (((1 << w) - 1) << s)) b = (s <=? b) && (b <? s + w).
Proof.
  intros. rewrite ones_mask by lia. unfold SETPMASK, u32. destruct (Z.ltb_spec b 32).
  - rewrite Z.mod_pow2_bits_low, GENMASK_testbit by lia.
    destruct (Z.leb_spec s b), (Z.leb_spec b (s + w - 1)), (Z.ltb_spec b (s + w)); done || lia.
  - rewrite Z.mod_pow2_bits_high by lia. destruct (Z.leb_spec s b), (Z.ltb_spec b (s + w)); done || lia.
Qed.

Lemma field_val_bit v w s b :
  0 < w -> 0 <= s -> s + w <= 32 -> 0 <= v < 2 ^ w -> 0 <= b ->
  Z.testbit (u32 (v << s)) b = (s <=? b) && (b <? s + w) && Z.testbit v (b - s).
Proof.
  intros Hw Hs Hsw Hv Hb. assert (0 <= v << s < 2 ^ 32).
  { rewrite Z.shiftl_mul_pow2 by lia. split; [apply Z.mul_nonneg_nonneg; lia|].
    apply Z.lt_le_trans with (2 ^ w * 2 ^ s); [apply Z.mul_lt_mono_pos_r; lia|].
    rewrite <- Z.pow_add_r by lia. apply Z.pow_le_mono_r; lia. }
  rewrite u32_small by lia. rewrite Z.shiftl_spec by lia.
  destruct (Z.leb_spec s b); cbn [andb]; [|apply Z.testbit_neg_r; lia].
  destruct (Z.ltb_spec b (s + w)); cbn [andb]; [done|]. apply (testbit_above _ w); lia.
Qed.

(** Writing a whole field. *)
Lemma update_bits_field ctl reg s w v :
  quiet (base ctl) -> 0 <= reg < 0x100 -> 0 < w -> 0 <= s -> s + w <= 32 -> 0 <= v < 2 ^ w ->
  meson_parm_read (regs (meson_gpio_irq_update_bits ctl reg (u32 (((1 << w) - 1) << s)) (u32 (v << s))))
    (Parm (base ctl + reg) s w) = v.
Proof.
  intros Hq Hr Hw Hs Hsw Hv. assert (Hf : parm_wf (Parm (base ctl + reg) s w)) by (unfold parm_wf; cbn; lia).
  apply Z.bits_inj'. intros i Hi. rewrite parm_read_bit by done. cbn [reg_off Regmap.shift width].
  destruct (Z.ltb_spec i w); cbn [andb]; [|symmetry; apply (testbit_above _ w); lia].
  change (rbit (regs (meson_gpio_irq_update_bits ctl reg (u32 (((1 << w) - 1) << s)) (u32 (v << s))))
            (base ctl + reg) (i + s) = Z.testbit v i).
  rewrite update_bits_bit, decide_True by (done || lia).
  rewrite field_mask_bit, (field_val_bit v w) by lia.
  rewrite (proj2 (Z.leb_le _ _)), (proj2 (Z.ltb_lt _ _)) by lia. cbn. rewrite andb_false_r. cbn. f_equal. lia.
Qed.

Lemma sel_pin_route ctl ch hw :
  family (params ctl) -> quiet (base ctl) -> 0 <= ch < channel_num (params ctl) -> 0 <= hw < nr_hwirq (params ctl) ->
  let ctl' := sel_pin ctl ch hw in
  meson_parm_read (regs ctl') (sel_field (params ctl) (base ctl) ch) = hw /\
  forall j, 0 <= j < channel_num (params ctl) -> j <> ch ->
    meson_parm_read (regs ctl') (sel_field (params ctl) (base ctl) j)
    = meson_parm_read (regs ctl) (sel_field (params ctl) (base ctl) j).
Proof.
  intros Hf Hq Hch Hhw ctl'. destruct (family_mask _ Hf) as (w & Hw & Hm & Hl & Hn & _).
  destruct (sel_field_wf _ (base ctl) ch Hf Hch) as ((Hs & _ & Hsw) & r & Hr & Hrange & _).
  assert (E : ctl' = meson_gpio_irq_update_bits ctl r
    (u32 (((1 << w) - 1) << Regmap.shift (sel_field (params ctl) (base ctl) ch)))
    (u32 (hw << Regmap.shift (sel_field (params ctl) (base ctl) ch)))).
  { unfold ctl', sel_pin, meson8_gpio_irq_sel_pin, meson_a1_gpio_irq_sel_pin, sel_field in *. rewrite Hm.
    destruct (gpio_irq_sel_pin (params ctl)); cbn [Regmap.shift reg_off] in *; f_equal; lia. }
  assert (Ew : width (sel_field (params ctl) (base ctl) ch) = w).
  { unfold sel_field. rewrite Hl. by destruct (gpio_irq_sel_pin (params ctl)). }
  rewrite Ew in *. split.
  - rewrite E. replace (sel_field (params ctl) (base ctl) ch)
      with (Parm (base ctl + r) (Regmap.shift (sel_field (params ctl) (base ctl) ch)) w) at 3.
    + apply update_bits_field; done || lia.
    + rewrite <- Ew, <- Hr. by destruct (sel_field (params ctl) (base ctl) ch).
  - intros j Hj Hne. destruct (sel_field_wf _ (base ctl) j Hf Hj) as (Wj & rj & Hrj & Hrj' & _).
    rewrite E. apply (update_bits_other _ _ _ _ _ rj); try done. intros -> b Hb.
    destruct (sel_field_disjoint _ (base ctl) ch j Hf Hch Hj ltac:(done)) as [Hd|Hd]; [lia|].
    destruct Wj as (? & ? & ?). rewrite field_mask_bit, (field_val_bit hw w) by lia. rewrite Ew in Hd.
    destruct (Z.leb_spec (Regmap.shift (sel_field (params ctl) (base ctl) ch)) b),
      (Z.ltb_spec b (Regmap.shift (sel_field (params ctl) (base ctl) ch) + w)); (done || lia).
Qed.

(** *** Triggers *)

(** Register and bit of the first channel for both edges, edge and low
    polarity. *)
Definition both_at (p : meson_gpio_irq_params) : Z * Z :=
  (match gpio_irq_sel_type p with
   | None => REG_EDGE_POL | Some meson_sc2_sel_type => REG_EDGE_POL_EXTR | Some meson_p1_sel_type => both_sel_reg p
   end, edge_both_offset p).
Definition edge_at (p : meson_gpio_irq_params) : Z * Z :=
  (match gpio_irq_sel_type p with Some meson_p1_sel_type => edge_sel_reg p | _ => REG_EDGE_POL end,
   edge_single_offset p).
Definition pol_at (p : meson_gpio_irq_params) : Z * Z :=
  (match gpio_irq_sel_type p with Some meson_p1_sel_type => pol_low_sel_reg p | _ => REG_EDGE_POL end,
   pol_low_offset p).
Definition ctl_bit ctl (at_ : Z * Z) (ch : Z) : bool := rbit (regs ctl) (base ctl + at_.1) (at_.2 + ch).

(** The trigger the hardware uses for a channel. *)
Definition trigger ctl (ch : Z) : Z :=
  let p := params ctl in
  if support_edge_both p && ctl_bit ctl (both_at p) ch then IRQ_TYPE_EDGE_BOTH
  else
    match ctl_bit ctl (edge_at p) ch, ctl_bit ctl (pol_at p) ch with
    | true, true => IRQ_TYPE_EDGE_FALLING
    | true, false => IRQ_TYPE_EDGE_RISING
    | false, true => IRQ_TYPE_LEVEL_LOW
    | false, false => IRQ_TYPE_LEVEL_HIGH
    end.

Definition senses : list Z :=
  [IRQ_TYPE_EDGE_RISING; IRQ_TYPE_EDGE_FALLING; IRQ_TYPE_EDGE_BOTH; IRQ_TYPE_LEVEL_HIGH; IRQ_TYPE_LEVEL_LOW].

(** Only trigger registers are written. *)
Inductive type_writes ctl : meson_gpio_irq_controller R -> Prop :=
  | tw_refl : type_writes ctl ctl
  | tw_write ctl' reg mask val : type_writes ctl ctl' -> reg ∈ type_regs (params ctl) ->
      type_writes ctl (meson_gpio_irq_update_bits ctl' reg mask val).

Lemma type_writes_frame ctl ctl' :
  type_writes ctl ctl' -> family (params ctl) -> quiet (base ctl) ->
  params ctl' = params ctl /\ base ctl' = base ctl /\ channel_map ctl' = channel_map ctl /\
  channel_irqs ctl' = channel_irqs ctl /\
  forall j, 0 <= j < channel_num (params ctl) ->
    meson_parm_read (regs ctl') (sel_field (params ctl) (base ctl) j)
    = meson_parm_read (regs ctl) (sel_field (params ctl) (base ctl) j).
Proof.
  intros Hw Hf Hq. induction Hw as [|ctl' reg mask val Hw (Ep & Eb & Em & Ei & IH) Hin]; [done|].
  repeat (split; [done|]). intros j Hj. rewrite <- (IH j Hj).
  destruct (sel_field_wf _ (base ctl) j Hf Hj) as (Wj & r & Hr & Hrange & Hnot).
  apply (update_bits_other _ _ _ _ _ r); [by rewrite Eb|done|by rewrite Eb|done|]. intros ->. done.
Qed.

Ltac writes := repeat first [apply tw_refl | apply tw_write; [|apply (bool_decide_unpack _); vm_compute; exact I]].

Lemma type_setup_writes ctl type ch :
  family (params ctl) -> type_writes ctl (fst (meson_gpio_irq_type_setup ctl type ch)).
Proof.
  intros Hf. unfold meson_gpio_irq_type_setup, meson_sc2_gpio_irq_sel_type, meson_p1_gpio_irq_sel_type.
  destruct ctl as [p b ir m cm sh ss]. cbn [params] in *.
  destruct Hf; cbn [gpio_irq_sel_type INIT_MESON8_COMMON_DATA INIT_MESON_A1_COMMON_DATA INIT_MESON_SC2_COMMON_DATA
    INIT_MESON_P1_COMMON_DATA]; repeat (case_match; cbn [fst]); writes.
Qed.

Lemma update_bits_params ctl reg mask val :
  params (meson_gpio_irq_update_bits ctl reg mask val) = params ctl /\
  base (meson_gpio_irq_update_bits ctl reg mask val) = base ctl.
Proof. done. Qed.

(** A trigger bit after an update. *)
Lemma update_ctl_bit ctl reg mask val a ch :
  quiet (base ctl) -> 0 <= a.1 < 0x100 -> 0 <= a.2 + ch < 32 ->
  ctl_bit (meson_gpio_irq_update_bits ctl reg mask val) a ch =
  if decide (a.1 = reg) then ctl_bit ctl a ch && negb (Z.testbit mask (a.2 + ch)) || Z.testbit val (a.2 + ch)
  else ctl_bit ctl a ch.
Proof.
  intros. unfold ctl_bit. change (base (meson_gpio_irq_update_bits ctl reg mask val)) with (base ctl).
  by apply update_bits_bit.
Qed.

Ltac eval_truthy :=
  repeat match goal with |- context [truthy ?x] => let v := eval vm_compute in (truthy x) in change (truthy x) with v end;
  cbv iota.
Ltac solve_bit :=
  rewrite ?update_ctl_bit by (done || (cbn; lia)); cbn [fst snd];
  repeat (first [rewrite decide_True by done | rewrite decide_False by done]);
  rewrite ?Z.lor_spec, ?BIT_bit, ?Z.bits_0 by lia;
  repeat match goal with |- context [?x =? ?y] =>
    first [rewrite (proj2 (Z.eqb_eq x y)) by lia | rewrite (proj2 (Z.eqb_neq x y)) by lia] end;
  cbn [orb andb negb]; rewrite ?orb_true_r, ?orb_false_r, ?andb_true_r, ?andb_false_r; cbn [orb andb negb].
(** The trigger of a channel after the updates of a family. *)
Ltac solve_trigger Ep :=
  unfold trigger, both_at, edge_at, pol_at, REG_EDGE_POL_MASK, REG_EDGE_POL_MASK_SC2;
  rewrite !(proj1 (update_bits_params _ _ _ _)), <- !Ep;
  cbn [INIT_MESON8_COMMON_DATA INIT_MESON_A1_COMMON_DATA INIT_MESON_SC2_COMMON_DATA INIT_MESON_P1_COMMON_DATA
    support_edge_both gpio_irq_sel_type edge_both_offset edge_single_offset pol_low_offset both_sel_reg edge_sel_reg
    pol_low_sel_reg];
  case_decide; [subst|]; solve_bit; done.

Lemma type_setup_trigger ctl type ch j :
  family (params ctl) -> quiet (base ctl) -> gpio_irq_sel_type (params ctl) <> Some meson_p1_sel_type ->
  type .& IRQ_TYPE_SENSE_MASK ∈ senses ->
  0 <= ch < channel_num (params ctl) -> 0 <= j < channel_num (params ctl) ->
  let '(ctl', ret) := meson_gpio_irq_type_setup ctl type ch in
  (ret = 0 /\ trigger ctl' j = if decide (j = ch) then type .& IRQ_TYPE_SENSE_MASK else trigger ctl j) \/
  (ret = - EINVAL /\ ctl' = ctl /\ type .& IRQ_TYPE_SENSE_MASK = IRQ_TYPE_EDGE_BOTH /\
   support_edge_both (params ctl) = false).
Proof.
  intros Hf Hq Hp Ht Hch Hj. unfold meson_gpio_irq_type_setup. generalize dependent (type .& IRQ_TYPE_SENSE_MASK).
  intros t Ht. remember (params ctl) as p eqn:Ep. unfold meson_sc2_gpio_irq_sel_type. rewrite <- !Ep.
  unfold senses in Ht. rewrite !elem_of_cons, elem_of_nil in Ht.
  destruct Hf as [n both Hn|n Hn|n Hn|n Hn]; [| | |done];
    cbn [gpio_irq_sel_type support_edge_both channel_num INIT_MESON8_COMMON_DATA INIT_MESON_A1_COMMON_DATA
      INIT_MESON_SC2_COMMON_DATA edge_both_offset edge_single_offset pol_low_offset negb] in *;
    rewrite ?andb_false_r;
    destruct Ht as [-> | [-> | [-> | [-> | [-> | []]]]]];
    cbv [IRQ_TYPE_EDGE_RISING IRQ_TYPE_EDGE_FALLING IRQ_TYPE_EDGE_BOTH IRQ_TYPE_LEVEL_HIGH IRQ_TYPE_LEVEL_LOW];
    cbn [Z.eqb Pos.eqb andb]; eval_truthy.
  all: try destruct both; cbn [negb]; try (by right).
  all: left; split; [done|].
  all: solve_trigger Ep.
Qed.

(** The P1 code sets the bits of the new trigger but never clears the edge and
    polarity bits of the old one. *)
Lemma p1_type_setup_trigger ctl n type ch j :
  params ctl = INIT_MESON_P1_COMMON_DATA n -> quiet (base ctl) -> type .& IRQ_TYPE_SENSE_MASK ∈ senses ->
  ctl_bit ctl (edge_at (params ctl)) ch = false -> ctl_bit ctl (pol_at (params ctl)) ch = false ->
  0 <= ch < channel_num (params ctl) -> 0 <= j < channel_num (params ctl) ->
  let '(ctl', ret) := meson_gpio_irq_type_setup ctl type ch in
  ret = 0 /\ trigger ctl' j = if decide (j = ch) then type .& IRQ_TYPE_SENSE_MASK else trigger ctl j.
Proof.
  intros Ep Hq Ht He Hl Hch Hj. unfold meson_gpio_irq_type_setup.
  generalize dependent (type .& IRQ_TYPE_SENSE_MASK). intros t Ht. unfold meson_p1_gpio_irq_sel_type.
  symmetry in Ep. rewrite <- Ep in *.
  unfold senses in Ht. rewrite !elem_of_cons, elem_of_nil in Ht.
  unfold edge_at, pol_at in He, Hl.
  cbn [gpio_irq_sel_type channel_num INIT_MESON_P1_COMMON_DATA edge_both_offset edge_single_offset pol_low_offset
       both_sel_reg edge_sel_reg pol_low_sel_reg] in *.
  destruct Ht as [-> | [-> | [-> | [-> | [-> | []]]]]];
    cbv [IRQ_TYPE_EDGE_RISING IRQ_TYPE_EDGE_FALLING IRQ_TYPE_EDGE_BOTH IRQ_TYPE_LEVEL_HIGH IRQ_TYPE_LEVEL_LOW];
    cbn [Z.eqb Pos.eqb]; eval_truthy.
  all: split; [done|].
  all: unfold trigger, both_at, edge_at, pol_at; rewrite !(proj1 (update_bits_params _ _ _ _)), <- !Ep;
    cbn [INIT_MESON_P1_COMMON_DATA support_edge_both gpio_irq_sel_type edge_both_offset edge_single_offset
      pol_low_offset both_sel_reg edge_sel_reg pol_low_sel_reg];
    case_decide; [subst j|]; solve_bit; rewrite ?He, ?Hl; done.
Qed.

Lemma p1_sticky ctl n ch :
  params ctl = INIT_MESON_P1_COMMON_DATA n -> quiet (base ctl) -> 0 <= ch < channel_num (params ctl) ->
  let ctl1 := fst (meson_gpio_irq_type_setup ctl IRQ_TYPE_EDGE_FALLING ch) in
  let ctl2 := fst (meson_gpio_irq_type_setup ctl1 IRQ_TYPE_EDGE_RISING ch) in
  trigger ctl2 ch = IRQ_TYPE_EDGE_FALLING.
Proof.
  intros Ep Hq Hch. unfold meson_gpio_irq_type_setup, meson_p1_gpio_irq_sel_type.
  symmetry in Ep. rewrite <- Ep in *. cbn [channel_num INIT_MESON_P1_COMMON_DATA] in Hch.
  change (IRQ_TYPE_EDGE_FALLING .& IRQ_TYPE_SENSE_MASK) with 2. change (IRQ_TYPE_EDGE_RISING .& IRQ_TYPE_SENSE_MASK) with 1.
  cbn [gpio_irq_sel_type INIT_MESON_P1_COMMON_DATA edge_both_offset edge_single_offset pol_low_offset
       both_sel_reg edge_sel_reg pol_low_sel_reg IRQ_TYPE_EDGE_BOTH Z.eqb Pos.eqb]. eval_truthy.
  cbn [fst]. rewrite !(proj1 (update_bits_params _ _ _ _)), <- !Ep.
  cbn [gpio_irq_sel_type INIT_MESON_P1_COMMON_DATA edge_both_offset edge_single_offset pol_low_offset
       both_sel_reg edge_sel_reg pol_low_sel_reg IRQ_TYPE_EDGE_BOTH Z.eqb Pos.eqb]. eval_truthy. cbn [fst].
  unfold trigger, both_at, edge_at, pol_at; rewrite !(proj1 (update_bits_params _ _ _ _)), <- !Ep;
    cbn [INIT_MESON_P1_COMMON_DATA support_edge_both gpio_irq_sel_type edge_both_offset edge_single_offset
      pol_low_offset both_sel_reg edge_sel_reg pol_low_sel_reg]. solve_bit. done.
Qed.
End Effects.

(** ** Allocation of channels *)

Section Domain.
Context {R : Type} `{RegmapOk R}.
Implicit Types (ctl : meson_gpio_irq_controller R) (d : irq_domain R).

(** Every mapped interrupt owns a channel, routed to its pin; the bitmap has
    exactly the owned channels. *)
Record irq_inv d : Prop := {
  inv_family : family (params d.1);
  inv_quiet : quiet (base d.1);
  inv_map : forall i, Z.testbit (channel_map d.1) i = true <->
    exists virq data, d.2 !! virq = Some data /\ channel data = i;
  inv_range : forall virq data, d.2 !! virq = Some data -> 0 <= channel data < channel_num (params d.1);
  inv_owner : forall v w a b, d.2 !! v = Some a -> d.2 !! w = Some b -> channel a = channel b -> v = w;
  inv_route : forall virq data, d.2 !! virq = Some data ->
    meson_parm_read (regs d.1) (sel_field (params d.1) (base d.1) (channel data)) = hwirq data;
}.

(** The operations of the interrupt core on the domain. *)
Inductive irq_op :=
  | OpAlloc (alloc_parent : Z * Z * Z -> Z) (virq nr : Z) (fw : irq_fwspec)
  | OpFree (virq nr : Z)
  | OpSetType (set_parent : Z -> Z) (virq type : Z).

Definition irq_exec d (op : irq_op) : irq_domain R * Z :=
  match op with
  | OpAlloc alloc virq nr fw => meson_gpio_irq_domain_alloc alloc d virq nr fw
  | OpFree virq nr => (meson_gpio_irq_domain_free d virq nr, 0)
  | OpSetType sp virq type =>
      match d.2 !! virq with
      | None => (d, - EINVAL)
      | Some data => let '(ctl, ret) := meson_gpio_irq_set_type sp d.1 data type in ((ctl, d.2), ret)
      end
  end.

(** The core allocates fresh interrupts, for pins the controller has. *)
Definition op_ok d (op : irq_op) : Prop :=
  match op with
  | OpAlloc _ virq _ fw => d.2 !! virq = None /\ 0 <= fst (fw_param fw) < nr_hwirq (params d.1)
  | _ => True
  end.

Fixpoint irq_run d (ops : list irq_op) : irq_domain R :=
  match ops with [] => d | op :: ops => irq_run (fst (irq_exec d op)) ops end.
Fixpoint ops_ok d (ops : list irq_op) : Prop :=
  match ops with [] => True | op :: ops => op_ok d op /\ ops_ok (fst (irq_exec d op)) ops end.

(** What a request finds. *)
Lemma request_channel_spec ctl hw :
  family (params ctl) ->
  let n := channel_num (params ctl) in
  let '(ctl', r) := meson_gpio_irq_request_channel ctl hw in
  (r = inr (- ENOSPC) /\ ctl' = ctl /\ forall i, 0 <= i < n -> Z.testbit (channel_map ctl) i = true) \/
  exists ch, r = inl ch /\ 0 <= ch < n /\ Z.testbit (channel_map ctl) ch = false /\
    (forall i, 0 <= i < ch -> Z.testbit (channel_map ctl) i = true) /\
    ctl' = sel_pin (set_map ctl (Z.setbit (channel_map ctl) ch)) ch hw.
Proof.
  intros Hf n. destruct (family_mask _ Hf) as (_ & _ & _ & _ & _ & Hn). fold n in Hn.
  unfold meson_gpio_irq_request_channel. fold n.
  destruct (first_zero_spec (channel_map ctl) (Z.to_nat n) 0 ltac:(lia)) as (Hk & Hall & Hz).
  fold (find_first_zero_bit (channel_map ctl) n) in Hk, Hall, Hz.
  destruct (Z.leb_spec n (find_first_zero_bit (channel_map ctl) n)).
  - left. split; [done|]. split; [done|]. intros i Hi. apply Hall. lia.
  - right. eexists. split; [done|]. split; [lia|]. split; [apply Hz; lia|]. done.
Qed.

Lemma sel_pin_frame ctl ch hw :
  params (sel_pin ctl ch hw) = params ctl /\ base (sel_pin ctl ch hw) = base ctl /\
  channel_map (sel_pin ctl ch hw) = channel_map ctl.
Proof. unfold sel_pin, meson8_gpio_irq_sel_pin, meson_a1_gpio_irq_sel_pin. by destruct (gpio_irq_sel_pin (params ctl)). Qed.

(** A free channel is owned by nobody. *)
Lemma free_not_owned d ch virq data :
  irq_inv d -> Z.testbit (channel_map d.1) ch = false -> d.2 !! virq = Some data -> channel data <> ch.
Proof.
  intros Hi Hch Hv <-. assert (Z.testbit (channel_map d.1) (channel data) = true); [|congruence].
  apply (inv_map d Hi). eauto.
Qed.

Lemma irq_alloc_inv ctl irqs ch hw virq :
  irq_inv (ctl, irqs) -> irqs !! virq = None -> 0 <= hw < nr_hwirq (params ctl) ->
  0 <= ch < channel_num (params ctl) -> Z.testbit (channel_map ctl) ch = false ->
  irq_inv (sel_pin (set_map ctl (Z.setbit (channel_map ctl) ch)) ch hw, <[virq := IrqData hw ch]> irqs).
Proof.
  intros Hi Hv Hhw Hch Hfree. pose proof Hi as [Hf Hq Hm Hr Ho Hro]. cbn [fst snd] in *.
  set (ctl1 := set_map ctl _).
  destruct (sel_pin_frame ctl1 ch hw) as (Ep & Eb & Em).
  destruct (sel_pin_route ctl1 ch hw Hf Hq Hch Hhw) as [Hown Hother].
  split; cbn [fst snd]; rewrite ?Ep, ?Eb, ?Em; [done|done| | | |].
  - intros i. change (channel_map ctl1) with (Z.setbit (channel_map ctl) ch).
    rewrite Z.setbit_iff by lia. rewrite (Hm i). split.
    + intros [<-|(v & a & Ha & <-)]; [exists virq, (IrqData hw ch); by rewrite lookup_insert_eq|].
      exists v, a. rewrite lookup_insert_ne; [done|congruence].
    + intros (v & a & Ha & <-). rewrite lookup_insert_Some in Ha. destruct Ha as [[_ <-]|[_ Ha]]; [by left|right; eauto].
  - intros v a Ha. rewrite lookup_insert_Some in Ha. destruct Ha as [[_ <-]|[_ Ha]]; [done|]. by eapply Hr.
  - intros v w a b Ha Hb Hab. rewrite lookup_insert_Some in Ha, Hb.
    destruct Ha as [[<- <-]|[? Ha]], Hb as [[<- <-]|[? Hb]]; [done| | |by eapply Ho].
    + cbn in Hab. destruct (free_not_owned (ctl, irqs) ch w b Hi Hfree Hb). done.
    + cbn in Hab. destruct (free_not_owned (ctl, irqs) ch v a Hi Hfree Ha). done.
  - intros v a Ha. rewrite lookup_insert_Some in Ha. destruct Ha as [[_ <-]|[_ Ha]]; [done|].
    rewrite <- (Hro v a Ha). apply Hother; [by eapply Hr|]. by eapply (free_not_owned (ctl, irqs)).
Qed.

(** The channel is given back when the parent refuses. *)
Lemma alloc_fail_inv ctl irqs ch hw :
  irq_inv (ctl, irqs) -> 0 <= hw < nr_hwirq (params ctl) ->
  0 <= ch < channel_num (params ctl) -> Z.testbit (channel_map ctl) ch = false ->
  let ctl' := meson_gpio_irq_release_channel (sel_pin (set_map ctl (Z.setbit (channel_map ctl) ch)) ch hw) ch in
  channel_map ctl' = channel_map ctl /\ irq_inv (ctl', irqs).
Proof.
  intros Hi Hhw Hch Hfree ctl'. pose proof Hi as [Hf Hq Hm Hr Ho Hro]. cbn [fst snd] in *.
  set (ctl1 := set_map ctl (Z.setbit (channel_map ctl) ch)) in *.
  destruct (sel_pin_frame ctl1 ch hw) as (Ep & Eb & Em).
  destruct (sel_pin_route ctl1 ch hw Hf Hq Hch Hhw) as [_ Hother].
  assert (Emap : channel_map ctl' = channel_map ctl).
  { unfold ctl', meson_gpio_irq_release_channel. cbn [channel_map set_map]. rewrite Em. cbn [ctl1 channel_map set_map].
    apply Z.bits_inj'. intros i _.
    destruct (Z.eq_dec i ch) as [->|].
    - by rewrite Z.clearbit_eq, Hfree.
    - rewrite Z.clearbit_neq by lia. apply Z.setbit_neq; lia. }
  split; [done|]. split; cbn [fst snd]; rewrite ?Emap;
    change (params ctl') with (params (sel_pin ctl1 ch hw)); change (base ctl') with (base (sel_pin ctl1 ch hw));
    change (regs ctl') with (regs (sel_pin ctl1 ch hw)); rewrite ?Ep, ?Eb; try done.
  intros v a Ha. rewrite <- (Hro v a Ha). apply Hother; [by eapply Hr|]. by eapply (free_not_owned (ctl, irqs)).
Qed.

Lemma irq_free_inv d virq nr : irq_inv d -> irq_inv (meson_gpio_irq_domain_free d virq nr).
Proof.
  intros Hi. destruct d as [ctl irqs]. unfold meson_gpio_irq_domain_free. destruct (negb _); [done|].
  destruct (irqs !! virq) as [data|] eqn:Ev; [|done]. destruct Hi as [Hf Hq Hm Hr Ho Hro]. cbn [fst snd] in *.
  split; cbn [fst snd meson_gpio_irq_release_channel set_map params base channel_map regs]; [done|done| | | |].
  - intros i. rewrite Z.clearbit_iff, (Hm i) by (by apply (Hr virq)). split.
    + intros [(v & a & Ha & <-) Hne]. exists v, a. rewrite lookup_delete_ne; [done|]. intros ->. congruence.
    + intros (v & a & Ha & <-). apply lookup_delete_Some in Ha as [Hvv Ha].
      split; [by eauto|]. intros E. destruct Hvv. by apply (Ho virq v data a).
  - intros v a [_ Ha]%lookup_delete_Some. by eapply Hr.
  - intros v w a b [_ Ha]%lookup_delete_Some [_ Hb]%lookup_delete_Some. by eapply Ho.
  - intros v a [_ Ha]%lookup_delete_Some. by eapply Hro.
Qed.

Lemma regs_change_inv ctl ctl' irqs :
  irq_inv (ctl, irqs) -> type_writes ctl ctl' -> irq_inv (ctl', irqs).
Proof.
  intros [Hf Hq Hm Hr Ho Hro] Hw. cbn [fst snd] in *.
  destruct (type_writes_frame _ _ Hw Hf Hq) as (Ep & Eb & Em & _ & Hsel).
  split; cbn [fst snd]; rewrite ?Ep, ?Eb, ?Em; try done.
  intros v a Ha. rewrite <- (Hro v a Ha). apply Hsel. by eapply Hr.
Qed.

Lemma exec_inv d op : irq_inv d -> op_ok d op -> irq_inv (fst (irq_exec d op)).
Proof.
  intros Hi Hop. destruct op as [alloc virq nr fw|virq nr|sp virq type]; cbn [irq_exec].
  - destruct d as [ctl irqs]. destruct Hop as [Hv Hhw]. cbn [fst snd] in *. unfold meson_gpio_irq_domain_alloc.
    destruct (negb _); [done|]. unfold meson_gpio_irq_domain_translate.
    destruct (_ && _); [|done]. destruct (fw_param fw) as [hw type]. cbn [fst] in Hhw.
    pose proof (request_channel_spec ctl hw (inv_family _ Hi)) as Hreq.
    destruct (meson_gpio_irq_request_channel ctl hw) as [ctl' r].
    destruct Hreq as [(-> & -> & _)|(ch & -> & Hch & Hfree & _ & ->)]; [done|].
    destruct (_ <? 0); cbn [fst]; [by apply (alloc_fail_inv ctl irqs ch hw)|by apply irq_alloc_inv].
  - cbn [fst]. by apply irq_free_inv.
  - destruct (d.2 !! virq) as [data|]; [|done]. unfold meson_gpio_irq_set_type.
    pose proof (type_setup_writes d.1 type (channel data) (inv_family d Hi)) as Hw.
    destruct (meson_gpio_irq_type_setup d.1 type (channel data)) as [ctl' ret]. cbn [fst] in Hw.
    assert (irq_inv (ctl', d.2)) by (apply (regs_change_inv d.1); [by destruct d|done]).
    by destruct (truthy ret).
Qed.

Lemma run_inv d ops : irq_inv d -> ops_ok d ops -> irq_inv (irq_run d ops).
Proof.
  revert d. induction ops as [|op ops IH]; intros d Hi; cbn; [done|]. intros [Hop Hops].
  apply IH; [by apply exec_inv|done].
Qed.

Lemma init_inv p base_ irqs (m : R) :
  family p -> quiet base_ -> irq_inv (meson_gpio_irq_parse_dt p base_ irqs m, ∅).
Proof.
  intros Hf Hq. assert (E : let ctl := meson_gpio_irq_parse_dt p base_ irqs m in
    params ctl = p /\ base ctl = base_ /\ channel_map ctl = 0).
  { unfold meson_gpio_irq_parse_dt. by destruct (gpio_irq_init p). }
  destruct E as (Ep & Eb & Em). split; cbn [fst snd]; rewrite ?Ep, ?Eb, ?Em; try done.
  intros i. rewrite Z.bits_0. split; [done|]. intros (v & a & Ha & _). by rewrite lookup_empty in Ha.
Qed.

(** The channels of the mapped interrupts. *)
Definition owned d : list Z := channel <$> (map_to_list d.2).*2.

Lemma owned_spec d ch : ch ∈ owned d <-> exists virq data, d.2 !! virq = Some data /\ channel data = ch.
Proof.
  unfold owned. rewrite list_elem_of_fmap. split.
  - intros (a & -> & Ha). apply list_elem_of_fmap in Ha as ([v b] & -> & Hb). apply elem_of_map_to_list in Hb. eauto.
  - intros (v & a & Ha & <-). exists a. split; [done|]. apply list_elem_of_fmap. exists (v, a).
    split; [done|]. by apply elem_of_map_to_list.
Qed.

Lemma owned_NoDup d : irq_inv d -> NoDup (owned d) /\ length (owned d) = size d.2.
Proof.
  intros Hi. unfold owned. rewrite !length_fmap, length_map_to_list. split; [|done].
  rewrite <- list_fmap_compose. apply NoDup_fmap_2_strong; [|apply NoDup_map_to_list].
  intros [v a] [w b] Ha Hb Hab. apply elem_of_map_to_list in Ha, Hb. cbn in Hab.
  assert (v = w) as -> by (by eapply (inv_owner d Hi)). congruence.
Qed.

(** All channels are in use exactly when as many interrupts are mapped. *)
Lemma full_iff_size d :
  irq_inv d -> let n := channel_num (params d.1) in
  (forall i, 0 <= i < n -> Z.testbit (channel_map d.1) i = true) <-> Z.of_nat (size d.2) = n.
Proof.
  intros Hi n. destruct (owned_NoDup d Hi) as [Hnd Hlen].
  destruct (family_mask _ (inv_family d Hi)) as (_ & _ & _ & _ & _ & Hn). fold n in Hn.
  assert (Hin : forall c, c ∈ owned d -> c ∈ seqZ 0 n).
  { intros c Hc. apply owned_spec in Hc as (v & a & Ha & <-). apply elem_of_seqZ.
    pose proof (inv_range d Hi v a Ha) as Hr. fold n in Hr. lia. }
  assert (Hle : (length (owned d) <= length (seqZ 0 n))%nat).
  { apply submseteq_length, NoDup_submseteq; done. }
  rewrite length_seqZ in Hle. split.
  - intros Hall. assert (length (seqZ 0 n) <= length (owned d))%nat as Hge; [|rewrite length_seqZ in Hge; lia].
    apply submseteq_length, NoDup_submseteq; [apply NoDup_seqZ|].
    intros c Hc. apply owned_spec, (inv_map d Hi), Hall. apply elem_of_seqZ in Hc. lia.
  - intros Hs i Hir. apply (inv_map d Hi), owned_spec.
    assert (Hsub : owned d ⊆+ seqZ 0 n) by (by apply NoDup_submseteq).
    apply submseteq_length_Permutation in Hsub; [|rewrite length_seqZ; lia].
    rewrite Hsub. apply elem_of_seqZ. lia.
Qed.

(** What a mapping does, in every case. *)
Lemma alloc_result d alloc virq nr fw :
  irq_inv d -> op_ok d (OpAlloc alloc virq nr fw) ->
  let '(d', ret) := meson_gpio_irq_domain_alloc alloc d virq nr fw in
  if negb (nr =? 1) || negb (is_of_node fw && (param_count fw =? 2)) then d' = d /\ ret = - EINVAL
  else if decide (Z.of_nat (size d.2) = channel_num (params d.1)) then d' = d /\ ret = - ENOSPC
  else exists ch, 0 <= ch < channel_num (params d.1) /\ Z.testbit (channel_map d.1) ch = false /\
    (forall i, 0 <= i < ch -> Z.testbit (channel_map d.1) i = true) /\
    let gic := alloc (0, channel_irqs d.1 !!! Z.to_nat ch, meson_gpio_irq_type_output (snd (fw_param fw))) in
    if gic <? 0 then ret = gic /\ d'.2 = d.2 /\ channel_map d'.1 = channel_map d.1
    else ret = 0 /\ d'.2 = <[virq := IrqData (fst (fw_param fw)) ch]> d.2.
Proof.
  intros Hi [Hv Hhw]. unfold meson_gpio_irq_domain_alloc. destruct d as [ctl irqs]. cbn [fst snd] in *.
  destruct (negb (nr =? 1)); cbn [orb]; [done|]. unfold meson_gpio_irq_domain_translate.
  destruct (is_of_node fw && (param_count fw =? 2)); cbn [negb]; [|done].
  destruct (fw_param fw) as [hw type]. cbn [fst snd] in *.
  pose proof (full_iff_size (ctl, irqs) Hi) as Hfull. cbn [fst snd] in Hfull.
  pose proof (request_channel_spec ctl hw (inv_family _ Hi)) as Hreq.
  destruct (meson_gpio_irq_request_channel ctl hw) as [ctl' r].
  destruct Hreq as [(-> & -> & Hall)|(ch & -> & Hch & Hfree & Hlow & ->)].
  - cbv beta iota. case_decide; [done|]. by rewrite Hfull in Hall.
  - assert (Z.of_nat (size irqs) <> channel_num (params ctl)) as Hne
      by (rewrite <- Hfull; intros Ha; by rewrite Ha in Hfree).
    cbv beta iota. unfold meson_gpio_irq_allocate_gic_irq.
    replace (channel_irqs (sel_pin (set_map ctl (Z.setbit (channel_map ctl) ch)) ch hw)) with (channel_irqs ctl)
      by (unfold sel_pin; by destruct (gpio_irq_sel_pin _)).
    destruct (_ <? 0) eqn:Eg; cbv beta iota; (case_decide; [done|]); exists ch; (split; [done|]); (split; [done|]); (split; [done|]); cbv zeta; rewrite Eg;
      cbn [fst snd]; [|done].
    split; [done|]. split; [done|]. by apply (alloc_fail_inv ctl irqs ch hw).
Qed.

(** *** Properties *)

(** C38: from the state meson_gpio_irq_parse_dt leaves, through any sequence of
    mappings (successful, refused by the parent or out of channels), releases
    and trigger changes, every mapped interrupt owns a channel of its own that
    is routed to its pin, and the bitmap has exactly the owned channels. *)
Theorem irq_steps_inv p base_ irqs (m : R) ops :
  family p -> quiet base_ -> let d := (meson_gpio_irq_parse_dt p base_ irqs m, ∅) in
  ops_ok d ops -> irq_inv (irq_run d ops).
Proof. intros Hf Hq d Hops. by apply run_inv; [apply init_inv|]. Qed.

(** Mapping an interrupt reports -EINVAL for a malformed request, -ENOSPC
    exactly when as many interrupts are mapped as there are channels, and the
    parent's error with the channel given back; otherwise the interrupt gets the
    lowest free channel.  Only in that last case the mapped interrupts change. *)
Theorem irq_domain_alloc_result d alloc virq nr fw :
  irq_inv d -> op_ok d (OpAlloc alloc virq nr fw) ->
  let '(d', ret) := meson_gpio_irq_domain_alloc alloc d virq nr fw in
  if negb (nr =? 1) || negb (is_of_node fw && (param_count fw =? 2)) then d' = d /\ ret = - EINVAL
  else if decide (Z.of_nat (size d.2) = channel_num (params d.1)) then d' = d /\ ret = - ENOSPC
  else exists ch, 0 <= ch < channel_num (params d.1) /\ Z.testbit (channel_map d.1) ch = false /\
    (forall i, 0 <= i < ch -> Z.testbit (channel_map d.1) i = true) /\
    let gic := alloc (0, channel_irqs d.1 !!! Z.to_nat ch, meson_gpio_irq_type_output (snd (fw_param fw))) in
    if gic <? 0 then ret = gic /\ d'.2 = d.2 /\ channel_map d'.1 = channel_map d.1
    else ret = 0 /\ d'.2 = <[virq := IrqData (fst (fw_param fw)) ch]> d.2.
Proof. apply alloc_result. Qed.

(** Setting the trigger of an interrupt programs exactly that trigger for
    its channel and keeps the trigger of every other channel; the parent is
    asked for a high level or a rising edge.  Controllers without support for
    both edges refuse them with -EINVAL and change nothing. *)
Theorem irq_set_type_programs d virq data type sp :
  irq_inv d -> d.2 !! virq = Some data -> gpio_irq_sel_type (params d.1) <> Some meson_p1_sel_type ->
  type .& IRQ_TYPE_SENSE_MASK ∈ senses ->
  let '(ctl', ret) := meson_gpio_irq_set_type sp d.1 data type in
  (ret = sp (meson_gpio_irq_type_output type) /\
   forall j, 0 <= j < channel_num (params d.1) ->
     trigger ctl' j = if decide (j = channel data) then type .& IRQ_TYPE_SENSE_MASK else trigger d.1 j) \/
  (ret = - EINVAL /\ ctl' = d.1 /\ type .& IRQ_TYPE_SENSE_MASK = IRQ_TYPE_EDGE_BOTH /\
   support_edge_both (params d.1) = false).
Proof.
  intros Hi Hv Hp Ht. pose proof (inv_range d Hi virq data Hv) as Hch. unfold meson_gpio_irq_set_type.
  pose proof (fun j => type_setup_trigger d.1 type (channel data) j (inv_family d Hi) (inv_quiet d Hi) Hp Ht Hch) as Hset.
  destruct (meson_gpio_irq_type_setup d.1 type (channel data)) as [ctl' ret].
  destruct (Hset (channel data) Hch) as [(-> & _)|(-> & -> & ? & ?)]; [|by right].
  left. change (truthy 0) with false. cbv iota. split; [done|]. intros j Hj.
  destruct (Hset j Hj) as [(_ & ->)|(E & _)]; [done|discriminate E].
Qed.

(** On the P1 family a falling edge followed by a rising edge leaves the
    channel on the falling edge, whatever it was before: the old polarity bit is
    never cleared.  From a channel without edge and polarity bits the trigger
    set is the one requested. *)
Theorem irq_p1_type_sticky ctl n ch :
  params ctl = INIT_MESON_P1_COMMON_DATA n -> quiet (base ctl) -> 0 <= ch < channel_num (params ctl) ->
  (let ctl1 := fst (meson_gpio_irq_type_setup ctl IRQ_TYPE_EDGE_FALLING ch) in
   let ctl2 := fst (meson_gpio_irq_type_setup ctl1 IRQ_TYPE_EDGE_RISING ch) in
   trigger ctl2 ch = IRQ_TYPE_EDGE_FALLING) /\
  (forall type, type .& IRQ_TYPE_SENSE_MASK ∈ senses ->
   ctl_bit ctl (edge_at (params ctl)) ch = false -> ctl_bit ctl (pol_at (params ctl)) ch = false ->
   trigger (fst (meson_gpio_irq_type_setup ctl type ch)) ch = type .& IRQ_TYPE_SENSE_MASK).
Proof.
  intros Ep Hq Hch. split; [by apply (p1_sticky ctl n)|]. intros type Ht He Hl.
  pose proof (p1_type_setup_trigger ctl n type ch ch Ep Hq Ht He Hl Hch Hch) as Hs.
  destruct (meson_gpio_irq_type_setup ctl type ch). cbn [fst]. destruct Hs as [_ ->]. by rewrite decide_True.
Qed.
End Domain.

(** ** Suspend *)

Section Suspend.
Context {R : Type} `{RegmapOk R}.
Implicit Types (ctl : meson_gpio_irq_controller R).

Lemma restore_loop base_ (sh : list Z) l (m : R) r b :
  NoDup l -> 0 <= b < 32 -> volatile r b = false ->
  rbit (foldl (fun m i => writel m (sh !!! i) (base_ + 4 * Z.of_nat i)) m l) r b =
  match list_find (fun i => r = base_ + 4 * Z.of_nat i) l with
  | Some (_, i) => Z.testbit (sh !!! i) b
  | None => rbit m r b
  end.
Proof.
  revert m. induction l as [|i l IH]; intros m Hnd Hb Hv; [done|]. apply list.NoDup_cons in Hnd as [Hi Hnd].
  cbn [foldl list_find]. rewrite IH by done. rewrite writel_bit by done.
  destruct (decide (r = base_ + 4 * Z.of_nat i)) as [E|E].
  - destruct (list_find _ l) as [[k j]|] eqn:Ef; cbn; [|done].
    apply list_find_Some in Ef as (Hk & Ej & _). apply list_elem_of_lookup_2 in Hk.
    assert (j = i) as -> by lia. done.
  - by destruct (list_find _ l) as [[k j]|].
Qed.

(** A freeze followed by a restore brings every register of the resource
    back to its value, whatever happened to them in between. *)
Theorem irq_freeze_restore ctl (m : R) k b :
  shadow_size ctl mod 4 = 0 -> 0 <= k < shadow_size ctl -> k mod 4 = 0 -> 0 <= b < 32 ->
  volatile (base ctl + k) b = false ->
  rbit (regs (fst (meson_gpio_irq_restore (set_regs (fst (meson_gpio_irq_freeze ctl)) m)))) (base ctl + k) b
  = rbit (regs ctl) (base ctl + k) b.
Proof.
  intros Hs Hk Hm Hb Hv. unfold meson_gpio_irq_restore, meson_gpio_irq_freeze.
  cbn [fst set_regs set_shadow shadow regs base shadow_words shadow_size].
  rewrite restore_loop by (done || apply NoDup_seq).
  set (n := shadow_words ctl). change (shadow_words (set_regs _ m)) with n.
  assert (Hn : (Z.to_nat (k / 4) < n)%nat) by (unfold n, shadow_words; Z.to_euclidean_division_equations; lia).
  assert (Ek : k = 4 * Z.of_nat (Z.to_nat (k / 4))) by (Z.to_euclidean_division_equations; lia).
  destruct (list_find _ (seq 0 n)) as [[j i]|] eqn:Ef.
  - apply list_find_Some in Ef as (Hj & Ej & _). apply lookup_seq in Hj as [-> Hj]. cbn [Nat.add] in *.
    erewrite list_lookup_total_correct; [|rewrite list_lookup_fmap, lookup_seq_lt by lia; reflexivity].
    unfold rbit, readl, reg_val. cbn [Nat.add]. do 3 f_equal. lia.
  - apply list_find_None in Ef. rewrite Forall_forall in Ef.
    destruct (Ef (Z.to_nat (k / 4))); [apply elem_of_seq; lia|lia].
Qed.
End Suspend.

(** ** The SoCs, and concrete runs *)

Definition a1_params := INIT_MESON_A1_COMMON_DATA 62.
Definition axg_params := INIT_MESON8_COMMON_DATA 100 false.
Definition sm1_params := INIT_MESON8_COMMON_DATA 100 true.
Definition tm2_params := INIT_MESON8_COMMON_DATA 104 true.
Definition sc2_params := INIT_MESON_SC2_COMMON_DATA 87.
Definition t5d_params := INIT_MESON8_COMMON_DATA 113 true.
Definition t7_params := INIT_MESON_SC2_COMMON_DATA 157.
Definition s4_params := INIT_MESON_SC2_COMMON_DATA 82.
Definition t3_params := INIT_MESON_SC2_COMMON_DATA 139.
Definition p1_params := INIT_MESON_P1_COMMON_DATA 230.
Definition t5w_params := INIT_MESON8_COMMON_DATA 130 true.
Definition c2_params := INIT_MESON_A1_COMMON_DATA 90.
Definition c3_params := INIT_MESON_SC2_COMMON_DATA 55.
Definition t5m_params := INIT_MESON_SC2_COMMON_DATA 149.
Definition s5_params := INIT_MESON_P1_COMMON_DATA 118.
Definition t3x_params := INIT_MESON_SC2_COMMON_DATA 151.
Definition txhd2_params := INIT_MESON8_COMMON_DATA 80 true.
Definition s7_params := INIT_MESON_SC2_COMMON_DATA 84.
Definition s6_params := INIT_MESON_SC2_COMMON_DATA 101.
Definition t6d_params := INIT_MESON_SC2_COMMON_DATA 131.
Definition s1a_params := INIT_MESON_SC2_COMMON_DATA 40.

Definition all_params : list meson_gpio_irq_params :=
  [a1_params; axg_params; sm1_params; tm2_params; sc2_params; t5d_params; t7_params; s4_params; t3_params; p1_params;
   t5w_params; c2_params; c3_params; t5m_params; s5_params; t3x_params; txhd2_params; s7_params; s6_params;
   t6d_params; s1a_params].

Lemma all_families : Forall family all_params.
Proof. repeat constructor; lia. Qed.

Lemma plain_quiet base_ : quiet (R := gmap Z Z) base_.
Proof. done. Qed.

Definition demo_irqs : list Z := seqZ 10 12.
Definition demo_domain : irq_domain (gmap Z Z) := (meson_gpio_irq_parse_dt sc2_params 0xfe004080 demo_irqs ∅, ∅).
Definition demo_fw (hw type : Z) : irq_fwspec := Fwspec true 2 (hw, type).
Definition demo_ops : list irq_op :=
  [OpAlloc (fun _ => 0) 100 1 (demo_fw 42 1); OpAlloc (fun _ => -16) 101 1 (demo_fw 7 1);
   OpAlloc (fun _ => 0) 101 1 (demo_fw 43 8); OpSetType (fun _ => 0) 100 IRQ_TYPE_EDGE_BOTH; OpFree 100 1].

Lemma demo_irq_ops_ok : ops_ok demo_domain demo_ops.
Proof. cbn [ops_ok demo_ops op_ok]. repeat split; try (by vm_compute). all: cbn; lia. Qed.

Lemma irq_steps_inv_witness : irq_inv (irq_run demo_domain demo_ops).
Proof.
  apply (irq_steps_inv sc2_params 0xfe004080 demo_irqs (∅ : gmap Z Z) demo_ops);
    [constructor; lia|apply plain_quiet|apply demo_irq_ops_ok].
Defined.

Lemma demo_inv : irq_inv demo_domain.
Proof. apply init_inv; [constructor; lia|apply plain_quiet]. Qed.

Lemma irq_domain_alloc_result_witness :
  snd (meson_gpio_irq_domain_alloc (fun _ => -16) demo_domain 100 1 (demo_fw 42 1)) = -16.
Proof.
  pose proof (irq_domain_alloc_result demo_domain (fun _ => -16) 100 1 (demo_fw 42 1) demo_inv
                ltac:(split; [done|cbn; lia])) as Hr.
  destruct (meson_gpio_irq_domain_alloc _ _ _ _ _) as [d' ret].
  cbn -[size] in Hr. rewrite decide_False in Hr by (by vm_compute).
  destruct Hr as (ch & _ & _ & _ & Hret & _). exact Hret.
Defined.

Definition demo_mapped : irq_domain (gmap Z Z) := irq_run demo_domain (take 1 demo_ops).

Lemma demo_mapped_inv : irq_inv demo_mapped.
Proof. apply run_inv; [apply demo_inv|]. cbn [take demo_ops ops_ok op_ok]. repeat split; [by vm_compute|cbn; lia..]. Qed.

Lemma irq_set_type_programs_witness :
  trigger (fst (meson_gpio_irq_set_type (fun _ => 0) demo_mapped.1 (IrqData 42 0) IRQ_TYPE_EDGE_FALLING)) 0
  = IRQ_TYPE_EDGE_FALLING.
Proof.
  pose proof (irq_set_type_programs demo_mapped 100 (IrqData 42 0) IRQ_TYPE_EDGE_FALLING (fun _ => 0) demo_mapped_inv
    ltac:(by vm_compute) ltac:(by vm_compute) ltac:(apply (bool_decide_unpack _); by vm_compute)) as Hr.
  destruct (meson_gpio_irq_set_type _ _ _ _) as [ctl' ret].
  destruct Hr as [[_ Hr]|(_ & _ & E & _)]; [|discriminate E].
  cbn [fst]. rewrite (Hr 0) by (by vm_compute). done.
Defined.

Lemma irq_p1_type_sticky_witness :
  let ctl := meson_gpio_irq_parse_dt p1_params 0 demo_irqs (∅ : gmap Z Z) in
  let ctl1 := fst (meson_gpio_irq_type_setup ctl IRQ_TYPE_EDGE_FALLING 3) in
  trigger (fst (meson_gpio_irq_type_setup ctl1 IRQ_TYPE_EDGE_RISING 3)) 3 = IRQ_TYPE_EDGE_FALLING.
Proof.
  exact (proj1 (irq_p1_type_sticky (meson_gpio_irq_parse_dt p1_params 0 demo_irqs (∅ : gmap Z Z)) 230 3 eq_refl
    (plain_quiet 0) (conj (proj1 (Z.leb_le 0 3) eq_refl) (proj1 (Z.ltb_lt 3 32) eq_refl)))).
Defined.

Definition demo_suspend : meson_gpio_irq_controller (gmap Z Z) :=
  Ctl sc2_params 0x100 demo_irqs (<[0x104 := 0x2b002a]> ∅) 3 [] 0x20.

Lemma irq_freeze_restore_witness :
  rbit (regs (fst (meson_gpio_irq_restore (set_regs (fst (meson_gpio_irq_freeze demo_suspend)) ∅))))
    (base demo_suspend + 4) 3 = true.
Proof. rewrite (irq_freeze_restore demo_suspend ∅ 4 3); [by vm_compute|done|cbn; lia|done|lia|done]. Defined.
End IrqGpio.
