(* ===== verification/PinIrq.v ===== *)
(** * From a GPIO to its interrupt channel

    The pin controller turns a GPIO into a hwirq (pinctrl-meson.c,
    meson_gpio_to_irq), the interrupt multiplexer turns the hwirq into a
    channel (irq-meson-gpio.c).  This file composes the two on the SoCs of
    [PinTables.v], each with the multiplexer its device tree names: the hwirq of
    a GPIO is one the multiplexer has, and the channel a GPIO is given listens to
    that GPIO and to no other. *)

From S2P Require Import Prelude Regmap RegBits PinMeson PinPmx PinTables IrqGpio.
From stdpp Require Import base numbers strings gmap list.

Local Open Scope Z_scope.
Local Open Scope cint_scope.

Module PinIrq.
Import Pinctrl PinTables IrqGpio.

(** The multiplexer of a SoC; the C1 has none of its own in the tables. *)
Definition soc_intc (i : soc_id) : option meson_gpio_irq_params :=
  match i with
  | A1 => Some a1_params
  | C1 => None
  | C2 => Some c2_params
  | C3 => Some c3_params
  | S4 => Some s4_params
  | S5 => Some s5_params
  | S6 => Some s6_params
  | S7 | S7D => Some s7_params
  | SC2 => Some sc2_params
  | T3 => Some t3_params
  | T3X => Some t3x_params
  | T5M => Some t5m_params
  | T6D => Some t6d_params
  | T7 => Some t7_params
  end.

Lemma soc_intc_family i p : soc_intc i = Some p -> family p.
Proof. destruct i; intros [= <-]; constructor; lia. Qed.

(** All hwirqs of the table are hwirqs of the multiplexer. *)
Definition hwirqs_fitb (i : soc_id) : bool :=
  match soc_intc i with
  | None => true
  | Some p => forallb (fun x => (0 <=? x.2) && (x.2 <? nr_hwirq p)) (hwirqs (soc_pc i [] 0 0))
  end.

Lemma hwirqs_fit i : i <> S5 -> i <> T5M -> hwirqs_fitb i = true.
Proof. destruct i; intros ? ?; by vm_compute. Qed.

Lemma gpio_hwirq_range i p gs mux gpio g h :
  i <> S5 -> i <> T5M -> soc_intc i = Some p ->
  gpio_hwirq (soc_pc i gs mux gpio) g = Some h -> 0 <= h < nr_hwirq p.
Proof.
  intros H1 H2 Hp Hh. pose proof (hwirqs_fit i H1 H2) as Hb. unfold hwirqs_fitb in Hb. rewrite Hp in Hb.
  rewrite forallb_forall in Hb. specialize (Hb (g, h)).
  rewrite <- list_elem_of_In in Hb. cbn [snd] in Hb.
  assert (Hin : (g, h) ∈ hwirqs (soc_pc i [] 0 0)) by (by apply hwirqs_complete).
  specialize (Hb Hin). b2p. lia.
Qed.

Lemma gpio_hwirq_inj i gs mux gpio g g' h :
  i <> T3X -> gpio_hwirq (soc_pc i gs mux gpio) g = Some h -> gpio_hwirq (soc_pc i gs mux gpio) g' = Some h -> g = g'.
Proof.
  intros Hi%all_irqs Hg Hg'. apply bool_decide_eq_true in Hi.
  by apply (NoDup_snd_inj _ g g' h Hi); apply (hwirqs_complete (soc_pc i [] 0 0)).
Qed.

(** Mapping the interrupt of a GPIO on a SoC (the S5, the T5M and the T3X
    apart) succeeds when a channel is free and the parent agrees, and the channel
    then selects the hwirq of that GPIO, which no other GPIO has. *)
Theorem gpio_irq_routed {R} `{RegmapOk R} i p gs mux gpio g h (d : irq_domain R) alloc virq type :
  let pc := soc_pc i gs mux gpio in
  i <> S5 -> i <> T5M -> i <> T3X -> soc_intc i = Some p ->
  gpio_hwirq pc g = Some h -> irq_inv d -> params d.1 = p -> d.2 !! virq = None ->
  Z.of_nat (size d.2) <> channel_num p -> (forall x, 0 <= alloc x) ->
  let '(d', ret) := meson_gpio_irq_domain_alloc alloc d virq 1 (Fwspec true 2 (h, type)) in
  ret = 0 /\ exists ch, d'.2 !! virq = Some (IrqData h ch) /\
    meson_parm_read (regs d'.1) (sel_field (params d'.1) (base d'.1) ch) = h /\
    forall g', gpio_hwirq pc g' = Some (meson_parm_read (regs d'.1) (sel_field (params d'.1) (base d'.1) ch)) -> g' = g.
Proof.
  intros pc H1 H2 H3 Hp Hh Hi Ep Hv Hfree Halloc.
  assert (Hok : op_ok d (OpAlloc alloc virq 1 (Fwspec true 2 (h, type)))).
  { split; [done|]. cbn [fst fw_param]. rewrite Ep. by eapply gpio_hwirq_range. }
  pose proof (exec_inv d _ Hi Hok) as Hi'. cbn [irq_exec] in Hi'.
  pose proof (alloc_result d alloc virq 1 (Fwspec true 2 (h, type)) Hi Hok) as Hr.
  destruct (meson_gpio_irq_domain_alloc alloc d virq 1 _) as [d' ret]. cbn [fst] in Hi'.
  cbn [Z.eqb Pos.eqb negb orb is_of_node param_count andb fw_param fst snd] in Hr.
  rewrite Ep in Hr. rewrite decide_False in Hr by done. destruct Hr as (ch & _ & _ & _ & Hr).
  destruct (Z.ltb_spec (alloc (0, channel_irqs d.1 !!! Z.to_nat ch, meson_gpio_irq_type_output type)) 0) as [Hneg|_].
  { specialize (Halloc (0, channel_irqs d.1 !!! Z.to_nat ch, meson_gpio_irq_type_output type)). lia. }
  destruct Hr as [-> Hd]. split; [done|]. exists ch.
  assert (Hl : d'.2 !! virq = Some (IrqData h ch)) by (rewrite Hd; apply lookup_insert_eq).
  pose proof (inv_route d' Hi' virq _ Hl) as Hro. cbn [channel hwirq] in Hro. rewrite Hro.
  split; [done|]. split; [done|]. intros g' Hg'. by eapply (gpio_hwirq_inj i gs mux gpio).
Qed.

(** The tables of the S5 and of the T5M have GPIOs (GPIOZ_15 and GPIOP_9)
    whose hwirq their multiplexer does not have. *)
Lemma hwirqs_out_of_range i p :
  i = S5 \/ i = T5M -> soc_intc i = Some p ->
  exists g h, gpio_hwirq (soc_pc i [] 0 0) g = Some h /\ nr_hwirq p <= h.
Proof.
  intros Hi Hp.
  assert (Hex : existsb (fun x => nr_hwirq p <=? x.2) (hwirqs (soc_pc i [] 0 0)) = true).
  { destruct Hi as [-> | ->]; injection Hp as <-; by vm_compute. }
  apply existsb_exists in Hex as ([g h] & Hin & Hle). b2p. apply list_elem_of_In in Hin. unfold hwirqs in Hin.
  apply list_elem_of_bind in Hin as (g' & Hin & _). destruct (gpio_hwirq _ g') as [h'|] eqn:E; [|by apply not_elem_of_nil in Hin].
  apply list_elem_of_singleton in Hin. injection Hin as -> ->. eauto.
Qed.

Lemma gpio_irq_routed_witness :
  snd (meson_gpio_irq_domain_alloc (fun _ => 0) demo_domain 100 1 (Fwspec true 2 (30, 1))) = 0.
Proof.
  pose proof (gpio_irq_routed SC2 sc2_params [] 0 0 30 30 demo_domain (fun _ => 0) 100 1 ltac:(done) ltac:(done)
    ltac:(done) eq_refl ltac:(by vm_compute) demo_inv eq_refl ltac:(by vm_compute) ltac:(by vm_compute) ltac:(done)) as Hr.
  destruct (meson_gpio_irq_domain_alloc _ _ _ _ _) as [d' ret]. by destruct Hr.
Defined.
End PinIrq.
