(* ===== verification/Mem.v ===== *)
(** * Byte buffers and outcomes

    Drivers that parse and build binary blocks work on buffers through
    pointers.  A buffer is a list of bytes; an access outside it, like an
    access through NULL, is the outcome [Fault], and a loop that runs out of fuel
    the outcome [Spin], so that theorems can tell a result from both. *)

From S2P Require Import Prelude.
From stdpp Require Import base list numbers.
From Stdlib Require Import ZArith Lia.

Local Open Scope Z_scope.
Local Open Scope cint_scope.

(** ** Outcomes *)

Inductive outcome (A : Type) :=
  | Done (a : A)
  | Fault
  | Spin.
#[global] Arguments Done {A} a.
#[global] Arguments Fault {A}.
#[global] Arguments Spin {A}.

Definition obind {A B} (m : outcome A) (k : A -> outcome B) : outcome B :=
  match m with Done a => k a | Fault => Fault | Spin => Spin end.
Notation "'let*' p ':=' m 'in' k" := (obind m (fun p => k))
  (at level 10, p pattern, m at level 100, k at level 200).

Lemma obind_Done {A B} (m : outcome A) (k : A -> outcome B) a : m = Done a -> obind m k = k a.
Proof. by intros ->. Qed.

(** ** Buffers *)

Abbreviation blen l := (Z.of_nat (length l)).

(** [n] bytes at offset [i]. *)
Definition rdn (l : list Z) (i n : Z) : outcome (list Z) :=
  if (0 <=? i) && (0 <=? n) && (i + n <=? blen l) then Done (take (Z.to_nat n) (drop (Z.to_nat i) l)) else Fault.

(** Overwrite at offset [i]. *)
Definition splice (l : list Z) (i : Z) (bs : list Z) : list Z :=
  take (Z.to_nat i) l ++ bs ++ drop (Z.to_nat (i + blen bs)) l.
Definition wr (l : list Z) (i : Z) (bs : list Z) : outcome (list Z) :=
  if (0 <=? i) && (i + blen bs <=? blen l) then Done (splice l i bs) else Fault.

(** Little-endian words. *)
Definition le32 (v : Z) : list Z := [v .& 0xff; (v >> 8) .& 0xff; (v >> 16) .& 0xff; (v >> 24) .& 0xff].
Definition of_le32 (a b c d : Z) : Z := a .| (b << 8) .| (c << 16) .| (d << 24).
Definition rd32 (l : list Z) (i : Z) : outcome Z :=
  if i <? 0 then Fault
  else match drop (Z.to_nat i) l with a :: b :: c :: d :: _ => Done (of_le32 a b c d) | _ => Fault end.

(** ** Lemmas *)

Lemma le32_length v : blen (le32 v) = 4.
Proof. done. Qed.

Lemma of_le32_le32 v : 0 <= v < 2 ^ 32 ->
  of_le32 (v .& 0xff) ((v >> 8) .& 0xff) ((v >> 16) .& 0xff) ((v >> 24) .& 0xff) = v.
Proof.
  intros Hv. unfold of_le32. change 0xff with (Z.ones 8). apply Z.bits_inj'. intros i Hi.
  rewrite !Z.lor_spec, !Z.shiftl_spec by lia.
  destruct (Z.lt_ge_cases i 32) as [Hi'|Hi'].
  - destruct (Z.lt_ge_cases i 8), (Z.lt_ge_cases i 16), (Z.lt_ge_cases i 24); try lia;
    repeat match goal with
    | |- context [Z.testbit (Z.land _ _) ?j] =>
        first [rewrite (Z.testbit_neg_r _ j) by lia
              | rewrite Z.land_spec, (Z.ones_spec_low 8 j) by lia
              | rewrite Z.land_spec, (Z.ones_spec_high 8 j) by lia]
    end; rewrite ?Z.shiftr_spec by lia; rewrite ?andb_false_r, ?andb_true_r, ?orb_false_r; cbn; f_equal; lia.
  - rewrite (testbit_above v 32) by lia.
    rewrite !Z.land_spec, !(Z.ones_spec_high 8) by lia. by rewrite !andb_false_r.
Qed.

Lemma rdn_app l1 l2 l3 i n :
  i = blen l1 -> n = blen l2 -> rdn (l1 ++ l2 ++ l3) i n = Done l2.
Proof.
  intros -> ->. unfold rdn. rewrite !length_app.
  rewrite !(proj2 (Z.leb_le _ _)) by lia. cbn [andb]. rewrite !Nat2Z.id, drop_app_length, take_app_length. done.
Qed.

Lemma rdn_Done l i n : 0 <= i -> 0 <= n -> i + n <= blen l ->
  rdn l i n = Done (take (Z.to_nat n) (drop (Z.to_nat i) l)).
Proof. intros. unfold rdn. by rewrite !(proj2 (Z.leb_le _ _)) by lia. Qed.

Lemma rd32_app l1 l2 v i :
  i = blen l1 -> 0 <= v < 2 ^ 32 -> rd32 (l1 ++ le32 v ++ l2) i = Done v.
Proof.
  intros -> Hv. unfold rd32. rewrite (proj2 (Z.ltb_ge _ _)) by lia.
  rewrite Nat2Z.id, drop_app_length. cbn. by rewrite of_le32_le32.
Qed.

Lemma rd32_eq l pre v post i :
  l = pre ++ le32 v ++ post -> i = blen pre -> 0 <= v < 2 ^ 32 -> rd32 l i = Done v.
Proof. intros ->. apply rd32_app. Qed.

Lemma splice_length l i bs : 0 <= i -> i + blen bs <= blen l -> length (splice l i bs) = length l.
Proof. intros. unfold splice. rewrite !length_app, length_take, length_drop. lia. Qed.

Lemma wr_Done l i bs : 0 <= i -> i + blen bs <= blen l -> wr l i bs = Done (splice l i bs).
Proof. intros. unfold wr. by rewrite !(proj2 (Z.leb_le _ _)) by lia. Qed.

(** Adjacent writes. *)
Lemma splice_app l i xs ys : 0 <= i -> i + blen xs + blen ys <= blen l ->
  splice (splice l i xs) (i + blen xs) ys = splice l i (xs ++ ys).
Proof.
  intros Hi Hl. unfold splice at 1.
  assert (E : take (Z.to_nat (i + blen xs)) (splice l i xs) = take (Z.to_nat i) l ++ xs).
  { unfold splice. rewrite app_assoc. replace (Z.to_nat (i + blen xs)) with (length (take (Z.to_nat i) l ++ xs)).
    - apply take_app_length.
    - rewrite length_app, length_take. lia. }
  rewrite E. unfold splice. rewrite <- !app_assoc. do 3 f_equal.
  rewrite (app_assoc (take _ _) xs), drop_app_ge by (rewrite length_app, length_take; lia).
  rewrite drop_drop, !length_app, length_take. f_equal. lia.
Qed.

Lemma splice_nil l i : 0 <= i -> splice l i [] = l.
Proof. intros. unfold splice. cbn. rewrite Z.add_0_r. apply take_drop. Qed.

(** What was written is read back. *)
Lemma splice_drop l i bs : 0 <= i -> i + blen bs <= blen l ->
  drop (Z.to_nat i) (splice l i bs) = bs ++ drop (Z.to_nat (i + blen bs)) l.
Proof.
  intros Hi Hl. unfold splice. replace (Z.to_nat i) with (length (take (Z.to_nat i) l)) at 1
    by (rewrite length_take; lia). apply drop_app_length.
Qed.

Lemma splice_take l i bs : 0 <= i -> i + blen bs <= blen l ->
  take (Z.to_nat i) (splice l i bs) = take (Z.to_nat i) l.
Proof.
  intros Hi Hl. unfold splice. rewrite take_app_le by (rewrite length_take; lia).
  rewrite take_take. f_equal. lia.
Qed.

(** Replacing the middle of a buffer. *)
Lemma splice_mid (p b r b' : list Z) i :
  i = blen p -> length b' = length b -> splice (p ++ b ++ r) i b' = p ++ b' ++ r.
Proof.
  intros -> Hb. unfold splice. rewrite Nat2Z.id, take_app_length. do 2 f_equal.
  rewrite Hb. replace (Z.to_nat (blen p + blen b)) with (length p + length b)%nat by lia.
  by rewrite <- drop_drop, drop_app_length, drop_app_length.
Qed.

Lemma splice_over (l a b c b' : list Z) i :
  0 <= i -> length b' = length b -> i + blen (a ++ b ++ c) <= blen l ->
  splice (splice l i (a ++ b ++ c)) (i + blen a) b' = splice l i (a ++ b' ++ c).
Proof.
  intros Hi Hb Hl. rewrite !length_app in Hl. unfold splice at 2 3.
  replace (i + blen (a ++ b' ++ c)) with (i + blen (a ++ b ++ c)) by (rewrite !length_app; lia).
  rewrite <- !(app_assoc a), <- !(app_assoc b), <- !(app_assoc b').
  rewrite !(app_assoc (take _ l) a). apply splice_mid; [|done].
  rewrite length_app, length_take. lia.
Qed.

(** Writing back what is there. *)
Lemma splice_self (l xs : list Z) i n :
  0 <= i -> 0 <= n -> i + blen xs + n <= blen l ->
  splice l i (xs ++ take (Z.to_nat n) (drop (Z.to_nat (i + blen xs)) l)) = splice l i xs.
Proof.
  intros Hi Hn Hl. unfold splice. rewrite <- app_assoc. do 2 f_equal.
  rewrite <- (take_drop (Z.to_nat n) (drop (Z.to_nat (i + blen xs)) l)) at 3. f_equal.
  rewrite drop_drop. f_equal. rewrite length_app, length_take, length_drop. lia.
Qed.

Lemma splice_0 l bs : splice l 0 bs = bs ++ drop (length bs) l.
Proof. unfold splice. rewrite Z.add_0_l, Nat2Z.id. done. Qed.

(** Words of a buffer of bytes. *)
Definition is_byte (x : Z) : Prop := 0 <= x < 256.

Lemma nth_byte bs i : Forall is_byte bs -> is_byte (nth i bs 0).
Proof.
  intros Hb. destruct (nth_lookup_or_length bs i 0) as [E|E].
  - by eapply Forall_lookup_1 in E.
  - rewrite nth_overflow by done. done.
Qed.

Lemma of_le32_range a b c d : is_byte a -> is_byte b -> is_byte c -> is_byte d -> 0 <= of_le32 a b c d < 2 ^ 32.
Proof.
  unfold is_byte. intros. unfold of_le32. rewrite !Z.shiftl_mul_pow2 by lia.
  repeat apply lor_bound; try lia.
Qed.

Lemma rd32_range l i v : Forall is_byte l -> rd32 l i = Done v -> 0 <= v < 2 ^ 32.
Proof.
  intros Hl. unfold rd32. destruct (i <? 0); [done|]. apply (Forall_drop _ (Z.to_nat i)) in Hl.
  destruct (drop (Z.to_nat i) l) as [|a [|b [|c [|d r]]]]; try done. intros [= <-].
  do 4 (apply Forall_cons_1 in Hl as [? Hl]). apply of_le32_range; assumption.
Qed.

(** Straight-line code does not loop. *)
Create HintDb nospin.
Lemma nospin_Done {A} (a : A) : Done a <> Spin. Proof. done. Qed.
Lemma nospin_Fault {A} : @Fault A <> Spin. Proof. done. Qed.
Lemma nospin_bind {A B} (m : outcome A) (k : A -> outcome B) :
  m <> Spin -> (forall a, k a <> Spin) -> obind m k <> Spin.
Proof. destruct m; cbn; auto. Qed.
Lemma nospin_if {A} (c : bool) (a b : outcome A) : a <> Spin -> b <> Spin -> (if c then a else b) <> Spin.
Proof. by destruct c. Qed.
Lemma nospin_rdn l i n : rdn l i n <> Spin.
Proof. unfold rdn. by case_match. Qed.
Lemma nospin_wr l i bs : wr l i bs <> Spin.
Proof. unfold wr. by case_match. Qed.
Lemma nospin_rd32 l i : rd32 l i <> Spin.
Proof. unfold rd32. destruct (i <? 0); [done|]. by destruct (drop _ l) as [|? [|? [|? [|? ?]]]]. Qed.
#[export] Hint Resolve nospin_Done nospin_Fault nospin_bind nospin_if nospin_rdn nospin_wr nospin_rd32 : nospin.
