(* ===== verification/KeyTlv.v ===== *)
(** * Tag-length-value records of the key block (src/drivers/efuse_unifykey/normal_key.c)

    The keys of a device without secure storage are kept in one flash block as
    tag-length-value records.  This file models the readers and writers of the
    records: [Tlv_ReadTl], [Tlv_ReadHead], [Tlv_ReadObject], [Tlv_WriteHead],
    [Tlv_WriteObject], and the macros the writers use.

    The theorems: a writer writes exactly the encoding of its object, or
    reports that there is no room, and never leaves the space it was given; a
    reader given an encoding returns its object; on bytes that no writer
    produced the reader may loop for ever or leave its buffer. *)

From S2P Require Import Prelude Mem.
From stdpp Require Import base list numbers.
From Stdlib Require Import ZArith Lia.

Local Open Scope Z_scope.
Local Open Scope cint_scope.

Module KeyTlv.

Definition MAX_OBJ_NAME_LEN : Z := 80.

(** enum emTLVTag *)
Definition EMTLVHEAD : Z := 1.
Definition EMTLVHEADSIZE : Z := 2.
Definition EMTLVOBJECT : Z := 3.
Definition EMTLVOBJNAMESIZE : Z := 4.
Definition EMTLVOBJNAME : Z := 5.
Definition EMTLVOBJDATASIZE : Z := 6.
Definition EMTLVOBJDATABUF : Z := 7.
Definition EMTLVOBJTYPE : Z := 8.
Definition EMTLVOBJATTR : Z := 9.
Definition EMTLVOBJHASHBUF : Z := 10.
Definition EMTLVHEADFLASHSIZE : Z := 11.

(** struct storage_object; [dataptr] is the buffer it points to, None NULL. *)
Record storage_object := Obj {
  name : list Z;
  namesize : Z;
  attribute : Z;
  type : Z;
  datasize : Z;
  dataptr : option (list Z);
  hashptr : list Z;
}.

Record storage_block_enc_head := EncHead { blocksize : Z; flashsize : Z }.

(** The effect of memset(obj, 0, sizeof(obj)). *)
Definition obj_zero : storage_object :=
  Obj (replicate (Z.to_nat MAX_OBJ_NAME_LEN) 0) 0 0 0 0 None (replicate 32 0).

(** ** Readers

    [inp] are the bytes from the pointer [input] to the end of the block in
    memory, [i] the offset of the record. *)

(** The tag and the length, or nothing (the code returns 0). *)
Definition Tlv_ReadTl (inp : list Z) (i len : Z) : outcome (option (Z * Z)) :=
  if len <? 8 then Done None
  else
    let* tag := rd32 inp i in
    let* length := rd32 inp (i + 4) in
    if len <? u32 (8 + length) then Done None else Done (Some (tag, length)).

Fixpoint head_loop (fuel : nat) (inp : list Z) (len sum idx : Z) (h : storage_block_enc_head)
  : outcome (storage_block_enc_head * Z) :=
  match fuel with
  | O => Spin
  | S fuel =>
      if sum <=? idx then Done (h, sum)
      else
        let* r := Tlv_ReadTl inp idx (s32 (len - idx)) in
        match r with
        | None => Done (h, 0)
        | Some (tag, length) =>
            let idx := u32 (idx + 8) in
            let* h :=
              (if tag =? EMTLVHEADSIZE then let* v := rd32 inp idx in Done (EncHead v (flashsize h))
               else if tag =? EMTLVHEADFLASHSIZE then let* v := rd32 inp idx in Done (EncHead (blocksize h) v)
               else Done h) in
            head_loop fuel inp len sum (u32 (idx + length)) h
        end
  end.

Definition Tlv_ReadHead (fuel : nat) (inp : list Z) (len : Z) (h : storage_block_enc_head)
  : outcome (storage_block_enc_head * Z) :=
  let* r := Tlv_ReadTl inp 0 len in
  match r with
  | None => Done (h, 0)
  | Some (tag, sum) =>
      if negb (tag =? EMTLVHEAD) then Done (h, 0)
      else head_loop fuel inp len (u32 (sum + 8)) 8 h
  end.

(** One record of an object; [None]: the jump to tlv_readkeycontent_err.
    [kmalloc]: which allocations succeed. *)
Definition read_field (kmalloc : Z -> bool) (inp : list Z) (idx tag length : Z) (o : storage_object)
  : outcome (option storage_object) :=
  if tag =? EMTLVOBJNAMESIZE then
    let* v := rd32 inp idx in
    Done (Some (Obj (name o) v (attribute o) (type o) (datasize o) (dataptr o) (hashptr o)))
  else if tag =? EMTLVOBJNAME then
    let* bs := rdn inp idx (namesize o) in
    let* nm := wr (replicate (Z.to_nat MAX_OBJ_NAME_LEN) 0) 0 bs in
    Done (Some (Obj nm (namesize o) (attribute o) (type o) (datasize o) (dataptr o) (hashptr o)))
  else if tag =? EMTLVOBJTYPE then
    let* v := rd32 inp idx in
    Done (Some (Obj (name o) (namesize o) (attribute o) v (datasize o) (dataptr o) (hashptr o)))
  else if tag =? EMTLVOBJATTR then
    let* v := rd32 inp idx in
    Done (Some (Obj (name o) (namesize o) v (type o) (datasize o) (dataptr o) (hashptr o)))
  else if tag =? EMTLVOBJDATASIZE then
    let* v := rd32 inp idx in
    Done (Some (Obj (name o) (namesize o) (attribute o) (type o) v (dataptr o) (hashptr o)))
  else if tag =? EMTLVOBJHASHBUF then
    if negb (length =? 32) then Done None
    else
      let* bs := rdn inp idx length in
      Done (Some (Obj (name o) (namesize o) (attribute o) (type o) (datasize o) (dataptr o) bs))
  else if tag =? EMTLVOBJDATABUF then
    if negb (kmalloc (datasize o)) then Done None
    else
      let* bs := rdn inp idx (datasize o) in
      Done (Some (Obj (name o) (namesize o) (attribute o) (type o) (datasize o) (Some bs) (hashptr o)))
  else Done (Some o).

Fixpoint object_loop (fuel : nat) (kmalloc : Z -> bool) (inp : list Z) (len sum idx : Z) (o : storage_object)
  : outcome (storage_object * Z) :=
  match fuel with
  | O => Spin
  | S fuel =>
      if sum <=? idx then Done (o, sum)
      else
        let* r := Tlv_ReadTl inp idx (s32 (len - idx)) in
        match r with
        | None => Done (o, 0)
        | Some (tag, length) =>
            let idx := u32 (idx + 8) in
            let* r := read_field kmalloc inp idx tag length o in
            match r with
            | None => Done (o, 0)
            | Some o => object_loop fuel kmalloc inp len sum (u32 (idx + length)) o
            end
        end
  end.

Definition Tlv_ReadObject (fuel : nat) (kmalloc : Z -> bool) (inp : list Z) (len : Z) : outcome (storage_object * Z) :=
  let o := obj_zero in
  let* r := Tlv_ReadTl inp 0 len in
  match r with
  | None => Done (o, 0)
  | Some (tag, sum) =>
      if negb (tag =? EMTLVOBJECT) then Done (o, 0)
      else object_loop fuel kmalloc inp len (u32 (sum + 8)) 8 o
  end.

(** ** Writers

    [out] is the whole block, [off] the offset of the pointer [output] in it.
    A step of a writer takes the block and idx and gives the block and the new
    idx, or nothing when the function returns 0. *)

Definition writer : Type := list Z * Z -> outcome (list Z * option Z).
Definition wseq (a b : writer) : writer := fun s =>
  let* r := a s in
  match r with (out, None) => Done (out, None) | (out, Some idx) => b (out, idx) end.
Definition wif (c : bool) (a : writer) : writer := fun s =>
  if c then a s else let '(out, idx) := s in Done (out, Some idx).
Notation "a ;;; b" := (wseq a b) (at level 100, right associativity).

(** The bytes written, 0 when there is no room. *)
Definition Tlv_WriteUint32 (out : list Z) (off len tag value : Z) : outcome (list Z * Z) :=
  if len <? 12 then Done (out, 0)
  else let* out := wr out off (le32 tag ++ le32 4 ++ le32 value) in Done (out, 12).

Definition Tlv_WriteBuf (out : list Z) (off len tag length : Z) (input : list Z) : outcome (list Z * Z) :=
  let tmplen := u32 ((u32 (length + 3) / 4) * 4) in
  if len <? s32 (8 + tmplen) then Done (out, 0)
  else
    let* out := wr out off (le32 tag ++ le32 tmplen ++ replicate (Z.to_nat tmplen) 0) in
    let* bs := rdn input 0 length in
    let* out := wr out (off + 8) bs in
    Done (out, u32 (tmplen + 8)).

Definition advance (idx : Z) (r : outcome (list Z * Z)) : outcome (list Z * option Z) :=
  let* (out, tmp) := r in
  Done (out, if truthy tmp then Some (u32 (idx + tmp)) else None).
Definition WRT_UINT32 (off len tag field : Z) : writer := fun '(out, idx) =>
  advance idx (Tlv_WriteUint32 out (off + idx) (s32 (len - idx)) tag field).
Definition WRT_BUF (off len tag buflen : Z) (buf : list Z) : writer := fun '(out, idx) =>
  advance idx (Tlv_WriteBuf out (off + idx) (s32 (len - idx)) tag buflen buf).

(** The common frame: the tag, the records, the length of the records. *)
Definition write_frame (out : list Z) (off len tag : Z) (body : writer) : outcome (list Z * Z) :=
  if len <? 8 then Done (out, 0)
  else
    let* out := wr out off (le32 tag) in
    let* r := body (out, 8) in
    match r with
    | (out, None) => Done (out, 0)
    | (out, Some idx) => let* out := wr out (off + 4) (le32 (u32 (idx - 8))) in Done (out, idx)
    end.

Definition Tlv_WriteHead (h : storage_block_enc_head) (out : list Z) (off len : Z) : outcome (list Z * Z) :=
  write_frame out off len EMTLVHEAD
    (WRT_UINT32 off len EMTLVHEADSIZE (blocksize h) ;;;
     WRT_UINT32 off len EMTLVHEADFLASHSIZE (flashsize h)).

Definition Tlv_WriteObject (o : storage_object) (out : list Z) (off len : Z) : outcome (list Z * Z) :=
  write_frame out off len EMTLVOBJECT
    (wif (negb (namesize o =? 0))
       (WRT_UINT32 off len EMTLVOBJNAMESIZE (namesize o) ;;;
        WRT_BUF off len EMTLVOBJNAME (namesize o) (name o)) ;;;
     wif (match dataptr o with Some _ => negb (datasize o =? 0) | None => false end)
       (WRT_UINT32 off len EMTLVOBJDATASIZE (datasize o) ;;;
        WRT_BUF off len EMTLVOBJDATABUF (datasize o) (default [] (dataptr o))) ;;;
     WRT_BUF off len EMTLVOBJHASHBUF 32 (hashptr o) ;;;
     WRT_UINT32 off len EMTLVOBJTYPE (type o) ;;;
     WRT_UINT32 off len EMTLVOBJATTR (attribute o)).

(** ** Encodings *)

Definition tlv (tag : Z) (p : list Z) : list Z := le32 tag ++ le32 (blen p) ++ p.
Definition pad4 (bs : list Z) : list Z :=
  bs ++ replicate (Z.to_nat ((blen bs + 3) / 4 * 4 - blen bs)) 0.

Definition enc_head (h : storage_block_enc_head) : list Z :=
  tlv EMTLVHEAD (tlv EMTLVHEADSIZE (le32 (blocksize h)) ++ tlv EMTLVHEADFLASHSIZE (le32 (flashsize h))).

(** The bytes the fields of an object stand for. *)
Definition obj_name (o : storage_object) : list Z := take (Z.to_nat (namesize o)) (name o).
Definition obj_data (o : storage_object) : list Z := take (Z.to_nat (datasize o)) (default [] (dataptr o)).

Definition enc_name (o : storage_object) : list Z :=
  if namesize o =? 0 then []
  else tlv EMTLVOBJNAMESIZE (le32 (namesize o)) ++ tlv EMTLVOBJNAME (pad4 (obj_name o)).
Definition enc_data (o : storage_object) : list Z :=
  tlv EMTLVOBJDATASIZE (le32 (datasize o)) ++ tlv EMTLVOBJDATABUF (pad4 (obj_data o)).
Definition enc_fields (o : storage_object) : list Z :=
  enc_name o ++ enc_data o ++ tlv EMTLVOBJHASHBUF (hashptr o) ++ tlv EMTLVOBJTYPE (le32 (type o)) ++
  tlv EMTLVOBJATTR (le32 (attribute o)).
Definition enc_object (o : storage_object) : list Z := tlv EMTLVOBJECT (enc_fields o).

(** An object as the store keeps it: the fields in range, the data present. *)
Record obj_wf (o : storage_object) : Prop := {
  wf_name : length (name o) = Z.to_nat MAX_OBJ_NAME_LEN;
  wf_namesize : 0 <= namesize o <= MAX_OBJ_NAME_LEN;
  wf_datasize : 0 < datasize o < 2 ^ 30;
  wf_data : exists buf, dataptr o = Some buf /\ datasize o <= blen buf;
  wf_hash : length (hashptr o) = 32%nat;
  wf_type : 0 <= type o < 2 ^ 32;
  wf_attr : 0 <= attribute o < 2 ^ 32;
}.

Lemma tlv_length tag p : blen (tlv tag p) = 8 + blen p.
Proof. unfold tlv. rewrite !length_app. cbn. lia. Qed.

Lemma pad4_length bs : blen (pad4 bs) = (blen bs + 3) / 4 * 4.
Proof. unfold pad4. rewrite length_app, length_replicate. Z.to_euclidean_division_equations; lia. Qed.

(** ** What a writer writes *)

(** [out'] is [out] but for the [len] bytes at [off]. *)
Definition within (off len : Z) (out out' : list Z) : Prop :=
  length out' = length out /\ take (Z.to_nat off) out' = take (Z.to_nat off) out /\
  drop (Z.to_nat (off + len)) out' = drop (Z.to_nat (off + len)) out.

Definition writes (off len : Z) (w : writer) (bs : list Z) : Prop :=
  forall out idx, 0 <= off -> 0 <= idx <= len -> off + len <= blen out -> len < 2 ^ 31 ->
  if idx + blen bs <=? len then w (out, idx) = Done (splice out (off + idx) bs, Some (idx + blen bs))
  else exists out', w (out, idx) = Done (out', None) /\ within off len out out'.

Lemma within_refl off len out : within off len out out.
Proof. done. Qed.

Lemma within_trans off len a b c : within off len a b -> within off len b c -> within off len a c.
Proof. intros (? & ? & ?) (? & ? & ?). split; [congruence|]. split; congruence. Qed.

Lemma within_splice off len out i bs :
  0 <= off <= i -> i + blen bs <= off + len -> off + len <= blen out -> within off len out (splice out i bs).
Proof.
  intros Hi Hl Ho. split; [apply splice_length; lia|]. unfold splice. split.
  - rewrite take_app_le by (rewrite length_take; lia). rewrite take_take. f_equal. lia.
  - rewrite app_assoc, drop_app_ge by (rewrite length_app, length_take; lia).
    rewrite drop_drop. f_equal. rewrite length_app, length_take. lia.
Qed.

Lemma writes_seq off len a b xs ys : writes off len a xs -> writes off len b ys -> writes off len (a ;;; b) (xs ++ ys).
Proof.
  intros Ha Hb out idx Ho Hi Hl Hlen. specialize (Ha out idx Ho Hi Hl Hlen). unfold wseq.
  rewrite length_app. destruct (Z.leb_spec (idx + blen xs) len).
  - rewrite Ha. cbn [obind].
    assert (Hw : within off len out (splice out (off + idx) xs)) by (apply within_splice; lia).
    specialize (Hb (splice out (off + idx) xs) (idx + blen xs) Ho ltac:(lia)
                  ltac:(rewrite (proj1 Hw); lia) Hlen).
    destruct (Z.leb_spec (idx + blen xs + blen ys) len) as [Hle|Hgt].
    + rewrite (proj2 (Z.leb_le _ _)) by lia. rewrite Hb, Z.add_assoc, splice_app by lia.
      do 3 f_equal. lia.
    + rewrite (proj2 (Z.leb_gt _ _)) by lia. destruct Hb as (out' & -> & Hw').
      exists out'. split; [done|]. by eapply within_trans.
  - rewrite (proj2 (Z.leb_gt _ _)) by lia. destruct Ha as (out' & -> & Hw). by exists out'.
Qed.

Lemma writes_if off len (c : bool) a xs : writes off len a xs -> writes off len (wif c a) (if c then xs else []).
Proof.
  intros Ha out idx Ho Hi Hl Hlen. unfold wif. destruct c; [by apply Ha|]. cbn [length].
  rewrite (proj2 (Z.leb_le _ _)), splice_nil, Z.add_0_r by lia. done.
Qed.

Lemma s32_sub len idx : 0 <= idx <= len -> len < 2 ^ 31 -> s32 (len - idx) = len - idx.
Proof. intros. apply s32_small. lia. Qed.

Lemma advance_Done idx out n :
  0 < n -> 0 <= idx -> idx + n < 2 ^ 32 -> advance idx (Done (out, n)) = Done (out, Some (idx + n)).
Proof.
  intros. unfold advance. cbn [obind]. unfold truthy. rewrite (proj2 (Z.eqb_neq _ _)) by lia. cbn [negb].
  by rewrite u32_small by lia.
Qed.

Lemma writes_u32 off len tag v : writes off len (WRT_UINT32 off len tag v) (tlv tag (le32 v)).
Proof.
  intros out idx Ho Hi Hl Hlen. unfold WRT_UINT32, Tlv_WriteUint32. rewrite s32_sub by lia.
  rewrite tlv_length. change (8 + blen (le32 v)) with 12.
  destruct (Z.leb_spec (idx + 12) len).
  - rewrite (proj2 (Z.ltb_ge _ _)) by lia. change (le32 tag ++ le32 4 ++ le32 v) with (tlv tag (le32 v)).
    rewrite wr_Done by (rewrite ?tlv_length; cbn; lia). cbn [obind]. apply advance_Done; lia.
  - rewrite (proj2 (Z.ltb_lt _ _)) by lia. exists out. split; [done|]. apply within_refl.
Qed.

Lemma replicate_split (bs : list Z) n k :
  blen bs <= n -> k = Z.to_nat (n - blen bs) -> replicate (Z.to_nat n) 0 = replicate (length bs) 0 ++ replicate k (0 : Z).
Proof. intros Hb ->. rewrite <- replicate_add. f_equal. lia. Qed.

Lemma writes_buf off len tag n buf :
  0 <= n < 2 ^ 30 -> n <= blen buf ->
  writes off len (WRT_BUF off len tag n buf) (tlv tag (pad4 (take (Z.to_nat n) buf))).
Proof.
  intros Hn Hb out idx Ho Hi Hl Hlen. unfold WRT_BUF, Tlv_WriteBuf. rewrite s32_sub by lia.
  set (bs := take (Z.to_nat n) buf). assert (Hbs : blen bs = n) by (unfold bs; rewrite length_take; lia).
  assert (Ht : u32 (u32 (n + 3) / 4 * 4) = (n + 3) / 4 * 4).
  { rewrite (u32_small (n + 3)) by lia. apply u32_small. Z.to_euclidean_division_equations; lia. }
  assert (Hp : n <= (n + 3) / 4 * 4 <= n + 3) by (Z.to_euclidean_division_equations; lia).
  rewrite Ht. set (t := (n + 3) / 4 * 4) in *. rewrite s32_small by lia.
  rewrite tlv_length, pad4_length, Hbs. fold t.
  destruct (Z.leb_spec (idx + (8 + t)) len).
  - rewrite (proj2 (Z.ltb_ge _ _)) by lia.
    assert (E8 : blen (le32 tag ++ le32 t) = 8) by done.
    rewrite wr_Done by (rewrite ?length_app, ?length_replicate; cbn; lia). cbn [obind].
    rewrite rdn_Done by lia. cbn [obind]. rewrite drop_0. fold bs.
    assert (Hlo : length (splice out (off + idx) (le32 tag ++ le32 t ++ replicate (Z.to_nat t) 0)) = length out).
    { apply splice_length; rewrite ?length_app, ?length_replicate; cbn; lia. }
    rewrite wr_Done by lia. cbn [obind].
    rewrite (replicate_split bs t (Z.to_nat (t - n))) by lia.
    rewrite u32_small, (Z.add_comm t 8), advance_Done by lia. f_equal. f_equal.
    assert (Ep : blen (pad4 bs) = t) by (by rewrite pad4_length, Hbs).
    unfold tlv. rewrite Ep. unfold pad4. rewrite Hbs. fold t.
    pose proof (splice_over out (le32 tag ++ le32 t) (replicate (length bs) 0) (replicate (Z.to_nat (t - n)) 0) bs
      (off + idx)) as Hs. rewrite E8, <- !app_assoc in Hs. apply Hs; [lia|by rewrite length_replicate|].
    rewrite !length_app, !length_replicate. cbn. lia.
  - rewrite (proj2 (Z.ltb_lt _ _)) by lia. exists out. split; [done|]. apply within_refl.
Qed.

Lemma write_frame_spec out off len tag body bs :
  writes off len body bs -> 0 <= off -> off + len <= blen out -> 0 <= len < 2 ^ 31 ->
  if 8 + blen bs <=? len then write_frame out off len tag body = Done (splice out off (tlv tag bs), 8 + blen bs)
  else exists out', write_frame out off len tag body = Done (out', 0) /\ within off len out out'.
Proof.
  intros Hw Ho Hl Hlen. unfold write_frame. destruct (Z.ltb_spec len 8).
  { rewrite (proj2 (Z.leb_gt _ _)) by lia. exists out. split; [done|]. apply within_refl. }
  rewrite wr_Done by (cbn; lia). cbn [obind].
  assert (Hin : within off len out (splice out off (le32 tag))) by (apply within_splice; cbn; lia).
  specialize (Hw (splice out off (le32 tag)) 8 Ho ltac:(lia) ltac:(rewrite (proj1 Hin); lia) ltac:(lia)).
  destruct (Z.leb_spec (8 + blen bs) len); cycle 1.
  { destruct Hw as (out' & -> & Hw'). exists out'. split; [done|]. by eapply within_trans. }
  rewrite Hw. cbn [obind]. set (old := take (Z.to_nat 4) (drop (Z.to_nat (off + blen (le32 tag))) out)).
  assert (Hold : length old = 4%nat).
  { unfold old. rewrite length_take, length_drop. cbn. lia. }
  assert (E : splice (splice out off (le32 tag)) (off + 8) bs = splice out off (le32 tag ++ old ++ bs)).
  { unfold old. rewrite <- (splice_self out (le32 tag) off 4) by (cbn; lia). fold old.
    replace (off + 8) with (off + blen (le32 tag ++ old)) by (rewrite length_app, Hold; cbn; lia).
    rewrite splice_app, app_assoc by (rewrite ?length_app, ?Hold; cbn; lia). done. }
  assert (Hs : length (splice out off (le32 tag ++ old ++ bs)) = length out)
    by (apply splice_length; rewrite ?length_app, ?Hold; cbn; lia).
  rewrite E, wr_Done by (rewrite ?Hs; cbn; lia). cbn [obind].
  rewrite u32_small by lia. f_equal. f_equal. unfold tlv.
  replace (8 + blen bs - 8) with (blen bs) by lia.
  apply (splice_over out (le32 tag) old bs (le32 (blen bs)) off); [lia|by rewrite Hold|].
  rewrite !length_app, Hold. cbn. lia.
Qed.

Lemma write_head_spec h out off len :
  0 <= off -> off + len <= blen out -> 0 <= len < 2 ^ 31 ->
  if blen (enc_head h) <=? len then Tlv_WriteHead h out off len = Done (splice out off (enc_head h), blen (enc_head h))
  else exists out', Tlv_WriteHead h out off len = Done (out', 0) /\ within off len out out'.
Proof.
  intros Ho Hl Hlen. unfold enc_head. rewrite tlv_length.
  apply write_frame_spec; try done. apply writes_seq; apply writes_u32.
Qed.

Lemma pad4_hash bs : length bs = 32%nat -> pad4 bs = bs.
Proof. intros Hb. unfold pad4. rewrite Hb. cbn. apply app_nil_r. Qed.

Lemma write_object_spec o out off len :
  obj_wf o -> 0 <= off -> off + len <= blen out -> 0 <= len < 2 ^ 31 ->
  if blen (enc_object o) <=? len
  then Tlv_WriteObject o out off len = Done (splice out off (enc_object o), blen (enc_object o))
  else exists out', Tlv_WriteObject o out off len = Done (out', 0) /\ within off len out out'.
Proof.
  intros Hwf Ho Hl Hlen. unfold enc_object. rewrite tlv_length.
  apply write_frame_spec; try done. unfold enc_fields.
  destruct Hwf as [Hn Hns Hds (buf & Hbuf & Hbl) Hh _ _]. unfold MAX_OBJ_NAME_LEN in *.
  apply writes_seq; [|apply writes_seq; [|apply writes_seq; [|apply writes_seq; apply writes_u32]]].
  - assert (writes off len (WRT_UINT32 off len EMTLVOBJNAMESIZE (namesize o) ;;;
        WRT_BUF off len EMTLVOBJNAME (namesize o) (name o))
        (tlv EMTLVOBJNAMESIZE (le32 (namesize o)) ++ tlv EMTLVOBJNAME (pad4 (obj_name o)))) as Hw.
    { apply writes_seq; [apply writes_u32|]. apply writes_buf; lia. }
    apply (writes_if off len (negb (namesize o =? 0))) in Hw. unfold enc_name.
    by destruct (namesize o =? 0).
  - rewrite Hbuf. rewrite (proj2 (Z.eqb_neq _ _)) by lia. cbn [negb].
    unfold enc_data, obj_data. rewrite Hbuf. change (default [] (Some buf)) with buf.
    match goal with |- writes _ _ (wif true ?w) _ => change (wif true w) with w end.
    apply writes_seq; [apply writes_u32|]. apply writes_buf; lia.
  - assert (E : tlv EMTLVOBJHASHBUF (hashptr o) = tlv EMTLVOBJHASHBUF (pad4 (take (Z.to_nat 32) (hashptr o)))).
    { rewrite take_ge by (rewrite Hh; done). by rewrite pad4_hash. }
    rewrite E. apply writes_buf; rewrite ?Hh; lia.
Qed.

(** ** Reading an encoding *)

Lemma read_tl_tlv pre tag p rest i len :
  i = blen pre -> 0 <= tag < 2 ^ 32 -> 8 + blen p <= len -> len < 2 ^ 31 ->
  Tlv_ReadTl (pre ++ tlv tag p ++ rest) i len = Done (Some (tag, blen p)).
Proof.
  intros -> Ht Hp Hlen. unfold Tlv_ReadTl. rewrite (proj2 (Z.ltb_ge _ _)) by lia. unfold tlv.
  rewrite <- !app_assoc, (rd32_app pre) by done. cbn [obind].
  rewrite (app_assoc pre), (rd32_app (pre ++ le32 tag)) by (rewrite ?length_app; cbn; lia). cbn [obind].
  rewrite u32_small by lia. by rewrite (proj2 (Z.ltb_ge _ _)) by lia.
Qed.

(** One turn of the loop on a record. *)
Lemma object_loop_step fuel kmalloc pre tag p rest len sum idx o o' :
  idx = blen pre -> 0 <= tag < 2 ^ 32 -> idx + 8 + blen p <= len -> len < 2 ^ 31 -> idx < sum ->
  read_field kmalloc (pre ++ tlv tag p ++ rest) (idx + 8) tag (blen p) o = Done (Some o') ->
  object_loop (S fuel) kmalloc (pre ++ tlv tag p ++ rest) len sum idx o =
  object_loop fuel kmalloc ((pre ++ tlv tag p) ++ rest) len sum (blen (pre ++ tlv tag p)) o'.
Proof.
  intros Hi Ht Hl Hlen Hs Hr. cbn [object_loop]. rewrite (proj2 (Z.leb_gt _ _)) by lia.
  rewrite s32_sub by lia. rewrite read_tl_tlv by (done || lia). cbn [obind].
  rewrite !(u32_small (idx + 8)) by lia. rewrite Hr. cbn [obind].
  rewrite u32_small by lia. rewrite length_app, <- app_assoc. f_equal.
  rewrite Nat2Z.inj_add, tlv_length. lia.
Qed.

Lemma read_u32_field pre tag v rest idx :
  idx = blen pre -> 0 <= v < 2 ^ 32 -> rd32 (pre ++ tlv tag (le32 v) ++ rest) (idx + 8) = Done v.
Proof.
  intros -> Hv. unfold tlv. rewrite <- !app_assoc, (app_assoc (le32 tag)), (app_assoc pre).
  apply rd32_app; [|done]. rewrite !length_app. cbn. lia.
Qed.

Lemma read_buf_field pre tag bs rest idx n :
  idx = blen pre -> n = blen bs -> rdn (pre ++ tlv tag (pad4 bs) ++ rest) (idx + 8) n = Done bs.
Proof.
  intros -> ->. unfold tlv, pad4. rewrite <- !app_assoc, (app_assoc (le32 tag)), (app_assoc pre).
  apply rdn_app; [|done]. rewrite !length_app. cbn. lia.
Qed.

(** The object that is read back: the unused bytes of its name are zero, its
    buffer has its size. *)
Definition norm (o : storage_object) : storage_object :=
  Obj (obj_name o ++ replicate (Z.to_nat (MAX_OBJ_NAME_LEN - namesize o)) 0) (namesize o) (attribute o) (type o)
    (datasize o) (Some (obj_data o)) (hashptr o).

Lemma obj_name_length o : obj_wf o -> blen (obj_name o) = namesize o.
Proof. intros [Hn Hns _ _ _ _ _]. unfold obj_name, MAX_OBJ_NAME_LEN in *. rewrite length_take. lia. Qed.
Lemma obj_data_length o : obj_wf o -> blen (obj_data o) = datasize o.
Proof.
  intros [_ _ Hds (buf & Hb & Hl) _ _ _]. unfold obj_data. rewrite Hb. change (default [] (Some buf)) with buf.
  rewrite length_take. lia.
Qed.

Lemma name_written bs : blen bs <= MAX_OBJ_NAME_LEN ->
  wr (replicate (Z.to_nat MAX_OBJ_NAME_LEN) 0) 0 bs =
  Done (bs ++ replicate (Z.to_nat (MAX_OBJ_NAME_LEN - blen bs)) 0).
Proof.
  unfold MAX_OBJ_NAME_LEN. intros Hb. rewrite wr_Done by (rewrite ?length_replicate; lia). unfold splice.
  rewrite drop_replicate. change (take (Z.to_nat 0) (replicate (Z.to_nat 80) 0)) with (@nil Z).
  cbn [app]. do 3 f_equal. lia.
Qed.

(** Both name records. *)
Lemma read_name fuel kmalloc pre o rest len sum o0 :
  obj_wf o -> blen pre + blen (enc_name o) <= len -> len < 2 ^ 31 ->
  blen pre + blen (enc_name o) < sum -> namesize o0 = 0 -> name o0 = replicate (Z.to_nat MAX_OBJ_NAME_LEN) 0 ->
  exists fuel', (fuel <= fuel')%nat /\
  object_loop (2 + fuel) kmalloc (pre ++ enc_name o ++ rest) len sum (blen pre) o0 =
  object_loop fuel' kmalloc ((pre ++ enc_name o) ++ rest) len sum (blen (pre ++ enc_name o))
    (Obj (obj_name o ++ replicate (Z.to_nat (MAX_OBJ_NAME_LEN - namesize o)) 0) (namesize o)
       (attribute o0) (type o0) (datasize o0) (dataptr o0) (hashptr o0)).
Proof.
  intros Hwf Hl Hlen Hs Hns0 Hnm0. pose proof (obj_name_length o Hwf) as Hnl. pose proof (wf_namesize o Hwf) as Hns.
  unfold enc_name in *. destruct (Z.eqb_spec (namesize o) 0) as [E|E].
  - exists (2 + fuel)%nat. split; [lia|]. rewrite app_nil_r. cbn [app]. f_equal.
    destruct o0. cbn in *. subst. unfold obj_name. rewrite E. cbn. done.
  - exists fuel. split; [lia|]. unfold MAX_OBJ_NAME_LEN in *.
    rewrite !length_app, !Nat2Z.inj_add, !tlv_length, pad4_length in Hl, Hs. change (blen (le32 (namesize o))) with 4 in *.
    assert (0 <= (blen (obj_name o) + 3) / 4 * 4) by (Z.to_euclidean_division_equations; lia).
    rewrite <- app_assoc. cbn [Nat.add].
    erewrite (object_loop_step (S fuel) kmalloc pre); [|done|by vm_compute|cbn; lia|lia|lia|]; cycle 1.
    { unfold read_field. cbn [Z.eqb Pos.eqb EMTLVOBJNAMESIZE]. rewrite read_u32_field by (done || lia). done. }
    erewrite (object_loop_step fuel kmalloc (pre ++ tlv EMTLVOBJNAMESIZE (le32 (namesize o))));
      [|done|by vm_compute|rewrite length_app, Nat2Z.inj_add, tlv_length, pad4_length; cbn; lia|lia
       |rewrite length_app, Nat2Z.inj_add, tlv_length; cbn; lia|]; cycle 1.
    { unfold read_field. cbn [Z.eqb Pos.eqb EMTLVOBJNAMESIZE EMTLVOBJNAME namesize].
      rewrite (read_buf_field (pre ++ tlv EMTLVOBJNAMESIZE (le32 (namesize o)))) by done. cbn [obind].
      rewrite name_written by (unfold MAX_OBJ_NAME_LEN; lia). cbn [obind]. done. }
    rewrite <- !app_assoc. unfold MAX_OBJ_NAME_LEN. rewrite Hnl. done.
Qed.

(** One record in the proofs below. *)
Ltac step_field pre :=
  erewrite (object_loop_step _ _ pre);
    [|reflexivity|by vm_compute|rewrite ?tlv_length; cbn; lia|lia|lia|]; cycle 1.
Ltac read_tag :=
  unfold read_field;
  cbn [Z.eqb Pos.eqb EMTLVOBJNAMESIZE EMTLVOBJNAME EMTLVOBJTYPE EMTLVOBJATTR EMTLVOBJDATASIZE EMTLVOBJHASHBUF
       EMTLVOBJDATABUF datasize name namesize attribute type dataptr hashptr].

(** The remaining records. *)
Definition enc_tail (o : storage_object) : list Z :=
  enc_data o ++ tlv EMTLVOBJHASHBUF (hashptr o) ++ tlv EMTLVOBJTYPE (le32 (type o)) ++
  tlv EMTLVOBJATTR (le32 (attribute o)).

Lemma read_tail fuel kmalloc pre o rest len o0 :
  obj_wf o -> (forall n, kmalloc n = true) -> blen pre + blen (enc_tail o) <= len -> len < 2 ^ 31 ->
  object_loop (6 + fuel) kmalloc (pre ++ enc_tail o ++ rest) len (blen (pre ++ enc_tail o)) (blen pre) o0 =
  Done (Obj (name o0) (namesize o0) (attribute o) (type o) (datasize o) (Some (obj_data o)) (hashptr o),
        blen (pre ++ enc_tail o)).
Proof.
  intros Hwf Hk Hl Hlen. pose proof (obj_data_length o Hwf) as Hdl.
  destruct Hwf as [_ _ Hds _ Hh Ht Ha]. set (sum := blen (pre ++ enc_tail o)).
  assert (Hsum : sum = blen pre + blen (enc_tail o)) by (unfold sum; by rewrite length_app, Nat2Z.inj_add).
  unfold enc_tail, enc_data in *.
  assert (Hp : 0 <= (datasize o + 3) / 4 * 4) by (Z.to_euclidean_division_equations; lia).
  rewrite !length_app, !Nat2Z.inj_add, !tlv_length, pad4_length, Hdl, Hh in Hl, Hsum.
  change (blen (le32 (datasize o))) with 4 in *. change (blen (le32 (type o))) with 4 in *.
  change (blen (le32 (attribute o))) with 4 in *. cbn [Nat.add]. rewrite <- !app_assoc.
  set (D := (datasize o + 3) / 4 * 4) in *.
  step_field pre.
  { read_tag. rewrite read_u32_field by (done || lia). done. }
  set (p1 := pre ++ tlv EMTLVOBJDATASIZE (le32 (datasize o))).
  assert (H1 : blen p1 = blen pre + 12) by (unfold p1; rewrite length_app, Nat2Z.inj_add, tlv_length; cbn; lia).
  assert (HD : blen (pad4 (obj_data o)) = D) by (by rewrite pad4_length, Hdl).
  step_field p1.
  { read_tag. rewrite Hk. cbn [negb]. rewrite (read_buf_field p1) by (done || (cbn; lia)). done. }
  set (p2 := p1 ++ tlv EMTLVOBJDATABUF (pad4 (obj_data o))).
  assert (H2 : blen p2 = blen pre + 20 + D) by (unfold p2; rewrite length_app, Nat2Z.inj_add, tlv_length; cbn; lia).
  step_field p2.
  { read_tag. rewrite Hh. cbn [Z.eqb Pos.eqb negb Z.of_nat Pos.of_succ_nat Pos.succ].
    rewrite <- (pad4_hash (hashptr o)) at 1 by done. rewrite (read_buf_field p2) by (done || by rewrite Hh). done. }
  set (p3 := p2 ++ tlv EMTLVOBJHASHBUF (hashptr o)).
  assert (H3 : blen p3 = blen pre + 60 + D) by (unfold p3; rewrite length_app, Nat2Z.inj_add, tlv_length, Hh; cbn; lia).
  step_field p3.
  { read_tag. rewrite read_u32_field by (done || lia). done. }
  set (p4 := p3 ++ tlv EMTLVOBJTYPE (le32 (type o))).
  assert (H4 : blen p4 = blen pre + 72 + D) by (unfold p4; rewrite length_app, Nat2Z.inj_add, tlv_length; cbn; lia).
  step_field p4.
  { read_tag. rewrite read_u32_field by (done || lia). done. }
  set (p5 := p4 ++ tlv EMTLVOBJATTR (le32 (attribute o))).
  assert (H5 : blen p5 = blen pre + 84 + D) by (unfold p5; rewrite length_app, Nat2Z.inj_add, tlv_length; cbn; lia).
  cbn [object_loop]. rewrite (proj2 (Z.leb_le _ _)) by lia. done.
Qed.

Lemma enc_fields_split o : enc_fields o = enc_name o ++ enc_tail o.
Proof. done. Qed.

Lemma read_object fuel kmalloc o rest len :
  obj_wf o -> (forall n, kmalloc n = true) -> blen (enc_object o) <= len -> len < 2 ^ 31 ->
  Tlv_ReadObject (8 + fuel) kmalloc (enc_object o ++ rest) len = Done (norm o, blen (enc_object o)).
Proof.
  intros Hwf Hk Hl Hlen. unfold Tlv_ReadObject, enc_object in *. rewrite tlv_length in *.
  pose proof (read_tl_tlv [] EMTLVOBJECT (enc_fields o) rest 0 len eq_refl ltac:(by vm_compute) Hl Hlen) as Htl.
  cbn [app] in Htl. rewrite Htl. cbn [obind EMTLVOBJECT Z.eqb Pos.eqb negb].
  rewrite u32_small by lia. rewrite enc_fields_split in *. rewrite length_app, Nat2Z.inj_add in *.
  assert (0 < blen (enc_tail o)).
  { unfold enc_tail, enc_data. rewrite !length_app, !Nat2Z.inj_add, !tlv_length. lia. }
  unfold tlv. set (pre := le32 EMTLVOBJECT ++ le32 (blen (enc_name o ++ enc_tail o))).
  assert (Hpre : blen pre = 8) by done. rewrite <- !app_assoc, (app_assoc (le32 _) (le32 _)). fold pre.
  change (8 + fuel)%nat with (2 + (6 + fuel))%nat. rewrite <- Hpre at 2.
  destruct (read_name (6 + fuel) kmalloc pre o (enc_tail o ++ rest) len (blen (enc_name o) + blen (enc_tail o) + 8)
              obj_zero Hwf ltac:(lia) Hlen ltac:(lia) eq_refl eq_refl) as (fuel' & Hf & ->).
  replace fuel' with (6 + (fuel' - 6))%nat by lia.
  replace (blen (enc_name o) + blen (enc_tail o) + 8) with (blen ((pre ++ enc_name o) ++ enc_tail o))
    by (rewrite !length_app, !Nat2Z.inj_add; lia).
  rewrite read_tail; [|done|done|rewrite !length_app, !Nat2Z.inj_add; lia|done].
  unfold norm. cbn [name namesize]. f_equal. f_equal. rewrite !length_app, !Nat2Z.inj_add. lia.
Qed.

Definition head_wf (h : storage_block_enc_head) : Prop := 0 <= blocksize h < 2 ^ 32 /\ 0 <= flashsize h < 2 ^ 32.

Lemma head_loop_step fuel pre tag v rest len sum idx h :
  idx = blen pre -> 0 <= tag < 2 ^ 32 -> idx + 12 <= len -> len < 2 ^ 31 -> idx < sum -> 0 <= v < 2 ^ 32 ->
  tag = EMTLVHEADSIZE \/ tag = EMTLVHEADFLASHSIZE ->
  head_loop (S fuel) (pre ++ tlv tag (le32 v) ++ rest) len sum idx h =
  head_loop fuel ((pre ++ tlv tag (le32 v)) ++ rest) len sum (blen (pre ++ tlv tag (le32 v)))
    (if tag =? EMTLVHEADSIZE then EncHead v (flashsize h) else EncHead (blocksize h) v).
Proof.
  intros Hi Ht Hl Hlen Hs Hv Htag. cbn [head_loop]. rewrite (proj2 (Z.leb_gt _ _)) by lia.
  rewrite s32_sub by lia. rewrite read_tl_tlv by (done || (cbn; lia)). cbn [obind].
  rewrite !(u32_small (idx + 8)) by lia. rewrite read_u32_field by done. cbn [obind].
  change (blen (le32 v)) with 4. rewrite (u32_small (idx + 8 + 4)) by lia.
  rewrite <- app_assoc, length_app, Nat2Z.inj_add, tlv_length. change (blen (le32 v)) with 4.
  replace (idx + 8 + 4) with (blen pre + (8 + 4)) by lia.
  by destruct Htag as [-> | ->].
Qed.

Lemma read_head fuel h rest len h0 :
  head_wf h -> 32 <= len < 2 ^ 31 -> Tlv_ReadHead (3 + fuel) (enc_head h ++ rest) len h0 = Done (h, 32).
Proof.
  intros [Hb Hf] Hlen. unfold Tlv_ReadHead, enc_head.
  set (body := tlv EMTLVHEADSIZE _ ++ _). assert (Hbody : blen body = 24) by done.
  pose proof (read_tl_tlv [] EMTLVHEAD body rest 0 len eq_refl ltac:(by vm_compute) ltac:(lia) ltac:(lia)) as Htl.
  cbn [app] in Htl. rewrite Htl, Hbody. cbn [obind EMTLVHEAD Z.eqb Pos.eqb negb]. rewrite u32_small by lia.
  unfold tlv at 1. rewrite Hbody. set (pre := le32 EMTLVHEAD ++ le32 24). assert (Hpre : blen pre = 8) by done.
  rewrite <- !app_assoc, (app_assoc (le32 _) (le32 _)). fold pre. unfold body. rewrite <- app_assoc.
  cbn [Nat.add]. rewrite (head_loop_step _ pre); [|lia|by vm_compute|lia|lia|lia|lia|by left].
  set (pre2 := pre ++ tlv EMTLVHEADSIZE (le32 (blocksize h))). assert (Hpre2 : blen pre2 = 20) by done.
  rewrite (head_loop_step _ pre2); [|lia|by vm_compute|lia|lia|lia|lia|by right].
  cbn [head_loop]. rewrite length_app, Nat2Z.inj_add, Hpre2, tlv_length. change (blen (le32 (flashsize h))) with 4.
  rewrite (proj2 (Z.leb_le _ _)) by lia. by destruct h.
Qed.

(** ** Bytes that no writer produced *)

Lemma Tlv_ReadTl_Some inp i len tag length :
  Forall is_byte inp -> Tlv_ReadTl inp i len = Done (Some (tag, length)) ->
  8 <= len /\ rd32 inp (i + 4) = Done length /\ (length < 2 ^ 32 - 8 -> 0 <= length /\ 8 + length <= len).
Proof.
  intros Hb. unfold Tlv_ReadTl. destruct (Z.ltb_spec len 8); [done|].
  destruct (rd32 inp i); cbn [obind]; try done. destruct (rd32 inp (i + 4)) eqn:E; cbn [obind]; try done.
  destruct (Z.ltb_spec len (u32 (8 + a0))); [done|]. intros [= -> ->]. pose proof (rd32_range _ _ _ Hb E).
  split_and!; try done. intros Hs. rewrite u32_small in * by lia. lia.
Qed.

Lemma Tlv_ReadTl_nospin inp i len : Tlv_ReadTl inp i len <> Spin.
Proof. unfold Tlv_ReadTl. auto 10 with nospin. Qed.
Lemma read_field_nospin kmalloc inp idx tag length o : read_field kmalloc inp idx tag length o <> Spin.
Proof. unfold read_field. auto 30 with nospin. Qed.

Lemma object_loop_Spin kmalloc inp len sum fuel : forall idx o,
  Forall is_byte inp -> len < 2 ^ 31 -> 0 <= idx <= len -> len - idx < 8 * Z.of_nat fuel ->
  object_loop fuel kmalloc inp len sum idx o = Spin ->
  exists i v, idx <= i < len /\ rd32 inp (i + 4) = Done v /\ 2 ^ 32 - 8 <= v.
Proof.
  induction fuel as [|fuel IH]; intros idx o Hb Hlen Hi Hf; [lia|]. cbn [object_loop].
  destruct (sum <=? idx); [done|]. rewrite s32_sub by lia.
  destruct (Tlv_ReadTl inp idx (len - idx)) as [[[tag length]|]| |] eqn:E; cbn [obind]; try done;
    [|by apply Tlv_ReadTl_nospin in E].
  destruct (Tlv_ReadTl_Some _ _ _ _ _ Hb E) as (H8 & Hr & Hl).
  destruct (Z.lt_ge_cases length (2 ^ 32 - 8)) as [Hs|Hs]; [|intros _; exists idx, length; split_and!; lia || done].
  destruct (Hl Hs). rewrite !(u32_small (idx + 8)) by lia.
  destruct (read_field kmalloc inp (idx + 8) tag length o) as [[o'|]| |] eqn:Ef; cbn [obind]; try done.
  - rewrite u32_small by lia. intros Hsp. destruct (IH (idx + 8 + length) o' Hb Hlen ltac:(lia) ltac:(lia) Hsp) as (i & v & ? & ? & ?).
    exists i, v. split_and!; try done; lia.
  - by apply read_field_nospin in Ef.
Qed.

(** A record whose length makes [8 + length] wrap to 0, and a name longer than
    the array it is copied to. *)
Definition spin_bytes : list Z := le32 EMTLVOBJECT ++ le32 16 ++ le32 0 ++ le32 0xFFFFFFF8 ++ le32 0 ++ le32 0.
Definition long_name_bytes : list Z :=
  le32 EMTLVOBJECT ++ le32 108 ++ le32 EMTLVOBJNAMESIZE ++ le32 4 ++ le32 88 ++
  le32 EMTLVOBJNAME ++ le32 88 ++ replicate 88 65.

Lemma spin_loop kmalloc fuel o : object_loop fuel kmalloc spin_bytes 24 24 8 o = Spin.
Proof.
  induction fuel as [|fuel IH]; [done|].
  assert (E : object_loop (S fuel) kmalloc spin_bytes 24 24 8 o = object_loop fuel kmalloc spin_bytes 24 24 8 o) by done.
  by rewrite E.
Qed.

(** The reader of an object always comes to an end, within one turn of its
    loop per eight bytes of its input, unless a record in the input has a
    length of 2^32 - 8 or more. *)
Theorem read_object_terminates kmalloc inp len :
  Forall is_byte inp -> 0 <= len < 2 ^ 31 ->
  (forall i v, 8 <= i < len -> rd32 inp (i + 4) = Done v -> v < 2 ^ 32 - 8) ->
  Tlv_ReadObject (S (Z.to_nat (len / 8))) kmalloc inp len <> Spin.
Proof.
  intros Hb Hlen Hv. unfold Tlv_ReadObject.
  destruct (Tlv_ReadTl inp 0 len) as [[[tag sum]|]| |] eqn:E; cbn [obind]; try done;
    [|by apply Tlv_ReadTl_nospin in E].
  destruct (Tlv_ReadTl_Some _ _ _ _ _ Hb E) as (H8 & _ & _). destruct (negb _); [done|].
  intros Hsp. apply object_loop_Spin in Hsp as (i & v & Hi & Hr & Hge); try done; try lia.
  - specialize (Hv i v ltac:(lia) Hr). lia.
  - rewrite Nat2Z.inj_succ, Z2Nat.id by (apply Z.div_pos; lia). Z.to_euclidean_division_equations; lia.
Qed.

Definition plain_bytes : list Z := le32 EMTLVOBJECT ++ le32 16 ++ le32 0 ++ le32 0 ++ le32 0 ++ le32 0.
Lemma read_object_terminates_witness :
  Tlv_ReadObject (S (Z.to_nat (24 / 8))) (fun _ => true) plain_bytes 24 <> Spin /\
  Tlv_ReadObject 3 (fun _ => true) plain_bytes 24 = Done (obj_zero, 24).
Proof.
  split; [|by vm_compute].
  apply read_object_terminates; [repeat constructor; by vm_compute|lia|].
  intros i v Hi. assert (Hin : Z.to_nat (i - 8) ∈ seq 0 16) by (apply elem_of_seq; lia).
  replace i with (8 + Z.of_nat (Z.to_nat (i - 8))) by lia. revert Hin. generalize (Z.to_nat (i - 8)). clear i Hi.
  intros n Hin. cbn [seq] in Hin. repeat (apply elem_of_cons in Hin as [->|Hin]; [intros E; vm_compute in E; first [discriminate E|injection E as <-; lia]|]).
  by apply elem_of_nil in Hin.
Defined.

(** On bytes that no writer produced the reader is not safe: a record with
    the length 2^32 - 8 passes the length check, which wraps, and is read for
    ever; a name size of 88 writes past the 80 bytes of the name. *)
Theorem read_object_unsafe kmalloc :
  (forall fuel, Tlv_ReadObject fuel kmalloc spin_bytes 24 = Spin) /\
  (forall fuel, Tlv_ReadObject (2 + fuel) kmalloc long_name_bytes 116 = Fault).
Proof. split; intros fuel; [apply spin_loop|done]. Qed.
End KeyTlv.
