(* ===== verification/KeyStore.v ===== *)
(** * The store of normal keys (src/drivers/efuse_unifykey/normal_key.c)

    Named keys are kept in a list in memory and in one flash block.  The block
    has a raw head with two hashes, a head record and the object records of
    [KeyTlv.v].  The hash function of the kernel and the allocator are
    parameters.

    The theorems: on a well-formed store the operations refine a finite map
    from names to attribute, type and data; adding reports its errors without
    changing anything; writing the block and reading it into an empty store gives
    the same map back. *)

From S2P Require Import Prelude Mem KeyTlv.
From stdpp Require Import base numbers gmap list.
From Stdlib Require Import ZArith Lia.

Local Open Scope Z_scope.
Local Open Scope cint_scope.

Module KeyStore.
Import KeyTlv.

Definition OBJ_ATTR_SECURE : Z := 1.
Definition OBJ_TYPE_GENERIC : Z := 0xA00000BF.
Definition STORAGE_BLOCK_RAW_HEAD_SIZE : Z := 512.
Definition STORAGE_BLOCK_ENC_HEAD_SIZE : Z := 512.
Definition BLOCK_VERSION_0 : Z := 0.
Definition ERR_HEADER : Z := 0x1.
Definition ERR_KEYMEMFAIL : Z := 0x2.
Definition ERR_KEYRDFAIL : Z := 0x4.
Definition ERR_KEYCHKFAIL : Z := 0x8.
Definition ERR_ENCHDFAIL : Z := 0x10.
Definition ERR_DATASZ : Z := 0x20.

Record storage_block_raw_head := Raw {
  mark : list Z;
  version : Z;
  enctype : Z;
  keycnt : Z;
  initcnt : Z;
  wrtcnt : Z;
  errcnt : Z;
  flags : Z;
  headhash : list Z;
  hash : list Z;
}.

(** The bytes of the structure: all but the hashes, and all. *)
Definition raw_front (r : storage_block_raw_head) : list Z :=
  mark r ++ le32 (version r) ++ le32 (enctype r) ++ le32 (keycnt r) ++ le32 (initcnt r) ++ le32 (wrtcnt r) ++
  le32 (errcnt r) ++ le32 (flags r).
Definition raw_bytes (r : storage_block_raw_head) : list Z := raw_front r ++ headhash r ++ hash r.

(** AMLNORMAL, and the zero bytes strncpy and memset leave behind it. *)
Definition blockmark : list Z := [65; 77; 76; 78; 79; 82; 77; 65; 76].
Definition zeros (n : nat) : list Z := replicate n 0.

(** The static variables; the first element of [keys] is the head of the list. *)
Record state := St {
  blockinited : Z;
  keys : list storage_object;
  rawhead : storage_block_raw_head;
  enchead : storage_block_enc_head;
}.

Section Ops.
(** The sha256 digest, or the error of its set-up or computation; which
    allocations succeed. *)
Context (digest : list Z -> list Z + Z) (kmalloc : Z -> bool).
Implicit Types (st : state).

Definition normalkey_hash (data : list Z) : list Z * Z :=
  match digest data with inl h => (h, 0) | inr err => (zeros 32, err) end.

Definition normalkey_init st : state * Z :=
  if truthy (blockinited st) then (st, -1) else (St 1 (keys st) (rawhead st) (enchead st), 0).

Definition normalkey_deinit st : state :=
  if negb (truthy (blockinited st)) then st else St 0 [] (rawhead st) (enchead st).

Definition key_matches (nm : list Z) (o : storage_object) : bool :=
  (blen nm =? namesize o) && bool_decide (nm = take (length nm) (name o)).

(** The position of the object in the list; the pointer the code returns. *)
Fixpoint find_key (nm : list Z) (l : list storage_object) : option nat :=
  match l with
  | [] => None
  | o :: l => if key_matches nm o then Some 0%nat else S <$> find_key nm l
  end.
Definition normalkey_get st (nm : option (list Z)) : option nat :=
  match nm with None => None | Some nm => find_key nm (keys st) end.

(** [junk]: what kmalloc leaves in the name of a new object. *)
Definition normalkey_add st (nm buffer : option (list Z)) (len attr : Z) (junk : list Z) : outcome (state * Z) :=
  if negb (blockinited st =? 2) then Done (st, -1)
  else
    match nm, buffer with
    | Some name_, Some buf =>
        if (len =? 0) || truthy (attr .& OBJ_ATTR_SECURE) then Done (st, -1)
        else if MAX_OBJ_NAME_LEN <? blen name_ then Done (st, -1)
        else
          match normalkey_get st nm with
          | Some i =>
              match keys st !! i with
              | None => Fault
              | Some o =>
                  if negb (attr =? attribute o) then Done (st, -1)
                  else if (datasize o <? len) && negb (kmalloc len) then Done (st, -1)
                  else
                    let* bs := rdn buf 0 len in
                    let* data :=
                      (if datasize o <? len then Done bs
                       else match dataptr o with None => Fault | Some old => wr old 0 bs end) in
                    let o := Obj (name o) (namesize o) (attribute o) (type o) len (Some data)
                               (fst (normalkey_hash bs)) in
                    Done (St (blockinited st) (<[i := o]> (keys st)) (rawhead st) (enchead st), 0)
              end
          | None =>
              if negb (kmalloc 152) then Done (st, -1)
              else if negb (kmalloc len) then Done (st, -1)
              else
                let* nm' := wr junk 0 name_ in
                let* bs := rdn buf 0 len in
                let o := Obj nm' (blen name_) attr OBJ_TYPE_GENERIC len (Some bs) (fst (normalkey_hash bs)) in
                Done (St (blockinited st) (o :: keys st) (rawhead st) (enchead st), 0)
          end
    | _, _ => Done (st, -1)
    end.

Definition normalkey_del st (nm : option (list Z)) : state * Z :=
  if negb (blockinited st =? 2) then (st, -1)
  else
    match normalkey_get st nm with
    | None => (st, -1)
    | Some i => (St (blockinited st) (delete i (keys st)) (rawhead st) (enchead st), 0)
    end.

(** The loop over the objects; [have_node]: a node is left from a failed check. *)
Fixpoint keys_loop (fuel ofuel : nat) (block : list Z) (bsz idx : Z) (ks : list storage_object) (fl : Z)
    (have_node : bool) : outcome (list storage_object * Z) :=
  match fuel with
  | O => Spin
  | S fuel =>
      if bsz <=? idx then Done (ks, fl)
      else if negb have_node && negb (kmalloc 152) then Done (ks, fl .| ERR_KEYMEMFAIL)
      else
        let* (o, ret) := Tlv_ReadObject ofuel kmalloc (drop (Z.to_nat (1024 + idx)) block) (s32 (bsz - idx)) in
        if ret =? 0 then Done (ks, fl .| ERR_KEYRDFAIL)
        else
          let idx := u32 (idx + ret) in
          let* data := (match dataptr o with
                        | None => if datasize o =? 0 then Done [] else Fault
                        | Some d => rdn d 0 (datasize o)
                        end) in
          if bool_decide (fst (normalkey_hash data) = hashptr o)
          then keys_loop fuel ofuel block bsz idx (o :: ks) fl false
          else keys_loop fuel ofuel block bsz idx ks (fl .| ERR_KEYCHKFAIL) true
  end.

Definition raw_zero : storage_block_raw_head :=
  Raw (blockmark ++ zeros 7) BLOCK_VERSION_0 0 0 0 0 0 0 (zeros 32) (zeros 32).

Definition set_flags (r : storage_block_raw_head) (f : Z) : storage_block_raw_head :=
  Raw (mark r) (version r) (enctype r) (keycnt r) (initcnt r) (wrtcnt r) (errcnt r) f (headhash r) (hash r).

(** From the mark on: [size] is large enough. *)
Definition read_block (fuel : nat) st (block : list Z) (size : Z) : outcome (state * Z) :=
  let raw := raw_zero in
  let enc := EncHead (blocksize (enchead st)) (u32 size) in
  let* m := rdn block 0 10 in
  if negb (bool_decide (m = blockmark ++ [0])) then Done (St 2 (keys st) raw enc, 0)
  else
    let* front := rdn block 0 44 in
    let* bhead := rdn block 44 32 in
    let* bhash := rdn block 76 32 in
    let* kc := rd32 block 24 in
    let* ic := rd32 block 28 in
    let* wc := rd32 block 32 in
    let* ec := rd32 block 36 in
    let* fl := rd32 block 40 in
    let hh := fst (normalkey_hash front) in
    let raw :=
      if negb (bool_decide (hh = bhead))
      then Raw (mark raw) (version raw) (enctype raw) 0 0 0 0 ERR_HEADER hh (hash raw)
      else Raw (mark raw) (version raw) (enctype raw) kc ic wc ec fl hh (hash raw) in
    let* body := rdn block STORAGE_BLOCK_RAW_HEAD_SIZE (u32 (size - STORAGE_BLOCK_RAW_HEAD_SIZE)) in
    let h := fst (normalkey_hash body) in
    let raw := Raw (mark raw) (version raw) (enctype raw) (keycnt raw) (u32 (initcnt raw + 1)) (wrtcnt raw)
                 (errcnt raw) (flags raw) (headhash raw) h in
    if negb (bool_decide (h = bhash)) then
      Done (St 2 (keys st) (Raw (mark raw) (version raw) (enctype raw) (keycnt raw) (initcnt raw) (wrtcnt raw)
                              (u32 (errcnt raw + 1)) (flags raw) (headhash raw) (hash raw)) enc, 0)
    else
      let* (enc, ret) := Tlv_ReadHead fuel (drop (Z.to_nat STORAGE_BLOCK_RAW_HEAD_SIZE) block)
                           STORAGE_BLOCK_ENC_HEAD_SIZE enc in
      if ret =? 0 then Done (St 2 (keys st) (set_flags raw (flags raw .| ERR_ENCHDFAIL)) enc, 0)
      else if size <? u32 (blocksize enc + STORAGE_BLOCK_ENC_HEAD_SIZE + STORAGE_BLOCK_RAW_HEAD_SIZE)
      then Done (St 2 (keys st) (set_flags raw (flags raw .| ERR_DATASZ)) enc, 0)
      else
        let* (ks, fl) := keys_loop fuel fuel block (blocksize enc) 0 (keys st) (flags raw) false in
        Done (St 2 ks (set_flags raw fl) enc, 0).

Definition normalkey_readfromblock (fuel : nat) st (block : option (list Z)) (size : Z) : outcome (state * Z) :=
  if negb (blockinited st =? 1) then Done (st, -1)
  else
    match block with
    | None => Done (st, -1)
    | Some block =>
        if size <=? STORAGE_BLOCK_ENC_HEAD_SIZE + STORAGE_BLOCK_RAW_HEAD_SIZE then Done (st, -1)
        else read_block fuel st block size
    end.

(** The loop over the keys: the block, the number of keys written, and idx, or
    nothing when an object does not fit. *)
Fixpoint write_loop (l : list storage_object) (block : list Z) (size idx cnt : Z)
  : outcome (list Z * Z * option Z) :=
  match l with
  | [] => Done (block, cnt, Some idx)
  | o :: l =>
      let* (block, ret) := Tlv_WriteObject o block (1024 + idx) (s32 (size - idx)) in
      if ret =? 0 then Done (block, cnt, None) else write_loop l block size (u32 (idx + ret)) (u32 (cnt + 1))
  end.

(** Returns the state, the block and the result. *)
Definition write_block st (block : list Z) (size : Z) : outcome (state * list Z * Z) :=
  let enc := EncHead (blocksize (enchead st)) (u32 size) in
  let r := rawhead st in
  let* (block, cnt, res) := write_loop (keys st) block
                         (size - (STORAGE_BLOCK_ENC_HEAD_SIZE + STORAGE_BLOCK_RAW_HEAD_SIZE)) 0 0 in
  let r := Raw (mark r) (version r) (enctype r) cnt (initcnt r) (wrtcnt r) (errcnt r) (flags r)
             (headhash r) (hash r) in
  match res with
  | None => Done (St 2 (keys st) r enc, block, -1)
  | Some idx =>
      let enc := EncHead idx (flashsize enc) in
      let* (block, ret) := Tlv_WriteHead enc block STORAGE_BLOCK_RAW_HEAD_SIZE STORAGE_BLOCK_ENC_HEAD_SIZE in
      if ret =? 0 then Done (St 2 (keys st) r enc, block, -1)
      else
        let r := Raw (mark r) (version r) (enctype r) (keycnt r) (initcnt r) (u32 (wrtcnt r + 1)) (errcnt r) (flags r)
                   (headhash r) (hash r) in
        let r := Raw (mark r) (version r) (enctype r) (keycnt r) (initcnt r) (wrtcnt r) (errcnt r) (flags r)
                   (fst (normalkey_hash (raw_front r))) (hash r) in
        let* body := rdn block STORAGE_BLOCK_RAW_HEAD_SIZE (u32 (flashsize enc - STORAGE_BLOCK_RAW_HEAD_SIZE)) in
        let r := Raw (mark r) (version r) (enctype r) (keycnt r) (initcnt r) (wrtcnt r) (errcnt r) (flags r)
                   (headhash r) (fst (normalkey_hash body)) in
        let* block := wr block 0 (raw_bytes r) in
        Done (St 2 (keys st) r enc, block, 0)
  end.

Definition normalkey_writetoblock st (block : option (list Z)) (size : Z)
  : outcome (state * option (list Z) * Z) :=
  if negb (blockinited st =? 2) then Done (st, block, -1)
  else
    match block with
    | None => Done (st, block, -1)
    | Some b =>
        if size <=? STORAGE_BLOCK_ENC_HEAD_SIZE + STORAGE_BLOCK_RAW_HEAD_SIZE then Done (st, block, -1)
        else let* (st, b, ret) := write_block st b size in Done (st, Some b, ret)
    end.

(** ** The abstract store *)

(** SHA-256 digests have 32 bytes. *)
Context (digest_length : forall d h, digest d = inl h -> length h = 32%nat).

Abbreviation sha d := (fst (normalkey_hash d)).

Lemma sha_length d : length (sha d) = 32%nat.
Proof using digest_length. unfold normalkey_hash. destruct (digest d) eqn:E; cbn; [by eapply digest_length|done]. Qed.

(** An object whose hash is the hash of its data. *)
Definition obj_ok (o : storage_object) : Prop := obj_wf o /\ hashptr o = sha (obj_data o).

Record store_wf (st : state) : Prop := {
  store_objs : Forall obj_ok (keys st);
  store_names : NoDup (obj_name <$> keys st);
}.

(** Attribute, type and data under each name. *)
Definition content (o : storage_object) : Z * Z * list Z := (attribute o, type o, obj_data o).
Definition entry (o : storage_object) : list Z * (Z * Z * list Z) := (obj_name o, content o).
Definition kmap (st : state) : gmap (list Z) (Z * Z * list Z) := list_to_map (entry <$> keys st).

Lemma entry_names (l : list storage_object) : (entry <$> l).*1 = obj_name <$> l.
Proof using Type. rewrite <- list_fmap_compose. done. Qed.

Lemma key_matches_spec nm o : obj_wf o -> key_matches nm o = bool_decide (nm = obj_name o).
Proof using Type.
  intros Hwf. pose proof (obj_name_length o Hwf) as Hl. unfold key_matches.
  destruct (Z.eqb_spec (blen nm) (namesize o)) as [E|E]; cbn [andb].
  - unfold obj_name. by rewrite <- E, Nat2Z.id.
  - symmetry. apply bool_decide_eq_false. intros ->. by rewrite Hl in E.
Qed.

(** The search finds the first object of the name. *)
Lemma find_key_Some nm l i : Forall obj_ok l -> find_key nm l = Some i ->
  exists o, l !! i = Some o /\ obj_name o = nm /\ obj_ok o.
Proof using Type.
  intros Hl. revert i. induction Hl as [|o l Ho Hl IH]; intros i; [done|]. cbn [find_key].
  rewrite key_matches_spec by apply Ho. case_bool_decide as E.
  - intros [= <-]. exists o. by rewrite E.
  - destruct (find_key nm l) as [j|] eqn:F; [|done]. intros [= <-]. destruct (IH j eq_refl) as (o' & ? & ? & ?). by exists o'.
Qed.

Lemma find_key_None nm l : Forall obj_ok l -> find_key nm l = None -> nm ∉ obj_name <$> l.
Proof using Type.
  induction 1 as [|o l Ho Hl IH]; [by intros _ ?%elem_of_nil|]. cbn [find_key].
  rewrite key_matches_spec by apply Ho. case_bool_decide as E; [done|].
  destruct (find_key nm l) eqn:F; [done|]. intros _. rewrite fmap_cons. apply not_elem_of_cons. auto.
Qed.

Lemma kmap_lookup st i o : store_wf st -> keys st !! i = Some o -> kmap st !! obj_name o = Some (content o).
Proof using Type.
  intros [_ Hnd] Hi. apply elem_of_list_to_map; [by rewrite entry_names|].
  apply list_elem_of_fmap. exists o. split; [done|]. by eapply list_elem_of_lookup_2.
Qed.

Lemma kmap_lookup_None st nm : nm ∉ obj_name <$> keys st -> kmap st !! nm = None.
Proof using Type. intros H. apply not_elem_of_list_to_map. by rewrite entry_names. Qed.

(** What a search says of the map. *)
Lemma get_cases st nm : store_wf st ->
  (exists i o, normalkey_get st (Some nm) = Some i /\ keys st !! i = Some o /\ obj_name o = nm /\ obj_ok o /\
     kmap st !! nm = Some (content o)) \/
  (normalkey_get st (Some nm) = None /\ (nm ∉ obj_name <$> keys st) /\ kmap st !! nm = None).
Proof using Type.
  intros Hwf. unfold normalkey_get. destruct (find_key nm (keys st)) as [i|] eqn:F.
  - left. destruct (find_key_Some _ _ _ (store_objs _ Hwf) F) as (o & Hi & Hn & Ho). exists i, o.
    split_and!; try done. rewrite <- Hn. by eapply kmap_lookup.
  - right. pose proof (find_key_None _ _ (store_objs _ Hwf) F) as Hn. split_and!; try done. by apply kmap_lookup_None.
Qed.

(** Replacing or removing an object. *)
Lemma kmap_insert st i o o' bi r h : store_wf st -> keys st !! i = Some o -> obj_ok o' -> obj_name o' = obj_name o ->
  store_wf (St bi (<[i := o']> (keys st)) r h) /\
  kmap (St bi (<[i := o']> (keys st)) r h) = <[obj_name o := content o']> (kmap st).
Proof using Type.
  intros [Ho Hnd] Hi Ho' Hn. pose proof (lookup_lt_Some _ _ _ Hi) as Hlt.
  assert (Enames : obj_name <$> <[i := o']> (keys st) = obj_name <$> keys st).
  { rewrite list_fmap_insert. apply list_insert_id. by rewrite list_lookup_fmap, Hi, Hn. }
  split; [split; cbn [keys]; [by apply Forall_insert|by rewrite Enames]|].
  unfold kmap. cbn [keys]. rewrite <- (take_drop_middle (keys st) i o Hi) in Hnd |- * at 2.
  rewrite insert_take_drop by done. rewrite !fmap_app, !fmap_cons, !list_to_map_app.
  unfold entry at 2 5. rewrite Hn, !list_to_map_cons.
  assert (Hno : (list_to_map (entry <$> take i (keys st)) : gmap (list Z) (Z * Z * list Z)) !! obj_name o = None).
  { apply not_elem_of_list_to_map. rewrite entry_names. rewrite fmap_app in Hnd.
    apply NoDup_app in Hnd as (_ & Hd & _). intros Hin. apply (Hd _ Hin). rewrite fmap_cons. by left. }
  rewrite <- !insert_union_r by done. by rewrite insert_insert_eq.
Qed.

Lemma kmap_delete st i o bi r h : store_wf st -> keys st !! i = Some o ->
  store_wf (St bi (delete i (keys st)) r h) /\
  kmap (St bi (delete i (keys st)) r h) = delete (obj_name o) (kmap st).
Proof using Type.
  intros [Ho Hnd] Hi.
  assert (Hp : keys st ≡ₚ o :: delete i (keys st)) by by apply delete_Permutation.
  assert (Hnd' : NoDup (obj_name <$> o :: delete i (keys st))) by (by rewrite <- Hp).
  rewrite fmap_cons in Hnd'. apply NoDup_cons in Hnd' as [Hni Hnd'].
  split; [split; cbn [keys]; [by apply Forall_delete|done]|].
  unfold kmap. cbn [keys].
  rewrite (list_to_map_proper (entry <$> keys st) (entry <$> o :: delete i (keys st)));
    [|by rewrite entry_names|by apply (Permutation_map entry)].
  rewrite fmap_cons. unfold entry at 2. rewrite list_to_map_cons, delete_insert_id; [done|].
  apply not_elem_of_list_to_map. by rewrite entry_names.
Qed.

(** ** Operations refine the map *)

(** A new object. *)
Lemma kmap_cons st o bi r h : store_wf st -> obj_ok o -> (obj_name o ∉ obj_name <$> keys st) ->
  store_wf (St bi (o :: keys st) r h) /\ kmap (St bi (o :: keys st) r h) = <[obj_name o := content o]> (kmap st).
Proof using Type.
  intros [Ho Hnd] Hok Hn. split; [|done]. split; cbn [keys]; [by constructor|]. rewrite fmap_cons. by constructor.
Qed.

Definition attr_secure (attr : Z) : bool := truthy (attr .& OBJ_ATTR_SECURE).

(** When a key may be added. *)
Definition may_add (m : gmap (list Z) (Z * Z * list Z)) (nm : list Z) (len attr : Z) : bool :=
  negb (len =? 0) && negb (attr_secure attr) && (blen nm <=? MAX_OBJ_NAME_LEN) &&
  match m !! nm with
  | Some (a, _, d) => (attr =? a) && ((len <=? blen d) || kmalloc len)
  | None => kmalloc 152 && kmalloc len
  end.

Definition key_type (old : option (Z * Z * list Z)) : Z :=
  match old with Some (_, t, _) => t | None => OBJ_TYPE_GENERIC end.

Lemma obj_data_take o len d : datasize o = len -> dataptr o = Some d -> obj_data o = take (Z.to_nat len) d.
Proof using Type. intros <- E. unfold obj_data. by rewrite E. Qed.

(** The object after an update: the data is the new data. *)
Lemma update_ok o len buf d :
  obj_ok o -> 0 < len < 2 ^ 30 -> len <= blen buf -> len <= blen d ->
  take (Z.to_nat len) d = take (Z.to_nat len) buf ->
  let o' := Obj (name o) (namesize o) (attribute o) (type o) len (Some d) (sha (take (Z.to_nat len) buf)) in
  obj_ok o' /\ obj_name o' = obj_name o /\ content o' = (attribute o, type o, take (Z.to_nat len) buf).
Proof using digest_length.
  intros [[] _] Hl Hb Hd E o'. assert (Eo : obj_data o' = take (Z.to_nat len) buf) by (by unfold obj_data).
  split; [split|split].
  - split; cbn; try done; [by exists d|apply sha_length].
  - by rewrite Eo.
  - done.
  - unfold content. by rewrite Eo.
Qed.

Lemma fresh_ok nm junk len attr buf :
  length junk = Z.to_nat MAX_OBJ_NAME_LEN -> blen nm <= MAX_OBJ_NAME_LEN -> 0 < len < 2 ^ 30 -> len <= blen buf ->
  0 <= attr < 2 ^ 32 ->
  let bs := take (Z.to_nat len) buf in
  let o := Obj (splice junk 0 nm) (blen nm) attr OBJ_TYPE_GENERIC len (Some bs) (sha bs) in
  obj_ok o /\ obj_name o = nm /\ content o = (attr, OBJ_TYPE_GENERIC, bs).
Proof using digest_length.
  intros Hj Hn Hl Hb Ha bs o. unfold MAX_OBJ_NAME_LEN in *.
  assert (Hbs : blen bs = len) by (unfold bs; rewrite length_take; lia).
  assert (Eo : obj_data o = bs).
  { unfold obj_data. cbn [datasize dataptr o]. change (default [] (Some bs)) with bs. apply take_ge. lia. }
  split; [split|split].
  - split; cbn; try done.
    + rewrite splice_length by lia. done.
    + unfold MAX_OBJ_NAME_LEN. lia.
    + exists bs. split; [done|]. lia.
    + apply sha_length.
  - by rewrite Eo.
  - unfold obj_name. cbn [namesize name o]. rewrite Nat2Z.id, splice_0.
    apply take_app_length.
  - unfold content. by rewrite Eo.
Qed.

Lemma add_refines st nm buf len attr junk :
  store_wf st -> length junk = Z.to_nat MAX_OBJ_NAME_LEN -> 0 <= len < 2 ^ 30 -> len <= blen buf -> 0 <= attr < 2 ^ 32 ->
  if (blockinited st =? 2) && may_add (kmap st) nm len attr
  then exists st', normalkey_add st (Some nm) (Some buf) len attr junk = Done (st', 0) /\ store_wf st' /\
         blockinited st' = 2 /\ rawhead st' = rawhead st /\ enchead st' = enchead st /\
         kmap st' = <[nm := (attr, key_type (kmap st !! nm), take (Z.to_nat len) buf)]> (kmap st)
  else normalkey_add st (Some nm) (Some buf) len attr junk = Done (st, -1).
Proof using digest_length.
  intros Hwf Hj Hl Hb Ha. unfold may_add, normalkey_add, attr_secure.
  destruct (Z.eqb_spec (blockinited st) 2) as [Hbi|]; cbn [negb andb]; [|done].
  destruct (Z.eqb_spec len 0) as [|Hl0]; cbn [negb andb orb]; [done|].
  destruct (truthy _); cbn [negb andb]; [done|].
  destruct (Z.leb_spec (blen nm) MAX_OBJ_NAME_LEN) as [Hn|Hn]; cbn [andb];
    [rewrite (proj2 (Z.ltb_ge _ _)) by lia|by rewrite (proj2 (Z.ltb_lt _ _)) by lia].
  destruct (get_cases st nm Hwf) as [(i & o & -> & Hi & <- & Ho & ->)|(-> & Hni & ->)].
  - rewrite Hi. pose proof (obj_data_length o (proj1 Ho)) as Hdl. unfold content. rewrite Hdl.
    destruct (Z.eqb_spec attr (attribute o)) as [->|]; cbn [negb andb]; [|done].
    rewrite rdn_Done by lia. rewrite drop_0.
    destruct (Z.leb_spec len (datasize o)); cbn [orb andb].
    + rewrite (proj2 (Z.ltb_ge _ _)) by lia. cbn [andb obind].
      destruct (wf_data o (proj1 Ho)) as (old & Hold & Hlo). rewrite Hold.
      rewrite wr_Done by (rewrite ?length_take; lia). cbn [obind].
      destruct (update_ok o len buf (splice old 0 (take (Z.to_nat len) buf)) Ho ltac:(lia) Hb) as (Hok & Hnm & Hc).
      { rewrite splice_length; rewrite ?length_take; lia. }
      { rewrite splice_0. apply take_app_length'. rewrite length_take. lia. }
      destruct (kmap_insert st i o _ (blockinited st) (rawhead st) (enchead st) Hwf Hi Hok Hnm) as [Hw Hk].
      eexists. split; [done|]. split; [exact Hw|]. rewrite Hk, Hc. done.
    + rewrite (proj2 (Z.ltb_lt _ _)) by lia. destruct (kmalloc len); cbn [negb andb obind]; [|done].
      destruct (update_ok o len buf (take (Z.to_nat len) buf) Ho ltac:(lia) Hb) as (Hok & Hnm & Hc).
      { rewrite length_take; lia. }
      { by rewrite take_take, Nat.min_id. }
      destruct (kmap_insert st i o _ (blockinited st) (rawhead st) (enchead st) Hwf Hi Hok Hnm) as [Hw Hk].
      eexists. split; [done|]. split; [exact Hw|]. rewrite Hk, Hc. done.
  - destruct (kmalloc 152); cbn [negb andb]; [|done]. destruct (kmalloc len); cbn [negb andb]; [|done].
    unfold MAX_OBJ_NAME_LEN in *. rewrite wr_Done, rdn_Done by lia. cbn [obind]. rewrite drop_0.
    destruct (fresh_ok nm junk len attr buf Hj Hn ltac:(lia) Hb Ha) as (Hok & Hnm & Hc).
    rewrite <- Hnm in Hni at 1.
    destruct (kmap_cons st _ (blockinited st) (rawhead st) (enchead st) Hwf Hok Hni) as [Hw Hk].
    eexists. split; [done|]. split; [exact Hw|]. rewrite Hk, Hc, Hnm. done.
Qed.

Lemma del_refines st nm :
  store_wf st ->
  if (blockinited st =? 2) && bool_decide (is_Some (kmap st !! nm))
  then exists st', normalkey_del st (Some nm) = (st', 0) /\ store_wf st' /\ blockinited st' = 2 /\
         kmap st' = delete nm (kmap st)
  else normalkey_del st (Some nm) = (st, -1).
Proof using Type.
  intros Hwf. unfold normalkey_del. destruct (Z.eqb_spec (blockinited st) 2) as [Hbi|]; cbn [negb andb]; [|done].
  destruct (get_cases st nm Hwf) as [(i & o & -> & Hi & <- & Ho & ->)|(-> & Hni & ->)].
  - rewrite bool_decide_true by done.
    destruct (kmap_delete st i o (blockinited st) (rawhead st) (enchead st) Hwf Hi) as [Hw Hk].
    eexists. split; [done|]. split_and!; done.
  - rewrite bool_decide_false by (by intros [? [=]]). done.
Qed.

(** ** The image of a store in the block *)

Definition enc_all (l : list storage_object) : list Z := concat (enc_object <$> l).

Lemma enc_object_pos o : 8 <= blen (enc_object o).
Proof using Type. unfold enc_object. rewrite tlv_length. lia. Qed.

Lemma s32_diff a b : 0 <= b <= a -> a < 2 ^ 31 -> s32 (a - b) = a - b.
Proof using Type. intros. apply s32_small. lia. Qed.

Lemma write_loop_spec l block size idx cnt :
  Forall obj_wf l -> 0 <= idx <= size -> size < 2 ^ 31 -> 1024 + size <= blen block -> 0 <= cnt < 2 ^ 32 ->
  if idx + blen (enc_all l) <=? size
  then write_loop l block size idx cnt =
       Done (splice block (1024 + idx) (enc_all l), u32 (cnt + blen l), Some (idx + blen (enc_all l)))
  else exists block' cnt', write_loop l block size idx cnt = Done (block', cnt', None) /\ within 1024 size block block' /\
         0 <= cnt' < 2 ^ 32.
Proof using Type.
  intros Hwf. revert block idx cnt. induction Hwf as [|o l Ho Hl IH]; intros block idx cnt Hi Hs Hb Hc.
  { cbn. rewrite (proj2 (Z.leb_le _ _)), splice_nil, !Z.add_0_r, u32_small by lia. done. }
  unfold enc_all. rewrite fmap_cons, concat_cons, length_app. fold (enc_all l). cbn [write_loop length] in *.
  rewrite s32_diff by lia.
  pose proof (write_object_spec o block (1024 + idx) (size - idx) Ho ltac:(lia) ltac:(lia) ltac:(lia)) as Hw.
  pose proof (enc_object_pos o).
  destruct (Z.leb_spec (blen (enc_object o)) (size - idx)); cycle 1.
  { rewrite (proj2 (Z.leb_gt _ _)) by lia. destruct Hw as (b' & -> & Hw). cbn. exists b', cnt. split; [done|].
    destruct Hw as (E1 & E2 & E3).
    replace (1024 + idx + (size - idx)) with (1024 + size) in E3 by lia. split; [|done]. split; [done|]. split; [|done].
    apply (f_equal (take (Z.to_nat 1024))) in E2. rewrite !take_take in E2.
    replace (Z.to_nat 1024 `min` Z.to_nat (1024 + idx))%nat with (Z.to_nat 1024) in E2 by lia. done. }
  rewrite Hw. cbn [obind]. rewrite (proj2 (Z.eqb_neq _ _)) by lia.
  assert (Hin : within 1024 size block (splice block (1024 + idx) (enc_object o))) by (apply within_splice; lia).
  rewrite (u32_small (idx + _)) by lia.
  specialize (IH (splice block (1024 + idx) (enc_object o)) (idx + blen (enc_object o)) (u32 (cnt + 1))
                ltac:(lia) Hs ltac:(rewrite (proj1 Hin); lia) ltac:(apply u32_range)).
  destruct (Z.leb_spec (idx + blen (enc_object o) + blen (enc_all l)) size) as [Hf|Hf].
  - rewrite (proj2 (Z.leb_le _ _)) by lia. rewrite IH, Z.add_assoc, splice_app by lia.
    do 2 f_equal; [f_equal|f_equal; lia]. unfold u32. rewrite Zplus_mod_idemp_l. f_equal. lia.
  - rewrite (proj2 (Z.leb_gt _ _)) by lia. destruct IH as (b' & c' & -> & Hw' & Hc'). exists b', c'. split; [done|].
    split; [|done]. by eapply within_trans.
Qed.

(** The objects read back. *)
Lemma norm_name o : obj_wf o -> obj_name (norm o) = obj_name o.
Proof using Type.
  intros Hwf. pose proof (obj_name_length o Hwf) as Hn. unfold obj_name at 1, norm. cbn [namesize name].
  apply take_app_length'. lia.
Qed.

Lemma norm_data o : obj_wf o -> obj_data (norm o) = obj_data o.
Proof using Type.
  intros Hwf. pose proof (obj_data_length o Hwf) as Hn. unfold obj_data at 1, norm. cbn [datasize dataptr].
  change (default [] (Some (obj_data o))) with (obj_data o). apply take_ge. lia.
Qed.

Lemma norm_ok o : obj_ok o -> obj_ok (norm o) /\ entry (norm o) = entry o.
Proof using Type.
  intros [Hwf Hh]. pose proof (obj_name_length o Hwf) as Hn. pose proof (obj_data_length o Hwf) as Hd.
  unfold entry, content. rewrite norm_name, norm_data by done. split; [|done].
  split; [|by rewrite norm_data]. destruct Hwf. unfold MAX_OBJ_NAME_LEN in *.
  split; unfold norm; cbn; try done.
  - rewrite length_app, length_replicate. unfold MAX_OBJ_NAME_LEN. lia.
  - eexists. split; [done|]. lia.
Qed.

Lemma keys_loop_spec l fuel ofuel pre rest idx ks fl :
  Forall obj_ok l -> (forall n, kmalloc n = true) -> blen pre = 1024 + idx -> 0 <= idx ->
  idx + blen (enc_all l) < 2 ^ 31 ->
  keys_loop (S (length l) + fuel) (8 + ofuel) (pre ++ enc_all l ++ rest) (idx + blen (enc_all l)) idx ks fl false =
  Done (reverse (norm <$> l) ++ ks, fl).
Proof using Type.
  intros Hl Hk. revert pre idx ks. induction Hl as [|o l [Ho Hh] Hl IH]; intros pre idx ks Hp Hi Hs.
  { cbn. by rewrite (proj2 (Z.leb_le _ _)) by lia. }
  unfold enc_all in *. rewrite fmap_cons, concat_cons, length_app in *. fold (enc_all l) in *.
  pose proof (enc_object_pos o). change (S (length (o :: l)) + fuel)%nat with (S (S (length l) + fuel)).
  set (f := (S (length l) + fuel)%nat) in *. set (f8 := (8 + ofuel)%nat) in *. cbn [keys_loop].
  rewrite (proj2 (Z.leb_gt _ _)) by lia. rewrite Hk. cbn [negb andb].
  replace (Z.to_nat (1024 + idx)) with (length pre) by lia. rewrite drop_app_length, <- app_assoc.
  rewrite s32_diff by lia. unfold f8 at 1.
  rewrite read_object by (done || lia). cbn [obind]. rewrite (proj2 (Z.eqb_neq _ _)) by lia.
  pose proof (obj_data_length o Ho) as Hd. cbn [norm dataptr datasize hashptr].
  rewrite rdn_Done by (pose proof (wf_datasize o Ho); lia). cbn [obind].
  rewrite drop_0, take_ge by lia. rewrite bool_decide_true by done. rewrite u32_small by lia.
  rewrite (app_assoc pre), Nat2Z.inj_add, Z.add_assoc.
  rewrite IH; [|rewrite length_app; lia|lia|lia]. by rewrite fmap_cons, reverse_cons, <- app_assoc.
Qed.

(** Writing the objects, the head and the raw head, in that order. *)
Lemma block_image (block e hd rb : list Z) :
  1024 + blen e <= blen block -> blen hd = 32 -> blen rb = 108 ->
  exists b0 g1 g2 rest, blen b0 = 108 /\ blen g1 = 404 /\ blen g2 = 480 /\
    splice (splice block 1024 e) 512 hd = (b0 ++ g1) ++ hd ++ g2 ++ e ++ rest /\
    splice (splice (splice block 1024 e) 512 hd) 0 rb = (rb ++ g1) ++ hd ++ g2 ++ e ++ rest.
Proof using Type.
  intros Hb Hh Hr. set (b0 := take 108 block). set (g1 := take 404 (drop 108 block)).
  set (g2 := take 480 (drop 544 block)). set (rest := drop (1024 + length e) block).
  assert (H0 : blen b0 = 108) by (unfold b0; rewrite length_take; lia).
  assert (H1 : blen g1 = 404) by (unfold g1; rewrite length_take, length_drop; lia).
  assert (H2 : blen g2 = 480) by (unfold g2; rewrite length_take, length_drop; lia).
  assert (E : splice block 1024 e = (b0 ++ g1) ++ take 32 (drop 512 block) ++ g2 ++ e ++ rest).
  { unfold splice. rewrite !app_assoc. replace (Z.to_nat (1024 + blen e)) with (1024 + length e)%nat by lia.
    do 2 f_equal. rewrite <- !app_assoc. change (Z.to_nat 1024) with (108 + (404 + (32 + 480)))%nat.
    rewrite <- (take_take_drop block 108), <- (take_take_drop (drop 108 block) 404), drop_drop.
    rewrite <- (take_take_drop (drop (108 + 404) block) 32), drop_drop. done. }
  assert (E2 : splice (splice block 1024 e) 512 hd = (b0 ++ g1) ++ hd ++ g2 ++ e ++ rest).
  { rewrite E. apply splice_mid; [rewrite length_app; lia|]. rewrite length_take, length_drop. lia. }
  exists b0, g1, g2, rest. split_and!; try done. rewrite E2, <- !app_assoc.
  apply (splice_mid [] b0 _ rb); [done|]. lia.
Qed.

(** The raw head as the module keeps it. *)
Record raw_wf (r : storage_block_raw_head) : Prop := {
  raw_mark : mark r = blockmark ++ zeros 7;
  raw_keycnt : 0 <= keycnt r < 2 ^ 32;
  raw_initcnt : 0 <= initcnt r < 2 ^ 32;
  raw_wrtcnt : 0 <= wrtcnt r < 2 ^ 32;
  raw_errcnt : 0 <= errcnt r < 2 ^ 32;
  raw_flags : 0 <= flags r < 2 ^ 32;
}.

Lemma raw_front_length r : raw_wf r -> blen (raw_front r) = 44.
Proof using Type. intros []. unfold raw_front. rewrite raw_mark0. done. Qed.

(** Its counters in the bytes of the block. *)
Lemma raw_counters r rest : raw_wf r ->
  rdn (raw_front r ++ rest) 0 10 = Done (blockmark ++ [0]) /\
  rd32 (raw_front r ++ rest) 24 = Done (keycnt r) /\ rd32 (raw_front r ++ rest) 28 = Done (initcnt r) /\
  rd32 (raw_front r ++ rest) 32 = Done (wrtcnt r) /\ rd32 (raw_front r ++ rest) 36 = Done (errcnt r) /\
  rd32 (raw_front r ++ rest) 40 = Done (flags r).
Proof using Type.
  intros Hr. pose proof (raw_front_length r Hr) as Hl. destruct Hr. split.
  - rewrite rdn_Done by (rewrite ?length_app; lia). f_equal. unfold raw_front. rewrite raw_mark0. done.
  - assert (Hm : blen (mark r) = 16) by (by rewrite raw_mark0). unfold raw_front in *. clear Hl raw_mark0.
    split_and!;
      [eapply (rd32_eq _ (mark r ++ le32 (version r) ++ le32 (enctype r)))
      |eapply (rd32_eq _ (mark r ++ le32 (version r) ++ le32 (enctype r) ++ le32 (keycnt r)))
      |eapply (rd32_eq _ (mark r ++ le32 (version r) ++ le32 (enctype r) ++ le32 (keycnt r) ++ le32 (initcnt r)))
      |eapply (rd32_eq _ (mark r ++ le32 (version r) ++ le32 (enctype r) ++ le32 (keycnt r) ++ le32 (initcnt r) ++
                     le32 (wrtcnt r)))
      |eapply (rd32_eq _ (mark r ++ le32 (version r) ++ le32 (enctype r) ++ le32 (keycnt r) ++ le32 (initcnt r) ++
                     le32 (wrtcnt r) ++ le32 (errcnt r)))]; try assumption;
      first [rewrite <- !app_assoc; reflexivity|rewrite !length_app, !Nat2Z.inj_add, Hm, !le32_length; reflexivity].
Qed.

(** Reading an image of the objects [l]. *)
Lemma read_image fuel st0 r enc g1 g2 l rest size :
  let X := enc_head enc ++ g2 ++ enc_all l ++ rest in
  raw_wf r -> head_wf enc -> headhash r = sha (raw_front r) -> hash r = sha (take (Z.to_nat (size - 512)) X) ->
  blocksize enc = blen (enc_all l) -> 1024 + blen (enc_all l) <= size < 2 ^ 31 -> size - 512 <= blen X ->
  blen g1 = 404 -> blen g2 = 480 ->
  Forall obj_ok l -> (forall n, kmalloc n = true) -> (8 + length l <= fuel)%nat ->
  read_block fuel st0 ((raw_bytes r ++ g1) ++ X) size =
  Done (St 2 (reverse (norm <$> l) ++ keys st0)
          (Raw (mark r) 0 0 (keycnt r) (u32 (initcnt r + 1)) (wrtcnt r) (errcnt r) (flags r) (headhash r) (hash r)) enc, 0).
Proof using digest_length.
  intros X Hr Henc Hhh Hh Hbs Hsz HX Hg1 Hg2 Hl Hk Hf. pose proof (raw_front_length r Hr) as Hfl.
  assert (Lhh : blen (headhash r) = 32) by (rewrite Hhh, sha_length; done).
  assert (Lh : blen (hash r) = 32) by (rewrite Hh, sha_length; done).
  set (B := (raw_bytes r ++ g1) ++ X).
  assert (EB : B = raw_front r ++ headhash r ++ hash r ++ g1 ++ X) by (unfold B, raw_bytes; by rewrite <- !app_assoc).
  assert (Hraw : blen (raw_bytes r ++ g1) = 512) by (unfold raw_bytes; rewrite !length_app; lia).
  destruct (raw_counters r (headhash r ++ hash r ++ g1 ++ X) Hr) as (Hm & Hkc & Hic & Hwc & Hec & Hfg).
  rewrite <- EB in *. unfold read_block. rewrite Hm. cbn [obind]. rewrite bool_decide_true by done. cbn [negb].
  assert (R1 : rdn B 0 44 = Done (raw_front r)) by (rewrite EB; apply (rdn_app []); done).
  assert (R2 : rdn B 44 32 = Done (headhash r)) by (rewrite EB; apply rdn_app; done).
  assert (R3 : rdn B 76 32 = Done (hash r)) by (rewrite EB, app_assoc; apply rdn_app; rewrite ?length_app; lia).
  rewrite R1, R2, R3, Hkc, Hic, Hwc, Hec, Hfg. cbn [obind]. rewrite <- Hhh, bool_decide_true by done. cbn [negb].
  unfold STORAGE_BLOCK_RAW_HEAD_SIZE, STORAGE_BLOCK_ENC_HEAD_SIZE. rewrite (u32_small (size - 512)) by lia.
  assert (D512 : drop (Z.to_nat 512) B = X).
  { unfold B. replace (Z.to_nat 512) with (length (raw_bytes r ++ g1)) by lia. apply drop_app_length. }
  rewrite rdn_Done, D512 by (unfold B; rewrite ?(length_app (raw_bytes r ++ g1)); lia). cbn [obind].
  rewrite <- Hh, bool_decide_true by done. cbn [negb]. unfold X at 1.
  replace fuel with (3 + (fuel - 3))%nat at 1 by lia. rewrite read_head by (done || lia).
  cbn [obind Z.eqb initcnt keycnt wrtcnt errcnt flags mark version enctype headhash hash].
  rewrite Hbs. rewrite u32_small by lia. rewrite (proj2 (Z.ltb_ge _ _)) by lia.
  assert (EB2 : B = ((raw_bytes r ++ g1) ++ enc_head enc ++ g2) ++ enc_all l ++ rest)
    by (unfold B, X; by rewrite <- !app_assoc).
  rewrite EB2.
  pose proof (keys_loop_spec l (fuel - S (length l)) (fuel - 8) ((raw_bytes r ++ g1) ++ enc_head enc ++ g2) rest 0
    (keys st0) (flags r) Hl Hk) as Hks. rewrite !Z.add_0_l in Hks.
  replace (S (length l) + (fuel - S (length l)))%nat with fuel in Hks by lia.
  replace (8 + (fuel - 8))%nat with fuel in Hks by lia.
  assert (Hhd : blen (enc_head enc) = 32) by done.
  rewrite Hks; [|rewrite length_app, Nat2Z.inj_add, Hraw, length_app; lia|lia|lia].
  cbn [obind]. by rewrite (raw_mark r Hr).
Qed.

Lemma enc_all_count l : 8 * blen l <= blen (enc_all l).
Proof using Type.
  induction l as [|o l IH]; [done|]. unfold enc_all. rewrite fmap_cons, concat_cons, length_app. fold (enc_all l).
  pose proof (enc_object_pos o). cbn [length]. lia.
Qed.

(** The raw head after a write. *)
Definition written_raw (r : storage_block_raw_head) (n : Z) (body : list Z) : storage_block_raw_head :=
  let front := Raw (mark r) (version r) (enctype r) n (initcnt r) (u32 (wrtcnt r + 1)) (errcnt r) (flags r)
                 (headhash r) (hash r) in
  Raw (mark r) (version r) (enctype r) n (initcnt r) (u32 (wrtcnt r + 1)) (errcnt r) (flags r)
    (sha (raw_front front)) (sha body).

Lemma written_raw_length r n body : raw_wf r -> blen (raw_bytes (written_raw r n body)) = 108.
Proof using digest_length.
  intros [Hm _ _ _ _ _]. unfold raw_bytes, raw_front. rewrite !length_app. cbn [headhash hash written_raw mark].
  rewrite !sha_length, Hm. done.
Qed.

(** Writing: the image of the objects, or an error that leaves the first 1024
    bytes and what follows [size] as they were. *)
Lemma write_spec st block size :
  store_wf st -> raw_wf (rawhead st) -> blockinited st = 2 -> 1024 < size < 2 ^ 31 -> size <= blen block ->
  if 1024 + blen (enc_all (keys st)) <=? size
  then exists g1 g2 rest,
    let enc := EncHead (blen (enc_all (keys st))) size in
    let X := enc_head enc ++ g2 ++ enc_all (keys st) ++ rest in
    let r := written_raw (rawhead st) (u32 (blen (keys st))) (take (Z.to_nat (size - 512)) X) in
    normalkey_writetoblock st (Some block) size = Done (St 2 (keys st) r enc, Some ((raw_bytes r ++ g1) ++ X), 0) /\
    blen g1 = 404 /\ blen g2 = 480 /\ 512 + blen X = blen block /\ within 0 size block ((raw_bytes r ++ g1) ++ X)
  else exists st' block', normalkey_writetoblock st (Some block) size = Done (st', Some block', -1) /\
    keys st' = keys st /\ blockinited st' = 2 /\ raw_wf (rawhead st') /\ within 1024 (size - 1024) block block'.
Proof using digest_length.
  intros Hwf Hr Hbi Hsz Hb. unfold normalkey_writetoblock.
  rewrite (proj2 (Z.eqb_eq _ _) Hbi). cbn [negb].
  unfold STORAGE_BLOCK_ENC_HEAD_SIZE, STORAGE_BLOCK_RAW_HEAD_SIZE.
  rewrite (proj2 (Z.leb_gt size (512 + 512))) by lia. unfold write_block.
  change (STORAGE_BLOCK_ENC_HEAD_SIZE + STORAGE_BLOCK_RAW_HEAD_SIZE) with 1024.
  change STORAGE_BLOCK_RAW_HEAD_SIZE with 512. change STORAGE_BLOCK_ENC_HEAD_SIZE with 512.
  assert (Hobj : Forall obj_wf (keys st)) by (eapply Forall_impl; [apply (store_objs _ Hwf)|by intros ? []]).
  pose proof (write_loop_spec (keys st) block (size - 1024) 0 0 Hobj ltac:(lia) ltac:(lia) ltac:(lia) ltac:(lia))
    as Hw.
  destruct (Z.leb_spec (1024 + blen (enc_all (keys st))) size) as [Hf|Hf]; cycle 1.
  { rewrite (proj2 (Z.leb_gt _ _)) in Hw by lia. destruct Hw as (b' & c' & -> & Hw & Hc). cbn [obind].
    do 2 eexists. split; [done|]. split_and!; try done. destruct Hr. by split. }
  rewrite (proj2 (Z.leb_le _ _)) in Hw by lia. rewrite Hw. cbn [obind flashsize].
  rewrite !Z.add_0_l, !Z.add_0_r, (u32_small size) by lia.
  set (e := enc_all (keys st)) in *. set (enc := EncHead (blen e) size).
  assert (Hl1 : length (splice block 1024 e) = length block) by (apply splice_length; lia).
  pose proof (write_head_spec enc (splice block 1024 e) 512 512 ltac:(lia) ltac:(lia) ltac:(lia)) as Hh.
  change (blen (enc_head enc) <=? 512) with true in Hh. cbn iota in Hh. rewrite Hh.
  change (blen (enc_head enc)) with 32. cbn [obind Z.eqb].
  assert (Hl2 : length (splice (splice block 1024 e) 512 (enc_head enc)) = length block).
  { rewrite splice_length; [done|lia|]. change (blen (enc_head enc)) with 32. lia. }
  rewrite (u32_small (size - 512)), rdn_Done by (rewrite ?Hl2; lia). cbn [obind].
  set (blk2 := splice (splice block 1024 e) 512 (enc_head enc)) in *.
  set (body := take (Z.to_nat (size - 512)) (drop (Z.to_nat 512) blk2)).
  pose proof (written_raw_length (rawhead st) (u32 (blen (keys st))) body Hr) as Hrl.
  match goal with |- context [wr blk2 0 ?b] =>
    change b with (raw_bytes (written_raw (rawhead st) (u32 (blen (keys st))) body)) end.
  destruct (block_image block e (enc_head enc) _ ltac:(lia) eq_refl Hrl) as (b0 & g1 & g2 & rest & H0 & H1 & H2 & E2 & E3).
  fold blk2 in E2, E3. rewrite wr_Done, E3 by lia. cbn [obind].
  assert (D : drop (Z.to_nat 512) blk2 = enc_head enc ++ g2 ++ e ++ rest).
  { rewrite E2. replace (Z.to_nat 512) with (length (b0 ++ g1)) by (rewrite length_app; lia). apply drop_app_length. }
  unfold body in *. rewrite D in *. exists g1, g2, rest. split_and!; try done.
  { apply (f_equal length) in D. rewrite length_drop in D. lia. }
  rewrite <- E3. eapply within_trans; [apply (within_splice _ _ _ 1024 e); lia|].
  eapply within_trans; [apply (within_splice _ _ _ 512 (enc_head enc)); rewrite ?Hl1; change (blen (enc_head enc)) with 32; lia|].
  apply within_splice; rewrite ?Hl2; lia.
Qed.

(** Written, then read into an empty store from a block with the same first
    [size] bytes: the same map. *)
Lemma write_read fuel st block size st' block' st0 tail :
  store_wf st -> raw_wf (rawhead st) -> blockinited st = 2 -> 1024 < size < 2 ^ 31 -> size <= blen block ->
  normalkey_writetoblock st (Some block) size = Done (st', Some block', 0) ->
  blockinited st0 = 1 -> keys st0 = [] -> (forall n, kmalloc n = true) -> (8 + length (keys st) <= fuel)%nat ->
  exists st'', normalkey_readfromblock fuel st0 (Some (take (Z.to_nat size) block' ++ tail)) size = Done (st'', 0) /\
    store_wf st'' /\ raw_wf (rawhead st'') /\ blockinited st'' = 2 /\ kmap st'' = kmap st /\
    keycnt (rawhead st'') = blen (keys st) /\ flags (rawhead st'') = flags (rawhead st).
Proof using digest_length.
  intros Hwf Hr Hbi Hsz Hb Hw Hbi0 Hk0 Hk Hf. pose proof (enc_all_count (keys st)) as Hcnt.
  pose proof (write_spec st block size Hwf Hr Hbi Hsz Hb) as Hspec.
  destruct (Z.leb_spec (1024 + blen (enc_all (keys st))) size); cycle 1.
  { destruct Hspec as (s' & b' & E & _). by rewrite E in Hw. }
  destruct Hspec as (g1 & g2 & rest & Hspec). cbv zeta in Hspec. destruct Hspec as (E & H1 & H2 & HX & _). rewrite E in Hw.
  match type of E with _ = Done (_, Some ?b, 0) => assert (block' = b) as -> by congruence end. clear Hw.
  unfold normalkey_readfromblock. rewrite (proj2 (Z.eqb_eq _ _) Hbi0). cbn [negb].
  unfold STORAGE_BLOCK_ENC_HEAD_SIZE, STORAGE_BLOCK_RAW_HEAD_SIZE. rewrite (proj2 (Z.leb_gt _ _)) by lia.
  set (enc := EncHead _ _) in *. set (r := written_raw _ _ _) in *.
  assert (Hr' : raw_wf r).
  { destruct Hr. split; cbn; try done; apply u32_range. }
  set (X := enc_head enc ++ g2 ++ enc_all (keys st) ++ rest) in *.
  assert (Hraw : blen (raw_bytes r ++ g1) = 512).
  { rewrite length_app, Nat2Z.inj_add, H1. unfold r. rewrite written_raw_length by done. done. }
  set (rest' := take (Z.to_nat (size - 1024 - blen (enc_all (keys st)))) rest ++ tail).
  assert (Hhd : blen (enc_head enc) = 32) by done.
  assert (EX : take (Z.to_nat (size - 512)) X ++ tail = enc_head enc ++ g2 ++ enc_all (keys st) ++ rest').
  { unfold X, rest'. rewrite !app_assoc, take_app_ge, <- !app_assoc by (rewrite !length_app; lia).
    do 5 f_equal. rewrite !length_app. lia. }
  assert (Eb : take (Z.to_nat size) ((raw_bytes r ++ g1) ++ X) ++ tail =
    (raw_bytes r ++ g1) ++ enc_head enc ++ g2 ++ enc_all (keys st) ++ rest').
  { rewrite <- EX, take_app_ge, <- (app_assoc (raw_bytes r ++ g1)) by lia. do 4 f_equal. lia. }
  rewrite Eb, read_image; try done; try lia.
  - rewrite Hk0, app_nil_r. eexists. split; [done|].
    assert (Hn : Forall obj_ok (norm <$> keys st) /\ entry <$> (norm <$> keys st) = entry <$> keys st).
    { destruct Hwf as [Ho _]. clear -Ho. induction Ho as [|o l Ho Hl [IH1 IH2]]; [done|]. destruct (norm_ok o Ho).
      rewrite !fmap_cons, IH2. split; [by constructor|by f_equal]. }
    destruct Hn as [Hno Hne]. assert (Hnd : NoDup (obj_name <$> (norm <$> keys st))).
    { rewrite <- entry_names, Hne, entry_names. apply (store_names _ Hwf). }
    split_and!; try done.
    + split; cbn [keys]; [by apply Forall_reverse|]. by rewrite fmap_reverse, reverse_Permutation.
    + destruct Hr'. split; cbn; try done; apply u32_range.
    + unfold kmap. cbn [keys]. rewrite <- Hne. apply list_to_map_proper.
      * by rewrite entry_names, fmap_reverse, reverse_Permutation.
      * by rewrite reverse_Permutation.
    + cbn. rewrite u32_small by lia. done.
  - split; cbn; lia.
  - rewrite <- EX, take_app_le by (rewrite length_take; lia). by rewrite take_take, Nat.min_id.
  - rewrite <- EX, length_app, length_take. lia.
  - apply (store_objs _ Hwf).
Qed.

(** ** Properties of the store *)

(** Requests of the clients of the store, and what they get. *)
Inductive request :=
  | RAdd (nm buf : list Z) (len attr : Z) (junk : list Z)
  | RDel (nm : list Z)
  | RGet (nm : list Z).
Inductive reply := RRet (ret : Z) | RObj (c : option (Z * Z * list Z)).

Definition serve st (q : request) : outcome (state * reply) :=
  match q with
  | RAdd nm buf len attr junk => let* (st, ret) := normalkey_add st (Some nm) (Some buf) len attr junk in Done (st, RRet ret)
  | RDel nm => let '(st, ret) := normalkey_del st (Some nm) in Done (st, RRet ret)
  | RGet nm => Done (st, RObj (content <$> (normalkey_get st (Some nm) ≫= fun i => keys st !! i)))
  end.

(** The same on a finite map. *)
Definition spec_serve (m : gmap (list Z) (Z * Z * list Z)) (q : request) : gmap (list Z) (Z * Z * list Z) * reply :=
  match q with
  | RAdd nm buf len attr _ =>
      if may_add m nm len attr
      then (<[nm := (attr, key_type (m !! nm), take (Z.to_nat len) buf)]> m, RRet 0) else (m, RRet (-1))
  | RDel nm => if bool_decide (is_Some (m !! nm)) then (delete nm m, RRet 0) else (m, RRet (-1))
  | RGet nm => (m, RObj (m !! nm))
  end.

(** C code passes a buffer of at least [len] bytes and 32-bit arguments. *)
Definition request_ok (q : request) : Prop :=
  match q with
  | RAdd nm buf len attr junk =>
      length junk = Z.to_nat MAX_OBJ_NAME_LEN /\ 0 <= len < 2 ^ 30 /\ len <= blen buf /\ 0 <= attr < 2 ^ 32
  | _ => True
  end.

Fixpoint serve_all st (qs : list request) : outcome (state * list reply) :=
  match qs with
  | [] => Done (st, [])
  | q :: qs => let* (st, a) := serve st q in let* (st, l) := serve_all st qs in Done (st, a :: l)
  end.
Fixpoint spec_all (m : gmap (list Z) (Z * Z * list Z)) (qs : list request) : gmap (list Z) (Z * Z * list Z) * list reply :=
  match qs with
  | [] => (m, [])
  | q :: qs => let '(m, a) := spec_serve m q in let '(m, l) := spec_all m qs in (m, a :: l)
  end.

Lemma serve_refines st q : store_wf st -> blockinited st = 2 -> request_ok q ->
  exists st', serve st q = Done (st', snd (spec_serve (kmap st) q)) /\ store_wf st' /\ blockinited st' = 2 /\
    kmap st' = fst (spec_serve (kmap st) q).
Proof using digest_length.
  intros Hwf Hbi Hq. destruct q as [nm buf len attr junk|nm|nm]; cbn [serve spec_serve].
  - destruct Hq as (Hj & Hl & Hb & Ha). pose proof (add_refines st nm buf len attr junk Hwf Hj Hl Hb Ha) as Hadd.
    rewrite (proj2 (Z.eqb_eq _ _) Hbi) in Hadd. cbn [andb] in Hadd. destruct (may_add _ _ _ _).
    + destruct Hadd as (st' & -> & ? & ? & _ & _ & ?). by exists st'.
    + rewrite Hadd. by exists st.
  - pose proof (del_refines st nm Hwf) as Hdel. rewrite (proj2 (Z.eqb_eq _ _) Hbi) in Hdel. cbn [andb] in Hdel.
    destruct (bool_decide _).
    + destruct Hdel as (st' & -> & ? & ? & ?). by exists st'.
    + rewrite Hdel. by exists st.
  - exists st. split_and!; try done. cbn [snd].
    destruct (get_cases st nm Hwf) as [(i & o & -> & Hi & _ & _ & ->)|(-> & _ & ->)]; [|done].
    cbn. by rewrite Hi.
Qed.

(** C15: the key store is a finite map from names to attribute, type and data.
    Every sequence of additions, deletions and searches runs without leaving a
    buffer, gives the answers of the map (the error -1 for an empty or secure
    key, a name of more than 80 bytes, another attribute than the stored one,
    a failed allocation, an unknown name) and leaves a well-formed store whose
    map is the map of the specification. *)
Theorem store_refines_map st qs :
  store_wf st -> blockinited st = 2 -> Forall request_ok qs ->
  exists st', serve_all st qs = Done (st', snd (spec_all (kmap st) qs)) /\ store_wf st' /\
    kmap st' = fst (spec_all (kmap st) qs).
Proof using digest_length.
  intros Hwf Hbi Hq. revert st Hwf Hbi. induction Hq as [|q qs Hq Hqs IH]; intros st Hwf Hbi; [by exists st|].
  cbn [serve_all spec_all]. destruct (serve_refines st q Hwf Hbi Hq) as (s1 & -> & Hw1 & Hb1 & Hk1). cbn [obind].
  destruct (IH s1 Hw1 Hb1) as (s2 & -> & Hw2 & Hk2). rewrite Hk1 in *. cbn [obind].
  destruct (spec_serve _ _) as [m1 a]. cbn [fst snd] in *. destruct (spec_all m1 qs) as [m2 l]. by exists s2.
Qed.

(** C29: what is written to the block is read back: when writing succeeds,
    loading the written block into an empty store succeeds, every key passes
    its hash check, and the loaded store is well formed and has the same map. *)
Theorem block_roundtrip fuel st block size st' block' st0 :
  store_wf st -> raw_wf (rawhead st) -> blockinited st = 2 -> 1024 < size < 2 ^ 31 -> size <= blen block ->
  normalkey_writetoblock st (Some block) size = Done (st', Some block', 0) ->
  blockinited st0 = 1 -> keys st0 = [] -> (forall n, kmalloc n = true) -> (8 + length (keys st) <= fuel)%nat ->
  exists st'', normalkey_readfromblock fuel st0 (Some block') size = Done (st'', 0) /\ store_wf st'' /\
    kmap st'' = kmap st /\ keycnt (rawhead st'') = blen (keys st) /\ flags (rawhead st'') = flags (rawhead st).
Proof using digest_length.
  intros. edestruct (write_read fuel st block size st' block' st0 (drop (Z.to_nat size) block'))
    as (s2 & E & ? & _ & _ & ? & ? & ?); [done..|]. rewrite take_drop in E. by exists s2.
Qed.

(** Writing the block never leaves it: the write succeeds exactly when the
    heads and the encoded keys fit into [size], and otherwise returns -1 with
    the heads in the block, the bytes past [size] and the keys in memory as they were. *)
Theorem writetoblock_bounds st block size :
  store_wf st -> raw_wf (rawhead st) -> blockinited st = 2 -> 1024 < size < 2 ^ 31 -> size <= blen block ->
  exists st' block', keys st' = keys st /\ length block' = length block /\
    drop (Z.to_nat size) block' = drop (Z.to_nat size) block /\
    normalkey_writetoblock st (Some block) size =
      Done (st', Some block', if 1024 + blen (enc_all (keys st)) <=? size then 0 else -1) /\
    (size < 1024 + blen (enc_all (keys st)) -> take 1024 block' = take 1024 block).
Proof using digest_length.
  intros Hwf Hr Hbi Hsz Hb. pose proof (write_spec st block size Hwf Hr Hbi Hsz Hb) as Hw.
  destruct (Z.leb_spec (1024 + blen (enc_all (keys st))) size).
  - destruct Hw as (g1 & g2 & rest & Hw). cbv zeta in Hw. destruct Hw as (E & _ & _ & _ & Hl & _ & Hd).
    do 2 eexists. split; [|split; [exact Hl|split; [exact Hd|split; [exact E|lia]]]]. done.
  - destruct Hw as (st' & b' & E & Hk & _ & _ & Hl & Ht & Hd).
    replace (1024 + (size - 1024)) with size in Hd by lia. by exists st', b'.
Qed.
End Ops.

(** ** Witnesses: a sum for a digest *)

Definition sum_digest (d : list Z) : list Z + Z := inl (replicate 32 (u32 (foldr Z.add 0 d))).
Lemma sum_digest_length d h : sum_digest d = inl h -> length h = 32%nat.
Proof. by intros [= <-]. Qed.

Definition demo_obj : storage_object :=
  Obj (splice (zeros 80) 0 [109; 97; 99]) 3 0 OBJ_TYPE_GENERIC 5 (Some [1; 2; 3; 4; 5])
    (fst (normalkey_hash sum_digest [1; 2; 3; 4; 5])).
Definition demo_st : state := St 2 [demo_obj] raw_zero (EncHead 0 0).
Definition demo_empty : state := St 1 [] raw_zero (EncHead 0 0).

Lemma demo_wf : store_wf sum_digest demo_st.
Proof.
  split; [|apply NoDup_singleton]. constructor; [|constructor]. split; [|by vm_compute].
  split; try by vm_compute. by exists [1; 2; 3; 4; 5].
Qed.
Lemma raw_zero_wf : raw_wf raw_zero.
Proof. by split. Qed.

Lemma store_refines_map_witness : exists st',
  serve_all sum_digest (fun _ => true) demo_st
    [RAdd [109; 97; 99] [9; 8; 7] 2 0 (zeros 80); RAdd [105; 100] [4] 1 2 (zeros 80); RGet [109; 97; 99];
     RAdd [105; 100] [5] 1 0 (zeros 80); RDel [109; 97; 99]; RGet [109; 97; 99]] =
  Done (st', [RRet 0; RRet 0; RObj (Some (0, OBJ_TYPE_GENERIC, [9; 8])); RRet (-1); RRet 0; RObj None]).
Proof.
  destruct (store_refines_map sum_digest (fun _ => true) sum_digest_length demo_st
    [RAdd [109; 97; 99] [9; 8; 7] 2 0 (zeros 80); RAdd [105; 100] [4] 1 2 (zeros 80); RGet [109; 97; 99];
     RAdd [105; 100] [5] 1 0 (zeros 80); RDel [109; 97; 99]; RGet [109; 97; 99]] demo_wf eq_refl) as (st' & E & _).
  { repeat (constructor; [by vm_compute|]). constructor. }
  exists st'. rewrite E. by vm_compute.
Defined.

Lemma block_roundtrip_witness : exists st' block' st'',
  normalkey_writetoblock sum_digest demo_st (Some (zeros 1500)) 1500 = Done (st', Some block', 0) /\
  normalkey_readfromblock sum_digest (fun _ => true) 9 demo_empty (Some block') 1500 = Done (st'', 0) /\
  kmap st'' = {[ [109; 97; 99] := (0, OBJ_TYPE_GENERIC, [1; 2; 3; 4; 5]) ]}.
Proof.
  destruct (normalkey_writetoblock sum_digest demo_st (Some (zeros 1500)) 1500) as [[[st' [block'|]] ret]| |] eqn:E;
    [|by vm_compute in E..].
  assert (ret = 0) as -> by (vm_compute in E; congruence).
  assert (Hz : 1500 <= blen (zeros 1500)) by (by vm_compute).
  destruct (block_roundtrip sum_digest (fun _ => true) sum_digest_length 9 demo_st (zeros 1500) 1500 st' block' demo_empty
    demo_wf raw_zero_wf eq_refl ltac:(lia) Hz E eq_refl eq_refl (fun _ => eq_refl) ltac:(cbn; lia))
    as (st'' & E2 & _ & K & _).
  exists st', block', st''. split; [reflexivity|]. split; [exact E2|]. rewrite K. vm_compute. reflexivity.
Defined.

Lemma writetoblock_bounds_witness : exists st' block',
  normalkey_writetoblock sum_digest demo_st (Some (zeros 1500)) 1100 = Done (st', Some block', -1) /\
  take 1024 block' = zeros 1024.
Proof.
  destruct (writetoblock_bounds sum_digest sum_digest_length demo_st (zeros 1500) 1100 demo_wf raw_zero_wf eq_refl)
    as (st' & block' & _ & _ & _ & E & T); [done|by vm_compute|].
  exists st', block'. rewrite E. split; [by vm_compute|]. rewrite T by (by vm_compute). by vm_compute.
Defined.
End KeyStore.
