(* ===== verification/KeyIf.v ===== *)
(** * The normal key interface (src/drivers/efuse_unifykey/storage_key.c)

    The interface between the key manager and the store of normal keys: loading
    the store from the key partition of the flash, reading keys, and writing a
    key through to the flash.  The two functions of a flash driver are a record
    of operations, what they promise a class ([Storage]); [MmcKey.v] has the
    driver of the eMMC and its instance.

    The theorems: a key whose write is acknowledged is there, and all others
    are as before, after a restart; a write that is refused leaves the flash
    alone, but a key too large for the block stays in memory and makes every
    later write fail. *)

From S2P Require Import Prelude Mem KeyTlv KeyStore.
From stdpp Require Import base numbers gmap list.
From Stdlib Require Import ZArith Lia.

Local Open Scope Z_scope.
Local Open Scope cint_scope.

Module KeyIf.
Import KeyTlv KeyStore.

Definition EBUSY : Z := 16.
Definition UNIFYKEY_STORAGE_TYPE_INVALID : Z := 0.
Definition UNIFYKEY_STORAGE_TYPE_MAX : Z := 3.
Definition DEF_NORMAL_BLOCK_SIZE : Z := 256 * 1024.
Definition PAGE_SIZE : Z := 4096.

(** A function of the flash driver: device, buffer, length and the old value of
    actual_len; the device, the buffer, actual_len and the result. *)
Definition io_fn (D : Type) : Type := D -> list Z -> Z -> Z -> outcome (D * list Z * Z * Z).

Record unifykey_storage_ops (D : Type) := Ops { ops_read : option (io_fn D); ops_write : option (io_fn D) }.
#[global] Arguments Ops {D}.
#[global] Arguments ops_read {D}.
#[global] Arguments ops_write {D}.
Record unifykey_type (D : Type) := UkType { storage_type : Z; uk_ops : unifykey_storage_ops D }.
#[global] Arguments UkType {D}.
#[global] Arguments storage_type {D}.
#[global] Arguments uk_ops {D}.

Definition is_valid_unifykey_storage_type (t : Z) : Z :=
  if (t =? UNIFYKEY_STORAGE_TYPE_INVALID) || (UNIFYKEY_STORAGE_TYPE_MAX <=? t) then 0 else - EINVAL.

Definition register_unifykey_types {D} (reg uk_type : unifykey_type D) : unifykey_type D * Z :=
  if is_valid_unifykey_storage_type (storage_type uk_type) =? 0 then (reg, - EINVAL)
  else if truthy (is_valid_unifykey_storage_type (storage_type reg)) then (reg, - EBUSY)
  else (UkType (storage_type uk_type) (uk_ops uk_type), 0).

(** The static variables of the module, with the device behind the operations. *)
Record kif (D : Type) := Kif {
  unifykey_types : unifykey_type D;
  device : D;
  normal_blksz : Z;
  normal_flashsize : Z;
  normal_block : option (list Z);
  nstore : state;
}.
#[global] Arguments Kif {D}.
#[global] Arguments unifykey_types {D}.
#[global] Arguments device {D}.
#[global] Arguments normal_blksz {D}.
#[global] Arguments normal_flashsize {D}.
#[global] Arguments normal_block {D}.
#[global] Arguments nstore {D}.

Section Ops.
Context (digest : list Z -> list Z + Z) (kmalloc : Z -> bool) {D : Type}.
Implicit Types (k : kif D).

Definition set_store k (st : state) : kif D :=
  Kif (unifykey_types k) (device k) (normal_blksz k) (normal_flashsize k) (normal_block k) st.

(** [blksz]: the property of the device tree; [junk]: the new buffer. *)
Definition normal_key_init k (blksz : option Z) (junk : Z -> list Z) : kif D * Z :=
  let sz := match blksz with
            | Some b => if truthy b && (b mod PAGE_SIZE =? 0) then b else normal_blksz k
            | None => normal_blksz k
            end in
  if kmalloc sz
  then (Kif (unifykey_types k) (device k) sz (normal_flashsize k) (Some (junk sz)) (nstore k), 0)
  else (Kif (unifykey_types k) (device k) sz (normal_flashsize k) None (nstore k), -1).

Definition _amlkey_init_normal (fuel : nat) k : outcome (kif D * Z) :=
  match normal_block k with
  | None => Done (k, -1)
  | Some block =>
      match ops_read (uk_ops (unifykey_types k)) with
      | None => Done (k, -1)
      | Some read =>
          let '(st, ret) := normalkey_init (nstore k) in
          if truthy ret then Done (set_store k st, -1)
          else
            let* (d, block, fsz, ret) := read (device k) block (normal_blksz k) (normal_flashsize k) in
            let k := Kif (unifykey_types k) d (normal_blksz k) fsz (Some block) st in
            if truthy ret then Done (set_store k (normalkey_deinit st), ret)
            else
              let* (st, ret) := normalkey_readfromblock digest kmalloc fuel st (Some block) fsz in
              Done (set_store k (if truthy ret then normalkey_deinit st else st), ret)
      end
  end.

(** The object of a name. *)
Definition object k (name_ : option (list Z)) : option storage_object :=
  normalkey_get (nstore k) name_ ≫= fun i => keys (nstore k) !! i.

Definition _amlkey_exist_normal k (name_ : option (list Z)) : Z :=
  match object k name_ with Some _ => 1 | None => 0 end.
Definition _amlkey_get_attr_normal k (name_ : option (list Z)) : Z :=
  match object k name_ with Some o => attribute o | None => 0 end.
Definition _amlkey_size_normal k (name_ : option (list Z)) : Z :=
  match object k name_ with Some o => datasize o | None => 0 end.

(** The buffer and the number of bytes read. *)
Definition _amlkey_read_normal k (name_ : option (list Z)) (buffer : list Z) (len : Z) : outcome (list Z * Z) :=
  match object k name_ with
  | Some o =>
      if datasize o <=? len then
        match dataptr o with
        | None => if datasize o =? 0 then Done (buffer, 0) else Fault
        | Some d => let* bs := rdn d 0 (datasize o) in let* buffer := wr buffer 0 bs in Done (buffer, datasize o)
        end
      else Done (buffer, 0)
  | None => Done (buffer, 0)
  end.

Definition _amlkey_hash_normal k (name_ : option (list Z)) (hash_ : list Z) : outcome (list Z * Z) :=
  match object k name_ with
  | Some o => let* h := wr hash_ 0 (hashptr o) in Done (h, 0)
  | None => Done (hash_, -1)
  end.

Definition _amlkey_write_normal k (name_ buffer : option (list Z)) (len attr : Z) (junk : list Z) : outcome (kif D * Z) :=
  if truthy (attr .& OBJ_ATTR_SECURE) then Done (k, 0)
  else
    match ops_write (uk_ops (unifykey_types k)) with
    | None => Done (k, 0)
    | Some write =>
        let* (st, ret) := normalkey_add digest kmalloc (nstore k) name_ buffer len attr junk in
        let k := set_store k st in
        if truthy ret then Done (k, 0)
        else
          let* (st, block, ret) := normalkey_writetoblock digest st (normal_block k) (normal_flashsize k) in
          let k := Kif (unifykey_types k) (device k) (normal_blksz k) (normal_flashsize k) block st in
          if truthy ret then Done (k, 0)
          else
            match block with
            | None => Fault
            | Some block =>
                let* (d, block, _, ret) := write (device k) block (normal_flashsize k) 0 in
                let k := Kif (unifykey_types k) d (normal_blksz k) (normal_flashsize k) (Some block) st in
                if truthy ret then Done (k, 0) else Done (k, s32 len)
            end
    end.

(** ** What a flash driver promises

    [holds d img]: the key partition has the content [img]; [healthy d]: no
    transfer will fail; [bsz] is the size of the buffer of the caller. *)
Class Storage (ops : unifykey_storage_ops D) (bsz : Z) (holds : D -> list Z -> Prop) (healthy : D -> Prop) := {
  storage_size d img : holds d img -> 1024 < blen img <= bsz;
  storage_max : bsz < 2 ^ 31;
  storage_read read d img buf act :
    ops_read ops = Some read -> holds d img -> blen buf = bsz ->
    exists d' buf' act' ret, read d buf bsz act = Done (d', buf', act', ret) /\ holds d' img /\ length buf' = length buf /\
      (ret = 0 -> act' = blen img /\ take (length img) buf' = img) /\ (healthy d -> ret = 0);
  storage_write write d img buf act :
    ops_write ops = Some write -> holds d img -> blen buf = bsz ->
    exists d' buf' act' ret, write d buf (blen img) act = Done (d', buf', act', ret) /\ length buf' = length buf /\
      (ret = 0 -> holds d' (take (length img) buf));
}.

Context (digest_length : forall d h, digest d = inl h -> length h = 32%nat) (kmalloc_ok : forall n, kmalloc n = true).
Context (ops : unifykey_storage_ops D) (bsz : Z) (holds : D -> list Z -> Prop) (healthy : D -> Prop)
  `{!Storage ops bsz holds healthy}.
Context (read write : io_fn D) (Hread : ops_read ops = Some read) (Hwrite : ops_write ops = Some write).

Abbreviation contents := (gmap (list Z) (Z * Z * list Z)).

(** The content [img] of the flash is loaded as the map [m]. *)
Definition stored (img : list Z) (m : contents) : Prop :=
  exists n, forall fuel st0 tail, (n <= fuel)%nat -> blockinited st0 = 1 -> keys st0 = [] ->
  exists st, normalkey_readfromblock digest kmalloc fuel st0 (Some (img ++ tail)) (blen img) = Done (st, 0) /\
    store_wf digest st /\ raw_wf (rawhead st) /\ blockinited st = 2 /\ kmap st = m.

(** The module in use, with the keys [m]. *)
Record loaded k (m : contents) : Prop := {
  ld_ops : uk_ops (unifykey_types k) = ops;
  ld_wf : store_wf digest (nstore k);
  ld_raw : raw_wf (rawhead (nstore k));
  ld_init : blockinited (nstore k) = 2;
  ld_map : kmap (nstore k) = m;
  ld_block : exists b, normal_block k = Some b /\ blen b = bsz;
  ld_size : exists img, holds (device k) img /\ normal_flashsize k = blen img;
  ld_blksz : normal_blksz k = bsz;
}.

(** After a restart: the same device, an empty store, a new buffer [b]. *)
Definition restart k (b : list Z) (fsz : Z) (raw : storage_block_raw_head) (enc : storage_block_enc_head) : kif D :=
  Kif (unifykey_types k) (device k) bsz fsz (Some b) (St 0 [] raw enc).

(** Loading what the flash holds. *)
Lemma init_loads m img : stored img m -> exists n, forall fuel k b,
  (n <= fuel)%nat -> uk_ops (unifykey_types k) = ops -> holds (device k) img -> normal_block k = Some b -> blen b = bsz ->
  normal_blksz k = bsz -> blockinited (nstore k) = 0 -> keys (nstore k) = [] ->
  exists k' ret, _amlkey_init_normal fuel k = Done (k', ret) /\ (ret = 0 -> loaded k' m) /\
    (healthy (device k) -> ret = 0).
Proof using All.
  intros [n Hn]. exists n. intros fuel k b Hf Hops Hh Hb Hbl Hbs Hbi Hk. unfold _amlkey_init_normal.
  rewrite Hb, Hops, Hread. unfold normalkey_init. rewrite Hbi. cbn [truthy Z.eqb negb].
  destruct (storage_read read (device k) img b (normal_flashsize k) Hread Hh Hbl) as (d & b' & act & ret & E & Hh' & Hl & Hr & Hhl).
  rewrite Hbs, E. cbn [obind]. unfold truthy. destruct (Z.eqb_spec ret 0) as [->|Hne]; cbn [negb]; cycle 1.
  { do 2 eexists. split; [done|]. split; [done|]. intros H. by apply Hhl in H. }
  destruct (Hr eq_refl) as [-> Himg].
  destruct (Hn fuel (St 1 (keys (nstore k)) (rawhead (nstore k)) (enchead (nstore k))) (drop (length img) b') Hf eq_refl Hk)
    as (st & Est & Hwf & Hraw & Hbi2 & Hm).
  rewrite <- Himg in Est at 1. rewrite take_drop in Est. rewrite Est. cbn [obind Z.eqb negb].
  do 2 eexists. split; [done|]. split; [|done]. intros _. split; cbn; try done.
  - exists b'. split; [done|]. lia.
  - by exists img.
Qed.

(** The keys after a write. *)
Definition put (m : contents) (nm buf : list Z) (len attr : Z) : contents :=
  <[nm := (attr, key_type (m !! nm), take (Z.to_nat len) buf)]> m.

(** The arguments of a write: a buffer of at least [len] bytes. *)
Record args_ok (buf : list Z) (len attr : Z) (junk : list Z) : Prop := {
  arg_junk : length junk = Z.to_nat MAX_OBJ_NAME_LEN;
  arg_len : 0 <= len < 2 ^ 30;
  arg_buf : len <= blen buf;
  arg_attr : 0 <= attr < 2 ^ 32;
}.

(** The bytes the keys need. *)
Definition need (st : state) : Z := 1024 + blen (enc_all (keys st)).

(** The write through to the flash, once the key is in memory. *)
Lemma write_through k m st :
  loaded k m -> store_wf digest st -> blockinited st = 2 -> rawhead st = rawhead (nstore k) ->
  exists st' b b', normal_block k = Some b /\
    normalkey_writetoblock digest st (normal_block k) (normal_flashsize k) =
      Done (st', Some b', if need st <=? normal_flashsize k then 0 else -1) /\
    keys st' = keys st /\ blockinited st' = 2 /\ raw_wf (rawhead st') /\ blen b' = bsz /\
    (need st <= normal_flashsize k -> forall img : list Z, normal_flashsize k = blen img -> stored (take (length img) b') (kmap st)).
Proof using All.
  intros [Hops _ Hraw _ _ (b & Hb & Hbl) (img & Hh & Hsz) _] Hwf Hbi Hr.
  destruct (storage_size _ _ Hh) as [Hmin Hmax]. pose proof storage_max as Hbs. unfold need.
  assert (Hraw' : raw_wf (rawhead st)) by (by rewrite Hr).
  pose proof (write_spec digest digest_length st b (normal_flashsize k) Hwf Hraw' Hbi ltac:(lia) ltac:(lia)) as Hw.
  destruct (Z.leb_spec (1024 + blen (enc_all (keys st))) (normal_flashsize k)).
  - destruct Hw as (g1 & g2 & rest & Hw). cbv zeta in Hw. destruct Hw as (E & H1 & H2 & HX & Hl & _).
    match type of E with _ = Done (?s', Some ?x, _) => set (st' := s') in *; set (b' := x) in * end.
    assert (Hr' : raw_wf (rawhead st')) by (destruct Hraw'; split; cbn; try done; apply u32_range).
    assert (Hk' : keys st' = keys st /\ blockinited st' = 2) by done. clearbody st' b'.
    exists st', b, b'. rewrite Hb. split_and!; try done; try apply Hk'; [lia|].
    intros _ img' Himg'. exists (8 + length (keys st))%nat. intros fuel st0 tail Hf Hb0 Hk0.
    destruct (write_read digest kmalloc digest_length fuel st b (normal_flashsize k) _ _ st0 tail
      Hwf Hraw' Hbi ltac:(lia) ltac:(lia) E Hb0 Hk0 kmalloc_ok Hf) as (st2 & E2 & ? & ? & ? & ? & _).
    exists st2. split_and!; try done. rewrite <- E2, Himg', Nat2Z.id. f_equal. rewrite length_take. lia.
  - destruct Hw as (st' & b' & E & Hk & Hbi' & Hr' & Hl & _).
    exists st', b, b'. split; [done|]. rewrite Hb. split; [done|]. split_and!; done || lia.
Qed.

Lemma write_cases k m nm buf len attr junk :
  loaded k m -> args_ok buf len attr junk ->
  exists k' ret, _amlkey_write_normal k (Some nm) (Some buf) len attr junk = Done (k', ret) /\
  if may_add kmalloc m nm len attr
  then (store_wf digest (nstore k') /\ kmap (nstore k') = put m nm buf len attr /\
        normal_flashsize k' = normal_flashsize k /\ unifykey_types k' = unifykey_types k) /\
       if need (nstore k') <=? normal_flashsize k
       then (exists b b' act r, write (device k) b (normal_flashsize k) 0 = Done (device k', b', act, r) /\
               blen b = bsz /\ normal_block k' = Some b' /\
               stored (take (Z.to_nat (normal_flashsize k)) b) (put m nm buf len attr) /\ (ret <> 0 -> r = 0)) /\
            (ret = 0 \/
             ret = len /\ loaded k' (put m nm buf len attr) /\
             exists img, holds (device k') img /\ stored img (put m nm buf len attr))
       else ret = 0 /\ device k' = device k /\ loaded k' (put m nm buf len attr)
  else ret = 0 /\ k' = k.
Proof using All.
  intros Hk [Hj Hl Hb Ha]. pose proof Hk as [Hops Hwf Hraw Hbi Hm (bl & Hbl & Hblen) (img & Hh & Hsz) Hbs].
  unfold _amlkey_write_normal. rewrite Hops, Hwrite.
  pose proof (add_refines digest kmalloc digest_length (nstore k) nm buf len attr junk Hwf Hj Hl Hb Ha) as Hadd.
  rewrite (proj2 (Z.eqb_eq _ _) Hbi), Hm in Hadd. cbn [andb] in Hadd.
  destruct (truthy (attr .& OBJ_ATTR_SECURE)) eqn:Hsec.
  { exists k, 0. split; [done|]. assert (may_add kmalloc m nm len attr = false) as ->; [|done].
    unfold may_add, attr_secure. rewrite Hsec. cbn [negb]. by rewrite andb_false_r. }
  destruct (may_add kmalloc m nm len attr); cycle 1.
  { rewrite Hadd. cbn. exists k, 0. split; [|done]. by destruct k. }
  destruct Hadd as (st & -> & Hwf' & Hbi' & Hr' & _ & Hkm). cbn [obind truthy Z.eqb negb set_store normal_block normal_flashsize].
  destruct (write_through k m st Hk Hwf' Hbi' Hr') as (st' & b0 & b' & Hb0 & E & Hkeys & Hbi2 & Hraw2 & Hbl2 & Hst).
  rewrite E. cbn [obind].
  assert (Hwf2 : store_wf digest st') by (destruct Hwf'; split; by rewrite Hkeys).
  assert (Hm2 : kmap st' = put m nm buf len attr) by (unfold kmap, put; by rewrite Hkeys).
  assert (Hneed : need st' = need st) by (unfold need; by rewrite Hkeys).
  destruct (Z.leb_spec (need st) (normal_flashsize k)) as [Hfit|Hfit]; cbn [truthy Z.eqb negb]; cycle 1.
  { do 2 eexists. split; [done|]. cbn [nstore]. split; [done|]. rewrite (proj2 (Z.leb_gt _ _)) by lia.
    split_and!; try done. split; cbn; try done; [by exists b'|by exists img]. }
  cbn [device normal_flashsize unifykey_types normal_blksz set_store]. rewrite Hsz.
  specialize (Hst Hfit img Hsz). rewrite Hkm in Hst. rewrite Hsz in Hfit.
  destruct (storage_write write (device k) img b' 0 Hwrite Hh Hbl2) as (d' & b2 & act & ret & Ew & Hlb & Hd).
  assert (Hcall : forall x, (x <> 0 -> ret = 0) -> exists b b3 act r, write (device k) b (blen img) 0 = Done (d', b3, act, r) /\ blen b = bsz /\
            Some b2 = Some b3 /\ stored (take (Z.to_nat (blen img)) b) (put m nm buf len attr) /\ (x <> 0 -> r = 0)).
  { intros x Hx. exists b', b2, act, ret. rewrite Nat2Z.id. split_and!; done. }
  rewrite Ew. cbn [obind].
  unfold truthy. destruct (Z.eqb_spec ret 0) as [->|Hne]; cbn [negb]; cycle 1.
  { do 2 eexists. split; [done|]. cbn [nstore normal_flashsize]. split; [done|].
    rewrite (proj2 (Z.leb_le _ _)) by lia. split; [by apply Hcall|]. by left. }
  specialize (Hd eq_refl). rewrite s32_small by lia.
  do 2 eexists. split; [done|]. cbn [nstore normal_flashsize]. split; [done|]. rewrite (proj2 (Z.leb_le _ _)) by lia.
  split; [by apply Hcall|]. right. split; [done|]. split.
  - split; cbn; try done; [exists b2; split; [done|lia]|]. exists (take (length img) b'). split; [done|].
    rewrite length_take. pose proof (storage_size _ _ Hh). lia.
  - by exists (take (length img) b').
Qed.

(** Reading a key. *)
Lemma read_spec k m nm out n : loaded k m ->
  _amlkey_read_normal k (Some nm) out n =
  match m !! nm with
  | Some (_, _, d) => if blen d <=? n then let* out := wr out 0 d in Done (out, blen d) else Done (out, 0)
  | None => Done (out, 0)
  end.
Proof using Type.
  intros [_ Hwf _ _ <- _ _ _]. unfold _amlkey_read_normal, object.
  destruct (get_cases digest (nstore k) nm Hwf) as [(i & o & -> & Hi & Hn & [Ho _] & ->)|(-> & _ & ->)]; [|done].
  cbn [option_bind mbind]. rewrite Hi. unfold content. rewrite (obj_data_length o Ho).
  destruct (datasize o <=? n); [|done]. destruct (wf_data o Ho) as (d & Hd & Hl). pose proof (wf_datasize o Ho).
  rewrite Hd, rdn_Done by lia. cbn [obind]. rewrite drop_0. unfold obj_data. by rewrite Hd.
Qed.

(** The bytes of an object in the block. *)
Definition enc_size (namelen datalen : Z) : Z :=
  8 + (if namelen =? 0 then 0 else 12 + (8 + (namelen + 3) / 4 * 4)) + (12 + (8 + (datalen + 3) / 4 * 4)) + 40 + 12 + 12.

Lemma enc_object_size o : obj_wf o -> blen (enc_object o) = enc_size (blen (obj_name o)) (blen (obj_data o)).
Proof using Type.
  intros Hwf. pose proof (obj_name_length o Hwf) as Hn. pose proof (wf_hash o Hwf) as Hh. rewrite Hn.
  unfold enc_object, enc_fields, enc_name, enc_data, enc_size. rewrite tlv_length.
  destruct (namesize o =? 0); repeat rewrite ?length_app, ?Nat2Z.inj_add, ?tlv_length, ?pad4_length, ?le32_length, ?Hh, ?Hn;
    cbn [length Z.of_nat]; lia.
Qed.

Lemma need_object st nm a t d : store_wf digest st -> kmap st !! nm = Some (a, t, d) ->
  1024 + enc_size (blen nm) (blen d) <= need st.
Proof using Type.
  intros Hwf Hm. destruct (get_cases digest st nm Hwf) as [(i & o & _ & Hi & <- & [Ho _] & E)|(_ & _ & E)];
    rewrite E in Hm; [|done]. injection Hm as <- <- <-. rewrite <- enc_object_size by done. unfold need, enc_all.
  rewrite <- (take_drop_middle _ _ _ Hi).
  rewrite fmap_app, fmap_cons, concat_app, concat_cons, !length_app. lia.
Qed.

(** ** Properties of the interface *)

(** A key whose write is acknowledged survives a restart: whatever the
    memory of the module holds, once the flash has been read again the key has
    the data that was written, and every other key reads as it did before the
    write. *)
Theorem acknowledged_write_survives k m nm buf len attr junk k' ret :
  loaded k m -> args_ok buf len attr junk ->
  _amlkey_write_normal k (Some nm) (Some buf) len attr junk = Done (k', ret) -> ret <> 0 ->
  exists n, forall fuel b fsz raw enc, (n <= fuel)%nat -> blen b = bsz ->
  exists k2 r, _amlkey_init_normal fuel (restart k' b fsz raw enc) = Done (k2, r) /\
    (r = 0 -> (forall out, len <= blen out ->
                 _amlkey_read_normal k2 (Some nm) out (blen out) = Done (splice out 0 (take (Z.to_nat len) buf), len)) /\
              (forall nm' out n, nm' <> nm -> _amlkey_read_normal k2 (Some nm') out n = _amlkey_read_normal k (Some nm') out n)).
Proof using All.
  intros Hk Ha Hw Hne. destruct (write_cases k m nm buf len attr junk Hk Ha) as (k1 & r1 & E & Hc).
  rewrite E in Hw. injection Hw as <- <-. destruct (may_add _ _ _ _ _); [|by destruct Hc].
  destruct Hc as [_ Hc]. destruct (_ <=? _); [|by destruct Hc].
  destruct Hc as [_ [?|(-> & Hld & img & Hh & Hst)]]; [done|].
  destruct (init_loads _ _ Hst) as [n Hn]. exists n. intros fuel b fsz raw enc Hf Hb.
  destruct (Hn fuel (restart k1 b fsz raw enc) b Hf) as (k2 & r & E2 & Hl2 & _); try done; [apply (ld_ops _ _ Hld)|].
  exists k2, r. split; [done|]. intros Hr. specialize (Hl2 Hr). destruct Ha as [_ Hl Hb' _].
  assert (Hlt : blen (take (Z.to_nat len) buf) = len) by (rewrite length_take; lia). split.
  - intros out Ho. rewrite (read_spec _ _ _ _ _ Hl2). unfold put. rewrite lookup_insert_eq, Hlt.
    rewrite (proj2 (Z.leb_le _ _)), wr_Done by lia. done.
  - intros nm' out n' Hnm. rewrite (read_spec _ _ _ _ _ Hl2), (read_spec _ _ _ _ _ Hk). unfold put.
    by rewrite lookup_insert_ne by done.
Qed.

(** A key that does not fit into the block is refused, but stays in the
    memory of the module, from which it can be read; from then on every write
    of another key is refused too, and the flash is never written. *)
Theorem oversize_key_blocks_writes k m big buf len attr junk nm buf2 len2 attr2 junk2 :
  loaded k m -> args_ok buf len attr junk -> args_ok buf2 len2 attr2 junk2 -> nm <> big ->
  may_add kmalloc m big len attr = true -> normal_flashsize k < 1024 + enc_size (blen big) len ->
  exists k1 k2, _amlkey_write_normal k (Some big) (Some buf) len attr junk = Done (k1, 0) /\
    loaded k1 (put m big buf len attr) /\
    _amlkey_write_normal k1 (Some nm) (Some buf2) len2 attr2 junk2 = Done (k2, 0) /\ device k2 = device k.
Proof using All.
  intros Hk Ha Ha2 Hne Hadd Hbig. destruct (write_cases k m big buf len attr junk Hk Ha) as (k1 & r1 & E & Hc).
  rewrite Hadd in Hc. destruct Hc as [(Hwf & Hm & Hfs & _) Hc].
  assert (Hov : forall st, store_wf digest st -> kmap st !! big = Some (attr, key_type (m !! big), take (Z.to_nat len) buf) ->
            normal_flashsize k < need st).
  { intros st Hst Hl. pose proof (need_object _ _ _ _ _ Hst Hl) as Hn. destruct Ha as [_ Hlen Hb _].
    assert (Hlt : blen (take (Z.to_nat len) buf) = len) by (rewrite length_take; lia). rewrite Hlt in Hn. lia. }
  assert (Hov1 : normal_flashsize k < need (nstore k1)).
  { apply Hov; [done|]. rewrite Hm. unfold put. apply lookup_insert_eq. }
  rewrite (proj2 (Z.leb_gt _ _)) in Hc by lia. destruct Hc as (-> & Hd1 & Hld1).
  destruct (write_cases k1 _ nm buf2 len2 attr2 junk2 Hld1 Ha2) as (k2 & r2 & E2 & Hc2).
  exists k1, k2. split; [done|]. split; [done|].
  destruct (may_add _ _ nm _ _); [|destruct Hc2 as [-> ->]; split; done].
  destruct Hc2 as [(Hwf2 & Hm2 & _) Hc2].
  assert (Hov2 : normal_flashsize k < need (nstore k2)).
  { apply Hov; [done|]. rewrite Hm2. unfold put. rewrite lookup_insert_ne by done. apply lookup_insert_eq. }
  rewrite (proj2 (Z.leb_gt _ _)) in Hc2 by lia. destruct Hc2 as (-> & Hd2 & _). split; [done|]. by rewrite Hd2.
Qed.
End Ops.

(** ** Witnesses: a device in memory *)

Definition ram_read : io_fn (list Z) := fun d buf len act => let* buf := wr buf 0 d in Done (d, buf, blen d, 0).
Definition ram_write : io_fn (list Z) := fun d buf len act => let* d := rdn buf 0 len in Done (d, buf, len, 0).
Definition ram_ops : unifykey_storage_ops (list Z) := Ops (Some ram_read) (Some ram_write).
Definition ram_holds (d img : list Z) : Prop := d = img /\ length img = 2048%nat.

#[global] Instance ram_storage : Storage ram_ops 2048 ram_holds (fun _ => True).
Proof.
  split.
  - intros d img [_ H]. lia.
  - lia.
  - intros read d img buf act [= <-] [-> Hl] Hb. unfold ram_read. rewrite wr_Done by lia. cbn [obind].
    do 4 eexists. split; [reflexivity|]. split; [done|]. split; [apply splice_length; lia|]. split; [|done].
    intros _. split; [done|]. rewrite splice_0, take_app_length. done.
  - intros write d img buf act [= <-] [-> Hl] Hb. unfold ram_write. rewrite rdn_Done by lia. cbn [obind].
    do 4 eexists. split; [reflexivity|]. split; [done|]. intros _. rewrite drop_0, Nat2Z.id. split; [done|].
    rewrite length_take. lia.
Qed.

Definition ram_kif : kif (list Z) :=
  Kif (UkType 1 ram_ops) (zeros 2048) 2048 2048 (Some (zeros 2048)) (St 2 [] raw_zero (EncHead 0 0)).

Lemma empty_wf digest r h : store_wf digest (St 2 [] r h).
Proof. split; [by apply Forall_nil_2|by apply NoDup_nil_2]. Qed.

Lemma ram_loaded : loaded sum_digest ram_ops 2048 ram_holds ram_kif ∅.
Proof.
  split; try done; [apply empty_wf|by exists (zeros 2048)|by exists (zeros 2048)].
Qed.

Lemma demo_args buf len attr : length buf = Z.to_nat len -> 0 <= len < 2 ^ 30 -> 0 <= attr < 2 ^ 32 -> args_ok buf len attr (zeros 80).
Proof. intros Hl H1 H2. split; [done|lia|lia|lia]. Qed.

Lemma acknowledged_write_survives_witness : exists fuel k' k2 r,
  _amlkey_write_normal sum_digest (fun _ => true) ram_kif (Some [109]) (Some [1; 2; 3]) 3 0 (zeros 80) = Done (k', 3) /\
  _amlkey_init_normal sum_digest (fun _ => true) fuel (restart 2048 k' (zeros 2048) 0 raw_zero (EncHead 0 0)) = Done (k2, r) /\
  (r = 0 -> _amlkey_read_normal k2 (Some [109]) [0; 0; 0; 0] 4 = Done ([1; 2; 3; 0], 3)).
Proof.
  destruct (_amlkey_write_normal sum_digest (fun _ => true) ram_kif (Some [109]) (Some [1; 2; 3]) 3 0 (zeros 80))
    as [[k' ret]| |] eqn:E; [|by vm_compute in E..].
  assert (ret = 3) as -> by (vm_compute in E; congruence).
  destruct (acknowledged_write_survives sum_digest (fun _ => true) sum_digest_length (fun _ => eq_refl) ram_ops 2048 ram_holds
    (fun _ => True) ram_read ram_write eq_refl eq_refl ram_kif ∅ [109] [1; 2; 3] 3 0 (zeros 80) k' 3 ram_loaded
    (demo_args [1; 2; 3] 3 0 eq_refl ltac:(lia) ltac:(lia)) E ltac:(lia)) as [n Hn].
  destruct (Hn n (zeros 2048) 0 raw_zero (EncHead 0 0) (Nat.le_refl n) eq_refl) as (k2 & r & E2 & Hr).
  exists n, k', k2, r. split; [reflexivity|]. split; [exact E2|]. intros H0.
  exact (proj1 (Hr H0) [0; 0; 0; 0] ltac:(cbn; lia)).
Defined.

Lemma oversize_key_blocks_writes_witness : exists k1 k2,
  _amlkey_write_normal sum_digest (fun _ => true) ram_kif (Some [109]) (Some (zeros 1000)) 1000 0 (zeros 80) = Done (k1, 0) /\
  _amlkey_exist_normal k1 (Some [109]) = 1 /\
  _amlkey_write_normal sum_digest (fun _ => true) k1 (Some [110]) (Some [1]) 1 0 (zeros 80) = Done (k2, 0).
Proof.
  destruct (oversize_key_blocks_writes sum_digest (fun _ => true) sum_digest_length (fun _ => eq_refl) ram_ops 2048 ram_holds
    (fun _ => True) ram_read ram_write eq_refl eq_refl ram_kif ∅ [109] (zeros 1000) 1000 0 (zeros 80) [110] [1] 1 0 (zeros 80)
    ram_loaded (demo_args (zeros 1000) 1000 0 eq_refl ltac:(lia) ltac:(lia)) (demo_args [1] 1 0 eq_refl ltac:(lia) ltac:(lia))
    ltac:(done) eq_refl ltac:(vm_compute; reflexivity)) as (k1 & k2 & E1 & Hl & E2 & _).
  exists k1, k2. split; [exact E1|]. split; [|exact E2].
  destruct (get_cases sum_digest (nstore k1) [109] (ld_wf _ _ _ _ _ _ Hl)) as [(i & o & Eg & Hi & _)|(_ & _ & En)].
  - unfold _amlkey_exist_normal, object. rewrite Eg. cbn [mbind option_bind]. by rewrite Hi.
  - rewrite (ld_map _ _ _ _ _ _ Hl) in En. discriminate En.
Defined.
End KeyIf.
