(* ===== verification/MmcKey.v ===== *)
(** * Keys on the eMMC (src/drivers/mmc/host/mmc_key.c)

    The key partition of the eMMC has two copies of the keys, of 256 KiB each,
    and behind them a block for each copy with its checksum, a stamp and a
    magic number.  A write updates the second copy, then the first; reading uses the
    first; at start-up the driver checks both and repairs one from the other.

    A transfer may fail, and a failed write leaves any bytes in the blocks it
    was to write.  As the code stops at the first failed transfer, that is also
    what a loss of power during a write leaves behind.

    The theorems: the driver keeps the promises of [KeyIf.Storage]; whatever
    fails during a write, the next start-up finds or restores a complete copy,
    old or new; the repair of copies with different stamps does not work. *)

From S2P Require Import Prelude Mem KeyTlv KeyStore KeyIf.
From stdpp Require Import base numbers list.
From Stdlib Require Import ZArith Lia.

Local Open Scope Z_scope.
Local Open Scope cint_scope.

Module MmcKey.
Import KeyIf.

Definition EFAULT : Z := 14.
Definition EMMC_BLOCK_SIZE : Z := 0x100.
Definition MAX_EMMC_BLOCK_SIZE : Z := 128 * 1024.
Definition MAX_TRANS_BLK : Z := 256.
Definition EMMC_KEYAREA_SIZE : Z := 256 * 1024.
Definition EMMCKEY_RESERVE_OFFSET : Z := 0x4000.
Definition get_reserve_partition_off_from_tbl : Z := 0x2400000.

(** ** The card

    [faults] has the result of each coming transfer, and the bytes a failed
    write leaves; past its end transfers succeed.  [claims] counts
    mmc_claim_host minus mmc_release_host.  Switching the command queue off and
    on around the transfers is left out: the code ignores its result. *)
Record mmc_card := Card {
  mem : Z -> Z;
  read_blkbits : Z;
  faults : list (Z * (Z -> Z));
  claims : Z;
}.

Definition rd (m : Z -> Z) (off n : Z) : list Z := (fun i => m (off + Z.of_nat i)) <$> seq 0 (Z.to_nat n).
Definition put_bytes (m : Z -> Z) (off n : Z) (f : Z -> Z) : Z -> Z :=
  fun a => if (off <=? a) && (a <? off + n) then f a else m a.
Definition put_list (m : Z -> Z) (off : Z) (bs : list Z) : Z -> Z :=
  put_bytes m off (blen bs) (fun a => nth (Z.to_nat (a - off)) bs 0).

Definition next_fault (c : mmc_card) : Z * (Z -> Z) := match faults c with [] => (0, fun _ => 0) | f :: _ => f end.
Definition with_mem (c : mmc_card) (m : Z -> Z) : mmc_card := Card m (read_blkbits c) (drop 1 (faults c)) (claims c).
Definition mmc_claim_host (c : mmc_card) : mmc_card := Card (mem c) (read_blkbits c) (faults c) (claims c + 1).
Definition mmc_release_host (c : mmc_card) : mmc_card := Card (mem c) (read_blkbits c) (faults c) (claims c - 1).

(** The bytes read and the result. *)
Definition mmc_read_internal (c : mmc_card) (dev_addr blocks : Z) : mmc_card * list Z * Z :=
  (with_mem c (mem c), rd (mem c) (dev_addr << read_blkbits c) (blocks << read_blkbits c), fst (next_fault c)).
Definition mmc_write_internal (c : mmc_card) (dev_addr : Z) (data : list Z) : mmc_card * Z :=
  let off := dev_addr << read_blkbits c in
  if truthy (fst (next_fault c))
  then (with_mem c (put_bytes (mem c) off (blen data) (snd (next_fault c))), fst (next_fault c))
  else (with_mem c (put_list (mem c) off data), 0).

(** ** Driver state *)

Record aml_key_info := Info { checksum : Z; stamp : Z; magic : Z }.

(** The bytes of the structure, and the structure in the bytes of a block. *)
Definition info_bytes (i : aml_key_info) : list Z :=
  le32 (u32 (checksum i)) ++ le32 (checksum i >> 32) ++ le32 (stamp i) ++ le32 (magic i).
Definition info_of (bs : list Z) : outcome aml_key_info :=
  let* lo := rd32 bs 0 in
  let* hi := rd32 bs 4 in
  let* s := rd32 bs 8 in
  let* m := rd32 bs 12 in
  Done (Info (lo .| (hi << 32)) s m).

Record drv := Drv { card : mmc_card; info0 : aml_key_info; info1 : aml_key_info; key_stamp : Z }.

Definition key_infos (d : drv) (i : Z) : outcome aml_key_info :=
  if i =? 0 then Done (info0 d) else if i =? 1 then Done (info1 d) else Fault.
Definition set_info (d : drv) (i : Z) (x : aml_key_info) : drv :=
  if i =? 0 then Drv (card d) x (info1 d) (key_stamp d) else Drv (card d) (info0 d) x (key_stamp d).
Definition set_card (d : drv) (c : mmc_card) : drv := Drv c (info0 d) (info1 d) (key_stamp d).

Definition stamp_after (a b : Z) : bool := s32 (s32 b - s32 a) <? 0.

Fixpoint sum_words (n : nat) (l : list Z) (acc : Z) : outcome Z :=
  match n with
  | O => Done acc
  | S n => match l with a :: b :: c :: d :: r => sum_words n r (u64 (acc + of_le32 a b c d)) | _ => Fault end
  end.
Definition _calc_key_checksum (addr : list Z) (size : Z) : outcome Z := sum_words (Z.to_nat (size >> 2)) addr 0.

(** ** Operations *)
Section Ops.
Context (kmalloc : Z -> bool).
Implicit Types (c : mmc_card) (d : drv).

Definition key_offset : Z := get_reserve_partition_off_from_tbl + EMMCKEY_RESERVE_OFFSET.

Definition _verify_key_checksum d (addr : list Z) (cpy : Z) : outcome (drv * Z) :=
  let bit := read_blkbits (card d) in
  let blk := ((key_offset + EMMC_KEYAREA_SIZE * 2) >> bit) + cpy in
  if negb (kmalloc 512) then Done (d, -1)
  else
    let c := mmc_claim_host (card d) in
    let '(c, checksum_info, ret) := mmc_read_internal c blk 1 in
    let d := set_card d (mmc_release_host c) in
    if truthy ret then Done (d, ret)
    else
      let* i := info_of checksum_info in
      let d := set_info d cpy i in
      let* s := _calc_key_checksum addr EMMC_KEYAREA_SIZE in
      Done (d, if s =? checksum i then 0 else 1).

(** The loops over the transfers of an area: [step] gives the blocks of a
    transfer, [more] tells whether to go on; the second and later transfers
    use the second half of the buffer. *)
Fixpoint read_loop (fuel : nat) (step : Z -> Z) (more : Z -> bool) c (blk cnt : Z) (buf : list Z) (dst : Z)
  : outcome (mmc_card * list Z * Z) :=
  match fuel with
  | O => Spin
  | S fuel =>
      let '(c, bs, ret) := mmc_read_internal c blk (step cnt) in
      if truthy ret then Done (c, buf, ret)
      else
        let* buf := wr buf dst bs in
        let cnt := cnt - EMMC_BLOCK_SIZE in
        if more cnt then read_loop fuel step more c (blk + EMMC_BLOCK_SIZE) cnt buf MAX_EMMC_BLOCK_SIZE
        else Done (c, buf, 0)
  end.
Fixpoint write_loop (fuel : nat) c (blk cnt : Z) (buf : list Z) (src : Z) : outcome (mmc_card * Z) :=
  match fuel with
  | O => Spin
  | S fuel =>
      let* bs := rdn buf src (EMMC_BLOCK_SIZE << read_blkbits c) in
      let '(c, ret) := mmc_write_internal c blk bs in
      if truthy ret then Done (c, ret)
      else
        let cnt := cnt - EMMC_BLOCK_SIZE in
        if negb (cnt =? 0) then write_loop fuel c (blk + EMMC_BLOCK_SIZE) cnt buf MAX_EMMC_BLOCK_SIZE
        else Done (c, 0)
  end.

(** The transfers of an area: 512 blocks of 512 bytes. *)
Definition fuel_area : nat := 2.

Definition _amlmmc_read c (blk : Z) (buf : list Z) (cnt : Z) : outcome (mmc_card * list Z * Z) :=
  let* (c, buf, ret) :=
    read_loop fuel_area (fun _ => MAX_TRANS_BLK) (fun cnt => negb (cnt =? 0)) (mmc_claim_host c) blk cnt buf 0 in
  Done (mmc_release_host c, buf, if truthy ret then - EFAULT else 0).

Definition emmc_write_one_key d (buffer : list Z) (valid_flag : Z) : outcome (drv * Z) :=
  let bit := read_blkbits (card d) in
  if negb (kmalloc 512) then Done (d, -1)
  else
    let blk := (key_offset + (valid_flag mod 2) * EMMC_KEYAREA_SIZE) >> bit in
    let cnt := EMMC_KEYAREA_SIZE >> bit in
    let* i := key_infos d (valid_flag - 1) in
    let checksum_info := info_bytes i ++ replicate (Z.to_nat (512 - 16)) 0 in
    let* (c, ret) := write_loop fuel_area (mmc_claim_host (card d)) blk cnt buffer 0 in
    if truthy ret then Done (set_card d c, ret)
    else
      let blk := ((key_offset + 2 * EMMC_KEYAREA_SIZE) >> bit) + valid_flag mod 2 in
      let* bs := rdn checksum_info 0 (1 << bit) in
      let '(c, ret) := mmc_write_internal c blk bs in
      Done (set_card d (mmc_release_host c), ret).

Definition emmc_read_valid_key d (buffer : list Z) (valid_flag : Z) : outcome (drv * list Z * Z) :=
  let bit := read_blkbits (card d) in
  let addr := key_offset + (valid_flag - 1) * EMMC_KEYAREA_SIZE in
  let* (c, buffer, ret) :=
    read_loop fuel_area (fun _ => EMMC_BLOCK_SIZE) (fun cnt => negb (cnt =? 0)) (mmc_claim_host (card d)) (addr >> bit)
      (EMMC_KEYAREA_SIZE >> bit) buffer 0 in
  Done (set_card d (mmc_release_host c), buffer, ret).

(** One turn of the loop of update_key_info. *)
Definition check_copy d (addr : list Z) (cpy valid_flag : Z) : outcome (drv * list Z * Z) :=
  let bit := read_blkbits (card d) in
  let blk := (key_offset + cpy * EMMC_KEYAREA_SIZE) >> bit in
  let* (c, addr, ret) := _amlmmc_read (card d) blk addr (EMMC_KEYAREA_SIZE >> bit) in
  let d := set_card d c in
  if truthy ret then Done (d, addr, valid_flag)
  else
    let* (d, ret) := _verify_key_checksum d addr cpy in
    let* i := key_infos d cpy in
    Done (d, addr, if negb (truthy ret) && negb (magic i =? 0) then valid_flag + (cpy + 1) else valid_flag).

Definition update_key_info d (addr : list Z) : outcome (drv * list Z * Z) :=
  let* (d, addr, valid_flag) := check_copy d addr 1 0 in
  let* (d, addr, valid_flag) := check_copy d addr 0 valid_flag in
  let s := if stamp (info1 d) <? stamp (info0 d) then stamp (info0 d) else stamp (info1 d) in
  Done (Drv (card d) (info0 d) (info1 d) s, addr, valid_flag).

Definition write_invalid_key d (addr : list Z) (valid_flag : Z) : outcome (drv * Z) :=
  if (2 <? valid_flag) || (valid_flag <? 1) then Done (d, -1)
  else
    let* (d, addr, ret) := emmc_read_valid_key d addr valid_flag in
    if truthy ret then Done (d, ret) else emmc_write_one_key d addr valid_flag.

Definition update_old_key d (addr : list Z) : outcome (drv * Z) :=
  let repair d valid_flag :=
    let* (d, ret) := emmc_write_one_key d addr valid_flag in
    if truthy ret then Done (d, ret) else Done (Drv (card d) (info0 d) (info1 d) (stamp (info0 d)), ret) in
  if stamp_after (stamp (info1 d)) (stamp (info0 d)) then repair (set_info d 1 (info0 d)) 2
  else if stamp_after (stamp (info0 d)) (stamp (info1 d)) then repair (set_info d 0 (info1 d)) 1
  else Done (d, 0).

(** [junk]: the new buffer. *)
Definition _key_init d (junk : list Z) : outcome (drv * Z) :=
  if negb (kmalloc EMMC_KEYAREA_SIZE) then Done (d, - ENOMEM)
  else
    let* (d, key, valid) := update_key_info d junk in
    let* (d, _) :=
      (if valid =? 1 then write_invalid_key d key 1
       else if valid =? 2 then write_invalid_key d key 2
       else if valid =? 3 then update_old_key d key
       else Done (d, 0)) in
    Done (d, 0).

(** One turn of the loop of emmc_key_write. *)
Definition write_copy d (buffer : list Z) (length cpy : Z) : outcome (drv * Z) :=
  let* s := _calc_key_checksum buffer length in
  emmc_write_one_key (set_info d (cpy - 1) (Info s (u32 (key_stamp d + 1)) 9)) buffer cpy.
Definition emmc_key_write : io_fn drv := fun d buffer length actual_length =>
  let* (d, ret) := write_copy d buffer length 1 in
  if truthy ret then Done (d, buffer, actual_length, ret)
  else let* (d, ret) := write_copy d buffer length 2 in Done (d, buffer, actual_length, ret).

Definition emmc_key_read : io_fn drv := fun d buffer length _ =>
  let bit := read_blkbits (card d) in
  let cnt := length >> bit in
  let* (c, buffer, ret) :=
    read_loop (S (Z.to_nat (cnt / EMMC_BLOCK_SIZE))) (Z.min EMMC_BLOCK_SIZE) (fun cnt => 0 <? cnt)
      (mmc_claim_host (card d)) (key_offset >> bit) cnt buffer 0 in
  Done (set_card d (mmc_release_host c), buffer, length, ret).

Definition mmc_ops : unifykey_storage_ops drv := Ops (Some emmc_key_read) (Some emmc_key_write).
End Ops.

(** ** Lemmas on the card *)

Lemma rd_length m off n : 0 <= n -> blen (rd m off n) = n.
Proof. intros. unfold rd. rewrite length_fmap, length_seq. lia. Qed.

Lemma rd_ext m m' off n : (forall a, off <= a < off + n -> m a = m' a) -> rd m off n = rd m' off n.
Proof. intros H. apply list_fmap_ext. intros i x Hi. apply lookup_seq in Hi. apply H. lia. Qed.

Lemma rd_app m off a b : 0 <= a -> 0 <= b -> rd m off (a + b) = rd m off a ++ rd m (off + a) b.
Proof.
  intros. unfold rd. rewrite Z2Nat.inj_add, seq_app, fmap_app by lia. f_equal. cbn [Nat.add].
  apply list_eq. intros i. rewrite !list_lookup_fmap.
  destruct (decide (i < Z.to_nat b)%nat).
  - rewrite !lookup_seq_lt by lia. cbn. do 2 f_equal. lia.
  - rewrite !lookup_seq_ge by lia. done.
Qed.

Lemma rd_put_same m off bs : rd (put_list m off bs) off (blen bs) = bs.
Proof.
  apply list_eq. intros i. unfold rd, put_list, put_bytes. rewrite list_lookup_fmap, Nat2Z.id.
  destruct (decide (i < length bs)%nat) as [Hi|Hi].
  - rewrite lookup_seq_lt by lia. cbn. rewrite (proj2 (Z.leb_le _ _)), (proj2 (Z.ltb_lt _ _)) by lia. cbn [andb].
    replace (Z.to_nat (off + Z.of_nat i - off)) with i by lia. destruct (nth_lookup_or_length bs i 0) as [->|]; [done|lia].
  - rewrite lookup_seq_ge by lia. symmetry. apply lookup_ge_None. lia.
Qed.

Lemma rd_put_bytes_other m off k f off' n :
  off' + n <= off \/ off + k <= off' -> rd (put_bytes m off k f) off' n = rd m off' n.
Proof.
  intros Hd. apply rd_ext. intros a Ha. unfold put_bytes.
  destruct (Z.leb_spec off a), (Z.ltb_spec a (off + k)); cbn [andb]; lia || done.
Qed.

(** ** Transfers of an area *)

Definition SIZE : Z := 262144.
Definition HALF : Z := 131072.
Definition area (m : Z -> Z) (i : Z) : list Z := rd m (key_offset + i * SIZE) SIZE.
Definition slot (m : Z -> Z) (i : Z) : list Z := rd m (key_offset + 2 * SIZE + 512 * i) 512.

Lemma area_length m i : blen (area m i) = SIZE.
Proof. by apply rd_length. Qed.

(** The faults that are left. *)
Definition left_over (c c' : mmc_card) : Prop := exists k, faults c' = drop k (faults c).
Lemma left_over_refl c : left_over c c.
Proof. by exists 0%nat. Qed.
Lemma left_over_trans c1 c2 c3 : left_over c1 c2 -> left_over c2 c3 -> left_over c1 c3.
Proof. intros [k1 E1] [k2 E2]. exists (k1 + k2)%nat. by rewrite E2, E1, drop_drop. Qed.
Lemma left_over_nil c c' : left_over c c' -> faults c = [] -> faults c' = [].
Proof. intros [k ->] ->. by rewrite drop_nil. Qed.
Lemma left_over_next c m : left_over c (with_mem c m).
Proof. by exists 1%nat. Qed.
Lemma next_fault_nil c : faults c = [] -> fst (next_fault c) = 0.
Proof. unfold next_fault. by intros ->. Qed.

(** A card after transfers that did not change it. *)
Record same_card (c c' : mmc_card) : Prop := {
  same_mem : mem c' = mem c;
  same_bits : read_blkbits c' = read_blkbits c;
  same_claims : claims c' = claims c;
  same_faults : left_over c c';
}.

Lemma shift9 x : x << 9 = x * 512.
Proof. rewrite Z.shiftl_mul_pow2 by lia. done. Qed.

Lemma wr_half buf bs : blen buf = SIZE -> blen bs = HALF -> wr buf 0 bs = Done (splice buf 0 bs).
Proof. unfold SIZE, HALF. intros. apply wr_Done; lia. Qed.

Lemma read_loop_area fuel step more c off buf :
  read_blkbits c = 9 -> off mod 512 = 0 -> blen buf = SIZE ->
  step 512 = 256 -> step 256 = 256 -> more 256 = true -> more 0 = false ->
  exists c' buf' ret, read_loop (S (S fuel)) step more c (off >> 9) 512 buf 0 = Done (c', buf', ret) /\
    same_card c c' /\ blen buf' = SIZE /\ (ret = 0 -> buf' = rd (mem c) off SIZE) /\ (faults c = [] -> ret = 0).
Proof.
  intros Hb Ho Hl S1 S2 M1 M0. unfold SIZE in *.
  assert (Eo : (off >> 9) * 512 = off) by (rewrite Z.shiftr_div_pow2 by lia; change (2 ^ 9) with 512; pose proof (Z.div_mod off 512); lia).
  cbn [read_loop]. rewrite S1. unfold mmc_read_internal. rewrite Hb, !shift9, Eo.
  unfold truthy. destruct (Z.eqb_spec (fst (next_fault c)) 0) as [E1|E1]; cbn [negb]; cycle 1.
  { do 3 eexists. split; [reflexivity|]. split; [split; [reflexivity..|apply left_over_next]|]. split; [exact Hl|].
    split; [intros E3; contradiction|]. intros E. by apply next_fault_nil in E. }
  change (256 * 512) with HALF. assert (Lh : blen (rd (mem c) off HALF) = HALF) by (by apply rd_length).
  rewrite wr_half by assumption. cbn [obind]. change (512 - EMMC_BLOCK_SIZE) with 256. rewrite M1, S2.
  cbn [with_mem read_blkbits mem]. rewrite Hb, !shift9.
  replace ((off >> 9 + EMMC_BLOCK_SIZE) * 512) with (off + HALF) by (unfold EMMC_BLOCK_SIZE, HALF; lia).
  change (256 * 512) with HALF. set (c1 := with_mem c (mem c)).
  assert (Hs : same_card c (with_mem c1 (mem c))).
  { split; [reflexivity..|]. eapply left_over_trans; apply left_over_next. }
  destruct (Z.eqb_spec (fst (next_fault c1)) 0) as [E2|E2]; cbn [negb]; cycle 1.
  { do 3 eexists. split; [reflexivity|]. split; [exact Hs|]. split; [rewrite splice_length; unfold HALF in *; lia|].
    split; [intros E3; contradiction|]. intros E. exfalso. apply E2, next_fault_nil. unfold c1. cbn [with_mem faults]. by rewrite E. }
  assert (Lh2 : blen (rd (mem c) (off + HALF) HALF) = HALF) by (by apply rd_length).
  unfold MAX_EMMC_BLOCK_SIZE. rewrite wr_Done; [|lia|rewrite splice_length; unfold HALF in *; lia].
  cbn [obind]. change (256 - EMMC_BLOCK_SIZE) with 0. rewrite M0. do 3 eexists. split; [reflexivity|].
  split; [exact Hs|]. split; [rewrite !splice_length; rewrite ?splice_length; unfold HALF in *; lia|].
  split; [|reflexivity]. intros _. change (128 * 1024) with HALF.
  replace HALF with (0 + blen (rd (mem c) off HALF)) at 2 by lia.
  rewrite splice_app by (unfold HALF in *; lia). change 262144 with (HALF + HALF). rewrite splice_0, rd_app by (unfold HALF; lia).
  rewrite drop_ge, app_nil_r; [reflexivity|]. unfold HALF in *. rewrite length_app. lia.
Qed.

(** The two blocks with the information on the copies hold bytes. *)
Definition info_start : Z := key_offset + 2 * SIZE.
Definition card_wf (c : mmc_card) : Prop :=
  (forall a, info_start <= a < info_start + 1024 -> is_byte (mem c a)) /\
  Forall (fun f => forall a, is_byte (snd f a)) (faults c).
Definition outside (off n : Z) (m m' : Z -> Z) : Prop := forall a, a < off \/ off + n <= a -> m' a = m a.

Lemma card_wf_slot c i : card_wf c -> i = 0 \/ i = 1 -> Forall is_byte (slot (mem c) i).
Proof.
  intros [Hm _] Hi. apply Forall_fmap, Forall_forall. intros x Hx. apply elem_of_seq in Hx. cbn. apply Hm.
  unfold info_start. lia.
Qed.

Lemma outside_rd off n m m' off' n' :
  outside off n m m' -> off' + n' <= off \/ off + n <= off' -> rd m' off' n' = rd m off' n'.
Proof. intros Ho Hd. apply rd_ext. intros a Ha. apply Ho. lia. Qed.

(** One write command. *)
Lemma write_internal_spec c blk data off : read_blkbits c = 9 -> blk * 512 = off ->
  exists c' ret, mmc_write_internal c blk data = (c', ret) /\ ret = fst (next_fault c) /\ read_blkbits c' = 9 /\ claims c' = claims c /\
    left_over c c' /\ outside off (blen data) (mem c) (mem c') /\
    (ret = 0 -> rd (mem c') off (blen data) = data) /\ (faults c = [] -> ret = 0) /\
    (card_wf c -> Forall is_byte data \/ off + blen data <= info_start -> card_wf c').
Proof.
  intros Hb Ho. unfold mmc_write_internal. rewrite Hb, shift9, Ho.
  assert (Hout : forall f, outside off (blen data) (mem c) (put_bytes (mem c) off (blen data) f)).
  { intros f a Ha. unfold put_bytes. destruct (Z.leb_spec off a), (Z.ltb_spec a (off + blen data)); cbn [andb]; lia || done. }
  assert (Hf : card_wf c -> Forall (fun f => forall a, is_byte (snd f a)) (drop 1 (faults c))).
  { intros [_ Hf]. by apply Forall_drop. }
  unfold truthy. destruct (Z.eqb_spec (fst (next_fault c)) 0) as [E|E]; cbn [negb]; do 2 eexists;
    (split; [reflexivity|]); (split; [by rewrite ?E|]); (split; [exact Hb|]); (split; [reflexivity|]);
    (split; [apply left_over_next|]);
    (split; [apply Hout|]).
  - split; [intros _; apply rd_put_same|]. split; [done|]. intros Hwf Hd. split; [|by apply Hf].
    intros a Ha. cbn [with_mem mem]. unfold put_list, put_bytes.
    destruct (Z.leb_spec off a), (Z.ltb_spec a (off + blen data)); cbn [andb]; try by apply Hwf.
    destruct Hd; [by apply nth_byte|lia].
  - split; [done|]. split; [intros Hn; by apply next_fault_nil in Hn|]. intros Hwf Hd. split; [|by apply Hf].
    intros a Ha. cbn [with_mem mem]. unfold put_bytes. destruct (_ && _); [|by apply Hwf].
    unfold next_fault in *. destruct (faults c) as [|f l] eqn:Ef; [done|]. destruct Hwf as [_ Hw]. rewrite Ef in Hw.
    by apply Forall_cons_1 in Hw as [Hw _].
Qed.

Lemma write_loop_area c off buf :
  read_blkbits c = 9 -> off mod 512 = 0 -> blen buf = SIZE ->
  exists c' ret, write_loop fuel_area c (off >> 9) 512 buf 0 = Done (c', ret) /\
    (ret = 0 -> fst (next_fault c) = 0) /\ read_blkbits c' = 9 /\
    claims c' = claims c /\ left_over c c' /\ outside off SIZE (mem c) (mem c') /\
    (ret = 0 -> rd (mem c') off SIZE = buf) /\ (faults c = [] -> ret = 0) /\
    (card_wf c -> off + SIZE <= info_start -> card_wf c').
Proof.
  intros Hb Ho Hl. unfold SIZE in *.
  assert (Eo : (off >> 9) * 512 = off) by (rewrite Z.shiftr_div_pow2 by lia; change (2 ^ 9) with 512; pose proof (Z.div_mod off 512); lia).
  unfold fuel_area. cbn [write_loop]. rewrite Hb, shift9. change (EMMC_BLOCK_SIZE * 512) with HALF.
  rewrite rdn_Done by (unfold HALF; lia). cbn [obind]. set (h0 := take (Z.to_nat HALF) (drop (Z.to_nat 0) buf)).
  assert (L0 : blen h0 = HALF) by (unfold h0, HALF; rewrite length_take, length_drop; lia).
  destruct (write_internal_spec c (off >> 9) h0 off Hb Eo) as (c1 & r1 & -> & En & Hb1 & Hc1 & Hlo1 & Hout1 & Hr1 & Hf1 & Hw1).
  rewrite L0 in *.
  assert (Hout1' : outside off 262144 (mem c) (mem c1)) by (intros a Ha; apply Hout1; unfold HALF; lia).
  unfold truthy. destruct (Z.eqb_spec r1 0) as [->|E1]; cbn [negb]; cycle 1.
  { exists c1, r1. split; [reflexivity|]. split; [by rewrite <- En|]. split; [exact Hb1|]. split; [exact Hc1|]. split; [exact Hlo1|].
    split; [exact Hout1'|]. split; [intros E; contradiction|]. split; [exact Hf1|].
    intros Hwf Hby. apply Hw1; [exact Hwf|]. right. unfold HALF. lia. }
  change (512 - EMMC_BLOCK_SIZE) with 256. cbn [Z.eqb negb]. rewrite Hb1, shift9. change (EMMC_BLOCK_SIZE * 512) with HALF.
  change MAX_EMMC_BLOCK_SIZE with HALF. rewrite rdn_Done by (unfold HALF; lia). cbn [obind].
  set (h1 := take (Z.to_nat HALF) (drop (Z.to_nat HALF) buf)).
  assert (L1 : blen h1 = HALF) by (unfold h1, HALF; rewrite length_take, length_drop; lia).
  destruct (write_internal_spec c1 (off >> 9 + EMMC_BLOCK_SIZE) h1 (off + HALF) Hb1 ltac:(unfold EMMC_BLOCK_SIZE, HALF; lia))
    as (c2 & r2 & -> & _ & Hb2 & Hc2 & Hlo2 & Hout2 & Hr2 & Hf2 & Hw2).
  rewrite L1 in *.
  assert (Hfin : outside off 262144 (mem c) (mem c2)).
  { intros a Ha. rewrite Hout2 by (unfold HALF; lia). by apply Hout1'. }
  assert (Hwf' : card_wf c -> off + 262144 <= info_start -> card_wf c2).
  { intros Hwf Hby. apply Hw2; [apply Hw1; [exact Hwf|]|]; right; unfold HALF; lia. }
  assert (Hff : faults c = [] -> r2 = 0) by (intros E; apply Hf2; by eapply left_over_nil).
  assert (Hdata : r2 = 0 -> rd (mem c2) off 262144 = buf).
  { intros E. change 262144 with (HALF + HALF). rewrite rd_app by (unfold HALF; lia). rewrite Hr2 by exact E.
    rewrite (outside_rd _ _ _ _ off HALF Hout2) by lia. rewrite Hr1 by reflexivity. unfold h0, h1.
    transitivity (take (Z.to_nat HALF) buf ++ drop (Z.to_nat HALF) buf); [|apply take_drop]. rewrite drop_0. f_equal.
    apply take_ge. rewrite length_drop. unfold HALF. lia. }
  destruct (Z.eqb_spec r2 0) as [->|E2]; cbn [negb].
  - change (256 - EMMC_BLOCK_SIZE) with 0. cbn [Z.eqb negb]. exists c2, 0. split; [reflexivity|]. split; [by rewrite <- En|].
    split; [exact Hb2|].
    split; [lia|]. split; [by eapply left_over_trans|]. split; [exact Hfin|]. split; [exact Hdata|]. split; [exact Hff|exact Hwf'].
  - exists c2, r2. split; [reflexivity|]. split; [by rewrite <- En|]. split; [exact Hb2|]. split; [lia|]. split; [by eapply left_over_trans|].
    split; [exact Hfin|]. split; [exact Hdata|]. split; [exact Hff|exact Hwf'].
Qed.

(** ** The information on a copy *)

Definition info_ok (i : aml_key_info) : Prop :=
  0 <= checksum i < 2 ^ 64 /\ 0 <= stamp i < 2 ^ 32 /\ 0 <= magic i < 2 ^ 32.
Definition info_block (i : aml_key_info) : list Z := info_bytes i ++ replicate (Z.to_nat (512 - 16)) 0.

Lemma le32_bytes v : Forall is_byte (le32 v).
Proof.
  assert (H : forall x, is_byte (x .& 255)).
  { intros x. unfold is_byte. change 255 with (2 ^ 8 - 1). rewrite land_mask_mod by lia. apply Z.mod_pos_bound. lia. }
  unfold le32. repeat (apply Forall_cons_2; [apply H|]). by apply Forall_nil_2.
Qed.

Lemma info_block_bytes i : Forall is_byte (info_block i).
Proof.
  unfold info_block, info_bytes. repeat apply Forall_app_2; try apply le32_bytes.
  apply Forall_replicate. done.
Qed.

Lemma info_block_length i : blen (info_block i) = 512.
Proof. unfold info_block. rewrite length_app, length_replicate. done. Qed.

Lemma info_round i : info_ok i -> info_of (info_block i) = Done i.
Proof.
  intros (Hc & Hs & Hm). unfold info_of, info_block, info_bytes. rewrite <- !app_assoc.
  assert (Hhi : 0 <= checksum i >> 32 < 2 ^ 32).
  { rewrite Z.shiftr_div_pow2 by lia. split; [apply Z.div_pos; lia|]. apply Z.div_lt_upper_bound; lia. }
  set (z := replicate _ 0). set (x := le32 _ ++ _).
  rewrite (rd32_eq x [] (u32 (checksum i)) _ 0 eq_refl eq_refl (u32_range _)).
  rewrite (rd32_eq x (le32 (u32 (checksum i))) (checksum i >> 32) _ 4 eq_refl eq_refl Hhi).
  rewrite (rd32_eq x (le32 (u32 (checksum i)) ++ le32 (checksum i >> 32)) (stamp i) _ 8 eq_refl eq_refl Hs).
  rewrite (rd32_eq x (le32 (u32 (checksum i)) ++ le32 (checksum i >> 32) ++ le32 (stamp i)) (magic i) z 12 eq_refl eq_refl Hm).
  cbn [obind].
  f_equal. destruct i as [ck st mg]. cbn in *. f_equal.
  rewrite Z.lor_comm, shiftl_lor_add by (done || apply u32_range). unfold u32. rewrite Z.shiftr_div_pow2 by lia.
  pose proof (Z.div_mod ck (2 ^ 32)). lia.
Qed.

(** Every block has an information. *)
Lemma info_of_block bs : Forall is_byte bs -> 16 <= blen bs -> exists i, info_of bs = Done i /\ info_ok i.
Proof.
  intros Hb Hl. unfold info_of.
  assert (Hr : forall k, 0 <= k <= 12 -> exists v, rd32 bs k = Done v /\ 0 <= v < 2 ^ 32).
  { intros k Hk. unfold rd32. rewrite (proj2 (Z.ltb_ge _ _)) by lia.
    pose proof (length_drop bs (Z.to_nat k)) as Hd. pose proof (Forall_drop _ (Z.to_nat k) _ Hb) as Hf.
    destruct (drop (Z.to_nat k) bs) as [|a [|b [|c [|e r]]]]; cbn [length] in Hd; try lia.
    eexists. split; [reflexivity|]. do 4 (apply Forall_cons_1 in Hf as [? Hf]). apply of_le32_range; assumption. }
  destruct (Hr 0 ltac:(lia)) as (lo & -> & Hlo), (Hr 4 ltac:(lia)) as (hi & -> & Hhi), (Hr 8 ltac:(lia)) as (st & -> & Hst),
    (Hr 12 ltac:(lia)) as (mg & -> & Hmg). cbn [obind]. eexists. split; [reflexivity|]. split; [|split; assumption].
  cbn [checksum]. rewrite Z.lor_comm, shiftl_lor_add by (done || lia). lia.
Qed.

Lemma sum_words_Done n : forall l acc, (4 * n <= length l)%nat -> 0 <= acc < 2 ^ 64 ->
  exists s, sum_words n l acc = Done s /\ 0 <= s < 2 ^ 64.
Proof.
  induction n as [|n IH]; intros l acc Hl Ha; [by exists acc|].
  destruct l as [|a [|b [|c [|e r]]]]; cbn [length] in Hl; try lia. cbn [sum_words]. apply IH; [lia|apply u64_range].
Qed.

Lemma checksum_Done l : blen l = SIZE -> exists s, _calc_key_checksum l SIZE = Done s /\ 0 <= s < 2 ^ 64.
Proof.
  intros Hl. unfold _calc_key_checksum. apply sum_words_Done; [|lia]. unfold SIZE in *.
  rewrite Z.shiftr_div_pow2 by lia. change (262144 / 2 ^ 2) with 65536. lia.
Qed.

(** A copy that passes the check. *)
Definition valid (m : Z -> Z) (i : Z) : Prop :=
  exists inf, info_of (slot m i) = Done inf /\ info_ok inf /\ _calc_key_checksum (area m i) SIZE = Done (checksum inf) /\
    magic inf <> 0.

Lemma key_offset_val : key_offset = 37765120.
Proof. reflexivity. Qed.

(** The copy a value of valid_flag stands for when writing. *)
Definition copy_of (v : Z) : Z := v mod 2.

Lemma area_aligned i : (key_offset + i * SIZE) mod 512 = 0.
Proof.
  rewrite key_offset_val. unfold SIZE. replace (37765120 + i * 262144) with ((73760 + i * 512) * 512) by lia.
  apply Z.mod_mul. lia.
Qed.

Section Copies.
Context (kmalloc : Z -> bool) (kmalloc_ok : forall n, kmalloc n = true).
Implicit Types (d : drv).

(** What writing a copy does: nothing outside it, and it ends with the
    whole copy, with its old information, or with the new data. *)
Record copy_written (i : Z) (inf : aml_key_info) (buf : list Z) (c c' : mmc_card) (ret : Z) : Prop := {
  cw_bits : read_blkbits c' = 9;
  cw_left : left_over c c';
  cw_wf : card_wf c -> card_wf c';
  cw_area : area (mem c') (1 - i) = area (mem c) (1 - i);
  cw_slot : slot (mem c') (1 - i) = slot (mem c) (1 - i);
  cw_quiet : faults c = [] -> ret = 0;
  cw_first : ret = 0 -> fst (next_fault c) = 0;
  cw_claims : ret = 0 -> claims c' = claims c;
  cw_cases : (ret = 0 /\ area (mem c') i = buf /\ slot (mem c') i = info_block inf) \/
             (ret <> 0 /\ slot (mem c') i = slot (mem c) i) \/
             (ret <> 0 /\ area (mem c') i = buf);
}.

Lemma write_one_spec d buf v inf :
  v = 1 \/ v = 2 -> key_infos d (v - 1) = Done inf -> read_blkbits (card d) = 9 -> blen buf = SIZE ->
  exists c' ret, emmc_write_one_key kmalloc d buf v = Done (set_card d c', ret) /\
    copy_written (copy_of v) inf buf (card d) c' ret.
Proof using kmalloc_ok.
  intros Hv Hinf Hb Hl. unfold emmc_write_one_key. rewrite kmalloc_ok, Hb, Hinf. cbn [negb obind].
  fold (info_block inf). fold (copy_of v). change (EMMC_KEYAREA_SIZE >> 9) with 512. change EMMC_KEYAREA_SIZE with SIZE.
  set (i := copy_of v). assert (Hi : i = 0 \/ i = 1) by (destruct Hv as [-> | ->]; [by right|by left]). clearbody i.
  destruct (write_loop_area (mmc_claim_host (card d)) (key_offset + i * SIZE) buf Hb (area_aligned i) Hl)
    as (c1 & r1 & -> & Hn1 & Hb1 & Hc1 & Hlo1 & Hout1 & Hr1 & Hf1 & Hw1). cbn [obind].
  cbn [mmc_claim_host mem claims] in Hc1, Hout1.
  assert (Hlo1' : left_over (card d) c1) by exact Hlo1.
  assert (Hslot1 : forall j, slot (mem c1) j = slot (mem (card d)) j \/ j < 0).
  { intros j. destruct (Z.lt_ge_cases j 0); [by right|left]. unfold slot.
    apply (outside_rd _ _ _ _ _ _ Hout1). unfold SIZE. lia. }
  assert (Harea1 : area (mem c1) (1 - i) = area (mem (card d)) (1 - i)).
  { unfold area. apply (outside_rd _ _ _ _ _ _ Hout1). unfold SIZE. lia. }
  unfold truthy. destruct (Z.eqb_spec r1 0) as [->|E1]; cbn [negb]; cycle 1.
  { exists c1, r1. split; [reflexivity|]. split; try assumption.
    - intros Hwf. apply Hw1; [exact Hwf|]. unfold info_start, SIZE. lia.
    - destruct (Hslot1 (1 - i)); [assumption|lia].
    - intros E. contradiction.
    - right; left. split; [assumption|]. destruct (Hslot1 i); [assumption|lia]. }
  change (1 << 9) with 512. pose proof (info_block_length inf) as Hbl. rewrite rdn_Done by lia. cbn [obind].
  rewrite drop_0, take_ge by lia.
  destruct (write_internal_spec c1 ((key_offset + 2 * SIZE) >> 9 + i) (info_block inf) (key_offset + 2 * SIZE + 512 * i) Hb1)
    as (c2 & r2 & -> & _ & Hb2 & Hc2 & Hlo2 & Hout2 & Hr2 & Hf2 & Hw2).
  { change ((key_offset + 2 * SIZE) >> 9) with 74784. rewrite key_offset_val. unfold SIZE. lia. }
  rewrite info_block_length in *.
  assert (Harea2 : forall j, j = 0 \/ j = 1 -> area (mem c2) j = area (mem c1) j).
  { intros j Hj. unfold area. apply (outside_rd _ _ _ _ _ _ Hout2). rewrite key_offset_val. unfold SIZE. lia. }
  exists (mmc_release_host c2), r2. split; [reflexivity|]. split.
  - exact Hb2.
  - eapply left_over_trans; [exact Hlo1'|]. exact Hlo2.
  - intros Hwf. apply Hw2; [|left; apply info_block_bytes]. apply Hw1; [exact Hwf|]. unfold info_start, SIZE. lia.
  - cbn [mmc_release_host mem]. rewrite Harea2 by lia. exact Harea1.
  - cbn [mmc_release_host mem]. destruct (Hslot1 (1 - i)) as [<-|]; [|lia].
    unfold slot. apply (outside_rd _ _ _ _ _ _ Hout2). lia.
  - intros E. apply Hf2. by eapply left_over_nil.
  - intros _. exact (Hn1 eq_refl).
  - intros _. cbn [mmc_release_host claims]. lia.
  - cbn [mmc_release_host mem]. destruct (Z.eqb_spec r2 0) as [->|E2].
    + left. split; [reflexivity|]. rewrite Harea2 by lia. split; [by apply Hr1|]. unfold slot. by apply Hr2.
    + right; right. split; [assumption|]. rewrite Harea2 by lia. by apply Hr1.
Qed.

(** ** Start-up without faults *)

Definition validb (m : Z -> Z) (i : Z) (inf : aml_key_info) : bool :=
  match _calc_key_checksum (area m i) SIZE with
  | Done s => (s =? checksum inf) && negb (magic inf =? 0)
  | _ => false
  end.

Lemma valid_validb m i inf : info_of (slot m i) = Done inf -> info_ok inf -> valid m i <-> validb m i inf = true.
Proof using Type.
  intros Hi Hok. unfold valid, validb. split.
  - intros (inf' & E & _ & -> & Hm). rewrite Hi in E. injection E as <-. rewrite Z.eqb_refl. cbn [andb].
    by rewrite (proj2 (Z.eqb_neq _ _) Hm).
  - destruct (_calc_key_checksum (area m i) SIZE) as [s| |]; [|done..].
    intros [->%Z.eqb_eq Hm%negb_true_iff%Z.eqb_neq]%andb_true_iff. exists inf. split_and!; try assumption. reflexivity.
Qed.

Lemma validb_true m i inf : validb m i inf = true ->
  _calc_key_checksum (area m i) SIZE = Done (checksum inf) /\ magic inf <> 0.
Proof using Type.
  unfold validb. destruct (_calc_key_checksum (area m i) SIZE) as [s| |]; [|done..].
  intros [->%Z.eqb_eq Hm%negb_true_iff%Z.eqb_neq]%andb_true_iff. split; [reflexivity|exact Hm].
Qed.

Lemma slot_info c i : card_wf c -> i = 0 \/ i = 1 -> exists inf, info_of (slot (mem c) i) = Done inf /\ info_ok inf.
Proof using Type.
  intros Hwf Hi. apply info_of_block; [by apply card_wf_slot|]. unfold slot. rewrite rd_length; lia.
Qed.

Lemma verify_quiet d addr cpy inf :
  faults (card d) = [] -> read_blkbits (card d) = 9 -> cpy = 0 \/ cpy = 1 -> addr = area (mem (card d)) cpy ->
  info_of (slot (mem (card d)) cpy) = Done inf ->
  exists c' ret, _verify_key_checksum kmalloc d addr cpy = Done (set_info (set_card d c') cpy inf, ret) /\
    same_card (card d) c' /\ negb (truthy ret) && negb (magic inf =? 0) = validb (mem (card d)) cpy inf.
Proof using kmalloc_ok.
  intros Hf Hb Hc -> Hi. unfold _verify_key_checksum. rewrite kmalloc_ok, Hb. cbn [negb].
  unfold mmc_read_internal. cbn [mmc_claim_host mem read_blkbits]. rewrite Hb, !shift9.
  change EMMC_KEYAREA_SIZE with SIZE. change ((key_offset + SIZE * 2) >> 9) with 74784.
  replace ((74784 + cpy) * 512) with (key_offset + 2 * SIZE + 512 * cpy) by (rewrite key_offset_val; unfold SIZE; lia).
  change (1 * 512) with 512. fold (slot (mem (card d)) cpy). rewrite next_fault_nil by exact Hf. cbn [truthy Z.eqb negb].
  rewrite Hi. cbn [obind]. destruct (checksum_Done (area (mem (card d)) cpy) (area_length _ _)) as (sm & E & _).
  unfold validb. rewrite E. cbn [obind].
  exists (mmc_release_host (with_mem (mmc_claim_host (card d)) (mem (card d)))), (if sm =? checksum inf then 0 else 1).
  split; [reflexivity|]. split.
  - split; [reflexivity|reflexivity|cbn; lia|]. exists 1%nat. reflexivity.
  - by destruct (sm =? checksum inf).
Qed.

Lemma check_copy_quiet d addr cpy v inf :
  faults (card d) = [] -> read_blkbits (card d) = 9 -> cpy = 0 \/ cpy = 1 -> blen addr = SIZE ->
  info_of (slot (mem (card d)) cpy) = Done inf ->
  exists c', check_copy kmalloc d addr cpy v =
    Done (set_info (set_card d c') cpy inf, area (mem (card d)) cpy,
          if validb (mem (card d)) cpy inf then v + (cpy + 1) else v) /\ same_card (card d) c'.
Proof using kmalloc_ok.
  intros Hf Hb Hc Hl Hi. unfold check_copy, _amlmmc_read. rewrite Hb. change (EMMC_KEYAREA_SIZE >> 9) with 512.
  change EMMC_KEYAREA_SIZE with SIZE.
  destruct (read_loop_area 0 (fun _ => MAX_TRANS_BLK) (fun cnt => negb (cnt =? 0)) (mmc_claim_host (card d))
    (key_offset + cpy * SIZE) addr Hb (area_aligned cpy) Hl eq_refl eq_refl eq_refl eq_refl)
    as (c1 & buf & ret & E & [Hm1 Hb1 Hc1 Hf1] & Hbl & Hd & Hq). unfold fuel_area. rewrite E. cbn [obind].
  assert (E0 : ret = 0) by exact (Hq Hf). assert (Ebuf : buf = area (mem (card d)) cpy) by exact (Hd E0).
  clear E Hd Hq Hbl. subst buf ret. cbn [truthy Z.eqb negb]. cbn [mmc_claim_host mem read_blkbits claims] in Hm1, Hb1, Hc1.
  set (d1 := set_card d (mmc_release_host c1)).
  assert (Hm : mem (card d1) = mem (card d)) by exact Hm1.
  destruct (verify_quiet d1 (area (mem (card d)) cpy) cpy inf) as (c2 & r2 & -> & [Hm2 Hb2 Hc2 Hf2] & Hv).
  { change (faults c1 = []). eapply left_over_nil; [exact Hf1|exact Hf]. }
  { change (read_blkbits c1 = 9). by rewrite Hb1. }
  { exact Hc. }
  { by rewrite Hm. }
  { by rewrite Hm. }
  rewrite Hm in Hv, Hm2. cbn [obind]. exists c2. split.
  - assert (Hk : key_infos (set_info (set_card d1 c2) cpy inf) cpy = Done inf) by (destruct Hc as [-> | ->]; reflexivity).
    rewrite Hk. cbn [obind]. rewrite Hv. reflexivity.
  - split; [exact Hm2|by rewrite Hb2; exact Hb1|rewrite Hc2; cbn; lia|].
    eapply left_over_trans; [exact Hf1|exact Hf2].
Qed.

Lemma update_quiet d junk inf0 inf1 :
  faults (card d) = [] -> read_blkbits (card d) = 9 -> blen junk = SIZE ->
  info_of (slot (mem (card d)) 0) = Done inf0 -> info_of (slot (mem (card d)) 1) = Done inf1 ->
  exists c' st, update_key_info kmalloc d junk =
    Done (Drv c' inf0 inf1 st, area (mem (card d)) 0,
          (if validb (mem (card d)) 1 inf1 then 2 else 0) + (if validb (mem (card d)) 0 inf0 then 1 else 0)) /\
    same_card (card d) c'.
Proof using kmalloc_ok.
  intros Hf Hb Hl H0 H1. unfold update_key_info.
  destruct (check_copy_quiet d junk 1 0 inf1 Hf Hb (or_intror eq_refl) Hl H1) as (c1 & -> & [Hm1 Hb1 Hc1 Hf1]). cbn [obind].
  set (d1 := set_info (set_card d c1) 1 inf1). assert (Em : mem (card d1) = mem (card d)) by exact Hm1.
  destruct (check_copy_quiet d1 (area (mem (card d)) 1) 0 (if validb (mem (card d)) 1 inf1 then 0 + (1 + 1) else 0) inf0)
    as (c2 & -> & [Hm2 Hb2 Hc2 Hf2]).
  { exact (left_over_nil _ _ Hf1 Hf). }
  { change (read_blkbits c1 = 9). by rewrite Hb1. }
  { by left. }
  { apply area_length. }
  { by rewrite Em. }
  cbn [obind]. rewrite Em. exists c2. eexists. split.
  - cbn [set_info set_card card info0 info1 d1 Z.eqb]. set (A := area (mem (card d)) 0). clearbody A.
    generalize (validb (mem (card d)) 1 inf1) (validb (mem (card d)) 0 inf0). intros [] []; reflexivity.
  - split; [by rewrite Hm2; exact Hm1|by rewrite Hb2; exact Hb1|rewrite Hc2; exact Hc1|].
    eapply left_over_trans; [exact Hf1|exact Hf2].
Qed.

Lemma valid_written i inf buf c c' : copy_written i inf buf c c' 0 -> info_ok inf ->
  _calc_key_checksum buf SIZE = Done (checksum inf) -> magic inf <> 0 -> valid (mem c') i /\ area (mem c') i = buf.
Proof using Type.
  intros [_ _ _ _ _ _ _ _ [(_ & Ha & Hs)|[[? _]|[? _]]]] Hok Hck Hm; [|contradiction..]. split; [|exact Ha].
  exists inf. rewrite Hs, Ha, info_round by exact Hok. split_and!; assumption || reflexivity.
Qed.

Lemma valid_other i inf buf c c' ret : copy_written i inf buf c c' ret -> valid (mem c) (1 - i) -> valid (mem c') (1 - i).
Proof using Type. intros [_ _ _ Ha Hs _ _ _ _]. unfold valid. by rewrite Ha, Hs. Qed.

(** A first copy that passes its check stays. *)
Lemma read_valid_quiet d buf v :
  faults (card d) = [] -> read_blkbits (card d) = 9 -> blen buf = SIZE ->
  exists c', emmc_read_valid_key d buf v = Done (set_card d c', area (mem (card d)) (v - 1), 0) /\ same_card (card d) c'.
Proof using Type.
  intros Hf Hb Hl. unfold emmc_read_valid_key. rewrite Hb. change (EMMC_KEYAREA_SIZE >> 9) with 512.
  change EMMC_KEYAREA_SIZE with SIZE.
  destruct (read_loop_area 0 (fun _ => EMMC_BLOCK_SIZE) (fun cnt => negb (cnt =? 0)) (mmc_claim_host (card d))
    (key_offset + (v - 1) * SIZE) buf Hb (area_aligned (v - 1)) Hl eq_refl eq_refl eq_refl eq_refl)
    as (c1 & b1 & ret & E & [Hm1 Hb1 Hc1 Hf1] & Hbl & Hd & Hq). unfold fuel_area. rewrite E. cbn [obind].
  assert (E0 : ret = 0) by exact (Hq Hf). assert (Eb : b1 = area (mem (card d)) (v - 1)) by exact (Hd E0).
  clear E Hd Hq Hbl. subst b1 ret. exists (mmc_release_host c1). split; [reflexivity|].
  cbn [mmc_claim_host mem read_blkbits claims] in Hm1, Hb1, Hc1.
  split; [exact Hm1|exact Hb1|cbn; lia|exact Hf1].
Qed.

(** A driver at rest. *)
Record quiet d : Prop := {
  q_faults : faults (card d) = [];
  q_bits : read_blkbits (card d) = 9;
  q_wf : card_wf (card d);
}.

Lemma same_quiet d c' i0 i1 st : quiet d -> same_card (card d) c' -> quiet (Drv c' i0 i1 st).
Proof using Type.
  intros [Hf Hb [Hm _]] [Em Eb _ Hl]. assert (E : faults c' = []) by exact (left_over_nil _ _ Hl Hf).
  split; cbn; [exact E|by rewrite Eb|]. split; [rewrite Em; exact Hm|]. rewrite E. by apply Forall_nil_2.
Qed.

Lemma written_quiet d i inf buf c' ret : quiet d -> copy_written i inf buf (card d) c' ret ->
  quiet (set_card d c').
Proof using Type.
  intros [Hf Hb Hwf] [Hb' Hl Hw _ _ _ _ _ _]. split; cbn; [exact (left_over_nil _ _ Hl Hf)|exact Hb'|by apply Hw].
Qed.

(** Writing a copy without faults. *)
Lemma write_one_quiet d buf v inf :
  quiet d -> v = 1 \/ v = 2 -> key_infos d (v - 1) = Done inf -> blen buf = SIZE ->
  exists c', emmc_write_one_key kmalloc d buf v = Done (set_card d c', 0) /\
    copy_written (copy_of v) inf buf (card d) c' 0 /\ quiet (set_card d c').
Proof using kmalloc_ok.
  intros Hq Hv Hi Hl. destruct (write_one_spec d buf v inf Hv Hi (q_bits d Hq) Hl) as (c' & ret & E & Hw).
  assert (ret = 0) as -> by exact (cw_quiet _ _ _ _ _ _ Hw (q_faults d Hq)).
  exists c'. split; [exact E|]. split; [exact Hw|]. by eapply written_quiet.
Qed.

(** Repairing copy [copy_of v] from the other. *)
Lemma write_invalid_quiet d addr v inf :
  quiet d -> v = 1 \/ v = 2 -> key_infos d (v - 1) = Done inf -> blen addr = SIZE ->
  exists c', write_invalid_key kmalloc d addr v = Done (set_card d c', 0) /\
    copy_written (copy_of v) inf (area (mem (card d)) (v - 1)) (card d) c' 0 /\ quiet (set_card d c').
Proof using kmalloc_ok.
  intros Hq Hv Hi Hl. unfold write_invalid_key.
  rewrite (proj2 (Z.ltb_ge 2 v)), (proj2 (Z.ltb_ge v 1)) by lia. cbn [orb].
  destruct (read_valid_quiet d addr v (q_faults d Hq) (q_bits d Hq) Hl) as (c1 & -> & Hs). cbn [obind truthy Z.eqb negb].
  assert (Hq1 : quiet (set_card d c1)) by (by apply (same_quiet d)).
  destruct (write_one_quiet (set_card d c1) (area (mem (card d)) (v - 1)) v inf Hq1 Hv Hi (area_length _ _))
    as (c2 & -> & Hw & Hq2).
  exists c2. split; [reflexivity|]. split; [|exact Hq2].
  destruct Hs as [Em Eb Ec El], Hw as [W1 W2 W3 W4 W5 W6 WF W7 W8]. cbn [set_card card] in *. rewrite Em in *. split; try assumption.
  - by eapply left_over_trans.
  - intros _. apply W3, Hq1.
  - reflexivity.
  - intros _. exact (next_fault_nil _ (q_faults d Hq)).
  - intros E. rewrite <- Ec. by apply W7.
Qed.

(** Two valid copies: the first stays as it is. *)
Lemma update_old_quiet d inf0 :
  quiet d -> info0 d = inf0 -> info_of (slot (mem (card d)) 0) = Done inf0 -> info_ok inf0 ->
  validb (mem (card d)) 0 inf0 = true ->
  exists d', update_old_key kmalloc d (area (mem (card d)) 0) = Done (d', 0) /\ quiet d' /\
    valid (mem (card d')) 0 /\ area (mem (card d')) 0 = area (mem (card d)) 0.
Proof using kmalloc_ok.
  intros Hq E0 H0 Hok0 B0. pose proof (validb_true _ _ _ B0) as [Hck Hmg].
  assert (V0 : valid (mem (card d)) 0) by (by apply (valid_validb _ _ inf0)).
  unfold update_old_key. destruct (stamp_after (stamp (info1 d)) (stamp (info0 d))).
  - set (d1 := set_info d 1 (info0 d)). assert (Hq1 : quiet d1) by (destruct Hq; by split).
    destruct (write_one_quiet d1 (area (mem (card d)) 0) 2 inf0 Hq1 (or_intror eq_refl)) as (c' & -> & Hw & Hq2).
    { by rewrite <- E0. }
    { apply area_length. }
    cbn [obind truthy Z.eqb negb]. eexists. split; [reflexivity|]. destruct Hq2 as [Q1 Q2 Q3]. split; [by split|].
    by apply (valid_written 0 inf0 (area (mem (card d)) 0) (card d1) c').
  - destruct (stamp_after (stamp (info0 d)) (stamp (info1 d))); [|exists d; split_and!; reflexivity || assumption].
    set (d1 := set_info d 0 (info1 d)). assert (Hq1 : quiet d1) by (destruct Hq; by split).
    destruct (write_one_quiet d1 (area (mem (card d)) 0) 1 (info1 d) Hq1 (or_introl eq_refl) eq_refl (area_length _ _))
      as (c' & -> & Hw & Hq2).
    cbn [obind truthy Z.eqb negb]. eexists. split; [reflexivity|]. destruct Hq2 as [Q1 Q2 Q3]. split; [by split|].
    split; [exact (valid_other _ _ _ _ _ _ Hw V0)|exact (cw_area _ _ _ _ _ _ Hw)].
Qed.

(** The result of start-up on the first copy. *)
Lemma key_init_quiet d junk : quiet d -> blen junk = SIZE ->
  exists d', _key_init kmalloc d junk = Done (d', 0) /\ quiet d' /\
    (valid (mem (card d)) 0 -> valid (mem (card d')) 0 /\ area (mem (card d')) 0 = area (mem (card d)) 0) /\
    (~ valid (mem (card d)) 0 -> valid (mem (card d)) 1 ->
     valid (mem (card d')) 0 /\ area (mem (card d')) 0 = area (mem (card d)) 1).
Proof using kmalloc_ok.
  intros Hq Hl. unfold _key_init. rewrite kmalloc_ok. cbn [negb].
  destruct (slot_info (card d) 0 (q_wf d Hq) (or_introl eq_refl)) as (inf0 & H0 & Hok0), (slot_info (card d) 1 (q_wf d Hq) (or_intror eq_refl)) as (inf1 & H1 & Hok1).
  destruct (update_quiet d junk inf0 inf1 (q_faults d Hq) (q_bits d Hq) Hl H0 H1) as (c1 & st & -> & Hs). cbn [obind].
  set (d1 := Drv c1 inf0 inf1 st). assert (Hq1 : quiet d1) by (by apply (same_quiet d)).
  assert (Em : mem (card d1) = mem (card d)) by apply Hs.
  pose proof (valid_validb _ _ _ H0 Hok0) as V0. pose proof (valid_validb _ _ _ H1 Hok1) as V1.
  destruct (validb (mem (card d)) 1 inf1) eqn:B1, (validb (mem (card d)) 0 inf0) eqn:B0; cbn [Z.add Z.eqb Pos.add Pos.eqb].
  - destruct (update_old_quiet d1 inf0 Hq1 eq_refl) as (d' & E & Hq' & Hv & Ha); [rewrite Em; exact H0|exact Hok0|rewrite Em; exact B0|].
    rewrite Em in E, Ha.
    rewrite E. cbn [obind]. exists d'. split; [reflexivity|]. split; [exact Hq'|]. split; [intros _; split; assumption|].
    intros Hn. destruct (Hn (proj2 V0 eq_refl)).
  - destruct (write_invalid_quiet d1 (area (mem (card d)) 0) 2 inf1 Hq1 (or_intror eq_refl) eq_refl (area_length _ _))
      as (c' & -> & Hw & Hq'). cbn [obind]. eexists. split; [reflexivity|]. split; [exact Hq'|].
    rewrite Em in Hw. destruct (validb_true _ _ _ B1) as [Hck Hmg].
    destruct (valid_written _ _ _ _ _ Hw Hok1 Hck Hmg) as [Hv Ha].
    split; [intros HV; apply V0 in HV; discriminate|]. intros _ _. split; [exact Hv|exact Ha].
  - destruct (write_invalid_quiet d1 (area (mem (card d)) 0) 1 inf0 Hq1 (or_introl eq_refl) eq_refl (area_length _ _))
      as (c' & -> & Hw & Hq'). cbn [obind]. eexists. split; [reflexivity|]. split; [exact Hq'|].
    assert (HV : valid (mem (card d)) 0) by exact (proj2 V0 eq_refl).
    split; [|intros Hn; destruct (Hn HV)]. intros _. rewrite <- Em in HV |- *.
    split; [exact (valid_other _ _ _ _ _ _ Hw HV)|exact (cw_area _ _ _ _ _ _ Hw)].
  - cbn [obind]. exists d1. split; [reflexivity|]. split; [exact Hq1|]. split.
    + intros HV. apply V0 in HV. discriminate.
    + intros _ HV. apply V1 in HV. discriminate.
Qed.

(** ** Writing, with any faults *)

(** Both copies in turn: what may have happened. *)
Lemma key_write_cases d buf act :
  read_blkbits (card d) = 9 -> blen buf = SIZE ->
  exists d' ret s1 s2 c1 r1, emmc_key_write kmalloc d buf SIZE act = Done (d', buf, act, ret) /\
    _calc_key_checksum buf SIZE = Done s1 /\ 0 <= s1 < 2 ^ 64 /\
    s2 = Info s1 (u32 (key_stamp d + 1)) 9 /\ copy_written 1 s2 buf (card d) c1 r1 /\
    (if r1 =? 0 then copy_written 0 s2 buf c1 (card d') ret else card d' = c1 /\ ret = r1).
Proof using kmalloc_ok.
  intros Hb Hl. unfold emmc_key_write, write_copy. destruct (checksum_Done buf Hl) as (s1 & -> & Hs). cbn [obind].
  set (inf := Info s1 (u32 (key_stamp d + 1)) 9). set (d0 := set_info d (1 - 1) inf).
  destruct (write_one_spec d0 buf 1 inf (or_introl eq_refl) eq_refl Hb Hl) as (c1 & r1 & -> & Hw1). cbn [obind].
  change (copy_of 1) with 1 in Hw1. change (card d0) with (card d) in Hw1.
  unfold truthy. destruct (Z.eqb_spec r1 0) as [->|Hne]; cbn [negb].
  - change (key_stamp (set_card d0 c1)) with (key_stamp d). fold inf.
    set (d1 := set_info (set_card d0 c1) (2 - 1) inf).
    destruct (write_one_spec d1 buf 2 inf (or_intror eq_refl) eq_refl (cw_bits _ _ _ _ _ _ Hw1) Hl) as (c2 & r2 & -> & Hw2).
    change (copy_of 2) with 0 in Hw2. cbn [obind]. do 2 eexists. exists s1, inf, c1, 0.
    split; [reflexivity|]. split; [reflexivity|]. split; [exact Hs|]. split; [reflexivity|]. split; [exact Hw1|]. exact Hw2.
  - do 2 eexists. exists s1, inf, c1, r1. split; [reflexivity|]. split; [reflexivity|]. split; [exact Hs|].
    split; [reflexivity|]. split; [exact Hw1|]. rewrite (proj2 (Z.eqb_neq _ _) Hne). split; reflexivity.
Qed.

(** After a reset: the same card, nothing in memory. *)
Definition info_zero : aml_key_info := Info 0 0 0.
Definition reboot d : drv := Drv (Card (mem (card d)) (read_blkbits (card d)) [] 0) info_zero info_zero 0.

Definition no_collision (m m' : Z -> Z) (buf : list Z) : Prop :=
  area m' 0 = area m 0 \/ area m' 0 = buf \/ _calc_key_checksum (area m' 0) SIZE <> _calc_key_checksum (area m 0) SIZE.

Lemma valid_dec c i : card_wf c -> i = 0 \/ i = 1 -> valid (mem c) i \/ ~ valid (mem c) i.
Proof using Type.
  intros Hwf Hi'. destruct (slot_info c i Hwf Hi') as (inf & Hi & Hok). pose proof (valid_validb _ _ _ Hi Hok) as V.
  destruct (validb (mem c) i inf); [left; exact (proj2 V eq_refl)|right]. intros HV. apply V in HV. discriminate.
Qed.

(** What a write leaves on the card. *)
Lemma key_write_leaves d buf act :
  read_blkbits (card d) = 9 -> card_wf (card d) -> valid (mem (card d)) 0 -> blen buf = SIZE ->
  exists d' ret, emmc_key_write kmalloc d buf SIZE act = Done (d', buf, act, ret) /\
    read_blkbits (card d') = 9 /\ card_wf (card d') /\
    (no_collision (mem (card d)) (mem (card d')) buf ->
     let m := mem (card d') in
     (valid m 0 /\ (area m 0 = area (mem (card d)) 0 \/ area m 0 = buf)) \/
     (~ valid m 0 /\ valid m 1 /\ area m 1 = buf)).
Proof using kmalloc_ok.
  intros Hb Hwf HV Hl.
  destruct (key_write_cases d buf act Hb Hl) as (d' & ret & s1 & inf & c1 & r1 & E & Hck & Hs & -> & Hw1 & Hc).
  set (inf := Info s1 (u32 (key_stamp d + 1)) 9) in *.
  assert (Hok : info_ok inf) by (split; [exact Hs|]; split; [apply u32_range|cbn; lia]).
  assert (Hwf1 : card_wf c1) by exact (cw_wf _ _ _ _ _ _ Hw1 Hwf).
  pose proof (valid_other _ _ _ _ _ _ Hw1 HV) as HV1. pose proof (cw_area _ _ _ _ _ _ Hw1) as Ha1. change (1 - 1) with 0 in HV1, Ha1.
  exists d', ret. split; [exact E|]. destruct (Z.eqb_spec r1 0) as [->|Hne]; cycle 1.
  { destruct Hc as [-> ->]. split; [exact (cw_bits _ _ _ _ _ _ Hw1)|]. split; [exact Hwf1|]. intros _. left.
    split; [exact HV1|]. left. exact Ha1. }
  assert (Hwf2 : card_wf (card d')) by exact (cw_wf _ _ _ _ _ _ Hc Hwf1).
  split; [exact (cw_bits _ _ _ _ _ _ Hc)|]. split; [exact Hwf2|]. intros Hnc. cbv zeta.
  destruct (valid_written 1 inf buf (card d) c1 Hw1 Hok Hck ltac:(cbn; lia)) as [W1 A1].
  pose proof (valid_other _ _ _ _ _ _ Hc W1) as W1'. pose proof (cw_area _ _ _ _ _ _ Hc) as A1'.
  change (1 - 0) with 1 in W1', A1'. rewrite A1 in A1'.
  destruct (valid_dec (card d') 0 Hwf2 (or_introl eq_refl)) as [Hv|Hv]; [left|right; split; [exact Hv|]; split; [exact W1'|exact A1']].
  split; [exact Hv|]. destruct (cw_cases _ _ _ _ _ _ Hc) as [(_ & Ha & _)|[(_ & Hslot)|(_ & Ha)]]; [right; exact Ha| |right; exact Ha].
  destruct Hnc as [Hn|[Hn|Hn]]; [left; exact Hn|right; exact Hn|]. exfalso. apply Hn.
  destruct Hv as (i' & Hi' & _ & -> & _), HV1 as (i & Hi & _ & Hci & _). rewrite Hslot, Hi in Hi'. injection Hi' as <-.
  rewrite <- Ha1. rewrite Hci. reflexivity.
Qed.

(** Writing the keys to the eMMC is atomic, whatever fails.  From a card
    whose first copy passes its check, after a write in which any transfer may
    fail and leave any bytes behind, the next start-up ends with a first copy
    that passes its check and holds the old keys or the new ones, entire, unless the
    torn first copy has the checksum of the old one. *)
Theorem key_write_atomic d buf act junk :
  read_blkbits (card d) = 9 -> card_wf (card d) -> valid (mem (card d)) 0 -> blen buf = SIZE ->
  blen junk = SIZE ->
  exists d' ret, emmc_key_write kmalloc d buf SIZE act = Done (d', buf, act, ret) /\
    (no_collision (mem (card d)) (mem (card d')) buf ->
     exists d2, _key_init kmalloc (reboot d') junk = Done (d2, 0) /\ valid (mem (card d2)) 0 /\
       (area (mem (card d2)) 0 = area (mem (card d)) 0 \/ area (mem (card d2)) 0 = buf)).
Proof using kmalloc_ok.
  intros Hb Hwf HV Hl Hj. destruct (key_write_leaves d buf act Hb Hwf HV Hl) as (d' & ret & E & Hb' & Hwf' & Hc).
  exists d', ret. split; [exact E|]. intros Hnc. specialize (Hc Hnc). cbv zeta in Hc.
  assert (Hq : quiet (reboot d')).
  { split; [reflexivity|exact Hb'|]. split; [apply Hwf'|]. by apply Forall_nil_2. }
  destruct (key_init_quiet (reboot d') junk Hq Hj) as (d2 & E2 & _ & K1 & K2). exists d2. split; [exact E2|].
  destruct Hc as [[Hv Ha]|(Hv & Hv1 & Ha)].
  - destruct (K1 Hv) as [? K]. split; [assumption|]. rewrite K. exact Ha.
  - destruct (K2 Hv Hv1) as [? K]. split; [assumption|]. rewrite K. right. exact Ha.
Qed.

(** ** The promises of a flash driver *)

Definition holds d (img : list Z) : Prop := read_blkbits (card d) = 9 /\ area (mem (card d)) 0 = img.

Definition healthy d : Prop := faults (card d) = [].

#[global] Instance mmc_storage : Storage (mmc_ops kmalloc) SIZE holds healthy.
Proof using kmalloc_ok.
  split.
  - intros d img [_ <-]. rewrite area_length. unfold SIZE. lia.
  - unfold SIZE. lia.
  - intros read d img buf act [= <-] [Hb <-] Hl. unfold emmc_key_read. rewrite Hb. change (SIZE >> 9) with 512.
    change (S (Z.to_nat (512 / EMMC_BLOCK_SIZE))) with 3%nat.
    replace (key_offset >> 9) with ((key_offset + 0 * SIZE) >> 9) by reflexivity.
    destruct (read_loop_area 1 (Z.min EMMC_BLOCK_SIZE) (fun cnt => 0 <? cnt) (mmc_claim_host (card d))
      (key_offset + 0 * SIZE) buf Hb (area_aligned 0) Hl eq_refl eq_refl eq_refl eq_refl)
      as (c1 & b1 & ret & -> & [Hm1 Hb1 Hc1 Hf1] & Hbl & Hd & Hq). cbn [obind].
    exists (set_card d (mmc_release_host c1)), b1, SIZE, ret. split; [reflexivity|].
    cbn [mmc_claim_host mem read_blkbits] in Hm1, Hb1. split.
    + split; [cbn; by rewrite Hb1|]. cbn [set_card card mmc_release_host mem]. by rewrite Hm1.
    + split; [lia|]. split; [|exact Hq]. intros E. rewrite area_length. split; [reflexivity|].
      pose proof (area_length (mem (card d)) 0) as La. rewrite take_ge by lia. exact (Hd E).
  - intros write d img buf act [= <-] [Hb <-] Hl. rewrite area_length.
    destruct (key_write_cases d buf act Hb Hl) as (d' & ret & s1 & inf & c1 & r1 & -> & _ & _ & _ & Hw1 & Hc).
    exists d', buf, act, ret. split; [reflexivity|]. split; [reflexivity|]. intros ->.
    pose proof (area_length (mem (card d)) 0) as La. rewrite take_ge by lia.
    destruct (Z.eqb_spec r1 0) as [->|Hne]; [|destruct Hc as [_ E]; congruence].
    split; [exact (cw_bits _ _ _ _ _ _ Hc)|].
    destruct (cw_cases _ _ _ _ _ _ Hc) as [(_ & Ha & _)|[[Hn _]|[Hn _]]]; [exact Ha|destruct (Hn eq_refl)..].
Qed.

(** The repair of two valid copies with different contents never makes
    them agree: with the newer second copy the first is written with its own
    content; with the newer first copy the second gets the new content but keeps
    the checksum of the old one, and fails its check from then on. *)
Theorem update_old_key_never_agrees d inf0 inf1 :
  quiet d -> info0 d = inf0 -> info1 d = inf1 ->
  info_of (slot (mem (card d)) 0) = Done inf0 -> info_of (slot (mem (card d)) 1) = Done inf1 ->
  valid (mem (card d)) 0 -> valid (mem (card d)) 1 -> checksum inf0 <> checksum inf1 ->
  exists d', update_old_key kmalloc d (area (mem (card d)) 0) = Done (d', 0) /\
    ~ (valid (mem (card d')) 1 /\ area (mem (card d')) 1 = area (mem (card d')) 0).
Proof using kmalloc_ok.
  intros Hq E0 E1 H0 H1 V0 V1 Hne.
  destruct V0 as (i0 & Hi0 & Hok0 & Hc0 & Hm0), V1 as (i1 & Hi1 & Hok1 & Hc1 & Hm1).
  rewrite H0 in Hi0. injection Hi0 as <-. rewrite H1 in Hi1. injection Hi1 as <-.
  unfold update_old_key. destruct (stamp_after (stamp (info1 d)) (stamp (info0 d))).
  - set (d1 := set_info d 1 (info0 d)). assert (Hq1 : quiet d1) by (destruct Hq; by split).
    destruct (write_one_quiet d1 (area (mem (card d)) 0) 2 inf0 Hq1 (or_intror eq_refl)) as (c' & -> & Hw & Hq2).
    { by rewrite <- E0. }
    { apply area_length. }
    cbn [obind truthy Z.eqb negb]. eexists. split; [reflexivity|]. cbn [set_card card]. intros [_ Ha].
    pose proof (cw_area _ _ _ _ _ _ Hw) as Ha1. change (1 - copy_of 2) with 1 in Ha1.
    destruct (cw_cases _ _ _ _ _ _ Hw) as [(_ & Ha0 & _)|[[Hn _]|[Hn _]]]; [|destruct (Hn eq_refl)..].
    change (copy_of 2) with 0 in Ha0. rewrite Ha1, Ha0 in Ha. change (card d1) with (card d) in Ha.
    rewrite Ha in Hc1. rewrite Hc0 in Hc1. congruence.
  - destruct (stamp_after (stamp (info0 d)) (stamp (info1 d))).
    + set (d1 := set_info d 0 (info1 d)). assert (Hq1 : quiet d1) by (destruct Hq; by split).
      destruct (write_one_quiet d1 (area (mem (card d)) 0) 1 inf1 Hq1 (or_introl eq_refl)) as (c' & -> & Hw & Hq2).
      { by rewrite <- E1. }
      { apply area_length. }
      cbn [obind truthy Z.eqb negb]. eexists. split; [reflexivity|]. cbn [set_card card].
      destruct (cw_cases _ _ _ _ _ _ Hw) as [(_ & Ha1 & Hs1)|[[Hn _]|[Hn _]]]; [|destruct (Hn eq_refl)..].
      change (copy_of 1) with 1 in Ha1, Hs1. intros [(i & Hi & _ & Hci & _) _].
      rewrite Hs1, info_round in Hi by assumption. injection Hi as <-. rewrite Ha1, Hc0 in Hci. congruence.
    + exists d. split; [reflexivity|]. intros [_ Ha]. rewrite Ha, Hc0 in Hc1. congruence.
Qed.

(** A failed first transfer leaves the host claimed. *)
Lemma write_one_keeps_host d buf v inf e f l :
  v = 1 \/ v = 2 -> key_infos d (v - 1) = Done inf -> faults (card d) = (e, f) :: l -> e <> 0 ->
  read_blkbits (card d) = 9 -> blen buf = SIZE ->
  exists d', emmc_write_one_key kmalloc d buf v = Done (d', e) /\ claims (card d') = claims (card d) + 1.
Proof using kmalloc_ok.
  intros Hv Hi Hf He Hb Hl. unfold emmc_write_one_key. rewrite kmalloc_ok, Hb, Hi. cbn [negb obind].
  unfold fuel_area. cbn [write_loop mmc_claim_host read_blkbits]. rewrite Hb, shift9. unfold SIZE in Hl.
  rewrite rdn_Done by (unfold EMMC_BLOCK_SIZE; lia). cbn [obind]. unfold mmc_write_internal.
  assert (En : next_fault (mmc_claim_host (card d)) = (e, f)) by (unfold next_fault; cbn [mmc_claim_host faults]; by rewrite Hf).
  rewrite En. cbn [fst snd]. assert (Et : truthy e = true) by (unfold truthy; by rewrite (proj2 (Z.eqb_neq _ _) He)).
  rewrite Et. cbn [obind]. rewrite Et. cbn [obind]. rewrite Et. eexists. split; reflexivity.
Qed.
End Copies.

(** ** Witnesses *)

(** Two valid copies: zeros with stamp 0, and a first byte 1 with stamp 1. *)
Definition demo_mem (a : Z) : Z :=
  if (a =? info_start + 12) || (a =? info_start + 512 + 12) then 9
  else if (a =? key_offset + SIZE) || (a =? info_start + 512) || (a =? info_start + 512 + 8) then 1
  else 0.
Definition demo_drv : drv := Drv (Card demo_mem 9 [] 0) (Info 0 0 9) (Info 1 1 9) 1.
Definition demo_buf : list Z := replicate (Z.to_nat SIZE) 3.

Lemma sum_zero n : forall l acc, Forall (eq 0) l -> (4 * n <= length l)%nat -> 0 <= acc < 2 ^ 64 -> sum_words n l acc = Done acc.
Proof.
  induction n as [|n IH]; intros l acc Hz Hl Ha; [reflexivity|].
  destruct l as [|a [|b [|c [|e r]]]]; cbn [length] in Hl; try lia.
  do 4 (apply Forall_cons_1 in Hz as [<- Hz]). cbn [sum_words]. change (of_le32 0 0 0 0) with 0.
  rewrite Z.add_0_r, u64_small by exact Ha. apply IH; [exact Hz|lia|exact Ha].
Qed.

Lemma demo_zero a : a < info_start -> a <> key_offset + SIZE -> demo_mem a = 0.
Proof.
  intros. unfold demo_mem. rewrite !(proj2 (Z.eqb_neq a _)) by lia. reflexivity.
Qed.

Lemma demo_rd_zero off n : off + n <= info_start -> key_offset + SIZE < off \/ off + n <= key_offset + SIZE ->
  Forall (eq 0) (rd demo_mem off n).
Proof.
  intros. apply Forall_fmap, Forall_forall. intros x Hx. apply elem_of_seq in Hx. cbn. rewrite demo_zero; [done|lia..].
Qed.

Lemma demo_sum0 : _calc_key_checksum (area demo_mem 0) SIZE = Done 0.
Proof.
  pose proof (area_length demo_mem 0) as L. unfold _calc_key_checksum.
  assert (E : SIZE >> 2 = 65536) by reflexivity. rewrite E.
  apply sum_zero; [apply demo_rd_zero; unfold info_start, SIZE; lia|unfold SIZE in L; lia|lia].
Qed.

Lemma sum_first n r : sum_words (S n) ([1; 0; 0; 0] ++ r) 0 = sum_words n r 1.
Proof. reflexivity. Qed.

Lemma demo_sum1 : _calc_key_checksum (area demo_mem 1) SIZE = Done 1.
Proof.
  unfold area. replace SIZE with (4 + (SIZE - 4)) at 2 by lia. rewrite rd_app by (unfold SIZE; lia).
  assert (E : rd demo_mem (key_offset + 1 * SIZE) 4 = [1; 0; 0; 0]) by (vm_compute; reflexivity).
  rewrite E. unfold _calc_key_checksum. assert (E4 : SIZE >> 2 = 65536) by reflexivity. rewrite E4.
  replace (Z.to_nat 65536) with (S (Z.to_nat 65535)) by lia.
  rewrite sum_first. pose proof (rd_length demo_mem (key_offset + 1 * SIZE + 4)
    (SIZE - 4) ltac:(unfold SIZE; lia)) as L.
  apply sum_zero; [apply demo_rd_zero; unfold info_start, SIZE; lia|unfold SIZE in *; lia|lia].
Qed.

Lemma demo_valid0 : valid demo_mem 0.
Proof.
  exists (Info 0 0 9). split; [vm_compute; reflexivity|]. split; [split; [|split]; cbn; lia|]. split; [exact demo_sum0|].
  cbn. lia.
Qed.
Lemma demo_valid1 : valid demo_mem 1.
Proof.
  exists (Info 1 1 9). split; [vm_compute; reflexivity|]. split; [split; [|split]; cbn; lia|]. split; [exact demo_sum1|].
  cbn. lia.
Qed.

Lemma demo_byte a : is_byte (demo_mem a).
Proof. unfold demo_mem, is_byte. destruct (_ || _); [lia|]. destruct (_ || _); lia. Qed.

Lemma demo_quiet : quiet demo_drv.
Proof. split; [reflexivity..|]. split; [intros a _; apply demo_byte|by apply Forall_nil_2]. Qed.

Lemma demo_buf_length : blen demo_buf = SIZE.
Proof. unfold demo_buf. rewrite length_replicate. unfold SIZE. lia. Qed.

(** A write whose first transfer fails and leaves other bytes. *)
Definition demo_torn : drv := Drv (Card demo_mem 9 [(-5, fun _ => 7)] 0) (Info 0 0 9) (Info 1 1 9) 1.

Lemma key_write_atomic_witness : exists d' ret d2,
  emmc_key_write (fun _ => true) demo_torn demo_buf SIZE 0 = Done (d', demo_buf, 0, ret) /\
  _key_init (fun _ => true) (reboot d') demo_buf = Done (d2, 0) /\ valid (mem (card d2)) 0 /\
  (area (mem (card d2)) 0 = area demo_mem 0 \/ area (mem (card d2)) 0 = demo_buf).
Proof.
  assert (Hwf : card_wf (card demo_torn)).
  { split; [intros a _; apply demo_byte|]. apply Forall_cons_2; [|by apply Forall_nil_2]. intros a. cbn. unfold is_byte. lia. }
  destruct (key_write_atomic (fun _ => true) (fun _ => eq_refl) demo_torn demo_buf 0 demo_buf eq_refl Hwf demo_valid0
    demo_buf_length demo_buf_length) as (d' & ret & E & Hc).
  destruct (key_write_cases (fun _ => true) (fun _ => eq_refl) demo_torn demo_buf 0 eq_refl demo_buf_length)
    as (d1 & ret1 & s1 & inf & c1 & r1 & E1 & _ & _ & _ & Hw & Hd).
  assert (Ed : d1 = d') by congruence. subst d1. destruct Hc as (d2 & E2 & Hv & Ha).
  { destruct (Z.eqb_spec r1 0) as [->|Hne].
    - discriminate (cw_first _ _ _ _ _ _ Hw eq_refl).
    - destruct Hd as [-> _]. left. exact (cw_area _ _ _ _ _ _ Hw). }
  exists d', ret, d2. split; [exact E|]. split; [exact E2|]. split; [exact Hv|exact Ha].
Defined.

Lemma update_old_key_never_agrees_witness : exists d',
  update_old_key (fun _ => true) demo_drv (area demo_mem 0) = Done (d', 0) /\
  ~ (valid (mem (card d')) 1 /\ area (mem (card d')) 1 = area (mem (card d')) 0).
Proof.
  exact (update_old_key_never_agrees (fun _ => true) (fun _ => eq_refl) demo_drv (Info 0 0 9) (Info 1 1 9) demo_quiet
    eq_refl eq_refl (ltac:(vm_compute; reflexivity)) (ltac:(vm_compute; reflexivity)) demo_valid0 demo_valid1
    ltac:(cbn; lia)).
Defined.
End MmcKey.
