(* ===== verification/KeyCrash.v ===== *)
(** * Keys across faults: the key interface on the eMMC

    The composition of [KeyStore.v], [KeyIf.v] and [MmcKey.v]: a key is written
    through the interface to an eMMC whose transfers may fail at any point,
    with a loss of power as one such failure, then the machine is started
    again: the eMMC driver checks its copies, and the interface loads the store. *)

From S2P Require Import Prelude Mem KeyTlv KeyStore KeyIf MmcKey.
From stdpp Require Import base numbers gmap list.
From Stdlib Require Import ZArith Lia.

Local Open Scope Z_scope.

Module KeyCrash.
Import KeyTlv KeyStore KeyIf MmcKey.

Section Crash.
Context (digest : list Z -> list Z + Z) (kmalloc : Z -> bool).
Context (digest_length : forall d h, digest d = inl h -> length h = 32%nat) (kmalloc_ok : forall n, kmalloc n = true).

Abbreviation loaded_ := (loaded digest (mmc_ops kmalloc) SIZE holds).
Abbreviation stored_ := (stored digest kmalloc).

#[local] Instance mmc_laws : Storage (mmc_ops kmalloc) SIZE holds healthy := mmc_storage kmalloc kmalloc_ok.

(** The interface and the card agree on the keys [m]. *)
Record settled (k : kif drv) (m : gmap (list Z) (Z * Z * list Z)) : Prop := {
  set_loaded : loaded_ k m;
  set_card_wf : card_wf (card (device k));
  set_valid : valid (mem (card (device k))) 0;
  set_stored : stored_ (area (mem (card (device k))) 0) m;
}.

(** The module after the machine was started, with the driver [d]. *)
Definition started (k : kif drv) (d : drv) (b : list Z) (fsz : Z) raw enc : kif drv :=
  Kif (unifykey_types k) d SIZE fsz (Some b) (St 0 [] raw enc).

(** Start-up from a card whose first copy holds the keys. *)
Lemma start_loads m img : stored_ img m -> exists n, forall fuel k d b fsz raw enc,
  (n <= fuel)%nat -> uk_ops (unifykey_types k) = mmc_ops kmalloc -> holds d img -> healthy d -> blen b = SIZE ->
  exists k2, _amlkey_init_normal digest kmalloc fuel (started k d b fsz raw enc) = Done (k2, 0) /\ loaded_ k2 m.
Proof using kmalloc_ok digest_length.
  intros Hst.
  destruct (init_loads digest kmalloc digest_length kmalloc_ok (mmc_ops kmalloc) SIZE holds healthy
    (emmc_key_read) (emmc_key_write kmalloc) eq_refl eq_refl m img Hst) as [n Hn].
  exists n. intros fuel k d b fsz raw enc Hf Hops Hh Hq Hb.
  destruct (Hn fuel (started k d b fsz raw enc) b Hf Hops Hh eq_refl Hb eq_refl eq_refl eq_refl) as (k2 & r & E & Hl & Hr).
  specialize (Hr Hq). subst r. exists k2. split; [exact E|]. exact (Hl eq_refl).
Qed.

(** Start-up of the driver and of the interface after a write that left the
    keys [m1] or [m2]. *)
Lemma restart_loads k d m0 img1 img2 m1 m2 kjunk :
  uk_ops (unifykey_types k) = mmc_ops kmalloc -> read_blkbits (card d) = 9 -> card_wf (card d) ->
  stored_ img1 m1 -> stored_ img2 m2 -> blen kjunk = SIZE -> m0 = mem (card d) ->
  (valid m0 0 /\ (area m0 0 = img1 \/ area m0 0 = img2)) \/ (~ valid m0 0 /\ valid m0 1 /\ area m0 1 = img2) ->
  exists d2 n, _key_init kmalloc (reboot d) kjunk = Done (d2, 0) /\
     forall fuel b fsz raw enc, (n <= fuel)%nat -> blen b = SIZE ->
     exists k2, _amlkey_init_normal digest kmalloc fuel (started k d2 b fsz raw enc) = Done (k2, 0) /\
       (loaded_ k2 m1 \/ loaded_ k2 m2).
Proof using kmalloc_ok digest_length.
  intros Hops Hb Hwf H1 H2 Hj -> Hc.
  assert (Hq : quiet (reboot d)).
  { split; [reflexivity|exact Hb|]. split; [apply Hwf|by apply Forall_nil_2]. }
  destruct (key_init_quiet kmalloc kmalloc_ok (reboot d) kjunk Hq Hj) as (d2 & E2 & Hq2 & K1 & K2).
  change (mem (card (reboot d))) with (mem (card d)) in K1, K2.
  assert (Ha : area (mem (card d2)) 0 = img1 \/ area (mem (card d2)) 0 = img2).
  { destruct Hc as [[Hv Ha]|(Hv & Hv1 & Ha)].
    - destruct (K1 Hv) as [_ ->]. exact Ha.
    - destruct (K2 Hv Hv1) as [_ ->]. right. exact Ha. }
  destruct (start_loads m1 img1 H1) as [n1 S1], (start_loads m2 img2 H2) as [n2 S2]. exists d2, (Nat.max n1 n2).
  split; [exact E2|]. intros fuel b fsz raw enc Hf Hbl. pose proof (q_bits d2 Hq2) as Hb2. pose proof (q_faults d2 Hq2) as Hf2.
  destruct Ha as [Ha|Ha].
  - destruct (S1 fuel k d2 b fsz raw enc ltac:(lia) Hops (conj Hb2 Ha) Hf2 Hbl) as (k2 & E & Hl).
    exists k2. split; [exact E|]. left. exact Hl.
  - destruct (S2 fuel k d2 b fsz raw enc ltac:(lia) Hops (conj Hb2 Ha) Hf2 Hbl) as (k2 & E & Hl).
    exists k2. split; [exact E|]. right. exact Hl.
Qed.

(** C6: writing a key is atomic from end to end.  Whatever transfer fails
    while the key is written, starting the machine again loads every key: with
    the keys before the write, or with those after it (unless the torn first
    copy on the card has the checksum of the old one). *)
Theorem crash_atomic_keys k m nm buf len attr junk kjunk :
  settled k m -> args_ok buf len attr junk -> blen kjunk = SIZE ->
  exists k' ret, _amlkey_write_normal digest kmalloc k (Some nm) (Some buf) len attr junk = Done (k', ret) /\
  (no_collision (mem (card (device k))) (mem (card (device k'))) (default [] (normal_block k')) ->
   exists d2 n, _key_init kmalloc (reboot (device k')) kjunk = Done (d2, 0) /\
     forall fuel b fsz raw enc, (n <= fuel)%nat -> blen b = SIZE ->
     exists k2, _amlkey_init_normal digest kmalloc fuel (started k' d2 b fsz raw enc) = Done (k2, 0) /\
       (loaded_ k2 m \/ loaded_ k2 (put m nm buf len attr))).
Proof using kmalloc_ok digest_length.
  intros [Hld Hwf Hv Hst] Ha Hj.
  destruct (write_cases digest kmalloc digest_length kmalloc_ok (mmc_ops kmalloc) SIZE holds healthy
    emmc_key_read (emmc_key_write kmalloc) eq_refl eq_refl k m nm buf len attr junk Hld Ha) as (k' & ret & E & Hc).
  exists k', ret. split; [exact E|]. intros Hnc.
  destruct (ld_size _ _ _ _ _ _ Hld) as (img & [Hb Himg] & Hfs). pose proof (ld_ops _ _ _ _ _ _ Hld) as Hops.
  assert (Hold : uk_ops (unifykey_types k') = mmc_ops kmalloc -> device k' = device k -> forall m2 img2, stored_ img2 m2 ->
    exists d2 n, _key_init kmalloc (reboot (device k')) kjunk = Done (d2, 0) /\
     forall fuel b fsz raw enc, (n <= fuel)%nat -> blen b = SIZE ->
     exists k2, _amlkey_init_normal digest kmalloc fuel (started k' d2 b fsz raw enc) = Done (k2, 0) /\
       (loaded_ k2 m \/ loaded_ k2 m2)).
  { intros Hops' -> m2 img2 H2. eapply (restart_loads k' (device k) _ _ img2 m m2 kjunk Hops' Hb Hwf Hst H2 Hj eq_refl).
    left. split; [exact Hv|]. left. reflexivity. }
  destruct (may_add _ _ _ _ _); cycle 1.
  { destruct Hc as [_ ->]. destruct (Hold Hops eq_refl m _ Hst) as (d2 & n & E2 & Hn). exists d2, n. split; [exact E2|].
    intros. edestruct Hn as (k2 & ? & [?|?]); [eassumption..| |]; exists k2; split; try eassumption; left; eassumption. }
  destruct Hc as [(_ & _ & _ & Hty) Hc]. rewrite <- Hty in Hops.
  destruct (_ <=? _); cycle 1.
  { destruct Hc as (_ & Hd & _). destruct (Hold Hops Hd m _ Hst) as (d2 & n & E2 & Hn). exists d2, n. split; [exact E2|].
    intros. edestruct Hn as (k2 & ? & [?|?]); [eassumption..| |]; exists k2; split; try eassumption; left; eassumption. }
  destruct Hc as [(b & b' & act & r & Ew & Hbl & Hnb & Hst2 & _) _].
  rewrite Hfs, <- Himg, area_length in Ew, Hst2. rewrite take_ge in Hst2 by lia.
  destruct (key_write_leaves kmalloc kmalloc_ok (device k) b 0 Hb Hwf Hv Hbl) as (d' & r' & Ew' & Hb' & Hwf' & Hl).
  rewrite Ew' in Ew. injection Ew as -> -> _ _. rewrite Hnb in Hnc.
  exact (restart_loads k' (device k') _ _ b' m _ kjunk Hops Hb' Hwf' Hst Hst2 Hj eq_refl (Hl Hnc)).
Qed.
End Crash.

(** ** Witness: a blank card whose next transfer fails *)

(** A partition without the mark is an empty store. *)
Lemma stored_blank digest kmalloc (img : list Z) :
  1024 < blen img -> take 10 img <> blockmark ++ [0] -> stored digest kmalloc img ∅.
Proof.
  intros Hl Hm. exists 0%nat. intros fuel st0 tail _ Hb Hk. unfold normalkey_readfromblock.
  rewrite (proj2 (Z.eqb_eq _ _) Hb). cbn [negb]. unfold STORAGE_BLOCK_ENC_HEAD_SIZE, STORAGE_BLOCK_RAW_HEAD_SIZE.
  rewrite (proj2 (Z.leb_gt _ _)) by lia. unfold read_block.
  rewrite rdn_Done by (rewrite ?length_app; lia). cbn [obind]. rewrite drop_0.
  change (Z.to_nat 10) with 10%nat. rewrite take_app_le by lia. rewrite bool_decide_false by exact Hm. cbn [negb].
  rewrite Hk. eexists. split; [reflexivity|]. split; [split; [by apply Forall_nil_2|by apply NoDup_nil_2]|].
  split; [apply raw_zero_wf|]. split; reflexivity.
Qed.

Definition blank_kif : kif drv :=
  Kif (UkType 1 (mmc_ops (fun _ => true))) demo_torn SIZE SIZE (Some demo_buf) (St 2 [] raw_zero (EncHead 0 0)).

Lemma blank_settled : settled sum_digest (fun _ => true) blank_kif ∅.
Proof.
  split.
  - split; [reflexivity|apply empty_wf|apply raw_zero_wf|reflexivity|reflexivity| | |reflexivity].
    + exists demo_buf. split; [reflexivity|apply demo_buf_length].
    + exists (area demo_mem 0). split; [split; reflexivity|]. symmetry. apply area_length.
  - split; [intros a _; apply demo_byte|]. apply Forall_cons_2; [|by apply Forall_nil_2]. intros a. cbn. unfold is_byte. lia.
  - exact demo_valid0.
  - apply stored_blank; [rewrite area_length; unfold SIZE; lia|]. cbn [blank_kif device demo_torn card mem].
    unfold area. replace SIZE with (10 + (SIZE - 10)) at 2 by lia. rewrite rd_app by (unfold SIZE; lia).
    assert (E : rd demo_mem (key_offset + 0 * SIZE) 10 = zeros 10) by (vm_compute; reflexivity). rewrite E.
    rewrite take_app_le by (cbn; lia). discriminate.
Qed.

Lemma crash_atomic_keys_witness : exists k' ret,
  _amlkey_write_normal sum_digest (fun _ => true) blank_kif (Some [109]) (Some [1; 2; 3]) 3 0 (zeros 80) = Done (k', ret) /\
  (no_collision demo_mem (mem (card (device k'))) (default [] (normal_block k')) ->
   exists d2 fuel k2, _key_init (fun _ => true) (reboot (device k')) demo_buf = Done (d2, 0) /\
     _amlkey_init_normal sum_digest (fun _ => true) fuel (started k' d2 demo_buf 0 raw_zero (EncHead 0 0)) = Done (k2, 0)).
Proof.
  destruct (crash_atomic_keys sum_digest (fun _ => true) sum_digest_length (fun _ => eq_refl) blank_kif ∅ [109] [1; 2; 3] 3 0
    (zeros 80) demo_buf blank_settled (demo_args [1; 2; 3] 3 0 eq_refl ltac:(lia) ltac:(lia)) demo_buf_length)
    as (k' & ret & E & Hc).
  exists k', ret. split; [exact E|]. intros Hn. destruct (Hc Hn) as (d2 & n & E2 & Hn2).
  destruct (Hn2 n demo_buf 0 raw_zero (EncHead 0 0) (Nat.le_refl n) demo_buf_length) as (k2 & E3 & _).
  exists d2, n, k2. split; [exact E2|exact E3].
Defined.
End KeyCrash.
