(* ===== verification/Rsv.v ===== *)
(** * Reserved areas of a NAND flash (src/drivers/mtd/common/reserve)

    The bad block table, the environment of the boot loader, the device tree
    and the keys live in reserved blocks of the NAND flash.  An area keeps its
    information as a log: a record is appended to the current block, page by
    page, every page tagged with the name of the area, an erase count and a
    time stamp; when the block is full the record goes to the next free block,
    with the next stamp.  At start-up the blocks are scanned for the newest
    one and the last complete record in it.

    This file has the definitions: rsv-manage.c (free nodes, saving, scanning,
    reading, initialisation), rsv-key.c (the keys, as operations for [KeyIf])
    and rsv-dev.c (the character devices).

    The driver of the chip (rsv_ops) is the class [NandOps].  A list of free
    nodes is the list of the indices of its nodes in the array of the handler:
    a node enters a list only fresh from the pool, with no successor.  Taking
    and releasing the device lock is left out, as is the log output. *)

From S2P Require Import Prelude Mem KeyTlv KeyStore KeyIf.
From stdpp Require Import base numbers list.
From Stdlib Require Import ZArith Lia.

Local Open Scope Z_scope.
Local Open Scope cint_scope.

(** ** The chip and its driver *)

(** The operations of struct meson_rsv_ops, and _block_markbad of the mtd
    device.  Addresses and lengths are in bytes; a read gives the bytes for
    the data buffer, those for the spare bytes and the result. *)
Class NandOps (C : Type) := {
  _erase : C -> Z -> Z -> C * Z;
  _write_oob : C -> Z -> list Z -> list Z -> C * Z;
  _read_oob : C -> Z -> Z -> Z -> C * list Z * list Z * Z;
  _block_markbad : C -> Z -> C;
  _block_isbad : C -> Z -> Z;
}.

Module Rsv.
Import KeyIf.

Definition EFAULT : Z := 14.
Definition EUCLEAN : Z := 117.
Definition POWER_ABNORMAL_FLAG : Z := 0x01.
Definition ECC_ABNORMAL_FLAG : Z := 0x02.
Definition BBT_START_BLOCK : Z := 20.
Definition BBT_TOTAL_BLOCKS : Z := 4.
Definition CONFIG_ENV_SIZE : Z := 64 * 1024.
Definition DEFAULT_NAND_RSV_BLOCK_NUM : Z := 48.
Definition BBT_NAND_MAGIC : list Z := [110; 98; 98; 116].
Definition ENV_NAND_MAGIC : list Z := [110; 101; 110; 118].
Definition KEY_NAND_MAGIC : list Z := [110; 107; 101; 121].
Definition DTB_NAND_MAGIC : list Z := [110; 100; 116; 98].

(** ** Data *)

Record mtd_info := Mtd {
  mtd_size : Z;
  erasesize : Z;
  writesize : Z;
  erasesize_shift : Z;
  writesize_shift : Z;
}.

Record valid_node_t := VNode {
  v_ec : Z;
  phy_blk_addr : Z;
  phy_page_addr : Z;
  timestamp : Z;
  v_status : Z;
}.

Record free_node_t := FNode {
  f_index : Z;
  f_ec : Z;
  f_blk : Z;
  dirty_flag : Z;
}.

Record oobinfo_t := Oob {
  o_name : list Z;
  o_ec : Z;
  o_timestamp : Z;
  o_status_page : Z;
}.

(** The eight bytes of the structure: the stamp has 15 bits, the flag one. *)
Definition oob_bytes (o : oobinfo_t) : list Z :=
  o_name o ++ [u8 (o_ec o); u8 (o_ec o >> 8); u8 (o_timestamp o);
               (u8 (o_timestamp o >> 8) .& 0x7f) .| ((o_status_page o .& 1) << 7)].
Definition oob_of (bs : list Z) : oobinfo_t :=
  let b i := nth i bs 0 in
  Oob (take 4 bs) (s16 (b 4%nat .| (b 5%nat << 8))) (b 6%nat .| ((b 7%nat .& 0x7f) << 8)) (b 7%nat >> 7).

Record meson_rsv_info_t := Info {
  valid_node : valid_node_t;
  free_list : list nat;
  start_block : Z;
  end_block : Z;
  r_size : Z;
  r_name : list Z;
  r_valid : Z;
  r_init : Z;
}.

(** The handler, with the chip, the blocks of the part "nrsv" and the flag of
    the erase protection. *)
Record handler_t (C : Type) := Handler {
  chip : C;
  freenodebitmask : Z;
  free_node : list free_node_t;
  nrsv_cnt : Z;
  rsv_protect : Z;
}.
#[global] Arguments Handler {C}.
#[global] Arguments chip {C}.
#[global] Arguments freenodebitmask {C}.
#[global] Arguments free_node {C}.
#[global] Arguments nrsv_cnt {C}.
#[global] Arguments rsv_protect {C}.

Definition set_valid_node r v := Info v (free_list r) (start_block r) (end_block r) (r_size r) (r_name r) (r_valid r) (r_init r).
Definition set_free_list r l := Info (valid_node r) l (start_block r) (end_block r) (r_size r) (r_name r) (r_valid r) (r_init r).
Definition set_valid r x := Info (valid_node r) (free_list r) (start_block r) (end_block r) (r_size r) (r_name r) x (r_init r).
Definition set_init r x := Info (valid_node r) (free_list r) (start_block r) (end_block r) (r_size r) (r_name r) (r_valid r) x.
Definition set_page v p := VNode (v_ec v) (phy_blk_addr v) (s16 p) (timestamp v) (v_status v).
Definition set_status v s := VNode (v_ec v) (phy_blk_addr v) (phy_page_addr v) (timestamp v) (s16 s).
Definition inc_ec v := VNode (s16 (v_ec v + 1)) (phy_blk_addr v) (phy_page_addr v) (timestamp v) (v_status v).

Section Ops.
Context {C : Type} `{NandOps C} (mtd : mtd_info).
Implicit Types (h : handler_t C) (r : meson_rsv_info_t).

Definition set_chip h (c : C) : handler_t C := Handler c (freenodebitmask h) (free_node h) (nrsv_cnt h) (rsv_protect h).
Definition set_nodes h (l : list free_node_t) : handler_t C := Handler (chip h) (freenodebitmask h) l (nrsv_cnt h) (rsv_protect h).
Definition set_mask h (m : Z) : handler_t C := Handler (chip h) m (free_node h) (nrsv_cnt h) (rsv_protect h).
Definition _aml_rsv_disprotect h : handler_t C := Handler (chip h) (freenodebitmask h) (free_node h) (nrsv_cnt h) 0.
Definition _aml_rsv_protect h : handler_t C := Handler (chip h) (freenodebitmask h) (free_node h) (nrsv_cnt h) 1.
Definition _aml_rsv_isprotect h : Z := rsv_protect h.

(** ** Free nodes *)

(** The index of the node, or none for NULL. *)
Definition get_free_node h : handler_t C * option nat :=
  let index := find_first_zero_bit (freenodebitmask h) (nrsv_cnt h) in
  if nrsv_cnt h <=? index then (h, None)
  else (set_mask h (Z.setbit (freenodebitmask h) index), Some (Z.to_nat index)).

Definition release_free_node h (i : nat) : outcome (handler_t C) :=
  match free_node h !! i with
  | None => Fault
  | Some node =>
      let index_save := f_index node in
      if nrsv_cnt h <? index_save then Done h
      else
        let h := set_mask h (Z.clearbit (freenodebitmask h) index_save) in
        Done (set_nodes h (<[i := FNode index_save 0 0 0]> (free_node h)))
  end.

(** Fill in a node from the pool. *)
Definition fill_node h (i : nat) (ec blk : Z) : outcome (handler_t C) :=
  match free_node h !! i with
  | None => Fault
  | Some node => Done (set_nodes h (<[i := FNode (f_index node) (s16 ec) (s16 blk) (dirty_flag node)]> (free_node h)))
  end.
Definition mark_dirty h (i : nat) : outcome (handler_t C) :=
  match free_node h !! i with
  | None => Fault
  | Some node => Done (set_nodes h (<[i := FNode (f_index node) (f_ec node) (f_blk node) 1]> (free_node h)))
  end.

Definition meson_rsv_erase_protect h (bbt key : option meson_rsv_info_t) (block_addr : Z) : Z :=
  let inside (x : option meson_rsv_info_t) :=
    match x with
    | Some r => truthy (r_valid r) && ((start_block r <=? block_addr) && (block_addr <? end_block r))
    | None => false
    end in
  if negb (truthy (_aml_rsv_isprotect h)) then 0
  else if inside bbt then -1
  else if inside key then -1
  else 0.

(** Erase the block at an address, with the protection lifted. *)
Definition erase_at h (addr : Z) : handler_t C * Z :=
  let h := _aml_rsv_disprotect h in
  let '(c, ret) := _erase (chip h) addr (erasesize mtd) in
  (_aml_rsv_protect (set_chip h c), ret).

Fixpoint release_all h (l : list nat) : outcome (handler_t C) :=
  match l with
  | [] => Done h
  | i :: l => let* h := release_free_node h i in release_all h l
  end.

Definition meson_free_rsv_info h r : outcome (handler_t C * meson_rsv_info_t * Z) :=
  let '(h, r, error) :=
    if truthy (r_valid r) then
      let addr := phy_blk_addr (valid_node r) * erasesize mtd in
      let '(h, error) := erase_at h addr in
      (h, set_valid (set_valid_node r (VNode (-1) (-1) 0 0 0)) 0, error)
    else (h, r, 0) in
  let* h := release_all h (free_list r) in
  Done (h, set_free_list r [], error).

(** ** Saving *)

(** The address of the current record. *)
Definition node_offset (v : valid_node_t) : Z :=
  phy_blk_addr v * erasesize mtd + phy_page_addr v * writesize mtd.

(** The loop over the pages; [junk] is the status bit of the structure on the
    stack. *)
Fixpoint write_pages (fuel : nat) h r (buf : list Z) (oob : list Z) (offset length : Z) : outcome (handler_t C * Z) :=
  match fuel with
  | O => Spin
  | S fuel =>
      if length <? r_size r then
        let len := Z.min (writesize mtd) (u32 (r_size r - length)) in
        let* dat := rdn buf length len in
        let '(c, ret) := _write_oob (chip h) offset dat oob in
        let h := set_chip h c in
        if truthy ret then Done (h, 1)
        else write_pages fuel h r buf oob (offset + writesize mtd) (length + len)
      else Done (h, 0)
  end.

(** One turn for each page, and the last test. *)
Definition page_turns r : nat := Z.to_nat (r_size r / writesize mtd + 2).

Definition meson_rsv_write h r (junk : Z) (buf : list Z) : outcome (handler_t C * Z) :=
  let v := valid_node r in
  let oob := oob_bytes (Oob (r_name r) (v_ec v) (timestamp v) junk) in
  write_pages (page_turns r) h r buf oob (node_offset v) 0.

(** Continue in the block of the first free node. *)
Definition next_block h r : outcome (handler_t C * meson_rsv_info_t) :=
  match free_list r with
  | [] => Fault
  | temp :: rest =>
      match free_node h !! temp with
      | None => Fault
      | Some t =>
          let v := valid_node r in
          let r := set_valid_node r (VNode (f_ec t) (f_blk t) 0 (s32 (timestamp v + 1)) (v_status v)) in
          let* h := release_free_node h temp in
          Done (h, set_free_list r rest)
      end
  end.

(** From RE_SEARCH to the record: the early return value, if any. *)
Fixpoint re_search (fuel : nat) h r (i pages_per_blk : Z) : outcome (handler_t C * meson_rsv_info_t * option Z) :=
  match fuel with
  | O => Spin
  | S fuel =>
      let* (h, r, stop) :=
        if truthy (r_valid r) then
          let v := set_page (valid_node r) (phy_page_addr (valid_node r) + i) in
          let r := set_valid_node r v in
          if pages_per_blk <? phy_page_addr v + i then
            let '(h, v) :=
              if phy_page_addr v - i =? pages_per_blk then
                let offset := phy_blk_addr v * erasesize mtd in
                let '(h, ret) := erase_at h offset in
                let h := if truthy ret then set_chip h (_block_markbad (chip h) offset) else h in
                (h, inc_ec v)
              else (h, v) in
            let r := set_valid_node r v in
            match get_free_node h with
            | (h, None) => Done (h, r, Some (- ENOMEM))
            | (h, Some f) =>
                let* h := fill_node h f (v_ec v) (phy_blk_addr v) in
                match free_list r with
                | [] => Fault
                | l =>
                    let* (h, r) := next_block h (set_free_list r (l ++ [f])) in
                    Done (h, r, None)
                end
            end
          else Done (h, r, None)
        else
          let* (h, r) := next_block h r in
          Done (h, r, None) in
      match stop with
      | Some ret => Done (h, r, Some ret)
      | None =>
          let v := valid_node r in
          let offset := node_offset v in
          if phy_page_addr v =? 0 then
            if truthy (_block_isbad (chip h) offset) then
              re_search fuel h (set_valid_node r (set_page v (pages_per_blk - i))) i pages_per_blk
            else
              let '(h, ret) := erase_at h offset in
              if truthy ret then Done (set_chip h (_block_markbad (chip h) offset), r, Some ret)
              else Done (h, set_valid_node r (inc_ec v), None)
          else Done (h, r, None)
      end
  end.

Definition pages_of r : Z := if writesize mtd <? r_size r then (r_size r + writesize mtd - 1) / writesize mtd else 1.

Definition meson_rsv_save (fuel : nat) h r (junk : Z) (buf : list Z) : outcome (handler_t C * meson_rsv_info_t * Z) :=
  let pages_per_blk := erasesize mtd / writesize mtd in
  let v := valid_node r in
  let r := if truthy (v_status v .& POWER_ABNORMAL_FLAG) || truthy (v_status v .& ECC_ABNORMAL_FLAG)
           then set_valid_node r (set_page v pages_per_blk) else r in
  let i := pages_of r in
  let* (h, r, stop) := re_search fuel h r i pages_per_blk in
  match stop with
  | Some ret => Done (h, r, ret)
  | None =>
      let* (h, ret) := meson_rsv_write h r junk buf in
      if truthy ret then Done (h, r, 1)
      else
        let r := set_valid r 1 in
        Done (h, set_valid_node r (set_status (valid_node r) 0), ret)
  end.

(** ** Scanning *)

Definition skip_bbt_blocks r (start : Z) : Z :=
  if negb (bool_decide (r_name r = BBT_NAND_MAGIC)) then
    if (BBT_START_BLOCK <=? start) && (start <? BBT_START_BLOCK + BBT_TOTAL_BLOCKS)
    then u32 (start + BBT_TOTAL_BLOCKS) else start
  else start.

Definition readable (error : Z) : bool := (error =? 0) || (error =? - EUCLEAN).
Definition same_name (o : oobinfo_t) r : bool := bool_decide (o_name o = r_name r).

(** From RE_RSV_INFO: the spare bytes of the first readable record of a block,
    tried at most eight times. *)
Fixpoint read_first (fuel : nat) h r (offset scan_status : Z) : outcome (handler_t C * option oobinfo_t) :=
  match fuel with
  | O => Spin
  | S fuel =>
      let '(c, _, oob, error) := _read_oob (chip h) offset 0 8 in
      let h := set_chip h c in
      if negb (readable error) then
        let offset := u64 (offset + r_size r) in
        let remainder := offset mod erasesize mtd in
        if (6 <? scan_status) || (remainder =? 0) then Done (h, None)
        else read_first fuel h r offset (u8 (scan_status + 1))
      else Done (h, Some (oob_of oob))
  end.

(** What the scan does with the first record of the block [start]; the result
    is the error that ends the scan, or 0. *)
Definition scan_block h r (start : Z) (o : oobinfo_t) : outcome (handler_t C * meson_rsv_info_t * Z) :=
  let r := set_init r 1 in
  let r := set_valid_node r (set_status (valid_node r) 0) in
  let blk := skip_bbt_blocks r start in
  let here := VNode (o_ec o) (s16 blk) 0 (o_timestamp o) (v_status (valid_node r)) in
  if same_name o r then
    let r := set_valid r 1 in
    let v := valid_node r in
    if 0 <=? phy_blk_addr v then
      match get_free_node h with
      | (h, None) => Done (h, r, - ENOMEM)
      | (h, Some f) =>
          let* h := mark_dirty h f in
          let newer := timestamp v <? o_timestamp o in
          let* h := if newer then fill_node h f (v_ec v) (phy_blk_addr v) else fill_node h f (o_ec o) blk in
          let r := if newer then set_valid_node r here else r in
          Done (h, set_free_list r (free_list r ++ [f]), 0)
      end
    else Done (h, set_valid_node r here, 0)
  else
    match get_free_node h with
    | (h, None) => Done (h, r, - ENOMEM)
    | (h, Some f) =>
        let* h := fill_node h f (o_ec o) blk in
        Done (h, set_free_list r (free_list r ++ [f]), 0)
    end.

(** The loop over the blocks of the area: [n] more after [start]. *)
Fixpoint scan_blocks (n : nat) h r (start : Z) : outcome (handler_t C * meson_rsv_info_t * Z) :=
  let offset := skip_bbt_blocks r start * erasesize mtd in
  let* (h, o) := read_first 9 h r offset 0 in
  let* (h, r, ret) := match o with None => Done (h, r, 0) | Some o => scan_block h r start o end in
  if truthy ret then Done (h, r, ret)
  else match n with O => Done (h, r, 0) | S n => scan_blocks n h r (u32 (start + 1)) end.

(** The pages [i] and on of the newest block: which are tagged, the last of
    them, and -1 when one cannot be read. *)
Fixpoint scan_pages (n : nat) h r (good_addr : list Z) (ret i : Z) : outcome (handler_t C * meson_rsv_info_t * list Z * Z) :=
  match n with
  | O => Done (h, r, good_addr, ret)
  | S n =>
      let v := valid_node r in
      let offset := u64 (phy_blk_addr v * erasesize mtd + i * writesize mtd) in
      let '(c, _, oob, error) := _read_oob (chip h) offset 0 8 in
      let h := set_chip h c in
      if negb (readable error) then
        scan_pages n h (set_valid_node r (set_status v (v_status v .| ECC_ABNORMAL_FLAG))) good_addr (-1) (i + 1)
      else if same_name (oob_of oob) r then
        let* good_addr := wr good_addr i [1] in
        scan_pages n h (set_valid_node r (set_page v i)) good_addr ret (i + 1)
      else Done (h, r, good_addr, ret)
  end.

(** Is record [i] of [page_num] pages complete, from page [k] on? *)
Fixpoint record_ok (n : nat) (good_addr : list Z) (base k : Z) : outcome bool :=
  match n with
  | O => Done true
  | S n => let* g := rdn good_addr (k + base) 1 in
           if bool_decide (g = [0]) then Done false else record_ok n good_addr base (k + 1)
  end.

(** The last page of the last complete record. *)
Fixpoint find_record (n : nat) r (good_addr : list Z) (page_num i ret : Z) : outcome (meson_rsv_info_t * Z) :=
  match n with
  | O => Done (r, ret)
  | S n =>
      let* ok := record_ok (Z.to_nat page_num) good_addr (i * page_num) 0 in
      if ok then find_record n (set_valid_node r (set_page (valid_node r) (page_num + i * page_num - 1))) good_addr page_num (i + 1) 0
      else find_record n r good_addr page_num (i + 1) ret
  end.

(** The end of a scan: the position of the last complete record, or, when
    there is none, [again], with the block erased. *)
Definition scan_end (again : handler_t C -> meson_rsv_info_t -> outcome (handler_t C * meson_rsv_info_t * Z))
  h r (good_addr : list Z) (pages_per_blk page_num ret : Z) : outcome (handler_t C * meson_rsv_info_t * Z) :=
  let finish h r ret := Done (h, r, if negb (r_valid r =? 1) then -1 else ret) in
  if (writesize mtd <? r_size r) && (r_valid r =? 1) then
    let v := valid_node r in
    let torn := negb ((phy_page_addr v + 1) mod page_num =? 0) in
    let ret := if torn then -1 else ret in
    let r := if torn then set_valid_node r (set_status v (v_status v .| POWER_ABNORMAL_FLAG)) else r in
    let* (r, ret) :=
      if ret =? -1 then find_record (Z.to_nat (pages_per_blk / page_num)) r good_addr page_num 0 ret
      else Done (r, ret) in
    if ret =? -1 then
      let r := set_valid_node r (set_status (valid_node r) 0) in
      let* (h, r, _) := meson_free_rsv_info h r in
      again h r
    else
      let i := (r_size r + writesize mtd - 1) / writesize mtd in
      finish h (set_valid_node r (set_page (valid_node r) (phy_page_addr (valid_node r) - (i - 1)))) ret
  else finish h r ret.

(** From RE_RSV_INFO_EXT on: the marks and the result are kept when the scan
    starts again. *)
Fixpoint scan_ext (fuel : nat) h r (good_addr : list Z) (ret : Z) : outcome (handler_t C * meson_rsv_info_t * Z) :=
  match fuel with
  | O => Spin
  | S fuel =>
      let* (h, r, err) := scan_blocks (Z.to_nat (end_block r - start_block r - 1)) h r (start_block r) in
      if truthy err then Done (h, r, err)
      else
        let pages_per_blk := 1 << (erasesize_shift mtd - writesize_shift mtd) in
        let page_num := r_size r >> writesize_shift mtd in
        let page_num := if page_num =? 0 then 1 else page_num in
        let* (h, r, good_addr, ret) :=
          if r_valid r =? 1 then scan_pages (Z.to_nat pages_per_blk) h r good_addr ret 0
          else Done (h, r, good_addr, ret) in
        scan_end (fun h r => scan_ext fuel h r good_addr (-1)) h r good_addr pages_per_blk page_num ret
  end.

Definition meson_rsv_scan (fuel : nat) h r : outcome (handler_t C * meson_rsv_info_t * Z) :=
  scan_ext fuel h r (replicate 256 0) 0.

(** ** Reading *)

(** One page, or, when it cannot be read, a new scan and the way back to
    READ_RSV_AGAIN, with the number of bytes already read. *)
Fixpoint read_pages (fuel sfuel : nat) h r (buf : list Z) (offset length ret : Z) : outcome (handler_t C * meson_rsv_info_t * list Z * Z) :=
  match fuel with
  | O => Spin
  | S fuel =>
      if length <? r_size r then
        let len := Z.min (writesize mtd) (u32 (r_size r - length)) in
        let '(c, dat, oob, ret) := _read_oob (chip h) offset len 8 in
        let h := set_chip h c in
        let* buf := wr buf length dat in
        if negb (readable ret) then
          let* (h, r, ret) := meson_rsv_scan sfuel h r in
          if ret =? -1 then Done (h, r, buf, 1)
          else read_pages fuel sfuel h r buf (node_offset (valid_node r)) length ret
        else read_pages fuel sfuel h r buf (offset + writesize mtd) (length + len) ret
      else Done (h, r, buf, ret)
  end.

Definition meson_rsv_read (fuel sfuel : nat) h r (buf : list Z) : outcome (handler_t C * meson_rsv_info_t * list Z * Z) :=
  if negb (truthy (r_valid r)) then Done (h, r, buf, 1)
  else read_pages fuel sfuel h r buf (node_offset (valid_node r)) 0 0.

Definition meson_rsv_check (fuel : nat) h r : outcome (handler_t C * meson_rsv_info_t * Z) :=
  let* (h, r, ret) := meson_rsv_scan fuel h r in
  Done (h, r, if negb (truthy (r_valid r)) then 1 else ret).
End Ops.

(** ** The areas *)

Inductive area := Bbt | Env | Key | Dtb.

(** The handler with its areas (none: NULL), and whether the keys were
    registered: meson_rsv_key is then the area of the keys. *)
Record rsv_t (C : Type) := RsvSt {
  hd : handler_t C;
  bbt : option meson_rsv_info_t;
  env : option meson_rsv_info_t;
  key : option meson_rsv_info_t;
  dtb : option meson_rsv_info_t;
  meson_rsv_key : bool;
}.
#[global] Arguments RsvSt {C}.
#[global] Arguments hd {C}.
#[global] Arguments bbt {C}.
#[global] Arguments env {C}.
#[global] Arguments key {C}.
#[global] Arguments dtb {C}.
#[global] Arguments meson_rsv_key {C}.

Section Areas.
Context {C : Type} `{NandOps C} (mtd : mtd_info) (kmalloc : Z -> bool) (fuel sfuel : nat) (junk : Z).
Implicit Types (s : rsv_t C).

Definition info_of s (a : area) : option meson_rsv_info_t :=
  match a with Bbt => bbt s | Env => env s | Key => key s | Dtb => dtb s end.
Definition put_info s (a : area) (h : handler_t C) (r : meson_rsv_info_t) : rsv_t C :=
  match a with
  | Bbt => RsvSt h (Some r) (env s) (key s) (dtb s) (meson_rsv_key s)
  | Env => RsvSt h (bbt s) (Some r) (key s) (dtb s) (meson_rsv_key s)
  | Key => RsvSt h (bbt s) (env s) (Some r) (dtb s) (meson_rsv_key s)
  | Dtb => RsvSt h (bbt s) (env s) (key s) (Some r) (meson_rsv_key s)
  end.

(** The body that the four functions share; vzalloc is not checked. *)
Definition area_read (a : area) s (dest : option (list Z)) (size : Z) : outcome (rsv_t C * option (list Z) * Z) :=
  match info_of s a with
  | None => Done (s, dest, 1)
  | Some r =>
      match dest with
      | None => Done (s, dest, 1)
      | Some d =>
          if size =? 0 then Done (s, dest, 1)
          else
            let len := r_size r in
            if negb (kmalloc len) then Fault
            else
              let temp := replicate (Z.to_nat len) 0 in
              let* (h, r, temp, ret) := meson_rsv_read mtd fuel sfuel (hd s) r temp in
              let* bs := rdn temp 0 (Z.min len size) in
              let* d := wr d 0 bs in
              Done (put_info s a h r, Some d, ret)
      end
  end.
Definition meson_rsv_bbt_read := area_read Bbt.
Definition meson_rsv_key_read := area_read Key.
Definition meson_rsv_env_read := area_read Env.
Definition meson_rsv_dtb_read := area_read Dtb.

Definition area_write (a : area) s (source : option (list Z)) (size : Z) : outcome (rsv_t C * Z) :=
  match info_of s a with
  | None => Done (s, 1)
  | Some r =>
      match source with
      | None => Done (s, 1)
      | Some d =>
          if size =? 0 then Done (s, 1)
          else
            let len := r_size r in
            if negb (kmalloc len) then Fault
            else
              let temp := replicate (Z.to_nat len) 0 in
              let* bs := rdn d 0 (Z.min len size) in
              let* temp := wr temp 0 bs in
              let* (h, r, ret) := meson_rsv_save mtd fuel (hd s) r junk temp in
              Done (put_info s a h r, ret)
      end
  end.
Definition meson_rsv_bbt_write := area_write Bbt.
Definition meson_rsv_key_write := area_write Key.
Definition meson_rsv_env_write := area_write Env.
Definition meson_rsv_dtb_write := area_write Dtb.

(** ** Keys (rsv-key.c) *)

(** The bytes of the caller's buffer past the area are cleared. *)
Definition clear_rest (buf : list Z) (len keysize : Z) : outcome (list Z) :=
  if keysize <? len then wr buf keysize (replicate (Z.to_nat (len - keysize)) 0) else Done buf.

Definition amlnf_key_read : io_fn (rsv_t C) := fun s buf len actual_length =>
  if negb (meson_rsv_key s) then Done (s, buf, actual_length, - EFAULT)
  else
    match key s with
    | None => Fault
    | Some aml_key =>
        let keysize := r_size aml_key in
        let actual_length := keysize in
        let* buf := clear_rest buf len keysize in
        if negb (kmalloc keysize) then Done (s, buf, actual_length, - ENOMEM)
        else
          let key_ptr := replicate (Z.to_nat keysize) 0 in
          let* (s, key_ptr, _) := meson_rsv_key_read s (Some key_ptr) keysize in
          let* bs := rdn (default [] key_ptr) 0 (Z.min (s32 keysize) (s32 len)) in
          let* buf := wr buf 0 bs in
          Done (s, buf, actual_length, 0)
    end.

Definition amlnf_key_write : io_fn (rsv_t C) := fun s buf len actual_length =>
  if negb (meson_rsv_key s) then Done (s, buf, actual_length, - EFAULT)
  else
    match key s with
    | None => Fault
    | Some aml_key =>
        let keysize := r_size aml_key in
        let actual_length := keysize in
        let* buf := clear_rest buf len keysize in
        if negb (kmalloc keysize) then Done (s, buf, actual_length, - ENOMEM)
        else
          let* key_ptr := rdn buf 0 keysize in
          let* (s, error) := meson_rsv_key_write s (Some key_ptr) len in
          Done (s, buf, actual_length, error)
    end.

Definition amlnf_key_erase s : Z := if negb (meson_rsv_key s) then -1 else 0.

Definition nand_ops : unifykey_storage_ops (rsv_t C) := Ops (Some amlnf_key_read) (Some amlnf_key_write).

Definition meson_rsv_register_unifykey s : rsv_t C := RsvSt (hd s) (bbt s) (env s) (key s) (dtb s) true.

(** ** Character devices (rsv-dev.c) *)

(** The new position, or the error. *)
Definition __meson_rsv_llseek (info : meson_rsv_info_t) (f_pos off whence : Z) : Z * Z :=
  if negb (truthy (r_valid info)) then (f_pos, - EFAULT)
  else
    let newpos :=
      if whence =? 0 then Some off
      else if whence =? 1 then Some (s64 (f_pos + off))
      else if whence =? 2 then Some (s64 (u32 (r_size info - 1) - off))
      else None in
    match newpos with
    | None => (f_pos, - EINVAL)
    | Some newpos => if (newpos <? 0) || (r_size info <=? newpos) then (f_pos, - EINVAL) else (newpos, newpos)
    end.

(** The checks that reading and writing begin with: the value returned, or
    the buffer, whose new content is [vbuf]. *)
Definition dev_enter (info : meson_rsv_info_t) (ppos : Z) (vbuf : Z -> list Z) : Z + list Z :=
  if negb (truthy (r_valid info)) then inl (- EFAULT)
  else if ppos =? r_size info then inl 0
  else if r_size info <? ppos then inl (- EFAULT)
  else if negb (kmalloc (r_size info + writesize mtd)) then inl (- ENOMEM)
  else inr (vbuf (r_size info + writesize mtd)).

(** [through]: how many bytes can be copied to or from user space. *)
Definition __meson_rsv_read (a : area) s (ubuf : list Z) (count ppos through : Z) (vbuf : Z -> list Z)
  : outcome (rsv_t C * list Z * Z * Z) :=
  match info_of s a with
  | None => Fault
  | Some info =>
      match dev_enter info ppos vbuf with
      | inl ret => Done (s, ubuf, ppos, ret)
      | inr vb =>
          let* (s, vb, ret) := area_read a s (Some vb) (r_size info) in
          if truthy ret then Done (s, ubuf, ppos, count)
          else
            let count' := if r_size info <? u64 (ppos + count) then r_size info - ppos else count in
            let* bs := rdn (default [] vb) ppos (Z.min count' through) in
            let* ubuf := wr ubuf 0 bs in
            Done (s, ubuf, s64 (ppos + count'), count)
      end
  end.

Definition __meson_rsv_write (a : area) s (ubuf : list Z) (count ppos through : Z) (vbuf : Z -> list Z)
  : outcome (rsv_t C * Z * Z) :=
  match info_of s a with
  | None => Fault
  | Some info =>
      match dev_enter info ppos vbuf with
      | inl ret => Done (s, ppos, ret)
      | inr vb =>
          let* (s, vb, ret) := area_read a s (Some vb) (r_size info) in
          if truthy ret then Done (s, ppos, count)
          else
            let count' := if r_size info <? u64 (ppos + count) then r_size info - ppos else count in
            let n := Z.min count' through in
            let* bs := rdn ubuf 0 n in
            let* vb := wr (default [] vb) ppos (bs ++ replicate (Z.to_nat (count' - n)) 0) in
            let* (s, ret) := area_write a s (Some vb) (r_size info) in
            if truthy ret then Done (s, ppos, count) else Done (s, s64 (ppos + count'), count)
      end
  end.

(** ** Initialisation *)

(** A part of the table rsv_parts, as the device tree or the command line left
    it. *)
Record meson_rsv_part_t := Part { block_cnt : Z; p_size : Z; block_start : Z }.
Record parts_t := Parts { nrsv : meson_rsv_part_t; nbbt : meson_rsv_part_t; nenv : meson_rsv_part_t;
                          nkey : meson_rsv_part_t; ndtb : meson_rsv_part_t }.

Definition new_info (p : meson_rsv_part_t) (size : Z) (name : list Z) : meson_rsv_info_t :=
  Info (VNode 0 (-1) 0 0 0) [] (block_start p) (u32 (block_start p + block_cnt p)) (u32 size) name 0 0.

(** The fallback size of the keys and of the device tree. *)
Definition half_size (sh : Z) : Z := if erasesize mtd <? 0x40000 then erasesize mtd >> sh else 0x40000.

Definition fresh_nodes (n : Z) : list free_node_t := (fun i => FNode (Z.of_nat i) 0 0 0) <$> seq 0 (Z.to_nat n).

(** [alloc]: does every allocation succeed; [env_size]: the property of the
    device tree.  A failure, or a chip without bad block table, frees what was
    allocated; the result is then -ENOMEM, or 0 for a missing table.
    [bbt_buf]: the buffer for the table, and its new content. *)
Definition meson_rsv_init (alloc : bool) (p : parts_t) (env_size : option Z) s (bbt_buf : option (list Z))
  : outcome (rsv_t C * option (list Z) * Z) :=
  let has q := truthy (block_cnt q) in
  if DEFAULT_NAND_RSV_BLOCK_NUM <? block_cnt (nrsv p) then Fault
  else
    let h := Handler (chip (hd s)) 0 (fresh_nodes (block_cnt (nrsv p))) (block_cnt (nrsv p)) (rsv_protect (hd s)) in
    let failed h := RsvSt (Handler (chip h) (freenodebitmask h) [] (nrsv_cnt h) (rsv_protect h)) None None None None (meson_rsv_key s) in
    if negb alloc then Done (failed h, bbt_buf, - ENOMEM)
    else
      let bbt0 := new_info (nbbt p) (mtd_size mtd >> erasesize_shift mtd) BBT_NAND_MAGIC in
      let esize := if truthy (p_size (nenv p)) then p_size (nenv p)
                   else match env_size with Some e => e | None => CONFIG_ENV_SIZE end in
      let env0 := if has (nenv p) then Some (new_info (nenv p) esize ENV_NAND_MAGIC) else None in
      let ksize := if truthy (p_size (nkey p)) then p_size (nkey p) else half_size 2 in
      let key0 := if has (nkey p) then Some (new_info (nkey p) ksize KEY_NAND_MAGIC) else None in
      let dsize := if truthy (p_size (ndtb p)) then p_size (ndtb p) else half_size 1 in
      let dtb0 := if has (ndtb p) then Some (new_info (ndtb p) dsize DTB_NAND_MAGIC) else None in
      let* (h, bbt0, _) := meson_rsv_check mtd sfuel h bbt0 in
      match bbt_buf with
      | None => Done (failed h, None, 0)
      | Some block_status =>
          if r_valid bbt0 =? 0 then Done (failed h, bbt_buf, 0)
          else
            let* (h, bbt0, block_status, _) := meson_rsv_read mtd fuel sfuel h bbt0 block_status in
            let check h (r : option meson_rsv_info_t) :=
              match r with
              | None => Done (h, None)
              | Some r => let* (h, r, _) := meson_rsv_check mtd sfuel h r in Done (h, Some r)
              end in
            let* (h, env0) := check h env0 in
            let* (h, key0) := check h key0 in
            let* (h, dtb0) := check h dtb0 in
            Done (RsvSt h (Some bbt0) env0 key0 dtb0 (meson_rsv_key s || has (nkey p)), Some block_status, 0)
      end.
End Areas.
End Rsv.
