(* ===== verification/RsvChip.v ===== *)
(** * The NAND chip and the pool of free nodes

    What [Rsv.v] relies on: the class [NandOk] states the documented behaviour
    of a NAND chip behind the operations of [NandOps], as laws on the pages of
    the chip.  A page is blank, programmed, or torn: a program or erase that
    fails, or that a loss of power cuts short, leaves a page as it was, done,
    or torn, and a torn page cannot be read.  An instance whose operations
    fail without effect from some moment on is a chip that lost its power, so
    a theorem for every instance covers the loss of power at every moment.
    [sim] is an instance that runs.

    Then the lemmas that do not depend on the log: addresses, the spare bytes
    of a page, the pool of free nodes. *)

From S2P Require Import Prelude Mem KeyTlv KeyStore KeyIf Rsv.
From stdpp Require Import base numbers list.
From Stdlib Require Import ZArith Lia.

Local Open Scope Z_scope.
Local Open Scope cint_scope.

Inductive pstate :=
  | Blank
  | Prog (data spare : list Z)
  | Torn.

#[global] Instance pstate_eq_dec : EqDecision pstate.
Proof. solve_decision. Defined.

Module RsvChip.
Import Rsv.

(** After a program of [data] and [spare] that failed. *)
Definition half_written (data spare : list Z) (p : pstate) : Prop := p = Blank \/ p = Torn \/ p = Prog data spare.
(** After an erase that failed. *)
Definition half_erased (old p : pstate) : Prop := p = old \/ p = Torn \/ p = Blank.

Class NandOk (C : Type) `{NandOps C} (mtd : mtd_info) := {
  (** A page by its number on the chip; the mark of a block. *)
  page : C -> Z -> pstate;
  bad : C -> Z -> bool;
  (** From here on nothing fails. *)
  healthy : C -> Prop;
  read_law c off len c' d o ret :
    0 <= off -> 0 <= len <= writesize mtd -> _read_oob c off len 8 = (c', d, o, ret) ->
    (forall p, page c' p = page c p) /\ (forall b, bad c' b = bad c b) /\ (healthy c -> healthy c') /\ blen d = len /\
    match page c (off / writesize mtd) with
    | Blank => readable ret = true /\ o = replicate 8 255
    | Prog dat spare => readable ret = true /\ o = spare /\ (off mod writesize mtd = 0 -> len = blen dat -> d = dat)
    | Torn => readable ret = false
    end;
  write_law c off dat spare c' ret :
    0 <= off -> off mod writesize mtd = 0 -> _write_oob c off dat spare = (c', ret) ->
    (forall p, p <> off / writesize mtd -> page c' p = page c p) /\ (forall b, bad c' b = bad c b) /\
    (page c (off / writesize mtd) = Blank ->
     if truthy ret then half_written dat spare (page c' (off / writesize mtd))
     else page c' (off / writesize mtd) = Prog dat spare);
  erase_law c b c' ret :
    0 <= b -> _erase c (b * erasesize mtd) (erasesize mtd) = (c', ret) ->
    let inside p := b * (erasesize mtd / writesize mtd) <= p < (b + 1) * (erasesize mtd / writesize mtd) in
    (forall p, ~ inside p -> page c' p = page c p) /\ (forall b, bad c' b = bad c b) /\
    (forall p, inside p -> if truthy ret then half_erased (page c p) (page c' p) else page c' p = Blank) /\
    (healthy c -> ret = 0 /\ healthy c');
  isbad_law c b : 0 <= b -> truthy (_block_isbad c (b * erasesize mtd)) = bad c b;
  markbad_law c b :
    0 <= b -> let c' := _block_markbad c (b * erasesize mtd) in
    let inside p := b * (erasesize mtd / writesize mtd) <= p < (b + 1) * (erasesize mtd / writesize mtd) in
    (forall p, ~ inside p -> page c' p = page c p) /\ (forall x, x <> b -> bad c' x = bad c x) /\
    (forall p, inside p -> page c' p = page c p \/ page c' p = Torn);
}.

(** ** Spare bytes *)

Lemma u8_land x : u8 x = x .& 0xff.
Proof. unfold u8. change 0xff with (Z.ones 8). by rewrite Z.land_ones. Qed.

(** The tag of a page comes back, the stamp with its 15 bits. *)
Lemma oob_roundtrip o : length (o_name o) = 4%nat ->
  o_name (oob_of (oob_bytes o)) = o_name o /\ o_timestamp (oob_of (oob_bytes o)) = o_timestamp o mod 2 ^ 15 /\
  o_ec (oob_of (oob_bytes o)) = s16 (o_ec o).
Proof.
  destruct o as [nm ec ts st]. cbn [o_name o_timestamp o_ec]. intros Hn.
  destruct nm as [|a [|b [|c [|d [|]]]]]; try discriminate Hn. split; [reflexivity|].
  cbn [oob_bytes oob_of nth o_name o_ec o_timestamp app take]. split.
  - unfold u8. apply Z.bits_inj'. intros i Hi. rewrite Z.lor_spec, Z.shiftl_spec by lia.
    destruct (Z.lt_ge_cases i 15).
    + rewrite (Z.mod_pow2_bits_low _ 15) by lia. destruct (Z.lt_ge_cases i 8).
      * rewrite Z.mod_pow2_bits_low by lia. rewrite (Z.testbit_neg_r _ (i - 8)) by lia. by rewrite orb_false_r.
      * rewrite Z.mod_pow2_bits_high by lia. cbn [orb]. change 0x7f with (Z.ones 7).
        rewrite !Z.land_spec, Z.lor_spec, Z.land_spec, Z.ones_spec_low, Z.shiftl_spec_low by lia.
        rewrite Z.mod_pow2_bits_low by lia. rewrite Z.shiftr_spec by lia.
        rewrite orb_false_r, !andb_true_r. f_equal. lia.
    + rewrite !Z.mod_pow2_bits_high by lia. change 0x7f with (Z.ones 7).
      rewrite !Z.land_spec, Z.ones_spec_high by lia. by rewrite andb_false_r.
  - assert (Hm : Z.lor (u8 ec) (u8 (ec >> 8) << 8) = ec mod 2 ^ 16).
    { unfold u8. apply Z.bits_inj'. intros i Hi. rewrite Z.lor_spec, Z.shiftl_spec by lia.
      destruct (Z.lt_ge_cases i 8).
      - rewrite !Z.mod_pow2_bits_low by lia. rewrite (Z.testbit_neg_r _ (i - 8)) by lia. by rewrite orb_false_r.
      - rewrite Z.mod_pow2_bits_high by lia. destruct (Z.lt_ge_cases i 16).
        + rewrite !Z.mod_pow2_bits_low by lia. rewrite Z.shiftr_spec by lia. cbn [orb]. f_equal. lia.
        + rewrite !Z.mod_pow2_bits_high by lia. done. }
    rewrite Hm. unfold s16. by rewrite Zplus_mod_idemp_l.
Qed.

Lemma oob_of_blank : o_name (oob_of (replicate 8 255)) = [255; 255; 255; 255].
Proof. reflexivity. Qed.

(** ** The pool of free nodes *)

Fixpoint count_clear (m : Z) (n : nat) : nat :=
  match n with
  | O => O
  | S n => count_clear m n + if Z.testbit m (Z.of_nat n) then 0 else 1
  end.

Lemma count_clear_ext m m' n : (forall i, (i < n)%nat -> Z.testbit m' (Z.of_nat i) = Z.testbit m (Z.of_nat i)) ->
  count_clear m' n = count_clear m n.
Proof. induction n as [|n IH]; intros Hx; cbn [count_clear]; [done|]. rewrite IH, Hx by auto with lia. done. Qed.

Lemma count_setbit m i n : (i < n)%nat -> Z.testbit m (Z.of_nat i) = false ->
  count_clear m n = S (count_clear (Z.setbit m (Z.of_nat i)) n).
Proof.
  induction n as [|n IH]; intros Hi Hb; [lia|]. cbn [count_clear]. destruct (Nat.eq_dec i n) as [->|].
  - rewrite Hb, Z.setbit_eq by lia. rewrite (count_clear_ext m (Z.setbit m (Z.of_nat n))); [lia|].
    intros. apply Z.setbit_neq; lia.
  - rewrite IH by (done || lia). rewrite Z.setbit_neq by lia. lia.
Qed.

Lemma count_clearbit m i n : (i < n)%nat -> Z.testbit m (Z.of_nat i) = true ->
  count_clear (Z.clearbit m (Z.of_nat i)) n = S (count_clear m n).
Proof.
  induction n as [|n IH]; intros Hi Hb; [lia|]. cbn [count_clear]. destruct (Nat.eq_dec i n) as [->|].
  - rewrite Hb, Z.clearbit_eq by lia. rewrite (count_clear_ext m (Z.clearbit m (Z.of_nat n))); [lia|].
    intros. apply Z.clearbit_neq. lia.
  - rewrite IH by (done || lia). rewrite Z.clearbit_neq by lia. lia.
Qed.

Lemma count_pos m n : (0 < count_clear m n)%nat -> exists i, (i < n)%nat /\ Z.testbit m (Z.of_nat i) = false.
Proof.
  induction n as [|n IH]; cbn [count_clear]; [lia|]. destruct (Z.testbit m (Z.of_nat n)) eqn:E; intros Hc.
  - destruct IH as (i & ? & ?); [lia|]. exists i. auto with lia.
  - exists n. auto with lia.
Qed.

Section Pool.
Context {C : Type} `{NandOps C}.
Implicit Types (h : handler_t C).

(** The array has its nodes, each with its own index. *)
Definition nodes_ok h : Prop :=
  forall i, (i < Z.to_nat (nrsv_cnt h))%nat -> exists nd, free_node h !! i = Some nd /\ f_index nd = Z.of_nat i.

Definition clear_cnt h : nat := count_clear (freenodebitmask h) (Z.to_nat (nrsv_cnt h)).
Definition used h (i : nat) : Prop := Z.testbit (freenodebitmask h) (Z.of_nat i) = true.

(** The nodes of a list are in use. *)
Definition owns h (l : list nat) : Prop := NoDup l /\ Forall (fun i => (i < Z.to_nat (nrsv_cnt h))%nat /\ used h i) l.

Definition blk_of h (i : nat) : Z := from_option f_blk 0 (free_node h !! i).

(** Nodes in use outside [l] are as before. *)
Definition framed h h' (l : list nat) : Prop :=
  forall i, used h i -> i ∉ l -> used h' i /\ free_node h' !! i = free_node h !! i.

Lemma get_free_node_ok h : nodes_ok h -> (0 < clear_cnt h)%nat ->
  exists f, get_free_node h = (set_mask h (Z.setbit (freenodebitmask h) (Z.of_nat f)), Some f) /\
    (f < Z.to_nat (nrsv_cnt h))%nat /\ ~ used h f /\
    clear_cnt h = S (clear_cnt (set_mask h (Z.setbit (freenodebitmask h) (Z.of_nat f)))).
Proof.
  intros Hn Hc. destruct (count_pos _ _ Hc) as (i & Hi & Hb). unfold get_free_node, find_first_zero_bit.
  destruct (first_zero_spec (freenodebitmask h) (Z.to_nat (nrsv_cnt h)) 0 ltac:(lia)) as (Hk & Hall & Hz).
  set (k := first_zero _ _ _) in *.
  assert (Hki : k <= Z.of_nat i).
  { destruct (Z.le_gt_cases k (Z.of_nat i)) as [|Hgt]; [done|]. rewrite (Hall (Z.of_nat i)) in Hb by lia. done. }
  rewrite (proj2 (Z.leb_gt _ _)) by lia. specialize (Hz ltac:(lia)).
  exists (Z.to_nat k). rewrite Z2Nat.id by lia. split; [done|]. split; [lia|]. split.
  { unfold used. rewrite Z2Nat.id, Hz by lia. done. }
  unfold clear_cnt. cbn [set_mask freenodebitmask nrsv_cnt].
  rewrite <- (Z2Nat.id k) at 1 by lia. apply count_setbit; [lia|]. rewrite Z2Nat.id by lia. done.
Qed.

Lemma used_setbit h f i : used (set_mask h (Z.setbit (freenodebitmask h) (Z.of_nat f))) i <-> i = f \/ used h i.
Proof.
  unfold used. cbn [set_mask freenodebitmask]. rewrite Z.setbit_iff by lia. split.
  - intros [He|Hu]; [left; lia|by right].
  - intros [->|Hu]; [by left|by right].
Qed.

Lemma used_clearbit h f i : used (set_mask h (Z.clearbit (freenodebitmask h) (Z.of_nat f))) i <-> i <> f /\ used h i.
Proof.
  unfold used. cbn [set_mask freenodebitmask]. rewrite Z.clearbit_iff by lia. split.
  - intros [Hu He]. split; [lia|done].
  - intros [He Hu]. split; [done|lia].
Qed.

(** A node filled in. *)
Lemma fill_node_ok h f ec blk : nodes_ok h -> (f < Z.to_nat (nrsv_cnt h))%nat ->
  exists nd, fill_node h f ec blk = Done (set_nodes h (<[f := FNode (Z.of_nat f) (s16 ec) (s16 blk) nd]> (free_node h))) /\
    free_node h !! f <> None.
Proof.
  intros Hn Hf. destruct (Hn f Hf) as (nd & E & Hi). unfold fill_node. rewrite E, Hi. eexists. split; [done|]. done.
Qed.

Lemma nodes_ok_insert h f ec blk dirty : nodes_ok h ->
  nodes_ok (set_nodes h (<[f := FNode (Z.of_nat f) ec blk dirty]> (free_node h))).
Proof.
  intros Hn i Hi. destruct (Hn i Hi) as (nd & E & Hx). cbn [set_nodes free_node nrsv_cnt] in *.
  destruct (decide (i = f)) as [->|Hne].
  - eexists. rewrite list_lookup_insert_eq by (by eapply lookup_lt_Some). split; [done|]. done.
  - exists nd. rewrite list_lookup_insert_ne by done. done.
Qed.

Lemma release_ok h i : nodes_ok h -> (i < Z.to_nat (nrsv_cnt h))%nat -> used h i ->
  exists h', release_free_node h i = Done h' /\ nodes_ok h' /\ nrsv_cnt h' = nrsv_cnt h /\ chip h' = chip h /\
    clear_cnt h' = S (clear_cnt h) /\ framed h h' [i] /\ (forall j, used h' j -> used h j).
Proof.
  intros Hn Hi Hu. destruct (Hn i Hi) as (nd & E & Hx). unfold release_free_node. rewrite E, Hx.
  rewrite (proj2 (Z.ltb_ge _ _)) by lia. eexists. split; [done|]. split.
  { apply (nodes_ok_insert (set_mask h (Z.clearbit (freenodebitmask h) (Z.of_nat i)))). exact Hn. }
  do 2 (split; [done|]). split; [apply count_clearbit; [done|exact Hu]|]. split.
  - intros j Hj Hne. apply not_elem_of_cons in Hne as [Hne _]. split.
    + apply (used_clearbit h). done.
    + cbn. by rewrite list_lookup_insert_ne.
  - intros j Hj. apply (used_clearbit h) in Hj. tauto.
Qed.

Lemma owns_frame h h' i l : owns h (i :: l) -> framed h h' [i] -> nrsv_cnt h' = nrsv_cnt h -> owns h' l.
Proof.
  intros [Hd Hf] Hfr Hc. apply NoDup_cons in Hd as [Hi Hd]. apply Forall_cons in Hf as [_ Hf]. split; [done|].
  rewrite Hc. apply Forall_forall. intros j Hj. rewrite Forall_forall in Hf. destruct (Hf j Hj) as [Hlt Hu]. split; [done|].
  apply (Hfr j Hu). intros ->%list_elem_of_singleton. done.
Qed.

Lemma release_all_ok l : forall h, nodes_ok h -> owns h l ->
  exists h', release_all h l = Done h' /\ nodes_ok h' /\ nrsv_cnt h' = nrsv_cnt h /\ chip h' = chip h /\
    clear_cnt h' = (clear_cnt h + length l)%nat /\ framed h h' l.
Proof.
  induction l as [|i l IH]; intros h Hn Ho; cbn [release_all].
  { exists h. split; [done|]. do 3 (split; [done|]). split; [cbn; lia|]. done. }
  assert (Hi : (i < Z.to_nat (nrsv_cnt h))%nat /\ used h i) by (destruct Ho as [_ Hf]; by apply Forall_cons in Hf as [? _]).
  destruct (release_ok h i Hn (proj1 Hi) (proj2 Hi)) as (h1 & E & Hn1 & Hc1 & Hch1 & Hcl1 & Hf1 & _).
  destruct (IH h1 Hn1 (owns_frame _ _ _ _ Ho Hf1 Hc1)) as (h2 & E2 & Hn2 & Hc2 & Hch2 & Hcl2 & Hf2).
  exists h2. rewrite E. cbn [obind]. split; [exact E2|]. split; [done|]. split; [congruence|]. split; [congruence|].
  split; [cbn; lia|]. intros j Hj Hne. apply not_elem_of_cons in Hne as [Hji Hjl].
  destruct (Hf1 j Hj) as [Hu1 E1]; [by intros ->%list_elem_of_singleton|].
  destruct (Hf2 j Hu1 Hjl) as [Hu2 E3]. split; [done|]. congruence.
Qed.

(** [h'] has the node [f] more in use than [h], for the block [blk]. *)
Record added h h' (f : nat) (blk : Z) : Prop := {
  ad_chip : chip h' = chip h;
  ad_nodes : nodes_ok h';
  ad_cnt : nrsv_cnt h' = nrsv_cnt h;
  ad_new : (f < Z.to_nat (nrsv_cnt h))%nat /\ ~ used h f;
  ad_used i : used h' i <-> i = f \/ used h i;
  ad_blk : blk_of h' f = blk;
  ad_other i : i <> f -> free_node h' !! i = free_node h !! i;
  ad_clear : clear_cnt h = S (clear_cnt h');
}.

Lemma added_insert h f ec blk dirty : nodes_ok h -> (f < Z.to_nat (nrsv_cnt h))%nat -> ~ used h f ->
  clear_cnt h = S (clear_cnt (set_mask h (Z.setbit (freenodebitmask h) (Z.of_nat f)))) ->
  added h (set_nodes (set_mask h (Z.setbit (freenodebitmask h) (Z.of_nat f)))
             (<[f := FNode (Z.of_nat f) ec blk dirty]> (free_node h))) f blk.
Proof.
  intros Hn Hf Hu Hc. split; try done.
  - apply (nodes_ok_insert (set_mask h (Z.setbit (freenodebitmask h) (Z.of_nat f)))). exact Hn.
  - intros i. apply (used_setbit h f i).
  - unfold blk_of. cbn. destruct (Hn f Hf) as (nd & E & _).
    by rewrite list_lookup_insert_eq by (by eapply lookup_lt_Some).
  - intros i Hi. cbn. by rewrite list_lookup_insert_ne.
Qed.

(** Taking a node and filling it in, with or without its mark. *)
Lemma add_node h ec blk : nodes_ok h -> (0 < clear_cnt h)%nat -> - 2 ^ 15 <= blk < 2 ^ 15 ->
  exists f h1, get_free_node h = (h1, Some f) /\
    (exists h2, fill_node h1 f ec blk = Done h2 /\ added h h2 f blk) /\
    (exists h1', mark_dirty h1 f = Done h1' /\ exists h2, fill_node h1' f ec blk = Done h2 /\ added h h2 f blk).
Proof.
  intros Hn Hc Hb. destruct (get_free_node_ok h Hn Hc) as (f & E & Hf & Hu & Hcl). exists f, (set_mask h (Z.setbit (freenodebitmask h) (Z.of_nat f))).
  split; [done|]. destruct (Hn f Hf) as (nd & En & Hi). split.
  - unfold fill_node. cbn [set_mask free_node]. rewrite En, Hi, (s16_small blk) by lia. eexists. split; [done|].
    by apply added_insert.
  - unfold mark_dirty. cbn [set_mask free_node]. rewrite En. eexists. split; [done|].
    unfold fill_node. cbn [set_nodes free_node]. rewrite list_lookup_insert_eq by (by eapply lookup_lt_Some).
    cbn [f_index]. rewrite Hi, (s16_small blk) by lia. eexists. split; [done|]. cbn [dirty_flag].
    unfold set_nodes. cbn [chip freenodebitmask free_node nrsv_cnt rsv_protect]. rewrite list_insert_insert_eq.
    by apply added_insert.
Qed.

Lemma added_owns h h' f blk l : added h h' f blk -> owns h l -> owns h' (l ++ [f]).
Proof.
  intros [_ _ Hc [Hf Hn] Hu _ _ _] [Hd Hl]. split.
  - apply NoDup_app. split; [done|]. split; [|apply NoDup_singleton]. intros i Hi ->%list_elem_of_singleton.
    rewrite Forall_forall in Hl. by destruct (Hl f Hi).
  - rewrite Hc. apply Forall_app. split; [|apply Forall_singleton; split; [done|]; apply Hu; by left].
    eapply Forall_impl; [exact Hl|]. intros i [? ?]. split; [done|]. apply Hu. by right.
Qed.

Lemma added_blks h h' f blk l : added h h' f blk -> owns h l -> blk_of h' <$> (l ++ [f]) = (blk_of h <$> l) ++ [blk].
Proof.
  intros [_ _ _ [Hf Hn] _ Hb Ho _] [_ Hl]. rewrite fmap_app. cbn. rewrite Hb. f_equal. apply list_fmap_ext.
  intros k i Hi. unfold blk_of. rewrite Ho; [done|]. intros ->. rewrite Forall_forall in Hl.
  destruct (Hl f) as [_ Hu]; [by eapply list_elem_of_lookup_2|]. done.
Qed.

Lemma added_framed h0 h h' f blk : added h h' f blk -> framed h0 h [] -> framed h0 h' [].
Proof.
  intros [_ _ _ [_ Hn] Hu _ Ho _] Hf i Hi Hl. destruct (Hf i Hi Hl) as [Hu' E]. split; [apply Hu; by right|].
  rewrite Ho; [done|]. intros ->. done.
Qed.
End Pool.
End RsvChip.
