(* ===== verification/RsvScan.v ===== *)
(** * Scanning a reserved area

    The log of an area on the chip, and what a scan finds in it: the block
    with the newest stamp, the last complete record of that block, and the
    other blocks as free blocks.  A record whose writing was cut short is
    passed over; when it was the first of its block, the block is erased and
    the scan starts again. *)

From S2P Require Import Prelude Mem KeyTlv KeyStore KeyIf Rsv RsvChip.
From stdpp Require Import base numbers list.
From Stdlib Require Import ZArith Lia.

Local Open Scope Z_scope.
Local Open Scope cint_scope.

Module RsvScan.
Import Rsv RsvChip.

(** Membership in a list with one element more. *)
Ltac in_app := rewrite ?elem_of_app, ?list_elem_of_singleton; intuition auto.

(** ** The log on the chip *)

(** The stamp of a page that is tagged with the name. *)
Definition tag (nm : list Z) (p : pstate) : option Z :=
  match p with
  | Prog _ o => if bool_decide (o_name (oob_of o) = nm) then Some (o_timestamp (oob_of o)) else None
  | _ => None
  end.

Definition oob_at (p : pstate) : option oobinfo_t :=
  match p with Blank => Some (oob_of (replicate 8 255)) | Prog _ o => Some (oob_of o) | Torn => None end.

(** Sizes: [P] pages in a block, records of [n] pages. *)
Record geometry (mtd : mtd_info) (P n size : Z) : Prop := {
  g_ws : 0 < writesize mtd;
  g_es : erasesize mtd = P * writesize mtd;
  g_es_max : erasesize mtd < 2 ^ 31;
  g_P : 1 << (erasesize_shift mtd - writesize_shift mtd) = P;
  g_P256 : 0 < P <= 256;
  g_n : 0 < n;
  g_size : (writesize mtd < size /\ size = n * writesize mtd) \/ (0 < size <= writesize mtd /\ n = 1);
  g_num : (if size >> writesize_shift mtd =? 0 then 1 else size >> writesize_shift mtd) = n;
  g_div : (n | P);
  g_sdiv : (size | erasesize mtd);
}.

(** Sizes that are powers of two fit. *)
Lemma geometry_pow2 w e q msz : 0 <= w -> w <= e -> e <= 30 -> e - w <= 8 -> 0 <= q <= e ->
  geometry (Mtd msz (2 ^ e) (2 ^ w) e w) (2 ^ (e - w)) (2 ^ Z.max 0 (q - w)) (2 ^ q).
Proof.
  intros Hw He He31 H8 Hq. assert (Hpos : forall x, 0 <= x -> 0 < 2 ^ x) by (intros; apply Z.pow_pos_nonneg; lia).
  split; cbn [erasesize writesize erasesize_shift writesize_shift].
  - auto.
  - rewrite <- Z.pow_add_r by lia. f_equal. lia.
  - apply Z.pow_lt_mono_r; lia.
  - by rewrite Z.shiftl_1_l.
  - split; [apply Hpos; lia|]. change 256 with (2 ^ 8). apply Z.pow_le_mono_r; lia.
  - apply Hpos. lia.
  - destruct (Z.lt_ge_cases w q).
    + left. split; [apply Z.pow_lt_mono_r; lia|]. rewrite <- Z.pow_add_r by lia. f_equal. lia.
    + right. rewrite Z.max_l by lia. split; [|done]. split; [apply Hpos; lia|]. apply Z.pow_le_mono_r; lia.
  - rewrite Z.shiftr_div_pow2 by lia. destruct (Z.lt_ge_cases q w).
    + rewrite Z.div_small; [by rewrite Z.max_l by lia|]. split; [specialize (Hpos q); lia|]. apply Z.pow_lt_mono_r; lia.
    + rewrite <- Z.pow_sub_r, Z.max_r by lia. specialize (Hpos (q - w)). destruct (Z.eqb_spec (2 ^ (q - w)) 0); lia.
  - exists (2 ^ (e - w - Z.max 0 (q - w))). rewrite <- Z.pow_add_r by lia. f_equal. lia.
  - exists (2 ^ (e - q)). rewrite <- Z.pow_add_r by lia. f_equal. lia.
Qed.

Definition same_area (r r' : meson_rsv_info_t) : Prop :=
  start_block r' = start_block r /\ end_block r' = end_block r /\ r_size r' = r_size r /\ r_name r' = r_name r.

(** The blocks of the area. *)
Definition blocks (r : meson_rsv_info_t) : list Z :=
  (fun i => skip_bbt_blocks r (start_block r + Z.of_nat i)) <$> seq 0 (Z.to_nat (end_block r - start_block r)).

Record area_ok (r : meson_rsv_info_t) : Prop := {
  a_range : 0 <= start_block r < end_block r;
  a_max : end_block r < 2 ^ 15 - 4;
  a_nodup : NoDup (blocks r);
  a_name : length (r_name r) = 4%nat;
  a_name_ff : r_name r <> [255; 255; 255; 255];
}.

(** As after initialisation. *)
Record unscanned (r : meson_rsv_info_t) : Prop := {
  u_blk : phy_blk_addr (valid_node r) = -1;
  u_page : phy_page_addr (valid_node r) = 0;
  u_status : v_status (valid_node r) = 0;
  u_free : free_list r = [];
  u_valid : r_valid r = 0;
}.

Lemma skip_same r r' x : same_area r r' -> skip_bbt_blocks r' x = skip_bbt_blocks r x.
Proof. intros (_ & _ & _ & E). unfold skip_bbt_blocks. by rewrite E. Qed.

Lemma blocks_same r r' : same_area r r' -> blocks r' = blocks r.
Proof.
  intros Hs. unfold blocks. destruct Hs as (E1 & E2 & E3 & E4). rewrite E1, E2. apply list_fmap_ext.
  intros. apply skip_same. by split.
Qed.

Lemma skip_range r x : 0 <= x < 2 ^ 15 - 4 -> 0 <= skip_bbt_blocks r x < 2 ^ 15.
Proof.
  intros Hx. unfold skip_bbt_blocks, BBT_START_BLOCK, BBT_TOTAL_BLOCKS. repeat case_if; rewrite ?u32_small by lia; lia.
Qed.

Lemma blocks_range r b : area_ok r -> b ∈ blocks r -> 0 <= b < 2 ^ 15.
Proof.
  intros [Hr Hm _ _ _] (i & -> & Hi)%list_elem_of_fmap. apply elem_of_seq in Hi. apply skip_range. lia.
Qed.

Section Scan.
Context {C : Type} `{Hok : NandOk C mtd} (P n size : Z) (Hg : geometry mtd P n size).
Implicit Types (h : handler_t C) (r : meson_rsv_info_t) (c : C).

Definition pg c (b i : Z) : pstate := page c (b * P + i).

(** Reading changes nothing. *)
Record quiet c c' : Prop := {
  q_page p : page c' p = page c p;
  q_bad b : bad c' b = bad c b;
  q_healthy : healthy c -> healthy c';
}.

#[export] Instance quiet_preorder : PreOrder quiet.
Proof.
  split; [by split|]. intros a b c [P1 B1 H1] [P2 B2 H2]. split; [intros; by rewrite P2, P1|intros; by rewrite B2, B1|auto].
Qed.

Lemma quiet_pg c c' b i : quiet c c' -> pg c' b i = pg c b i.
Proof. intros Hq. apply (q_page _ _ Hq). Qed.

Lemma ppb : erasesize mtd / writesize mtd = P.
Proof using Hg. rewrite (g_es _ _ _ _ Hg). apply Z.div_mul. pose proof (g_ws _ _ _ _ Hg). lia. Qed.

Lemma offset_page b i : (b * erasesize mtd + i * writesize mtd) / writesize mtd = b * P + i /\
  (b * erasesize mtd + i * writesize mtd) mod writesize mtd = 0.
Proof using Hg.
  pose proof (g_ws _ _ _ _ Hg). rewrite (g_es _ _ _ _ Hg).
  replace (b * (P * writesize mtd) + i * writesize mtd) with ((b * P + i) * writesize mtd) by ring.
  split; [by rewrite Z.div_mul by lia|]. by rewrite Z.mod_mul by lia.
Qed.

(** A read of the spare bytes. *)
Lemma read_spare c off c' d o ret : 0 <= off -> _read_oob c off 0 8 = (c', d, o, ret) ->
  quiet c c' /\ match oob_at (page c (off / writesize mtd)) with
                | Some x => readable ret = true /\ oob_of o = x
                | None => readable ret = false
                end.
Proof using Hg Hok.
  intros Ho E. pose proof (g_ws _ _ _ _ Hg) as Hw. destruct (read_law (mtd:=mtd) c off 0 c' d o ret Ho ltac:(lia) E) as (H1 & H2 & H3 & _ & H4).
  split; [by split|]. destruct (page c _); cbn [oob_at].
  - destruct H4 as [? ->]. done.
  - destruct H4 as (? & -> & _). done.
  - done.
Qed.

(** ** The first record of a block *)

Lemma block_page b off : b * erasesize mtd <= off < (b + 1) * erasesize mtd ->
  exists j, 0 <= j < P /\ off / writesize mtd = b * P + j.
Proof using Hg.
  pose proof (g_ws _ _ _ _ Hg) as Hw. rewrite (g_es _ _ _ _ Hg). intros Ho. exists (off / writesize mtd - b * P). split; [|lia].
  split; [apply Z.le_0_sub, Z.div_le_lower_bound; nia|].
  enough (off / writesize mtd < (b + 1) * P) by lia. apply Z.div_lt_upper_bound; nia.
Qed.

(** The next place to look is in the same block, or at its end. *)
Lemma next_offset b off : 0 <= b < 2 ^ 15 -> b * erasesize mtd <= off < (b + 1) * erasesize mtd -> (size | off - b * erasesize mtd) ->
  u64 (off + size) = off + size /\ (size | off + size - b * erasesize mtd) /\
  ((off + size) mod erasesize mtd = 0 \/ off + size < (b + 1) * erasesize mtd).
Proof using Hg.
  intros Hb Ho Hd. pose proof (g_es_max _ _ _ _ Hg) as Hm. pose proof (g_sdiv _ _ _ _ Hg) as Hs.
  pose proof (g_ws _ _ _ _ Hg) as Hw. pose proof (g_P256 _ _ _ _ Hg) as HP. pose proof (g_n _ _ _ _ Hg) as Hn.
  assert (Hes : 0 < erasesize mtd) by (rewrite (g_es _ _ _ _ Hg); nia).
  assert (Hsz : 0 < size) by (destruct (g_size _ _ _ _ Hg) as [[? ->]|[? _]]; nia).
  assert (Hle : off + size <= (b + 1) * erasesize mtd).
  { destruct Hs as [m Em], Hd as [k Ek].
    assert (k < m) by (apply (Z.mul_lt_mono_pos_r size); lia).
    assert ((k + 1) * size <= m * size) by (apply Z.mul_le_mono_nonneg_r; lia). lia. }
  split; [apply u64_small; nia|]. split; [destruct Hd as [k Ek]; exists (k + 1); lia|].
  destruct (Z.eq_dec (off + size) ((b + 1) * erasesize mtd)) as [->|]; [left; apply Z.mod_mul; lia|right; lia].
Qed.

Lemma set_chip_id h : set_chip h (chip h) = h.
Proof. by destruct h. Qed.

Lemma read_first_ok fuel : forall h r b off st, 0 <= b < 2 ^ 15 -> r_size r = size ->
  b * erasesize mtd <= off < (b + 1) * erasesize mtd -> (size | off - b * erasesize mtd) ->
  0 <= st <= 7 -> 7 - st < Z.of_nat fuel ->
  exists c' o, read_first mtd fuel h r off st = Done (set_chip h c', o) /\ quiet (chip h) c' /\
    (forall x, oob_at (page (chip h) (off / writesize mtd)) = Some x -> o = Some x) /\
    (forall x, o = Some x -> exists j, 0 <= j < P /\ oob_at (pg (chip h) b j) = Some x).
Proof using Hg Hok.
  induction fuel as [|fuel IH]; intros h r b off st Hb Hs Ho Hd Hst Hf; [lia|]. cbn [read_first].
  destruct (_read_oob (chip h) off 0 8) as [[[c d] o] ret] eqn:E.
  pose proof (g_ws _ _ _ _ Hg). pose proof (g_P256 _ _ _ _ Hg). pose proof (g_es _ _ _ _ Hg) as Hes.
  assert (0 < erasesize mtd) by nia. assert (Hoff : 0 <= off) by nia.
  destruct (read_spare _ _ _ _ _ _ Hoff E) as [Hq Hc]. destruct (block_page b off Ho) as (j & Hj & Ej).
  destruct (oob_at (page (chip h) (off / writesize mtd))) as [x|] eqn:Ex.
  - destruct Hc as [-> <-]. cbn [negb]. exists c, (Some (oob_of o)). split; [done|]. split; [done|]. split; [by intros ? [= ->]|].
    intros ? [= <-]. exists j. split; [done|]. unfold pg. by rewrite <- Ej.
  - rewrite Hc. cbn [negb]. rewrite Hs. destruct (next_offset b off Hb Ho Hd) as (-> & Hd' & Hn).
    destruct ((6 <? st) || ((off + size) mod erasesize mtd =? 0)) eqn:Eb.
    { exists c, None. split; [done|]. done. }
    b2p. destruct Hn as [Hn|Hn]; [done|]. rewrite u8_small by lia.
    assert (Hsz : 0 < size) by (destruct (g_size _ _ _ _ Hg) as [[? ->]|[? _]]; pose proof (g_n _ _ _ _ Hg); nia).
    destruct (IH (set_chip h c) r b (off + size) (st + 1)) as (c2 & o2 & E2 & Q2 & _ & K2); try (done || lia).
    exists c2, o2. split; [exact E2|]. split; [by transitivity c|]. split; [done|]. intros x Hx.
    destruct (K2 x Hx) as (i & Hi & Ei). exists i. split; [done|]. rewrite <- Ei. cbn. by rewrite (quiet_pg _ c b i Hq).
Qed.

(** ** The loop over the blocks

    [v] is the block with the newest stamp [T], [done] the blocks seen. *)
Record seen (c0 : C) h0 r0 (v T : Z) (done : list Z) h r : Prop := {
  se_quiet : quiet c0 (chip h);
  se_pos b : b ∈ done -> 0 <= b;
  se_area : same_area r0 r;
  se_nodes : nodes_ok h;
  se_cnt : nrsv_cnt h = nrsv_cnt h0;
  se_owns : owns h (free_list r);
  se_fresh i : i ∈ free_list r -> ~ used h0 i;
  se_frame : framed h0 h [];
  se_clear : clear_cnt h0 = (clear_cnt h + length (free_list r))%nat;
  se_fb : NoDup (blk_of h <$> free_list r);
  se_in b : b ∈ blk_of h <$> free_list r -> b ∈ done /\ b <> phy_blk_addr (valid_node r);
  se_page : phy_page_addr (valid_node r) = 0;
  se_status : v_status (valid_node r) = 0;
  se_len : (length (free_list r) <= length done)%nat;
  se_val : (phy_blk_addr (valid_node r) = -1 /\ r_valid r = 0) \/ (phy_blk_addr (valid_node r) ∈ done /\ r_valid r = 1);
  se_tag : 0 <= phy_blk_addr (valid_node r) ->
    exists j, 0 <= j < P /\ tag (r_name r0) (pg c0 (phy_blk_addr (valid_node r)) j) = Some (timestamp (valid_node r));
  se_top : v ∈ done -> phy_blk_addr (valid_node r) = v /\ timestamp (valid_node r) = T;
  se_kept b : b ∈ done -> pg c0 b 0 <> Torn -> b = phy_blk_addr (valid_node r) \/ b ∈ blk_of h <$> free_list r;
}.

(** The newest block of the area: its first page has the stamp, every other
    tagged page of the area an older one. *)
Definition newest c r (v T : Z) : Prop :=
  (v ∈ blocks r -> tag (r_name r) (pg c v 0) = Some T) /\
  forall b j t, b ∈ blocks r -> b <> v -> 0 <= j < P -> tag (r_name r) (pg c b j) = Some t -> t < T.

Lemma tag_oob nm p x : oob_at p = Some x -> nm <> [255; 255; 255; 255] ->
  tag nm p = if bool_decide (o_name x = nm) then Some (o_timestamp x) else None.
Proof.
  destruct p; cbn [oob_at tag]; intros [= <-] Hn; [|done]. rewrite bool_decide_false; [done|]. intros E. by apply Hn.
Qed.

(** A block becomes free. *)
Lemma seen_free c0 h0 r0 v T done h r b h2 f : seen c0 h0 r0 v T done h r -> added h h2 f b ->
  0 <= b -> b ∉ done -> b <> v ->
  seen c0 h0 r0 v T (done ++ [b]) h2 (set_free_list r (free_list r ++ [f])).
Proof.
  intros Hs Ha H0 Hb Hv. pose proof (added_blks _ _ _ _ _ Ha (se_owns _ _ _ _ _ _ _ _ Hs)) as Eb.
  pose proof (added_owns _ _ _ _ _ Ha (se_owns _ _ _ _ _ _ _ _ Hs)) as Eo.
  pose proof (added_framed _ _ _ _ _ Ha (se_frame _ _ _ _ _ _ _ _ Hs)) as Ef. destruct Hs, Ha.
  assert (Hne : b <> phy_blk_addr (valid_node r)).
  { intros ->. destruct se_val0 as [[E _]|[Hin _]]; [lia|done]. }
  split; cbn [set_free_list valid_node free_list r_valid r_name start_block]; rewrite ?Eb; try done.
  - by rewrite ad_chip0.
  - intros x [?| ->%list_elem_of_singleton]%elem_of_app; auto.
  - congruence.
  - intros x [Hx| ->%list_elem_of_singleton]%elem_of_app; [auto|]. intros Hu. apply (proj2 ad_new0).
    by apply (se_frame0 f Hu (not_elem_of_nil _)).
  - rewrite length_app. cbn. lia.
  - apply NoDup_app. split; [done|]. split; [|apply NoDup_singleton]. intros x Hx ->%list_elem_of_singleton.
    by destruct (se_in0 b Hx).
  - intros x [Hx| ->%list_elem_of_singleton]%elem_of_app; [|in_app]. destruct (se_in0 x Hx). in_app.
  - rewrite !length_app. cbn. lia.
  - destruct se_val0 as [?|[? ?]]; [by left|right]. in_app.
  - intros [?|?%list_elem_of_singleton]%elem_of_app; [auto|done].
  - intros x [Hx| ->%list_elem_of_singleton]%elem_of_app Hp; [|in_app]. destruct (se_kept0 x Hx Hp); in_app.
Qed.

(** A block that cannot be read is left out. *)
Lemma seen_skip c0 h0 r0 v T done h r b : seen c0 h0 r0 v T done h r -> b <> v -> 0 <= b -> pg c0 b 0 = Torn ->
  seen c0 h0 r0 v T (done ++ [b]) h r.
Proof.
  intros [] Hv H0 Hp. split; try done.
  - intros x [?| ->%list_elem_of_singleton]%elem_of_app; auto.
  - intros x Hx. destruct (se_in0 x Hx). in_app.
  - rewrite length_app. lia.
  - destruct se_val0 as [?|[? ?]]; [by left|right]. in_app.
  - intros [?|?%list_elem_of_singleton]%elem_of_app; [auto|done].
  - intros x [Hx| ->%list_elem_of_singleton]%elem_of_app Hx'; [auto|done].
Qed.

Definition point r (blk ts ec : Z) : meson_rsv_info_t := set_valid_node (set_valid r 1) (VNode ec blk 0 ts 0).

(** The first tagged block becomes the current one. *)
Lemma seen_first c0 h0 r0 v T done h r b ec t : seen c0 h0 r0 v T done h r ->
  0 <= b -> b ∉ done -> phy_blk_addr (valid_node r) < 0 -> v ∉ done -> (b = v -> t = T) ->
  (exists j, 0 <= j < P /\ tag (r_name r0) (pg c0 b j) = Some t) ->
  seen c0 h0 r0 v T (done ++ [b]) h (point r b t ec).
Proof.
  intros [] H0 Hb Hphy Hv Ht Htag.
  split; cbn [point set_valid_node set_valid valid_node free_list r_valid phy_blk_addr phy_page_addr v_status timestamp]; try done.
  - intros x [?| ->%list_elem_of_singleton]%elem_of_app; auto.
  - intros x Hx. destruct (se_in0 x Hx). split; [in_app|]. by intros ->.
  - rewrite length_app. lia.
  - right. in_app.
  - intros [?|?%list_elem_of_singleton]%elem_of_app; [done|]. auto.
  - intros x [Hx| ->%list_elem_of_singleton]%elem_of_app Hp; [|by left]. destruct (se_kept0 x Hx Hp) as [->|]; [|by right].
    specialize (se_pos0 _ Hx). lia.
Qed.

(** A newer block becomes the current one, the old one free. *)
Lemma seen_newer c0 h0 r0 v T done h r b ec t h2 f : seen c0 h0 r0 v T done h r ->
  added h h2 f (phy_blk_addr (valid_node r)) -> 0 <= phy_blk_addr (valid_node r) ->
  0 <= b -> b ∉ done -> v ∉ done -> (b = v -> t = T) ->
  (exists j, 0 <= j < P /\ tag (r_name r0) (pg c0 b j) = Some t) ->
  seen c0 h0 r0 v T (done ++ [b]) h2 (set_free_list (point r b t ec) (free_list r ++ [f])).
Proof.
  intros Hs Ha Hphy H0 Hb Hv Ht Htag. pose proof (added_blks _ _ _ _ _ Ha (se_owns _ _ _ _ _ _ _ _ Hs)) as Eb.
  pose proof (added_owns _ _ _ _ _ Ha (se_owns _ _ _ _ _ _ _ _ Hs)) as Eo.
  pose proof (added_framed _ _ _ _ _ Ha (se_frame _ _ _ _ _ _ _ _ Hs)) as Ef. destruct Hs, Ha.
  destruct se_val0 as [[? _]|[Hin _]]; [lia|].
  split; cbn [point set_free_list set_valid_node set_valid valid_node free_list r_valid phy_blk_addr phy_page_addr v_status timestamp]; rewrite ?Eb; try done.
  - by rewrite ad_chip0.
  - intros x [?| ->%list_elem_of_singleton]%elem_of_app; auto.
  - congruence.
  - intros x [Hx| ->%list_elem_of_singleton]%elem_of_app; [auto|]. intros Hu. apply (proj2 ad_new0).
    by apply (se_frame0 f Hu (not_elem_of_nil _)).
  - rewrite length_app. cbn. lia.
  - apply NoDup_app. split; [done|]. split; [|apply NoDup_singleton]. intros x Hx ->%list_elem_of_singleton.
    by destruct (se_in0 _ Hx).
  - intros x [Hx| ->%list_elem_of_singleton]%elem_of_app.
    + destruct (se_in0 x Hx). split; [in_app|]. by intros ->.
    + split; [in_app|]. intros E. by rewrite E in Hin.
  - rewrite !length_app. cbn. lia.
  - right. in_app.
  - intros [?|?%list_elem_of_singleton]%elem_of_app; [done|]. auto.
  - intros x [Hx| ->%list_elem_of_singleton]%elem_of_app Hp; [|by left]. destruct (se_kept0 x Hx Hp); right; in_app.
Qed.

(** One turn of the loop, on a block that can be read. *)
Lemma scan_block_ok c0 h0 r0 v T done h r start o :
  seen c0 h0 r0 v T done h r -> area_ok r0 -> newest c0 r0 v T -> (0 < clear_cnt h)%nat ->
  let b := skip_bbt_blocks r0 start in
  b ∈ blocks r0 -> b ∉ done -> (forall x, x ∈ done -> x ∈ blocks r0) ->
  (exists j, 0 <= j < P /\ oob_at (pg c0 b j) = Some o) -> (forall x, oob_at (pg c0 b 0) = Some x -> o = x) ->
  exists h' r', scan_block h r start o = Done (h', r', 0) /\ seen c0 h0 r0 v T (done ++ [b]) h' r'.
Proof.
  intros Hs Ha [Ht Hold] Hc b Hb Hd Hdb Hj H0. pose proof (blocks_range r0 b Ha Hb) as Hbr. pose proof (se_area _ _ _ _ _ _ _ _ Hs) as Har.
  pose proof (a_name_ff _ Ha) as Hff. destruct Har as (_ & _ & _ & En). unfold scan_block.
  set (r1 := set_valid_node (set_init r 1) _).
  assert (Eb : skip_bbt_blocks r1 start = b) by (unfold skip_bbt_blocks, r1; cbn; rewrite En; done). rewrite Eb, (s16_small b) by lia.
  assert (E1 : seen c0 h0 r0 v T done h r1) by (destruct Hs; split; done).
  clearbody r1. clear r En Eb Hs. rename r1 into r, E1 into Hs. pose proof (se_area _ _ _ _ _ _ _ _ Hs) as (_ & _ & _ & En).
  pose proof (se_status _ _ _ _ _ _ _ _ Hs) as Es. pose proof (se_nodes _ _ _ _ _ _ _ _ Hs) as Hn. rewrite Es.
  pose proof (se_val _ _ _ _ _ _ _ _ Hs) as Hval. pose proof (se_top _ _ _ _ _ _ _ _ Hs) as Htop.
  assert (Hbv : b = v -> o_name o = r_name r0 /\ o_timestamp o = T).
  { intros ->. specialize (Ht Hb). destruct (oob_at (pg c0 v 0)) as [x|] eqn:Ex.
    - rewrite (H0 x eq_refl). rewrite (tag_oob _ _ _ Ex Hff) in Ht. case_bool_decide; split; congruence.
    - destruct (pg c0 v 0); done. }
  unfold same_name. rewrite En. case_bool_decide as Enm.
  - assert (Htag : exists j, 0 <= j < P /\ tag (r_name r0) (pg c0 b j) = Some (o_timestamp o)).
    { destruct Hj as (j & Hj & Eo). exists j. split; [done|]. rewrite (tag_oob _ _ _ Eo Hff). by rewrite bool_decide_true. }
    cbn [set_valid valid_node].
    destruct (Z.leb_spec 0 (phy_blk_addr (valid_node r))) as [Hphy|Hphy].
    + destruct Hval as [[? _]|[Hin Hv1]]; [lia|].
      assert (Er : set_valid r 1 = r) by (destruct r; cbn in *; by subst).
      pose proof (blocks_range r0 _ Ha (Hdb _ Hin)) as Hpr.
      destruct (Z.ltb_spec (timestamp (valid_node r)) (o_timestamp o)) as [Hlt|Hge].
      * destruct (add_node h (v_ec (valid_node r)) (phy_blk_addr (valid_node r)) Hn Hc ltac:(lia)) as (f & h1 & -> & _ & h1' & -> & h2 & E2 & Had).
        cbn [obind]. rewrite E2. cbn [obind]. do 2 eexists. split; [reflexivity|].
        change (seen c0 h0 r0 v T (done ++ [b]) h2 (set_free_list (point r b (o_timestamp o) (o_ec o)) (free_list r ++ [f]))).
        apply seen_newer with (h := h); try done; [lia| |tauto]. intros Hvd. destruct (Htop Hvd) as [Ep Et].
        destruct Htag as (j & Hj' & Etag). assert (b <> v) by (intros ->; done). specialize (Hold b j _ Hb ltac:(done) Hj' Etag). lia.
      * destruct (add_node h (o_ec o) b Hn Hc ltac:(lia)) as (f & h1 & -> & _ & h1' & -> & h2 & E2 & Had).
        cbn [obind]. rewrite E2. cbn [obind]. do 2 eexists. split; [reflexivity|]. rewrite Er.
        apply seen_free with (h := h); try done; [lia|]. intros ->. destruct (Hbv eq_refl) as [_ Eo].
        destruct (se_tag _ _ _ _ _ _ _ _ Hs Hphy) as (j & Hj' & Etag).
        assert (Hne : phy_blk_addr (valid_node r) <> v) by (intros E; by rewrite E in Hin).
        specialize (Hold _ j _ (Hdb _ Hin) Hne Hj' Etag). lia.
    + do 2 eexists. split; [reflexivity|].
      change (seen c0 h0 r0 v T (done ++ [b]) h (point r b (o_timestamp o) (o_ec o))). apply seen_first; try done; [lia| |tauto].
      intros Hvd. destruct (Htop Hvd) as [Ep _]. pose proof (se_pos _ _ _ _ _ _ _ _ Hs v Hvd). lia.
  - destruct (add_node h (o_ec o) b Hn Hc ltac:(lia)) as (f & h1 & -> & (h2 & E2 & Had) & _).
    rewrite E2. cbn [obind]. do 2 eexists. split; [reflexivity|]. apply seen_free with (h := h); try done; [lia|].
    intros ->. by destruct (Hbv eq_refl).
Qed.

Lemma seen_quiet c0 h0 r0 v T done h r c : seen c0 h0 r0 v T done h r -> quiet (chip h) c ->
  seen c0 h0 r0 v T done (set_chip h c) r.
Proof. intros [] Hq. split; try done. by transitivity (chip h). Qed.

Lemma oob_at_torn p : oob_at p = None <-> p = Torn.
Proof. by destruct p. Qed.

(** One turn of the loop. *)
Lemma scan_turn c0 h0 r0 v T done h r start :
  area_ok r0 -> newest c0 r0 v T -> r_size r0 = size -> seen c0 h0 r0 v T done h r -> (0 < clear_cnt h)%nat ->
  let b := skip_bbt_blocks r0 start in
  b ∈ blocks r0 -> b ∉ done -> (forall x, x ∈ done -> x ∈ blocks r0) ->
  exists h1 o h' r', read_first mtd 9 h r (skip_bbt_blocks r start * erasesize mtd) 0 = Done (h1, o) /\
    match o with None => Done (h1, r, 0) | Some o => scan_block h1 r start o end = Done (h', r', 0) /\
    seen c0 h0 r0 v T (done ++ [b]) h' r'.
Proof using Hg Hok.
  intros Ha Hnew Hsz Hs Hc b Hb Hd Hdb. pose proof (blocks_range r0 b Ha Hb) as Hbr.
  pose proof (se_area _ _ _ _ _ _ _ _ Hs) as Har. rewrite (skip_same r0 r start Har). fold b.
  destruct Har as (_ & _ & Esz & _). pose proof (se_quiet _ _ _ _ _ _ _ _ Hs) as Hq0.
  pose proof (g_ws _ _ _ _ Hg). pose proof (g_P256 _ _ _ _ Hg). pose proof (g_es _ _ _ _ Hg) as Hes.
  assert (0 < erasesize mtd) by nia.
  destruct (read_first_ok 9 h r b (b * erasesize mtd) 0 Hbr ltac:(congruence) ltac:(lia) ltac:(exists 0; lia) ltac:(lia) ltac:(lia))
    as (c' & o & -> & Hq & K1 & K2).
  pose proof (offset_page b 0) as [Eo _]. rewrite Z.mul_0_l, !Z.add_0_r in Eo. rewrite Eo in K1.
  assert (K1' : forall x, oob_at (pg c0 b 0) = Some x -> o = Some x).
  { intros x Hx. apply K1. rewrite (q_page _ _ Hq0). unfold pg in Hx. by rewrite Z.add_0_r in Hx. }
  assert (K2' : forall x, o = Some x -> exists j, 0 <= j < P /\ oob_at (pg c0 b j) = Some x).
  { intros x Hx. destruct (K2 x Hx) as (j & Hj & Ej). exists j. split; [done|]. by rewrite (quiet_pg _ _ b j Hq0) in Ej. }
  pose proof (seen_quiet _ _ _ _ _ _ _ _ _ Hs Hq) as Hs'.
  exists (set_chip h c'), o. destruct o as [o|].
  - destruct (scan_block_ok c0 h0 r0 v T done (set_chip h c') r start o) as (h' & r' & E & Hs''); try done; [by apply K2'| |].
    + intros x Hx. specialize (K1' x Hx). congruence.
    + exists h', r'. done.
  - exists (set_chip h c'), r. split; [done|]. split; [done|].
    assert (Etorn : pg c0 b 0 = Torn).
    { apply oob_at_torn. destruct (oob_at (pg c0 b 0)) eqn:E; [|done]. by specialize (K1' _ eq_refl). }
    apply seen_skip; try done; [|lia]. intros E. destruct Hnew as [Ht _]. rewrite E in *. rewrite Etorn in Ht. by specialize (Ht Hb).
Qed.

(** The loop, from the block [start] on. *)
Lemma scan_blocks_ok c0 h0 r0 v T : area_ok r0 -> newest c0 r0 v T -> r_size r0 = size ->
  (length (blocks r0) <= clear_cnt h0)%nat ->
  forall k done h r start, start = start_block r0 + Z.of_nat (length done) ->
  done = take (length done) (blocks r0) -> (length done + S k = length (blocks r0))%nat ->
  seen c0 h0 r0 v T done h r ->
  exists h' r', scan_blocks mtd k h r start = Done (h', r', 0) /\ seen c0 h0 r0 v T (blocks r0) h' r'.
Proof using Hg Hok.
  intros Ha Hnew Hsz Hcl. induction k as [|k IH]; intros done h r start Est Ed El Hs.
  all: assert (Hlen : length (blocks r0) = Z.to_nat (end_block r0 - start_block r0)) by (unfold blocks; by rewrite length_fmap, length_seq).
  all: assert (Eb : blocks r0 !! length done = Some (skip_bbt_blocks r0 start))
    by (unfold blocks; rewrite list_lookup_fmap, lookup_seq_lt by lia; cbn; do 2 f_equal; lia).
  all: assert (Hd : skip_bbt_blocks r0 start ∉ done) by (rewrite Ed; intros (i & Hi)%list_elem_of_lookup; apply lookup_take_Some in Hi as [Hi Hlt];
    pose proof (NoDup_lookup _ _ _ _ (a_nodup _ Ha) Hi Eb); lia).
  all: destruct (scan_turn c0 h0 r0 v T done h r start Ha Hnew Hsz Hs) as (h1 & o & h' & r' & E1 & E2 & Hs');
    [pose proof (se_clear _ _ _ _ _ _ _ _ Hs); pose proof (se_len _ _ _ _ _ _ _ _ Hs); lia
    |by eapply list_elem_of_lookup_2|done|intros x; rewrite Ed; apply subseteq_take|].
  all: cbn [scan_blocks]; rewrite E1; cbn [obind]; rewrite E2; cbn [obind truthy Z.eqb negb].
  all: assert (Ed' : done ++ [skip_bbt_blocks r0 start] = take (S (length done)) (blocks r0))
    by (rewrite (take_S_r _ _ _ Eb); by rewrite <- Ed).
  - exists h', r'. split; [done|]. rewrite take_ge in Ed' by lia. by rewrite Ed' in Hs'.
  - pose proof (a_range _ Ha). pose proof (a_max _ Ha). rewrite u32_small by lia.
    apply (IH (done ++ [skip_bbt_blocks r0 start])); rewrite ?length_app; cbn [length]; try lia; [|done].
    rewrite Ed' at 1. f_equal. lia.
Qed.

(** The first stage of a scan. *)
Lemma stage1 h r v T : area_ok r -> unscanned r -> newest (chip h) r v T -> r_size r = size -> nodes_ok h ->
  (length (blocks r) <= clear_cnt h)%nat ->
  exists h' r', scan_blocks mtd (Z.to_nat (end_block r - start_block r - 1)) h r (start_block r) = Done (h', r', 0) /\
    seen (chip h) h r v T (blocks r) h' r'.
Proof using Hg Hok.
  intros Ha [Eb Ep Es Ef Ev] Hnew Hsz Hn Hcl. pose proof (a_range _ Ha).
  assert (Hlen : length (blocks r) = Z.to_nat (end_block r - start_block r)) by (unfold blocks; by rewrite length_fmap, length_seq).
  apply (scan_blocks_ok (chip h) h r v T Ha Hnew Hsz Hcl _ [] h r); try done; [cbn; lia|cbn; lia|].
  split; rewrite ?Ef, ?Eb, ?Es; try done.
  - intros b Hb. by apply not_elem_of_nil in Hb.
  - split; [apply NoDup_nil_2|apply Forall_nil_2].
  - intros i Hi. by apply not_elem_of_nil in Hi.
  - apply NoDup_nil_2.
  - intros b Hb. by apply not_elem_of_nil in Hb.
  - by left.
  - intros Hb. by apply not_elem_of_nil in Hb.
  - intros b Hb. by apply not_elem_of_nil in Hb.
Qed.

(** ** The pages of the newest block *)

(** After [t] tagged pages come blank ones, perhaps with a torn page between. *)
Definition ends c (b t : Z) (torn : bool) : Prop :=
  if torn then t < P /\ pg c b t = Torn /\ (t + 1 = P \/ pg c b (t + 1) = Blank)
  else forall j, t <= j < P -> pg c b j = Blank.

Definition marks (t : Z) : list Z := replicate (Z.to_nat t) 1 ++ replicate (Z.to_nat (256 - t)) 0.

Lemma marks_length t : 0 <= t <= 256 -> blen (marks t) = 256.
Proof. intros. unfold marks. rewrite length_app, !length_replicate. lia. Qed.

Lemma marks_rdn t k : 0 <= t <= 256 -> 0 <= k < 256 -> rdn (marks t) k 1 = Done [if k <? t then 1 else 0].
Proof.
  intros Ht Hk. rewrite rdn_Done by (rewrite ?marks_length; lia). f_equal. change (Z.to_nat 1) with 1%nat. unfold marks.
  destruct (Z.ltb_spec k t).
  - rewrite drop_app_le, drop_replicate by (rewrite length_replicate; lia).
    replace (Z.to_nat t - Z.to_nat k)%nat with (S (Z.to_nat (t - k - 1))) by lia. done.
  - rewrite drop_app_ge, drop_replicate by (rewrite length_replicate; lia). rewrite length_replicate.
    replace (Z.to_nat (256 - t) - (Z.to_nat k - Z.to_nat t))%nat with (S (Z.to_nat (255 - k))) by lia. done.
Qed.

(** Marking page [i], over marks left from an earlier scan. *)
Definition over (i m : Z) : list Z := marks (Z.max i m).

Lemma over_step i m : 0 <= i < 256 -> 0 <= m <= 256 -> wr (over i m) i [1] = Done (over (i + 1) m).
Proof.
  intros Hi Hm. unfold over. rewrite wr_Done by (cbn; rewrite ?marks_length; lia). f_equal. unfold splice, marks. cbn [length].
  destruct (Z.le_gt_cases m i).
  - rewrite !Z.max_l by lia. rewrite take_app_length' by (rewrite length_replicate; lia).
    rewrite drop_app_ge, drop_replicate, length_replicate by (rewrite length_replicate; lia).
    replace (Z.to_nat (i + 1)) with (Z.to_nat i + 1)%nat by lia. rewrite replicate_add. cbn [replicate]. rewrite <- !app_assoc.
    cbn [app]. do 3 f_equal. lia.
  - rewrite !Z.max_r by lia. rewrite take_app_le, take_replicate by (rewrite length_replicate; lia).
    rewrite drop_app_le, drop_replicate by (rewrite length_replicate; lia).
    rewrite app_assoc. change [1] with (replicate 1 1). rewrite !app_assoc, <- !replicate_add. f_equal. f_equal. lia.
Qed.

Definition page_at r (i : Z) : meson_rsv_info_t := set_valid_node r (set_page (valid_node r) i).

(** A read of the spare bytes of a page of the current block. *)
Lemma read_tag h r b i : phy_blk_addr (valid_node r) = b -> 0 <= b < 2 ^ 15 -> 0 <= i < P ->
  exists c d o ret, _read_oob (chip h) (u64 (phy_blk_addr (valid_node r) * erasesize mtd + i * writesize mtd)) 0 8 = (c, d, o, ret) /\
    quiet (chip h) c /\
    match oob_at (pg (chip h) b i) with Some x => readable ret = true /\ oob_of o = x | None => readable ret = false end.
Proof using Hg Hok.
  intros -> Hb Hi. pose proof (g_ws _ _ _ _ Hg). pose proof (g_es _ _ _ _ Hg). pose proof (g_es_max _ _ _ _ Hg).
  assert (Hi' : 0 <= i * writesize mtd <= erasesize mtd) by nia.
  assert (Hb' : 0 <= b * erasesize mtd <= 2 ^ 15 * erasesize mtd) by nia.
  assert (Ho : 0 <= b * erasesize mtd + i * writesize mtd < 2 ^ 64) by lia. rewrite u64_small by exact Ho.
  destruct (_read_oob (chip h) _ 0 8) as [[[c d] o] ret] eqn:E. exists c, d, o, ret. split; [done|].
  destruct (read_spare _ _ _ _ _ _ (proj1 Ho) E) as [Hq Hc]. split; [done|].
  by rewrite (proj1 (offset_page b i)) in Hc.
Qed.

Lemma scan_good k : forall h r i m rest ret nm b,
  r_name r = nm -> nm <> [255; 255; 255; 255] -> phy_blk_addr (valid_node r) = b -> 0 <= b < 2 ^ 15 ->
  0 <= i -> i + Z.of_nat k <= P -> 0 <= m <= 256 ->
  (forall j, i <= j < i + Z.of_nat k -> exists t, tag nm (pg (chip h) b j) = Some t) ->
  exists c, quiet (chip h) c /\
    scan_pages mtd (k + rest) h r (over i m) ret i =
    scan_pages mtd rest (set_chip h c) (if Nat.eqb k 0 then r else page_at r (i + Z.of_nat k - 1)) (over (i + Z.of_nat k) m) ret (i + Z.of_nat k).
Proof using Hg Hok.
  induction k as [|k IH]; intros h r i m rest ret nm b Hnm Hff Hb Hbr Hi Hk Hm Ht.
  { exists (chip h). split; [done|]. rewrite set_chip_id. cbn. by rewrite Z.add_0_r. }
  pose proof (g_P256 _ _ _ _ Hg) as HP. cbn [Nat.add scan_pages].
  destruct (read_tag h r b i Hb Hbr ltac:(lia)) as (c & d & o & rr & E & Hq & Hc). rewrite E.
  destruct (Ht i ltac:(lia)) as [t Ht']. destruct (oob_at (pg (chip h) b i)) as [x|] eqn:Ex; [|destruct (pg (chip h) b i); done].
  destruct Hc as [-> Eo]. cbn [negb]. unfold same_name. rewrite Eo, Hnm.
  rewrite (tag_oob nm _ _ Ex Hff) in Ht'. case_bool_decide; [|done]. rewrite over_step by lia. cbn [obind].
  change (set_valid_node r (set_page (valid_node r) i)) with (page_at r i).
  destruct (IH (set_chip h c) (page_at r i) (i + 1) m rest ret nm b) as (c2 & Hq2 & E2); try (done || lia).
  { intros j Hj. cbn [set_chip chip]. rewrite (quiet_pg _ _ b j Hq). apply Ht. lia. }
  exists c2. split; [by transitivity c|]. rewrite E2. cbn [Nat.eqb].
  replace (i + 1 + Z.of_nat k) with (i + Z.of_nat (S k)) by lia.
  f_equal. destruct (Nat.eqb_spec k 0) as [Ek|]; [|done]. unfold page_at. do 2 f_equal. lia.
Qed.

(** What the second stage makes of the newest block. *)
Definition stage2 r (t : Z) (torn : bool) : meson_rsv_info_t :=
  let r := page_at r (t - 1) in
  if torn then set_valid_node r (set_status (valid_node r) (v_status (valid_node r) .| ECC_ABNORMAL_FLAG)) else r.

Lemma scan_pages_ok h r b t torn m ret :
  r_name r <> [255; 255; 255; 255] -> phy_blk_addr (valid_node r) = b -> 0 <= b < 2 ^ 15 -> 1 <= t <= P -> 0 <= m <= t ->
  (forall j, 0 <= j < t -> exists x, tag (r_name r) (pg (chip h) b j) = Some x) -> ends (chip h) b t torn ->
  exists c, quiet (chip h) c /\
    scan_pages mtd (Z.to_nat P) h r (marks m) ret 0 = Done (set_chip h c, stage2 r t torn, marks t, if torn then -1 else ret).
Proof using Hg Hok.
  intros Hff Hb Hbr Ht Hm Htag He. pose proof (g_P256 _ _ _ _ Hg) as HP.
  destruct (scan_good (Z.to_nat t) h r 0 m (Z.to_nat (P - t)) ret (r_name r) b) as (c & Hq & E); try (done || lia).
  { intros j Hj. apply Htag. lia. }
  replace (Z.to_nat t + Z.to_nat (P - t))%nat with (Z.to_nat P) in E by lia.
  unfold over in E. rewrite !Z2Nat.id, !Z.add_0_l, Z.max_r, Z.max_l in E by lia. rewrite E. clear E.
  destruct (Nat.eqb_spec (Z.to_nat t) 0); [lia|]. unfold ends, stage2 in *. destruct torn.
  - destruct He as (Hlt & Etorn & Hnext). replace (Z.to_nat (P - t)) with (S (Z.to_nat (P - t - 1))) by lia. cbn [scan_pages].
    destruct (read_tag (set_chip h c) (page_at r (t - 1)) b t Hb Hbr ltac:(lia)) as (c2 & d & o & rr & E & Hq2 & Hc).
    rewrite E. cbn [set_chip chip] in Hc, Hq2. rewrite (quiet_pg _ _ b t Hq), Etorn in Hc. cbn [oob_at] in Hc. rewrite Hc. cbn [negb].
    destruct Hnext as [Hend|Hblank].
    + replace (Z.to_nat (P - t - 1)) with 0%nat by lia. cbn [scan_pages]. exists c2. split; [by transitivity c|]. done.
    + destruct (Z.eq_dec (t + 1) P) as [Hend|Hne].
      { replace (Z.to_nat (P - t - 1)) with 0%nat by lia. cbn [scan_pages]. exists c2. split; [by transitivity c|]. done. }
      replace (Z.to_nat (P - t - 1)) with (S (Z.to_nat (P - t - 2))) by lia. cbn [scan_pages].
      match goal with |- context [scan_pages mtd _ _ ?x _ _ _] => set (r1 := x) | _ => idtac end.
      match goal with |- context [_read_oob (chip ?h1) (u64 (phy_blk_addr (valid_node ?r1) * _ + _)) 0 8] =>
        destruct (read_tag h1 r1 b (t + 1) Hb Hbr ltac:(lia)) as (c3 & d3 & o3 & rr3 & E3 & Hq3 & Hc3) end.
      rewrite E3. cbn [set_chip chip] in Hc3, Hq3. rewrite (quiet_pg _ _ b _ Hq2), (quiet_pg _ _ b _ Hq), Hblank in Hc3. cbn [oob_at] in Hc3.
      destruct Hc3 as [-> Eo]. cbn [negb]. unfold same_name. rewrite Eo, bool_decide_false by (rewrite oob_of_blank; auto).
      exists c3. split; [by transitivity c; [|transitivity c2]|]. done.
  - destruct (Z.eq_dec t P) as [->|Hne].
    + rewrite Z.sub_diag. cbn [Z.to_nat scan_pages]. exists c. done.
    + pose proof (He t ltac:(lia)) as Hblank. replace (Z.to_nat (P - t)) with (S (Z.to_nat (P - t - 1))) by lia. cbn [scan_pages].
      destruct (read_tag (set_chip h c) (page_at r (t - 1)) b t Hb Hbr ltac:(lia)) as (c2 & d & o & rr & E & Hq2 & Hc).
      rewrite E. cbn [set_chip chip] in Hc, Hq2. rewrite (quiet_pg _ _ b t Hq), Hblank in Hc. cbn [oob_at] in Hc.
      destruct Hc as [-> Eo]. cbn [negb]. unfold same_name. rewrite Eo, bool_decide_false by (rewrite oob_of_blank; auto).
      exists c2. split; [by transitivity c|]. done.
Qed.

(** ** The last complete record *)

Lemma record_ok_marks k : forall t base i, 0 <= t <= 256 -> 0 <= base + i -> base + i + Z.of_nat k <= 256 ->
  record_ok k (marks t) base i = Done (bool_decide (k = 0%nat \/ base + i + Z.of_nat k <= t)).
Proof.
  induction k as [|k IH]; intros t base i Ht Hb Hk; cbn [record_ok].
  { rewrite bool_decide_true by auto. done. }
  rewrite marks_rdn by lia. cbn [obind]. destruct (Z.ltb_spec (i + base) t).
  - rewrite bool_decide_false by done. rewrite IH by lia. f_equal. apply bool_decide_ext. lia.
  - rewrite bool_decide_true by done. rewrite bool_decide_false by lia. done.
Qed.

Lemma find_record_ok k : forall r t i ret, 0 <= t <= P -> 0 <= i -> (i + Z.of_nat k) * n <= P ->
  t / n <= i + Z.of_nat k ->
  find_record k r (marks t) n i ret =
  Done (if i <? t / n then (page_at r (t / n * n - 1), 0) else (r, ret)).
Proof using Hg.
  pose proof (g_n _ _ _ _ Hg) as Hn. pose proof (g_P256 _ _ _ _ Hg) as HP.
  induction k as [|k IH]; intros r t i ret Ht Hi Hk Hlast; cbn [find_record].
  { rewrite (proj2 (Z.ltb_ge _ _)) by lia. done. }
  assert (Hin : (i + 1) * n <= P) by nia.
  rewrite record_ok_marks by nia. cbn [obind].
  assert (Hcmp : (Z.to_nat n = 0%nat \/ i * n + 0 + Z.of_nat (Z.to_nat n) <= t) <-> i < t / n).
  { rewrite Z2Nat.id by lia. split.
    - intros [|Hle]; [lia|]. assert (i + 1 <= t / n) by (apply Z.div_le_lower_bound; lia). lia.
    - intros Hlt. right. assert (t / n * n <= t) by (rewrite Z.mul_comm; apply Z.mul_div_le; lia). nia. }
  destruct (Z.ltb_spec i (t / n)) as [Hlt|Hge].
  - rewrite bool_decide_true by (by apply Hcmp). rewrite IH by lia.
    destruct (Z.ltb_spec (i + 1) (t / n)) as [|]; [done|].
    do 2 f_equal. unfold page_at. f_equal. f_equal. nia.
  - rewrite bool_decide_false by (rewrite Hcmp; lia). rewrite IH by lia. rewrite (proj2 (Z.ltb_ge _ _)) by lia. done.
Qed.

Lemma groups : P / n * n = P.
Proof using Hg. pose proof (g_n _ _ _ _ Hg). destruct (g_div _ _ _ _ Hg) as [k ->]. rewrite Z.div_mul by lia. done. Qed.

(** ** What a scan finds *)

(** The area after a scan: the record [g] of block [v] is current, every other
    block that could be read is free. *)
Record found c0 h0 r0 (v T g : Z) h r : Prop := {
  fo_quiet : quiet c0 (chip h);
  fo_area : same_area r0 r;
  fo_nodes : nodes_ok h;
  fo_cnt : nrsv_cnt h = nrsv_cnt h0;
  fo_owns : owns h (free_list r);
  fo_frame : framed h0 h [];
  fo_clear : clear_cnt h0 = (clear_cnt h + length (free_list r))%nat;
  fo_fb : NoDup (blk_of h <$> free_list r);
  fo_in b : b ∈ blk_of h <$> free_list r -> b ∈ blocks r0 /\ b <> v;
  fo_kept b : b ∈ blocks r0 -> pg c0 b 0 <> Torn -> b = v \/ b ∈ blk_of h <$> free_list r;
  fo_valid : r_valid r = 1;
  fo_blk : phy_blk_addr (valid_node r) = v;
  fo_page : phy_page_addr (valid_node r) = g * n;
  fo_stamp : timestamp (valid_node r) = T;
}.

(** The newest block has [t] tagged pages. *)
Record tagged c r (v T t : Z) (torn : bool) : Prop := {
  ta_in : v ∈ blocks r;
  ta_new : newest c r v T;
  ta_len : 1 <= t <= P;
  ta_tag j : 0 <= j < t -> tag (r_name r) (pg c v j) = Some T;
  ta_ends : ends c v t torn;
}.

(** Moving within the current block, with any status. *)
Lemma seen_found c0 h0 r0 v T h r g st : seen c0 h0 r0 v T (blocks r0) h r -> v ∈ blocks r0 -> 0 <= v ->
  found c0 h0 r0 v T g h (set_valid_node r (VNode (v_ec (valid_node r)) (phy_blk_addr (valid_node r)) (g * n) (timestamp (valid_node r)) st)).
Proof.
  intros [] Hv Hpos. destruct (se_top0 Hv) as [Ev ET].
  split; cbn [set_valid_node valid_node free_list r_valid phy_blk_addr phy_page_addr v_status timestamp]; try done.
  - intros b Hb. destruct (se_in0 b Hb). split; congruence.
  - intros b Hb Ht. destruct (se_kept0 b Hb Ht); [left; congruence|by right].
  - destruct se_val0 as [[? _]|[_ ?]]; [lia|done].
Qed.

Lemma seen_chip c0 h0 r0 v T done h r c : seen c0 h0 r0 v T done h r -> quiet (chip h) c -> seen c0 h0 r0 v T done (set_chip h c) r.
Proof. intros [] Hq. split; try done. by transitivity (chip h). Qed.

(** The flags for a torn page and for [m] pages of an incomplete record. *)
Definition flags (torn : bool) (m : Z) : Z :=
  (if torn then ECC_ABNORMAL_FLAG else 0) .| (if m =? 0 then 0 else POWER_ABNORMAL_FLAG).

(** The two stages before the last. *)
Lemma scan_enter fuel h r v T t torn m ret :
  area_ok r -> unscanned r -> r_size r = size -> nodes_ok h -> (length (blocks r) <= clear_cnt h)%nat ->
  tagged (chip h) r v T t torn -> 0 <= m <= t ->
  exists h1 r1 st, seen (chip h) h r v T (blocks r) h1 r1 /\ st = flags torn 0 /\
    scan_ext mtd (S fuel) h r (marks m) ret =
    scan_end mtd (fun h r => scan_ext mtd fuel h r (marks t) (-1)) h1
      (set_valid_node r1 (VNode (v_ec (valid_node r1)) (phy_blk_addr (valid_node r1)) (t - 1) (timestamp (valid_node r1)) st))
      (marks t) P n (if torn then -1 else ret).
Proof using Hg Hok.
  intros Ha Hu Hsz Hn Hcl [Hv Hnew Ht Htag Hends] Hm.
  destruct (stage1 h r v T Ha Hu Hnew Hsz Hn Hcl) as (h1 & r1 & E1 & Hs).
  pose proof (blocks_range r v Ha Hv) as Hvr. destruct (se_top _ _ _ _ _ _ _ _ Hs Hv) as [Ev ET].
  pose proof (se_area _ _ _ _ _ _ _ _ Hs) as (_ & _ & Esz & En). pose proof (se_quiet _ _ _ _ _ _ _ _ Hs) as Hq.
  pose proof (g_P256 _ _ _ _ Hg) as HP.
  assert (Hval : r_valid r1 = 1) by (destruct (se_val _ _ _ _ _ _ _ _ Hs) as [[? _]|[_ ?]]; [lia|done]).
  pose proof (se_page _ _ _ _ _ _ _ _ Hs) as Epg. pose proof (se_status _ _ _ _ _ _ _ _ Hs) as Est.
  destruct (scan_pages_ok h1 r1 v t torn m ret) as (c & Hqc & E2); try (done || lia).
  { rewrite En. apply (a_name_ff _ Ha). }
  { intros j Hj. exists T. rewrite En, (quiet_pg _ _ v j Hq). by apply Htag. }
  { unfold ends in *. destruct torn; [by rewrite !(quiet_pg _ _ v _ Hq)|]. intros j Hj. rewrite (quiet_pg _ _ v _ Hq). by apply Hends. }
  exists (set_chip h1 c), r1, (if torn then s16 (0 .| ECC_ABNORMAL_FLAG) else 0).
  split; [by apply seen_chip|]. split; [by destruct torn|].
  cbn [scan_ext]. rewrite E1. cbn [obind truthy Z.eqb negb]. rewrite (g_P _ _ _ _ Hg), Esz, Hsz, (g_num _ _ _ _ Hg), Hval.
  cbn [Z.eqb Pos.eqb]. rewrite E2. cbn [obind]. f_equal.
  unfold stage2, page_at, set_page, set_status. destruct torn; cbn; rewrite Est, s16_small by lia; done.
Qed.

Lemma ceil_pages : writesize mtd < size -> (size + writesize mtd - 1) / writesize mtd = n.
Proof using Hg.
  intros Hlt. pose proof (g_ws _ _ _ _ Hg) as Hw. destruct (g_size _ _ _ _ Hg) as [[_ ->]|[? _]]; [|lia].
  replace (n * writesize mtd + writesize mtd - 1) with ((writesize mtd - 1) + n * writesize mtd) by lia.
  rewrite Z.div_add by lia. rewrite Z.div_small by lia. lia.
Qed.

Lemma scan_settled fuel h r v T t torn m ret :
  area_ok r -> unscanned r -> r_size r = size -> nodes_ok h -> (length (blocks r) <= clear_cnt h)%nat ->
  tagged (chip h) r v T t torn -> n <= t -> 0 <= m <= t -> ret = 0 \/ (ret = -1 /\ writesize mtd < size) ->
  exists h' r' ret', scan_ext mtd (S fuel) h r (marks m) ret = Done (h', r', ret') /\
    found (chip h) h r v T (t / n - 1) h' r' /\ (ret' = 0 \/ (torn = true /\ size <= writesize mtd)) /\
    v_status (valid_node r') = flags torn (t mod n).
Proof using Hg Hok.
  intros Ha Hu Hsz Hn Hcl Htagged Htn Hm Hret.
  destruct (scan_enter fuel h r v T t torn m ret Ha Hu Hsz Hn Hcl Htagged Hm) as (h1 & r1 & st & Hs & Hst & ->).
  destruct Htagged as [Hv Hnew Ht Htag Hends]. pose proof (blocks_range r v Ha Hv) as Hvr.
  pose proof (se_area _ _ _ _ _ _ _ _ Hs) as (_ & _ & Esz & En). destruct (se_top _ _ _ _ _ _ _ _ Hs Hv) as [Ev ET].
  pose proof (g_n _ _ _ _ Hg) as Hn0. pose proof (g_P256 _ _ _ _ Hg) as HP. rewrite Hsz in Esz.
  assert (Hval : r_valid r1 = 1) by (destruct (se_val _ _ _ _ _ _ _ _ Hs) as [[? _]|[_ ?]]; [lia|done]).
  assert (Htdiv : t / n * n <= t /\ t mod n = t - t / n * n /\ 1 <= t / n /\ n <= t / n * n).
  { pose proof (Z.div_mod t n). pose proof (Z.mod_pos_bound t n). assert (1 <= t / n) by (apply Z.div_le_lower_bound; lia). nia. }
  assert (Hfin : forall x, found (chip h) h r v T (t / n - 1) h1
    (set_valid_node r1 (VNode (v_ec (valid_node r1)) (phy_blk_addr (valid_node r1)) ((t / n - 1) * n) (timestamp (valid_node r1)) x)))
    by (intros x; apply seen_found; done || lia).
  assert (Hfind : forall x, find_record (Z.to_nat (P / n)) x (marks t) n 0 (-1) = Done (page_at x (t / n * n - 1), 0)).
  { intros x. rewrite find_record_ok by (rewrite ?Z2Nat.id by (apply Z.div_pos; lia); rewrite ?Z.add_0_l, ?groups; try lia; apply Z.div_le_mono; lia).
    by rewrite (proj2 (Z.ltb_lt 0 _)) by lia. }
  unfold scan_end. cbn [set_valid_node r_size r_valid valid_node phy_page_addr]. rewrite Esz, Hval. cbn [Z.eqb Pos.eqb negb].
  destruct (Z.ltb_spec (writesize mtd) size) as [Hlt|Hge]; cbn [andb].
  - replace (t - 1 + 1) with t by lia. destruct (Z.eqb_spec (t mod n) 0) as [Ed|Ed]; cbn [negb].
    + destruct (Z.eqb_spec (if torn then -1 else ret) (-1)) as [Er|Er].
      * rewrite Er, Hfind. cbn [obind Z.eqb page_at set_valid_node r_size]. rewrite Esz, ceil_pages by done.
        do 3 eexists. split; [cbn [r_valid set_valid_node page_at]; rewrite ?Hval; reflexivity|].
        unfold set_page. cbn. rewrite (s16_small (t / n * n - 1)), (s16_small (t / n * n - 1 - (n - 1))) by lia.
        replace (t / n * n - 1 - (n - 1)) with ((t / n - 1) * n) by lia. split; [apply Hfin|]. split; [by left|]. by rewrite Ed.
      * cbn [obind]. rewrite (proj2 (Z.eqb_neq _ _)) by done. cbn [set_valid_node r_size]. rewrite Esz, ceil_pages by done.
        do 3 eexists. split; [cbn [r_valid set_valid_node page_at]; rewrite ?Hval; reflexivity|].
        unfold set_page. cbn. rewrite s16_small by lia.
        replace (t - 1 - (n - 1)) with ((t / n - 1) * n) by lia. split; [apply Hfin|]. split; [|by rewrite Ed].
        left. destruct torn; [done|]. destruct Hret as [|[-> _]]; done.
    + rewrite Hfind. cbn [obind Z.eqb Pos.eqb page_at set_valid_node r_size]. rewrite Esz, ceil_pages by done.
      do 3 eexists. split; [cbn [r_valid set_valid_node page_at]; rewrite ?Hval; reflexivity|].
      unfold set_page, set_status. cbn. rewrite (s16_small (t / n * n - 1)), (s16_small (t / n * n - 1 - (n - 1))) by lia.
      replace (t / n * n - 1 - (n - 1)) with ((t / n - 1) * n) by lia. split; [apply Hfin|]. split; [by left|].
      unfold flags. rewrite (proj2 (Z.eqb_neq _ _) Ed). rewrite Hst. by destruct torn.
  - destruct (g_size _ _ _ _ Hg) as [[? _]|[_ En1]]; [lia|]. do 3 eexists. split; [cbn [r_valid set_valid_node]; rewrite ?Hval; reflexivity|].
    rewrite En1 in *. rewrite Z.div_1_r, Z.mul_1_r in *. split; [|split; [|by rewrite Z.mod_1_r]].
    + pose proof (seen_found _ _ _ _ _ _ _ (t - 1) st Hs Hv ltac:(lia)) as Hf. by rewrite En1, Z.mul_1_r in Hf.
    + destruct torn; [by right|left]. destruct Hret as [|[_ ?]]; [done|lia].
Qed.

(** ** A record that was cut short at the start of its block *)

(** After an erase of block [b] that succeeded or not. *)
Record erased (ok : bool) c c' (b : Z) : Prop := {
  er_other x j : x <> b -> 0 <= j < P -> pg c' x j = pg c x j;
  er_bad x : bad c' x = bad c x;
  er_in j : 0 <= j < P -> if ok then pg c' b j = Blank else half_erased (pg c b j) (pg c' b j);
}.

Lemma inside_block b x j : 0 <= j < P -> b * P <= x * P + j < (b + 1) * P -> x = b.
Proof. intros Hj Hx. nia. Qed.

Lemma erase_at_ok h b : 0 <= b ->
  exists c ret, erase_at mtd h (b * erasesize mtd) = (Handler c (freenodebitmask h) (free_node h) (nrsv_cnt h) 1, ret) /\
    erased (negb (truthy ret)) (chip h) c b /\ (healthy (chip h) -> ret = 0 /\ healthy c).
Proof using Hg Hok.
  intros Hb. unfold erase_at. cbn [_aml_rsv_disprotect chip]. destruct (_erase (chip h) _ _) as [c ret] eqn:E. exists c, ret.
  split; [done|]. destruct (erase_law _ _ _ _ Hb E) as (H1 & H2 & H3 & H4). rewrite ppb in H1, H3. split; [|done].
  split; [|done|].
  - intros x j Hx Hj. apply H1. intros Hin. apply Hx. by eapply inside_block.
  - intros j Hj. specialize (H3 (b * P + j) ltac:(lia)). by destruct (truthy ret).
Qed.

Lemma tagged_stamp c r v T t torn : tagged c r v T t torn -> tag (r_name r) (pg c v 0) = Some T.
Proof. intros [_ _ Ht Htag _]. apply Htag. lia. Qed.

Lemma framed_trans (h1 h2 h3 : handler_t C) : framed h1 h2 [] -> framed h2 h3 [] -> framed h1 h3 [].
Proof.
  intros F1 F2 i Hi Hn. destruct (F1 i Hi Hn) as [Hu E]. destruct (F2 i Hu Hn) as [Hu' E']. split; [done|congruence].
Qed.

(** The newest block [b] has no complete record: it is erased, and the scan
    finds the block [v] that was the newest before. *)
Lemma scan_half fuel h r b T' m torn' v T t torn :
  area_ok r -> unscanned r -> r_size r = size -> nodes_ok h -> (length (blocks r) <= clear_cnt h)%nat -> healthy (chip h) ->
  tagged (chip h) r b T' m torn' -> m < n ->
  v ∈ blocks r -> v <> b -> n <= t <= P -> (forall j, 0 <= j < t -> tag (r_name r) (pg (chip h) v j) = Some T) ->
  ends (chip h) v t torn ->
  (forall x j y, x ∈ blocks r -> x <> b -> x <> v -> 0 <= j < P -> tag (r_name r) (pg (chip h) x j) = Some y -> y < T) ->
  exists h' r' c2, scan_ext mtd (S (S fuel)) h r (marks 0) 0 = Done (h', r', 0) /\
    erased true (chip h) c2 b /\ found c2 h r v T (t / n - 1) h' r' /\ healthy c2 /\
    v_status (valid_node r') = flags torn (t mod n).
Proof using Hg Hok.
  intros Ha Hu Hsz Hn Hcl Hh Hb Hm Hv Hvb Ht Htag Hends Hold.
  destruct (scan_enter (S fuel) h r b T' m torn' 0 0 Ha Hu Hsz Hn Hcl Hb) as (h1 & r1 & st & Hs & _ & ->); [destruct Hb; lia|].
  destruct Hb as [Hbin _ Hmlen _ _]. pose proof (blocks_range r b Ha Hbin) as Hbr. pose proof (blocks_range r v Ha Hv) as Hvr.
  pose proof (se_area _ _ _ _ _ _ _ _ Hs) as (Es & Ee & Esz & En). destruct (se_top _ _ _ _ _ _ _ _ Hs Hbin) as [Eb ET].
  pose proof (g_n _ _ _ _ Hg) as Hn0. pose proof (g_P256 _ _ _ _ Hg) as HP.
  assert (Hval : r_valid r1 = 1) by (destruct (se_val _ _ _ _ _ _ _ _ Hs) as [[? _]|[_ ?]]; [lia|done]).
  assert (Hlt : writesize mtd < size) by (destruct (g_size _ _ _ _ Hg) as [[? _]|[_ ?]]; lia).
  unfold scan_end. cbn [set_valid_node r_size r_valid valid_node phy_page_addr]. rewrite Esz, Hsz, Hval. cbn [Z.eqb Pos.eqb negb].
  rewrite (proj2 (Z.ltb_lt _ _) Hlt). cbn [andb]. replace (m - 1 + 1) with m by lia. rewrite (Z.mod_small m n) by lia.
  rewrite (proj2 (Z.eqb_neq m 0)) by lia. cbn [negb Z.eqb Pos.eqb].
  rewrite find_record_ok by (rewrite ?Z2Nat.id by (apply Z.div_pos; lia); rewrite ?Z.add_0_l, ?groups; try lia; apply Z.div_le_mono; lia).
  rewrite (Z.div_small m n) by lia. cbn [obind Z.ltb Z.compare Z.eqb Pos.eqb].
  unfold meson_free_rsv_info. cbn [set_valid_node set_status r_valid valid_node phy_blk_addr]. rewrite Hval, Eb. cbn [truthy Z.eqb negb].
  destruct (erase_at_ok h1 b ltac:(lia)) as (c2 & ret & -> & Her & Hhe).
  pose proof (se_quiet _ _ _ _ _ _ _ _ Hs) as Hq. destruct (Hhe (q_healthy _ _ Hq Hh)) as [-> Hh2]. cbn [truthy Z.eqb negb] in Her.
  cbn [set_valid set_valid_node free_list].
  set (h1' := Handler c2 _ _ _ _).
  destruct (release_all_ok (free_list r1) h1' (se_nodes _ _ _ _ _ _ _ _ Hs) (se_owns _ _ _ _ _ _ _ _ Hs)) as (h2 & -> & N2 & C2 & Ch2 & Cl2 & F2).
  cbn [obind]. set (r2 := set_free_list _ _). cbn [h1' chip] in Ch2. cbn [h1' nrsv_cnt] in C2.
  assert (Hcl1 : clear_cnt h1' = clear_cnt h1) by done.
  assert (Hframe : framed h h2 []).
  { intros i Hi Hno. destruct (se_frame _ _ _ _ _ _ _ _ Hs i Hi Hno) as [Hu1 E1]. destruct (F2 i Hu1) as [Hu2 E2].
    - intros Hin. by apply (se_fresh _ _ _ _ _ _ _ _ Hs i Hin).
    - split; [done|]. cbn [h1' free_node] in E2. congruence. }
  assert (Har : same_area r r2) by (by split).
  assert (Hpg : forall x j, x <> b -> 0 <= j < P -> pg c2 x j = pg (chip h) x j).
  { intros x j Hx Hj. rewrite (er_other _ _ _ _ Her x j Hx Hj). by apply quiet_pg. }
  assert (Hu2 : unscanned r2) by (by split).
  assert (Ht2 : tagged (chip h2) r2 v T t torn).
  { assert (En2 : r_name r2 = r_name r) by exact En. rewrite Ch2. split; rewrite ?(blocks_same _ _ Har), ?En2; try done; [|lia|..].
    - split; rewrite ?(blocks_same _ _ Har), ?En2.
      + intros _. rewrite Hpg by (done || lia). apply Htag. lia.
      + intros x j y Hx Hxv Hj Hy.
        destruct (decide (x = b)) as [->|Hxb]; [by rewrite (er_in _ _ _ _ Her j Hj) in Hy|].
        rewrite Hpg in Hy by done. by apply (Hold x j y).
    - intros j Hj. rewrite Hpg by (done || lia). by apply Htag.
    - unfold ends in *. destruct torn.
      + destruct Hends as (Hlt' & Et & Hnx). split; [done|]. rewrite Hpg by (done || lia). split; [done|].
        destruct Hnx as [|Eb2]; [by left|]. destruct (Z.eq_dec (t + 1) P); [by left|right]. rewrite Hpg by (done || lia). done.
      + intros j Hj. rewrite Hpg by (done || lia). apply Hends. lia. }
  destruct (scan_settled fuel h2 r2 v T t torn m (-1)) as (h' & r' & ret' & E' & Hf & Hret & Est'); try done; try lia.
  - destruct Ha as [A1 A2 A3 A4 A5]. split; rewrite ?(blocks_same _ _ Har); cbn [r2 set_free_list start_block end_block r_name]; try done.
    + change (0 <= start_block r1 < end_block r1). by rewrite Es, Ee.
    + change (end_block r1 < 2 ^ 15 - 4). by rewrite Ee.
    + change (length (r_name r1) = 4%nat). by rewrite En.
    + change (r_name r1 <> [255; 255; 255; 255]). by rewrite En.
  - change (r_size r1 = size). congruence.
  - rewrite (blocks_same _ _ Har). pose proof (se_clear _ _ _ _ _ _ _ _ Hs). lia.
  - destruct Hret as [->|[_ ?]]; [|lia]. exists h', r', c2. split; [exact E'|]. rewrite Ch2 in Hf. split; [|split; [|split; done]].
    + split; [|intros x; by rewrite (er_bad _ _ _ _ Her), (q_bad _ _ Hq)|exact (er_in _ _ _ _ Her)]. exact Hpg.
    + destruct Hf. rewrite (blocks_same _ _ Har) in fo_in0, fo_kept0. split; try done.
      * destruct fo_area0 as (? & ? & ? & ?). destruct Har as (? & ? & ? & ?). repeat split; congruence.
      * rewrite fo_cnt0, C2. apply (se_cnt _ _ _ _ _ _ _ _ Hs).
      * by eapply framed_trans.
      * pose proof (se_clear _ _ _ _ _ _ _ _ Hs). lia.
Qed.
End Scan.
End RsvScan.
