(* ===== verification/RsvSave.v ===== *)
(** * Saving to and reading from a reserved area

    The invariant of an area in use ([live]) and what saving does on every
    path: the record goes behind the last one or to the next good free block,
    and what a failure or a loss of power leaves of it on the chip. *)

From S2P Require Import Prelude Mem KeyTlv KeyStore KeyIf Rsv RsvChip RsvScan.
From stdpp Require Import base numbers list.
From Stdlib Require Import ZArith Lia.

Local Open Scope Z_scope.
Local Open Scope cint_scope.

Module RsvSave.
Import Rsv RsvChip RsvScan.

Section Save.
Context {C : Type} `{Hok : NandOk C mtd} (P n size : Z) (Hg : geometry mtd P n size).
Implicit Types (h : handler_t C) (r : meson_rsv_info_t) (c : C).
Abbreviation pg := (pg (mtd := mtd) P).
Abbreviation quiet := (quiet (mtd := mtd)).
Abbreviation erased := (erased (mtd := mtd) P).

(** The bytes of page [k] of a record. *)
Definition page_len (k : Z) : Z := Z.min (writesize mtd) (size - k * writesize mtd).
Definition chunk (img : list Z) (k : Z) : list Z :=
  take (Z.to_nat (page_len k)) (drop (Z.to_nat (k * writesize mtd)) img).

(** Record [g] of block [b] holds [img]. *)
Definition record c (nm : list Z) (b g T : Z) (img : list Z) : Prop :=
  forall k, 0 <= k < n -> exists o, pg c b (g * n + k) = Prog (chunk img k) o /\ tag nm (pg c b (g * n + k)) = Some T.

Lemma sizes : 0 < writesize mtd /\ 0 < n /\ 0 < P <= 256 /\ n <= P /\ 0 < size /\ size <= erasesize mtd /\ erasesize mtd < 2 ^ 31 /\
  erasesize mtd = P * writesize mtd /\ (forall k, 0 <= k < n -> 0 < page_len k <= writesize mtd /\ k * writesize mtd + page_len k <= size) /\
  (forall k, 0 <= k < n -> k * writesize mtd + page_len k = if decide (k + 1 = n) then size else (k + 1) * writesize mtd).
Proof using Hg.
  pose proof (g_ws _ _ _ _ Hg). pose proof (g_n _ _ _ _ Hg). pose proof (g_P256 _ _ _ _ Hg). pose proof (g_es _ _ _ _ Hg).
  pose proof (g_es_max _ _ _ _ Hg). assert (n <= P) by (apply Z.divide_pos_le; [lia|apply (g_div _ _ _ _ Hg)]).
  assert (Hcase : (writesize mtd < size /\ size = n * writesize mtd) \/ (0 < size <= writesize mtd /\ n = 1)) by apply (g_size _ _ _ _ Hg).
  assert (0 < size) by nia. assert (size <= erasesize mtd) by nia. unfold page_len.
  repeat (split; [done|]). split; intros k Hk.
  - destruct Hcase as [[_ ->]|[? ->]]; nia.
  - destruct Hcase as [[_ ->]|[? ->]]; destruct (decide _); try nia.
Qed.

Lemma chunk_length img k : blen img = size -> 0 <= k < n -> blen (chunk img k) = page_len k.
Proof using Hg.
  intros Hl Hk. destruct sizes as (? & ? & ? & ? & ? & ? & ? & ? & Hp & _). destruct (Hp k Hk). unfold chunk.
  rewrite length_take, length_drop. nia.
Qed.

(** ** Writing the pages of a record *)

(** After [m] pages of the record at page [s] of block [b]: the page that
    follows may be torn. *)
Record wrote c c' (b s m : Z) (buf oob : list Z) : Prop := {
  wr_other x j : x <> b -> 0 <= j < P -> pg c' x j = pg c x j;
  wr_bad x : bad c' x = bad c x;
  wr_range : 0 <= m <= n;
  wr_before j : 0 <= j < s -> pg c' b j = pg c b j;
  wr_done k : 0 <= k < m -> pg c' b (s + k) = Prog (chunk buf k) oob;
  wr_next : m < n -> pg c' b (s + m) = Blank \/ pg c' b (s + m) = Torn;
  wr_after j : s + m < j < P -> pg c' b j = pg c b j;
  wr_full : m = n -> s + n < P -> pg c' b (s + n) = pg c b (s + n);
}.

Lemma write_pages_eq fuel h r buf oob offset length : write_pages mtd (S fuel) h r buf oob offset length =
  if length <? r_size r then
    let len := Z.min (writesize mtd) (u32 (r_size r - length)) in
    let* dat := rdn buf length len in
    let '(c, ret) := _write_oob (chip h) offset dat oob in
    if truthy ret then Done (set_chip h c, 1)
    else write_pages mtd fuel (set_chip h c) r buf oob (offset + writesize mtd) (length + len)
  else Done (h, 0).
Proof. reflexivity. Qed.

Lemma write_pages_ok fuel : forall h r buf oob b s k, n - k < Z.of_nat fuel -> k <= n -> 0 <= k -> 0 <= b -> 0 <= s -> s + n <= P ->
  r_size r = size -> blen buf = size -> (forall j, s + k <= j < s + n -> pg (chip h) b j = Blank) ->
  exists c' m ret, write_pages mtd fuel h r buf oob (b * erasesize mtd + (s + k) * writesize mtd)
      (if decide (k = n) then size else k * writesize mtd) = Done (set_chip h c', ret) /\
    (ret = 0 \/ ret = 1) /\ k <= m <= n /\ (ret = 0 -> m = n) /\
    (forall x j, x <> b -> 0 <= j < P -> pg c' x j = pg (chip h) x j) /\ (forall x, bad c' x = bad (chip h) x) /\
    (forall j, 0 <= j < s + k -> pg c' b j = pg (chip h) b j) /\
    (forall i, k <= i < m -> pg c' b (s + i) = Prog (chunk buf i) oob) /\
    (m < n -> pg c' b (s + m) = Blank \/ pg c' b (s + m) = Torn) /\
    (forall j, s + m < j < P -> pg c' b j = pg (chip h) b j) /\
    (m = n -> s + n < P -> pg c' b (s + n) = pg (chip h) b (s + n)).
Proof using Hg Hok.
  destruct sizes as (Hw & Hn & HP & HnP & Hs0 & Hse & Hem & Hes & Hlen & Hnext).
  induction fuel as [|fuel IH]; intros h r buf oob b s k Hf Hkn Hk Hb Hs HsP Hsz Hbl Hblank; [lia|]. rewrite write_pages_eq, Hsz. cbv zeta.
  destruct (decide (k = n)) as [->|Hne0].
  - rewrite Z.ltb_irrefl. exists (chip h), n, 0. rewrite set_chip_id.
    split; [done|]. split; [by left|]. split; [lia|]. repeat split; intros; try done; lia.
  - destruct (Hlen k ltac:(lia)) as [Hpl Hple]. specialize (Hnext k ltac:(lia)).
    rewrite (proj2 (Z.ltb_lt _ _)) by lia. rewrite u32_small by lia. fold (page_len k).
    rewrite rdn_Done by lia. cbn [obind]. fold (chunk buf k).
    destruct (_write_oob (chip h) _ (chunk buf k) oob) as [c1 rw] eqn:E.
    destruct (offset_page P n size Hg b (s + k)) as [Eoff Emod].
    assert (Hoff : 0 <= b * erasesize mtd + (s + k) * writesize mtd) by nia.
    destruct (write_law _ _ _ _ _ _ Hoff Emod E) as (L1 & L2 & L3). rewrite Eoff in L1, L3.
    assert (Hself : page (chip h) (b * P + (s + k)) = Blank) by (apply (Hblank (s + k)); lia). specialize (L3 Hself).
    assert (Lother : forall x j, 0 <= j < P -> (x, j) <> (b, s + k) -> pg c1 x j = pg (chip h) x j).
    { intros x j Hj Hne. apply L1. intros Heq. apply Hne. assert (x = b) by nia. subst. f_equal. lia. }
    unfold truthy in L3 |- *. destruct (Z.eqb_spec rw 0) as [->|Hne]; cbn [negb] in L3 |- *.
    + replace (b * erasesize mtd + (s + k) * writesize mtd + writesize mtd) with (b * erasesize mtd + (s + (k + 1)) * writesize mtd) by ring.
      rewrite Hnext. destruct (IH (set_chip h c1) r buf oob b s (k + 1)) as (c2 & m & ret & E2 & Hret & Hm & H0 & O2 & B2 & P2 & D2 & N2 & A2 & F2);
        try (done || lia).
      { intros j Hj. cbn [set_chip chip]. rewrite Lother; [apply Hblank; lia|lia|]. intros [= ?]; lia. }
      rewrite E2. cbn [set_chip chip] in *. exists c2, m, ret. split; [done|]. split; [done|]. split; [lia|]. split; [done|].
      split. { intros x j Hx Hj. rewrite O2 by done. apply Lother; [done|]. by intros [= ? ?]. }
      split. { intros x. by rewrite B2, L2. }
      split. { intros j Hj. rewrite P2 by lia. apply Lother; [lia|]. intros [= ?]; lia. }
      split. { intros i Hi. destruct (Z.eq_dec i k) as [->|]; [rewrite P2 by lia; exact L3|apply D2; lia]. }
      split; [done|]. split.
      { intros j Hj. rewrite A2 by lia. apply Lother; [lia|]. intros [= ?]; lia. }
      intros Hmn Hlt. rewrite F2 by done. apply Lother; [lia|]. intros [= ?]; lia.
    + assert (Hm' : (exists m, k <= m <= n /\ m <= k + 1 /\ (forall i, k <= i < m -> pg c1 b (s + i) = Prog (chunk buf i) oob) /\
                   (m < n -> pg c1 b (s + m) = Blank \/ pg c1 b (s + m) = Torn))).
      { destruct L3 as [L3|[L3|L3]].
        - exists k. split; [lia|]. split; [lia|]. split; [lia|]. intros _. left. exact L3.
        - exists k. split; [lia|]. split; [lia|]. split; [lia|]. intros _. right. exact L3.
        - exists (k + 1). split; [lia|]. split; [lia|]. split.
          + intros i Hi. assert (i = k) as -> by lia. exact L3.
          + intros Hlt. left. rewrite Lother; [apply Hblank; lia|lia|]. intros [= ?]; lia. }
      destruct Hm' as (m & Hm & Hmk & Hd & Hnx). exists c1, m, 1. split; [done|]. split; [by right|]. split; [lia|]. split; [lia|].
      split. { intros x j Hx Hj. apply Lother; [done|]. by intros [= ? ?]. }
      split; [done|]. split. { intros j Hj. apply Lother; [lia|]. intros [= ?]; lia. }
      split; [done|]. split; [done|]. split.
      { intros j Hj. apply Lother; [lia|]. intros [= ?]; lia. }
      intros -> Hlt. apply Lother; [lia|]. intros [= ?]; lia.
Qed.

Definition oob_of_node r (junk : Z) : list Z :=
  oob_bytes (Oob (r_name r) (v_ec (valid_node r)) (timestamp (valid_node r)) junk).

Lemma rsv_write_ok h r junk buf b s : phy_blk_addr (valid_node r) = b -> phy_page_addr (valid_node r) = s ->
  0 <= b -> 0 <= s -> s + n <= P -> r_size r = size -> blen buf = size ->
  (forall j, s <= j < s + n -> pg (chip h) b j = Blank) ->
  exists c' m ret, meson_rsv_write mtd h r junk buf = Done (set_chip h c', ret) /\
    wrote (chip h) c' b s m buf (oob_of_node r junk) /\ (ret = 0 -> m = n) /\ (ret = 0 \/ ret = 1).
Proof using Hg Hok.
  intros Hb Hs Hb0 Hs0 HsP Hsz Hbl Hblank. destruct sizes as (Hw & Hn & HP & HnP & Hsz0 & Hse & Hem & Hes & _ & _).
  assert (Hfuel : n - 0 < Z.of_nat (page_turns mtd r)).
  { unfold page_turns. rewrite Hsz. assert (n <= size / writesize mtd + 1); [|assert (0 <= size / writesize mtd) by (apply Z.div_pos; lia); lia].
    destruct (g_size _ _ _ _ Hg) as [[_ Es]|[? ->]]; [rewrite Es, Z.div_mul by lia; lia|].
    assert (0 <= size / writesize mtd) by (apply Z.div_pos; lia). lia. }
  destruct (write_pages_ok (page_turns mtd r) h r buf (oob_of_node r junk) b s 0 Hfuel) as
    (c' & m & ret & E & Hret & Hm & H0 & O & B & Pb & D & N & A & F); try (done || lia).
  { intros j Hj. apply Hblank. lia. }
  exists c', m, ret. split; [|split; [|done]].
  - unfold meson_rsv_write, node_offset. rewrite Hb, Hs. rewrite Z.add_0_r in E. rewrite <- E. f_equal.
    destruct (decide (0 = n)); [lia|done].
  - split; try done. intros j Hj. apply Pb. lia.
Qed.

(** ** Taking the next block *)

(** The pool of the handler and the free list of the area; [h0] is the handler
    to compare with. *)
Record pool h0 r0 h r : Prop := {
  po_area : same_area r0 r;
  po_nodes : nodes_ok h;
  po_cnt : nrsv_cnt h = nrsv_cnt h0;
  po_owns : owns h (free_list r);
  po_clear : clear_cnt h = clear_cnt h0;
  po_frame : framed h0 h (free_list r0);
  po_sub i : i ∈ free_list r -> i ∈ free_list r0 \/ ~ used h0 i;
}.

Lemma owns_perm h l l' : l ≡ₚ l' -> owns h l -> owns h l'.
Proof. intros Hp [? ?]. split; by rewrite <- Hp. Qed.

(** The node [f] is added for the current block, the first node taken: the
    free blocks move up. *)
Lemma take_block h0 r0 h r x y l ec page0 ecv :
  pool h0 r0 h r -> (0 < clear_cnt h)%nat -> - 2 ^ 15 <= x < 2 ^ 15 -> blk_of h <$> free_list r = y :: l ->
  exists f h1, get_free_node h = (h1, Some f) /\ exists h2 h3 r3,
    fill_node h1 f ec x = Done h2 /\
    next_block h2 (set_free_list (set_valid_node r (VNode ecv x page0 (timestamp (valid_node r)) (v_status (valid_node r)))) (free_list r ++ [f])) = Done (h3, r3) /\
    chip h3 = chip h /\ pool h0 r0 h3 r3 /\ blk_of h3 <$> free_list r3 = l ++ [x] /\ r_valid r3 = r_valid r /\
    phy_blk_addr (valid_node r3) = y /\ phy_page_addr (valid_node r3) = 0 /\
    timestamp (valid_node r3) = s32 (timestamp (valid_node r) + 1) /\ v_status (valid_node r3) = v_status (valid_node r).
Proof.
  intros [Har Hn Hc Ho Hcl Hf Hsub] Hpos Hx Hl. destruct (add_node h ec x Hn Hpos Hx) as (f & h1 & E1 & (h2 & E2 & Had) & _).
  exists f, h1. split; [done|]. destruct (free_list r) as [|t fl] eqn:Efl; [done|]. cbn in Hl. injection Hl as Ey El.
  pose proof (added_owns _ _ _ _ _ Had Ho) as Ho2. pose proof (added_blks _ _ _ _ _ Had Ho) as Eb2.
  assert (Ht2 : (t < Z.to_nat (nrsv_cnt h2))%nat /\ used h2 t) by (destruct Ho2 as [_ Ho2]; by apply Forall_cons in Ho2 as [? _]).
  destruct (release_ok h2 t (ad_nodes _ _ _ _ Had) (proj1 Ht2) (proj2 Ht2)) as (h3 & E3 & N3 & C3 & Ch3 & Cl3 & F3 & U3).
  assert (Ho3 : owns h3 (fl ++ [f])) by (eapply owns_frame; [exact Ho2|done|done]).
  assert (Hkeep : forall i, i ∈ fl ++ [f] -> free_node h3 !! i = free_node h2 !! i).
  { intros i Hi. destruct Ho2 as [Hnd Hu]. cbn in Hnd, Hu. apply NoDup_cons in Hnd as [Htn _]. apply Forall_cons in Hu as [_ Hu].
    rewrite Forall_forall in Hu. apply (F3 i); [by apply Hu|]. intros ->%list_elem_of_singleton. done. }
  assert (Htnd : exists nd, free_node h2 !! t = Some nd /\ f_blk nd = y).
  { assert (Hb : blk_of h2 t = y) by (cbn in Eb2; injection Eb2 as Eb _; congruence).
    destruct (ad_nodes _ _ _ _ Had t (proj1 Ht2)) as (nd & End & _). exists nd. split; [done|]. unfold blk_of in Hb. by rewrite End in Hb. }
  destruct Htnd as (nd & End & Eblk).
  exists h2, h3. eexists. split; [done|]. split.
  { unfold next_block. cbn [set_free_list set_valid_node free_list valid_node app]. rewrite End, E3. cbn [obind]. reflexivity. }
  cbn [set_free_list set_valid_node free_list valid_node r_valid phy_blk_addr phy_page_addr timestamp v_status].
  split; [rewrite Ch3; apply (ad_chip _ _ _ _ Had)|]. split.
  - destruct Had as [A1 A2 A3 [A4 A4'] A5 A6 A7 A8]. split; cbn [set_free_list set_valid_node free_list]; try done.
    + congruence.
    + lia.
    + intros i Hi Hni. destruct (Hf i Hi Hni) as [Hu Ei].
      assert (Hif : i <> f) by (intros ->; done).
      assert (Hit : i <> t).
      { intros ->. destruct (Hsub t ltac:(by left)) as [|Hnu]; done. }
      destruct (F3 i) as [Hu3 Ei3]; [apply A5; by right|by intros ->%list_elem_of_singleton|]. split; [done|].
      rewrite Ei3, A7 by done. done.
    + intros i [Hi| ->%list_elem_of_singleton]%elem_of_app; [apply Hsub; by right|].
      destruct (decide (f ∈ free_list r0)) as [|Hnf]; [by left|right]. intros Hu. apply A4'. by apply (Hf f Hu).
  - split; [|done]. transitivity (blk_of h2 <$> (fl ++ [f])).
    + apply list_fmap_ext. intros k i Hi. unfold blk_of. rewrite Hkeep; [done|]. by eapply list_elem_of_lookup_2.
    + cbn in Eb2. injection Eb2 as _ Eb2. congruence.
Qed.

(** The pool does not see the chip. *)
Lemma pool_chip h0 r0 h r c p r' : pool h0 r0 h r -> same_area r r' -> free_list r' = free_list r ->
  pool h0 r0 (Handler c (freenodebitmask h) (free_node h) (nrsv_cnt h) p) r'.
Proof.
  intros [(A1 & A2 & A3 & A4)] (B1 & B2 & B3 & B4) Ef. split; rewrite ?Ef; try done. repeat split; congruence.
Qed.

Lemma pool_node h0 r0 h r r' : pool h0 r0 h r -> same_area r r' -> free_list r' = free_list r -> pool h0 r0 h r'.
Proof. destruct h. apply pool_chip. Qed.

(** One turn from RE_SEARCH, past the condition on the page. *)
Lemma re_search_turn h0 r0 fuel h r x y l p :
  pool h0 r0 h r -> (0 < clear_cnt h)%nat -> r_valid r = 1 -> phy_blk_addr (valid_node r) = x -> 0 <= x < 2 ^ 15 ->
  phy_page_addr (valid_node r) = p -> 0 <= p < P -> P < p + n + n -> blk_of h <$> free_list r = y :: l ->
  exists h1 r1, re_search mtd (S fuel) h r n P =
    (if truthy (_block_isbad (chip h1) (y * erasesize mtd)) then
       re_search mtd fuel h1 (set_valid_node r1 (set_page (valid_node r1) (P - n))) n P
     else
       let '(h2, ret) := erase_at mtd h1 (y * erasesize mtd) in
       if truthy ret then Done (set_chip h2 (_block_markbad (chip h2) (y * erasesize mtd)), r1, Some ret)
       else Done (h2, set_valid_node r1 (inc_ec (valid_node r1)), None)) /\
    chip h1 = chip h /\ pool h0 r0 h1 r1 /\ blk_of h1 <$> free_list r1 = l ++ [x] /\ r_valid r1 = 1 /\
    phy_blk_addr (valid_node r1) = y /\ phy_page_addr (valid_node r1) = 0 /\
    timestamp (valid_node r1) = s32 (timestamp (valid_node r) + 1) /\ v_status (valid_node r1) = v_status (valid_node r).
Proof using Hg.
  intros Hp Hc Hv Hx Hxr Hpg Hp0 Hpn Hl. destruct sizes as (Hw & Hn & HP & HnP & _).
  destruct (take_block h0 r0 h r x y l (v_ec (valid_node r)) (p + n) (v_ec (valid_node r)) Hp Hc ltac:(lia) Hl)
    as (f & h1 & E1 & h2 & h3 & r3 & E2 & E3 & Hch & Hp3 & Hl3 & Hv3 & Hb3 & Hg3 & Ht3 & Hs3).
  exists h3, r3. split; [|split; [done|]; split; [done|]; split; [done|]; split; [congruence|done]].
  assert (Esp : set_page (valid_node r) (p + n) = VNode (v_ec (valid_node r)) x (p + n) (timestamp (valid_node r)) (v_status (valid_node r)))
    by (unfold set_page; rewrite Hx, s16_small by lia; done).
  cbn [re_search]. rewrite Hv, Hpg. cbn [truthy Z.eqb negb]. rewrite Esp.
  cbn [set_valid_node valid_node phy_page_addr phy_blk_addr v_ec free_list].
  rewrite (proj2 (Z.ltb_lt _ _)) by lia. replace (p + n - n) with p by lia. rewrite (proj2 (Z.eqb_neq p P)) by lia.
  rewrite E1. cbn [set_valid_node valid_node phy_page_addr phy_blk_addr v_ec free_list]. rewrite E2. cbn [obind].
  change (set_valid_node (set_valid_node r ?a) ?b) with (set_valid_node r b). destruct (free_list r) as [|t fl] eqn:Ef; [done|].
  rewrite E3. cbn [obind]. unfold node_offset. rewrite Hb3, Hg3, Z.mul_0_l, Z.add_0_r. cbn [Z.eqb]. reflexivity.
Qed.

(** ** The search for a good block *)

(** The area moved to block [y], which was erased, or, with the result [ret],
    could not be. *)
Record moved h0 r0 h r (x y : Z) (others : list Z) (steps : Z) h' r' (ret : Z) : Prop := {
  mv_pool : pool h0 r0 h' r';
  mv_chip : exists c, erased (negb (truthy ret)) (chip h) c y /\
              chip h' = (if truthy ret then _block_markbad c (y * erasesize mtd) else c);
  mv_healthy : healthy (chip h) -> ret = 0;
  mv_fb : blk_of h' <$> free_list r' ≡ₚ x :: others;
  mv_valid : r_valid r' = 1;
  mv_blk : phy_blk_addr (valid_node r') = y;
  mv_page : phy_page_addr (valid_node r') = 0;
  mv_stamp : timestamp (valid_node r') = s32 (timestamp (valid_node r) + steps);
  mv_status : v_status (valid_node r') = v_status (valid_node r);
}.

Lemma s32_add a b : s32 (s32 a + b) = s32 (a + b).
Proof.
  unfold s32. replace ((a + 2 ^ 31) mod 2 ^ 32 - 2 ^ 31 + b + 2 ^ 31) with ((a + 2 ^ 31) mod 2 ^ 32 + b) by lia.
  rewrite Zplus_mod_idemp_l. f_equal. f_equal. lia.
Qed.

Lemma re_search_next h0 r0 bl : forall fuel h r x y rest p,
  pool h0 r0 h r -> (0 < clear_cnt h)%nat -> r_valid r = 1 -> phy_blk_addr (valid_node r) = x -> 0 <= x < 2 ^ 15 ->
  phy_page_addr (valid_node r) = p -> 0 <= p < P -> P < p + n + n ->
  blk_of h <$> free_list r = bl ++ y :: rest -> Forall (fun b => 0 <= b < 2 ^ 15 /\ bad (chip h) b = true) bl ->
  0 <= y -> bad (chip h) y = false -> (length bl < fuel)%nat ->
  exists h' r' ret, re_search mtd fuel h r n P = Done (h', r', if truthy ret then Some ret else None) /\
    moved h0 r0 h r x y (bl ++ rest) (Z.of_nat (S (length bl))) h' r' ret.
Proof using Hg Hok.
  destruct sizes as (Hw & Hn & HP & HnP & _).
  induction bl as [|b bl IH]; intros fuel h r x y rest p Hp Hc Hv Hx Hxr Hpg Hp0 Hpn Hl Hbad Hy Hgood Hf;
    (destruct fuel as [|fuel]; [cbn in Hf; lia|]).
  - destruct (re_search_turn h0 r0 fuel h r x y rest p Hp Hc Hv Hx Hxr Hpg Hp0 Hpn Hl)
      as (h1 & r1 & -> & Hch & Hp1 & Hl1 & Hv1 & Hb1 & Hg1 & Ht1 & Hs1).
    rewrite Hch. rewrite (isbad_law (mtd := mtd)) by done. rewrite Hgood.
    destruct (erase_at_ok P n size Hg h1 y Hy) as (c & ret & -> & Her & Hh). rewrite Hch in Her, Hh.
    destruct (truthy ret) eqn:Et; cbn [negb] in Her.
    + do 2 eexists. exists ret. rewrite Et. split; [reflexivity|]. split; try done; rewrite ?Et.
      * exact (pool_chip _ _ h1 r1 _ _ r1 Hp1 ltac:(by split) eq_refl).
      * cbn [negb]. exists c. done.
      * intros Hhe. destruct (Hh Hhe) as [-> _]. done.
      * cbn [app]. change (blk_of h1 <$> free_list r1 ≡ₚ x :: rest). rewrite Hl1. by rewrite Permutation_app_comm.
    + exists (Handler c (freenodebitmask h1) (free_node h1) (nrsv_cnt h1) 1), (set_valid_node r1 (inc_ec (valid_node r1))), ret.
      rewrite Et. split; [done|]. split; try done; rewrite ?Et.
      * by apply (pool_chip _ _ h1 r1).
      * cbn [negb]. exists c. done.
      * intros Hhe. by destruct (Hh Hhe) as [-> _].
      * cbn [app]. change (blk_of h1 <$> free_list r1 ≡ₚ x :: rest). rewrite Hl1. by rewrite Permutation_app_comm.
  - apply Forall_cons in Hbad as [[Hb0 Hbb] Hbad]. cbn [app] in Hl.
    destruct (re_search_turn h0 r0 fuel h r x b (bl ++ y :: rest) p Hp Hc Hv Hx Hxr Hpg Hp0 Hpn Hl)
      as (h1 & r1 & -> & Hch & Hp1 & Hl1 & Hv1 & Hb1 & Hg1 & Ht1 & Hs1).
    rewrite Hch. rewrite (isbad_law (mtd := mtd)) by lia. rewrite Hbb.
    set (r2 := set_valid_node r1 (set_page (valid_node r1) (P - n))).
    assert (Hclr : clear_cnt h1 = clear_cnt h) by (rewrite (po_clear _ _ _ _ Hp1), (po_clear _ _ _ _ Hp); done).
    destruct (IH fuel h1 r2 b y (rest ++ [x]) (P - n)) as (h' & r' & ret & E & Hm); try (done || lia).
    { by apply (pool_node h0 r0 h1 r1). }
    { cbn [r2 set_valid_node valid_node set_page phy_page_addr]. unfold set_page. cbn. apply s16_small. lia. }
    { change (free_list r2) with (free_list r1). rewrite Hl1, <- app_assoc. done. }
    { by rewrite Hch. }
    { by rewrite Hch. }
    { cbn in Hf. lia. }
    exists h', r', ret. split; [done|]. destruct Hm as [M1 M2 M3 M4 M5 M6 M7 M8 M9]. rewrite Hch in M2, M3. split; try done.
    + rewrite M4. cbn [app]. rewrite (app_assoc bl rest [x]), (Permutation_app_comm (bl ++ rest) [x]). cbn [app].
      by apply perm_swap.
    + rewrite M8. cbn [r2 set_valid_node valid_node]. unfold set_page. cbn [timestamp]. rewrite Ht1, s32_add. f_equal. cbn [length]. lia.
    + rewrite M9. exact Hs1.
Qed.

(** ** An area in use *)

Definition abnormal (st : Z) : bool := truthy (st .& POWER_ABNORMAL_FLAG) || truthy (st .& ECC_ABNORMAL_FLAG).

Definition goods c (l : list Z) : nat := length (filter (fun b => bad c b = false) l).

Abbreviation fb h r := (blk_of h <$> free_list r).
Abbreviation cur r := (phy_blk_addr (valid_node r)).

(** Record [g] of the current block is the content [img], with the stamp [T];
    the block has blank pages behind it; and there are good blocks to go on
    with, one more when the current block is to be given up. *)
Record live h r (g T : Z) (img : list Z) : Prop := {
  lv_area : area_ok r;
  lv_size : r_size r = size;
  lv_nodes : nodes_ok h;
  lv_spare : (0 < clear_cnt h)%nat;
  lv_owns : owns h (free_list r);
  lv_valid : r_valid r = 1;
  lv_in : cur r ∈ blocks r;
  lv_g : 0 <= g /\ (g + 1) * n <= P;
  lv_page : phy_page_addr (valid_node r) = g * n;
  lv_stamp : T = timestamp (valid_node r) mod 2 ^ 15;
  lv_rec : record (chip h) (r_name r) (cur r) g T img;
  lv_tail : abnormal (v_status (valid_node r)) = false -> forall j, (g + 1) * n <= j < P -> pg (chip h) (cur r) j = Blank;
  lv_nodup : NoDup (fb h r);
  lv_fb b : b ∈ fb h r -> b ∈ blocks r /\ b <> cur r;
  lv_good : ((if abnormal (v_status (valid_node r)) then 2 else 1) <= goods (chip h) (fb h r))%nat;
  lv_vgood : bad (chip h) (cur r) = false;
}.

Lemma goods_app c l l' : goods c (l ++ l') = (goods c l + goods c l')%nat.
Proof. unfold goods. by rewrite filter_app, length_app. Qed.

Lemma goods_perm c l l' : l ≡ₚ l' -> goods c l = goods c l'.
Proof. intros Hp. unfold goods. by rewrite Hp. Qed.

Lemma goods_ext c c' l : (forall b, b ∈ l -> bad c' b = bad c b) -> goods c' l = goods c l.
Proof.
  unfold goods. induction l as [|b l IH]; intros Hx; [done|]. rewrite !filter_cons. rewrite (Hx b) by (by left).
  assert (IH' := IH (fun x Hin => Hx x (list_elem_of_further _ _ _ Hin))). destruct (decide _); cbn; congruence.
Qed.

(** The first good block of a list. *)
Lemma first_good c l : (0 < goods c l)%nat -> exists bl y rest, l = bl ++ y :: rest /\ Forall (fun b => bad c b = true) bl /\ bad c y = false.
Proof.
  induction l as [|b l IH]; [cbn; lia|]. unfold goods. rewrite filter_cons. destruct (decide (bad c b = false)) as [Hb|Hb]; intros Hl.
  - exists [], b, l. split; [done|]. split; [by apply Forall_nil_2|done].
  - destruct (IH Hl) as (bl & y & rest & -> & Hbl & Hy). exists (b :: bl), y, rest. split; [done|]. split; [|done].
    apply Forall_cons. split; [by destruct (bad c b)|done].
Qed.

(** A block whose record may be torn is erased before the next is taken. *)
Definition abandon h r : handler_t C * meson_rsv_info_t :=
  let '(h1, ret) := erase_at mtd h (cur r * erasesize mtd) in
  (if truthy ret then set_chip h1 (_block_markbad (chip h1) (cur r * erasesize mtd)) else h1,
   set_valid_node r (inc_ec (set_page (valid_node r) (P - n)))).

Lemma re_search_abnormal fuel h r h1 r1 : nodes_ok h -> (0 < clear_cnt h)%nat -> r_valid r = 1 -> - 2 ^ 15 <= cur r < 2 ^ 15 ->
  phy_page_addr (valid_node r) = P -> abandon h r = (h1, r1) -> re_search mtd (S fuel) h r n P = re_search mtd (S fuel) h1 r1 n P.
Proof using Hg.
  intros Hn Hc Hv Hx Hpg E. destruct sizes as (Hw & Hn0 & HP & HnP & _).
  assert (Esp : set_page (valid_node r) (P + n) = VNode (v_ec (valid_node r)) (cur r) (P + n) (timestamp (valid_node r)) (v_status (valid_node r)))
    by (unfold set_page; rewrite s16_small by lia; done).
  unfold abandon in E. destruct (erase_at mtd h (cur r * erasesize mtd)) as [h' ret] eqn:Ee. injection E as <- <-.
  assert (Eh : nodes_ok h' /\ freenodebitmask h' = freenodebitmask h /\ nrsv_cnt h' = nrsv_cnt h).
  { unfold erase_at in Ee. destruct (_erase _ _ _) as [c1 r1]. by injection Ee as <- <-. }
  destruct Eh as (Hn' & Em & Ec). set (h1 := if truthy ret then _ else h').
  assert (Hn1 : nodes_ok h1) by (unfold h1; by destruct (truthy ret)).
  assert (Hc1 : (0 < clear_cnt h1)%nat) by (unfold h1, clear_cnt; destruct (truthy ret); cbn [set_chip freenodebitmask nrsv_cnt]; by rewrite Em, Ec).
  destruct (add_node h1 (s16 (v_ec (valid_node r) + 1)) (cur r) Hn1 Hc1 Hx) as (f & h2 & Eg & (h3 & Ef & _) & _).
  cbn [re_search set_valid_node r_valid valid_node]. rewrite Hv, Hpg. cbn [truthy Z.eqb negb]. rewrite Esp.
  cbn [phy_page_addr phy_blk_addr]. rewrite (proj2 (Z.ltb_lt P (P + n + n))) by lia. rewrite (proj2 (Z.eqb_eq (P + n - n) P)) by lia.
  rewrite Ee. fold h1. unfold inc_ec, set_page. cbn [phy_page_addr phy_blk_addr v_ec v_status timestamp].
  rewrite (s16_small (P - n)), (s16_small (P - n + n)) by lia.
  rewrite (proj2 (Z.ltb_lt P (P - n + n + n))) by lia. rewrite (proj2 (Z.eqb_neq (P - n + n - n) P)) by lia.
  rewrite Eg. cbn [phy_page_addr phy_blk_addr v_ec v_status timestamp set_valid_node free_list]. rewrite Ef. cbn [obind].
  destruct (free_list r) as [|t fl]; [done|].
  match goal with |- obind (obind (next_block h3 ?a) _) _ = obind (obind (next_block h3 ?b) _) _ => assert (Enb : next_block h3 a = next_block h3 b) end.
  { reflexivity. }
  rewrite Enb. reflexivity.
Qed.

(** ** What a save does *)

(** What is left of a save on the chip, when it started in a block that is
    not to be given up. *)
Inductive left_by h r (g T : Z) (buf : list Z) c' r' (ret : Z) : Prop :=
  | LeftSame m oob :
      (g + 2) * n <= P -> wrote (chip h) c' (cur r) ((g + 1) * n) m buf oob -> (forall d, tag (r_name r) (Prog d oob) = Some T) ->
      (ret = 0 -> m = n) -> cur r' = cur r -> phy_page_addr (valid_node r') = (g + 1) * n ->
      timestamp (valid_node r') = timestamp (valid_node r) -> left_by h r g T buf c' r' ret
  | LeftErase y :
      (g + 1) * n = P -> y ∈ fb h r -> ret <> 0 ->
      (forall x j, x <> y -> 0 <= j < P -> pg c' x j = pg (chip h) x j) ->
      (forall j, 0 <= j < P -> half_erased (pg (chip h) y j) (pg c' y j)) ->
      (forall x, x <> y -> bad c' x = bad (chip h) x) -> left_by h r g T buf c' r' ret
  | LeftMoved y c steps m oob :
      (g + 1) * n = P -> y ∈ fb h r -> bad (chip h) y = false -> 1 <= steps <= blen (free_list r) -> erased true (chip h) c y ->
      wrote c c' y 0 m buf oob ->
      (forall d, tag (r_name r) (Prog d oob) = Some (s32 (timestamp (valid_node r) + steps) mod 2 ^ 15)) ->
      (ret = 0 -> m = n) -> cur r' = y -> phy_page_addr (valid_node r') = 0 -> timestamp (valid_node r') = s32 (timestamp (valid_node r) + steps) ->
      left_by h r g T buf c' r' ret.

Lemma pool_refl h r : nodes_ok h -> owns h (free_list r) -> pool h r h r.
Proof. intros Hn Ho. split; try done. intros i Hi. by left. Qed.

Lemma tag_of_node r junk d : length (r_name r) = 4%nat ->
  tag (r_name r) (Prog d (oob_of_node r junk)) = Some (timestamp (valid_node r) mod 2 ^ 15).
Proof.
  intros Hn. destruct (oob_roundtrip (Oob (r_name r) (v_ec (valid_node r)) (timestamp (valid_node r)) junk) Hn) as (E1 & E2 & _).
  unfold tag, oob_of_node. rewrite E1, E2. cbn [o_name o_timestamp]. by rewrite bool_decide_true.
Qed.

(** The record that was written. *)
Lemma wrote_record c c' b g m buf oob nm T : wrote c c' b (g * n) m buf oob -> m = n -> (forall d, tag nm (Prog d oob) = Some T) ->
  record c' nm b g T buf.
Proof.
  intros [_ _ _ _ Hd _ _ _] -> Ht k Hk. exists oob. rewrite Hd by done. split; [done|]. apply Ht.
Qed.

(** The area after a write that succeeded. *)
Lemma live_after h r h1 r1 c' b g buf oob T :
  pool h r h1 r1 -> area_ok r -> r_size r = size -> (0 < clear_cnt h)%nat -> r_valid r1 = 1 -> cur r1 = b -> b ∈ blocks r ->
  phy_page_addr (valid_node r1) = g * n -> 0 <= g -> (g + 1) * n <= P -> T = timestamp (valid_node r1) mod 2 ^ 15 ->
  wrote (chip h1) c' b (g * n) n buf oob -> (forall d, tag (r_name r) (Prog d oob) = Some T) ->
  (forall j, (g + 1) * n <= j < P -> pg (chip h1) b j = Blank) ->
  NoDup (fb h1 r1) -> (forall x, x ∈ fb h1 r1 -> x ∈ blocks r /\ x <> b) -> (1 <= goods (chip h1) (fb h1 r1))%nat ->
  bad (chip h1) b = false ->
  live (set_chip h1 c') (set_valid_node (set_valid r1 1) (set_status (valid_node r1) 0)) g T buf.
Proof using Hg.
  intros Hp Ha Hsz Hc Hv Hb Hin Hpg Hg0 HgP HT Hw Ht Htail Hnd Hfb Hgood Hvg.
  destruct sizes as (_ & Hn0 & _). pose proof (po_area _ _ _ _ Hp) as (A1 & A2 & A3 & A4).
  assert (Har : same_area r (set_valid_node (set_valid r1 1) (set_status (valid_node r1) 0))) by (by split).
  split; cbn [set_valid_node set_valid set_status valid_node r_valid free_list phy_blk_addr phy_page_addr timestamp v_status set_chip chip];
    rewrite ?(blocks_same _ _ Har), ?Hb; try done.
  - destruct Ha as [B1 B2 B3 B4 B5]. split; rewrite ?(blocks_same _ _ Har); cbn; rewrite ?A1, ?A2, ?A4; done.
  - cbn. congruence.
  - exact (po_nodes _ _ _ _ Hp).
  - pose proof (po_clear _ _ _ _ Hp) as Hcl. unfold clear_cnt in *. cbn. lia.
  - exact (po_owns _ _ _ _ Hp).
  - cbn. rewrite A4. by apply (wrote_record _ _ _ _ _ _ _ _ _ Hw).
  - intros _ j Hj. destruct (Z.eq_dec j (g * n + n)) as [->|].
    + rewrite (wr_full _ _ _ _ _ _ _ Hw eq_refl) by lia. apply Htail. lia.
    + rewrite (wr_after _ _ _ _ _ _ _ Hw) by lia. apply Htail. lia.
  - cbn [abnormal]. change (1 <= goods c' (fb h1 r1))%nat. rewrite (goods_ext (chip h1)); [done|].
    intros x _. apply (wr_bad _ _ _ _ _ _ _ Hw).
  - rewrite (wr_bad _ _ _ _ _ _ _ Hw). done.
Qed.

(** The rest of a save, once the search is over. *)
Definition after_search h r (stop : option Z) (junk : Z) (buf : list Z) : outcome (handler_t C * meson_rsv_info_t * Z) :=
  match stop with
  | Some ret => Done (h, r, ret)
  | None =>
      let* (h, ret) := meson_rsv_write mtd h r junk buf in
      if truthy ret then Done (h, r, 1)
      else Done (h, set_valid_node (set_valid r 1) (set_status (valid_node (set_valid r 1)) 0), ret)
  end.

(** ... after moving to block [y] from the chip [cx]. *)
Lemma finish_move h r g T img hx rx y others steps h1 r1 ret0 junk buf :
  live h r g T img -> blen buf = size -> same_area r rx -> fb h r ≡ₚ y :: others -> bad (chip hx) y = false ->
  (forall x, x ∈ others -> bad (chip hx) x = bad (chip h) x) ->
  (1 <= goods (chip hx) (cur r :: others))%nat -> moved h r hx rx (cur r) y others steps h1 r1 ret0 ->
  exists h' r' ret, after_search h1 r1 (if truthy ret0 then Some ret0 else None) junk buf = Done (h', r', ret) /\
    pool h r h' r' /\ cur r' = y /\ phy_page_addr (valid_node r') = 0 /\ timestamp (valid_node r') = s32 (timestamp (valid_node rx) + steps) /\
    (ret = 0 -> live h' r' 0 (timestamp (valid_node r') mod 2 ^ 15) buf /\ v_status (valid_node r') = 0) /\
    (healthy (chip hx) -> ret0 = 0) /\
    ((ret0 <> 0 /\ ret = ret0 /\ exists c, erased false (chip hx) c y /\ chip h' = _block_markbad c (y * erasesize mtd)) \/
     (ret0 = 0 /\ exists c m oob, erased true (chip hx) c y /\ wrote c (chip h') y 0 m buf oob /\ (ret = 0 -> m = n) /\
        forall d, tag (r_name r) (Prog d oob) = Some (timestamp (valid_node r') mod 2 ^ 15))).
Proof using Hg Hok.
  intros Hl Hbl Har Hperm Hgy Hsame Hgood [Mp Mc Mh Mf Mv Mb Mg Mt Ms]. destruct sizes as (_ & Hn0 & HP & HnP & _).
  pose proof (lv_area _ _ _ _ _ Hl) as Ha. destruct Mc as (c & Her & Hch).
  assert (Hy : y ∈ blocks r /\ y <> cur r) by (apply (lv_fb _ _ _ _ _ Hl); rewrite Hperm; by left). destruct Hy as [Hyin Hyne].
  pose proof (blocks_range r y Ha Hyin) as Hyr. unfold after_search, truthy in *. destruct (Z.eqb_spec ret0 0) as [->|Hne]; cbn [negb] in *.
  - pose proof (po_area _ _ _ _ Mp) as (A1 & A2 & A3 & A4).
    assert (Hblank : forall j, 0 <= j < P -> pg (chip h1) y j = Blank) by (intros j Hj; rewrite Hch; by apply (er_in _ _ _ _ _ Her)).
    destruct (rsv_write_ok h1 r1 junk buf y 0 Mb Mg) as (c' & m & ret & -> & Hw & Hm & Hr); try (done || lia).
    { rewrite A3. apply (lv_size _ _ _ _ _ Hl). }
    { intros j Hj. apply Hblank. lia. }
    cbn [obind]. rewrite Hch in Hw.
    assert (Hname : length (r_name r1) = 4%nat) by (rewrite A4; apply (a_name _ Ha)).
    assert (Htag : forall d, tag (r_name r) (Prog d (oob_of_node r1 junk)) = Some (timestamp (valid_node r1) mod 2 ^ 15))
      by (intros d; rewrite <- A4; by apply tag_of_node).
    assert (Hpool : forall r', same_area r1 r' -> free_list r' = free_list r1 -> pool h r (set_chip h1 c') r')
      by (intros r' Hs Hf; destruct h1; by apply (pool_chip _ _ _ r1)).
    destruct Hr as [->| ->]; cbn [negb Z.eqb Pos.eqb].
    + do 3 eexists. split; [reflexivity|]. cbn [set_valid_node set_valid valid_node set_status phy_blk_addr timestamp].
      split; [by apply Hpool|]. split; [done|]. split; [done|]. split; [done|]. split.
      * intros _. split; [|done]. specialize (Hm eq_refl) as ->.
        apply (live_after h r h1 r1 c' y 0 buf (oob_of_node r1 junk)); rewrite ?Z.mul_0_l, ?Hch; try (done || lia).
        -- apply (lv_size _ _ _ _ _ Hl).
        -- apply (lv_spare _ _ _ _ _ Hl).
        -- intros j Hj. rewrite <- Hch. apply Hblank. lia.
        -- rewrite Mf. apply NoDup_cons. pose proof (lv_nodup _ _ _ _ _ Hl) as Hnd. rewrite Hperm in Hnd. apply NoDup_cons in Hnd as [_ Hnd].
           split; [|done]. intros Hx. destruct (lv_fb _ _ _ _ _ Hl (cur r)) as [_ ?]; [rewrite Hperm; by right|done].
        -- intros x. rewrite Mf. intros [->|Hx]%elem_of_cons; [split; [apply (lv_in _ _ _ _ _ Hl)|congruence]|].
           split; [apply (lv_fb _ _ _ _ _ Hl); rewrite Hperm; by right|]. intros ->.
           pose proof (lv_nodup _ _ _ _ _ Hl) as Hnd. rewrite Hperm in Hnd. by apply NoDup_cons in Hnd as [? _].
        -- rewrite (goods_perm _ _ _ Mf), (goods_ext (chip hx)); [done|]. intros x _. apply (er_bad _ _ _ _ _ Her).
        -- by rewrite (er_bad _ _ _ _ _ Her).
      * split; [done|]. right. split; [done|]. exists c, m, (oob_of_node r1 junk). done.
    + do 3 eexists. split; [reflexivity|]. split; [by apply Hpool|]. split; [done|]. split; [done|]. split; [done|]. split; [done|].
      split; [done|]. right. split; [done|]. exists c, m, (oob_of_node r1 junk). done.
  - do 3 eexists. split; [reflexivity|]. split; [done|]. split; [done|]. split; [done|]. split; [done|]. split; [done|]. split; [done|].
    left. split; [done|]. split; [done|]. exists c. done.
Qed.

Lemma pages_of_ok r : r_size r = size -> pages_of mtd r = n.
Proof using Hg.
  intros E. unfold pages_of. rewrite E. destruct (Z.ltb_spec (writesize mtd) size); [by apply (ceil_pages P n size Hg)|].
  destruct (g_size _ _ _ _ Hg) as [[? _]|[_ ?]]; lia.
Qed.

Lemma save_eq fuel h r junk buf : r_size r = size ->
  meson_rsv_save mtd fuel h r junk buf =
  let* (h, r, stop) := re_search mtd fuel h (if abnormal (v_status (valid_node r)) then set_valid_node r (set_page (valid_node r) P) else r) n P in
  after_search h r stop junk buf.
Proof using Hg.
  intros E. unfold meson_rsv_save. rewrite (ppb P n size Hg). fold (abnormal (v_status (valid_node r))).
  destruct (abnormal _); rewrite pages_of_ok by done; reflexivity.
Qed.

(** Giving up the current block. *)
Lemma abandon_ok h r g T img : live h r g T img ->
  exists h1 r1, abandon h (set_valid_node r (set_page (valid_node r) P)) = (h1, r1) /\ pool h r h1 r1 /\ fb h1 r1 = fb h r /\
    r_valid r1 = 1 /\ cur r1 = cur r /\ phy_page_addr (valid_node r1) = P - n /\ timestamp (valid_node r1) = timestamp (valid_node r) /\
    (forall x, x <> cur r -> bad (chip h1) x = bad (chip h) x) /\ (0 < clear_cnt h1)%nat.
Proof using Hg Hok.
  intros Hl. destruct sizes as (_ & Hn0 & HP & HnP & _). pose proof (lv_area _ _ _ _ _ Hl) as Ha.
  pose proof (blocks_range r _ Ha (lv_in _ _ _ _ _ Hl)) as Hr. unfold abandon. cbn [set_valid_node valid_node set_page phy_blk_addr].
  destruct (erase_at_ok P n size Hg h (cur r) ltac:(lia)) as (c & ret & -> & Her & _).
  pose proof (pool_refl h r (lv_nodes _ _ _ _ _ Hl) (lv_owns _ _ _ _ _ Hl)) as Hp.
  set (r1 := set_valid_node _ _). pose proof (markbad_law (mtd := mtd) c (cur r) ltac:(lia)) as (_ & Hmb & _).
  destruct (truthy ret).
  - do 2 eexists. split; [reflexivity|]. split; [by apply (pool_chip h r h r)|]. split; [done|].
    split; [exact (lv_valid _ _ _ _ _ Hl)|]. split; [done|]. split; [cbn; unfold set_page; cbn; apply s16_small; lia|]. split; [done|].
    split; [|exact (lv_spare _ _ _ _ _ Hl)]. intros x Hx. cbn [set_chip chip]. rewrite Hmb by done. apply (er_bad _ _ _ _ _ Her).
  - do 2 eexists. split; [reflexivity|]. split; [by apply (pool_chip h r h r)|]. split; [done|].
    split; [exact (lv_valid _ _ _ _ _ Hl)|]. split; [done|]. split; [cbn; unfold set_page; cbn; apply s16_small; lia|]. split; [done|].
    split; [|exact (lv_spare _ _ _ _ _ Hl)]. intros x _. apply (er_bad _ _ _ _ _ Her).
Qed.

(** A save from an area in use: it ends; when it reports success the area is
    in use with the new content; and otherwise this is what is left. *)
Lemma save_ok fuel h r g T img junk buf :
  live h r g T img -> blen buf = size -> (length (free_list r) < fuel)%nat ->
  exists h' r' ret, meson_rsv_save mtd fuel h r junk buf = Done (h', r', ret) /\ pool h r h' r' /\
    (ret = 0 -> (exists g' T', live h' r' g' T' buf) /\ v_status (valid_node r') = 0) /\
    (abnormal (v_status (valid_node r)) = false -> left_by h r g T buf (chip h') r' ret).
Proof using Hg Hok.
  intros Hl Hbl Hf. destruct sizes as (_ & Hn0 & HP & HnP & _). rewrite save_eq by apply (lv_size _ _ _ _ _ Hl).
  pose proof (lv_area _ _ _ _ _ Hl) as Ha. pose proof (blocks_range r _ Ha (lv_in _ _ _ _ _ Hl)) as Hr.
  pose proof (lv_good _ _ _ _ _ Hl) as Hgd. pose proof (lv_g _ _ _ _ _ Hl) as [Hg0 HgP].
  pose proof (pool_refl h r (lv_nodes _ _ _ _ _ Hl) (lv_owns _ _ _ _ _ Hl)) as Hp.
  destruct (first_good (chip h) (fb h r)) as (bl & y & rest & Efb & Hbl' & Hy); [destruct (abnormal _); lia|].
  assert (Hperm : fb h r ≡ₚ y :: bl ++ rest) by (rewrite Efb; by rewrite Permutation_middle).
  assert (Hgl : goods (chip h) (fb h r) = S (goods (chip h) (bl ++ rest))).
  { rewrite (goods_perm _ _ _ Hperm). unfold goods. rewrite filter_cons, decide_True by done. done. }
  assert (Hin : forall x, x ∈ y :: bl ++ rest -> x ∈ blocks r /\ x <> cur r) by (intros x Hx; apply (lv_fb _ _ _ _ _ Hl); by rewrite Hperm).
  assert (Hlen : (length (free_list r) = S (length (bl ++ rest)))%nat).
  { apply Permutation_length in Hperm. rewrite length_fmap in Hperm. cbn in Hperm. lia. }
  assert (Hyr : 0 <= y) by (destruct (blocks_range r y Ha); [apply Hin; by left|lia]).
  assert (Hblr : Forall (fun b => 0 <= b < 2 ^ 15 /\ bad (chip h) b = true) bl).
  { apply Forall_forall. intros b Hb. rewrite Forall_forall in Hbl'. split; [|by apply Hbl'].
    apply (blocks_range r b Ha). apply Hin. right. apply elem_of_app. by left. }
  rewrite length_app in Hlen. destruct (abnormal (v_status (valid_node r))) eqn:Eab.
  - destruct (abandon_ok h r g T img Hl) as (h1 & r1 & Eg & Hp1 & Hfb1 & Hv1 & Hc1 & Hpg1 & Ht1 & Hb1 & Hcl1).
    destruct fuel as [|fuel]; [lia|]. rewrite (re_search_abnormal fuel _ _ h1 r1); try done; cycle 1.
    { apply (lv_nodes _ _ _ _ _ Hl). } { apply (lv_spare _ _ _ _ _ Hl). } { apply (lv_valid _ _ _ _ _ Hl). }
    { cbn. lia. } { cbn. unfold set_page. cbn. apply s16_small. lia. }
    assert (Hb1' : forall x, x ∈ y :: bl ++ rest -> bad (chip h1) x = bad (chip h) x) by (intros x Hx; apply Hb1; by destruct (Hin x Hx)).
    destruct (re_search_next h r bl (S fuel) h1 r1 (cur r) y rest (P - n)) as (h2 & r2 & ret0 & -> & Hm); try (done || lia).
    { by rewrite Hfb1. }
    { apply Forall_forall. intros b Hb. rewrite Forall_forall in Hblr. destruct (Hblr b Hb). split; [done|]. rewrite Hb1'; [done|]. right. apply elem_of_app. by left. }
    { rewrite Hb1'; [done|by left]. }
    cbn [obind]. assert (Hgd1 : (goods (chip h1) (bl ++ rest) = goods (chip h) (bl ++ rest))%nat)
      by (apply goods_ext; intros x Hx; apply Hb1'; by right).
    destruct (finish_move h r g T img h1 r1 y (bl ++ rest) (Z.of_nat (S (length bl))) h2 r2 ret0 junk buf Hl Hbl (po_area _ _ _ _ Hp1) Hperm) as
      (h3 & r3 & ret & E & Hp3 & Hc3 & Hpg3 & Ht3 & H0 & _); try done.
    { rewrite Hb1'; [done|by left]. } { intros x Hx. apply Hb1'. by right. }
    { unfold goods in *. rewrite filter_cons. destruct (decide _); cbn [length]; lia. }
    exists h3, r3, ret. split; [done|]. split; [done|]. split; [|done]. intros Hr0. destruct (H0 Hr0). split; [|done]. eauto.
  - destruct (Z.le_gt_cases ((g + 2) * n) P) as [Hroom|Hfull].
    + set (r1 := set_valid_node r (set_page (valid_node r) ((g + 1) * n))).
      assert (Epg : phy_page_addr (valid_node r1) = (g + 1) * n) by (cbn; unfold set_page; cbn; apply s16_small; nia).
      assert (Es : re_search mtd fuel h r n P = Done (h, r1, None)).
      { destruct fuel as [|fuel]; [lia|]. cbn [re_search]. rewrite (lv_valid _ _ _ _ _ Hl), (lv_page _ _ _ _ _ Hl).
        cbn [truthy Z.eqb negb]. replace (g * n + n) with ((g + 1) * n) by lia. fold r1. change (set_page (valid_node r) ((g + 1) * n)) with (valid_node r1).
        rewrite Epg. rewrite (proj2 (Z.ltb_ge _ _)) by lia. cbn [obind]. rewrite Epg. rewrite (proj2 (Z.eqb_neq _ _)) by nia. done. }
      rewrite Es. cbn [obind after_search].
      assert (Hblank : forall j, (g + 1) * n <= j < P -> pg (chip h) (cur r) j = Blank) by (apply (lv_tail _ _ _ _ _ Hl Eab)).
      destruct (rsv_write_ok h r1 junk buf (cur r) ((g + 1) * n)) as (c' & m & ret & -> & Hw & Hm & Hr0); try (done || lia).
      { exact (lv_size _ _ _ _ _ Hl). } { intros j Hj. apply Hblank. lia. }
      cbn [obind].
      assert (Htag : forall d, tag (r_name r) (Prog d (oob_of_node r1 junk)) = Some T).
      { intros d. rewrite (lv_stamp _ _ _ _ _ Hl). apply (tag_of_node r1). apply (a_name _ Ha). }
      assert (Hp1 : pool h r h r1) by (by apply (pool_node _ _ h r)).
      destruct Hr0 as [->| ->]; cbn [truthy Z.eqb Pos.eqb negb].
      * specialize (Hm eq_refl) as Emn. rewrite Emn in Hw. do 3 eexists. split; [reflexivity|]. split; [destruct h; by apply (pool_chip _ _ _ r1)|].
        split.
        -- intros _. split; [|done]. exists (g + 1), T.
           apply (live_after h r h r1 c' (cur r) (g + 1) buf (oob_of_node r1 junk)); try (done || lia).
           ++ apply (lv_size _ _ _ _ _ Hl).
           ++ apply (lv_spare _ _ _ _ _ Hl).
           ++ apply (lv_valid _ _ _ _ _ Hl).
           ++ apply (lv_in _ _ _ _ _ Hl).
           ++ apply (lv_stamp _ _ _ _ _ Hl).
           ++ intros j Hj. apply Hblank. lia.
           ++ apply (lv_nodup _ _ _ _ _ Hl).
           ++ apply (lv_fb _ _ _ _ _ Hl).
           ++ apply (lv_vgood _ _ _ _ _ Hl).
        -- intros _. by eapply LeftSame.
      * do 3 eexists. split; [reflexivity|]. split; [destruct h; by apply (pool_chip _ _ _ r1)|]. split; [done|].
        intros _. by eapply LeftSame.
    + assert (Eend : (g + 1) * n = P).
      { destruct (g_div _ _ _ _ Hg) as [k Ek]. assert (g + 1 = k) by nia. lia. }
      destruct (re_search_next h r bl fuel h r (cur r) y rest (g * n)) as (h2 & r2 & ret0 & -> & Hm); try (done || lia).
      { apply (lv_spare _ _ _ _ _ Hl). } { apply (lv_valid _ _ _ _ _ Hl). } { apply (lv_page _ _ _ _ _ Hl). }
      cbn [obind].
      destruct (finish_move h r g T img h r y (bl ++ rest) (Z.of_nat (S (length bl))) h2 r2 ret0 junk buf Hl Hbl ltac:(by split) Hperm Hy) as
        (h3 & r3 & ret & E & Hp3 & Hc3 & Hpg3 & Ht3 & H0 & _ & Hcase); try done.
      { unfold goods in *. rewrite filter_cons, decide_True by apply (lv_vgood _ _ _ _ _ Hl). cbn [length]. lia. }
      exists h3, r3, ret. split; [done|]. split; [done|]. split; [intros Hr0; destruct (H0 Hr0); split; [eauto|done]|].
      intros _. assert (Hyin : y ∈ fb h r) by (rewrite Hperm; by left). destruct Hcase as [(Hne & -> & c & Her & Hch)|(-> & c & m & oob & Her & Hw & Hm' & Ht)].
      * pose proof (markbad_law (mtd := mtd) c y Hyr) as (Mo & Mb & Mi). apply (LeftErase _ _ _ _ _ _ _ _ y); try done.
        -- intros x j Hx Hj. rewrite Hch. transitivity (pg c x j); [|by apply (er_other _ _ _ _ _ Her)].
           apply Mo. rewrite (ppb P n size Hg). intros Hin'. apply Hx. by eapply inside_block.
        -- intros j Hj. pose proof (er_in _ _ _ _ _ Her j Hj) as He. cbn in He. rewrite Hch.
           destruct (Mi (y * P + j)) as [E1|E1]; [rewrite (ppb P n size Hg); lia| |].
           ++ unfold RsvScan.pg in *. by rewrite E1.
           ++ right. left. exact E1.
        -- intros x Hx. rewrite Hch, Mb by done. apply (er_bad _ _ _ _ _ Her).
      * eapply (LeftMoved _ _ _ _ _ _ _ _ y c (Z.of_nat (S (length bl))) m oob); try done; [lia|].
        intros d. rewrite Ht, Ht3. done.
Qed.
End Save.
End RsvSave.
