(* ===== verification/RsvCrash.v ===== *)
(** * Reading a reserved area, and loss of power

    What was saved is read back, in use and after a restart; a save is atomic
    under every failure and every loss of power, as long as the block it
    starts in is not one that has to be given up. *)

From S2P Require Import Prelude Mem KeyTlv KeyStore KeyIf Rsv RsvChip RsvScan RsvSave.
From stdpp Require Import base numbers list.
From Stdlib Require Import ZArith Lia.

Local Open Scope Z_scope.
Local Open Scope cint_scope.

Module RsvCrash.
Import Rsv RsvChip RsvScan RsvSave.

Section Crash.
Context {C : Type} `{Hok : NandOk C mtd} (P n size : Z) (Hg : geometry mtd P n size).
Implicit Types (h : handler_t C) (r : meson_rsv_info_t) (c : C).
Abbreviation pg := (pg (mtd := mtd) P).
Abbreviation quiet := (quiet (mtd := mtd)).
Abbreviation record := (record (mtd := mtd) P n size).
Abbreviation chunk := (chunk (mtd := mtd) size).
Abbreviation page_len := (page_len (mtd := mtd) size).
Abbreviation live := (live P n size).
Abbreviation fb h r := (blk_of h <$> free_list r).
Abbreviation cur r := (phy_blk_addr (valid_node r)).

(** ** Reading *)

Lemma chunk_take img k : 0 <= k < n -> take (Z.to_nat (k * writesize mtd)) img ++ chunk img k = take (Z.to_nat (k * writesize mtd + page_len k)) img.
Proof using Hg.
  intros Hk. destruct (sizes P n size Hg) as (Hw & _ & _ & _ & _ & _ & _ & _ & Hlen & _). destruct (Hlen k Hk).
  unfold RsvSave.chunk. rewrite Z2Nat.inj_add by nia. by rewrite take_take_drop.
Qed.

Lemma read_pages_ok fuel : forall sfuel h r g T img buf k ret0, n - k < Z.of_nat fuel -> 0 <= k <= n -> 0 <= cur r -> 0 <= g -> (g + 1) * n <= P ->
  r_size r = size -> record (chip h) (r_name r) (cur r) g T img -> blen img = size -> size <= blen buf -> readable ret0 = true ->
  exists c' ret, quiet (chip h) c' /\ readable ret = true /\
    read_pages mtd fuel sfuel h r
      (splice buf 0 (take (Z.to_nat (if decide (k = n) then size else k * writesize mtd)) img))
      (cur r * erasesize mtd + (g * n + k) * writesize mtd) (if decide (k = n) then size else k * writesize mtd) ret0 =
    Done (set_chip h c', r, splice buf 0 img, ret).
Proof using Hg Hok.
  destruct (sizes P n size Hg) as (Hw & Hn & HP & HnP & Hs0 & Hse & Hem & Hes & Hlen & Hnext).
  induction fuel as [|fuel IH]; intros sfuel h r g T img buf k ret0 Hf Hk Hb Hg0 HgP Hsz Hrec Hil Hbl Hr0; [lia|].
  cbn [read_pages]. rewrite Hsz. destruct (decide (k = n)) as [->|Hne].
  - rewrite Z.ltb_irrefl. exists (chip h), ret0. rewrite set_chip_id. split; [done|]. split; [done|]. by rewrite take_ge by lia.
  - destruct (Hlen k ltac:(lia)) as [Hpl Hple]. specialize (Hnext k ltac:(lia)).
    rewrite (proj2 (Z.ltb_lt _ _)) by lia. rewrite u32_small by lia. fold (page_len k).
    destruct (_read_oob (chip h) _ (page_len k) 8) as [[[c1 d] o] rr] eqn:E.
    destruct (offset_page P n size Hg (cur r) (g * n + k)) as [Eoff Emod].
    assert (Hoff : 0 <= cur r * erasesize mtd + (g * n + k) * writesize mtd) by nia.
    destruct (read_law (mtd := mtd) (chip h) _ (page_len k) _ _ _ _ Hoff ltac:(lia) E) as (L1 & L2 & L3 & L4 & L5). rewrite Eoff in L5.
    destruct (Hrec k ltac:(lia)) as (oo & Ep & _). unfold RsvScan.pg in Ep. rewrite Ep in L5.
    destruct L5 as (Hrd & _ & Hd). pose proof (chunk_length P n size Hg img k Hil ltac:(lia)) as Hcl. rewrite Hd in * by done.
    assert (Htl : blen (take (Z.to_nat (k * writesize mtd)) img) = k * writesize mtd) by (rewrite length_take; nia).
    rewrite wr_Done by (rewrite ?splice_length; lia). cbn [obind]. rewrite Hrd. cbn [negb].
    assert (Esp : splice (splice buf 0 (take (Z.to_nat (k * writesize mtd)) img)) (k * writesize mtd) (chunk img k) =
                  splice buf 0 (take (Z.to_nat (k * writesize mtd + page_len k)) img)).
    { rewrite <- Htl at 2. rewrite <- (Z.add_0_l (blen (take _ _))), splice_app by lia. by rewrite chunk_take by lia. }
    rewrite Esp, Hnext.
    replace (cur r * erasesize mtd + (g * n + k) * writesize mtd + writesize mtd) with (cur r * erasesize mtd + (g * n + (k + 1)) * writesize mtd) by ring.
    destruct (IH sfuel (set_chip h c1) r g T img buf (k + 1) rr) as (c2 & ret & Hq & Hrd2 & E2); try (done || lia).
    { intros i Hi. destruct (Hrec i Hi) as (oi & Ei & Ti). exists oi. unfold RsvScan.pg in *. cbn [set_chip chip]. by rewrite !L1. }
    exists c2, ret. split; [|split; [done|]].
    + transitivity c1; [by split|done].
    + rewrite E2. done.
Qed.

Lemma rsv_read_ok fuel sfuel h r g T img buf : n < Z.of_nat fuel -> 0 <= cur r -> 0 <= g -> (g + 1) * n <= P ->
  phy_page_addr (valid_node r) = g * n -> r_valid r = 1 ->
  r_size r = size -> record (chip h) (r_name r) (cur r) g T img -> blen img = size -> size <= blen buf ->
  exists c' ret, quiet (chip h) c' /\ readable ret = true /\
    meson_rsv_read mtd fuel sfuel h r buf = Done (set_chip h c', r, img ++ drop (Z.to_nat size) buf, ret).
Proof using Hg Hok.
  intros Hf Hb Hg0 HgP Hpg Hv Hsz Hrec Hil Hbl. destruct (sizes P n size Hg) as (Hw & Hn & HP & HnP & Hs0 & _).
  destruct (read_pages_ok fuel sfuel h r g T img buf 0 0) as (c' & ret & Hq & Hrd & E); try (done || lia).
  exists c', ret. split; [done|]. split; [done|]. unfold meson_rsv_read. rewrite Hv. cbn [truthy Z.eqb negb].
  rewrite decide_False in E by lia. rewrite Z.mul_0_l in E. cbn [take] in E. rewrite splice_nil in E by lia.
  unfold node_offset. rewrite Hpg. rewrite Z.add_0_r in E. rewrite E. do 4 f_equal. unfold splice. cbn [take app]. by rewrite Z.add_0_l, Hil.
Qed.

Lemma live_read fuel sfuel h r g T img buf : n < Z.of_nat fuel -> live h r g T img -> blen img = size -> size <= blen buf ->
  exists c' ret, quiet (chip h) c' /\ readable ret = true /\
    meson_rsv_read mtd fuel sfuel h r buf = Done (set_chip h c', r, img ++ drop (Z.to_nat size) buf, ret).
Proof using Hg Hok.
  intros Hf [] Hil Hbl. destruct lv_g0 as [Hg0 HgP]. pose proof (blocks_range r _ lv_area0 lv_in0).
  apply (rsv_read_ok fuel sfuel h r g T); done || lia.
Qed.

Lemma live_quiet h r g T img c' : live h r g T img -> quiet (chip h) c' -> live (set_chip h c') r g T img.
Proof.
  intros [] Hq. split; try done; cbn [set_chip chip].
  - intros k Hk. destruct (lv_rec0 k Hk) as (o & E1 & E2). exists o. unfold RsvScan.pg in *. by rewrite !(q_page _ _ Hq).
  - intros Ha j Hj. unfold RsvScan.pg. rewrite (q_page _ _ Hq). by apply lv_tail0.
  - change (fb (set_chip h c') r) with (fb h r). rewrite (goods_ext (mtd := mtd) (chip h)); [done|]. intros. apply (q_bad _ _ Hq).
  - by rewrite (q_bad _ _ Hq).
Qed.

(** ** What can be left on the chip *)

(** The stamps of the area in use: one in its block, older ones elsewhere. *)
Record ordered h r (g T : Z) : Prop := {
  or_stamp : timestamp (valid_node r) = T /\ 0 <= T < 2 ^ 15;
  or_tag j : 0 <= j < (g + 1) * n -> tag (r_name r) (pg (chip h) (cur r) j) = Some T;
  or_old b j t : b ∈ blocks r -> b <> cur r -> 0 <= j < P -> tag (r_name r) (pg (chip h) b j) = Some t -> t < T;
}.

(** The newest block has a complete record, the last of which is [now]. *)
Definition settled c r (now : list Z) : Prop :=
  exists v T t torn, tagged (mtd := mtd) P c r v T t torn /\ n <= t /\ record c (r_name r) v (t / n - 1) T now /\
    0 <= T < 2 ^ 15 /\ bad c v = false.

(** The newest block has none, and the one before it has. *)
Definition half c r (now : list Z) : Prop :=
  exists b T' m torn' v T t torn, tagged (mtd := mtd) P c r b T' m torn' /\ m < n /\ v ∈ blocks r /\ v <> b /\ n <= t <= P /\
    (forall j, 0 <= j < t -> tag (r_name r) (pg c v j) = Some T) /\ ends (mtd := mtd) P c v t torn /\
    (forall x j y, x ∈ blocks r -> x <> b -> x <> v -> 0 <= j < P -> tag (r_name r) (pg c x j) = Some y -> y < T) /\
    record c (r_name r) v (t / n - 1) T now /\ 0 <= T < 2 ^ 15 /\ bad c v = false.

(** A tail that ends [m] pages into a record. *)
Lemma ends_of c b t : t <= P -> (t < P -> pg c b t = Blank \/ pg c b t = Torn) -> (forall j, t < j < P -> pg c b j = Blank) ->
  exists torn, ends (mtd := mtd) P c b t torn.
Proof.
  intros Ht H1 H2. destruct (Z.eq_dec t P) as [->|]; [exists false; intros j Hj; lia|]. destruct (H1 ltac:(lia)) as [E|E].
  - exists false. intros j Hj. destruct (Z.eq_dec j t) as [->|]; [done|]. apply H2. lia.
  - exists true. split; [lia|]. split; [done|]. destruct (Z.eq_dec (t + 1) P); [by left|right]. apply H2. lia.
Qed.

Lemma record_same c c' nm b g T img : (forall k, 0 <= k < n -> pg c' b (g * n + k) = pg c b (g * n + k)) ->
  record c nm b g T img -> record c' nm b g T img.
Proof. intros Hs Hr k Hk. rewrite Hs by done. by apply Hr. Qed.

Lemma div_rec g m : 0 < n -> 0 <= m < n -> ((g + 1) * n + m) / n - 1 = g.
Proof. intros Hn Hm. rewrite Z.add_comm, Z.div_add by lia. rewrite Z.div_small by lia. lia. Qed.

Lemma left_same h r g T img buf c' m oob : live h r g T img -> ordered h r g T -> abnormal (v_status (valid_node r)) = false ->
  (g + 2) * n <= P -> wrote (mtd := mtd) P n size (chip h) c' (cur r) ((g + 1) * n) m buf oob ->
  (forall d, tag (r_name r) (Prog d oob) = Some T) ->
  settled c' r (if decide (m = n) then buf else img).
Proof using Hg.
  intros Hl [Hst Htag Hold] Hab HP [Wo Wb Wr Wbe Wd Wn Wa Wf] Ht. destruct (sizes P n size Hg) as (_ & Hn & HP0 & HnP & _).
  pose proof (lv_g _ _ _ _ _ _ _ _ Hl) as [Hg0 _]. pose proof (lv_tail _ _ _ _ _ _ _ _ Hl Hab) as Htail.
  assert (Hends : exists torn, ends (mtd := mtd) P c' (cur r) ((g + 1) * n + m) torn).
  { apply ends_of; [lia| |].
    - intros Hlt. destruct (Z.eq_dec m n) as [->|]; [left|apply Wn; lia]. rewrite Wf by lia. apply Htail. lia.
    - intros j Hj. rewrite Wa by lia. apply Htail. lia. }
  destruct Hends as [torn Hends]. exists (cur r), T, ((g + 1) * n + m), torn.
  assert (Htags : forall j, 0 <= j < (g + 1) * n + m -> tag (r_name r) (pg c' (cur r) j) = Some T).
  { intros j Hj. destruct (Z.lt_ge_cases j ((g + 1) * n)); [rewrite Wbe by lia; by apply Htag; lia|].
    replace j with ((g + 1) * n + (j - (g + 1) * n)) by lia. rewrite Wd by lia. apply Ht. }
  split; [split|split; [|split; [|split; [lia|rewrite Wb; apply (lv_vgood _ _ _ _ _ _ _ _ Hl)]]]].
  - apply (lv_in _ _ _ _ _ _ _ _ Hl).
  - split; [intros _; apply Htags; nia|]. intros b j t Hb Hne Hj. rewrite Wo by done. by apply Hold.
  - nia.
  - done.
  - done.
  - nia.
  - destruct (decide (m = n)) as [->|Hne].
    + replace ((g + 1) * n + n) with ((g + 2) * n) by lia. rewrite Z.div_mul by lia. replace (g + 2 - 1) with (g + 1) by lia.
      intros k Hk. exists oob. rewrite Wd by lia. split; [done|apply Ht].
    + rewrite div_rec by lia. eapply record_same; [|apply (lv_rec _ _ _ _ _ _ _ _ Hl)]. intros k Hk. apply Wbe. nia.
Qed.

(** The old block stays the newest. *)
Lemma left_old h r g T img c' y : live h r g T img -> ordered h r g T -> (g + 1) * n = P -> y ∈ fb h r ->
  (forall x j, x <> y -> 0 <= j < P -> pg c' x j = pg (chip h) x j) ->
  (forall j, 0 <= j < P -> half_erased (pg (chip h) y j) (pg c' y j)) ->
  (forall x, x <> y -> bad c' x = bad (chip h) x) -> settled c' r img.
Proof using Hg.
  intros Hl [Hst Htag Hold] HgP Hy Ho Hy' Hbad. destruct (sizes P n size Hg) as (_ & Hn & HP0 & HnP & _).
  destruct (lv_fb _ _ _ _ _ _ _ _ Hl y Hy) as [Hyin Hyne]. exists (cur r), T, P, false.
  split; [split|split; [|split; [|split; [lia|rewrite Hbad by done; apply (lv_vgood _ _ _ _ _ _ _ _ Hl)]]]].
  - apply (lv_in _ _ _ _ _ _ _ _ Hl).
  - split; [intros _; rewrite Ho by (done || lia); apply Htag; lia|]. intros b j t Hb Hne Hj. destruct (decide (b = y)) as [->|Hby].
    + destruct (Hy' j Hj) as [->|[->| ->]]; [by apply Hold|done|done].
    + rewrite Ho by done. by apply Hold.
  - lia.
  - intros j Hj. rewrite Ho by (done || lia). apply Htag. lia.
  - intros j Hj. lia.
  - lia.
  - assert (Eg : P / n - 1 = g) by (rewrite <- HgP, Z.div_mul; lia). rewrite Eg.
    eapply record_same; [|apply (lv_rec _ _ _ _ _ _ _ _ Hl)]. intros k Hk. apply Ho; [done|nia].
Qed.

Lemma left_moved h r g T img buf c c' y m oob T' : live h r g T img -> ordered h r g T -> (g + 1) * n = P -> y ∈ fb h r -> bad (chip h) y = false ->
  erased (mtd := mtd) P true (chip h) c y -> wrote (mtd := mtd) P n size c c' y 0 m buf oob -> T < T' < 2 ^ 15 ->
  (forall d, tag (r_name r) (Prog d oob) = Some T') ->
  if decide (m = n) then settled c' r buf else settled c' r img \/ half c' r img.
Proof using Hg.
  intros Hl [Hst Htag Hold] HgP Hy Hyg [Eo Eb Ei] [Wo Wb Wr Wbe Wd Wn Wa Wf] HT Ht. destruct (sizes P n size Hg) as (_ & Hn & HP0 & HnP & _).
  change (forall j, 0 <= j < P -> pg c y j = Blank) in Ei.
  change (forall k, 0 <= k < m -> pg c' y k = Prog (chunk buf k) oob) in Wd.
  change (m < n -> pg c' y m = Blank \/ pg c' y m = Torn) in Wn.
  change (forall j, m < j < P -> pg c' y j = pg c y j) in Wa.
  change (m = n -> n < P -> pg c' y n = pg c y n) in Wf.
  destruct (lv_fb _ _ _ _ _ _ _ _ Hl y Hy) as [Hyin Hyne].
  assert (Hoth : forall x j, x <> y -> 0 <= j < P -> pg c' x j = pg (chip h) x j) by (intros x j Hx Hj; rewrite Wo, Eo by done; done).
  assert (Hends : exists torn, ends (mtd := mtd) P c' y m torn).
  { apply ends_of; [lia| |].
    - intros Hlt. destruct (Z.eq_dec m n) as [->|]; [left; rewrite Wf by lia; apply Ei; lia|]. apply (Wn ltac:(lia)).
    - intros j Hj. rewrite Wa by lia. apply Ei. lia. }
  destruct Hends as [torn Hends].
  assert (Htags : forall j, 0 <= j < m -> tag (r_name r) (pg c' y j) = Some T').
  { intros j Hj. rewrite Wd by lia. apply Ht. }
  assert (Htagged : 1 <= m -> tagged (mtd := mtd) P c' r y T' m torn).
  { intros Hm. split; try done; [|lia]. split; [intros _; apply Htags; lia|]. intros b j t Hb Hne Hj. rewrite Hoth by done.
    destruct (decide (b = cur r)) as [->|Hbc].
    - rewrite Htag by lia. intros [= <-]. lia.
    - intros E. specialize (Hold b j t Hb Hbc Hj E). lia. }
  assert (Hrec : record c' (r_name r) (cur r) (P / n - 1) T img).
  { assert (Eg : P / n - 1 = g) by (rewrite <- HgP, Z.div_mul; lia). rewrite Eg.
    eapply record_same; [|apply (lv_rec _ _ _ _ _ _ _ _ Hl)]. intros k Hk. apply Hoth; [done|nia]. }
  destruct (decide (m = n)) as [->|Hmn]; [|destruct (Z.eq_dec m 0) as [->|Hm0]].
  - exists y, T', n, torn. split; [apply Htagged; lia|]. split; [done|]. rewrite Z.div_same by lia.
    split; [|split; [lia|by rewrite Wb, Eb]].
    intros k Hk. exists oob. rewrite Z.sub_diag, Z.mul_0_l. change (0 + k) with k. rewrite Wd by lia. split; [done|apply Ht].
  - left. apply (left_old h r g T img c' y); try done; [|intros x _; by rewrite Wb, Eb]. intros j Hj. destruct (Z.eq_dec j 0) as [->|].
    + destruct (Wn ltac:(lia)) as [E|E]; rewrite E; [right; by right|right; by left].
    + rewrite Wa by lia. rewrite Ei by lia. right. by right.
  - right. exists y, T', m, torn, (cur r), T, P, false. split; [apply Htagged; lia|]. split; [lia|]. split; [apply (lv_in _ _ _ _ _ _ _ _ Hl)|].
    split; [done|]. split; [lia|]. split; [intros j Hj; rewrite Hoth by (done || lia); apply Htag; lia|]. split; [intros j Hj; lia|]. split; [|split; [done|split; [lia|rewrite Wb, Eb; apply (lv_vgood _ _ _ _ _ _ _ _ Hl)]]].
    intros x j t Hx Hxy Hxc Hj. rewrite Hoth by done. by apply Hold.
Qed.

(** An area in use is settled. *)
Lemma live_settled h r g T img : live h r g T img -> ordered h r g T -> abnormal (v_status (valid_node r)) = false ->
  settled (chip h) r img.
Proof using Hg.
  intros Hl [Hst Htag Hold] Hab. destruct (sizes P n size Hg) as (_ & Hn & HP0 & HnP & _).
  pose proof (lv_g _ _ _ _ _ _ _ _ Hl) as [Hg0 HgP]. exists (cur r), T, ((g + 1) * n), false. split; [split|].
  - apply (lv_in _ _ _ _ _ _ _ _ Hl).
  - split; [intros _; apply Htag; nia|]. intros b j t. apply Hold.
  - nia.
  - done.
  - exact (lv_tail _ _ _ _ _ _ _ _ Hl Hab).
  - split; [nia|]. rewrite Z.div_mul by lia. replace (g + 1 - 1) with g by lia.
    split; [apply (lv_rec _ _ _ _ _ _ _ _ Hl)|]. split; [lia|]. apply (lv_vgood _ _ _ _ _ _ _ _ Hl).
Qed.

(** Moving on does not exhaust the stamps. *)
Definition stamps_left h r : Prop := timestamp (valid_node r) + blen (free_list r) < 2 ^ 15.

Lemma left_remains h r g T img buf c' r' ret : live h r g T img -> ordered h r g T -> abnormal (v_status (valid_node r)) = false ->
  stamps_left h r -> left_by (mtd := mtd) P n size h r g T buf c' r' ret ->
  (settled c' r img \/ half c' r img \/ settled c' r buf) /\ (ret = 0 -> settled c' r buf).
Proof using Hg.
  intros Hl Ho Hab Hst Hleft. destruct (or_stamp _ _ _ _ Ho) as [Et HT]. unfold stamps_left in Hst.
  destruct Hleft as [m oob HgP Hw Ht Hm _ _ _|y HgP Hy Hr Hoth Hy' Hbd|y c steps m oob HgP Hy Hyg Hs He Hw Ht Hm _ _ _].
  - pose proof (left_same _ _ _ _ _ _ _ _ _ Hl Ho Hab HgP Hw Ht) as H1. destruct (decide (m = n)) as [->|Hne]; [auto|].
    split; [by left|]. intros Hr. by specialize (Hm Hr).
  - split; [left|done]. by apply (left_old h r g T img c' y).
  - assert (Es : s32 (timestamp (valid_node r) + steps) mod 2 ^ 15 = T + steps) by (rewrite s32_small, Z.mod_small by lia; lia).
    rewrite Es in Ht. assert (Hlt : T < T + steps < 2 ^ 15) by lia. pose proof (left_moved _ _ _ _ _ _ _ _ _ _ _ _ Hl Ho HgP Hy Hyg He Hw Hlt Ht) as H1.
    destruct (decide (m = n)) as [->|Hne]; [auto|]. split; [tauto|]. intros Hr. by specialize (Hm Hr).
Qed.

(** The order of the stamps is kept. *)
Lemma left_ordered h r g T img buf h' r' g' T' : live h r g T img -> ordered h r g T -> abnormal (v_status (valid_node r)) = false ->
  stamps_left h r -> left_by (mtd := mtd) P n size h r g T buf (chip h') r' 0 -> same_area r r' -> live h' r' g' T' buf -> ordered h' r' g' T'.
Proof using Hg.
  intros Hl Ho Hab Hst Hleft Har Hl'. destruct (sizes P n size Hg) as (_ & Hn & HP0 & HnP & _).
  destruct (or_stamp _ _ _ _ Ho) as [Et HT]. unfold stamps_left in Hst. pose proof (lv_g _ _ _ _ _ _ _ _ Hl) as [Hg0 _].
  pose proof (lv_page _ _ _ _ _ _ _ _ Hl') as Epg. pose proof (lv_stamp _ _ _ _ _ _ _ _ Hl') as ET'.
  pose proof (blocks_same r r' Har) as Ebl. pose proof Har as (_ & _ & _ & En).
  destruct Hleft as [m oob HgP [Wo Wb Wr Wbe Wd Wn Wa Wf] Ht Hm Ec Ep Ets|y HgP Hy Hr Hoth Hy' _|y c steps m oob HgP Hy _ Hs [Eo Eb Ei] [Wo Wb Wr Wbe Wd Wn Wa Wf] Ht Hm Ec Ep Ets].
  - specialize (Hm eq_refl) as ->. assert (g' = g + 1) as -> by nia. rewrite Ets, <- (lv_stamp _ _ _ _ _ _ _ _ Hl) in ET'. subst T'.
    split; rewrite ?Ebl, ?En, ?Ec, ?Ets; try done.
    + intros j Hj. destruct (Z.lt_ge_cases j ((g + 1) * n)); [rewrite Wbe by lia; apply (or_tag _ _ _ _ Ho); lia|].
      replace j with ((g + 1) * n + (j - (g + 1) * n)) by lia. rewrite Wd by lia. apply Ht.
    + intros b j t Hb Hne Hj. rewrite Wo by done. by apply (or_old _ _ _ _ Ho).
  - done.
  - specialize (Hm eq_refl) as ->. assert (g' = 0) as -> by nia. rewrite Ets in ET'.
    rewrite s32_small in ET' by lia. rewrite Z.mod_small in ET' by lia. rewrite s32_small in Ets, Ht by lia. rewrite Z.mod_small in Ht by lia. subst T'.
    destruct (lv_fb _ _ _ _ _ _ _ _ Hl y Hy) as [Hyin Hyne].
    split; rewrite ?Ebl, ?En, ?Ec; [lia| |].
    + intros j Hj. change j with (0 + j). rewrite Wd by lia. apply Ht.
    + intros b j t Hb Hne Hj. rewrite Wo, Eo by done. destruct (decide (b = cur r)) as [->|Hbc].
      * rewrite (or_tag _ _ _ _ Ho) by lia. intros [= <-]. lia.
      * intros E. pose proof (or_old _ _ _ _ Ho b j t Hb Hbc Hj E). lia.
Qed.

(** ** Starting again *)

(** The machine was started again with the pages of [c]: [r2] is the area after
    initialisation, [h2] has enough free nodes, nothing fails. *)
Record restarted c r h2 r2 : Prop := {
  rs_page p : page (chip h2) p = page c p;
  rs_bad b : bad (chip h2) b = bad c b;
  rs_healthy : healthy (chip h2);
  rs_nodes : nodes_ok h2;
  rs_clear : (length (blocks r) < clear_cnt h2)%nat;
  rs_new : unscanned r2;
  rs_area : same_area r r2;
}.

Lemma area_ok_same r r2 : same_area r r2 -> area_ok r -> area_ok r2.
Proof.
  intros Hs [A1 A2 A3 A4 A5]. pose proof (blocks_same _ _ Hs) as Eb. destruct Hs as (E1 & E2 & E3 & E4).
  split; rewrite ?E1, ?E2, ?E4, ?Eb; done.
Qed.

(** The result of a scan after a restart: the record [now] is current. *)
Record scanned h2 r2 (now : list Z) (v T g : Z) h3 r3 : Prop := {
  sc_g : 0 <= g /\ (g + 1) * n <= P;
  sc_in : v ∈ blocks r2;
  sc_T : 0 <= T < 2 ^ 15;
  sc_found : exists c2, found (mtd := mtd) P n c2 h2 r2 v T g h3 r3 /\ (forall x, bad c2 x = bad (chip h2) x) /\
    (forall x, x ∈ blocks r2 -> pg (chip h2) x 0 <> Torn -> pg c2 x 0 <> Torn);
  sc_bad : bad (chip h3) v = false;
  sc_rec : record (chip h3) (r_name r2) v g T now;
  sc_tail : abnormal (v_status (valid_node r3)) = false -> forall j, (g + 1) * n <= j < P -> pg (chip h3) v j = Blank;
  sc_healthy : healthy (chip h3);
}.

Lemma flags_normal torn m : abnormal (flags torn m) = false -> torn = false /\ m = 0.
Proof. unfold flags. destruct torn, (Z.eqb_spec m 0); try discriminate. done. Qed.

Lemma settled_scan fuel c r h2 r2 now : area_ok r -> r_size r = size -> restarted c r h2 r2 -> settled c r now ->
  exists h3 r3 ret v T g, meson_rsv_scan mtd (S fuel) h2 r2 = Done (h3, r3, ret) /\ scanned h2 r2 now v T g h3 r3.
Proof using Hg Hok.
  intros Ha Hsz [Hp Hb Hh Hn Hcl Hu Har] (v & T & t & torn & [Tin Tnew Tlen Ttag Tends] & Hnt & Hrec & HT & Hbv).
  destruct (sizes P n size Hg) as (_ & Hn0 & HP0 & HnP & _).
  pose proof (blocks_same _ _ Har) as Ebl. pose proof Har as (_ & _ & Esz & En).
  assert (Hpg : forall b j, pg (chip h2) b j = pg c b j) by (intros b j; apply Hp).
  assert (Ht2 : tagged (mtd := mtd) P (chip h2) r2 v T t torn).
  { split; rewrite ?Ebl, ?En; try done.
    - destruct Tnew as [N1 N2]. split; rewrite ?Ebl, ?En; [by rewrite Hpg|]. intros b j x. rewrite Hpg. apply N2.
    - intros j Hj. rewrite Hpg. by apply Ttag.
    - unfold ends in *. destruct torn; [by rewrite !Hpg|]. intros j Hj. rewrite Hpg. by apply Tends. }
  destruct (scan_settled P n size Hg fuel h2 r2 v T t torn 0 0) as (h3 & r3 & ret & E & Hf & _ & Est); try done; try lia.
  { by apply (area_ok_same r). } { rewrite Ebl. lia. }
  assert (Hdiv : 1 <= t / n /\ t / n * n <= t) by (pose proof (Z.mul_div_le t n); split; [apply Z.div_le_lower_bound; lia|nia]).
  exists h3, r3, ret, v, T, (t / n - 1). split; [exact E|]. pose proof (fo_quiet _ _ _ _ _ _ _ _ _ _ Hf) as Hq.
  assert (Hq3 : forall b j, pg (chip h3) b j = pg c b j) by (intros b j; rewrite <- Hpg; by apply quiet_pg).
  split; try done.
  - split; [lia|]. replace (t / n - 1 + 1) with (t / n) by lia. lia.
  - by rewrite Ebl.
  - exists (chip h2). done.
  - by rewrite (q_bad _ _ Hq), Hb.
  - rewrite En. intros k Hk. rewrite Hq3. by apply Hrec.
  - rewrite Est. intros [-> Em]%flags_normal j Hj. rewrite Hq3. assert (Ett : t = (t / n - 1 + 1) * n).
    { replace (t / n - 1 + 1) with (t / n) by lia. pose proof (Z.div_mod t n). lia. }
    apply Tends. lia.
  - by apply (q_healthy _ _ Hq).
Qed.

Lemma half_scan fuel c r h2 r2 now : area_ok r -> r_size r = size -> restarted c r h2 r2 -> half c r now ->
  exists h3 r3 ret v T g, meson_rsv_scan mtd (S (S fuel)) h2 r2 = Done (h3, r3, ret) /\ scanned h2 r2 now v T g h3 r3.
Proof using Hg Hok.
  intros Ha Hsz [Hp Hb Hh Hn Hcl Hu Har]
    (b & T' & m & torn' & v & T & t & torn & [Tin Tnew Tlen Ttag Tends] & Hmn & Hv & Hvb & Hnt & Hvt & Hve & Hold & Hrec & HT & Hbv).
  destruct (sizes P n size Hg) as (_ & Hn0 & HP0 & HnP & _).
  pose proof (blocks_same _ _ Har) as Ebl. pose proof Har as (_ & _ & Esz & En).
  assert (Hpg : forall x j, pg (chip h2) x j = pg c x j) by (intros x j; apply Hp).
  assert (Hends : forall x y w, ends (mtd := mtd) P c x y w -> ends (mtd := mtd) P (chip h2) x y w).
  { intros x y w. unfold ends. destruct w; [by rewrite !Hpg|]. intros He j Hj. rewrite Hpg. by apply He. }
  assert (Ht2 : tagged (mtd := mtd) P (chip h2) r2 b T' m torn').
  { split; rewrite ?Ebl, ?En; try done.
    - destruct Tnew as [N1 N2]. split; rewrite ?Ebl, ?En; [by rewrite Hpg|]. intros x j y. rewrite Hpg. apply N2.
    - intros j Hj. rewrite Hpg. by apply Ttag.
    - by apply Hends. }
  destruct (scan_half P n size Hg fuel h2 r2 b T' m torn' v T t torn) as (h3 & r3 & c2 & E & Her & Hf & Hh2 & Est); try done; try lia.
  { by apply (area_ok_same r). } { rewrite Ebl. lia. } { by rewrite Ebl. }
  { intros j Hj. rewrite En, Hpg. by apply Hvt. } { by apply Hends. }
  { intros x j y. rewrite Ebl, En, Hpg. apply Hold. }
  assert (Hdiv : 1 <= t / n /\ t / n * n <= t) by (pose proof (Z.mul_div_le t n); split; [apply Z.div_le_lower_bound; lia|nia]).
  exists h3, r3, 0, v, T, (t / n - 1). split; [exact E|]. pose proof (fo_quiet _ _ _ _ _ _ _ _ _ _ Hf) as Hq.
  assert (Hq3 : forall j, 0 <= j < P -> pg (chip h3) v j = pg c v j).
  { intros j Hj. rewrite (quiet_pg _ _ _ _ _ Hq), (er_other _ _ _ _ _ Her) by done. apply Hpg. }
  split; try done.
  - split; [lia|]. replace (t / n - 1 + 1) with (t / n) by lia. lia.
  - by rewrite Ebl.
  - exists c2. split; [done|]. split; [apply (er_bad _ _ _ _ _ Her)|]. intros x Hx Ht.
    destruct (decide (x = b)) as [->|Hxb]; [rewrite (er_in _ _ _ _ _ Her) by lia; done|]. by rewrite (er_other _ _ _ _ _ Her) by (done || lia).
  - by rewrite (q_bad _ _ Hq), (er_bad _ _ _ _ _ Her), Hb.
  - rewrite En. intros k Hk. rewrite Hq3 by nia. by apply Hrec.
  - rewrite Est. intros [-> Em]%flags_normal j Hj. assert (Ett : t = (t / n - 1 + 1) * n).
    { replace (t / n - 1 + 1) with (t / n) by lia. pose proof (Z.div_mod t n). lia. }
    rewrite Hq3 by nia. apply Hve. lia.
  - by apply (q_healthy _ _ Hq).
Qed.

(** After a restart the content can be read. *)
Lemma scanned_read fuel sfuel h2 r2 now v T g h3 r3 : scanned h2 r2 now v T g h3 r3 -> area_ok r2 -> r_size r2 = size -> blen now = size ->
  n < Z.of_nat fuel -> forall b0, size <= blen b0 -> exists c' ret, quiet (chip h3) c' /\ readable ret = true /\
    meson_rsv_read mtd fuel sfuel h3 r3 b0 = Done (set_chip h3 c', r3, now ++ drop (Z.to_nat size) b0, ret).
Proof using Hg Hok.
  intros [[Hg0 HgP] Hin HT (c2 & Hf & _) Hb Hrec _ _] Ha Hsz Hl Hfu b0 Hb0. pose proof (blocks_range r2 v Ha Hin).
  destruct Hf. destruct fo_area0 as (_ & _ & Esz & En). apply (rsv_read_ok fuel sfuel h3 r3 g T); try done; rewrite ?fo_blk0, ?En; try done; lia || congruence.
Qed.

(** Good blocks of the area whose first page can be read. *)
Definition usable c r : nat := length (filter (fun b => bad c b = false /\ pg c b 0 <> Torn) (blocks r)).

Lemma usable_goods c (l l' : list Z) v : NoDup l -> (forall b, b ∈ l -> pg c b 0 <> Torn -> b = v \/ b ∈ l') ->
  (length (filter (fun b => bad c b = false /\ pg c b 0 <> Torn) l) <= S (goods c l'))%nat.
Proof.
  intros Hnd Hk. set (f := filter _ l).
  assert (Hsub : f ⊆+ v :: filter (fun b => bad c b = false) l').
  { apply NoDup_submseteq; [by apply NoDup_filter|]. intros b [[Hb Ht] Hin]%list_elem_of_filter.
    destruct (Hk b Hin Ht) as [->|Hb']; [by left|right]. by apply list_elem_of_filter. }
  apply submseteq_length in Hsub. exact Hsub.
Qed.

(** ... and the area is in use again. *)
Lemma scanned_live h2 r2 now v T g h3 r3 : scanned h2 r2 now v T g h3 r3 -> area_ok r2 -> r_size r2 = size ->
  (length (blocks r2) < clear_cnt h2)%nat -> (3 <= usable (chip h2) r2)%nat -> live h3 r3 g T now.
Proof using Hg.
  intros [[Hg0 HgP] Hin HT (c2 & Hf & Hb2 & Ht2) Hb Hrec Htl _] Ha Hsz Hcl Hus.
  pose proof (fo_area _ _ _ _ _ _ _ _ _ _ Hf) as Har. pose proof (blocks_same _ _ Har) as Ebl. pose proof Har as (_ & _ & Esz & En).
  pose proof (fo_quiet _ _ _ _ _ _ _ _ _ _ Hf) as Hq.
  assert (Hgd : (2 <= goods (chip h3) (fb h3 r3))%nat).
  { assert (Hlen : (length (fb h3 r3) <= length (blocks r2))%nat).
    { apply submseteq_length, NoDup_submseteq; [apply (fo_fb _ _ _ _ _ _ _ _ _ _ Hf)|]. intros b Hb'. by apply (fo_in _ _ _ _ _ _ _ _ _ _ Hf). }
    pose proof (usable_goods (chip h2) (blocks r2) (fb h3 r3) v (a_nodup _ Ha)) as Hu. unfold usable in Hus.
    rewrite (goods_ext (mtd := mtd) (chip h2)); [|intros b _; by rewrite (q_bad _ _ Hq), Hb2].
    enough (length (filter (fun b => bad (chip h2) b = false /\ pg (chip h2) b 0 <> Torn) (blocks r2)) <= S (goods (chip h2) (fb h3 r3)))%nat by lia.
    apply Hu. intros b Hbi Ht. apply (fo_kept _ _ _ _ _ _ _ _ _ _ Hf); [done|]. by apply Ht2. }
  assert (Hsp : (length (free_list r3) < clear_cnt h2)%nat).
  { assert (Hlen : (length (fb h3 r3) <= length (blocks r2))%nat).
    { apply submseteq_length, NoDup_submseteq; [apply (fo_fb _ _ _ _ _ _ _ _ _ _ Hf)|]. intros b Hb'. by apply (fo_in _ _ _ _ _ _ _ _ _ _ Hf). }
    rewrite length_fmap in Hlen. lia. }
  destruct Hf. split; rewrite ?fo_blk0, ?En; try done.
  - by apply (area_ok_same r2).
  - congruence.
  - lia.
  - by rewrite Ebl.
  - rewrite fo_stamp0, Z.mod_small; done.
  - intros b Hb'. destruct (fo_in0 b Hb'). rewrite Ebl. done.
  - destruct (abnormal _); lia.
Qed.

(** ** Atomicity *)

(** What a save leaves: the area in use with the new content when it reports
    success, and in every case a chip from which the old or the new content is
    found again. *)
Lemma save_leaves fuel h r g T img junk buf :
  live h r g T img -> ordered h r g T -> abnormal (v_status (valid_node r)) = false -> stamps_left h r -> blen buf = size ->
  (length (free_list r) < fuel)%nat ->
  exists h' r' ret, meson_rsv_save mtd fuel h r junk buf = Done (h', r', ret) /\ pool h r h' r' /\
    (ret = 0 -> exists g' T', live h' r' g' T' buf /\ ordered h' r' g' T' /\ abnormal (v_status (valid_node r')) = false) /\
    (settled (chip h') r img \/ half (chip h') r img \/ settled (chip h') r buf) /\ (ret = 0 -> settled (chip h') r buf).
Proof using Hg Hok.
  intros Hl Ho Hab Hst Hbl Hf. destruct (save_ok P n size Hg fuel h r g T img junk buf Hl Hbl Hf) as (h' & r' & ret & E & Hp & H0 & Hleft).
  specialize (Hleft Hab). exists h', r', ret. split; [done|]. split; [done|]. split.
  - intros ->. destruct (H0 eq_refl) as [(g' & T' & Hl') Es]. exists g', T'. split; [done|]. split; [|by rewrite Es].
    by apply (left_ordered h r g T img buf h' r' g' T' Hl Ho Hab Hst Hleft (po_area _ _ _ _ Hp)).
  - by apply (left_remains h r g T img buf (chip h') r' ret).
Qed.

Lemma restart_scan fuel c r h2 r2 now : area_ok r -> r_size r = size -> restarted c r h2 r2 -> settled c r now \/ half c r now ->
  exists h3 r3 ret v T g, meson_rsv_scan mtd (S (S fuel)) h2 r2 = Done (h3, r3, ret) /\ scanned h2 r2 now v T g h3 r3.
Proof using Hg Hok.
  intros Ha Hsz Hr [Hs|Hs]; [by apply (settled_scan (S fuel) c r)|by apply (half_scan fuel c r)].
Qed.

End Crash.
End RsvCrash.
