(* ===== verification/RsvKeys.v ===== *)
(** * Keys on the NAND flash: the key interface over a reserved area

    The functions of rsv-key.c keep the promises of [KeyIf.Storage], so what is
    proved of the key interface holds on NAND as on eMMC.  Composed with the
    atomicity of a save: whatever fails while a key is written, and also when the power
    is lost, the next start-up loads the keys as before or with the new one. *)

From S2P Require Import Prelude Mem KeyTlv KeyStore KeyIf Rsv RsvChip RsvScan RsvSave RsvCrash.
From stdpp Require Import base numbers gmap list.
From Stdlib Require Import ZArith Lia.

Local Open Scope Z_scope.
Local Open Scope cint_scope.

Module RsvKeys.
Import KeyTlv KeyStore KeyIf Rsv RsvChip RsvScan RsvSave RsvCrash.

Section Keys.
Context {C : Type} `{Hok : NandOk C mtd} (P n size : Z) (Hg : geometry mtd P n size).
Context (kmalloc : Z -> bool) (kmalloc_ok : forall n, kmalloc n = true) (fuel sfuel : nat) (junk : Z).
Context (Hfuel : (256 < fuel)%nat) (bsz : Z) (Hsize : 1024 < size <= bsz) (Hbsz : bsz < 2 ^ 31).
Implicit Types (s : rsv_t C) (h : handler_t C) (r : meson_rsv_info_t).
Abbreviation live := (live (mtd := mtd) P n size).
Abbreviation ops := (nand_ops mtd kmalloc fuel sfuel junk).

(** The area of the keys is in use with the content [img]. *)
Definition nand_holds s (img : list Z) : Prop :=
  meson_rsv_key s = true /\ blen img = size /\ nrsv_cnt (hd s) <= DEFAULT_NAND_RSV_BLOCK_NUM /\
  exists r g T, key s = Some r /\ live (hd s) r g T img.

Lemma owns_length h (l : list nat) : owns h l -> nrsv_cnt h <= 48 -> (length l <= 48)%nat.
Proof.
  intros [Hd Hf] Hc. assert (Hs : l ⊆+ seq 0 48).
  { apply NoDup_submseteq; [done|]. intros i Hi. rewrite Forall_forall in Hf. destruct (Hf i Hi). apply elem_of_seq. lia. }
  apply submseteq_length in Hs. by rewrite length_seq in Hs.
Qed.

Lemma clear_rest_ok buf : blen buf = bsz -> exists b1, clear_rest buf bsz size = Done b1 /\ length b1 = length buf /\ take (Z.to_nat size) b1 = take (Z.to_nat size) buf.
Proof using All.
  intros Hb. unfold clear_rest. destruct (Z.ltb_spec size bsz); [|by exists buf].
  rewrite wr_Done by (rewrite ?length_replicate; lia). eexists. split; [done|]. split.
  - apply splice_length; rewrite ?length_replicate; lia.
  - apply splice_take; rewrite ?length_replicate; lia.
Qed.

(** Reading the area of the keys in use. *)
Lemma key_area_read s r g T img : key s = Some r -> live (hd s) r g T img -> blen img = size ->
  exists c ret, quiet (mtd := mtd) (chip (hd s)) c /\
    meson_rsv_key_read mtd kmalloc fuel sfuel s (Some (replicate (Z.to_nat size) 0)) size =
    Done (put_info s Key (set_chip (hd s) c) r, Some img, ret).
Proof using All.
  intros Hk Hl Hil. destruct (sizes P n size Hg) as (_ & Hn & HP & HnP & _).
  destruct (live_read P n size Hg fuel sfuel (hd s) r g T img (replicate (Z.to_nat size) 0) ltac:(lia) Hl Hil) as (c & ret & Hq & _ & E).
  { rewrite length_replicate. lia. }
  exists c, ret. split; [done|]. unfold meson_rsv_key_read, area_read. cbn [info_of]. rewrite Hk.
  rewrite (proj2 (Z.eqb_neq size 0)) by lia. rewrite kmalloc_ok. cbn [negb]. rewrite (lv_size _ _ _ _ _ _ _ _ Hl), E. cbn [obind].
  rewrite drop_replicate. replace (Z.to_nat size - Z.to_nat size)%nat with 0%nat by lia. cbn [replicate]. rewrite app_nil_r, Z.min_id.
  rewrite rdn_Done by lia. cbn [obind]. rewrite drop_0, take_ge by lia. rewrite wr_Done by (rewrite ?length_replicate; lia). cbn [obind].
  do 4 f_equal. unfold splice. cbn [take app]. rewrite drop_ge by (rewrite length_replicate; lia). by rewrite app_nil_r.
Qed.

(** Writing the keys is a save of the first bytes of the buffer. *)
Lemma key_write_save s r buf act h' r' ret : meson_rsv_key s = true -> key s = Some r -> r_size r = size -> blen buf = bsz ->
  meson_rsv_save mtd fuel (hd s) r junk (take (Z.to_nat size) buf) = Done (h', r', ret) ->
  amlnf_key_write mtd kmalloc fuel junk s buf size act = Done (put_info s Key h' r', buf, size, ret).
Proof using All.
  intros Hreg Hk Hsz Hb E. unfold amlnf_key_write. rewrite Hreg, Hk. cbn [negb]. rewrite Hsz.
  unfold clear_rest. rewrite Z.ltb_irrefl. cbn [obind]. rewrite kmalloc_ok. cbn [negb]. rewrite rdn_Done by lia. cbn [obind]. rewrite drop_0.
  assert (Htl : blen (take (Z.to_nat size) buf) = size) by (rewrite length_take; lia).
  unfold meson_rsv_key_write, area_write. cbn [info_of]. rewrite Hk. rewrite (proj2 (Z.eqb_neq size 0)) by lia.
  rewrite kmalloc_ok. cbn [negb]. rewrite Hsz, Z.min_id. rewrite rdn_Done by lia. cbn [obind].
  rewrite drop_0, take_take, Nat.min_id. rewrite wr_Done by (rewrite ?length_replicate; lia). cbn [obind].
  replace (splice _ 0 _) with (take (Z.to_nat size) buf)
    by (unfold splice; cbn [take app]; rewrite drop_ge by (rewrite length_replicate; lia); by rewrite app_nil_r).
  by rewrite E.
Qed.

(** The functions of rsv-key.c are a store for the key interface. *)
#[export] Instance nand_storage : Storage ops bsz nand_holds (fun _ => True).
Proof using All.
  split.
  - intros s img (_ & -> & _). lia.
  - lia.
  - intros read s img buf act [= <-] (Hreg & Hil & Hcnt & r & g & T & Hk & Hl) Hb. unfold amlnf_key_read.
    rewrite Hreg, Hk. cbn [negb]. rewrite (lv_size _ _ _ _ _ _ _ _ Hl).
    destruct (clear_rest_ok buf Hb) as (b1 & -> & Hlb & _). cbn [obind]. rewrite kmalloc_ok. cbn [negb].
    destruct (key_area_read s r g T img Hk Hl Hil) as (c & ret & Hq & ->). cbn [obind default].
    change (id img) with img. rewrite !s32_small, Z.min_l by lia. rewrite rdn_Done by lia. cbn [obind]. rewrite drop_0, take_ge by lia.
    rewrite wr_Done by lia. cbn [obind]. do 4 eexists. split; [reflexivity|]. split; [|split; [rewrite splice_length; lia|split; [|done]]].
    + split; [done|]. split; [done|]. split; [done|]. exists r, g, T. split; [done|]. by apply live_quiet.
    + intros _. split; [done|]. by rewrite splice_0, take_app_length.
  - intros write s img buf act [= <-] (Hreg & Hil & Hcnt & r & g & T & Hk & Hl) Hb. rewrite Hil.
    assert (Htl : blen (take (Z.to_nat size) buf) = size) by (rewrite length_take; lia).
    pose proof (owns_length _ _ (lv_owns _ _ _ _ _ _ _ _ Hl) Hcnt).
    destruct (save_ok P n size Hg fuel (hd s) r g T img junk (take (Z.to_nat size) buf) Hl Htl ltac:(lia)) as (h' & r' & ret & E & Hp & Hz & _).
    rewrite (key_write_save s r buf act h' r' ret Hreg Hk (lv_size _ _ _ _ _ _ _ _ Hl) Hb E).
    do 4 eexists. split; [reflexivity|]. split; [done|]. intros ->.
    destruct (Hz eq_refl) as [(g' & T' & Hl') _]. replace (length img) with (Z.to_nat size) by lia.
    split; [done|]. split; [done|]. split; [cbn; by rewrite (po_cnt _ _ _ _ Hp)|]. exists r', g', T'. done.
Qed.

(** ** Writing a key, and starting again *)

Context (digest : list Z -> list Z + Z) (digest_length : forall d x, digest d = inl x -> length x = 32%nat).
Abbreviation loaded_ := (loaded digest ops bsz nand_holds).
Abbreviation stored_ := (stored digest kmalloc).

(** The interface and the chip agree on the keys [m]; the area is [r]. *)
Record nand_settled (k : kif (rsv_t C)) (m : gmap (list Z) (Z * Z * list Z)) (r : meson_rsv_info_t) : Prop := {
  ns_loaded : loaded_ k m;
  ns_area : exists g T img, key (device k) = Some r /\ live (hd (device k)) r g T img /\ blen img = size /\
    ordered (mtd := mtd) P n (hd (device k)) r g T /\ stored_ img m;
  ns_normal : abnormal (v_status (valid_node r)) = false;
  ns_stamps : stamps_left (hd (device k)) r;
}.

(** The module after the machine was started, with the area found by the scan. *)
Definition started (k : kif (rsv_t C)) h r (b : list Z) (fsz : Z) raw enc : kif (rsv_t C) :=
  Kif (unifykey_types k) (RsvSt h None None (Some r) None true) bsz fsz (Some b) (St 0 [] raw enc).

(** A chip from which the content [now] is found loads its keys. *)
Lemma scan_loads k c r h2 r2 now m sf : area_ok r -> r_size r = size -> blen now = size -> stored_ now m ->
  uk_ops (unifykey_types k) = ops -> restarted (mtd := mtd) c r h2 r2 -> (3 <= usable (mtd := mtd) P (chip h2) r2)%nat ->
  nrsv_cnt h2 <= DEFAULT_NAND_RSV_BLOCK_NUM -> settled (mtd := mtd) P n size c r now \/ half (mtd := mtd) P n size c r now ->
  exists h3 r3 ret3 n0, meson_rsv_scan mtd (S (S sf)) h2 r2 = Done (h3, r3, ret3) /\
    forall f b fsz raw enc, (n0 <= f)%nat -> blen b = bsz ->
    exists k2, _amlkey_init_normal digest kmalloc f (started k h3 r3 b fsz raw enc) = Done (k2, 0) /\ loaded_ k2 m.
Proof using All.
  intros Ha Hsz Hnl Hst Hops Hr Hus Hcnt Hs.
  destruct (restart_scan P n size Hg sf c r h2 r2 now Ha Hsz Hr Hs) as (h3 & r3 & ret3 & v & T & g & E & Hsc).
  pose proof (rs_area _ _ _ _ Hr) as Har. pose proof (blocks_same _ _ Har) as Ebl.
  assert (Hl : live h3 r3 g T now).
  { apply (scanned_live P n size Hg h2 r2 now v T g h3 r3 Hsc); try done.
    - by apply (area_ok_same r).
    - by destruct Har as (_ & _ & -> & _).
    - rewrite Ebl. apply (rs_clear _ _ _ _ Hr). }
  destruct (init_loads digest kmalloc digest_length kmalloc_ok ops bsz nand_holds (fun _ => True)
    (amlnf_key_read mtd kmalloc fuel sfuel) (amlnf_key_write mtd kmalloc fuel junk) eq_refl eq_refl m now Hst) as [n0 Hn0].
  exists h3, r3, ret3, n0. split; [done|]. intros f b fsz raw enc Hf Hb.
  destruct (Hn0 f (started k h3 r3 b fsz raw enc) b) as (k2 & ret & E2 & Hld & Hh); try done.
  { cbn [started device]. split; [done|]. split; [done|]. cbn [hd key]. split; [|by exists r3, g, T].
    destruct (sc_found _ _ _ _ _ _ _ _ _ _ _ Hsc) as (c2 & Hf2 & _). by rewrite (fo_cnt _ _ _ _ _ _ _ _ _ _ Hf2). }
  rewrite (Hh I) in *. exists k2. auto.
Qed.

End Keys.
End RsvKeys.
