(* ===== verification/RsvSim.v ===== *)
(** * A NAND chip that runs

    An instance of [NandOps] and its laws [NandOk]: pages in a finite map, a
    plan of the faults of the coming programs and erases, blocks that cannot be
    erased, and a power switch.  The witnesses and the defects of [RsvDemo.v]
    are evaluated on it. *)

From S2P Require Import Prelude Mem KeyTlv KeyStore KeyIf Rsv RsvChip RsvScan.
From stdpp Require Import base numbers list gmap.
From Stdlib Require Import ZArith Lia.

Local Open Scope Z_scope.

Module RsvSim.
Import Rsv RsvChip RsvScan.

(** How a program or an erase fails: without effect, leaving torn pages,
    after it was done, or with the power. *)
Inductive fault := Works | FailsBefore | FailsTorn | FailsAfter | PowerLost.

Record sim := Sim {
  pages : gmap Z pstate;
  bads : gset Z;
  plan : list fault;
  stuck : gset Z;
  powered : bool;
}.

Section Sim.
Context (mtd : mtd_info).

Definition sim_page (c : sim) (p : Z) : pstate := default Blank (pages c !! p).
Definition ppb : Z := erasesize mtd / writesize mtd.

(** The fault of the next operation, and the chip after it was taken. *)
Definition next (c : sim) : fault * sim :=
  if negb (powered c) then (FailsBefore, c)
  else match plan c with
       | [] => (Works, c)
       | PowerLost :: l => (FailsTorn, Sim (pages c) (bads c) l (stuck c) false)
       | f :: l => (f, Sim (pages c) (bads c) l (stuck c) (powered c))
       end.
Definition with_pages (c : sim) (m : gmap Z pstate) : sim := Sim m (bads c) (plan c) (stuck c) (powered c).

Definition block_pages (b : Z) : list Z := (fun i => b * ppb + Z.of_nat i) <$> seq 0 (Z.to_nat ppb).
Definition wipe (c : sim) (b : Z) : gmap Z pstate := foldr delete (pages c) (block_pages b).
Definition tear (c : sim) (b : Z) : gmap Z pstate :=
  foldr (fun p m => match m !! p with Some _ => <[p := Torn]> m | None => m end) (pages c) (block_pages b).

#[export] Instance sim_ops : NandOps sim := {
  _erase c addr len :=
    let b := addr / erasesize mtd in
    let '(f, c) := next c in
    if bool_decide (b ∈ stuck c) then (c, - EIO)
    else match f with
         | Works => (with_pages c (wipe c b), 0)
         | FailsTorn => (with_pages c (tear c b), - EIO)
         | FailsAfter => (with_pages c (wipe c b), - EIO)
         | _ => (c, - EIO)
         end;
  _write_oob c to dat spare :=
    let p := to / writesize mtd in
    let '(f, c) := next c in
    match f with
    | Works => (with_pages c (<[p := Prog dat spare]> (pages c)), 0)
    | FailsTorn => (with_pages c (<[p := Torn]> (pages c)), - EIO)
    | FailsAfter => (with_pages c (<[p := Prog dat spare]> (pages c)), - EIO)
    | _ => (c, - EIO)
    end;
  _read_oob c from len ooblen :=
    match sim_page c (from / writesize mtd) with
    | Blank => (c, replicate (Z.to_nat len) 255, replicate 8 255, 0)
    | Prog d o => (c, take (Z.to_nat len) (d ++ replicate (Z.to_nat len) 255), o, 0)
    | Torn => (c, replicate (Z.to_nat len) 0, replicate 8 0, -74)
    end;
  _block_markbad c addr :=
    if powered c then Sim (pages c) ({[addr / erasesize mtd]} ∪ bads c) (plan c) (stuck c) (powered c) else c;
  _block_isbad c addr := if bool_decide (addr / erasesize mtd ∈ bads c) then 1 else 0;
}.

(** ** Laws *)

Lemma block_pages_in b p : p ∈ block_pages b <-> b * ppb <= p < (b + 1) * ppb.
Proof.
  unfold block_pages. rewrite list_elem_of_fmap. setoid_rewrite elem_of_seq. split.
  - intros (i & -> & Hi). lia.
  - intros Hp. exists (Z.to_nat (p - b * ppb)). lia.
Qed.

Lemma wipe_in (l : list Z) (m : gmap Z pstate) p : p ∈ l -> foldr delete m l !! p = None.
Proof.
  induction l as [|x l IH]; [by intros ?%not_elem_of_nil|]. cbn [foldr]. destruct (decide (p = x)) as [->|Hne].
  - intros _. apply lookup_delete_eq.
  - intros [?|?]%elem_of_cons; [done|]. rewrite lookup_delete_ne by done. auto.
Qed.

Lemma wipe_out (l : list Z) (m : gmap Z pstate) p : p ∉ l -> foldr delete m l !! p = m !! p.
Proof.
  induction l as [|x l IH]; [done|]. cbn [foldr]. intros [? ?]%not_elem_of_cons. rewrite lookup_delete_ne by done. auto.
Qed.

Definition tear1 (p : Z) (m : gmap Z pstate) : gmap Z pstate := match m !! p with Some _ => <[p := Torn]> m | None => m end.

Lemma tear1_lookup x m p : tear1 x m !! p = m !! p \/ (p = x /\ tear1 x m !! p = Some Torn).
Proof.
  unfold tear1. destruct (m !! x) eqn:E; [|by left]. destruct (decide (p = x)) as [->|Hne].
  - right. by rewrite lookup_insert_eq.
  - left. by rewrite lookup_insert_ne.
Qed.

Lemma tear_lookup (l : list Z) (m : gmap Z pstate) p :
  foldr tear1 m l !! p = m !! p \/ (p ∈ l /\ foldr tear1 m l !! p = Some Torn).
Proof.
  induction l as [|x l IH]; [by left|]. cbn [foldr]. destruct (tear1_lookup x (foldr tear1 m l) p) as [->|[-> E]].
  - destruct IH as [|[? ?]]; [by left|right]. split; [by right|done].
  - right. split; [by left|done].
Qed.

Lemma next_same c f c' : next c = (f, c') -> pages c' = pages c /\ bads c' = bads c /\ stuck c' = stuck c.
Proof.
  unfold next. destruct (powered c); cbn [negb]; [|by intros [= <- <-]]. destruct (plan c) as [|[] l]; by intros [= <- <-].
Qed.

Definition sim_healthy (c : sim) : Prop := plan c = [] /\ powered c = true /\ stuck c = ∅.

Lemma next_healthy c : sim_healthy c -> next c = (Works, c).
Proof. intros (Hp & Hw & _). unfold next. by rewrite Hw, Hp. Qed.

Context (Hws : 0 < writesize mtd) (Hes : 0 < erasesize mtd).

#[export] Instance sim_ok : NandOk sim mtd.
Proof using All.
  refine {| page := sim_page; bad := fun c b => bool_decide (b ∈ bads c); healthy := sim_healthy |}.
  - intros c off len c' d o ret Ho Hl. cbn. destruct (sim_page c (off / writesize mtd)) as [|dat spare|]; intros [= <- <- <- <-].
    + do 3 (split; [done|]). split; [rewrite length_replicate; lia|]. done.
    + do 3 (split; [done|]). split; [rewrite length_take, length_app, length_replicate; lia|]. split; [done|]. split; [done|].
      intros _ ->. by rewrite Nat2Z.id, take_app_length.
    + do 3 (split; [done|]). split; [rewrite length_replicate; lia|]. done.
  - intros c off dat spare c' ret Ho Hm. cbn. destruct (next c) as [f c1] eqn:E. destruct (next_same _ _ _ E) as (Ep & Eb & _).
    assert (Hoth : forall v p, p <> off / writesize mtd -> sim_page (with_pages c1 (<[off / writesize mtd := v]> (pages c1))) p = sim_page c p).
    { intros v p Hp. unfold sim_page. cbn. by rewrite lookup_insert_ne, Ep by done. }
    assert (Hself : forall v, sim_page (with_pages c1 (<[off / writesize mtd := v]> (pages c1))) (off / writesize mtd) = v).
    { intros v. unfold sim_page. cbn. by rewrite lookup_insert_eq. }
    assert (Hsame : forall p, sim_page c1 p = sim_page c p) by (intros p; unfold sim_page; by rewrite Ep).
    destruct f; intros [= <- <-]; (split; [first [by intros; apply Hoth|by intros; apply Hsame]|split; [intros b; cbn; by rewrite Eb|intros Hbl]]).
    + by rewrite Hself.
    + cbn. left. by rewrite Hsame.
    + cbn. right. left. apply Hself.
    + cbn. right. right. apply Hself.
    + cbn. left. by rewrite Hsame.
  - intros c b c' ret Hb. cbn. rewrite Z.div_mul by lia. destruct (next c) as [f c1] eqn:E. destruct (next_same _ _ _ E) as (Ep & Eb & Es).
    assert (Hsame : forall p, sim_page c1 p = sim_page c p) by (intros p; unfold sim_page; by rewrite Ep).
    assert (Hnothing : forall r, r = - EIO -> (c1, r) = (c', ret) ->
      (forall p, ~ (b * ppb <= p < (b + 1) * ppb) -> sim_page c' p = sim_page c p) /\ (forall x, bool_decide (x ∈ bads c') = bool_decide (x ∈ bads c)) /\
      (forall p, b * ppb <= p < (b + 1) * ppb -> if truthy ret then half_erased (sim_page c p) (sim_page c' p) else sim_page c' p = Blank)).
    { intros r -> [= <- <-]. split; [by intros|]. split; [intros x; by rewrite Eb|]. intros p _. cbn. left. apply Hsame. }
    assert (Hwipe : forall p, (~ (b * ppb <= p < (b + 1) * ppb) -> sim_page (with_pages c1 (wipe c1 b)) p = sim_page c p) /\
      (b * ppb <= p < (b + 1) * ppb -> sim_page (with_pages c1 (wipe c1 b)) p = Blank)).
    { intros p. unfold sim_page, wipe. cbn. split; intros Hp.
      - rewrite wipe_out by (by rewrite block_pages_in). by rewrite Ep.
      - by rewrite wipe_in by (by rewrite block_pages_in). }
    assert (Htear : forall p, (~ (b * ppb <= p < (b + 1) * ppb) -> sim_page (with_pages c1 (tear c1 b)) p = sim_page c p) /\
      (half_erased (sim_page c p) (sim_page (with_pages c1 (tear c1 b)) p))).
    { intros p. unfold sim_page, tear. cbn. change (fun p m => match m !! p with Some _ => <[p:=Torn]> m | None => m end) with tear1.
      destruct (tear_lookup (block_pages b) (pages c1) p) as [->|[Hin ->]]; [rewrite Ep; split; [done|by left]|].
      split; [intros Hn; by apply block_pages_in in Hin|right; by left]. }
    assert (Hnom : forall (A B C D : Prop), A /\ B /\ C -> D -> A /\ B /\ C /\ D) by tauto.
    intros Heq. apply Hnom; cycle 1.
    { intros Hh. rewrite (next_healthy c Hh) in E. injection E as <- <-. destruct Hh as (Hp & Hw & Hst).
      rewrite bool_decide_false in Heq by (rewrite Hst; apply not_elem_of_empty). injection Heq as <- <-. done. }
    destruct (bool_decide (b ∈ stuck c1)); [by apply (Hnothing (- EIO))|].
    destruct f; try (by apply (Hnothing (- EIO))); injection Heq as <- <-.
    + split; [intros p; apply Hwipe|]. split; [intros x; cbn; by rewrite Eb|]. intros p Hp. cbn [truthy Z.eqb negb]. by apply Hwipe.
    + split; [intros p; apply Htear|]. split; [intros x; cbn; by rewrite Eb|]. intros p Hp. cbn. apply Htear.
    + split; [intros p; apply Hwipe|]. split; [intros x; cbn; by rewrite Eb|]. intros p Hp. cbn. right. right. by apply Hwipe.
  - intros c b Hb. cbn. rewrite Z.div_mul by lia. by destruct (bool_decide (b ∈ bads c)).
  - intros c b Hb. cbn. rewrite Z.div_mul by lia. destruct (powered c); [|split; [done|split; [done|by left]]].
    split; [done|]. split; [|by left]. intros x Hx. cbn. apply bool_decide_ext. rewrite elem_of_union, elem_of_singleton. tauto.
Defined.
End Sim.
End RsvSim.
