(* ===== verification/RsvDemo.v ===== *)
(** * Reserved areas of a NAND flash: runs

    The invariants of [RsvSave.v] and [RsvCrash.v] decided on a chip of
    [RsvSim.v], the witnesses of the atomicity theorems, and runs that show
    where the code does not do what it means to. *)

From S2P Require Import Prelude Mem KeyTlv KeyStore KeyIf KeyCrash Rsv RsvChip RsvScan RsvSave RsvCrash RsvKeys RsvSim.
From stdpp Require Import base numbers list gmap.
From Stdlib Require Import ZArith Lia.

Local Open Scope Z_scope.
Local Open Scope cint_scope.

Module RsvDemo.
Import KeyTlv KeyStore KeyIf Rsv RsvChip RsvScan RsvSave RsvCrash RsvKeys RsvSim.

(** ** The invariants, decided *)

Definition upto (n : Z) : list Z := Z.of_nat <$> seq 0 (Z.to_nat n).

Lemma upto_in n j : 0 <= j < n -> j ∈ upto n.
Proof. intros Hj. apply list_elem_of_fmap. exists (Z.to_nat j). rewrite elem_of_seq. lia. Qed.

Lemma upto_forall (P : Z -> Prop) n : Forall P (upto n) -> forall j, 0 <= j < n -> P j.
Proof. intros Hf j Hj. rewrite Forall_forall in Hf. by apply Hf, upto_in. Qed.

Section Decide.
Context (mtd : mtd_info) (Hws : 0 < writesize mtd) (Hes : 0 < erasesize mtd) (P n size : Z) (Hn : 0 < n).
Implicit Types (h : handler_t sim) (r : meson_rsv_info_t) (c : sim).

Definition spg c (b i : Z) : pstate := sim_page c (b * P + i).

Definition area_is_ok r : Prop :=
  0 <= start_block r < end_block r /\ end_block r < 2 ^ 15 - 4 /\ NoDup (blocks r) /\ length (r_name r) = 4%nat /\
  r_name r <> [255; 255; 255; 255].
Definition nodes_are_ok h : Prop :=
  Forall (fun i => f_index <$> (free_node h !! i) = Some (Z.of_nat i)) (seq 0 (Z.to_nat (nrsv_cnt h))).
Definition page_is c nm (p : Z) (bytes : list Z) (T : Z) : Prop :=
  match sim_page c p with Prog d o => d = bytes | _ => False end /\ tag nm (sim_page c p) = Some T.
Definition is_live h r (g T : Z) (img : list Z) : Prop :=
  let v := valid_node r in
  let fb := blk_of h <$> free_list r in
  area_is_ok r /\ r_size r = size /\ nodes_are_ok h /\ (0 < clear_cnt h)%nat /\
  (NoDup (free_list r) /\ Forall (fun i => (i < Z.to_nat (nrsv_cnt h))%nat /\ Z.testbit (freenodebitmask h) (Z.of_nat i) = true) (free_list r)) /\
  r_valid r = 1 /\ phy_blk_addr v ∈ blocks r /\ (0 <= g /\ (g + 1) * n <= P) /\ phy_page_addr v = g * n /\ T = timestamp v mod 2 ^ 15 /\
  Forall (fun k => page_is (chip h) (r_name r) (phy_blk_addr v * P + (g * n + k)) (chunk (mtd := mtd) size img k) T) (upto n) /\
  Forall (fun j => (g + 1) * n <= j -> spg (chip h) (phy_blk_addr v) j = Blank) (upto P) /\
  NoDup fb /\ Forall (fun b => b ∈ blocks r /\ b <> phy_blk_addr v) fb /\
  ((if abnormal (v_status v) then 2 else 1) <= length (filter (fun b => bool_decide (b ∈ bads (chip h)) = false) fb))%nat /\
  phy_blk_addr v ∉ bads (chip h).
Definition is_ordered h r (g T : Z) : Prop :=
  let v := valid_node r in
  (timestamp v = T /\ 0 <= T < 2 ^ 15) /\
  Forall (fun j => j < (g + 1) * n -> tag (r_name r) (spg (chip h) (phy_blk_addr v) j) = Some T) (upto P) /\
  Forall (fun b => b <> phy_blk_addr v -> Forall (fun j => default (-1) (tag (r_name r) (spg (chip h) b j)) < T) (upto P)) (blocks r).
Definition is_unscanned r : Prop :=
  phy_blk_addr (valid_node r) = -1 /\ phy_page_addr (valid_node r) = 0 /\ v_status (valid_node r) = 0 /\ free_list r = [] /\ r_valid r = 0.

#[export] Instance page_is_dec c nm p bytes T : Decision (page_is c nm p bytes T).
Proof. unfold page_is. destruct (sim_page c p); apply _. Defined.
#[export] Instance is_live_dec h r g T img : Decision (is_live h r g T img).
Proof. unfold is_live, area_is_ok, nodes_are_ok, spg. cbv zeta. apply _. Defined.
#[export] Instance is_ordered_dec h r g T : Decision (is_ordered h r g T).
Proof. unfold is_ordered, spg. cbv zeta. apply _. Defined.

Lemma area_is_ok_ok r : area_is_ok r -> area_ok r.
Proof. intros (? & ? & ? & ? & ?). by split. Qed.

Lemma nodes_are_ok_ok h : nodes_are_ok h -> nodes_ok h.
Proof.
  intros Hf i Hi. unfold nodes_are_ok in Hf. rewrite Forall_forall in Hf. specialize (Hf i). rewrite elem_of_seq in Hf.
  specialize (Hf ltac:(lia)). destruct (free_node h !! i) as [nd|]; [|done]. injection Hf as Hf. by exists nd.
Qed.

Abbreviation inst := (sim_ok mtd Hws Hes).

Lemma is_live_ok h r g T img : is_live h r g T img -> live (Hok := inst) P n size h r g T img.
Proof.
  intros (H1 & H2 & H3 & H4 & H5 & H6 & H7 & H8 & H9 & H10 & H11 & H12 & H13 & H14 & H15 & H16).
  split; try done.
  - by apply area_is_ok_ok.
  - by apply nodes_are_ok_ok.
  - intros k Hk. destruct (upto_forall _ _ H11 k Hk) as [Hp Ht].
    unfold RsvScan.pg. cbn [page sim_ok]. destruct (sim_page (chip h) _) as [|d o|]; try done. subst d. by exists o.
  - intros _ j Hj. apply (upto_forall _ _ H12); nia.
  - intros b Hb. rewrite Forall_forall in H14. by apply H14.
  - cbn [bad sim_ok]. by apply bool_decide_eq_false.
Qed.

Lemma is_ordered_ok h r g T : is_ordered h r g T -> 0 <= g /\ (g + 1) * n <= P -> ordered (Hok := inst) P n h r g T.
Proof.
  intros (H1 & H2 & H3) Hg. split; [done| |].
  - intros j Hj. apply (upto_forall _ _ H2); lia.
  - intros b j t Hb Hne Hj Ht. rewrite Forall_forall in H3. pose proof (upto_forall _ _ (H3 b Hb Hne) j Hj) as Hlt.
    cbv beta in Hlt. unfold RsvScan.pg in Ht. cbn [page sim_ok] in Ht. unfold spg in Hlt. by rewrite Ht in Hlt.
Qed.

Lemma is_unscanned_ok r : is_unscanned r -> unscanned r.
Proof. intros (? & ? & ? & ? & ?). by split. Qed.

(** ** Starting again *)

(** The power is back and nothing fails any more. *)
Definition reboot (c : sim) : sim := Sim (pages c) (bads c) [] ∅ true.
Definition booted c (k : Z) : handler_t sim := Handler (reboot c) 0 (fresh_nodes k) k 1.

Lemma fresh_lookup k i : (i < Z.to_nat k)%nat -> fresh_nodes k !! i = Some (FNode (Z.of_nat i) 0 0 0).
Proof. intros Hi. unfold fresh_nodes. rewrite list_lookup_fmap, lookup_seq_lt by done. done. Qed.

Lemma count_clear_0 m : count_clear 0 m = m.
Proof. induction m as [|m IH]; [done|]. cbn [count_clear]. rewrite IH, Z.bits_0. lia. Qed.

Lemma booted_ok c k r r2 : 0 <= k -> (length (blocks r) < Z.to_nat k)%nat -> is_unscanned r2 -> same_area r r2 ->
  restarted (Hok := inst) c r (booted c k) r2.
Proof.
  intros Hk Hl Hu Ha. split; try done.
  - intros i Hi. cbn [booted nrsv_cnt] in Hi. exists (FNode (Z.of_nat i) 0 0 0). by rewrite <- fresh_lookup with (k := k).
  - unfold clear_cnt. cbn [booted freenodebitmask nrsv_cnt]. by rewrite count_clear_0.
  - by apply is_unscanned_ok.
Qed.
End Decide.

(** ** A small chip: five blocks of four pages of four bytes, records of two
    pages *)

Definition small : mtd_info := Mtd 80 (2 ^ 4) (2 ^ 2) 4 2.
#[export] Instance small_ops : NandOps sim := sim_ops small.
Definition small_ok : NandOk sim small := sim_ok small eq_refl eq_refl.
Definition small_new : meson_rsv_info_t := new_info (Part 5 0 0) 8 KEY_NAND_MAGIC.
Definition rec_of (x : Z) : list Z := replicate 8 x.
Definition blank_sim (l : list fault) : sim := Sim ∅ ∅ l ∅ true.
Definition with_plan (l : list fault) (h : handler_t sim) : handler_t sim :=
  set_chip h (Sim (pages (chip h)) (bads (chip h)) l (stuck (chip h)) (powered (chip h))).

(** Start a chip; save a record; start again and read. *)
Definition start (mtd : mtd_info) `{NandOps sim} (new : meson_rsv_info_t) (k : Z) (c : sim) :=
  meson_rsv_scan mtd 3 (booted c k) new.
Definition saves (mtd : mtd_info) `{NandOps sim} (x : outcome (handler_t sim * meson_rsv_info_t * Z)) (l : list fault) (img : list Z) :=
  let* (h, r, _) := x in meson_rsv_save mtd 9 (with_plan l h) r 0 img.
Definition reads (mtd : mtd_info) `{NandOps sim} (new : meson_rsv_info_t) (k : Z) (x : outcome (handler_t sim * meson_rsv_info_t * Z)) :=
  let* (h, _, r0) := x in
  let* (h, r, r1) := start mtd new k (chip h) in
  let* (_, _, buf, ret) := meson_rsv_read mtd 9 3 h r (replicate 8 0) in
  Done (r0, r1, buf, ret).

Definition small_first := saves small (start small small_new 8 (blank_sim [])) [] (rec_of 65).

Definition ok_of (x : outcome (handler_t sim * meson_rsv_info_t * Z)) (new : meson_rsv_info_t) : handler_t sim * meson_rsv_info_t :=
  match x with Done (h, r, _) => (h, r) | _ => (Handler (blank_sim []) 0 [] 0 0, new) end.

(** ** Witness: the power is lost when the second page of a record is programmed *)

Definition torn_save : handler_t sim * meson_rsv_info_t :=
  let '(h, r) := ok_of small_first small_new in (with_plan [Works; PowerLost] h, r).

Lemma torn_save_live : live (Hok := small_ok) 4 2 8 torn_save.1 torn_save.2 0 1 (rec_of 65).
Proof. apply is_live_ok; [done|]. apply (bool_decide_unpack _). vm_compute. exact I. Qed.

Lemma torn_save_ordered : ordered (Hok := small_ok) 4 2 torn_save.1 torn_save.2 0 1.
Proof. apply is_ordered_ok; [|lia]. apply (bool_decide_unpack _). vm_compute. exact I. Qed.


(** ** Runs that go wrong *)

Definition answer (x : outcome (handler_t sim * meson_rsv_info_t * Z)) : outcome Z := let* (_, _, ret) := x in Done ret.
Definition again (x : outcome (handler_t sim * meson_rsv_info_t * Z)) := let* (h, _, _) := x in start small small_new 8 (chip h).
(** Read on, without starting again. *)
Definition read_on (x : outcome (handler_t sim * meson_rsv_info_t * Z)) : outcome (list Z * Z) :=
  let* (h, r, _) := x in let* (_, _, buf, ret) := meson_rsv_read small 9 3 h r (replicate 8 0) in Done (buf, ret).
Definition restart_reads := reads small small_new 8.
Definition second := saves small small_first [] (rec_of 66).

(** A record was torn, the machine started again: the next save gives up the
    block, and erases it, with the only copy of the content, before the new
    record is written.  The power is lost in between: nothing is left. *)
Example abnormal_block_lost :
  let torn := saves small small_first [Works; PowerLost] (rec_of 66) in
  restart_reads torn = Done (1, 0, rec_of 65, 0) /\
  restart_reads (saves small (again torn) [Works; PowerLost] (rec_of 67)) = Done (- EIO, -1, rec_of 0, 1).
Proof. repeat split; vm_compute; reflexivity. Qed.

(** The next block cannot be erased and the save fails.  The position stays in
    that block, so the save that follows is acknowledged, its record is at the
    second place of a block whose first page is blank, and the next start does
    not find it. *)
Example acknowledged_save_lost :
  let failed := saves small second [FailsBefore] (rec_of 67) in
  answer failed = Done (- EIO) /\ answer (saves small failed [] (rec_of 67)) = Done 0 /\
  restart_reads (saves small failed [] (rec_of 67)) = Done (0, 0, rec_of 66, 0).
Proof. repeat split; vm_compute; reflexivity. Qed.

(** The second page of a record becomes unreadable.  The way back to
    READ_RSV_AGAIN starts at the first page again with the bytes already read:
    the first page is returned twice, as a success. *)
Example reread_repeats_first_page :
  let x := saves small small_first [] [1; 2; 3; 4; 5; 6; 7; 8] in
  read_on x = Done ([1; 2; 3; 4; 5; 6; 7; 8], 0) /\
  read_on (let* (h, r, z) := x in Done (set_chip h (with_pages (chip h) (<[3 := Torn]> (pages (chip h)))), r, z)) =
  Done ([1; 2; 3; 4; 1; 2; 3; 4], 0).
Proof. repeat split; vm_compute; reflexivity. Qed.

(** A second scan counts the current block as free, and the other blocks
    twice, until the pool is empty. *)
Example second_scan_frees_current :
  (let* (h, r, _) := small_first in let* (h, r, ret) := meson_rsv_scan small 3 h r in
   Done (phy_blk_addr (valid_node r), blk_of h <$> free_list r, ret)) = Done (0, [1; 2; 3; 4; 0; 1; 2; 3], - ENOMEM).
Proof. vm_compute. reflexivity. Qed.

(** The stamp on the chip has 15 bits.  After stamp 32767 the scan takes the
    older block for the newer one. *)
Example stamp_wraps :
  let at_32766 := let* (h, r, z) := start small small_new 8 (blank_sim []) in
    let v := valid_node r in Done (h, set_valid_node r (VNode (v_ec v) (phy_blk_addr v) (phy_page_addr v) 32766 (v_status v)), z) in
  let full := saves small (saves small at_32766 [] (rec_of 65)) [] (rec_of 66) in
  answer (saves small full [] (rec_of 67)) = Done 0 /\
  restart_reads (saves small full [] (rec_of 67)) = Done (0, 0, rec_of 66, 0).
Proof. repeat split; vm_compute; reflexivity. Qed.

(** No page can be read: the list of free nodes is empty and saving
    dereferences NULL.  Every block is marked bad: saving does not end. *)
Example no_free_block :
  saves small (start small small_new 8 (Sim (list_to_map ((fun p => (p, Torn)) <$> upto 20)) ∅ [] ∅ true)) [] (rec_of 65) = Fault /\
  (let* (h, r, _) := second in
   meson_rsv_save small 1000 (set_chip h (Sim (pages (chip h)) {[0; 1; 2; 3; 4]} [] ∅ true)) r 0 (rec_of 67)) = Spin.
Proof. repeat split; vm_compute; reflexivity. Qed.

(** A save that failed leaves the position at the record that was not
    written: until the next start the blank pages are read, as a success. *)
Example failed_save_reads_blank :
  answer (saves small small_first [FailsBefore] (rec_of 66)) = Done 1 /\
  read_on (saves small small_first [FailsBefore] (rec_of 66)) = Done (rec_of 255, 0).
Proof. repeat split; vm_compute; reflexivity. Qed.

(** The newest block has no complete record and cannot be erased: the scan
    starts again without end. *)
Example scan_does_not_end :
  (let* (h, _, _) := saves small second [Works; Works; PowerLost] (rec_of 67) in
   meson_rsv_scan small 1000 (Handler (Sim (pages (chip h)) ∅ [] {[1]} true) 0 (fresh_nodes 8) 8 1) small_new) = Spin.
Proof. vm_compute. reflexivity. Qed.

(** Reading a device whose area cannot be read returns the count, with
    nothing copied. *)
Example failed_read_counts :
  (let* (h, r, _) := small_first in
   let* (_, ubuf, pos, ret) := __meson_rsv_read small (fun _ => true) 9 3 Key
     (RsvSt (set_chip h (Sim (list_to_map ((fun p => (p, Torn)) <$> upto 20)) ∅ [] ∅ true)) None None (Some r) None true)
     (replicate 8 7) 8 0 8 (fun len => replicate (Z.to_nat len) 0) in Done (ubuf, pos, ret)) =
  Done (replicate 8 7, 0, 8).
Proof. vm_compute. reflexivity. Qed.
(** ** Witness: a key is written while an erase fails *)

Definition large : mtd_info := Mtd (5 * 2 ^ 12) (2 ^ 12) (2 ^ 9) 12 9.
#[export] Instance large_ops : NandOps sim := sim_ops large.
Definition large_ok : NandOk sim large := sim_ok large eq_refl eq_refl.
Definition large_new : meson_rsv_info_t := new_info (Part 5 0 0) 2048 KEY_NAND_MAGIC.
Definition large_geometry := geometry_pow2 9 12 11 (5 * 2 ^ 12) ltac:(lia) ltac:(lia) ltac:(lia) ltac:(lia) ltac:(lia).
Definition blank_keys : list Z := replicate 2048 0.

(** Two records fill the first block; the next erase fails. *)
Definition full_block : handler_t sim * meson_rsv_info_t :=
  let '(h, r) := ok_of (saves large (saves large (start large large_new 8 (blank_sim [])) [] blank_keys) [] blank_keys) large_new in
  (with_plan [FailsTorn] h, r).

Lemma full_block_live : live (Hok := large_ok) 8 4 2048 full_block.1 full_block.2 1 1 blank_keys.
Proof. apply is_live_ok; [done|]. apply (bool_decide_unpack _). vm_compute. exact I. Qed.

Lemma full_block_ordered : ordered (Hok := large_ok) 8 4 full_block.1 full_block.2 1 1.
Proof. apply is_ordered_ok; [|lia]. apply (bool_decide_unpack _). vm_compute. exact I. Qed.
Abbreviation large_fns := (nand_ops large (fun _ => true) 257 3 0).
Definition nand_kif : kif (rsv_t sim) :=
  Kif (UkType 1 large_fns) (RsvSt full_block.1 None None (Some full_block.2) None true) 2048 2048 (Some blank_keys)
    (St 2 [] raw_zero (EncHead 0 0)).

Lemma nand_kif_settled : nand_settled (Hok := large_ok) 8 4 2048 (fun _ => true) 257 3 0 2048 sum_digest nand_kif ∅ full_block.2.
Proof.
  split; [|exists 1, 1, blank_keys|vm_compute; reflexivity|vm_compute; reflexivity].
  - split; [reflexivity|apply empty_wf|apply raw_zero_wf|reflexivity|reflexivity| | |reflexivity].
    + exists blank_keys. split; reflexivity.
    + exists blank_keys. split; [|reflexivity]. split; [reflexivity|]. split; [reflexivity|]. split; [vm_compute; discriminate|].
      exists full_block.2, 1, 1. split; [reflexivity|apply full_block_live].
  - split; [reflexivity|]. split; [apply full_block_live|]. split; [reflexivity|]. split; [apply full_block_ordered|].
    apply KeyCrash.stored_blank; [reflexivity|discriminate].
Qed.

Definition key_written : kif (rsv_t sim) :=
  match _amlkey_write_normal sum_digest (fun _ => true) nand_kif (Some [109]) (Some [1; 2; 3]) 3 0 (zeros 80) with
  | Done (k, _) => k | _ => nand_kif
  end.


End RsvDemo.
