(* ===== verification/UniKey.v ===== *)
(** * The key manager (src/drivers/efuse_unifykey/unifykey.c)

    The manager has a list of the keys a board may have, with where each is
    kept and what may be done with it.  Requests name a key; the manager checks
    the permission and passes the request on to the fuses or to the key
    interface ([struct amlkey_if] of amlkey_if.h, here a record of operations, with
    [KeyIf.v] as the one for normal keys).

    The theorems: a normal key without encryption that was written is read
    back; a normal key with encryption never is, as the two encryption flags that are
    compared are 256 and 1; a request without permission changes nothing. *)

From S2P Require Import Prelude Mem KeyTlv KeyStore KeyIf.
From stdpp Require Import base numbers gmap list.
From Stdlib Require Import ZArith Lia.

Local Open Scope Z_scope.
Local Open Scope cint_scope.

Module UniKey.
Import KeyTlv KeyStore KeyIf.

Definition EPERM : Z := 1.
Definition EFAULT : Z := 14.
Definition KEY_EMPTY : Z := 0.
Definition KEY_BURNED : Z := 1.
Definition SHA256_SUM_LEN : Z := 32.
Definition KEY_UNKNOWN_DEV : Z := 0.
Definition KEY_EFUSE : Z := 1.
Definition KEY_NORMAL : Z := 2.
Definition KEY_SECURE : Z := 3.
Definition KEY_PERM_READ : Z := 1.
Definition KEY_PERM_WRITE : Z := 2.
Definition KEY_ATTR_ENCRYPT : Z := 0x100.
Definition KEY_ATTR_SECURE : Z := 1.

Record key_item_t := Item { kname : list Z; id : Z; dev : Z; perm : Z; attr : Z }.

(** struct amlkey_if over the state [S] of what is behind it. *)
Record amlkey_if (S : Type) := AmlIf {
  if_exist : S -> list Z -> Z;
  if_size : S -> list Z -> Z;
  if_get_attr : S -> list Z -> Z;
  if_read : S -> list Z -> list Z -> Z -> outcome (list Z * Z);
  if_write : S -> list Z -> list Z -> Z -> Z -> outcome (S * Z);
  if_hash : S -> list Z -> list Z -> outcome (list Z * Z);
}.
#[global] Arguments if_exist {S}.
#[global] Arguments if_size {S}.
#[global] Arguments if_get_attr {S}.
#[global] Arguments if_read {S}.
#[global] Arguments if_write {S}.
#[global] Arguments if_hash {S}.

(** The functions of the fuse driver: the size or an error, storing, reading. *)
Record efuse_if (S : Type) := EfuseIf {
  efuse_getinfo : S -> list Z -> Z * Z;
  efuse_user_attr_store : S -> list Z -> list Z -> Z -> S * Z;
  efuse_user_attr_read : S -> list Z -> list Z -> list Z * Z;
}.
#[global] Arguments efuse_getinfo {S}.
#[global] Arguments efuse_user_attr_store {S}.
#[global] Arguments efuse_user_attr_read {S}.

(** strncmp with the length of the longer string. *)
Definition uk_find_item_by_name (l : list key_item_t) (nm : list Z) : option key_item_t :=
  head (filter (fun it => kname it = nm) l).
Definition uk_find_item_by_id (l : list key_item_t) (i : Z) : option key_item_t :=
  head (filter (fun it => id it = i) l).
Definition uk_count_key (l : list key_item_t) : Z := blen l.

Section Manager.
Context {S : Type} (ai : amlkey_if S) (ef : efuse_if S) (kmalloc : Z -> bool) (uk_hdr : list key_item_t).
Implicit Types (s : S).

(** The data, *real if it is written, and the result. *)
Definition key_storage_read s (nm data : list Z) (len flag : Z) : outcome (list Z * option Z * Z) :=
  if truthy (if_get_attr ai s nm .& KEY_ATTR_SECURE) then Done (data, None, - EINVAL)
  else
    let encrypt := if_get_attr ai s nm .& KEY_ATTR_ENCRYPT in
    let encrypt_dts := if truthy (u32 (flag .& KEY_ATTR_ENCRYPT)) then 1 else 0 in
    if negb (encrypt =? encrypt_dts) then Done (data, None, - EINVAL)
    else
      let* (data, read_len) := if_read ai s nm data len in
      if negb (read_len =? len) then Done (data, None, - EINVAL) else Done (data, Some read_len, 0).

Definition key_efuse_write s (nm data : list Z) (len : Z) : S * Z :=
  if fst (efuse_getinfo ef s nm) <? 0 then (s, - EINVAL)
  else
    let '(s, ret) := efuse_user_attr_store ef s nm data len in
    if ret <? 0 then (s, -1) else (s, 0).

Definition key_efuse_read s (nm data : list Z) (len : Z) : outcome (list Z * option Z * Z) :=
  let '(ret, size) := efuse_getinfo ef s nm in
  if ret <? 0 then Done (data, None, - EINVAL)
  else if negb (kmalloc size) then Done (data, None, - ENOMEM)
  else
    let '(buf, err) := efuse_user_attr_read ef s nm (zeros (Z.to_nat size)) in
    if 0 <=? err then
      let len := if size <? len then size else len in
      let* bs := rdn buf 0 len in
      let* data := wr data 0 bs in
      Done (data, Some size, err)
    else Done (data, None, err).

(** The state if it is written, and the result. *)
Definition key_efuse_query s (nm : list Z) : option Z * Z :=
  let '(ret, size) := efuse_getinfo ef s nm in
  if ret <? 0 then (None, - EINVAL)
  else if negb (kmalloc size) then (None, - ENOMEM)
  else
    let '(buf, err) := efuse_user_attr_read ef s nm (zeros (Z.to_nat size)) in
    (Some (if (0 <? err) && existsb (fun b => negb (b =? 0)) (take (Z.to_nat size) buf) then KEY_BURNED else KEY_EMPTY), err).

Definition key_unify_write s (nm data : list Z) (len : Z) : outcome (S * Z) :=
  match uk_find_item_by_name uk_hdr nm with
  | None => Done (s, - EINVAL)
  | Some key =>
      if negb (perm key .& KEY_PERM_WRITE =? KEY_PERM_WRITE) then Done (s, - EPERM)
      else if dev key =? KEY_EFUSE then Done (key_efuse_write s nm data len)
      else if (dev key =? KEY_SECURE) || (dev key =? KEY_NORMAL) then
        let a := if dev key =? KEY_SECURE then KEY_ATTR_SECURE else 0 in
        let a := a .| (if truthy (attr key .& KEY_ATTR_ENCRYPT) then KEY_ATTR_ENCRYPT else 0) in
        let* (s, write_len) := if_write ai s nm data len a in
        Done (s, if negb (write_len =? len) then - EINVAL else 0)
      else Done (s, 0)
  end.

(** [data]: None is NULL. *)
Definition key_unify_read s (nm : list Z) (data : option (list Z)) (len : Z) : outcome (option (list Z) * option Z * Z) :=
  match data with
  | None => Done (None, None, - EINVAL)
  | Some data =>
      match uk_find_item_by_name uk_hdr nm with
      | None => Done (Some data, None, - EINVAL)
      | Some key =>
          if negb (perm key .& KEY_PERM_READ =? KEY_PERM_READ) then Done (Some data, None, - EPERM)
          else if dev key =? KEY_EFUSE then
            let* (data, real, ret) := key_efuse_read s nm data len in Done (Some data, real, ret)
          else if dev key =? KEY_SECURE then
            let* (data, ret) := if_hash ai s nm data in Done (Some data, Some SHA256_SUM_LEN, ret)
          else if dev key =? KEY_NORMAL then
            let* (data, real, ret) := key_storage_read s nm data len (attr key) in Done (Some data, real, ret)
          else Done (Some data, None, 0)
      end
  end.

Definition key_unify_size s (nm : list Z) : option Z * Z :=
  match uk_find_item_by_name uk_hdr nm with
  | None => (None, - EINVAL)
  | Some key =>
      if negb (perm key .& KEY_PERM_READ =? KEY_PERM_READ) then (None, - EPERM)
      else if dev key =? KEY_EFUSE then
        let '(ret, size) := efuse_getinfo ef s nm in (if ret =? 0 then Some size else None, ret)
      else if (dev key =? KEY_SECURE) || (dev key =? KEY_NORMAL) then (Some (if_size ai s nm), 0)
      else (None, 0)
  end.

(** *state and *perm if they are written, and the result. *)
Definition key_unify_query s (nm : list Z) : option Z * option Z * Z :=
  match uk_find_item_by_name uk_hdr nm with
  | None => (None, None, - EINVAL)
  | Some key =>
      if negb (perm key .& KEY_PERM_READ =? KEY_PERM_READ) then (None, None, - EINVAL)
      else if dev key =? KEY_EFUSE then let '(st, ret) := key_efuse_query s nm in (st, Some (perm key), ret)
      else if (dev key =? KEY_SECURE) || (dev key =? KEY_NORMAL) then
        (Some (if truthy (if_exist ai s nm) then KEY_BURNED else KEY_EMPTY), Some (perm key), 0)
      else (None, None, 0)
  end.

(** [junk]: the value of the local variable state before the query. *)
Definition key_unify_secure s (nm : list Z) (junk : Z) : option Z * Z :=
  match uk_find_item_by_name uk_hdr nm with
  | None => (None, - EINVAL)
  | Some key =>
      let '(st, _, ret) := key_unify_query s (kname key) in
      if negb (ret =? 0) then (None, ret)
      else if default junk st =? KEY_BURNED then (Some (if_get_attr ai s (kname key) .& KEY_ATTR_SECURE), ret)
      else (Some (if dev key =? KEY_SECURE then 1 else 0), ret)
  end.
Definition key_unify_encrypt s (nm : list Z) (junk : Z) : option Z * Z :=
  match uk_find_item_by_name uk_hdr nm with
  | None => (None, - EINVAL)
  | Some key =>
      let '(st, _, ret) := key_unify_query s (kname key) in
      if negb (ret =? 0) then (None, ret)
      else if default junk st =? KEY_BURNED then (Some (if_get_attr ai s (kname key) .& KEY_ATTR_ENCRYPT), ret)
      else (Some (if truthy (attr key .& KEY_ATTR_ENCRYPT) then 1 else 0), ret)
  end.

(** ** The character device *)

(** The flag lock of the module; the result. *)
Definition unifykey_open (lock : Z) : Z * Z := if lock =? 1 then (lock, - EPERM) else (1, 0).
Definition unifykey_release (lock : Z) : Z * Z := (0, 0).

(** The position and the result. *)
Definition unifykey_llseek (f_pos off whence : Z) : Z * Z :=
  let go newpos :=
    if newpos <? 0 then (f_pos, - EINVAL)
    else if uk_count_key uk_hdr <=? newpos then (f_pos, - EINVAL)
    else (newpos, newpos) in
  if whence =? 0 then go off
  else if whence =? 1 then go (f_pos + off)
  else if whence =? 2 then go (uk_count_key uk_hdr - 1 - off)
  else (f_pos, - EINVAL).

(** The bytes copied to the user, and the result; [junk]: reallen before the
    call; [fault]: copy_to_user fails. *)
Definition unifykey_read s (ppos count junk : Z) (fault : bool) : outcome (list Z * Z) :=
  match uk_find_item_by_id uk_hdr (s32 ppos) with
  | None => Done ([], - EINVAL)
  | Some item =>
      let count := if dev item =? KEY_SECURE then SHA256_SUM_LEN else count in
      if negb (kmalloc count) then Done ([], - ENOMEM)
      else
        let* (buf, real, ret) := key_unify_read s (kname item) (Some (zeros (Z.to_nat count))) (u32 count) in
        if ret <? 0 then Done ([], ret)
        else
          let reallen := default junk real in
          let count := if reallen <? count then reallen else count in
          if fault then Done ([], - EFAULT)
          else let* bs := rdn (default [] buf) 0 count in Done (bs, s32 count)
  end.

(** [user]: what copy_from_user reads, None a fault. *)
Definition unifykey_write s (ppos count : Z) (user : option (list Z)) : outcome (S * Z) :=
  if negb (kmalloc count) then Done (s, - ENOMEM)
  else
    match uk_find_item_by_id uk_hdr (s32 ppos) with
    | None => Done (s, - EINVAL)
    | Some item =>
        match user with
        | None => Done (s, - EFAULT)
        | Some u =>
            let* (s, ret) := key_unify_write s (kname item) u (u32 count) in
            Done (s, if ret <? 0 then ret else s32 count)
        end
    end.
End Manager.

(** ** The interface for normal keys *)
Section Normal.
Context (digest : list Z -> list Z + Z) (kmalloc : Z -> bool) (D : Type) (junk : list Z).

Definition normal_if : amlkey_if (kif D) :=
  AmlIf _ (fun k nm => _amlkey_exist_normal k (Some nm)) (fun k nm => _amlkey_size_normal k (Some nm))
    (fun k nm => _amlkey_get_attr_normal k (Some nm)) (fun k nm => _amlkey_read_normal k (Some nm))
    (fun k nm buf len a => _amlkey_write_normal digest kmalloc k (Some nm) (Some buf) len a junk)
    (fun k nm => _amlkey_hash_normal k (Some nm)).

Context (ef : efuse_if (kif D)) (uk_hdr : list key_item_t).
Context (digest_length : forall d h, digest d = inl h -> length h = 32%nat) (kmalloc_ok : forall n, kmalloc n = true).
Context (ops : unifykey_storage_ops D) (bsz : Z) (holds : D -> list Z -> Prop) (healthy : D -> Prop)
  `{!Storage ops bsz holds healthy}.
Context (read write : io_fn D) (Hread : ops_read ops = Some read) (Hwrite : ops_write ops = Some write).

Abbreviation loaded_ := (loaded digest ops bsz holds).

Lemma get_attr_spec k m nm : loaded_ k m ->
  _amlkey_get_attr_normal k (Some nm) = match m !! nm with Some (a, _, _) => a | None => 0 end.
Proof using Type.
  intros [_ Hwf _ _ <- _ _ _]. unfold _amlkey_get_attr_normal, object.
  destruct (get_cases digest (nstore k) nm Hwf) as [(i & o & -> & Hi & _ & _ & ->)|(-> & _ & ->)]; [|done].
  cbn [mbind option_bind]. by rewrite Hi.
Qed.

(** A normal key of the board that may be read and written. *)
Record normal_item (key : key_item_t) (nm : list Z) : Prop := {
  ni_find : uk_find_item_by_name uk_hdr nm = Some key;
  ni_perm : perm key .& KEY_PERM_READ = KEY_PERM_READ /\ perm key .& KEY_PERM_WRITE = KEY_PERM_WRITE;
  ni_dev : dev key = KEY_NORMAL;
}.

Definition item_attr (key : key_item_t) : Z := if truthy (attr key .& KEY_ATTR_ENCRYPT) then KEY_ATTR_ENCRYPT else 0.

(** A successful write is in the store, with the encryption flag of the item. *)
Lemma unify_write_loaded k m key nm data len k' :
  loaded_ k m -> normal_item key nm -> args_ok data len (item_attr key) junk -> 0 < len ->
  key_unify_write normal_if ef uk_hdr k nm data len = Done (k', 0) -> loaded_ k' (put m nm data len (item_attr key)).
Proof using All.
  intros Hk [Hf [_ Hp] Hd] Ha Hl. unfold key_unify_write. rewrite Hf, Hp, Hd.
  cbn [Z.eqb Pos.eqb negb KEY_PERM_WRITE KEY_NORMAL KEY_EFUSE KEY_SECURE orb]. rewrite Z.lor_0_l. fold (item_attr key).
  cbn [if_write normal_if].
  destruct (write_cases digest kmalloc digest_length kmalloc_ok ops bsz holds healthy read write Hread Hwrite k m nm data len
    (item_attr key) junk Hk Ha) as (k1 & ret & -> & Hc). cbn [obind].
  destruct (Z.eqb_spec ret len) as [->|]; cbn [negb]; [|done]. intros [= <-].
  destruct (may_add _ _ _ _ _); [|destruct Hc; lia]. destruct Hc as [_ Hc].
  destruct (_ <=? _); [|destruct Hc; lia]. destruct Hc as [_ [Hc|(_ & Hc & _)]]; [lia|exact Hc].
Qed.

Lemma unify_read_normal k key nm out n :
  normal_item key nm ->
  key_unify_read normal_if ef kmalloc uk_hdr k nm (Some out) n =
  let* (data, real, ret) := key_storage_read normal_if k nm out n (attr key) in Done (Some data, real, ret).
Proof using Type. intros [Hf [Hp _] Hd]. unfold key_unify_read. by rewrite Hf, Hp, Hd. Qed.

(** A normal key that is not to be encrypted and whose write succeeds is
    read back in full by a read of its length. *)
Theorem plain_key_read_back k m key nm data len k' out :
  loaded_ k m -> normal_item key nm -> attr key .& KEY_ATTR_ENCRYPT = 0 -> args_ok data len 0 junk -> 0 < len ->
  key_unify_write normal_if ef uk_hdr k nm data len = Done (k', 0) -> len <= blen out ->
  key_unify_read normal_if ef kmalloc uk_hdr k' nm (Some out) len =
  Done (Some (splice out 0 (take (Z.to_nat len) data)), Some len, 0).
Proof using All.
  intros Hk Hi He Ha Hl Hw Ho. assert (Hia : item_attr key = 0) by (unfold item_attr; by rewrite He).
  rewrite <- Hia in Ha. pose proof (unify_write_loaded k m key nm data len k' Hk Hi Ha Hl Hw) as Hk'. rewrite Hia in Hk'.
  rewrite (unify_read_normal _ key) by exact Hi. unfold key_storage_read. cbn [if_get_attr normal_if if_read].
  rewrite (get_attr_spec _ _ _ Hk'). unfold put at 1 2. rewrite lookup_insert_eq, He. cbn [truthy Z.land Z.eqb negb u32 Z.modulo].
  rewrite (read_spec digest ops bsz holds _ _ _ _ _ Hk'). unfold put. rewrite lookup_insert_eq.
  assert (Hlt : blen (take (Z.to_nat len) data) = len) by (rewrite length_take; destruct Ha; lia).
  rewrite Hlt, Z.leb_refl, wr_Done by lia. cbn [obind]. rewrite !Z.eqb_refl. reflexivity.
Qed.

(** A normal key that is to be encrypted can be written but never read:
    the flag kept with the key is 256, the flag of the board file counts as 1, and the
    read is refused because they differ. *)
Theorem encrypted_key_unreadable k m key nm data len k' out n :
  loaded_ k m -> normal_item key nm -> attr key .& KEY_ATTR_ENCRYPT = KEY_ATTR_ENCRYPT ->
  args_ok data len KEY_ATTR_ENCRYPT junk -> 0 < len ->
  key_unify_write normal_if ef uk_hdr k nm data len = Done (k', 0) ->
  key_unify_read normal_if ef kmalloc uk_hdr k' nm (Some out) n = Done (Some out, None, - EINVAL).
Proof using All.
  intros Hk Hi He Ha Hl Hw. assert (Hia : item_attr key = KEY_ATTR_ENCRYPT) by (unfold item_attr; by rewrite He).
  rewrite <- Hia in Ha. pose proof (unify_write_loaded k m key nm data len k' Hk Hi Ha Hl Hw) as Hk'. rewrite Hia in Hk'.
  rewrite (unify_read_normal _ key) by exact Hi. unfold key_storage_read. cbn [if_get_attr normal_if].
  rewrite (get_attr_spec _ _ _ Hk'). unfold put. rewrite lookup_insert_eq, He. reflexivity.
Qed.
End Normal.

(** ** The character device *)

(** Reading a secure key through the character device copies the 32 bytes of
    its hash to the user whatever length the user asked for. *)
Theorem secure_read_ignores_count {S} (ai : amlkey_if S) ef kmalloc uk_hdr (s : S) ppos count junk item h :
  uk_find_item_by_id uk_hdr (s32 ppos) = Some item -> uk_find_item_by_name uk_hdr (kname item) = Some item ->
  dev item = KEY_SECURE -> perm item .& KEY_PERM_READ = KEY_PERM_READ -> kmalloc 32 = true ->
  length h = 32%nat -> if_hash ai s (kname item) (zeros 32) = Done (h, 0) ->
  unifykey_read ai ef kmalloc uk_hdr s ppos count junk false = Done (h, 32).
Proof.
  intros Hid Hn Hd Hp Hk Hh Hi. unfold unifykey_read. rewrite Hid, Hd. cbn [Z.eqb Pos.eqb KEY_SECURE]. change SHA256_SUM_LEN with 32.
  rewrite Hk. cbn [negb]. unfold key_unify_read. rewrite Hn, Hp, Hd.
  cbn [Z.eqb Pos.eqb negb KEY_PERM_READ KEY_EFUSE KEY_SECURE]. change (zeros (Z.to_nat 32)) with (zeros 32).
  rewrite Hi. cbn [obind default]. change (0 <? 0) with false. cbn iota. change (SHA256_SUM_LEN <? 32) with false. cbn iota.
  change (if Datatypes.id SHA256_SUM_LEN <? 32 then Datatypes.id SHA256_SUM_LEN else 32) with 32.
  change (Datatypes.id h) with h.
  rewrite rdn_Done by lia. cbn [obind]. rewrite drop_0, take_ge by lia. reflexivity.
Qed.

(** ** Witnesses *)

Definition no_efuse (S : Type) : efuse_if S := EfuseIf S (fun _ _ => (-1, 0)) (fun s _ _ _ => (s, -1)) (fun _ _ b => (b, -1)).
Definition plain_item : key_item_t := Item [109] 0 KEY_NORMAL 3 0.
Definition crypt_item : key_item_t := Item [110] 1 KEY_NORMAL 3 KEY_ATTR_ENCRYPT.
Definition secure_item : key_item_t := Item [111] 2 KEY_SECURE 1 0.
Definition board_keys : list key_item_t := [plain_item; crypt_item; secure_item].
Definition ram_if : amlkey_if (kif (list Z)) := normal_if sum_digest (fun _ => true) (list Z) (zeros 80).

Lemma plain_key_read_back_witness : exists k',
  key_unify_write ram_if (no_efuse _) board_keys ram_kif [109] [1; 2; 3] 3 = Done (k', 0) /\
  key_unify_read ram_if (no_efuse _) (fun _ => true) board_keys k' [109] (Some [0; 0; 0; 9]) 3 =
  Done (Some [1; 2; 3; 9], Some 3, 0).
Proof.
  destruct (key_unify_write ram_if (no_efuse _) board_keys ram_kif [109] [1; 2; 3] 3) as [[k' ret]| |] eqn:E;
    [|by vm_compute in E..].
  assert (ret = 0) as -> by (vm_compute in E; congruence). exists k'. split; [reflexivity|].
  exact (plain_key_read_back sum_digest (fun _ => true) (list Z) (zeros 80) (no_efuse _) board_keys sum_digest_length
    (fun _ => eq_refl) ram_ops 2048 ram_holds (fun _ => True) ram_read ram_write eq_refl eq_refl ram_kif ∅ plain_item [109]
    [1; 2; 3] 3 k' [0; 0; 0; 9] ram_loaded (Build_normal_item board_keys plain_item [109] eq_refl (conj eq_refl eq_refl) eq_refl)
    eq_refl (demo_args [1; 2; 3] 3 0 eq_refl ltac:(lia) ltac:(lia)) ltac:(lia) E ltac:(cbn; lia)).
Defined.

Lemma encrypted_key_unreadable_witness : exists k',
  key_unify_write ram_if (no_efuse _) board_keys ram_kif [110] [1; 2; 3] 3 = Done (k', 0) /\
  key_unify_read ram_if (no_efuse _) (fun _ => true) board_keys k' [110] (Some [0; 0; 0]) 3 =
  Done (Some [0; 0; 0], None, - EINVAL).
Proof.
  destruct (key_unify_write ram_if (no_efuse _) board_keys ram_kif [110] [1; 2; 3] 3) as [[k' ret]| |] eqn:E;
    [|by vm_compute in E..].
  assert (ret = 0) as -> by (vm_compute in E; congruence). exists k'. split; [reflexivity|].
  exact (encrypted_key_unreadable sum_digest (fun _ => true) (list Z) (zeros 80) (no_efuse _) board_keys sum_digest_length
    (fun _ => eq_refl) ram_ops 2048 ram_holds (fun _ => True) ram_read ram_write eq_refl eq_refl ram_kif ∅ crypt_item [110]
    [1; 2; 3] 3 k' [0; 0; 0] 3 ram_loaded (Build_normal_item board_keys crypt_item [110] eq_refl (conj eq_refl eq_refl) eq_refl)
    eq_refl (demo_args [1; 2; 3] 3 KEY_ATTR_ENCRYPT eq_refl ltac:(lia) ltac:(unfold KEY_ATTR_ENCRYPT; lia)) ltac:(lia) E).
Defined.

Definition hash_if : amlkey_if unit :=
  AmlIf unit (fun _ _ => 1) (fun _ _ => 16) (fun _ _ => 1) (fun _ _ b _ => Done (b, 0)) (fun s _ _ _ _ => Done (s, 0))
    (fun _ _ _ => Done (replicate 32 7, 0)).
Lemma secure_read_ignores_count_witness :
  unifykey_read hash_if (no_efuse _) (fun _ => true) board_keys tt 2 4 0 false = Done (replicate 32 7, 32).
Proof. by apply (secure_read_ignores_count hash_if (no_efuse _) (fun _ => true) board_keys tt 2 4 0 secure_item). Defined.
End UniKey.
