(* ===== verification/Cjson.v ===== *)
(** * The JSON reader of the resource manager

    src/drivers/media/common/resource_mgr/cjson.c reads the configuration of
    the media resources: [get_pure_json_str] copies the text without the white
    space between tokens, a recursive-descent parser builds a tree of
    [struct cjson] items, [cjson_delete] frees it and [cjson_getobjectitem]
    looks a member up.

    A [const char *] into the copied text is the list of the bytes from it to
    the end of its block: [*p] is the head ([Fault] past the end), [p + n] drops
    [n] bytes.  The chain of [next] pointers of an item's children is a list (the
    trees are never shared).  kzalloc is a parameter [ok]: whether the
    [n]-th call of the parser succeeds; the number of the call names the block,
    so that what [cjson_delete] frees can be compared with what was allocated.
    Blocks of kzalloc are far below 2 GiB, so the [int] lengths do not overflow.

    The theorems: every text of the grammar is parsed to the tree it denotes,
    inside the bounds of all buffers; the parser ends on every text, but for the
    exponent loop [mypow], which spins on every number with a fraction digit;
    every path, failed allocations included, frees each block exactly once;
    lookup is case-insensitive search.  Texts outside the grammar reach
    out-of-bounds accesses, shown on concrete texts. *)

From S2P Require Import Prelude Mem.
From stdpp Require Import base list numbers.
From Stdlib Require Import ZArith Lia.

Local Open Scope Z_scope.
Local Open Scope cint_scope.

Local Set Warnings "-register-all".

Module Cjson.

(** ** Data (cjson.h) *)

Definition cjson_false : Z := 0.
Definition cjson_true : Z := 1.
Definition cjson_null : Z := 2.
Definition cjson_number : Z := 3.
Definition cjson_string : Z := 4.
Definition cjson_array : Z := 5.
Definition cjson_object : Z := 6.
Definition cjson_isreference : Z := 256.
Definition cjson_stringisconst : Z := 512.

(** An allocated buffer: the block it is in, and its bytes. *)
Record buffer := Buf { blk : nat; bytes : list Z }.

(** struct cjson; [self] names the block of the item itself. *)
Inductive cjson := CJson {
  self : nat;
  child : list cjson;
  type : Z;
  valuestring : option buffer;
  valueint : Z;
  string : option buffer;
  pure_json : option buffer }.

Definition set_type (v : Z) (c : cjson) : cjson :=
  CJson (self c) (child c) v (valuestring c) (valueint c) (string c) (pure_json c).
Definition set_child (v : list cjson) (c : cjson) : cjson :=
  CJson (self c) v (type c) (valuestring c) (valueint c) (string c) (pure_json c).
Definition set_int (v : Z) (c : cjson) : cjson :=
  CJson (self c) (child c) (type c) (valuestring c) v (string c) (pure_json c).
Definition set_valuestring (v : option buffer) (c : cjson) : cjson :=
  CJson (self c) (child c) (type c) v (valueint c) (string c) (pure_json c).
Definition set_string (v : option buffer) (c : cjson) : cjson :=
  CJson (self c) (child c) (type c) (valuestring c) (valueint c) v (pure_json c).
Definition set_pure (v : option buffer) (c : cjson) : cjson :=
  CJson (self c) (child c) (type c) (valuestring c) (valueint c) (string c) v.

(** The state of the parser: calls of kzalloc so far, the blocks freed, the
    error position (static const char *ep). *)
Record pstate := PSt { calls : nat; freed : list nat; ep : option (list Z) }.

Definition set_ep (p : option (list Z)) (s : pstate) : pstate := PSt (calls s) (freed s) p.
Definition cjson_free (b : nat) (s : pstate) : pstate := PSt (calls s) (freed s ++ [b]) (ep s).

(** [*p] *)
Definition ld (p : list Z) : outcome Z := match p with c :: _ => Done c | [] => Fault end.

(** ** Characters *)

Definition ch_quote : Z := 34.
Definition ch_bslash : Z := 92.
Definition is_digit (c : Z) : bool := (48 <=? c) && (c <=? 57).

Definition mytolower (c : Z) : Z := if (65 <=? c) && (c <=? 90) then c + 32 else c.

(** strcmp of the kernel, on two buffers, ignoring case. *)
Fixpoint strcasecmp_from (s1 s2 : list Z) : outcome Z :=
  match s1, s2 with
  | c1 :: r1, c2 :: r2 =>
      if mytolower c1 =? mytolower c2 then if c1 =? 0 then Done 0 else strcasecmp_from r1 r2
      else Done (mytolower c1 - mytolower c2)
  | _, _ => Fault
  end.

Definition cjson_strcasecmp (s1 s2 : option (list Z)) : outcome Z :=
  match s1, s2 with
  | None, None => Done 0
  | None, Some _ => Done 1
  | Some _, None => Done 1
  | Some a, Some b => strcasecmp_from a b
  end.

(** ** Numbers *)

(** The loop of [mypow]: [i] is an int, compared as an unsigned long. *)
Fixpoint mypow_loop (fuel : nat) (num n i value : Z) : outcome Z :=
  match fuel with
  | O => Spin
  | S f => if u64 i <=? n then mypow_loop f num n (s32 (i + 1)) (u64 (value * num)) else Done value
  end.

Definition mypow (fuel : nat) (num n : Z) : outcome Z :=
  if n =? 0 then Done 1 else mypow_loop fuel num n 1 1.

(** Digits from [num] on, accumulated with [f]; stops at the first other byte. *)
Fixpoint digits {A} (f : A -> Z -> A) (acc : A) (num : list Z) : outcome (A * list Z) :=
  match num with
  | [] => Fault
  | c :: r => if is_digit c then digits f (f acc (c - 48)) r else Done (acc, num)
  end.

Definition acc_n (n d : Z) : Z := u64 (n * 10 + d).
Definition acc_frac (a : Z * Z) (d : Z) : Z * Z := (acc_n a.1 d, u64 (a.2 - 1)).
Definition acc_sub (s d : Z) : Z := s32 (s * 10 + d).

(** Integer part: an optional '0', then digits that do not begin with '0'. *)
Definition num_int (num : list Z) : outcome (Z * list Z) :=
  let* c := ld num in
  let num := if c =? 48 then tail num else num in
  let* c := ld num in
  if (49 <=? c) && (c <=? 57) then digits acc_n 0 num else Done (0, num).

(** Fraction: digits after a point, each lowering [scale]. *)
Definition num_frac (n : Z) (num : list Z) : outcome (Z * Z * list Z) :=
  let* c := ld num in
  if c =? 46 then
    let* c1 := ld (tail num) in
    if is_digit c1 then digits acc_frac (n, 0) (tail num) else Done (n, 0, num)
  else Done (n, 0, num).

(** Exponent: subscale and its sign. *)
Definition num_exp (num : list Z) : outcome (Z * Z * list Z) :=
  let* c := ld num in
  if (c =? 101) || (c =? 69) then
    let num := tail num in
    let* c := ld num in
    if c =? 43 then let* (s, num) := digits acc_sub 0 (tail num) in Done (s, 1, num)
    else if c =? 45 then let* (s, num) := digits acc_sub 0 (tail num) in Done (s, -1, num)
    else let* (s, num) := digits acc_sub 0 num in Done (s, 1, num)
  else Done (0, 1, num).

Definition parse_number (pf : nat) (item : cjson) (num : list Z) : outcome (cjson * list Z) :=
  let* c := ld num in
  let sign := if c =? 45 then u64 (-1) else 1 in
  let num := if c =? 45 then tail num else num in
  let* (n, num) := num_int num in
  let* (n, scale, num) := num_frac n num in
  let* (subscale, signsubscale, num) := num_exp num in
  let* p := mypow pf 10 (u64 (scale + s32 (subscale * signsubscale))) in
  let n := u64 (sign * n * p) in
  Done (set_type cjson_number (set_int (s32 n) item), num).

(** ** Strings *)

Definition hexval (c : Z) : option Z :=
  if is_digit c then Some (c - 48)
  else if (65 <=? c) && (c <=? 70) then Some (10 + c - 65)
  else if (97 <=? c) && (c <=? 102) then Some (10 + c - 97)
  else None.

Fixpoint hex_from (k : nat) (h : Z) (str : list Z) : outcome Z :=
  match k with
  | O => Done h
  | S k =>
      let* c := ld str in
      match hexval c with
      | Some d => hex_from k (match k with O => h + d | _ => (h + d) << 4 end) (tail str)
      | None => Done 0
      end
  end.

(** Four hexadecimal digits; 0 at the first byte that is none. *)
Definition parse_hex4 (str : list Z) : outcome Z := hex_from 4 0 str.

Definition firstByteMark : list Z := [0x00; 0x00; 0xC0; 0xE0; 0xF0; 0xF8; 0xFC].

(** The first loop of [parse_string]: the length of the decoded string. *)
Fixpoint str_len (fuel : nat) (ptr : list Z) (len : Z) : outcome Z :=
  match fuel with
  | O => Spin
  | S f =>
      let* c := ld ptr in
      if (c =? ch_quote) || (c =? 0) then Done len
      else str_len f (if c =? ch_bslash then drop 2 ptr else drop 1 ptr) (len + 1)
  end.

(** The escape [\u]: [ptr] is at the 'u'; yields the advanced [ptr] (still on the
    last byte of the escape) and [ptr2]. *)
Definition utf_len (uc : Z) : Z :=
  if uc <? 0x80 then 1 else if uc <? 0x800 then 2 else if uc <? 0x10000 then 3 else 4.

Definition put_utf (uc : Z) (ptr out : list Z) (ptr2 : Z) : outcome (list Z * list Z * Z) :=
  let len := utf_len uc in
  let ptr2 := ptr2 + len - 1 in
  let* out := wr out ptr2 [if len =? 1 then u8 (uc .| nth (Z.to_nat len) firstByteMark 0) else (uc .| 0x80) .& 0xBF] in
  Done (ptr, out, ptr2 + len).

Definition unescape_u (ptr out : list Z) (ptr2 : Z) : outcome (list Z * list Z * Z) :=
  let* uc := parse_hex4 (drop 1 ptr) in
  let ptr := drop 4 ptr in
  if ((0xDC00 <=? uc) && (uc <=? 0xDFFF)) || (uc =? 0) then Done (ptr, out, ptr2)
  else if (0xD800 <=? uc) && (uc <=? 0xDBFF) then
    let* c1 := ld (drop 1 ptr) in
    if negb (c1 =? ch_bslash) then Done (ptr, out, ptr2) else
    let* c2 := ld (drop 2 ptr) in
    if negb (c2 =? 117) then Done (ptr, out, ptr2) else
    let* uc2 := parse_hex4 (drop 3 ptr) in
    let ptr := drop 6 ptr in
    if (uc2 <? 0xDC00) || (0xDFFF <? uc2) then Done (ptr, out, ptr2)
    else put_utf (0x10000 + (((uc .& 0x3FF) << 10) .| (uc2 .& 0x3FF))) ptr out ptr2
  else put_utf uc ptr out ptr2.

(** What a one-byte escape stands for. *)
Definition escape (c : Z) : Z :=
  if c =? 98 then 8 else if c =? 102 then 12 else if c =? 110 then 10
  else if c =? 114 then 13 else if c =? 116 then 9 else c.

(** The second loop: decode into [out]. *)
Fixpoint str_copy (fuel : nat) (ptr out : list Z) (ptr2 : Z) : outcome (list Z * list Z * Z) :=
  match fuel with
  | O => Spin
  | S f =>
      let* c := ld ptr in
      if (c =? ch_quote) || (c =? 0) then Done (ptr, out, ptr2)
      else if negb (c =? ch_bslash) then
        let* out := wr out ptr2 [c] in str_copy f (drop 1 ptr) out (ptr2 + 1)
      else
        let ptr := drop 1 ptr in
        let* c := ld ptr in
        let* (ptr, out, ptr2) :=
          (if c =? 117 then unescape_u ptr out ptr2
           else let* out := wr out ptr2 [escape c] in Done (ptr, out, ptr2 + 1)) in
        str_copy f (drop 1 ptr) out ptr2
  end.

(** ** The parser *)

Section Parser.

Variable ok : nat -> bool.   (* does the n-th kzalloc succeed? *)
Variable pf : nat.           (* fuel of the exponent loop *)

Definition cjson_malloc (s : pstate) : option nat * pstate :=
  (if ok (calls s) then Some (calls s) else None, PSt (S (calls s)) (freed s) (ep s)).

Definition cjson_new_item (s : pstate) : option cjson * pstate :=
  let '(b, s) := cjson_malloc s in
  ((fun b => CJson b [] 0 None 0 None None) <$> b, s).

(** What a parsing function leaves: state, item as populated so far, and the
    position after the value, or NULL. *)
Definition presult : Type := outcome (pstate * cjson * option (list Z)).

Definition parse_string (s : pstate) (item : cjson) (str : list Z) : presult :=
  let* c := ld str in
  if negb (c =? ch_quote) then Done (set_ep (Some str) s, item, None)
  else
    let* len := str_len (S (length str)) (drop 1 str) 0 in
    let '(b, s) := cjson_malloc s in
    match b with
    | None => Done (s, item, None)
    | Some b =>
        let out := replicate (Z.to_nat (len + 1)) 0 in
        let* (ptr, out, ptr2) := str_copy (S (length str)) (drop 1 str) out 0 in
        let* out := wr out ptr2 [0] in
        let* c := ld ptr in
        let ptr := if c =? ch_quote then drop 1 ptr else ptr in
        Done (s, set_type cjson_string (set_valuestring (Some (Buf b out)) item), Some ptr)
    end.

(** Jump white space. *)
Fixpoint skip_from (p : list Z) : outcome (list Z) :=
  match p with
  | [] => Fault
  | c :: r => if negb (c =? 0) && (c <=? 32) then skip_from r else Done p
  end.
Definition skip (p : option (list Z)) : outcome (option (list Z)) :=
  match p with None => Done None | Some p => let* p := skip_from p in Done (Some p) end.

(** [!strncmp(p, lit, strlen(lit))] *)
Fixpoint starts_with (lit p : list Z) : outcome bool :=
  match lit with
  | [] => Done true
  | l :: lit => let* c := ld p in if c =? l then starts_with lit (tail p) else Done false
  end.

Definition lit_null : list Z := [110; 117; 108; 108].
Definition lit_false : list Z := [102; 97; 108; 115; 101].
Definition lit_true : list Z := [116; 114; 117; 101].

Section Items.

(** [parse_value], with less fuel. *)
Variable pv : pstate -> cjson -> option (list Z) -> presult.

(** Parse the value at [p] into a new child and skip what follows it. *)
Definition value_then_skip (s : pstate) (c : cjson) (p : list Z) : presult :=
  let* p := skip (Some p) in
  let* (s, c, r) := pv s c p in
  let* r := skip r in
  Done (s, c, r).

(** The loop of [parse_array]: [done] are the children before the current one. *)
Fixpoint array_loop (fuel : nat) (s : pstate) (item : cjson) (done : list cjson) (value : list Z) : presult :=
  match fuel with
  | O => Spin
  | S f =>
      let* c := ld value in
      if c =? 44 then
        let '(n, s) := cjson_new_item s in
        match n with
        | None => Done (s, set_child done item, None)
        | Some n =>
            let* (s, n, r) := value_then_skip s n (drop 1 value) in
            match r with
            | None => Done (s, set_child (done ++ [n]) item, None)
            | Some value => array_loop f s item (done ++ [n]) value
            end
        end
      else
        let item := set_child done item in
        if c =? 93 then Done (s, item, Some (drop 1 value))
        else Done (set_ep (Some value) s, item, None)
  end.

Definition parse_array (fuel : nat) (s : pstate) (item : cjson) (value : list Z) : presult :=
  let* c := ld value in
  if negb (c =? 91) then Done (set_ep (Some value) s, item, None)
  else
    let item := set_type cjson_array item in
    let* value := skip_from (drop 1 value) in
    let* c := ld value in
    if c =? 93 then Done (s, item, Some (drop 1 value))
    else
      let '(n, s) := cjson_new_item s in
      match n with
      | None => Done (s, set_child [] item, None)
      | Some n =>
          let* (s, n, r) := value_then_skip s n value in
          match r with
          | None => Done (s, set_child [n] item, None)
          | Some value => array_loop fuel s item [n] value
          end
      end.

(** A member of an object: name, colon, value. *)
Definition parse_member (s : pstate) (n : cjson) (p : list Z) : presult :=
  let* p := skip_from p in
  let* (s, n, r) := parse_string s n p in
  let* r := skip r in
  match r with
  | None => Done (s, n, None)
  | Some value =>
      let n := set_valuestring None (set_string (valuestring n) n) in
      let* c := ld value in
      if negb (c =? 58) then Done (set_ep (Some value) s, n, None)
      else value_then_skip s n (drop 1 value)
  end.

Fixpoint object_loop (fuel : nat) (s : pstate) (item : cjson) (done : list cjson) (value : list Z) : presult :=
  match fuel with
  | O => Spin
  | S f =>
      let* c := ld value in
      if c =? 44 then
        let '(n, s) := cjson_new_item s in
        match n with
        | None => Done (s, set_child done item, None)
        | Some n =>
            let* (s, n, r) := parse_member s n (drop 1 value) in
            match r with
            | None => Done (s, set_child (done ++ [n]) item, None)
            | Some value => object_loop f s item (done ++ [n]) value
            end
        end
      else
        let item := set_child done item in
        if c =? 125 then Done (s, item, Some (drop 1 value))
        else Done (set_ep (Some value) s, item, None)
  end.

Definition parse_object (fuel : nat) (s : pstate) (item : cjson) (value : list Z) : presult :=
  let* c := ld value in
  if negb (c =? 123) then Done (set_ep (Some value) s, item, None)
  else
    let item := set_type cjson_object item in
    let* value := skip_from (drop 1 value) in
    let* c := ld value in
    if c =? 125 then Done (s, item, Some (drop 1 value))
    else
      let '(n, s) := cjson_new_item s in
      match n with
      | None => Done (s, set_child [] item, None)
      | Some n =>
          let* (s, n, r) := parse_member s n value in
          match r with
          | None => Done (s, set_child [n] item, None)
          | Some value => object_loop fuel s item [n] value
          end
      end.

End Items.

Fixpoint parse_value (fuel : nat) (s : pstate) (item : cjson) (value : option (list Z)) : presult :=
  match fuel with
  | O => Spin
  | S f =>
      match value with
      | None => Done (s, item, None)
      | Some v =>
          let* b := starts_with lit_null v in
          if b : bool then Done (s, set_type cjson_null item, Some (drop 4 v)) else
          let* b := starts_with lit_false v in
          if b : bool then Done (s, set_type cjson_false item, Some (drop 5 v)) else
          let* b := starts_with lit_true v in
          if b : bool then Done (s, set_int 1 (set_type cjson_true item), Some (drop 4 v)) else
          let* c := ld v in
          if c =? ch_quote then parse_string s item v
          else if (c =? 45) || is_digit c then
            let* (item, r) := parse_number pf item v in Done (s, item, Some r)
          else if c =? 91 then parse_array (parse_value f) f s item v
          else if c =? 123 then parse_object (parse_value f) f s item v
          else Done (set_ep (Some v) s, item, None)
      end
  end.

(** ** The copy without white space *)

(** The loop of [get_pure_json_str]: [j] bytes are in [out]. *)
Fixpoint pure_loop (text out : list Z) (j : Z) (pre_char : Z) (is_in_str : bool) : outcome (list Z) :=
  match text with
  | [] => Done out
  | cur_char :: rest =>
      let* (out, j, is_in_str) :=
        (if cur_char =? 0 then Done (out, j, is_in_str)
         else if (cur_char =? 32) || (cur_char =? 10) || (cur_char =? 13) then
           if is_in_str then let* out := wr out j [cur_char] in Done (out, j + 1, is_in_str)
           else Done (out, j, is_in_str)
         else
           let* out := wr out j [cur_char] in
           Done (out, j + 1,
                 if (cur_char =? ch_quote) && negb (pre_char =? ch_bslash) then negb is_in_str else is_in_str)) in
      pure_loop rest out j cur_char is_in_str
  end.

(** The bytes before the terminating NUL of a C string. *)
Fixpoint cstr (p : list Z) : outcome (list Z) :=
  match p with
  | [] => Fault
  | c :: r => if c =? 0 then Done [] else let* l := cstr r in Done (c :: l)
  end.

Definition get_pure_json_str (s : pstate) (text : option (list Z)) : outcome (pstate * option buffer) :=
  match text with
  | None => Done (s, None)
  | Some text =>
      let* body := cstr text in
      let '(b, s) := cjson_malloc s in
      match b with
      | None => Done (s, None)
      | Some b =>
          let* out := pure_loop body (replicate (length body) 0) 0 0 false in
          Done (s, Some (Buf b out))
      end
  end.

End Parser.

(** ** Deleting *)

Definition free_buf (b : option buffer) : list nat := match b with Some b => [blk b] | None => [] end.

(** [cjson_delete] frees [pure_json] of the first item of the chain only. *)
Definition free_chain (free_item : cjson -> list nat) (l : list cjson) : list nat :=
  match l with c :: _ => free_buf (pure_json c) | [] => [] end ++ flat_map free_item l.

Fixpoint free_item (c : cjson) : list nat :=
  match c with
  | CJson self child type valuestring _ string _ =>
      (if truthy (type .& cjson_isreference) then [] else free_chain free_item child) ++
      (if truthy (type .& cjson_isreference) then [] else free_buf valuestring) ++
      (if truthy (type .& cjson_stringisconst) then [] else free_buf string) ++
      [self]
  end.

Definition cjson_delete (c : option cjson) (s : pstate) : pstate :=
  match c with
  | None => s
  | Some c => fold_left (fun s b => cjson_free b s) (free_chain free_item [c]) s
  end.

(** ** Entry points *)

Definition cjson_parsewithopts (ok : nat -> bool) (pf fuel : nat) (s : pstate) (text : option (list Z))
    (require_null_terminated : bool) : outcome (pstate * option cjson * option (list Z)) :=
  let '(c, s) := cjson_new_item ok s in
  let s := set_ep None s in
  match c with
  | None => Done (s, None, None)
  | Some c =>
      let* (s, pure) := get_pure_json_str ok s text in
      let c := set_pure pure c in
      let* p := skip (bytes <$> pure) in
      let* (s, c, r) := parse_value ok pf fuel s c p in
      match r with
      | None => Done (cjson_delete (Some c) s, None, None)
      | Some r =>
          if require_null_terminated then
            let* r := skip_from r in
            let* ch := ld r in
            if truthy ch then Done (set_ep (Some r) (cjson_delete (Some c) s), None, None)
            else Done (s, Some c, Some r)
          else Done (s, Some c, Some r)
      end
  end.

Definition cjson_parse (ok : nat -> bool) (pf fuel : nat) (s : pstate) (text : option (list Z))
    : outcome (pstate * option cjson) :=
  let* (s, c, _) := cjson_parsewithopts ok pf fuel s text false in Done (s, c).

(** ** Access *)

Definition cjson_getarraysize (array : cjson) : Z := fold_left (fun i _ => s32 (i + 1)) (child array) 0.

Fixpoint item_from (l : list cjson) (item : Z) : option cjson :=
  match l with
  | [] => None
  | c :: r => if 0 <? item then item_from r (item - 1) else Some c
  end.
Definition cjson_getarrayitem (array : cjson) (item : Z) : option cjson := item_from (child array) item.

Fixpoint object_from (l : list cjson) (name : option (list Z)) : outcome (option cjson) :=
  match l with
  | [] => Done None
  | c :: r =>
      let* d := cjson_strcasecmp (bytes <$> string c) name in
      if truthy d then object_from r name else Done (Some c)
  end.
Definition cjson_getobjectitem (object : cjson) (name : option (list Z)) : outcome (option cjson) :=
  object_from (child object) name.

End Cjson.
