(* ===== verification/CjsonGrammar.v ===== *)
(** * The JSON reader accepts its grammar

    A grammar of JSON texts ([renders]) and the round trip: every text of the
    grammar is parsed, inside the bounds of every buffer, to a tree that denotes
    the value it was rendered from. *)

From S2P Require Import Prelude Mem Cjson.
From stdpp Require Import base list numbers.
From Stdlib Require Import ZArith Lia.

Local Open Scope Z_scope.
Local Open Scope cint_scope.
Local Set Warnings "-register-all".

Module CjsonGrammar.
Import Cjson.

(** ** Values and their texts *)

Inductive json :=
  | JNull | JFalse | JTrue
  | JNum (z : Z)
  | JStr (s : list Z)
  | JArr (l : list json)
  | JObj (l : list (list Z * json)).

(** White space as the parser takes it. *)
Definition ws (w : list Z) : Prop := Forall (fun c => 1 <= c <= 32) w.

(** Decimal digits, without a leading zero but for zero itself. *)
Definition dval (ds : list Z) : Z := fold_left (fun a c => a * 10 + (c - 48)) ds 0.
Definition decimal (ds : list Z) : Prop :=
  Forall (fun c => 48 <= c <= 57) ds /\ (ds = [48] \/ exists d r, ds = d :: r /\ d <> 48).

Inductive num_text : Z -> list Z -> Prop :=
  | nt_pos ds : decimal ds -> dval ds < 2 ^ 31 -> num_text (dval ds) ds
  | nt_neg ds : decimal ds -> dval ds <= 2 ^ 31 -> num_text (- dval ds) (45 :: ds).

(** The inside of a string: the bytes [b], written as [s]; [n] is the length
    the parser reserves.  Escapes of code points stop at ASCII. *)
Inductive str_body : list Z -> nat -> list Z -> Prop :=
  | sb_nil : str_body [] 0 []
  | sb_raw c b n s : c <> 0 -> c <> ch_quote -> c <> ch_bslash ->
      str_body b n s -> str_body (c :: b) (S n) (c :: s)
  | sb_esc e b n s : e <> 0 -> e <> 117 ->
      str_body b n s -> str_body (escape e :: b) (S n) (ch_bslash :: e :: s)
  | sb_uni h1 h2 h3 h4 uc b n s :
      parse_hex4 [h1; h2; h3; h4] = Done uc -> 1 <= uc < 0x80 ->
      str_body b n s -> str_body (uc :: b) (5 + n) (ch_bslash :: 117 :: h1 :: h2 :: h3 :: h4 :: s).

(** A string does not end in an escaped backslash: [get_pure_json_str] takes
    the quote after it for an escaped one. *)
Definition str_text (b s : list Z) : Prop :=
  exists n body, str_body b n body /\ s = ch_quote :: body ++ [ch_quote] /\ List.last body 0 <> ch_bslash.

Inductive renders : json -> list Z -> Prop :=
  | r_null : renders JNull lit_null
  | r_false : renders JFalse lit_false
  | r_true : renders JTrue lit_true
  | r_num z s : num_text z s -> renders (JNum z) s
  | r_str b s : str_text b s -> renders (JStr b) s
  | r_arr0 w : ws w -> renders (JArr []) (91 :: w ++ [93])
  | r_arr w v s w' l t : ws w -> renders v s -> ws w' -> items l t ->
      renders (JArr (v :: l)) (91 :: w ++ s ++ w' ++ t)
  | r_obj0 w : ws w -> renders (JObj []) (123 :: w ++ [125])
  | r_obj w k m l t : ws w -> member k m -> members l t ->
      renders (JObj (k :: l)) (123 :: w ++ m ++ t)
with items : list json -> list Z -> Prop :=
  | i_nil : items [] [93]
  | i_cons w v s w' l t : ws w -> renders v s -> ws w' -> items l t ->
      items (v :: l) (44 :: w ++ s ++ w' ++ t)
with member : list Z * json -> list Z -> Prop :=
  | m_one k ks w1 w2 v s w3 : str_text k ks -> ws w1 -> ws w2 -> renders v s -> ws w3 ->
      member (k, v) (ks ++ w1 ++ 58 :: w2 ++ s ++ w3)
with members : list (list Z * json) -> list Z -> Prop :=
  | ms_nil : members [] [125]
  | ms_cons w k m l t : ws w -> member k m -> members l t ->
      members (k :: l) (44 :: w ++ m ++ t).

Scheme renders_mut := Induction for renders Sort Prop
  with items_mut := Induction for items Sort Prop
  with member_mut := Induction for member Sort Prop
  with members_mut := Induction for members Sort Prop.
Combined Scheme renders_items_ind from renders_mut, items_mut, member_mut, members_mut.

(** ** What a tree denotes *)

Definition cstring (b : option buffer) : list Z :=
  match b with
  | Some b => match cstr (bytes b) with Done l => l | _ => [] end
  | None => []
  end.

(** A name, where there is one, is NUL-terminated. *)
Definition named (c : cjson) : Prop :=
  match string c with
  | Some b => exists l r, bytes b = l ++ 0 :: r /\ Forall (fun x => x <> 0) l
  | None => True
  end.

(** The value fields are those of the type: text of a string, number of a
    number, 1 for true; only the members of an object have names. *)
Definition plain_value (c : cjson) : Prop :=
  match valuestring c with
  | Some b => type c = cjson_string /\ exists l r, bytes b = l ++ 0 :: r /\ Forall (fun x => x <> 0) l
  | None => type c <> cjson_string
  end /\
  (type c = cjson_number \/ valueint c = if type c =? cjson_true then 1 else 0) /\
  (type c = cjson_object \/ Forall (fun x => string x = None) (child c)).

(** So for the whole tree. *)
Inductive sound (c : cjson) : Prop :=
  Sound { s_named : named c; s_child : Forall sound (child c); s_value : plain_value c }.

(** An item that was just allocated. *)
Definition fresh_item (c : cjson) : Prop := child c = [] /\ valuestring c = None /\ valueint c = 0.

Fixpoint json_of (c : cjson) : json :=
  match c with
  | CJson _ child type valuestring valueint _ _ =>
      if type =? cjson_false then JFalse
      else if type =? cjson_true then JTrue
      else if type =? cjson_number then JNum valueint
      else if type =? cjson_string then JStr (cstring valuestring)
      else if type =? cjson_array then JArr (map json_of child)
      else if type =? cjson_object then JObj (map (fun c => (cstring (string c), json_of c)) child)
      else JNull
  end.

(** ** White space and first bytes *)

Lemma skip_ws w p c r : ws w -> p = c :: r -> 32 < c -> skip_from (w ++ p) = Done p.
Proof.
  intros Hw -> Hc. induction Hw as [|x w Hx Hw IH]; cbn.
  - rewrite (proj2 (Z.leb_gt c 32)), andb_false_r by lia. done.
  - rewrite (proj2 (Z.eqb_neq x 0)), (proj2 (Z.leb_le x 32)) by lia. done.
Qed.

(** The bytes a text may begin with. *)
Definition first (P : Z -> Prop) (s : list Z) : Prop := exists c r, s = c :: r /\ P c.

Lemma first_app P s r : first P s -> first P (s ++ r).
Proof. intros (c & t & -> & H). by exists c, (t ++ r). Qed.
Lemma first_cons (P : Z -> Prop) c s : P c -> first P (c :: s).
Proof. intros H. by exists c, s. Qed.
Lemma first_impl (P Q : Z -> Prop) s : first P s -> (forall c, P c -> Q c) -> first Q s.
Proof. intros (c & r & -> & H) HQ. exists c, r. auto. Qed.

Lemma str_text_first b s : str_text b s -> first (fun c => c = ch_quote) s.
Proof. intros (n & body & _ & -> & _). by apply first_cons. Qed.

Lemma decimal_first ds : decimal ds -> first (fun c => 48 <= c <= 57) ds.
Proof.
  intros (HF & [-> | (d & r & -> & _)]); [apply first_cons; lia|].
  apply first_cons. by apply Forall_cons_1 in HF as [? _].
Qed.

Definition value_start (c : Z) : Prop := 32 < c /\ c <> 93 /\ c <> 125 /\ c <> 44 /\ c <> 58.

Lemma renders_first v s : renders v s -> first value_start s.
Proof.
  unfold value_start, ch_quote. intros H. destruct H; try (by apply first_cons; lia).
  - destruct H as [ds Hd _ | ds Hd _].
    + eapply first_impl; [by apply decimal_first|]. cbn. lia.
    + apply first_cons. lia.
  - eapply first_impl; [by eapply str_text_first|]. unfold ch_quote. cbn. lia.
Qed.

Lemma skip_ws_first w p P : ws w -> first P p -> (forall c, P c -> 32 < c) -> skip_from (w ++ p) = Done p.
Proof. intros Hw (c & r & -> & Hc) HP. eapply skip_ws; eauto. Qed.

(** Bytes that end a number. *)
Definition stop (c : Z) : Prop := is_digit c = false /\ c <> 46 /\ c <> 101 /\ c <> 69.

Lemma ws_then_stop w t : ws w -> first stop t -> first stop (w ++ t).
Proof.
  intros Hw Ht. destruct Hw as [|x w Hx Hw]; [done|]. cbn. apply first_cons.
  unfold stop, is_digit. rewrite (proj2 (Z.leb_gt 48 x)) by lia. cbn. lia.
Qed.

Lemma items_stop l t : items l t -> first (fun c => 32 < c /\ stop c) t.
Proof. intros H. destruct H; apply first_cons; unfold stop; cbn; lia. Qed.
Lemma members_stop l t : members l t -> first (fun c => 32 < c /\ stop c) t.
Proof. intros H. destruct H; apply first_cons; unfold stop; cbn; lia. Qed.

(** ** Numbers *)

Lemma digits_acc_n ds p n :
  Forall (fun c => 48 <= c <= 57) ds -> first (fun c => is_digit c = false) p ->
  digits acc_n (u64 n) (ds ++ p) = Done (u64 (fold_left (fun a c => a * 10 + (c - 48)) ds n), p).
Proof.
  intros Hds (c & r & -> & Hc). revert n. induction Hds as [|d ds Hd Hds IH]; intros n; cbn.
  - by rewrite Hc.
  - unfold is_digit. rewrite (proj2 (Z.leb_le 48 d)), (proj2 (Z.leb_le d 57)) by lia. cbn.
    rewrite <- IH. f_equal. unfold acc_n, u64.
    by rewrite <- Z.add_mod_idemp_l, Z.mul_mod_idemp_l, Z.add_mod_idemp_l by done.
Qed.

Lemma num_int_decimal ds p :
  decimal ds -> first (fun c => is_digit c = false) p -> num_int (ds ++ p) = Done (u64 (dval ds), p).
Proof.
  intros (HF & Hd) Hp. pose proof Hp as (c & r & -> & Hc). unfold num_int.
  destruct Hd as [-> | (d & t & -> & Hd)].
  - cbn. unfold is_digit in Hc. destruct ((49 <=? c) && (c <=? 57)) eqn:E; [|done]. b2p. lia.
  - pose proof (Forall_inv HF) as Hd'. cbn in Hd'. cbn [app ld obind].
    rewrite (proj2 (Z.eqb_neq d 48)) by lia. cbn [ld obind].
    rewrite (proj2 (Z.leb_le 49 d)), (proj2 (Z.leb_le d 57)) by lia. cbn [andb].
    change 0 with (u64 0). exact (digits_acc_n (d :: t) _ 0 HF Hp).
Qed.

Lemma s32_u64 x : s32 (u64 x) = s32 x.
Proof.
  unfold s32, u64. f_equal. rewrite <- (Z.add_mod_idemp_l (x mod _)), <- (Z.add_mod_idemp_l x) by done.
  do 2 f_equal. change (2 ^ 64) with (2 ^ 32 * 2 ^ 32). rewrite Z.rem_mul_r by done.
  rewrite Z.mul_comm, Z.mod_add by done. by rewrite Z.mod_mod.
Qed.

Lemma s32_mul_u64 a n : s32 (a * u64 n) = s32 (a * n).
Proof.
  rewrite <- (s32_u64 (a * u64 n)), <- (s32_u64 (a * n)). unfold u64. by rewrite Z.mul_mod_idemp_r.
Qed.

(** A number without fraction and exponent. *)
Lemma number_tail pf item sign ds p :
  decimal ds -> first stop p ->
  (let* (n, num) := num_int (ds ++ p) in
   let* (n, scale, num) := num_frac n num in
   let* (subscale, signsubscale, num) := num_exp num in
   let* q := mypow pf 10 (u64 (scale + s32 (subscale * signsubscale))) in
   Done (set_type cjson_number (set_int (s32 (u64 (sign * n * q))) item), num))
  = Done (set_type cjson_number (set_int (s32 (sign * dval ds)) item), p).
Proof.
  intros Hd Hp. rewrite num_int_decimal by (done || by eapply first_impl; [exact Hp|]; intros ? [? _]). cbn [obind].
  destruct Hp as (c & r & -> & H0 & H1 & H2 & H3). unfold num_frac, num_exp.
  cbn [ld obind]. rewrite (proj2 (Z.eqb_neq c 46)) by done. cbn [ld obind].
  rewrite (proj2 (Z.eqb_neq c 101)), (proj2 (Z.eqb_neq c 69)) by done. cbn [orb obind].
  change (mypow _ _ _) with (Done 1). cbn [obind].
  by rewrite s32_u64, Z.mul_1_r, s32_mul_u64.
Qed.

Lemma dval_nonneg ds : decimal ds -> 0 <= dval ds.
Proof.
  intros [HF _]. unfold dval. cut (forall a, 0 <= a -> 0 <= fold_left (fun a c => a * 10 + (c - 48)) ds a).
  { intros H. apply H. lia. }
  induction HF as [|d ds Hd HF IH]; intros a Ha; cbn; [done|]. apply IH. lia.
Qed.

Lemma parse_number_ok pf item z s p :
  num_text z s -> first stop p ->
  parse_number pf item (s ++ p) = Done (set_type cjson_number (set_int z item), p).
Proof.
  intros Hs Hp. unfold parse_number. destruct Hs as [ds Hd Hb | ds Hd Hb];
    pose proof (dval_nonneg ds Hd) as Hn.
  - pose proof (decimal_first ds Hd) as (d & t & Ed & Hd1). rewrite Ed at 1. cbn [app ld obind].
    assert ((d =? 45) = false) as -> by (apply Z.eqb_neq; lia).
    rewrite number_tail, Z.mul_1_l by done. by rewrite s32_small by lia.
  - cbn [app ld obind]. rewrite Z.eqb_refl. cbn [tail]. rewrite number_tail by done.
    do 4 f_equal. rewrite Z.mul_comm, s32_mul_u64. rewrite s32_small; lia.
Qed.

(** ** Strings *)

Lemma str_body_length b n s : str_body b n s -> (length b <= n)%nat.
Proof. induction 1; cbn; lia. Qed.

Lemma hex4_app h1 h2 h3 h4 r : parse_hex4 (h1 :: h2 :: h3 :: h4 :: r) = parse_hex4 [h1; h2; h3; h4].
Proof. unfold parse_hex4. cbn. by repeat case_match. Qed.

(** The digits of an escape with a value are not quotes, NULs or backslashes. *)
Lemma hex4_digit h1 h2 h3 h4 uc : parse_hex4 [h1; h2; h3; h4] = Done uc -> 1 <= uc ->
  Forall (fun h => is_Some (hexval h)) [h1; h2; h3; h4].
Proof.
  unfold parse_hex4. cbn [hex_from ld obind tail]. intros H Hu.
  repeat first [constructor | eauto];
  repeat match type of H with context [match hexval ?h with _ => _ end] =>
    destruct (hexval h) eqn:?; [|injection H as <-; lia] end; eauto.
Qed.

Lemma hexval_byte h : is_Some (hexval h) -> h <> ch_quote /\ h <> ch_bslash /\ h <> 0 /\ 32 < h.
Proof.
  intros [x H]. unfold hexval, is_digit, ch_quote, ch_bslash in *.
  repeat case_match; b2p; lia || done.
Qed.

Lemma str_len_step fuel c r len : c <> ch_quote -> c <> ch_bslash -> c <> 0 ->
  str_len (S fuel) (c :: r) len = str_len fuel r (len + 1).
Proof.
  intros H1 H2 H3. cbn. by rewrite (proj2 (Z.eqb_neq c ch_quote)), (proj2 (Z.eqb_neq c 0)), (proj2 (Z.eqb_neq c ch_bslash)).
Qed.

Lemma str_len_ok b n s r : str_body b n s -> forall fuel len,
  (length s < fuel)%nat -> str_len fuel (s ++ ch_quote :: r) len = Done (len + Z.of_nat n).
Proof.
  induction 1 as [|c b n s Hc1 Hc2 Hc3 Hs IH|e b n s He1 He2 Hs IH|h1 h2 h3 h4 uc b n s Hh Hu Hs IH];
    intros fuel len Hf; cbn [length] in Hf.
  - destruct fuel; [lia|]. cbn. do 2 f_equal. lia.
  - destruct fuel; [lia|]. cbn [app]. rewrite str_len_step by done. rewrite IH by lia. f_equal. lia.
  - destruct fuel; [lia|]. cbn. rewrite drop_0, IH by lia. f_equal. lia.
  - apply hex4_digit in Hh; [|lia]. rewrite !Forall_cons_iff in Hh.
    destruct Hh as ((? & ? & ? & _)%hexval_byte & (? & ? & ? & _)%hexval_byte & (? & ? & ? & _)%hexval_byte & (? & ? & ? & _)%hexval_byte & _).
    do 5 (destruct fuel as [|fuel]; [lia|]). cbn [app].
    change (str_len (S ?f) (ch_bslash :: 117 :: ?x) ?l) with (str_len f (drop 0 x) (l + 1)). rewrite drop_0.
    rewrite !str_len_step by done. rewrite IH by lia. f_equal. lia.
Qed.

(** Writing at the end of what is decoded. *)
Lemma wr_next d k c : wr (d ++ replicate (S k) 0) (blen d) [c] = Done ((d ++ [c]) ++ replicate k 0).
Proof.
  rewrite wr_Done; [|lia|rewrite length_app, length_replicate; cbn; lia].
  change (replicate (S k) 0) with ([0] ++ replicate k 0). rewrite splice_mid by done. by rewrite <- app_assoc.
Qed.

Lemma put_ascii uc ptr d k : 1 <= uc < 0x80 ->
  put_utf uc ptr (d ++ replicate (S k) 0) (blen d) = Done (ptr, (d ++ [uc]) ++ replicate k 0, blen d + 1).
Proof.
  intros Hu. unfold put_utf, utf_len. rewrite (proj2 (Z.ltb_lt uc 0x80)) by lia.
  cbn [Z.eqb]. replace (blen d + 1 - 1) with (blen d) by lia.
  replace (u8 (uc .| nth (Z.to_nat 1) firstByteMark 0)) with uc.
  - by rewrite wr_next.
  - cbn. rewrite Z.lor_0_r, u8_small by lia. done.
Qed.

(** The loop at a backslash. *)
Lemma str_copy_bslash fuel c p out ptr2 :
  str_copy (S fuel) (ch_bslash :: c :: p) out ptr2 =
  let* (ptr, out, ptr2) :=
    (if c =? 117 then unescape_u (c :: p) out ptr2
     else let* out := wr out ptr2 [escape c] in Done (c :: p, out, ptr2 + 1)) in
  str_copy fuel (drop 1 ptr) out ptr2.
Proof. done. Qed.

Lemma str_copy_ok b n s r : str_body b n s -> forall fuel d k,
  (length s < fuel)%nat -> (n <= k)%nat ->
  str_copy fuel (s ++ ch_quote :: r) (d ++ replicate k 0) (blen d)
  = Done (ch_quote :: r, (d ++ b) ++ replicate (k - length b) 0, blen (d ++ b)).
Proof.
  induction 1 as [|c b n s Hc1 Hc2 Hc3 Hs IH|e b n s He1 He2 Hs IH|h1 h2 h3 h4 uc b n s Hh Hu Hs IH];
    intros fuel d k Hf Hk; cbn [length] in Hf; (destruct fuel as [|fuel]; [lia|]).
  - cbn. by rewrite app_nil_r, Nat.sub_0_r.
  - destruct k as [|k]; [lia|]. cbn [str_copy app ld obind].
    rewrite (proj2 (Z.eqb_neq c ch_quote)), (proj2 (Z.eqb_neq c 0)), (proj2 (Z.eqb_neq c ch_bslash)) by done.
    cbn [orb negb]. rewrite wr_next. cbn [obind drop].
    replace (blen d + 1) with (blen (d ++ [c])) by (rewrite length_app; cbn; lia).
    rewrite drop_0, IH by lia. by rewrite <- (app_assoc d).
  - destruct k as [|k]; [lia|]. cbn [app]. rewrite str_copy_bslash.
    rewrite (proj2 (Z.eqb_neq e 117)) by done. rewrite wr_next. cbn [obind drop].
    replace (blen d + 1) with (blen (d ++ [escape e])) by (rewrite length_app; cbn; lia).
    rewrite drop_0, IH by lia. by rewrite <- (app_assoc d).
  - do 5 (destruct k as [|k]; [lia|]). cbn [app]. rewrite str_copy_bslash, Z.eqb_refl.
    unfold unescape_u. cbn [drop]. rewrite !drop_0, hex4_app, Hh. cbn [obind].
    rewrite !(proj2 (Z.leb_gt _ uc)), (proj2 (Z.eqb_neq uc 0)) by lia. cbn [andb orb].
    rewrite put_ascii by done. cbn [obind drop].
    replace (blen d + 1) with (blen (d ++ [uc])) by (rewrite length_app; cbn; lia).
    rewrite drop_0, IH by lia. by rewrite <- (app_assoc d).
Qed.

Lemma str_body_nonzero b n s : str_body b n s -> Forall (fun c => c <> 0) b.
Proof.
  induction 1; constructor; try done; [|lia]. unfold escape. repeat case_match; lia.
Qed.

Lemma cstr_app b r : Forall (fun c => c <> 0) b -> cstr (b ++ 0 :: r) = Done b.
Proof.
  induction 1 as [|c b Hc Hb IH]; [done|]. cbn. rewrite (proj2 (Z.eqb_neq c 0)), IH by done. done.
Qed.

Definition all : nat -> bool := fun _ => true.

Lemma parse_string_ok st item b s r :
  str_text b s -> exists st' out,
    parse_string all st item (s ++ r) = Done (st', set_type cjson_string (set_valuestring (Some out) item), Some r)
    /\ cstring (Some out) = b /\ exists r, bytes out = b ++ 0 :: r /\ Forall (fun x => x <> 0) b.
Proof.
  intros (n & body & Hb & -> & _). unfold parse_string. cbn [app ld obind]. rewrite Z.eqb_refl. cbn [negb].
  rewrite <- app_assoc. cbn [drop app]. rewrite drop_0.
  assert (Hl : (length body < S (length (ch_quote :: body ++ ch_quote :: r)))%nat)
    by (cbn; rewrite length_app; lia).
  rewrite (str_len_ok _ _ _ _ Hb) by done. cbn [obind].
  unfold cjson_malloc, all. pose proof (str_body_length _ _ _ Hb) as Hn.
  replace (Z.to_nat (0 + Z.of_nat n + 1)) with (S n) by lia.
  pose proof (str_copy_ok _ _ _ r Hb (S (length (ch_quote :: body ++ ch_quote :: r))) [] (S n) Hl ltac:(lia)) as Hc.
  cbn [app length] in Hc. change (Z.of_nat 0) with 0 in Hc. cbn [app length]. rewrite Hc. cbn [obind].
  replace (S n - length b)%nat with (S (n - length b)) by lia. rewrite wr_next. cbn [obind ld]. rewrite Z.eqb_refl.
  cbn [drop]. rewrite drop_0. eexists _, _. split; [done|]. cbn.
  pose proof (str_body_nonzero _ _ _ Hb). rewrite <- app_assoc. cbn. split; [by rewrite cstr_app|eauto].
Qed.

(** ** Values *)

Section Values.
Variable pf : nat.
Abbreviation pv := (parse_value all pf).

(** What follows a value inside an array or an object. *)
Definition after (c : Z) : Prop := 32 < c /\ stop c.

Definition parses (v : json) (s : list Z) : Prop :=
  forall fuel st item r, (length s < fuel)%nat -> fresh_item item ->
    match v with JNum _ => first stop r | _ => True end ->
    exists st' item', pv fuel st item (Some (s ++ r)) = Done (st', item', Some r)
      /\ json_of item' = v /\ string item' = string item /\ Forall sound (child item') /\ plain_value item'.

Definition parses_items (l : list json) (t : list Z) : Prop :=
  forall F fuel st item done r, (length t < F)%nat -> (length t < fuel)%nat ->
    exists st' ch, array_loop all (pv F) fuel st item done (t ++ r)
      = Done (st', set_child (done ++ ch) item, Some r) /\ map json_of ch = l /\ Forall sound ch /\ Forall (fun x => string x = None) ch.

Definition parses_member (kv : list Z * json) (m : list Z) : Prop :=
  forall F st n r, (length m < F)%nat -> fresh_item n -> first after r ->
    exists st' n', parse_member all (pv F) st n (m ++ r) = Done (st', n', Some r)
      /\ (cstring (string n'), json_of n') = kv /\ sound n'.

Definition parses_members (l : list (list Z * json)) (t : list Z) : Prop :=
  forall F fuel st item done r, (length t < F)%nat -> (length t < fuel)%nat ->
    exists st' ch, object_loop all (pv F) fuel st item done (t ++ r)
      = Done (st', set_child (done ++ ch) item, Some r)
      /\ map (fun c => (cstring (string c), json_of c)) ch = l /\ Forall sound ch.

Lemma value_then_skip_ok v s w w' t F st c :
  parses v s -> renders v s -> ws w -> ws w' -> first after t -> (length s < F)%nat -> fresh_item c ->
  exists st' c', value_then_skip (pv F) st c (w ++ s ++ w' ++ t) = Done (st', c', Some t)
    /\ json_of c' = v /\ string c' = string c /\ Forall sound (child c') /\ plain_value c'.
Proof.
  intros Hp Hr Hw Hw' Ht HF Hc. unfold value_then_skip, skip.
  rewrite (skip_ws_first w _ value_start); [|done|by apply first_app, renders_first with v|by intros ? [? _]].
  cbn [obind]. destruct (Hp F st c (w' ++ t) HF Hc) as (st' & c' & -> & Hj & Hs & Hnm & Hpv).
  { destruct v; try done. apply ws_then_stop; [done|]. eapply first_impl; [done|]. by intros ? [_ ?]. }
  cbn [obind]. rewrite (skip_ws_first w' _ after); [|done|done|by intros ? [? _]]. cbn. eauto 8.
Qed.

Lemma items_after l t r : items l t -> first after (t ++ r).
Proof. intros H. by apply first_app, items_stop with l. Qed.
Lemma members_after l t r : members l t -> first after (t ++ r).
Proof. intros H. by apply first_app, members_stop with l. Qed.

Lemma items_step w v s w' l t :
  ws w -> renders v s -> parses v s -> ws w' -> items l t -> parses_items l t ->
  parses_items (v :: l) (44 :: w ++ s ++ w' ++ t).
Proof.
  intros Hw Hr Hp Hw' Hi IH F fuel st item done r HF Hf. cbn [length] in HF, Hf. rewrite !length_app in HF, Hf.
  destruct fuel as [|fuel]; [lia|]. cbn [array_loop app ld obind Z.eqb Pos.eqb]. unfold cjson_new_item. cbn [cjson_malloc all fmap option_fmap option_map].
  rewrite <- !app_assoc. cbn [drop]. rewrite drop_0.
  destruct (value_then_skip_ok v s w w' (t ++ r) F (PSt (S (calls st)) (freed st) (ep st)) (CJson (calls st) [] 0 None 0 None None))
    as (st' & c' & -> & Hj & Hs & Hch' & Hpv); try done; [by eapply items_after|lia|].
  cbn [obind]. destruct (IH F fuel st' item (done ++ [c']) r) as (st'' & ch & -> & Hch & Hnm & Hnn); [lia..|].
  exists st'', (c' :: ch). rewrite <- app_assoc. split; [done|]. cbn. rewrite Hj, Hch. split; [done|].
  split; [|by constructor]. constructor; [|done]. split; [|done..]. unfold named. by rewrite Hs.
Qed.

Lemma member_first k m : member k m -> first (fun c => c = ch_quote) m.
Proof. intros H. destruct H as [k ks ? ? ? ? ? Hk]. by apply first_app, str_text_first with k. Qed.

(** White space before a member. *)
Lemma parse_member_skip F st n w p P :
  ws w -> first P p -> (forall c, P c -> 32 < c) -> parse_member all (pv F) st n (w ++ p) = parse_member all (pv F) st n p.
Proof.
  intros Hw Hp HP. unfold parse_member. assert (Hw0 : ws []) by constructor.
  rewrite (skip_ws_first w p P) by done. by rewrite <- (skip_ws_first [] p P Hw0 Hp HP).
Qed.

Lemma member_ok k ks w1 w2 v s w3 :
  str_text k ks -> ws w1 -> ws w2 -> renders v s -> parses v s -> ws w3 ->
  parses_member (k, v) (ks ++ w1 ++ 58 :: w2 ++ s ++ w3).
Proof.
  intros Hk Hw1 Hw2 Hr Hp Hw3 F st n r HF Hn Hfr. unfold parse_member. rewrite !length_app in HF. cbn in HF.
  rewrite !length_app in HF. rewrite <- !app_assoc.
  change (skip_from ?x) with (skip_from ([] ++ x)).
  rewrite (skip_ws_first [] _ (fun c => c = ch_quote)); [|constructor|by apply first_app, str_text_first with k|by intros ? ->].
  cbn [obind]. destruct (parse_string_ok st n k ks (w1 ++ (58 :: w2 ++ s ++ w3) ++ r) Hk) as (st1 & out & -> & Hout & r1 & Hb & Hnz).
  cbn [obind app]. unfold skip at 1. rewrite (skip_ws w1 _ 58 ((w2 ++ s ++ w3) ++ r)) by done. cbn [obind ld Z.eqb Pos.eqb negb drop].
  rewrite drop_0, <- !app_assoc.
  edestruct (value_then_skip_ok v s w2 w3 r F st1) as (st2 & n' & E & Hj & Hs & Hch & Hpv); [done..|lia| |].
  2:{ rewrite E. exists st2, n'. split; [done|]. split; [rewrite Hj, Hs; cbn; by rewrite <- Hout|]. split; [|done..]. unfold named. rewrite Hs. cbn. eauto. }
  destruct Hn as (Hn1 & _ & Hn3). done.
Qed.

Lemma members_step w k m l t :
  ws w -> member k m -> parses_member k m -> members l t -> parses_members l t ->
  parses_members (k :: l) (44 :: w ++ m ++ t).
Proof.
  intros Hw Hr Hp Hi IH F fuel st item done r HF Hf. cbn [length] in HF, Hf. rewrite !length_app in HF, Hf.
  destruct fuel as [|fuel]; [lia|]. cbn [object_loop app ld obind Z.eqb Pos.eqb]. unfold cjson_new_item.
  cbn [cjson_malloc all fmap option_fmap option_map]. rewrite <- !app_assoc. cbn [drop]. rewrite drop_0.
  rewrite parse_member_skip with (P := fun c => c = ch_quote); [|done|by apply first_app, member_first with k|by intros ? ->].
  destruct (Hp F (PSt (S (calls st)) (freed st) (ep st)) (CJson (calls st) [] 0 None 0 None None) (t ++ r))
    as (st' & c' & -> & Hj & Hn); [lia|done|by eapply members_after|].
  cbn [obind]. destruct (IH F fuel st' item (done ++ [c']) r) as (st'' & ch & -> & Hch & Hnm); [lia..|].
  exists st'', (c' :: ch). rewrite <- app_assoc. split; [done|]. cbn. rewrite Hj, Hch. split; [done|]. by constructor.
Qed.

(** Values that are not arrays or objects. *)
Lemma literals_ok v lit :
  (v, lit) = (JNull, lit_null) \/ (v, lit) = (JFalse, lit_false) \/ (v, lit) = (JTrue, lit_true) -> parses v lit.
Proof.
  intros H fuel st item r Hf Hc _. destruct fuel as [|fuel]; [lia|].
  destruct H as [[= -> ->] | [[= -> ->] | [= -> ->]]]; cbn; rewrite ?drop_0; eexists _, _; (split; [done|]); destruct Hc as (Hc1 & Hc2 & Hc3); unfold plain_value; cbn; rewrite ?Hc1, ?Hc2, ?Hc3; repeat split; auto; by right.
Qed.

Lemma not_literal c r fuel st item :
  c <> 110 -> c <> 102 -> c <> 116 ->
  pv (S fuel) st item (Some (c :: r)) =
    if c =? ch_quote then parse_string all st item (c :: r)
    else if (c =? 45) || is_digit c then
      let* (item, r) := parse_number pf item (c :: r) in Done (st, item, Some r)
    else if c =? 91 then parse_array all (pv fuel) fuel st item (c :: r)
    else if c =? 123 then parse_object all (pv fuel) fuel st item (c :: r)
    else Done (set_ep (Some (c :: r)) st, item, None).
Proof.
  intros H1 H2 H3. cbn. by rewrite (proj2 (Z.eqb_neq c 110)), (proj2 (Z.eqb_neq c 102)), (proj2 (Z.eqb_neq c 116)).
Qed.

Lemma value_bracket r fuel st item :
  pv (S fuel) st item (Some (91 :: r)) = parse_array all (pv fuel) fuel st item (91 :: r).
Proof. done. Qed.
Lemma value_brace r fuel st item :
  pv (S fuel) st item (Some (123 :: r)) = parse_object all (pv fuel) fuel st item (123 :: r).
Proof. done. Qed.

Lemma num_text_first z s : num_text z s -> first (fun c => c = 45 \/ 48 <= c <= 57) s.
Proof.
  intros [ds Hd _ | ds Hd _]; [|apply first_cons; lia].
  eapply first_impl; [by apply decimal_first|]. cbn. lia.
Qed.

Lemma number_ok z s : num_text z s -> parses (JNum z) s.
Proof.
  intros Hs fuel st item r Hf Hch Hst. destruct fuel as [|fuel]; [lia|].
  pose proof (num_text_first z s Hs) as (c & t & E & Hc). pose proof (parse_number_ok pf item z s r Hs Hst) as Hn.
  rewrite E in Hn |- *. cbn [app] in Hn |- *. rewrite not_literal by lia. unfold ch_quote, is_digit.
  assert (Hor : (c =? 45) || (48 <=? c) && (c <=? 57) = true).
  { destruct Hc as [-> | Hc]; [done|]. by rewrite (proj2 (Z.leb_le 48 c)), (proj2 (Z.leb_le c 57)), orb_true_r by lia. }
  rewrite (proj2 (Z.eqb_neq c 34)), Hor, Hn by lia. cbn. eexists _, _. split; [done|]. destruct Hch as (Hc1 & Hc2 & Hc3). unfold plain_value. cbn. rewrite Hc1, Hc2. repeat split; [done|done|by left|by right].
Qed.

Lemma string_ok b s : str_text b s -> parses (JStr b) s.
Proof.
  intros Hs fuel st item r Hf Hch _. destruct fuel as [|fuel]; [lia|].
  pose proof (str_text_first b s Hs) as (c & t & E & ->).
  destruct (parse_string_ok st item b s r Hs) as (st' & out & Hp & Ho & r1 & Hb & Hnz). rewrite E in Hp |- *.
  cbn [app] in Hp |- *. rewrite not_literal by done. cbn [Z.eqb]. rewrite Z.eqb_refl, Hp.
  eexists _, _. split; [done|]. destruct Hch as (Hc1 & Hc2 & Hc3). unfold plain_value. cbn in Ho |- *. rewrite Ho, Hc1, Hc3. repeat split; eauto.
Qed.

Lemma array_ok w v s w' l t :
  ws w -> renders v s -> parses v s -> ws w' -> items l t -> parses_items l t ->
  parses (JArr (v :: l)) (91 :: w ++ s ++ w' ++ t).
Proof.
  intros Hw Hr Hp Hw' Hi IH fuel st item r Hf Hc _. cbn [length] in Hf. rewrite !length_app in Hf.
  destruct fuel as [|fuel]; [lia|]. cbn [app]. rewrite value_bracket.
  unfold parse_array. rewrite <- !app_assoc. cbn [ld obind Z.eqb Pos.eqb negb drop]. rewrite drop_0.
  rewrite (skip_ws_first w _ value_start); [|done|by apply first_app, renders_first with v|by intros ? [? _]]. cbn [obind].
  pose proof (renders_first v s Hr) as (c & s' & E & Hc1 & Hc2 & _).
  assert (ld (s ++ w' ++ t ++ r) = Done c) as -> by (by rewrite E). cbn [obind].
  rewrite (proj2 (Z.eqb_neq c 93)) by done. unfold cjson_new_item. cbn [cjson_malloc all fmap option_fmap option_map].
  edestruct (value_then_skip_ok v s [] w' (t ++ r) fuel) as (st' & c' & E' & Hj & Hs & Hch' & Hpv);
    [done|done|constructor|done|by eapply items_after|lia| |].
  2:{ cbn [app] in E'. rewrite E'. cbn [obind].
      destruct (IH fuel fuel st' (set_type cjson_array item) [c'] r) as (st'' & ch & -> & Hch & Hnm & Hnn); [lia..|].
      exists st''. eexists. split; [done|]. destruct Hc as (_ & Hc1' & Hc2'). unfold plain_value. cbn. rewrite Hj, Hch, Hc1', Hc2'. repeat split; [|done|by right|right; by constructor].
      constructor; [|done]. split; [unfold named; by rewrite Hs|done..]. }
  done.
Qed.

Lemma object_ok w k m l t :
  ws w -> member k m -> parses_member k m -> members l t -> parses_members l t ->
  parses (JObj (k :: l)) (123 :: w ++ m ++ t).
Proof.
  intros Hw Hr Hp Hi IH fuel st item r Hf Hc _. cbn [length] in Hf. rewrite !length_app in Hf.
  destruct fuel as [|fuel]; [lia|]. cbn [app]. rewrite value_brace.
  unfold parse_object. rewrite <- !app_assoc. cbn [ld obind Z.eqb Pos.eqb negb drop]. rewrite drop_0.
  rewrite (skip_ws_first w _ (fun c => c = ch_quote)); [|done|by apply first_app, member_first with k|by intros ? ->]. cbn [obind].
  pose proof (member_first k m Hr) as (c & s' & E & ->).
  assert (ld (m ++ t ++ r) = Done ch_quote) as -> by (by rewrite E). cbn [obind].
  unfold cjson_new_item. cbn [cjson_malloc all fmap option_fmap option_map Z.eqb Pos.eqb ch_quote].
  edestruct (Hp fuel) as (st' & c' & E' & Hj & Hn); [lia| |by eapply members_after with (r := r)|].
  2:{ rewrite E'. cbn [obind].
      destruct (IH fuel fuel st' (set_type cjson_object item) [c'] r) as (st'' & ch & -> & Hch & Hnm); [lia..|].
      exists st''. eexists. split; [done|]. destruct Hc as (_ & Hc1' & Hc2'). unfold plain_value. cbn. rewrite Hj, Hch, Hc1', Hc2'. repeat split; [|done|by right|by left].
      by constructor. }
  done.
Qed.

Lemma empty_ok w : ws w -> parses (JArr []) (91 :: w ++ [93]) /\ parses (JObj []) (123 :: w ++ [125]).
Proof.
  intros Hw. split; intros fuel st item r Hf Hc _; (destruct fuel as [|fuel]; [lia|]);
    cbn [app]; rewrite ?value_bracket, ?value_brace;
    unfold parse_array, parse_object; rewrite <- !app_assoc; cbn [ld obind Z.eqb Pos.eqb negb drop app]; rewrite drop_0.
  - rewrite (skip_ws w _ 93 r) by done. exists st, (set_type cjson_array item). destruct Hc as (Hc1 & Hc2 & Hc3). unfold plain_value. cbn. rewrite drop_0, Hc1, Hc2, Hc3. repeat split; auto; by right.
  - rewrite (skip_ws w _ 125 r) by done. exists st, (set_type cjson_object item). destruct Hc as (Hc1 & Hc2 & Hc3). unfold plain_value. cbn. rewrite drop_0, Hc1, Hc2, Hc3. repeat split; auto; by right.
Qed.

Lemma nil_ok : parses_items [] [93] /\ parses_members [] [125].
Proof.
  split; intros F fuel st item pre r _ Hf; (destruct fuel as [|fuel]; [cbn in Hf; lia|]);
    exists st, []; cbn; rewrite app_nil_r, drop_0; repeat split; constructor.
Qed.

Lemma renders_parses :
  (forall v s, renders v s -> parses v s) /\ (forall l t, items l t -> parses_items l t) /\
  (forall k m, member k m -> parses_member k m) /\ (forall l t, members l t -> parses_members l t).
Proof.
  apply renders_items_ind;
    eauto 6 using items_step, members_step, member_ok, number_ok, string_ok, array_ok, object_ok, literals_ok;
    try (intros; apply nil_ok || by apply empty_ok).
Qed.

End Values.

(** ** The copy without white space *)

Definition blank (c : Z) : bool := (c =? 32) || (c =? 10) || (c =? 13).

(** What [get_pure_json_str] keeps. *)
Fixpoint strip (text : list Z) (pre : Z) (ins : bool) : list Z :=
  match text with
  | [] => []
  | c :: r =>
      if blank c then (if ins then [c] else []) ++ strip r c ins
      else c :: strip r c (if (c =? ch_quote) && negb (pre =? ch_bslash) then negb ins else ins)
  end.

Lemma strip_length text pre ins : (length (strip text pre ins) <= length text)%nat.
Proof.
  revert pre ins. induction text as [|c r IH]; intros pre ins; cbn; [lia|].
  destruct (blank c), ins; cbn; by apply le_n_S || (etrans; [apply IH|lia]).
Qed.

Lemma pure_loop_strip text : Forall (fun c => c <> 0) text -> forall d k pre ins, (length text <= k)%nat ->
  pure_loop text (d ++ replicate k 0) (blen d) pre ins
  = Done (d ++ strip text pre ins ++ replicate (k - length (strip text pre ins)) 0).
Proof.
  induction 1 as [|c r Hc Hr IH]; intros d k pre ins Hk; cbn [length] in Hk; [cbn; by rewrite Nat.sub_0_r|].
  destruct k as [|k]; [lia|].
  assert (Hput : forall i', (let* (out, j, ins) := (let* out := wr (d ++ replicate (S k) 0) (blen d) [c] in Done (out, blen d + 1, i')) in
      pure_loop r out j c ins) = Done (d ++ (c :: strip r c i') ++ replicate (S k - S (length (strip r c i'))) 0)).
  { intros i'. rewrite wr_next. cbn [obind].
    replace (blen d + 1) with (blen (d ++ [c])) by (rewrite length_app; cbn; lia).
    rewrite IH by lia. by rewrite <- app_assoc. }
  cbn [pure_loop strip]. rewrite (proj2 (Z.eqb_neq c 0)) by done. fold (blank c).
  destruct (blank c), ins; try apply Hput. cbn [obind app].
  rewrite IH by lia. done.
Qed.

(** [s] outside strings is kept as [s'], whatever follows. *)
Definition strips (s s' : list Z) : Prop :=
  forall pre r, pre <> ch_bslash -> exists l, l <> ch_bslash /\ strip (s ++ r) pre false = s' ++ strip r l false.

Lemma strips_nil : strips [] [].
Proof. intros pre r H. by exists pre. Qed.
Lemma strips_app a a' b b' : strips a a' -> strips b b' -> strips (a ++ b) (a' ++ b').
Proof.
  intros Ha Hb pre r Hp. rewrite <- app_assoc. destruct (Ha pre (b ++ r) Hp) as (l & Hl & ->).
  destruct (Hb l r Hl) as (l' & Hl' & ->). exists l'. by rewrite <- app_assoc.
Qed.
Lemma strips_plain s : Forall (fun c => 32 < c /\ c <> ch_quote /\ c <> ch_bslash) s -> strips s s.
Proof.
  induction 1 as [|c s (H1 & H2 & H3) _ IH]; [apply strips_nil|]. intros pre r Hp. cbn.
  unfold blank. rewrite !(proj2 (Z.eqb_neq c _)) by lia || done. cbn.
  destruct (IH c r H3) as (l & Hl & ->). by exists l.
Qed.
Lemma strips_cons c s s' : 32 < c -> c <> ch_quote -> c <> ch_bslash -> strips s s' -> strips (c :: s) (c :: s').
Proof. intros. apply (strips_app [c] [c]); [|done]. apply strips_plain. by repeat constructor. Qed.

Lemma strips_ws w : ws w -> exists w', ws w' /\ strips w w'.
Proof.
  induction 1 as [|c w Hc _ (w' & Hw' & IH)]; [exists []; split; [constructor|apply strips_nil]|].
  unfold ch_bslash in *. exists (if blank c then w' else c :: w'). split.
  - destruct (blank c); [done|]. by constructor.
  - intros pre r Hp. cbn. destruct (IH c r ltac:(unfold ch_bslash; lia)) as (l & Hl & E). exists l. split; [done|].
    destruct (blank c); [done|]. rewrite (proj2 (Z.eqb_neq c ch_quote)) by (unfold ch_quote; lia). cbn. by rewrite E.
Qed.

Lemma last_cons c (s : list Z) d : List.last (c :: s) d = List.last s c.
Proof. revert c d. induction s as [|x s IH]; intros c d; [done|]. change (List.last (c :: x :: s) d) with (List.last (x :: s) d). by rewrite !IH. Qed.

(** Inside a string everything is kept, and only a quote ends it. *)
Lemma strip_in_str c r pre : c <> ch_quote \/ pre = ch_bslash -> strip (c :: r) pre true = c :: strip r c true.
Proof.
  intros Hc. cbn. destruct (blank c); [done|].
  destruct Hc as [Hc| ->]; [by rewrite (proj2 (Z.eqb_neq c ch_quote))|]. by rewrite Z.eqb_refl, andb_false_r.
Qed.

Lemma strip_body b n s r : str_body b n s -> forall pre, strip (s ++ r) pre true = s ++ strip r (List.last s pre) true.
Proof.
  induction 1 as [|c b n s Hc1 Hc2 Hc3 Hs IH|e b n s He1 He2 Hs IH|h1 h2 h3 h4 uc b n s Hh Hu Hs IH]; intros pre; [done|..].
  - rewrite last_cons. cbn [app]. rewrite strip_in_str by auto. by rewrite IH.
  - rewrite !last_cons. cbn [app]. rewrite !strip_in_str by (auto; by left). by rewrite IH.
  - apply hex4_digit in Hh; [|lia]. rewrite !Forall_cons_iff in Hh.
    destruct Hh as ((? & _)%hexval_byte & (? & _)%hexval_byte & (? & _)%hexval_byte & (? & _)%hexval_byte & _).
    rewrite !last_cons. cbn [app]. rewrite !strip_in_str by (auto; by left). by rewrite IH.
Qed.

Lemma strips_str b s : str_text b s -> strips s s.
Proof.
  intros (n & body & Hb & -> & Hl) pre r Hp. exists ch_quote. split; [done|]. cbn [app].
  cbn [strip blank orb Z.eqb Pos.eqb ch_quote]. rewrite (proj2 (Z.eqb_neq pre ch_bslash)) by done. cbn [negb andb].
  rewrite <- app_assoc, (strip_body _ _ _ _ Hb). cbn [app strip blank orb Z.eqb Pos.eqb ch_quote].
  assert (Hlast : List.last body ch_quote <> ch_bslash).
  { destruct body as [|x body]; [done|]. by rewrite last_cons in *. }
  unfold ch_quote in Hlast. rewrite (proj2 (Z.eqb_neq _ ch_bslash)) by done. cbn. by rewrite <- app_assoc.
Qed.

(** A part of the grammar is closed under stripping. *)
Definition closed {A} (R : A -> list Z -> Prop) (v : A) (s : list Z) : Prop := exists s', R v s' /\ strips s s'.

Lemma num_text_plain z s : num_text z s -> Forall (fun c => 32 < c /\ c <> ch_quote /\ c <> ch_bslash) s.
Proof.
  unfold ch_quote, ch_bslash. intros [ds [Hd _] _ | ds [Hd _] _]; [|constructor; [lia|]];
    (eapply Forall_impl; [|exact Hd]; cbn; lia).
Qed.

Ltac strip_parts :=
  repeat match goal with
  | H : ws _ |- _ => apply strips_ws in H
  | H : str_text _ _ |- _ => pose proof (strips_str _ _ H); revert H
  end; intros; unfold closed in *;
  repeat match goal with H : exists _, _ /\ _ |- _ => destruct H as (? & ? & ?) end.
Ltac solve_strips :=
  repeat first [ eassumption | apply strips_nil | apply strips_app
               | apply strips_cons; [by cbv|by cbv|by cbv|] ].

Lemma grammar_strips :
  (forall v s, renders v s -> closed renders v s) /\ (forall l t, items l t -> closed items l t) /\
  (forall k m, member k m -> closed member k m) /\ (forall l t, members l t -> closed members l t).
Proof.
  apply renders_items_ind; intros; strip_parts;
    refine (ex_intro _ _ (conj _ _));
    match goal with |- strips _ _ => solve_strips | _ => idtac end.
  all: try (econstructor; eassumption).
  by eapply strips_plain, num_text_plain.
Qed.

(** Texts have no NUL. *)
Lemma str_body_text_nonzero b n s : str_body b n s -> Forall (fun c => c <> 0) s.
Proof.
  induction 1 as [| | |h1 h2 h3 h4 uc b n s Hh Hu Hs IH]; repeat (constructor; [done|]); try done.
  apply hex4_digit in Hh; [|lia]. rewrite !Forall_cons_iff in Hh |- *.
  destruct Hh as ((? & ? & ? & _)%hexval_byte & (? & ? & ? & _)%hexval_byte & (? & ? & ? & _)%hexval_byte & (? & ? & ? & _)%hexval_byte & _).
  done.
Qed.
Lemma str_text_nonzero b s : str_text b s -> Forall (fun c => c <> 0) s.
Proof.
  intros (n & body & Hb & -> & _). constructor; [done|]. apply Forall_app. split; [|by repeat constructor].
  by eapply str_body_text_nonzero.
Qed.
Lemma ws_nonzero w : ws w -> Forall (fun c => c <> 0) w.
Proof. intros H. eapply Forall_impl; [|exact H]. cbn. lia. Qed.
Lemma num_text_nonzero z s : num_text z s -> Forall (fun c => c <> 0) s.
Proof. intros H%num_text_plain. eapply Forall_impl; [|exact H]. cbn. lia. Qed.

Lemma grammar_nonzero :
  (forall v s, renders v s -> Forall (fun c => c <> 0) s) /\ (forall l t, items l t -> Forall (fun c => c <> 0) t) /\
  (forall k m, member k m -> Forall (fun c => c <> 0) m) /\ (forall l t, members l t -> Forall (fun c => c <> 0) t).
Proof.
  apply renders_items_ind; intros;
    repeat first [ constructor | done | apply Forall_app; split
                 | by eapply ws_nonzero | by eapply str_text_nonzero | by eapply num_text_nonzero ].
Qed.

Lemma strips_length a a' : strips a a' -> (length a' <= length a)%nat.
Proof.
  intros H. destruct (H 0 []) as (l & _ & E); [done|]. rewrite app_nil_r in E. cbn in E. rewrite app_nil_r in E.
  rewrite <- E. apply strip_length.
Qed.

(** A byte of white space after a number is kept, or leaves a NUL. *)
Lemma number_rest w w' s w1 s1 w2 :
  strips w w1 -> strips s s1 -> ws w2 -> w' <> [] ->
  first stop (w2 ++ replicate (length (w ++ s ++ w') - length (w1 ++ s1 ++ w2)) 0).
Proof.
  intros S1%strips_length S2%strips_length Hw2 Hn. destruct w2 as [|c w2].
  - destruct w' as [|x w']; [done|]. rewrite !length_app. cbn [length]. rewrite Nat.add_0_r.
    destruct (length w + (length s + S (length w')) - (length w1 + length s1))%nat eqn:E; [lia|].
    by apply first_cons.
  - pose proof (Forall_inv Hw2) as Hc. cbn in Hc |- *. apply first_cons. unfold stop, is_digit.
    rewrite (proj2 (Z.leb_gt 48 c)) by lia. cbn. lia.
Qed.

Lemma cjson_parse_tree (pf fuel : nat) (st : pstate) (v : json) (s w w' : list Z) :
  renders v s -> ws w -> ws w' -> match v with JNum _ => w' <> [] | _ => True end ->
  (length (w ++ s ++ w') < fuel)%nat ->
  exists st' c, cjson_parse all pf fuel st (Some ((w ++ s ++ w') ++ [0])) = Done (st', Some c) /\ json_of c = v /\ Forall sound (child c) /\ plain_value c.
Proof.
  intros Hr Hw Hw' Hnum Hf. unfold cjson_parse, cjson_parsewithopts, cjson_new_item.
  cbn [cjson_malloc all fmap option_fmap option_map]. unfold get_pure_json_str.
  assert (Hnz : Forall (fun c => c <> 0) (w ++ s ++ w')).
  { rewrite !Forall_app. pose proof (proj1 grammar_nonzero v s Hr). auto using ws_nonzero. }
  rewrite cstr_app by done. cbn [obind cjson_malloc all].
  pose proof (pure_loop_strip _ Hnz [] (length (w ++ s ++ w')) 0 false (le_n _)) as Hpure. cbn [app] in Hpure.
  change (blen []) with 0 in Hpure. rewrite Hpure. cbn [obind fmap option_fmap option_map bytes].
  destruct (strips_ws w Hw) as (w1 & Hw1 & S1), (proj1 grammar_strips v s Hr) as (s1 & Hr1 & S2), (strips_ws w' Hw') as (w2 & Hw2 & S3).
  destruct (strips_app _ _ _ _ S1 (strips_app _ _ _ _ S2 S3) 0 []) as (l & _ & E); [done|].
  cbn [strip] in E. rewrite !app_nil_r in E. rewrite E.
  rewrite <- !app_assoc.
  set (z := replicate _ 0). unfold skip.
  rewrite (skip_ws_first w1 _ value_start); [|done|by apply first_app, renders_first with v|by intros ? [? _]].
  cbn [obind]. match goal with |- context [parse_value all pf fuel ?S ?I (Some (s1 ++ ?R))] =>
    destruct (proj1 (renders_parses pf) v s1 Hr1 fuel S I R) as (st' & c & E' & Hj & _ & Hnm & Hpv) end.
  - apply strips_length in S2. rewrite !length_app in Hf. lia.
  - done.
  - destruct v; try done. by apply number_rest.
  - rewrite E'. cbn. eauto 8.
Qed.

(** C10: every text of the grammar, with white space around it, is parsed
    inside the bounds of all buffers to a tree that denotes the value it was
    rendered from, when all allocations succeed. The grammar is that of JSON
    with integers of 32 bits only (no fraction, no exponent), no string that
    ends in an escaped backslash, and unicode escapes for ASCII only; a number
    by itself needs white space after it, because the copy of the text has no
    terminator. *)
Theorem cjson_parse_renders (pf fuel : nat) (st : pstate) (v : json) (s w w' : list Z) :
  renders v s -> ws w -> ws w' -> match v with JNum _ => w' <> [] | _ => True end ->
  (length (w ++ s ++ w') < fuel)%nat ->
  exists st' c, cjson_parse all pf fuel st (Some ((w ++ s ++ w') ++ [0])) = Done (st', Some c) /\ json_of c = v.
Proof.
  intros Hr Hw Hw' Hn Hf. destruct (cjson_parse_tree pf fuel st v s w w') as (st' & c & H & Hj & _); eauto.
Qed.

(** An object with one member, an array of a number and true. *)
Definition sample_value : json := JObj [([97; 98], JArr [JNum (-12); JTrue])].
Definition sample_text : list Z :=
  [123; 32; 34; 97; 98; 34; 58; 32; 91; 32; 45; 49; 50; 44; 32; 116; 114; 117; 101; 32; 93; 32; 125].

Lemma sample_renders : renders sample_value sample_text.
Proof.
  apply (r_obj [32] _ [34; 97; 98; 34; 58; 32; 91; 32; 45; 49; 50; 44; 32; 116; 114; 117; 101; 32; 93; 32] [] [125]).
  - by repeat constructor.
  - apply (m_one [97; 98] [34; 97; 98; 34] [] [32] _ [91; 32; 45; 49; 50; 44; 32; 116; 114; 117; 101; 32; 93] [32]);
      try by repeat constructor.
    + exists 2%nat, [97; 98]. by repeat constructor.
    + apply (r_arr [32] _ [45; 49; 50] [] _ [44; 32; 116; 114; 117; 101; 32; 93]); try by repeat constructor.
      * apply r_num, (nt_neg [49; 50]); [|done]. split; [by repeat constructor|]. right. by exists 49, [50].
      * apply (i_cons [32] _ [116; 114; 117; 101] [32] [] [93]); by repeat constructor.
  - constructor.
Qed.

Lemma cjson_parse_renders_witness :
  exists st' c, cjson_parse all 1 100 (PSt 0 [] None) (Some (([10] ++ sample_text ++ []) ++ [0])) = Done (st', Some c)
    /\ json_of c = sample_value.
Proof.
  apply (cjson_parse_renders 1 100 (PSt 0 [] None) sample_value sample_text [10] []).
  - exact sample_renders.
  - by repeat constructor.
  - constructor.
  - exact I.
  - cbn. lia.
Defined.

End CjsonGrammar.
