(* ===== verification/CjsonHeap.v ===== *)
(** * Memory and termination of the JSON reader

    For every text and every pattern of failing allocations: what the parser
    allocates is what the tree holds, [cjson_delete] frees it all once, and a
    failed parse leaves nothing behind.  The parser ends on every text on which
    its exponent loop does. *)

From S2P Require Import Prelude Mem Cjson.
From stdpp Require Import base list numbers.
From Stdlib Require Import ZArith Lia Permutation.

Local Open Scope Z_scope.
Local Open Scope cint_scope.

Module CjsonHeap.
Import Cjson.

(** ** Blocks of a tree *)

Section TreeInd.
Variable P : cjson -> Prop.
Hypothesis step : forall self child type vs vi str pure,
  Forall P child -> P (CJson self child type vs vi str pure).
Fixpoint tree_ind (c : cjson) : P c :=
  match c with
  | CJson self child type vs vi str pure =>
      step self child type vs vi str pure
        ((fix go l : Forall P l := match l with
          | [] => List.Forall_nil P
          | x :: r => List.Forall_cons P x r (tree_ind x) (go r) end) child)
  end.
End TreeInd.

Fixpoint blocks (c : cjson) : list nat :=
  match c with
  | CJson self child _ vs _ str pure =>
      self :: free_buf vs ++ free_buf str ++ free_buf pure ++ flat_map blocks child
  end.

(** No ownership flag is set, and only the root holds the text. *)
Fixpoint plain (c : cjson) : Prop :=
  match c with
  | CJson _ child type _ _ _ _ =>
      truthy (type .& cjson_isreference) = false /\ truthy (type .& cjson_stringisconst) = false /\
      (fix go l := match l with [] => True | x :: r => plain x /\ pure_json x = None /\ go r end) child
  end.

(** Children an item may have. *)
Definition plain_child (c : cjson) : Prop := plain c /\ pure_json c = None.

Lemma plain_unfold c : plain c <->
  truthy (type c .& cjson_isreference) = false /\ truthy (type c .& cjson_stringisconst) = false /\
  Forall plain_child (child c).
Proof.
  destruct c as [self child ty vs vi str pure]. cbn. do 2 (apply and_iff_compat_l).
  induction child as [|x l IH]; [by split|]. rewrite Forall_cons_iff, <- IH. unfold plain_child. tauto.
Qed.

Abbreviation cnt b l := (count_occ Nat.eq_dec l b).

Lemma blocks_count b c : cnt b (blocks c) =
  (cnt b [self c] + cnt b (free_buf (valuestring c)) + cnt b (free_buf (string c)) + cnt b (free_buf (pure_json c))
   + cnt b (flat_map blocks (child c)))%nat.
Proof.
  destruct c as [self child ty vs vi str pure]. cbn [blocks Cjson.self valuestring Cjson.string pure_json Cjson.child].
  change (self :: free_buf vs ++ ?l) with ([self] ++ free_buf vs ++ l). rewrite !count_occ_app. lia.
Qed.

Lemma free_item_count b c : plain c -> (cnt b (free_item c) + cnt b (free_buf (pure_json c)) = cnt b (blocks c))%nat.
Proof.
  induction c as [self child ty vs vi str pure IH] using tree_ind. intros (H1 & H2 & Hc)%plain_unfold.
  cbn [type Cjson.child] in H1, H2, Hc. rewrite blocks_count.
  cbn [free_item Cjson.self valuestring Cjson.string pure_json Cjson.child].
  rewrite H1, H2. unfold free_chain. rewrite !count_occ_app.
  assert (Hp : cnt b (match child with c :: _ => free_buf (pure_json c) | [] => [] end) = 0%nat).
  { destruct Hc as [|x l [_ ->] _]; done. }
  assert (Hf : cnt b (flat_map free_item child) = cnt b (flat_map blocks child)).
  { clear Hp. induction Hc as [|x l [Hx Hpx] _ IHl]; [done|]. apply Forall_cons_iff in IH as [IHx IH].
    cbn [flat_map]. rewrite !count_occ_app, IHl by done. rewrite <- (IHx Hx), Hpx. cbn. lia. }
  rewrite Hp, Hf. lia.
Qed.

(** [cjson_delete] of a tree frees its blocks, each as often as it occurs. *)
Lemma cjson_delete_freed c s : plain c -> freed (cjson_delete (Some c) s) ≡ₚ freed s ++ blocks c.
Proof.
  intros Hc. unfold cjson_delete.
  assert (Hfold : forall l s, freed (fold_left (fun s b => cjson_free b s) l s) = freed s ++ l).
  { induction l as [|x l IH]; intros t; cbn; [by rewrite app_nil_r|]. rewrite IH. cbn. by rewrite <- app_assoc. }
  rewrite Hfold. f_equiv. apply (Permutation_count_occ Nat.eq_dec). intros b.
  unfold free_chain. cbn [flat_map]. rewrite app_nil_r, count_occ_app.
  rewrite <- (free_item_count b c Hc). lia.
Qed.

Lemma delete_calls c s : calls (cjson_delete c s) = calls s.
Proof.
  destruct c as [c|]; [|done]. unfold cjson_delete. generalize (free_chain free_item [c]). intros l. revert s.
  induction l as [|x l IH]; intros s; cbn; [done|]. by rewrite IH.
Qed.

(** ** Allocation *)

Section Heap.
Variable ok : nat -> bool.
Variable pf : nat.

(** The blocks handed out by the calls from [n] to [m]. *)
Definition alloc (n m : nat) : list nat := List.filter ok (seq n (m - n)).

Lemma alloc_split n m k b : (n <= m <= k)%nat -> cnt b (alloc n k) = (cnt b (alloc n m) + cnt b (alloc m k))%nat.
Proof.
  intros H. unfold alloc. replace (k - n)%nat with ((m - n) + (k - m))%nat by lia.
  rewrite seq_app, List.filter_app, count_occ_app. replace (n + (m - n))%nat with m by lia. done.
Qed.
Lemma alloc_one n : alloc n (S n) = if ok n then [n] else [].
Proof. unfold alloc. replace (S n - n)%nat with 1%nat by lia. cbn. done. Qed.
Lemma alloc_nil n : alloc n n = [].
Proof. unfold alloc. by rewrite Nat.sub_diag. Qed.

(** What a parsing function does to the heap: the item holds what it held and
    what was allocated; nothing is freed. *)
Record acct (s : pstate) (item : cjson) (s' : pstate) (item' : cjson) : Prop := Acct {
  acct_calls : (calls s <= calls s')%nat;
  acct_freed : freed s' = freed s;
  acct_blocks : forall b, cnt b (blocks item') = (cnt b (blocks item) + cnt b (alloc (calls s) (calls s')))%nat;
  acct_plain : plain item -> plain item';
  acct_pure : pure_json item' = pure_json item }.

Lemma acct_refl s item : acct s item s item.
Proof. split; try done. intros b. rewrite alloc_nil. cbn. lia. Qed.

Lemma acct_trans s1 i1 s2 i2 s3 i3 : acct s1 i1 s2 i2 -> acct s2 i2 s3 i3 -> acct s1 i1 s3 i3.
Proof.
  intros [H1 H2 H3 H4 H5] [K1 K2 K3 K4 K5]. split; [lia|congruence| |auto|congruence].
  intros b. rewrite K3, H3, (alloc_split (calls s1) (calls s2) (calls s3)) by lia. lia.
Qed.

(** Changes of an item that keep its blocks. *)
Lemma acct_same s s' item item' :
  calls s' = calls s -> freed s' = freed s -> (forall b, cnt b (blocks item') = cnt b (blocks item)) ->
  (plain item -> plain item') -> pure_json item' = pure_json item -> acct s item s' item'.
Proof. intros H1 H2 H3 H4 H5. split; try done; [lia|]. intros b. rewrite H1, alloc_nil, H3. cbn. lia. Qed.

(** An item that holds no value yet. *)
Definition fresh (c : cjson) : Prop := valuestring c = None /\ child c = [].

Lemma plain_set_type ty c : In ty [0; 1; 2; 3; 4; 5; 6] -> plain c -> plain (set_type ty c).
Proof.
  rewrite !plain_unfold. intros Hty (_ & _ & H). cbn. repeat split; try done;
    repeat (destruct Hty as [<-|Hty]; [done|]); done.
Qed.

Lemma new_item_acct s n s1 : cjson_new_item ok s = (n, s1) ->
  calls s1 = S (calls s) /\ freed s1 = freed s /\
  match n with
  | None => ok (calls s) = false
  | Some c => ok (calls s) = true /\ c = CJson (calls s) [] 0 None 0 None None
  end.
Proof.
  unfold cjson_new_item, cjson_malloc. destruct (ok (calls s)) eqn:E; cbn; by intros [= <- <-].
Qed.

Ltac count_blocks :=
  rewrite !blocks_count; cbn [self valuestring string pure_json child set_type set_int set_child set_valuestring
    set_string set_pure free_buf flat_map blk bytes]; rewrite ?count_occ_app.

Lemma parse_string_acct s item p s' item' r :
  fresh item -> parse_string ok s item p = Done (s', item', r) -> acct s item s' item'.
Proof.
  intros [Hv _]. unfold parse_string. destruct (ld p) as [c| |]; cbn [obind]; try done.
  destruct (negb (c =? ch_quote)); [intros [= <- <- <-]; by apply acct_same|].
  destruct (str_len _ _ _) as [len| |]; cbn [obind]; try done. unfold cjson_malloc.
  destruct (ok (calls s)) eqn:Hok.
  - destruct (str_copy _ _ _ _) as [[[ptr out] ptr2]| |]; cbn [obind]; try done.
    destruct (wr out ptr2 [0]) as [out'| |]; cbn [obind]; try done.
    destruct (ld ptr) as [c'| |]; cbn [obind]; try done. intros [= <- <- <-].
    split; cbn [calls freed]; [lia|done| | |done].
    + intros b. rewrite alloc_one, Hok. count_blocks. rewrite Hv. cbn. lia.
    + intros Hp. apply plain_set_type; [cbn; tauto|]. by apply plain_unfold in Hp; apply plain_unfold.
  - intros [= <- <- <-]. split; cbn [calls freed]; try done; [lia|].
    intros b. rewrite alloc_one, Hok. cbn. lia.
Qed.

Lemma parse_string_keeps s item p s' item' r :
  parse_string ok s item p = Done (s', item', r) -> string item' = string item /\ child item' = child item.
Proof.
  unfold parse_string. destruct (ld p) as [c| |]; cbn [obind]; try done.
  destruct (negb (c =? ch_quote)); [by intros [= <- <- <-]|].
  destruct (str_len _ _ _) as [len| |]; cbn [obind]; try done. unfold cjson_malloc. destruct (ok (calls s)); [|by intros [= <- <- <-]].
  destruct (str_copy _ _ _ _) as [[[ptr out] ptr2]| |]; cbn [obind]; try done.
  destruct (wr out ptr2 [0]) as [out'| |]; cbn [obind]; try done.
  destruct (ld ptr) as [c'| |]; cbn [obind]; try done. by intros [= <- <- <-].
Qed.

Lemma parse_number_item item p item' r :
  parse_number pf item p = Done (item', r) -> exists x, item' = set_type cjson_number (set_int x item).
Proof.
  unfold parse_number. destruct (ld p) as [c| |]; cbn [obind]; try done.
  destruct (num_int _) as [[n p1]| |]; cbn [obind]; try done.
  destruct (num_frac _ _) as [[[n1 scale] p2]| |]; cbn [obind]; try done.
  destruct (num_exp _) as [[[sub sgn] p3]| |]; cbn [obind]; try done.
  destruct (mypow _ _ _) as [q| |]; cbn [obind]; try done. intros [= <- <-]. eauto.
Qed.

Section Items.
Variable pv : pstate -> cjson -> option (list Z) -> presult.
Hypothesis pv_acct : forall s item p s' item' r,
  fresh item -> pv s item p = Done (s', item', r) -> acct s item s' item'.

Lemma value_then_skip_acct s c p s' c' r :
  fresh c -> value_then_skip pv s c p = Done (s', c', r) -> acct s c s' c'.
Proof.
  intros Hc. unfold value_then_skip. destruct (skip (Some p)) as [q| |]; cbn [obind]; try done.
  destruct (pv s c q) as [[[s1 c1] r1]| |] eqn:E; cbn [obind]; try done.
  destruct (skip r1); cbn [obind]; try done. intros [= <- <- <-]. by eapply pv_acct.
Qed.

Lemma parse_member_acct s n p s' n' r :
  fresh n -> string n = None -> parse_member ok pv s n p = Done (s', n', r) -> acct s n s' n'.
Proof.
  intros Hn Hs. unfold parse_member. destruct (skip_from p) as [q| |]; cbn [obind]; try done.
  destruct (parse_string ok s n q) as [[[s1 n1] r1]| |] eqn:E; cbn [obind]; try done.
  pose proof (parse_string_acct _ _ _ _ _ _ Hn E) as A1.
  destruct (parse_string_keeps _ _ _ _ _ _ E) as [Hs1 Hc1].
  destruct (skip r1) as [[value|]| |]; cbn [obind]; try done; [|by intros [= <- <- <-]].
  set (n2 := set_valuestring None (set_string (valuestring n1) n1)).
  assert (A2 : acct s n s1 n2).
  { eapply acct_trans; [exact A1|]. apply acct_same; try done.
    - intros b. unfold n2. count_blocks. rewrite Hs1, Hs. cbn. lia.
    - intros Hp. apply plain_unfold in Hp. by apply plain_unfold. }
  destruct (ld value) as [c| |]; cbn [obind]; try done.
  destruct (negb (c =? 58)).
  - intros [= <- <- <-]. eapply acct_trans; [exact A2|]. by apply acct_same.
  - intros H. eapply acct_trans; [exact A2|]. eapply value_then_skip_acct; [|exact H].
    split; [done|]. cbn. by rewrite Hc1, (proj2 Hn).
Qed.

(** One more child. *)
Lemma acct_grow s item pre n s1 s2 n' :
  cjson_new_item ok s = (Some n, s1) -> acct s1 n s2 n' ->
  acct s (set_child pre item) s2 (set_child (pre ++ [n']) item).
Proof.
  intros (H1 & H2 & Hok & ->)%new_item_acct [A1 A2 A3 A4 A5]. split; [lia|congruence| | |done].
  - intros b. specialize (A3 b). rewrite (alloc_split (calls s) (calls s1)) by lia.
    rewrite H1, alloc_one, Hok. rewrite H1 in A3. revert A3. rewrite (blocks_count b (CJson _ _ _ _ _ _ _)).
    rewrite (blocks_count b (set_child _ item)), (blocks_count b (set_child pre item)).
    cbn [self valuestring string pure_json child set_child free_buf flat_map].
    rewrite flat_map_app, count_occ_app. cbn [flat_map]. rewrite app_nil_r. change (cnt b []) with 0%nat. lia.
  - intros (P1 & P2 & P3)%plain_unfold. apply plain_unfold. cbn in *. repeat split; try done.
    apply Forall_app. split; [done|]. constructor; [|done]. split; [|by rewrite A5]. by apply A4.
Qed.

Lemma acct_no_child s item pre s1 :
  cjson_new_item ok s = (None, s1) -> acct s (set_child pre item) s1 (set_child pre item).
Proof.
  intros (H1 & H2 & Hok)%new_item_acct. split; try done; [lia|]. intros b. rewrite H1, alloc_one, Hok. cbn. lia.
Qed.

Lemma new_item_fresh s n s1 : cjson_new_item ok s = (Some n, s1) -> fresh n /\ string n = None.
Proof. intros (_ & _ & _ & ->)%new_item_acct. done. Qed.

Lemma array_loop_acct fuel : forall s item pre value s' item' r,
  array_loop ok pv fuel s item pre value = Done (s', item', r) -> acct s (set_child pre item) s' item'.
Proof.
  induction fuel as [|f IH]; intros s item pre value s' item' r; [done|]. cbn [array_loop].
  destruct (ld value) as [c| |]; cbn [obind]; try done. destruct (c =? 44).
  - destruct (cjson_new_item ok s) as [[n|] s1] eqn:En; [|intros [= <- <- <-]; by apply acct_no_child].
    destruct (new_item_fresh _ _ _ En) as [Hn _].
    destruct (value_then_skip pv s1 n _) as [[[s2 n2] r2]| |] eqn:Ev; cbn [obind]; try done.
    pose proof (acct_grow _ item pre _ _ _ _ En (value_then_skip_acct _ _ _ _ _ _ Hn Ev)) as A.
    destruct r2 as [value'|]; [|by intros [= <- <- <-]]. intros H%IH. eapply acct_trans; [exact A|].
    exact H.
  - destruct (c =? 93); intros [= <- <- <-]; [apply acct_refl|by apply acct_same].
Qed.

Lemma object_loop_acct fuel : forall s item pre value s' item' r,
  object_loop ok pv fuel s item pre value = Done (s', item', r) -> acct s (set_child pre item) s' item'.
Proof.
  induction fuel as [|f IH]; intros s item pre value s' item' r; [done|]. cbn [object_loop].
  destruct (ld value) as [c| |]; cbn [obind]; try done. destruct (c =? 44).
  - destruct (cjson_new_item ok s) as [[n|] s1] eqn:En; [|intros [= <- <- <-]; by apply acct_no_child].
    destruct (new_item_fresh _ _ _ En) as [Hn Hs].
    destruct (parse_member ok pv s1 n _) as [[[s2 n2] r2]| |] eqn:Ev; cbn [obind]; try done.
    pose proof (acct_grow _ item pre _ _ _ _ En (parse_member_acct _ _ _ _ _ _ Hn Hs Ev)) as A.
    destruct r2 as [value'|]; [|by intros [= <- <- <-]]. intros H%IH. by eapply acct_trans.
  - destruct (c =? 125); intros [= <- <- <-]; [apply acct_refl|by apply acct_same].
Qed.

(** The item of an array or object, before its first child. *)
Lemma acct_typed ty s item : In ty [0; 1; 2; 3; 4; 5; 6] -> fresh item ->
  acct s item s (set_child [] (set_type ty item)).
Proof.
  intros Hty [Hv Hc]. apply acct_same; try done.
  - intros b. count_blocks. by rewrite Hc.
  - intros Hp. apply (plain_set_type ty) in Hp as (P1 & P2 & P3)%plain_unfold; [|done]. apply plain_unfold. cbn in *.
    repeat split; try done.
Qed.

Lemma set_child_self item : child item = [] -> set_child [] item = item.
Proof. destruct item. cbn. by intros ->. Qed.

Lemma parse_array_acct fuel s item value s' item' r :
  fresh item -> parse_array ok pv fuel s item value = Done (s', item', r) -> acct s item s' item'.
Proof.
  intros Hi. unfold parse_array. destruct (ld value) as [c| |]; cbn [obind]; try done.
  destruct (negb (c =? 91)); [intros [= <- <- <-]; by apply acct_same|].
  destruct (skip_from _) as [v1| |]; cbn [obind]; try done. destruct (ld v1) as [c1| |]; cbn [obind]; try done.
  assert (A0 : acct s item s (set_child [] (set_type cjson_array item))) by (apply acct_typed; [cbn; tauto|done]).
  destruct (c1 =? 93).
  - intros [= <- <- <-]. rewrite set_child_self in A0; [done|]. exact (proj2 Hi).
  - destruct (cjson_new_item ok s) as [[n|] s1] eqn:En;
      [|intros [= <- <- <-]; eapply acct_trans; [exact A0|by apply acct_no_child]].
    destruct (new_item_fresh _ _ _ En) as [Hn _].
    destruct (value_then_skip pv s1 n _) as [[[s2 n2] r2]| |] eqn:Ev; cbn [obind]; try done.
    pose proof (acct_grow _ (set_type cjson_array item) [] _ _ _ _ En (value_then_skip_acct _ _ _ _ _ _ Hn Ev)) as A.
    destruct r2 as [value'|]; [intros H%array_loop_acct|intros [= <- <- <-]]; eauto using acct_trans.
Qed.

Lemma parse_object_acct fuel s item value s' item' r :
  fresh item -> parse_object ok pv fuel s item value = Done (s', item', r) -> acct s item s' item'.
Proof.
  intros Hi. unfold parse_object. destruct (ld value) as [c| |]; cbn [obind]; try done.
  destruct (negb (c =? 123)); [intros [= <- <- <-]; by apply acct_same|].
  destruct (skip_from _) as [v1| |]; cbn [obind]; try done. destruct (ld v1) as [c1| |]; cbn [obind]; try done.
  assert (A0 : acct s item s (set_child [] (set_type cjson_object item))) by (apply acct_typed; [cbn; tauto|done]).
  destruct (c1 =? 125).
  - intros [= <- <- <-]. rewrite set_child_self in A0; [done|]. exact (proj2 Hi).
  - destruct (cjson_new_item ok s) as [[n|] s1] eqn:En;
      [|intros [= <- <- <-]; eapply acct_trans; [exact A0|by apply acct_no_child]].
    destruct (new_item_fresh _ _ _ En) as [Hn Hs].
    destruct (parse_member ok pv s1 n _) as [[[s2 n2] r2]| |] eqn:Ev; cbn [obind]; try done.
    pose proof (acct_grow _ (set_type cjson_object item) [] _ _ _ _ En (parse_member_acct _ _ _ _ _ _ Hn Hs Ev)) as A.
    destruct r2 as [value'|]; [intros H%object_loop_acct|intros [= <- <- <-]]; eauto using acct_trans.
Qed.

End Items.

Lemma parse_value_acct fuel : forall s item p s' item' r,
  fresh item -> parse_value ok pf fuel s item p = Done (s', item', r) -> acct s item s' item'.
Proof.
  assert (Hty : forall s item ty, In ty [0; 1; 2; 3; 4; 5; 6] -> acct s item s (set_type ty item)).
  { intros s item ty Hin. apply acct_same; try done; [intros b; by count_blocks|]. by apply plain_set_type. }
  assert (Hint : forall s item x, acct s item s (set_int x item)).
  { intros s item x. apply acct_same; try done; [intros b; by count_blocks|].
    intros Hp. by apply plain_unfold in Hp; apply plain_unfold. }
  induction fuel as [|f IH]; intros s item p s' item' r Hi; [done|]. cbn [parse_value].
  destruct p as [v|]; [|intros [= <- <- <-]; apply acct_refl].
  destruct (starts_with lit_null v) as [[]| |]; cbn [obind]; try done; [intros [= <- <- <-]; apply Hty; cbn; tauto|].
  destruct (starts_with lit_false v) as [[]| |]; cbn [obind]; try done; [intros [= <- <- <-]; apply Hty; cbn; tauto|].
  destruct (starts_with lit_true v) as [[]| |]; cbn [obind]; try done.
  { intros [= <- <- <-]. eapply acct_trans; [apply Hty|apply Hint]. cbn. tauto. }
  destruct (ld v) as [c| |]; cbn [obind]; try done.
  destruct (c =? ch_quote); [by apply parse_string_acct|].
  destruct ((c =? 45) || is_digit c).
  { destruct (parse_number pf item v) as [[i1 r1]| |] eqn:E; cbn [obind]; try done. intros [= <- <- <-].
    apply parse_number_item in E as (x & ->). eapply acct_trans; [apply Hint|apply Hty]. cbn. tauto. }
  destruct (c =? 91); [by apply parse_array_acct|].
  destruct (c =? 123); [by apply parse_object_acct|].
  intros [= <- <- <-]. by apply acct_same.
Qed.

Lemma get_pure_acct s text s' b : get_pure_json_str ok s text = Done (s', b) ->
  (calls s <= calls s')%nat /\ freed s' = freed s /\ free_buf b = alloc (calls s) (calls s').
Proof.
  unfold get_pure_json_str. destruct text as [text|]; [|intros [= <- <-]; by rewrite alloc_nil].
  destruct (cstr text) as [body| |]; cbn [obind]; try done. unfold cjson_malloc.
  destruct (ok (calls s)) eqn:Hok.
  - destruct (pure_loop _ _ _ _ _) as [out| |]; cbn [obind]; try done. intros [= <- <-]. cbn [calls freed].
    rewrite alloc_one, Hok. repeat split. lia.
  - intros [= <- <-]. cbn [calls freed]. rewrite alloc_one, Hok. repeat split. lia.
Qed.

(** The root after the text is parsed into it. *)
Lemma parsewithopts_root s text s1 c s2 pure p s3 c' r fuel :
  cjson_new_item ok s = (Some c, s1) -> get_pure_json_str ok (set_ep None s1) text = Done (s2, pure) ->
  parse_value ok pf fuel s2 (set_pure pure c) p = Done (s3, c', r) ->
  plain c' /\ freed s3 = freed s /\ blocks c' ≡ₚ alloc (calls s) (calls s3).
Proof.
  intros (H1 & H2 & Hok & ->)%new_item_acct (K1 & K2 & K3)%get_pure_acct Hv.
  apply parse_value_acct in Hv as [A1 A2 A3 A4 A5]; [|done]. cbn [set_ep calls freed] in K1, K2, K3.
  repeat split; [by apply A4|congruence|].
  apply (Permutation_count_occ Nat.eq_dec). intros b. rewrite A3.
  rewrite (alloc_split (calls s) (calls s1) (calls s3)), (alloc_split (calls s1) (calls s2) (calls s3)) by lia.
  count_blocks. rewrite K3, H1, alloc_one, Hok. change (cnt b []) with 0%nat. lia.
Qed.

End Heap.

(** C12: whatever the text and whichever allocations fail, no block leaks and
    none is freed twice: when parsing fails, the blocks freed are exactly those
    the parser allocated, each once; when it succeeds nothing is freed, and
    deleting the tree frees exactly those. *)
Theorem cjson_parse_no_leak (ok : nat -> bool) (pf fuel : nat) (s : pstate) (text : option (list Z)) (s' : pstate) (c : option cjson) :
  cjson_parse ok pf fuel s text = Done (s', c) ->
  (c <> None -> freed s' = freed s) /\
  freed (cjson_delete c s') ≡ₚ freed s ++ alloc ok (calls s) (calls s') /\ NoDup (alloc ok (calls s) (calls s')).
Proof.
  unfold cjson_parse, cjson_parsewithopts. intros H.
  assert (Hnd : NoDup (alloc ok (calls s) (calls s'))) by apply NoDup_ListNoDup, NoDup_filter, seq_NoDup.
  destruct (cjson_new_item ok s) as [[c0|] s1] eqn:En; cbn [obind] in H.
  - destruct (get_pure_json_str ok _ text) as [[s2 pure]| |] eqn:Eg; cbn [obind] in H; try done.
    destruct (skip _) as [p| |]; cbn [obind] in H; try done.
    destruct (parse_value ok pf fuel s2 _ p) as [[[s3 c1] r]| |] eqn:Ep; cbn [obind] in H; try done.
    destruct (parsewithopts_root _ _ _ _ _ _ _ _ _ _ _ _ _ En Eg Ep) as (Hp & Hf & Hb).
    destruct r as [r|]; cbn [obind] in H; injection H as <- <-.
    + split; [done|]. split; [|done]. by rewrite cjson_delete_freed, Hf, Hb.
    + split; [done|]. split; [|done]. change (cjson_delete None ?x) with x.
      change (freed (cjson_delete (Some c1) s3) ≡ₚ freed s ++ alloc ok (calls s) (calls (cjson_delete (Some c1) s3))).
      by rewrite cjson_delete_freed, delete_calls, Hf, Hb.
  - injection H as <- <-. apply new_item_acct in En as (H1 & H2 & Hok). cbn [set_ep calls freed cjson_delete].
    split; [done|]. split; [|done]. by rewrite H1, H2, alloc_one, Hok, app_nil_r.
Qed.

(** The text [ [1,x] ]: the parse fails after four allocations. *)
Lemma cjson_parse_no_leak_witness :
  let s' := PSt 4 [1%nat; 2%nat; 3%nat; 0%nat] (Some [120; 93]) in
  cjson_parse (fun _ => true) 5 20 (PSt 0 [] None) (Some [91; 49; 44; 120; 93; 0]) = Done (s', None) /\
  freed s' ≡ₚ [0%nat; 1%nat; 2%nat; 3%nat].
Proof.
  split; [reflexivity|].
  exact (proj1 (proj2 (cjson_parse_no_leak (fun _ => true) 5 20 (PSt 0 [] None) (Some [91; 49; 44; 120; 93; 0])
    (PSt 4 [1%nat; 2%nat; 3%nat; 0%nat] (Some [120; 93])) None eq_refl))).
Defined.

(** ** Termination *)

(** The position only moves to later bytes of the text. *)
Lemma suffix_drop_of {A} (k : nat) (l : list A) : drop k l `suffix_of` l.
Proof. exists (take k l). symmetry. apply take_drop. Qed.

Definition later (r p : list Z) : Prop := r `suffix_of` p /\ (length r < length p)%nat.

Lemma later_cons r c p : r `suffix_of` p -> later r (c :: p).
Proof. intros H. split; [by apply suffix_cons_r|]. apply suffix_length in H. cbn. lia. Qed.

Lemma later_trans r q p : later r q -> q `suffix_of` p -> later r p.
Proof. intros [H1 H2] H3. split; [by etrans|]. apply suffix_length in H3. lia. Qed.

Lemma later_skip r q p : r `suffix_of` q -> later q p -> later r p.
Proof. intros H1 [H2 H3]. split; [by etrans|]. apply suffix_length in H1. lia. Qed.

#[local] Hint Resolve suffix_cons_r later_cons later_trans later_skip suffix_drop_of : core.
#[local] Hint Extern 1 (_ `suffix_of` _) => reflexivity : core.

Section Progress.
Variable ok : nat -> bool.
Variable pf : nat.

(** The position moves forward, and the loops end, but for those of numbers in the text. *)
Definition ends (p : list Z) (m : presult) : Prop :=
  match m with
  | Done (_, _, Some r) => later r p
  | Done (_, _, None) => True
  | Fault => True
  | Spin => exists item c q, (c :: q) `suffix_of` p /\ (c =? 45) || is_digit c = true /\ parse_number pf item (c :: q) = Spin
  end.

Lemma ends_mono q p m : q `suffix_of` p -> ends q m -> ends p m.
Proof.
  intros H. destruct m as [[[s c] [r|]]| |]; cbn; eauto. intros (i & c & r & H1 & H2 & H3). exists i, c, r. split; [by etrans|done].
Qed.

Lemma digits_ends {A} (f : A -> Z -> A) num : forall acc,
  match digits f acc num with Done (_, r) => r `suffix_of` num | Fault => True | Spin => False end.
Proof.
  induction num as [|c num IH]; intros acc; cbn; [done|]. destruct (is_digit c); cbn; [|done].
  specialize (IH (f acc (c - 48))). destruct (digits _ _ _) as [[a r]| |]; auto.
Qed.

(** The integer part of a number that begins with a digit. *)
Lemma num_int_moves num :
  match num_int num with
  | Done (_, r) => r `suffix_of` num /\ (match num with c :: _ => is_digit c = true | [] => False end -> later r num)
  | Fault => True | Spin => False end.
Proof.
  unfold num_int. destruct num as [|c num]; [done|]. cbn [ld obind]. destruct (Z.eqb_spec c 48) as [->|Hc].
  - cbn [tail]. destruct num as [|c1 num]; [done|]. cbn [ld obind].
    destruct ((49 <=? c1) && (c1 <=? 57)); [|split; auto].
    pose proof (digits_ends acc_n (c1 :: num) 0) as H. destruct (digits _ _ _) as [[a r]| |]; auto.
  - cbn [ld obind]. destruct ((49 <=? c) && (c <=? 57)) eqn:E.
    + assert (Hd : is_digit c = true) by (unfold is_digit; b2p; apply andb_true_iff; split; apply Z.leb_le; lia).
      cbn [digits]. rewrite Hd. pose proof (digits_ends acc_n num (acc_n 0 (c - 48))) as H.
      destruct (digits _ _ _) as [[a r]| |]; auto.
    + split; [done|]. intros Hd. unfold is_digit in Hd. b2p. lia.
Qed.

Lemma num_frac_moves n num :
  match num_frac n num with Done (_, _, r) => r `suffix_of` num | Fault => True | Spin => False end.
Proof.
  unfold num_frac. destruct num as [|c num]; [done|]. cbn [ld obind]. destruct (c =? 46); [|done].
  destruct num as [|c1 num]; [done|]. cbn [tail ld obind]. destruct (is_digit c1); [|done].
  pose proof (digits_ends acc_frac (c1 :: num) (n, 0)) as H. destruct (digits _ _ _) as [[[a b] r]| |]; auto.
Qed.

Lemma num_exp_moves num :
  match num_exp num with Done (_, _, r) => r `suffix_of` num | Fault => True | Spin => False end.
Proof.
  unfold num_exp. destruct num as [|c num]; [done|]. cbn [ld obind]. destruct ((c =? 101) || (c =? 69)); [|done].
  destruct num as [|c1 num]; [done|]. cbn [tail ld obind].
  pose proof (digits_ends acc_sub num 0) as H. pose proof (digits_ends acc_sub (c1 :: num) 0) as H1.
  destruct (c1 =? 43); [|destruct (c1 =? 45)];
    [destruct (digits acc_sub 0 num) as [[a r]| |]|destruct (digits acc_sub 0 num) as [[a r]| |]|
     destruct (digits acc_sub 0 (c1 :: num)) as [[a r]| |]]; cbn; auto.
Qed.

Lemma parse_number_moves item c num : (c =? 45) || is_digit c = true ->
  match parse_number pf item (c :: num) with Done (_, r) => later r (c :: num) | _ => True end.
Proof.
  intros Hc. unfold parse_number. cbn [ld obind tail].
  pose proof (num_int_moves (if c =? 45 then num else c :: num)) as Hi.
  destruct (num_int _) as [[n p1]| |]; cbn [obind]; try done.
  pose proof (num_frac_moves n p1) as Hf. destruct (num_frac _ _) as [[[n1 sc] p2]| |]; cbn [obind]; try done.
  pose proof (num_exp_moves p2) as He. destruct (num_exp _) as [[[su sg] p3]| |]; cbn [obind]; try done.
  destruct (mypow _ _ _); cbn [obind]; try done. assert (H3 : p3 `suffix_of` p1) by (by etrans).
  destruct (c =? 45); destruct Hi as [Hi Hd]; [|eauto]. apply later_cons. by etrans.
Qed.

Lemma str_len_ends fuel : forall p len, (length p < fuel)%nat -> str_len fuel p len <> Spin.
Proof.
  induction fuel as [|f IH]; intros p len Hf; [lia|]. cbn [str_len]. destruct p as [|c p]; [done|].
  cbn [ld obind]. case_match; [done|]. cbn [length] in Hf. destruct (c =? ch_bslash); apply IH; cbn [drop]; rewrite ?length_drop; lia.
Qed.

(** An escape does not move back. *)
Definition esc_moves (p : list Z) (m : outcome (list Z * list Z * Z)) : Prop :=
  match m with Done (r, _, _) => r `suffix_of` p | Fault => True | Spin => False end.

Lemma hex_from_ends k : forall h p, hex_from k h p <> Spin.
Proof.
  induction k as [|k IH]; intros h p; cbn; [done|]. destruct p; cbn; [done|]. destruct (hexval z); [apply IH|done].
Qed.

Lemma put_utf_moves uc q out ptr2 p : q `suffix_of` p -> esc_moves p (put_utf uc q out ptr2).
Proof.
  intros Hp. unfold put_utf, wr. cbv zeta. destruct (_ && _); cbn [obind esc_moves]; done.
Qed.

Lemma unescape_u_moves p out ptr2 : esc_moves p (unescape_u p out ptr2).
Proof.
  unfold unescape_u. assert (Hd : forall k, drop k p `suffix_of` p) by auto.
  pose proof (hex_from_ends 4 0 (drop 1 p)) as H1. unfold parse_hex4. destruct (hex_from _ _ _) as [uc| |]; cbn [obind]; try done.
  case_match; [apply Hd|]. case_match; [|by apply put_utf_moves].
  destruct (ld (drop 1 (drop 4 p))) as [c1| |] eqn:E1; cbn [obind]; [|done|by destruct (drop 1 _)].
  case_match; [apply Hd|].
  destruct (ld (drop 2 (drop 4 p))) as [c2| |] eqn:E2; cbn [obind]; [|done|by destruct (drop 2 _)].
  case_match; [apply Hd|].
  pose proof (hex_from_ends 4 0 (drop 3 (drop 4 p))) as Hx2. destruct (hex_from _ _ _) as [uc2| |]; cbn [obind]; try done.
  assert (Hd6 : drop 6 (drop 4 p) `suffix_of` p) by (rewrite drop_drop; auto).
  case_match; [done|by apply put_utf_moves].
Qed.

Lemma str_copy_ends fuel : forall p out ptr2, (length p < fuel)%nat ->
  match str_copy fuel p out ptr2 with
  | Done (r, _, _) => r `suffix_of` p | Fault => True | Spin => False end.
Proof.
  induction fuel as [|f IH]; intros p out ptr2 Hf; [lia|]. cbn [str_copy]. destruct p as [|c p]; [done|].
  cbn [ld obind]. cbn [length] in Hf. destruct ((c =? ch_quote) || (c =? 0)); [done|]. destruct (negb (c =? ch_bslash)).
  - unfold wr. destruct (_ && _); cbn [obind]; [|done]. cbn [drop]. rewrite drop_0.
    specialize (IH p (splice out ptr2 [c]) (ptr2 + 1) ltac:(lia)). destruct (str_copy _ _ _ _) as [[[r o] p2]| |]; auto.
  - cbn [drop]. rewrite drop_0. destruct p as [|c1 p]; [done|]. cbn [ld obind].
    assert (He : esc_moves (c1 :: p) (if c1 =? 117 then unescape_u (c1 :: p) out ptr2
      else let* out := wr out ptr2 [escape c1] in Done (c1 :: p, out, ptr2 + 1))).
    { destruct (c1 =? 117); [apply unescape_u_moves|]. unfold wr. case_match; cbn [obind esc_moves]; done. }
    destruct (if c1 =? 117 then _ else _) as [[[r o] p2]| |]; cbn [obind esc_moves] in *; [|done|done].
    pose proof (suffix_length _ _ He) as Hl. cbn in Hl, Hf.
    assert (Hr : (length (drop 1 r) < f)%nat) by (rewrite length_drop; lia).
    specialize (IH (drop 1 r) o p2 Hr). destruct (str_copy _ _ _ _) as [[[r' o'] p2']| |]; try done.
    apply suffix_cons_r. etrans; [exact IH|]. etrans; [apply suffix_drop_of|done].
Qed.

Lemma parse_string_ends s item p : p <> [] -> ends p (parse_string ok s item p).
Proof.
  intros Hp. unfold parse_string. destruct p as [|c p]; [done|]. cbn [ld obind]. case_match; [done|]. cbn [drop]. rewrite drop_0.
  pose proof (str_len_ends (S (length (c :: p))) p 0 ltac:(cbn; lia)) as H1.
  destruct (str_len _ _ _) as [len| |]; cbn [obind]; try done. unfold cjson_malloc. destruct (ok (calls s)); [|done].
  pose proof (str_copy_ends (S (length (c :: p))) p (replicate (Z.to_nat (len + 1)) 0) 0 ltac:(cbn; lia)) as H2.
  destruct (str_copy _ _ _ _) as [[[r o] p2]| |]; cbn [obind]; try done.
  unfold wr. case_match; cbn [obind]; [|done]. destruct r as [|c2 r]; [done|]. cbn [ld obind ends].
  case_match; cbn [drop]; rewrite ?drop_0; apply later_cons; [|done]. etrans; [|exact H2]. auto.
Qed.

Lemma skip_from_ends p : match skip_from p with Done r => r `suffix_of` p | Fault => True | Spin => False end.
Proof.
  induction p as [|c p IH]; cbn; [done|]. destruct (negb (c =? 0) && (c <=? 32)); [|done]. destruct (skip_from p); auto.
Qed.

Section Items.
Variable pv : pstate -> cjson -> option (list Z) -> presult.
Variable F : nat.
Hypothesis pv_ends : forall s item p, (length p < F)%nat -> ends p (pv s item (Some p)).

Lemma value_then_skip_ends s c p : (length p < F)%nat -> ends p (value_then_skip pv s c p).
Proof.
  intros Hp. unfold value_then_skip, skip. pose proof (skip_from_ends p) as H1. destruct (skip_from p) as [q| |]; cbn [obind]; try done.
  pose proof (suffix_length _ _ H1). apply (ends_mono q p); [done|].
  pose proof (pv_ends s c q ltac:(lia)) as H2. destruct (pv s c (Some q)) as [[[s1 c1] [r|]]| |]; cbn [obind ends] in *; try done.
  pose proof (skip_from_ends r) as H3. destruct (skip_from r) as [r'| |]; cbn [obind ends] in *; [by eapply later_skip|done|done].
Qed.

Lemma parse_member_ends s n p : (length p < F)%nat -> ends p (parse_member ok pv s n p).
Proof.
  intros Hp. unfold parse_member. pose proof (skip_from_ends p) as H1. destruct (skip_from p) as [q| |] eqn:Eq; cbn [obind]; try done.
  assert (Hq : q <> []) by (intros ->; clear -Eq; induction p as [|c p IH]; cbn in Eq; [done|]; case_match; auto; congruence).
  pose proof (suffix_length _ _ H1). apply (ends_mono q p); [done|].
  pose proof (parse_string_ends s n q Hq) as H2. destruct (parse_string ok s n q) as [[[s1 n1] [r|]]| |]; cbn [obind ends skip] in *; try done.
  pose proof (skip_from_ends r) as H3. destruct (skip_from r) as [v| |]; cbn [obind ends] in *; try done.
  assert (Hv : later v q) by eauto. clear H2 H3. destruct v as [|c v]; [done|]. cbn [ld obind]. case_match; [done|]. cbn [drop]. rewrite drop_0.
  destruct Hv as [Hv Hl]. cbn in Hl. apply (ends_mono v q); [etrans; [|exact Hv]; auto|]. apply value_then_skip_ends. lia.
Qed.

Lemma array_loop_ends fuel : forall s item pre value,
  (length value < fuel)%nat -> (length value <= F)%nat -> ends value (array_loop ok pv fuel s item pre value).
Proof.
  induction fuel as [|f IH]; intros s item pre value Hf HF; [lia|]. cbn [array_loop]. destruct value as [|c value]; [done|].
  cbn [ld obind drop]. rewrite drop_0. cbn [length] in Hf, HF. destruct (c =? 44).
  - apply (ends_mono value); [auto|].
    destruct (cjson_new_item ok s) as [[n|] s1]; [|done]. pose proof (value_then_skip_ends s1 n value ltac:(lia)) as Hv.
    destruct (value_then_skip _ _ _ _) as [[[s2 n2] [r|]]| |]; cbn [obind ends] in *; try done.
    destruct Hv as [Hv Hl]. apply (ends_mono r); [done|]. apply IH; lia.
  - destruct (c =? 93); cbn [ends]; auto.
Qed.

Lemma object_loop_ends fuel : forall s item pre value,
  (length value < fuel)%nat -> (length value <= F)%nat -> ends value (object_loop ok pv fuel s item pre value).
Proof.
  induction fuel as [|f IH]; intros s item pre value Hf HF; [lia|]. cbn [object_loop]. destruct value as [|c value]; [done|].
  cbn [ld obind drop]. rewrite drop_0. cbn [length] in Hf, HF. destruct (c =? 44).
  - apply (ends_mono value); [auto|].
    destruct (cjson_new_item ok s) as [[n|] s1]; [|done]. pose proof (parse_member_ends s1 n value ltac:(lia)) as Hv.
    destruct (parse_member _ _ _ _ _) as [[[s2 n2] [r|]]| |]; cbn [obind ends] in *; try done.
    destruct Hv as [Hv Hl]. apply (ends_mono r); [done|]. apply IH; lia.
  - destruct (c =? 125); cbn [ends]; auto.
Qed.

Lemma parse_array_ends fuel s item c value :
  (length value < fuel)%nat -> (length value < F)%nat -> ends (c :: value) (parse_array ok pv fuel s item (c :: value)).
Proof.
  intros Hf HF. unfold parse_array. cbn [ld obind drop]. rewrite drop_0. destruct (negb (c =? 91)); [done|].
  pose proof (skip_from_ends value) as H1. destruct (skip_from value) as [v| |]; cbn [obind]; try done.
  pose proof (suffix_length _ _ H1). apply (ends_mono v); [auto|].
  destruct v as [|c1 v]; [done|]. cbn [ld obind drop length] in *. rewrite drop_0. destruct (c1 =? 93); [cbn; auto|].
  destruct (cjson_new_item ok s) as [[n|] s1]; [|done]. pose proof (value_then_skip_ends s1 n (c1 :: v) ltac:(cbn; lia)) as Hv.
  destruct (value_then_skip _ _ _ _) as [[[s2 n2] [r|]]| |]; cbn [obind ends length] in *; try done.
  destruct Hv as [Hv Hl]. cbn in Hl. apply (ends_mono r); [done|]. apply array_loop_ends; lia.
Qed.

Lemma parse_object_ends fuel s item c value :
  (length value < fuel)%nat -> (length value < F)%nat -> ends (c :: value) (parse_object ok pv fuel s item (c :: value)).
Proof.
  intros Hf HF. unfold parse_object. cbn [ld obind drop]. rewrite drop_0. destruct (negb (c =? 123)); [done|].
  pose proof (skip_from_ends value) as H1. destruct (skip_from value) as [v| |]; cbn [obind]; try done.
  pose proof (suffix_length _ _ H1). apply (ends_mono v); [auto|].
  destruct v as [|c1 v]; [done|]. cbn [ld obind drop length] in *. rewrite drop_0. destruct (c1 =? 125); [cbn; auto|].
  destruct (cjson_new_item ok s) as [[n|] s1]; [|done]. pose proof (parse_member_ends s1 n (c1 :: v) ltac:(cbn; lia)) as Hv.
  destruct (parse_member _ _ _ _ _) as [[[s2 n2] [r|]]| |]; cbn [obind ends length] in *; try done.
  destruct Hv as [Hv Hl]. cbn in Hl. apply (ends_mono r); [done|]. apply object_loop_ends; lia.
Qed.

End Items.

Lemma starts_with_ends lit p :
  match starts_with lit p with Done true => (length lit <= length p)%nat | Done false => True | Fault => True | Spin => False end.
Proof.
  revert p. induction lit as [|l lit IH]; intros p; cbn; [lia|]. destruct p as [|c p]; cbn; [done|].
  destruct (c =? l); [|done]. specialize (IH p). destruct (starts_with lit p) as [[]| |]; lia || done.
Qed.

Lemma parse_value_ends fuel : forall s item p, (length p < fuel)%nat -> ends p (parse_value ok pf fuel s item (Some p)).
Proof.
  assert (Hlit : forall (lit p : list Z) k s item, k = length lit -> (0 < k)%nat -> (length lit <= length p)%nat ->
    ends p (Done (s, item, Some (drop k p)))).
  { intros lit p k s item -> Hk Hl. split; [auto|]. rewrite length_drop. lia. }
  induction fuel as [|f IH]; intros s item p Hp; [lia|]. cbn [parse_value].
  pose proof (starts_with_ends lit_null p) as H1. destruct (starts_with lit_null p) as [[]| |]; cbn [obind]; try done;
    [apply (Hlit lit_null); [reflexivity|lia|done]|].
  pose proof (starts_with_ends lit_false p) as H2. destruct (starts_with lit_false p) as [[]| |]; cbn [obind]; try done;
    [apply (Hlit lit_false); [reflexivity|lia|done]|].
  pose proof (starts_with_ends lit_true p) as H3. destruct (starts_with lit_true p) as [[]| |]; cbn [obind]; try done;
    [apply (Hlit lit_true); [reflexivity|lia|done]|].
  destruct p as [|c p]; [done|]. cbn [ld obind length] in *. destruct (c =? ch_quote); [by apply parse_string_ends|].
  destruct ((c =? 45) || is_digit c) eqn:Ec.
  { pose proof (parse_number_moves item c p Ec) as Hn. destruct (parse_number pf item (c :: p)) as [[i r]| |] eqn:En; cbn [obind ends]; try done.
    exists item, c, p. auto. }
  destruct (c =? 91); [apply (parse_array_ends _ f); auto; lia|]. destruct (c =? 123); [apply (parse_object_ends _ f); auto; lia|done].
Qed.

Lemma cstr_ends p : match cstr p with Done l => (length l <= length p)%nat | Fault => True | Spin => False end.
Proof.
  induction p as [|c p IH]; cbn; [done|]. destruct (c =? 0); [cbn; lia|].
  destruct (cstr p); cbn [obind length] in *; lia || done.
Qed.

Lemma pure_loop_ends text : forall out j pre ins,
  match pure_loop text out j pre ins with Done o => length o = length out | Fault => True | Spin => False end.
Proof.
  assert (Hwr : forall out j c, match wr out j [c] with Done o => length o = length out | Fault => True | Spin => False end).
  { intros out j c. unfold wr. destruct (_ && _) eqn:E; [|done]. b2p. apply splice_length; lia. }
  induction text as [|c text IH]; intros out j pre ins; cbn [pure_loop]; [done|].
  destruct (c =? 0); [apply IH|]. specialize (Hwr out j c).
  destruct ((c =? 32) || (c =? 10) || (c =? 13)); [destruct ins; [|apply IH]|];
    destruct (wr out j [c]) as [o| |]; cbn [obind]; try done; rewrite <- Hwr; apply IH.
Qed.

(** The copy without white space, the allocation aside. *)
Definition pure_copy (text : list Z) : outcome (list Z) :=
  let* body := cstr text in pure_loop body (replicate (length body) 0) 0 0 false.

Lemma get_pure_ends s t : match get_pure_json_str ok s (Some t) with
  | Done (_, Some b) => pure_copy t = Done (bytes b) /\ (length (bytes b) <= length t)%nat
  | Spin => False | _ => True end.
Proof.
  unfold get_pure_json_str, pure_copy. pose proof (cstr_ends t) as H1.
  destruct (cstr t) as [body| |]; cbn [obind]; try done. unfold cjson_malloc. destruct (ok (calls s)); [|done].
  pose proof (pure_loop_ends body (replicate (length body) 0) 0 0 false) as H2.
  destruct (pure_loop _ _ _ _ _) as [o| |]; cbn [obind bytes]; try done. rewrite H2, length_replicate. done.
Qed.

(** Parsing ends unless a number in the copy does not. *)
Lemma parse_ends fuel s text : (length text < fuel)%nat -> cjson_parse ok pf fuel s (Some text) = Spin ->
  exists copy item c q, pure_copy text = Done copy /\ (c :: q) `suffix_of` copy /\ (c =? 45) || is_digit c = true /\
    parse_number pf item (c :: q) = Spin.
Proof.
  intros Hf. unfold cjson_parse, cjson_parsewithopts. destruct (cjson_new_item ok s) as [[c|] s1]; [|done].
  pose proof (get_pure_ends (set_ep None s1) text) as H1.
  destruct (get_pure_json_str ok _ _) as [[s2 [b|]]| |]; cbn [obind fmap option_fmap option_map skip]; try done.
  - destruct H1 as [Hp H1]. pose proof (skip_from_ends (bytes b)) as H2. destruct (skip_from (bytes b)) as [p| |]; cbn [obind]; try done.
    pose proof (suffix_length _ _ H2).
    pose proof (parse_value_ends fuel s2 (set_pure (Some b) c) p ltac:(lia)) as H3.
    destruct (parse_value _ _ _ _ _ _) as [[[s3 c3] [r|]]| |]; cbn [obind]; try done. intros _.
    destruct H3 as (i & c1 & q & S1 & S2 & S3). exists (bytes b), i, c1, q. split; [done|]. split; [by etrans|done].
  - destruct fuel; [lia|]. done.
Qed.

End Progress.

(** No digit and no minus sign is followed by a point or an E. *)
Definition int_byte (a b : Z) : bool := negb (((a =? 45) || is_digit a) && ((b =? 46) || (b =? 101) || (b =? 69))).
Fixpoint integers (l : list Z) : bool :=
  match l with
  | a :: r => match r with b :: _ => int_byte a b | [] => true end && integers r
  | [] => true
  end.

Lemma integers_suffix q p : q `suffix_of` p -> integers p = true -> integers q = true.
Proof.
  intros [k ->]. induction k as [|a k IH]; [done|]. cbn. intros H. apply andb_true_iff in H as [_ H]. by apply IH.
Qed.

(** What follows the digits of a number among integers. *)
Lemma digits_stop {A} (f : A -> Z -> A) num : forall acc a r acc', integers (a :: num) = true -> (a =? 45) || is_digit a = true ->
  digits f acc num = Done (acc', r) -> match r with b :: _ => (b =? 46) || (b =? 101) || (b =? 69) = false | [] => True end.
Proof.
  induction num as [|c num IH]; intros acc a r acc' Hi Ha H; [done|]. cbn [digits] in H.
  cbn [integers] in Hi. apply andb_true_iff in Hi as [Hb Hi]. destruct (is_digit c) eqn:Ec.
  - eapply (IH _ c); [exact Hi|by rewrite Ec, orb_true_r|exact H].
  - injection H as _ <-. unfold int_byte in Hb. rewrite Ha in Hb. cbn in Hb. by apply negb_true_iff in Hb.
Qed.

Lemma num_int_stop num a n r : integers (a :: num) = true -> (a =? 45) || is_digit a = true -> num_int num = Done (n, r) ->
  match r with b :: _ => (b =? 46) || (b =? 101) || (b =? 69) = false | [] => True end.
Proof.
  intros Hi Ha. unfold num_int. destruct num as [|c num]; [done|]. cbn [ld obind].
  destruct (Z.eqb_spec c 48) as [->|Hc].
  - cbn [tail]. destruct num as [|c1 num]; [done|]. cbn [ld obind].
    assert (Hi' : integers (48 :: c1 :: num) = true) by (cbn [integers] in Hi |- *; by apply andb_true_iff in Hi as [_ Hi]).
    destruct ((49 <=? c1) && (c1 <=? 57)).
    + intros H. by eapply (digits_stop _ (c1 :: num) _ 48 r n).
    + intros [= _ <-]. cbn [integers] in Hi'. apply andb_true_iff in Hi' as [Hb _]. unfold int_byte in Hb. cbn in Hb. by apply negb_true_iff in Hb.
  - cbn [ld obind]. destruct ((49 <=? c) && (c <=? 57)) eqn:E.
    + intros H. by eapply (digits_stop _ (c :: num) _ a r n).
    + intros [= _ <-]. cbn [integers] in Hi. apply andb_true_iff in Hi as [Hb _]. unfold int_byte in Hb. rewrite Ha in Hb. cbn in Hb.
      by apply negb_true_iff in Hb.
Qed.

Lemma integer_ends pf item c q : integers (c :: q) = true -> (c =? 45) || is_digit c = true -> parse_number pf item (c :: q) <> Spin.
Proof.
  intros Hi Hc. unfold parse_number. cbn [ld obind tail].
  set (num := if c =? 45 then q else c :: q).
  assert (HS : forall n r, num_int num = Done (n, r) -> match r with b :: _ => (b =? 46) || (b =? 101) || (b =? 69) = false | [] => True end).
  { intros n r. unfold num. destruct (Z.eqb_spec c 45) as [->|Hne]; [by apply (num_int_stop q 45)|].
    cbn in Hc. apply (num_int_stop (c :: q) 48); [|done]. cbn [integers]. apply andb_true_iff. split; [|exact Hi].
    unfold int_byte. cbn. destruct (c =? 46) eqn:E1, (c =? 101) eqn:E2, (c =? 69) eqn:E3; b2p; subst; try done. }
  pose proof (num_int_moves num) as HM. destruct (num_int num) as [[n r]| |]; cbn [obind]; [|done|done].
  specialize (HS n r eq_refl). destruct r as [|b r]; [done|].
  apply orb_false_iff in HS as [HS E3]. apply orb_false_iff in HS as [E1 E2].
  unfold num_frac. cbn [ld obind]. rewrite E1. cbn [obind]. unfold num_exp. cbn [ld obind]. rewrite E2, E3. cbn [orb obind].
  change (mypow pf 10 (u64 (0 + s32 (0 * 1)))) with (@Done Z 1). done.
Qed.

(** On every text whose numbers are integers, and whichever allocations fail, the parser ends with fuel
    above the length of the text: white space, strings, arrays, objects and nesting always advance the
    position.  (A number with a fraction never ends; reading outside a buffer is the outcome Fault.) *)
Theorem cjson_parse_terminates (ok : nat -> bool) (pf fuel : nat) (s : pstate) (text : list Z) :
  (length text < fuel)%nat -> (forall copy, pure_copy text = Done copy -> integers copy = true) ->
  cjson_parse ok pf fuel s (Some text) <> Spin.
Proof.
  intros Hf Hi HS. destruct (parse_ends ok pf fuel s text Hf HS) as (copy & i & c & q & Hp & Hq & Hc & HN).
  revert HN. apply integer_ends; [|done]. eapply integers_suffix; [exact Hq|]. by apply Hi.
Qed.

Lemma cjson_parse_terminates_witness :
  cjson_parse (fun n => (n <? 4)%nat) 0 12 (PSt 0 [] None) (Some [91; 32; 49; 44; 123; 34; 97; 34; 58; 45; 0]) <> Spin.
Proof.
  apply cjson_parse_terminates; [cbn; lia|]. intros copy H. vm_compute in H. injection H as <-. reflexivity.
Defined.

End CjsonHeap.
