(* ===== verification/CjsonMem.v ===== *)
(** * The JSON reader when memory runs out

    Whether an allocation succeeds decides nothing but how far the reader gets:
    a run in which some allocations fail does exactly what the run in which
    all succeed does, until the first failure; from there every function
    returns NULL without another access to the text, and the tree is deleted.
    So a text that is read safely with enough memory is read safely with any. *)

From S2P Require Import Prelude Mem Cjson CjsonGrammar CjsonHeap.
From stdpp Require Import base list numbers.
From Stdlib Require Import ZArith Lia.

Local Open Scope Z_scope.
Local Open Scope cint_scope.

Module CjsonMem.
Import Cjson CjsonGrammar CjsonHeap.

Section Memory.

Variable ok : nat -> bool.   (* does the n-th kzalloc succeed? *)

(** One of the allocations from the [n]-th up to the [m]-th failed. *)
Definition short (n m : nat) : Prop := exists k, (n <= k < m)%nat /\ ok k = false.

(** [cut], the run with allocations from the [n]-th on that may fail, does what
    [full] does, or stops with NULL after a failure. *)
Definition tracks (n : nat) (full cut : presult) : Prop :=
  match full with
  | Done (s, _, _) =>
      (n <= calls s)%nat /\
      (cut = full \/ exists s2 i2, cut = Done (s2, i2, None) /\ short n (calls s2))
  | _ => True
  end.

Lemma tracks_done n s i r : (n <= calls s)%nat -> tracks n (Done (s, i, r)) (Done (s, i, r)).
Proof. by split; [|left]. Qed.

Lemma tracks_le n m full cut : (n <= m)%nat -> tracks m full cut -> tracks n full cut.
Proof.
  intros Hn. destruct full as [[[s i] r]| |]; cbn; try done. intros [Hm H]. split; [lia|].
  destruct H as [->|(s2 & i2 & -> & k & Hk & Ho)]; [by left|right]. exists s2, i2. split; [done|]. exists k. split; [lia|done].
Qed.

(** A computation on both sides that does not allocate. *)
Lemma tracks_pure {A} n (m : outcome A) (k k' : A -> presult) :
  (forall a, m = Done a -> tracks n (k a) (k' a)) -> tracks n (obind m k) (obind m k').
Proof. intros H. destruct m as [a| |]; cbn [obind]; [by apply H|done|done]. Qed.

(** One function after the other: the second goes on from the position the
    first left, and hands a NULL on. *)
Lemma tracks_bind n (m m' : presult) (k k' : pstate * cjson * option (list Z) -> presult) :
  tracks n m m' ->
  (forall s i r, (n <= calls s)%nat -> tracks (calls s) (k (s, i, r)) (k' (s, i, r))) ->
  (forall s i, exists i', k' (s, i, None) = Done (s, i', None)) ->
  tracks n (obind m k) (obind m' k').
Proof.
  intros Hm Hk Hnull. destruct m as [[[s i] r]| |]; cbn [obind]; [|done|done].
  destruct Hm as [Hn [->|(s2 & i2 & -> & Hs)]]; cbn [obind].
  - eapply tracks_le; [exact Hn|]. by apply Hk.
  - assert (Ht : tracks n (k (s, i, r)) (k (s, i, r))).
    { specialize (Hk s i r Hn). destruct (k (s, i, r)) as [[[s3 i3] r3]| |]; cbn in *; try done. destruct Hk. split; [lia|by left]. }
    destruct (Hnull s2 i2) as [i' E]. destruct (k (s, i, r)) as [[[s3 i3] r3]| |]; cbn; try done.
    destruct Ht. split; [done|]. right. rewrite E. by exists s2, i'.
Qed.

(** A new item, and what is done with it. *)
Lemma tracks_new n s (i : cjson) (k k' : cjson -> pstate -> presult) :
  (n <= calls s)%nat ->
  (forall c s1, (n <= calls s1)%nat -> tracks n (k c s1) (k' c s1)) ->
  tracks n (let '(c, s) := cjson_new_item all s in match c with None => Done (s, i, None) | Some c => k c s end)
    (let '(c, s) := cjson_new_item ok s in match c with None => Done (s, i, None) | Some c => k' c s end).
Proof.
  intros Hn Hk. unfold cjson_new_item, cjson_malloc, all. cbn [fmap option_fmap option_map].
  set (c := CJson _ _ _ _ _ _ _). set (s1 := PSt _ _ _). pose proof (Hk c s1 ltac:(cbn; lia)) as Ht.
  destruct (ok (calls s)) eqn:Eo; cbn [fmap option_fmap option_map]; [exact Ht|].
  destruct (k c s1) as [[[s3 i3] r3]| |]; cbn in *; try done. destruct Ht as [Hm _]. split; [done|]. right.
  exists s1, i. split; [done|]. exists (calls s). split; [cbn; lia|done].
Qed.

Lemma parse_string_tracks s i p n : (n <= calls s)%nat -> tracks n (parse_string all s i p) (parse_string ok s i p).
Proof.
  intros Hn. unfold parse_string. apply tracks_pure. intros c _. destruct (negb _); [by apply tracks_done|].
  apply tracks_pure. intros len _. unfold cjson_malloc, all.
  match goal with |- tracks _ ?full _ => assert (Hf : tracks n full full) end.
  { apply tracks_pure. intros [[p1 out] j] _. do 2 (apply tracks_pure; intros ? _). apply tracks_done. cbn. lia. }
  destruct (ok (calls s)) eqn:Eo; [exact Hf|].
  match goal with |- tracks _ ?full _ => destruct full as [[[s3 i3] r3]| |]; try done end.
  destruct Hf as [Hm _]. split; [done|]. right. do 2 eexists. split; [reflexivity|]. exists (calls s). split; [cbn; lia|done].
Qed.

(** ** Arrays and objects *)

Section Items.

Variable pv pv' : pstate -> cjson -> option (list Z) -> presult.
Hypothesis pv_tracks : forall s i p, tracks (calls s) (pv s i p) (pv' s i p).

Lemma value_then_skip_tracks s i p n : (n <= calls s)%nat ->
  tracks n (value_then_skip pv s i p) (value_then_skip pv' s i p).
Proof.
  intros Hn. unfold value_then_skip. apply tracks_pure. intros q _. apply tracks_bind.
  - by eapply tracks_le, pv_tracks.
  - intros s1 i1 r1 _. apply tracks_pure. intros r _. by apply tracks_done.
  - intros s1 i1. by exists i1.
Qed.

Lemma parse_member_tracks s i p n : (n <= calls s)%nat ->
  tracks n (parse_member all pv s i p) (parse_member ok pv' s i p).
Proof.
  intros Hn. unfold parse_member. apply tracks_pure. intros q _. apply tracks_bind.
  - by apply parse_string_tracks.
  - intros s1 i1 r1 _. apply tracks_pure. intros [v|] _; [|by apply tracks_done].
    apply tracks_pure. intros c _. destruct (negb _); [by apply tracks_done|]. by apply value_then_skip_tracks.
  - intros s1 i1. by exists i1.
Qed.

Lemma array_loop_tracks fuel : forall s i pre v n, (n <= calls s)%nat ->
  tracks n (array_loop all pv fuel s i pre v) (array_loop ok pv' fuel s i pre v).
Proof.
  induction fuel as [|f IH]; intros s i pre v n Hn; [done|]. cbn [array_loop]. apply tracks_pure. intros c _.
  destruct (c =? 44); [|destruct (c =? 93); by apply tracks_done].
  apply tracks_new; [done|]. intros c1 s1 Hn1. apply tracks_bind.
  - by apply value_then_skip_tracks.
  - intros s2 i2 [r2|] _; [by apply IH|by apply tracks_done].
  - intros s2 i2. by eexists.
Qed.

Lemma object_loop_tracks fuel : forall s i pre v n, (n <= calls s)%nat ->
  tracks n (object_loop all pv fuel s i pre v) (object_loop ok pv' fuel s i pre v).
Proof.
  induction fuel as [|f IH]; intros s i pre v n Hn; [done|]. cbn [object_loop]. apply tracks_pure. intros c _.
  destruct (c =? 44); [|destruct (c =? 125); by apply tracks_done].
  apply tracks_new; [done|]. intros c1 s1 Hn1. apply tracks_bind.
  - by apply parse_member_tracks.
  - intros s2 i2 [r2|] _; [by apply IH|by apply tracks_done].
  - intros s2 i2. by eexists.
Qed.

Lemma parse_array_tracks fuel s i v n : (n <= calls s)%nat ->
  tracks n (parse_array all pv fuel s i v) (parse_array ok pv' fuel s i v).
Proof.
  intros Hn. unfold parse_array. apply tracks_pure. intros c _. destruct (negb _); [by apply tracks_done|].
  apply tracks_pure. intros q _. apply tracks_pure. intros c1 _. destruct (c1 =? 93); [by apply tracks_done|].
  apply tracks_new; [done|]. intros c2 s1 Hn1. apply tracks_bind.
  - by apply value_then_skip_tracks.
  - intros s2 i2 [r2|] _; [by apply array_loop_tracks|by apply tracks_done].
  - intros s2 i2. by eexists.
Qed.

Lemma parse_object_tracks fuel s i v n : (n <= calls s)%nat ->
  tracks n (parse_object all pv fuel s i v) (parse_object ok pv' fuel s i v).
Proof.
  intros Hn. unfold parse_object. apply tracks_pure. intros c _. destruct (negb _); [by apply tracks_done|].
  apply tracks_pure. intros q _. apply tracks_pure. intros c1 _. destruct (c1 =? 125); [by apply tracks_done|].
  apply tracks_new; [done|]. intros c2 s1 Hn1. apply tracks_bind.
  - by apply parse_member_tracks.
  - intros s2 i2 [r2|] _; [by apply object_loop_tracks|by apply tracks_done].
  - intros s2 i2. by eexists.
Qed.

End Items.

(** ** Values and texts *)

Lemma parse_value_tracks pf fuel : forall s i p,
  tracks (calls s) (parse_value all pf fuel s i p) (parse_value ok pf fuel s i p).
Proof.
  induction fuel as [|f IH]; intros s i [v|]; [done|done| |by apply tracks_done]. cbn [parse_value].
  do 3 (apply tracks_pure; intros [] _; [by apply tracks_done|]). apply tracks_pure. intros c _.
  destruct (c =? ch_quote); [by apply parse_string_tracks|]. destruct (_ || _).
  { apply tracks_pure. intros [i1 r] _. by apply tracks_done. }
  destruct (c =? 91); [by apply parse_array_tracks|]. destruct (c =? 123); [by apply parse_object_tracks|].
  by apply tracks_done.
Qed.

Lemma malloc_eq (o : nat -> bool) s :
  cjson_malloc o s = (if o (calls s) then Some (calls s) else None, PSt (S (calls s)) (freed s) (ep s)).
Proof. done. Qed.

(** The copy of the text. *)
Lemma get_pure_tracks s text s' b : get_pure_json_str all s text = Done (s', b) ->
  (calls s <= calls s')%nat /\
  (get_pure_json_str ok s text = Done (s', b) \/
   exists s2, get_pure_json_str ok s text = Done (s2, None) /\ short (calls s) (calls s2)).
Proof.
  unfold get_pure_json_str. destruct text as [text|]; [|by intros [= <- <-]; auto].
  destruct (cstr text) as [body| |]; cbn [obind]; try done. rewrite !malloc_eq. cbn [all].
  destruct (pure_loop _ _ _ _ _) as [out| |]; cbn [obind]; try done. intros [= <- <-].
  split; [cbn; lia|]. destruct (ok (calls s)) eqn:Eo; [by left|right].
  eexists. split; [reflexivity|]. exists (calls s). split; [cbn; lia|done].
Qed.

(** A parse without a copy of the text. *)
Lemma parse_value_null (o : nat -> bool) pf fuel s i : (0 < fuel)%nat -> parse_value o pf fuel s i None = Done (s, i, None).
Proof. by destruct fuel; [lia|]. Qed.

(** The value in the copy, and the tree kept or deleted. *)
Definition finish (o : nat -> bool) (pf fuel : nat) (c : cjson) (sp : pstate * option buffer) : outcome (pstate * option cjson) :=
  let* p := skip (bytes <$> sp.2) in
  let* (s, c, r) := parse_value o pf fuel sp.1 (set_pure sp.2 c) p in
  match r with None => Done (cjson_delete (Some c) s, None) | Some _ => Done (s, Some c) end.

Lemma cjson_parse_finish (o : nat -> bool) pf fuel s text : cjson_parse o pf fuel s text =
  let s1 := PSt (S (calls s)) (freed s) None in
  if o (calls s) then
    let* sp := get_pure_json_str o s1 text in finish o pf fuel (CJson (calls s) [] 0 None 0 None None) sp
  else Done (s1, None).
Proof.
  unfold cjson_parse, cjson_parsewithopts, cjson_new_item. rewrite malloc_eq. unfold set_ep. cbn [calls freed].
  destruct (o (calls s)); cbn [fmap option_fmap option_map]; [|done].
  destruct (get_pure_json_str _ _ _) as [[s2 b]| |]; cbn [obind]; [|done|done]. unfold finish. cbn [fst snd].
  destruct (skip _) as [p| |]; cbn [obind]; [|done|done].
  by destruct (parse_value _ _ _ _ _ _) as [[[s3 c3] [r|]]| |].
Qed.

Lemma finish_tracks pf fuel c sp s' c' : finish all pf fuel c sp = Done (s', c') ->
  finish ok pf fuel c sp = Done (s', c') \/
  exists s2, finish ok pf fuel c sp = Done (s2, None) /\ short (calls (fst sp)) (calls s2).
Proof.
  unfold finish. destruct (skip _) as [p| |]; cbn [obind]; try done.
  pose proof (parse_value_tracks pf fuel sp.1 (set_pure sp.2 c) p) as Ht.
  destruct (parse_value all _ _ _ _ _) as [[[s3 c3] r3]| |]; cbn [obind]; try done.
  destruct Ht as [_ [->|(s4 & i4 & -> & Hs)]]; cbn [obind]; [by left|right].
  eexists. split; [reflexivity|]. by rewrite delete_calls.
Qed.

Lemma short_le n n' m : (n <= n')%nat -> short n' m -> short n m.
Proof. intros Hn (k & Hk & Ho). exists k. split; [lia|done]. Qed.

(** What [cjson_parse] returns, against the run in which all allocations
    succeed. *)
Lemma cjson_parse_tracks pf fuel s text s' c : (0 < fuel)%nat ->
  cjson_parse all pf fuel s text = Done (s', c) ->
  cjson_parse ok pf fuel s text = Done (s', c) \/
  exists s2, cjson_parse ok pf fuel s text = Done (s2, None) /\ short (calls s) (calls s2).
Proof.
  intros Hf. rewrite !cjson_parse_finish. cbv zeta. change (all (calls s)) with true. cbv iota.
  set (c0 := CJson _ _ _ _ _ _ _). set (s1 := PSt _ _ _). assert (Hc1 : calls s1 = S (calls s)) by done. intros H.
  destruct (ok (calls s)) eqn:E1; [|right; exists s1; split; [done|]; exists (calls s); split; [lia|done]].
  destruct (get_pure_json_str all s1 text) as [sp| |] eqn:Eg; cbn [obind] in H; try done. destruct sp as [s2 b].
  apply get_pure_tracks in Eg as [Hc2 [->|(s3 & -> & Hs)]]; cbn [obind].
  - apply finish_tracks in H as [->|(s4 & -> & Hs)]; [by left|right]. exists s4. split; [done|].
    eapply short_le; [|exact Hs]. cbn [fst]. lia.
  - right. unfold finish. cbn [snd fst skip fmap option_fmap option_map obind]. rewrite parse_value_null by done. cbn [obind].
    eexists. split; [reflexivity|]. rewrite delete_calls. eapply short_le; [|exact Hs]. lia.
Qed.

End Memory.

(** C30: reading a text of the grammar ends whatever allocations fail, with fuel
    above its length, and never outside a buffer: the tree of the value comes
    back, or NULL, and NULL only when one of the allocations of this call
    failed.  A text of the grammar has integers of 32 bits only, no string that
    ends in an escaped backslash and only ASCII unicode escapes; a number by
    itself has white space after it. *)
Theorem cjson_parse_any_memory (ok : nat -> bool) (pf fuel : nat) (st : pstate) (v : json) (s w w' : list Z) :
  renders v s -> ws w -> ws w' -> match v with JNum _ => w' <> [] | _ => True end ->
  (length (w ++ s ++ w') < fuel)%nat ->
  exists st' c, cjson_parse ok pf fuel st (Some ((w ++ s ++ w') ++ [0])) = Done (st', c) /\
    match c with
    | Some c => json_of c = v
    | None => exists n, (calls st <= n < calls st')%nat /\ ok n = false
    end.
Proof.
  intros Hr Hw Hw' Hn Hf. destruct (cjson_parse_tree pf fuel st v s w w') as (st' & c & H & Hj & _); [done..|].
  destruct (cjson_parse_tracks ok pf fuel _ _ _ _ ltac:(lia) H) as [E|(s2 & E & Hs)]; [by exists st', (Some c)|by exists s2, None].
Qed.

(** The sample text when the fifth allocation fails, and when none does. *)
Lemma cjson_parse_any_memory_witness :
  (exists st' c, cjson_parse (fun n => negb (n =? 4)%nat) 1 100 (PSt 0 [] None) (Some (([10] ++ sample_text ++ []) ++ [0])) = Done (st', c) /\
    match c with
    | Some c => json_of c = sample_value
    | None => exists n, (0 <= n < calls st')%nat /\ negb (n =? 4)%nat = false
    end) /\
  (exists st', cjson_parse (fun n => negb (n =? 4)%nat) 1 100 (PSt 0 [] None) (Some (([10] ++ sample_text ++ []) ++ [0])) = Done (st', None)).
Proof.
  split; [|eexists; vm_compute; reflexivity].
  apply (cjson_parse_any_memory (fun n => negb (n =? 4)%nat) 1 100 (PSt 0 [] None) sample_value sample_text [10] []).
  - exact sample_renders.
  - by repeat constructor.
  - constructor.
  - done.
  - cbn. lia.
Defined.

End CjsonMem.
