(* ===== verification/CjsonUse.v ===== *)
(** * Looking members up, and texts the JSON reader does not survive

    [cjson_getobjectitem] is the first member whose name is equal up to the case
    of ASCII letters, also on the tree of a parsed text.  The second half shows what
    the reader does outside the grammar of CjsonGrammar.v: numbers with a
    fraction digit never end, texts cut short and short unicode escapes leave the
    buffers. *)

From S2P Require Import Prelude Mem Cjson CjsonGrammar.
From stdpp Require Import base list numbers.
From Stdlib Require Import ZArith Lia.

Local Open Scope Z_scope.
Local Open Scope cint_scope.

Module CjsonUse.
Import Cjson CjsonGrammar.

(** ** Lookup *)

Definition lower (s : list Z) : list Z := map mytolower s.

Lemma mytolower_0 c : mytolower c = 0 <-> c = 0.
Proof. unfold mytolower. destruct ((65 <=? c) && (c <=? 90)) eqn:E; b2p; lia. Qed.

Lemma strcasecmp_lower a : Forall (fun x => x <> 0) a -> forall b ra rb, Forall (fun x => x <> 0) b ->
  exists d, strcasecmp_from (a ++ 0 :: ra) (b ++ 0 :: rb) = Done d /\ (d = 0 <-> lower a = lower b).
Proof.
  induction 1 as [|x a Hx Ha IH]; intros b ra rb Hb; destruct Hb as [|y b Hy Hb]; cbn [app strcasecmp_from].
  - by exists 0.
  - change (mytolower 0) with 0. pose proof (mytolower_0 y) as Hl. rewrite (proj2 (Z.eqb_neq 0 (mytolower y))) by lia.
    exists (0 - mytolower y). split; [done|]. cbn. split; [lia|done].
  - change (mytolower 0) with 0. pose proof (mytolower_0 x) as Hl. rewrite (proj2 (Z.eqb_neq (mytolower x) 0)) by lia.
    exists (mytolower x - 0). split; [done|]. cbn. split; [lia|done].
  - destruct (Z.eqb_spec (mytolower x) (mytolower y)) as [E|E].
    + rewrite (proj2 (Z.eqb_neq x 0)) by done. destruct (IH b ra rb Hb) as (d & -> & Hd). exists d. split; [done|].
      cbn [lower map]. rewrite E, Hd. unfold lower. split; [congruence|]. by intros [= ?].
    + exists (mytolower x - mytolower y). split; [done|]. cbn. split; [lia|]. intros [= ? ?]. done.
Qed.

(** Does a child answer to [name]? *)
Definition answers (name : list Z) (c : cjson) : bool :=
  match string c with
  | None => false
  | Some _ => bool_decide (lower (cstring (string c)) = lower name)
  end.

Lemma sound_named l : Forall sound l -> Forall named l.
Proof. induction 1 as [|c l []]; by constructor. Qed.

Lemma object_from_find l name r :
  Forall named l -> Forall (fun x => x <> 0) name ->
  object_from l (Some (name ++ 0 :: r)) = Done (List.find (answers name) l).
Proof.
  intros Hl Hn. induction Hl as [|c l Hc Hl IH]; [done|]. cbn [object_from List.find].
  unfold named in Hc. unfold answers at 1. destruct (string c) as [b|]; [|cbn; exact IH].
  destruct Hc as (x & rx & Hb & Hx). cbn [cjson_strcasecmp fmap option_fmap option_map].
  rewrite Hb. destruct (strcasecmp_lower x Hx name rx r Hn) as (d & -> & Hd). cbn [obind cstring].
  rewrite Hb, cstr_app by done. unfold truthy. destruct (Z.eqb_spec d 0) as [E|E].
  - cbn. by rewrite bool_decide_true by tauto.
  - cbn. rewrite bool_decide_false by tauto. exact IH.
Qed.

Lemma find_answers name l : name <> [] ->
  json_of <$> List.find (answers name) l =
  snd <$> List.find (fun kv => bool_decide (lower (fst kv) = lower name))
            (map (fun c => (cstring (string c), json_of c)) l).
Proof.
  intros Hn. induction l as [|c l IH]; [done|]. cbn [List.find map fst]. unfold answers at 1.
  destruct (string c) as [b|] eqn:E.
  - by destruct (bool_decide (lower (cstring (Some b)) = lower name)).
  - rewrite bool_decide_false; [exact IH|]. by destruct name.
Qed.

(** In the tree of a parsed object, looking up a name finds the value
    of the first member whose name is equal up to the case of ASCII letters, and
    nothing when there is none; it reads inside the names. *)
Theorem getobjectitem_parsed (pf fuel : nat) (st : pstate) (l : list (list Z * json)) (s w w' name r : list Z) :
  renders (JObj l) s -> ws w -> ws w' -> (length (w ++ s ++ w') < fuel)%nat ->
  name <> [] -> Forall (fun x => x <> 0) name ->
  exists st' c o, cjson_parse all pf fuel st (Some ((w ++ s ++ w') ++ [0])) = Done (st', Some c) /\
    cjson_getobjectitem c (Some (name ++ 0 :: r)) = Done o /\
    json_of <$> o = snd <$> List.find (fun kv => bool_decide (lower (fst kv) = lower name)) l.
Proof.
  intros Hr Hw Hw' Hf Hne Hnz.
  destruct (cjson_parse_tree pf fuel st (JObj l) s w w') as (st' & c & H & Hj & Hn & _); [done..|].
  exists st', c, (List.find (answers name) (child c)). split; [done|]. unfold cjson_getobjectitem.
  split; [apply object_from_find; [by apply sound_named|done]|]. rewrite find_answers by done. do 2 f_equal.
  destruct c as [self ch ty vs vi str pure]. cbn in Hj |- *. repeat case_match; congruence.
Qed.

(** Looking up "AB" in [{ "ab": [ -12, true ] }]. *)
Lemma getobjectitem_parsed_witness :
  exists st' c o, cjson_parse all 1 100 (PSt 0 [] None) (Some (([10] ++ sample_text ++ []) ++ [0])) = Done (st', Some c) /\
    cjson_getobjectitem c (Some ([65; 66] ++ 0 :: [])) = Done o /\ json_of <$> o = Some (JArr [JNum (-12); JTrue]).
Proof.
  apply (getobjectitem_parsed 1 100 (PSt 0 [] None) [([97; 98], JArr [JNum (-12); JTrue])] sample_text [10] [] [65; 66] []).
  - exact sample_renders.
  - by repeat constructor.
  - constructor.
  - cbn. lia.
  - done.
  - by repeat constructor.
Defined.

(** ** Exponents *)

Lemma mypow_loop_ok num n : 0 <= n < 2 ^ 31 -> forall fuel i v, 1 <= i <= n + 1 -> (Z.to_nat (n + 1 - i) < fuel)%nat ->
  mypow_loop fuel num n i (u64 v) = Done (u64 (v * num ^ (n + 1 - i))).
Proof.
  intros Hn fuel. induction fuel as [|f IH]; intros i v Hi Hf; [lia|]. cbn [mypow_loop]. rewrite (u64_small i) by lia.
  destruct (Z.leb_spec i n).
  - destruct (Z.eq_dec i (2 ^ 31 - 1)) as [E|E]; [|]; cycle 1.
    + rewrite s32_small by lia. replace (u64 (u64 v * num)) with (u64 (v * num)) by (unfold u64; by rewrite Z.mul_mod_idemp_l).
      rewrite IH by lia. do 2 f_equal. replace (n + 1 - i) with (1 + (n + 1 - (i + 1))) by lia.
      rewrite Z.pow_add_r, Z.pow_1_r by lia. lia.
    + assert (n = i) by lia. subst n. destruct f as [|f]; [lia|]. cbn [mypow_loop]. subst i.
      change (u64 (s32 (2 ^ 31 - 1 + 1)) <=? 2 ^ 31 - 1) with false. cbn. replace (2 ^ 31 - 1 + 1 - (2 ^ 31 - 1)) with 1 by lia.
      unfold u64. by rewrite Z.pow_1_r, Z.mul_mod_idemp_l.
  - replace (n + 1 - i) with 0 by lia. by rewrite Z.pow_0_r, Z.mul_1_r.
Qed.

Lemma mypow_top num fuel : mypow fuel num (2 ^ 64 - 1) = Spin.
Proof.
  unfold mypow. change (2 ^ 64 - 1 =? 0) with false.
  cut (forall i v, mypow_loop fuel num (2 ^ 64 - 1) i v = Spin); [intros H; apply H|].
  induction fuel as [|f IH]; intros i v; [done|]. cbn [mypow_loop]. pose proof (u64_range i).
  rewrite (proj2 (Z.leb_le _ _)) by lia. apply IH.
Qed.

(** [mypow] is exponentiation modulo 2^64 for exponents of 31 bits, in as
    many rounds as the exponent; for the exponent 2^64 - 1, what one fraction
    digit makes, its loop never ends, because an int cannot exceed it. *)
Theorem mypow_spec (num n : Z) (fuel : nat) :
  (0 <= n < 2 ^ 31 -> (Z.to_nat n < fuel)%nat -> mypow fuel num n = Done (u64 (num ^ n))) /\
  mypow fuel num (2 ^ 64 - 1) = Spin.
Proof.
  split.
  - intros Hn Hf. unfold mypow. destruct (Z.eqb_spec n 0) as [->|Hz]; [done|].
    pose proof (mypow_loop_ok num n Hn fuel 1 1 ltac:(lia) ltac:(lia)) as H. change (u64 1) with 1 in H. rewrite H.
    do 2 f_equal. rewrite Z.mul_1_l. f_equal. lia.
  - apply mypow_top.
Qed.

(** A number with one digit after the point never ends, whatever the fuel:
    the kernel loops on a configuration with such a number. *)
Theorem fraction_never_ends (pf fuel : nat) (s : pstate) (item : cjson) (ds : list Z) (d : Z) (r : list Z) :
  decimal ds -> is_digit d = true -> first stop r ->
  parse_value all pf (S fuel) s item (Some (ds ++ 46 :: d :: r)) = Spin.
Proof.
  intros Hds Hd (e & t & -> & He & _ & He1 & He2).
  pose proof (decimal_first ds Hds) as (c & u & E & Hc).
  assert (Hnum : parse_number pf item (ds ++ 46 :: d :: e :: t) = Spin).
  { unfold parse_number. assert (ld (ds ++ 46 :: d :: e :: t) = Done c) as -> by (by rewrite E). cbn [obind].
    rewrite (proj2 (Z.eqb_neq c 45)) by lia. rewrite num_int_decimal by (done || by apply first_cons). cbn [obind].
    unfold num_frac. cbn [ld obind tail digits Z.eqb Pos.eqb]. rewrite Hd, He. cbn [obind acc_frac fst snd].
    unfold num_exp. cbn [ld obind]. rewrite (proj2 (Z.eqb_neq e 101)), (proj2 (Z.eqb_neq e 69)) by done. cbn [orb obind].
    change (u64 (u64 (0 - 1) + s32 (0 * 1))) with (2 ^ 64 - 1). by rewrite (mypow_top 10 pf). }
  rewrite E in Hnum |- *. cbn [app] in Hnum |- *. rewrite not_literal by lia. unfold ch_quote.
  rewrite (proj2 (Z.eqb_neq c 34)) by lia.
  assert (is_digit c = true) as -> by (unfold is_digit; apply andb_true_iff; split; apply Z.leb_le; lia).
  by rewrite orb_true_r, Hnum.
Qed.

(** The number 1.5 in an array. *)
Lemma fraction_never_ends_witness :
  parse_value all 1000 10 (PSt 0 [] None) (CJson 0 [] 0 None 0 None None) (Some [49; 46; 53; 93]) = Spin.
Proof.
  apply (fraction_never_ends 1000 9 (PSt 0 [] None) (CJson 0 [] 0 None 0 None None) [49] 53 [93]).
  - split; [by repeat constructor|]. right. by exists 49, [].
  - reflexivity.
  - by apply first_cons.
Defined.

(** ** Texts outside the grammar *)

Definition parse_text (t : list Z) : outcome (pstate * option cjson) :=
  cjson_parse all 100 100 (PSt 0 [] None) (Some (t ++ [0])).

(** Four texts on which the reader reads or writes outside its buffers or
    loses data: a number alone, and an array cut short (the copy of the text is not
    terminated); a string with a unicode escape shorter than four digits; and,
    after a string that ends in an escaped backslash, the spaces of the next
    string are dropped. *)
Theorem unsafe_texts :
  parse_text [49; 50] = Fault /\
  parse_text [91; 49] = Fault /\
  parse_text [91; 34; 92; 117; 34; 93] = Fault /\
  (exists st c, parse_text [91; 34; 120; 92; 92; 34; 44; 34; 97; 32; 98; 34; 93] = Done (st, Some c)
     /\ json_of c = JArr [JStr [120; 92]; JStr [97; 98]]).
Proof. repeat split; try reflexivity. eexists _, _. split; [vm_compute; reflexivity|]. vm_compute. reflexivity. Qed.

End CjsonUse.
