(* ===== verification/Vfm.v ===== *)
(** * The video frame manager

    src/drivers/media/common/vfm: paths ("maps") name the nodes a video frame
    passes, from a decoder to the display; providers and receivers register under
    the names of the nodes; [vf_get] and [vf_put] move frames between neighbours
    of an active path (vfm.c, vframe_provider.c, vframe_receiver.c).

    A provider or receiver is a number (its address) with its record in a store;
    the functions behind [ops] belong to the drivers that register: they are
    parameters on the whole state, so they may call back into the manager.
    Names are C strings: lists of characters other than NUL.  The
    calls run one at a time here; VfmRace.v has the interleavings of users
    with [vf_unreg_provider].  vftrace.c (a debug ring, off by default) is left out. *)

From S2P Require Import Prelude Mem.
From stdpp Require Import base list numbers gmap.
From Stdlib Require Import ZArith Lia Ascii.
From Stdlib Require String.
Import String.StringSyntax.

Local Open Scope Z_scope.
Local Open Scope cint_scope.

(** Names in examples. *)
Definition chars (s : String.string) : list ascii := String.list_ascii_of_string s.
#[global] Arguments chars s%_string_scope.

Module Vfm.

Definition VFM_NAME_LEN : nat := 32.
Definition VFM_MAP_SIZE : nat := 10.
Definition VFM_MAP_COUNT : nat := 40.
Definition MAX_PROVIDER_NUM : nat := 64.
Definition MAX_RECEIVER_NUM : nat := 64.
Definition PROVIDER_TABLE_NAME_SIZE : nat := 64.
Definition CLOSED_CNT : Z := -100000.

Definition VFRAME_EVENT_PROVIDER_UNREG : Z := 1.
Definition VFRAME_EVENT_PROVIDER_LIGHT_UNREG : Z := 2.
Definition VFRAME_EVENT_PROVIDER_VFRAME_READY : Z := 4.
Definition VFRAME_EVENT_PROVIDER_QUREY_STATE : Z := 5.
Definition VFRAME_EVENT_PROVIDER_REG : Z := 8.
Definition VFRAME_EVENT_RECEIVER_PUT : Z := 2.
Definition VFRAME_EVENT_RECEIVER_FORCE_UNREG : Z := 0x40.
Definition RECEIVER_ACTIVE : Z := 2.

Abbreviation cname := (list ascii).

(** ** Data *)

(** struct vfm_map_s: all ten slots for names, of which [vfm_map_size] are used. *)
Record vfm_map_s := Map {
  id : cname; name : list cname; vfm_map_size : nat; valid : bool; active : Z }.

Definition set_valid (v : bool) (m : vfm_map_s) : vfm_map_s := Map (id m) (name m) (vfm_map_size m) v (active m).
Definition set_active (a : Z) (m : vfm_map_s) : vfm_map_s := Map (id m) (name m) (vfm_map_size m) (valid m) a.

(** struct vframe_operations_s: which functions there are. *)
Record ops_s := Ops { has_peek : bool; has_get : bool; has_put : bool; has_event_cb : bool; has_states : bool }.

(** struct vframe_provider_s *)
Record provider := Prov { p_name : option cname; p_ops : option ops_s; use_cnt : Z }.
Definition set_use_cnt (v : Z) (p : provider) : provider := Prov (p_name p) (p_ops p) v.
Definition set_ops (o : option ops_s) (p : provider) : provider := Prov (p_name p) o (use_cnt p).

(** struct vframe_receiver_s: name, and whether ops->event_cb is there. *)
Record receiver := Recv { r_name : cname; r_event_cb : bool }.

(** struct provider_table_s *)
Record pslot := Slot { s_name : cname; s_prov : option nat; s_used : bool }.

Record vfm (D : Type) := Vf {
  vfm_map : list vfm_map_s;            (* vfm_map[0 .. vfm_map_num) *)
  provider_table : list pslot;
  receiver_table : list (option nat);
  providers : gmap nat provider;
  receivers : gmap nat receiver;
  provider_used : Z;
  last_receiver : cname; last_provider : cname;
  drv : D }.                           (* what the drivers keep *)
#[global] Arguments Vf {D}.
#[global] Arguments vfm_map {D}.
#[global] Arguments provider_table {D}.
#[global] Arguments receiver_table {D}.
#[global] Arguments providers {D}.
#[global] Arguments receivers {D}.
#[global] Arguments provider_used {D}.
#[global] Arguments last_receiver {D}.
#[global] Arguments last_provider {D}.
#[global] Arguments drv {D}.

Section Setters.
Context {D : Type}.
Implicit Types w : vfm D.
Definition set_maps m w := Vf m (provider_table w) (receiver_table w) (providers w) (receivers w) (provider_used w) (last_receiver w) (last_provider w) (drv w).
Definition set_ptable t w := Vf (vfm_map w) t (receiver_table w) (providers w) (receivers w) (provider_used w) (last_receiver w) (last_provider w) (drv w).
Definition set_rtable t w := Vf (vfm_map w) (provider_table w) t (providers w) (receivers w) (provider_used w) (last_receiver w) (last_provider w) (drv w).
Definition set_providers ps w := Vf (vfm_map w) (provider_table w) (receiver_table w) ps (receivers w) (provider_used w) (last_receiver w) (last_provider w) (drv w).
Definition set_receivers rs w := Vf (vfm_map w) (provider_table w) (receiver_table w) (providers w) rs (provider_used w) (last_receiver w) (last_provider w) (drv w).
Definition set_used u w := Vf (vfm_map w) (provider_table w) (receiver_table w) (providers w) (receivers w) u (last_receiver w) (last_provider w) (drv w).
Definition set_last r p w := Vf (vfm_map w) (provider_table w) (receiver_table w) (providers w) (receivers w) (provider_used w) r p (drv w).
Definition set_drv (d : D) w := Vf (vfm_map w) (provider_table w) (receiver_table w) (providers w) (receivers w) (provider_used w) (last_receiver w) (last_provider w) d.
End Setters.

(** ** Strings *)

(** [!strncmp(s, pre, strlen(pre))] *)
Definition starts (pre s : cname) : bool := bool_decide (take (length pre) s = pre).

(** [s[n] == '.'] *)
Definition dot_at (s : cname) (n : nat) : bool :=
  match s !! n with Some c => bool_decide (c = "."%char) | None => false end.

Definition is_sep (c : ascii) : bool := bool_decide (c = " "%char) || bool_decide (c = "010"%char).

(** strsep(&ptr, "\n ") *)
Fixpoint split_sep (s : cname) : cname * option cname :=
  match s with
  | [] => ([], None)
  | c :: r => if is_sep c then ([], Some r) else let '(t, r') := split_sep r in (c :: t, r')
  end.
Definition strsep (ptr : option cname) : option (cname * option cname) := split_sep <$> ptr.

(** A copy into a field of 32 bytes. *)
Definition clip (s : cname) : cname := take (VFM_NAME_LEN - 1) s.

(** ** Lookups *)

Section Lookups.
Context {D : Type}.
Implicit Types w : vfm D.

(** Does the slot answer to [provider_name]? *)
Definition slot_answers (provider_name : cname) (s : pslot) : option nat :=
  match s_prov s with
  | Some p =>
      if s_used s && starts provider_name (s_name s)
         && (Nat.eqb (length (s_name s)) (length provider_name) || dot_at (s_name s) (length provider_name))
      then Some p else None
  | None => None
  end.

Fixpoint first_some {A B} (f : A -> option B) (l : list A) : option B :=
  match l with [] => None | x :: r => match f x with Some b => Some b | None => first_some f r end end.

Definition vf_get_provider_by_name w (provider_name : option cname) : option nat :=
  match provider_name with
  | None => None
  | Some n => first_some (slot_answers n) (provider_table w)
  end.

(** The loop of [vf_get_provider_name_inmap] from node [j] on, [prev] being the node before. *)
Fixpoint provider_inmap (l : list cname) (active : Z) (j : Z) (prev : option cname) (receiver_name : cname) : option cname :=
  match l with
  | [] => None
  | n :: r =>
      if bool_decide (n = receiver_name)
      then if truthy ((active >> (j - 1)) .& 1) then prev else None
      else provider_inmap r active (j + 1) (Some n) receiver_name
  end.
Definition vf_get_provider_name_inmap (m : vfm_map_s) (receiver_name : cname) : option cname :=
  provider_inmap (take (vfm_map_size m) (name m)) (active m) 0 None receiver_name.

Definition vf_get_provider_name w (receiver_name : cname) : option cname :=
  first_some (fun m => if truthy (active m) then vf_get_provider_name_inmap m receiver_name else None) (vfm_map w).

Definition vf_get_provider w (receiver_name : cname) : option nat :=
  vf_get_provider_by_name w (vf_get_provider_name w receiver_name).

(** The loop of [vf_get_receiver_name_inmap]: an exact match wins, a match up to a dot is kept. *)
Fixpoint receiver_inmap (l : list cname) (found : option cname) (provider_name : cname) : option cname :=
  match l with
  | n :: ((next :: _) as r) =>
      if starts n provider_name then
        if Nat.eqb (length n) (length provider_name) then Some next
        else receiver_inmap r (if dot_at provider_name (length n) then Some next else found) provider_name
      else receiver_inmap r found provider_name
  | _ => found
  end.
Definition vf_get_receiver_name_inmap (m : vfm_map_s) (provider_name : cname) : option cname :=
  receiver_inmap (take (vfm_map_size m) (name m)) None provider_name.

Definition vf_get_receiver_name w (provider_name : cname) : option cname :=
  first_some (fun m => if valid m && truthy (active m) then vf_get_receiver_name_inmap m provider_name else None) (vfm_map w).

(** The receiver registered under a name. *)
Definition vf_get_receiver_by_name w (receiver_name : option cname) : option nat :=
  match receiver_name with
  | None => None
  | Some n => first_some (fun r => match r with
      | Some a => match receivers w !! a with
                  | Some rv => if bool_decide (r_name rv = n) then Some a else None
                  | None => None end
      | None => None end) (receiver_table w)
  end.

Definition vf_get_receiver w (provider_name : cname) : option nat :=
  vf_get_receiver_by_name w (vf_get_receiver_name w provider_name).

Definition vf_check_node w (n : cname) : bool :=
  existsb (fun m => existsb (fun x => bool_decide (x = n)) (take (vfm_map_size m) (name m))) (vfm_map w).

(** ** Active nodes *)

(** One node: [j] from 0. *)
Definition update_node (here : bool) (j : Z) (active : Z) : Z :=
  if here then if (0 <? j) && truthy (active .& 1) || (j =? 0) then active .| (1 << j) else active
  else active .& Z.lnot (1 << j).

Fixpoint update_nodes w (l : list cname) (j : Z) (active : Z) : Z :=
  match l with
  | [] => active
  | n :: r =>
      update_nodes w r (j + 1)
        (update_node (match vf_get_provider_by_name w (Some n) with Some _ => true | None => false end) j active)
  end.

Definition update_map w (m : vfm_map_s) : vfm_map_s :=
  if valid m then set_active (update_nodes w (take (vfm_map_size m - 1) (name m)) 0 (active m)) m else m.

Definition vf_update_active_map w : vfm D := set_maps (map (update_map w) (vfm_map w)) w.

End Lookups.

(** ** Maps *)

(** The tokens of a chain: at most eleven calls of strsep, at most ten names. *)
Fixpoint add_tokens (cnt : nat) (ptr : option cname) (names : list cname) : list cname :=
  match strsep ptr with
  | None => names
  | Some (token, ptr) =>
      if bool_decide (token = []) then match cnt with O => names | S c => add_tokens c ptr names end
      else if (VFM_MAP_SIZE <=? length names)%nat then names
      else match cnt with O => names ++ [clip token] | S c => add_tokens c ptr (names ++ [clip token]) end
  end.

(** The new map [p] of [vfm_map_add]. *)
Definition new_map (i name_chain : cname) : vfm_map_s :=
  let names := add_tokens 10 (Some name_chain) [] in
  Map (clip i) (names ++ replicate (VFM_MAP_SIZE - length names) []) (length names) true 0.

(** Are the first [vfm_map_size p] names of [pi] those of [p]? *)
Definition same_names (pi p : vfm_map_s) : bool :=
  bool_decide (take (vfm_map_size p) (name pi) = take (vfm_map_size p) (name p)).

Definition overwrite (pi p : vfm_map_s) : vfm_map_s :=
  Map (id pi) (take (vfm_map_size p) (name p) ++ drop (vfm_map_size p) (name pi)) (vfm_map_size p) true (active pi).

(** The loop over the maps: the changed maps when a map with the id takes the chain. *)
Fixpoint add_loop (l : list vfm_map_s) (p : vfm_map_s) : option (list vfm_map_s) :=
  match l with
  | [] => None
  | pi :: r =>
      if negb (bool_decide (id pi = id p)) then cons pi <$> add_loop r p
      else if valid pi then if same_names pi p then Some (pi :: r) else cons pi <$> add_loop r p
      else Some (overwrite pi p :: r)
  end.

Section Maps.
Context {D : Type}.
Implicit Types w : vfm D.

(** [mem1], [mem2]: do kmalloc and kstrdup succeed? *)
Definition vfm_map_add (mem1 mem2 : bool) (i name_chain : cname) w : Z * vfm D :=
  if negb mem1 then (- ENOMEM, w)
  else if negb mem2 then (- ENOMEM, w)
  else
    let p := new_map i name_chain in
    match add_loop (vfm_map w) p with
    | Some l => (0, set_maps l w)
    | None =>
        if (length (vfm_map w) <? VFM_MAP_COUNT)%nat then (0, set_maps (vfm_map w ++ [p]) w)
        else (-1, w)
    end.

Fixpoint map_index (l : list vfm_map_s) (i : cname) (k : nat) : option nat :=
  match l with
  | [] => None
  | m :: r => if valid m && bool_decide (id m = i) then Some k else map_index r i (S k)
  end.
Definition get_vfm_map_index w (i : cname) : option nat := map_index (vfm_map w) i 0.

Definition upd_map (k : nat) (f : vfm_map_s -> vfm_map_s) w : vfm D := set_maps (alter f k (vfm_map w)) w.

End Maps.

(** ** Calls into the drivers *)

Section Calls.
Context {D frame : Type}.

(** The functions the drivers register: [event_cb] of a provider and of a
    receiver, [peek], [get], [put]. *)
Variable prov_event : nat -> Z -> vfm D -> vfm D.
Variable recv_event : nat -> Z -> vfm D -> Z * vfm D.
Variable prov_peek : nat -> vfm D -> option frame * vfm D.
Variable prov_get : nat -> vfm D -> option frame * vfm D.
Variable prov_put : nat -> frame -> vfm D -> vfm D.
Variable prov_states : nat -> vfm D -> Z * vfm D.
Implicit Types w : vfm D.

Definition ops_of w (p : nat) (has : ops_s -> bool) : bool :=
  match providers w !! p with Some pr => match p_ops pr with Some o => has o | None => false end | None => false end.
Definition recv_cb w (r : nat) : bool :=
  match receivers w !! r with Some rv => r_event_cb rv | None => false end.

(** FORCE_UNREG to the provider of each node. *)
Fixpoint force_unreg (l : list cname) w : vfm D :=
  match l with
  | [] => w
  | n :: r =>
      force_unreg r
        (match vf_get_provider_by_name w (Some n) with
         | Some p => if ops_of w p has_event_cb then prov_event p VFRAME_EVENT_RECEIVER_FORCE_UNREG w else w
         | None => w
         end)
  end.

Definition vfm_map_remove_by_index (k : nat) w : Z * vfm D :=
  let w := upd_map k (set_active 0) w in
  match vfm_map w !! k with
  | None => (0, w)                     (* callers pass an index of a map *)
  | Some m =>
      let w := force_unreg (take (vfm_map_size m - 1) (name m)) w in
      match vfm_map w !! k with
      | None => (0, w)
      | Some m =>
          let left := existsb (fun n => match vf_get_provider_by_name w (Some n) with Some _ => true | None => false end)
                        (take (vfm_map_size m - 1) (name m)) in
          (if left then -1 else 0, upd_map k (set_valid false) w)
      end
  end.

(** All maps, by increasing index; the last result is returned. *)
Fixpoint remove_all (n : nat) (k : nat) (ret : Z) w : Z * vfm D :=
  match n with
  | O => (ret, w)
  | S n => let '(ret, w) := vfm_map_remove_by_index k w in remove_all n (S k) ret w
  end.

Definition vfm_map_remove (i : option cname) w : Z * vfm D :=
  match i with
  | None => (-1, w)
  | Some i =>
      if bool_decide (i = chars "all") then remove_all (length (vfm_map w)) 0 0 w
      else match get_vfm_map_index w i with
           | Some k => vfm_map_remove_by_index k w
           | None => (0, w)
           end
  end.

(** ** Use counts *)

Definition cnt_of w (p : nat) : Z := match providers w !! p with Some pr => use_cnt pr | None => 0 end.
Definition add_cnt (p : nat) (d : Z) w : vfm D :=
  set_providers (alter (fun pr => set_use_cnt (s32 (use_cnt pr + d)) pr) p (providers w)) w.

Definition use_provider (prov : option nat) w : bool * vfm D :=
  match prov with
  | None => (false, w)
  | Some p =>
      let w := add_cnt p 1 w in
      let ret := cnt_of w p in
      if ret <=? 0 then (false, add_cnt p (-1) w) else (true, w)
  end.
Definition unuse_provider (p : nat) w : vfm D := add_cnt p (-1) w.

Definition providers_lock w : vfm D := set_used (s32 (provider_used w + 1)) w.
Definition providers_unlock w : vfm D := set_used (s32 (provider_used w - 1)) w.

(** The loop that waits for the users changes nothing. *)
Definition vf_provider_close (p : nat) w : vfm D := add_cnt p CLOSED_CNT w.

Definition name_of w (p : nat) : cname :=
  match providers w !! p with Some pr => default [] (p_name pr) | None => [] end.

(** strncpy of 31 bytes into fields of 32, whose last byte stays 0. *)
Definition provider_update_caller (r p : option cname) w : vfm D :=
  set_last (match r with Some r => clip r | None => last_receiver w end)
           (match p with Some p => clip p | None => last_provider w end) w.

(** ** Events *)

Definition notify_found (prov : option nat) (event_type : Z) w : Z * vfm D :=
  let '(u, w) := use_provider prov w in
  match prov with
  | Some p =>
      if u then
        if ops_of w p has_event_cb then (0, unuse_provider p (prov_event p event_type w))
        else (-1, unuse_provider p w)
      else (-1, w)
  | None => (-1, w)
  end.
Definition vf_notify_provider (receiver_name : cname) (event_type : Z) w : Z * vfm D :=
  notify_found (vf_get_provider w receiver_name) event_type w.
Definition vf_notify_provider_by_name (provider_name : cname) (event_type : Z) w : Z * vfm D :=
  notify_found (vf_get_provider_by_name w (Some provider_name)) event_type w.

Definition notify_recv (r : option nat) (event_type : Z) w : Z * vfm D :=
  match r with
  | Some r => if recv_cb w r then recv_event r event_type w else (-1, w)
  | None => (-1, w)
  end.
Definition vf_notify_receiver (provider_name : cname) (event_type : Z) w : Z * vfm D :=
  notify_recv (vf_get_receiver w provider_name) event_type w.
Definition vf_notify_receiver_by_name (receiver_name : cname) (event_type : Z) w : Z * vfm D :=
  notify_recv (vf_get_receiver_by_name w (Some receiver_name)) event_type w.

(** ** Frames *)

Definition vf_peek (receiver_name : cname) w : option frame * vfm D :=
  let w := providers_lock w in
  let vfp := vf_get_provider w receiver_name in
  let '(u, w) := use_provider vfp w in
  let '(vf, w) :=
    match vfp with
    | Some p =>
        if u then
          let '(vf, w) := if ops_of w p has_peek then prov_peek p w else (None, w) in
          (vf, unuse_provider p w)
        else (None, w)
    | None => (None, w)
    end in
  (vf, providers_unlock w).

Definition vf_get (receiver_name : cname) w : option frame * vfm D :=
  let w := providers_lock w in
  let vfp := vf_get_provider w receiver_name in
  let '(u, w) := use_provider vfp w in
  let '(vf, w) :=
    match vfp with
    | Some p =>
        if u then
          let w := provider_update_caller (Some receiver_name) (Some (name_of w p)) w in
          let '(vf, w) := if ops_of w p has_get then prov_get p w else (None, w) in
          (vf, unuse_provider p w)
        else (None, provider_update_caller (Some receiver_name) None w)
    | None => (None, provider_update_caller (Some receiver_name) None w)
    end in
  (vf, providers_unlock w).

Definition vf_put (vf : frame) (receiver_name : cname) w : Z * vfm D :=
  let w := providers_lock w in
  let vfp := vf_get_provider w receiver_name in
  let '(u, w) := use_provider vfp w in
  let '(ret, w) :=
    match vfp with
    | Some p =>
        if u then
          let w := provider_update_caller (Some receiver_name) (Some (name_of w p)) w in
          let w := if ops_of w p has_put then prov_put p vf w else w in
          (0, unuse_provider p w)
        else (-1, provider_update_caller (Some receiver_name) None w)
    | None => (-1, provider_update_caller (Some receiver_name) None w)
    end in
  (ret, providers_unlock w).

Definition vf_get_states (vfp : option nat) w : Z * vfm D :=
  let w := providers_lock w in
  let '(u, w) := use_provider vfp w in
  let '(ret, w) :=
    match vfp with
    | Some p =>
        if u then
          let w := provider_update_caller None (Some (name_of w p)) w in
          let '(ret, w) := if ops_of w p has_states then prov_states p w else (-1, w) in
          (ret, unuse_provider p w)
        else (-1, w)
    | None => (-1, w)
    end in
  (ret, providers_unlock w).
Definition vf_get_states_by_name (receiver_name : cname) w : Z * vfm D :=
  vf_get_states (vf_get_provider w receiver_name) w.

(** ** Registration *)

Definition vf_provider_init (prov : option nat) (n : option cname) (o : option ops_s) w : vfm D :=
  match prov with
  | None => w
  | Some p => set_providers (<[p := Prov n o 0]> (providers w)) w
  end.

(** Is a provider of this name in the table? *)
Definition slot_has_name w (n : cname) (s : pslot) : bool :=
  match s_prov s with
  | Some p => match providers w !! p with
              | Some pr => bool_decide (p_name pr = Some n)
              | None => false end
  | None => false
  end.

(** The first free slot, taken for [p]; with a name that does not fit it is
    only marked as used. *)
Inductive placed := Full | TooLong (t : list pslot) | Placed (t : list pslot).
Fixpoint place (n : cname) (p : nat) (t : list pslot) : placed :=
  match t with
  | [] => Full
  | s :: r =>
      if negb (s_used s) then
        if (PROVIDER_TABLE_NAME_SIZE <? length n + 1)%nat then TooLong (Slot (s_name s) (s_prov s) true :: r)
        else Placed (Slot n (Some p) true :: r)
      else match place n p r with
           | Full => Full
           | TooLong r => TooLong (s :: r)
           | Placed r => Placed (s :: r)
           end
  end.

Definition vf_reg_provider (prov : option nat) w : Z * vfm D :=
  match prov with
  | None => (-1, w)
  | Some p =>
      match providers w !! p with
      | None => (-1, w)                (* no such object *)
      | Some pr =>
          match p_name pr with
          | None => (-1, w)
          | Some n =>
              let w := set_providers (alter (set_use_cnt 0) p (providers w)) w in
              if existsb (slot_has_name w n) (provider_table w) then (-1, w)
              else
                match place n p (provider_table w) with
                | TooLong t => (-1, set_ptable t w)
                | Full => (0, w)
                | Placed t =>
                    let w := vf_update_active_map (set_ptable t w) in
                    match vf_get_receiver w n with
                    | Some r => if recv_cb w r then (0, snd (recv_event r VFRAME_EVENT_PROVIDER_REG w)) else (0, w)
                    | None => (0, w)
                    end
                end
          end
      end
  end.

(** The first slot with a provider of the name is emptied. *)
Fixpoint remove_slot w (n : cname) (t : list pslot) : option (list pslot) :=
  match t with
  | [] => None
  | s :: r =>
      if slot_has_name w n s then Some (Slot (s_name s) None false :: r)
      else cons s <$> remove_slot w n r
  end.

(** The end of [vf_unreg_provider]: without other threads, a count of users that
    is not zero stays so for the whole wait. *)
Definition wait_unused (p : nat) w : vfm D :=
  if provider_used w =? 0 then w else set_providers (alter (set_ops None) p (providers w)) w.

(** The name of [prov] is read whenever the table has a provider. *)
Definition vf_unreg_provider (p : nat) w : outcome (vfm D) :=
  match providers w !! p with
  | None => Fault
  | Some pr =>
      match p_name pr with
      | None => if existsb (fun s => match s_prov s with Some _ => true | None => false end) (provider_table w)
                then Fault else Done (wait_unused p w)
      | Some n =>
          match remove_slot w n (provider_table w) with
          | None => Done (wait_unused p w)
          | Some t =>
              let r := vf_get_receiver w n in
              let w := vf_provider_close p (set_ptable t w) in
              let w := match r with
                       | Some r => if recv_cb w r then snd (recv_event r VFRAME_EVENT_PROVIDER_UNREG w) else w
                       | None => w
                       end in
              Done (wait_unused p (vf_update_active_map w))
          end
      end
  end.

(** Both light forms need a registered provider of the name. *)
Definition vf_light_reg_provider (n : cname) w : vfm D :=
  if existsb (slot_has_name w n) (provider_table w) then
    match vf_get_receiver w n with
    | Some r => if recv_cb w r then snd (recv_event r VFRAME_EVENT_PROVIDER_REG w) else w
    | None => w
    end
  else w.
Definition vf_light_unreg_provider (n : cname) w : vfm D :=
  if existsb (slot_has_name w n) (provider_table w) then
    match vf_get_receiver w n with
    | Some r => if recv_cb w r then snd (recv_event r VFRAME_EVENT_PROVIDER_LIGHT_UNREG w) else w
    | None => w
    end
  else w.

(** Removed from the table, but not closed. *)
Definition vf_ext_light_unreg_provider (n : cname) w : vfm D :=
  match remove_slot w n (provider_table w) with
  | None => w
  | Some t =>
      let w := set_ptable t w in
      let w := match vf_get_receiver w n with
               | Some r => if recv_cb w r then snd (recv_event r VFRAME_EVENT_PROVIDER_LIGHT_UNREG w) else w
               | None => w
               end in
      vf_update_active_map w
  end.

(** ** Receivers *)

Definition vf_receiver_init (recv : option nat) (n : cname) (cb : bool) w : vfm D :=
  match recv with
  | None => w
  | Some a => set_receivers (<[a := Recv n cb]> (receivers w)) w
  end.

Definition vf_reg_receiver (recv : option nat) w : Z * vfm D :=
  match recv with
  | None => (-1, w)
  | Some a =>
      match receivers w !! a with
      | None => (-1, w)                (* no such object *)
      | Some rv =>
          match vf_get_receiver_by_name w (Some (r_name rv)) with
          | Some _ => (-1, w)
          | None => (0, set_rtable ((fix go t := match t with
                      | [] => [] | None :: r => Some a :: r | x :: r => x :: go r end) (receiver_table w)) w)
          end
      end
  end.

Definition vf_unreg_receiver (recv : option nat) w : vfm D :=
  match recv with
  | None => w
  | Some a =>
      match receivers w !! a with
      | None => w
      | Some rv =>
          set_rtable ((fix go t := match t with
            | [] => []
            | x :: r =>
                if match x with
                   | Some b => match receivers w !! b with Some rb => bool_decide (r_name rb = r_name rv) | None => false end
                   | None => false end
                then None :: r else x :: go r end) (receiver_table w)) w
      end
  end.

(** The dummy receiver gives every frame back. *)
Fixpoint dummy_drain (fuel : nat) (n : cname) w : outcome (vfm D) :=
  match fuel with
  | O => Spin
  | S f =>
      let '(vf, w) := vf_get n w in
      match vf with
      | None => Done w
      | Some vf =>
          let '(_, w) := vf_put vf n w in
          let '(_, w) := vf_notify_provider n VFRAME_EVENT_RECEIVER_PUT w in
          dummy_drain f n w
      end
  end.
Definition dummy_receiver_event_fun (fuel : nat) (type : Z) (n : cname) w : outcome (Z * vfm D) :=
  if type =? VFRAME_EVENT_PROVIDER_UNREG then Done (0, w)
  else if type =? VFRAME_EVENT_PROVIDER_VFRAME_READY then let* w := dummy_drain fuel n w in Done (0, w)
  else if type =? VFRAME_EVENT_PROVIDER_QUREY_STATE then Done (RECEIVER_ACTIVE, w)
  else Done (0, w).

(** ** The control file *)

(** A receiver at the new address [a], its name cut to 15 bytes. *)
Definition add_dummy_receiver (a : option nat) (n : cname) w : vfm D :=
  match a with
  | None => w
  | Some a => snd (vf_reg_receiver (Some a) (vf_receiver_init (Some a) (take 15 n) true w))
  end.

(** The tokens of the command: the command, then its argument; [ps] is what
    is left of the line after the argument. *)
Fixpoint next_token (fuel : nat) (ps : option cname) : option (cname * option cname) :=
  match fuel with
  | O => None
  | S f => match strsep ps with
           | None => None
           | Some (t, ps) => if bool_decide (t = []) then next_token f ps else Some (t, ps)
           end
  end.

Definition map_store (mem1 mem2 : bool) (a : option nat) (buf : cname) (count : Z) w : Z * vfm D :=
  match next_token (S (length buf)) (Some buf) with
  | None => (count, w)
  | Some (cmd, ps) =>
      if negb (existsb (fun s => bool_decide (cmd = s)) [chars "add"; chars "rm"; chars "dump"; chars "dummy"]) then (count, w)
      else
        match next_token (S (length buf)) ps with
        | None => (count, w)
        | Some (i, ps) =>
            if bool_decide (cmd = chars "add") then
              match ps with
              | Some ps => (count, snd (vfm_map_add mem1 mem2 i ps w))
              | None => (count, w)     (* kstrdup(NULL) fails *)
              end
            else if bool_decide (cmd = chars "rm") then
              let '(r, w) := vfm_map_remove (Some i) w in (if r <? 0 then 0 else count, w)
            else if bool_decide (cmd = chars "dummy") then (count, add_dummy_receiver a i w)
            else (count, w)
        end
  end.

End Calls.

End Vfm.
