(* ===== verification/VfmSpec.v ===== *)
(** * Paths of the video frame manager

    Which nodes of a path are active, how a path is read from its text, and
    that on an active path the lookups of providers and receivers are the
    neighbours in both directions. *)

From S2P Require Import Prelude Mem Vfm.
From stdpp Require Import base list numbers gmap.
From Stdlib Require Import ZArith Lia Ascii.
From Stdlib Require String.
Import String.StringSyntax.

Local Open Scope Z_scope.
Local Open Scope cint_scope.

Module VfmSpec.
Import Vfm.

(** ** First matches *)

Lemma first_some_Some {A B} (f : A -> option B) l b :
  first_some f l = Some b -> exists x, x ∈ l /\ f x = Some b.
Proof.
  induction l as [|x l IH]; cbn; [done|]. destruct (f x) as [c|] eqn:E.
  - intros [= <-]. exists x. split; [left|done].
  - intros (y & Hy & Hf)%IH. exists y. split; [by right|done].
Qed.

Lemma first_some_None {A B} (f : A -> option B) l : first_some f l = None <-> forall x, x ∈ l -> f x = None.
Proof.
  induction l as [|x l IH]; cbn; [split; [by intros _ y Hy%elem_of_nil|done]|]. destruct (f x) as [c|] eqn:E.
  - split; [done|]. intros H. specialize (H x). rewrite E in H. apply H. left.
  - rewrite IH. split; intros H y Hy; [|apply H; by right]. apply elem_of_cons in Hy as [->|Hy]; auto.
Qed.

Lemma first_some_app {A B} (f : A -> option B) l1 l2 :
  (forall x, x ∈ l1 -> f x = None) -> first_some f (l1 ++ l2) = first_some f l2.
Proof.
  induction l1 as [|x l IH]; cbn; [done|]. intros H. rewrite (H x) by left. apply IH. intros y Hy. apply H. by right.
Qed.

(** ** Active nodes *)

Section Active.
Context {D : Type}.
Implicit Types w : vfm D.

(** Is there a provider for the node? *)
Definition here w (n : cname) : bool :=
  match vf_get_provider_by_name w (Some n) with Some _ => true | None => false end.

Lemma update_node_bit h j a i : 0 <= i -> 0 <= j ->
  Z.testbit (update_node h j a) i =
  if i =? j then h && ((j =? 0) || Z.testbit a 0 || Z.testbit a j) else Z.testbit a i.
Proof.
  intros Hi Hj. unfold update_node. assert (Hs : forall k, 0 <= k -> Z.testbit (1 << j) k = (k =? j)).
  { intros k Hk. rewrite Z.shiftl_mul_pow2, Z.mul_1_l by done. rewrite Z.pow2_bits_eqb by done. apply Z.eqb_sym. }
  assert (H1 : truthy (a .& 1) = Z.testbit a 0).
  { change 1 with (Z.ones 1). rewrite Z.land_ones, Z.bit0_odd by done. change (2 ^ 1) with 2. rewrite Zmod_odd.
    by destruct (Z.odd a). }
  rewrite H1. destruct h; cbn [andb].
  - destruct (Z.eqb_spec j 0) as [->|Hj0].
    + rewrite orb_true_r. rewrite Z.lor_spec, Hs by done. cbn [orb].
      destruct (i =? 0); by rewrite ?orb_true_r, ?orb_false_r.
    + rewrite (proj2 (Z.ltb_lt 0 j)) by lia. cbn [andb orb]. rewrite orb_false_r. destruct (Z.testbit a 0); cbn [orb].
      * rewrite Z.lor_spec, Hs by done. destruct (i =? j); by rewrite ?orb_true_r, ?orb_false_r.
      * destruct (Z.eqb_spec i j) as [->|]; done.
  - rewrite Z.land_spec, Z.lnot_spec, Hs by done. destruct (i =? j); cbn; by rewrite ?andb_false_r, ?andb_true_r.
Qed.

Lemma update_nodes_bit w l : forall j a i, 0 <= i -> 0 < j ->
  Z.testbit (update_nodes w l j a) i =
  match (if i <? j then None else l !! Z.to_nat (i - j)) with
  | Some n => here w n && (Z.testbit a 0 || Z.testbit a i)
  | None => Z.testbit a i
  end.
Proof.
  induction l as [|n l IH]; intros j a i Hi Hj; cbn [update_nodes].
  - rewrite lookup_nil. by destruct (i <? j).
  - fold (here w n). rewrite IH by lia. rewrite !update_node_bit by lia.
    rewrite (proj2 (Z.eqb_neq 0 j)), (proj2 (Z.eqb_neq j 0)) by lia. cbn [orb].
    destruct (Z.ltb_spec i j); [by rewrite (proj2 (Z.ltb_lt i (j + 1))), (proj2 (Z.eqb_neq i j)) by lia|].
    destruct (Z.eqb_spec i j) as [->|Hne].
    + rewrite (proj2 (Z.ltb_lt j (j + 1))), Z.sub_diag by lia. cbn. done.
    + rewrite (proj2 (Z.ltb_ge i (j + 1))) by lia.
      replace (Z.to_nat (i - j)) with (S (Z.to_nat (i - (j + 1)))) by lia. done.
Qed.

Lemma update_map_bit w (m : vfm_map_s) (i : Z) :
  valid m = true -> 0 <= i ->
  Z.testbit (active (update_map w m)) i =
  match take (vfm_map_size m - 1) (name m) !! Z.to_nat i with
  | Some n => here w n && (match name m with n0 :: _ => here w n0 | [] => false end || Z.testbit (active m) i)
  | None => Z.testbit (active m) i
  end.
Proof.
  intros Hv Hi. unfold update_map. rewrite Hv. cbn [active set_active].
  destruct (name m) as [|n0 l]; [by rewrite take_nil|].
  destruct (vfm_map_size m - 1)%nat as [|k]; [done|]. cbn [take update_nodes]. fold (here w n0).
  rewrite update_nodes_bit, !update_node_bit by lia. cbn [Z.eqb orb]. rewrite andb_true_r.
  destruct (Z.eqb_spec i 0) as [->|Hne].
  - change (Z.to_nat 0) with 0%nat. cbn [lookup list_lookup]. by destruct (here w n0).
  - rewrite (proj2 (Z.ltb_ge i (0 + 1))) by lia. replace (Z.to_nat i) with (S (Z.to_nat (i - (0 + 1)))) by lia. done.
Qed.

(** Updating the active nodes of a path sets the bit of a node exactly when
    a provider for it is registered and either the first node of the path has one too or the bit was
    set already; so no node without provider is active, and with a first
    provider the active nodes are those with one.  Other bits keep. *)
Theorem update_active_bits w (m : vfm_map_s) (i : Z) :
  valid m = true -> 0 <= i ->
  Z.testbit (active (update_map w m)) i =
  match take (vfm_map_size m - 1) (name m) !! Z.to_nat i with
  | Some n => here w n && (match name m with n0 :: _ => here w n0 | [] => false end || Z.testbit (active m) i)
  | None => Z.testbit (active m) i
  end.
Proof. apply update_map_bit. Qed.

(** ** Neighbours on a path *)

Definition nodes (m : vfm_map_s) : list cname := take (vfm_map_size m) (name m).

(** Node [x] stands for the provider name [pn]: equal, or up to a dot. *)
Definition node_of (x pn : cname) : bool :=
  starts x pn && (Nat.eqb (length x) (length pn) || dot_at pn (length x)).

Lemma shift_bit a j : 0 <= j -> truthy ((a >> j) .& 1) = Z.testbit a j.
Proof.
  intros Hj. change 1 with (Z.ones 1). rewrite Z.land_ones by done. change (2 ^ 1) with 2.
  rewrite Zmod_odd, <- Z.bit0_odd, Z.shiftr_spec, Z.add_0_l by done. by destruct (Z.testbit a j).
Qed.

Lemma provider_inmap_at l a rn : forall j0 prev k, NoDup l -> l !! k = Some rn -> 0 <= j0 ->
  provider_inmap l a j0 prev rn =
  if truthy ((a >> (j0 + Z.of_nat k - 1)) .& 1) then (if k is S k' then l !! k' else prev) else None.
Proof.
  induction l as [|x l IH]; intros j0 prev k Hnd Hk Hj; [done|]. cbn [provider_inmap].
  apply NoDup_cons in Hnd as [Hx Hnd]. destruct k as [|k].
  - cbn in Hk. injection Hk as ->. rewrite bool_decide_true by done. by rewrite Z.add_0_r.
  - cbn in Hk. rewrite bool_decide_false.
    + rewrite (IH (j0 + 1) (Some x) k) by (done || lia).
      replace (j0 + 1 + Z.of_nat k - 1) with (j0 + Z.of_nat (S k) - 1) by lia. by destruct k.
    + intros ->. apply Hx. by eapply list_elem_of_lookup_2.
Qed.

Lemma provider_inmap_none l a rn : forall j0 prev, rn ∉ l -> provider_inmap l a j0 prev rn = None.
Proof.
  induction l as [|x l IH]; intros j0 prev Hn; [done|]. cbn. apply not_elem_of_cons in Hn as [Hx Hn].
  rewrite bool_decide_false by congruence. by apply IH.
Qed.

Lemma receiver_step n next r found pn :
  receiver_inmap (n :: next :: r) found pn =
  if starts n pn then
    if Nat.eqb (length n) (length pn) then Some next
    else receiver_inmap (next :: r) (if dot_at pn (length n) then Some next else found) pn
  else receiver_inmap (next :: r) found pn.
Proof. done. Qed.

(** With one matching node, the receiver is the node after it. *)
Lemma receiver_inmap_at l pn n rn : forall j found,
  l !! j = Some n -> l !! S j = Some rn -> node_of n pn = true ->
  (forall x k, l !! k = Some x -> node_of x pn = true -> k = j) ->
  receiver_inmap l found pn = Some rn.
Proof.
  assert (Hrest : forall l found, (forall x, x ∈ l -> node_of x pn = false) -> receiver_inmap l found pn = found).
  { induction l0 as [|x l0 IH]; intros found Hl; [done|]. destruct l0 as [|y l0]; [done|].
    pose proof (Hl x ltac:(left)) as Hx. unfold node_of in Hx. rewrite receiver_step.
    specialize (IH found ltac:(intros z Hz; apply Hl; by right)). destruct (starts x pn); [|exact IH].
    cbn in Hx. apply orb_false_iff in Hx as [-> ->]. exact IH. }
  induction l as [|x l IH]; intros j found Hj HSj Hn Huniq; [done|]. destruct j as [|j].
  - cbn in Hj, HSj. injection Hj as ->. destruct l as [|y l]; [done|]. cbn in HSj. injection HSj as ->.
    rewrite receiver_step. unfold node_of in Hn. apply andb_true_iff in Hn as [-> Hn].
    destruct (Nat.eqb (length n) (length pn)); [done|]. cbn in Hn. rewrite Hn. apply Hrest.
    intros z [k Hk]%list_elem_of_lookup_1. destruct (node_of z pn) eqn:E; [|done].
    by specialize (Huniq z (S k) Hk E).
  - destruct l as [|y l]; [done|]. pose proof (IH j) as IH'. rewrite receiver_step.
    assert (Hx : node_of x pn = false) by (destruct (node_of x pn) eqn:E; [by specialize (Huniq x 0%nat eq_refl E)|done]).
    assert (Hu : forall z k, (y :: l) !! k = Some z -> node_of z pn = true -> k = j).
    { intros z k Hk Hz. specialize (Huniq z (S k) Hk Hz). lia. }
    unfold node_of in Hx. destruct (starts x pn); [|by apply IH'].
    cbn in Hx. apply orb_false_iff in Hx as [-> ->]. by apply IH'.
Qed.

Lemma receiver_inmap_none l pn : (forall x, x ∈ l -> node_of x pn = false) -> receiver_inmap l None pn = None.
Proof.
  induction l as [|x l IH]; intros Hl; [done|]. destruct l as [|y l]; [done|].
  pose proof (Hl x ltac:(left)) as Hx. unfold node_of in Hx. rewrite receiver_step.
  specialize (IH ltac:(intros z Hz; apply Hl; by right)). destruct (starts x pn); [|exact IH].
  cbn in Hx. apply orb_false_iff in Hx as [-> ->]. exact IH.
Qed.

Lemma update_map_same w m : nodes (update_map w m) = nodes m /\ valid (update_map w m) = valid m.
Proof. unfold update_map. destruct (valid m) eqn:E; by rewrite ?E. Qed.

Lemma by_name_maps w l n : vf_get_provider_by_name (set_maps l w) n = vf_get_provider_by_name w n.
Proof. done. Qed.

(** The bit of a node of a path whose first node has a provider. *)
Lemma update_active_here w m j n rn :
  valid m = true -> nodes m !! j = Some n -> nodes m !! S j = Some rn ->
  match name m with n0 :: _ => here w n0 | [] => false end = true -> here w n = true ->
  Z.testbit (active (update_map w m)) (Z.of_nat j) = true.
Proof.
  intros Hv Hj HSj H0 Hn. unfold nodes in *. apply lookup_take_Some in Hj as [Hj Hlt]. apply lookup_take_Some in HSj as [_ Hlt'].
  pose proof (update_map_bit w m (Z.of_nat j) Hv ltac:(lia)) as H. rewrite H, Nat2Z.id.
  rewrite lookup_take_lt by lia. rewrite Hj, H0, Hn. done.
Qed.

Lemma bit_truthy a i : 0 <= i -> Z.testbit a i = true -> truthy a = true.
Proof. intros Hi H. unfold truthy. destruct (Z.eqb_spec a 0) as [->|]; [by rewrite Z.bits_0 in H|done]. Qed.

(** On a path whose first node has a provider, for any node [n] with a
    provider and the node [rn] after it: once the active nodes are updated, the
    provider found for [rn] is the one of [n], and the receiver found for the
    name [pn] of that provider is [rn]; as long as no path before this one
    has the nodes in question. *)
Theorem path_neighbours w (ms1 ms2 : list vfm_map_s) (m : vfm_map_s) (j : nat) (n rn pn : cname) (p : nat) :
  vfm_map w = ms1 ++ m :: ms2 -> valid m = true -> NoDup (nodes m) ->
  nodes m !! j = Some n -> nodes m !! S j = Some rn ->
  match name m with n0 :: _ => here w n0 | [] => false end = true ->
  vf_get_provider_by_name w (Some n) = Some p -> node_of n pn = true ->
  (forall x k, nodes m !! k = Some x -> node_of x pn = true -> k = j) ->
  (forall m' x, m' ∈ ms1 -> x ∈ nodes m' -> x <> rn /\ node_of x pn = false) ->
  vf_get_provider (vf_update_active_map w) rn = Some p /\
  vf_get_receiver_name (vf_update_active_map w) pn = Some rn.
Proof.
  intros Hm Hv Hnd Hj HSj H0 Hp Hpn Huniq Hms1.
  assert (Hn : here w n = true) by (unfold here; by rewrite Hp).
  pose proof (update_active_here w m j n rn Hv Hj HSj H0 Hn) as Hbit.
  assert (Ha : truthy (active (update_map w m)) = true) by (eapply bit_truthy; [|done]; lia).
  destruct (update_map_same w m) as [Hnodes Hval]. unfold nodes in Hnodes.
  split.
  - unfold vf_get_provider, vf_get_provider_name, vf_update_active_map. rewrite by_name_maps. cbn [vfm_map set_maps].
    rewrite Hm, map_app. rewrite first_some_app.
    2:{ intros x Hx. apply list_elem_of_fmap in Hx as (m' & -> & Hm'). destruct (truthy (active (update_map w m'))); [|done].
        unfold vf_get_provider_name_inmap. rewrite (proj1 (update_map_same w m') : take _ _ = _).
        apply provider_inmap_none. intros Hin. by destruct (Hms1 m' rn Hm' Hin). }
    cbn [map first_some]. rewrite Ha. unfold vf_get_provider_name_inmap. rewrite Hnodes.
    rewrite (provider_inmap_at _ _ _ 0 None (S j)) by (done || lia).
    replace (0 + Z.of_nat (S j) - 1) with (Z.of_nat j) by lia. rewrite shift_bit, Hbit by lia.
    fold (nodes m). by rewrite Hj.
  - unfold vf_get_receiver_name, vf_update_active_map. cbn [vfm_map set_maps]. rewrite Hm, map_app, first_some_app.
    2:{ intros x Hx. apply list_elem_of_fmap in Hx as (m' & -> & Hm'). destruct (valid (update_map w m') && truthy (active (update_map w m'))); [|done].
        unfold vf_get_receiver_name_inmap. rewrite (proj1 (update_map_same w m') : take _ _ = _).
        apply receiver_inmap_none. intros x Hin. by destruct (Hms1 m' x Hm' Hin). }
    cbn [map first_some]. rewrite Hval, Hv, Ha. cbn [andb]. unfold vf_get_receiver_name_inmap. rewrite Hnodes.
    fold (nodes m). by rewrite (receiver_inmap_at _ pn n rn j) by done.
Qed.

End Active.

(** ** The text of a path *)

(** Names with one space between them. *)
Fixpoint join (l : list cname) : cname :=
  match l with
  | [] => []
  | [x] => x
  | x :: r => x ++ " "%char :: join r
  end.

(** A name that fits: not empty, no separator, at most 31 bytes. *)
Definition word (x : cname) : Prop := x <> [] /\ Forall (fun c => is_sep c = false) x /\ (length x <= 31)%nat.

Lemma split_sep_word x r : Forall (fun c => is_sep c = false) x ->
  split_sep x = (x, None) /\ split_sep (x ++ " "%char :: r) = (x, Some r).
Proof.
  induction 1 as [|c x Hc Hx [IH1 IH2]]; [done|]. cbn. by rewrite Hc, IH1, IH2.
Qed.

Lemma clip_word x : word x -> clip x = x.
Proof. intros (_ & _ & H). unfold clip. by apply take_ge. Qed.

Lemma add_tokens_end cnt acc : add_tokens cnt None acc = acc.
Proof. by destruct cnt. Qed.

Lemma add_tokens_join l : Forall word l -> forall cnt acc, (length acc + length l <= 10)%nat -> (length l <= S cnt)%nat ->
  add_tokens cnt (Some (join l)) acc = acc ++ l.
Proof.
  induction 1 as [|x l Hx Hl IH]; intros cnt acc Hacc Hcnt.
  - destruct cnt; cbn; by rewrite ?add_tokens_end, app_nil_r.
  - pose proof Hx as (Hne & Hsep & _). cbn [length] in *.
    assert (Hcap : (VFM_MAP_SIZE <=? length acc)%nat = false) by (apply Nat.leb_gt; unfold VFM_MAP_SIZE; lia).
    destruct l as [|y l].
    + cbn [join]. destruct cnt; cbn [add_tokens strsep fmap option_fmap option_map];
        rewrite (proj1 (split_sep_word x [] Hsep)), bool_decide_false, Hcap, clip_word by done;
        rewrite ?add_tokens_end; done.
    + change (join (x :: y :: l)) with (x ++ " "%char :: join (y :: l)). destruct cnt as [|cnt]; [cbn in Hcnt; lia|].
      cbn [add_tokens strsep fmap option_fmap option_map].
      rewrite (proj2 (split_sep_word x (join (y :: l)) Hsep)), bool_decide_false, Hcap, clip_word by done.
      rewrite IH by (rewrite ?length_app; cbn [length] in *; lia). by rewrite <- app_assoc.
Qed.

(** The text of a path is read back as its nodes: up to ten names of at most
    31 bytes, written with a space between them, become the nodes of the new path in
    order. *)
Theorem new_map_join (i : cname) (l : list cname) :
  Forall word l -> (length l <= 10)%nat -> nodes (new_map i (join l)) = l.
Proof.
  intros Hw Hl. unfold nodes, new_map. rewrite (add_tokens_join l Hw 10 []) by (cbn; lia).
  cbn [app vfm_map_size name]. apply take_app_length.
Qed.

Lemma new_map_join_witness :
  nodes (new_map (chars "default") (join [chars "decoder"; chars "ppmgr"; chars "amvideo"]))
  = [chars "decoder"; chars "ppmgr"; chars "amvideo"].
Proof.
  apply new_map_join.
  - repeat constructor; done || (cbn; lia).
  - cbn. lia.
Defined.

(** ** Adding paths *)

Definition map_ok (m : vfm_map_s) : Prop :=
  length (name m) = VFM_MAP_SIZE /\ (vfm_map_size m <= VFM_MAP_SIZE)%nat /\
  Forall (fun x => (length x <= 31)%nat) (name m) /\ Forall (fun x => x <> []) (nodes m) /\ (length (id m) <= 31)%nat.

Lemma clip_length x : (length (clip x) <= 31)%nat.
Proof. unfold clip. rewrite length_take. unfold VFM_NAME_LEN. lia. Qed.

Lemma add_tokens_ok cnt : forall ptr acc, (length acc <= 10)%nat ->
  Forall (fun x => (length x <= 31)%nat /\ x <> []) acc ->
  (length (add_tokens cnt ptr acc) <= 10)%nat /\ Forall (fun x => (length x <= 31)%nat /\ x <> []) (add_tokens cnt ptr acc).
Proof.
  assert (Hsnoc : forall acc token, (length acc < 10)%nat -> token <> [] ->
    Forall (fun x => (length x <= 31)%nat /\ x <> []) acc ->
    (length (acc ++ [clip token]) <= 10)%nat /\ Forall (fun x => (length x <= 31)%nat /\ x <> []) (acc ++ [clip token])).
  { intros acc token Hl Hne Ha. rewrite length_app. cbn. split; [lia|]. apply Forall_app. split; [done|].
    constructor; [|done]. split; [apply clip_length|]. by destruct token. }
  induction cnt as [|cnt IH]; intros ptr acc Hl Ha; cbn [add_tokens]; destruct (strsep ptr) as [[token ptr']|]; try done;
    destruct (decide (token = [])) as [->|Hne];
    rewrite ?bool_decide_true, ?(bool_decide_false (token = [])) by done; auto;
    destruct (Nat.leb_spec VFM_MAP_SIZE (length acc)) as [|Hlt]; try done; unfold VFM_MAP_SIZE in Hlt;
    destruct (Hsnoc acc token Hlt Hne Ha); auto.
Qed.

Lemma new_map_ok i chain : map_ok (new_map i chain).
Proof.
  unfold map_ok, new_map, nodes. cbn [id name vfm_map_size].
  destruct (add_tokens_ok 10 (Some chain) [] ltac:(cbn; lia) ltac:(constructor)) as [Hl Ha].
  rewrite length_app, length_replicate, take_app_length. repeat split.
  - unfold VFM_MAP_SIZE. lia.
  - done.
  - apply Forall_app. split; [by eapply Forall_impl; [exact Ha|]; intros ? [? _]|].
    apply Forall_replicate. cbn. lia.
  - by eapply Forall_impl; [exact Ha|]; intros ? [_ ?].
  - apply clip_length.
Qed.

Lemma overwrite_ok pi p : map_ok pi -> map_ok p -> map_ok (overwrite pi p) /\ nodes (overwrite pi p) = nodes p.
Proof.
  intros (H1 & H2 & H3 & H4 & H5) (K1 & K2 & K3 & K4 & _).
  assert (Hn : nodes (overwrite pi p) = nodes p).
  { unfold nodes, overwrite. cbn [name vfm_map_size]. rewrite take_app_le by (rewrite length_take; lia).
    by rewrite take_take, Nat.min_id. }
  split; [|done]. unfold map_ok. rewrite Hn. unfold overwrite. cbn [id name vfm_map_size].
  rewrite length_app, length_take, length_drop. repeat split; try done; [lia|].
  apply Forall_app. split; [by apply Forall_take|by apply Forall_drop].
Qed.

Definition maps_ok {D} (w : vfm D) : Prop := Forall map_ok (vfm_map w) /\ (length (vfm_map w) <= VFM_MAP_COUNT)%nat.

Lemma add_loop_ok p l l' : map_ok p -> Forall map_ok l -> add_loop l p = Some l' -> Forall map_ok l' /\ length l' = length l.
Proof.
  intros Hp. revert l'. induction l as [|pi l IH]; intros l' Hl; [done|]. apply Forall_cons_iff in Hl as [Hpi Hl]. cbn [add_loop].
  assert (Hrec : forall l', cons pi <$> add_loop l p = Some l' -> Forall map_ok l' /\ length l' = length (pi :: l)).
  { intros l0 (l1 & H1 & ->)%fmap_Some. destruct (IH l1 Hl H1). split; [by constructor|cbn; lia]. }
  destruct (negb _); [apply Hrec|]. destruct (valid pi).
  - destruct (same_names pi p); [|apply Hrec]. intros [= <-]. split; [by constructor|done].
  - intros [= <-]. split; [constructor; [by apply overwrite_ok|done]|done].
Qed.

(** What [add_loop] left is found again. *)
Lemma add_loop_again p l l' : map_ok p -> Forall map_ok l -> add_loop l p = Some l' -> add_loop l' p = Some l'.
Proof.
  intros Hp. revert l'. induction l as [|pi l IH]; intros l' Hl; [done|]. apply Forall_cons_iff in Hl as [Hpi Hl]. cbn [add_loop].
  assert (Hrec : forall l', (negb (bool_decide (id pi = id p)) = true \/ valid pi = true /\ same_names pi p = false) ->
    cons pi <$> add_loop l p = Some l' -> add_loop l' p = Some l').
  { intros l0 Hc (l1 & H1 & ->)%fmap_Some. cbn [add_loop]. rewrite (IH l1 Hl H1).
    destruct Hc as [-> | [-> ->]]; [done|]. by destruct (negb _). }
  destruct (negb (bool_decide (id pi = id p))) eqn:E; [by auto|]. destruct (valid pi) eqn:Ev.
  - destruct (same_names pi p) eqn:Es; [|by auto]. intros [= <-]. cbn [add_loop]. by rewrite E, Ev, Es.
  - intros [= <-]. cbn [add_loop]. change (id (overwrite pi p)) with (id pi). rewrite E.
    change (valid (overwrite pi p)) with true. cbn iota. unfold same_names. destruct (overwrite_ok pi p Hpi Hp) as [_ Hn]. unfold nodes in Hn.
    change (vfm_map_size (overwrite pi p)) with (vfm_map_size p) in Hn. by rewrite bool_decide_true.
Qed.

Lemma add_loop_append p l : valid p = true -> add_loop l p = None -> add_loop (l ++ [p]) p = Some (l ++ [p]).
Proof.
  intros Hv. induction l as [|pi l IH]; cbn [add_loop app].
  - rewrite bool_decide_true, Hv by done. cbn. unfold same_names. by rewrite bool_decide_true.
  - destruct (negb _); [intros H%fmap_None; by rewrite IH|]. destruct (valid pi); [|done].
    destruct (same_names pi p); [done|]. intros H%fmap_None. by rewrite IH.
Qed.

(** Adding a path keeps the table of paths well formed (at most 40 paths of at
    most ten names of at most 31 bytes); it fails only without memory or
    with a full table, leaving the state as it was; and adding the same path again
    succeeds and changes nothing. *)
Theorem vfm_map_add_ok {D} (mem1 mem2 : bool) (i chain : cname) (w w' : vfm D) (r : Z) :
  maps_ok w -> vfm_map_add mem1 mem2 i chain w = (r, w') ->
  maps_ok w' /\
  ((r = 0 /\ vfm_map_add mem1 mem2 i chain w' = (0, w')) \/
   (w' = w /\ ((r = - ENOMEM /\ mem1 && mem2 = false) \/ (r = -1 /\ length (vfm_map w) = VFM_MAP_COUNT)))).
Proof.
  intros [Hm Hlen]. unfold vfm_map_add. pose proof (new_map_ok i chain) as Hp.
  destruct mem1; cbn [negb]; [|intros [= <- <-]; split; [done|right; auto]].
  destruct mem2; cbn [negb]; [|intros [= <- <-]; split; [done|right; auto]].
  destruct (add_loop (vfm_map w) (new_map i chain)) as [l|] eqn:E.
  - intros [= <- <-]. destruct (add_loop_ok _ _ _ Hp Hm E) as [Hl Hlen'].
    split; [split; cbn; [done|lia]|]. left. split; [done|]. cbn [vfm_map set_maps].
    by rewrite (add_loop_again _ _ _ Hp Hm E).
  - destruct (Nat.ltb_spec (length (vfm_map w)) VFM_MAP_COUNT) as [Hlt|Hge].
    + intros [= <- <-]. split; [split; cbn; [apply Forall_app; split; [done|]; by apply Forall_singleton|rewrite length_app; cbn; lia]|].
      left. split; [done|]. cbn [vfm_map set_maps]. by rewrite add_loop_append.
    + intros [= <- <-]. split; [done|]. right. split; [done|]. right. split; [done|lia].
Qed.

(** ** Examples *)

(** One path, with a decoder and ppmgr registered and a free slot. *)
Definition sample_map : vfm_map_s := new_map (chars "default") (chars "decoder ppmgr amvideo").
Definition sample_of {D} (d : D) : vfm D :=
  Vf [sample_map]
     [Slot (chars "decoder.h264") (Some 1%nat) true; Slot (chars "ppmgr") (Some 2%nat) true; Slot [] None false]
     [Some 7%nat]
     {[ 1%nat := Prov (Some (chars "decoder.h264")) (Some (Ops true true true true true)) 0;
        2%nat := Prov (Some (chars "ppmgr")) None 0;
        3%nat := Prov (Some (replicate 64 "x"%char)) None 0 ]}
     {[ 7%nat := Recv (chars "amvideo") true ]}
     0 [] [] d.
Definition sample : vfm unit := sample_of tt.

Lemma update_active_bits_witness :
  Z.testbit (active (update_map sample sample_map)) 1 = true.
Proof. rewrite update_active_bits; [reflexivity|reflexivity|lia]. Defined.

Lemma path_neighbours_witness :
  vf_get_provider (vf_update_active_map sample) (chars "ppmgr") = Some 1%nat /\
  vf_get_receiver_name (vf_update_active_map sample) (chars "decoder.h264") = Some (chars "ppmgr").
Proof.
  apply (path_neighbours sample [] [] sample_map 0 (chars "decoder")); try reflexivity.
  - apply (bool_decide_unpack _). vm_compute. reflexivity.
  - intros x k Hk Hx. destruct k as [|[|[|k]]]; [done|..]; cbn in Hk; try discriminate Hk;
      injection Hk as <-; vm_compute in Hx; discriminate Hx.
  - intros m' x Hm'. by apply elem_of_nil in Hm'.
Defined.

Lemma vfm_map_add_ok_witness :
  maps_ok (snd (vfm_map_add true true (chars "tvpath") (chars "vdin0 amvideo") sample)).
Proof.
  refine (proj1 (vfm_map_add_ok true true (chars "tvpath") (chars "vdin0 amvideo") sample _ 0 _ eq_refl)).
  split; [|cbn; unfold VFM_MAP_COUNT; lia]. apply Forall_singleton, new_map_ok.
Defined.

(** Adding a path that is a beginning of the valid path of the same id
    reports success but leaves the old, longer path in place. *)
Theorem shorter_path_is_ignored :
  vfm_map_add true true (chars "default") (chars "decoder ppmgr") sample = (0, sample).
Proof. reflexivity. Qed.

End VfmSpec.
