(* ===== verification/VfmReg.v ===== *)
(** * Registration and use of providers

    The table of providers stays consistent and free of duplicate names under
    registration and removal; a removed provider is not found any more and a closed one
    is not called; the counts of users are balanced; and frames handed to the
    dummy receiver all go back. *)

From S2P Require Import Prelude Mem Vfm VfmSpec.
From stdpp Require Import base list numbers gmap.
From Stdlib Require Import ZArith Lia Ascii.
From Stdlib Require String.
Import String.StringSyntax.

Local Open Scope Z_scope.
Local Open Scope cint_scope.

Module VfmReg.
Import Vfm VfmSpec.

Section Table.
Context {D : Type}.
Implicit Types w : vfm D.

(** The names under which a table has providers. *)
Definition slot_entry (s : pslot) : option cname :=
  match s_prov s with Some _ => Some (s_name s) | None => None end.
Definition entries (t : list pslot) : list cname := omap slot_entry t.

(** A slot with a provider is in use, under the provider's name. *)
Definition slot_ok (ps : gmap nat provider) (s : pslot) : Prop :=
  match s_prov s with
  | Some p => s_used s = true /\ exists pr, ps !! p = Some pr /\ p_name pr = Some (s_name s)
  | None => True
  end.

Record table_ok w : Prop := TableOk {
  ok_slots : Forall (slot_ok (providers w)) (provider_table w);
  ok_names : NoDup (entries (provider_table w)) }.

(** Which slots hold a provider of the name. *)
Lemma slot_has_name_entry w n s :
  slot_ok (providers w) s -> slot_has_name w n s = bool_decide (slot_entry s = Some n).
Proof.
  unfold slot_ok, slot_has_name, slot_entry. destruct (s_prov s) as [p|]; [|done].
  intros (_ & pr & -> & ->). done.
Qed.

Lemma entries_cons s t : entries (s :: t) = match slot_entry s with Some n => n :: entries t | None => entries t end.
Proof. unfold entries. cbn. by destruct (slot_entry s). Qed.

Lemma has_name_entries w n t :
  Forall (slot_ok (providers w)) t -> existsb (slot_has_name w n) t = false <-> n ∉ entries t.
Proof.
  induction 1 as [|s t Hs Ht IH]; [split; [by intros _ ?%elem_of_nil|done]|]. cbn [existsb]. rewrite entries_cons.
  rewrite (slot_has_name_entry w n s Hs), orb_false_iff, IH, bool_decide_eq_false.
  destruct (slot_entry s) as [x|]; [rewrite not_elem_of_cons|]; intuition congruence.
Qed.

Lemma place_ok ps n p t t' pr :
  Forall (slot_ok ps) t -> ps !! p = Some pr -> p_name pr = Some n -> place n p t = Placed t' ->
  Forall (slot_ok ps) t' /\ entries t' ≡ₚ n :: entries t /\ (exists s, s ∈ t' /\ s_prov s = Some p).
Proof.
  intros Ht Hp Hn. revert t'. induction Ht as [|s t Hs Ht IH]; intros t'; [done|]. cbn [place].
  destruct (s_used s) eqn:Eu; cbn [negb].
  - destruct (place n p t) as [| |t1] eqn:E; try done. intros [= <-]. destruct (IH t1 eq_refl) as (H1 & H2 & x & Hx & Hxp).
    split; [by constructor|]. rewrite !entries_cons. split.
    + destruct (slot_entry s); [rewrite H2; apply Permutation_swap|exact H2].
    + exists x. split; [by right|done].
  - destruct (PROVIDER_TABLE_NAME_SIZE <? length n + 1)%nat; [done|]. intros [= <-]. split.
    { constructor; [|done]. unfold slot_ok. cbn. eauto. }
    rewrite !entries_cons. unfold slot_entry. cbn [s_prov s_name]. unfold slot_ok in Hs. split.
    + destruct (s_prov s); [|done]. destruct Hs as [Hs _]. congruence.
    + eexists. split; [left|done].
Qed.

Lemma too_long_ok ps n p t t' :
  Forall (slot_ok ps) t -> place n p t = TooLong t' ->
  Forall (slot_ok ps) t' /\ entries t' = entries t.
Proof.
  intros Ht. revert t'. induction Ht as [|s t Hs Ht IH]; intros t'; [done|]. cbn [place].
  destruct (s_used s) eqn:Eu; cbn [negb].
  - destruct (place n p t) as [|t1|] eqn:E; try done. intros [= <-]. destruct (IH t1 eq_refl) as (H1 & H2).
    split; [by constructor|]. by rewrite !entries_cons, H2.
  - destruct (PROVIDER_TABLE_NAME_SIZE <? length n + 1)%nat; [|done]. intros [= <-]. unfold slot_ok in Hs. split.
    + constructor; [|done]. unfold slot_ok. cbn. destruct (s_prov s); [|done]. by destruct Hs.
    + rewrite !entries_cons. done.
Qed.

Lemma remove_slot_ok w n t t' :
  Forall (slot_ok (providers w)) t -> remove_slot w n t = Some t' ->
  Forall (slot_ok (providers w)) t' /\ entries t ≡ₚ n :: entries t' /\ (forall s p, s ∈ t' -> s_prov s = Some p -> s ∈ t).
Proof.
  intros Ht. revert t'. induction Ht as [|s t Hs Ht IH]; intros t'; [done|]. cbn [remove_slot].
  rewrite (slot_has_name_entry w n s Hs). destruct (bool_decide_reflect (slot_entry s = Some n)) as [E|E].
  - intros [= <-]. split; [by constructor|]. rewrite !entries_cons, E. split; [done|].
    intros x p [->|Hx]%elem_of_cons; [done|]. intros _. by right.
  - intros (t1 & H1 & ->)%fmap_Some. destruct (IH t1 H1) as (K1 & K2 & K3). split; [by constructor|].
    rewrite !entries_cons. split; [destruct (slot_entry s); [rewrite K2; apply Permutation_swap|exact K2]|].
    intros x p [->|Hx]%elem_of_cons Hp; [by left|]. right. by eapply K3.
Qed.

Lemma remove_slot_none w n t :
  Forall (slot_ok (providers w)) t -> remove_slot w n t = None -> n ∉ entries t.
Proof.
  induction 1 as [|s t Hs Ht IH]; [by intros _ ?%elem_of_nil|]. cbn [remove_slot]. rewrite (slot_has_name_entry w n s Hs), entries_cons.
  destruct (bool_decide_reflect (slot_entry s = Some n)) as [E|E]; [done|]. intros H%fmap_None%IH.
  destruct (slot_entry s); [|done]. apply not_elem_of_cons. split; [congruence|done].
Qed.

(** The counts of users do not matter to the table. *)
Lemma slot_ok_alter ps p f s :
  (forall pr, p_name (f pr) = p_name pr) -> slot_ok ps s -> slot_ok (alter f p ps) s.
Proof.
  intros Hf. unfold slot_ok. destruct (s_prov s) as [q|]; [|done]. intros (Hu & pr & Hq & Hn). split; [done|].
  destruct (decide (p = q)) as [->|Hne].
  - exists (f pr). by rewrite lookup_alter_eq, Hq, Hf.
  - exists pr. by rewrite lookup_alter_ne.
Qed.
Lemma table_ok_alter w p f :
  (forall pr, p_name (f pr) = p_name pr) -> table_ok w -> table_ok (set_providers (alter f p (providers w)) w).
Proof.
  intros Hf [H1 H2]. split; [|done]. cbn. eapply Forall_impl; [exact H1|]. intros s. by apply slot_ok_alter.
Qed.

Lemma table_ok_maps w l : table_ok (set_maps l w) <-> table_ok w.
Proof. split; by intros [H1 H2]. Qed.

End Table.

Section Registration.
Context {D : Type}.
Variable recv_event : nat -> Z -> vfm D -> Z * vfm D.
Implicit Types w : vfm D.

(** The events of the receivers leave a consistent table behind. *)
Hypothesis recv_table_ok : forall r e w, table_ok w -> table_ok (snd (recv_event r e w)).

(** The slots of a full table are all in use. *)
Lemma place_full n p t : place n p t = Full -> Forall (fun s => s_used s = true) t.
Proof.
  induction t as [|s t IH]; [constructor|]. cbn [place]. destruct (s_used s) eqn:E; cbn [negb].
  - destruct (place n p t); try done. intros _. constructor; auto.
  - by destruct (_ <? _)%nat.
Qed.

Definition absent (p : nat) w : Prop := forall s, s ∈ provider_table w -> s_prov s <> Some p.

(** Registering a provider keeps the table consistent: every slot with a
    provider is in use, under the name of the provider, and no two providers have
    the same name.  When it reports success, the provider is in the table (if the
    receiver told of it does not remove it), unless all slots were taken. *)
Theorem vf_reg_provider_table (p : nat) (w w' : vfm D) (r : Z) :
  table_ok w -> (forall rv e w, ~ absent p w -> ~ absent p (snd (recv_event rv e w))) ->
  vf_reg_provider recv_event (Some p) w = (r, w') ->
  table_ok w' /\ (r = 0 -> ~ absent p w' \/ Forall (fun s => s_used s = true) (provider_table w)).
Proof.
  intros Hok Hkeep. unfold vf_reg_provider. destruct (providers w !! p) as [pr|] eqn:Ep; [|by intros [= <- <-]].
  destruct (p_name pr) as [n|] eqn:En; [|by intros [= <- <-]].
  assert (Hok1 : table_ok (set_providers (alter (set_use_cnt 0) p (providers w)) w)) by (by apply table_ok_alter).
  set (w1 := set_providers _ w) in *. destruct Hok1 as [Hs Hn].
  destruct (existsb (slot_has_name w1 n) (provider_table w1)) eqn:Ex; [intros [= <- <-]; by split|].
  apply (has_name_entries w1 n _ Hs) in Ex.
  destruct (place n p (provider_table w1)) as [|t|t] eqn:Epl.
  - intros [= <- <-]. split; [by split|]. intros _. right. by eapply place_full.
  - intros [= <- <-]. destruct (too_long_ok _ _ _ _ _ Hs Epl) as [H1 H2]. split; [|done].
    split; [done|]. change (NoDup (entries t)). by rewrite H2.
  - assert (Hp1 : providers w1 !! p = Some (set_use_cnt 0 pr)) by (unfold w1; cbn; by rewrite lookup_alter_eq, Ep).
    destruct (place_ok _ _ _ _ _ _ Hs Hp1 En Epl) as (H1 & H2 & s & Hst & Hsp).
    set (w2 := vf_update_active_map (set_ptable t w1)).
    assert (Hok2 : table_ok w2).
    { apply table_ok_maps. split; [done|]. change (NoDup (entries t)). rewrite H2. by apply NoDup_cons. }
    assert (Hin : ~ absent p w2) by (intros Ha; exact (Ha s Hst Hsp)).
    destruct (vf_get_receiver w2 n) as [rv|]; [destruct (recv_cb w2 rv)|]; intros [= <- <-]; auto.
Qed.

(** Slots that can be taken. *)
Definition free_slots (t : list pslot) : nat := length (List.filter (fun s => negb (s_used s)) t).

(** Registering under a name of 64 bytes or more fails, but takes a slot
    of the table for good: there is one free slot less, and no provider more. *)
Theorem long_name_leaks (p : nat) (w : vfm D) (pr : provider) (n : cname) :
  providers w !! p = Some pr -> p_name pr = Some n -> (64 <= length n)%nat ->
  Forall (slot_ok (providers w)) (provider_table w) -> n ∉ entries (provider_table w) ->
  (0 < free_slots (provider_table w))%nat ->
  exists w', vf_reg_provider recv_event (Some p) w = (-1, w') /\
    S (free_slots (provider_table w')) = free_slots (provider_table w) /\
    entries (provider_table w') = entries (provider_table w).
Proof.
  intros Hp Hn Hlen Hs Hnew Hfree. unfold vf_reg_provider. rewrite Hp, Hn.
  set (w1 := set_providers _ w).
  assert (Hs1 : Forall (slot_ok (providers w1)) (provider_table w1)).
  { eapply Forall_impl; [exact Hs|]. intros s. by apply slot_ok_alter. }
  rewrite (proj2 (has_name_entries w1 n (provider_table w1) Hs1) Hnew).
  assert (Hpl : exists t, place n p (provider_table w) = TooLong t /\ S (free_slots t) = free_slots (provider_table w)).
  { clear -Hfree Hlen. induction (provider_table w) as [|s t IH]; [cbn in Hfree; lia|]. unfold free_slots in *.
    cbn [place List.filter] in *. destruct (s_used s) eqn:E; cbn [negb] in *.
    - destruct (IH Hfree) as (t' & -> & Ht'). exists (s :: t'). split; [done|]. cbn. by rewrite E.
    - rewrite (proj2 (Nat.ltb_lt PROVIDER_TABLE_NAME_SIZE (length n + 1))) by (unfold PROVIDER_TABLE_NAME_SIZE; lia).
      eexists. split; [done|]. done. }
  destruct Hpl as (t & Et & Hf). change (provider_table w1) with (provider_table w). rewrite Et.
  eexists. split; [done|]. split; [done|]. by destruct (too_long_ok _ _ _ _ _ Hs Et).
Qed.

(** Closing and the end of the removal only touch counts and operations. *)
Lemma wait_unused_ok p w : table_ok w -> table_ok (wait_unused p w).
Proof. intros H. unfold wait_unused. case_match; [done|]. by apply table_ok_alter. Qed.

Lemma absent_by_name p w n : absent p w -> vf_get_provider_by_name w n <> Some p.
Proof.
  intros Ha. unfold vf_get_provider_by_name. destruct n as [n|]; [|done].
  intros (s & Hs & E)%first_some_Some. apply (Ha s Hs). unfold slot_answers in E.
  destruct (s_prov s); [|done]. destruct (_ && _); [|done]. congruence.
Qed.

Lemma remove_absent p w n t pr :
  table_ok w -> providers w !! p = Some pr -> p_name pr = Some n ->
  remove_slot w n (provider_table w) = Some t -> forall s, s ∈ t -> s_prov s <> Some p.
Proof.
  intros [Hs Hn] Hp Hpn Hr s Hst E. destruct (remove_slot_ok _ _ _ _ Hs Hr) as (H1 & H2 & _).
  rewrite H2 in Hn. apply NoDup_cons in Hn as [Hn _]. apply Hn.
  assert (Hok : slot_ok (providers w) s) by (by eapply Forall_forall in H1).
  unfold slot_ok in Hok. rewrite E in Hok. destruct Hok as (_ & pr' & Hp' & Hn'). rewrite Hp in Hp'. injection Hp' as <-.
  rewrite Hpn in Hn'. injection Hn' as ->. unfold entries. apply list_elem_of_omap. exists s. split; [done|].
  unfold slot_entry. by rewrite E.
Qed.

(** After [vf_unreg_provider] the table is consistent and no lookup, by
    node name or by receiver, yields the provider any more, if the receiver
    told of it does not register the provider again. *)
Theorem vf_unreg_provider_gone (p : nat) (w w' : vfm D) :
  (forall r e w, absent p w -> absent p (snd (recv_event r e w))) ->
  table_ok w -> vf_unreg_provider recv_event p w = Done w' ->
  table_ok w' /\ (forall n, vf_get_provider_by_name w' n <> Some p) /\ (forall rn, vf_get_provider w' rn <> Some p).
Proof.
  intros Habs Hok H. enough (Hw : table_ok w' /\ absent p w').
  { destruct Hw as [H1 H2]. split; [done|]. split; [intros n|intros rn]; by apply absent_by_name. }
  unfold vf_unreg_provider in H. destruct (providers w !! p) as [pr|] eqn:Ep; [|done].
  assert (Hout : absent p w -> table_ok (wait_unused p w) /\ absent p (wait_unused p w)).
  { intros Ha. split; [by apply wait_unused_ok|]. unfold wait_unused. by destruct (provider_used w =? 0). }
  destruct (p_name pr) as [n|] eqn:En.
  - destruct (remove_slot w n (provider_table w)) as [t|] eqn:Er.
    + injection H as <-. set (w1 := vf_provider_close p (set_ptable t w)).
      assert (Hok1 : table_ok w1).
      { apply table_ok_alter; [done|]. destruct (remove_slot_ok _ _ _ _ (ok_slots _ Hok) Er) as (H1 & H2 & _).
        split; [done|]. change (NoDup (entries t)). pose proof (ok_names _ Hok) as Hn. rewrite H2 in Hn. by apply NoDup_cons in Hn as [_ ?]. }
      assert (Ha1 : absent p w1) by (exact (remove_absent p w n t pr Hok Ep En Er)).
      set (w2 := match vf_get_receiver w n with Some r => _ | None => _ end).
      assert (Hw2 : table_ok w2 /\ absent p w2).
      { unfold w2. destruct (vf_get_receiver w n) as [rv|]; [destruct (recv_cb w1 rv)|]; auto. }
      destruct Hw2 as [Hok2 Ha2]. split; [by apply wait_unused_ok, table_ok_maps|].
      unfold wait_unused. by destruct (provider_used _ =? 0).
    + injection H as <-. apply Hout. intros s Hs E.
      assert (Hsl : slot_ok (providers w) s) by (eapply Forall_forall; [apply Hok|done]).
      unfold slot_ok in Hsl. rewrite E in Hsl. destruct Hsl as (_ & pr' & Hp' & Hn'). rewrite Ep in Hp'. injection Hp' as <-.
      rewrite En in Hn'. injection Hn' as ->. apply (remove_slot_none _ _ _ (ok_slots _ Hok) Er).
      apply list_elem_of_omap. exists s. split; [done|]. unfold slot_entry. by rewrite E.
  - destruct (existsb _ _) eqn:Ex; [done|]. injection H as <-. apply Hout. intros s Hs E.
    enough (existsb (fun s => match s_prov s with Some _ => true | None => false end) (provider_table w) = true) by congruence.
    apply existsb_exists. exists s. rewrite E. split; [by apply list_elem_of_In|done].
Qed.

End Registration.

(** ** Use counts *)

Section Counts.
Context {D frame : Type}.
Variable prov_event : nat -> Z -> vfm D -> vfm D.
Variable prov_peek : nat -> vfm D -> option frame * vfm D.
Variable prov_get : nat -> vfm D -> option frame * vfm D.
Variable prov_put : nat -> frame -> vfm D -> vfm D.
Implicit Types w : vfm D.

Lemma add_cnt_back p w d : (- 2 ^ 31 <= cnt_of w p < 2 ^ 31) -> add_cnt p (- d) (add_cnt p d w) = w.
Proof.
  intros Hr. unfold add_cnt. cbn [providers set_providers].
  destruct w as [m pt rt ps rs u lr lp dv]. unfold set_providers. cbn in *. f_equal. unfold cnt_of in Hr. cbn in Hr.
  apply map_eq. intros q. destruct (decide (p = q)) as [->|Hne]; [|by rewrite !lookup_alter_ne].
  rewrite !lookup_alter_eq. destruct (ps !! q) as [pr|]; [|done]. cbn. f_equal. destruct pr as [n o c]. unfold set_use_cnt. cbn in *.
  f_equal. unfold s32.
  replace ((c + d + 2 ^ 31) mod 2 ^ 32 - 2 ^ 31 + - d + 2 ^ 31) with ((c + d + 2 ^ 31) mod 2 ^ 32 + - d) by lia.
  rewrite Z.add_mod_idemp_l by done. replace (c + d + 2 ^ 31 + - d) with (c + 2 ^ 31) by lia.
  rewrite Z.mod_small by lia. lia.
Qed.

Lemma s32_back x d : - 2 ^ 31 <= x < 2 ^ 31 -> s32 (s32 (x + d) - d) = x.
Proof.
  intros Hx. unfold s32. replace ((x + d + 2 ^ 31) mod 2 ^ 32 - 2 ^ 31 - d + 2 ^ 31) with ((x + d + 2 ^ 31) mod 2 ^ 32 + - d) by lia.
  rewrite Z.add_mod_idemp_l by done. replace (x + d + 2 ^ 31 + - d) with (x + 2 ^ 31) by lia. rewrite Z.mod_small by lia. lia.
Qed.

(** Taking and giving back the lock of the providers, around changes of the rest. *)
Lemma unlock_lock w : - 2 ^ 31 <= provider_used w < 2 ^ 31 -> providers_unlock (providers_lock w) = w.
Proof.
  intros H. destruct w. unfold providers_unlock, providers_lock, set_used. cbn in *. by rewrite s32_back.
Qed.

(** A provider that is not closed, or is: [Some pr] in the store. *)
Lemma use_closed p w pr : providers w !! p = Some pr -> - 2 ^ 31 <= use_cnt pr < 0 -> use_provider (Some p) w = (false, w).
Proof.
  intros Hp Hc. unfold use_provider. assert (Hcnt : cnt_of (add_cnt p 1 w) p = use_cnt pr + 1).
  { unfold cnt_of, add_cnt. cbn. rewrite lookup_alter_eq, Hp. cbn. rewrite s32_small; lia. }
  rewrite Hcnt, (proj2 (Z.leb_le _ _)) by lia. f_equal. apply (add_cnt_back p w 1). unfold cnt_of. rewrite Hp. lia.
Qed.
Lemma use_open p w pr : providers w !! p = Some pr -> 0 <= use_cnt pr < 2 ^ 31 - 1 -> use_provider (Some p) w = (true, add_cnt p 1 w).
Proof.
  intros Hp Hc. unfold use_provider. assert (Hcnt : cnt_of (add_cnt p 1 w) p = use_cnt pr + 1).
  { unfold cnt_of, add_cnt. cbn. rewrite lookup_alter_eq, Hp. cbn. rewrite s32_small; lia. }
  by rewrite Hcnt, (proj2 (Z.leb_gt _ _)) by lia.
Qed.

(** A closed provider is never called: while its count of users is negative,
    getting, putting and peeking through a path that still leads to it, and
    notifying it, fail without running any function of the driver, and leave
    counts and all other state as they were (but for the names kept for debugging). *)
Theorem closed_provider_not_called w (rn : cname) (p : nat) (pr : provider) (f : frame) (e : Z) :
  vf_get_provider w rn = Some p -> providers w !! p = Some pr -> - 2 ^ 31 <= use_cnt pr < 0 ->
  - 2 ^ 31 <= provider_used w < 2 ^ 31 ->
  vf_get prov_get rn w = (None, provider_update_caller (Some rn) None w) /\
  vf_put prov_put f rn w = (-1, provider_update_caller (Some rn) None w) /\
  vf_peek prov_peek rn w = (None, w) /\
  vf_notify_provider prov_event rn e w = (-1, w).
Proof.
  intros Hg Hp Hc Hu. assert (Hl : use_provider (Some p) (providers_lock w) = (false, providers_lock w)).
  { by apply use_closed with pr. }
  assert (Hg' : vf_get_provider (providers_lock w) rn = Some p) by exact Hg.
  assert (Hb : providers_unlock (provider_update_caller (Some rn) None (providers_lock w)) = provider_update_caller (Some rn) None w).
  { change (provider_update_caller (Some rn) None (providers_lock w)) with (providers_lock (provider_update_caller (Some rn) None w)).
    by apply unlock_lock. }
  unfold vf_get, vf_put, vf_peek, vf_notify_provider, notify_found. rewrite Hg', Hg, Hl, (use_closed p w pr Hp Hc).
  by rewrite Hb, unlock_lock.
Qed.

End Counts.

(** ** Drivers that keep to their own state *)

Section Transparent.
Context {D frame : Type}.
Variable event : nat -> Z -> D -> D.
Variable peek : nat -> D -> option frame.
Variable get : nat -> D -> option frame * D.
Variable put : nat -> frame -> D -> D.
Implicit Types w : vfm D.

Definition t_event (p : nat) (e : Z) w : vfm D := set_drv (event p e (drv w)) w.
Definition t_peek (p : nat) w : option frame * vfm D := (peek p (drv w), w).
Definition t_get (p : nat) w : option frame * vfm D := let '(f, d) := get p (drv w) in (f, set_drv d w).
Definition t_put (p : nat) (f : frame) w : vfm D := set_drv (put p f (drv w)) w.

(** A path to an open provider with all operations. *)
Record open w (rn : cname) (p : nat) (pr : provider) : Prop := Open {
  open_path : vf_get_provider w rn = Some p;
  open_prov : providers w !! p = Some pr;
  open_ops : p_ops pr = Some (Ops true true true true true);
  open_cnt : 0 <= use_cnt pr < 2 ^ 31 - 1;
  open_used : - 2 ^ 31 <= provider_used w < 2 ^ 31 }.

Lemma open_ops_of w rn p pr has : open w rn p pr -> ops_of (add_cnt p 1 w) p has = has (Ops true true true true true).
Proof.
  intros [_ Hp Ho _ _]. unfold ops_of, add_cnt. cbn. rewrite lookup_alter_eq, Hp. cbn. by rewrite Ho.
Qed.

Lemma open_back w rn p pr : open w rn p pr -> add_cnt p (-1) (add_cnt p 1 w) = w.
Proof. intros [_ Hp _ Hc _]. apply (add_cnt_back p w 1). unfold cnt_of. rewrite Hp. lia. Qed.

Lemma open_keep w rn p pr d r q : open w rn p pr -> open (set_drv d (set_last r q w)) rn p pr.
Proof. by intros [H1 H2 H3 H4 H5]. Qed.

Lemma open_lock w rn p pr : open w rn p pr -> open (providers_lock w) rn p pr.
Proof.
  intros [H1 H2 H3 H4 H5]. split; try done. cbn. unfold s32. pose proof (Z.mod_pos_bound (provider_used w + 1 + 2 ^ 31) (2 ^ 32)). lia.
Qed.

Lemma name_of_add_cnt w p d : name_of (add_cnt p d w) p = name_of w p.
Proof. unfold name_of, add_cnt. cbn. rewrite lookup_alter_eq. by destruct (providers w !! p). Qed.

(** The end of a call: count and lock given back. *)
Lemma open_finish w rn p pr d r q : open w rn p pr ->
  providers_unlock (add_cnt p (-1) (set_drv d (set_last r q (add_cnt p 1 (providers_lock w))))) = set_drv d (set_last r q w).
Proof.
  intros Ho. change (providers_unlock _) with (set_drv d (set_last r q (providers_unlock (add_cnt p (-1) (add_cnt p 1 (providers_lock w)))))).
  rewrite (open_back _ _ _ _ (open_lock _ _ _ _ Ho)). by rewrite unlock_lock by apply Ho.
Qed.

Lemma open_calls w (rn : cname) (p : nat) (pr : provider) :
  open w rn p pr ->
  let after d := set_drv d (provider_update_caller (Some rn) (Some (name_of w p)) w) in
  vf_get t_get rn w = (fst (get p (drv w)), after (snd (get p (drv w)))) /\
  (forall f, vf_put t_put f rn w = (0, after (put p f (drv w)))) /\
  vf_peek t_peek rn w = (peek p (drv w), w) /\
  (forall e, vf_notify_provider t_event rn e w = (0, set_drv (event p e (drv w)) w)).
Proof.
  intros Ho. pose proof (open_lock w rn p pr Ho) as Hol. pose proof (open_prov _ _ _ _ Ho) as Hp.
  assert (Hg' : vf_get_provider (providers_lock w) rn = Some p) by exact (open_path _ _ _ _ Ho).
  assert (Hops : forall has r q, ops_of (set_last r q (add_cnt p 1 (providers_lock w))) p has = has (Ops true true true true true))
    by (intros; exact (open_ops_of _ _ _ _ _ Hol)).
  assert (Hops1 : forall has v, open v rn p pr -> ops_of (add_cnt p 1 v) p has = has (Ops true true true true true))
    by (intros; by eapply open_ops_of).
  unfold vf_get, vf_put, vf_peek, vf_notify_provider, notify_found. rewrite Hg', (open_path _ _ _ _ Ho).
  rewrite (use_open p w pr Hp (open_cnt _ _ _ _ Ho)), (use_open p (providers_lock w) pr Hp (open_cnt _ _ _ _ Ho)).
  rewrite name_of_add_cnt. change (name_of (providers_lock w) p) with (name_of w p).
  unfold provider_update_caller.
  unfold t_get, t_put, t_peek, t_event, unuse_provider. split; [|split; [intros f|split; [|intros e]]].
  - rewrite Hops. cbn [has_get]. change (drv (set_last _ _ _)) with (drv w). destruct (get p (drv w)) as [f1 d1]. cbn [fst snd].
    by rewrite (open_finish w rn p pr d1 _ _ Ho).
  - rewrite Hops. cbn [has_put].
    change (drv (set_last _ _ _)) with (drv w). by rewrite (open_finish w rn p pr _ _ _ Ho).
  - rewrite Hops1 by done. cbn [has_peek]. rewrite (open_back _ _ _ _ Hol). by rewrite unlock_lock by apply Ho.
  - rewrite Hops1 by done. cbn [has_event_cb].
    change (add_cnt p (-1) (set_drv ?d (add_cnt p 1 w))) with (set_drv d (add_cnt p (-1) (add_cnt p 1 w))).
    by rewrite (open_back _ _ _ _ Ho).
Qed.

(** C23: through an open path, [vf_get], [vf_put], [vf_peek] and
    [vf_notify_provider] are the operations of the provider before the receiver,
    run once on the driver's state; counts of users, tables and paths are as
    before. *)
Theorem open_path_transparent w (rn : cname) (p : nat) (pr : provider) (f : frame) (e : Z) :
  open w rn p pr ->
  let after d := set_drv d (provider_update_caller (Some rn) (Some (name_of w p)) w) in
  vf_get t_get rn w = (fst (get p (drv w)), after (snd (get p (drv w)))) /\
  vf_put t_put f rn w = (0, after (put p f (drv w))) /\
  vf_peek t_peek rn w = (peek p (drv w), w) /\
  vf_notify_provider t_event rn e w = (0, set_drv (event p e (drv w)) w).
Proof. intros H. destruct (open_calls w rn p pr H) as (H1 & H2 & H3 & H4). auto. Qed.

End Transparent.

(** ** The dummy receiver *)

(** A provider with a queue of ready frames and a list of returned ones. *)
Section Queue.
Context {frame : Type}.
Abbreviation queues := (list frame * list frame)%type.
Implicit Types w : vfm queues.

Definition q_get (p : nat) (d : queues) : option frame * queues :=
  match d with (x :: r, f) => (Some x, (r, f)) | ([], f) => (None, ([], f)) end.
Definition q_put (p : nat) (x : frame) (d : queues) : queues := (d.1, d.2 ++ [x]).
Definition q_event (p : nat) (e : Z) (d : queues) : queues := d.

(** Told that frames are ready, the dummy receiver takes them all and gives
    each back to the provider, in order, and then stops; counts, tables and
    paths are as before. *)
Theorem dummy_receiver_drains w (rn : cname) (p : nat) (pr : provider) (ready returned : list frame) :
  open w rn p pr -> drv w = (ready, returned) ->
  exists w', dummy_receiver_event_fun (t_event q_event) (t_get q_get) (t_put q_put) (S (length ready))
               VFRAME_EVENT_PROVIDER_VFRAME_READY rn w = Done (0, w') /\
    drv w' = ([], returned ++ ready) /\ providers w' = providers w /\ provider_used w' = provider_used w /\
    provider_table w' = provider_table w /\ vfm_map w' = vfm_map w.
Proof.
  intros Ho Hd. unfold dummy_receiver_event_fun. cbn [Z.eqb Pos.eqb VFRAME_EVENT_PROVIDER_VFRAME_READY VFRAME_EVENT_PROVIDER_UNREG].
  enough (exists w', dummy_drain (t_event q_event) (t_get q_get) (t_put q_put) (S (length ready)) rn w = Done w' /\
    drv w' = ([], returned ++ ready) /\ providers w' = providers w /\ provider_used w' = provider_used w /\
    provider_table w' = provider_table w /\ vfm_map w' = vfm_map w) as (w' & -> & H) by (exists w'; done).
  revert w returned Ho Hd. induction ready as [|x ready IH]; intros w returned Ho Hd; cbn [length dummy_drain].
  - rewrite (proj1 (open_calls q_event (fun _ _ => None) q_get q_put w rn p pr Ho)), Hd. cbn [q_get fst snd].
    eexists. split; [done|]. cbn. by rewrite app_nil_r.
  - rewrite (proj1 (open_calls q_event (fun _ _ => None) q_get q_put w rn p pr Ho)), Hd. cbn [q_get fst snd].
    set (w1 := set_drv _ _). assert (Ho1 : open w1 rn p pr) by (by apply open_keep).
    rewrite (proj1 (proj2 (open_calls q_event (fun _ _ => None) q_get q_put w1 rn p pr Ho1)) x).
    set (w2 := set_drv _ (provider_update_caller _ _ w1)). assert (Ho2 : open w2 rn p pr) by (by apply open_keep).
    rewrite (proj2 (proj2 (proj2 (open_calls q_event (fun _ _ => None) q_get q_put w2 rn p pr Ho2))) VFRAME_EVENT_RECEIVER_PUT).
    destruct (IH (set_drv (q_event p VFRAME_EVENT_RECEIVER_PUT (drv w2)) w2) (returned ++ [x])) as (w' & Hw' & H1 & H2 & H3 & H4 & H5).
    + by destruct Ho2.
    + done.
    + exists w'. split; [exact Hw'|]. rewrite H1, <- app_assoc. done.
Qed.

End Queue.

(** ** Examples *)

Definition quiet {D} (r : nat) (e : Z) (w : vfm D) : Z * vfm D := (0, w).

Lemma sample_table_ok {D} (d : D) : table_ok (sample_of d).
Proof.
  split.
  - repeat constructor; eexists; by split.
  - change (NoDup [chars "decoder.h264"; chars "ppmgr"]). apply (bool_decide_unpack _). by vm_compute.
Qed.

(** Registering provider 1 again is refused. *)
Lemma vf_reg_provider_table_witness :
  table_ok (snd (vf_reg_provider quiet (Some 1%nat) sample)).
Proof.
  refine (proj1 (vf_reg_provider_table quiet _ 1 sample (snd (vf_reg_provider quiet (Some 1%nat) sample)) (-1) _ _ _)).
  - intros r e w H. exact H.
  - apply sample_table_ok.
  - intros rv e w H. exact H.
  - vm_compute. reflexivity.
Defined.

Lemma long_name_leaks_witness :
  exists w', vf_reg_provider quiet (Some 3%nat) sample = (-1, w') /\
    S (free_slots (provider_table w')) = free_slots (provider_table sample) /\
    entries (provider_table w') = entries (provider_table sample).
Proof.
  apply (long_name_leaks quiet 3 sample (Prov (Some (replicate 64 "x"%char)) None 0) (replicate 64 "x"%char)).
  - reflexivity.
  - reflexivity.
  - cbn. lia.
  - apply sample_table_ok.
  - apply (bool_decide_unpack _). by vm_compute.
  - cbn. lia.
Defined.

Lemma vf_unreg_provider_gone_witness :
  exists w', vf_unreg_provider quiet 1 sample = Done w' /\ vf_get_provider_by_name w' (Some (chars "decoder")) <> Some 1%nat.
Proof.
  destruct (vf_unreg_provider quiet 1 sample) as [w'| |] eqn:H; [|vm_compute in H; discriminate H..].
  exists w'. split; [reflexivity|].
  refine (proj1 (proj2 (vf_unreg_provider_gone quiet _ 1 sample w' _ _ H)) (Some (chars "decoder"))).
  - intros r e w Hw. exact Hw.
  - intros r e w Hw. exact Hw.
  - apply sample_table_ok.
Defined.

(** The decoder of the sample, on the updated path. *)
Lemma sample_open {D} (d : D) :
  open (vf_update_active_map (sample_of d)) (chars "ppmgr") 1 (Prov (Some (chars "decoder.h264")) (Some (Ops true true true true true)) 0).
Proof. split; try reflexivity; cbn; lia. Qed.

Lemma open_path_transparent_witness :
  fst (vf_get (t_get (fun _ d => (Some 5, d + 1))) (chars "ppmgr") (vf_update_active_map (sample_of 3))) = Some 5.
Proof.
  by rewrite (proj1 (open_path_transparent (fun _ _ d => d) (fun _ _ => None) (fun _ d => (Some 5, d + 1)) (fun _ _ d => d)
    (vf_update_active_map (sample_of 3)) (chars "ppmgr") 1 _ 5 0 (sample_open 3))).
Defined.

Lemma dummy_receiver_drains_witness :
  exists w', dummy_receiver_event_fun (t_event q_event) (t_get q_get) (t_put q_put) 4
               VFRAME_EVENT_PROVIDER_VFRAME_READY (chars "ppmgr") (vf_update_active_map (sample_of ([10; 11; 12], [9]))) = Done (0, w') /\
    drv w' = ([], [9; 10; 11; 12]).
Proof.
  destruct (dummy_receiver_drains (vf_update_active_map (sample_of ([10; 11; 12], [9]))) (chars "ppmgr") 1 _ [10; 11; 12] [9]
    (sample_open _) eq_refl) as (w' & H & Hd & _). exists w'. split; [exact H|exact Hd].
Defined.

(** The decoder after it is closed. *)
Definition sample_closed : vfm unit := vf_provider_close 1 (vf_update_active_map sample).

Lemma closed_provider_not_called_witness :
  vf_peek (fun _ w => (Some 1, w)) (chars "ppmgr") sample_closed = (None, sample_closed).
Proof.
  refine (proj1 (proj2 (proj2 (closed_provider_not_called (fun _ _ w => w) (fun _ w => (Some 1, w)) (fun _ w => (None, w)) (fun _ _ w => w)
    sample_closed (chars "ppmgr") 1 (Prov (Some (chars "decoder.h264")) (Some (Ops true true true true true)) (-100000)) 1 0 _ _ _ _)))).
  - vm_compute. reflexivity.
  - vm_compute. reflexivity.
  - cbn. lia.
  - cbn. lia.
Defined.

End VfmReg.
