(* ===== verification/VfmRace.v ===== *)
(** * Users of a provider against its removal

    [vf_unreg_provider] runs while other threads are inside [vf_get], [vf_put]
    or [vf_peek], which take [providers_lock], or inside [vf_notify_provider],
    which does not (vframe_provider.c).  Every atomic operation and every access to
    the table is a step; threads interleave freely.

    The steps of a user are: count itself in (providers_lock), look the
    provider up, [use_provider] (atomic_inc_return), run the driver's function, give the
    count back, unlock.  The remover takes the provider out of the table, adds
    CLOSED_CNT to the count and polls it at most 10000 times, then polls the
    number of users at most 10001 times.  When it returns, the owner may free
    the provider. *)

From S2P Require Import Prelude Vfm.
From stdpp Require Import base list numbers relations.
From Stdlib Require Import ZArith Lia.

Local Open Scope Z_scope.

Module VfmRace.
Import Vfm.

(** ** Threads *)

(** Where a user is: outside; counted in; with the address of the provider; in the
    driver's function; refused; done, before the unlock.  The [N] positions are
    those of [vf_notify_provider]. *)
Inductive upc := GOut | GLocked | GHolds | GRuns | GRefused | GDone
  | NOut | NHolds | NRuns | NRefused.

#[global] Instance upc_eq_dec : EqDecision upc.
Proof. solve_decision. Defined.

(** Where the remover is; the numbers are the polls left. *)
Inductive rpc := RStart | RRemoved | RWaitClosed (wait_max : Z) | RWaitUnused (polls : Z) | RReturned.

Record race := Race {
  users : list upc; remover : rpc;
  use_cnt : Z; used : Z; in_table : bool;
  timed1 : bool; timed2 : bool }.      (* a wait gave up *)

Definition locked (u : upc) : bool :=
  match u with GLocked | GHolds | GRuns | GRefused | GDone => true | _ => false end.
Definition counted (u : upc) : bool :=
  match u with GRuns | GRefused | NRuns | NRefused => true | _ => false end.
Definition running (u : upc) : bool := match u with GRuns | NRuns => true | _ => false end.
(** The thread has the address of the provider and will use it. *)
Definition holds (u : upc) : bool :=
  match u with GHolds | GRuns | GRefused | NHolds | NRuns | NRefused => true | _ => false end.

Definition gholds (u : upc) : bool := match u with GHolds | GRuns | GRefused => true | _ => false end.

Definition closing (r : rpc) : bool :=
  match r with RStart | RRemoved => false | _ => true end.

(** ** Steps *)

(** A user's step: its position, and what it does to the counts. *)
Inductive ustep (s : race) : upc -> upc -> Z -> Z -> Prop :=
  | u_lock : ustep s GOut GLocked 0 1
  | u_found : in_table s = true -> ustep s GLocked GHolds 0 0
  | u_missing : in_table s = false -> ustep s GLocked GDone 0 0
  | u_use : 0 < use_cnt s + 1 -> ustep s GHolds GRuns 1 0
  | u_refuse : use_cnt s + 1 <= 0 -> ustep s GHolds GRefused 1 0
  | u_unuse : ustep s GRuns GDone (-1) 0
  | u_back : ustep s GRefused GDone (-1) 0
  | u_unlock : ustep s GDone GOut 0 (-1)
  | n_found : in_table s = true -> ustep s NOut NHolds 0 0
  | n_use : 0 < use_cnt s + 1 -> ustep s NHolds NRuns 1 0
  | n_refuse : use_cnt s + 1 <= 0 -> ustep s NHolds NRefused 1 0
  | n_unuse : ustep s NRuns NOut (-1) 0
  | n_back : ustep s NRefused NOut (-1) 0.

Definition WAIT_MAX : Z := 10000.
Definition POLLS : Z := 10000.

Inductive rstep : race -> race -> Prop :=
  | s_user s i a b du dl : users s !! i = Some a -> ustep s a b du dl ->
      rstep s (Race (<[i := b]> (users s)) (remover s) (use_cnt s + du) (used s + dl) (in_table s) (timed1 s) (timed2 s))
  | s_remove s : remover s = RStart ->
      rstep s (Race (users s) RRemoved (use_cnt s) (used s) false (timed1 s) (timed2 s))
  | s_close s : remover s = RRemoved ->
      rstep s (Race (users s) (if CLOSED_CNT <? use_cnt s + CLOSED_CNT then RWaitClosed WAIT_MAX else RWaitUnused POLLS)
                 (use_cnt s + CLOSED_CNT) (used s) (in_table s) (timed1 s) (timed2 s))
  | s_poll s k : remover s = RWaitClosed k -> 0 < k ->
      rstep s (Race (users s) (if CLOSED_CNT <? use_cnt s then RWaitClosed (k - 1) else RWaitUnused POLLS)
                 (use_cnt s) (used s) (in_table s) (timed1 s) (timed2 s))
  | s_give_up s k : remover s = RWaitClosed k -> k <= 0 ->
      rstep s (Race (users s) (RWaitUnused POLLS) (use_cnt s) (used s) (in_table s) true (timed2 s))
  | s_unused s k : remover s = RWaitUnused k -> used s = 0 ->
      rstep s (Race (users s) RReturned (use_cnt s) (used s) (in_table s) (timed1 s) (timed2 s))
  | s_wait s k : remover s = RWaitUnused k -> 0 < k -> used s <> 0 ->
      rstep s (Race (users s) (RWaitUnused (k - 1)) (use_cnt s) (used s) (in_table s) (timed1 s) (timed2 s))
  | s_drop s k : remover s = RWaitUnused k -> k <= 0 -> used s <> 0 ->
      rstep s (Race (users s) RReturned (use_cnt s) (used s) (in_table s) (timed1 s) true).

(** All users outside, the provider registered. *)
Definition outside (u : upc) : bool := match u with GOut | NOut => true | _ => false end.
Definition start (us : list upc) : race := Race us RStart 0 0 true false false.

(** ** Counting *)

Definition many (f : upc -> bool) (l : list upc) : Z := Z.of_nat (length (List.filter f l)).

Lemma many_insert f l i a b : l !! i = Some a ->
  many f (<[i := b]> l) = many f l - Z.b2z (f a) + Z.b2z (f b).
Proof.
  revert i. induction l as [|x l IH]; intros i Hi; [done|]. unfold many in *. destruct i as [|i]; cbn in Hi.
  - injection Hi as ->. cbn [insert list_insert List.filter]. destruct (f a), (f b); cbn [length Z.b2z]; lia.
  - specialize (IH i Hi). change (<[S i:=b]> (x :: l)) with (x :: <[i:=b]> l). cbn [List.filter].
    destruct (f x); cbn [length]; lia.
Qed.

Lemma many_0 f l : many f l = 0 <-> forall u, u ∈ l -> f u = false.
Proof.
  unfold many. induction l as [|x l IH]; cbn [List.filter]; [split; [by intros _ u ?%elem_of_nil|done]|].
  destruct (f x) eqn:E; cbn [length].
  - split; [lia|]. intros H. specialize (H x). rewrite E in H. exfalso. by specialize (H ltac:(left)).
  - rewrite IH. split; intros H u Hu; [apply elem_of_cons in Hu as [->|Hu]; auto|apply H; by right].
Qed.

Lemma many_bounds f l : 0 <= many f l <= Z.of_nat (length l).
Proof. unfold many. pose proof (List.filter_length_le f l). lia. Qed.

Lemma many_le f g l : (forall u, f u = true -> g u = true) -> many f l <= many g l.
Proof.
  intros H. unfold many. induction l as [|x l IH]; [done|]. cbn [List.filter]. specialize (H x).
  destruct (f x), (g x); cbn [length]; lia || by specialize (H eq_refl).
Qed.

(** ** The invariant *)

Record inv (s : race) : Prop := Inv {
  i_used : used s = many locked (users s);
  i_cnt : use_cnt s = (if closing (remover s) then CLOSED_CNT else 0) + many counted (users s);
  i_table : in_table s = true <-> remover s = RStart;
  (* after a completed wait no driver function runs *)
  i_idle : match remover s with RWaitUnused _ | RReturned => timed1 s = false -> many running (users s) = 0 | _ => True end;
  (* after a complete return no locked user has the address *)
  i_free : remover s = RReturned -> timed2 s = false ->
           many gholds (users s) = 0 }.

Lemma start_inv us : forallb outside us = true -> inv (start us).
Proof.
  intros H. assert (Hz : forall f, (forall u, outside u = true -> f u = false) -> many f us = 0).
  { intros f Hf. apply many_0. intros u Hu. apply Hf. rewrite forallb_forall in H. apply H. by apply list_elem_of_In. }
  split; cbn; try done; rewrite Hz; done || (by intros []).
Qed.

Lemma many_lt f l i a : l !! i = Some a -> f a = false -> many f l < Z.of_nat (length l).
Proof.
  intros Hi Ha. revert i Hi. induction l as [|x l IH]; intros i Hi; [done|].
  unfold many in *. cbn [List.filter length]. destruct i as [|i]; cbn in Hi.
  - injection Hi as ->. rewrite Ha. pose proof (List.filter_length_le f l). lia.
  - specialize (IH i Hi). destruct (f x); cbn [length]; lia.
Qed.

(** A user's step keeps the invariant; at most 100000 users are in at once. *)
Lemma user_inv s i a b du dl :
  Z.of_nat (length (users s)) <= 100000 -> inv s -> users s !! i = Some a -> ustep s a b du dl ->
  inv (Race (<[i := b]> (users s)) (remover s) (use_cnt s + du) (used s + dl) (in_table s) (timed1 s) (timed2 s)).
Proof.
  intros HN [H1 H2 H3 H4 H5] Hi Hu.
  assert (Hrun : closing (remover s) = true -> counted a = false -> use_cnt s + 1 <= 0).
  { intros Hc Ha. rewrite H2, Hc. pose proof (many_lt _ _ _ _ Hi Ha). unfold CLOSED_CNT. lia. }
  pose proof (many_bounds running (<[i := b]> (users s))) as Hb1.
  pose proof (many_bounds gholds (<[i := b]> (users s))) as Hb2.
  split; cbn [users remover use_cnt used in_table timed1 timed2].
  - rewrite (many_insert _ _ _ _ _ Hi), H1. destruct Hu; cbn; lia.
  - rewrite (many_insert _ _ _ _ _ Hi), H2. destruct Hu; cbn; lia.
  - exact H3.
  - enough (closing (remover s) = true -> many running (users s) = 0 -> many running (<[i := b]> (users s)) = 0) as H
      by (destruct (remover s); auto; intros Ht; apply H; auto).
    intros Hc Hz. revert Hb1. rewrite (many_insert _ _ _ _ _ Hi), Hz. intros Hb1.
    destruct Hu; cbn in *; try lia; specialize (Hrun Hc eq_refl); lia.
  - intros Hr Ht. specialize (H5 Hr Ht). revert Hb2. rewrite (many_insert _ _ _ _ _ Hi), H5. intros Hb2.
    destruct Hu as [| Hin | | | | | | | Hin | | | |]; cbn in *; try lia; apply H3 in Hin; congruence.
Qed.

Lemma rstep_inv s s' : Z.of_nat (length (users s)) <= 100000 -> inv s -> rstep s s' ->
  inv s' /\ length (users s') = length (users s).
Proof.
  intros HN Hinv Hs. destruct Hs as [s i a b du dl Hi Hu|s Hr|s Hr|s k Hr Hk|s k Hr Hk|s k Hr Hz|s k Hr Hk Hz|s k Hr Hk Hz];
    [split; [by eapply user_inv|cbn; by rewrite length_insert]|..]; (split; [|done]);
    destruct Hinv as [H1 H2 H3 H4 H5]; pose proof (many_bounds counted (users s));
    pose proof (many_le running counted (users s) ltac:(by intros [])) as Hrc;
    pose proof (many_le gholds locked (users s) ltac:(by intros [])) as Hgl;
    pose proof (many_bounds running (users s)); pose proof (many_bounds gholds (users s));
    rewrite Hr in H2, H3, H4; cbn [closing] in H2;
    split; cbn [users remover use_cnt used in_table timed1 timed2]; try done;
    rewrite ?H2; unfold CLOSED_CNT in *;
    repeat match goal with |- context [if ?c then _ else _] => destruct c eqn:?; b2p end; cbn [closing]; try done; try lia;
    first [ by match goal with H : closing (if ?c then _ else _) = false |- _ => destruct c end
          | split; [intros Hx; apply H3 in Hx; discriminate Hx|discriminate] ].
Qed.

Definition reaches (us : list upc) : race -> Prop := rtc rstep (start us).

Lemma reaches_inv us s : forallb outside us = true -> Z.of_nat (length us) <= 100000 -> reaches us s -> inv s /\ length (users s) = length us.
Proof.
  intros Ho HN. unfold reaches. revert HN. intros HN H. assert (H0 : inv (start us) /\ length (users (start us)) = length us) by (split; [by apply start_inv|done]).
  revert H0. induction H as [s|s1 s2 s3 Hs _ IH]; [done|]. intros [Hi Hl]. apply IH.
  destruct (rstep_inv s1 s2 ltac:(lia) Hi Hs) as [Hi' Hl']. split; [done|lia].
Qed.

(** C3: once [vf_unreg_provider] has seen the count of users fall to
    CLOSED_CNT, no function of the driver runs and none starts, however many of up
    to 100000 threads go through [vf_get], [vf_put], [vf_peek] or
    [vf_notify_provider] and however they interleave. *)
Theorem no_call_after_close (us : list upc) (s : race) :
  forallb outside us = true -> Z.of_nat (length us) <= 100000 -> reaches us s ->
  match remover s with RWaitUnused _ | RReturned => True | _ => False end -> timed1 s = false ->
  forall u, u ∈ users s -> running u = false.
Proof.
  intros Ho HN Hr Hrem Ht. destruct (reaches_inv us s Ho HN Hr) as [[_ _ _ H4 _] _]. apply many_0.
  destruct (remover s); auto; done.
Qed.

(** Users of [vf_get] stay such. *)
Lemma only_getters us s : forallb (fun u => bool_decide (u = GOut)) us = true -> reaches us s ->
  forall u, u ∈ users s -> match u with NOut | NHolds | NRuns | NRefused => False | _ => True end.
Proof.
  intros Ho Hr. assert (H0 : Forall (fun u => match u with NOut | NHolds | NRuns | NRefused => False | _ => True end) (users (start us))).
  { apply Forall_forall. intros x Hx. cbn in Hx. rewrite forallb_forall in Ho. specialize (Ho x (proj1 (list_elem_of_In _ _) Hx)).
    apply bool_decide_eq_true in Ho. by subst. }
  apply Forall_forall. revert H0. unfold reaches in Hr. induction Hr as [s|s1 s2 s3 Hs _ IH]; [done|]. intros H. apply IH.
  destruct Hs as [s i a b du dl Hi Hu| | | | | | |]; try done. cbn [users]. apply Forall_insert; [done|].
  eapply Forall_lookup_1 in H; [|exact Hi]. by destruct Hu.
Qed.


(** ** The remover ends *)

(** Steps of the remover that are left, at most. *)
Definition left_steps (r : rpc) : Z :=
  match r with
  | RStart => WAIT_MAX + POLLS + 5
  | RRemoved => WAIT_MAX + POLLS + 4
  | RWaitClosed k => Z.max k 0 + POLLS + 3
  | RWaitUnused k => Z.max k 0 + 1
  | RReturned => 0
  end.

Ltac solve_left :=
  cbn [remover]; repeat match goal with |- context [if ?c then _ else _] => destruct c end;
  unfold left_steps, WAIT_MAX, POLLS in *; lia.

(** [vf_unreg_provider] returns whatever the other threads do: each of its
    own steps lowers a number that is at most 20005, steps of the users leave
    it, and until it returns it can always take a step. *)
Theorem unreg_returns (s : race) :
  (forall s', rstep s s' -> remover s' = remover s \/ 0 <= left_steps (remover s') < left_steps (remover s)) /\
  (remover s <> RReturned -> exists s', rstep s s' /\ 0 <= left_steps (remover s') < left_steps (remover s)) /\
  (remover s = RStart -> left_steps (remover s) = 20005).
Proof.
  split; [|split].
  - intros s' Hs. destruct Hs as [s i a b du dl Hi Hu|s Hr|s Hr|s k Hr Hk|s k Hr Hk|s k Hr Hz|s k Hr Hk Hz|s k Hr Hk Hz];
      [by left|right; rewrite Hr; solve_left..].
  - intros Hne. destruct (remover s) as [| |k|k|] eqn:Hr; [..|done].
    + eexists. split; [by apply s_remove|]. solve_left.
    + eexists. split; [by apply s_close|]. solve_left.
    + destruct (Z.lt_ge_cases 0 k) as [Hk|Hk];
        [eexists; split; [exact (s_poll s k Hr Hk)|]|eexists; split; [exact (s_give_up s k Hr Hk)|]]; solve_left.
    + destruct (Z.eq_dec (used s) 0) as [Hz|Hz]; [eexists; split; [exact (s_unused s k Hr Hz)|]; solve_left|].
      destruct (Z.lt_ge_cases 0 k) as [Hk|Hk];
        [eexists; split; [exact (s_wait s k Hr Hk Hz)|]|eexists; split; [exact (s_drop s k Hr Hk Hz)|]]; solve_left.
  - by intros ->.
Qed.

(** ** The notifier *)

(** [vf_notify_provider] looks the provider up without taking
    [providers_lock]: an execution with one notifier ends with
    [vf_unreg_provider] returned, no wait given up, and the notifier still about
    to use the address of the provider, which its owner may have freed. *)
Theorem notify_races_with_free :
  exists s, reaches [NOut] s /\ remover s = RReturned /\ timed1 s = false /\ timed2 s = false /\ users s = [NHolds].
Proof.
  eexists. split; [|split; [|split; [|split]]].
  - unfold reaches. eapply rtc_l; [apply (s_user (start [NOut]) 0 NOut NHolds 0 0); [done|by constructor]|].
    eapply rtc_l; [by apply s_remove|]. eapply rtc_l; [by apply s_close|].
    eapply rtc_l; [by eapply s_unused|]. apply rtc_refl.
  - done.
  - done.
  - done.
  - done.
Qed.

(** ** Examples *)

(** A getter that found the provider before the removal will not run it. *)
Lemma no_call_after_close_witness :
  Forall (fun u => running u = false) (users (Race [GHolds] (RWaitUnused POLLS) CLOSED_CNT 1 false false false)).
Proof.
  apply Forall_forall.
  apply (no_call_after_close [GOut]); [done|cbn; lia| |done|done].
  unfold reaches. eapply rtc_l; [apply (s_user (start [GOut]) 0 GOut GLocked 0 1); [done|by constructor]|].
  eapply rtc_l; [eapply (s_user _ 0 GLocked GHolds 0 0); [done|by constructor]|].
  eapply rtc_l; [by apply s_remove|]. eapply rtc_l; [by apply s_close|]. apply rtc_refl.
Defined.


End VfmRace.
