(* ===== verification/Canvas.v ===== *)
(** * Canvases

    src/drivers/media/common/canvas: a canvas is an entry of a table of 256
    picture descriptors that video blocks address by an 8-bit index.
    canvas_mgr.c hands the indices out (single, or runs of up to four packed
    into a word); canvas.c encodes a descriptor into the two words of the
    hardware table and back.

    The bitmap is a list of 256 booleans; an index outside it is the outcome
    [Fault].  jiffies is the argument [now]; owners are numbers.  The calls
    run one at a time (the code takes a spin lock). *)

From S2P Require Import Prelude Mem.
From stdpp Require Import base list numbers.
From Stdlib Require Import ZArith Lia.

Local Open Scope Z_scope.
Local Open Scope cint_scope.

Module Canvas.

(** ** The pool (canvas_mgr.h) *)

Definition CANVAS_MAX_NUM : Z := 256.
Definition CANVAS_S1A_MAX_NUM : Z := 128.

Record canvas_info := Info { owner : option nat; alloc_time : Z; oldowner : option nat; fixed_owner : bool }.

Record canvas_pool := Pool {
  canvas_max : Z; free_num : Z; info : list canvas_info; canvas_map : list bool; next_alloced_index : Z }.

Definition set_next (i : Z) (p : canvas_pool) : canvas_pool :=
  Pool (canvas_max p) (free_num p) (info p) (canvas_map p) i.
Definition set_free_num (n : Z) (p : canvas_pool) : canvas_pool :=
  Pool (canvas_max p) n (info p) (canvas_map p) (next_alloced_index p).

Definition VALID_CANVAS (p : canvas_pool) (n : Z) : bool := (0 <=? n) && (n <? canvas_max p).

(** find_next_zero_bit(map, size, start): the first zero bit, or a number not below [size]. *)
Fixpoint scan (n : nat) (m : list bool) (i : Z) : Z :=
  match n with
  | O => i
  | S n => if m !! Z.to_nat i is Some false then i else scan n m (i + 1)
  end.
Definition find_next_zero_bit (m : list bool) (size start : Z) : Z := scan (Z.to_nat (size - start)) m start.

(** The bit of a canvas, and what is recorded with it. *)
Definition put (i : Z) (b : bool) (f : canvas_info -> canvas_info) (p : canvas_pool) : canvas_pool :=
  Pool (canvas_max p) (free_num p) (alter f (Z.to_nat i) (info p)) (<[Z.to_nat i := b]> (canvas_map p)) (next_alloced_index p).
Definition test_bit (i : Z) (p : canvas_pool) : outcome bool :=
  match (if i <? 0 then None else canvas_map p !! Z.to_nat i) with Some b => Done b | None => Fault end.

Definition own_info (o : nat) (now : Z) (x : canvas_info) : canvas_info := Info (Some o) now (Some o) (fixed_owner x).
Definition free_info (x : canvas_info) : canvas_info := Info None 0 (owner x) (fixed_owner x).
Definition const_info (o : nat) (now : Z) (x : canvas_info) : canvas_info := Info (Some o) now None true.

(** ** Single canvases *)

(** The loop of [canvas_pool_map_alloc_canvas_in]. *)
Fixpoint alloc_loop (fuel : nat) (o : nat) (now : Z) (start_index : Z) (looped : bool) (p : canvas_pool) : outcome (Z * canvas_pool) :=
  match fuel with
  | O => Spin
  | S f =>
      let i := find_next_zero_bit (canvas_map p) (canvas_max p) start_index in
      if negb (VALID_CANVAS p i) then
        if negb looped then alloc_loop f o now 1 true p else Done (-1, p)
      else
        let* b := test_bit i p in
        if b : bool then alloc_loop f o now start_index looped p
        else Done (i, put i true (own_info o now) p)
  end.

Definition canvas_pool_map_alloc_canvas_in (o : nat) (now : Z) (p : canvas_pool) : outcome (Z * canvas_pool) :=
  let start_index := next_alloced_index p in
  let* (index, p) := alloc_loop 3 o now start_index (start_index <=? 1) p in
  if 0 <? index then
    let p := set_next (if index + 1 <? canvas_max p then index + 1 else 1) p in
    Done (index, set_free_num (s32 (free_num p - 1)) p)
  else Done (index, p).

Definition canvas_pool_map_free_canvas (index : Z) (p : canvas_pool) : Z * canvas_pool :=
  if negb (VALID_CANVAS p index) then (-1, p)
  else (0, set_free_num (s32 (free_num p + 1)) (put index false free_info p)).

(** ** Runs of canvases *)

Inductive canvas_map_type_e := CANVAS_MAP_TYPE_1 | CANVAS_MAP_TYPE_NV21 | CANVAS_MAP_TYPE_YUV | CANVAS_MAP_TYPE_4.
Definition type_num (t : canvas_map_type_e) : Z :=
  match t with CANVAS_MAP_TYPE_1 => 1 | CANVAS_MAP_TYPE_NV21 => 2 | CANVAS_MAP_TYPE_YUV => 3 | CANVAS_MAP_TYPE_4 => 4 end.

(** canvas1 .. canvas4; those the type does not use stay 0. *)
Definition alloc_set (t : canvas_map_type_e) (o : nat) (now : Z) (p : canvas_pool) : outcome (Z * Z * Z * Z * canvas_pool) :=
  let* (c1, p) := (if 4 <=? type_num t then canvas_pool_map_alloc_canvas_in o now p else Done (0, p)) in
  let* (c2, p) := (if 3 <=? type_num t then canvas_pool_map_alloc_canvas_in o now p else Done (0, p)) in
  let* (c3, p) := (if 2 <=? type_num t then canvas_pool_map_alloc_canvas_in o now p else Done (0, p)) in
  let* (c4, p) := canvas_pool_map_alloc_canvas_in o now p in
  Done (c1, c2, c3, c4, p).

Definition set_found (t : canvas_map_type_e) (c1 c2 c3 c4 : Z) : bool :=
  match t with
  | CANVAS_MAP_TYPE_4 => (0 <? c1) && (c2 =? c1 + 1) && (c3 =? c2 + 1) && (c4 =? c3 + 1)
  | CANVAS_MAP_TYPE_YUV => (0 <? c2) && (c3 =? c2 + 1) && (c4 =? c3 + 1)
  | CANVAS_MAP_TYPE_NV21 => (0 <? c3) && (c4 =? c3 + 1)
  | CANVAS_MAP_TYPE_1 => 0 <? c4
  end.
Definition set_value (t : canvas_map_type_e) (c1 c2 c3 c4 : Z) : Z :=
  u32 match t with
      | CANVAS_MAP_TYPE_4 => c1 .| (c2 << 8) .| (c3 << 16) .| (c4 << 24)
      | CANVAS_MAP_TYPE_YUV => c2 .| (c3 << 8) .| (c4 << 16)
      | CANVAS_MAP_TYPE_NV21 => c3 .| (c4 << 8) .| (c4 << 16)
      | CANVAS_MAP_TYPE_1 => c4
      end.

Definition free_pos (c : Z) (p : canvas_pool) : canvas_pool :=
  if 0 <? c then snd (canvas_pool_map_free_canvas c p) else p.

(** The retries; [start] is the position of the first attempt. *)
Fixpoint continue_loop (retries : nat) (t : canvas_map_type_e) (o : nat) (now start : Z) (p : canvas_pool) : outcome (option Z * canvas_pool) :=
  let* (c1, c2, c3, c4, p) := alloc_set t o now p in
  if set_found t c1 c2 c3 c4 then Done (Some (set_value t c1 c2 c3 c4), p)
  else
    let p := free_pos c4 (free_pos c3 (free_pos c2 (free_pos c1 p))) in
    let p := set_next (if start + 1 <? canvas_max p - type_num t then start + 1 else 1) p in
    match retries with
    | O => Done (None, p)
    | S r => continue_loop r t o now start p
    end.

Definition canvas_pool_map_alloc_canvas_continue_set (t : canvas_map_type_e) (o : nat) (now : Z) (p : canvas_pool)
    : outcome (option Z * canvas_pool) :=
  continue_loop (Z.to_nat (canvas_max p)) t o now (next_alloced_index p) p.

(** One word of a table: the four bytes, each freed unless it repeats one before. *)
Definition free_word (v : Z) (p : canvas_pool) : canvas_pool :=
  let c1 := v .& 0xff in
  let c2 := (v >> 8) .& 0xff in
  let c3 := (v >> 16) .& 0xff in
  let c4 := (v >> 24) .& 0xff in
  let p := if 0 <=? c1 then snd (canvas_pool_map_free_canvas c1 p) else p in
  let p := if (0 <=? c2) && negb (c2 =? c1) then snd (canvas_pool_map_free_canvas c2 p) else p in
  let p := if (0 <=? c3) && negb (c3 =? c2) && negb (c3 =? c1) then snd (canvas_pool_map_free_canvas c3 p) else p in
  if (0 <=? c4) && negb (c4 =? c3) && negb (c4 =? c2) && negb (c4 =? c1) then snd (canvas_pool_map_free_canvas c4 p) else p.

Definition canvas_pool_free_canvas_table (tab : list Z) (p : canvas_pool) : canvas_pool := fold_left (fun p v => free_word v p) tab p.

(** The words allocated so far, and whether one failed. *)
Fixpoint table_loop (size : nat) (t : canvas_map_type_e) (o : nat) (now : Z) (tab : list Z) (p : canvas_pool)
    : outcome (bool * list Z * canvas_pool) :=
  match size with
  | O => Done (true, tab, p)
  | S n =>
      let* (v, p) := canvas_pool_map_alloc_canvas_continue_set t o now p in
      match v with
      | Some v => table_loop n t o now (tab ++ [v]) p
      | None => Done (false, tab, p)
      end
  end.

(** Result, table, pool; on an error what was allocated is freed. *)
Definition canvas_pool_alloc_canvas_table (t : canvas_map_type_e) (o : nat) (now : Z) (size : nat) (p : canvas_pool)
    : outcome (Z * list Z * canvas_pool) :=
  let oldstart := next_alloced_index p in
  let* (okay, tab, p) := table_loop size t o now [] p in
  if okay : bool then
    let p := set_next (oldstart + 1) p in
    Done (0, tab, if canvas_max p <=? next_alloced_index p then set_next 1 p else p)
  else Done (-1, replicate (length tab) 0, canvas_pool_free_canvas_table tab p).

(** ** Fixed canvases *)

Fixpoint register_from (n : nat) (i : Z) (o : nat) (now : Z) (p : canvas_pool) : outcome canvas_pool :=
  match n with
  | O => Done p
  | S n => let* _ := test_bit i p in register_from n (i + 1) o now (put i true (const_info o now) p)
  end.
Definition canvas_pool_register_const_canvas (start_index finish : Z) (o : nat) (now : Z) (p : canvas_pool) : outcome canvas_pool :=
  register_from (Z.to_nat (finish - start_index + 1)) start_index o now p.

Definition canvas_pool_canvas_alloced (index : Z) (p : canvas_pool) : bool :=
  if (index <? 0) || (canvas_max p <=? index) then false
  else match test_bit index p with Done b => b | _ => false end.

(** The fixed canvases of an owner, at most [size] of them. *)
Fixpoint static_from (n : nat) (i : Z) (o : nat) (size : nat) (p : canvas_pool) : list Z :=
  match n, size with
  | S n, S size' =>
      match canvas_map p !! Z.to_nat i, info p !! Z.to_nat i with
      | Some true, Some x =>
          if fixed_owner x && bool_decide (owner x = Some o) then i :: static_from n (i + 1) o size' p
          else static_from n (i + 1) o size p
      | _, _ => static_from n (i + 1) o size p
      end
  | _, _ => []
  end.
Definition canvas_pool_get_static_canvas_by_name (o : nat) (size : nat) (p : canvas_pool) : list Z :=
  static_from (Z.to_nat (canvas_max p)) 0 o size p.

Definition canvas_pool_get_canvas_info (index : Z) (p : canvas_pool) : option canvas_info :=
  if VALID_CANVAS p index then info p !! Z.to_nat index else None.

(** Owners of the fixed canvases. *)
Definition amvdec : nat := 0.
Definition vdin : nat := 1.
Definition display : nat := 2.
Definition osd : nat := 3.
Definition encoder : nat := 4.
Definition display2 : nat := 5.

Definition canvas_pool_init (s1a : bool) : canvas_pool :=
  let m := if s1a then CANVAS_S1A_MAX_NUM else CANVAS_MAX_NUM in
  Pool m 0 (replicate 256 (Info None 0 None false)) (replicate 256 false) (m / 2).

Definition canvas_pool_config (s1a hw_canvas_support : bool) (now : Z) : outcome canvas_pool :=
  let p := canvas_pool_init s1a in
  let* p :=
    (if s1a then
       let* p := canvas_pool_register_const_canvas 0 0x30 amvdec now p in
       let* p := canvas_pool_register_const_canvas 0x58 0x63 display now p in
       canvas_pool_register_const_canvas 0x40 0x44 osd now p
     else
       let* p := canvas_pool_register_const_canvas 0 0x1a amvdec now p in
       let* p := canvas_pool_register_const_canvas 0x22 0x39 vdin now p in
       let* p := canvas_pool_register_const_canvas 0x78 0xbf amvdec now p in
       let* p := canvas_pool_register_const_canvas 0x58 0x6f display now p in
       canvas_pool_register_const_canvas 0x40 0x48 osd now p) in
  let* p := canvas_pool_register_const_canvas 0xe4 0xef encoder now p in
  if hw_canvas_support then Done p else canvas_pool_register_const_canvas 0xd8 0xe3 display2 now p.

(** ** The hardware table (canvas.c) *)

Record canvas_s := Canvas {
  addr : Z; width : Z; height : Z; wrap : Z; blkmode : Z; endian : Z; dataL : Z; dataH : Z }.

Definition CANVAS_ADDR_LMASK : Z := 0x1fffffff.
Definition CANVAS_HEIGHT_MASK : Z := 0x1fff.

(** Low and high word; [addr] is an unsigned long, the rest u32. *)
Definition canvas_lut_data_build (c : canvas_s) : Z * Z :=
  let addr_bits_l := u32 ((u64 (addr c + 7) >> 3) .& CANVAS_ADDR_LMASK) in
  let width_l := u32 (((u32 (width c + 7) >> 3) .& 0x7) << 29) in
  let width_h := (u32 (width c + 7) >> 3) >> 3 in
  let height_h := u32 ((height c .& CANVAS_HEIGHT_MASK) << 9) in
  let wrap_h := wrap c .& 3 in
  let blkmod_h := u32 ((blkmode c .& 3) << 24) in
  let switch_bits_ctl := u32 ((endian c .& 0xf) << 26) in
  (addr_bits_l .| width_l, width_h .| height_h .| wrap_h .| blkmod_h .| switch_bits_ctl).

(** What is parsed, with the words themselves. *)
Definition canvas_lut_data_parser (data_l data_h : Z) : canvas_s :=
  Canvas (u32 ((data_l .& CANVAS_ADDR_LMASK) << 3))
         (u32 ((((data_l >> 29) .& 0x7) .| ((data_h .& 0x1ff) << 3)) << 3))
         ((data_h >> 9) .& 0xfff)
         ((data_h >> 22) .& 3)
         ((data_h >> 24) .& 3)
         ((data_h >> 26) .& 0xf)
         data_l data_h.

(** The driver's copy of the table, the table of the hardware, the pool. *)
Record canvas_dev := Dev { canvasPool : list canvas_s; lut : list (Z * Z); pool : canvas_pool }.

Definition set_words (w : Z * Z) (c : canvas_s) : canvas_s :=
  Canvas (addr c) (width c) (height c) (wrap c) (blkmode c) (endian c) w.1 w.2.

(** [p] is the entry [index] of the driver's copy; the write of DC_CAV_LUT_ADDR stores the two
    data words in the entry of the hardware. *)
Definition canvas_config_locked (hw : bool) (index : Z) (d : canvas_dev) : canvas_dev :=
  if negb hw then d
  else match canvasPool d !! Z.to_nat index with
       | Some c =>
           let w := canvas_lut_data_build c in
           Dev (<[Z.to_nat index := set_words w c]> (canvasPool d)) (<[Z.to_nat index := w]> (lut d)) (pool d)
       | None => d
       end.

Definition CANVAS_VALID (d : canvas_dev) (n : Z) : bool := n <? canvas_max (pool d).

(** The assignments to one entry of the copy. *)
Definition edit_canvas (index : Z) (f : canvas_s -> canvas_s) (d : canvas_dev) : canvas_dev :=
  Dev (alter f (Z.to_nat index) (canvasPool d)) (lut d) (pool d).

Definition canvas_config_ex (hw : bool) (index a w h wr blk en : Z) (d : canvas_dev) : canvas_dev :=
  if negb (CANVAS_VALID d index) then d
  else if negb (canvas_pool_canvas_alloced index (pool d)) then d
  else canvas_config_locked hw index (edit_canvas index (fun c => Canvas a w h wr blk en (dataL c) (dataH c)) d).

Record canvas_config_s := Config { phy_addr : Z; cwidth : Z; cheight : Z; block_mode : Z; cendian : Z }.

Definition canvas_config_config (hw : bool) (index : Z) (cfg : canvas_config_s) (d : canvas_dev) : canvas_dev :=
  canvas_config_ex hw index (phy_addr cfg) (cwidth cfg) (cheight cfg) 0 (block_mode cfg) (cendian cfg) d.
Definition canvas_config (hw : bool) (index a w h wr blk : Z) (d : canvas_dev) : canvas_dev :=
  canvas_config_ex hw index a w h wr blk 0 d.

Definition canvas_read (index : Z) (d : canvas_dev) : option canvas_s :=
  if CANVAS_VALID d index then canvasPool d !! Z.to_nat index else None.

(** The descriptor the hardware has; nothing without hardware support or with a bad index. *)
Definition canvas_read_hw (hw : bool) (index : Z) (d : canvas_dev) : Z * option canvas_s :=
  if negb hw then (0, None)
  else if negb (CANVAS_VALID d index) then (-1, None)
  else (0, (fun w => canvas_lut_data_parser w.1 w.2) <$> lut d !! Z.to_nat (index .& 0xff)).

Definition canvas_copy (hw : bool) (src dst : Z) (d : canvas_dev) : canvas_dev :=
  if negb (CANVAS_VALID d src) || negb (CANVAS_VALID d dst) then d
  else if negb (canvas_pool_canvas_alloced src (pool d)) || negb (canvas_pool_canvas_alloced dst (pool d)) then d
  else match canvasPool d !! Z.to_nat src with
       | Some c => canvas_config_locked hw dst (edit_canvas dst (fun _ => c) d)
       | None => d
       end.

Definition canvas_update_addr (hw : bool) (index a : Z) (d : canvas_dev) : canvas_dev :=
  if negb (CANVAS_VALID d index) then d
  else if negb (canvas_pool_canvas_alloced index (pool d)) then d
  else canvas_config_locked hw index
         (edit_canvas index (fun c => Canvas a (width c) (height c) (wrap c) (blkmode c) (endian c) (dataL c) (dataH c)) d).

(** The address is read without a check of the index. *)
Definition canvas_get_addr (index : Z) (d : canvas_dev) : outcome Z :=
  match canvasPool d !! Z.to_nat index with Some c => Done (addr c) | None => Fault end.
Definition canvas_get_width (index : Z) (d : canvas_dev) : outcome Z :=
  if negb (CANVAS_VALID d index) then Done 0
  else match canvasPool d !! Z.to_nat index with Some c => Done (width c) | None => Fault end.
Definition canvas_get_height (index : Z) (d : canvas_dev) : outcome Z :=
  if negb (CANVAS_VALID d index) then Done 0
  else match canvasPool d !! Z.to_nat index with Some c => Done (height c) | None => Fault end.

End Canvas.
