(* ===== verification/CanvasSpec.v ===== *)
(** * Canvases: what the pool promises

    The pool hands out free indices only, in cyclic order; a run of canvases is
    consecutive and its word names exactly its members; giving a table back
    leaves every canvas above 0 as it was; the words of the hardware table
    describe the canvas they were built from. *)

From S2P Require Import Prelude Mem Canvas.
From stdpp Require Import base list numbers sets relations.
From Stdlib Require Import ZArith Lia.

Local Open Scope Z_scope.
Local Open Scope cint_scope.

Module CanvasSpec.
Import Canvas.

(** ** The invariant *)

(** Canvas [j] is marked used ([b]). *)
Definition bit (p : canvas_pool) (j : Z) : option bool := canvas_map p !! Z.to_nat j.

Record wf (p : canvas_pool) : Prop := {
  wf_map : length (canvas_map p) = 256%nat;
  wf_info : length (info p) = 256%nat;
  wf_max : 2 <= canvas_max p <= 256;
  wf_next : 1 <= next_alloced_index p < canvas_max p }.

Lemma bit_total p j : wf p -> j < canvas_max p -> exists b, bit p j = Some b.
Proof.
  intros [Hm _ Hx _] Hj. unfold bit. apply lookup_lt_is_Some_2. lia.
Qed.

(** All canvases from [lo] below [hi] are used. *)
Definition all_used (p : canvas_pool) (lo hi : Z) : Prop := forall j, lo <= j < hi -> bit p j = Some true.

(** Pools that differ only in what is recorded, not in which canvases are used. *)
Definition took (p : canvas_pool) (l : list Z) (p' : canvas_pool) : Prop :=
  wf p' /\ canvas_max p' = canvas_max p /\ NoDup l /\
  Forall (fun i => 0 < i < canvas_max p /\ bit p i = Some false) l /\
  forall j, 0 <= j -> bit p' j = if decide (j ∈ l) then Some true else bit p j.

(** ** Updates of the map *)

Lemma bit_put p i j b f : wf p -> 0 <= i < canvas_max p -> 0 <= j ->
  bit (put i b f p) j = if decide (j = i) then Some b else bit p j.
Proof.
  intros [Hm _ Hx _] Hi Hj. unfold bit, put. cbn. case_decide as E.
  - subst. rewrite list_lookup_insert_eq by lia. done.
  - by rewrite list_lookup_insert_ne by lia.
Qed.

Lemma wf_put p i b f : wf p -> wf (put i b f p).
Proof. intros []. split; cbn; rewrite ?length_insert, ?length_alter; done. Qed.

Lemma wf_set_next p i : wf p -> 1 <= i < canvas_max p -> wf (set_next i p).
Proof. intros [] ?. by split. Qed.

Lemma wf_set_free_num p n : wf p -> wf (set_free_num n p).
Proof. intros []. by split. Qed.



(** ** The search *)

Lemma scan_spec n m i : 0 <= i -> (Z.to_nat i + n <= length m)%nat ->
  let r := scan n m i in
  i <= r <= i + Z.of_nat n /\ (forall j, i <= j < r -> m !! Z.to_nat j = Some true) /\
  (r < i + Z.of_nat n -> m !! Z.to_nat r = Some false).
Proof.
  revert i. induction n as [|n IH]; intros i Hi Hn; cbn; [split; [lia|split; intros; lia]|].
  destruct (lookup_lt_is_Some_2 m (Z.to_nat i)) as [b Hb]; [lia|]. rewrite Hb. destruct b.
  - destruct (IH (i + 1)) as (H1 & H2 & H3); [lia..|]. cbn in *. split; [lia|]. split.
    + intros j Hj. destruct (decide (j = i)) as [->|]; [done|]. apply H2. lia.
    + intros. apply H3. lia.
  - split; [lia|]. split; [intros; lia|done].
Qed.

Lemma find_spec p start : wf p -> 1 <= start <= canvas_max p ->
  let r := find_next_zero_bit (canvas_map p) (canvas_max p) start in
  start <= r <= canvas_max p /\ all_used p start r /\ (r < canvas_max p -> bit p r = Some false).
Proof.
  intros [Hm _ Hx _] Hs. unfold find_next_zero_bit.
  destruct (scan_spec (Z.to_nat (canvas_max p - start)) (canvas_map p) start) as (H1 & H2 & H3); [lia..|].
  cbn in *. rewrite Z2Nat.id in H1, H3 by lia. split; [lia|]. split; [exact H2|]. intros. apply H3. lia.
Qed.

(** The pool after canvas [i] was handed to [o]. *)
Definition handed (o : nat) (now i : Z) (p : canvas_pool) : canvas_pool :=
  set_free_num (s32 (free_num p - 1))
    (set_next (if i + 1 <? canvas_max p then i + 1 else 1) (put i true (own_info o now) p)).

(** The first free canvas from [start], then from 1. *)
Definition cyclic_first (p : canvas_pool) (start i : Z) : Prop :=
  (start <= i /\ all_used p start i) \/ (i < start /\ all_used p start (canvas_max p) /\ all_used p 1 i).

Lemma alloc_take f o now start looped p :
  wf p -> 1 <= start < canvas_max p ->
  let i := find_next_zero_bit (canvas_map p) (canvas_max p) start in
  i < canvas_max p ->
  alloc_loop (S f) o now start looped p = Done (i, put i true (own_info o now) p).
Proof.
  intros Hw Hs i Hi. destruct (find_spec p start Hw) as (H1 & _ & H3); [lia|]. fold i in H1, H3.
  cbn [alloc_loop]. fold i. unfold VALID_CANVAS.
  rewrite (proj2 (Z.leb_le _ _)), (proj2 (Z.ltb_lt _ _)) by lia. cbn.
  unfold test_bit. rewrite (proj2 (Z.ltb_ge _ _)) by lia. specialize (H3 Hi). unfold bit in H3. by rewrite H3.
Qed.

Lemma alloc_none f o now start looped p :
  wf p -> 1 <= start < canvas_max p ->
  find_next_zero_bit (canvas_map p) (canvas_max p) start = canvas_max p ->
  alloc_loop (S f) o now start looped p = if looped then Done (-1, p) else alloc_loop f o now 1 true p.
Proof.
  intros Hw Hs Hi. cbn [alloc_loop]. rewrite Hi. unfold VALID_CANVAS.
  rewrite (proj2 (Z.ltb_ge (canvas_max p) _)) by lia. rewrite andb_false_r. cbn. by destruct looped.
Qed.

(** One allocation: the first free canvas in cyclic order, or -1 when every canvas above 0 is used. *)
Lemma alloc_in_cases o now p : wf p ->
  (canvas_pool_map_alloc_canvas_in o now p = Done (-1, p) /\ all_used p 1 (canvas_max p)) \/
  exists i, canvas_pool_map_alloc_canvas_in o now p = Done (i, handed o now i p) /\
    0 < i < canvas_max p /\ bit p i = Some false /\ cyclic_first p (next_alloced_index p) i.
Proof.
  intros Hw. pose proof (wf_next p Hw) as Hn. pose proof (wf_max p Hw) as Hm.
  unfold canvas_pool_map_alloc_canvas_in. set (s := next_alloced_index p) in *.
  destruct (find_spec p s Hw) as (H1 & H2 & H3); [lia|].
  set (i := find_next_zero_bit (canvas_map p) (canvas_max p) s) in *.
  destruct (Z.lt_ge_cases i (canvas_max p)) as [Hi|Hi].
  { right. exists i. rewrite alloc_take by done. fold i. cbn. rewrite (proj2 (Z.ltb_lt 0 i)) by lia.
    split; [done|]. split; [lia|]. split; [by apply H3|]. left. split; [lia|done]. }
  assert (Ei : i = canvas_max p) by lia. rewrite alloc_none by done. rewrite Ei in H2.
  destruct (s <=? 1) eqn:Es; b2p.
  { left. split; [done|]. by replace 1 with s by lia. }
  destruct (find_spec p 1 Hw) as (K1 & K2 & K3); [lia|].
  set (k := find_next_zero_bit (canvas_map p) (canvas_max p) 1) in *.
  destruct (Z.lt_ge_cases k (canvas_max p)) as [Hk|Hk].
  - right. exists k. rewrite alloc_take by (done || lia). fold k. cbn. rewrite (proj2 (Z.ltb_lt 0 k)) by lia.
    assert (k < s).
    { apply Z.nle_gt. intros Hsk. specialize (H2 k). rewrite (K3 Hk) in H2. discriminate H2. lia. }
    split; [done|]. split; [lia|]. split; [by apply K3|]. right. done.
  - left. rewrite alloc_none by (done || lia). split; [done|]. by replace (canvas_max p) with k by lia.
Qed.

Lemma bit_handed o now i p j : wf p -> 0 < i < canvas_max p -> 0 <= j ->
  bit (handed o now i p) j = if decide (j = i) then Some true else bit p j.
Proof. intros. rewrite <- (bit_put p i j true (own_info o now)) by (done || lia). done. Qed.

Lemma wf_handed o now i p : wf p -> 0 < i < canvas_max p -> wf (handed o now i p).
Proof.
  intros Hw Hi. unfold handed. apply wf_set_free_num, wf_set_next; [by apply wf_put|]. cbn.
  pose proof (wf_max p Hw). case_if; lia.
Qed.

(** ** Taking and giving back *)

Lemma took_nil p : wf p -> took p [] p.
Proof. intros Hw. split_and!; [done|done|constructor|constructor|]. intros j _. by rewrite decide_False by set_solver. Qed.

Lemma took_trans p l p' l' p'' : took p l p' -> took p' l' p'' -> took p (l ++ l') p''.
Proof.
  intros (W & M & N & F & B) (W' & M' & N' & F' & B'). split_and!; [done|congruence| | |].
  - apply NoDup_app. split_and!; [done| |done]. intros x Hx Hx'.
    rewrite Forall_forall in F'. destruct (F' x Hx') as [Hr Hb].
    rewrite B, decide_True in Hb by (done || lia). discriminate.
  - apply Forall_app. split; [done|]. rewrite Forall_forall in F' |- *. intros x Hx.
    destruct (F' x Hx) as [Hr Hb]. rewrite M in Hr. split; [done|].
    rewrite B in Hb by lia. case_decide; congruence.
  - intros j Hj. rewrite B', B by done. repeat case_decide; rewrite elem_of_app in *; naive_solver.
Qed.

Lemma took_handed o now i p : wf p -> 0 < i < canvas_max p -> bit p i = Some false -> took p [i] (handed o now i p).
Proof.
  intros Hw Hi Hb. split_and!; [by apply wf_handed|done|apply NoDup_singleton|by constructor|].
  intros j Hj. rewrite bit_handed by done. repeat case_decide; rewrite list_elem_of_singleton in *; naive_solver.
Qed.

Lemma took_set_next p l p' n : took p l p' -> 1 <= n < canvas_max p -> took p l (set_next n p').
Proof.
  intros (W & M & N & F & B) Hn. split_and!; [apply wf_set_next; [done|]; lia|done..].
Qed.

(** A canvas freed. *)
Definition gave (index : Z) (p : canvas_pool) : canvas_pool :=
  set_free_num (s32 (free_num p + 1)) (put index false free_info p).

Lemma free_canvas_valid i p : 0 <= i < canvas_max p -> canvas_pool_map_free_canvas i p = (0, gave i p).
Proof.
  intros. unfold canvas_pool_map_free_canvas, VALID_CANVAS.
  by rewrite (proj2 (Z.leb_le _ _)), (proj2 (Z.ltb_lt _ _)) by lia.
Qed.

Lemma free_canvas_wf i p : wf p ->
  wf (canvas_pool_map_free_canvas i p).2 /\ canvas_max (canvas_pool_map_free_canvas i p).2 = canvas_max p.
Proof.
  intros Hw. unfold canvas_pool_map_free_canvas. case_if; [done|]. cbn. split; [|done].
  by apply wf_set_free_num, wf_put.
Qed.

Lemma free_canvas_bit i p j : wf p -> 0 <= i -> 0 <= j ->
  bit (canvas_pool_map_free_canvas i p).2 j = if decide (j = i /\ i < canvas_max p) then Some false else bit p j.
Proof.
  intros Hw Hi Hj. destruct (Z.lt_ge_cases i (canvas_max p)).
  - rewrite free_canvas_valid by lia. cbn. change (bit (gave i p) j) with (bit (put i false free_info p) j).
    rewrite bit_put by (done || lia). repeat case_decide; naive_solver.
  - rewrite decide_False by lia. unfold canvas_pool_map_free_canvas, VALID_CANVAS.
    rewrite (proj2 (Z.ltb_ge _ _)) by lia. by rewrite andb_false_r.
Qed.

(** The positive ones of a list: unused and failed positions are 0 and -1. *)
Definition pos (l : list Z) : list Z := filter (fun c => 0 < c) l.

Lemma took_free_pos p c l p' : took p (pos (c :: l)) p' -> took p (pos l) (free_pos c p').
Proof.
  unfold pos, free_pos. rewrite filter_cons. case_decide as Hc; intros HT.
  2: { by rewrite (proj2 (Z.ltb_ge _ _)) by lia. }
  rewrite (proj2 (Z.ltb_lt _ _)) by lia. destruct HT as (W & M & N & F & B).
  apply NoDup_cons in N as [Hn N]. apply Forall_cons in F as [[Hr Hb] F].
  destruct (free_canvas_wf c p' W) as [W' M']. split_and!; [done|congruence|done|done|].
  intros j Hj. rewrite free_canvas_bit, B by (done || lia).
  destruct (decide (j = c)) as [->|Hne].
  - rewrite decide_True by (split; [done|]; lia). by rewrite decide_False.
  - rewrite (decide_False (P := j = c /\ _)) by naive_solver.
    destruct (decide (j ∈ filter (λ c0 : Z, 0 < c0) l)).
    + by rewrite decide_True by set_solver.
    + rewrite decide_False; [done|]. rewrite elem_of_cons. intuition.
Qed.

(** One step of [alloc_set]: what was taken grows by the result. *)
Lemma took_alloc o now p l p' : took p (pos l) p' ->
  exists c p'', canvas_pool_map_alloc_canvas_in o now p' = Done (c, p'') /\ took p (pos (l ++ [c])) p''.
Proof.
  intros HT. pose proof (proj1 HT) as Hw.
  destruct (alloc_in_cases o now p' Hw) as [[-> _]|(i & -> & Hi & Hb & _)].
  - exists (-1), p'. split; [done|]. unfold pos. rewrite filter_app, filter_cons_False by lia. cbn. by rewrite app_nil_r.
  - exists i, (handed o now i p'). split; [done|]. unfold pos. rewrite filter_app, filter_cons_True by lia.
    eapply took_trans; [done|]. by apply took_handed.
Qed.

Lemma took_skip p l p' : took p (pos l) p' -> took p (pos (l ++ [0])) p'.
Proof. unfold pos. rewrite filter_app, filter_cons_False by lia. by rewrite app_nil_r. Qed.

Lemma took_step (b : bool) o now p l p' : took p (pos l) p' ->
  exists c p'', (if b then canvas_pool_map_alloc_canvas_in o now p' else Done (0, p')) = Done (c, p'') /\
    took p (pos (l ++ [c])) p'' /\ (b = false -> c = 0).
Proof.
  intros HT. destruct b.
  - destruct (took_alloc o now p l p' HT) as (c & p'' & E & T). by exists c, p''.
  - exists 0, p'. split; [done|]. split; [by apply took_skip|done].
Qed.

Lemma alloc_set_took t o now p : wf p ->
  exists c1 c2 c3 c4 p', alloc_set t o now p = Done (c1, c2, c3, c4, p') /\ took p (pos [c1; c2; c3; c4]) p' /\
    (type_num t < 4 -> c1 = 0) /\ (type_num t < 3 -> c2 = 0) /\ (type_num t < 2 -> c3 = 0).
Proof.
  intros Hw. pose proof (took_nil p Hw) as T0. unfold alloc_set.
  destruct (took_step (4 <=? type_num t) o now p [] p T0) as (c1 & p1 & -> & T1 & Z1). cbn [obind].
  destruct (took_step (3 <=? type_num t) o now p _ p1 T1) as (c2 & p2 & -> & T2 & Z2). cbn [obind].
  destruct (took_step (2 <=? type_num t) o now p _ p2 T2) as (c3 & p3 & -> & T3 & Z3). cbn [obind].
  destruct (took_alloc o now p _ p3 T3) as (c4 & p4 & -> & T4). cbn [obind].
  exists c1, c2, c3, c4, p4. split; [done|]. split; [exact T4|].
  split_and!; intros; [apply Z1|apply Z2|apply Z3]; apply Z.leb_gt; lia.
Qed.

(** The word of the run that starts at [b]. *)
Definition run_word (t : canvas_map_type_e) (b : Z) : Z :=
  match t with
  | CANVAS_MAP_TYPE_4 => set_value t b (b + 1) (b + 2) (b + 3)
  | CANVAS_MAP_TYPE_YUV => set_value t 0 b (b + 1) (b + 2)
  | CANVAS_MAP_TYPE_NV21 => set_value t 0 0 b (b + 1)
  | CANVAS_MAP_TYPE_1 => set_value t 0 0 0 b
  end.

Lemma set_found_run t c1 c2 c3 c4 :
  (type_num t < 4 -> c1 = 0) -> (type_num t < 3 -> c2 = 0) -> (type_num t < 2 -> c3 = 0) ->
  set_found t c1 c2 c3 c4 = true ->
  exists b, 0 < b /\ pos [c1; c2; c3; c4] = seqZ b (type_num t) /\ set_value t c1 c2 c3 c4 = run_word t b.
Proof.
  intros Z1 Z2 Z3 HF.
  destruct t; cbn [set_found type_num] in *; b2p; subst;
    rewrite ?Z1, ?Z2, ?Z3 by lia;
    [exists c4|exists c3|exists c2|exists c1]; (split; [done|]; split;
    [unfold pos; repeat first [rewrite filter_cons_True by lia | rewrite filter_cons_False by lia]; cbn;
     repeat (apply (f_equal2 cons); [lia|]); reflexivity
    |unfold run_word; f_equal; lia]).
Qed.

(** A run taken, or nothing: the retries leave the map as it was. *)
Lemma continue_loop_spec r t o now start p0 p : 1 <= start < canvas_max p0 -> took p0 [] p ->
  exists v p', continue_loop r t o now start p = Done (v, p') /\
    match v with
    | Some w => exists b, 0 < b /\ w = run_word t b /\ took p0 (seqZ b (type_num t)) p'
    | None => took p0 [] p'
    end.
Proof.
  revert p. induction r as [|r IH]; intros p Hs HT;
  (assert (Hw : wf p) by apply HT;
   destruct (alloc_set_took t o now p Hw) as (c1 & c2 & c3 & c4 & p1 & E & T1 & Z1 & Z2 & Z3);
   cbn [continue_loop]; rewrite E; cbn [obind];
   pose proof (took_trans _ _ _ _ _ HT T1) as T0; cbn [app] in T0;
   destruct (set_found t c1 c2 c3 c4) eqn:EF;
   [destruct (set_found_run t c1 c2 c3 c4 Z1 Z2 Z3 EF) as (b & Hb & Eb & Ev);
    eexists _, _; split; [reflexivity|]; exists b; rewrite Eb in T0; by split_and!|];
   apply took_free_pos, took_free_pos, took_free_pos, took_free_pos in T0;
   set (q := free_pos c4 _) in *;
   assert (Hq : canvas_max q = canvas_max p0) by apply T0;
   assert (2 <= canvas_max q) by (pose proof (wf_max q (proj1 T0)); lia);
   assert (1 <= type_num t) by (destruct t; cbn; lia);
   assert (TN : took p0 [] (set_next (if start + 1 <? canvas_max q - type_num t then start + 1 else 1) q))
     by (apply took_set_next; [exact T0|]; case_if; lia)).
  - eexists _, _; by split.
  - by apply IH.
Qed.

Lemma continue_set_spec t o now p : wf p ->
  exists v p', canvas_pool_map_alloc_canvas_continue_set t o now p = Done (v, p') /\
    match v with
    | Some w => exists b, 0 < b /\ w = run_word t b /\ took p (seqZ b (type_num t)) p'
    | None => took p [] p'
    end.
Proof. intros Hw. apply continue_loop_spec; [apply Hw|by apply took_nil]. Qed.

(** ** Tables *)

(** The canvases above 0 a word names. *)
Definition members (v : Z) : list Z := remove_dups (pos (le32 v)).
Definition table_members (tab : list Z) : list Z := concat (members <$> tab).

Lemma elem_members v j : 0 < j -> j ∈ members v <-> j ∈ le32 v.
Proof. intros Hj. unfold members, pos. rewrite elem_of_remove_dups, list_elem_of_filter. tauto. Qed.

Lemma elem_members_pos v j : j ∈ members v -> 0 < j.
Proof. unfold members, pos. rewrite elem_of_remove_dups, list_elem_of_filter. tauto. Qed.

Lemma members_run_all : forall t,
  forallb (fun b => (256 <? b + type_num t) || bool_decide (members (run_word t b) = seqZ b (type_num t))) (seqZ 1 255) = true.
Proof. intros []; vm_compute; reflexivity. Qed.

Lemma members_run t b : 0 < b -> b + type_num t <= 256 -> members (run_word t b) = seqZ b (type_num t).
Proof.
  intros Hb Hn. pose proof (members_run_all t) as H. rewrite forallb_forall in H.
  specialize (H b). rewrite <- list_elem_of_In, elem_of_seqZ in H.
  assert (1 <= type_num t) by (destruct t; cbn; lia).
  specialize (H ltac:(lia)). rewrite (proj2 (Z.ltb_ge _ _)) in H by lia.
  by apply bool_decide_eq_true in H.
Qed.

Lemma took_run_fits p b n p' : 0 < n -> took p (seqZ b n) p' -> b + n <= canvas_max p.
Proof.
  intros Hn (_ & _ & _ & F & _). rewrite Forall_forall in F.
  destruct (F (b + n - 1)) as [? _]; [apply elem_of_seqZ|]; lia.
Qed.

Lemma free_word_wf v p : wf p -> wf (free_word v p) /\ canvas_max (free_word v p) = canvas_max p.
Proof.
  intros Hw. unfold free_word.
  assert (K : forall (b : bool) c q, wf q /\ canvas_max q = canvas_max p ->
    wf (if b then (canvas_pool_map_free_canvas c q).2 else q) /\
    canvas_max (if b then (canvas_pool_map_free_canvas c q).2 else q) = canvas_max p).
  { intros [] c q [Hq Eq]; [|done]. destruct (free_canvas_wf c q Hq). split; [done|congruence]. }
  by apply K, K, K, K.
Qed.

(** A step of [free_word]: freed unless freed already. *)
Lemma free_step_bit (b : bool) c q j l m : wf q -> canvas_max q = m -> 0 <= c -> 0 < j ->
  (b = false -> c ∈ l) ->
  forall x, bit q j = (if decide (j ∈ l /\ j < m) then Some false else x) ->
  bit (if b then (canvas_pool_map_free_canvas c q).2 else q) j = if decide (j ∈ l ++ [c] /\ j < m) then Some false else x.
Proof.
  intros Hw <- Hc Hj Hb x Hx. destruct b.
  - rewrite free_canvas_bit, Hx by (done || lia).
    repeat case_decide; rewrite elem_of_app, list_elem_of_singleton in *; naive_solver.
  - rewrite Hx. specialize (Hb eq_refl).
    repeat case_decide; rewrite elem_of_app, list_elem_of_singleton in *; naive_solver.
Qed.

Lemma free_word_bit v p j : wf p -> 0 < j ->
  bit (free_word v p) j = if decide (j ∈ members v /\ j < canvas_max p) then Some false else bit p j.
Proof.
  intros Hw Hj.
  assert (E : bit (free_word v p) j = if decide (j ∈ le32 v /\ j < canvas_max p) then Some false else bit p j).
  2: { rewrite E. repeat case_decide; rewrite elem_members in *; naive_solver. }
  unfold free_word, le32.
  set (c1 := v .& 0xff). set (c2 := (v >> 8) .& 0xff). set (c3 := (v >> 16) .& 0xff). set (c4 := (v >> 24) .& 0xff).
  assert (R : forall x, 0 <= x .& 0xff) by (intros; apply Z.land_nonneg; lia).
  assert (R1 : 0 <= c1) by apply R. assert (R2 : 0 <= c2) by apply R.
  assert (R3 : 0 <= c3) by apply R. assert (R4 : 0 <= c4) by apply R.
  rewrite !(proj2 (Z.leb_le 0 _)) by done.
  assert (K : forall (b : bool) c q, wf q /\ canvas_max q = canvas_max p ->
    wf (if b then (canvas_pool_map_free_canvas c q).2 else q) /\
    canvas_max (if b then (canvas_pool_map_free_canvas c q).2 else q) = canvas_max p).
  { intros [] c q [Hq Eq]; [|done]. destruct (free_canvas_wf c q Hq). split; [done|congruence]. }
  assert (M1 := K true c1 p (conj Hw eq_refl)).
  assert (M2 := K (true && negb (c2 =? c1)) c2 _ M1).
  assert (M3 := K (true && negb (c3 =? c2) && negb (c3 =? c1)) c3 _ M2).
  apply (free_step_bit _ c4 _ j [c1; c2; c3] (canvas_max p)); [apply M3|apply M3|done|done| |].
  { intros Hf. rewrite !andb_false_iff, !negb_false_iff, !Z.eqb_eq in Hf.
    destruct Hf as [[[Hf|Hf]|Hf]|Hf]; [discriminate|..]; rewrite !elem_of_cons; tauto. }
  apply (free_step_bit _ c3 _ j [c1; c2] (canvas_max p)); [apply M2|apply M2|done|done| |].
  { intros Hf. rewrite !andb_false_iff, !negb_false_iff, !Z.eqb_eq in Hf.
    destruct Hf as [[Hf|Hf]|Hf]; [discriminate|..]; rewrite !elem_of_cons; tauto. }
  apply (free_step_bit _ c2 _ j [c1] (canvas_max p)); [apply M1|apply M1|done|done| |].
  { intros Hf. rewrite !andb_false_iff, !negb_false_iff, !Z.eqb_eq in Hf.
    destruct Hf as [Hf|Hf]; [discriminate|]; rewrite !elem_of_cons; tauto. }
  apply (free_step_bit true c1 p j [] (canvas_max p)); [done..|].
  rewrite decide_False; [done|]. by intros [?%elem_of_nil _].
Qed.

Lemma free_table_spec tab p : wf p ->
  wf (canvas_pool_free_canvas_table tab p) /\ canvas_max (canvas_pool_free_canvas_table tab p) = canvas_max p /\
  forall j, 0 < j -> bit (canvas_pool_free_canvas_table tab p) j =
    if decide (j ∈ table_members tab /\ j < canvas_max p) then Some false else bit p j.
Proof.
  unfold canvas_pool_free_canvas_table. revert p. induction tab as [|v tab IH]; intros p Hw.
  - split_and!; [done..|]. intros j Hj. rewrite decide_False; [done|]. by intros [?%elem_of_nil _].
  - cbn. destruct (free_word_wf v p Hw) as [W M]. destruct (IH _ W) as (W' & M' & B).
    split_and!; [done|congruence|]. intros j Hj. rewrite B, free_word_bit, M by done.
    assert (EM : j ∈ table_members (v :: tab) <-> j ∈ members v \/ j ∈ table_members tab)
      by (unfold table_members; cbn; apply elem_of_app).
    clear - EM. repeat match goal with |- context [decide ?P] => destruct (decide P) end; first [done|exfalso; tauto].
Qed.

(** The same canvases above 0 are used. *)
Definition same_use (p p' : canvas_pool) : Prop :=
  wf p' /\ canvas_max p' = canvas_max p /\ forall j, 0 < j -> bit p' j = bit p j.

Lemma untake p tab p' : took p (table_members tab) p' -> same_use p (canvas_pool_free_canvas_table tab p').
Proof.
  intros (W & M & N & F & B). destruct (free_table_spec tab p' W) as (W' & M' & B').
  split_and!; [done|congruence|]. intros j Hj. rewrite B', B by lia. rewrite Forall_forall in F.
  case_decide as E; [|case_decide as E2; [|done]].
  - destruct E as [E _]. destruct (F j E). congruence.
  - destruct (F j E2). exfalso. apply E. split; [done|lia].
Qed.

Lemma table_loop_spec n t o now tab p0 p : took p0 (table_members tab) p ->
  exists okay tab' p', table_loop n t o now tab p = Done (okay, tab', p') /\ took p0 (table_members tab') p' /\
    (okay = true -> length tab' = (length tab + n)%nat).
Proof.
  revert tab p. induction n as [|n IH]; intros tab p HT.
  { exists true, tab, p. split; [done|]. split; [done|]. lia. }
  cbn [table_loop]. destruct (continue_set_spec t o now p) as (v & p1 & E & HV); [apply HT|]. rewrite E. cbn [obind].
  destruct v as [w|].
  - destruct HV as (b & Hb & -> & T1).
    assert (Hn : 0 < type_num t) by (destruct t; cbn; lia).
    pose proof (took_run_fits _ _ _ _ Hn T1). pose proof (wf_max p (proj1 HT)).
    destruct (IH (tab ++ [run_word t b]) p1) as (ok & tab' & p' & E' & T' & L').
    { unfold table_members. rewrite fmap_app, concat_app. cbn [fmap list_fmap concat]. rewrite members_run, app_nil_r by lia.
      by eapply took_trans. }
    exists ok, tab', p'. split; [done|]. split; [done|]. intros Hok. rewrite L' by done. rewrite length_app. cbn. lia.
  - exists false, tab, p1. split; [done|]. split; [|done].
    rewrite <- (app_nil_r (table_members tab)). by eapply took_trans.
Qed.

Lemma alloc_table_spec t o now n p : wf p ->
  exists r tab p', canvas_pool_alloc_canvas_table t o now n p = Done (r, tab, p') /\
    ((r = 0 /\ length tab = n /\ took p (table_members tab) p') \/ (r = -1 /\ same_use p p')).
Proof.
  intros Hw. unfold canvas_pool_alloc_canvas_table.
  destruct (table_loop_spec n t o now [] p p (took_nil p Hw)) as (ok & tab & p' & -> & T & L). cbn [obind].
  destruct ok.
  - eexists 0, tab, _. split; [reflexivity|]. left. split; [done|]. split; [by apply L|].
    pose proof (wf_next p Hw). pose proof (wf_max p Hw). cbn. change (canvas_max (set_next _ p')) with (canvas_max p').
    assert (canvas_max p' = canvas_max p) by apply T.
    case_if; [|apply took_set_next; [done|lia]].
    apply (took_set_next p _ p' 1); [done|lia].
  - eexists (-1), _, _. split; [reflexivity|]. right. split; [done|]. by apply untake.
Qed.

(** ** Clients of the pool *)

(** The pool and the tables that were handed out and not given back. *)
Inductive step : canvas_pool * list (list Z) -> canvas_pool * list (list Z) -> Prop :=
  | step_table t o now n p held tab p' :
      canvas_pool_alloc_canvas_table t o now n p = Done (0, tab, p') -> step (p, held) (p', tab :: held)
  | step_refused t o now n p held r tab p' :
      canvas_pool_alloc_canvas_table t o now n p = Done (r, tab, p') -> r <> 0 -> step (p, held) (p', held)
  | step_free p h1 tab h2 :
      step (p, h1 ++ tab :: h2) (canvas_pool_free_canvas_table tab p, h1 ++ h2).

Definition held_canvases (held : list (list Z)) : list Z := concat (table_members <$> held).

(** The canvases above 0 in use are those of the start and those of the tables. *)
Definition inv (p0 : canvas_pool) (w : canvas_pool * list (list Z)) : Prop :=
  wf w.1 /\ canvas_max w.1 = canvas_max p0 /\ NoDup (held_canvases w.2) /\
  Forall (fun i => 0 < i < canvas_max p0 /\ bit p0 i = Some false) (held_canvases w.2) /\
  forall j, 0 < j -> bit w.1 j = if decide (j ∈ held_canvases w.2) then Some true else bit p0 j.

Lemma inv_same p0 p held p' : inv p0 (p, held) -> same_use p p' -> inv p0 (p', held).
Proof.
  intros (W & M & N & F & B) (W' & M' & B'). split_and!; [done|cbn [fst snd] in *; congruence|done|done|].
  intros j Hj. cbn [fst snd] in *. rewrite B' by done. by apply B.
Qed.

Lemma inv_take p0 p held tab p' :
  inv p0 (p, held) -> took p (table_members tab) p' -> inv p0 (p', tab :: held).
Proof.
  intros (W & M & N & F & B) (W' & M' & N' & F' & B'). cbn [fst snd] in *.
  assert (E : held_canvases (tab :: held) = table_members tab ++ held_canvases held) by done.
  assert (D : forall x, x ∈ table_members tab -> bit p0 x = Some false /\ x ∉ held_canvases held /\ 0 < x < canvas_max p0).
  { intros x Hx. rewrite Forall_forall in F'. destruct (F' x Hx) as [Hr Hb]. rewrite B in Hb by lia.
    case_decide; [discriminate|]. split_and!; [done|done|lia|lia]. }
  unfold inv. cbn [fst snd]. rewrite E. split_and!; [done|cbn; congruence| | |].
  - apply NoDup_app. split_and!; [done| |done]. intros x Hx. apply (D x Hx).
  - apply Forall_app. split; [|done]. apply Forall_forall. intros x Hx. split; apply (D x Hx).
  - intros j Hj. cbn [fst snd]. rewrite B', B by lia. clear - E.
    repeat match goal with |- context [decide ?P] => destruct (decide P) end; rewrite elem_of_app in *; first [done|exfalso; tauto].
Qed.

Lemma inv_give p0 p h1 tab h2 :
  inv p0 (p, h1 ++ tab :: h2) -> inv p0 (canvas_pool_free_canvas_table tab p, h1 ++ h2).
Proof.
  intros (W & M & N & F & B). cbn [fst snd] in *. destruct (free_table_spec tab p W) as (W' & M' & B').
  assert (E : held_canvases (h1 ++ tab :: h2) = held_canvases h1 ++ table_members tab ++ held_canvases h2)
    by (unfold held_canvases; by rewrite fmap_app, concat_app).
  assert (E' : held_canvases (h1 ++ h2) = held_canvases h1 ++ held_canvases h2)
    by (unfold held_canvases; by rewrite fmap_app, concat_app).
  rewrite E in N, F, B.
  apply NoDup_app in N as (N1 & D1 & N2). apply NoDup_app in N2 as (N2 & D2 & N3).
  apply Forall_app in F as [F1 F2]. apply Forall_app in F2 as [F2 F3]. rewrite Forall_forall in F2.
  unfold inv. cbn [fst snd]. rewrite E'. split_and!; [done|cbn; congruence| | |].
  - apply NoDup_app. split_and!; [done| |done]. intros x Hx. specialize (D1 x Hx). rewrite elem_of_app in D1. tauto.
  - by apply Forall_app.
  - intros j Hj. cbn [fst snd]. rewrite B', B by lia. specialize (D1 j). specialize (D2 j). specialize (F2 j).
    clear - D1 D2 F2 M. rewrite M.
    repeat match goal with |- context [decide ?P] => destruct (decide P) end;
      rewrite !elem_of_app in *; intuition congruence.
Qed.

Lemma inv_step p0 w w' : inv p0 w -> step w w' -> inv p0 w'.
Proof.
  intros HI HS. destruct HS as [t o now n p held tab p' E|t o now n p held r tab p' E Hr|p h1 tab h2].
  - destruct (alloc_table_spec t o now n p) as (r & tab' & q & E' & [(-> & _ & T)|(-> & T)]); [apply HI| |].
    + rewrite E' in E. injection E as -> ->. by apply (inv_take p0 p).
    + rewrite E' in E. discriminate.
  - destruct (alloc_table_spec t o now n p) as (r' & tab' & q & E' & [(-> & _ & T)|(-> & T)]); [apply HI| |];
      rewrite E' in E; injection E as <- <- <-; [done|]. by apply (inv_same p0 p).
  - by apply inv_give.
Qed.

Lemma inv_start p0 : wf p0 -> inv p0 (p0, []).
Proof. intros Hw. split_and!; [done|done|constructor|constructor|]. intros j _. by rewrite decide_False by apply not_elem_of_nil. Qed.

Lemma inv_reach p0 w w' : inv p0 w -> rtc step w w' -> inv p0 w'.
Proof. intros HI HR. induction HR; [done|]. apply IHHR. by eapply inv_step. Qed.

Lemma config_wf s1a hw now : exists p, canvas_pool_config s1a hw now = Done p /\ wf p.
Proof. destruct s1a, hw; (eexists; split; [vm_compute; reflexivity|split; vm_compute; intuition congruence]). Qed.

Lemma alloced_bit p j : wf p -> 0 <= j < canvas_max p -> canvas_pool_canvas_alloced j p = bool_decide (bit p j = Some true).
Proof.
  intros Hw Hj. unfold canvas_pool_canvas_alloced, test_bit.
  rewrite (proj2 (Z.ltb_ge j 0)), (proj2 (Z.leb_gt _ _)) by lia. cbn.
  destruct (bit_total p j Hw) as [b Hb]; [lia|]. rewrite Hb. unfold bit in Hb. rewrite Hb. by destruct b.
Qed.

(** ** Theorems *)

(** [canvas_pool_map_alloc_canvas] always returns: the first unused canvas at or after the position
    where the last search ended, then from 1 on, marked used and recorded for its owner; or -1, with the
    pool untouched, exactly when every canvas above 0 is used. *)
Theorem alloc_canvas_first_free o now p : wf p ->
  exists i p', canvas_pool_map_alloc_canvas_in o now p = Done (i, p') /\ wf p' /\
    (i = -1 <-> all_used p 1 (canvas_max p)) /\ (i = -1 -> p' = p) /\
    (i <> -1 -> 0 < i < canvas_max p /\ bit p i = Some false /\ cyclic_first p (next_alloced_index p) i /\
      (forall j, 0 <= j -> bit p' j = if decide (j = i) then Some true else bit p j) /\
      (exists x, info p' !! Z.to_nat i = Some x /\ owner x = Some o /\ alloc_time x = now)).
Proof.
  intros Hw. destruct (alloc_in_cases o now p Hw) as [[-> HU]|(i & -> & Hi & Hb & HC)].
  - exists (-1), p. split; [done|]. split; [done|]. split; [by split|]. by split.
  - exists i, (handed o now i p). split_and!; [done|by apply wf_handed| | |].
    + split; [lia|]. intros HU. rewrite HU in Hb by lia. discriminate.
    + lia.
    + intros _. split; [lia|]. split; [done|]. split; [done|]. split.
      * intros j Hj. by apply bit_handed.
      * destruct (lookup_lt_is_Some_2 (info p) (Z.to_nat i)) as [x Hx].
        { rewrite (wf_info p Hw). pose proof (wf_max p Hw). lia. }
        exists (own_info o now x). split; [|done]. cbn. by rewrite list_lookup_alter_eq, Hx.
Qed.

(** An allocation of a table returns, and either hands out as many words as asked, each naming a run of
    consecutive canvases that were all unused, no canvas twice; or answers -1.  Whatever happened, freeing the
    table, as the code does itself on the error path, leaves every canvas above 0 used or unused as it was. *)
Theorem canvas_table_roundtrip t o now n p : wf p ->
  exists r tab p', canvas_pool_alloc_canvas_table t o now n p = Done (r, tab, p') /\
    (r = 0 \/ r = -1) /\
    (r = 0 -> length tab = n /\ NoDup (table_members tab) /\
      Forall (fun i => bit p i = Some false /\ bit p' i = Some true) (table_members tab) /\
      same_use p (canvas_pool_free_canvas_table tab p')) /\
    (r = -1 -> same_use p p').
Proof.
  intros Hw. destruct (alloc_table_spec t o now n p Hw) as (r & tab & p' & E & [(-> & L & T)|(-> & S)]).
  - exists 0, tab, p'. split_and!; [done|by left| |done]. intros _. split_and!; [done|apply T| |by apply untake].
    destruct T as (_ & _ & _ & F & B). rewrite Forall_forall in F |- *. intros i Hi.
    destruct (F i Hi) as [Hr Hb]. split; [done|]. by rewrite B, decide_True by (done || lia).
  - exists (-1), tab, p'. split_and!; [done|by right|done|done].
Qed.

(** C19: from the configured pool, through any sequence of tables allocated, refused and freed, no canvas above 0
    belongs to two tables that are held, nor to a table and to the fixed ranges of the hardware blocks;
    every canvas of a held table passes the check of [canvas_config_ex], and the fixed canvases above 0 stay
    allocated. *)
Theorem no_canvas_shared s1a hw now p0 p held :
  canvas_pool_config s1a hw now = Done p0 -> rtc step (p0, []) (p, held) ->
  NoDup (held_canvases held) /\
  (forall j, j ∈ held_canvases held -> canvas_pool_canvas_alloced j p = true /\ canvas_pool_canvas_alloced j p0 = false) /\
  (forall j, 0 < j -> canvas_pool_canvas_alloced j p0 = true -> canvas_pool_canvas_alloced j p = true).
Proof.
  intros E HR. destruct (config_wf s1a hw now) as (q & E' & W0). rewrite E in E'. injection E' as <-.
  pose proof (inv_reach p0 _ _ (inv_start p0 W0) HR) as (W & M & N & F & B). cbn in *.
  rewrite Forall_forall in F. split_and!; [done| |].
  - intros j Hj. destruct (F j Hj) as [Hr Hb]. rewrite !alloced_bit by (done || lia).
    rewrite B, decide_True, Hb by (done || lia). done.
  - intros j Hj. destruct (Z.lt_ge_cases j (canvas_max p0)).
    + rewrite !alloced_bit by (done || lia). rewrite B by done. case_decide; [done|]. done.
    + unfold canvas_pool_canvas_alloced. rewrite (proj2 (Z.leb_le _ _)) by lia. by rewrite orb_true_r.
Qed.

(** ** The hardware table *)

Lemma round8 x : (8 * x + 7) >> 3 = x.
Proof. rewrite Z.shiftr_div_pow2 by lia. change (2 ^ 3) with 8. symmetry. apply (Z.div_unique _ _ _ 7); lia. Qed.

(** The two words of a canvas in units of 8 bytes, without wrap bits. *)
Lemma lut_words a w h blk en l h' : 0 <= a < 2 ^ 29 -> 0 <= w < 2 ^ 12 -> 0 <= h < 2 ^ 12 -> 0 <= blk < 2 ^ 2 -> 0 <= en < 2 ^ 4 ->
  canvas_lut_data_build (Canvas (8 * a) (8 * w) h 0 blk en l h') =
    (a .| (u32 ((w .& 7) << 29)), (w >> 3) .| (h << 9) .| 0 .| (blk << 24) .| (en << 26)).
Proof.
  intros Ha Hw Hh Hb He. unfold canvas_lut_data_build. cbn [addr width height wrap blkmode endian].
  rewrite (u64_small (8 * a + 7)), (u32_small (8 * w + 7)), !round8 by lia.
  assert (K : forall x n, 0 <= n -> 0 <= x < 2 ^ n -> x .& (2 ^ n - 1) = x)
    by (intros; rewrite land_mask_mod by done; by apply Z.mod_small).
  rewrite (K a 29 ltac:(lia) Ha : a .& CANVAS_ADDR_LMASK = a).
  rewrite (K h 13 ltac:(lia) ltac:(lia) : h .& CANVAS_HEIGHT_MASK = h).
  rewrite (K blk 2 ltac:(lia) Hb : blk .& 3 = blk), (K en 4 ltac:(lia) He : en .& 0xf = en).
  rewrite (u32_small a), (u32_small (h << 9)), (u32_small (blk << 24)), (u32_small (en << 26))
    by (rewrite ?Z.shiftl_mul_pow2 by lia; lia).
  done.
Qed.

Lemma lut_parse a w h blk en : 0 <= a < 2 ^ 29 -> 0 <= w < 2 ^ 12 -> 0 <= h < 2 ^ 12 -> 0 <= blk < 2 ^ 2 -> 0 <= en < 2 ^ 4 ->
  let dl := a .| (u32 ((w .& 7) << 29)) in
  let dh := (w >> 3) .| (h << 9) .| 0 .| (blk << 24) .| (en << 26) in
  canvas_lut_data_parser dl dh = Canvas (8 * a) (8 * w) h 0 blk en dl dh.
Proof.
  intros Ha Hw Hh Hb He dl dh.
  assert (R : forall x n, 0 <= n -> 0 <= x .& (2 ^ n - 1) < 2 ^ n)
    by (intros; rewrite land_mask_mod by done; apply Z.mod_pos_bound; lia).
  assert (E1 : dl .& CANVAS_ADDR_LMASK = a).
  { apply (bits_upto 29); [apply (R dl 29); lia|done|]. unfold dl, CANVAS_ADDR_LMASK. bit_cases 29. }
  assert (E2 : ((dl >> 29) .& 0x7) .| ((dh .& 0x1ff) << 3) = w).
  { apply (bits_upto 12); [|done|].
    - assert (B1 : 0 <= (dl >> 29) .& 0x7 < 8) by (apply (R _ 3); lia).
      assert (B2 : 0 <= dh .& 0x1ff < 512) by (apply (R _ 9); lia).
      change (2 ^ Z.of_nat 12) with (2 ^ 12). apply lor_bound; rewrite ?Z.shiftl_mul_pow2 by lia; lia.
    - unfold dl, dh. bit_cases 12. }
  assert (E3 : (dh >> 9) .& 0xfff = h).
  { apply (bits_upto 12); [apply (R _ 12); lia|done|]. unfold dh. bit_cases 12. }
  assert (E4 : (dh >> 22) .& 3 = 0).
  { apply (bits_upto 2); [apply (R _ 2); lia|cbn; lia|]. unfold dh. bit_cases 2. }
  assert (E5 : (dh >> 24) .& 3 = blk).
  { apply (bits_upto 2); [apply (R _ 2); lia|done|]. unfold dh. bit_cases 2. }
  assert (E6 : (dh >> 26) .& 0xf = en).
  { apply (bits_upto 4); [apply (R _ 4); lia|done|]. unfold dh. bit_cases 4. }
  unfold canvas_lut_data_parser. rewrite E1, E2, E3, E4, E5, E6, !Z.shiftl_mul_pow2 by lia.
  rewrite (u32_small (a * 2 ^ 3)), (u32_small (w * 2 ^ 3)) by lia. f_equal; lia.
Qed.

(** The driver after a canvas was configured. *)
Lemma config_ex_hw index a w h wr blk en d c0 :
  0 <= index < canvas_max (pool d) -> canvas_pool_canvas_alloced index (pool d) = true ->
  canvasPool d !! Z.to_nat index = Some c0 ->
  let c := Canvas a w h wr blk en (dataL c0) (dataH c0) in
  let ws := canvas_lut_data_build c in
  canvas_config_ex true index a w h wr blk en d =
    Dev (<[Z.to_nat index := set_words ws c]> (canvasPool d)) (<[Z.to_nat index := ws]> (lut d)) (pool d).
Proof.
  intros Hi Ha Hc c ws. unfold canvas_config_ex, CANVAS_VALID. rewrite (proj2 (Z.ltb_lt _ _)), Ha by lia. cbn.
  unfold canvas_config_locked, edit_canvas. cbn. rewrite list_lookup_alter_eq, Hc. cbn. fold c ws.
  f_equal. apply list_eq. intros k. destruct (decide (k = Z.to_nat index)) as [->|].
  - rewrite !list_lookup_insert_eq by (rewrite ?length_alter; by eapply lookup_lt_Some). done.
  - by rewrite !list_lookup_insert_ne, list_lookup_alter_ne by done.
Qed.

(** A canvas that is allocated and configured is read back from the hardware table as it was configured,
    as from the driver's copy, when the address and the width are multiples of 8 below 2^32 and 2^15, the
    height is below 4096 and no wrap bit is asked for; the other canvases keep their entries. *)
Theorem config_read_hw index a w h blk en d :
  0 <= index < canvas_max (pool d) -> wf (pool d) -> length (canvasPool d) = 256%nat -> length (lut d) = 256%nat ->
  canvas_pool_canvas_alloced index (pool d) = true ->
  0 <= a < 2 ^ 29 -> 0 <= w < 2 ^ 12 -> 0 <= h < 2 ^ 12 -> 0 <= blk < 2 ^ 2 -> 0 <= en < 2 ^ 4 ->
  let d' := canvas_config_ex true index (8 * a) (8 * w) h 0 blk en d in
  exists lo hi, canvas_read_hw true index d' = (0, Some (Canvas (8 * a) (8 * w) h 0 blk en lo hi)) /\
    canvas_read index d' = Some (Canvas (8 * a) (8 * w) h 0 blk en lo hi) /\
    forall j, 0 <= j < 256 -> j <> index ->
      canvas_read_hw true j d' = canvas_read_hw true j d /\ canvas_read j d' = canvas_read j d.
Proof.
  intros Hi Hw Lp Ll Hal Ha Hww Hh Hb He d'. pose proof (wf_max _ Hw) as Hm.
  destruct (lookup_lt_is_Some_2 (canvasPool d) (Z.to_nat index)) as [c0 Hc]; [lia|].
  unfold d'. rewrite (config_ex_hw _ _ _ _ _ _ _ _ c0 Hi Hal Hc). rewrite lut_words by done.
  set (dl := a .| _). set (dh := _ .| (en << 26)).
  assert (M : forall j, 0 <= j < 256 -> j .& 0xff = j).
  { intros j Hj. change 0xff with (2 ^ 8 - 1). rewrite land_mask_mod by lia. by apply Z.mod_small. }
  exists dl, dh. unfold canvas_read_hw, canvas_read, CANVAS_VALID. cbn [pool negb lut canvasPool].
  rewrite (proj2 (Z.ltb_lt index _)) by lia. cbn [negb]. rewrite M by lia. split; [|split].
  - rewrite list_lookup_insert_eq by lia. cbn [fmap option_fmap option_map fst snd]. unfold dl, dh. by rewrite lut_parse.
  - rewrite list_lookup_insert_eq by lia. done.
  - intros j Hj Hne. rewrite M by lia. rewrite !list_lookup_insert_ne by lia. done.
Qed.

(** ** Witnesses and examples *)

Definition pool0 : canvas_pool := match canvas_pool_config false true 7 with Done p => p | _ => canvas_pool_init false end.
Lemma wf_pool0 : wf pool0.
Proof. split; vm_compute; intuition congruence. Defined.

Lemma alloc_canvas_first_free_witness :
  wf pool0 /\ exists i p', canvas_pool_map_alloc_canvas_in vdin 9 pool0 = Done (i, p') /\ i = 192.
Proof.
  split; [exact wf_pool0|].
  destruct (alloc_canvas_first_free vdin 9 pool0 wf_pool0) as (i & p' & E & _).
  exists i, p'. split; [exact E|]. vm_compute in E. congruence.
Defined.

Definition table0 : Z * list Z * canvas_pool :=
  match canvas_pool_alloc_canvas_table CANVAS_MAP_TYPE_NV21 vdin 9 2 pool0 with Done r => r | _ => (1, [], pool0) end.

Lemma canvas_table_roundtrip_witness :
  wf pool0 /\ table0.1.1 = 0 /\ table0.1.2 = [0xc1c1c0; 0xc3c3c2] /\
  same_use pool0 (canvas_pool_free_canvas_table table0.1.2 table0.2).
Proof.
  split; [exact wf_pool0|]. split; [vm_compute; reflexivity|]. split; [vm_compute; reflexivity|].
  destruct (canvas_table_roundtrip CANVAS_MAP_TYPE_NV21 vdin 9 2 pool0 wf_pool0) as (r & tab & p' & E & _ & H & _).
  assert (ET : table0 = (r, tab, p')) by (unfold table0; rewrite E; reflexivity).
  rewrite ET. cbn [fst snd]. apply H. change r with (r, tab, p').1.1. rewrite <- ET. vm_compute. reflexivity.
Defined.

(** Two tables taken, the first given back. *)
Lemma no_canvas_shared_witness : exists p held,
  canvas_pool_config false true 7 = Done pool0 /\ rtc step (pool0, []) (p, held) /\
  held_canvases held = [194; 195; 196; 197] /\ NoDup (held_canvases held).
Proof.
  destruct (canvas_pool_alloc_canvas_table CANVAS_MAP_TYPE_NV21 vdin 9 1 pool0) as [[[r0 tab0] p2]| |] eqn:E0;
    [|vm_compute in E0; discriminate E0..].
  destruct (canvas_pool_alloc_canvas_table CANVAS_MAP_TYPE_4 amvdec 10 1 p2) as [[[r3 tab3] p3]| |] eqn:E3.
  2,3: vm_compute in E0; injection E0 as <- <- <-; vm_compute in E3; discriminate E3.
  assert (R0 : r0 = 0) by (vm_compute in E0; congruence).
  assert (R3 : r3 = 0) by (vm_compute in E0; injection E0 as <- <- <-; vm_compute in E3; congruence).
  subst r0 r3. exists (canvas_pool_free_canvas_table tab0 p3), [tab3].
  assert (C : canvas_pool_config false true 7 = Done pool0) by (vm_compute; reflexivity).
  assert (R : rtc step (pool0, []) (canvas_pool_free_canvas_table tab0 p3, [tab3])).
  { eapply rtc_l; [eapply step_table; exact E0|]. eapply rtc_l; [eapply step_table; exact E3|].
    eapply rtc_l; [apply (step_free p3 [tab3] tab0 [])|]. apply rtc_refl. }
  split; [exact C|]. split; [exact R|]. split.
  - vm_compute in E0. injection E0 as <- <-. vm_compute in E3. injection E3 as <- <-. vm_compute. reflexivity.
  - exact (proj1 (no_canvas_shared false true 7 pool0 _ _ C R)).
Defined.

Definition dev0 : canvas_dev := Dev (replicate 256 (Canvas 0 0 0 0 0 0 0 0)) (replicate 256 (0, 0)) pool0.

Lemma config_read_hw_witness :
  canvas_pool_canvas_alloced 0x78 (pool dev0) = true /\
  exists c, canvas_read_hw true 0x78 (canvas_config_ex true 0x78 (8 * 0x2000000) (8 * 240) 1080 0 2 15 dev0) = (0, Some c) /\
    width c = 1920 /\ addr c = 0x10000000.
Proof.
  split; [vm_compute; reflexivity|].
  destruct (config_read_hw 0x78 0x2000000 240 1080 2 15 dev0) as (lo & hi & E & _);
    [vm_compute; intuition congruence|exact wf_pool0|reflexivity|reflexivity|vm_compute; reflexivity|lia..|].
  eexists. split; [exact E|]. split; reflexivity.
Defined.

(** Freeing a table of any type but [CANVAS_MAP_TYPE_4] also frees canvas 0, a fixed canvas of the
    decoder: after one two-plane table was taken and given back, a configuration of canvas 0 is dropped. *)
Theorem table_free_releases_canvas_0 :
  canvas_pool_canvas_alloced 0 pool0 = true /\
  (let p := canvas_pool_free_canvas_table table0.1.2 table0.2 in
   canvas_pool_canvas_alloced 0 p = false /\
   let d := Dev (canvasPool dev0) (lut dev0) p in canvas_config_ex true 0 0x1000 1920 1080 0 0 0 d = d).
Proof. vm_compute. auto. Qed.

(** [canvas_lut_data_build] ors the wrap bits into bits 0 and 1 of the high word, where the width has its
    upper bits: a canvas configured with X wrap reads back 64 bytes wider and without wrap. *)
Theorem wrap_changes_width :
  exists c, canvas_read_hw true 0x78 (canvas_config_ex true 0x78 0x10000000 1920 1080 1 0 0 dev0) = (0, Some c) /\
    width c = 1984 /\ wrap c = 0.
Proof. eexists. vm_compute. auto. Qed.

(** A full map but for canvases 5, 7 and 8. *)
Definition pool_holes : canvas_pool :=
  Pool 256 0 (replicate 256 (Info None 0 None false))
    ((fun j => negb ((j =? 5) || (j =? 7) || (j =? 8))) <$> seqZ 0 256) 1.

(** The search for a run restarts every time from the same position, one after the first: with canvases 7 and 8
    free and 5 free before them, a two-plane run is refused after 257 attempts. *)
Theorem run_missed :
  bit pool_holes 7 = Some false /\ bit pool_holes 8 = Some false /\
  (match canvas_pool_map_alloc_canvas_continue_set CANVAS_MAP_TYPE_NV21 vdin 0 pool_holes with
   | Done (v, _) => v = None | _ => False end).
Proof. vm_compute. auto. Qed.

End CanvasSpec.
