(* ===== verification/Rtc.v ===== *)
(** * Real-time clock

    src/drivers/rtc/meson-rtc.c: the operations of the RTC class over the
    registers of the block.  Times are the seconds rtc_tm_to_time64 gives for a
    broken-down time.  The registers are any register map ([Regmap.v]); what
    counts by itself (the time, the status) is volatile there. *)

From S2P Require Import Prelude Regmap RegBits.
From stdpp Require Import base list numbers gmap.
From Stdlib Require Import ZArith Lia.

Local Open Scope Z_scope.
Local Open Scope cint_scope.

Module Rtc.

(** ** Registers (include/linux/amlogic/rtc.h) *)

Definition RTC_OSC_SEL_BIT : Z := 8.
Definition RTC_ENABLE_BIT : Z := 12.
Definition RTC_ALRM0_EN_BIT : Z := 0.
Definition RTC_ALRM0_IRQ_MSK_BIT : Z := 0.
Definition RTC_ALRM0_STATUS_BIT : Z := 4.
Definition RTC_CTRL : Z := 0.
Definition RTC_COUNTER_REG : Z := 4.
Definition RTC_ALARM0_REG : Z := 8.
Definition RTC_SEC_ADJUST_REG : Z := 0x18.
Definition RTC_INT_MASK : Z := 0x20.
Definition RTC_OSCIN_CTRL0 : Z := 0x28.
Definition RTC_OSCIN_CTRL1 : Z := 0x2c.
Definition RTC_INT_STATUS : Z := 0x30.
Definition RTC_REAL_TIME : Z := 0x34.

Definition ADJUST_DROP : Z := 1.
Definition ADJUST_INSERT : Z := 2.
Definition ADJUST_MAX : Z := 3.
Definition ADJUST_NONE : Z := 0.

Definition OSC_24MHZ : Z := 24000000.
Definition OSC_32KHZ : Z := 32768.

Section Ops.
Context {S : Type} `{Regmap S}.

Record meson_rtc_data := Rtc { reg_base : S; alarm_enabled : bool; freq : Z }.

Definition wr (v a : Z) (r : meson_rtc_data) : meson_rtc_data := Rtc (writel (reg_base r) v a) (alarm_enabled r) (freq r).
Definition rd (a : Z) (r : meson_rtc_data) : Z := readl (reg_base r) a.
Definition set_enabled (b : bool) (r : meson_rtc_data) : meson_rtc_data := Rtc (reg_base r) b (freq r).

(** ** Time and alarm *)

Definition meson_set_time (time_sec : Z) (r : meson_rtc_data) : meson_rtc_data := wr time_sec RTC_COUNTER_REG r.
Definition meson_read_time (r : meson_rtc_data) : Z := rd RTC_REAL_TIME r.
Definition meson_read_alarm (r : meson_rtc_data) : Z := rd RTC_ALARM0_REG r.
Definition meson_set_alarm (alarm_sec : Z) (r : meson_rtc_data) : meson_rtc_data := wr alarm_sec RTC_ALARM0_REG r.

Definition meson_rtc_read_time (r : meson_rtc_data) : Z := meson_read_time r.
Definition meson_rtc_set_time (time_sec : Z) (r : meson_rtc_data) : meson_rtc_data := meson_set_time (u32 time_sec) r.

Definition meson_rtc_set_alarm (enabled : bool) (alarm_sec64 : Z) (r : meson_rtc_data) : Z * meson_rtc_data :=
  let r := wr (rd RTC_CTRL r .& Z.lnot (1 << RTC_ALRM0_EN_BIT)) RTC_CTRL r in
  if enabled then
    if 0x7fffffff <? alarm_sec64 then (- EINVAL, r)
    else
      let r := meson_set_alarm (u32 alarm_sec64) r in
      let r := wr (rd RTC_CTRL r .| (1 << RTC_ALRM0_EN_BIT)) RTC_CTRL r in
      (0, set_enabled enabled r)
  else (0, set_enabled enabled r).

(** Time, enabled, pending. *)
Definition meson_rtc_read_alarm (r : meson_rtc_data) : Z * bool * bool :=
  let alarm_sec := meson_read_alarm r in
  let reg_val := rd RTC_INT_STATUS r in
  (alarm_sec, alarm_enabled r, truthy (reg_val .& (1 << RTC_ALRM0_STATUS_BIT))).

Definition meson_rtc_alarm_enable (enabled : bool) (r : meson_rtc_data) : meson_rtc_data :=
  let r :=
    if enabled then wr (rd RTC_CTRL r .| (1 << RTC_ALRM0_EN_BIT)) RTC_CTRL r
    else meson_set_alarm 0 (wr (rd RTC_CTRL r .& Z.lnot (1 << RTC_ALRM0_EN_BIT)) RTC_CTRL r) in
  set_enabled enabled r.

(** ** Calibration *)

Definition meson_rtc_adjust_sec (match_counter ops : Z) (r : meson_rtc_data) : Z * meson_rtc_data :=
  if 0x7ffff <? match_counter then (- EINVAL, r)
  else
    let v := rd RTC_SEC_ADJUST_REG r in
    let v := v .& Z.lnot (0x3 << 19) in
    let v := if ops =? ADJUST_DROP then v .| (0x2 << 19)
             else if ops =? ADJUST_INSERT then v .| (0x3 << 19) else v in
    let v := v .& Z.lnot 0x7ffff in
    let v := v .| match_counter in
    let v := v .| (0x1 << 23) in
    (0, wr v RTC_SEC_ADJUST_REG r).

Definition meson_rtc_set_calibration (calibration : Z) (r : meson_rtc_data) : Z * meson_rtc_data :=
  let match_counter := calibration .& 0x7ffff in
  let cal_ops := (calibration >> 30) .& 0x3 in
  if cal_ops =? ADJUST_MAX then (- EINVAL, r)
  else meson_rtc_adjust_sec match_counter cal_ops r.

Definition meson_rtc_get_calibration (r : meson_rtc_data) : Z :=
  let v := rd RTC_SEC_ADJUST_REG r in
  let match_counter := v .& 0x7ffff in
  let sec_adjust_ctrl := (v >> 19) .& 3 in
  let cal_ops :=
    if (sec_adjust_ctrl =? 0) || (sec_adjust_ctrl =? 1) then ADJUST_NONE
    else if sec_adjust_ctrl =? 2 then ADJUST_DROP else ADJUST_INSERT in
  u32 ((cal_ops .& 0x3) << 30) .| (match_counter .& 0x7ffff).

(** ** Initialisation, suspend *)

Definition meson_rtc_clk_config (r : meson_rtc_data) : meson_rtc_data :=
  if freq r =? OSC_24MHZ then
    let r := wr (rd RTC_CTRL r .| (1 << RTC_OSC_SEL_BIT)) RTC_CTRL r in
    let v := rd RTC_OSCIN_CTRL0 r in
    let v := v .& Z.lnot (0x3 << 28) in
    let v := v .| (0x1 << 28) in
    let v := v .| (1 << 31) in
    let r := wr v RTC_OSCIN_CTRL0 r in
    let v := rd RTC_OSCIN_CTRL1 r in
    let v := v .& Z.lnot 0xfff in
    let v := v .| (0x1 << 0) in
    let v := v .& Z.lnot (0xfff << 12) in
    let v := v .| (0x2 << 12) in
    wr v RTC_OSCIN_CTRL1 r
  else r.

(** usleep_range is a delay of the register map. *)
Definition meson_rtc_init (r : meson_rtc_data) : meson_rtc_data :=
  let v := rd RTC_CTRL r in
  let rtc_enable := (v >> RTC_ENABLE_BIT) .& 1 in
  let r :=
    if negb (truthy rtc_enable) then
      let r := meson_rtc_clk_config r in
      let v := v .| (1 << RTC_ENABLE_BIT) in
      let r := wr v RTC_CTRL r in
      Rtc (udelay (reg_base r) 100) (alarm_enabled r) (freq r)
    else r in
  let r := wr (rd RTC_INT_MASK r .| (1 << RTC_ALRM0_IRQ_MSK_BIT)) RTC_INT_MASK r in
  set_enabled false r.

(** Suspend and shutdown: the interrupt is let through when the device may wake the system. *)
Definition meson_rtc_suspend (may_wakeup : bool) (r : meson_rtc_data) : meson_rtc_data :=
  if may_wakeup then wr (rd RTC_INT_MASK r .& Z.lnot (1 << RTC_ALRM0_IRQ_MSK_BIT)) RTC_INT_MASK r else r.
Definition meson_rtc_shutdown (may_wakeup : bool) (r : meson_rtc_data) : meson_rtc_data :=
  if may_wakeup then wr (rd RTC_INT_MASK r .& Z.lnot (1 << RTC_ALRM0_IRQ_MSK_BIT)) RTC_INT_MASK r else r.

(** The clock of the device tree: [None] when there is no osc_freq property. *)
Definition probe_freq (osc_freq : option Z) : Z + Z :=
  match osc_freq with
  | Some f => if negb (f =? OSC_24MHZ) && negb (f =? OSC_32KHZ) then inr (- EINVAL) else inl f
  | None => inr (- EINVAL)
  end.

End Ops.
#[global] Arguments meson_rtc_data S : clear implicits.

(** ** Theorems *)

Section Theorems.
Context {S : Type} `{RegmapOk S}.
Implicit Types (r : meson_rtc_data S).

(** Registers whose bits are changed by writes only. *)
Definition stable (a : Z) : Prop := forall b, 0 <= b < 32 -> volatile a b = false.

Lemma rd_wr_same r v a : stable a -> rd a (wr v a r) = u32 v.
Proof.
  intros Hst. unfold rd, wr, readl. cbn. apply (bits_upto 32); [apply rm_read_range|apply u32_range|].
  intros i Hi. rewrite testbit_u32 by lia. change (snd (regmap_read ?m a)) with (reg_val m a). unfold writel.
  rewrite rm_write_bit, decide_True by (done || lia || (apply Hst; lia)). done.
Qed.

Lemma rd_wr_other r v a a' : stable a' -> a' <> a -> rd a' (wr v a r) = rd a' r.
Proof.
  intros Hst Hne. unfold rd, wr, readl. cbn. apply (bits_upto 32); [apply rm_read_range..|].
  intros i Hi. change (snd (regmap_read ?m a')) with (reg_val m a'). unfold writel.
  rewrite rm_write_bit, decide_False by (done || lia || (apply Hst; lia)). done.
Qed.

Lemma rd_range r a : 0 <= rd a r < 2 ^ 32.
Proof. apply rm_read_range. Qed.

(** The word [meson_rtc_adjust_sec] writes. *)
Definition adjust_word (old mc ops : Z) : Z :=
  ((if ops =? ADJUST_DROP then (old .& Z.lnot (0x3 << 19)) .| (0x2 << 19)
    else if ops =? ADJUST_INSERT then (old .& Z.lnot (0x3 << 19)) .| (0x3 << 19) else old .& Z.lnot (0x3 << 19))
   .& Z.lnot 0x7ffff) .| mc .| (0x1 << 23).

Lemma set_calibration_ok c r : 0 <= c < 2 ^ 32 -> (c >> 30) .& 3 <> 3 ->
  meson_rtc_set_calibration c r = (0, wr (adjust_word (rd RTC_SEC_ADJUST_REG r) (c .& 0x7ffff) ((c >> 30) .& 3)) RTC_SEC_ADJUST_REG r).
Proof.
  intros Hc Hop. unfold meson_rtc_set_calibration, meson_rtc_adjust_sec, adjust_word, ADJUST_MAX.
  rewrite (proj2 (Z.eqb_neq _ _)) by done.
  assert (0 <= c .& 0x7ffff < 2 ^ 19)
    by (change 0x7ffff with (2 ^ 19 - 1); rewrite land_mask_mod by lia; apply Z.mod_pos_bound; lia).
  rewrite (proj2 (Z.ltb_ge _ _)) by lia. done.
Qed.

Lemma adjust_word_fields old c op : 0 <= old < 2 ^ 32 -> 0 <= c < 2 ^ 32 -> op = 0 \/ op = 1 \/ op = 2 ->
  let v := u32 (adjust_word old (c .& 0x7ffff) op) in
  v .& 0x7ffff = c .& 0x7ffff /\ (v >> 19) .& 3 = (if op =? 0 then 0 else op + 1) /\ Z.testbit v 23 = true /\
  v .& 0xff600000 = old .& 0xff600000.
Proof.
  intros Ho Hc Hop v.
  assert (R : forall x n, 0 <= n -> 0 <= x .& (2 ^ n - 1) < 2 ^ n)
    by (intros; rewrite land_mask_mod by done; apply Z.mod_pos_bound; lia).
  assert (R32 : forall x, 0 <= u32 x .& 0xff600000 < 2 ^ 32).
  { intros x. pose proof (u32_range x). pose proof (land_range (u32 x) 0xff600000). lia. }
  assert (Ro : 0 <= old .& 0xff600000 < 2 ^ 32) by (pose proof (land_range old 0xff600000); lia).
  unfold v, adjust_word, ADJUST_DROP, ADJUST_INSERT.
  destruct Hop as [-> | [-> | ->]]; cbn [Z.eqb Pos.eqb];
    (split; [apply (bits_upto 19); [apply (R _ 19); lia|apply (R _ 19); lia|bit_cases 19]|];
     split; [apply (bits_upto 2); [apply (R _ 2); lia|cbn; lia|bit_cases 2]|];
     split; [bits_at; reflexivity|];
     apply (bits_upto 32); [apply R32|apply Ro|bit_cases 32]).
Qed.

Lemma top_ops c : 0 <= c < 2 ^ 32 -> 0 <= (c >> 30) .& 3 < 4.
Proof. intros. change 3 with (2 ^ 2 - 1). rewrite land_mask_mod by lia. apply Z.mod_pos_bound. lia. Qed.

Lemma calib_word c : 0 <= c < 2 ^ 32 ->
  u32 ((((c >> 30) .& 3) .& 3) << 30) .| ((c .& 0x7ffff) .& 0x7ffff) = c .& 0xc007ffff.
Proof.
  intros Hc. apply (bits_upto 32).
  - apply lor_bound; [lia|apply u32_range|].
    pose proof (land_range c 0x7ffff). pose proof (land_range (c .& 0x7ffff) 0x7ffff).
    change (2 ^ Z.of_nat 32) with (2 ^ 32). lia.
  - pose proof (land_range c 0xc007ffff). change (2 ^ Z.of_nat 32) with (2 ^ 32). lia.
  - bit_cases 32.
Qed.

(** A calibration that is stored reads back with its operation (bits 30 and 31) and its counter (bits 0 to
    18), the adjustment is marked valid and the other bits of the register are kept; operation 3 is refused and
    nothing is written. *)
Theorem calibration_roundtrip c r : 0 <= c < 2 ^ 32 -> stable RTC_SEC_ADJUST_REG ->
  let res := meson_rtc_set_calibration c r in
  if (c >> 30) .& 3 =? 3 then res = (- EINVAL, r)
  else fst res = 0 /\ meson_rtc_get_calibration (snd res) = c .& 0xc007ffff /\
    Z.testbit (rd RTC_SEC_ADJUST_REG (snd res)) 23 = true /\
    rd RTC_SEC_ADJUST_REG (snd res) .& 0xff600000 = rd RTC_SEC_ADJUST_REG r .& 0xff600000.
Proof.
  intros Hc Hst res. destruct (Z.eqb_spec ((c >> 30) .& 3) 3) as [E|E].
  { unfold res, meson_rtc_set_calibration. by rewrite E. }
  unfold res. rewrite set_calibration_ok by done. cbn [fst snd]. split; [done|].
  unfold meson_rtc_get_calibration. rewrite rd_wr_same by done. pose proof (top_ops c Hc) as Ht.
  destruct (adjust_word_fields (rd RTC_SEC_ADJUST_REG r) c ((c >> 30) .& 3)) as (F1 & F2 & F3 & F4);
    [apply rd_range|done|lia|]. split; [|split; [exact F3|exact F4]].
  rewrite F1, F2, <- calib_word by done. f_equal. f_equal. f_equal. f_equal.
  assert (D : (c >> 30) .& 3 = 0 \/ (c >> 30) .& 3 = 1 \/ (c >> 30) .& 3 = 2) by lia.
  destruct D as [-> | [-> | ->]]; reflexivity.
Qed.

Lemma clear_bit0 x : 0 <= x < 2 ^ 32 -> u32 (x .& Z.lnot (1 << 0)) = x .& Z.lnot 1 /\ Z.testbit (x .& Z.lnot 1) 0 = false.
Proof.
  intros Hx. split; [|bits_at; reflexivity]. apply u32_small. change (1 << 0) with 1.
  pose proof (land_range x (Z.lnot 1)). lia.
Qed.

Lemma set_bit0 x : 0 <= x < 2 ^ 32 -> u32 (x .| (1 << 0)) = x .| 1.
Proof. intros Hx. apply u32_small. apply lor_bound; cbn; lia. Qed.

Lemma clear_set_bit0 x : (x .& Z.lnot 1) .| 1 = x .| 1.
Proof.
  apply Z.bits_inj'. intros i Hi. rewrite !Z.lor_spec, Z.land_spec, Z.lnot_spec by done.
  destruct (Z.testbit x i), (Z.testbit 1 i); done.
Qed.

(** An alarm that is set reads back with its time and as enabled, alarm 0 is switched on and the other bits of
    the control register are kept; a disabled alarm is switched off and reads as disabled. *)
Theorem alarm_roundtrip enabled t r : 0 <= t <= 0x7fffffff -> stable RTC_CTRL -> stable RTC_ALARM0_REG ->
  let res := meson_rtc_set_alarm enabled t r in
  fst res = 0 /\ snd (fst (meson_rtc_read_alarm (snd res))) = enabled /\
  rd RTC_CTRL (snd res) = (if enabled then rd RTC_CTRL r .| 1 else rd RTC_CTRL r .& Z.lnot 1) /\
  (enabled = true -> fst (fst (meson_rtc_read_alarm (snd res))) = t).
Proof.
  intros Ht Hc Ha. pose proof (rd_range r RTC_CTRL) as HR. destruct (clear_bit0 _ HR) as [C1 C2].
  unfold meson_rtc_set_alarm, RTC_ALRM0_EN_BIT. destruct enabled.
  - rewrite (proj2 (Z.ltb_ge _ _)) by lia. cbn [fst snd]. split; [done|]. split; [done|].
    set (q := meson_set_alarm _ _).
    assert (Eq : rd RTC_CTRL q = rd RTC_CTRL r .& Z.lnot 1).
    { unfold q, meson_set_alarm. rewrite rd_wr_other, rd_wr_same by done. exact C1. }
    split.
    + change (rd RTC_CTRL (set_enabled true ?x)) with (rd RTC_CTRL x). rewrite rd_wr_same, set_bit0 by (done || apply rd_range).
      rewrite Eq. apply clear_set_bit0.
    + intros _. unfold meson_rtc_read_alarm, meson_read_alarm. cbn [fst].
      change (rd RTC_ALARM0_REG (set_enabled true ?x)) with (rd RTC_ALARM0_REG x). rewrite rd_wr_other by done.
      unfold q, meson_set_alarm. rewrite rd_wr_same by done. rewrite !u32_small by (rewrite ?u32_small; lia). done.
  - cbn [fst snd]. split; [done|]. split; [done|]. split; [|done].
    change (rd RTC_CTRL (set_enabled false ?x)) with (rd RTC_CTRL x). rewrite rd_wr_same by done. exact C1.
Qed.

(** An alarm past 2038 is refused after the alarm was already switched off, and the driver keeps reporting the
    old one as enabled: what [meson_rtc_read_alarm] says and what the hardware does differ. *)
Theorem refused_alarm_diverges t r : 0x7fffffff < t -> stable RTC_CTRL -> stable RTC_ALARM0_REG ->
  let res := meson_rtc_set_alarm true t r in
  fst res = - EINVAL /\ Z.testbit (rd RTC_CTRL (snd res)) 0 = false /\
  snd (fst (meson_rtc_read_alarm (snd res))) = alarm_enabled r /\
  fst (fst (meson_rtc_read_alarm (snd res))) = fst (fst (meson_rtc_read_alarm r)).
Proof.
  intros Ht Hc Ha. pose proof (rd_range r RTC_CTRL) as HR. destruct (clear_bit0 _ HR) as [C1 C2].
  unfold meson_rtc_set_alarm, RTC_ALRM0_EN_BIT. rewrite (proj2 (Z.ltb_lt _ _)) by lia. cbn [fst snd].
  split; [done|]. rewrite rd_wr_same, C1 by done. split; [done|]. split; [done|].
  unfold meson_rtc_read_alarm, meson_read_alarm. cbn [fst]. by rewrite rd_wr_other.
Qed.

End Theorems.

(** ** Examples *)

Definition regs0 : gmap Z Z := <[RTC_SEC_ADJUST_REG := 0x00612345]> (<[RTC_CTRL := 0x21]> ∅).
Definition rtc0 : meson_rtc_data (gmap Z Z) := Rtc regs0 true OSC_24MHZ.

Lemma calibration_roundtrip_witness :
  meson_rtc_get_calibration (snd (meson_rtc_set_calibration 0x80001234 rtc0)) = 0x80001234.
Proof.
  assert (ST : stable (S := gmap Z Z) RTC_SEC_ADJUST_REG) by (intros b Hb; reflexivity).
  pose proof (calibration_roundtrip 0x80001234 rtc0 ltac:(lia) ST) as T.
  cbn zeta in T. change ((0x80001234 >> 30) .& 3 =? 3) with false in T. cbn iota in T.
  destruct T as (_ & T & _). exact T.
Defined.

Lemma alarm_roundtrip_witness :
  fst (fst (meson_rtc_read_alarm (snd (meson_rtc_set_alarm true 1700000000 rtc0)))) = 1700000000 /\
  rd RTC_CTRL (snd (meson_rtc_set_alarm true 1700000000 rtc0)) = 0x21.
Proof.
  destruct (alarm_roundtrip true 1700000000 rtc0) as (_ & _ & T1 & T2);
    [lia|intros b Hb; reflexivity|intros b Hb; reflexivity|].
  split; [exact (T2 eq_refl)|]. rewrite T1. vm_compute. reflexivity.
Defined.

Lemma refused_alarm_diverges_witness :
  snd (fst (meson_rtc_read_alarm (snd (meson_rtc_set_alarm true 0x80000000 rtc0)))) = true /\
  Z.testbit (rd RTC_CTRL (snd (meson_rtc_set_alarm true 0x80000000 rtc0))) 0 = false.
Proof.
  destruct (refused_alarm_diverges 0x80000000 rtc0) as (_ & T1 & T2 & _);
    [lia|intros b Hb; reflexivity|intros b Hb; reflexivity|].
  split; [exact T2|exact T1].
Defined.

(** On a clock that was not running, [meson_rtc_init] selects the 24 MHz oscillator and then writes back the
    control word it read before: the selection is lost. *)
Theorem init_drops_oscillator :
  let r := Rtc (S := gmap Z Z) ∅ false OSC_24MHZ in
  Z.testbit (rd RTC_CTRL (meson_rtc_clk_config r)) RTC_OSC_SEL_BIT = true /\
  Z.testbit (rd RTC_CTRL (meson_rtc_init r)) RTC_OSC_SEL_BIT = false /\
  Z.testbit (rd RTC_CTRL (meson_rtc_init r)) RTC_ENABLE_BIT = true.
Proof. vm_compute. auto. Qed.

End Rtc.
