(* ===== verification/ResMan.v ===== *)
(** * Media resource manager

    src/drivers/media/common/resource_mgr/resourcemanage.c: applications open a
    session (a file) and acquire and release named resources in it: counters,
    toggles, secure video memory (tvp), codec memory, capacities.  A session
    may preempt others of the same or lower priority, which are told by an event, and wait
    for them to release.

    A resource is found by its number, a session by its id.  The list of the
    nodes of a session and that of a resource are both in the order of
    acquisition, so one list [nodes] in that order stands for all of them.

    An acquisition has two waits, and is cut there, because others run
    meanwhile.  At the [Gate] it waits, without a limit, until no other
    acquisition of the resource waits; a signal ends this wait too, and the code
    does not look at the difference.  What runs after it is [acquire_locked].
    In [Waits] it waits for a release, for a limited time, with the lock of the
    resource dropped; what runs after it is [resume_acquire].  The lock of the
    session is held through both.  Strings are lists of bytes without the terminator; NULL
    is [None].  kstrtou32 (kernel) and the codec memory (codec_mm.c) are
    parameters. *)

From S2P Require Import Prelude Mem.
From stdpp Require Import base list numbers gmap.
From Stdlib Require Import ZArith Lia Ascii.
From Stdlib Require String.
Import String.StringSyntax.

Local Open Scope Z_scope.
Local Open Scope cint_scope.

(** The bytes of a literal. *)
Definition bytes_of (s : String.string) : list Z := (fun a => Z.of_N (Ascii.N_of_ascii a)) <$> String.list_ascii_of_string s.
#[global] Arguments bytes_of s%_string_scope.

Module ResMan.

Definition EBUSY : Z := 16.
Definition SINGLE_SIZE : Z := 64.
Definition RESMAN_EVENT_PREEMPT : Z := 0x1002.
Definition preempt_timeout_ms : Z := 2500.

Definition RESMAN_ID_SEC_TVP : Z := 3.
Definition RESMAN_ID_CODEC_MM : Z := 5.

Definition resources_map : list (Z * list Z) :=
  [(0, bytes_of "vfm_default"); (1, bytes_of "amvideo"); (2, bytes_of "videopip"); (3, bytes_of "tvp");
   (4, bytes_of "tsparser"); (5, bytes_of "codec_mm"); (6, bytes_of "adc_pll"); (7, bytes_of "decoder");
   (10, bytes_of "hwc"); (8, bytes_of "dmx"); (9, bytes_of "di"); (12, bytes_of "videoplane"); (13, bytes_of "audiodecoder")].

Definition RESMAN_TYPE_COUNTER : Z := 1.
Definition RESMAN_TYPE_TOGGLE : Z := 2.
Definition RESMAN_TYPE_TVP : Z := 3.
Definition RESMAN_TYPE_CODEC_MM : Z := 4.
Definition RESMAN_TYPE_CAPACITY_SIZE : Z := 5.

(** ** Data *)

Inductive RESMAN_STATUS := RESMAN_STATUS_INITED | RESMAN_STATUS_ACQUIRED | RESMAN_STATUS_PREEMPTED.
#[global] Instance status_eq_dec : EqDecision RESMAN_STATUS.
Proof. solve_decision. Defined.

(** struct counter_res_state; the index is the position. *)
Record counter_res_state := Item { ssid : Z; state : Z }.

(** struct resman_node: its session and resource, and the union [s]. *)
Inductive node_data :=
  | NNone
  | NToggle (type : bool)                   (* '+' *)
  | NCodecMm (score : Z) (secure : bool)
  | NCapacity (use : Z).
Record resman_node := Node { session_ptr : Z; resource_ptr : Z; s : node_data }.

(** struct resman_resource: the union [d] with its tag [type].  A counter may lack its list when an allocation failed. *)
Inductive resource_data :=
  | DCounter (avail : Z) (counter_list : option (list counter_res_state))
  | DToggle
  | DTvp
  | DCodecMm (total uhd fhd secure counter_secure counter_nonsecure : Z)
  | DCapacity (total : Z).
Record resman_resource := Res { name : list Z; value : Z; d : resource_data; pending_acquire : Z; freed : bool }.

Record resman_session := Sess { status : RESMAN_STATUS; events : list Z; app_name : list Z; app_type : Z; prio : Z }.

Record resman (M : Type) := RM {
  sessions : gmap Z resman_session; resources : gmap Z resman_resource; nodes : list resman_node;
  sess_id : Z; mm : M }.
#[global] Arguments RM {M}.
#[global] Arguments sessions {M}.
#[global] Arguments resources {M}.
#[global] Arguments nodes {M}.
#[global] Arguments sess_id {M}.
#[global] Arguments mm {M}.

Section Setters.
Context {M : Type}.
Implicit Types w : resman M.
Definition set_sessions x w := RM x (resources w) (nodes w) (sess_id w) (mm w).
Definition set_resources x w := RM (sessions w) x (nodes w) (sess_id w) (mm w).
Definition set_nodes x w := RM (sessions w) (resources w) x (sess_id w) (mm w).
Definition set_mm (x : M) w := RM (sessions w) (resources w) (nodes w) (sess_id w) x.
Definition upd_res (r : Z) (f : resman_resource -> resman_resource) w := set_resources (alter f r (resources w)) w.
Definition upd_sess (i : Z) (f : resman_session -> resman_session) w := set_sessions (alter f i (sessions w)) w.
End Setters.

Definition set_value (v : Z) (r : resman_resource) := Res (name r) v (d r) (pending_acquire r) (freed r).
Definition set_d (x : resource_data) (r : resman_resource) := Res (name r) (value r) x (pending_acquire r) (freed r).
Definition add_pending (k : Z) (r : resman_resource) := Res (name r) (value r) (d r) (s32 (pending_acquire r + k)) (freed r).
Definition set_status (x : RESMAN_STATUS) (v : resman_session) := Sess x (events v) (app_name v) (app_type v) (prio v).
Definition send (e : Z) (v : resman_session) := Sess (status v) (events v ++ [e]) (app_name v) (app_type v) (prio v).

(** ** Strings *)

(** strsep(&str, sep) for one separator. *)
Fixpoint cut (sep : Z) (str : list Z) : list Z * option (list Z) :=
  match str with
  | [] => ([], None)
  | c :: r => if c =? sep then ([], Some r) else let '(t, r') := cut sep r in (c :: t, r')
  end.

(** The pieces strsep gives one after the other. *)
Fixpoint pieces (fuel : nat) (sep : Z) (str : option (list Z)) : list (list Z) :=
  match fuel, str with
  | S f, Some str => let '(t, r) := cut sep str in t :: pieces f sep r
  | _, _ => []
  end.
Definition options (arg : option (list Z)) : list (list Z) :=
  match arg with Some a => pieces (S (length a)) 44 (Some a) | None => [] end.

Definition starts_with (pre str : list Z) : bool := bool_decide (take (length pre) str = pre).

(** ** The list of a counter *)

Definition resman_counter_res_list_init (size : Z) : list counter_res_state := replicate (Z.to_nat size) (Item (-1) 0).

Fixpoint acquire_item (l : list counter_res_state) (i : Z) (id : Z) : Z * list counter_res_state :=
  match l with
  | [] => (-1, [])
  | x :: r => if state x =? 0 then (i, Item id 1 :: r) else let '(k, r') := acquire_item r (i + 1) id in (k, x :: r')
  end.
Definition resman_counter_res_list_acquire_item (l : option (list counter_res_state)) (id : Z) : Z * option (list counter_res_state) :=
  match l with None => (-1, None) | Some l => let '(k, l') := acquire_item l 0 id in (k, Some l') end.

Fixpoint release_item (l : list counter_res_state) (id : Z) : list counter_res_state :=
  match l with
  | [] => []
  | x :: r => if ssid x =? id then Item (-1) 0 :: r else x :: release_item r id
  end.
Definition resman_counter_res_list_release_item (l : option (list counter_res_state)) (id : Z) : option (list counter_res_state) :=
  match l with None => None | Some l => Some (if id <=? 0 then l else release_item l id) end.

Section Ops.
Context {M : Type}.
Variable kstrtou32 : list Z -> option Z.
(** The codec memory: enable_tvp(size, flags) returns 0 when it worked. *)
Variable codec_mm_enable_tvp : Z -> Z -> M -> Z * M.
Variable codec_mm_disable_tvp : M -> M.
Variable codec_mm_get_free_size : M -> Z.
Variable codec_mm_get_tvp_free_size : M -> Z.
Variable codec_mm_get_total_size : M -> Z.
Variable codec_mm_get_default_tvp_size : M -> Z * Z.   (* fhd, uhd *)
(** Is the lock of this session held, and if so, does its holder release this
    node within the 10 ms [resman_preempt_session] waits?  Is there memory for an event? *)
Variable busy : Z -> bool.
Variable releases : resman_node -> bool.
Variable event_ok : bool.
Implicit Types w : resman M.

(** The value, when key and number are there. *)
Definition resman_parser_kv (str : option (list Z)) (k : list Z) : option Z :=
  match str with
  | None => None
  | Some str =>
      match cut 58 str with
      | (sk, Some sv) => if bool_decide (sk = k) then kstrtou32 sv else None
      | (_, None) => None
      end
  end.

(** ** Lookups *)

Definition resman_find_resource_by_id w (id : Z) : option resman_resource := resources w !! id.
Definition resman_find_resource_by_name w (n : list Z) : bool :=
  existsb (fun kv => bool_decide (name kv.2 = n)) (map_to_list (resources w)).
Definition same_node (sess id : Z) (n : resman_node) : bool := (session_ptr n =? sess) && (resource_ptr n =? id).
Definition resman_find_node_by_resource_id w (sess id : Z) : option resman_node := List.find (same_node sess id) (nodes w).
Definition resource_sessions w (r : Z) : list resman_node := List.filter (fun n => resource_ptr n =? r) (nodes w).
Definition session_resources w (i : Z) : list resman_node := List.filter (fun n => session_ptr n =? i) (nodes w).

Definition sess_of w (n : resman_node) : resman_session :=
  default (Sess RESMAN_STATUS_INITED [] [] 0 0) (sessions w !! session_ptr n).
Definition prio_of w (n : resman_node) : Z := prio (sess_of w n).
Definition has_status (x : RESMAN_STATUS) w (n : resman_node) : bool := bool_decide (status (sess_of w n) = x).
Definition curr_prio w (curr : Z) : Z := match sessions w !! curr with Some v => prio v | None => 0 end.

(** ** Preemption *)

Definition resman_send_event (i : Z) (type : Z) w : resman M := if event_ok then upd_sess i (send type) w else w.

Definition resman_preempt_session (curr : Z) (selected : option resman_node) w : bool * resman M :=
  match selected with
  | None => (false, w)
  | Some n =>
      if negb (has_status RESMAN_STATUS_ACQUIRED w n) then (false, w)
      else if (busy (session_ptr n) || (session_ptr n =? curr)) && negb (releases n) then (false, w)
      else (true, resman_send_event (session_ptr n) RESMAN_EVENT_PREEMPT
                    (upd_sess (session_ptr n) (set_status RESMAN_STATUS_PREEMPTED) w))
  end.

(** The node with the largest priority above [lowest] (the first of them), and that priority. *)
Fixpoint lowest_prio w (ok : resman_node -> bool) (l : list resman_node) (selected : option resman_node) (lowest : Z)
    : option resman_node * Z :=
  match l with
  | [] => (selected, lowest)
  | n :: r => if ok n && (lowest <? prio_of w n) then lowest_prio w ok r (Some n) (prio_of w n) else lowest_prio w ok r selected lowest
  end.

(** The lowest priority below ours, else the oldest of our own. *)
Definition select_victim w (ok : resman_node -> bool) (l : list resman_node) (lowest : Z) : option resman_node * Z :=
  match lowest_prio w ok l None lowest with
  | (Some n, p) => (Some n, p)
  | (None, p) => (List.find (fun n => ok n && (prio_of w n =? p)) l, p)
  end.

Definition resman_counter_preempt (curr r : Z) w : bool * resman M :=
  let l := resource_sessions w r in
  let p := curr_prio w curr in
  let selected :=
    match List.find (fun n => has_status RESMAN_STATUS_PREEMPTED w n && (p <=? prio_of w n)) l with
    | Some n => Some n
    | None => fst (select_victim w (fun _ => true) l p)
    end in
  resman_preempt_session curr selected w.

Definition resman_tvp_preempt (curr : Z) w : bool * resman M :=
  match resman_find_resource_by_id w RESMAN_ID_CODEC_MM with
  | None => (false, w)
  | Some _ =>
      let l := resource_sessions w RESMAN_ID_CODEC_MM in
      let nonsecure n := match s n with NCodecMm _ sec => negb sec | _ => true end in
      let lowestprio := snd (lowest_prio w nonsecure l None (curr_prio w curr)) in
      resman_preempt_session curr (List.find (fun n => nonsecure n && (lowestprio <=? prio_of w n)) l) w
  end.

(** What a node uses of a capacity or of the codec memory. *)
Definition node_use (n : resman_node) : Z :=
  match s n with NCodecMm score _ => score | NCapacity use => use | _ => 0 end.

(** [resource->value] without the nodes of preempted sessions, as an unsigned int. *)
Definition used_size w (r : Z) (v : Z) : Z :=
  fold_left (fun u n => if has_status RESMAN_STATUS_PREEMPTED w n then u32 (u - node_use n) else u) (resource_sessions w r) (u32 v).

(** The loop of [resman_capacity_preempt] and [resman_codec_mm_preempt]. *)
Fixpoint preempt_loop (fuel : nat) (curr r total size : Z) (lowestprio : Z) (ret : bool) w : outcome (bool * resman M) :=
  match fuel with
  | O => Spin
  | S f =>
      let v := match resources w !! r with Some x => value x | None => 0 end in
      let used := used_size w r v in
      if u32 (used + size) <=? total then Done (ret, w)
      else
        let '(selected, lowestprio) := select_victim w (has_status RESMAN_STATUS_ACQUIRED w) (resource_sessions w r) lowestprio in
        match selected with
        | None => Done (ret, w)
        | Some n =>
            let '(b, w) := resman_preempt_session curr (Some n) w in
            let used := if b : bool then u32 (used - node_use n) else used in
            let lowestprio := if b : bool then curr_prio w curr else lowestprio in
            let ret := ret || b in
            if total <? u32 (used + size) then preempt_loop f curr r total size lowestprio ret w else Done (ret, w)
        end
  end.

Definition resman_capacity_preempt (fuel : nat) (curr r total size : Z) w : outcome (bool * resman M) :=
  preempt_loop fuel curr r total size (curr_prio w curr) false w.

(** Secure instances above the limit go first. *)
Fixpoint secure_loop (l : list resman_node) (curr : Z) (limit secure_count : Z) (ret : bool) w : bool * resman M :=
  match l with
  | [] => (ret, w)
  | n :: rest =>
      if u32 secure_count <? limit then (ret, w)
      else match s n with
           | NCodecMm _ true =>
               let '(b, w) := resman_preempt_session curr (Some n) w in
               secure_loop rest curr limit (s32 (secure_count - 1)) (ret || b) w
           | _ => secure_loop rest curr limit secure_count ret w
           end
  end.

Definition resman_codec_mm_preempt (fuel : nat) (curr r total limit secure_count size : Z) (secure : bool) w : outcome (bool * resman M) :=
  let '(ret, w) := if secure then secure_loop (resource_sessions w r) curr limit secure_count false w else (false, w) in
  preempt_loop fuel curr r total size (curr_prio w curr) ret w.

(** ** Acquiring *)

(** What an acquisition came to: a node with its data, nothing, or a wait. *)
Inductive attempt := Yes (x : node_data) | No | Wait.

(** What a call came to: its result, or one of the two waits. *)
Inductive answer (A : Type) := Ret (a : A) | Gate | Waits.
#[global] Arguments Ret {A}.
#[global] Arguments Gate {A}.
#[global] Arguments Waits {A}.
Definition ioctl_ret (a : answer bool) : answer Z :=
  match a with Ret b => Ret (if b then 0 else - EBUSY) | Gate => Gate | Waits => Waits end.

(** The timeout after a preemption was tried: the default when none was given, 0 when nobody was preempted. *)
Definition timeout_after (preempt preempted : bool) (timeout : Z) : Z :=
  if preempt then (if preempted then (if timeout =? 0 then preempt_timeout_ms else timeout) else 0) else timeout.

Definition counter_take (sess r avail : Z) (l : option (list counter_res_state)) (v : Z) w : attempt * resman M :=
  if u32 v <? avail then
    let '(_, l') := resman_counter_res_list_acquire_item l sess in
    (Yes NNone, upd_res r (fun x => set_d (DCounter avail l') (set_value (s32 (value x + 1)) x)) w)
  else (No, w).

Definition resman_counter_acquire (resumed : bool) (sess r avail : Z) (l : option (list counter_res_state)) (v : Z) (preempt : bool) (timeout : Z) w
    : attempt * resman M :=
  if negb resumed && (avail <=? u32 v) then
    let '(b, w) := if preempt then resman_counter_preempt sess r w else (false, w) in
    if truthy (timeout_after preempt b timeout) then (Wait, w) else counter_take sess r avail l v w
  else counter_take sess r avail l v w.

Definition resman_toggle_acquire (r v : Z) (arg : option (list Z)) w : attempt * resman M :=
  match arg with
  | Some (c :: _) =>
      if c =? 43 then if 0 <=? v then (Yes (NToggle true), upd_res r (set_value (s32 (v + 1))) w) else (No, w)
      else if c =? 45 then if v <=? 0 then (Yes (NToggle false), upd_res r (set_value (s32 (v - 1))) w) else (No, w)
      else (No, w)
  | _ => (No, w)
  end.

(** Number of sessions that have codec memory. *)
Definition resman_count_codec_mm_session (secure : bool) w : Z :=
  match resman_find_resource_by_id w RESMAN_ID_CODEC_MM with
  | Some x => match d x with DCodecMm _ _ _ _ cs cn => if secure then cs else cn | _ => 0 end
  | None => 0
  end.

(** Size and flags of the argument; without one, strcmp reads NULL. *)
Definition tvp_args (arg : option (list Z)) : outcome (Z * Z) :=
  match arg with
  | None => Fault
  | Some a =>
      match resman_parser_kv arg (bytes_of "size") with
      | Some size => Done (s32 size, 1)
      | None => Done (0, if bool_decide (fst (cut 58 a) = bytes_of "uhd") then 2 else 1)
      end
  end.

(** One turn of the loop; it waits and turns again after a preemption. *)
Definition resman_tvp_acquire (sess r v : Z) (preempt : bool) (timeout : Z) (arg : option (list Z)) w : outcome (attempt * resman M) :=
  let* (size, flags) := tvp_args arg in
  let count := resman_count_codec_mm_session false w in
  let '(e, m) := codec_mm_enable_tvp size flags (mm w) in
  let w := set_mm m w in
  if e =? 0 then Done (Yes NNone, upd_res r (set_value (s32 (v + 1))) w)
  else if negb preempt || (count =? 0) then Done (No, w)
  else
    let '(b, w) := resman_tvp_preempt sess w in
    if b then Done (Wait, w) else Done (No, w).

Definition resman_codec_mm_enough (score : Z) (secure : bool) w : bool :=
  if secure then negb (u32 ((codec_mm_get_tvp_free_size (mm w) + codec_mm_get_free_size (mm w)) >> 20) <? score)
  else negb (u32 (codec_mm_get_free_size (mm w) >> 20) <? score).

(** Score and secure of the options, with the defaults of the resource. *)
Definition codec_mm_args (fhd uhd : Z) (arg : option (list Z)) : Z * bool :=
  fold_left (fun '(score, secure) opt =>
    if starts_with (bytes_of "size") opt then (default score (resman_parser_kv (Some opt) (bytes_of "size")), secure)
    else if bool_decide (opt = bytes_of "single") then (SINGLE_SIZE, secure)
    else if bool_decide (opt = bytes_of "uhd") then (uhd, secure)
    else if bool_decide (opt = bytes_of "secure") then (score, true)
    else (score, secure)) (options arg) (fhd, false).

Definition codec_mm_take (r score : Z) (secure : bool) w : attempt * resman M :=
  if resman_codec_mm_enough score secure w then
    (Yes (NCodecMm score secure),
     upd_res r (fun x => match d x with
       | DCodecMm total uhd fhd sec cs cn =>
           set_d (DCodecMm total uhd fhd sec (if secure then s32 (cs + 1) else cs) (if secure then cn else s32 (cn + 1)))
             (set_value (s32 (value x + score)) x)
       | _ => x end) w)
  else (No, w).

Definition resman_codec_mm_acquire (fuel : nat) (resumed : bool) (sess r total uhd fhd limit cs : Z) (preempt : bool) (timeout : Z)
    (arg : option (list Z)) w : outcome (attempt * resman M) :=
  let '(score, secure) := codec_mm_args fhd uhd arg in
  if negb resumed && negb (resman_codec_mm_enough score secure w) then
    let* (b, w) := (if preempt then resman_codec_mm_preempt fuel sess r total limit cs score secure w else Done (false, w)) in
    if truthy (timeout_after preempt b timeout) then Done (Wait, w) else Done (codec_mm_take r score secure w)
  else Done (codec_mm_take r score secure w).

(** The size of the options; nothing when one of them cannot be read. *)
Definition capacity_args (arg : option (list Z)) : option Z :=
  fold_left (fun acc opt =>
    match acc with
    | None => None
    | Some size => if starts_with (bytes_of "size") opt then resman_parser_kv (Some opt) (bytes_of "size") else Some size
    end) (options arg) (Some 0).

Definition resman_capacity_enough (v total size : Z) : bool := negb (total <? u32 (v + size)).

Definition capacity_take (r v total size : Z) w : attempt * resman M :=
  if resman_capacity_enough v total size then (Yes (NCapacity size), upd_res r (fun x => set_value (s32 (value x + size)) x) w)
  else (No, w).

Definition resman_capacity_acquire (fuel : nat) (resumed : bool) (sess r v total : Z) (preempt : bool) (timeout : Z) (arg : option (list Z)) w
    : outcome (attempt * resman M) :=
  match capacity_args arg with
  | None => Done (No, w)
  | Some size =>
      if size <=? 0 then Done (No, w)
      else if negb resumed && negb (resman_capacity_enough v total size) then
        let* (b, w) := (if preempt then resman_capacity_preempt fuel sess r total size w else Done (false, w)) in
        if truthy (timeout_after preempt b timeout) then Done (Wait, w) else Done (capacity_take r v total size w)
      else Done (capacity_take r v total size w)
  end.

(** The hook of the resource. *)
Definition acquire (fuel : nat) (resumed : bool) (sess r : Z) (x : resman_resource) (preempt : bool) (timeout : Z) (arg : option (list Z)) w
    : outcome (attempt * resman M) :=
  match d x with
  | DCounter avail l => Done (resman_counter_acquire resumed sess r avail l (value x) preempt timeout w)
  | DToggle => Done (resman_toggle_acquire r (value x) arg w)
  | DTvp => resman_tvp_acquire sess r (value x) preempt timeout arg w
  | DCodecMm total uhd fhd limit cs _ => resman_codec_mm_acquire fuel resumed sess r total uhd fhd limit cs preempt timeout arg w
  | DCapacity total => resman_capacity_acquire fuel resumed sess r (value x) total preempt timeout arg w
  end.

(** The node enters both lists, or the wait is counted. *)
Definition settle (sess r : Z) (a : attempt) w : answer bool * resman M :=
  match a with
  | Yes x => (Ret true, upd_sess sess (set_status RESMAN_STATUS_ACQUIRED) (set_nodes (nodes w ++ [Node sess r x]) w))
  | No => (Ret false, w)
  | Wait => (Waits, upd_res r (add_pending 1) w)
  end.

(** From the lock of the resource on.  [node_ok]: is there memory for the node? *)
Definition acquire_locked (fuel : nat) (node_ok : bool) (sess r : Z) (preempt : bool) (timeout : Z) (arg : option (list Z)) w
    : outcome (answer bool * resman M) :=
  match resources w !! r with
  | None => Fault
  | Some x =>
      if freed x then Fault
      else if negb node_ok then Done (Ret false, w)
      else let* (a, w) := acquire fuel false sess r x preempt timeout arg w in Done (settle sess r a w)
  end.

Definition resman_acquire_resource (fuel : nat) (node_ok : bool) (sess r : Z) (preempt : bool) (timeout : Z) (arg : option (list Z)) w
    : outcome (answer bool * resman M) :=
  match resources w !! r with
  | None => Fault
  | Some x =>
      if freed x then Fault
      else if 0 <? pending_acquire x then Done (Gate, w)
      else acquire_locked fuel node_ok sess r preempt timeout arg w
  end.

(** From the end of the wait for a release on. *)
Definition resume_acquire (fuel : nat) (sess r : Z) (preempt : bool) (timeout : Z) (arg : option (list Z)) w : outcome (answer bool * resman M) :=
  match resources w !! r with
  | None => Fault
  | Some x =>
      if freed x then Fault
      else
        let w := upd_res r (add_pending (-1)) w in
        let* (a, w) := acquire fuel true sess r x preempt timeout arg w in Done (settle sess r a w)
  end.

(** ** Releasing *)

Definition resman_counter_release (sess : Z) (x : resman_resource) (avail : Z) (l : option (list counter_res_state)) : resman_resource :=
  if 0 <? value x then set_d (DCounter avail (resman_counter_res_list_release_item l sess)) (set_value (s32 (value x - 1)) x) else x.

Definition resman_toggle_release (x : resman_resource) (plus : bool) : resman_resource :=
  if plus then if 0 <? value x then set_value (s32 (value x - 1)) x else x
  else if value x <? 0 then set_value (s32 (value x + 1)) x else x.

Definition resman_codec_mm_release (x : resman_resource) (total uhd fhd limit cs cn score : Z) (secure : bool) : resman_resource :=
  let x := set_d (DCodecMm total uhd fhd limit (if secure then s32 (cs - 1) else cs) (if secure then cn else s32 (cn - 1))) x in
  if score <=? u32 (value x) then set_value (s32 (value x - score)) x else x.

Definition resman_capacity_release (x : resman_resource) (use : Z) : resman_resource :=
  if use <=? u32 (value x) then set_value (s32 (value x - use)) x else x.

(** The hook; the data of the node is read as the resource is now. *)
Definition release (n : resman_node) (x : resman_resource) w : outcome (resman M) :=
  let r := resource_ptr n in
  match d x, s n with
  | DCounter avail l, NNone => Done (upd_res r (fun _ => resman_counter_release (session_ptr n) x avail l) w)
  | DToggle, NToggle t => Done (upd_res r (fun _ => resman_toggle_release x t) w)
  | DTvp, NNone =>
      if 0 <? value x then Done (upd_res r (set_value (s32 (value x - 1))) (set_mm (codec_mm_disable_tvp (mm w)) w)) else Done w
  | DCodecMm total uhd fhd limit cs cn, NCodecMm score secure =>
      Done (upd_res r (fun _ => resman_codec_mm_release x total uhd fhd limit cs cn score secure) w)
  | DCapacity _, NCapacity use => Done (upd_res r (fun _ => resman_capacity_release x use) w)
  | _, _ => Fault
  end.

(** list_del of the first node equal to [n]: a session has one node of a resource. *)
Fixpoint del_node (n : resman_node) (l : list resman_node) : list resman_node :=
  match l with
  | [] => []
  | m :: r => if same_node (session_ptr n) (resource_ptr n) m then r else m :: del_node n r
  end.

Definition resman_release_resource (n : resman_node) w : outcome (resman M) :=
  match resources w !! resource_ptr n with
  | None => Fault
  | Some x =>
      if freed x then Fault
      else let* w := release n x w in Done (set_nodes (del_node n (nodes w)) w)
  end.

Fixpoint release_nodes (l : list resman_node) w : outcome (resman M) :=
  match l with
  | [] => Done w
  | n :: r => let* w := resman_release_resource n w in release_nodes r w
  end.

(** ** Sessions *)

Definition resman_open_session w : Z * resman M :=
  (sess_id w, RM (<[sess_id w := Sess RESMAN_STATUS_INITED [] [] 0 0]> (sessions w)) (resources w) (nodes w) (s32 (sess_id w + 1)) (mm w)).

Definition resman_close_session (i : Z) w : outcome (resman M) :=
  let* w := release_nodes (session_resources w i) w in Done (set_sessions (delete i (sessions w)) w).

Definition resman_ioctl_acquire (fuel : nat) (node_ok : bool) (sess k : Z) (preempt : bool) (timeout : Z) (arg : option (list Z)) w
    : outcome (answer Z * resman M) :=
  match resman_find_resource_by_id w k with
  | None => Done (Ret (- EINVAL), w)
  | Some _ =>
      match resman_find_node_by_resource_id w sess k with
      | Some _ => Done (Ret 0, w)
      | None =>
          let* (ret, w) := resman_acquire_resource fuel node_ok sess k preempt timeout arg w in Done (ioctl_ret ret, w)
      end
  end.

Definition resman_ioctl_release (sess k : Z) w : outcome (Z * resman M) :=
  match resman_find_resource_by_id w k with
  | None => Done (- EINVAL, w)
  | Some _ =>
      match resman_find_node_by_resource_id w sess k with
      | Some n => let* w := resman_release_resource n w in Done (0, w)
      | None => Done (0, w)
      end
  end.

Definition resman_ioctl_release_all (sess : Z) w : outcome (resman M) := release_nodes (session_resources w sess) w.

Definition resman_ioctl_setappinfo (sess : Z) (n : list Z) (type p : Z) w : resman M :=
  upd_sess sess (fun v => Sess (status v) (events v) (take 31 n) (s32 type) p) w.

(** A read of the event queue. *)
Definition resman_read (sess len : Z) w : Z * option Z * resman M :=
  if len <? 4 then (- EINVAL, None, w)
  else match sessions w !! sess with
       | Some v => match events v with
                   | e :: r => (4, Some e, upd_sess sess (fun v => Sess (status v) r (app_name v) (app_type v) (prio v)) w)
                   | [] => (-14, None, w)
                   end
       | None => (-14, None, w)
       end.

Fixpoint index_of (l : list counter_res_state) (i sess : Z) : Z :=
  match l with
  | [] => -1
  | x :: r => if (state x =? 1) && (ssid x =? sess) then i else index_of r (i + 1) sess
  end.

(** The union is read as a counter whatever the type of the resource. *)
Definition resman_get_counter_index (sess id : Z) w : outcome Z :=
  match resman_find_resource_by_id w (s32 id) with
  | None => Done (-1)
  | Some x => match d x with DCounter _ (Some l) => Done (index_of l 0 sess) | _ => Fault end
  end.

(** ** Creating resources *)

Definition resman_codec_mm_probe w : resource_data :=
  let '(fhd, uhd) := codec_mm_get_default_tvp_size (mm w) in
  let total := codec_mm_get_total_size (mm w) in
  DCodecMm (u32 (total >> 20)) (u32 (uhd >> 20)) (u32 (fhd >> 20)) (if fhd + uhd <=? total then 2 else 1) 0 0.

(** Number and name of a resource; an unknown name gets its first four letters as number. *)
Definition resource_id (n : list Z) : option (Z * list Z) :=
  match List.find (fun e => bool_decide (e.2 = n)) resources_map with
  | Some (id, nm) => Some (id, nm)
  | None =>
      match n with
      | r0 :: r1 :: r2 :: r3 :: _ => Some (s32 ((r0 << 24) .| (r1 << 16) .| (r2 << 8) .| r3), if Z.of_nat (length n) <? 32 then n else [])
      | _ => None
      end
  end.

(** The data of the type, from the argument.  [list_ok]: is there memory for the list of a counter? *)
Definition resource_args (list_ok : bool) (type : Z) (arg : option (list Z)) w : option resource_data :=
  let kv i := resman_parser_kv (options arg !! i) in
  if type =? RESMAN_TYPE_COUNTER then
    (fun avail => DCounter avail (if list_ok then Some (resman_counter_res_list_init avail) else None)) <$> resman_parser_kv arg (bytes_of "avail")
  else if type =? RESMAN_TYPE_TOGGLE then Some DToggle
  else if type =? RESMAN_TYPE_TVP then Some DTvp
  else if type =? RESMAN_TYPE_CODEC_MM then
    total ← kv 0%nat (bytes_of "total");
    if truthy total then
      uhd ← kv 1%nat (bytes_of "uhd"); fhd ← kv 2%nat (bytes_of "fhd"); secure ← kv 3%nat (bytes_of "secure");
      Some (DCodecMm total uhd fhd secure 0 0)
    else Some (resman_codec_mm_probe w)
  else if type =? RESMAN_TYPE_CAPACITY_SIZE then DCapacity <$> kv 0%nat (bytes_of "total")
  else None.

Definition resman_create_resource (res_ok list_ok : bool) (n : option (list Z)) (type : Z) (arg : option (list Z)) w : bool * resman M :=
  match n with
  | None => (false, w)
  | Some n =>
      if negb res_ok then (false, w)
      else match resource_id n with
           | None => (false, w)
           | Some (id, nm) =>
               if id <? 0 then (false, w)
               else match resource_args list_ok type arg w, resources w !! id with
                    (* the error path frees the resource, also one that is in use *)
                    | None, Some x => (false, upd_res id (fun x => Res (name x) (value x) (d x) (pending_acquire x) true) w)
                    | None, None => (false, w)
                    | Some dat, Some x => (true, upd_res id (set_d dat) w)
                    | Some dat, None => (true, set_resources (<[id := Res nm 0 dat 0 false]> (resources w)) w)
                    end
           end
  end.

(** Releasing what is still held takes the list entry of the resource for that of a node. *)
Definition all_resource_uninit w : outcome (resman M) :=
  if existsb (fun kv => freed kv.2) (map_to_list (resources w)) then Fault
  else match nodes w with [] => Done (set_resources ∅ w) | _ => Fault end.

End Ops.
End ResMan.
