(* ===== verification/ResManInv.v ===== *)
(** * The resource manager keeps its accounts

    Threads of several sessions acquire, wait, release and close in any order
    ([step]); through all of it every resource counts exactly what its holders
    have, a session holds a resource once, and nothing is granted above what
    there is. *)

From S2P Require Import Prelude Mem ResMan.
From stdpp Require Import base list numbers gmap relations.
From Stdlib Require Import ZArith Lia.
From Stdlib Require String.
Import String.StringSyntax.

Local Open Scope Z_scope.
Local Open Scope cint_scope.

Module ResManInv.
Import ResMan.

(** ** Accounts *)

Abbreviation count l := (Z.of_nat (length l)).

Definition used_ids (it : list counter_res_state) : list Z := ssid <$> List.filter (fun x => state x =? 1) it.
Definition item_ok (x : counter_res_state) : Prop := (state x = 1 /\ 0 < ssid x) \/ (state x = 0 /\ ssid x = -1).
Definition is_secure (n : resman_node) : bool := match s n with NCodecMm _ b => b | _ => false end.
Fixpoint total_use (l : list resman_node) : Z := match l with [] => 0 | n :: r => node_use n + total_use r end.

(** What the resource says of the nodes that hold it. *)
Definition fits (v : Z) (dat : resource_data) (l : list resman_node) : Prop :=
  match dat with
  | DCounter avail items =>
      Forall (fun n => s n = NNone) l /\ v = count l /\ count l <= avail < 2 ^ 31 /\
      match items with
      | Some it => count it = avail /\ Forall item_ok it /\ used_ids it ≡ₚ session_ptr <$> l
      | None => True
      end
  | DToggle => exists b : bool, Forall (fun n => s n = NToggle b) l /\ v = if b then count l else - count l
  | DTvp => Forall (fun n => s n = NNone) l /\ v = count l
  | DCodecMm _ uhd fhd _ cs cn =>
      0 <= uhd /\ 0 <= fhd /\ Forall (fun n => match s n with NCodecMm sc _ => 0 <= sc | _ => False end) l /\
      v = total_use l /\ total_use l < 2 ^ 31 /\
      cs = count (List.filter is_secure l) /\ cn = count (List.filter (fun n => negb (is_secure n)) l)
  | DCapacity total =>
      Forall (fun n => match s n with NCapacity use => 0 < use | _ => False end) l /\
      v = total_use l /\ total_use l <= total < 2 ^ 31
  end.

(** The data as the resource was created. *)
Definition blank (dat : resource_data) : resource_data :=
  match dat with
  | DCounter avail items => DCounter avail ((fun _ => resman_counter_res_list_init avail) <$> items)
  | DCodecMm total uhd fhd lim _ _ => DCodecMm total uhd fhd lim 0 0
  | _ => dat
  end.

Lemma total_use_app l l' : total_use (l ++ l') = total_use l + total_use l'.
Proof. induction l as [|n l IH]; cbn; [done|]. rewrite IH. lia. Qed.

Lemma total_use_nonneg l : Forall (fun n => match s n with NCapacity use => 0 < use | _ => False end) l -> 0 <= total_use l.
Proof.
  induction 1 as [|n l Hn _ IH]; cbn; [done|]. unfold node_use. destruct (s n); try done. lia.
Qed.

Lemma total_score_nonneg l : Forall (fun n => match s n with NCodecMm sc _ => 0 <= sc | _ => False end) l -> 0 <= total_use l.
Proof.
  induction 1 as [|n l Hn _ IH]; cbn; [done|]. unfold node_use. destruct (s n); try done. lia.
Qed.

Lemma filter_length_split {A} (f : A -> bool) l :
  count l = count (List.filter f l) + count (List.filter (fun x => negb (f x)) l).
Proof. induction l as [|x l IH]; cbn [List.filter length]; [done|]. destruct (f x); cbn [negb length]; lia. Qed.

(** ** Items of a counter *)

Lemma acquire_item_spec it : forall i id, Forall item_ok it -> 0 < id -> (length (used_ids it) < length it)%nat ->
  let l' := (acquire_item it i id).2 in
  length l' = length it /\ Forall item_ok l' /\ used_ids l' ≡ₚ id :: used_ids it.
Proof.
  induction it as [|x it IH]; intros i id Hok Hid Hlen; [cbn in Hlen; lia|].
  apply Forall_cons in Hok as [Hx Hok]. cbn [acquire_item]. destruct (Z.eqb_spec (state x) 0) as [E|E].
  - cbn. split; [done|]. split; [constructor; [left; cbn; lia|done]|].
    unfold used_ids. cbn. by rewrite E.
  - destruct Hx as [[Hx Hs]|[Hx _]]; [|done].
    assert (Hlen' : (length (used_ids it) < length it)%nat) by (unfold used_ids in *; cbn in Hlen; rewrite Hx in Hlen; cbn in Hlen; lia).
    specialize (IH (i + 1) id Hok Hid Hlen'). destruct (acquire_item it (i + 1) id) as [k l'] eqn:Ea. cbn in IH |- *.
    destruct IH as (H1 & H2 & H3). split; [lia|]. split; [constructor; [by left|done]|].
    unfold used_ids in *. cbn. rewrite Hx. cbn. rewrite H3. apply Permutation_swap.
Qed.

Lemma release_item_spec it : forall id, Forall item_ok it -> 0 < id -> id ∈ used_ids it ->
  length (release_item it id) = length it /\ Forall item_ok (release_item it id) /\ id :: used_ids (release_item it id) ≡ₚ used_ids it.
Proof.
  induction it as [|x it IH]; intros id Hok Hid Hin; [by apply elem_of_nil in Hin|].
  apply Forall_cons in Hok as [Hx Hok]. cbn [release_item]. destruct (Z.eqb_spec (ssid x) id) as [E|E].
  - destruct Hx as [[Hx Hs]|[_ Hs]]; [|lia]. cbn. split; [done|]. split; [constructor; [right; done|done]|].
    unfold used_ids. cbn. rewrite Hx. cbn. by rewrite E.
  - unfold used_ids in *. cbn [List.filter] in Hin |- *. destruct Hx as [[Hx Hs]|[Hx Hs]]; rewrite Hx in *; cbn in Hin |- *.
    + apply elem_of_cons in Hin as [Hin|Hin]; [congruence|]. destruct (IH id Hok Hid Hin) as (H1 & H2 & H3).
      split; [lia|]. split; [constructor; [by left|done]|]. rewrite <- H3. apply Permutation_swap.
    + destruct (IH id Hok Hid Hin) as (H1 & H2 & H3). split; [lia|]. split; [constructor; [by right|done]|]. done.
Qed.

(** ** One more holder *)

Lemma fits_counter_add v avail items l sess r :
  fits v (DCounter avail items) l -> 0 < sess -> v < avail ->
  fits (s32 (v + 1)) (DCounter avail (resman_counter_res_list_acquire_item items sess).2) (l ++ [Node sess r NNone]).
Proof.
  intros (F & -> & Hb & Hi) Hs Hv. unfold fits. rewrite s32_small by lia. rewrite length_app. cbn [length].
  split; [apply Forall_app; split; [done|by constructor]|]. split; [lia|]. split; [lia|].
  destruct items as [it|]; [|done]. destruct Hi as (L & O & P).
  destruct (acquire_item_spec it 0 sess O Hs) as (H1 & H2 & H3).
  { apply Permutation_length in P. rewrite length_fmap in P. lia. }
  cbn. destruct (acquire_item it 0 sess) as [k l']. cbn in *. split; [lia|]. split; [done|].
  rewrite H3, fmap_app. cbn. rewrite P. apply Permutation_cons_append.
Qed.

Lemma fits_toggle_add v l sess r (b : bool) :
  fits v DToggle l -> count l < 2 ^ 31 - 1 -> (if b then 0 <= v else v <= 0) ->
  fits (s32 (if b then v + 1 else v - 1)) DToggle (l ++ [Node sess r (NToggle b)]).
Proof.
  intros (b0 & F & ->) Hl Hv. exists b. rewrite length_app. cbn [length]. split.
  - apply Forall_app. split; [|by constructor]. destruct l as [|n l]; [done|]. cbn [length] in Hv.
    assert (b = b0) as -> by (destruct b, b0; auto; lia). done.
  - destruct l as [|n l]; [destruct b, b0; reflexivity|]. cbn [length] in *.
    assert (b = b0) as -> by (destruct b, b0; auto; lia). destruct b0; rewrite s32_small by lia; lia.
Qed.

Lemma fits_tvp_add v l sess r : fits v DTvp l -> count l < 2 ^ 31 - 1 -> fits (s32 (v + 1)) DTvp (l ++ [Node sess r NNone]).
Proof.
  intros (F & ->) Hl. split; [apply Forall_app; split; [done|by constructor]|]. rewrite length_app. cbn [length].
  rewrite s32_small by lia. lia.
Qed.

Lemma fits_codec_add v total uhd fhd lim cs cn l sess r score (sec : bool) :
  fits v (DCodecMm total uhd fhd lim cs cn) l -> count l < 2 ^ 31 - 1 -> 0 <= score -> total_use l + score < 2 ^ 31 ->
  fits (s32 (v + score)) (DCodecMm total uhd fhd lim (if sec then s32 (cs + 1) else cs) (if sec then cn else s32 (cn + 1)))
    (l ++ [Node sess r (NCodecMm score sec)]).
Proof.
  intros (U1 & U2 & F & -> & Ht & -> & ->) Hl Hs Hr. pose proof (filter_length_split is_secure l). pose proof (total_score_nonneg l F). split; [done|]. split; [done|].
  split; [apply Forall_app; split; [done|constructor; [exact Hs|constructor]]|].
  rewrite total_use_app. cbn [total_use node_use s]. split; [rewrite s32_small by lia; lia|]. split; [lia|]. rewrite !List.filter_app, !length_app. cbn [List.filter is_secure s].
  destruct sec; cbn [negb length]; split; rewrite ?s32_small by lia; lia.
Qed.

Lemma fits_capacity_add v total l sess r size :
  fits v (DCapacity total) l -> 0 < size < 2 ^ 31 -> resman_capacity_enough v total size = true ->
  fits (s32 (v + size)) (DCapacity total) (l ++ [Node sess r (NCapacity size)]).
Proof.
  intros (F & -> & Hb) Hs He. pose proof (total_use_nonneg l F). unfold resman_capacity_enough in He. b2p.
  rewrite u32_small in He by lia. unfold fits. rewrite total_use_app. cbn [total_use node_use s].
  rewrite s32_small by lia. split; [apply Forall_app; split; [done|constructor; [exact (proj1 Hs)|constructor]]|]. lia.
Qed.

(** ** One holder less *)

Lemma fits_counter_del v avail items l1 n l2 :
  fits v (DCounter avail items) (l1 ++ n :: l2) -> 0 < session_ptr n ->
  0 < v /\ fits (s32 (v - 1)) (DCounter avail (resman_counter_res_list_release_item items (session_ptr n))) (l1 ++ l2).
Proof.
  intros (F & -> & Hb & Hi) Hs. rewrite length_app in *. cbn [length] in *. split; [lia|]. unfold fits.
  rewrite length_app, s32_small by lia. split.
  - apply Forall_app in F as [F1 F2]. apply Forall_cons in F2 as [_ F2]. by apply Forall_app.
  - split; [lia|]. split; [lia|]. destruct items as [it|]; [|done]. destruct Hi as (L & O & P).
    cbn. rewrite (proj2 (Z.leb_gt _ _)) by done.
    destruct (release_item_spec it (session_ptr n) O Hs) as (H1 & H2 & H3).
    { rewrite P, fmap_app. cbn. apply elem_of_app. right. left. }
    split; [lia|]. split; [done|]. apply (Permutation_cons_inv (a := session_ptr n)). rewrite H3, P, !fmap_app. cbn.
    symmetry. apply Permutation_middle.
Qed.

Lemma fits_toggle_del v l1 n l2 t :
  fits v DToggle (l1 ++ n :: l2) -> s n = NToggle t -> count (l1 ++ n :: l2) < 2 ^ 31 ->
  (if t then 0 < v else v < 0) /\ fits (s32 (if t then v - 1 else v + 1)) DToggle (l1 ++ l2).
Proof.
  intros (b & F & ->) Hn Hl. rewrite length_app in *. cbn [length] in *.
  apply Forall_app in F as [F1 F2]. apply Forall_cons in F2 as [Hb F2]. rewrite Hn in Hb. injection Hb as ->.
  split; [destruct b; lia|]. exists b. split; [by apply Forall_app|]. rewrite length_app. destruct b; rewrite s32_small by lia; lia.
Qed.

Lemma fits_tvp_del v l1 n l2 : fits v DTvp (l1 ++ n :: l2) -> count (l1 ++ n :: l2) < 2 ^ 31 ->
  0 < v /\ fits (s32 (v - 1)) DTvp (l1 ++ l2).
Proof.
  intros (F & ->) Hl. rewrite length_app in *. cbn [length] in *. split; [lia|].
  apply Forall_app in F as [F1 F2]. apply Forall_cons in F2 as [_ F2].
  split; [by apply Forall_app|]. rewrite length_app, s32_small by lia. lia.
Qed.

Lemma fits_codec_del v total uhd fhd lim cs cn l1 n l2 score sec :
  fits v (DCodecMm total uhd fhd lim cs cn) (l1 ++ n :: l2) -> s n = NCodecMm score sec -> count (l1 ++ n :: l2) < 2 ^ 31 ->
  score <= u32 v /\ fits (s32 (v - score)) (DCodecMm total uhd fhd lim (if sec then s32 (cs - 1) else cs) (if sec then cn else s32 (cn - 1))) (l1 ++ l2).
Proof.
  intros (U1 & U2 & F & -> & Ht & -> & ->) Hn Hl. apply Forall_app in F as [F1 F2]. apply Forall_cons in F2 as [Hu F2]. rewrite Hn in Hu.
  pose proof (filter_length_split is_secure (l1 ++ n :: l2)). pose proof (total_score_nonneg _ F1). pose proof (total_score_nonneg _ F2).
  rewrite total_use_app in *. cbn [total_use] in *. assert (Hnu : node_use n = score) by (unfold node_use; by rewrite Hn). rewrite Hnu in *.
  split; [rewrite u32_small; lia|]. unfold fits. rewrite total_use_app. rewrite (s32_small (_ - score)) by lia. split; [done|]. split; [done|]. split; [by apply Forall_app|].
  rewrite !List.filter_app, !length_app in *. cbn [List.filter] in *.
  assert (Hs : is_secure n = sec) by (unfold is_secure; by rewrite Hn). rewrite Hs in *.
  split; [lia|]. split; [lia|]. destruct sec; cbn [negb length] in *; split; rewrite ?s32_small by lia; lia.
Qed.

Lemma fits_capacity_del v total l1 n l2 use :
  fits v (DCapacity total) (l1 ++ n :: l2) -> s n = NCapacity use ->
  use <= u32 v /\ fits (s32 (v - use)) (DCapacity total) (l1 ++ l2).
Proof.
  intros (F & -> & Hb) Hn. apply Forall_app in F as [F1 F2]. apply Forall_cons in F2 as [Hu F2]. rewrite Hn in Hu.
  rewrite total_use_app in *. cbn [total_use] in *.
  assert (Hnu : node_use n = use) by (unfold node_use; by rewrite Hn). rewrite Hnu in *.
  pose proof (total_use_nonneg _ F1). pose proof (total_use_nonneg _ F2).
  split; [rewrite u32_small; lia|]. unfold fits. rewrite total_use_app, s32_small by lia. split; [by apply Forall_app|]. lia.
Qed.

(** ** What an acquisition changes *)

Section Manager.
Context {M : Type}.
Variable kstrtou32 : list Z -> option Z.
Variable enable_tvp : Z -> Z -> M -> Z * M.
Variable disable_tvp : M -> M.
Variable free_size : M -> Z.
Variable tvp_free_size : M -> Z.
(** kstrtou32 gives an unsigned number of 32 bits. *)
Hypothesis kstr_range : forall str v, kstrtou32 str = Some v -> 0 <= v < 2 ^ 32.
Implicit Types w : resman M.

(** Nothing but the accounts of the resource changes. *)
Definition kept (x x' : resman_resource) : Prop :=
  name x' = name x /\ pending_acquire x' = pending_acquire x /\ freed x' = freed x /\ blank (d x') = blank (d x).

Lemma upd_res_insert r f x w : resources w !! r = Some x -> resources (upd_res r f w) = <[r := f x]> (resources w).
Proof.
  intros Hx. cbn. apply map_eq. intros i. destruct (decide (i = r)) as [->|].
  - by rewrite lookup_alter_eq, Hx, lookup_insert_eq.
  - by rewrite lookup_alter_ne, lookup_insert_ne.
Qed.

(** Statuses, events and codec memory aside, nothing changes. *)
Record quiet w w' : Prop := Quiet {
  q_res : resources w' = resources w; q_nodes : nodes w' = nodes w; q_id : sess_id w' = sess_id w;
  q_dom : forall i, is_Some (sessions w' !! i) <-> is_Some (sessions w !! i) }.

Lemma quiet_refl w : quiet w w.
Proof. done. Qed.

Lemma quiet_trans w1 w2 w3 : quiet w1 w2 -> quiet w2 w3 -> quiet w1 w3.
Proof. intros [] []. split; [congruence..|]. intros i. etrans; eauto. Qed.

Lemma alter_dom {A} (f : A -> A) (k i : Z) (m : gmap Z A) : is_Some (alter f k m !! i) <-> is_Some (m !! i).
Proof.
  destruct (decide (i = k)) as [->|].
  - rewrite lookup_alter_eq. by rewrite fmap_is_Some.
  - by rewrite lookup_alter_ne.
Qed.

Lemma quiet_upd_sess i f w : quiet w (upd_sess i f w).
Proof. split; try done. intros j. apply alter_dom. Qed.

Lemma quiet_set_mm m w : quiet w (set_mm m w).
Proof. done. Qed.

Section Preempt.
Variable busy : Z -> bool.
Variable releases : resman_node -> bool.
Variable event_ok : bool.

Lemma preempt_session_quiet curr sel w : quiet w (resman_preempt_session busy releases event_ok curr sel w).2.
Proof.
  unfold resman_preempt_session. destruct sel as [n|]; [|done]. do 2 (case_if; [done|]). cbn. unfold resman_send_event.
  destruct event_ok; [|apply quiet_upd_sess]. eapply quiet_trans; apply quiet_upd_sess.
Qed.

Lemma preempt_loop_quiet fuel : forall curr r total size low ret w b w',
  preempt_loop busy releases event_ok fuel curr r total size low ret w = Done (b, w') -> quiet w w'.
Proof.
  induction fuel as [|f IH]; intros curr r total size low ret w b w'; [done|]. cbn [preempt_loop].
  case_if; [by intros [= _ <-]|]. destruct (select_victim _ _ _ _) as [[n|] low']; [|by intros [= _ <-]].
  pose proof (preempt_session_quiet curr (Some n) w) as Hq.
  destruct (resman_preempt_session _ _ _ _ _ _) as [b1 w1]. cbn in Hq. case_if.
  - intros H. eapply quiet_trans; [exact Hq|]. by eapply IH.
  - by intros [= _ <-].
Qed.

Lemma secure_loop_quiet l : forall curr lim cnt ret w, quiet w (secure_loop busy releases event_ok l curr lim cnt ret w).2.
Proof.
  induction l as [|n l IH]; intros curr lim cnt ret w; [done|]. cbn [secure_loop]. case_if; [done|].
  destruct (s n) as [| |sc []|]; try apply IH. pose proof (preempt_session_quiet curr (Some n) w) as Hq.
  destruct (resman_preempt_session _ _ _ _ _ _) as [b1 w1]. cbn in Hq. eapply quiet_trans; [exact Hq|]. apply IH.
Qed.

Lemma codec_preempt_quiet fuel curr r total lim cnt size sec w b w' :
  resman_codec_mm_preempt busy releases event_ok fuel curr r total lim cnt size sec w = Done (b, w') -> quiet w w'.
Proof.
  unfold resman_codec_mm_preempt. destruct sec; [|apply preempt_loop_quiet].
  pose proof (secure_loop_quiet (resource_sessions w r) curr lim cnt false w) as Hq.
  destruct (secure_loop _ _ _ _ _ _ _ _ _) as [ret w1]. intros H. eapply quiet_trans; [exact Hq|]. by eapply preempt_loop_quiet.
Qed.

Lemma tvp_preempt_quiet curr w : quiet w (resman_tvp_preempt busy releases event_ok curr w).2.
Proof. unfold resman_tvp_preempt. case_match; [|done]. apply preempt_session_quiet. Qed.

(** No attempt changes the list of the nodes. *)
Lemma loop_nodes (skip preempt : bool) timeout pre (take : resman M -> attempt * resman M) w a w' :
  (forall b w1, pre = Done (b, w1) -> quiet w w1) -> (forall w1, nodes (take w1).2 = nodes w1) ->
  (if skip then
     let* (b, w1) := (if preempt then pre else Done (false, w)) in
     if truthy (timeout_after preempt b timeout) then Done (Wait, w1) else Done (take w1)
   else Done (take w)) = Done (a, w') -> nodes w' = nodes w.
Proof.
  intros Hp Ht H. destruct skip; [|injection H as H; rewrite <- (Ht w); by rewrite H].
  assert (Hq : forall b w1, (if preempt then pre else Done (false, w)) = Done (b, w1) -> nodes w1 = nodes w).
  { destruct preempt; [intros b w1 H1; apply (q_nodes _ _ (Hp _ _ H1))|]. by intros b w1 [= _ <-]. }
  destruct (if preempt then _ else _) as [[b w1]| |]; cbn [obind] in H; try done. specialize (Hq b w1 eq_refl).
  case_if_in H; injection H as H; [by subst|]. specialize (Ht w1). rewrite H in Ht. cbn in Ht. congruence.
Qed.

Lemma acquire_nodes fuel resumed sess r x preempt timeout arg w a w' :
  acquire kstrtou32 enable_tvp free_size tvp_free_size busy releases event_ok fuel resumed sess r x preempt timeout arg w = Done (a, w') -> nodes w' = nodes w.
Proof.
  unfold acquire. destruct (d x) as [avail it| | |total uhd fhd lim cs cn|total]; intros H.
  - injection H as H. revert H. unfold resman_counter_acquire.
    assert (HT : forall w1, nodes (counter_take sess r avail it (value x) w1).2 = nodes w1).
    { intros w1. unfold counter_take. case_if; [|done]. by destruct (resman_counter_res_list_acquire_item it sess). }
    destruct (_ && _); [|intros H; rewrite <- (HT w); by rewrite H].
    assert (Hq : quiet w (if preempt then resman_counter_preempt busy releases event_ok sess r w else (false, w)).2)
      by (destruct preempt; [apply preempt_session_quiet|done]).
    destruct (if preempt then _ else _) as [b w1]. apply q_nodes in Hq. cbn in Hq. destruct (truthy _); [by intros [= _ <-]|].
    intros H. specialize (HT w1). rewrite H in HT. cbn in HT. congruence.
  - injection H as H. unfold resman_toggle_acquire in H. by repeat case_match; injection H as _ <-.
  - unfold resman_tvp_acquire in H. destruct (tvp_args _ arg) as [[size flags]| |]; cbn [obind] in H; try done.
    destruct (enable_tvp size flags (mm w)) as [e m]. case_if_in H; [by injection H as _ <-|]. case_if_in H; [by injection H as _ <-|].
    pose proof (q_nodes _ _ (tvp_preempt_quiet sess (set_mm m w))) as Hq. destruct (resman_tvp_preempt _ _ _ _ _) as [b w1]. cbn in Hq.
    by destruct b; injection H as _ <-.
  - unfold resman_codec_mm_acquire in H. destruct (codec_mm_args _ fhd uhd arg) as [score sec].
    eapply (loop_nodes _ _ _ _ (codec_mm_take free_size tvp_free_size r score sec)); [| |exact H].
    + intros b w1. apply codec_preempt_quiet.
    + intros w1. unfold codec_mm_take. by case_if.
  - unfold resman_capacity_acquire in H. destruct (capacity_args _ arg) as [size|]; [|by injection H as _ <-].
    case_if_in H; [by injection H as _ <-|]. eapply (loop_nodes _ _ _ _ (capacity_take r (value x) total size)); [| |exact H].
    + intros b w1. apply preempt_loop_quiet.
    + intros w1. unfold capacity_take. by case_if.
Qed.

(** An attempt changes the resource only when it succeeds, and then by its new holder. *)
Definition took w (sess r : Z) (l : list resman_node) (a : attempt) w' : Prop :=
  (forall i, is_Some (sessions w' !! i) <-> is_Some (sessions w !! i)) /\ nodes w' = nodes w /\ sess_id w' = sess_id w /\
  match a with
  | Yes dat => exists x x', resources w !! r = Some x /\ resources w' = <[r := x']> (resources w) /\ kept x x' /\
                 fits (value x') (d x') (l ++ [Node sess r dat])
  | _ => resources w' = resources w
  end.

(** What is handed out fits an int. *)
Definition room (sess r : Z) (l : list resman_node) (a : attempt) : Prop :=
  match a with Yes dat => total_use (l ++ [Node sess r dat]) < 2 ^ 31 | _ => True end.

Lemma took_quiet w w1 sess r l a w' : quiet w w1 -> took w1 sess r l a w' -> took w sess r l a w'.
Proof.
  intros [Q1 Q2 Q3 Q4] (T1 & T2 & T3 & T4). split; [intros i; etrans; eauto|]. split; [congruence|]. split; [congruence|].
  rewrite <- Q1. done.
Qed.

Lemma took_no w w' sess r l a : quiet w w' -> match a with Yes _ => False | _ => True end -> took w sess r l a w'.
Proof. intros [Q1 Q2 Q3 Q4] Ha. split; [done|]. split; [done|]. split; [done|]. by destruct a. Qed.

Lemma took_yes w sess r x0 f l dat : resources w !! r = Some x0 -> kept x0 (f x0) ->
  fits (value (f x0)) (d (f x0)) (l ++ [Node sess r dat]) -> took w sess r l (Yes dat) (upd_res r f w).
Proof.
  intros Hx Hf Hfit. split; [done|]. split; [done|]. split; [done|]. exists x0, (f x0). split; [done|]. split; [|done].
  by apply upd_res_insert.
Qed.

Lemma counter_take_took w sess r x0 avail it l v :
  resources w !! r = Some x0 -> d x0 = DCounter avail it -> value x0 = v -> fits v (DCounter avail it) l -> 0 < sess ->
  let '(a, w') := counter_take sess r avail it v w in took w sess r l a w'.
Proof.
  intros Hx Hd <- Hfit Hs. unfold counter_take. pose proof Hfit as (_ & Hv & Hb & _). rewrite u32_small by lia. case_if.
  - pose proof (fits_counter_add _ _ _ _ sess r Hfit Hs E) as Ha.
    destruct (resman_counter_res_list_acquire_item it sess) as [k it'] eqn:Ei. eapply took_yes; [done| |done].
    repeat split; try done. cbn. rewrite Hd. cbn. f_equal. unfold resman_counter_res_list_acquire_item in Ei.
    destruct it as [it|]; [|by injection Ei as _ <-]. destruct (acquire_item it 0 sess). by injection Ei as _ <-.
  - by apply took_no.
Qed.

Lemma codec_mm_take_took w sess r x0 total uhd fhd lim cs cn l score sec :
  resources w !! r = Some x0 -> d x0 = DCodecMm total uhd fhd lim cs cn -> fits (value x0) (d x0) l ->
  0 <= score -> count l < 2 ^ 31 - 1 ->
  let '(a, w') := codec_mm_take free_size tvp_free_size r score sec w in room sess r l a -> took w sess r l a w'.
Proof.
  intros Hx Hd Hfit Hs Hl. unfold codec_mm_take. case_if; [|by intros _; apply took_no].
  intros Hr. cbn in Hr. rewrite total_use_app in Hr. cbn [total_use node_use s] in Hr. rewrite Hd in Hfit. eapply took_yes; [exact Hx|rewrite Hd; repeat split; cbn; by rewrite Hd|]. rewrite Hd. cbn [d set_d set_value value].
  eapply fits_codec_add; try done. lia.
Qed.

Lemma capacity_take_took w sess r x0 v total l size :
  resources w !! r = Some x0 -> value x0 = v -> d x0 = DCapacity total -> fits v (DCapacity total) l ->
  0 < size < 2 ^ 31 ->
  let '(a, w') := capacity_take r v total size w in took w sess r l a w'.
Proof.
  intros Hx <- Hd Hfit Hs. unfold capacity_take. case_if; [|by apply took_no].
  eapply took_yes; [exact Hx|done|]. cbn [d set_value value]. rewrite Hd. by apply fits_capacity_add.
Qed.

Lemma parser_kv_range str k v : resman_parser_kv kstrtou32 str k = Some v -> 0 <= v < 2 ^ 32.
Proof.
  unfold resman_parser_kv. destruct str as [str|]; [|done]. destruct (cut 58 str) as [sk [sv|]]; [|done].
  case_if; [apply kstr_range|done].
Qed.

Lemma codec_mm_args_nonneg fhd uhd arg : 0 <= fhd -> 0 <= uhd -> 0 <= (codec_mm_args kstrtou32 fhd uhd arg).1.
Proof.
  intros Hf Hu. unfold codec_mm_args. generalize (options arg). intros l.
  assert (K : forall acc : Z * bool, 0 <= acc.1 -> 0 <= (fold_left (fun '(score, secure) opt =>
    if starts_with (bytes_of "size") opt then (default score (resman_parser_kv kstrtou32 (Some opt) (bytes_of "size")), secure)
    else if bool_decide (opt = bytes_of "single") then (SINGLE_SIZE, secure)
    else if bool_decide (opt = bytes_of "uhd") then (uhd, secure)
    else if bool_decide (opt = bytes_of "secure") then (score, true)
    else (score, secure)) l acc).1).
  { induction l as [|o l IH]; intros [sc b] Ha; cbn [fold_left]; [done|]. apply IH. cbn [fst] in Ha.
    case_if; [|repeat case_if; cbn [fst]; unfold SINGLE_SIZE; lia]. cbn [fst].
    destruct (resman_parser_kv kstrtou32 (Some o) (bytes_of "size")) eqn:Ek; cbn [default]; [|done]. apply parser_kv_range in Ek. cbn. lia. }
  by apply K.
Qed.

(** A capacity is not asked for 2^31 or more: above that the sum wraps. *)
Definition small_arg (arg : option (list Z)) : Prop := forall size, capacity_args kstrtou32 arg = Some size -> size < 2 ^ 31.

(** The hook ran on [x], which is the resource but for the count of waits. *)
Section Hooks.
Variables (w : resman M) (sess r : Z) (x x0 : resman_resource) (l : list resman_node).
Hypothesis Hx : resources w !! r = Some x0.
Hypothesis Hv : value x0 = value x.
Hypothesis Hd : d x0 = d x.
Hypothesis Hfit : fits (value x) (d x) l.
Hypothesis Hs : 0 < sess.
Hypothesis Hl : count l < 2 ^ 31 - 1.

Lemma still_there w1 : quiet w w1 -> resources w1 !! r = Some x0.
Proof using Hx. intros Hq. by rewrite (q_res _ _ Hq). Qed.

Lemma counter_took resumed avail it preempt timeout : d x = DCounter avail it ->
  let '(a, w') := resman_counter_acquire busy releases event_ok resumed sess r avail it (value x) preempt timeout w in took w sess r l a w'.
Proof using Hx Hv Hd Hfit Hs.
  intros Ed. rewrite Ed in Hd, Hfit. unfold resman_counter_acquire.
  assert (HT : forall w1, quiet w w1 -> let '(a, w') := counter_take sess r avail it (value x) w1 in took w sess r l a w').
  { intros w1 Hq. pose proof (counter_take_took w1 sess r x0 avail it l (value x) (still_there _ Hq) Hd Hv Hfit Hs) as HT.
    destruct (counter_take _ _ _ _ _ _). by eapply took_quiet. }
  case_if; [|by apply HT].
  assert (Hq : quiet w (if preempt then resman_counter_preempt busy releases event_ok sess r w else (false, w)).2).
  { destruct preempt; [apply preempt_session_quiet|done]. }
  destruct (if preempt then _ else _) as [b w1]. cbn in Hq. case_if; [by apply took_no|]. by apply HT.
Qed.

Lemma toggle_took arg : d x = DToggle ->
  let '(a, w') := resman_toggle_acquire r (value x) arg w in took w sess r l a w'.
Proof using Hx Hd Hfit Hl.
  intros Ed. rewrite Ed in Hd, Hfit. unfold resman_toggle_acquire. destruct arg as [[|c arg]|]; [by apply took_no| |by apply took_no].
  case_if; [|case_if; [|by apply took_no]]; (case_if; [|by apply took_no]); (eapply took_yes; [exact Hx|done|]); cbn; rewrite Hd.
  - by apply (fits_toggle_add (value x) l sess r true).
  - by apply (fits_toggle_add (value x) l sess r false).
Qed.

Lemma tvp_took preempt timeout arg a w' : d x = DTvp ->
  resman_tvp_acquire kstrtou32 enable_tvp busy releases event_ok sess r (value x) preempt timeout arg w = Done (a, w') -> took w sess r l a w'.
Proof using Hx Hd Hfit Hl.
  intros Ed H. rewrite Ed in Hd, Hfit. unfold resman_tvp_acquire in H. destruct (tvp_args _ arg) as [[size flags]| |]; cbn [obind] in H; try done.
  destruct (enable_tvp size flags (mm w)) as [e m]. case_if_in H.
  - injection H as <- <-. apply (took_quiet w (set_mm m w)); [done|]. eapply took_yes; [exact Hx|done|]. cbn. rewrite Hd. by apply fits_tvp_add.
  - case_if_in H; [injection H as <- <-; by apply took_no|].
    pose proof (tvp_preempt_quiet sess (set_mm m w)) as Hq. destruct (resman_tvp_preempt _ _ _ _ _) as [b w1]. cbn in Hq.
    assert (Hq' : quiet w w1) by (eapply quiet_trans; [apply (quiet_set_mm m)|done]).
    destruct b; injection H as <- <-; by apply took_no.
Qed.

(** The shape the two hooks with a preemption loop share. *)
Lemma loop_took (skip preempt : bool) timeout pre (take : resman M -> attempt * resman M) a w' :
  (forall b w1, pre = Done (b, w1) -> quiet w w1) ->
  (forall w1, quiet w w1 -> room sess r l (take w1).1 -> took w sess r l (take w1).1 (take w1).2) -> room sess r l a ->
  (if skip then
     let* (b, w1) := (if preempt then pre else Done (false, w)) in
     if truthy (timeout_after preempt b timeout) then Done (Wait, w1) else Done (take w1)
   else Done (take w)) = Done (a, w') -> took w sess r l a w'.
Proof.
  intros Hp HT Hr H. destruct skip; [|injection H as H; specialize (HT w (quiet_refl w)); rewrite H in HT; by apply HT].
  assert (Hq : forall b w1, (if preempt then pre else Done (false, w)) = Done (b, w1) -> quiet w w1).
  { destruct preempt; [exact Hp|]. by intros b w1 [= _ <-]. }
  destruct (if preempt then _ else _) as [[b w1]| |]; cbn [obind] in H; try done. specialize (Hq b w1 eq_refl).
  case_if_in H; injection H as H; [subst a w'; by apply took_no|]. specialize (HT w1 Hq). rewrite H in HT. by apply HT.
Qed.

Lemma codec_took fuel resumed total uhd fhd lim cs cn preempt timeout arg a w' : d x = DCodecMm total uhd fhd lim cs cn ->
  resman_codec_mm_acquire kstrtou32 free_size tvp_free_size busy releases event_ok fuel resumed sess r total uhd fhd lim cs preempt timeout arg w = Done (a, w') ->
  room sess r l a -> took w sess r l a w'.
Proof using Hx Hv Hd Hfit Hl kstr_range.
  intros Ed H Hr. rewrite Ed in Hd, Hfit. unfold resman_codec_mm_acquire in H. pose proof Hfit as (U1 & U2 & _).
  pose proof (codec_mm_args_nonneg fhd uhd arg U2 U1) as Hsc. destruct (codec_mm_args _ fhd uhd arg) as [score sec]. cbn in Hsc.
  eapply loop_took; [| |exact Hr|exact H].
  - intros b w1. apply codec_preempt_quiet.
  - intros w1 Hq Hr1. apply (took_quiet w w1); [done|].
    pose proof (codec_mm_take_took w1 sess r x0 total uhd fhd lim cs cn l score sec (still_there _ Hq) Hd) as HT.
    rewrite Hv, Hd in HT. specialize (HT Hfit Hsc Hl). revert HT Hr1. destruct (codec_mm_take free_size tvp_free_size r score sec w1). exact (fun h => h).
Qed.

Lemma capacity_took fuel resumed total preempt timeout arg a w' : d x = DCapacity total -> small_arg arg -> room sess r l a ->
  resman_capacity_acquire kstrtou32 busy releases event_ok fuel resumed sess r (value x) total preempt timeout arg w = Done (a, w') ->
  took w sess r l a w'.
Proof using Hx Hv Hd Hfit.
  intros Ed Ha Hr H. rewrite Ed in Hd, Hfit. unfold resman_capacity_acquire in H.
  destruct (capacity_args _ arg) as [size|] eqn:Ea; [|injection H as <- <-; by apply took_no].
  apply Ha in Ea. case_if_in H; [injection H as <- <-; by apply took_no|]. eapply loop_took; [| |exact Hr|exact H].
  - intros b w1. apply preempt_loop_quiet.
  - intros w1 Hq _. apply (took_quiet w w1); [done|].
    pose proof (capacity_take_took w1 sess r x0 (value x) total l size (still_there _ Hq) Hv Hd Hfit ltac:(lia)) as HT.
    revert HT. destruct (capacity_take r (value x) total size w1). exact (fun h => h).
Qed.

Lemma acquire_took fuel resumed preempt timeout arg a w' : small_arg arg -> room sess r l a ->
  acquire kstrtou32 enable_tvp free_size tvp_free_size busy releases event_ok fuel resumed sess r x preempt timeout arg w = Done (a, w') ->
  took w sess r l a w'.
Proof using Hx Hv Hd Hfit Hs Hl kstr_range.
  intros Ha Hr. unfold acquire. case_eq (d x); [intros avail it|..|intros total uhd fhd lim cs cn|intros total]; intros Ed H.
  - injection H as H. pose proof (counter_took resumed avail it preempt timeout Ed) as HT. by rewrite H in HT.
  - injection H as H. pose proof (toggle_took arg Ed) as HT. by rewrite H in HT.
  - by eapply tvp_took.
  - by eapply codec_took.
  - by eapply capacity_took.
Qed.
End Hooks.
End Preempt.

(** ** What a release changes *)

(** Nothing but the resource [r] changes, and it by the holder it lost. *)
Definition gave w (r : Z) (x : resman_resource) (l : list resman_node) w' : Prop :=
  sessions w' = sessions w /\ nodes w' = nodes w /\ sess_id w' = sess_id w /\
  exists x', resources w' = <[r := x']> (resources w) /\ kept x x' /\ fits (value x') (d x') l.

Lemma gave_upd w r x l f : resources w !! r = Some x -> kept x (f x) -> fits (value (f x)) (d (f x)) l -> gave w r x l (upd_res r f w).
Proof. intros Hx Hk Hf. repeat split; try done. exists (f x). split; [by apply upd_res_insert|done]. Qed.

(** A held resource is never released in vain, and its accounts follow. *)
Lemma release_gave n x l1 l2 w : resources w !! resource_ptr n = Some x -> fits (value x) (d x) (l1 ++ n :: l2) ->
  0 < session_ptr n -> count (l1 ++ n :: l2) < 2 ^ 31 ->
  exists w', release disable_tvp n x w = Done w' /\ gave w (resource_ptr n) x (l1 ++ l2) w'.
Proof.
  intros Hx Hfit Hs Hl. assert (Hn : n ∈ l1 ++ n :: l2) by (apply elem_of_app; right; left).
  unfold release. destruct (d x) as [avail it| | |total uhd fhd lim cs cn|total] eqn:Ed.
  - destruct (fits_counter_del _ _ _ _ _ _ Hfit Hs) as [Hp Hfit']. destruct Hfit as (F & _).
    rewrite Forall_forall in F. rewrite (F n Hn). eexists. split; [done|]. apply gave_upd; [done|..];
      unfold resman_counter_release; rewrite (proj2 (Z.ltb_lt _ _) Hp); [|done].
    repeat split. cbn. rewrite Ed. by destruct it.
  - pose proof Hfit as (b & F & _). rewrite Forall_forall in F. rewrite (F n Hn).
    destruct (fits_toggle_del _ _ _ _ b Hfit (F n Hn) Hl) as [Hp Hfit']. eexists. split; [done|].
    apply gave_upd; [done|..]; unfold resman_toggle_release; destruct b; rewrite (proj2 (Z.ltb_lt _ _) Hp); cbn; rewrite ?Ed; done.
  - destruct (fits_tvp_del _ _ _ _ Hfit Hl) as [Hp Hfit']. destruct Hfit as (F & _). rewrite Forall_forall in F. rewrite (F n Hn).
    rewrite (proj2 (Z.ltb_lt _ _) Hp). eexists. split; [done|]. apply (gave_upd (set_mm _ w)); cbn; rewrite ?Ed; done.
  - pose proof Hfit as (_ & _ & F & _). rewrite Forall_forall in F. specialize (F n Hn).
    destruct (s n) as [| |score sec|] eqn:En; try done. eexists. split; [done|].
    destruct (fits_codec_del (value x) _ _ _ _ _ _ _ _ _ _ _ Hfit En Hl) as [Hp Hfit'].
    apply gave_upd; [done|..]; unfold resman_codec_mm_release; cbn [value set_d]; rewrite (proj2 (Z.leb_le _ _) Hp); [|exact Hfit'].
    repeat split. cbn. by rewrite Ed.
  - pose proof Hfit as (F & _). rewrite Forall_forall in F. specialize (F n Hn).
    destruct (s n) as [| | |use] eqn:En; try done. destruct (fits_capacity_del _ _ _ _ _ use Hfit En) as [Hp Hfit'].
    eexists. split; [done|]. apply gave_upd; [done|..]; unfold resman_capacity_release; rewrite (proj2 (Z.leb_le _ _) Hp); cbn; rewrite ?Ed; done.
Qed.
End Manager.
End ResManInv.
