(* ===== verification/ResManRun.v ===== *)
(** * Runs of the resource manager

    Threads of several sessions acquire, wait, release, read and close in any
    order ([step]); a session whose acquisition waits, at the gate or for a
    release, keeps its lock and does nothing else.  Through every run each resource counts exactly what its
    holders have and its waiters, a session holds a resource once, nothing is
    granted above what there is, and what is held can be released.

    The run starts from resources as they were created ([loaded]); creating
    them again while they are held is left out (it forgets the holders).
    Session numbers are an int that only grows: a run has fewer than 2^31
    sessions.  What is handed out of a resource at any time is below 2^31 (for
    codec memory, which has no limit of its own here: 2^31 MiB). *)

From S2P Require Import Prelude Mem ResMan ResManInv.
From stdpp Require Import base list numbers gmap relations.
From Stdlib Require Import ZArith Lia.
From Stdlib Require String.
Import String.StringSyntax.

Local Open Scope Z_scope.
Local Open Scope cint_scope.

Module ResManRun.
Import ResMan ResManInv.

(** An acquisition that waits: at the gate (with its node, if there was memory
    for it), or for a release. *)
Inductive stage := AtGate (node_ok : bool) | ForRelease.
Record pend := Pend { p_sess : Z; p_res : Z; p_preempt : bool; p_timeout : Z; p_arg : option (list Z); p_stage : stage }.

Definition key (n : resman_node) : Z * Z := (session_ptr n, resource_ptr n).
Definition counted (p : pend) : bool := match p_stage p with ForRelease => true | _ => false end.
Definition waiting (ps : list pend) (r : Z) : list pend := List.filter (fun p => (p_res p =? r) && counted p) ps.
(** The acquisitions that wait after a call of one of them. *)
Definition still {A} (ans : answer A) (node_ok : bool) (i r : Z) (preempt : bool) (timeout : Z) (arg : option (list Z)) (ps : list pend) : list pend :=
  match ans with
  | Ret _ => ps
  | Gate => Pend i r preempt timeout arg (AtGate node_ok) :: ps
  | Waits => Pend i r preempt timeout arg ForRelease :: ps
  end.

Section Run.
Context {M : Type}.
Variable kstrtou32 : list Z -> option Z.
Variable enable_tvp : Z -> Z -> M -> Z * M.
Variable disable_tvp : M -> M.
Variable free_size : M -> Z.
Variable tvp_free_size : M -> Z.
Variable total_size : M -> Z.
Variable default_tvp_size : M -> Z * Z.
Hypothesis kstr_range : forall str v, kstrtou32 str = Some v -> 0 <= v < 2 ^ 32.
Implicit Types w : resman M.
Implicit Types ps : list pend.

(** Limits are kept in an int. *)
Definition limits_small (dat : resource_data) : Prop :=
  match dat with DCounter avail _ => avail < 2 ^ 31 | DCapacity total => total < 2 ^ 31 | _ => True end.

(** Resources created before the first session. *)
Inductive loaded : resman M -> Prop :=
  | loaded_none m : loaded (RM ∅ ∅ [] 1 m)
  | loaded_create w res_ok list_ok n type arg w' : loaded w ->
      resman_create_resource kstrtou32 total_size default_tvp_size res_ok list_ok n type arg w = (true, w') ->
      (forall r x, resources w' !! r = Some x -> limits_small (d x)) -> loaded w'.

Definition idle ps (i : Z) : Prop := i ∉ (p_sess <$> ps).
Definition fits_int w : Prop := forall r, total_use (resource_sessions w r) < 2 ^ 31.

Inductive step : resman M * list pend -> resman M * list pend -> Prop :=
  | step_open w ps : sess_id w < 2 ^ 31 - 1 -> step (w, ps) ((resman_open_session w).2, ps)
  | step_info w ps i n type p : step (w, ps) (resman_ioctl_setappinfo i n type p w, ps)
  | step_acquire w ps busy releases event_ok fuel node_ok i k preempt timeout arg ret w' :
      is_Some (sessions w !! i) -> idle ps i -> small_arg kstrtou32 arg ->
      resman_ioctl_acquire kstrtou32 enable_tvp free_size tvp_free_size busy releases event_ok fuel node_ok i k preempt timeout arg w = Done (ret, w') ->
      fits_int w' -> step (w, ps) (w', still ret node_ok i k preempt timeout arg ps)
  | step_enter w p ps1 ps2 busy releases event_ok fuel node_ok ret w' : p_stage p = AtGate node_ok ->
      acquire_locked kstrtou32 enable_tvp free_size tvp_free_size busy releases event_ok fuel node_ok (p_sess p) (p_res p) (p_preempt p) (p_timeout p) (p_arg p) w = Done (ret, w') ->
      fits_int w' -> step (w, ps1 ++ p :: ps2) (w', still ret node_ok (p_sess p) (p_res p) (p_preempt p) (p_timeout p) (p_arg p) (ps1 ++ ps2))
  | step_resume w p ps1 ps2 busy releases event_ok fuel ret w' : p_stage p = ForRelease ->
      resume_acquire kstrtou32 enable_tvp free_size tvp_free_size busy releases event_ok fuel (p_sess p) (p_res p) (p_preempt p) (p_timeout p) (p_arg p) w = Done (ret, w') ->
      fits_int w' -> step (w, ps1 ++ p :: ps2) (w', still ret true (p_sess p) (p_res p) (p_preempt p) (p_timeout p) (p_arg p) (ps1 ++ ps2))
  | step_release w ps i k ret w' : idle ps i -> resman_ioctl_release disable_tvp i k w = Done (ret, w') -> step (w, ps) (w', ps)
  | step_release_all w ps i w' : idle ps i -> resman_ioctl_release_all disable_tvp i w = Done w' -> step (w, ps) (w', ps)
  | step_close w ps i w' : idle ps i -> resman_close_session disable_tvp i w = Done w' -> step (w, ps) (w', ps)
  | step_read w ps i len : step (w, ps) ((resman_read i len w).2, ps)
  | step_mm w ps m : step (w, ps) (set_mm m w, ps).

(** From the resources of [w0]. *)
Definition reach w0 (st : resman M * list pend) : Prop := rtc step (w0, []) st.

(** ** The invariant *)

(** What a resource was created as. *)
Definition created (x : resman_resource) : list Z * resource_data := (name x, blank (d x)).

Section Invariant.
Variable conf : gmap Z (list Z * resource_data).

Record inv w ps : Prop := Inv {
  i_id : 0 < sess_id w < 2 ^ 31;
  i_sess : forall i, is_Some (sessions w !! i) -> 0 < i < sess_id w;
  i_node : Forall (fun n => is_Some (sessions w !! session_ptr n) /\ is_Some (resources w !! resource_ptr n)) (nodes w);
  i_nodup : NoDup (key <$> nodes w);
  i_pend : Forall (fun p => is_Some (sessions w !! p_sess p) /\ is_Some (resources w !! p_res p) /\
                            ~ (p_sess p, p_res p) ∈ (key <$> nodes w) /\ small_arg kstrtou32 (p_arg p)) ps;
  i_one : NoDup (p_sess <$> ps);
  i_conf : created <$> resources w = conf;
  i_res : forall r x, resources w !! r = Some x ->
    freed x = false /\ fits (value x) (d x) (resource_sessions w r) /\ pending_acquire x = count (waiting ps r) }.

(** ** Holders are few *)

Lemma ids_bound (l : list Z) (b : Z) : NoDup l -> Forall (fun i => 0 < i < b) l -> 0 < b -> count l < b.
Proof.
  intros Hn Hf Hb. assert (Hs : l ⊆+ seqZ 1 (b - 1)).
  { apply NoDup_submseteq; [done|]. intros i Hi. rewrite Forall_forall in Hf. specialize (Hf i Hi). apply elem_of_seqZ. lia. }
  apply submseteq_length in Hs. rewrite length_seqZ in Hs. lia.
Qed.

Lemma holders_nodup (l : list resman_node) r : NoDup (key <$> l) -> NoDup (session_ptr <$> List.filter (fun n => resource_ptr n =? r) l).
Proof.
  induction l as [|n l IH]; cbn; [constructor|]. intros [Hn Hl]%NoDup_cons. destruct (Z.eqb_spec (resource_ptr n) r) as [E|E]; [|by apply IH].
  cbn. apply NoDup_cons. split; [|by apply IH]. intros (m & Hm & Hin)%list_elem_of_fmap. apply Hn.
  apply list_elem_of_In, filter_In in Hin as [Hin Hr]. b2p. apply list_elem_of_fmap. exists m. split; [|by apply list_elem_of_In].
  unfold key. congruence.
Qed.

Lemma holders_few w ps r : inv w ps -> count (resource_sessions w r) < sess_id w.
Proof.
  intros I. rewrite <- (length_fmap session_ptr). apply ids_bound; [by apply holders_nodup, I| |apply I].
  apply Forall_fmap, Forall_forall. intros n Hn. apply list_elem_of_In, filter_In in Hn as [Hn _].
  pose proof (i_node _ _ I) as F. rewrite Forall_forall in F. cbn. apply (i_sess _ _ I), F. by apply list_elem_of_In.
Qed.

Lemma waiters_few w ps r : inv w ps -> count (waiting ps r) < sess_id w.
Proof.
  intros I. apply Z.le_lt_trans with (count ps).
  - unfold waiting. pose proof (List.filter_length_le (fun p => (p_res p =? r) && counted p) ps). lia.
  - rewrite <- (length_fmap p_sess). apply ids_bound; [apply I| |apply I]. apply Forall_fmap. eapply Forall_impl; [apply (i_pend _ _ I)|].
    intros p (Hp & _). by apply (i_sess _ _ I).
Qed.

(** ** Steps that leave the accounts alone *)

Lemma inv_quiet w w' ps : quiet w w' -> inv w ps -> inv w' ps.
Proof.
  intros [Q1 Q2 Q3 Q4] I. destruct I as [I1 I2 I3 I4 I5 I6 I7 I8]. split; unfold resource_sessions; rewrite ?Q1, ?Q2, ?Q3; try done.
  - intros i Hi. by apply I2, Q4.
  - eapply Forall_impl; [exact I3|]. intros n [H1 H2]. split; [by apply Q4|done].
  - eapply Forall_impl; [exact I5|]. intros p (H1 & H2 & H3). split; [by apply Q4|done].
Qed.

Lemma inv_open w ps : inv w ps -> sess_id w < 2 ^ 31 - 1 -> inv (resman_open_session w).2 ps.
Proof.
  intros I Hid. pose proof (i_id _ _ I). pose proof (i_sess _ _ I) as I2.
  assert (Hs : forall i, is_Some (sessions w !! i) -> is_Some (<[sess_id w := Sess RESMAN_STATUS_INITED [] [] 0 0]> (sessions w) !! i)).
  { intros i Hi. destruct (decide (i = sess_id w)) as [->|]; [rewrite lookup_insert_eq; by eexists|by rewrite lookup_insert_ne]. }
  destruct I as [_ _ I3 I4 I5 I6 I7 I8]. split; cbn; try done.
  - rewrite s32_small by lia. lia.
  - rewrite s32_small by lia. intros i Hi. destruct (decide (i = sess_id w)) as [->|]; [lia|]. rewrite lookup_insert_ne in Hi by done.
    specialize (I2 i Hi). lia.
  - eapply Forall_impl; [exact I3|]. intros n [H1 H2]. auto.
  - eapply Forall_impl; [exact I5|]. intros p (H1 & H2 & H3). auto.
Qed.

Lemma inv_read w ps i len : inv w ps -> inv (resman_read i len w).2 ps.
Proof.
  intros I. unfold resman_read. case_if; [done|]. destruct (sessions w !! i) as [v|]; [|done]. destruct (events v); [done|].
  eapply inv_quiet; [apply quiet_upd_sess|done].
Qed.

(** ** Waits *)

Lemma created_insert w r x x' : resources w !! r = Some x -> created x' = created x -> created <$> resources w = conf -> created <$> (<[r := x']> (resources w)) = conf.
Proof. intros Hx Hc <-. rewrite fmap_insert, Hc. apply insert_id. by rewrite lookup_fmap, Hx. Qed.

Lemma kept_created x x' : kept x x' -> created x' = created x.
Proof. intros (H1 & _ & _ & H4). unfold created. congruence. Qed.

Lemma insert_is_Some {A} (m : gmap Z A) (r i : Z) y : is_Some (m !! i) -> is_Some (<[r := y]> m !! i).
Proof. intros H. destruct (decide (i = r)) as [->|]; [rewrite lookup_insert_eq; by eexists|by rewrite lookup_insert_ne]. Qed.

(** The count of waits of a resource is that of the acquisitions that wait. *)
Lemma inv_pending w ps ps' r k x : inv w ps -> resources w !! r = Some x ->
  count (waiting ps' r) = count (waiting ps r) + k -> (forall r', r' <> r -> waiting ps' r' = waiting ps r') ->
  Forall (fun p => is_Some (sessions w !! p_sess p) /\ is_Some (resources w !! p_res p) /\
                   ~ (p_sess p, p_res p) ∈ (key <$> nodes w) /\ small_arg kstrtou32 (p_arg p)) ps' ->
  NoDup (p_sess <$> ps') -> count (waiting ps' r) < 2 ^ 31 -> inv (upd_res r (add_pending k) w) ps'.
Proof.
  intros I Hx Hc Ho Hf Hn Hb. pose proof (i_res _ _ I) as I8. pose proof (i_conf _ _ I) as I7. destruct I as [I1 I2 I3 I4 I5 I6 _ _].
  destruct (I8 r x Hx) as (F1 & F2 & F3). split; try done.
  - eapply Forall_impl; [exact I3|]. intros n [H1 H2]. split; [done|]. by apply alter_dom.
  - eapply Forall_impl; [exact Hf|]. intros p (H1 & H2 & H3). split; [done|]. split; [by apply alter_dom|done].
  - rewrite (upd_res_insert _ _ _ _ Hx). by eapply created_insert.
  - intros r' y. rewrite (upd_res_insert _ _ _ _ Hx). intros [[<- <-]|[Hr Hy]]%lookup_insert_Some.
    + split; [done|]. split; [done|]. cbn. rewrite F3, <- Hc, s32_small by lia. done.
    + rewrite Ho by done. by apply I8.
Qed.

Lemma waiting_mid ps1 p ps2 r :
  count (waiting (ps1 ++ p :: ps2) r) = count (waiting (ps1 ++ ps2) r) + (if (p_res p =? r) && counted p then 1 else 0).
Proof. unfold waiting. rewrite !List.filter_app. cbn [List.filter]. rewrite !length_app. case_if; cbn [length]; lia. Qed.

Lemma inv_waits w ps p : inv w ps -> is_Some (sessions w !! p_sess p) -> is_Some (resources w !! p_res p) ->
  ~ (p_sess p, p_res p) ∈ (key <$> nodes w) -> small_arg kstrtou32 (p_arg p) -> idle ps (p_sess p) -> p_stage p = ForRelease ->
  inv (upd_res (p_res p) (add_pending 1) w) (p :: ps).
Proof.
  intros I Hs Hr Hk Ha Hi Hst. pose proof Hr as [x Hx]. pose proof (waiters_few w ps (p_res p) I). pose proof (i_id _ _ I).
  pose proof (waiting_mid [] p ps (p_res p)) as Hc. unfold counted in Hc. rewrite Z.eqb_refl, Hst in Hc. cbn [app andb] in Hc. eapply inv_pending; try done.
  - intros r' Hr'. unfold waiting. cbn. by rewrite (proj2 (Z.eqb_neq _ _)).
  - constructor; [done|apply I].
  - cbn. apply NoDup_cons. split; [done|apply I].
  - lia.
Qed.

(** One that comes to the gate, or leaves it. *)
Lemma inv_gate w ps p node_ok : inv w ps -> is_Some (sessions w !! p_sess p) -> is_Some (resources w !! p_res p) ->
  ~ (p_sess p, p_res p) ∈ (key <$> nodes w) -> small_arg kstrtou32 (p_arg p) -> idle ps (p_sess p) -> p_stage p = AtGate node_ok -> inv w (p :: ps).
Proof.
  intros [I1 I2 I3 I4 I5 I6 I7 I8] Hs Hr Hk Ha Hi Hst. split; try done.
  - by constructor.
  - cbn. by apply NoDup_cons.
  - intros r x Hx. destruct (I8 r x Hx) as (F1 & F2 & F3). split; [done|]. split; [done|].
    pose proof (waiting_mid [] p ps r) as Hc. unfold counted in Hc. rewrite Hst, andb_false_r in Hc. cbn [app] in Hc. lia.
Qed.

Lemma pend_mid ps1 p ps2 : NoDup (p_sess <$> ps1 ++ p :: ps2) -> idle (ps1 ++ ps2) (p_sess p) /\ NoDup (p_sess <$> ps1 ++ ps2).
Proof.
  intros Hn. rewrite fmap_app in Hn. cbn in Hn. rewrite <- (Permutation_middle _ _ (p_sess p)), <- fmap_app in Hn. by apply NoDup_cons in Hn.
Qed.

Lemma inv_ungate w ps1 p ps2 node_ok : inv w (ps1 ++ p :: ps2) -> p_stage p = AtGate node_ok -> inv w (ps1 ++ ps2) /\ idle (ps1 ++ ps2) (p_sess p).
Proof.
  intros [I1 I2 I3 I4 I5 I6 I7 I8] Hst. destruct (pend_mid _ _ _ I6) as [Hi Hn]. split; [|done]. split; try done.
  - apply Forall_app in I5 as [I51 I52]. apply Forall_cons in I52 as [_ I52]. by apply Forall_app.
  - intros r x Hx. destruct (I8 r x Hx) as (F1 & F2 & F3). split; [done|]. split; [done|].
    pose proof (waiting_mid ps1 p ps2 r) as Hc. unfold counted in Hc. rewrite Hst, andb_false_r in Hc. lia.
Qed.

Lemma inv_wake w ps1 p ps2 : inv w (ps1 ++ p :: ps2) -> p_stage p = ForRelease -> inv (upd_res (p_res p) (add_pending (-1)) w) (ps1 ++ ps2) /\ idle (ps1 ++ ps2) (p_sess p).
Proof.
  intros I Hst. pose proof (i_pend _ _ I) as Hp. apply Forall_app in Hp as [Hp1 Hp2]. apply Forall_cons in Hp2 as [(Hs & [x Hx] & Hk & Ha) Hp2].
  pose proof (waiters_few w _ (p_res p) I). pose proof (i_id _ _ I).
  pose proof (waiting_mid ps1 p ps2 (p_res p)) as Hc. unfold counted in Hc. rewrite Z.eqb_refl, Hst in Hc. cbn [andb] in Hc.
  destruct (pend_mid _ _ _ (i_one _ _ I)) as [Hi Hn']. split; [|exact Hi]. eapply inv_pending; try done.
  - lia.
  - intros r' Hr'. unfold waiting. rewrite !List.filter_app. cbn. by rewrite (proj2 (Z.eqb_neq (p_res p) r')).
  - by apply Forall_app.
  - lia.
Qed.

(** ** Acquisitions *)

Lemma inv_kept w ps r x x' ns : inv w ps -> resources w !! r = Some x -> kept x x' ->
  Forall (fun n => is_Some (sessions w !! session_ptr n) /\ is_Some (resources w !! resource_ptr n)) ns -> NoDup (key <$> ns) ->
  Forall (fun p => ~ (p_sess p, p_res p) ∈ (key <$> ns)) ps ->
  fits (value x') (d x') (List.filter (fun n => resource_ptr n =? r) ns) ->
  (forall r', r' <> r -> List.filter (fun n => resource_ptr n =? r') ns = resource_sessions w r') ->
  inv (set_nodes ns (set_resources (<[r := x']> (resources w)) w)) ps.
Proof.
  intros I Hx Hk Hns Hn Hp Hf Ho. pose proof (kept_created _ _ Hk) as Hc. destruct Hk as (_ & K2 & K3 & _).
  pose proof (i_res _ _ I) as I8. destruct I as [I1 I2 I3 I4 I5 I6 I7 _]. destruct (I8 r x Hx) as (F1 & F2 & F3). split; cbn; try done.
  - eapply Forall_impl; [exact Hns|]. intros n [H1 H2]. split; [done|]. by apply insert_is_Some.
  - rewrite Forall_forall in I5, Hp |- *. intros p Hin. destruct (I5 p Hin) as (H1 & H2 & _ & H4).
    split; [done|]. split; [by apply insert_is_Some|]. split; [by apply Hp|done].
  - by eapply created_insert.
  - intros r' y [[<- <-]|[Hr Hy]]%lookup_insert_Some.
    + split; [congruence|]. split; [exact Hf|congruence].
    + unfold resource_sessions. cbn. rewrite Ho by done. by apply I8.
Qed.

(** What [took] found, the node entered. *)
Lemma run_enter w ps sess r dat w' : inv w ps -> is_Some (sessions w !! sess) -> ~ (sess, r) ∈ (key <$> nodes w) -> idle ps sess ->
  took w sess r (resource_sessions w r) (Yes dat) w' ->
  inv (upd_sess sess (set_status RESMAN_STATUS_ACQUIRED) (set_nodes (nodes w' ++ [Node sess r dat]) w')) ps.
Proof.
  intros I Hs Hk Hi (T1 & T2 & T3 & x & x' & Hx & T4 & Hkept & Hfit). rewrite T2.
  apply (inv_quiet (set_nodes (nodes w ++ [Node sess r dat]) (set_resources (<[r := x']> (resources w)) w))).
  { split; cbn; [done..|]. intros i. etrans; [apply alter_dom|apply T1]. }
  eapply inv_kept; try done.
  - apply Forall_app. split; [apply I|]. constructor; [|constructor]. split; [done|by eexists].
  - rewrite fmap_app. apply NoDup_app. split; [apply I|]. split; [|apply NoDup_singleton].
    intros y Hy ->%list_elem_of_singleton. by apply Hk.
  - pose proof (i_pend _ _ I) as Hp. rewrite Forall_forall in Hp |- *. intros p Hin. destruct (Hp p Hin) as (_ & _ & H3 & _).
    rewrite fmap_app, elem_of_app. intros [H|H%list_elem_of_singleton]; [done|]. injection H as H _. apply Hi. rewrite <- H. by apply list_elem_of_fmap_2.
  - rewrite List.filter_app. cbn. rewrite Z.eqb_refl. exact Hfit.
  - intros r' Hr. rewrite List.filter_app. cbn. rewrite (proj2 (Z.eqb_neq r r')) by done. apply app_nil_r.
Qed.

Lemma took_same w sess r l a w' : took w sess r l a w' -> match a with Yes _ => False | _ => True end -> quiet w w'.
Proof. intros (T1 & T2 & T3 & T4) Ha. split; try done. by destruct a. Qed.

Lemma inv_settle w ps sess r preempt timeout arg a w' o w'' node_ok : inv w ps -> is_Some (sessions w !! sess) -> is_Some (resources w !! r) ->
  ~ (sess, r) ∈ (key <$> nodes w) -> idle ps sess -> small_arg kstrtou32 arg ->
  took w sess r (resource_sessions w r) a w' -> settle sess r a w' = (o, w'') ->
  inv w'' (still o node_ok sess r preempt timeout arg ps).
Proof.
  intros I Hs Hr Hk Hi Ha HT H. destruct a as [dat| |]; cbn in H; injection H as <- <-.
  - by eapply run_enter.
  - eapply inv_quiet; [by eapply took_same|done].
  - pose proof (took_same _ _ _ _ _ _ HT Logic.I) as [Q1 Q2 Q3 Q4].
    apply (inv_waits w' ps (Pend sess r preempt timeout arg ForRelease)); cbn; try done.
    + by eapply inv_quiet.
    + by apply Q4.
    + by rewrite Q1.
    + by rewrite Q2.
Qed.

Lemma find_node_none w sess r : resman_find_node_by_resource_id w sess r = None -> ~ (sess, r) ∈ (key <$> nodes w).
Proof.
  unfold resman_find_node_by_resource_id. intros H (n & Hn & Hin)%list_elem_of_fmap. eapply find_none in H; [|by apply list_elem_of_In].
  unfold key in Hn. injection Hn as -> ->. unfold same_node in H. by rewrite !Z.eqb_refl in H.
Qed.

Lemma settle_room w sess r a w' o w'' : nodes w' = nodes w -> settle sess r a w' = (o, w'') -> fits_int w'' -> room sess r (resource_sessions w r) a.
Proof.
  intros Hn H Hf. destruct a as [dat| |]; [|done..]. cbn in H. injection H as _ <-. cbn. specialize (Hf r). revert Hf.
  unfold resource_sessions. cbn. rewrite Hn, List.filter_app. cbn. by rewrite Z.eqb_refl.
Qed.

Lemma inv_locked busy releases event_ok fuel node_ok w ps i k preempt timeout arg ret w' :
  inv w ps -> is_Some (sessions w !! i) -> ~ (i, k) ∈ (key <$> nodes w) -> idle ps i -> small_arg kstrtou32 arg ->
  acquire_locked kstrtou32 enable_tvp free_size tvp_free_size busy releases event_ok fuel node_ok i k preempt timeout arg w = Done (ret, w') ->
  fits_int w' -> inv w' (still ret node_ok i k preempt timeout arg ps).
Proof using kstr_range.
  intros I Hs Hk Hi Ha. unfold acquire_locked. destruct (resources w !! k) as [x|] eqn:Ex; [|done].
  destruct (i_res _ _ I k x Ex) as (F1 & F2 & _). rewrite F1. destruct node_ok; cbn [negb]; [|by intros [= <- <-] _].
  destruct (acquire _ _ _ _ _ _ _ _ _ _ _ _ _ _ _ _) as [[a w1]| |] eqn:Ea; cbn [obind]; try done.
  destruct (settle i k a w1) as [o w2] eqn:Es. intros [= <- <-] Hr.
  pose proof (holders_few w ps k I). pose proof (i_id _ _ I). pose proof (i_sess _ _ I i Hs).
  pose proof (settle_room w i k a w1 o w2 (acquire_nodes _ _ _ _ _ _ _ _ _ _ _ _ _ _ _ _ _ _ Ea) Es Hr) as Hroom.
  assert (HT : took w i k (resource_sessions w k) a w1) by (eapply acquire_took; try done; lia).
  by eapply inv_settle.
Qed.

Lemma inv_acquire busy releases event_ok fuel node_ok w ps i k preempt timeout arg ret w' :
  inv w ps -> is_Some (sessions w !! i) -> idle ps i -> small_arg kstrtou32 arg ->
  resman_ioctl_acquire kstrtou32 enable_tvp free_size tvp_free_size busy releases event_ok fuel node_ok i k preempt timeout arg w = Done (ret, w') ->
  fits_int w' -> inv w' (still ret node_ok i k preempt timeout arg ps).
Proof using kstr_range.
  intros I Hs Hi Ha. unfold resman_ioctl_acquire, resman_find_resource_by_id, resman_acquire_resource.
  destruct (resources w !! k) as [x|] eqn:Ex; [|by intros [= <- <-]].
  destruct (resman_find_node_by_resource_id w i k) eqn:En; [by intros [= <- <-]|]. apply find_node_none in En.
  destruct (i_res _ _ I k x Ex) as (F1 & F2 & _). rewrite F1. case_if.
  - cbn [obind ioctl_ret]. intros [= <- <-] _. apply (inv_gate w ps (Pend i k preempt timeout arg (AtGate node_ok)) node_ok); done.
  - destruct (acquire_locked _ _ _ _ _ _ _ _ _ _ _ _ _ _ _) as [[o w1]| |] eqn:Ea; cbn [obind]; try done. intros [= <- <-] Hr.
    pose proof (inv_locked _ _ _ _ _ _ _ _ _ _ _ _ _ _ I Hs En Hi Ha Ea Hr) as Hw. by destruct o.
Qed.

Lemma inv_past_gate busy releases event_ok fuel node_ok w ps1 p ps2 ret w' : inv w (ps1 ++ p :: ps2) -> p_stage p = AtGate node_ok ->
  acquire_locked kstrtou32 enable_tvp free_size tvp_free_size busy releases event_ok fuel node_ok (p_sess p) (p_res p) (p_preempt p) (p_timeout p) (p_arg p) w = Done (ret, w') ->
  fits_int w' -> inv w' (still ret node_ok (p_sess p) (p_res p) (p_preempt p) (p_timeout p) (p_arg p) (ps1 ++ ps2)).
Proof using kstr_range.
  intros I Hst H Hr. destruct (inv_ungate _ _ _ _ _ I Hst) as [I' Hi]. pose proof (i_pend _ _ I) as Hp. apply Forall_app in Hp as [_ Hp].
  apply Forall_cons in Hp as [(Hs & _ & Hk & Ha) _]. by eapply inv_locked.
Qed.

Lemma inv_resume busy releases event_ok fuel w ps1 p ps2 ret w' : inv w (ps1 ++ p :: ps2) -> p_stage p = ForRelease ->
  resume_acquire kstrtou32 enable_tvp free_size tvp_free_size busy releases event_ok fuel (p_sess p) (p_res p) (p_preempt p) (p_timeout p) (p_arg p) w = Done (ret, w') ->
  fits_int w' -> inv w' (still ret true (p_sess p) (p_res p) (p_preempt p) (p_timeout p) (p_arg p) (ps1 ++ ps2)).
Proof using kstr_range.
  intros I Hst. destruct (inv_wake _ _ _ _ I Hst) as [I' Hi]. pose proof (i_pend _ _ I) as Hp. apply Forall_app in Hp as [_ Hp].
  apply Forall_cons in Hp as [(Hs & [x Hx] & Hk & Ha) _]. unfold resume_acquire. rewrite Hx.
  destruct (i_res _ _ I _ x Hx) as (F1 & F2 & _). rewrite F1.
  destruct (acquire _ _ _ _ _ _ _ _ _ _ _ _ _ _ _ _) as [[a w1]| |] eqn:Ea; cbn [obind]; try done. intros [= H] Hr.
  pose proof (holders_few w _ (p_res p) I). pose proof (i_id _ _ I). pose proof (i_sess _ _ I _ Hs).
  assert (Hx' : resources (upd_res (p_res p) (add_pending (-1)) w) !! p_res p = Some (add_pending (-1) x))
    by (rewrite (upd_res_insert _ _ _ _ Hx); apply lookup_insert_eq).
  pose proof (settle_room w _ _ a w1 ret w' (acquire_nodes _ _ _ _ _ _ _ _ _ _ _ _ _ _ _ _ _ _ Ea) H Hr) as Hroom.
  assert (HT : took (upd_res (p_res p) (add_pending (-1)) w) (p_sess p) (p_res p) (resource_sessions w (p_res p)) a w1).
  { eapply (acquire_took kstrtou32 _ _ _ kstr_range _ _ _ _ _ _ x _ _ Hx'); try done; lia. }
  eapply (inv_settle _ _ _ _ _ _ _ _ _ _ _ true I' Hs); done.
Qed.

(** ** Releases *)

Lemma del_node_mid n l1 l2 : NoDup (key <$> l1 ++ n :: l2) -> del_node n (l1 ++ n :: l2) = l1 ++ l2.
Proof.
  induction l1 as [|m l1 IH]; cbn; unfold same_node; [by rewrite !Z.eqb_refl|]. intros [Hm Hn]%NoDup_cons.
  case_if; [|by rewrite IH]. exfalso. apply Hm. rewrite fmap_app. apply elem_of_app. right. cbn. apply elem_of_cons. left.
  unfold key. congruence.
Qed.

(** What is held can be released, and the node is gone. *)
Lemma inv_release w ps n : inv w ps -> n ∈ nodes w ->
  exists w', resman_release_resource disable_tvp n w = Done w' /\ inv w' ps /\ sessions w' = sessions w /\
    forall m, m ∈ nodes w' <-> m ∈ nodes w /\ key m <> key n.
Proof.
  intros I Hn. pose proof (i_node _ _ I) as Hd. pose proof (i_nodup _ _ I) as Hu. pose proof (i_pend _ _ I) as Hp.
  apply list_elem_of_split in Hn as (l1 & l2 & El). rewrite El in Hd, Hu, Hp.
  apply Forall_app in Hd as [Hd1 Hd2]. apply Forall_cons in Hd2 as [[Hs [x Hx]] Hd2].
  destruct (i_res _ _ I _ x Hx) as (F1 & F2 & F3). pose proof (holders_few w ps (resource_ptr n) I) as Hf. pose proof (i_id _ _ I).
  unfold resource_sessions in F2, Hf. rewrite El, List.filter_app in F2, Hf. cbn in F2, Hf. rewrite Z.eqb_refl in F2, Hf.
  destruct (release_gave disable_tvp n x _ _ w Hx F2) as (w1 & Hr & G1 & G2 & G3 & x' & G4 & G5 & G6);
    [by apply (i_sess _ _ I)|cbn in Hf; lia|].
  unfold resman_release_resource. rewrite Hx, F1, Hr. cbn [obind]. eexists. split; [done|]. rewrite G2, El, del_node_mid by done.
  assert (Hu' : NoDup (key n :: (key <$> l1 ++ l2))) by (rewrite fmap_app; rewrite (Permutation_middle _ _ (key n)); by rewrite fmap_app in Hu).
  apply NoDup_cons in Hu' as [Hkn Hu']. split; [|split; [done|]].
  - apply (inv_quiet (set_nodes (l1 ++ l2) (set_resources (<[resource_ptr n := x']> (resources w)) w))).
    { split; cbn; [done..|]. intros i. by rewrite G1. }
    eapply inv_kept; try done.
    + by apply Forall_app.
    + eapply Forall_impl; [exact Hp|]. intros p (_ & _ & H3 & _) Hin. apply H3. rewrite fmap_app, elem_of_app in Hin |- *.
      destruct Hin; [by left|right; by right].
    + by rewrite List.filter_app.
    + intros r' Hr'. unfold resource_sessions. rewrite El, !List.filter_app. cbn. by rewrite (proj2 (Z.eqb_neq (resource_ptr n) r')).
  - intros m. cbn. rewrite !elem_of_app, elem_of_cons. split; [|intros [[H1|[->|H1]] H2]; tauto].
    intros Hm. split; [tauto|]. intros E. apply Hkn. rewrite <- E. apply list_elem_of_fmap_2. by apply elem_of_app.
Qed.

Lemma inv_release_nodes l : forall w ps, inv w ps -> Forall (fun n => n ∈ nodes w) l -> NoDup (key <$> l) ->
  exists w', release_nodes disable_tvp l w = Done w' /\ inv w' ps /\ sessions w' = sessions w /\
    forall m, m ∈ nodes w' <-> m ∈ nodes w /\ ~ key m ∈ (key <$> l).
Proof.
  induction l as [|n l IH]; intros w ps I Hl Hn; cbn.
  - exists w. split; [done|]. split; [done|]. split; [done|]. intros m. split; [|tauto]. intros Hm. split; [done|]. apply not_elem_of_nil.
  - apply Forall_cons in Hl as [Hi Hl]. cbn in Hn. apply NoDup_cons in Hn as [Hk Hn].
    destruct (inv_release w ps n I Hi) as (w1 & -> & I1 & S1 & N1). cbn [obind].
    destruct (IH w1 ps I1) as (w2 & -> & I2 & S2 & N2); [|done|].
    + rewrite Forall_forall in Hl |- *. intros m Hm. apply N1. split; [by apply Hl|]. intros E. apply Hk. rewrite <- E. by apply list_elem_of_fmap_2.
    + exists w2. split; [done|]. split; [done|]. split; [congruence|]. intros m. rewrite N2, N1, elem_of_cons. tauto.
Qed.

Lemma session_resources_ok w i : NoDup (key <$> nodes w) ->
  Forall (fun n => n ∈ nodes w) (session_resources w i) /\ NoDup (key <$> session_resources w i) /\
  forall m, m ∈ nodes w -> session_ptr m = i -> key m ∈ (key <$> session_resources w i).
Proof.
  intros Hn. assert (K : forall m, m ∈ session_resources w i <-> m ∈ nodes w /\ session_ptr m = i).
  { intros m. unfold session_resources. rewrite !list_elem_of_In, filter_In, Z.eqb_eq. done. }
  split; [|split].
  - apply Forall_forall. intros m Hm. by apply K.
  - unfold session_resources. clear K. induction (nodes w) as [|n l IH]; cbn; [constructor|]. cbn in Hn. apply NoDup_cons in Hn as [Hk Hn].
    case_if; [|by apply IH]. cbn. apply NoDup_cons. split; [|by apply IH]. intros (m & Hm & Hin)%list_elem_of_fmap. apply Hk.
    rewrite Hm. apply list_elem_of_fmap_2. apply list_elem_of_In, filter_In in Hin as [Hin _]. by apply list_elem_of_In.
  - intros m Hm Hi. apply list_elem_of_fmap_2. by apply K.
Qed.

Lemma inv_release_all w ps i : inv w ps ->
  exists w', resman_ioctl_release_all disable_tvp i w = Done w' /\ inv w' ps /\ sessions w' = sessions w /\
    Forall (fun m => session_ptr m <> i) (nodes w').
Proof.
  intros I. destruct (session_resources_ok w i (i_nodup _ _ I)) as (H1 & H2 & H3).
  destruct (inv_release_nodes _ w ps I H1 H2) as (w' & H & I' & HS & HN). exists w'. split; [done|]. split; [done|]. split; [done|].
  apply Forall_forall. intros m [Hm Hk]%HN Hi. by apply Hk, H3.
Qed.

Lemma inv_close w ps i : inv w ps -> idle ps i -> exists w', resman_close_session disable_tvp i w = Done w' /\ inv w' ps.
Proof.
  intros I Hi. destruct (inv_release_all w ps i I) as (w' & H & I' & HS & HN). unfold resman_close_session.
  unfold resman_ioctl_release_all in H. rewrite H. cbn [obind]. eexists. split; [done|]. destruct I' as [I1 I2 I3 I4 I5 I6 I7 I8]. split; cbn; try done.
  - intros j [v [Hj Hv]%lookup_delete_Some]. apply I2. by eexists.
  - rewrite Forall_forall in I3, HN |- *. intros n Hn. destruct (I3 n Hn) as [H1 H2]. split; [|done]. rewrite lookup_delete_ne; [done|]. by apply not_eq_sym, HN.
  - rewrite Forall_forall in I5 |- *. intros p Hp. destruct (I5 p Hp) as (H1 & H2). split; [|done]. rewrite lookup_delete_ne; [done|].
    intros ->. apply Hi. by apply list_elem_of_fmap_2.
Qed.

Lemma inv_ioctl_release w ps i k : inv w ps -> exists ret w', resman_ioctl_release disable_tvp i k w = Done (ret, w') /\ inv w' ps.
Proof.
  intros I. unfold resman_ioctl_release. destruct (resman_find_resource_by_id w k); [|by eexists _, _].
  destruct (resman_find_node_by_resource_id w i k) as [n|] eqn:En; [|by eexists _, _].
  apply find_some in En as [Hn _]. apply list_elem_of_In in Hn. destruct (inv_release w ps n I Hn) as (w' & -> & I' & _). by eexists _, _.
Qed.

Lemma run_step_inv st st' : step st st' -> inv st.1 st.2 -> inv st'.1 st'.2.
Proof using kstr_range.
  intros [] I; cbn in *.
  - by apply inv_open.
  - eapply inv_quiet; [apply quiet_upd_sess|done].
  - by eapply inv_acquire.
  - by eapply inv_past_gate.
  - by eapply inv_resume.
  - destruct (inv_ioctl_release w ps i k I) as (ret' & w1 & E & I1). congruence.
  - destruct (inv_release_all w ps i I) as (w1 & E & I1 & _). congruence.
  - destruct (inv_close w ps i I) as (w1 & E & I1); [done|]. congruence.
  - by apply inv_read.
  - eapply inv_quiet; [apply quiet_set_mm|done].
Qed.

End Invariant.

(** ** Runs *)

Lemma init_fits avail : 0 <= avail < 2 ^ 31 -> fits 0 (DCounter avail (Some (resman_counter_res_list_init avail))) [].
Proof.
  intros Ha. unfold resman_counter_res_list_init. split; [constructor|]. split; [done|]. split; [cbn; lia|]. split; [rewrite length_replicate; lia|].
  split; [apply Forall_replicate; by right|]. cbn. unfold used_ids. induction (Z.to_nat avail); cbn; [done|assumption].
Qed.

Lemma resource_args_fits list_ok type arg w dat : resource_args kstrtou32 total_size default_tvp_size list_ok type arg w = Some dat ->
  limits_small dat -> fits 0 dat [] /\ blank dat = dat.
Proof using kstr_range.
  unfold resource_args. case_if.
  { destruct (resman_parser_kv _ _ _) as [a|] eqn:Ea; intros [= <-]. intros Hl. cbn in Hl. apply (parser_kv_range _ kstr_range) in Ea.
    destruct list_ok; [split; [apply init_fits; lia|done]|]. split; [|done]. split; [constructor|]. cbn. lia. }
  case_if; [intros [= <-] _; split; [by exists true|done]|]. case_if; [intros [= <-] _; by repeat split|]. case_if.
  { destruct (resman_parser_kv kstrtou32 (options arg !! 0%nat) _) as [total|]; cbn; [|done]. case_if.
    - destruct (resman_parser_kv kstrtou32 (options arg !! 1%nat) _) as [u|] eqn:Eu; cbn; [|done].
      destruct (resman_parser_kv kstrtou32 (options arg !! 2%nat) _) as [f|] eqn:Ef; cbn; [|done].
      destruct (resman_parser_kv kstrtou32 (options arg !! 3%nat) _) as [sec|]; cbn; [|done]. intros [= <-] _.
      apply (parser_kv_range _ kstr_range) in Eu, Ef. repeat split; try constructor; lia.
    - intros [= <-] _. unfold resman_codec_mm_probe. destruct (default_tvp_size (mm w)) as [f u]. pose proof (u32_range (u >> 20)).
      pose proof (u32_range (f >> 20)). repeat split; try constructor; lia. }
  case_if; [|done]. destruct (resman_parser_kv _ _ _) as [a|] eqn:Ea; intros [= <-]. intros Hl. cbn in Hl.
  apply (parser_kv_range _ kstr_range) in Ea. repeat split; try constructor; cbn; lia.
Qed.

Definition unused (x : resman_resource) : Prop := value x = 0 /\ pending_acquire x = 0 /\ freed x = false /\ fits 0 (d x) [] /\ blank (d x) = d x.

Lemma loaded_unused w : loaded w -> sessions w = ∅ /\ nodes w = [] /\ sess_id w = 1 /\ forall r x, resources w !! r = Some x -> unused x.
Proof using kstr_range.
  induction 1 as [m|w res_ok list_ok n type arg w' _ (H1 & H2 & H3 & H4) H Hl]; [done|].
  unfold resman_create_resource in H. destruct n as [n|]; [|done]. case_if_in H; [done|]. destruct (resource_id n) as [[id nm]|]; [|done].
  case_if_in H; [done|]. destruct (resource_args _ _ _ _ _ _ _) as [dat|] eqn:Ea; [|by destruct (resources w !! id)].
  assert (Hdat : limits_small dat -> fits 0 dat [] /\ blank dat = dat) by (by eapply resource_args_fits).
  destruct (resources w !! id) as [x|] eqn:Ex; injection H as <-; (split; [done|split; [done|split; [done|]]]); intros r y.
  - rewrite (upd_res_insert _ _ _ _ Ex). intros Hy. specialize (Hl r y). rewrite (upd_res_insert _ _ _ _ Ex) in Hl. specialize (Hl Hy).
    apply lookup_insert_Some in Hy as [[<- <-]|[Hr Hy]]; [|by apply (H4 r)]. destruct (H4 id x Ex) as (V & P & F & _).
    destruct (Hdat Hl). by repeat split.
  - cbn in Hl |- *. intros Hy. specialize (Hl r y Hy). apply lookup_insert_Some in Hy as [[<- <-]|[Hr Hy]]; [|by apply (H4 r)].
    destruct (Hdat Hl). by repeat split.
Qed.

Lemma loaded_inv w : loaded w -> inv (created <$> resources w) w [].
Proof using kstr_range.
  intros (H1 & H2 & H3 & H4)%loaded_unused. split; rewrite ?H1, ?H2, ?H3; try done; try apply Forall_nil_2; try apply NoDup_nil_2.
  - intros j [v Hv]. by rewrite lookup_empty in Hv.
  - intros r x Hx. destruct (H4 r x Hx) as (V & P & F & Ft & _). unfold resource_sessions. rewrite H2, V. done.
Qed.

Lemma reach_inv w0 w ps : loaded w0 -> reach w0 (w, ps) -> inv (created <$> resources w0) w ps.
Proof using kstr_range.
  intros HL HR. assert (K : forall st st', rtc step st st' -> inv (created <$> resources w0) st.1 st.2 -> inv (created <$> resources w0) st'.1 st'.2).
  { induction 1 as [|st1 st2 st3 Hs _ IH]; [done|]. intros I. apply IH. by eapply run_step_inv. }
  apply (K _ _ HR). by apply loaded_inv.
Qed.

Lemma fits_none v dat : fits v dat [] -> blank dat = dat /\ v = 0.
Proof.
  destruct dat as [avail it| | |total uhd fhd lim cs cn|total]; cbn.
  - intros (_ & -> & Hb & Hi). split; [|done]. destruct it as [it|]; [|done]. destruct Hi as (L & O & P). cbn. do 2 f_equal.
    unfold resman_counter_res_list_init. symmetry. replace (Z.to_nat avail) with (length it) by lia. apply Permutation_nil_r in P. clear L Hb.
    induction O as [|x it Hx O IH]; [done|]. unfold used_ids in P, IH. cbn in P |- *. destruct Hx as [[Hx Hs]|[Hx Hs]]; rewrite Hx in P; [done|].
    rewrite <- (IH P). destruct x. cbn in *. congruence.
  - intros (b & _ & ->). by destruct b.
  - by intros (_ & ->).
  - by intros (_ & _ & _ & -> & _ & -> & ->).
  - by intros (_ & -> & _).
Qed.

(** C4: in every run, whatever the interleaving of acquisitions, waits,
    preemptions, releases and closes, no session holds a resource twice and
    each resource's account is exact: a counter equals its holders, never
    exceeds its limit and its items name each holder once; a toggle counts its
    holders on one side; codec memory is the sum of what is held, and its
    instances are counted secure and not; a capacity is the sum of what is held
    and never above its total; and waits are counted.  The runs have fewer than
    2^31 sessions, limits and requests of a capacity below 2^31 (beyond, the
    sums wrap), at any time less than 2^31 of a resource handed out, and no
    resource created again. *)
Theorem accounts_right w0 w ps : loaded w0 -> reach w0 (w, ps) ->
  NoDup (key <$> nodes w) /\
  forall r x, resources w !! r = Some x ->
    freed x = false /\ fits (value x) (d x) (resource_sessions w r) /\ pending_acquire x = count (waiting ps r).
Proof using kstr_range. intros HL HR. pose proof (reach_inv _ _ _ HL HR) as I. split; apply I. Qed.

(** C24: when every session is closed again, nothing is held, nobody waits,
    and every resource is as it was created, its value 0; in the runs of
    [accounts_right]. *)
Theorem all_closed_as_created w0 w ps : loaded w0 -> reach w0 (w, ps) -> sessions w = ∅ ->
  nodes w = [] /\ ps = [] /\
  forall r, match resources w !! r, resources w0 !! r with
            | Some x, Some x0 => name x = name x0 /\ d x = d x0 /\ pending_acquire x = 0 /\ value x = 0
            | None, None => True
            | _, _ => False
            end.
Proof using kstr_range.
  intros HL HR He. pose proof (reach_inv _ _ _ HL HR) as I. destruct (loaded_unused _ HL) as (_ & _ & _ & HU).
  assert (Hn : nodes w = []).
  { pose proof (i_node _ _ _ I) as F. destruct (nodes w) as [|n l]; [done|]. apply Forall_cons in F as [[[v Hv] _] _]. by rewrite He, lookup_empty in Hv. }
  assert (Hp : ps = []).
  { pose proof (i_pend _ _ _ I) as F. destruct ps as [|p ps]; [done|]. apply Forall_cons in F as [[[v Hv] _] _]. by rewrite He, lookup_empty in Hv. }
  split; [done|]. split; [done|]. intros r. pose proof (f_equal (lookup r) (i_conf _ _ _ I)) as Hc. rewrite !lookup_fmap in Hc.
  destruct (resources w !! r) as [x|] eqn:Ex, (resources w0 !! r) as [x0|] eqn:Ex0; cbn in Hc; try done.
  injection Hc as Hname Hd. destruct (i_res _ _ _ I r x Ex) as (_ & F & P). unfold resource_sessions in F. rewrite Hn in F. cbn in F.
  destruct (fits_none _ _ F) as [Hb Hv]. destruct (HU r x0 Ex0) as (_ & _ & _ & _ & Hb0). split; [done|]. split; [congruence|].
  split; [|done]. by rewrite P, Hp.
Qed.

(** In every run a session that does not wait can be closed: its
    resources are all released, no release finds a resource that is gone. *)
Theorem close_never_faults w0 w ps i : loaded w0 -> reach w0 (w, ps) -> idle ps i ->
  exists w', resman_close_session disable_tvp i w = Done w' /\ Forall (fun n => session_ptr n <> i) (nodes w').
Proof using kstr_range.
  intros HL HR Hi. pose proof (reach_inv _ _ _ HL HR) as I. destruct (inv_release_all _ w ps i I) as (w' & H & _ & _ & HN).
  unfold resman_close_session. unfold resman_ioctl_release_all in H. rewrite H. cbn. by eexists.
Qed.

(** ** The index of a holder *)

Lemma index_of_spec it : forall i sess, sess ∈ used_ids it ->
  exists k x, index_of it i sess = i + Z.of_nat k /\ it !! k = Some x /\ ssid x = sess.
Proof.
  induction it as [|x it IH]; intros i sess Hin; [by apply elem_of_nil in Hin|]. cbn [index_of]. unfold used_ids in *. cbn in Hin.
  destruct (Z.eqb_spec (state x) 1) as [E|E]; cbn in Hin |- *.
  - destruct (Z.eqb_spec (ssid x) sess) as [E'|E']; [exists 0%nat, x; split; [lia|done]|].
    apply elem_of_cons in Hin as [Hin|Hin]; [congruence|]. destruct (IH (i + 1) sess Hin) as (k & y & H1 & H2 & H3). exists (S k), y. split; [lia|done].
  - destruct (IH (i + 1) sess Hin) as (k & y & H1 & H2 & H3). exists (S k), y. split; [lia|done].
Qed.

(** In every run each holder of a counter has an index of its own: the
    query answers with a number below the limit, and two holders never get the
    same one. *)
Theorem counter_index_own w0 w ps r x avail it n m : loaded w0 -> reach w0 (w, ps) ->
  resources w !! r = Some x -> d x = DCounter avail (Some it) -> -2 ^ 31 <= r < 2 ^ 31 ->
  n ∈ resource_sessions w r -> m ∈ resource_sessions w r ->
  exists i j, resman_get_counter_index (session_ptr n) r w = Done i /\ resman_get_counter_index (session_ptr m) r w = Done j /\
    0 <= i < avail /\ 0 <= j < avail /\ (i = j -> session_ptr n = session_ptr m).
Proof using kstr_range.
  intros HL HR Hx Hd Hr Hn Hm. pose proof (reach_inv _ _ _ HL HR) as I. destruct (i_res _ _ _ I r x Hx) as (_ & F & _).
  rewrite Hd in F. destruct F as (_ & _ & _ & L & _ & P).
  assert (K : forall n, n ∈ resource_sessions w r -> exists k y, index_of it 0 (session_ptr n) = Z.of_nat k /\ it !! k = Some y /\ ssid y = session_ptr n).
  { intros n' Hn'. apply index_of_spec. rewrite P. by apply list_elem_of_fmap_2. }
  destruct (K n Hn) as (k1 & y1 & A1 & B1 & C1). destruct (K m Hm) as (k2 & y2 & A2 & B2 & C2).
  unfold resman_get_counter_index, resman_find_resource_by_id. rewrite s32_small by lia. rewrite Hx, Hd, A1, A2.
  eexists _, _. split; [done|]. split; [done|]. pose proof (lookup_lt_Some _ _ _ B1). pose proof (lookup_lt_Some _ _ _ B2).
  split; [lia|]. split; [lia|]. intros E. assert (k1 = k2) as -> by lia. congruence.
Qed.

End Run.
End ResManRun.
