(* ===== verification/ResManPreempt.v ===== *)
(** * Preemption

    Whom an acquisition may preempt, and when its search for victims ends. *)

From S2P Require Import Prelude Mem ResMan ResManInv.
From stdpp Require Import base list numbers gmap.
From Stdlib Require Import ZArith Lia.
From Stdlib Require String.
Import String.StringSyntax.

Local Open Scope Z_scope.
Local Open Scope cint_scope.

Module ResManPreempt.
Import ResMan ResManInv.

Section Preempt.
Context {M : Type}.
Variable kstrtou32 : list Z -> option Z.
Variable enable_tvp : Z -> Z -> M -> Z * M.
Variable free_size : M -> Z.
Variable tvp_free_size : M -> Z.
Variable busy : Z -> bool.
Variable releases : resman_node -> bool.
Variable event_ok : bool.
Implicit Types w : resman M.

(** ** The victim *)

Lemma lowest_prio_spec w ok l : forall sel low sel' p, lowest_prio w ok l sel low = (sel', p) ->
  low <= p /\ (sel' = sel /\ p = low \/ exists n, sel' = Some n /\ n ∈ l /\ ok n = true /\ prio_of w n = p /\ low < p).
Proof.
  induction l as [|m l IH]; intros sel low sel' p; cbn [lowest_prio].
  - intros [= <- <-]. split; [lia|]. by left.
  - case_if; intros Hr; apply IH in Hr as [H1 H2].
    + split; [lia|]. right. destruct H2 as [[-> ->]|(n & -> & H3 & H4 & H5 & H6)].
      * exists m. split; [done|]. split; [left|]. done.
      * exists n. split; [done|]. split; [by right|]. split; [done|]. split; [done|]. lia.
    + split; [done|]. destruct H2 as [[-> ->]|(n & -> & H3 & H4)]; [by left|]. right. exists n. split; [done|]. split; [by right|done].
Qed.

Lemma select_victim_spec w ok l low sel p : select_victim w ok l low = (sel, p) ->
  low <= p /\ forall n, sel = Some n -> n ∈ l /\ ok n = true /\ prio_of w n = p.
Proof.
  unfold select_victim. destruct (lowest_prio w ok l None low) as [[m|] q] eqn:E; apply lowest_prio_spec in E as [H1 H2]; intros [= <- <-]; split; try done.
  - intros n [= <-]. destruct H2 as [[? _]|(n & [= <-] & H3 & H4 & H5 & _)]; [done|]. done.
  - intros n Hn. apply find_some in Hn as [Hn Ho]. b2p. split; [by apply list_elem_of_In|done].
Qed.

(** ** Who is preempted *)

(** From [w] to [w'] sessions of [P] that held something were preempted, at most. *)
Definition only_preempts (P : Z -> Prop) w w' : Prop :=
  quiet w w' /\ mm w' = mm w /\
  forall i v, sessions w !! i = Some v -> exists v', sessions w' !! i = Some v' /\ prio v' = prio v /\
    (v' = v \/ status v = RESMAN_STATUS_ACQUIRED /\ status v' = RESMAN_STATUS_PREEMPTED /\ P i).

Lemma only_refl P w : only_preempts P w w.
Proof. split; [apply quiet_refl|]. split; [done|]. intros i v Hv. exists v. split; [done|]. split; [done|]. by left. Qed.

Lemma only_trans P w1 w2 w3 : only_preempts P w1 w2 -> only_preempts P w2 w3 -> only_preempts P w1 w3.
Proof.
  intros (Q1 & M1 & S1) (Q2 & M2 & S2). split; [by eapply quiet_trans|]. split; [congruence|]. intros i v Hv.
  destruct (S1 i v Hv) as (v1 & H1 & P1 & C1). destruct (S2 i v1 H1) as (v2 & H2 & P2 & C2). exists v2. split; [done|]. split; [congruence|].
  destruct C1 as [->|(A1 & B1 & D1)]; [by destruct C2 as [->|]; [left|right]|].
  destruct C2 as [->|(A2 & _)]; [by right|]. rewrite B1 in A2. done.
Qed.

Lemma only_prio P w w' i : only_preempts P w w' -> curr_prio w' i = curr_prio w i.
Proof.
  intros (Q & _ & S). unfold curr_prio. destruct (sessions w !! i) as [v|] eqn:E.
  - destruct (S i v E) as (v' & -> & Hp & _). done.
  - destruct (sessions w' !! i) eqn:E'; [|done]. assert (H : is_Some (sessions w !! i)) by (apply Q; by eexists). rewrite E in H. by destruct H.
Qed.

Lemma has_status_alt x w n : x <> RESMAN_STATUS_INITED -> has_status x w n = true ->
  exists v, sessions w !! session_ptr n = Some v /\ status v = x /\ prio v = prio_of w n.
Proof.
  unfold has_status, prio_of, sess_of. rewrite bool_decide_eq_true. destruct (sessions w !! session_ptr n) as [v|]; cbn; [|congruence]. intros _ H. by exists v.
Qed.

Lemma preempt_session_only (P : Z -> Prop) curr sel w b w' :
  resman_preempt_session busy releases event_ok curr sel w = (b, w') -> (forall n, sel = Some n -> P (session_ptr n)) ->
  only_preempts P w w' /\
  (b = true -> exists n, sel = Some n /\ has_status RESMAN_STATUS_ACQUIRED w n = true /\ has_status RESMAN_STATUS_ACQUIRED w' n = false /\
     forall m, has_status RESMAN_STATUS_ACQUIRED w' m = true -> has_status RESMAN_STATUS_ACQUIRED w m = true).
Proof.
  unfold resman_preempt_session. destruct sel as [n|]; [|intros [= <- <-] _; split; [apply only_refl|done]].
  case_if; [intros [= <- <-] _; split; [apply only_refl|done]|]. case_if; [intros [= <- <-] _; split; [apply only_refl|done]|].
  intros [= <- <-] HP. destruct (has_status_alt RESMAN_STATUS_ACQUIRED w n) as (v & Hv & Hst & _); [done|done|].
  set (v' := if event_ok then send RESMAN_EVENT_PREEMPT (set_status RESMAN_STATUS_PREEMPTED v) else set_status RESMAN_STATUS_PREEMPTED v).
  assert (Hw : forall i, sessions (resman_send_event event_ok (session_ptr n) RESMAN_EVENT_PREEMPT (upd_sess (session_ptr n) (set_status RESMAN_STATUS_PREEMPTED) w)) !! i
    = if decide (i = session_ptr n) then Some v' else sessions w !! i).
  { intros i. unfold resman_send_event, v'. destruct event_ok; cbn; destruct (decide (i = session_ptr n)) as [->|];
      rewrite ?lookup_alter_eq, ?lookup_alter_ne, ?Hv by done; done. }
  split; [split; [|split]|].
  - unfold resman_send_event. destruct event_ok; [eapply quiet_trans|]; apply quiet_upd_sess.
  - unfold resman_send_event. by destruct event_ok.
  - intros i u Hu. rewrite Hw. destruct (decide (i = session_ptr n)) as [->|]; [|exists u; split; [done|]; split; [done|]; by left].
    exists v'. rewrite Hv in Hu. injection Hu as <-. split; [done|]. unfold v'. destruct event_ok; (split; [done|]); right; (split; [done|]); (split; [done|]); by apply HP.
  - intros _. exists n. split; [done|]. split; [done|]. unfold has_status, sess_of. split.
    + rewrite Hw, decide_True by done. unfold v'. by destruct event_ok.
    + intros m. rewrite Hw. destruct (decide _) as [->|]; [|done]. unfold v'. by destruct event_ok.
Qed.

Lemma only_sess_prio P w w' n : only_preempts P w w' -> prio_of w' n = prio_of w n.
Proof.
  intros HO. pose proof (only_prio _ _ _ (session_ptr n) HO) as H. unfold curr_prio, prio_of, sess_of in *.
  by destruct (sessions w !! session_ptr n), (sessions w' !! session_ptr n).
Qed.

Lemma only_holders P w w' r : only_preempts P w w' -> resource_sessions w' r = resource_sessions w r.
Proof. intros ([_ Q _ _] & _). unfold resource_sessions. by rewrite Q. Qed.

(** Holders of [r] whose priority is not above that of [curr]. *)
Definition lower_holder (P : Z -> Prop) (curr r : Z) w : Prop :=
  forall n, n ∈ resource_sessions w r -> curr_prio w curr <= prio_of w n -> P (session_ptr n).

Lemma lower_holder_only P curr r w w' : only_preempts P w w' -> lower_holder P curr r w -> lower_holder P curr r w'.
Proof.
  intros HO HP n Hn Hp. rewrite (only_holders _ _ _ _ HO) in Hn. rewrite (only_prio _ _ _ _ HO), (only_sess_prio _ _ _ _ HO) in Hp. by apply HP.
Qed.

Lemma preempt_loop_only P fuel : forall curr r total size low ret w b w',
  preempt_loop busy releases event_ok fuel curr r total size low ret w = Done (b, w') ->
  lower_holder P curr r w -> curr_prio w curr <= low -> only_preempts P w w'.
Proof.
  induction fuel as [|f IH]; intros curr r total size low ret w b w' H HP Hlow; [done|]. cbn [preempt_loop] in H.
  case_if_in H; [injection H as _ <-; apply only_refl|].
  destruct (select_victim _ _ _ _) as [[n|] low'] eqn:Es; [|injection H as _ <-; apply only_refl].
  apply select_victim_spec in Es as [Hl Hn]. destruct (Hn n eq_refl) as (Hin & _ & Hp).
  destruct (resman_preempt_session _ _ _ _ _ _) as [b1 w1] eqn:Ep.
  destruct (preempt_session_only P _ _ _ _ _ Ep) as [HO _]. { intros m [= <-]. apply HP; [done|lia]. }
  case_if_in H; [|by injection H as _ <-]. eapply only_trans; [exact HO|]. eapply IH; [exact H|by eapply lower_holder_only|].
  rewrite (only_prio _ _ _ _ HO). destruct b1; lia.
Qed.

Lemma counter_preempt_only P curr r w b w' : resman_counter_preempt busy releases event_ok curr r w = (b, w') ->
  lower_holder P curr r w -> only_preempts P w w'.
Proof.
  unfold resman_counter_preempt. intros H HP. eapply preempt_session_only; [exact H|]. intros n Hn. case_match.
  - injection Hn as <-. apply find_some in H0 as [Hin Hs]. b2p. apply HP; [by apply list_elem_of_In|done].
  - destruct (select_victim _ _ _ _) as [sel p] eqn:Es. apply select_victim_spec in Es as [Hl Hs]. cbn in Hn.
    destruct (Hs n Hn) as (Hin & _ & Hp). apply HP; [done|lia].
Qed.

Lemma tvp_preempt_only P curr w b w' : resman_tvp_preempt busy releases event_ok curr w = (b, w') ->
  lower_holder P curr RESMAN_ID_CODEC_MM w -> only_preempts P w w'.
Proof.
  unfold resman_tvp_preempt. case_match; [|intros [= _ <-] _; apply only_refl]. intros Hs HP.
  eapply preempt_session_only; [exact Hs|]. intros n Hn. apply find_some in Hn as [Hin Hc]. b2p.
  destruct (lowest_prio _ _ _ _ _) as [sel p] eqn:El. apply lowest_prio_spec in El as [Hl _]. cbn in *.
  apply HP; [by apply list_elem_of_In|lia].
Qed.

(** ** The search ends *)

Definition holders_acquired w (r : Z) : nat := length (List.filter (has_status RESMAN_STATUS_ACQUIRED w) (resource_sessions w r)).

Lemma filter_shrinks {A} (f g : A -> bool) l x : (forall y, g y = true -> f y = true) -> x ∈ l -> f x = true -> g x = false ->
  (length (List.filter g l) < length (List.filter f l))%nat.
Proof.
  intros Hgf. assert (K : forall l', (length (List.filter g l') <= length (List.filter f l'))%nat).
  { induction l' as [|y l' IH]; cbn; [done|]. specialize (Hgf y). destruct (g y); [rewrite Hgf by done; cbn; lia|]. destruct (f y); cbn; lia. }
  induction 1 as [x l|x y l Hx IH]; intros Hf Hg; cbn.
  - rewrite Hf, Hg. specialize (K l). cbn. lia.
  - specialize (IH Hf Hg). specialize (Hgf y). destruct (g y); [rewrite Hgf by done; cbn; lia|]. destruct (f y); cbn; lia.
Qed.

(** Nobody who holds [r] is in the way. *)
Definition locks_free (curr r : Z) w : Prop :=
  forall n, n ∈ resource_sessions w r -> session_ptr n <> curr /\ (busy (session_ptr n) = false \/ releases n = true).

Lemma preempt_loop_ends fuel : forall curr r total size low ret w, locks_free curr r w -> (holders_acquired w r < fuel)%nat ->
  exists b w', preempt_loop busy releases event_ok fuel curr r total size low ret w = Done (b, w').
Proof.
  induction fuel as [|f IH]; intros curr r total size low ret w HF Hc; [lia|]. cbn [preempt_loop].
  case_if; [by eexists _, _|]. destruct (select_victim _ _ _ _) as [[n|] low'] eqn:Es; [|by eexists _, _].
  apply select_victim_spec in Es as [_ Hn]. destruct (Hn n eq_refl) as (Hin & Hst & _).
  destruct (resman_preempt_session _ _ _ _ _ _) as [b1 w1] eqn:Ep.
  destruct (preempt_session_only (fun _ => True) _ _ _ _ _ Ep) as [HO Hb]; [done|].
  assert (b1 = true) as ->.
  { unfold resman_preempt_session in Ep. rewrite Hst in Ep. cbn in Ep. destruct (HF n Hin) as [Hne Hfree]. apply Z.eqb_neq in Hne. rewrite Hne in Ep.
    destruct Hfree as [Hf|Hf]; rewrite Hf in Ep; rewrite ?orb_false_r, ?andb_false_r in Ep; cbn in Ep; congruence. }
  destruct (Hb eq_refl) as (m & [= <-] & H1 & H2 & H3). case_if; [|by eexists _, _]. apply IH.
  - intros m Hm. rewrite (only_holders _ _ _ _ HO) in Hm. by apply HF.
  - pose proof (filter_shrinks _ _ (resource_sessions w r) n H3 Hin H1 H2). unfold holders_acquired in *. rewrite (only_holders _ _ _ _ HO). lia.
Qed.

(** ** Whole acquisitions *)

(** A request for secure codec memory takes from secure holders whatever their priority; the others are plain. *)
Definition plain_request (x : resman_resource) (arg : option (list Z)) : bool :=
  match d x with DCodecMm _ uhd fhd _ _ _ => negb (codec_mm_args kstrtou32 fhd uhd arg).2 | _ => true end.

(** Secure video memory is taken from the holders of codec memory. *)
Definition taken_from (k : Z) (x : resman_resource) : Z := match d x with DTvp => RESMAN_ID_CODEC_MM | _ => k end.

(** What [only_preempts] says of the sessions. *)
Definition told (P : Z -> Prop) (m m' : gmap Z resman_session) : Prop :=
  forall i v, m !! i = Some v -> exists v', m' !! i = Some v' /\
    (v' = v \/ status v = RESMAN_STATUS_ACQUIRED /\ status v' = RESMAN_STATUS_PREEMPTED /\ P i).

Lemma told_refl P m : told P m m.
Proof. intros i v Hv. exists v. split; [done|by left]. Qed.

Lemma only_told P w w' : only_preempts P w w' -> told P (sessions w) (sessions w').
Proof. intros (_ & _ & H) i v Hv. destruct (H i v Hv) as (v' & H1 & _ & H2). by exists v'. Qed.

Lemma counter_take_sessions sess r avail l v w : sessions (counter_take sess r avail l v w).2 = sessions w.
Proof. unfold counter_take. case_if; [|done]. by destruct (resman_counter_res_list_acquire_item l sess). Qed.

Lemma codec_mm_take_sessions r score sec w : sessions (codec_mm_take free_size tvp_free_size r score sec w).2 = sessions w.
Proof. unfold codec_mm_take. by case_if. Qed.

Lemma capacity_take_sessions r v total size w : sessions (capacity_take r v total size w).2 = sessions w.
Proof. unfold capacity_take. by case_if. Qed.

(** The shape of the hooks that preempt before they take. *)
Lemma loop_told P (skip preempt : bool) timeout pre (take : resman M -> attempt * resman M) w a w' :
  (forall b w1, preempt = true -> pre = Done (b, w1) -> only_preempts P w w1) -> (forall w1, sessions (take w1).2 = sessions w1) ->
  (if skip then
     let* (b, w1) := (if preempt then pre else Done (false, w)) in
     if truthy (timeout_after preempt b timeout) then Done (Wait, w1) else Done (take w1)
   else Done (take w)) = Done (a, w') -> told P (sessions w) (sessions w').
Proof.
  intros Hp Ht H. destruct skip; [|injection H as H; rewrite <- (Ht w), H; apply told_refl].
  assert (Hq : forall b w1, (if preempt then pre else Done (false, w)) = Done (b, w1) -> told P (sessions w) (sessions w1)).
  { destruct preempt; [intros b w1 H1; eapply only_told, Hp; done|]. intros b w1 [= _ <-]. apply told_refl. }
  destruct (if preempt then _ else _) as [[b w1]| |]; cbn [obind] in H; try done. specialize (Hq b w1 eq_refl).
  case_if_in H; injection H as H; [by subst|]. specialize (Ht w1). rewrite H in Ht. cbn in Ht. by rewrite Ht.
Qed.

Lemma acquire_told P fuel resumed sess k x preempt timeout arg w a w' : plain_request x arg = true ->
  (preempt = true -> lower_holder P sess (taken_from k x) w) ->
  acquire kstrtou32 enable_tvp free_size tvp_free_size busy releases event_ok fuel resumed sess k x preempt timeout arg w = Done (a, w') ->
  told P (sessions w) (sessions w').
Proof.
  unfold acquire, plain_request, taken_from. destruct (d x) as [avail it| | |total uhd fhd lim cs cn|total]; intros Hpl HP H.
  - eapply (loop_told P (negb resumed && (avail <=? u32 (value x))) preempt timeout (Done (resman_counter_preempt busy releases event_ok sess k w)));
      [|apply (counter_take_sessions sess k avail it (value x))|].
    + intros b w1 Hp [= Hw]. by eapply counter_preempt_only; [|apply HP].
    + injection H as H. rewrite <- H. unfold resman_counter_acquire. case_if; [|done].
      destruct preempt; [destruct (resman_counter_preempt _ _ _ _ _ _) as [b w1]|]; cbn [obind]; by case_if.
  - injection H as H. unfold resman_toggle_acquire in H. repeat case_match; injection H as <- <-; apply told_refl.
  - unfold resman_tvp_acquire in H. destruct (tvp_args _ arg) as [[size flags]| |]; cbn [obind] in H; try done.
    destruct (enable_tvp size flags (mm w)) as [e m]. case_if_in H; [injection H as <- <-; apply told_refl|].
    case_if_in H; [injection H as <- <-; apply told_refl|]. destruct preempt; [|done].
    destruct (resman_tvp_preempt _ _ _ _ _) as [b w1] eqn:Ep. apply (tvp_preempt_only P) in Ep; [|by apply HP].
    apply only_told in Ep. by destruct b; injection H as <- <-.
  - unfold resman_codec_mm_acquire in H. destruct (codec_mm_args _ fhd uhd arg) as [score sec]. cbn in Hpl. b2p. subst sec.
    eapply loop_told; [|apply (codec_mm_take_sessions k score false)|exact H].
    intros b w1 Hp Hw. unfold resman_codec_mm_preempt in Hw. eapply preempt_loop_only; [exact Hw|by apply HP|done].
  - unfold resman_capacity_acquire in H. destruct (capacity_args _ arg) as [size|]; [|injection H as <- <-; apply told_refl].
    case_if_in H; [injection H as <- <-; apply told_refl|]. eapply loop_told; [|apply (capacity_take_sessions k (value x) total size)|exact H].
    intros b w1 Hp Hw. unfold resman_capacity_preempt in Hw. eapply preempt_loop_only; [exact Hw|by apply HP|done].
Qed.

(** A part of an acquisition: the call up to its first wait, from the lock of the
    resource on, or from the end of the wait for a release on. *)
Inductive acquires (fuel : nat) (sess k : Z) (preempt : bool) (timeout : Z) (arg : option (list Z)) w : resman M -> Prop :=
  | acq_call node_ok ret w' :
      resman_ioctl_acquire kstrtou32 enable_tvp free_size tvp_free_size busy releases event_ok fuel node_ok sess k preempt timeout arg w = Done (ret, w') ->
      acquires fuel sess k preempt timeout arg w w'
  | acq_locked node_ok ret w' :
      acquire_locked kstrtou32 enable_tvp free_size tvp_free_size busy releases event_ok fuel node_ok sess k preempt timeout arg w = Done (ret, w') ->
      acquires fuel sess k preempt timeout arg w w'
  | acq_resume ret w' :
      resume_acquire kstrtou32 enable_tvp free_size tvp_free_size busy releases event_ok fuel sess k preempt timeout arg w = Done (ret, w') ->
      acquires fuel sess k preempt timeout arg w w'.

Lemma settle_told P sess k a w0 w1 o w' : settle sess k a w1 = (o, w') -> told P (sessions w0) (sessions w1) ->
  forall i v, i <> sess -> sessions w0 !! i = Some v ->
  exists v', sessions w' !! i = Some v' /\ (v' = v \/ status v = RESMAN_STATUS_ACQUIRED /\ status v' = RESMAN_STATUS_PREEMPTED /\ P i).
Proof.
  intros H HT i v Hi Hv. destruct (HT i v Hv) as (v' & Hv' & Hc). exists v'. split; [|done].
  destruct a; cbn in H; injection H as _ <-; cbn; [|done..]. by rewrite lookup_alter_ne.
Qed.

Lemma acquires_told fuel sess k x preempt timeout arg w w' : resources w !! k = Some x -> plain_request x arg = true ->
  acquires fuel sess k preempt timeout arg w w' ->
  forall i v, i <> sess -> sessions w !! i = Some v -> exists v', sessions w' !! i = Some v' /\
    (v' = v \/ status v = RESMAN_STATUS_ACQUIRED /\ status v' = RESMAN_STATUS_PREEMPTED /\
       preempt = true /\ forall u, sessions w !! i = Some u -> curr_prio w sess <= prio u /\
         exists n, n ∈ resource_sessions w (taken_from k x) /\ session_ptr n = i).
Proof.
  intros Hx Hpl H. set (P := fun i => preempt = true /\ forall u, sessions w !! i = Some u -> curr_prio w sess <= prio u /\
    exists n, n ∈ resource_sessions w (taken_from k x) /\ session_ptr n = i).
  assert (HP : forall w1, sessions w1 = sessions w -> nodes w1 = nodes w -> preempt = true -> lower_holder P sess (taken_from k x) w1).
  { intros w1 E1 E2 Hp n Hn Hlo. split; [done|]. intros u Hu. unfold prio_of, sess_of, curr_prio in Hlo. rewrite E1, Hu in Hlo.
    split; [exact Hlo|]. exists n. unfold resource_sessions in *. by rewrite E2 in Hn. }
  assert (HL : forall node_ok ret w2, acquire_locked kstrtou32 enable_tvp free_size tvp_free_size busy releases event_ok fuel node_ok sess k preempt timeout arg w = Done (ret, w2) ->
    forall i v, i <> sess -> sessions w !! i = Some v -> exists v', sessions w2 !! i = Some v' /\ (v' = v \/ status v = RESMAN_STATUS_ACQUIRED /\ status v' = RESMAN_STATUS_PREEMPTED /\ P i)).
  { intros node_ok ret w2. unfold acquire_locked. rewrite Hx. destruct (freed x); [done|].
    destruct node_ok; cbn [negb]; [|intros [= _ <-] i v _ Hv; exists v; split; [done|by left]].
    destruct (acquire _ _ _ _ _ _ _ _ _ _ _ _ _ _ _ _) as [[a w1]| |] eqn:Ea; cbn [obind]; try done. intros [= Es].
    eapply settle_told; [exact Es|]. eapply acquire_told; [exact Hpl| |exact Ea]. by apply HP. }
  destruct H as [node_ok ret w' H|node_ok ret w' H|ret w' H]; [|by eapply HL|].
  - unfold resman_ioctl_acquire, resman_find_resource_by_id, resman_acquire_resource in H. rewrite Hx in H.
    assert (Hid : forall i v, i <> sess -> sessions w !! i = Some v -> exists v', sessions w !! i = Some v' /\ (v' = v \/ status v = RESMAN_STATUS_ACQUIRED /\ status v' = RESMAN_STATUS_PREEMPTED /\ P i))
      by (intros i v _ Hv; exists v; split; [done|by left]).
    destruct (resman_find_node_by_resource_id w sess k); [by injection H as _ <-|]. destruct (freed x); [done|].
    destruct (0 <? pending_acquire x); [by injection H as _ <-|].
    destruct (acquire_locked _ _ _ _ _ _ _ _ _ _ _ _ _ _ _) as [[o w2]| |] eqn:Ea; cbn [obind] in H; try done. injection H as _ <-. by eapply HL.
  - unfold resume_acquire in H. rewrite Hx in H. destruct (freed x); [done|].
    destruct (acquire _ _ _ _ _ _ _ _ _ _ _ _ _ _ _ _) as [[a w1]| |] eqn:Ea; cbn [obind] in H; try done. injection H as Es.
    eapply settle_told; [exact Es|]. eapply (acquire_told P _ _ _ _ _ _ _ _ (upd_res k (add_pending (-1)) w)); [exact Hpl| |exact Ea]. by apply HP.
Qed.

(** C17: each part of an acquisition leaves every other session alone, or
    preempts it: only on request, only one that holds what is asked for (for
    secure video memory: that holds codec memory), and only one whose priority
    is the same or lower than the caller's (a larger number is a lower
    priority).  Requests for secure codec memory are not covered. *)
Theorem victims_not_more_important fuel sess k x preempt timeout arg w w' :
  resources w !! k = Some x -> plain_request x arg = true -> acquires fuel sess k preempt timeout arg w w' ->
  forall i v, i <> sess -> sessions w !! i = Some v -> exists v', sessions w' !! i = Some v' /\
    (v' = v \/ preempt = true /\ status v = RESMAN_STATUS_ACQUIRED /\ status v' = RESMAN_STATUS_PREEMPTED /\
              curr_prio w sess <= prio v /\ exists n, n ∈ resource_sessions w (taken_from k x) /\ session_ptr n = i).
Proof.
  intros Hx Hpl H i v Hi Hv. destruct (acquires_told _ _ _ _ _ _ _ _ _ Hx Hpl H i v Hi Hv) as (v' & Hv' & [->|(H1 & H2 & H3 & H4)]).
  - exists v. split; [done|by left].
  - exists v'. split; [done|]. right. destruct (H4 v Hv). auto.
Qed.

Lemma holders_le w r : (holders_acquired w r <= length (nodes w))%nat.
Proof. unfold holders_acquired, resource_sessions. etrans; apply List.filter_length_le. Qed.

Lemma find_node_other w sess r : resman_find_node_by_resource_id w sess r = None -> forall n, n ∈ resource_sessions w r -> session_ptr n <> sess.
Proof.
  intros H n Hn <-. apply list_elem_of_In, filter_In in Hn as [Hn Hr]. b2p. eapply find_none in H; [|exact Hn].
  unfold same_node in H. by rewrite Hr, !Z.eqb_refl in H.
Qed.

(** The hooks that preempt before they take return when the preemption does. *)
Lemma loop_returns (skip preempt : bool) timeout pre (take : resman M -> attempt * resman M) w :
  (exists b w1, pre = Done (b, w1)) ->
  exists a w', (if skip then
     let* (b, w1) := (if preempt then pre else Done (false, w)) in
     if truthy (timeout_after preempt b timeout) then Done (Wait, w1) else Done (take w1)
   else Done (take w)) = Done (a, w').
Proof.
  intros (b & w1 & ->). assert (K : forall w2, exists a w', @Done (attempt * resman M) (take w2) = Done (a, w')).
  { intros w2. destruct (take w2). by eexists _, _. }
  destruct skip; [|apply K]. destruct preempt; cbn [obind]; (case_if; [by eexists _, _|apply K]).
Qed.

Lemma tvp_returns sess k v preempt timeout arg w : arg <> None ->
  exists a w1, resman_tvp_acquire kstrtou32 enable_tvp busy releases event_ok sess k v preempt timeout arg w = Done (a, w1).
Proof.
  intros Ht. unfold resman_tvp_acquire, tvp_args. destruct arg as [arg|]; [|done].
  destruct (resman_parser_kv _ _ _); cbn [obind]; destruct (enable_tvp _ _ _); (case_if; [by eexists _, _|]); (case_if; [by eexists _, _|]);
    destruct (resman_tvp_preempt _ _ _ _ _) as [[] ?]; by eexists _, _.
Qed.

Lemma acquire_hook_returns fuel sess k x preempt timeout arg w :
  (d x = DTvp -> arg <> None) -> locks_free sess k w -> (length (nodes w) < fuel)%nat ->
  exists a w1, acquire kstrtou32 enable_tvp free_size tvp_free_size busy releases event_ok fuel false sess k x preempt timeout arg w = Done (a, w1).
Proof.
  intros Ht HF Hl.
  assert (HL : forall total size low ret w1, quiet w w1 -> exists b w', preempt_loop busy releases event_ok fuel sess k total size low ret w1 = Done (b, w')).
  { intros total size low ret w1 Hq. assert (Hr : resource_sessions w1 k = resource_sessions w k) by (unfold resource_sessions; by rewrite (q_nodes _ _ Hq)).
    apply preempt_loop_ends; [|pose proof (holders_le w1 k); rewrite (q_nodes _ _ Hq) in *; lia]. intros n. rewrite Hr. apply HF. }
  unfold acquire. destruct (d x) as [avail it| | |total uhd fhd lim cs cn|total].
  - destruct (resman_counter_acquire _ _ _ _ _ _ _ _ _ _ _ _). by eexists _, _.
  - destruct (resman_toggle_acquire _ _ _ _). by eexists _, _.
  - by apply tvp_returns, Ht.
  - unfold resman_codec_mm_acquire, resman_codec_mm_preempt. destruct (codec_mm_args _ _ _ _) as [score sec].
    apply (loop_returns _ _ _ _ (codec_mm_take free_size tvp_free_size k score sec)).
    assert (Hq : quiet w (if sec then secure_loop busy releases event_ok (resource_sessions w k) sess lim cs false w else (false, w)).2)
      by (destruct sec; [apply secure_loop_quiet|done]).
    destruct (if sec then _ else _) as [ret w1]. by apply HL.
  - unfold resman_capacity_acquire, resman_capacity_preempt. destruct (capacity_args _ arg) as [size|]; [|by eexists _, _]. case_if; [by eexists _, _|].
    apply (loop_returns _ _ _ _ (capacity_take k (value x) total size)). by apply HL.
Qed.

Lemma settle_answer sess k a w : exists o w', settle sess k a w = (o, w') /\ o <> Gate /\ (a <> Wait -> exists b, o = Ret b).
Proof. destruct a; eexists _, _; (split; [done|]); (split; [done|]); intros ?; first [done | by eexists]. Qed.

(** After the wait for a release only secure video memory waits again. *)
Lemma resumed_no_wait fuel sess k x preempt timeout arg w : d x <> DTvp ->
  exists a w1, acquire kstrtou32 enable_tvp free_size tvp_free_size busy releases event_ok fuel true sess k x preempt timeout arg w = Done (a, w1) /\ a <> Wait.
Proof.
  intros Hd. unfold acquire. destruct (d x) as [avail it| | |total uhd fhd lim cs cn|total].
  - unfold resman_counter_acquire, counter_take. cbn [negb andb]. case_if; [|by eexists _, _].
    destruct (resman_counter_res_list_acquire_item it sess). by eexists _, _.
  - unfold resman_toggle_acquire. repeat case_match; by eexists _, _.
  - done.
  - unfold resman_codec_mm_acquire, codec_mm_take. destruct (codec_mm_args _ _ _ _) as [score sec]. cbn [negb andb]. case_if; by eexists _, _.
  - unfold resman_capacity_acquire, capacity_take. destruct (capacity_args _ arg) as [size|]; [|by eexists _, _]. case_if; [by eexists _, _|].
    cbn [negb andb]. case_if; by eexists _, _.
Qed.

(** C28: when no holder of the resource is in the middle of another call (or it
    is releasing this very resource), no part of an acquisition runs for ever:
    the search for victims preempts a further holder in each turn, so one turn
    more than there are holders is enough.  The call returns or waits; from
    the gate on it returns or waits for a release, at most; and from there on,
    a wait of limited time, it returns, but for secure video memory, which may
    wait once more.  (The wait at the gate has no limit: it is that for the
    acquisitions before.)  Secure video memory needs an argument. *)
Theorem acquire_returns fuel node_ok sess k x preempt timeout arg w :
  resources w !! k = Some x -> freed x = false -> (d x = DTvp -> arg <> None) ->
  (forall n, n ∈ resource_sessions w k -> busy (session_ptr n) = false \/ releases n = true) -> (length (nodes w) < fuel)%nat ->
  (exists ret w', resman_ioctl_acquire kstrtou32 enable_tvp free_size tvp_free_size busy releases event_ok fuel node_ok sess k preempt timeout arg w = Done (ret, w')) /\
  (resman_find_node_by_resource_id w sess k = None ->
   exists ret w', acquire_locked kstrtou32 enable_tvp free_size tvp_free_size busy releases event_ok fuel node_ok sess k preempt timeout arg w = Done (ret, w') /\ ret <> Gate) /\
  exists ret w', resume_acquire kstrtou32 enable_tvp free_size tvp_free_size busy releases event_ok fuel sess k preempt timeout arg w = Done (ret, w') /\
    ret <> Gate /\ (d x <> DTvp -> exists b, ret = Ret b).
Proof.
  intros Hx Hf Ht HF Hl.
  assert (HL : resman_find_node_by_resource_id w sess k = None ->
    exists ret w', acquire_locked kstrtou32 enable_tvp free_size tvp_free_size busy releases event_ok fuel node_ok sess k preempt timeout arg w = Done (ret, w') /\ ret <> Gate).
  { intros En. unfold acquire_locked. rewrite Hx, Hf. destruct node_ok; cbn [negb]; [|by eexists _, _].
    destruct (acquire_hook_returns fuel sess k x preempt timeout arg w Ht) as (a & w1 & ->); [|done|].
    - intros n Hn. split; [by eapply find_node_other|by apply HF].
    - cbn [obind]. destruct (settle_answer sess k a w1) as (o & w2 & -> & Ho & _). by eexists _, _. }
  split; [|split; [exact HL|]].
  - unfold resman_ioctl_acquire, resman_find_resource_by_id, resman_acquire_resource. rewrite Hx, Hf.
    destruct (resman_find_node_by_resource_id w sess k) eqn:En; [by eexists _, _|]. case_if; [by eexists _, _|].
    destruct (HL eq_refl) as (ret & w' & -> & _). by eexists _, _.
  - unfold resume_acquire. rewrite Hx, Hf. set (w0 := upd_res k (add_pending (-1)) w).
    assert (Ed : d x = DTvp \/ d x <> DTvp) by (destruct (d x); [by right|by right|by left|by right..]). destruct Ed as [Ed|Ed].
    + assert (K : exists a w1, acquire kstrtou32 enable_tvp free_size tvp_free_size busy releases event_ok fuel true sess k x preempt timeout arg w0 = Done (a, w1)).
      { unfold acquire. rewrite Ed. by apply tvp_returns, Ht. }
      destruct K as (a & w1 & ->). cbn [obind]. destruct (settle_answer sess k a w1) as (o & w2 & -> & Ho & _). by eexists _, _.
    + destruct (resumed_no_wait fuel sess k x preempt timeout arg w0 Ed) as (a & w1 & -> & Ha). cbn [obind].
      destruct (settle_answer sess k a w1) as (o & w2 & -> & Ho & Hb). eexists _, _. auto.
Qed.

End Preempt.
End ResManPreempt.
