(* ===== verification/ResManDemo.v ===== *)
(** * A concrete resource manager

    Inputs at which the theorems of the resource manager apply, and what the
    code does at its edges. *)

From S2P Require Import Prelude Mem ResMan ResManInv ResManRun ResManPreempt.
From stdpp Require Import base list numbers gmap relations.
From Stdlib Require Import ZArith Lia.
From Stdlib Require String.
Import String.StringSyntax.

Local Open Scope Z_scope.
Local Open Scope cint_scope.

Module ResManDemo.
Import ResMan ResManInv ResManRun ResManPreempt.

(** Decimal numbers below 2^32. *)
Fixpoint digits (acc : Z) (str : list Z) : option Z :=
  match str with
  | [] => Some acc
  | c :: r => if (48 <=? c) && (c <=? 57) && (acc * 10 + (c - 48) <? 2 ^ 32) then digits (acc * 10 + (c - 48)) r else None
  end.
Definition dec (str : list Z) : option Z := match str with [] => None | _ => digits 0 str end.

Lemma digits_range str : forall acc v, 0 <= acc < 2 ^ 32 -> digits acc str = Some v -> 0 <= v < 2 ^ 32.
Proof.
  induction str as [|c r IH]; intros acc v Ha; cbn [digits]; [by intros [= <-]|]. case_if; [|done]. apply IH. lia.
Qed.

Lemma dec_range str v : dec str = Some v -> 0 <= v < 2 ^ 32.
Proof. destruct str; [done|]. apply digits_range. lia. Qed.

(** Memory that is always there: 64 MB. *)
Definition mb (n : Z) : Z := n << 20.
Abbreviation W := (resman unit).
Definition create (n : String.string) (type : Z) (arg : String.string) (w : W) : bool * W :=
  resman_create_resource dec (fun _ => mb 64) (fun _ => (mb 16, mb 32)) true true (Some (bytes_of n)) type (Some (bytes_of arg)) w.
Definition acq (busy : Z -> bool) (fuel : nat) (sess k : Z) (preempt : bool) (timeout : Z) (arg : option (list Z)) (w : W) :=
  resman_ioctl_acquire dec (fun _ _ m => (0, m)) (fun _ => mb 64) (fun _ => 0) busy (fun _ => false) true fuel true sess k preempt timeout arg w.
Definition ran {A} (o : outcome (A * W)) : W := match o with Done (_, w) => w | _ => RM ∅ ∅ [] 1 tt end.
Definition sessions_two (w : W) : W := (resman_open_session (resman_open_session w).2).2.
Definition nobusy (_ : Z) : bool := false.
Definition hd_arg (s : String.string) : option (list Z) := Some (bytes_of s).
#[global] Arguments create n%_string_scope type arg%_string_scope w.
#[global] Arguments hd_arg s%_string_scope.

(** ** One instance, two sessions *)

Definition d0 : W := (create "vfm_default" RESMAN_TYPE_COUNTER "avail:1" (RM ∅ ∅ [] 1 tt)).2.
Definition d1 : W := sessions_two d0.
Definition d2 : W := ran (acq nobusy 9 1 0 false 0 None d1).
Definition d3 : W := ran (acq nobusy 9 2 0 true 100 None d2).
Definition d4 : W := ran (resman_ioctl_release id 1 0 d3).
Definition d5 : W := ran (resume_acquire dec (fun _ _ m => (0, m)) (fun _ => mb 64) (fun _ => 0) nobusy (fun _ => false) true 9 2 0 true 100 None d4).
Definition shut (i : Z) (w : W) : W := match resman_close_session id i w with Done w => w | _ => w end.

Abbreviation Loaded := (loaded dec (fun _ => mb 64) (fun _ => (mb 16, mb 32))).
Abbreviation Reach := (reach dec (fun _ _ m => (0, m)) id (fun _ : unit => mb 64) (fun _ => 0)).

Lemma d0_loaded : Loaded d0.
Proof.
  eapply (loaded_create _ _ _ (RM ∅ ∅ [] 1 tt) true true (Some (bytes_of "vfm_default")) RESMAN_TYPE_COUNTER (hd_arg "avail:1")); [constructor|reflexivity|].
  assert (E : resources d0 = <[0 := Res (bytes_of "vfm_default") 0 (DCounter 1 (Some [Item (-1) 0])) 0 false]> ∅) by (vm_compute; reflexivity).
  rewrite E. intros r x [[<- <-]|[_ H]]%lookup_insert_Some; [cbn; lia|]. by rewrite lookup_empty in H.
Qed.

Lemma no_arg : small_arg dec None.
Proof. intros size [= <-]. lia. Qed.

Lemma few_fit (w : W) : forallb (fun n => 0 <=? node_use n) (nodes w) && (total_use (nodes w) <? 2 ^ 31) = true -> fits_int w.
Proof.
  intros [Hn Ht]%andb_prop r. apply Z.ltb_lt in Ht. rewrite forallb_forall in Hn. apply Z.le_lt_trans with (total_use (nodes w)); [|done].
  clear Ht. unfold resource_sessions. induction (nodes w) as [|n l IH]; cbn; [done|].
  assert (0 <= node_use n) by (specialize (Hn n (or_introl eq_refl)); lia).
  assert (total_use (List.filter (fun n => resource_ptr n =? r) l) <= total_use l) by (apply IH; intros m Hm; apply Hn; by right).
  case_if; cbn; lia.
Qed.

(** The second session asks for the instance of the first, waits, and gets it. *)
Lemma d5_reach : Reach d0 (d5, []).
Proof.
  eapply rtc_l; [by apply step_open|]. eapply rtc_l; [by apply step_open|].
  eapply rtc_l; [apply (step_acquire dec _ _ _ _ d1 [] nobusy (fun _ => false) true 9 true 1 0 false 0 None (Ret 0) d2);
    [by eexists|apply not_elem_of_nil|apply no_arg|vm_compute; reflexivity|by apply few_fit; vm_compute]|].
  eapply rtc_l; [apply (step_acquire dec _ _ _ _ d2 [] nobusy (fun _ => false) true 9 true 2 0 true 100 None Waits d3);
    [by eexists|apply not_elem_of_nil|apply no_arg|vm_compute; reflexivity|by apply few_fit; vm_compute]|].
  eapply rtc_l; [apply (step_release dec _ id _ _ d3 [Pend 2 0 true 100 None ForRelease] 1 0 0 d4); [|vm_compute; reflexivity]|].
  { unfold idle. cbn. intros H%list_elem_of_singleton. lia. }
  eapply rtc_l; [apply (step_resume dec _ _ _ _ d4 (Pend 2 0 true 100 None ForRelease) [] [] nobusy (fun _ => false) true 9 (Ret true) d5);
    [done|vm_compute; reflexivity|by apply few_fit; vm_compute]|].
  apply rtc_refl.
Qed.

Lemma accounts_right_witness : nodes d5 = [Node 2 0 NNone] /\ NoDup (key <$> nodes d5).
Proof.
  split; [vm_compute; reflexivity|].
  exact (proj1 (accounts_right dec _ id _ _ _ _ dec_range d0 d5 [] d0_loaded d5_reach)).
Defined.

(** Both sessions close. *)
Lemma closed_reach : Reach d0 (shut 2 (shut 1 d5), []).
Proof.
  eapply rtc_r; [eapply rtc_r; [apply d5_reach|]|].
  - apply (step_close dec _ id _ _ d5 [] 1); [apply not_elem_of_nil|vm_compute; reflexivity].
  - apply (step_close dec _ id _ _ (shut 1 d5) [] 2); [apply not_elem_of_nil|vm_compute; reflexivity].
Qed.

Lemma all_closed_as_created_witness : nodes (shut 2 (shut 1 d5)) = [].
Proof.
  refine (proj1 (all_closed_as_created dec _ id _ _ _ _ dec_range d0 (shut 2 (shut 1 d5)) [] d0_loaded closed_reach _)).
  vm_compute. reflexivity.
Defined.

Lemma close_never_faults_witness : exists w', resman_close_session id 2 d5 = Done w' /\ Forall (fun n => session_ptr n <> 2) (nodes w').
Proof.
  exact (close_never_faults dec _ id _ _ _ _ dec_range d0 d5 [] 2 d0_loaded d5_reach (not_elem_of_nil 2)).
Defined.

Lemma counter_index_own_witness : resman_get_counter_index 2 0 d5 = Done 0.
Proof.
  assert (Hn : Node 2 0 NNone ∈ resource_sessions d5 0) by (vm_compute; left).
  destruct (resources d5 !! 0) as [x|] eqn:Ex; [|by vm_compute in Ex].
  assert (Hd : d x = DCounter 1 (Some [Item 2 1])) by (vm_compute in Ex; by injection Ex as <-).
  destruct (counter_index_own dec _ id _ _ _ _ dec_range d0 d5 [] 0 x 1 _ _ _ d0_loaded d5_reach Ex Hd ltac:(lia) Hn Hn)
    as (i & j & Hi & _ & Hb & _).
  cbn [session_ptr] in Hi. rewrite Hi. f_equal. lia.
Defined.

Lemma victims_not_more_important_witness : exists v', sessions d3 !! 1 = Some v' /\ status v' = RESMAN_STATUS_PREEMPTED.
Proof.
  destruct (resources d2 !! 0) as [x|] eqn:Ex; [|by vm_compute in Ex].
  assert (Hp : plain_request dec x None = true) by (vm_compute in Ex; by injection Ex as <-).
  assert (Ha : acq nobusy 9 2 0 true 100 None d2 = Done (Waits, d3)) by (vm_compute; reflexivity).
  assert (Hs : sessions d2 !! 1 = Some (Sess RESMAN_STATUS_ACQUIRED [] [] 0 0)) by (vm_compute; reflexivity).
  destruct (victims_not_more_important dec (fun _ _ m => (0, m)) (fun _ => mb 64) (fun _ => 0) nobusy (fun _ => false) true 9 2 0 x true 100 None d2 d3 Ex Hp
    (acq_call _ _ _ _ _ _ _ _ _ _ _ _ _ _ _ _ _ Ha) 1 _ ltac:(lia) Hs)
    as (v' & Hv & [->|H]); [vm_compute in Hv; discriminate Hv|]. exists v'. split; [exact Hv|apply H].
Defined.

Lemma acquire_returns_witness : (exists ret w', acq nobusy 9 2 0 true 100 None d2 = Done (ret, w')) /\
  exists b w', resume_acquire dec (fun _ _ m => (0, m)) (fun _ => mb 64) (fun _ => 0) nobusy (fun _ => false) true 9 2 0 true 100 None d2 = Done (Ret b, w').
Proof.
  destruct (resources d2 !! 0) as [x|] eqn:Ex; [|by vm_compute in Ex].
  destruct (acquire_returns dec (fun _ _ m => (0, m)) (fun _ => mb 64) (fun _ => 0) nobusy (fun _ => false) true 9 true 2 0 x true 100 None d2 Ex)
    as (H1 & _ & ret & w' & H2 & _ & H3).
  - vm_compute in Ex. by injection Ex as <-.
  - vm_compute in Ex. by injection Ex as <-.
  - by left.
  - vm_compute. lia.
  - split; [exact H1|]. destruct H3 as [b ->]; [vm_compute in Ex; by injection Ex as <-|]. by exists b, w'.
Defined.

(** ** Edges *)

(** Two capacities of ten units, each held whole by one of two sessions. *)
Definition e0 : W := sessions_two (create "di" RESMAN_TYPE_CAPACITY_SIZE "total:10" (create "dmx" RESMAN_TYPE_CAPACITY_SIZE "total:10" (RM ∅ ∅ [] 1 tt)).2).2.
Definition e1 : W := ran (acq nobusy 9 2 9 false 0 (hd_arg "size:10") (ran (acq nobusy 9 1 8 false 0 (hd_arg "size:10") e0))).

Lemma preempt_loop_stuck fuel curr r : (curr, r) ∈ [(1, 9); (2, 8)] ->
  preempt_loop (fun _ => true) (fun _ => false) true fuel curr r 10 10 0 false e1 = Spin.
Proof.
  intros Hc. induction fuel as [|f IH]; [done|]. apply elem_of_cons in Hc as [[= -> ->]|[= -> ->]%list_elem_of_singleton];
    cbn [preempt_loop]; exact IH.
Qed.

(** Each wants what the other has, and may preempt: both search for ever,
    because a session that is in a call keeps its lock, and neither call comes
    to its end before the other gives way. *)
Theorem mutual_preempt_spins fuel :
  acq (fun _ => true) fuel 1 9 true 100 (hd_arg "size:10") e1 = Spin /\ acq (fun _ => true) fuel 2 8 true 100 (hd_arg "size:10") e1 = Spin.
Proof.
  pose proof (preempt_loop_stuck fuel 1 9 ltac:(left)) as H1. pose proof (preempt_loop_stuck fuel 2 8 ltac:(right; left)) as H2.
  split; [change (acq (fun _ => true) fuel 1 9 true 100 (hd_arg "size:10") e1) with
    (let* (ret, w) := (let* (a, w) := (let* (b, w) := preempt_loop (fun _ => true) (fun _ => false) true fuel 1 9 10 10 0 false e1 in
       if truthy (timeout_after true b 100) then Done (Wait, w) else Done (capacity_take 9 10 10 10 w)) in Done (settle 1 9 a w)) in
     Done (ioctl_ret ret, w)); by rewrite H1|].
  change (acq (fun _ => true) fuel 2 8 true 100 (hd_arg "size:10") e1) with
    (let* (ret, w) := (let* (a, w) := (let* (b, w) := preempt_loop (fun _ => true) (fun _ => false) true fuel 2 8 10 10 0 false e1 in
       if truthy (timeout_after true b 100) then Done (Wait, w) else Done (capacity_take 8 10 10 10 w)) in Done (settle 2 8 a w)) in
     Done (ioctl_ret ret, w)); by rewrite H2.
Qed.

(** A request just below 2^32 wraps and is granted: the account goes down. *)
Example capacity_wrap_granted : (resources (ran (acq nobusy 9 2 8 false 0 (hd_arg "size:4294967290") e1)) !! 8) =
  Some (Res (bytes_of "dmx") 4 (DCapacity 10) 0 false).
Proof. vm_compute. reflexivity. Qed.

(** Without an argument, as in the old form of the call, secure video memory reads NULL. *)
Example tvp_null_arg_faults : acq nobusy 9 1 3 false 0 None (sessions_two (create "tvp" RESMAN_TYPE_TVP "" (RM ∅ ∅ [] 1 tt)).2) = Fault.
Proof. vm_compute. reflexivity. Qed.

(** The index of a resource that is not a counter. *)
Example index_of_capacity_faults : resman_get_counter_index 1 8 e1 = Fault.
Proof. vm_compute. reflexivity. Qed.

(** Creating a held counter again keeps its value and forgets who holds it. *)
Example recreate_forgets : (resources (create "vfm_default" RESMAN_TYPE_COUNTER "avail:1" d2).2 !! 0) =
  Some (Res (bytes_of "vfm_default") 1 (DCounter 1 (Some [Item (-1) 0])) 0 false).
Proof. vm_compute. reflexivity. Qed.

(** Creating it again with a bad argument frees it, though it is held and stays in the list. *)
Example recreate_frees : let w := (create "vfm_default" RESMAN_TYPE_COUNTER "avail" d2).2 in
  (fun x => freed x) <$> resources w !! 0 = Some true /\ resman_close_session id 1 w = Fault.
Proof. vm_compute. done. Qed.

(** A third session waits at the gate while the second waits for the first. *)
Definition third (w : W) := acq nobusy 9 3 0 true 5000 None (resman_open_session w).2.
Example queued_at_gate : match third d3 with Done (ret, _) => ret = Gate | _ => False end.
Proof. vm_compute. reflexivity. Qed.

(** The first holder has been told to go and has not gone when the wait of the
    second ends; the third then fails at once, whatever its timeout. *)
Definition d6 : W := ran (resume_acquire dec (fun _ _ m => (0, m)) (fun _ => mb 64) (fun _ => 0) nobusy (fun _ => false) true 9 2 0 true 100 None d3).
Example preempted_holder_no_wait : match third d6 with Done (ret, _) => ret = Ret (- EBUSY) | _ => False end.
Proof. vm_compute. reflexivity. Qed.

(** A secure request preempts a secure holder of the highest priority; the caller has the lowest. *)
Definition s0 : W := sessions_two (create "codec_mm" RESMAN_TYPE_CODEC_MM "total:10,uhd:8,fhd:8,secure:1" (RM ∅ ∅ [] 1 tt)).2.
Definition s1 : W := resman_ioctl_setappinfo 2 [] 0 100 (ran (acq nobusy 9 1 5 false 0 (hd_arg "secure") s0)).
Example secure_ignores_prio :
  match resman_ioctl_acquire dec (fun _ _ m => (0, m)) (fun _ => 0) (fun _ => 0) nobusy (fun _ => false) true 9 true 2 5 true 100 (hd_arg "secure") s1 with
  | Done (Waits, w) => (status <$> sessions w !! 1) = Some RESMAN_STATUS_PREEMPTED /\ curr_prio s1 1 < curr_prio s1 2
  | _ => False
  end.
Proof. vm_compute. done. Qed.

End ResManDemo.
