(* ===== verification/ResManJson.v ===== *)
(** * The configuration of the resource manager

    The resources are created from a JSON text, read with cjson.c: at start-up
    from a built-in one ([all_resource_init]), later from one written to the
    attribute [config] ([config_store]), or one by one with an ioctl.

    The theorem: for every text of the JSON grammar the code creates exactly
    the resources the value lists, in its order, up to the first that fails. *)

From S2P Require Import Prelude Mem Cjson CjsonGrammar CjsonUse ResMan ResManInv ResManRun ResManDemo.
From stdpp Require Import base list numbers gmap.
From Stdlib Require Import ZArith Lia.
From Stdlib Require String.
Import String.StringSyntax.

Local Open Scope Z_scope.
Local Open Scope cint_scope.
Local Set Warnings "-register-all".

Module ResManJson.
Import Cjson CjsonGrammar CjsonUse ResMan.

Definition STR_MAX_SIZE : Z := 32.

Section Config.
Context {M : Type}.
Variable kstrtou32 : list Z -> option Z.
Variable total_size : M -> Z.
Variable default_tvp_size : M -> Z * Z.
(** Is there memory for the [i]-th resource and its list? *)
Variable mem : nat -> bool * bool.
Implicit Types w : resman M.

(** The manager, resman_configs, and the blocks of the JSON reader. *)
Record config_state := Conf { mgr : resman M; resman_configs : option (list Z); heap : pstate }.

Definition key_name (s : String.string) : option (list Z) := Some (bytes_of s ++ [0]).
#[local] Arguments key_name s%_string_scope.

(** The C string of a node, NULL when there is none. *)
Definition node_text (c : option cjson) : outcome (option (list Z)) :=
  match c ≫= valuestring with
  | Some b => let* l := cstr (bytes b) in Done (Some l)
  | None => Done None
  end.

Definition create_resource (i : nat) (n : option (list Z)) (type : Z) (arg : option (list Z)) w : bool * resman M :=
  resman_create_resource kstrtou32 total_size default_tvp_size (mem i).1 (mem i).2 n type arg w.

(** The loop over the array; [None]: a name or a type is missing, which leaves the function at once. *)
Fixpoint config_loop (i : nat) (l : list cjson) w : outcome (option bool * resman M) :=
  match l with
  | [] => Done (Some true, w)
  | node :: r =>
      let* name_node := cjson_getobjectitem node (key_name "name") in
      match name_node with
      | None => Done (None, w)
      | Some name_node =>
          let* type_node := cjson_getobjectitem node (key_name "type") in
          match type_node with
          | None => Done (None, w)
          | Some type_node =>
              let* args_node := cjson_getobjectitem node (key_name "args") in
              let* n := node_text (Some name_node) in
              let* arg := node_text args_node in
              let '(b, w) := create_resource i n (valueint type_node) arg w in
              if b then config_loop (S i) r w else Done (Some false, w)
          end
      end
  end.

(** What becomes of the state after the loop. [keep_ok]: is there memory for the kept text? *)
Definition config_end (keep_ok : bool) (buf : list Z) (ret : option bool) (cs : option (list Z)) w
    : outcome (bool * resman M * option (list Z)) :=
  match ret with
  | None => Done (false, w, cs)
  | Some false => let* w := all_resource_uninit w in Done (false, w, None)
  | Some true =>
      Done (true, w, match cs with Some c => if keep_ok then Some (c ++ buf) else Some c | None => if keep_ok then Some buf else None end)
  end.

(** [dup_ok]: is there memory for the copy of the text? *)
Definition resman_config_from_json (dup_ok keep_ok : bool) (ok : nat -> bool) (pf fuel : nat) (buf : option (list Z)) (st : config_state)
    : outcome (bool * config_state) :=
  match buf with
  | None => Done (false, st)
  | Some buf =>
      if negb dup_ok then Done (false, st)
      else match List.rev buf with
           | [] => Fault
           | last :: front =>
               let configs := if last =? 10 then List.rev front ++ [0; 0] else buf ++ [0] in
               let* (h, root) := cjson_parse ok pf fuel (heap st) (Some configs) in
               match root with
               | None => Done (false, Conf (mgr st) (resman_configs st) h)
               | Some root =>
                   let* arrs_node := cjson_getobjectitem root (key_name "resman_config") in
                   match arrs_node with
                   | None => Done (false, Conf (mgr st) (resman_configs st) (cjson_delete (Some root) h))
                   | Some a =>
                       let* (ret, w) := (if type a =? cjson_array then config_loop 0 (child a) (mgr st) else Done (Some true, mgr st)) in
                       let* (ret, w, cs) := config_end keep_ok buf ret (resman_configs st) w in
                       Done (ret, Conf w cs (cjson_delete (Some root) h))
                   end
               end
           end
  end.

Definition config_store (dup_ok keep_ok : bool) (ok : nat -> bool) (pf fuel : nat) (buf : list Z) (st : config_state) : outcome (Z * config_state) :=
  let* w := all_resource_uninit (mgr st) in
  let* (_, st) := resman_config_from_json dup_ok keep_ok ok pf fuel (Some buf) (Conf w None (heap st)) in
  Done (blen buf, st).

Definition resman_ioctl_checksupportres (k : Z) (n : list Z) w : Z :=
  if 31 <? k then - EINVAL else if resman_find_resource_by_name w n then 0 else - EINVAL.

(** [None]: the item cannot be copied. *)
Definition resman_ioctl_load_res (i : nat) (item : option (list Z * Z * list Z)) w : Z * resman M :=
  match item with
  | None => (0, w)
  | Some (n, type, arg) =>
      let n := take 31 n in
      let arg := take 31 arg in
      if (0 <? blen n) && (blen n <? STR_MAX_SIZE) then
        let '(b, w) := create_resource i (Some n) type (if (0 <? blen arg) && (blen arg <? STR_MAX_SIZE) then Some arg else None) w in
        (if b then 0 else -1, w)
      else (0, w)
  end.

(** ** What a value says *)

Definition field (k : list Z) (v : json) : option json :=
  match v with JObj l => snd <$> List.find (fun kv => bool_decide (lower (fst kv) = lower k)) l | _ => None end.
Definition as_text (v : json) : option (list Z) := match v with JStr s => Some s | _ => None end.
Definition as_int (v : json) : Z := match v with JNum z => z | JTrue => 1 | _ => 0 end.

Fixpoint config_entries (i : nat) (l : list json) w : option bool * resman M :=
  match l with
  | [] => (Some true, w)
  | v :: r =>
      match field (bytes_of "name") v, field (bytes_of "type") v with
      | Some n, Some t =>
          let '(b, w) := create_resource i (as_text n) (as_int t) (field (bytes_of "args") v ≫= as_text) w in
          if b then config_entries (S i) r w else (Some false, w)
      | _, _ => (None, w)
      end
  end.

Definition config_value (v : json) w : option bool * resman M :=
  match field (bytes_of "resman_config") v with
  | Some (JArr l) => config_entries 0 l w
  | Some _ => (Some true, w)
  | None => (None, w)
  end.

(** ** The tree says what the value says *)

Lemma find_unnamed (l : list cjson) k : k <> [] -> Forall (fun x => string x = None) l ->
  List.find (fun kv => bool_decide (lower (fst kv) = lower k)) (map (fun c => (cstring (string c), json_of c)) l) = None.
Proof.
  intros Hk. induction 1 as [|c l Hc _ IH]; [done|]. cbn [map List.find fst]. rewrite Hc. rewrite bool_decide_false; [exact IH|]. by destruct k.
Qed.

(** The kinds of value a node can have. *)
Ltac by_type c := destruct c as [self ch ty vs vi str pure]; cbn in *; unfold cjson_false, cjson_true, cjson_number, cjson_string, cjson_array, cjson_object in *.

Lemma item_field c k : Forall sound (child c) -> plain_value c -> k <> [] -> Forall (fun x => x <> 0) k ->
  exists o, cjson_getobjectitem c (Some (k ++ [0])) = Done o /\ (forall x, o = Some x -> sound x) /\ json_of <$> o = field k (json_of c).
Proof.
  intros Hs (_ & _ & Hp) Hk Hz. exists (List.find (answers k) (child c)). unfold cjson_getobjectitem.
  split; [apply object_from_find; [by apply sound_named|done]|]. split.
  { intros x Hx. apply find_some in Hx as [Hx _]. rewrite Forall_forall in Hs. apply Hs. by apply list_elem_of_In. }
  rewrite find_answers by done. destruct Hp as [Hp|Hp].
  - by_type c. by subst ty.
  - rewrite find_unnamed by done. by_type c. repeat case_match; try done. cbn. by rewrite find_unnamed.
Qed.

Lemma node_text_ok x : plain_value x -> node_text (Some x) = Done (as_text (json_of x)).
Proof.
  intros (Hv & _). unfold node_text. cbn [mbind option_bind]. by_type x. destruct vs as [b|].
  - destruct Hv as (-> & l & r & Hb & Hz). cbn. by rewrite Hb, cstr_app.
  - cbn. repeat case_match; b2p; done.
Qed.

Lemma valueint_ok x : plain_value x -> valueint x = as_int (json_of x).
Proof.
  intros (_ & Hi & _). by_type x. destruct Hi as [->| ->]; [done|]. repeat case_match; b2p; subst; try done; lia.
Qed.

Lemma text_nonzero (s : list Z) : forallb (fun x => negb (x =? 0)) s = true -> Forall (fun x => x <> 0) s.
Proof. intros H. apply Forall_forall. intros x Hx. rewrite List.forallb_forall in H. apply list_elem_of_In, H in Hx. by b2p. Qed.

Lemma config_loop_ok l : forall i w, Forall sound l -> config_loop i l w = Done (config_entries i (map json_of l) w).
Proof.
  induction l as [|c l IH]; intros i w Hs; [done|]. apply Forall_cons in Hs as [[_ Hc Hv] Hs]. cbn [config_loop map config_entries].
  destruct (item_field c (bytes_of "name") Hc Hv) as (o1 & E1 & S1 & J1); [done|by apply text_nonzero|].
  destruct (item_field c (bytes_of "type") Hc Hv) as (o2 & E2 & S2 & J2); [done|by apply text_nonzero|].
  destruct (item_field c (bytes_of "args") Hc Hv) as (o3 & E3 & S3 & J3); [done|by apply text_nonzero|].
  unfold key_name. rewrite E1, E2, E3, <- J1, <- J2, <- J3. cbn [obind]. destruct o1 as [x1|]; cbn [fmap option_fmap option_map]; [|done].
  destruct o2 as [x2|]; cbn [fmap option_fmap option_map]; [|done]. destruct (S1 x1 eq_refl) as [_ _ P1]. destruct (S2 x2 eq_refl) as [_ _ P2].
  rewrite node_text_ok by done. cbn [obind].
  assert (node_text o3 = Done ((json_of <$> o3) ≫= as_text)) as ->.
  { destruct o3 as [x3|]; [|done]. destruct (S3 x3 eq_refl) as [_ _ P3]. by rewrite node_text_ok. }
  cbn [obind]. rewrite (valueint_ok x2 P2). destruct (create_resource _ _ _ _ _) as [[] w1]; [by apply IH|done].
Qed.

(** ** The text *)

(** Only the bytes before the terminator count. *)
Lemma cjson_parse_nul ok pf fuel h x r : Forall (fun c => c <> 0) x ->
  cjson_parse ok pf fuel h (Some (x ++ 0 :: r)) = cjson_parse ok pf fuel h (Some (x ++ [0])).
Proof. intros Hx. unfold cjson_parse, cjson_parsewithopts, get_pure_json_str. by rewrite !cstr_app. Qed.

Definition ends_plain (s : list Z) : Prop := exists f c, s = f ++ [c] /\ c <> 10.

Lemma ends_app a b : ends_plain b -> ends_plain (a ++ b).
Proof. intros (f & c & -> & Hc). exists (a ++ f), c. by rewrite app_assoc. Qed.

Lemma ends_cons c b : ends_plain b -> ends_plain (c :: b).
Proof. apply (ends_app [c]). Qed.

Lemma ends_one c : c <> 10 -> ends_plain [c].
Proof. intros Hc. by exists [], c. Qed.

Lemma renders_ends : (forall v s, renders v s -> (forall z, v <> JNum z) -> ends_plain s) /\ (forall l t, items l t -> ends_plain t) /\
  (forall k m, member k m -> True) /\ (forall l t, members l t -> ends_plain t).
Proof.
  apply renders_items_ind; intros; try done; auto 10 using ends_cons, ends_app, ends_one.
  - by exists [110; 117; 108], 108.
  - by exists [102; 97; 108; 115], 101.
  - by exists [116; 114; 117], 101.
  - by destruct (H z).
  - match goal with Hs : str_text _ _ |- _ => destruct Hs as (n & body & _ & -> & _) end. apply ends_cons, ends_app. by apply ends_one.
Qed.

(** A newline at the end is white space after the value. *)
Lemma newline_is_space (s a b front : list Z) : ends_plain s -> List.rev (a ++ s ++ b) = 10 :: front ->
  exists b0, b = b0 ++ [10] /\ List.rev front = a ++ s ++ b0.
Proof.
  intros (f & c & -> & Hc) H. apply (f_equal (@List.rev Z)) in H. rewrite List.rev_involutive in H. cbn in H.
  destruct b as [|x b _] using rev_ind.
  - rewrite app_nil_r, app_assoc in H. apply app_inj_tail in H as [_ H]. done.
  - rewrite !app_assoc in H. apply app_inj_tail in H as [H ->]. exists b. split; [done|]. by rewrite <- H, !app_assoc.
Qed.

(** C11: a configuration in any text of the grammar of [cjson_parse_renders]
    (integers of 32 bits only, no string that ends in an escaped backslash,
    unicode escapes for ASCII only) whose value is not a bare number does what
    its value says, when the reader's allocations succeed: the entries of the
    array are created in order, by their name, type and arguments, up to the
    first that fails; an entry without name or type ends it, a failed creation
    takes all resources away, and on success the text is kept. The reader
    stays inside its buffers and ends. *)
Theorem config_from_json_refines (keep_ok : bool) (pf fuel : nat) (v : json) (s ws1 ws2 : list Z) (w : resman M) (cs : option (list Z)) (h : pstate) :
  renders v s -> (forall z, v <> JNum z) -> ws ws1 -> ws ws2 -> (length (ws1 ++ s ++ ws2) < fuel)%nat ->
  let text := ws1 ++ s ++ ws2 in
  exists h', resman_config_from_json true keep_ok all pf fuel (Some text) (Conf w cs h) =
    (let* (ret, w, cs) := (let '(ret, w) := config_value v w in config_end keep_ok text ret cs w) in Done (ret, Conf w cs h')).
Proof.
  intros Hr Hnum H1 H2 Hf text.
  assert (Hm : forall x : list Z, match v with JNum _ => x <> [] | _ => True end) by (intros x; destruct v; try done; by destruct (Hnum z)).
  pose proof (proj1 renders_ends v s Hr Hnum) as He.
  assert (Hz : Forall (fun c => c <> 0) text).
  { unfold text. rewrite !Forall_app. pose proof (proj1 grammar_nonzero v s Hr). auto using ws_nonzero. }
  unfold resman_config_from_json. cbn [negb]. destruct (List.rev text) as [|last front] eqn:Et.
  { apply (f_equal (@List.rev Z)) in Et. rewrite List.rev_involutive in Et. destruct He as (f & c & -> & _). unfold text in Et. by destruct ws1, f. }
  assert (Hp : exists h1 c, cjson_parse all pf fuel h (Some (if last =? 10 then List.rev front ++ [0; 0] else text ++ [0])) = Done (h1, Some c) /\
    json_of c = v /\ Forall sound (child c) /\ plain_value c).
  { case_if.
    - subst last. destruct (newline_is_space s ws1 ws2 front He Et) as (w0 & E0 & ->). rewrite E0 in H2, Hf. apply Forall_app in H2 as [H2 _].
      rewrite cjson_parse_nul.
      + apply cjson_parse_tree; try done; [apply Hm|]. pose proof (length_app w0 [10]) as Hl. rewrite !length_app in Hf |- *. cbn in *. lia.
      + unfold text in Hz. rewrite E0, !Forall_app in Hz. rewrite !Forall_app. tauto.
    - by apply cjson_parse_tree, Hf; try apply Hm. }
  destruct Hp as (h1 & c & Ep & Hj & Hs & Hv). cbv zeta. cbn [heap mgr resman_configs]. rewrite Ep. cbn [obind].
  destruct (item_field c (bytes_of "resman_config") Hs Hv) as (o & Eo & So & Jo); [done|by apply text_nonzero|].
  unfold key_name. rewrite Eo. cbn [obind]. unfold config_value. rewrite Hj in Jo. rewrite <- Jo. destruct o as [a|]; cbn [fmap option_fmap option_map]; [|by eexists].
  destruct (So a eq_refl) as [_ Ha Pa]. eexists. destruct (Z.eqb_spec (type a) cjson_array) as [E|E].
  - rewrite config_loop_ok by done. cbn [obind].
    assert (json_of a = JArr (map json_of (child a))) as -> by (by_type a; by subst ty).
    destruct (config_entries _ _ _) as [ret w']. reflexivity.
  - cbn [obind]. by_type a. repeat case_match; b2p; try done.
Qed.

End Config.
#[global] Arguments Conf {M}.
#[global] Arguments mgr {M}.
#[global] Arguments resman_configs {M}.
#[global] Arguments heap {M}.

(** ** The built-in configuration *)

(** A text with ' for the quotes. *)
Definition quoted (s : String.string) : list Z := map (fun c => if c =? 39 then ch_quote else c) (bytes_of s).
#[global] Arguments quoted s%_string_scope.

Definition default_configs : list Z := concat [
  quoted "{'resman_config':[{'name':'vfm_default','type':1,'args':'avail:1'},";
  quoted "{'name': 'amvideo','type': 1,'args': 'avail:1'},";
  quoted "{'name': 'videopip','type': 1,'args': 'avail:1'},";
  quoted "{'name': 'tvp','type': 3},";
  quoted "{'name': 'tsparser','type': 1,'args': 'avail:1'},";
  quoted "{'name': 'codec_mm','type': 4,'args': 'total:0'},";
  quoted "{'name': 'adc_pll','type': 1,'args': 'avail:1'},";
  quoted "{'name': 'decoder','type': 1,'args': 'avail:9'},";
  quoted "{'name': 'videoplane','type': 1,'args': 'avail:1'},";
  quoted "{'name': 'audiodecoder','type': 1,'args': 'avail:2'}]}"].

(** The result of reading the configuration is not looked at. *)
Definition all_resource_init {M} (kstrtou32 : list Z -> option Z) (total_size : M -> Z) (default_tvp_size : M -> Z * Z) (mem : nat -> bool * bool)
    (text_ok dup_ok keep_ok : bool) (ok : nat -> bool) (pf fuel : nat) (m : M) : outcome (config_state (M := M)) :=
  let st := Conf (RM ∅ ∅ [] 1 m) None (PSt 0 [] None) in
  if text_ok then
    let* (_, st) := resman_config_from_json kstrtou32 total_size default_tvp_size mem dup_ok keep_ok ok pf fuel (Some default_configs) st in Done st
  else Done st.

Definition boot (m : unit) : outcome config_state :=
  all_resource_init ResManDemo.dec (fun _ => ResManDemo.mb 64) (fun _ => (ResManDemo.mb 16, ResManDemo.mb 32)) (fun _ => (true, true)) true true true all 9 600 m.

Definition counter_of (n : String.string) (avail : Z) : resman_resource :=
  Res (bytes_of n) 0 (DCounter avail (Some (resman_counter_res_list_init avail))) 0 false.
#[global] Arguments counter_of n%_string_scope avail.

(** The built-in text is read without a fault and makes its ten resources;
    every block of the reader is freed. *)
Theorem default_configs_created :
  match boot tt with
  | Done st =>
      resources (mgr st) = list_to_map [
        (0, counter_of "vfm_default" 1); (1, counter_of "amvideo" 1); (2, counter_of "videopip" 1);
        (3, Res (bytes_of "tvp") 0 DTvp 0 false); (4, counter_of "tsparser" 1);
        (5, Res (bytes_of "codec_mm") 0 (DCodecMm 64 32 16 2 0 0) 0 false); (6, counter_of "adc_pll" 1);
        (7, counter_of "decoder" 9); (12, counter_of "videoplane" 1); (13, counter_of "audiodecoder" 2)] /\
      resman_configs st = Some default_configs /\ Cjson.freed (heap st) ≡ₚ seq 0 (calls (heap st))
  | _ => False
  end.
Proof.
  vm_compute. split; [reflexivity|]. split; [reflexivity|]. apply (bool_decide_unpack _). vm_compute. exact I.
Qed.

(** An empty text: the byte before the buffer is read. *)
Example empty_config_faults :
  resman_config_from_json ResManDemo.dec (fun _ => 0) (fun _ => (0, 0)) (fun _ => (true, true)) true true all 9 100 (Some [])
    (Conf (RM ∅ ∅ [] 1 tt) None (PSt 0 [] None)) = Fault.
Proof. reflexivity. Qed.

(** A new configuration while a resource is held: the resource is taken for a node. *)
Example reconfig_while_held_faults :
  config_store ResManDemo.dec (fun _ => 0) (fun _ => (0, 0)) (fun _ => (true, true)) true true all 9 600 default_configs
    (Conf ResManDemo.d2 None (PSt 0 [] None)) = Fault.
Proof. vm_compute. reflexivity. Qed.

(** One entry, without arguments. *)
Definition one_value : json := JObj [(bytes_of "resman_config", JArr [JObj [(bytes_of "name", JStr (bytes_of "tvp")); (bytes_of "type", JNum 3)]])].
Definition one_text : list Z := quoted "{'resman_config':[{'name':'tvp','type':3}]}".

Lemma str_raw b : forallb (fun c => negb (c =? 0) && negb (c =? ch_quote) && negb (c =? ch_bslash)) b = true -> str_body b (length b) b.
Proof.
  induction b as [|c b IH]; cbn; [constructor|]. intros H. b2p. constructor; auto.
Qed.

Lemma str_text_raw b s : s = ch_quote :: b ++ [ch_quote] -> List.last b 0 <> ch_bslash ->
  forallb (fun c => negb (c =? 0) && negb (c =? ch_quote) && negb (c =? ch_bslash)) b = true -> str_text b s.
Proof. intros -> Hl H. exists (length b), b. split; [by apply str_raw|done]. Qed.

Lemma one_renders : renders one_value one_text.
Proof.
  apply (r_obj [] _ (quoted "'resman_config':[{'name':'tvp','type':3}]") [] [125]); [constructor| |constructor].
  apply (m_one _ (quoted "'resman_config'") [] [] _ (quoted "[{'name':'tvp','type':3}]") []); try constructor; [by apply str_text_raw|].
  apply (r_arr [] _ (quoted "{'name':'tvp','type':3}") [] [] [93]); try constructor.
  apply (r_obj [] _ (quoted "'name':'tvp'") _ (quoted ",'type':3}")); try constructor.
  - apply (m_one _ (quoted "'name'") [] [] _ (quoted "'tvp'") []); try constructor; by apply str_text_raw.
  - apply (ms_cons [] _ (quoted "'type':3") [] [125]); try constructor.
    apply (m_one _ (quoted "'type'") [] [] _ [51] []); try constructor; [by apply str_text_raw|].
    apply (nt_pos [51]); [|done]. split; [by repeat constructor|]. right. by exists 51, [].
Qed.

Lemma config_from_json_refines_witness : exists h',
  resman_config_from_json ResManDemo.dec (fun _ => 0) (fun _ => (0, 0)) (fun _ => (true, true)) true true all 9 100
    (Some ([] ++ one_text ++ [10])) (Conf (RM ∅ ∅ [] 1 tt) None (PSt 0 [] None)) =
  Done (true, Conf (RM ∅ {[3 := Res (bytes_of "tvp") 0 DTvp 0 false]} [] 1 tt) (Some (one_text ++ [10])) h').
Proof.
  destruct (config_from_json_refines ResManDemo.dec (fun _ => 0) (fun _ => (0, 0)) (fun _ => (true, true)) true 9 100 one_value one_text [] [10]
    (RM ∅ ∅ [] 1 tt) None (PSt 0 [] None) one_renders) as [h' H].
  - done.
  - constructor.
  - by repeat constructor.
  - vm_compute. lia.
  - exists h'. exact H.
Defined.

End ResManJson.
