(* ===== verification/IrMap.v ===== *)
(** * Key maps of the infrared receiver

    src/drivers/input/ir/meson_ir_main.c: a key map is an array of scan codes
    and key codes that comes from user space or the device tree.  It is sorted
    by scan code once, [meson_ir_scancode_sort], and searched by bisection for
    every frame, [meson_ir_lookup_by_scancode].  Together they find exactly the
    keys of the map. *)

From S2P Require Import Prelude Mem.
From stdpp Require Import base list numbers sorting.
From Stdlib Require Import ZArith Lia.

Local Open Scope Z_scope.
Local Open Scope cint_scope.

Module IrMap.

Definition ENODATA : Z := 61.

(** union _codemap: both halves of the word move together. *)
Record ir_key_map := Key { keycode : Z; scancode : Z }.

(** [codemap[i]] *)
Definition at_ (l : list ir_key_map) (i : Z) : outcome ir_key_map :=
  if i <? 0 then Fault else match l !! Z.to_nat i with Some k => Done k | None => Fault end.
Definition put (l : list ir_key_map) (i : Z) (k : ir_key_map) : list ir_key_map := <[Z.to_nat i := k]> l.

(** [n] turns of the inner loop from [j] on. *)
Fixpoint sort_inner (n : nat) (j : Z) (l : list ir_key_map) (is_sorted : bool) : outcome (list ir_key_map * bool) :=
  match n with
  | O => Done (l, is_sorted)
  | S n =>
      let* a := at_ l j in
      let* b := at_ l (j + 1) in
      if scancode b <? scancode a then sort_inner n (j + 1) (put (put l j b) (j + 1) a) false
      else sort_inner n (j + 1) l is_sorted
  end.

(** [n] turns of the outer loop from [i] on. *)
Fixpoint sort_outer (n : nat) (i map_size : Z) (l : list ir_key_map) : outcome (list ir_key_map) :=
  match n with
  | O => Done l
  | S n =>
      let* (l, is_sorted) := sort_inner (Z.to_nat (map_size - i - 1)) 0 l true in
      if is_sorted : bool then Done l else sort_outer n (i + 1) map_size l
  end.

Definition meson_ir_scancode_sort (map_size : Z) (l : list ir_key_map) : outcome (list ir_key_map) :=
  sort_outer (Z.to_nat (map_size - 1)) 0 map_size l.

Fixpoint lookup_loop (fuel : nat) (l : list ir_key_map) (code start end_ : Z) : outcome Z :=
  match fuel with
  | O => Spin
  | S f =>
      if start <=? end_ then
        let mid := (start + end_) >> 1 in
        let* k := at_ l mid in
        if scancode k <? code then lookup_loop f l code (mid + 1) end_
        else if code <? scancode k then lookup_loop f l code start (mid - 1)
        else Done mid
      else Done (- ENODATA)
  end.

Definition meson_ir_lookup_by_scancode (fuel : nat) (map_size : Z) (l : list ir_key_map) (code : Z) : outcome Z :=
  lookup_loop fuel l code 0 (map_size - 1).

(** ** Sorting *)

Definition code_le (a b : ir_key_map) : Prop := scancode a <= scancode b.
Abbreviation Ordered := (StronglySorted code_le).

(** In list form, one pass carries the largest key so far along. *)
Fixpoint carry (a : ir_key_map) (l : list ir_key_map) (n : nat) {struct n} : list ir_key_map :=
  match n, l with
  | S n, b :: r => if scancode b <? scancode a then b :: carry a r n else a :: carry b r n
  | _, _ => a :: l
  end.

Fixpoint quiet_pass (a : ir_key_map) (l : list ir_key_map) (n : nat) {struct n} : bool :=
  match n, l with
  | S n, b :: r => if scancode b <? scancode a then false else quiet_pass b r n
  | _, _ => true
  end.

Lemma at_app p a r : at_ (p ++ a :: r) (Z.of_nat (length p)) = Done a.
Proof. unfold at_. rewrite (proj2 (Z.ltb_ge _ _)) by lia. by rewrite Nat2Z.id, lookup_app_r, Nat.sub_diag by lia. Qed.

Lemma sort_inner_carry n : forall p a r s, (n <= length r)%nat ->
  exists s', sort_inner n (Z.of_nat (length p)) (p ++ a :: r) s = Done (p ++ carry a r n, s') /\ (s' = true <-> s = true /\ quiet_pass a r n = true).
Proof.
  induction n as [|n IH]; intros p a r s Hn; cbn [sort_inner].
  - exists s. destruct r; cbn; tauto.
  - destruct r as [|b r]; [cbn in Hn; lia|]. cbn in Hn. rewrite at_app. cbn [obind].
    replace (Z.of_nat (length p) + 1) with (Z.of_nat (length (p ++ [a]))) by (rewrite length_app; cbn; lia).
    replace (p ++ a :: b :: r) with ((p ++ [a]) ++ b :: r) by (by rewrite <- app_assoc). rewrite at_app. cbn [obind carry quiet_pass].
    case_if.
    + unfold put. rewrite !Nat2Z.id.
      assert (<[length (p ++ [a]) := a]> (<[length p := b]> ((p ++ [a]) ++ b :: r)) = (p ++ [b]) ++ a :: r) as ->.
      { rewrite <- app_assoc. cbn. rewrite insert_app_r_alt by lia. rewrite Nat.sub_diag. cbn.
        rewrite insert_app_r_alt by (rewrite length_app; lia). rewrite length_app. cbn.
        replace (length p + 1 - length p)%nat with 1%nat by lia. cbn. by rewrite <- app_assoc. }
      replace (length (p ++ [a])) with (length (p ++ [b])) by (by rewrite !length_app).
      destruct (IH (p ++ [b]) a r false) as (s' & -> & Hs); [lia|]. exists s'. rewrite <- app_assoc. split; [done|].
      split; [|intros [_ ?]; done]. intros H. apply Hs in H as [? _]. done.
    + destruct (IH (p ++ [a]) b r s) as (s' & -> & Hs); [lia|]. exists s'. rewrite <- app_assoc. done.
Qed.

Lemma carry_app a r b : carry a (r ++ b) (length r) = carry a r (length r) ++ b.
Proof. revert a. induction r as [|x r IH]; intros a; cbn; [done|]. case_if; by rewrite IH. Qed.

Lemma quiet_app a r b : quiet_pass a (r ++ b) (length r) = quiet_pass a r (length r).
Proof. revert a. induction r as [|x r IH]; intros a; cbn; [done|]. by case_if. Qed.

Lemma carry_perm a r : carry a r (length r) ≡ₚ a :: r.
Proof.
  revert a. induction r as [|x r IH]; intros a; cbn; [done|]. case_if; rewrite IH; [apply Permutation_swap|reflexivity].
Qed.

Lemma carry_last a r : exists f m, carry a r (length r) = f ++ [m] /\ Forall (fun x => code_le x m) f /\ code_le a m.
Proof.
  revert a. induction r as [|x r IH]; intros a; cbn.
  - exists [], a. split; [done|]. split; [constructor|]. unfold code_le. lia.
  - case_if.
    + destruct (IH a) as (f & m & -> & Hf & Ha). exists (x :: f), m. split; [done|]. split; [constructor; [unfold code_le in *; lia|done]|done].
    + destruct (IH x) as (f & m & -> & Hf & Ha). exists (a :: f), m. split; [done|]. unfold code_le in *. split; [constructor; [lia|done]|lia].
Qed.

#[global] Instance code_le_trans : Transitive code_le.
Proof. intros a b c. unfold code_le. lia. Qed.

Lemma quiet_ordered a r : quiet_pass a r (length r) = true -> carry a r (length r) = a :: r /\ Ordered (a :: r).
Proof.
  intros H. assert (K : carry a r (length r) = a :: r /\ Sorted code_le (a :: r)).
  { revert a H. induction r as [|x r IH]; intros a; cbn; [intros _; split; [done|repeat constructor]|]. case_if; [done|]. intros H.
    destruct (IH x H) as [-> Hs]. split; [done|]. constructor; [done|]. constructor. unfold code_le. lia. }
  destruct K as [-> K]. split; [done|]. apply Sorted_StronglySorted; [|done]. intros x y z. unfold code_le. lia.
Qed.

Lemma ordered_app f b : Ordered f -> Ordered b -> (forall x y, x ∈ f -> y ∈ b -> code_le x y) -> Ordered (f ++ b).
Proof.
  intros Hf Hb Hc. induction Hf as [|x f Hf IH Hx]; [done|]. cbn. constructor.
  - apply IH. intros y z Hy Hz. apply Hc; [by right|done].
  - apply Forall_app. split; [done|]. apply Forall_forall. intros y Hy. apply Hc; [left|done].
Qed.

Lemma sort_outer_ok n : forall i size front back, length front = S n -> size = i + Z.of_nat (S n) -> Ordered back ->
  (forall x y, x ∈ front -> y ∈ back -> code_le x y) ->
  exists l', sort_outer n i size (front ++ back) = Done l' /\ Ordered l' /\ l' ≡ₚ front ++ back.
Proof.
  induction n as [|n IH]; intros i size front back Hl Hs Hb Hc; destruct front as [|a r]; cbn in Hl; try lia; cbn [sort_outer].
  - destruct r; [|done]. exists ([a] ++ back). split; [done|]. split; [|done]. apply ordered_app; [repeat constructor|done|done].
  - replace (Z.to_nat (size - i - 1)) with (length r) by lia.
    destruct (sort_inner_carry (length r) [] a (r ++ back) true) as (s' & Ei & Hq); [rewrite length_app; lia|].
    cbn [app length] in Ei. change (Z.of_nat 0) with 0 in Ei. cbn [app]. rewrite Ei. cbn [obind]. rewrite quiet_app in Hq. rewrite carry_app in *.
    assert (Hp : carry a r (length r) ++ back ≡ₚ a :: r ++ back) by (by rewrite carry_perm).
    destruct s'.
    + destruct Hq as [Hq _]. destruct (Hq eq_refl) as [_ Hq']. apply quiet_ordered in Hq' as [Hk Ho]. rewrite Hk in *.
      eexists. split; [done|]. split; [|done]. by apply (ordered_app (a :: r)).
    + destruct (carry_last a r) as (f & m & Hk & Hf & _). rewrite Hk in *.
      assert (Hm : forall x, x ∈ f ++ [m] -> x ∈ a :: r) by (intros x; rewrite <- Hk, carry_perm; done).
      rewrite <- app_assoc in Hp |- *. cbn [app] in Hp |- *.
      destruct (IH (i + 1) size f (m :: back)) as (l' & -> & Ho & Hp').
      * pose proof (Permutation_length (carry_perm a r)) as HL. rewrite Hk, length_app in HL. cbn in HL. lia.
      * lia.
      * constructor; [done|]. apply Forall_forall. intros y Hy. apply Hc; [|done]. apply Hm, elem_of_app. right. left.
      * intros x y Hx [->|Hy]%elem_of_cons; [rewrite Forall_forall in Hf; by apply Hf|]. apply Hc; [|done]. apply Hm, elem_of_app. by left.
      * exists l'. split; [done|]. split; [done|]. by rewrite Hp'.
Qed.

Lemma sort_ok l : exists l', meson_ir_scancode_sort (Z.of_nat (length l)) l = Done l' /\ Ordered l' /\ l' ≡ₚ l.
Proof.
  unfold meson_ir_scancode_sort. destruct l as [|a r]; [exists []; split; [done|]; split; [constructor|done]|].
  destruct (sort_outer_ok (length r) 0 (Z.of_nat (length (a :: r))) (a :: r) []) as (l' & Hs & Ho & Hp).
  - done.
  - cbn [length]. lia.
  - constructor.
  - intros x y _ Hy. by apply elem_of_nil in Hy.
  - exists l'. rewrite app_nil_r in *. replace (Z.to_nat (Z.of_nat (length (a :: r)) - 1)) with (length r) by (cbn [length]; lia). done.
Qed.

(** ** Searching *)

Lemma ordered_lookup l i j a b : Ordered l -> l !! i = Some a -> l !! j = Some b -> (i <= j)%nat -> code_le a b.
Proof.
  intros Ho. revert i j. induction Ho as [|x l Ho IH Hx]; intros i j Hi Hj Hij; [done|].
  destruct i as [|i], j as [|j]; cbn in Hi, Hj; try lia.
  - injection Hi as ->. injection Hj as ->. unfold code_le. lia.
  - injection Hi as ->. rewrite Forall_forall in Hx. apply Hx. by eapply list_elem_of_lookup_2.
  - eapply IH; try done. lia.
Qed.

(** The key is in the part still searched, if it is there at all. *)
Lemma lookup_loop_ok fuel : forall l code start end_, Ordered l -> 0 <= start -> start <= end_ + 1 -> end_ < Z.of_nat (length l) -> end_ - start + 1 < Z.of_nat fuel ->
  (forall i k, l !! i = Some k -> scancode k = code -> start <= Z.of_nat i <= end_) ->
  exists r, lookup_loop fuel l code start end_ = Done r /\
    (r = - ENODATA /\ (forall k, k ∈ l -> scancode k <> code) \/ exists k, 0 <= r /\ l !! Z.to_nat r = Some k /\ scancode k = code).
Proof.
  induction fuel as [|f IH]; intros l code start end_ Ho Hs Hse He Hf Hin; cbn [lookup_loop].
  - lia.
  - case_if; cycle 1.
    { exists (- ENODATA). split; [done|]. left. split; [done|]. intros k [i Hi]%list_elem_of_lookup Hk. specialize (Hin i k Hi Hk). lia. }
    rewrite Z.shiftr_div_pow2 by lia. change (2 ^ 1) with 2. set (mid := (start + end_) / 2).
    assert (Hm : start <= mid <= end_) by (unfold mid; split; [apply Z.div_le_lower_bound; lia|apply Z.div_le_upper_bound; lia]).
    destruct (lookup_lt_is_Some_2 l (Z.to_nat mid)) as [k Hk]; [lia|].
    assert (at_ l mid = Done k) as -> by (unfold at_; rewrite (proj2 (Z.ltb_ge _ _)) by lia; by rewrite Hk). cbn [obind].
    case_if; [|case_if].
    + apply IH; try done; try lia. intros i k' Hi Hk'. pose proof (Hin i k' Hi Hk'). split; [|lia].
      destruct (Z.le_gt_cases (mid + 1) (Z.of_nat i)); [done|]. exfalso. pose proof (ordered_lookup l i (Z.to_nat mid) k' k Ho Hi Hk ltac:(lia)) as Hle. unfold code_le in Hle. lia.
    + apply IH; try done; try lia. intros i k' Hi Hk'. pose proof (Hin i k' Hi Hk'). split; [lia|].
      destruct (Z.le_gt_cases (Z.of_nat i) (mid - 1)); [done|]. exfalso. pose proof (ordered_lookup l (Z.to_nat mid) i k k' Ho Hk Hi ltac:(lia)) as Hle. unfold code_le in Hle. lia.
    + exists mid. split; [done|]. right. exists k. split; [lia|]. split; [done|]. lia.
Qed.

(** C32: a key map of any size, once sorted, is searched right: the search
    ends, stays in the map, and finds a key with the scan code exactly when the
    map as it was given has one; with different scan codes it is that key. *)
Theorem sorted_map_lookup l code fuel : (length l < fuel)%nat ->
  exists l' r, meson_ir_scancode_sort (Z.of_nat (length l)) l = Done l' /\ l' ≡ₚ l /\
    meson_ir_lookup_by_scancode fuel (Z.of_nat (length l)) l' code = Done r /\
    (r = - ENODATA /\ (forall k, k ∈ l -> scancode k <> code) \/
     exists k, 0 <= r /\ l' !! Z.to_nat r = Some k /\ k ∈ l /\ scancode k = code).
Proof.
  intros Hf. destruct (sort_ok l) as (l' & Hs & Ho & Hp). pose proof (Permutation_length Hp) as HL.
  destruct (lookup_loop_ok fuel l' code 0 (Z.of_nat (length l) - 1) Ho) as (r & Hr & Hc); try lia.
  { intros i k Hi _. apply lookup_lt_Some in Hi. lia. }
  exists l', r. split; [done|]. split; [done|]. split; [done|]. destruct Hc as [[-> Hn]|(k & H0 & Hk & Hc)].
  - left. split; [done|]. intros k Hk. apply Hn. by rewrite Hp.
  - right. exists k. split; [done|]. split; [done|]. split; [|done]. rewrite <- Hp. by eapply list_elem_of_lookup_2.
Qed.

Definition sample : list ir_key_map := [Key 116 0x18; Key 103 0x46; Key 108 0x16].

Lemma sorted_map_lookup_witness : exists l' r, meson_ir_scancode_sort 3 sample = Done l' /\
  meson_ir_lookup_by_scancode 9 3 l' 0x18 = Done r /\ r <> - ENODATA.
Proof.
  destruct (sorted_map_lookup sample 0x18 9 ltac:(cbn; lia)) as (l' & r & Hs & _ & Hr & Hc).
  exists l', r. split; [exact Hs|]. split; [exact Hr|]. destruct Hc as [[_ Hn]|(k & Hk & _)].
  - exfalso. apply (Hn (Key 116 0x18)); [left|reflexivity].
  - unfold ENODATA. lia.
Defined.

End IrMap.
