(* ===== verification/IrKey.v ===== *)
(** * Keys of the infrared receiver

    src/drivers/input/ir/meson_ir_core.c and meson_ir_main.c: a decoded frame
    becomes a key press, [meson_ir_keydown]; the release is made by a timer
    that repeat frames push forward, [meson_ir_timer_keyup].  The key map is
    chosen by the custom code of the remote control; a map can be used as a
    mouse.  What reaches the input layer is recorded in [out].

    Maps live in a heap by address; the time is the argument [now] in jiffies.
    The conversions of milliseconds and the hook that extracts the custom code
    from the last frame (it depends on the protocol) are parameters.

    Over all sequences of frames, timers and new maps the reports of one input
    device are presses and releases of one key at a time, and a key that is
    down is released after two runs of the timer at most. *)

From S2P Require Import Prelude Mem IrMap.
From stdpp Require Import base list numbers gmap relations.
From Stdlib Require Import ZArith Lia.

Local Open Scope Z_scope.
Local Open Scope cint_scope.

Module IrKey.
Import IrMap.

Definition IR_STATUS_NORMAL : Z := 0.
Definition IR_STATUS_REPEAT : Z := 1.
Definition KEY_RESERVED : Z := 0.
Definition BTN_LEFT : Z := 0x110.
Definition REL_X : Z := 0.
Definition REL_Y : Z := 1.
Definition NORMAL_MODE : Z := 0.
Definition MOUSE_MODE : Z := 1.
Definition CURSOR_MOVE_ACCELERATE : list Z := [0; 2; 2; 4; 4; 6; 8; 10; 12; 14; 16; 18].

(** ** Data *)

Record cursor_codemap := Cursor {
  fn_key_scancode : Z; cursor_left_scancode : Z; cursor_right_scancode : Z;
  cursor_up_scancode : Z; cursor_down_scancode : Z; cursor_ok_scancode : Z }.

(** struct input_id: what an input device and a map are matched by. *)
Record input_id := InputId { bustype : Z; vendor : Z; product : Z; version : Z }.
#[global] Instance input_id_eq_dec : EqDecision input_id.
Proof. solve_decision. Defined.

(** struct meson_ir_map_tab_list with its struct ir_map_tab. *)
Record map_tab := Tab {
  ir_dev_mode : Z; cursor_code : cursor_codemap; map_size : Z; custom_code : Z; release_delay : Z; id : input_id;
  codemap : list ir_key_map }.

(** What the input layer gets: key [code] of an input device (none: the device all receivers share), movements, raw codes. *)
Inductive report := RKey (device : option nat) (code value : Z) | RRel (device : nat) (code value : Z) | RScan (code : Z).

(** struct meson_ir_dev with the maps of its chip, the shared input device and the static [repeat_count]. *)
Record ir := Ir {
  tabs : gmap Z map_tab; map_tab_head : list Z; cur_tab : option Z; input_devs : list input_id; dev_num : Z;
  keypressed : Z; last_scancode : Z; last_keycode : Z; cur_hardcode : Z; cur_customcode : Z;
  keyup_jiffies : Z; keyup_delay : Z; wait_next_repeat : Z; repeat_count : Z; timer_keyup : option Z;
  last_jiffies : Z; out : list report }.

Definition set_tabs (t : gmap Z map_tab) (h : list Z) (c : option Z) (x : ir) : ir :=
  Ir t h c (input_devs x) (dev_num x) (keypressed x) (last_scancode x) (last_keycode x) (cur_hardcode x) (cur_customcode x)
    (keyup_jiffies x) (keyup_delay x) (wait_next_repeat x) (repeat_count x) (timer_keyup x) (last_jiffies x) (out x).
Definition set_key (pressed scan key : Z) (x : ir) : ir :=
  Ir (tabs x) (map_tab_head x) (cur_tab x) (input_devs x) (dev_num x) pressed scan key (cur_hardcode x) (cur_customcode x)
    (keyup_jiffies x) (keyup_delay x) (wait_next_repeat x) (repeat_count x) (timer_keyup x) (last_jiffies x) (out x).
Definition set_frame (hard custom : Z) (x : ir) : ir :=
  Ir (tabs x) (map_tab_head x) (cur_tab x) (input_devs x) (dev_num x) (keypressed x) (last_scancode x) (last_keycode x) hard custom
    (keyup_jiffies x) (keyup_delay x) (wait_next_repeat x) (repeat_count x) (timer_keyup x) (last_jiffies x) (out x).
Definition set_timer (j delay wait : Z) (t : option Z) (x : ir) : ir :=
  Ir (tabs x) (map_tab_head x) (cur_tab x) (input_devs x) (dev_num x) (keypressed x) (last_scancode x) (last_keycode x) (cur_hardcode x) (cur_customcode x)
    j delay wait (repeat_count x) t (last_jiffies x) (out x).
Definition set_count (n : Z) (x : ir) : ir :=
  Ir (tabs x) (map_tab_head x) (cur_tab x) (input_devs x) (dev_num x) (keypressed x) (last_scancode x) (last_keycode x) (cur_hardcode x) (cur_customcode x)
    (keyup_jiffies x) (keyup_delay x) (wait_next_repeat x) n (timer_keyup x) (last_jiffies x) (out x).
Definition set_out (j : Z) (o : list report) (x : ir) : ir :=
  Ir (tabs x) (map_tab_head x) (cur_tab x) (input_devs x) (dev_num x) (keypressed x) (last_scancode x) (last_keycode x) (cur_hardcode x) (cur_customcode x)
    (keyup_jiffies x) (keyup_delay x) (wait_next_repeat x) (repeat_count x) (timer_keyup x) j o.
Definition set_mode (m : Z) (t : map_tab) : map_tab := Tab m (cursor_code t) (map_size t) (custom_code t) (release_delay t) (id t) (codemap t).
Definition emit (r : report) (x : ir) : ir := set_out (last_jiffies x) (out x ++ [r]) x.

Section Keys.
Variable msecs_to_jiffies : Z -> Z.
Variable jiffies_to_msecs : Z -> Z.
(** The hook get_custom_code, on the last frame. *)
Variable get_custom_code : option (Z -> Z -> Z).

(** [*chip->cur_tab]; the pointer leads to a map or the access is a fault. *)
Definition ct (x : ir) : outcome (option map_tab) :=
  match cur_tab x with
  | None => Done None
  | Some p => match tabs x !! p with Some t => Done (Some t) | None => Fault end
  end.

Fixpoint match_from (l : list input_id) (i : nat) (n : input_id) : option nat :=
  match l with [] => None | d :: r => if bool_decide (n = d) then Some i else match_from r (S i) n end.
Definition meson_ir_match_input_dev (x : ir) (t : map_tab) : option nat := match_from (input_devs x) 0 (id t).

Definition meson_ir_common_input_report (now code value : Z) (x : ir) : ir :=
  if jiffies_to_msecs (u64 (now - last_jiffies x)) <? 50 then x else set_out now (out x ++ [RKey None code value]) x.

Definition report_key (now : Z) (i : nat) (code value : Z) (x : ir) : ir :=
  if 1 <? dev_num x then meson_ir_common_input_report now code value x else emit (RKey (Some i) code value) x.

Definition meson_ir_do_keyup (now : Z) (x : ir) : outcome ir :=
  let* t := ct x in
  match t with
  | None => Done x
  | Some t =>
      match meson_ir_match_input_dev x t with
      | None => Done x
      | Some i => Done (set_key 0 (u32 (-1)) (last_keycode x) (report_key now i (last_keycode x) 0 x))
      end
  end.

(** A repeat is on its way: once, while the controller is busy. *)
Definition meson_ir_is_next_repeat (busy : bool) (x : ir) : bool := negb (truthy (wait_next_repeat x)) && busy.

Definition meson_ir_timer_keyup (now : Z) (busy : bool) (x : ir) : outcome ir :=
  if negb (truthy (keypressed x)) then Done x
  else if meson_ir_is_next_repeat busy x then
    let j := u64 (now + msecs_to_jiffies (keyup_delay x)) in
    Done (set_timer j (keyup_delay x) 1 (Some j) x)
  else
    let* x := (if 0 <=? s64 (now - keyup_jiffies x) then meson_ir_do_keyup now x else Done x) in
    Done (set_timer (keyup_jiffies x) (keyup_delay x) 0 (timer_keyup x) x).

Definition meson_ir_do_keydown (now scan key : Z) (x : ir) : outcome ir :=
  let* t := ct x in
  match t with
  | None => Done x
  | Some t =>
      let* x := (if truthy (keypressed x) then meson_ir_do_keyup now x else Done x) in
      if negb (key =? KEY_RESERVED) then
        let x := set_key 1 (u32 scan) key x in
        match meson_ir_match_input_dev x t with
        | None => Done x
        | Some i => Done (report_key now i key 1 x)
        end
      else Done x
  end.

(** ** Maps *)

Fixpoint seek_from (x : ir) (l : list Z) (code : Z) : outcome (option Z) :=
  match l with
  | [] => Done None
  | p :: r => match tabs x !! p with None => Fault | Some t => if custom_code t =? u32 code then Done (Some p) else seek_from x r code end
  end.
Definition meson_ir_seek_map_tab (x : ir) (code : Z) : outcome (option Z) := seek_from x (map_tab_head x) code.

Definition meson_ir_is_valid_custom (x : ir) : outcome (bool * ir) :=
  match get_custom_code with
  | None => Done (true, x)
  | Some get =>
      let* p := meson_ir_seek_map_tab x (get (cur_hardcode x) (cur_customcode x)) in
      match p with
      | None => Done (false, x)
      | Some p =>
          match tabs x !! p with
          | None => Fault
          | Some t => Done (true, set_timer (keyup_jiffies x) (release_delay t) (wait_next_repeat x) (timer_keyup x)
                                    (set_tabs (tabs x) (map_tab_head x) (Some p) x))
          end
      end
  end.

(** Moves the pointer when the map is used as a mouse: 0 when it did. *)
Definition meson_ir_report_rel (scan status : Z) (x : ir) : outcome (Z * ir) :=
  let* t := ct x in
  match t with
  | None => Done (- EINVAL, x)
  | Some t =>
      if negb (ir_dev_mode t =? MOUSE_MODE) then Done (- EINVAL, x)
      else
        let '(valid, x) :=
          if status =? IR_STATUS_REPEAT then (last_scancode x, set_count (Z.min (u32 (repeat_count x + 1)) 11) x)
          else (scan, set_count 0 (set_key (keypressed x) scan (last_keycode x) x)) in
        let step := 1 + nth (Z.to_nat (repeat_count x)) CURSOR_MOVE_ACCELERATE 0 in
        let c := cursor_code t in
        let move :=
          if valid =? cursor_left_scancode c then Some (REL_X, - step)
          else if valid =? cursor_right_scancode c then Some (REL_X, step)
          else if valid =? cursor_up_scancode c then Some (REL_Y, - step)
          else if valid =? cursor_down_scancode c then Some (REL_Y, step)
          else None in
        match move with
        | None => Done (- EINVAL, x)
        | Some (code, v) =>
            match meson_ir_match_input_dev x t with
            | None => Done (0, x)
            | Some i => Done (0, emit (RRel i code v) x)
            end
        end
  end.

Definition meson_ir_getkeycode (fuel : nat) (scan : Z) (x : ir) : outcome (Z * ir) :=
  match cur_tab x with
  | None => Done (KEY_RESERVED, x)
  | Some p =>
      match tabs x !! p with
      | None => Fault
      | Some t =>
          if (ir_dev_mode t =? MOUSE_MODE) && (scan =? cursor_ok_scancode (cursor_code t)) then Done (BTN_LEFT, x)
          else
            let* index := meson_ir_lookup_by_scancode fuel (map_size t) (codemap t) scan in
            if index <? 0 then Done (KEY_RESERVED, x)
            else
              let x :=
                if negb (truthy (keypressed x)) && (scan =? fn_key_scancode (cursor_code t)) then
                  set_tabs (<[p := set_mode (if ir_dev_mode t =? NORMAL_MODE then MOUSE_MODE else NORMAL_MODE) t]> (tabs x)) (map_tab_head x) (cur_tab x) x
                else x in
              let* k := at_ (codemap t) index in
              Done (keycode k, x)
      end
  end.

Definition meson_ir_keydown (fuel : nat) (now scan status : Z) (x : ir) : outcome ir :=
  let* x := (if truthy (cur_hardcode x) then
               let* (ok, x) := meson_ir_is_valid_custom x in
               Done (if negb ok then emit (RScan (cur_hardcode x)) x else x)
             else Done x) in
  let* (ok, x) := (if negb (status =? IR_STATUS_REPEAT) then meson_ir_is_valid_custom x else Done (true, x)) in
  if negb ok then Done x
  else
    let* (rel, x) := (if (status =? IR_STATUS_NORMAL) || (status =? IR_STATUS_REPEAT) then meson_ir_report_rel (u32 scan) status x else Done (- EINVAL, x)) in
    if rel =? 0 then Done x
    else
      let* x := (if status =? IR_STATUS_NORMAL then
                   let* (key, x) := meson_ir_getkeycode fuel (u32 scan) x in meson_ir_do_keydown now scan key x
                 else Done x) in
      if truthy (keypressed x) then
        let j := u64 (now + msecs_to_jiffies (keyup_delay x)) in
        Done (set_timer j (keyup_delay x) 0 (Some j) x)
      else Done x.

(** The numbers of an id that are zero get their defaults. *)
Definition BUS_ISA : Z := 1.
Definition default_id (n : input_id) : input_id :=
  InputId (if truthy (bustype n) then bustype n else BUS_ISA) (if truthy (vendor n) then vendor n else 0x0001)
    (if truthy (product n) then product n else 0x0001) (if truthy (version n) then version n else 0x0100).

(** IR_IOC_SET_KEY_MAPPING_TAB with a map of the announced size, at a fresh address. *)
Definition set_key_mapping_tab (p : Z) (t : map_tab) (x : ir) : outcome ir :=
  let* l := meson_ir_scancode_sort (map_size t) (codemap t) in
  let t := Tab 0 (cursor_code t) (map_size t) (custom_code t) (release_delay t) (default_id (id t)) l in
  let* old := meson_ir_seek_map_tab x (s32 (custom_code t)) in
  match old with
  | None => Done (set_tabs (<[p := t]> (tabs x)) (map_tab_head x ++ [p]) (cur_tab x) x)
  | Some q =>
      Done (set_tabs (<[p := t]> (delete q (tabs x))) (filter (fun r => r <> q) (map_tab_head x) ++ [p])
              (if bool_decide (cur_tab x = Some q) then Some p else cur_tab x) x)
  end.

(** ** Sequences *)

(** A frame (its words and what was decoded from it), a run of the timer, a new map. *)
Inductive op := OpFrame (now hard custom scan status : Z) | OpTimer (now : Z) (busy : bool) | OpTab (t : map_tab).

Definition exec (fuel : nat) (o : op) (x : ir) : outcome ir :=
  match o with
  | OpFrame now hard custom scan status => meson_ir_keydown fuel now scan status (set_frame hard custom x)
  | OpTimer now busy => meson_ir_timer_keyup now busy x
  | OpTab t => set_key_mapping_tab (fresh (dom (tabs x))) t x
  end.
Fixpoint exec_all (fuel : nat) (l : list op) (x : ir) : outcome ir :=
  match l with [] => Done x | o :: r => let* x := exec fuel o x in exec_all fuel r x end.

(** What is down after the reports: a press needs all keys up, a release the key that is down. *)
Fixpoint pressed (s : option (nat * Z)) (l : list report) : option (option (nat * Z)) :=
  match l with
  | [] => Some s
  | RKey (Some i) c v :: r =>
      match s with
      | None => if v =? 1 then pressed (Some (i, c)) r else None
      | Some k => if (v =? 0) && bool_decide (k = (i, c)) then pressed None r else None
      end
  | RKey None _ _ :: _ => None
  | _ :: r => pressed s r
  end.

Lemma pressed_app l r : forall s, pressed s (l ++ r) = pressed s l ≫= fun s' => pressed s' r.
Proof.
  induction l as [|[[i|] c v|i c v|c] l IH]; intros s; cbn; try done. destruct s; case_if; try done; apply IH.
Qed.

Section Invariant.
Variable devs : list input_id.
Variable i0 : nat.
Variable fuel : nat.

Definition tab_ok (x : ir) (t : map_tab) : Prop :=
  meson_ir_match_input_dev x t = Some i0 /\ Ordered (codemap t) /\ map_size t = Z.of_nat (length (codemap t)) /\ (length (codemap t) < fuel)%nat.

Record good (x : ir) : Prop := Good {
  g_devs : input_devs x = devs;
  g_one : dev_num x <= 1;
  g_tabs : forall p t, tabs x !! p = Some t -> tab_ok x t;
  g_head : Forall (fun p => is_Some (tabs x !! p)) (map_tab_head x);
  g_cur : match cur_tab x with Some p => is_Some (tabs x !! p) | None => keypressed x = 0 end;
  g_out : pressed None (out x) = Some (if truthy (keypressed x) then Some (i0, last_keycode x) else None) }.

(** Only what [good] looks at matters. *)
Lemma good_ext x y : good x -> dev_num y = dev_num x -> tabs y = tabs x -> map_tab_head y = map_tab_head x -> cur_tab y = cur_tab x ->
  input_devs y = input_devs x -> keypressed y = keypressed x -> last_keycode y = last_keycode x -> pressed None (out y) = pressed None (out x) -> good y.
Proof.
  intros [GD G1 G2 G3 G4 G5] H1 H2 H3 H4 H5 H6 H7 H8. split; rewrite ?H1, ?H2, ?H3, ?H4, ?H6, ?H7, ?H8; try done; [congruence|].
  intros p t Hp. specialize (G2 p t Hp). unfold tab_ok, meson_ir_match_input_dev in *. by rewrite H5.
Qed.

Lemma good_ct x : good x -> exists o, ct x = Done o /\ match o with Some t => tab_ok x t /\ cur_tab x <> None | None => keypressed x = 0 /\ cur_tab x = None end.
Proof.
  intros [GD G1 G2 G3 G4 G5]. unfold ct. destruct (cur_tab x) as [p|]; [|by exists None].
  destruct G4 as [t Ht]. rewrite Ht. exists (Some t). split; [done|]. split; [by eapply G2|done].
Qed.

Lemma keyup_good now x : good x -> keypressed x <> 0 -> exists y, meson_ir_do_keyup now x = Done y /\ good y /\ keypressed y = 0 /\
  tabs y = tabs x /\ input_devs y = input_devs x /\ cur_tab y = cur_tab x /\ dev_num y = dev_num x.
Proof.
  intros G Hk. destruct (good_ct x G) as (o & Ho & Hc). unfold meson_ir_do_keyup. rewrite Ho. cbn [obind].
  destruct o as [t|]; [|tauto]. destruct Hc as ((Hm & _) & Hc). rewrite Hm. eexists. split; [done|].
  pose proof G as [GD G1 G2 G3 G4 G5]. unfold report_key. rewrite (proj2 (Z.ltb_ge 1 (dev_num x))) by lia.
  split; [|done]. split; cbn; try done.
  - by destruct (cur_tab x).
  - rewrite pressed_app, G5. unfold truthy. rewrite (proj2 (Z.eqb_neq _ 0)) by done. cbn. by rewrite bool_decide_true.
Qed.

Lemma keydown_good now scan key x : good x -> exists y, meson_ir_do_keydown now scan key x = Done y /\ good y.
Proof.
  intros G. destruct (good_ct x G) as (o & Ho & Hc). unfold meson_ir_do_keydown. rewrite Ho. cbn [obind].
  destruct o as [t|]; [|by exists x]. destruct Hc as ((Hm & _) & Hc).
  assert (H : exists y, (if truthy (keypressed x) then meson_ir_do_keyup now x else Done x) = Done y /\ good y /\ keypressed y = 0 /\
    input_devs y = input_devs x /\ cur_tab y = cur_tab x).
  { unfold truthy. destruct (Z.eqb_spec (keypressed x) 0) as [E|E]; [by exists x|].
    destruct (keyup_good now x G E) as (y & Hy & Gy & Ky & _ & Iy & Cy & _). by exists y. }
  destruct H as (y & -> & Gy & Ky & Iy & Cy). cbn [obind]. destruct (Z.eqb_spec key KEY_RESERVED) as [E|E]; cbn [negb]; [by exists y|].
  unfold meson_ir_match_input_dev in *. cbn [input_devs set_key]. rewrite Iy, Hm. eexists. split; [done|].
  pose proof Gy as [GD G1 G2 G3 G4 G5]. unfold report_key. cbn [dev_num set_key]. rewrite (proj2 (Z.ltb_ge 1 (dev_num y))) by lia.
  split; cbn; try done.
  - rewrite Cy in *. by destruct (cur_tab x).
  - rewrite pressed_app, G5, Ky. done.
Qed.

Lemma seek_good x code : good x -> exists o, meson_ir_seek_map_tab x code = Done o /\ match o with Some p => is_Some (tabs x !! p) /\ p ∈ map_tab_head x | None => True end.
Proof.
  intros [_ _ _ G3 _ _]. unfold meson_ir_seek_map_tab. induction G3 as [|p l Hp _ IH]; cbn; [by exists None|].
  pose proof Hp as [t ->]. case_if; [exists (Some p); split; [done|]; split; [done|left]|].
  destruct IH as (o & -> & Ho). exists o. split; [done|]. destruct o; [|done]. destruct Ho. split; [done|by right].
Qed.

Lemma valid_custom_good x : good x -> exists b y, meson_ir_is_valid_custom x = Done (b, y) /\ good y.
Proof.
  intros G. unfold meson_ir_is_valid_custom. destruct get_custom_code as [get|]; [|by exists true, x].
  destruct (seek_good x (get (cur_hardcode x) (cur_customcode x)) G) as (o & -> & Ho). cbn [obind]. destruct o as [p|]; [|by exists false, x].
  destruct Ho as [[t Ht] _]. rewrite Ht. eexists _, _. split; [done|]. pose proof G as [GD G1 G2 G3 G4 G5]. split; cbn; try done.
Qed.

Lemma report_rel_good scan status x : good x -> exists r y, meson_ir_report_rel scan status x = Done (r, y) /\ good y.
Proof.
  intros G. destruct (good_ct x G) as (o & Ho & Hc). unfold meson_ir_report_rel. rewrite Ho. cbn [obind].
  destruct o as [t|]; [|by exists (- EINVAL), x]. destruct Hc as ((Hm & _) & Hc). case_if; [by exists (- EINVAL), x|].
  assert (H : exists v y, (if status =? IR_STATUS_REPEAT then (last_scancode x, set_count (Z.min (u32 (repeat_count x + 1)) 11) x)
    else (scan, set_count 0 (set_key (keypressed x) scan (last_keycode x) x))) = (v, y) /\ good y /\ input_devs y = input_devs x).
  { case_if; eexists _, _; (split; [done|]); (split; [|done]); by apply (good_ext x). }
  destruct H as (v & y & -> & Gy & Iy). destruct (if v =? _ then _ else _) as [[code step]|]; [|by exists (- EINVAL), y].
  unfold meson_ir_match_input_dev in *. rewrite Iy, Hm. eexists _, _. split; [done|]. apply (good_ext y); try done. cbn. rewrite pressed_app. by destruct (pressed None (out y)).
Qed.

Lemma lookup_good t x code : tab_ok x t -> exists r, meson_ir_lookup_by_scancode fuel (map_size t) (codemap t) code = Done r /\
  (r < 0 \/ exists k, at_ (codemap t) r = Done k).
Proof.
  intros (_ & Ho & Hs & Hf). unfold meson_ir_lookup_by_scancode. rewrite Hs.
  destruct (lookup_loop_ok fuel (codemap t) code 0 (Z.of_nat (length (codemap t)) - 1) Ho) as (r & Hr & Hc); try lia.
  { intros i k Hi _. apply lookup_lt_Some in Hi. lia. }
  exists r. split; [done|]. destruct Hc as [[-> _]|(k & H0 & Hk & _)]; [left; unfold ENODATA; lia|]. right. exists k. unfold at_.
  rewrite (proj2 (Z.ltb_ge _ _)) by lia. by rewrite Hk.
Qed.

Lemma getkeycode_good scan x : good x -> exists k y, meson_ir_getkeycode fuel scan x = Done (k, y) /\ good y.
Proof.
  intros G. pose proof G as [GD G1 G2 G3 G4 G5]. unfold meson_ir_getkeycode. destruct (cur_tab x) as [p|] eqn:Ec; [|by exists KEY_RESERVED, x].
  destruct G4 as [t Ht]. rewrite Ht. pose proof (G2 p t Ht) as Hok. case_if; [by exists BTN_LEFT, x|].
  destruct (lookup_good t x scan Hok) as (r & -> & Hr). cbn [obind]. case_if; [by exists KEY_RESERVED, x|]. destruct Hr as [Hr|[k ->]]; [lia|]. cbn [obind].
  eexists _, _. split; [done|]. case_if; [|done]. split; cbn; try done.
  - intros q u. intros [[<- <-]|[Hq Hu]]%lookup_insert_Some; [|by apply (G2 q)]. exact Hok.
  - eapply Forall_impl; [exact G3|]. intros q Hq. destruct (decide (q = p)) as [->|]; [rewrite lookup_insert_eq; by eexists|by rewrite lookup_insert_ne].
  - rewrite lookup_insert_eq. by eexists.
Qed.

Lemma frame_good now scan status x : good x -> exists y, meson_ir_keydown fuel now scan status x = Done y /\ good y.
Proof.
  intros G. unfold meson_ir_keydown.
  assert (H1 : exists y, (if truthy (cur_hardcode x) then let* (ok, x) := meson_ir_is_valid_custom x in
    Done (if negb ok then emit (RScan (cur_hardcode x)) x else x) else Done x) = Done y /\ good y).
  { case_if; [|by exists x]. destruct (valid_custom_good x G) as (b & y & -> & Gy). cbn [obind]. eexists. split; [done|].
    destruct b; [done|]. apply (good_ext y); try done. cbn. rewrite pressed_app. by destruct (pressed None (out y)). }
  destruct H1 as (x1 & -> & G1). cbn [obind].
  assert (H2 : exists b y, (if negb (status =? IR_STATUS_REPEAT) then meson_ir_is_valid_custom x1 else Done (true, x1)) = Done (b, y) /\ good y).
  { case_if; [by apply valid_custom_good|by exists true, x1]. }
  destruct H2 as (b & x2 & -> & G2). cbn [obind]. destruct b; [|by exists x2]. cbn [negb].
  assert (H3 : exists r y, (if (status =? IR_STATUS_NORMAL) || (status =? IR_STATUS_REPEAT) then meson_ir_report_rel (u32 scan) status x2 else Done (- EINVAL, x2)) = Done (r, y) /\ good y).
  { case_if; [by apply report_rel_good|by exists (- EINVAL), x2]. }
  destruct H3 as (r & x3 & -> & G3). cbn [obind]. case_if; [by exists x3|].
  assert (H4 : exists y, (if status =? IR_STATUS_NORMAL then let* (key, x) := meson_ir_getkeycode fuel (u32 scan) x3 in meson_ir_do_keydown now scan key x else Done x3) = Done y /\ good y).
  { case_if; [|by exists x3]. destruct (getkeycode_good (u32 scan) x3 G3) as (k & y & -> & Gy). cbn [obind]. by apply keydown_good. }
  destruct H4 as (x4 & -> & G4). cbn [obind]. case_if; [|by exists x4]. eexists. split; [done|]. by apply (good_ext x4).
Qed.

Lemma timer_good now busy x : good x -> exists y, meson_ir_timer_keyup now busy x = Done y /\ good y.
Proof.
  intros G. unfold meson_ir_timer_keyup. unfold truthy at 1. destruct (Z.eqb_spec (keypressed x) 0) as [E|E]; cbn [negb]; [by exists x|].
  case_if; [eexists; split; [done|]; by apply (good_ext x)|].
  case_if; cbn [obind]; [|eexists; split; [done|]; by apply (good_ext x)].
  destruct (keyup_good now x G E) as (y & -> & Gy & _). cbn [obind]. eexists. split; [done|]. by apply (good_ext y).
Qed.

Definition op_ok (o : op) : Prop :=
  match o with
  | OpTab t => match_from devs 0 (default_id (id t)) = Some i0 /\ map_size t = Z.of_nat (length (codemap t)) /\ (length (codemap t) < fuel)%nat
  | _ => True
  end.

Lemma tab_good t x : good x -> op_ok (OpTab t) -> exists y, exec fuel (OpTab t) x = Done y /\ good y.
Proof.
  intros G (Hm & Hs & Hf). cbn [exec]. set (p := fresh (dom (tabs x))).
  assert (Hp : tabs x !! p = None) by (apply not_elem_of_dom, is_fresh). unfold set_key_mapping_tab.
  destruct (sort_ok (codemap t)) as (l & Hl & Ho & HP). rewrite Hs, Hl. cbn [obind custom_code].
  pose proof (Permutation_length HP) as HL. pose proof G as [GD G1 G2 G3 G4 G5].
  set (t' := Tab 0 (cursor_code t) (Z.of_nat (length (codemap t))) (custom_code t) (release_delay t) (default_id (id t)) l).
  assert (Ht' : tab_ok x t') by (unfold tab_ok, meson_ir_match_input_dev; cbn; rewrite HL, GD; done).
  destruct (seek_good x (s32 (custom_code t)) G) as (o & -> & Hq). cbn [obind]. destruct o as [q|]; eexists; (split; [done|]); split; cbn; try done.
  - intros r u [[<- <-]|[Hr Hu]]%lookup_insert_Some; [done|]. apply lookup_delete_Some in Hu as [_ Hu]. by apply (G2 r).
  - apply Forall_app. split; [|constructor; [|constructor]; rewrite lookup_insert_eq; by eexists]. apply Forall_forall. intros r [Hr Hin]%list_elem_of_filter.
    rewrite Forall_forall in G3. destruct (decide (r = p)) as [->|]; [rewrite lookup_insert_eq; by eexists|].
    rewrite lookup_insert_ne, lookup_delete_ne by done. by apply G3.
  - case_bool_decide as E; [rewrite lookup_insert_eq; by eexists|]. destruct (cur_tab x) as [r|] eqn:Er; [|done].
    destruct (decide (r = p)) as [->|]; [rewrite lookup_insert_eq; by eexists|]. rewrite lookup_insert_ne, lookup_delete_ne by congruence. done.
  - intros r u [[<- <-]|[Hr Hu]]%lookup_insert_Some; [done|]. by apply (G2 r).
  - apply Forall_app. split; [|constructor; [|constructor]; rewrite lookup_insert_eq; by eexists]. eapply Forall_impl; [exact G3|]. intros r Hr.
    destruct (decide (r = p)) as [->|]; [rewrite lookup_insert_eq; by eexists|by rewrite lookup_insert_ne].
  - destruct (cur_tab x) as [r|]; [|done]. destruct (decide (r = p)) as [->|]; [rewrite lookup_insert_eq; by eexists|by rewrite lookup_insert_ne].
Qed.

Lemma exec_good o x : good x -> op_ok o -> exists y, exec fuel o x = Done y /\ good y.
Proof.
  intros G Ho. destruct o as [now hard custom scan status|now busy|t].
  - apply frame_good. by apply (good_ext x).
  - by apply timer_good.
  - by apply tab_good.
Qed.

Lemma exec_all_good l : forall x, good x -> Forall op_ok l -> exists y, exec_all fuel l x = Done y /\ good y.
Proof.
  induction l as [|o l IH]; intros x G Hl; cbn; [by exists x|]. apply Forall_cons in Hl as [Ho Hl].
  destruct (exec_good o x G Ho) as (y & -> & Gy). cbn [obind]. by apply IH.
Qed.

End Invariant.

(** No key, no map, no report yet. *)
Definition start (devs : list input_id) (num j : Z) : ir := Ir ∅ [] None devs num 0 0 0 0 0 0 0 0 0 None j [].

Lemma start_good devs i0 fuel num j : num <= 1 -> good devs i0 fuel (start devs num j).
Proof. intros Hn. split; try done. Qed.

(** C18: with one receiver (of two, the shared input device drops what comes
    within 50 ms) and maps that all belong to one input device, over every
    sequence of frames (normal and repeat, of any remote control), runs of the
    timer and new maps: no map is read out of bounds or after it was freed,
    every search ends, and the reports are presses and releases in turn, each
    release that of the key pressed before it. *)
Theorem one_key_at_a_time devs i0 fuel num j l : num <= 1 -> Forall (op_ok devs i0 fuel) l ->
  exists y, exec_all fuel l (start devs num j) = Done y /\
    pressed None (out y) = Some (if truthy (keypressed y) then Some (i0, last_keycode y) else None).
Proof.
  intros Hn Hl. destruct (exec_all_good devs i0 fuel l (start devs num j) (start_good devs i0 fuel num j Hn) Hl) as (y & Hy & G).
  exists y. split; [done|apply G].
Qed.

(** A key that is down is released by the second run of the timer after
    its time, however busy the receiver is, unless frames come in between. *)
Theorem two_timers_release devs i0 fuel num j l n1 b1 n2 b2 x : num <= 1 -> Forall (op_ok devs i0 fuel) l ->
  exec_all fuel l (start devs num j) = Done x -> keypressed x <> 0 -> 0 <= s64 (n1 - keyup_jiffies x) ->
  exists y, meson_ir_timer_keyup n1 b1 x = Done y /\
    (0 <= s64 (n2 - keyup_jiffies y) -> exists z, meson_ir_timer_keyup n2 b2 y = Done z /\ keypressed z = 0 /\ pressed None (out z) = Some None).
Proof.
  intros Hn Hl Hx Hk Ht. destruct (exec_all_good devs i0 fuel l (start devs num j) (start_good devs i0 fuel num j Hn) Hl) as (x' & Hx' & G).
  assert (x' = x) as -> by congruence.
  assert (Hup : forall y, good devs i0 fuel y -> keypressed y = 0 -> exists z, meson_ir_timer_keyup n2 b2 y = Done z /\ keypressed z = 0 /\ pressed None (out z) = Some None).
  { intros y Gy Ky. exists y. unfold meson_ir_timer_keyup, truthy. rewrite Ky. split; [done|]. split; [done|]. pose proof (g_out _ _ _ _ Gy) as Go. by rewrite Ky in Go. }
  assert (Hgo : forall n b y, good devs i0 fuel y -> keypressed y <> 0 -> 0 <= s64 (n - keyup_jiffies y) -> meson_ir_is_next_repeat b y = false ->
    exists z, meson_ir_timer_keyup n b y = Done z /\ keypressed z = 0 /\ good devs i0 fuel z).
  { intros n b y Gy Ky Hy Hr. unfold meson_ir_timer_keyup, truthy. rewrite (proj2 (Z.eqb_neq _ 0)) by done. cbn [negb]. rewrite Hr, (proj2 (Z.leb_le _ _)) by done.
    destruct (keyup_good devs i0 fuel n y Gy Ky) as (z & -> & Gz & Kz & _). cbn [obind]. eexists. split; [done|]. split; [done|]. by apply (good_ext devs i0 fuel z). }
  destruct (meson_ir_is_next_repeat b1 x) eqn:Er.
  - unfold meson_ir_timer_keyup at 1. unfold truthy at 1. rewrite (proj2 (Z.eqb_neq _ 0)) by done. cbn [negb]. rewrite Er. eexists. split; [done|]. intros H2.
    destruct (Hgo n2 b2 _ (good_ext devs i0 fuel x (set_timer (u64 (n1 + msecs_to_jiffies (keyup_delay x))) (keyup_delay x) 1 (Some (u64 (n1 + msecs_to_jiffies (keyup_delay x)))) x) G eq_refl eq_refl eq_refl eq_refl eq_refl eq_refl eq_refl eq_refl)) as (z & Hz & Kz & Gz); [done|done|done|].
    exists z. split; [done|]. split; [done|]. pose proof (g_out _ _ _ _ Gz) as Go. by rewrite Kz in Go.
  - destruct (Hgo n1 b1 x G Hk Ht Er) as (y & Hy & Ky & Gy). exists y. split; [done|]. intros _. by apply Hup.
Qed.


End Keys.

(** ** Examples: a jiffy of 4 ms, the custom code as the raw decoder keeps it *)

Definition ms4 (m : Z) : Z := (m + 3) / 4.
Definition jiffies4 (j : Z) : Z := j * 4.
Definition raw_custom : option (Z -> Z -> Z) := Some (fun _ custom => custom).
Definition nocursor : cursor_codemap := Cursor 0xffff 0xffff 0xffff 0xffff 0xffff 0xffff.
(** Two input devices; the id of the first map leaves three numbers to the
    defaults. *)
Definition dev_a : input_id := InputId BUS_ISA 5 0x0001 0x0100.
Definition dev_b : input_id := InputId BUS_ISA 7 0x0001 0x0100.
Definition remote_a : map_tab := Tab 0 nocursor 3 0xfe01 250 (InputId 0 5 0 0) sample.
Definition remote_b : map_tab := Tab 0 nocursor 3 0xbd02 250 dev_b sample.
Definition play (devs : list input_id) (num : Z) (l : list op) : outcome ir :=
  exec_all ms4 jiffies4 raw_custom 9 l (start devs num 0).

(** A press of the power key and a repeat. *)
Definition press : list op := [OpTab remote_a; OpFrame 1000 0 0xfe01 0x18 0; OpFrame 1027 0 0xfe01 0x18 1].

Lemma one_key_at_a_time_witness : exists y, play [dev_a] 1 press = Done y /\ pressed None (out y) = Some (Some (0%nat, 116)).
Proof.
  destruct (one_key_at_a_time ms4 jiffies4 raw_custom [dev_a] 0 9 1 0 press) as (y & Hy & Hp).
  - lia.
  - repeat constructor.
  - exists y. split; [exact Hy|]. vm_compute in Hy. injection Hy as <-. exact Hp.
Defined.

Lemma two_timers_release_witness : exists x y z, play [dev_a] 1 press = Done x /\
  meson_ir_timer_keyup ms4 jiffies4 1090 true x = Done y /\ meson_ir_timer_keyup ms4 jiffies4 1153 true y = Done z /\ keypressed z = 0.
Proof.
  destruct (play [dev_a] 1 press) as [x| |] eqn:Ex; [|by vm_compute in Ex..].
  assert (Hk : keypressed x = 1 /\ keyup_jiffies x = 1090) by (vm_compute in Ex; by injection Ex as <-).
  destruct (two_timers_release ms4 jiffies4 raw_custom [dev_a] 0 9 1 0 press 1090 true 1153 true x ltac:(lia) ltac:(repeat constructor) Ex) as (y & Hy & Hz).
  - lia.
  - rewrite (proj2 Hk). vm_compute. discriminate.
  - assert (Hj : keyup_jiffies y = 1153) by (vm_compute in Ex; injection Ex as <-; vm_compute in Hy; by injection Hy as <-).
    rewrite Hj in Hz. destruct Hz as (z & Hz & Kz & _); [vm_compute; discriminate|]. exists x, y, z. done.
Defined.

(** The maps of two remote controls with input devices of their own: a frame
    of the second while a key of the first is down releases that key on the
    wrong device, where it stays down. *)
Example key_stuck_on_other_device :
  match play [dev_a; dev_b] 1 [OpTab remote_a; OpTab remote_b; OpFrame 1000 0 0xfe01 0x18 0; OpFrame 1010 0 0xbd02 0x46 0; OpTimer 1500 false] with
  | Done y => out y = [RKey (Some 0%nat) 116 1; RKey (Some 1%nat) 116 0; RKey (Some 1%nat) 103 1; RKey (Some 1%nat) 103 0] /\ keypressed y = 0
  | _ => False
  end.
Proof. vm_compute. done. Qed.

(** With two receivers the shared input device drops what comes within 50 ms:
    the second of two quick keys is never pressed, but released. *)
Example shared_input_drops_press :
  match play [dev_a] 2 [OpTab remote_a; OpFrame 1000 0 0xfe01 0x18 0; OpFrame 1040 0 0xfe01 0x46 0; OpTimer 1500 false] with
  | Done y => out y = [RKey None 116 1; RKey None 116 0; RKey None 103 0]
  | _ => False
  end.
Proof. vm_compute. done. Qed.

(** A release within 50 ms of the press is lost. *)
Example shared_input_drops_release :
  match play [dev_a] 2 [OpTab (Tab 0 nocursor 3 0xfe01 20 dev_a sample); OpFrame 1000 0 0xfe01 0x18 0; OpTimer 1005 false] with
  | Done y => out y = [RKey None 116 1] /\ keypressed y = 0
  | _ => False
  end.
Proof. vm_compute. done. Qed.

End IrKey.
