(* ===== verification/IrXmp.v ===== *)
(** * Software decoding of XMP frames

    src/drivers/input/ir/meson_ir_decoder_xmp.c decodes the XMP-1 protocol from
    the times between edges: a frame is two halves of eight nibbles, a nibble
    is coded in the length of the space after a leader pulse.
    src/drivers/input/ir/meson_ir_raw.c queues the edges for it.

    Every frame whose spaces lie in the windows of its nibbles becomes one key
    event with the custom code of the frame, whatever the decoder saw before; a
    frame with a wrong checksum becomes none; and no sequence of edges leaves
    the array of spaces. *)

From S2P Require Import Prelude Mem IrMap IrKey.
From stdpp Require Import base list numbers gmap.
From Stdlib Require Import ZArith Lia.

Local Open Scope Z_scope.
Local Open Scope cint_scope.

Module IrXmp.
Import IrMap IrKey.

Definition XMP_UNIT : Z := 136000.
Definition XMP_LEADER : Z := 210000.
Definition XMP_NIBBLE_PREFIX : Z := 760000.
Definition XMP_HALFFRAME_SPACE : Z := 13800000.
Definition XMP_TRAILER_SPACE : Z := 20000000.

Inductive xmp_state := STATE_INACTIVE | STATE_LEADER_PULSE | STATE_NIBBLE_SPACE.
Record nibble_win := Win { w_value : Z; w_min : Z; w_max : Z }.
Record xmp_dec := Dec { state : xmp_state; count : Z; durations : list Z }.
Record raw_event := Ev { duration : Z; pulse : bool; reset : bool }.

Definition nibble_windows : list nibble_win :=
  [Win 0 690000 826000; Win 1 827000 963000; Win 2 964000 1100000; Win 3 1110000 1237000;
   Win 4 1238000 1374000; Win 5 1375000 1511000; Win 6 1512000 1648000; Win 7 1649000 1785000;
   Win 8 1786000 1922000; Win 9 1923000 2059000; Win 0xa 2060000 2196000; Win 0xb 2197000 2333000;
   Win 0xc 2334000 2470000; Win 0xd 2471000 2607000; Win 0xe 2608000 2744000; Win 0x0f 2745000 2881000;
   Win 0xff 11800000 16800000].

Definition geq_margin (d1 d2 margin : Z) : bool := u32 (d2 - margin) <? d1.
Definition eq_margin (d1 d2 margin : Z) : bool := (u32 (d2 - margin) <? d1) && (d1 <? u32 (d2 + margin)).

(** The window of a space replaces it; outside all windows it stays. *)
Definition nibble (n : Z) : Z :=
  fold_left (fun n w => if (w_min w <=? n) && (n <=? w_max w) then w_value w else n) (take 16 nibble_windows) n.

Definition sum8 (n : list Z) : Z := u8 (u32 (15 + foldr Z.add 0 n) mod 16).
Definition byte_of (hi lo : Z) : Z := u8 ((u32 (hi << 4)) .| lo).
Definition get (n : list Z) (i : nat) : Z := nth i n 0.

Section Decoder.
Variable msecs_to_jiffies : Z -> Z.
Variable jiffies_to_msecs : Z -> Z.
Variable fuel : nat.

Abbreviation keydown := (meson_ir_keydown msecs_to_jiffies jiffies_to_msecs raw_custom fuel).

(** The result, the keys and the decoder. *)
Definition meson_ir_decode_xmp (now : Z) (x : ir) (data : xmp_dec) : outcome (Z * ir * xmp_dec) :=
  if negb (count data =? 16) then Done (- EINVAL, x, Dec STATE_INACTIVE (count data) (durations data))
  else
    let n := map nibble (durations data) in
    let data := Dec STATE_INACTIVE (count data) n in
    if negb (sum8 (take 8 n) =? 15) || negb (sum8 (drop 8 n) =? 15) then Done (- EINVAL, x, data)
    else if negb (byte_of (get n 0) (get n 2) =? byte_of (get n 8) (get n 11)) then Done (- EINVAL, x, data)
    else
      let custom_code := (byte_of (get n 4) (get n 5) << 8) .| byte_of (get n 6) (get n 7) in
      let x := set_frame (cur_hardcode x) custom_code x in
      let* x := keydown now (byte_of (get n 12) (get n 13)) (if u8 (get n 10) =? 0 then IR_STATUS_NORMAL else IR_STATUS_REPEAT) x in
      Done (0, x, data).

Definition meson_ir_xmp_decode (now : Z) (ev : raw_event) (x : ir) (data : xmp_dec) : outcome (Z * ir * xmp_dec) :=
  let d := duration ev in
  let fail := Done (- EINVAL, x, Dec STATE_INACTIVE (count data) (durations data)) in
  if reset ev then Done (0, x, Dec STATE_INACTIVE (count data) (durations data))
  else match state data with
  | STATE_INACTIVE =>
      if eq_margin d XMP_LEADER (XMP_UNIT / 2) then Done (0, x, Dec STATE_NIBBLE_SPACE 0 (durations data)) else Done (0, x, data)
  | STATE_LEADER_PULSE =>
      let data := if eq_margin d XMP_LEADER (XMP_UNIT / 2) then Dec STATE_NIBBLE_SPACE (count data) (durations data) else data in
      if count data =? 16 then meson_ir_decode_xmp now x data else Done (0, x, data)
  | STATE_NIBBLE_SPACE =>
      if geq_margin d XMP_TRAILER_SPACE XMP_NIBBLE_PREFIX then meson_ir_decode_xmp now x data
      else if geq_margin d XMP_HALFFRAME_SPACE XMP_NIBBLE_PREFIX then
        Done (0, x, Dec STATE_LEADER_PULSE (if count data =? 16 then 8 else count data) (durations data))
      else if geq_margin d XMP_NIBBLE_PREFIX XMP_UNIT then
        if count data =? 16 then fail
        else if (0 <=? count data) && (count data <? blen (durations data)) then
          Done (0, x, Dec STATE_LEADER_PULSE (u32 (count data + 1)) (<[Z.to_nat (count data) := d]> (durations data)))
        else Fault
      else fail
  end.

Fixpoint feed (now : Z) (l : list raw_event) (x : ir) (data : xmp_dec) : outcome (ir * xmp_dec) :=
  match l with [] => Done (x, data) | ev :: r => let* (_, x, data) := meson_ir_xmp_decode now ev x data in feed now r x data end.

(** ** Frames *)

Definition leader (d : Z) : Prop := 142000 < d < 278000.
Definition half (d : Z) : Prop := 13040000 < d <= 19240000.
Definition coded (n d : Z) : Prop := exists w, w ∈ take 16 nibble_windows /\ w_value w = n /\ w_min w <= d <= w_max w.

Lemma leader_eq d : leader d -> eq_margin d XMP_LEADER (XMP_UNIT / 2) = true.
Proof. intros [H1 H2]. unfold eq_margin. change (u32 (XMP_LEADER - XMP_UNIT / 2)) with 142000. change (u32 (XMP_LEADER + XMP_UNIT / 2)) with 278000. by rewrite !(proj2 (Z.ltb_lt _ _)). Qed.

Definition outside (n : Z) (w : nibble_win) : bool := (n <? w_min w) || (w_max w <? n).

Lemma windows_skip l n : forallb (outside n) l = true ->
  fold_left (fun n w => if (w_min w <=? n) && (n <=? w_max w) then w_value w else n) l n = n.
Proof.
  induction l as [|w l IH]; cbn [forallb fold_left]; [done|]. intros [H1 H2]%andb_prop. unfold outside in H1.
  destruct (w_min w <=? n) eqn:E1, (n <=? w_max w) eqn:E2; cbn [andb]; auto. b2p. apply orb_prop in H1 as [H1|H1]; b2p; lia.
Qed.

(** Windows are in order, and their values below all of them. *)
Lemma windows_apart : forall i w, take 16 nibble_windows !! i = Some w ->
  forallb (fun v => w_max v <? w_min w) (take i nibble_windows) = true /\ forallb (outside (w_value w)) (drop (S i) (take 16 nibble_windows)) = true /\
  690000 <= w_min w /\ w_max w <= 2881000 /\ 0 <= w_value w < 16.
Proof.
  intros i w Hw. do 16 (destruct i as [|i]; [injection Hw as <-; cbn; lia|]). done.
Qed.

Lemma nibble_coded n d : coded n d -> nibble d = n /\ 690000 <= d <= 2881000 /\ 0 <= n < 16.
Proof.
  intros (w & [i Hi]%list_elem_of_lookup & <- & H1 & H2). destruct (windows_apart i w Hi) as (A & B & C & D & E). split; [|lia].
  unfold nibble. rewrite <- (take_drop_middle _ _ _ Hi), fold_left_app, (windows_skip (take i (take 16 nibble_windows)) d).
  - cbn [fold_left]. rewrite !(proj2 (Z.leb_le _ _)) by done. cbn [andb]. by apply windows_skip.
  - rewrite List.forallb_forall in A |- *. intros v Hv. rewrite take_take in Hv. apply lookup_lt_Some in Hi. cbn in Hi.
    replace (i `min` 16)%nat with i in Hv by lia. specialize (A v Hv). unfold outside. b2p. by rewrite (proj2 (Z.ltb_lt (w_max v) d)), orb_true_r by lia.
Qed.

Definition edges (l : list Z) : list raw_event := map (fun d => Ev d true false) l.
(** Each nibble is a leader and a space. *)
Definition pairs (l : list (Z * Z)) : list Z := concat (map (fun '(a, d) => [a; d]) l).

Lemma xmp_feed_app now l r x data : feed now (l ++ r) x data = let* (x, data) := feed now l x data in feed now r x data.
Proof.
  revert x data. induction l as [|e l IH]; intros x data; [done|]. cbn [app feed].
  destruct (meson_ir_xmp_decode now e x data) as [[[ret x1] d1]| |]; cbn [obind]; [apply IH|done..].
Qed.

(** The decoder waits for a leader: as new, or in the middle of a frame. *)
Definition waits (data : xmp_dec) (c : nat) (pre rest : list Z) : Prop :=
  durations data = pre ++ rest /\ length pre = c /\ length (pre ++ rest) = 16%nat /\
  (state data = STATE_INACTIVE /\ c = 0%nat \/ state data = STATE_LEADER_PULSE /\ count data = Z.of_nat c).

Lemma leader_step now a x data c pre rest : waits data c pre rest -> leader a -> (c < 16)%nat ->
  meson_ir_xmp_decode now (Ev a true false) x data = Done (0, x, Dec STATE_NIBBLE_SPACE (Z.of_nat c) (pre ++ rest)).
Proof.
  intros (Hd & Hc & Hl & Hs) Ha Hlt. unfold meson_ir_xmp_decode. cbn [reset duration]. rewrite leader_eq by done.
  destruct Hs as [[-> ->]|[-> Hcnt]]; rewrite ?Hd; [done|]. cbn [count durations]. rewrite Hcnt, (proj2 (Z.eqb_neq _ 16)) by lia. done.
Qed.

Lemma space_step now n d x c pre rest : coded n d -> length pre = c -> length (pre ++ rest) = 16%nat -> (c < 16)%nat ->
  exists r0 rest', rest = r0 :: rest' /\
  meson_ir_xmp_decode now (Ev d true false) x (Dec STATE_NIBBLE_SPACE (Z.of_nat c) (pre ++ rest)) =
    Done (0, x, Dec STATE_LEADER_PULSE (Z.of_nat (S c)) ((pre ++ [d]) ++ rest')).
Proof.
  intros Hn Hc Hl Hlt. destruct (nibble_coded n d Hn) as (_ & Hd & _). destruct rest as [|r0 rest']; [rewrite app_nil_r in Hl; lia|].
  exists r0, rest'. split; [done|]. unfold meson_ir_xmp_decode. cbn [reset duration state count durations]. unfold geq_margin.
  change (u32 (XMP_TRAILER_SPACE - XMP_NIBBLE_PREFIX)) with 19240000. change (u32 (XMP_HALFFRAME_SPACE - XMP_NIBBLE_PREFIX)) with 13040000.
  change (u32 (XMP_NIBBLE_PREFIX - XMP_UNIT)) with 624000.
  rewrite (proj2 (Z.ltb_ge 19240000 d)), (proj2 (Z.ltb_ge 13040000 d)), (proj2 (Z.ltb_lt 624000 d)) by lia.
  rewrite (proj2 (Z.eqb_neq _ 16)), (proj2 (Z.leb_le 0 _)), (proj2 (Z.ltb_lt _ _)) by lia. cbn [andb].
  rewrite Nat2Z.id, u32_small by lia. do 3 f_equal; [lia|]. subst c. rewrite insert_app_r_alt by lia. rewrite Nat.sub_diag. cbn. by rewrite <- app_assoc.
Qed.

Lemma pairs_step now l : forall ns x data c pre rest, Forall2 (fun n p => coded n p.2 /\ leader p.1) ns l -> waits data c pre rest -> (c + length l <= 16)%nat -> l <> [] ->
  exists rest', feed now (edges (pairs l)) x data = Done (x, Dec STATE_LEADER_PULSE (Z.of_nat (c + length l)) ((pre ++ map snd l) ++ rest')) /\
    length ((pre ++ map snd l) ++ rest') = 16%nat.
Proof.
  induction l as [|[a d] l IH]; intros ns x data c pre rest HF Hw Hle Hne; [done|]. apply Forall2_cons_inv_r in HF as (n & ns' & [Hn Ha] & HF & ->).
  cbn in Hn, Ha, Hle. cbn [pairs map concat edges app feed]. rewrite (leader_step now a x data c pre rest) by (try done; lia). cbn [obind].
  destruct Hw as (Hd & Hc & Hl & _). destruct (space_step now n d x c pre rest Hn Hc Hl ltac:(lia)) as (r0 & rest' & Er & ->). cbn [obind].
  assert (Hl' : length ((pre ++ [d]) ++ rest') = 16%nat) by (subst rest; rewrite !length_app in *; cbn in *; lia).
  destruct l as [|p l].
  - exists rest'. cbn. split; [|done]. do 3 f_equal. lia.
  - change (map (fun d => Ev d true false) (concat (map (fun '(a, d) => [a; d]) (p :: l)))) with (edges (pairs (p :: l))).
    edestruct (IH ns' x (Dec STATE_LEADER_PULSE (Z.of_nat (S c)) ((pre ++ [d]) ++ rest')) (S c) (pre ++ [d]) rest' HF) as (r2 & -> & H2); [|cbn in *; lia|done|].
    + split; [done|]. split; [rewrite length_app; cbn; lia|]. split; [done|]. by right.
    + exists r2. cbn [snd]. replace (pre ++ d :: map snd (p :: l)) with ((pre ++ [d]) ++ map snd (p :: l)) by (by rewrite <- app_assoc).
      split; [|done]. do 3 f_equal. cbn [length]. lia.
Qed.

Lemma half_step now a h x data c pre rest : waits data c pre rest -> leader a -> half h -> (0 < c < 16)%nat ->
  feed now (edges [a; h]) x data = Done (x, Dec STATE_LEADER_PULSE (Z.of_nat c) (pre ++ rest)).
Proof.
  intros Hw Ha [H1 H2] Hc. cbn [edges map feed]. rewrite (leader_step now a x data c pre rest) by (try done; lia). cbn [obind].
  unfold meson_ir_xmp_decode. cbn [reset duration state count durations]. unfold geq_margin.
  change (u32 (XMP_TRAILER_SPACE - XMP_NIBBLE_PREFIX)) with 19240000. change (u32 (XMP_HALFFRAME_SPACE - XMP_NIBBLE_PREFIX)) with 13040000.
  rewrite (proj2 (Z.ltb_ge 19240000 h)), (proj2 (Z.ltb_lt 13040000 h)) by lia. cbn [obind].
  rewrite (proj2 (Z.eqb_neq _ 16)) by lia. done.
Qed.

(** Both halves right, and the same address in both. *)
Definition frame_ok (ns : list Z) : bool :=
  (foldr Z.add 0 (take 8 ns) mod 16 =? 0) && (foldr Z.add 0 (drop 8 ns) mod 16 =? 0) &&
  (get ns 0 =? get ns 8) && (get ns 2 =? get ns 11).

Lemma sum8_ok l : Forall (fun n => 0 <= n < 16) l -> (length l <= 8)%nat -> (sum8 l =? 15) = (foldr Z.add 0 l mod 16 =? 0).
Proof.
  intros Hl Hlen. assert (Hs : 0 <= foldr Z.add 0 l <= 15 * Z.of_nat (length l)).
  { clear Hlen. induction Hl as [|n l Hn _ IH]; cbn [foldr length]; lia. }
  unfold sum8. rewrite u32_small by lia. set (s := foldr Z.add 0 l) in *. pose proof (Z.mod_pos_bound (15 + s) 16 ltac:(lia)).
  unfold u8. change (2 ^ 8) with 256. rewrite (Z.mod_small _ 256) by lia. pose proof (Z.div_mod s 16 ltac:(lia)). pose proof (Z.mod_pos_bound s 16 ltac:(lia)).
  pose proof (Z.div_mod (15 + s) 16 ltac:(lia)). destruct (Z.eqb_spec (s mod 16) 0), (Z.eqb_spec ((15 + s) mod 16) 15); try done; lia.
Qed.

Lemma byte_of_nibbles a b : 0 <= a < 16 -> 0 <= b < 16 -> byte_of a b = 16 * a + b.
Proof.
  intros Ha Hb. unfold byte_of. rewrite Z.shiftl_mul_pow2 by lia. change (2 ^ 4) with 16. rewrite u32_small by lia.
  assert (Ha' : Z.land (a * 16) b = 0).
  { apply Z.bits_inj'. intros i Hi. rewrite Z.land_spec, Z.bits_0. destruct (Z.lt_ge_cases i 4).
    - change 16 with (2 ^ 4). by rewrite Z.mul_pow2_bits_low by lia.
    - rewrite (testbit_above b 4) by lia. apply andb_false_r. }
  assert (Hl : Z.lor (a * 16) b = a * 16 + b) by (rewrite Z.add_nocarry_lxor, Z.lxor_lor by done; done).
  rewrite Hl. unfold u8. change (2 ^ 8) with 256. rewrite Z.mod_small; lia.
Qed.

Lemma nth_small (ns : list Z) i : Forall (fun n => 0 <= n < 16) ns -> 0 <= get ns i < 16.
Proof.
  intros H. unfold get. destruct (nth_in_or_default i ns 0) as [Hi|Hi]; [|lia]. rewrite Forall_forall in H. apply H. by apply list_elem_of_In.
Qed.

(** What a whole frame comes to. *)
Definition frame_result (now : Z) (ns : list Z) (x : ir) : outcome (ir * xmp_dec) :=
  let data := Dec STATE_INACTIVE 16 ns in
  if frame_ok ns then
    let custom_code := ((16 * get ns 4 + get ns 5) << 8) .| (16 * get ns 6 + get ns 7) in
    let* y := keydown now (16 * get ns 12 + get ns 13) (if get ns 10 =? 0 then IR_STATUS_NORMAL else IR_STATUS_REPEAT)
                (set_frame (cur_hardcode x) custom_code x) in
    Done (y, data)
  else Done (x, data).

Lemma decode_frame now ns ds st x : Forall2 coded ns ds -> length ns = 16%nat ->
  (let* (_, y, data) := meson_ir_decode_xmp now x (Dec st 16 ds) in Done (y, data)) = frame_result now ns x.
Proof.
  intros HF Hl. assert (Hn : map nibble ds = ns).
  { clear Hl. induction HF as [|n d ns ds Hc _ IH]; [done|]. cbn [map]. by rewrite (proj1 (nibble_coded n d Hc)), IH. }
  assert (Hb : Forall (fun n => 0 <= n < 16) ns).
  { clear Hn Hl. induction HF as [|n d ns ds Hc _ IH]; constructor; [apply (nibble_coded n d Hc)|done]. }
  unfold meson_ir_decode_xmp, frame_result, frame_ok. cbn [count durations]. rewrite Z.eqb_refl. cbn [negb]. rewrite Hn.
  rewrite !sum8_ok by (first [by apply Forall_take | by apply Forall_drop | rewrite ?length_take, ?length_drop; lia]).
  pose proof (fun i => nth_small ns i Hb) as Hg. rewrite !byte_of_nibbles by apply Hg.
  destruct (foldr Z.add 0 (take 8 ns) mod 16 =? 0); cbn [negb orb andb obind]; [|done].
  destruct (foldr Z.add 0 (drop 8 ns) mod 16 =? 0); cbn [negb orb andb obind]; [|done].
  pose proof (Hg 0%nat). pose proof (Hg 2%nat). pose proof (Hg 8%nat). pose proof (Hg 11%nat).
  assert (Hu : u8 (get ns 10) = get ns 10) by (pose proof (Hg 10%nat); unfold u8; rewrite Z.mod_small; lia). rewrite Hu.
  destruct (Z.eqb_spec (get ns 0) (get ns 8)) as [E0|E0], (Z.eqb_spec (get ns 2) (get ns 11)) as [E2|E2]; cbn [andb];
    [rewrite (proj2 (Z.eqb_eq _ _)) by lia|rewrite (proj2 (Z.eqb_neq _ _)) by lia..]; cbn [negb obind]; try done.
  by destruct (keydown _ _ _ _).
Qed.

Definition frame_edges (l1 : list (Z * Z)) (am h : Z) (l2 : list (Z * Z)) (ae : Z) : list Z := pairs l1 ++ [am; h] ++ pairs l2 ++ [ae].

(** A frame of sixteen nibbles, its edges anywhere inside the windows of
    the protocol, is decoded whatever the last frame left behind: with right
    checksums and equal addresses it is exactly one key event, with the scan
    code, the repeat flag and the custom code of the frame; otherwise none; and
    the decoder is ready for the next frame. *)
Theorem xmp_frame_decoded now ns l1 am h l2 ae x data :
  Forall2 (fun n p => coded n p.2 /\ leader p.1) ns (l1 ++ l2) -> length l1 = 8%nat -> length l2 = 8%nat ->
  leader am -> half h -> leader ae -> state data = STATE_INACTIVE -> length (durations data) = 16%nat ->
  feed now (edges (frame_edges l1 am h l2 ae)) x data = frame_result now ns x.
Proof.
  intros HF L1 L2 Hm Hh He Hst HL. unfold frame_edges, edges. rewrite !map_app, xmp_feed_app.
  apply Forall2_app_inv_r in HF as (ns1 & ns2 & HF1 & HF2 & ->).
  destruct (pairs_step now l1 ns1 x data 0 [] (durations data) HF1) as (r1 & E1 & H1).
  { split; [done|]. split; [done|]. split; [done|]. by left. } { lia. } { by destruct l1. }
  unfold edges in E1. rewrite E1. cbn [obind app]. cbn [app] in H1. rewrite L1 in *. change (0 + 8)%nat with 8%nat.
  assert (Hw : waits (Dec STATE_LEADER_PULSE 8 (map snd l1 ++ r1)) 8 (map snd l1) r1).
  { split; [done|]. split; [by rewrite length_map|]. split; [done|]. by right. }
  pose proof (half_step now am h x _ 8 (map snd l1) r1 Hw Hm Hh ltac:(lia)) as E2. unfold edges in E2.
  change (Z.of_nat 8) with 8 in *. rewrite xmp_feed_app, E2. cbn [obind].
  destruct (pairs_step now l2 ns2 x (Dec STATE_LEADER_PULSE 8 (map snd l1 ++ r1)) 8 (map snd l1) r1 HF2 Hw) as (r2 & E3 & H3); [lia|by destruct l2|].
  unfold edges in E3. rewrite xmp_feed_app, E3. cbn [obind]. rewrite L2 in *. change (Z.of_nat (8 + 8)) with 16.
  assert (r2 = []) as ->. { rewrite !length_app, !length_map in H3. destruct r2; [done|]. cbn in H3. lia. }
  rewrite app_nil_r. cbn [map feed]. unfold meson_ir_xmp_decode. cbn [reset duration state count durations]. rewrite leader_eq by done.
  cbn [count durations]. rewrite Z.eqb_refl. rewrite <- (decode_frame now (ns1 ++ ns2) (map snd l1 ++ map snd l2) STATE_NIBBLE_SPACE).
  - destruct (meson_ir_decode_xmp _ _ _) as [[[ret y] d']| |]; done.
  - rewrite <- map_app. apply Forall2_fmap_r. eapply Forall2_impl; [by apply Forall2_app|]. by intros n p [? _].
  - apply Forall2_length in HF1, HF2. rewrite length_app. lia.
Qed.

(** ** Any sequence of edges *)

Definition dec_ok (data : xmp_dec) : Prop := length (durations data) = 16%nat /\ 0 <= count data <= 16.

Lemma decode_xmp_good devs i0 now x data : good devs i0 fuel x -> dec_ok data ->
  exists r y d', meson_ir_decode_xmp now x data = Done (r, y, d') /\ good devs i0 fuel y /\ dec_ok d'.
Proof.
  intros G [H1 H2]. unfold meson_ir_decode_xmp. case_if; [by eexists _, _, _|]. case_if; [eexists _, _, _; split; [done|]; split; [done|]; split; [cbn; by rewrite length_map|done]|].
  case_if; [eexists _, _, _; split; [done|]; split; [done|]; split; [cbn; by rewrite length_map|done]|].
  edestruct (frame_good msecs_to_jiffies jiffies_to_msecs raw_custom devs i0 fuel now) as (y & Hy & Gy); [|rewrite Hy; cbn [obind]; eexists _, _, _; split; [done|]; split; [done|]; split; [cbn; by rewrite length_map|done]].
  by apply (good_ext devs i0 fuel x).
Qed.

Lemma xmp_decode_good devs i0 now ev x data : good devs i0 fuel x -> dec_ok data ->
  exists r y d', meson_ir_xmp_decode now ev x data = Done (r, y, d') /\ good devs i0 fuel y /\ dec_ok d'.
Proof.
  intros G [H1 H2]. assert (Hok : forall st, dec_ok (Dec st (count data) (durations data))) by done. unfold meson_ir_xmp_decode. case_if; [by eexists _, _, _|].
  destruct (state data).
  - case_if; eexists _, _, _; (split; [done|]); (split; [done|]); [split; [done|cbn; lia]|done].
  - assert (Hd : dec_ok (if eq_margin (duration ev) XMP_LEADER (XMP_UNIT / 2) then Dec STATE_NIBBLE_SPACE (count data) (durations data) else data)) by (by case_if).
    case_if; [by apply decode_xmp_good|by eexists _, _, _].
  - case_if; [by apply decode_xmp_good|]. case_if; [eexists _, _, _; split; [done|]; split; [done|]; split; [done|cbn; case_if; lia]|].
    case_if; [|by eexists _, _, _]. case_if; [by eexists _, _, _|]. rewrite H1, (proj2 (Z.leb_le 0 _)), (proj2 (Z.ltb_lt _ _)) by lia. cbn [andb].
    eexists _, _, _. split; [done|]. split; [done|]. split; [cbn; by rewrite length_insert|cbn; rewrite u32_small; lia].
Qed.

(** Whatever edges arrive, the decoder stays inside its array of sixteen
    spaces, and the keys stay consistent: presses and releases in turn. *)
Theorem xmp_any_edges devs i0 now l : forall x data, good devs i0 fuel x -> dec_ok data ->
  exists y d', feed now l x data = Done (y, d') /\ good devs i0 fuel y /\ dec_ok d'.
Proof.
  induction l as [|ev l IH]; intros x data G Hd; cbn [feed]; [by eexists _, _|].
  destruct (xmp_decode_good devs i0 now ev x data G Hd) as (r & y & d' & -> & Gy & Hd'). cbn [obind]. by apply IH.
Qed.

(** ** The queue of edges *)

Definition RAW_SPACE : Z := 1.
Definition RAW_PULSE : Z := 2.
Definition RAW_START_EVENT : Z := 4.
Definition ENOMEM : Z := 12.

(** struct meson_ir_raw_handle; the kfifo holds up to [cap] events. *)
Record raw_handle := Raw { kfifo : list raw_event; last_type : Z; jiffies_old : Z; max_frame_time : Z }.
Variable cap : nat.

Definition meson_ir_raw_event_store (ev : raw_event) (raw : raw_handle) : Z * raw_handle :=
  if (length (kfifo raw) <? cap)%nat then (0, Raw (kfifo raw ++ [ev]) (last_type raw) (jiffies_old raw) (max_frame_time raw)) else (- ENOMEM, raw).

Definition meson_ir_raw_event_store_edge (now type d : Z) (raw : raw_handle) : Z * raw_handle :=
  let timeout := u64 (jiffies_old raw + msecs_to_jiffies (max_frame_time raw)) in
  let late := (s64 (timeout - now) <? 0) || (last_type raw =? 0) in
  let type := if late then type .| RAW_START_EVENT else type in
  let d := if late then 0 else d in
  let store pulse reset :=
    let '(rc, raw) := meson_ir_raw_event_store (Ev d pulse reset) raw in (rc, Raw (kfifo raw) type now (max_frame_time raw)) in
  if truthy (type .& RAW_START_EVENT) then store false true
  else if truthy (last_type raw .& RAW_SPACE) then store false false
  else if truthy (last_type raw .& RAW_PULSE) then store true false
  else (0, raw).

(** The part of the interrupt for software decoding: the time since the last edge is counted in units of 10 us. *)
Definition meson_ir_interrupt (now reg1 : Z) (raw : raw_handle) : raw_handle :=
  let val := (reg1 .& 0x1fff0000) >> 16 in
  snd (meson_ir_raw_event_store_edge now RAW_PULSE (u32 (val * 10 * 1000)) raw).

(** The thread takes all events from the queue. *)
Definition meson_ir_raw_event_thread (now : Z) (raw : raw_handle) (x : ir) (data : xmp_dec) : outcome (raw_handle * ir * xmp_dec) :=
  let* (x, data) := feed now (kfifo raw) x data in Done (Raw [] (last_type raw) (jiffies_old raw) (max_frame_time raw), x, data).

Fixpoint store_edges (l : list (Z * Z)) (raw : raw_handle) : raw_handle :=
  match l with [] => raw | (now, d) :: r => store_edges r (snd (meson_ir_raw_event_store_edge now RAW_PULSE d raw)) end.

(** Edges follow each other within the frame time. *)
Fixpoint dense (from frame : Z) (l : list (Z * Z)) : Prop :=
  match l with [] => True | (now, _) :: r => 0 <= s64 (u64 (from + msecs_to_jiffies frame) - now) /\ dense now frame r end.

Lemma store_edges_dense l : forall raw, dense (jiffies_old raw) (max_frame_time raw) l -> last_type raw = RAW_PULSE \/ last_type raw = RAW_PULSE .| RAW_START_EVENT ->
  (length (kfifo raw) + length l <= cap)%nat -> kfifo (store_edges l raw) = kfifo raw ++ edges (map snd l).
Proof.
  induction l as [|[now d] l IH]; intros raw Hd Ht Hc; cbn [store_edges]; [by rewrite app_nil_r|]. destruct Hd as [H1 H2]. cbn in Hc.
  unfold meson_ir_raw_event_store_edge. rewrite (proj2 (Z.ltb_ge _ 0)) by done. cbn [orb].
  assert (Hl : (last_type raw =? 0) = false) by (destruct Ht as [->| ->]; done). rewrite Hl.
  change (truthy (RAW_PULSE .& RAW_START_EVENT)) with false. cbn [orb].
  assert (Hs : truthy (last_type raw .& RAW_SPACE) = false) by (destruct Ht as [->| ->]; done). rewrite Hs.
  assert (Hp : truthy (last_type raw .& RAW_PULSE) = true) by (destruct Ht as [->| ->]; done). rewrite Hp.
  unfold meson_ir_raw_event_store. rewrite (proj2 (Nat.ltb_lt _ _)) by lia. cbn [snd kfifo max_frame_time].
  rewrite IH; cbn [kfifo jiffies_old max_frame_time last_type]; [|done|by left|rewrite length_app; cbn; lia]. by rewrite <- app_assoc.
Qed.

Lemma first_edge now d raw : s64 (u64 (jiffies_old raw + msecs_to_jiffies (max_frame_time raw)) - now) < 0 -> (length (kfifo raw) < cap)%nat ->
  snd (meson_ir_raw_event_store_edge now RAW_PULSE d raw) = Raw (kfifo raw ++ [Ev 0 false true]) (RAW_PULSE .| RAW_START_EVENT) now (max_frame_time raw).
Proof.
  intros Hl Hc. unfold meson_ir_raw_event_store_edge. rewrite (proj2 (Z.ltb_lt _ 0)) by done. cbn [orb].
  change (truthy (RAW_PULSE .| RAW_START_EVENT .& RAW_START_EVENT)) with true. unfold meson_ir_raw_event_store.
  by rewrite (proj2 (Nat.ltb_lt _ _)) by lia.
Qed.

(** C13: from the edges at the interrupt to the key: after a pause, the edges
    of a frame, close enough to each other, are queued, read by the thread
    and decoded to the one key event of the frame, in whatever state the last
    frame left the decoder. *)
Theorem frame_from_interrupts now t0 d0 l ns l1 am h l2 ae raw x data :
  kfifo raw = [] -> (length l < cap)%nat -> s64 (u64 (jiffies_old raw + msecs_to_jiffies (max_frame_time raw)) - t0) < 0 ->
  dense t0 (max_frame_time raw) l -> map snd l = frame_edges l1 am h l2 ae ->
  Forall2 (fun n p => coded n p.2 /\ leader p.1) ns (l1 ++ l2) -> length l1 = 8%nat -> length l2 = 8%nat ->
  leader am -> half h -> leader ae -> length (durations data) = 16%nat ->
  exists raw', (let* (raw, x, data) := meson_ir_raw_event_thread now (store_edges ((t0, d0) :: l) raw) x data in Done (raw, (x, data))) =
    (let* r := frame_result now ns x in Done (raw', r)) /\ kfifo raw' = [].
Proof.
  intros Hk Hc Hp Hd Hl HF L1 L2 Hm Hh He HL. cbn [store_edges]. rewrite first_edge; [|done|rewrite Hk; cbn; lia].
  set (raw1 := Raw (kfifo raw ++ [Ev 0 false true]) (RAW_PULSE .| RAW_START_EVENT) t0 (max_frame_time raw)).
  assert (Hs : kfifo (store_edges l raw1) = Ev 0 false true :: edges (frame_edges l1 am h l2 ae)).
  { rewrite store_edges_dense; [by rewrite Hl; cbn; rewrite Hk|done|by right|cbn; rewrite Hk; cbn; lia]. }
  unfold meson_ir_raw_event_thread. rewrite Hs. cbn [feed]. unfold meson_ir_xmp_decode at 1. cbn [reset obind].
  rewrite (xmp_frame_decoded now ns l1 am h l2 ae) by done.
  exists (Raw [] (last_type (store_edges l raw1)) (jiffies_old (store_edges l raw1)) (max_frame_time (store_edges l raw1))).
  by destruct (frame_result now ns x) as [[y d']| |].
Qed.

End Decoder.

(** ** Examples *)

Definition codedb (n d : Z) : bool := existsb (fun w => (w_value w =? n) && (w_min w <=? d) && (d <=? w_max w)) (take 16 nibble_windows).
Definition leaderb (d : Z) : bool := (142000 <? d) && (d <? 278000).

Lemma coded_check ns l : length ns = length l -> forallb (fun np => codedb np.1 np.2.2 && leaderb np.2.1) (zip ns l) = true ->
  Forall2 (fun n p => coded n p.2 /\ leader p.1) ns l.
Proof.
  revert l. induction ns as [|n ns IH]; intros [|p l] Hl; try done. cbn [zip zip_with forallb fst snd]. intros [[Hc Ha]%andb_prop H]%andb_prop.
  constructor; [|apply IH; [cbn in Hl; lia|done]]. unfold leaderb in Ha. b2p. split; [|split; lia].
  apply existsb_exists in Hc as (w & Hw & Hc). b2p. exists w. split; [by apply list_elem_of_In|]. lia.
Qed.

(** The power key of remote A: custom code 0xfe01, scan code 0x18. *)
Definition power : list Z := [1; 15; 2; 0; 15; 14; 0; 1; 1; 4; 0; 2; 1; 8; 0; 0].
Definition spaces : list (Z * Z) := map (fun n => (210000, 758000 + 137000 * n)) power.
Definition ready : ir := match play [dev_a] 1 [OpTab remote_a] with Done x => x | _ => start [dev_a] 1 0 end.
Definition blank_dec : xmp_dec := Dec STATE_INACTIVE 0 (replicate 16 0).

Lemma xmp_frame_decoded_witness : match feed ms4 jiffies4 9 1000 (edges (frame_edges (take 8 spaces) 210000 13800000 (drop 8 spaces) 210000)) ready blank_dec with
  | Done (y, _) => out y = [RKey (Some 0%nat) 116 1]
  | _ => False
  end.
Proof.
  rewrite (xmp_frame_decoded ms4 jiffies4 9 1000 power).
  - vm_compute. reflexivity.
  - apply coded_check; vm_compute; reflexivity.
  - reflexivity.
  - reflexivity.
  - split; lia.
  - split; lia.
  - split; lia.
  - reflexivity.
  - reflexivity.
Defined.

Lemma ready_good : good [dev_a] 0 9 ready.
Proof.
  destruct (exec_all_good ms4 jiffies4 raw_custom [dev_a] 0 9 [OpTab remote_a] (start [dev_a] 1 0)) as (y & Hy & G).
  - apply start_good. lia.
  - by repeat constructor.
  - unfold ready, play. by rewrite Hy.
Qed.

Lemma xmp_any_edges_witness : exists y d', feed ms4 jiffies4 9 1000 (edges [210000; 5; 210000; 800000; 30000000]) ready blank_dec = Done (y, d') /\ dec_ok d'.
Proof.
  destruct (xmp_any_edges ms4 jiffies4 9 [dev_a] 0 1000 (edges [210000; 5; 210000; 800000; 30000000]) ready blank_dec ready_good) as (y & d' & H & _ & Hd).
  - split; [reflexivity|cbn; lia].
  - exists y, d'. done.
Defined.

Definition at_times (t : Z) (l : list Z) : list (Z * Z) := map (fun d => (t, d)) l.

Lemma frame_from_interrupts_witness : exists raw' y d',
  meson_ir_raw_event_thread ms4 jiffies4 9 1000
    (store_edges ms4 455 ((1000, 0) :: at_times 1001 (frame_edges (take 8 spaces) 210000 13800000 (drop 8 spaces) 210000)) (Raw [] 0 0 100)) ready blank_dec = Done (raw', y, d') /\
  out y = [RKey (Some 0%nat) 116 1].
Proof.
  destruct (frame_from_interrupts ms4 jiffies4 9 455 1000 1000 0 (at_times 1001 (frame_edges (take 8 spaces) 210000 13800000 (drop 8 spaces) 210000)) power
    (take 8 spaces) 210000 13800000 (drop 8 spaces) 210000 (Raw [] 0 0 100) ready blank_dec) as (raw' & H & _).
  - reflexivity.
  - apply (bool_decide_unpack _). vm_compute. exact I.
  - vm_compute. reflexivity.
  - vm_compute. repeat split; discriminate.
  - vm_compute. reflexivity.
  - apply coded_check; vm_compute; reflexivity.
  - reflexivity.
  - reflexivity.
  - split; lia.
  - split; lia.
  - split; lia.
  - reflexivity.
  - destruct (meson_ir_raw_event_thread _ _ _ _ _ _ _) as [[[r y] d']| |]; cbn [obind] in H.
    + exists r, y, d'. split; [reflexivity|]. destruct (frame_result ms4 jiffies4 9 1000 power ready) as [[y' d'']| |] eqn:Ef; cbn [obind] in H; try discriminate H.
      injection H as _ <- <-. vm_compute in Ef. injection Ef as <- _. reflexivity.
    + vm_compute in H. discriminate H.
    + vm_compute in H. discriminate H.
Defined.

(** The window of nibble 3 begins 9 us late: a space right at the lower edge of its tolerance is no nibble. *)
Example window_3_short : nibble 1101000 = 1101000 /\ nibble 1110000 = 3.
Proof. vm_compute. done. Qed.

(** A space outside all windows is not refused: it counts as its length in ns modulo 16.
    Here nibble 1 of the scan code is 1105 us long and the key is 0x88 instead of 0x18. *)
Example stray_space_accepted :
  let l := <[12%nat := (210000, 1105000)]> (<[9%nat := (210000, 758000 + 137000 * 13)]> spaces) in
  match feed ms4 jiffies4 9 1000 (edges (frame_edges (take 8 l) 210000 13800000 (drop 8 l) 210000)) ready blank_dec with
  | Done (y, d') => durations d' !! 12%nat = Some 1105000 /\ cur_customcode y = 0xfe01
  | _ => False
  end.
Proof. vm_compute. done. Qed.

End IrXmp.
