(* ===== verification/HdmiMode.v ===== *)
(** * HDMI modes (hdmitx_common/hdmitx_mode.c)

    The tables of CEA and VESA timings, the lookups by number, by index, by
    name and by the parameters of a detailed timing descriptor, the refresh
    rate and the fractional variants.  [odroid] says whether the kernel is
    configured for ODROID, whose table ends in a mode that is filled in at run
    time ([custom]). *)

From S2P Require Import Prelude.
From stdpp Require Import base numbers list strings.
From Stdlib Require Import ZArith Lia String.

Local Open Scope Z_scope.
Local Open Scope cint_scope.

Module HdmiMode.

(** ** Data *)

Record hdmi_timing := Timing {
  vic : Z;
  name : option string;
  sname : option string;
  pi_mode : Z;
  h_freq : Z;
  v_freq : Z;
  pixel_freq : Z;
  h_total : Z;
  h_blank : Z;
  h_front : Z;
  h_sync : Z;
  h_back : Z;
  h_active : Z;
  v_total : Z;
  v_blank : Z;
  v_front : Z;
  v_sync : Z;
  v_back : Z;
  v_active : Z;
  v_sync_ln : Z;
  h_pol : Z;
  v_pol : Z;
  h_pict : Z;
  v_pict : Z;
  h_pixel : Z;
  v_pixel : Z;
  pixel_repetition_factor : Z;
}.

Record dtd := Dtd {
  d_pixel_clock : Z;
  d_h_active : Z;
  d_h_blank : Z;
  d_v_active : Z;
  d_v_blank : Z;
  d_h_sync_offset : Z;
  d_h_sync : Z;
  d_v_sync_offset : Z;
  d_v_sync : Z;
  d_h_image_size : Z;
  d_v_image_size : Z;
  d_flags : Z;
  d_vic : Z;
}.

Record vesa_standard_timing := Vesa {
  s_hactive : Z;
  s_vactive : Z;
  s_hblank : Z;
  s_vblank : Z;
  s_vsync : Z;
  s_tmds_clk : Z;
}.

Definition HDMI_0_UNKNOWN : Z := 0.
Definition HDMITX_VESA_OFFSET : Z := 0x300.
Definition HDMI_CEA_VIC_END (odroid : bool) : Z := if odroid then 254 else 220.

(** ** Tables *)

Definition edid_cea_modes_0 : list hdmi_timing := [
  Timing 0 (Some "invalid"%string) None 0 0 0 0 0 0 0 0 0 0 0 0 0 0 0 0 0 0 0 0 0 0 0 0;
  Timing 1 (Some "640x480p60hz"%string) None 1 31469 59940 25175 800 160 16 96 48 640 525 45 10 2 33 480 1 0 0 4 3 1 1 0;
  Timing 2 (Some "720x480p60hz"%string) (Some "480p60hz"%string) 1 31469 59940 27000 858 138 16 62 60 720 525 45 9 6 30 480 7 0 0 4 3 8 9 0;
  Timing 3 (Some "720x480p60hz"%string) (Some "480p60hz"%string) 1 31469 59940 27000 858 138 16 62 60 720 525 45 9 6 30 480 7 0 0 16 9 32 27 0;
  Timing 4 (Some "1280x720p60hz"%string) (Some "720p60hz"%string) 1 45000 60000 74250 1650 370 110 40 220 1280 750 30 5 5 20 720 1 1 1 16 9 1 1 0;
  Timing 5 (Some "1920x1080i60hz"%string) (Some "1080i60hz"%string) 0 33750 60000 74250 2200 280 88 44 148 1920 1125 22 2 5 15 1080 1 1 1 16 9 1 1 0;
  Timing 6 (Some "720x480i60hz"%string) (Some "480i60hz"%string) 0 15734 59940 27000 1716 276 38 124 114 1440 525 22 4 3 15 480 4 0 0 4 3 8 9 1;
  Timing 7 (Some "720x480i60hz"%string) (Some "480i60hz"%string) 0 15734 59940 27000 1716 276 38 124 114 1440 525 22 4 3 15 480 4 0 0 16 9 32 27 1;
  Timing 8 (Some "720x240p60hz"%string) None 1 15734 59826 27000 1716 276 38 124 114 1440 263 23 5 3 15 240 4 0 0 4 3 4 9 0;
  Timing 9 (Some "720x240p60hz"%string) None 1 15734 59826 27000 1716 276 38 124 114 1440 263 23 5 3 15 240 4 0 0 16 9 16 27 0;
  Timing 10 (Some "2880x480i60hz"%string) None 0 15734 59940 54000 3432 552 76 248 228 2880 525 22 4 3 15 480 4 0 0 4 3 2 9 0;
  Timing 11 (Some "2880x480i60hz"%string) None 0 15734 59940 54000 3432 552 76 248 228 2880 525 22 4 3 15 480 4 0 0 16 9 8 27 0;
  Timing 12 (Some "2880x240p60hz"%string) None 1 15734 59826 54000 3432 552 76 248 228 2880 263 23 5 3 15 240 4 0 0 4 3 1 9 0;
  Timing 13 (Some "2880x240p60hz"%string) None 1 15734 59826 54000 3432 552 76 248 228 2880 263 23 5 3 15 240 4 0 0 16 9 4 27 0;
  Timing 14 (Some "1440x480p60hz"%string) None 1 31469 59940 54000 1716 276 32 124 120 1440 525 45 9 6 30 480 7 0 0 4 3 4 9 0;
  Timing 15 (Some "1440x480p60hz"%string) None 1 31469 59940 54000 1716 276 32 124 120 1440 525 45 9 6 30 480 7 0 0 16 9 16 27 0;
  Timing 16 (Some "1920x1080p60hz"%string) (Some "1080p60hz"%string) 1 67500 60000 148500 2200 280 88 44 148 1920 1125 45 4 5 36 1080 1 1 1 16 9 1 1 0;
  Timing 17 (Some "720x576p50hz"%string) (Some "576p50hz"%string) 1 31250 50000 27000 864 144 12 64 68 720 625 49 5 5 39 576 1 0 0 4 3 16 15 0;
  Timing 18 (Some "720x576p50hz"%string) (Some "576p50hz"%string) 1 31250 50000 27000 864 144 12 64 68 720 625 49 5 5 39 576 1 0 0 16 9 64 65 0;
  Timing 19 (Some "1280x720p50hz"%string) (Some "720p50hz"%string) 1 37500 50000 74250 1980 700 440 40 220 1280 750 30 5 5 20 720 1 1 1 16 9 1 1 0;
  Timing 20 (Some "1920x1080i50hz"%string) (Some "1080i50hz"%string) 0 28125 50000 74250 2640 720 528 44 148 1920 1125 22 2 5 15 1080 1 1 1 16 9 1 1 0;
  Timing 21 (Some "720x576i50hz"%string) (Some "576i50hz"%string) 0 15625 50000 27000 1728 288 24 126 138 1440 625 24 2 3 19 576 1 0 0 4 3 16 15 1;
  Timing 22 (Some "720x576i50hz"%string) (Some "576i50hz"%string) 0 15625 50000 27000 1728 288 24 126 138 1440 625 24 2 3 19 576 1 0 0 16 9 64 65 1;
  Timing 23 (Some "720x288p50hz"%string) None 1 15625 49761 27000 1728 288 24 126 138 1440 314 26 4 3 19 288 1 0 0 4 3 8 15 0;
  Timing 24 (Some "720x288p50hz"%string) None 1 15625 49761 27000 1728 288 24 126 138 1440 314 26 4 3 19 288 1 0 0 16 9 32 45 0;
  Timing 25 (Some "2880x576i50hz"%string) None 0 15625 50000 54000 3456 576 48 252 276 2880 625 24 2 3 19 576 1 0 0 4 3 2 15 0;
  Timing 26 (Some "2880x576i50hz"%string) None 0 15625 50000 54000 3456 576 48 252 276 2880 625 24 2 3 19 576 1 0 0 16 9 16 45 0;
  Timing 27 (Some "2880x288p50hz"%string) None 1 15625 49761 54000 3456 576 48 252 276 2880 314 26 4 3 19 288 1 0 0 4 3 1 15 0;
  Timing 28 (Some "2880x288p50hz"%string) None 1 15625 49761 54000 3456 576 48 252 276 2880 314 26 4 3 19 288 1 0 0 16 9 8 45 0;
  Timing 29 (Some "1440x576p50hz"%string) None 1 31250 50000 54000 1728 288 24 128 136 1440 625 49 5 5 39 576 1 0 0 4 3 8 15 0;
  Timing 30 (Some "1440x576p50hz"%string) None 1 31250 50000 54000 1728 288 24 128 136 1440 625 49 5 5 39 576 1 0 0 16 9 32 45 0;
  Timing 31 (Some "1920x1080p50hz"%string) (Some "1080p50hz"%string) 1 56250 50000 148500 2640 720 528 44 148 1920 1125 45 4 5 36 1080 1 1 1 16 9 1 1 0;
  Timing 32 (Some "1920x1080p24hz"%string) (Some "1080p24hz"%string) 1 27000 24000 74250 2750 830 638 44 148 1920 1125 45 4 5 36 1080 1 1 1 16 9 1 1 0;
  Timing 33 (Some "1920x1080p25hz"%string) (Some "1080p25hz"%string) 1 28125 25000 74250 2640 720 528 44 148 1920 1125 45 4 5 36 1080 1 1 1 16 9 1 1 0;
  Timing 34 (Some "1920x1080p30hz"%string) (Some "1080p30hz"%string) 1 33750 30000 74250 2200 280 88 44 148 1920 1125 45 4 5 36 1080 1 1 1 16 9 1 1 0;
  Timing 35 (Some "2880x480p60hz"%string) None 1 31469 59940 108000 3432 552 64 248 240 2880 525 45 9 6 30 480 7 0 0 4 3 2 9 0;
  Timing 36 (Some "2880x480p60hz"%string) None 1 31469 59940 108000 3432 552 64 248 240 2880 525 45 9 6 30 480 7 0 0 16 9 8 27 0;
  Timing 37 (Some "2880x576p50hz"%string) None 1 31250 50000 108000 3456 576 48 256 272 2880 625 49 5 5 39 576 1 0 0 4 3 4 15 0;
  Timing 38 (Some "2880x576p50hz"%string) None 1 31250 50000 108000 3456 576 48 256 272 2880 625 49 5 5 39 576 1 0 0 16 9 16 45 0;
  Timing 39 (Some "1920x1080i50hz"%string) None 0 31250 50000 72000 2304 384 32 168 184 1920 1250 85 23 5 57 1080 1 1 0 16 9 1 1 0;
  Timing 40 (Some "1920x1080i100hz"%string) None 0 56250 100000 148500 2640 720 528 44 148 1920 1125 22 2 5 15 1080 1 1 1 16 9 1 1 0;
  Timing 41 (Some "1280x720p100hz"%string) None 1 75000 100000 148500 1980 700 440 40 220 1280 750 30 5 5 20 720 1 1 1 16 9 1 1 0;
  Timing 42 (Some "720x576p100hz"%string) None 1 62500 100000 54000 864 144 12 64 68 720 625 49 5 5 39 576 1 0 0 4 3 16 15 0;
  Timing 43 (Some "720x576p100hz"%string) None 1 62500 100000 54000 864 144 12 64 68 720 625 49 5 5 39 576 1 0 0 16 9 64 45 0;
  Timing 44 (Some "720x576i100hz"%string) None 0 31250 100000 54000 1728 288 24 126 138 1440 625 24 2 3 19 576 1 0 0 4 3 16 15 0;
  Timing 45 (Some "720x576i100hz"%string) None 0 31250 100000 54000 1728 288 24 126 138 1440 625 24 2 3 19 576 1 0 0 16 9 64 45 0;
  Timing 46 (Some "1920x1080i120hz"%string) None 0 67500 120000 148500 2200 280 88 44 148 1920 1125 22 2 5 15 1080 1 1 1 16 9 1 1 0;
  Timing 47 (Some "1280x720p120hz"%string) None 1 90000 120000 148500 1650 370 110 40 220 1280 750 30 5 5 20 720 1 1 1 16 9 1 1 0;
  Timing 48 (Some "720x480p120hz"%string) None 1 62937 119880 54000 858 138 16 62 60 720 525 45 9 6 30 480 7 0 0 4 3 8 9 0;
  Timing 49 (Some "720x480p120hz"%string) None 1 62937 119880 54000 858 138 16 62 60 720 525 45 9 6 30 480 7 0 0 16 9 32 27 0;
  Timing 50 (Some "720x480i120hz"%string) None 0 31469 119880 54000 1716 276 38 124 114 1440 525 22 4 3 15 480 4 0 0 4 3 8 9 0;
  Timing 51 (Some "720x480i120hz"%string) None 0 31469 119880 54000 1716 276 38 124 114 1440 525 22 4 3 15 480 4 0 0 16 9 32 27 0;
  Timing 52 (Some "720x576p200hz"%string) None 1 125000 200000 108000 864 144 12 64 68 720 625 49 5 5 39 576 1 0 0 4 3 16 15 0;
  Timing 53 (Some "720x576p200hz"%string) None 1 125000 200000 108000 864 144 12 64 68 720 625 49 5 5 39 576 1 0 0 16 9 64 45 0;
  Timing 54 (Some "720x576i200hz"%string) None 0 62500 200000 108000 1728 288 24 126 138 1440 625 24 2 3 19 576 1 0 0 4 3 16 15 0;
  Timing 55 (Some "720x576i200hz"%string) None 0 62500 200000 108000 1728 288 24 126 138 1440 625 24 2 3 19 576 1 0 0 16 9 64 45 0;
  Timing 56 (Some "720x480p240hz"%string) None 1 125874 239760 108000 858 138 16 62 60 720 525 45 9 6 30 480 7 0 0 4 3 8 9 0;
  Timing 57 (Some "720x480p240hz"%string) None 1 125874 239760 108000 858 138 16 62 60 720 525 45 9 6 30 480 7 0 0 16 9 32 27 0;
  Timing 58 (Some "720x480i240hz"%string) None 0 62937 239760 108000 1716 276 38 124 114 1440 525 22 4 3 15 480 4 0 0 4 3 8 9 0;
  Timing 59 (Some "720x480i240hz"%string) None 0 62937 239760 108000 1716 276 38 124 114 1440 525 22 4 3 15 480 4 0 0 16 9 32 27 0;
  Timing 60 (Some "1280x720p24hz"%string) (Some "720p24hz"%string) 1 18000 24000 59400 3300 2020 1760 40 220 1280 750 30 5 5 20 720 1 1 1 16 9 1 1 0;
  Timing 61 (Some "1280x720p25hz"%string) (Some "720p25hz"%string) 1 18750 25000 74250 3960 2680 2420 40 220 1280 750 30 5 5 20 720 1 1 1 16 9 1 1 0;
  Timing 62 (Some "1280x720p30hz"%string) (Some "720p30hz"%string) 1 22500 30000 74250 3300 2020 1760 40 220 1280 750 30 5 5 20 720 1 1 1 16 9 1 1 0;
  Timing 63 (Some "1920x1080p120hz"%string) None 1 135000 120000 297000 2200 280 88 44 148 1920 1125 45 4 5 36 1080 1 1 1 16 9 1 1 0;
  Timing 64 (Some "1920x1080p100hz"%string) None 1 112500 100000 297000 2640 720 528 44 148 1920 1125 45 4 5 36 1080 1 1 1 16 9 1 1 0;
  Timing 65 (Some "1280x720p24hz"%string) None 1 18000 24000 59400 3300 2020 1760 40 220 1280 750 30 5 5 20 720 1 1 1 64 27 4 3 0;
  Timing 66 (Some "1280x720p25hz"%string) None 1 18750 25000 74250 3960 2680 2420 40 220 1280 750 30 5 5 20 720 1 1 1 64 27 4 3 0;
  Timing 67 (Some "1280x720p30hz"%string) None 1 22500 30000 74250 3300 2020 1760 40 220 1280 750 30 5 5 20 720 1 1 1 64 27 4 3 0;
  Timing 68 (Some "1280x720p50hz"%string) None 1 37500 50000 74250 1980 700 440 40 220 1280 750 30 5 5 20 720 1 1 1 64 27 4 3 0;
  Timing 69 (Some "1280x720p60hz"%string) None 1 45000 60000 74250 1650 370 110 40 220 1280 750 30 5 5 20 720 1 1 1 64 27 4 3 0;
  Timing 70 (Some "1280x720p100hz"%string) None 1 75000 100000 148500 1980 700 440 40 220 1280 750 30 5 5 20 720 1 1 1 64 27 4 3 0;
  Timing 71 (Some "1280x720p120hz"%string) None 1 90000 120000 148500 1650 370 110 40 220 1280 750 30 5 5 20 720 1 1 1 64 27 4 3 0;
  Timing 72 (Some "1920x1080p24hz"%string) None 1 27000 24000 74250 2750 830 638 44 148 1920 1125 45 4 5 36 1080 1 1 1 64 27 4 3 0;
  Timing 73 (Some "1920x1080p25hz"%string) None 1 28125 25000 74250 2640 720 528 44 148 1920 1125 45 4 5 36 1080 1 1 1 64 27 4 3 0;
  Timing 74 (Some "1920x1080p30hz"%string) None 1 33750 30000 74250 2200 280 88 44 148 1920 1125 45 4 5 36 1080 1 1 1 64 27 4 3 0;
  Timing 75 (Some "1920x1080p50hz"%string) None 1 56250 50000 148500 2640 720 528 44 148 1920 1125 45 4 5 36 1080 1 1 1 64 27 4 3 0;
  Timing 76 (Some "1920x1080p60hz"%string) None 1 67500 60000 148500 2200 280 88 44 148 1920 1125 45 4 5 36 1080 1 1 1 64 27 4 3 0;
  Timing 77 (Some "1920x1080p100hz"%string) None 1 112500 100000 297000 2640 720 528 44 148 1920 1125 45 4 5 36 1080 1 1 1 64 27 4 3 0;
  Timing 78 (Some "1920x1080p120hz"%string) None 1 135000 120000 297000 2200 280 88 44 148 1920 1125 45 4 5 36 1080 1 1 1 64 27 4 3 0;
  Timing 79 (Some "1680x720p24hz"%string) None 1 18000 24000 59400 3300 1620 1360 40 220 1680 750 30 5 5 20 720 1 1 1 64 27 64 63 0;
  Timing 80 (Some "1680x720p25hz"%string) None 1 18750 25000 59400 3168 1488 1228 40 220 1680 750 30 5 5 20 720 1 1 1 64 27 64 63 0;
  Timing 81 (Some "1680x720p30hz"%string) None 1 22500 30000 59400 2640 960 700 40 220 1680 750 30 5 5 20 720 1 1 1 64 27 64 63 0;
  Timing 82 (Some "1680x720p50hz"%string) None 1 37500 50000 82500 2200 520 260 40 220 1680 750 30 5 5 20 720 1 1 1 64 27 64 63 0;
  Timing 83 (Some "1680x720p60hz"%string) None 1 45000 60000 99000 2200 520 260 40 220 1680 750 30 5 5 20 720 1 1 1 64 27 64 63 0;
  Timing 84 (Some "1680x720p100hz"%string) None 1 82500 100000 165000 2000 320 60 40 220 1680 825 105 5 5 95 720 1 1 1 64 27 64 63 0;
  Timing 85 (Some "1680x720p120hz"%string) None 1 99000 120000 198000 2000 320 60 40 220 1680 825 105 5 5 95 720 1 1 1 64 27 64 63 0;
  Timing 86 (Some "2560x1080p24hz"%string) None 1 26400 24000 99000 3750 1190 998 44 148 2560 1100 20 4 5 11 1080 1 1 1 64 27 1 1 0;
  Timing 87 (Some "2560x1080p25hz"%string) None 1 28125 25000 90000 3200 640 448 44 148 2560 1125 45 4 5 36 1080 1 1 1 64 27 1 1 0;
  Timing 88 (Some "2560x1080p30hz"%string) None 1 33750 30000 118800 3520 960 768 44 148 2560 1125 45 4 5 36 1080 1 1 1 64 27 1 1 0;
  Timing 89 (Some "2560x1080p50hz"%string) None 1 56250 50000 185625 3300 740 548 44 148 2560 1125 45 4 5 36 1080 1 1 1 64 27 1 1 0;
  Timing 90 (Some "2560x1080p60hz"%string) None 1 66000 60000 198000 3000 440 248 44 148 2560 1100 20 4 5 11 1080 1 1 1 64 27 1 1 0;
  Timing 91 (Some "2560x1080p100hz"%string) None 1 125000 100000 371250 2970 410 218 44 148 2560 1250 170 4 5 161 1080 1 1 1 64 27 1 1 0;
  Timing 92 (Some "2560x1080p120hz"%string) None 1 150000 120000 495000 3300 740 548 44 148 2560 1250 170 4 5 161 1080 1 1 1 64 27 1 1 0;
  Timing 93 (Some "3840x2160p24hz"%string) (Some "2160p24hz"%string) 1 54000 24000 297000 5500 1660 1276 88 296 3840 2250 90 8 10 72 2160 1 1 1 16 9 1 1 0;
  Timing 94 (Some "3840x2160p25hz"%string) (Some "2160p25hz"%string) 1 56250 25000 297000 5280 1440 1056 88 296 3840 2250 90 8 10 72 2160 1 1 1 16 9 1 1 0;
  Timing 95 (Some "3840x2160p30hz"%string) (Some "2160p30hz"%string) 1 67500 30000 297000 4400 560 176 88 296 3840 2250 90 8 10 72 2160 1 1 1 16 9 1 1 0;
  Timing 96 (Some "3840x2160p50hz"%string) (Some "2160p50hz"%string) 1 112500 50000 594000 5280 1440 1056 88 296 3840 2250 90 8 10 72 2160 1 1 1 16 9 1 1 0;
  Timing 97 (Some "3840x2160p60hz"%string) (Some "2160p60hz"%string) 1 135000 60000 594000 4400 560 176 88 296 3840 2250 90 8 10 72 2160 1 1 1 16 9 1 1 0;
  Timing 98 (Some "4096x2160p24hz"%string) (Some "smpte24hz"%string) 1 54000 24000 297000 5500 1404 1020 88 296 4096 2250 90 8 10 72 2160 1 1 1 256 135 1 1 0;
  Timing 99 (Some "4096x2160p25hz"%string) (Some "smpte25hz"%string) 1 56250 25000 297000 5280 1184 968 88 128 4096 2250 90 8 10 72 2160 1 1 1 256 135 1 1 0;
  Timing 100 (Some "4096x2160p30hz"%string) (Some "smpte30hz"%string) 1 67500 30000 297000 4400 304 88 88 128 4096 2250 90 8 10 72 2160 1 1 1 256 135 1 1 0;
  Timing 101 (Some "4096x2160p50hz"%string) (Some "smpte50hz"%string) 1 112500 50000 594000 5280 1184 968 88 128 4096 2250 90 8 10 72 2160 1 1 1 256 135 1 1 0;
  Timing 102 (Some "4096x2160p60hz"%string) (Some "smpte60hz"%string) 1 135000 60000 594000 4400 304 88 88 128 4096 2250 90 8 10 72 2160 1 1 1 256 135 1 1 0;
  Timing 103 (Some "3840x2160p24hz"%string) None 1 54000 24000 297000 5500 1660 1276 88 296 3840 2250 90 8 10 72 2160 1 1 1 64 27 4 3 0;
  Timing 104 (Some "3840x2160p25hz"%string) None 1 56250 25000 297000 5280 1440 1056 88 296 3840 2250 90 8 10 72 2160 1 1 1 64 27 4 3 0;
  Timing 105 (Some "3840x2160p30hz"%string) None 1 67500 30000 297000 4400 560 176 88 296 3840 2250 90 8 10 72 2160 1 1 1 64 27 4 3 0;
  Timing 106 (Some "3840x2160p50hz"%string) None 1 112500 50000 594000 5280 1440 1056 88 296 3840 2250 90 8 10 72 2160 1 1 1 64 27 4 3 0;
  Timing 107 (Some "3840x2160p60hz"%string) None 1 135000 60000 594000 4400 560 176 88 296 3840 2250 90 8 10 72 2160 1 1 1 64 27 4 3 0;
  Timing 108 (Some "1280x720p48hz"%string) (Some "720p48hz"%string) 1 36000 48000 90000 2500 1220 960 40 220 1280 750 30 5 5 20 720 1 1 1 16 9 1 1 0;
  Timing 109 (Some "1280x720p48hz"%string) None 1 36000 48000 90000 2500 1220 960 40 220 1280 750 30 5 5 20 720 1 1 1 64 27 4 3 0;
  Timing 110 (Some "1680x720p48hz"%string) None 1 36000 48000 99000 2750 1070 810 40 220 1680 750 30 5 5 20 720 1 1 1 64 27 64 63 0;
  Timing 111 (Some "1920x1080p48hz"%string) (Some "1080p48hz"%string) 1 54000 48000 148500 2750 830 638 44 148 1920 1125 45 4 5 36 1080 1 1 1 16 9 1 1 0;
  Timing 112 (Some "1920x1080p48hz"%string) None 1 54000 48000 148500 2750 830 638 44 148 1920 1125 45 4 5 36 1080 1 1 1 64 27 4 3 0;
  Timing 113 (Some "2560x1080p48hz"%string) None 1 52800 48000 198000 3750 1190 998 44 148 2560 1100 20 4 5 11 1080 1 1 1 64 27 1 1 0;
  Timing 114 (Some "3840x2160p48hz"%string) (Some "2160p48hz"%string) 1 108000 48000 594000 5500 1660 1276 88 296 3840 2250 90 8 10 72 2160 1 1 1 16 9 1 1 0;
  Timing 115 (Some "4096x2160p48hz"%string) (Some "smpte48hz"%string) 1 108000 48000 594000 5500 1404 1020 88 296 4096 2250 90 8 10 72 2160 1 1 1 256 135 1 1 0;
  Timing 116 (Some "3840x2160p48hz"%string) None 1 108000 48000 594000 5500 1660 1276 88 296 3840 2250 90 8 10 72 2160 1 1 1 64 27 4 3 0;
  Timing 117 (Some "3840x2160p100hz"%string) None 1 225000 100000 1188000 5280 1440 1056 88 296 3840 2250 90 8 10 72 2160 1 1 1 16 9 1 1 0;
  Timing 118 (Some "3840x2160p120hz"%string) None 1 270000 120000 1188000 4400 560 176 88 296 3840 2250 90 8 10 72 2160 1 1 1 16 9 1 1 0;
  Timing 119 (Some "3840x2160p100hz"%string) None 1 225000 100000 1188000 5280 1440 1056 88 296 3840 2250 90 8 10 72 2160 1 1 1 64 27 4 3 0;
  Timing 120 (Some "3840x2160p120hz"%string) None 1 270000 120000 1188000 4400 560 176 88 296 3840 2250 90 8 10 72 2160 1 1 1 64 27 4 3 0;
  Timing 121 (Some "5120x2160p24hz"%string) None 1 52800 24000 396000 7500 2380 1996 88 296 5120 2200 40 8 10 22 2160 1 1 1 64 27 1 1 0;
  Timing 122 (Some "5120x2160p25hz"%string) None 1 55000 25000 396000 7200 2080 1696 88 296 5120 2200 40 8 10 22 2160 1 1 1 64 27 1 1 0;
  Timing 123 (Some "5120x2160p30hz"%string) None 1 66000 30000 396000 6000 880 664 88 128 5120 2200 40 8 10 22 2160 1 1 1 64 27 1 1 0;
  Timing 124 (Some "5120x2160p48hz"%string) None 1 118800 48000 742500 6250 1130 746 88 296 5120 2475 315 8 10 297 2160 1 1 1 64 27 1 1 0;
  Timing 125 (Some "5120x2160p50hz"%string) None 1 112500 50000 742500 6600 1480 1096 88 296 5120 2250 90 8 10 72 2160 1 1 1 64 27 1 1 0;
  Timing 126 (Some "5120x2160p60hz"%string) None 1 135000 60000 742500 5500 380 164 88 128 5120 2250 90 8 10 72 2160 1 1 1 64 27 1 1 0;
  Timing 127 (Some "5120x2160p100hz"%string) None 1 225000 100000 1485000 6600 1480 1096 88 296 5120 2250 90 8 10 72 2160 1 1 1 64 27 1 1 0
].

Definition edid_cea_modes_193 : list hdmi_timing := [
  Timing 193 (Some "5120x2160p120hz"%string) None 1 270000 120000 1485000 5500 380 164 88 128 5120 2250 90 8 10 72 2160 1 1 1 64 27 1 1 0;
  Timing 194 (Some "7680x4320p24hz"%string) None 1 108000 24000 1188000 11000 3320 2552 176 592 7680 4500 180 16 20 144 4320 1 1 1 16 9 1 1 0;
  Timing 195 (Some "7680x4320p25hz"%string) None 1 110000 25000 1188000 10800 3120 2352 176 592 7680 4400 80 16 20 44 4320 1 1 1 16 9 1 1 0;
  Timing 196 (Some "7680x4320p30hz"%string) None 1 132000 30000 1188000 9000 1320 552 176 592 7680 4400 80 16 20 44 4320 1 1 1 16 9 1 1 0;
  Timing 197 (Some "7680x4320p48hz"%string) None 1 216000 48000 2376000 11000 3320 2552 176 592 7680 4500 180 16 20 144 4320 1 1 1 16 9 1 1 0;
  Timing 198 (Some "7680x4320p50hz"%string) None 1 220000 50000 2376000 10800 3120 2352 176 592 7680 4400 80 16 20 44 4320 1 1 1 16 9 1 1 0;
  Timing 199 (Some "7680x4320p60hz"%string) None 1 264000 60000 2376000 9000 1320 552 176 592 7680 4400 80 16 20 44 4320 1 1 1 16 9 1 1 0;
  Timing 200 (Some "7680x4320p100hz"%string) None 1 450000 100000 4752000 10560 2880 2112 176 592 7680 4500 180 16 20 144 4320 1 1 1 16 9 1 1 0;
  Timing 201 (Some "7680x4320p120hz"%string) None 1 540000 120000 4752000 8800 1120 352 176 592 7680 4500 180 16 20 144 4320 1 1 1 16 9 1 1 0;
  Timing 202 (Some "7680x4320p24hz"%string) None 1 108000 24000 1188000 11000 3320 2552 176 592 7680 4500 180 16 20 144 4320 1 1 1 64 27 4 3 0;
  Timing 203 (Some "7680x4320p25hz"%string) None 1 110000 25000 1188000 10800 3120 2352 176 592 7680 4400 80 16 20 44 4320 1 1 1 64 27 4 3 0;
  Timing 204 (Some "7680x4320p30hz"%string) None 1 132000 30000 1188000 9000 1320 552 176 592 7680 4400 80 16 20 44 4320 1 1 1 64 27 4 3 0;
  Timing 205 (Some "7680x4320p48hz"%string) None 1 216000 48000 2376000 11000 3320 2552 176 592 7680 4500 180 16 20 144 4320 1 1 1 64 27 4 3 0;
  Timing 206 (Some "7680x4320p50hz"%string) None 1 220000 50000 2376000 10800 3120 2352 176 592 7680 4400 80 16 20 44 4320 1 1 1 64 27 4 3 0;
  Timing 207 (Some "7680x4320p60hz"%string) None 1 264000 60000 2376000 9000 1320 552 176 592 7680 4400 80 16 20 44 4320 1 1 1 64 27 4 3 0;
  Timing 208 (Some "7680x4320p100hz"%string) None 1 450000 100000 4752000 10560 2880 2112 176 592 7680 4500 180 16 20 144 4320 1 1 1 64 27 4 3 0;
  Timing 209 (Some "7680x4320p120hz"%string) None 1 540000 120000 4752000 8800 1120 352 176 592 7680 4500 180 16 20 144 4320 1 1 1 64 27 4 3 0;
  Timing 210 (Some "10240x4320p24hz"%string) None 1 118800 24000 1485000 12500 2260 1492 176 592 10240 4950 630 16 20 594 4320 1 1 1 64 27 1 1 0;
  Timing 211 (Some "10240x4320p25hz"%string) None 1 110000 25000 1485000 13500 3260 2492 176 592 10240 4400 80 16 20 44 4320 1 1 1 64 27 1 1 0;
  Timing 212 (Some "10240x4320p30hz"%string) None 1 135000 30000 1485000 11000 760 288 176 296 10240 4500 180 16 20 144 4320 1 1 1 64 27 1 1 0;
  Timing 213 (Some "10240x4320p48hz"%string) None 1 237600 48000 2970000 12500 2260 1492 176 592 10240 4950 630 16 20 594 4320 1 1 1 64 27 1 1 0;
  Timing 214 (Some "10240x4320p50hz"%string) None 1 220000 50000 2970000 13500 3260 2492 176 592 10240 4400 80 16 20 44 4320 1 1 1 64 27 1 1 0;
  Timing 215 (Some "10240x4320p60hz"%string) None 1 270000 60000 2970000 11000 760 288 176 296 10240 4500 180 16 20 144 4320 1 1 1 64 27 1 1 0;
  Timing 216 (Some "10240x4320p100hz"%string) None 1 450000 100000 5940000 13200 2960 2192 176 592 10240 4500 180 16 20 144 4320 1 1 1 64 27 1 1 0;
  Timing 217 (Some "10240x4320p120hz"%string) None 1 540000 120000 5940000 11000 760 288 176 296 10240 4500 180 16 20 144 4320 1 1 1 64 27 1 1 0;
  Timing 218 (Some "4096x2160p100hz"%string) (Some "smpte100hz"%string) 1 225000 100000 1188000 5280 1184 800 88 296 4096 2250 90 8 10 72 2160 1 1 1 256 135 1 1 0;
  Timing 219 (Some "4096x2160p120hz"%string) (Some "smpte120hz"%string) 1 270000 120000 1188000 4400 304 88 88 128 4096 2250 90 8 10 72 2160 1 1 1 256 135 1 1 0
].

(** The modes in front of the one that is filled in. *)
Definition edid_odroid : list hdmi_timing := [
  Timing 250 (Some "1920x720p60hz"%string) None 1 44722 59855 111750 2496 576 96 192 288 1920 748 28 3 10 15 720 1 1 1 8 3 1 1 0;
  Timing 251 (Some "800x480p60hz"%string) None 1 32102 60000 33900 1056 256 44 88 124 800 535 55 3 6 46 480 1 1 1 5 3 1 1 0;
  Timing 252 (Some "1024x600p60hz"%string) None 1 38095 59993 51200 1344 320 8 144 168 1024 635 35 3 6 26 600 1 1 1 17 10 1 1 0
].

Definition vesa_modes : list hdmi_timing := [
  Timing 768 (Some "640x480p60hzV"%string) None 1 26218 59940 25175 800 160 16 96 48 640 525 45 10 2 33 480 1 0 0 4 3 1 1 0;
  Timing 769 (Some "800x480p60hzV"%string) None 1 30000 60000 29760 992 192 24 72 96 800 500 20 3 7 10 480 1 1 1 4 3 0 0 0;
  Timing 770 (Some "800x600p60hzV"%string) None 1 37879 60317 66666 1056 256 40 128 88 800 628 28 1 4 23 600 1 1 1 4 3 0 0 0;
  Timing 771 (Some "852x480p60hzV"%string) None 1 31900 59960 30240 948 96 40 16 40 852 532 52 10 2 40 480 1 1 1 213 120 0 0 0;
  Timing 772 (Some "854x480p60hzV"%string) None 1 31830 59950 30240 950 96 40 16 40 854 531 51 10 2 39 480 1 1 1 427 240 0 0 0;
  Timing 773 (Some "1024x600p60hzV"%string) None 1 38280 60000 51448 1344 320 24 136 160 1024 638 38 3 6 29 600 1 1 1 17 10 0 0 0;
  Timing 774 (Some "1024x768p60hzV"%string) None 1 48360 60004 79500 1344 320 24 136 160 1024 806 38 3 6 29 768 1 1 1 4 3 0 0 0;
  Timing 775 (Some "1152x864p75hzV"%string) None 1 67500 75000 108000 1600 448 64 128 256 1152 900 36 1 3 32 864 0 1 1 4 3 0 0 0;
  Timing 776 (Some "1280x768p60hzV"%string) None 1 47776 59870 79500 1664 384 64 128 192 1280 798 30 3 7 20 768 0 1 1 5 3 0 0 0;
  Timing 777 (Some "1280x800p60hzV"%string) None 1 49380 59910 83500 1440 160 48 32 80 1280 823 23 3 6 14 800 1 1 1 8 5 0 0 0;
  Timing 778 (Some "1280x960p60hzV"%string) None 1 60000 60000 108000 1800 520 96 112 312 1280 1000 40 1 3 36 960 0 1 1 4 3 0 0 0;
  Timing 779 (Some "1280x1024p60hzV"%string) None 1 63981 60020 108000 1688 408 48 112 248 1280 1066 42 1 3 38 1024 1 1 1 5 4 0 0 0;
  Timing 780 (Some "1360x768p60hzV"%string) None 1 47700 60015 85500 1792 432 64 112 256 1360 795 27 3 6 18 768 1 1 1 16 9 0 0 0;
  Timing 781 (Some "1366x768p60hzV"%string) None 1 47880 59790 85500 1792 426 70 143 213 1366 798 30 3 3 24 768 1 1 1 16 9 0 0 0;
  Timing 782 (Some "1400x1050p60hzV"%string) None 1 65317 59978 121750 1862 464 88 144 232 1400 1089 39 3 4 32 1050 1 1 1 4 3 0 0 0;
  Timing 783 (Some "1440x900p60hzV"%string) None 1 56040 59887 106500 1904 464 80 152 232 1440 934 34 3 6 25 900 1 1 1 8 5 0 0 0;
  Timing 784 (Some "1440x2560p60hzV"%string) None 1 155760 59999 244850 1572 132 64 4 64 1440 2596 36 16 4 16 2560 1 1 1 16 9 0 0 0;
  Timing 785 (Some "1600x900p60hzV"%string) None 1 60000 60000 108000 1800 200 24 80 96 1600 1000 100 1 3 96 900 1 1 1 16 9 0 0 0;
  Timing 786 (Some "1600x1200p60hzV"%string) None 1 75000 60000 162000 2160 560 64 192 304 1600 1250 50 1 3 46 1200 1 1 1 4 3 0 0 0;
  Timing 787 (Some "1680x1050p60hzV"%string) None 1 65290 59954 146250 2240 560 104 176 280 1680 1089 39 3 6 30 1050 1 1 1 8 5 0 0 0;
  Timing 788 (Some "1920x1200p60hzV"%string) None 1 74700 59885 193250 2592 672 136 200 336 1920 1245 45 3 6 36 1200 1 1 1 8 5 0 0 0;
  Timing 789 (Some "2048x1080p24hzV"%string) None 1 27000 24000 74250 2750 702 148 44 510 2048 1125 45 4 5 36 1080 1 1 1 256 135 0 0 0;
  Timing 790 (Some "2160x1200p90hzV"%string) None 1 109080 90000 268550 2462 302 190 32 80 2160 1212 12 6 3 3 1200 1 1 1 9 5 0 0 0;
  Timing 791 (Some "2560x1600p60hzV"%string) None 1 99458 59987 348500 3504 944 192 280 472 2560 1658 58 3 6 49 1600 1 1 1 8 5 0 0 0;
  Timing 792 (Some "3440x1440p60hzV"%string) None 1 88819 59973 319750 3600 160 48 32 80 3440 1481 41 3 10 28 1440 1 1 1 43 18 0 0 0;
  Timing 793 (Some "2400x1200p90hzV"%string) None 1 112812 90106 280000 2482 82 20 30 32 2400 1252 52 17 5 30 1200 1 1 1 2 1 0 0 0;
  Timing 794 (Some "3840x1080p60hzV"%string) None 1 67500 60000 297000 4400 560 176 88 296 3840 1125 45 4 5 36 1080 1 1 1 32 6 0 0 0
].

Section Mode.
Context (odroid : bool) (custom : hdmi_timing).

(** INVALID_HDMI_TIMING. *)
Definition invalid_timing : hdmi_timing :=
  Timing 0 (Some "invalid"%string) None 0 0 0 0 0 0 0 0 0 0 0 0 0 0 0 0 0 0 0 0 0 0 0 0.

Definition all_timings : list hdmi_timing :=
  edid_cea_modes_0 ++ edid_cea_modes_193 ++ (if odroid then edid_odroid ++ [custom] else []) ++ vesa_modes.

(** The index counts through the tables in turn; none for NULL. *)
Fixpoint index_from (l : list (list hdmi_timing)) (idx : Z) : option hdmi_timing :=
  match l with
  | [] => None
  | tab :: l => if Z.of_nat (List.length tab) <=? idx then index_from l (idx - Z.of_nat (List.length tab)) else tab !! Z.to_nat idx
  end.
Definition hdmitx_mode_index_to_hdmi_timing (idx : Z) : option hdmi_timing :=
  index_from (edid_cea_modes_0 :: edid_cea_modes_193 :: (if odroid then [edid_odroid ++ [custom]] else []) ++ [vesa_modes]) idx.

Definition vic_ranges : list (Z * Z * list hdmi_timing) :=
  (0, 127, edid_cea_modes_0) :: (193, 219, edid_cea_modes_193) ::
  (if odroid then [(250, 253, edid_odroid ++ [custom])] else []) ++ [(HDMITX_VESA_OFFSET, 794, vesa_modes)].
Fixpoint vic_from (l : list (Z * Z * list hdmi_timing)) (v : Z) : option hdmi_timing :=
  match l with
  | [] => None
  | (start, end_, tab) :: l => if (start <=? v) && (v <=? end_) then tab !! Z.to_nat (v - start) else vic_from l v
  end.
Definition hdmitx_mode_vic_to_hdmi_timing (v : Z) : option hdmi_timing := vic_from vic_ranges v.

(** The loops over all timings stop at the first match. *)
Definition dtd_matches (t : dtd) (tm : hdmi_timing) : bool :=
  (Z.abs (s32 (u32 (pixel_freq tm / 10 - d_pixel_clock t))) <=? (d_pixel_clock t + 1000) / 1000) &&
  (d_h_active t =? h_active tm) && (d_h_blank t =? h_blank tm) && (d_v_active t =? v_active tm) && (d_v_blank t =? v_blank tm) &&
  (d_h_sync_offset t =? h_front tm) && (d_h_sync t =? h_sync tm) && (d_v_sync_offset t =? v_front tm) && (d_v_sync t =? v_sync tm).
Definition set_v_active (t : dtd) (x : Z) : dtd :=
  Dtd (d_pixel_clock t) (d_h_active t) (d_h_blank t) (u16 x) (d_v_blank t) (d_h_sync_offset t) (d_h_sync t) (d_v_sync_offset t)
    (d_v_sync t) (d_h_image_size t) (d_v_image_size t) (d_flags t) (d_vic t).
(** The descriptor is changed in place: the lines of an interlaced one are
    doubled. *)
Definition hdmitx_mode_match_dtd_timing (t : dtd) : dtd * hdmi_timing :=
  let t := if d_flags t >> 7 =? 1 then set_v_active t (d_v_active t * 2) else t in
  (t, default invalid_timing (List.find (dtd_matches t) all_timings)).

(** DIV_ROUND_CLOSEST_ULL *)
Definition div_round (x d : Z) : Z := u64 (x + d / 2) / d.
Definition hdmi_timing_vrefresh (t : hdmi_timing) : Z :=
  if (h_total t =? 0) || (v_total t =? 0) then 0
  else
    let num := pixel_freq t in
    let den := u32 (h_total t * v_total t) in
    let num := if pi_mode t =? 0 then u32 (num * 2) else num in
    s32 (div_round (num * 1000000) den).

Definition vesa_matches (t : vesa_standard_timing) (tm : hdmi_timing) : bool :=
  (s_hactive t =? h_active tm) && (s_vactive t =? v_active tm) &&
  ((truthy (s_vsync t) && (s_vsync t =? u32 (div_round (u64 (hdmi_timing_vrefresh tm)) 1000))) ||
   (truthy (s_hblank t) && (s_hblank t =? h_blank tm) && truthy (s_vblank t) && (s_vblank t =? v_blank tm) &&
    truthy (s_tmds_clk t) && (s_tmds_clk t =? pixel_freq tm / 10))).
Definition hdmitx_mode_match_vesa_timing (t : vesa_standard_timing) : hdmi_timing :=
  default invalid_timing (List.find (vesa_matches t) vesa_modes).

(** strncmp over the length of the name of the timing: a prefix will do. *)
Definition name_matches (nm : string) (tm : hdmi_timing) : bool :=
  let pre o := match o with Some s => String.prefix s nm | None => false end in
  pre (sname tm) || pre (name tm).
Definition hdmitx_mode_match_timing_name (nm : string) : hdmi_timing :=
  default invalid_timing (List.find (name_matches nm) all_timings).
Definition hdmitx_mode_get_timing_name (v : Z) : option string :=
  let timing := default invalid_timing (hdmitx_mode_vic_to_hdmi_timing v) in
  match sname timing with Some s => Some s | None => name timing end.

Definition hdmitx_mode_have_alternate_clock (t : hdmi_timing) : bool :=
  if (vic t =? HDMI_0_UNKNOWN) || (HDMI_CEA_VIC_END odroid <=? vic t) then false
  else Z.rem (hdmi_timing_vrefresh t) 6 =? 0.

Definition set_freqs (t : hdmi_timing) (pf hf vf : Z) : hdmi_timing :=
  Timing (vic t) (name t) (sname t) (pi_mode t) hf vf pf (h_total t) (h_blank t) (h_front t) (h_sync t) (h_back t) (h_active t)
    (v_total t) (v_blank t) (v_front t) (v_sync t) (v_back t) (v_active t) (v_sync_ln t) (h_pol t) (v_pol t) (h_pict t) (v_pict t)
    (h_pixel t) (v_pixel t) (pixel_repetition_factor t).
(** The timing, and the new clock, 0 when nothing changes, or -EINVAL. *)
Definition hdmitx_mode_update_timing (t : hdmi_timing) (to_frac_mode : bool) : hdmi_timing * Z :=
  let frac_timing := negb (v_freq t mod 1000 =? 0) in
  if negb (hdmitx_mode_have_alternate_clock t) then (t, - EINVAL)
  else
    let alternate_clock :=
      if negb frac_timing && to_frac_mode then u32 (div_round (pixel_freq t * 1000) 1001)
      else if frac_timing && negb to_frac_mode then u32 (div_round (pixel_freq t * 1001) 1000)
      else 0 in
    if truthy alternate_clock then
      let t := set_freqs t alternate_clock (h_freq t) (v_freq t) in
      let t := set_freqs t (pixel_freq t) (h_freq t) (u32 (hdmi_timing_vrefresh t)) in
      let t := set_freqs t (pixel_freq t) (u32 (div_round (pixel_freq t * 1000) (h_total t))) (v_freq t) in
      (t, s32 alternate_clock)
    else (t, 0).

(** hdmitx_check_valid.c *)
Definition hdmitx_mode_validate_y420_vic (v : Z) : bool :=
  match hdmitx_mode_vic_to_hdmi_timing v with
  | None => false
  | Some timing => ((2160 <=? v_active timing) && (30000 <? v_freq timing)) || (4320 <=? v_active timing)
  end.
End Mode.
End HdmiMode.
