(* ===== verification/Edid.v ===== *)
(** * EDID of an HDMI sink (hdmitx_common/hdmitx_edid_parse.c)

    What a display says of itself: a block of 128 bytes with a checksum and up
    to seven extension blocks, each with a collection of data blocks and
    detailed timing descriptors.  The bytes come from the other end of the
    cable.  Parsing them fills a record of capabilities, rx_cap.

    The scalar members of rx_cap are a function from their names ([field]),
    its integer arrays one from theirs ([array]); a name with a Boolean belongs
    to hdr_info and dv_info, or to their second copies.  A pointer into the
    EDID is the list of the bytes from there to the end of the buffer.
    Printing is left out. *)

From S2P Require Import Prelude Mem HdmiMode.
From stdpp Require Import base numbers list.
From Stdlib Require Import ZArith Lia.

Local Open Scope Z_scope.
Local Open Scope cint_scope.

Module Edid.
Import HdmiMode.

(** ** Constants *)

Definition EXTENSION_IFDB_TAG : Z := 0x20.
Definition HDMI_EDID_BLOCK_TYPE_AUDIO : Z := 1.
Definition HDMI_EDID_BLOCK_TYPE_VIDEO : Z := 2.
Definition HDMI_EDID_BLOCK_TYPE_VENDER : Z := 3.
Definition HDMI_EDID_BLOCK_TYPE_SPEAKER : Z := 4.
Definition HDMI_EDID_BLOCK_TYPE_EXTENDED_TAG : Z := 7.
Definition EXTENSION_VENDOR_SPECIFIC : Z := 0x1.
Definition EXTENSION_COLORMETRY_TAG : Z := 0x5.
Definition EXTENSION_DRM_STATIC_TAG : Z := 0x6.
Definition EXTENSION_DRM_DYNAMIC_TAG : Z := 0x7.
Definition TS_103_433_SPEC_TYPE : Z := 0x0002.
Definition ITU_T_H265_SPEC_TYPE : Z := 0x0003.
Definition TYPE_4_HDR_METADATA_TYPE : Z := 0x0004.
Definition EXTENSION_VFPDB_TAG : Z := 0xd.
Definition EXTENSION_Y420_VDB_TAG : Z := 0xe.
Definition EXTENSION_Y420_CMDB_TAG : Z := 0xf.
Definition EXTENSION_DOLBY_VSADB : Z := 0x11.
Definition EXTENSION_SCDB_EXT_TAG : Z := 0x79.
Definition EXTENSION_SBTM_EXT_TAG : Z := 0x7a.
Definition EXTENSION_EEODB_EXT_TAG : Z := 0xe2.
Definition EXTENSION_EEODB_EXT_CODE : Z := 0x78.
Definition TAG_DISPLAY_PRODUCT_NAME_STRING : Z := 0xfc.
Definition TAG_STANDARD_TIMINGS : Z := 0xfa.
Definition TAG_CVT_TIMING_CODES : Z := 0xf8.
Definition TAG_ESTABLISHED_TIMING_III : Z := 0xf7.
(** the two of linux/hdmi.h *)
Definition HDMI_IEEE_OUI : Z := 0x000c03.
Definition HDMI_FORUM_IEEE_OUI : Z := 0xc45dd8.
Definition DV_IEEE_OUI : Z := 0x00d046.
Definition HDR10_PLUS_IEEE_OUI : Z := 0x90848b.
Definition CUVA_IEEEOUI : Z := 0x047503.
Definition DEFAULT_MAX_TMDS_CLK : Z := 33.
Definition LATENCY_INVALID_UNKNOWN : Z := 0.
Definition LATENCY_NOT_SUPPORT : Z := 0xffff.
Definition EDID_MAX_BLOCK : Z := 8.
Definition VESA_MAX_TIMING : Z := 64.
Definition AUD_MAX_NUM : Z := 60.
Definition Y420CMDB_MAX : Z := 32.
Definition VIC_MAX_NUM : Z := 512.
Definition SVD_VIC_MAX_NUM : Z := 128.
Definition Y420_VIC_MAX_NUM : Z := 32.
Definition VOUTMODE_HDMI : Z := 1.
Definition VOUTMODE_DVI : Z := 2.
(** enum block_type *)
Definition ERROR_LENGTH : Z := 1.
Definition ERROR_VER : Z := 3.
Definition CORRECT : Z := 4.

(** ** Capabilities *)

Inductive dv_field :=
  | block_flag | dv_ieeeoui | ver | dv_length | sup_yuv422_12bit | sup_2160p60hz | sup_1080p120hz | sup_global_dimming
  | Rx | Ry | Gx | Gy | Bx | By | Wx | Wy | tminPQ | tmaxPQ | dm_major_ver | dm_minor_ver | dm_version | tmax_lum
  | colorimetry | tmin_lum | low_latency | sup_backlight_control | backlt_min_luma | Interface | parity | sup_10b_12b_444.

Inductive hdr_field :=
  | hdr_support | static_metadata_type1 | lumi_max | lumi_avg | lumi_min
  | plus_ieeeoui | plus_length | application_version
  | cuva_length | cuva_ieeeoui | system_start_code | version_code | display_max_lum | display_min_lum | monitor_mode_sup | rx_mode_sup.

Inductive sbtm_field :=
  | sbtm_support | max_sbtm_ver | grdm_support | drdm_ind | hgig_cat_drdm_sel | use_hgig_drdm | maxrgb | gamut
  | red_x | red_y | green_x | green_y | blue_x | blue_y | white_x | white_y | min_bright_10 | peak_bright_100
  | p_exp (k : nat) | p_mant (k : nat) | peak_bright_p (k : nat).

Inductive field :=
  | native_Mode | VIC_count | SVD_VIC_count | native_vic | native_vic2 | AUD_count | RxSpeakerAllocation
  | dolby_ieeeoui | dolby_length | dolby_vsadb_ver | spk_center | spk_surround | spk_height | headphone_only | mat_48k_pcm_only
  | ieeeoui | Max_TMDS_Clock1 | hf_ieeeoui | Max_TMDS_Clock2 | colorimetry_data | colorimetry_data2
  | scdc_present | scdc_rr_capable | lte_340mcsc_scramble | dc_y444 | dc_30bit | dc_36bit | dc_48bit
  | dc_30bit_420 | dc_36bit_420 | dc_48bit_420 | max_frl_rate
  | dsc_10bpc | dsc_12bpc | dsc_16bpc | dsc_all_bpp | dsc_native_420 | dsc_1p2 | dsc_max_slices | dsc_max_frl_rate | dsc_total_chunk_bytes
  | cnc0 | cnc1 | cnc2 | cnc3 | qms_tfr_max | qms | mdelta | qms_tfr_min | neg_mvrr | fva | allm | fapa_start_loc | fapa_end_extended
  | vrr_max | vrr_min | manufacture_week | manufacture_year | physical_width | physical_height | edid_version | edid_revision
  | ColorDeepSupport | vLatency | aLatency | i_vLatency | i_aLatency
  | threeD_present | threeD_Multi_present | hdmi_vic_LEN | HDMI_3D_LEN | threeD_Structure_ALL_15_0 | threeD_MASK_15_0
  | phy_a | phy_b | phy_c | phy_d | phy_valid
  | bitmap_valid | bitmap_length | y420_all_vic | preferred_mode | dtd_idx | flag_vfpdb | number_of_dtd
  | ifdb_present | additional_vsif_num | edid_parsing | blk0_chksum | head_err | chksum_err | edid_check
  | Dv (second : bool) (f : dv_field) | Hdr (second : bool) (f : hdr_field) | Sbtm (f : sbtm_field).

Inductive array :=
  | VIC | SVD_VIC | y420_vic | vesa_timing | IDManufacturerName | IDProductCode | IDSerialNumber | ReceiverProductName
  | y420cmdb_bitmap | hdmichecksum | dolby_rawdata | DvRaw (second : bool) | HdrRaw (second : bool) | CuvaRaw (second : bool).

#[export] Instance dv_field_eq_dec : EqDecision dv_field.
Proof. solve_decision. Defined.
#[export] Instance hdr_field_eq_dec : EqDecision hdr_field.
Proof. solve_decision. Defined.
#[export] Instance sbtm_field_eq_dec : EqDecision sbtm_field.
Proof. solve_decision. Defined.
#[export] Instance field_eq_dec : EqDecision field.
Proof. solve_decision. Defined.
#[export] Instance array_eq_dec : EqDecision array.
Proof. solve_decision. Defined.

Definition array_size (a : array) : nat :=
  match a with
  | VIC => 512 | SVD_VIC => 128 | y420_vic => 32 | vesa_timing => 64
  | IDManufacturerName => 4 | IDProductCode => 2 | IDSerialNumber => 4 | ReceiverProductName => 16
  | y420cmdb_bitmap => 32 | hdmichecksum => 11 | dolby_rawdata => 8 | DvRaw _ => 27 | HdrRaw _ => 7 | CuvaRaw _ => 15
  end.

Record rx_audiocap := Aud { audio_format_code : Z; channel_num_max : Z; freq_cc : Z; cc3 : Z }.
Record hdr_dynamic := Dyn { dyn_type : Z; support_flags : Z; of_len : Z; optional_fields : list Z }.
Record threeD := T3d { frame_packing : Z; top_and_bottom : Z; side_by_side : Z }.

(** [lumi]: the calls of rx_set_hdr_lumi, latest first. *)
Record rx_cap := Cap {
  sc : field -> Z;
  ar : array -> list Z;
  RxAudioCap : list rx_audiocap;
  dtds : list dtd;
  support_3d_format : list threeD;
  dynamic_info : bool -> list hdr_dynamic;
  lumi : list (list Z);
}.

Definition put (f : field) (v : Z) (c : rx_cap) : rx_cap :=
  Cap (fun g => if decide (g = f) then v else sc c g) (ar c) (RxAudioCap c) (dtds c) (support_3d_format c) (dynamic_info c) (lumi c).
Definition puts (l : list (field * Z)) (c : rx_cap) : rx_cap := foldl (fun c p => put p.1 p.2 c) c l.
Definition put_array (a : array) (l : list Z) (c : rx_cap) : rx_cap :=
  Cap (sc c) (fun b => if decide (b = a) then l else ar c b) (RxAudioCap c) (dtds c) (support_3d_format c) (dynamic_info c) (lumi c).
Definition aget (a : array) (i : Z) (c : rx_cap) : outcome Z := let* l := rdn (ar c a) i 1 in Done (hd 0 l).
Definition aset (a : array) (i v : Z) (c : rx_cap) : outcome rx_cap := let* l := wr (ar c a) i [v] in Done (put_array a l c).
Definition with_dtds (c : rx_cap) l := Cap (sc c) (ar c) (RxAudioCap c) l (support_3d_format c) (dynamic_info c) (lumi c).
Definition with_aud (c : rx_cap) l := Cap (sc c) (ar c) l (dtds c) (support_3d_format c) (dynamic_info c) (lumi c).
Definition with_3d (c : rx_cap) l := Cap (sc c) (ar c) (RxAudioCap c) (dtds c) l (dynamic_info c) (lumi c).
Definition with_dynamic (c : rx_cap) d := Cap (sc c) (ar c) (RxAudioCap c) (dtds c) (support_3d_format c) d (lumi c).
Definition with_lumi (c : rx_cap) l := Cap (sc c) (ar c) (RxAudioCap c) (dtds c) (support_3d_format c) (dynamic_info c) l.

(** A cell of an array of structures, checked. *)
Definition upd_at {A} (l : list A) (i : Z) (g : A -> A) : outcome (list A) :=
  if i <? 0 then Fault else match l !! Z.to_nat i with None => Fault | Some x => Done (<[Z.to_nat i := g x]> l) end.

(** ** Bytes *)

Definition get (buf : list Z) (i : Z) : outcome Z := let* l := rdn buf i 1 in Done (hd 0 l).
Definition adv (buf : list Z) (i : Z) : list Z := drop (Z.to_nat i) buf.
(** Do the bytes at [i] begin with [l]?  The comparison stops at the first
    that differs. *)
Fixpoint starts (buf : list Z) (i : Z) (l : list Z) : outcome bool :=
  match l with
  | [] => Done true
  | x :: l => let* d := get buf i in if d =? x then starts buf (i + 1) l else Done false
  end.
Definition bit (x i : Z) : Z := (x >> i) .& 1.
Definition has (x i : Z) : bool := truthy (x .& (1 << i)).

(** ** Validity *)

Definition sum (l : list Z) : Z := foldr Z.add 0 l.
Definition block_sum (block : list Z) : outcome Z := let* l := rdn block 0 128 in Done (u32 (sum l)).

Definition header_bytes (buf : list Z) : outcome bool :=
  let* h := rdn buf 0 8 in Done (bool_decide (h = [0; 255; 255; 255; 255; 255; 255; 0])).
Definition hdmitx_edid_header_invalid (check : Z) (buf : list Z) : outcome bool :=
  if truthy (check .& 0x01) then Done false else let* h := header_bytes buf in Done (negb h).

Definition hdmitx_edid_get_cta_block_count (edid : list Z) : outcome Z :=
  let* cnt := get edid 0x7e in
  let* cnt :=
    if truthy cnt then
      let* a := get edid (128 + 4) in
      let* b := get edid (128 + 5) in
      if (a =? EXTENSION_EEODB_EXT_TAG) && (b =? EXTENSION_EEODB_EXT_CODE) then get edid (128 + 6) else Done cnt
    else Done cnt in
  Done (Z.min cnt (EDID_MAX_BLOCK - 1)).
Definition hdmitx_edid_get_block_count (edid : list Z) : outcome Z :=
  let* cnt := hdmitx_edid_get_cta_block_count edid in Done (cnt + 1).

Fixpoint zero_blocks (n : nat) (edid : list Z) : outcome bool :=
  match n with
  | O => Done true
  | S n => let* chksum := block_sum edid in if truthy chksum then Done false else zero_blocks n (adv edid 128)
  end.
Definition hdmitx_edid_is_all_zeros (edid : list Z) : outcome bool :=
  let* cnt := hdmitx_edid_get_block_count edid in zero_blocks (Z.to_nat cnt) edid.

Definition _check_edid_blk_chksum (check : Z) (block : list Z) : outcome bool :=
  if truthy (check .& 0x02) then Done true else let* chksum := block_sum block in Done (chksum .& 0xff =? 0).

Definition _check_base_structure (check : Z) (buf : list Z) : outcome bool :=
  let* ok := if negb (truthy (check .& 0x01)) then header_bytes buf else Done true in
  if ok then _check_edid_blk_chksum check buf else Done false.

Fixpoint ext_blocks_valid (n : nat) (check : Z) (block : list Z) : outcome bool :=
  match n with
  | O => Done true
  | S n =>
      let* ok := if negb (truthy (check .& 0x01)) then let* b := get block 0 in Done (truthy b) else Done true in
      if ok then
        let* ok := _check_edid_blk_chksum check block in
        if ok then ext_blocks_valid n check (adv block 128) else Done false
      else Done false
  end.

Definition hdmitx_edid_check_data_valid (check : Z) (buf : list Z) : outcome bool :=
  let* blk_cnt := hdmitx_edid_get_block_count buf in
  let* ok := _check_base_structure check buf in
  if negb ok then Done false
  else if blk_cnt =? 1 then Done true
  else
    let* ok := if negb (truthy (check .& 0x01)) then let* b := get buf 0x80 in Done ((b =? 0x2) || (b =? 0xf0)) else Done true in
    if ok then ext_blocks_valid (Z.to_nat (blk_cnt - 1)) check (adv buf 128) else Done false.

Fixpoint checksums_ok (n : nat) (check : Z) (buf : list Z) : outcome bool :=
  match n with
  | O => Done true
  | S n => let* ok := _check_edid_blk_chksum check buf in if ok then checksums_ok n check (adv buf 128) else Done false
  end.

(** ** The physical address for CEC *)

(** The data blocks from [i] on: the place of the address, or 0. *)
Fixpoint spa_walk (fuel : nat) (edid : list Z) (i end_ : Z) : outcome Z :=
  match fuel with
  | O => Spin
  | S fuel =>
      let* d := get edid i in
      let tag := d >> 5 in
      let len := d .& 0x1f in
      let* found :=
        if (tag =? 3) && (5 <=? len) && (i + len <=? end_) then
          starts edid (i + 1) [0x03; 0x0c; 0x00]
        else Done false in
      if found then Done (i + 4)
      else
        let i := i + (len + 1) in
        if i <? end_ then spa_walk fuel edid i end_ else Done 0
  end.

Fixpoint spa_blocks (n : nat) (edid : list Z) (block : Z) : outcome Z :=
  match n with
  | O => Done 0
  | S n =>
      let offset := block * 128 in
      let* a := get edid offset in
      let* cea := if a =? 0x02 then let* b := get edid (offset + 1) in Done (b =? 0x03) else Done false in
      if negb cea then spa_blocks n edid (block + 1)
      else
        let* d := get edid (offset + 2) in
        let d := d .& 0x7f in
        if d <=? 4 then spa_blocks n edid (block + 1)
        else
          let* loc := spa_walk 128 edid (offset + 4) (offset + d) in
          if truthy loc then Done loc else spa_blocks n edid (block + 1)
  end.

Definition cec_get_edid_spa_location (edid : list Z) (size : Z) : outcome Z :=
  let blocks := size / 128 in
  if (blocks <? 2) || truthy (size mod 128) then Done 0
  else
    let* ext := get edid 0x7e in
    let blocks := if ext + 1 <? blocks then ext + 1 else blocks in
    spa_blocks (Z.to_nat (blocks - 1)) edid 1.

Definition hdmitx_cec_get_edid_phys_addr (edid : list Z) (size : Z) : outcome Z :=
  let* loc := cec_get_edid_spa_location edid size in
  if loc =? 0 then Done 0xffff
  else
    let* a := get edid loc in
    let* b := get edid (loc + 1) in
    Done ((a << 8) .| b).

Definition hdmitx_cec_phy_addr_parse (c : rx_cap) (edid : list Z) : outcome rx_cap :=
  let* ok := hdmitx_edid_check_data_valid (sc c edid_check) edid in
  if negb ok then Done c
  else
    let* ext := get edid 0x7e in
    if truthy ext then
      let* pa := hdmitx_cec_get_edid_phys_addr edid (128 * (ext + 1)) in
      let c := puts [(phy_a, (pa >> 12) .& 0xf); (phy_b, (pa >> 8) .& 0xf); (phy_c, (pa >> 4) .& 0xf); (phy_d, pa .& 0xf)] c in
      Done (if negb (pa =? 0xffff) then put phy_valid 1 c else c)
    else Done c.

Section Parse.
Context (odroid : bool) (custom : hdmi_timing) (voutmode : Z).

(** ** Lists of modes *)

Fixpoint store_vesa (n : nat) (i v : Z) (c : rx_cap) : outcome rx_cap :=
  match n with
  | O => Done c
  | S n =>
      let* x := aget vesa_timing i c in
      if negb (truthy x) then aset vesa_timing i v c
      else if x =? v then Done c
      else store_vesa n (i + 1) v c
  end.
Definition store_vesa_idx (c : rx_cap) (v : Z) : outcome rx_cap := store_vesa (Z.to_nat VESA_MAX_TIMING) 0 v c.

Definition store_cea_idx (c : rx_cap) (v : Z) : outcome rx_cap :=
  let already := existsb (Z.eqb v) (take (Z.to_nat (Z.min VIC_MAX_NUM (sc c VIC_count))) (ar c VIC)) in
  if negb already then
    let* c := aset VIC (sc c VIC_count) v c in
    Done (put VIC_count (u32 (sc c VIC_count + 1)) c)
  else Done c.

Fixpoint first_free (n : nat) (i v : Z) (c : rx_cap) : outcome rx_cap :=
  match n with
  | O => Done c
  | S n => let* x := aget y420_vic i c in if x =? 0 then aset y420_vic i v c else first_free n (i + 1) v c
  end.
Definition store_y420_idx (c : rx_cap) (v : Z) : outcome rx_cap :=
  if existsb (Z.eqb v) (ar c y420_vic) then Done c else first_free (Z.to_nat Y420_VIC_MAX_NUM) 0 v c.

(** ** The base block *)

Definition edid_parsing_id_manufacturer_name (c : rx_cap) (data : list Z) : outcome rx_cap :=
  let* d0 := get data 0 in
  let* d1 := get data 1 in
  let brand := [d0 >> 2; ((d0 .& 0x3) << 3) + (d1 >> 5); d1 .& 0x1f] in
  if existsb (fun x => (26 <? x) || (x =? 0)) brand then Done c
  else let* l := wr (ar c IDManufacturerName) 0 ((fun x => 65 + (x - 1)) <$> brand) in Done (put_array IDManufacturerName l c).

Definition edid_parsing_id_product_code (c : rx_cap) (data : list Z) : outcome rx_cap :=
  let* d1 := get data 1 in
  let* d0 := get data 0 in
  let* l := wr (ar c IDProductCode) 0 [d1; d0] in Done (put_array IDProductCode l c).

Definition edid_parsing_id_serial_number (c : rx_cap) (data : list Z) : outcome rx_cap :=
  let* d := rdn data 0 4 in
  let* l := wr (ar c IDSerialNumber) 0 (rev d) in Done (put_array IDSerialNumber l c).

(** Modes announced by single bits: byte, bit, number. *)
Fixpoint store_bits (l : list (Z * Z * Z)) (c : rx_cap) (data : list Z) : outcome rx_cap :=
  match l with
  | [] => Done c
  | (byte, b, v) :: l =>
      let* d := get data byte in
      let* c := if has d b then store_vesa_idx c v else Done c in
      store_bits l c data
  end.
Definition HDMIV (k : Z) : Z := HDMITX_VESA_OFFSET + k.
Definition edid_established_timings (c : rx_cap) (data : list Z) : outcome rx_cap :=
  store_bits [(0, 0, HDMIV 2); (1, 3, HDMIV 6)] c data.
Definition edid_standard_timing_iii (c : rx_cap) (data : list Z) : outcome rx_cap :=
  store_bits [(0, 0, HDMIV 7); (1, 6, HDMIV 8); (1, 2, HDMIV 10); (1, 1, HDMIV 11); (2, 7, HDMIV 12); (2, 1, HDMIV 14);
              (3, 5, HDMIV 19); (3, 2, HDMIV 18); (4, 0, HDMIV 20)] c data.

(** For these the number with aspect ratio 16:9 is the next one. *)
Definition is_4x3 (v : Z) : bool := existsb (Z.eqb v) [6; 2; 21; 17].

Definition calc_timing (c : rx_cap) (data : list Z) : outcome rx_cap :=
  let* d0 := get data 0 in
  let* d1 := get data 1 in
  if (d0 <? 2) && (d1 <? 2) then Done c
  else
    let ha := u16 ((d0 + 31) * 8) in
    let va := u16 (match (d1 >> 6) .& 0x3 with
                   | 0 => ha * 5 / 8 | 1 => ha * 3 / 4 | 2 => ha * 4 / 5 | _ => ha * 9 / 16 end) in
    let timing := hdmitx_mode_match_vesa_timing (Vesa ha va 0 0 (u16 ((d1 .& 0x3f) + 60)) 0) in
    let v := if is_4x3 (vic timing) then vic timing + 1 else vic timing in
    if v <? HDMITX_VESA_OFFSET then Done c else store_vesa_idx c v.

Fixpoint edid_standardtiming (max_num : nat) (c : rx_cap) (data : list Z) : outcome rx_cap :=
  match max_num with
  | O => Done c
  | S n => let* c := calc_timing c data in edid_standardtiming n c (adv data 2)
  end.

(** The name ends at a line feed or a space. *)
Fixpoint name_loop (n : nat) (i : Z) (c : rx_cap) (data : list Z) : outcome (rx_cap * Z) :=
  match n with
  | O => Done (c, i)
  | S n =>
      let* d := get data i in
      if (d =? 0x0a) || (d =? 0x20) then Done (c, i)
      else let* c := aset ReceiverProductName i d c in name_loop n (i + 1) c data
  end.
Definition edid_receiverproductnameparse (c : rx_cap) (data : list Z) : outcome rx_cap :=
  let* (c, i) := name_loop 13 0 c data in aset ReceiverProductName i 0 c.

Definition edid_manufacture_date_parse (c : rx_cap) (data : list Z) : outcome rx_cap :=
  let* week := get data 0 in
  let* year := get data 1 in
  let c := put manufacture_week (if (week =? 0) || ((0x36 <=? week) && (week <=? 0xfe)) then 0 else week) c in
  Done (put manufacture_year (if year <=? 0xf then 0 else year) c).

Definition edid_version_parse (c : rx_cap) (data : list Z) : outcome rx_cap :=
  let* d0 := get data 0 in
  let* d1 := get data 1 in
  Done (puts [(edid_version, if d0 =? 0x1 then 1 else 0); (edid_revision, if d1 <? 0x5 then d1 else 0)] c).

Definition edid_physical_size_parse (c : rx_cap) (data : list Z) : outcome rx_cap :=
  let* d0 := get data 0 in
  let* d1 := get data 1 in
  if truthy d0 && truthy d1 then Done (puts [(physical_width, d0 * 10); (physical_height, d1 * 10)] c) else Done c.

(** ** Detailed timings *)

Definition half_lines (t : dtd) (pc : Z) : dtd :=
  Dtd pc (d_h_active t) (d_h_blank t) (d_v_active t / 2) (d_v_blank t / 2) (d_h_sync_offset t) (d_h_sync t) (d_v_sync_offset t)
    (d_v_sync t) (d_h_image_size t) (d_v_image_size t) (d_flags t) (d_vic t).
Definition set_vic (t : dtd) (v : Z) : dtd :=
  Dtd (d_pixel_clock t) (d_h_active t) (d_h_blank t) (d_v_active t) (d_v_blank t) (d_h_sync_offset t) (d_h_sync t) (d_v_sync_offset t)
    (d_v_sync t) (d_h_image_size t) (d_v_image_size t) (d_flags t) v.

(** The members of the descriptor. *)
Definition decode_dtd (d : list Z) : dtd :=
  let b i := nth i d 0 in
  Dtd (b 0%nat + (b 1%nat << 8)) ((((b 4%nat >> 4) .& 0xf) << 8) + b 2%nat) (((b 4%nat .& 0xf) << 8) + b 3%nat)
    ((((b 7%nat >> 4) .& 0xf) << 8) + b 5%nat) (((b 7%nat .& 0xf) << 8) + b 6%nat)
    ((((b 11%nat >> 6) .& 0x3) << 8) + b 8%nat) ((((b 11%nat >> 4) .& 0x3) << 8) + b 9%nat)
    ((((b 11%nat >> 2) .& 0x3) << 4) + ((b 10%nat >> 4) .& 0xf)) (((b 11%nat .& 0x3) << 4) + (b 10%nat .& 0xf))
    ((((b 14%nat >> 4) .& 0xf) << 8) + b 12%nat) (((b 14%nat .& 0xf) << 8) + b 13%nat) (b 17%nat) 0.

(** The two special cases for interlaced modes. *)
Definition special_1080i (t : dtd) : dtd :=
  if (d_pixel_clock t =? 7425) && (d_h_active t =? 1920) && (d_v_active t =? 1080) then half_lines t (d_pixel_clock t) else t.
Definition special_480i (t : dtd) : dtd :=
  if ((d_flags t >> 1) .& 0x3 =? 0) && (d_h_active t =? 1440) then
    half_lines t (if d_pixel_clock t =? 2700 then 2700 else if d_pixel_clock t - 2700 <? 10 then 2702 else d_pixel_clock t)
  else t.

(** The number of the mode: 4:3 or 16:9 by the size of the picture. *)
Definition dtd_vic (t : dtd) (v : Z) : outcome Z :=
  if is_4x3 v then
    if d_h_image_size t =? 0 then Fault
    else Done (if Z.abs (d_v_image_size t * 100 / d_h_image_size t - 75) <=? 2 then v else v + 1)
  else Done v.

Definition edid_dtd_parsing (c : rx_cap) (data : list Z) : outcome rx_cap :=
  let* d := rdn data 0 18 in
  if bool_decide (take 3 d = [0; 0; 0]) then Done c
  else
    let i := sc c dtd_idx in
    let (t, timing) := hdmitx_mode_match_dtd_timing odroid custom (special_480i (special_1080i (decode_dtd d))) in
    let* l := upd_at (dtds c) i (fun _ => t) in
    let c := with_dtds c l in
    if negb (vic timing =? HDMI_0_UNKNOWN) then
      let* v := dtd_vic t (vic timing) in
      let* l := upd_at (dtds c) i (fun t => set_vic t v) in
      let c := with_dtds c l in
      let c := put preferred_mode (match dtds c with t0 :: _ => d_vic t0 | [] => 0 end) c in
      let c := put dtd_idx (u8 (i + 1)) c in
      if v <? HDMITX_VESA_OFFSET then store_cea_idx c v else store_vesa_idx c v
    else Done c.

Fixpoint dtd_loop (n : nat) (c : rx_cap) (data : list Z) : outcome rx_cap :=
  match n with
  | O => Done c
  | S n => let* c := edid_dtd_parsing c data in dtd_loop n c (adv data 0x12)
  end.
Definition edid_parseceatiming (c : rx_cap) (data : list Z) : outcome rx_cap := dtd_loop 4 c data.

Definition decode_pmt (d : list Z) : vesa_standard_timing :=
  let b i := nth i d 0 in
  Vesa (b 2%nat + (((b 4%nat >> 4) .& 0xf) << 8)) (b 5%nat + (((b 7%nat >> 4) .& 0xf) << 8)) (b 3%nat + ((b 4%nat .& 0xf) << 8))
    (b 6%nat + ((b 7%nat .& 0xf) << 8)) 0 (b 0%nat + (b 1%nat << 8)).
Definition edid_descriptor_pmt2 (c : rx_cap) (data : list Z) : outcome rx_cap :=
  let* d := rdn data 0 8 in
  let timing := hdmitx_mode_match_vesa_timing (decode_pmt d) in
  if HDMITX_VESA_OFFSET <=? vic timing then store_vesa_idx c (vic timing) else Done c.
(** The timing is never NULL: without a match its number is 0. *)
Definition edid_descriptor_pmt (c : rx_cap) (data : list Z) : outcome rx_cap :=
  let* d := rdn data 0 8 in
  let timing := hdmitx_mode_match_vesa_timing (decode_pmt d) in
  let c := if vic timing <? 108 then put native_vic (vic timing) c else c in
  if HDMITX_VESA_OFFSET <=? vic timing then store_vesa_idx c (vic timing) else Done c.

Definition edid_cvt_timing_3bytes (data : list Z) : outcome Z :=
  let* d0 := get data 0 in
  let* d1 := get data 1 in
  let* d2 := get data 2 in
  let ha := u16 (((d0 + (((d1 >> 4) .& 0xf) << 8)) + 1) * 2) in
  let va := u16 (match (d1 >> 2) .& 0x3 with
                 | 0 => ha * 3 / 4 | 1 => ha * 9 / 16 | 2 => ha * 5 / 8 | _ => ha * 3 / 5 end) in
  let vs := match (d2 >> 5) .& 0x3 with 0 => 50 | 1 => 60 | 2 => 75 | _ => 85 end in
  Done (vic (hdmitx_mode_match_vesa_timing (Vesa ha va 0 0 vs 0))).
Fixpoint cvt_loop (n : nat) (c : rx_cap) (data : list Z) : outcome rx_cap :=
  match n with
  | O => Done c
  | S n =>
      let* v := edid_cvt_timing_3bytes data in
      let* c := if HDMITX_VESA_OFFSET <=? v then store_vesa_idx c v else Done c in
      cvt_loop n c (adv data 3)
  end.
Definition edid_cvt_timing (c : rx_cap) (data : list Z) : outcome rx_cap := cvt_loop 4 c data.

(** ** Vendor blocks: HDMI 1.4 *)

Definition flag (x i : Z) : Z := bit x i.
Definition set_vsdb_dc_cap (c : rx_cap) : rx_cap :=
  let d := sc c ColorDeepSupport in
  puts [(dc_y444, flag d 3); (dc_30bit, flag d 4); (dc_36bit, flag d 5); (dc_48bit, flag d 6)] c.
Definition set_vsdb_dc_420_cap (c : rx_cap) (data : list Z) : outcome rx_cap :=
  let* d := get data 6 in
  Done (puts [(dc_30bit_420, flag d 0); (dc_36bit_420, flag d 1); (dc_48bit_420, flag d 2)] c).

Definition latency (v : Z) : Z :=
  if v =? 0 then LATENCY_INVALID_UNKNOWN else if v =? 0xff then LATENCY_NOT_SUPPORT else (v - 1) * 2.
Definition ilatency (v : Z) : Z :=
  if v =? 0 then LATENCY_INVALID_UNKNOWN else if v =? 0xff then LATENCY_NOT_SUPPORT else v * 2 - 1.
Definition get_latency (c : rx_cap) (data : list Z) : outcome rx_cap :=
  let* v0 := get data 0 in
  let* v1 := get data 1 in
  Done (puts [(vLatency, latency v0); (aLatency, latency v1)] c).
Definition get_ilatency (c : rx_cap) (data : list Z) : outcome rx_cap :=
  let* v0 := get data 0 in
  let* v1 := get data 1 in
  Done (puts [(i_vLatency, ilatency v0); (i_aLatency, ilatency v1)] c).

Definition hdmi14_vic (d : Z) : option Z :=
  match d with 1 => Some 95 | 2 => Some 94 | 3 => Some 93 | 4 => Some 98 | _ => None end.
Fixpoint vic4k_loop (n : nat) (c : rx_cap) (dat : list Z) : outcome rx_cap :=
  match n with
  | O => Done c
  | S n =>
      let* d := get dat 0 in
      let* c := match hdmi14_vic d with Some v => store_cea_idx c v | None => Done c end in
      vic4k_loop n c (adv dat 1)
  end.
Definition hdmitx_edid_4k2k_parse (c : rx_cap) (dat : list Z) (size : Z) : outcome rx_cap :=
  if (4 <? size) || (size =? 0) then Done c else vic4k_loop (Z.to_nat size) c dat.

(** Three-dimensional formats: of the mode in cell [idx] of VIC. *)
Definition set_3d (g : threeD -> threeD) (idx : Z) (c : rx_cap) : outcome rx_cap :=
  let* v := aget VIC idx c in
  let* l := upd_at (support_3d_format c) v g in
  Done (with_3d c l).
Definition fp (t : threeD) := T3d 1 (top_and_bottom t) (side_by_side t).
Definition tab (t : threeD) := T3d (frame_packing t) 1 (side_by_side t).
Definition sbs (t : threeD) := T3d (frame_packing t) (top_and_bottom t) 1.

Fixpoint update_3d (n : nat) (j : Z) (c : rx_cap) : outcome rx_cap :=
  match n with
  | O => Done c
  | S n =>
      let* c :=
        if truthy (bit (sc c threeD_MASK_15_0) j) then
          let all := sc c threeD_Structure_ALL_15_0 in
          let* c := if has all 0 then set_3d fp j c else Done c in
          let* c := if has all 6 then set_3d tab j c else Done c in
          if has all 8 then set_3d sbs j c else Done c
        else Done c in
      update_3d n (j + 1) c
  end.
Definition hdmitx_3d_update (c : rx_cap) : outcome rx_cap := update_3d 16 0 c.

Fixpoint all_3d (n : nat) (j : Z) (c : rx_cap) : outcome rx_cap :=
  match n with
  | O => Done c
  | S n =>
      if j <? sc c VIC_count then
        let* c := set_3d fp j c in
        let* c := set_3d tab j c in
        let* c := set_3d sbs j c in
        all_3d n (j + 1) c
      else Done c
  end.

Fixpoint structures_3d (fuel : nat) (c : rx_cap) (dat : list Z) (pos size : Z) : outcome rx_cap :=
  match fuel with
  | O => Spin
  | S fuel =>
      if pos <? size then
        let* d := get dat pos in
        let idx := (d .& 0xf0) >> 4 in
        if d .& 0xf <? 0x8 then
          let* c := if d .& 0xf =? 0 then set_3d fp idx c else Done c in
          let* c := if d .& 0xf =? 6 then set_3d tab idx c else Done c in
          structures_3d fuel c dat (pos + 1) size
        else
          let* c :=
            if d .& 0xf =? 8 then
              let* d1 := get dat (pos + 1) in
              if d1 >> 4 <? 0xb then set_3d sbs idx c else Done c
            else Done c in
          structures_3d fuel c dat (pos + 2) size
      else Done c
  end.

Definition hdmitx_edid_3d_parse (c : rx_cap) (dat : list Z) (size : Z) : outcome rx_cap :=
  let* d := get dat 0 in
  let pos := 1 + (if has d 7 then 2 else 0) + (if has d 6 then 2 else 0) in
  let* (c, pos) :=
    if has d 5 then
      let* x := get dat pos in
      let c := puts [(threeD_present, x >> 7); (threeD_Multi_present, (x >> 5) .& 0x3)] c in
      let pos := pos + 1 in
      let* x := get dat pos in
      let c := puts [(hdmi_vic_LEN, x >> 5); (HDMI_3D_LEN, x .& 0x1f)] c in
      let pos := pos + (sc c hdmi_vic_LEN + 1) in
      let multi := sc c threeD_Multi_present in
      if (multi =? 0x01) || (multi =? 0x02) then
        let* a := get dat pos in
        let* b := get dat (pos + 1) in
        let c := put threeD_Structure_ALL_15_0 ((a << 8) + b) c in
        if multi =? 0x01 then Done (put threeD_MASK_15_0 0 c, pos + 2)
        else
          let* a := get dat (pos + 2) in
          let* b := get dat (pos + 3) in
          Done (put threeD_MASK_15_0 ((a << 8) + b) c, pos + 4)
      else Done (c, pos)
    else Done (c, pos) in
  let* c := structures_3d (S (Z.to_nat size)) c dat pos size in
  if sc c threeD_MASK_15_0 =? 0 then all_3d 16 0 c else hdmitx_3d_update c.

Definition hdmitx_edid_parse_hdmi14 (c : rx_cap) (offset : Z) (buf : list Z) (count : Z) : outcome rx_cap :=
  let c := put ieeeoui HDMI_IEEE_OUI c in
  let* deep := if 5 <? count then get buf (offset + 5) else Done 0 in
  let c := set_vsdb_dc_cap (put ColorDeepSupport deep c) in
  let* clk := if 6 <? count then get buf (offset + 6) else Done DEFAULT_MAX_TMDS_CLK in
  let c := put Max_TMDS_Clock1 clk c in
  if 7 <? count then
    let* tmp := get buf (offset + 7) in
    let idx := offset + 8 in
    let* (c, idx) :=
      if has tmp 6 then
        let* c := get_latency c (adv buf idx) in
        let* c := get_ilatency c (adv buf (idx + 2)) in
        Done (c, idx + 4)
      else if has tmp 7 then
        let* c := get_latency c (adv buf idx) in
        Done (c, idx + 2)
      else Done (c, idx) in
    let c := puts [(cnc0, bit tmp 0); (cnc1, bit tmp 1); (cnc2, bit tmp 2); (cnc3, bit tmp 3)] c in
    if has tmp 5 then
      let idx := idx + 1 in
      let* d := get buf idx in
      let* c := if truthy (d .& 0xe0) then hdmitx_edid_4k2k_parse c (adv buf (idx + 1)) (d >> 5) else Done c in
      let* d := get buf (idx - 1) in
      if truthy (d .& 0xe0) then hdmitx_edid_3d_parse c (adv buf (offset + 7)) (count - 7) else Done c
    else Done c
  else Done c.

(** ** Vendor blocks: HDMI Forum *)

Definition hdmitx_edid_parse_hfscdb (c : rx_cap) (offset : Z) (buf : list Z) (count : Z) : outcome rx_cap :=
  let b k := get buf (offset + k) in
  let* b4 := b 4 in
  let* b5 := b 5 in
  let* b6 := b 6 in
  let c := puts [(hf_ieeeoui, HDMI_FORUM_IEEE_OUI); (Max_TMDS_Clock2, b4); (scdc_present, flag b5 7); (scdc_rr_capable, flag b5 6);
                 (lte_340mcsc_scramble, flag b5 3); (max_frl_rate, (b6 .& 0xf0) >> 4)] c in
  let* c := set_vsdb_dc_420_cap c (adv buf offset) in
  if count <? 8 then Done c
  else
    let* b7 := b 7 in
    let c := puts [(allm, flag b7 1); (fva, flag b7 2); (neg_mvrr, flag b7 3); (mdelta, flag b7 5); (qms, flag b7 6);
                   (fapa_end_extended, flag b7 7)] c in
    if count <? 9 then Done c
    else
      let* b8 := b 8 in
      let c := put vrr_min (Z.min (b8 .& 0x3f) 48) c in
      if count <? 10 then Done c
      else
        let* b9 := b 9 in
        let m := (((b8 .& 0xc0) >> 6) << 8) + b9 in
        let c := puts [(vrr_max, if (0 <? m) && (m <? 100) then 100 else m); (fapa_start_loc, flag b7 0)] c in
        if count <? 11 then Done c
        else
          let* b10 := b 10 in
          let c := puts [(dsc_10bpc, flag b10 0); (dsc_12bpc, flag b10 1); (dsc_16bpc, flag b10 2); (dsc_all_bpp, flag b10 3);
                         (qms_tfr_min, flag b10 4); (qms_tfr_max, flag b10 5); (dsc_native_420, flag b10 6); (dsc_1p2, flag b10 7)] c in
          let c := if sc c max_frl_rate =? 0 then put dsc_1p2 0 c else c in
          if truthy (sc c dsc_1p2) then
            if count <? 13 then Done (put dsc_1p2 0 c)
            else
              let* b11 := b 11 in
              let* b12 := b 12 in
              Done (puts [(dsc_max_slices, b11 .& 0xf); (dsc_max_frl_rate, (b11 >> 4) .& 0xf); (dsc_total_chunk_bytes, b12 .& 0x3f)] c)
          else Done c.

(** ** Vendor-specific video: HDR10+, CUVA, Dolby Vision *)

Definition clear_dv (i : bool) (c : rx_cap) : rx_cap :=
  let c := Cap (fun f => match f with Dv j _ => if bool_decide (i = j) then 0 else sc c f | _ => sc c f end)
             (ar c) (RxAudioCap c) (dtds c) (support_3d_format c) (dynamic_info c) (lumi c) in
  put_array (DvRaw i) (replicate 27 0) c.
Definition putd (i : bool) (l : list (dv_field * Z)) : rx_cap -> rx_cap := puts ((fun p => (Dv i p.1, p.2)) <$> l).
Definition puth (i : bool) (l : list (hdr_field * Z)) : rx_cap -> rx_cap := puts ((fun p => (Hdr i p.1, p.2)) <$> l).

(** Two coordinates of 12 bits in three bytes. *)
Definition pair12 (i : bool) (x y : dv_field) (dat : list Z) (pos : Z) (c : rx_cap) : outcome rx_cap :=
  let* p0 := get dat pos in
  let* p1 := get dat (pos + 1) in
  let* p2 := get dat (pos + 2) in
  Done (putd i [(x, (p1 << 4) .| (p0 >> 4)); (y, (p2 << 4) .| (p0 .& 0xf))] c).

Definition dv_ver0 (i : bool) (dat : list Z) (c : rx_cap) : outcome rx_cap :=
  if sc c (Dv i dv_length) =? 0x19 then
    let* p := get dat 5 in
    let c := putd i [(sup_yuv422_12bit, bit p 0); (sup_2160p60hz, bit p 1); (sup_global_dimming, bit p 2)] c in
    let* c := pair12 i Rx Ry dat 6 c in
    let* c := pair12 i Gx Gy dat 9 c in
    let* c := pair12 i Bx By dat 12 c in
    let* c := pair12 i Wx Wy dat 15 c in
    let* c := pair12 i tminPQ tmaxPQ dat 18 c in
    let* p := get dat 21 in
    Done (putd i [(dm_major_ver, p >> 4); (dm_minor_ver, p .& 0xf)] c)
  else Done (putd i [(block_flag, ERROR_LENGTH)] c).

Definition dv_ver1 (i : bool) (dat : list Z) (c : rx_cap) : outcome rx_cap :=
  let len := sc c (Dv i dv_length) in
  if (len =? 0x0b) || (len =? 0x0e) then
    let* p5 := get dat 5 in
    let* p6 := get dat 6 in
    let* p7 := get dat 7 in
    let c := putd i [(dm_version, (p5 >> 2) .& 0x7); (sup_yuv422_12bit, bit p5 0); (sup_2160p60hz, bit p5 1);
                     (sup_global_dimming, bit p6 0); (tmax_lum, p6 >> 1); (colorimetry, bit p7 0); (tmin_lum, p7 >> 1)] c in
    if len =? 0x0b then
      let* p8 := get dat 8 in
      let* p9 := get dat 9 in
      let* p10 := get dat 10 in
      let* p11 := get dat 11 in
      Done (putd i [(low_latency, p8 .& 0x3); (Bx, 0x20 .| ((p8 >> 5) .& 0x7)); (By, 0x08 .| ((p8 >> 2) .& 0x7)); (Gx, p9 >> 1);
                    (Ry, 0x40 .| ((p9 .& 0x1) .| ((p10 .& 0x1) << 1) .| ((p11 .& 0x3) << 2))); (Gy, 0x80 .| (p10 >> 1));
                    (Rx, 0xa0 .| (p11 >> 3))] c)
    else
      let* q := rdn dat 9 6 in
      Done (putd i [(Rx, nth 0 q 0); (Ry, nth 1 q 0); (Gx, nth 2 q 0); (Gy, nth 3 q 0); (Bx, nth 4 q 0); (By, nth 5 q 0)] c)
  else Done (putd i [(block_flag, ERROR_LENGTH)] c).

Definition dv_ver2 (i : bool) (dat : list Z) (c : rx_cap) : outcome rx_cap :=
  if 0x0b <=? sc c (Dv i dv_length) then
    let* q := rdn dat 5 7 in
    let p k := nth k q 0 in
    Done (putd i [(sup_2160p60hz, 0x1); (dm_version, (p 0%nat >> 2) .& 0x7); (sup_yuv422_12bit, bit (p 0%nat) 0);
                  (sup_backlight_control, bit (p 0%nat) 1); (sup_global_dimming, bit (p 1%nat) 2); (backlt_min_luma, p 1%nat .& 0x3);
                  (tminPQ, p 1%nat >> 3); (Interface, p 2%nat .& 0x3); (parity, bit (p 2%nat) 2); (sup_1080p120hz, bit (p 2%nat) 2);
                  (tmaxPQ, p 2%nat >> 3); (sup_10b_12b_444, ((p 3%nat .& 0x1) << 1) .| (p 4%nat .& 0x1)); (Gx, p 3%nat >> 1);
                  (Gy, 0x80 .| (p 4%nat >> 1)); (Rx, 0xa0 .| (p 5%nat >> 3)); (Bx, 0x20 .| (p 5%nat .& 0x7));
                  (Ry, 0x40 .| (p 6%nat >> 3)); (By, 0x08 .| (p 6%nat .& 0x7))] c)
  else Done (putd i [(block_flag, ERROR_LENGTH)] c).

Definition parse_cuva (i : bool) (dat : list Z) (c : rx_cap) : outcome rx_cap :=
  let* raw := rdn dat 0 15 in
  let p k := nth k raw 0 in
  Done (puth i [(cuva_length, p 0%nat .& 0x1f); (cuva_ieeeoui, p 2%nat .| (p 3%nat << 8) .| (p 4%nat << 16));
                (system_start_code, p 5%nat); (version_code, p 6%nat >> 4);
                (display_max_lum, p 7%nat .| (p 8%nat << 8) .| (p 9%nat << 16) .| (p 10%nat << 24));
                (display_min_lum, p 11%nat .| (p 12%nat << 8)); (rx_mode_sup, bit (p 13%nat) 6); (monitor_mode_sup, bit (p 13%nat) 7)]
           (put_array (CuvaRaw i) raw c)).

Definition _edid_parsingvendspec (i : bool) (c : rx_cap) (dat : list Z) : outcome rx_cap :=
  let* d := rdn dat 0 5 in
  let length := nth 0 d 0 .& 0x1f in
  if negb (nth 1 d 0 =? 1) then Done c
  else
    let oui := nth 2 d 0 + (nth 3 d 0 << 8) + (nth 4 d 0 << 16) in
    if oui =? HDR10_PLUS_IEEE_OUI then
      let* p := get dat 5 in
      Done (puth i [(plus_length, length); (plus_ieeeoui, oui); (application_version, p .& 0x3)] c)
    else if oui =? CUVA_IEEEOUI then parse_cuva i dat c
    else if oui =? DV_IEEE_OUI then
      let c := putd i [(block_flag, CORRECT); (dv_length, length)] (clear_dv i c) in
      let* raw := rdn dat 0 (length + 1) in
      let* l := wr (ar c (DvRaw i)) 0 raw in
      let c := put_array (DvRaw i) l c in
      let* p := get dat 5 in
      let v := (p >> 5) .& 0x7 in
      let c := putd i [(dv_ieeeoui, oui); (ver, v)] c in
      if 2 <? v then Done (putd i [(block_flag, ERROR_VER)] c)
      else if v =? 0 then dv_ver0 i dat c
      else if v =? 1 then dv_ver1 i dat c
      else dv_ver2 i dat c
    else Done c.
Definition edid_parsingvendspec (c : rx_cap) (buf : list Z) : outcome rx_cap :=
  let* b1 := get buf 1 in
  if negb (b1 =? 1) then Done c
  else let* c := _edid_parsingvendspec false c buf in _edid_parsingvendspec true c buf.

(** ** Extended data blocks *)

Fixpoint y420vdb_loop (n : nat) (c : rx_cap) (buf : list Z) (pos : Z) : outcome rx_cap :=
  match n with
  | O => Done c
  | S n =>
      let* c :=
        if sc c VIC_count <? VIC_MAX_NUM then
          let* v := get buf pos in
          if hdmitx_mode_validate_y420_vic odroid custom v then
            let* c := store_cea_idx c v in store_y420_idx c v
          else Done c
        else Done c in
      y420vdb_loop n c buf (pos + 1)
  end.
Definition edid_parsingy420vdb (c : rx_cap) (buf : list Z) : outcome rx_cap :=
  let* b0 := get buf 0 in
  let* ext_tag := get buf 1 in
  if negb ((b0 >> 5) .& 0x7 =? 0x7) || negb (ext_tag =? 0xe) then Done c
  else y420vdb_loop (Z.to_nat ((b0 .& 0x1f) + 1 - 2)) c buf 2.

Definition _edid_parsedrmsb (i : bool) (c : rx_cap) (buf : list Z) : outcome rx_cap :=
  let* b0 := get buf 0 in
  let tag := (b0 >> 5) .& 0x7 in
  let data_end := b0 .& 0x1f in
  let* raw := rdn buf 0 (data_end + 1) in
  let* raw := wr (replicate 7 0) 0 raw in
  let c := put_array (HdrRaw i) raw c in
  let* ext_tag := get buf 1 in
  if negb (tag =? HDMI_EDID_BLOCK_TYPE_EXTENDED_TAG) || negb (ext_tag =? EXTENSION_DRM_STATIC_TAG) then Done c
  else
    let* b2 := get buf 2 in
    let* b3 := get buf 3 in
    let c := puth i [(hdr_support, b2); (static_metadata_type1, b3 .& 0x1)] c in
    let lums := [lumi_max; lumi_avg; lumi_min] in
    if (4 <=? data_end) && (data_end <=? 6) then
      let* l := rdn buf 4 (data_end - 3) in Done (puth i (zip lums l) c)
    else Done c.
Definition edid_parsedrmsb (c : rx_cap) (buf : list Z) : outcome rx_cap :=
  let* c := _edid_parsedrmsb false c buf in _edid_parsedrmsb true c buf.

(** The optional fields: from [j] on, [n] of them (a number of 32 bits, so
    that the loop ends beyond the array of 28 when it has wrapped). *)
Fixpoint optional_loop (fuel : nat) (buf : list Z) (pos j n : Z) (fields : list Z) : outcome (list Z * Z) :=
  match fuel with
  | O => Spin
  | S fuel =>
      if j <? n then
        let* b := get buf pos in
        let* fields := wr fields j [b] in
        optional_loop fuel buf (pos + 1) (j + 1) n fields
      else Done (fields, pos)
  end.
Definition dynamic_slot (type : Z) : Z :=
  if type =? TS_103_433_SPEC_TYPE then 1 else if type =? ITU_T_H265_SPEC_TYPE then 2 else if type =? TYPE_4_HDR_METADATA_TYPE then 3 else 0.
Fixpoint drmdb_loop (fuel : nat) (buf : list Z) (pos data_end : Z) (info : list hdr_dynamic) : outcome (list hdr_dynamic) :=
  match fuel with
  | O => Spin
  | S fuel =>
      if truthy data_end then
        let* type_length := get buf pos in
        let* t0 := get buf (pos + 1) in
        let* t1 := get buf (pos + 2) in
        let type := (t1 << 8) .| t0 in
        let num := dynamic_slot type in
        let* flags := get buf (pos + 3) in
        let* old := match info !! Z.to_nat num with Some d => Done (optional_fields d) | None => Fault end in
        let* (fields, pos) := optional_loop 30 buf (pos + 4) 0 (u32 (type_length - 3)) old in
        let* info := upd_at info num (fun _ => Dyn type flags type_length fields) in
        drmdb_loop fuel buf pos (u8 (data_end - (type_length + 1))) info
      else Done info
  end.
Definition _edid_parsedrmdb (i : bool) (c : rx_cap) (buf : list Z) : outcome rx_cap :=
  let* b0 := get buf 0 in
  let* ext_tag := get buf 1 in
  if negb ((b0 >> 5) .& 0x7 =? HDMI_EDID_BLOCK_TYPE_EXTENDED_TAG) || negb (ext_tag =? EXTENSION_DRM_DYNAMIC_TAG) then Done c
  else
    let* info := drmdb_loop (S (length buf)) buf 2 (u8 ((b0 .& 0x1f) - 1)) (dynamic_info c i) in
    Done (with_dynamic c (fun j => if bool_decide (j = i) then info else dynamic_info c j)).
Definition edid_parsedrmdb (c : rx_cap) (buf : list Z) : outcome rx_cap :=
  let* c := _edid_parsedrmdb false c buf in _edid_parsedrmdb true c buf.

Definition edid_parsingvfpdb (c : rx_cap) (buf : list Z) : outcome rx_cap :=
  let* b0 := get buf 0 in
  let* b1 := get buf 1 in
  if negb (b1 =? EXTENSION_VFPDB_TAG) || (b0 .& 0x1f <? 2) then Done c
  else
    let* svr := get buf 2 in
    if ((1 <=? svr) && (svr <=? 127)) || ((193 <=? svr) && (svr <=? 253)) then
      Done (puts [(flag_vfpdb, 1); (preferred_mode, svr)] c)
    else if (129 <=? svr) && (svr <=? 144) then
      match dtds c !! Z.to_nat (svr - 129) with
      | None => Fault
      | Some t => Done (puts [(flag_vfpdb, 1); (preferred_mode, d_vic t)] c)
      end
    else Done c.

Fixpoint bitmap_loop (n : nat) (c : rx_cap) (buf : list Z) (pos i : Z) : outcome rx_cap :=
  match n with
  | O => Done c
  | S n =>
      let* c := if i <? Y420CMDB_MAX then let* b := get buf pos in aset y420cmdb_bitmap i b c else Done c in
      bitmap_loop n c buf (pos + 1) (i + 1)
  end.
Definition edid_parsingy420cmdb (c : rx_cap) (buf : list Z) : outcome rx_cap :=
  let* b0 := get buf 0 in
  let* ext_tag := get buf 1 in
  let length := b0 .& 0x1f in
  if negb ((b0 >> 5) .& 0x7 =? 0x7) || negb (ext_tag =? 0xf) then Done c
  else if length =? 1 then Done (put y420_all_vic 1 c)
  else
    let c := put_array y420cmdb_bitmap (replicate 32 0) (puts [(bitmap_length, 0); (bitmap_valid, 0)] c) in
    let n := length + 1 - 2 in
    let c := if 0 <? n then puts [(bitmap_length, n); (bitmap_valid, 1)] c else c in
    bitmap_loop (Z.to_nat n) c buf 2 0.

Definition edid_parsingdolbyvsadb (c : rx_cap) (buf : list Z) : outcome rx_cap :=
  let* raw := rdn buf 0 7 in
  let b k := nth k raw 0 in
  Done (puts [(dolby_length, b 0%nat .& 0x1f); (dolby_ieeeoui, b 2%nat + (b 3%nat << 8) + (b 4%nat << 16));
              (dolby_vsadb_ver, b 5%nat .& 0x7); (spk_center, bit (b 5%nat) 4); (spk_surround, bit (b 5%nat) 5);
              (spk_height, bit (b 5%nat) 6); (headphone_only, bit (b 5%nat) 7); (mat_48k_pcm_only, bit (b 6%nat) 0)]
          (put_array dolby_rawdata (raw ++ [0]) c)).

(** The 4:2:0 capability map: a bit for each mode of the video data blocks. *)
Definition edid_y420cmdb_fill_all_vic (c : rx_cap) : outcome rx_cap :=
  if negb (sc c y420_all_vic =? 1) then Done c
  else
    let count := sc c VIC_count in
    let a := Z.min (count / 8) Y420CMDB_MAX in
    let b := count mod 8 in
    let* l := wr (ar c y420cmdb_bitmap) 0 (replicate (Z.to_nat a) 0xff) in
    let c := put_array y420cmdb_bitmap l c in
    let* c := if negb (b =? 0) && (a <? Y420CMDB_MAX) then aset y420cmdb_bitmap a ((1 << b) - 1) c else Done c in
    let len := u8 (if b =? 0 then a else a + 1) in
    Done (puts [(bitmap_length, len); (bitmap_valid, if truthy len then 1 else 0)] c).

Fixpoint bits_loop (n : nat) (p : Z) (i j : Z) (c : rx_cap) : outcome rx_cap :=
  match n with
  | O => Done c
  | S n =>
      let* v := aget SVD_VIC (i * 8 + j) c in
      let* c := if truthy (bit p j) && hdmitx_mode_validate_y420_vic odroid custom v then store_y420_idx c v else Done c in
      bits_loop n p i (j + 1) c
  end.
Fixpoint bytes_loop (n : nat) (i : Z) (c : rx_cap) : outcome rx_cap :=
  match n with
  | O => Done c
  | S n =>
      let* p := aget y420cmdb_bitmap i c in
      let* c := bits_loop 8 p i 0 c in
      bytes_loop n (i + 1) c
  end.
Definition edid_y420cmdb_postprocess (c : rx_cap) : outcome rx_cap :=
  let* c := if sc c y420_all_vic =? 1 then edid_y420cmdb_fill_all_vic c else Done c in
  if sc c bitmap_valid =? 0 then Done c else bytes_loop (Z.to_nat (sc c bitmap_length)) 0 c.
Definition edid_y420cmdb_reset (c : rx_cap) : rx_cap :=
  put_array y420cmdb_bitmap (replicate 32 0) (puts [(bitmap_valid, 0); (bitmap_length, 0); (y420_all_vic, 0)] c).

(** Only the bytes that are read matter: nothing but the number is kept. *)
Fixpoint ifdb_loop (fuel : nat) (buf : list Z) (sum_len payload_len : Z) : outcome unit :=
  match fuel with
  | O => Spin
  | S fuel =>
      if sum_len <? payload_len then
        let* d := get buf (sum_len + 1) in
        let len := (d >> 5) .& 0x7 in
        ifdb_loop fuel buf (u8 (sum_len + (if d .& 0x1f =? 1 then len + 1 + 3 else len + 1))) payload_len
      else Done tt
  end.
Definition hdmitx_edid_parse_ifdb (c : rx_cap) (buf : list Z) : outcome rx_cap :=
  let* b0 := get buf 0 in
  let payload_len := b0 .& 0x1f in
  if payload_len <=? 1 then Done c
  else
    let* b2 := get buf 2 in
    let sum_len := 1 + (((b2 >> 5) .& 0x7) + 2) in
    if payload_len <? sum_len then Done c
    else
      let* b3 := get buf 3 in
      let c := put additional_vsif_num b3 c in
      if payload_len =? sum_len then Done c
      else let* _ := ifdb_loop 32 buf sum_len payload_len in Done c.

Definition puts_sbtm (l : list (sbtm_field * Z)) : rx_cap -> rx_cap := puts ((fun p => (Sbtm p.1, p.2)) <$> l).
Definition bits (v start len : Z) : Z := (v >> start) .& ((1 << len) - 1).
Definition get_2_bytes (buf : list Z) (i : Z) : outcome Z :=
  let* a := get buf i in let* b := get buf (i + 1) in Done (a .| (b << 8)).
(** The points of the brightness curve, while bytes are left. *)
Fixpoint sbtm_points (k n : nat) (buf : list Z) (len : Z) (c : rx_cap) : outcome rx_cap :=
  match n with
  | O => Done c
  | S n =>
      if 2 <=? len then
        let* a := get buf 0 in
        let* b := get buf 1 in
        sbtm_points (S k) n (adv buf 2) (len - 2) (puts_sbtm [(p_exp k, bits a 0 2); (p_mant k, bits a 2 6); (peak_bright_p k, b)] c)
      else sbtm_points (S k) n buf len c
  end.
Fixpoint sbtm_primaries (l : list sbtm_field) (i : Z) (buf : list Z) (c : rx_cap) : outcome rx_cap :=
  match l with
  | [] => Done c
  | f :: l => let* v := get_2_bytes buf i in sbtm_primaries l (i + 2) buf (puts_sbtm [(f, v)] c)
  end.
Definition hdmitx21_edid_parse_sbtmdb (c : rx_cap) (offset : Z) (buf : list Z) (len : Z) : outcome rx_cap :=
  if len <? 2 then Done c
  else
    let buf := adv buf (offset + 1) in
    let len := len - 1 in
    let* b0 := get buf 0 in
    let c := if truthy b0 then puts_sbtm [(sbtm_support, 1)] c else c in
    if negb (truthy (sc c (Sbtm sbtm_support))) then Done c
    else
      let c := puts_sbtm [(max_sbtm_ver, bits b0 0 4); (grdm_support, bits b0 5 2); (drdm_ind, bits b0 7 1)] c in
      if bits b0 7 1 =? 0 then Done c
      else
        let* b1 := get buf 1 in
        let c := puts_sbtm [(hgig_cat_drdm_sel, bits b1 0 3); (use_hgig_drdm, bits b1 4 1); (maxrgb, bits b1 5 1); (gamut, bits b1 6 2)] c in
        let buf := adv buf 2 in
        let len := u8 (len - 2) in
        let primaries := (bits b1 6 2 =? 0) && (16 <=? len) in
        let* c := if primaries then sbtm_primaries [red_x; red_y; green_x; green_y; blue_x; blue_y; white_x; white_y] 0 buf c else Done c in
        let (buf, len) := if primaries then (adv buf 16, len - 16) else (buf, len) in
        if (bits b1 4 1 =? 0) && (2 <=? len) then
          let* a := get buf 0 in
          let* b := get buf 1 in
          sbtm_points 0 4 (adv buf 2) (len - 2) (puts_sbtm [(min_bright_10, a); (peak_bright_100, b)] c)
        else Done c.

(** ** Video and audio data blocks *)

(** One short video descriptor (CTA-861-G 7.5.1). *)
Definition _store_vics (c : rx_cap) (vic_dat : Z) : outcome rx_cap :=
  let v := vic_dat .& 0x7f in
  let* c := aset SVD_VIC (sc c SVD_VIC_count) (if (1 <=? v) && (v <=? 64) then v else vic_dat) c in
  let c := put SVD_VIC_count (u32 (sc c SVD_VIC_count + 1)) c in
  if (1 <=? v) && (v <=? 64) then
    let* c := if 1 <? v then store_cea_idx c v else Done c in
    if truthy (vic_dat .& 0x80) then
      let c := if truthy (sc c native_vic) && negb (truthy (sc c native_vic2)) then put native_vic2 v c else c in
      Done (if negb (truthy (sc c native_vic)) then put native_vic v c else c)
    else Done c
  else store_cea_idx c vic_dat.

Fixpoint store_svds (n : nat) (c : rx_cap) (buf : list Z) (i : Z) : outcome rx_cap :=
  match n with
  | O => Done c
  | S n => let* d := get buf i in let* c := _store_vics c d in store_svds n c buf (i + 1)
  end.

Fixpoint store_auds (n : nat) (c : rx_cap) (buf : list Z) (i idx : Z) : outcome rx_cap :=
  match n with
  | O => Done c
  | S n =>
      let* d := rdn buf i 3 in
      let b k := nth k d 0 in
      let* l := upd_at (RxAudioCap c) idx (fun _ => Aud ((b 0%nat >> 3) .& 0xf) (b 0%nat .& 0x7) (b 1%nat .& 0x7f) (b 2%nat)) in
      store_auds n (with_aud c l) buf (i + 3) (idx + 1)
  end.

(** The data blocks from [offset] to [end_], each handed to [handle] with its
    place; the offset has eight bits. *)
Fixpoint walk {S : Type} (handle : S -> Z -> Z -> Z -> outcome S) (fuel : nat) (buf : list Z) (offset end_ : Z) (c : S) : outcome S :=
  match fuel with
  | O => Spin
  | Datatypes.S fuel =>
      if offset <? end_ then
        let* d := get buf offset in
        let count := d .& 0x1f in
        let* c := handle c (d >> 5) offset count in
        walk handle fuel buf (u8 (offset + 1 + count)) end_ c
      else Done c
  end.

Definition audio_block (buf : list Z) (c : rx_cap) (tag offset count : Z) : outcome rx_cap :=
  if tag =? HDMI_EDID_BLOCK_TYPE_AUDIO then
    let tmp := count / 3 in
    let idx := sc c AUD_count in
    store_auds (Z.to_nat tmp) (put AUD_count (u8 (idx + tmp)) c) buf (offset + 1) idx
  else Done c.
Definition hdmitx_edid_audio_block_parse (c : rx_cap) (buf : list Z) : outcome rx_cap :=
  let* end_ := get buf 2 in
  if 127 <? end_ then Done c else walk (audio_block buf) 128 buf 4 end_ c.

Definition hdmitx_edid_set_default_aud (c : rx_cap) : outcome rx_cap :=
  if truthy (sc c AUD_count) then Done c
  else
    let* l := upd_at (RxAudioCap c) 0 (fun _ => Aud 1 1 7 1) in
    Done (with_aud (put AUD_count 1 c) l).

(** The first descriptor after the first with its format, or 0. *)
Fixpoint second_pcm (n : nat) (l : list rx_audiocap) (i : Z) (first : Z) : outcome Z :=
  match n with
  | O => Done 0
  | S n =>
      match l !! Z.to_nat i with
      | None => Fault
      | Some a => if audio_format_code a =? first then Done i else second_pcm n l (i + 1) first
      end
  end.
Definition edid_check_pcm_declare (c : rx_cap) : outcome rx_cap :=
  let n := sc c AUD_count in
  if negb (truthy n) then Done c
  else
    match RxAudioCap c !! 0%nat with
    | None => Fault
    | Some a0 =>
        let* idx_pcm := second_pcm (Z.to_nat (n - 1)) (RxAudioCap c) 1 (audio_format_code a0) in
        if truthy idx_pcm then
          if (Z.of_nat (length (RxAudioCap c)) <? n) then Fault
          else
            let l := take (Z.to_nat (n - 1)) (tail (RxAudioCap c)) ++ Aud 0 0 0 0 :: drop (Z.to_nat n) (RxAudioCap c) in
            Done (put AUD_count (u8 (n - 1)) (with_aud c l))
        else Done c
    end.

Fixpoint audio_blocks (n : nat) (i : Z) (c : rx_cap) (edid : list Z) : outcome rx_cap :=
  match n with
  | O => Done c
  | S n =>
      let* tag := get edid (i * 0x80) in
      let* c := if (tag =? 0x02) || truthy (sc c edid_check .& 0x01) then hdmitx_edid_audio_block_parse c (adv edid (i * 0x80)) else Done c in
      audio_blocks n (i + 1) c edid
  end.
Definition hdmitx_audio_parse (c : rx_cap) (edid : list Z) : outcome rx_cap :=
  let* ok := hdmitx_edid_check_data_valid (sc c edid_check) edid in
  if negb ok then Done c
  else
    let* cnt := hdmitx_edid_get_cta_block_count edid in
    let* c := audio_blocks (Z.to_nat cnt) 1 c edid in
    let* c := if negb (truthy (sc c AUD_count)) then hdmitx_edid_set_default_aud c else Done c in
    edid_check_pcm_declare c.

(** ** Extension blocks *)

(** The block of preferences is only noted: it is read after the timings. *)
Definition extended_block (buf : list Z) (c : rx_cap * option Z) (offset count : Z) : outcome (rx_cap * option Z) :=
  let (c, vfpdb) := c in
  let keep (m : outcome rx_cap) := let* c := m in Done (c, vfpdb) in
  let p := adv buf offset in
  let* ext_tag := get buf (offset + 1) in
  if ext_tag =? EXTENSION_VENDOR_SPECIFIC then keep (edid_parsingvendspec c p)
  else if ext_tag =? EXTENSION_COLORMETRY_TAG then
    let* d := get buf (offset + 2) in Done (puts [(colorimetry_data, d); (colorimetry_data2, d)] c, vfpdb)
  else if ext_tag =? EXTENSION_DRM_STATIC_TAG then
    let* c := edid_parsedrmsb c p in
    let* d := rdn p 0 (count + 1) in Done (with_lumi c (d :: lumi c), vfpdb)
  else if ext_tag =? EXTENSION_DRM_DYNAMIC_TAG then keep (edid_parsedrmdb c p)
  else if ext_tag =? EXTENSION_VFPDB_TAG then Done (c, Some offset)
  else if ext_tag =? EXTENSION_Y420_VDB_TAG then keep (edid_parsingy420vdb c p)
  else if ext_tag =? EXTENSION_Y420_CMDB_TAG then keep (edid_parsingy420cmdb c p)
  else if ext_tag =? EXTENSION_SCDB_EXT_TAG then keep (hdmitx_edid_parse_hfscdb c (offset + 1) buf count)
  else if ext_tag =? EXTENSION_SBTM_EXT_TAG then keep (hdmitx21_edid_parse_sbtmdb c (offset + 1) buf count)
  else if ext_tag =? EXTENSION_DOLBY_VSADB then keep (edid_parsingdolbyvsadb c p)
  else if ext_tag =? EXTENSION_IFDB_TAG then keep (hdmitx_edid_parse_ifdb (put ifdb_present 1 c) p)
  else Done (c, vfpdb).

Definition vendor_block (buf : list Z) (c : rx_cap) (offset count : Z) : outcome rx_cap :=
  let* hdmi := starts buf (offset + 1) [0x03; 0x0c; 0x00] in
  if hdmi then hdmitx_edid_parse_hdmi14 c (offset + 1) buf count
  else
    let* forum := starts buf (offset + 1) [0xd8; 0x5d; 0xc4] in
    if forum then hdmitx_edid_parse_hfscdb c (offset + 1) buf count else Done c.

Definition data_block (buf : list Z) (c : rx_cap * option Z) (tag offset count : Z) : outcome (rx_cap * option Z) :=
  let keep (m : outcome rx_cap) := let* c' := m in Done (c', snd c) in
  if tag =? HDMI_EDID_BLOCK_TYPE_VIDEO then keep (store_svds (Z.to_nat count) (fst c) buf (offset + 1))
  else if tag =? HDMI_EDID_BLOCK_TYPE_VENDER then keep (vendor_block buf (fst c) offset count)
  else if tag =? HDMI_EDID_BLOCK_TYPE_SPEAKER then
    keep (let* d := get buf (offset + 1) in Done (put RxSpeakerAllocation d (fst c)))
  else if tag =? HDMI_EDID_BLOCK_TYPE_EXTENDED_TAG then extended_block buf c offset count
  else Done c.

(** Descriptors behind the data blocks, while 18 bytes are left; the offset
    has eight bits. *)
Fixpoint ext_dtds (fuel : nat) (c : rx_cap) (buf : list Z) (offset : Z) : outcome rx_cap :=
  match fuel with
  | O => Spin
  | S fuel =>
      if offset + 18 <? 0x7f then
        let* c := edid_dtd_parsing c (adv buf offset) in
        ext_dtds fuel c buf (u8 (offset + 18))
      else Done c
  end.

Definition hdmitx_edid_cta_block_parse (c : rx_cap) (buf : list Z) : outcome rx_cap :=
  let* end_ := get buf 2 in
  let* rev := get buf 1 in
  let* b3 := get buf 3 in
  let c := put native_Mode (if 2 <=? rev then b3 else 0) c in
  let c := put number_of_dtd (u8 (sc c number_of_dtd + if 2 <=? rev then b3 .& 0xf else 0)) c in
  let c := put_array SVD_VIC (replicate 128 0) (put SVD_VIC_count 0 c) in
  let c := edid_y420cmdb_reset c in
  if 127 <? end_ then Done c
  else
    let* (c, vfpdb_offset) := if rev <=? 2 then Done (c, None) else walk (data_block buf) 128 buf 4 end_ (c, None) in
    let* c := edid_y420cmdb_postprocess c in
    let* c := ext_dtds 8 c buf end_ in
    match vfpdb_offset with Some o => edid_parsingvfpdb c (adv buf o) | None => Done c end.

(** ** The whole EDID *)

Fixpoint put_vics (l : list Z) (i : Z) (c : rx_cap) : outcome rx_cap :=
  match l with [] => Done c | v :: l => let* c := aset VIC i v c in put_vics l (i + 1) c end.
Definition hdmitx_edid_set_default_vic (c : rx_cap) : outcome rx_cap :=
  let* c := put_vics [3; 4; 5; 16] 0 (put VIC_count 4 c) in
  Done (put native_vic 3 c).

Definition hdmitx_edid_search_IEEEOUI (buf : list Z) : outcome bool :=
  let* l := rdn buf 0 0x180 in
  Done (existsb (fun i => bool_decide (take 3 (drop i l) = [0x03; 0x0c; 0x00])) (seq 0 (0x180 - 2))).

Definition edid_zero_data (buf : list Z) : outcome bool := let* s := block_sum buf in Done (s =? 0).

Definition is_4k60_supported (c : rx_cap) : bool :=
  existsb (fun v => (v .& 0xff =? 96) || (v .& 0xff =? 97)) (take (Z.to_nat (Z.min (sc c VIC_count) VIC_MAX_NUM)) (ar c VIC)).
Definition is_support_y422 (c : rx_cap) : bool := has (sc c native_Mode) 4.

Definition check_dv_truly_support (i : bool) (c : rx_cap) : rx_cap :=
  let dv f := sc c (Dv i f) in
  if (dv dv_ieeeoui =? DV_IEEE_OUI) && (dv ver <=? 2) then
    let (c, clk) :=
      if truthy (sc c Max_TMDS_Clock2) then (c, u32 (sc c Max_TMDS_Clock2 * 5))
      else
        let c := if sc c Max_TMDS_Clock1 <? 0xf then put Max_TMDS_Clock1 DEFAULT_MAX_TMDS_CLK c else c in
        (c, sc c Max_TMDS_Clock1 * 5) in
    let fast := 594 <=? clk in
    let sup := truthy (dv sup_2160p60hz) in
    let as_z (b : bool) := if b then 1 else 0 in
    let set b c := putd i [(sup_2160p60hz, as_z b)] c in
    if dv ver =? 0 then set (sup && fast) c
    else if dv ver =? 1 then
      if dv dv_length =? 0x0b then
        if dv low_latency =? 0x00 then set (sup && fast) c
        else if dv low_latency =? 0x01 then set ((sup || is_4k60_supported c) && fast) c
        else c
      else if dv dv_length =? 0x0e then set (sup && fast) c
      else c
    else set (is_4k60_supported c && fast) c
  else c.

Definition edid_set_fallback_mode (c : rx_cap) : outcome rx_cap :=
  let c := puts [(ieeeoui, HDMI_IEEE_OUI); (phy_a, 0xf); (phy_b, 0xf); (phy_c, 0xf); (phy_d, 0xf); (phy_valid, 0);
                 (Max_TMDS_Clock1, DEFAULT_MAX_TMDS_CLK); (native_Mode, 0); (dc_y444, 0); (VIC_count, 3)] c in
  let* c := put_vics [16; 4; 3] 0 c in
  hdmitx_edid_set_default_aud (put native_vic 4 c).

(** The mode that the user set, on ODROID. *)
Definition forced_oui (c : rx_cap) : rx_cap :=
  if odroid then
    if voutmode =? VOUTMODE_DVI then put ieeeoui 0 c
    else if voutmode =? VOUTMODE_HDMI then put ieeeoui HDMI_IEEE_OUI c
    else c
  else c.

Definition _edid_parse_base_structure (c : rx_cap) (edid : list Z) : outcome rx_cap :=
  let* c := edid_parsing_id_manufacturer_name c (adv edid 8) in
  let* c := edid_parsing_id_product_code c (adv edid 0x0a) in
  let* c := edid_parsing_id_serial_number c (adv edid 0x0c) in
  let* c := edid_established_timings c (adv edid 0x23) in
  let* c := edid_manufacture_date_parse c (adv edid 16) in
  let* c := edid_version_parse c (adv edid 18) in
  let* c := edid_physical_size_parse c (adv edid 21) in
  let* chk := get edid 0x7f in
  let c := put blk0_chksum chk c in
  let* cnt := hdmitx_edid_get_cta_block_count edid in
  if cnt =? 0 then
    let* l := rdn edid 0 128 in
    let zero_numbers := blen (filter (fun x => x = 0) l) in
    let c := put ieeeoui (if u8 (sum l) =? 0 then 0 else HDMI_IEEE_OUI) c in
    Done (forced_oui (if 120 <? zero_numbers then put ieeeoui HDMI_IEEE_OUI c else c))
  else Done c.

Definition hex_digit (d : Z) : Z := if d <=? 9 then d + 48 else d - 10 + 97.
Definition xtochar (v : Z) : list Z := [hex_digit ((v >> 4) .& 0xf); hex_digit (v .& 0xf)].
Definition update_edid_chksum (c : rx_cap) (edid : list Z) : outcome rx_cap :=
  let* b0 := get edid 127 in
  let* b1 := get edid 255 in
  let* b2 := get edid 383 in
  let* b3 := get edid 511 in
  let* l := wr (replicate 11 0) 0 (48 :: 120 :: xtochar b0 ++ xtochar b1 ++ xtochar b2 ++ xtochar b3) in
  Done (put_array hdmichecksum l c).

(** Only whether it is 0 matters. *)
Fixpoint nonzero_blocks (n : nat) (edid : list Z) : outcome Z :=
  match n with
  | O => Done 0
  | S n => let* s := block_sum edid in let* k := nonzero_blocks n (adv edid 128) in Done (if truthy s then k + 1 else k)
  end.
Definition hdmitx_edid_valid_block_num (edid : list Z) : outcome Z :=
  let* n := nonzero_blocks (Z.to_nat EDID_MAX_BLOCK) edid in
  let* a := get edid (128 + 4) in
  let* b := get edid (128 + 5) in
  if (a =? EXTENSION_EEODB_EXT_TAG) && (b =? EXTENSION_EEODB_EXT_CODE) then let* k := get edid (128 + 6) in Done (k + 1)
  else Done n.

Fixpoint cta_blocks (n : nat) (i : Z) (c : rx_cap) (edid : list Z) : outcome rx_cap :=
  match n with
  | O => Done c
  | S n =>
      let* tag := get edid (i * 0x80) in
      let* c := if (tag =? 0x02) || truthy (sc c edid_check .& 0x01) then hdmitx_edid_cta_block_parse c (adv edid (i * 0x80)) else Done c in
      cta_blocks n (i + 1) c edid
  end.

(** The four descriptors of the base block: timings, or tagged texts. *)
Fixpoint descriptors (n : nat) (i : Z) (c : rx_cap) (edid : list Z) : outcome rx_cap :=
  match n with
  | O => Done c
  | S n =>
      let p := adv edid (0x36 + 18 * i) in
      let* d0 := get p 0 in
      let* timing := if truthy d0 then let* d1 := get p 1 in Done (truthy d1) else Done false in
      let* c :=
        if timing then
          if i =? 0 then edid_descriptor_pmt c p else if i =? 1 then edid_descriptor_pmt2 c p else Done c
        else
          let* tag := get p 3 in
          if tag =? TAG_STANDARD_TIMINGS then edid_standardtiming 6 c (adv p 5)
          else if tag =? TAG_CVT_TIMING_CODES then edid_cvt_timing c (adv p 6)
          else if tag =? TAG_ESTABLISHED_TIMING_III then edid_standard_timing_iii c (adv p 6)
          else if tag =? TAG_DISPLAY_PRODUCT_NAME_STRING then edid_receiverproductnameparse c (adv p 5)
          else Done c in
      descriptors n (i + 1) c edid
  end.

Definition base_timings (c : rx_cap) (edid : list Z) : outcome rx_cap :=
  if odroid then let* c := edid_parseceatiming c (adv edid 0x36) in edid_standardtiming 8 c (adv edid 0x26)
  else let* c := edid_standardtiming 8 c (adv edid 0x26) in edid_parseceatiming c (adv edid 0x36).

(** HDMI or DVI: is there an HDMI identifier? *)
Definition decide_oui (c : rx_cap) (edid : list Z) : outcome rx_cap :=
  let* found := hdmitx_edid_search_IEEEOUI (adv edid 128) in
  let c := forced_oui (put ieeeoui (if found then HDMI_IEEE_OUI else 0) c) in
  let* valid := hdmitx_edid_check_data_valid (sc c edid_check) edid in
  let c := put ieeeoui (if valid && negb found then 0 else HDMI_IEEE_OUI) c in
  let* zero := edid_zero_data edid in
  Done (forced_oui (if zero then put ieeeoui HDMI_IEEE_OUI c else c)).

Definition hdmitx_edid_parse (c : rx_cap) (edid : list Z) : outcome rx_cap :=
  let check := sc c edid_check in
  let* cta_block_count := hdmitx_edid_get_cta_block_count edid in
  let* valid := hdmitx_edid_check_data_valid check edid in
  let* bad_head := hdmitx_edid_header_invalid check edid in
  let c := puts [(edid_parsing, if valid then 1 else 0); (head_err, if bad_head then 1 else 0)] c in
  let* ok := checksums_ok (Z.to_nat (cta_block_count + 1)) check edid in
  let c := if ok then c else put chksum_err 1 c in
  if negb valid then edid_set_fallback_mode c
  else
    let* base := _check_base_structure check edid in
    let* c := if base then _edid_parse_base_structure c edid else Done c in
    let* c := if odroid then base_timings c edid else Done c in
    let* c := cta_blocks (Z.to_nat cta_block_count) 1 c edid in
    let* c := if odroid then Done c else base_timings c edid in
    let* v0 := aget VIC 0 c in
    let c := if (sc c flag_vfpdb =? 0) && negb (sc c preferred_mode =? v0) && (sc c number_of_dtd =? 0) then put preferred_mode v0 c else c in
    let* c := descriptors 4 0 c edid in
    let* c := decide_oui c edid in
    let* c := update_edid_chksum c edid in
    let* num := hdmitx_edid_valid_block_num edid in
    let c := if num =? 0 then put ieeeoui HDMI_IEEE_OUI c else c in
    let c := check_dv_truly_support true (check_dv_truly_support false c) in
    let c :=
      if (sc c physical_width =? 0) || (sc c physical_height =? 0) then
        match dtds c with t :: _ => puts [(physical_width, d_h_image_size t); (physical_height, d_v_image_size t)] c | [] => c end
      else c in
    let* zero := edid_zero_data edid in
    if zero || (sc c VIC_count =? 0) then hdmitx_edid_set_default_vic c else Done c.

(** All zero but the check flags; rx_set_hdr_lumi gets two zeros. *)
Definition zero_dtd : dtd := Dtd 0 0 0 0 0 0 0 0 0 0 0 0 0.
Definition hdmitx_edid_rxcap_clear (c : rx_cap) : rx_cap :=
  let z := Cap (fun f => if decide (f = edid_check) then sc c edid_check else 0) (fun a => replicate (array_size a) 0)
             (replicate 60 (Aud 0 0 0 0)) (replicate 16 zero_dtd) (replicate 512 (T3d 0 0 0))
             (fun _ => replicate 4 (Dyn 0 0 0 (replicate 28 0))) (lumi c) in
  let z := puts [(ieeeoui, HDMI_IEEE_OUI); (edid_parsing, 0)] z in
  with_lumi z ([0; 0] :: lumi z).
End Parse.
End Edid.
