(* ===== verification/EdidSafe.v ===== *)
(** * Parsing an EDID returns

    Every function of the parser keeps the arrays of rx_cap in shape, and
    returns, when the bytes that steer its writes are in range; the list of
    modes cannot overflow, whatever the bytes.  Here are the invariant [good],
    the relation [R] between the capabilities before and after a step, and the
    lemmas for all parsers of data blocks and timings. *)

From S2P Require Import Prelude Mem HdmiMode Edid.
From stdpp Require Import base numbers list.
From Stdlib Require Import ZArith Lia.

Local Open Scope Z_scope.
Local Open Scope cint_scope.

Module EdidSafe.
Import HdmiMode Edid.

(** ** Outcomes *)

Definition safe {A} (Q : A -> Prop) (m : outcome A) : Prop := match m with Done a => Q a | _ => False end.

Lemma safe_bind {A B} (Q : B -> Prop) (m : outcome A) (k : A -> outcome B) : safe (fun a => safe Q (k a)) m -> safe Q (obind m k).
Proof. by destruct m. Qed.

Lemma safe_mono {A} (P Q : A -> Prop) (m : outcome A) : safe P m -> (forall a, P a -> Q a) -> safe Q m.
Proof. destruct m; cbn; auto. Qed.

Lemma safe_bind' {A B} (P : A -> Prop) (Q : B -> Prop) (m : outcome A) (k : A -> outcome B) :
  safe P m -> (forall a, P a -> safe Q (k a)) -> safe Q (obind m k).
Proof. intros Hm Hk. apply safe_bind. by eapply safe_mono. Qed.

Lemma safe_inv {A} (Q : A -> Prop) (m : outcome A) : safe Q m -> exists a, m = Done a /\ Q a.
Proof. destruct m; [by eexists|done|done]. Qed.

(** ** Bytes *)

Definition bytes (l : list Z) : Prop := Forall is_byte l.

Lemma bytes_bool l : forallb (fun x => (0 <=? x) && (x <? 256)) l = true -> bytes l.
Proof. intros H. rewrite forallb_forall in H. apply List.Forall_forall. intros x Hx. specialize (H x Hx). unfold is_byte. lia. Qed.

Lemma bytes_adv l i : bytes l -> bytes (adv l i).
Proof. apply Forall_drop. Qed.

Lemma adv_length l i : 0 <= i <= blen l -> blen (adv l i) = blen l - i.
Proof. intros. unfold adv. rewrite length_drop. lia. Qed.

Lemma adv_room l i n : 0 <= i -> n + i <= blen l -> n <= blen (adv l i).
Proof. intros. unfold adv. rewrite length_drop. lia. Qed.

Lemma safe_rdn l i n : bytes l -> 0 <= i -> 0 <= n -> i + n <= blen l -> safe (fun d => blen d = n /\ bytes d) (rdn l i n).
Proof.
  intros Hb Hi Hn Hl. rewrite rdn_Done by done. cbn. split; [rewrite length_take, length_drop; lia|]. by apply Forall_take, Forall_drop.
Qed.

Lemma safe_get l i : bytes l -> 0 <= i < blen l -> safe is_byte (get l i).
Proof.
  intros Hb Hi. unfold get. eapply safe_bind'; [apply safe_rdn; [done|lia|lia|lia]|]. intros d [Hl Hd].
  destruct d; [cbn in Hl; lia|]. by inversion Hd.
Qed.

Lemma safe_get_any l i : bytes l -> 0 <= i < blen l -> safe (fun _ => True) (get l i).
Proof. intros. eapply safe_mono; [by apply safe_get|done]. Qed.

Lemma byte_land x m : 0 <= x -> 0 <= m -> 0 <= x .& m <= m.
Proof.
  intros Hx Hm. split; [by apply Z.land_nonneg; left|]. destruct (Z.lt_trichotomy m 0) as [?|[->|Hp]]; [lia|by rewrite Z.land_0_r|].
  apply Z.ldiff_le; [lia|]. apply Z.bits_inj'. intros i Hi. rewrite Z.ldiff_spec, Z.land_spec, Z.bits_0. by destruct (Z.testbit m i), (Z.testbit x i).
Qed.

Lemma byte_shr x k : 0 <= x < 256 -> 0 <= k -> 0 <= x >> k < 256.
Proof.
  intros Hx Hk. rewrite Z.shiftr_div_pow2 by lia. pose proof (Z.pow_pos_nonneg 2 k ltac:(lia) Hk).
  split; [by apply Z.div_pos; lia|]. apply Z.le_lt_trans with x; [|lia]. apply Z.div_le_upper_bound; nia.
Qed.


(** ** The invariant *)

(** The modes are listed once each, below 256. *)
Record good (c : rx_cap) : Prop := {
  g_arr a : length (ar c a) = array_size a;
  g_dtds : length (dtds c) = 16%nat;
  g_3d : length (support_3d_format c) = 512%nat;
  g_dyn i : length (dynamic_info c i) = 4%nat /\ Forall (fun d => length (optional_fields d) = 28%nat) (dynamic_info c i);
  g_aud : length (RxAudioCap c) = 60%nat;
  g_vic : bytes (ar c VIC);
  g_count : 0 <= sc c VIC_count <= 512;
  g_nodup : NoDup (take (Z.to_nat (sc c VIC_count)) (ar c VIC));
}.

Lemma nodup_bytes l : NoDup l -> bytes l -> blen l <= 256.
Proof.
  intros Hn Hb. assert (Hs : l ⊆+ (Z.of_nat <$> seq 0 256)).
  { apply NoDup_submseteq; [done|]. intros x Hx. unfold bytes in Hb. rewrite Forall_forall in Hb. specialize (Hb x Hx). unfold is_byte in Hb.
    apply list_elem_of_fmap. exists (Z.to_nat x). rewrite elem_of_seq. lia. }
  apply submseteq_length in Hs. rewrite length_fmap, length_seq in Hs. lia.
Qed.

(** There are never more than 256. *)
Lemma good_count c : good c -> sc c VIC_count <= 256.
Proof.
  intros Hg. pose proof (nodup_bytes _ (g_nodup _ Hg) (Forall_take _ _ _ (g_vic _ Hg))) as Hl.
  rewrite length_take, (g_arr _ Hg) in Hl. cbn [array_size] in Hl. destruct Hg as [? ? ? ? ? ? ? ?]. lia.
Qed.

(** The members that later steps depend on. *)
Definition tracked : list field := [SVD_VIC_count; dtd_idx; bitmap_length; bitmap_valid; y420_all_vic; edid_check; AUD_count].
Definition plain (f : field) : bool := negb (bool_decide (f ∈ VIC_count :: tracked)).

(** The modes found so far. *)
Definition modes (c : rx_cap) : list Z := take (Z.to_nat (sc c VIC_count)) (ar c VIC).

(** At most [k] modes are new, none is gone. *)
Record R (k : Z) (c c' : rx_cap) : Prop := {
  r_good : good c';
  r_keep f : f ∈ tracked -> sc c' f = sc c f;
  r_count : sc c VIC_count <= sc c' VIC_count <= sc c VIC_count + k;
  r_modes : modes c ⊆ modes c';
}.

Lemma R_refl c : good c -> R 0 c c.
Proof. intros. split; [done|done|lia|done]. Qed.

Lemma R_trans k1 k2 k c1 c2 c3 : R k1 c1 c2 -> R k2 c2 c3 -> k1 + k2 <= k -> R k c1 c3.
Proof. intros [G1 K1 C1 M1] [G2 K2 C2 M2] Hk. split; [done|intros f Hf; by rewrite K2, K1|lia|by etrans]. Qed.

Lemma R_le k k' c c' : k <= k' -> R k c c' -> R k' c c'.
Proof. intros ? []. split; [done|done|lia|done]. Qed.

Lemma R_plain c f v : good c -> plain f = true -> R 0 c (put f v c).
Proof.
  intros Hg Hp. unfold plain in Hp. apply negb_true_iff, bool_decide_eq_false in Hp.
  assert (Hne : forall g, g ∈ VIC_count :: tracked -> sc (put f v c) g = sc c g).
  { intros g Hin. cbn [put sc]. by rewrite decide_False by congruence. }
  assert (E : sc (put f v c) VIC_count = sc c VIC_count) by (apply Hne; by left).
  destruct Hg. split.
  - split; try done; by rewrite E.
  - intros g Hin. apply Hne. by right.
  - rewrite E. lia.
  - unfold modes. by rewrite E.
Qed.

Lemma R_puts l : forall c, good c -> forallb (fun p => plain (fst p)) l = true -> R 0 c (puts l c).
Proof.
  induction l as [|[f v] l IH]; intros c Hg Hp; [by apply R_refl|]. cbn in Hp. apply andb_prop in Hp. destruct Hp as [Hp1 Hp2].
  pose proof (R_plain c f v Hg Hp1) as H1. eapply R_trans; [exact H1|apply IH; [apply H1|done]|lia].
Qed.

Lemma R_put_after k c c1 f v : R k c c1 -> plain f = true -> R k c (put f v c1).
Proof. intros Hr Hf. eapply R_trans; [exact Hr|apply R_plain; [apply Hr|done]|lia]. Qed.

Lemma R_array a l c : good c -> length l = array_size a -> a <> VIC -> R 0 c (put_array a l c).
Proof.
  intros Hg Hl Ha. destruct Hg. assert (E : ar (put_array a l c) VIC = ar c VIC) by (cbn; by rewrite decide_False by congruence).
  split; [|done|cbn; lia|unfold modes; by rewrite E]. split; try done; rewrite ?E; try done. intros b. cbn. destruct (decide (b = a)) as [->|]; done.
Qed.

Lemma safe_wr l i bs : 0 <= i -> i + blen bs <= blen l -> safe (fun l' => length l' = length l) (wr l i bs).
Proof. intros. rewrite wr_Done by done. cbn. by apply splice_length. Qed.

Lemma safe_aget a i c : good c -> 0 <= i < Z.of_nat (array_size a) -> safe (fun _ => True) (aget a i c).
Proof.
  intros Hg Hi. unfold aget. rewrite rdn_Done; [done|lia|lia|]. rewrite (g_arr _ Hg). lia.
Qed.

Lemma safe_aset a i v c : good c -> a <> VIC -> 0 <= i < Z.of_nat (array_size a) -> safe (R 0 c) (aset a i v c).
Proof.
  intros Hg Ha Hi. unfold aset. eapply safe_bind'; [apply safe_wr; [lia|]|].
  - rewrite (g_arr _ Hg). cbn [length]. lia.
  - intros l Hl. cbn. apply R_array; [done| |done]. by rewrite Hl, (g_arr _ Hg).
Qed.

(** ** Lists of modes *)

Lemma existsb_in v l : existsb (Z.eqb v) l = false -> v ∉ l.
Proof.
  intros He Hin. assert (existsb (Z.eqb v) l = true); [|congruence]. apply existsb_exists. exists v.
  split; [by apply list_elem_of_In|apply Z.eqb_refl].
Qed.

Lemma splice_take_S l n v : (n < length l)%nat -> take (S n) (splice l (Z.of_nat n) [v]) = take n l ++ [v].
Proof.
  intros Hn. unfold splice. rewrite Nat2Z.id. rewrite app_assoc, take_app_le by (rewrite length_app, length_take; cbn; lia).
  apply take_ge. rewrite length_app, length_take. cbn. lia.
Qed.

Lemma bytes_splice l i bs : bytes l -> bytes bs -> bytes (splice l i bs).
Proof. intros. unfold splice. apply Forall_app. split; [by apply Forall_take|]. apply Forall_app. split; [done|by apply Forall_drop]. Qed.

(** Another mode always finds room. *)
Lemma store_cea_safe c v : good c -> is_byte v -> safe (R 1 c) (store_cea_idx c v).
Proof.
  intros Hg Hv. unfold store_cea_idx. destruct (existsb _ _) eqn:E; cbn [negb]; [apply R_le with 0; [lia|by apply R_refl]|].
  pose proof (good_count c Hg) as Hc. pose proof Hg as [G1 G2 G3 G4 G5 G6 G7 G8].
  assert (El : blen (ar c VIC) = 512) by (rewrite G1; done).
  unfold aset. rewrite wr_Done by (cbn [length]; lia). cbn [obind safe].
  rewrite Z.min_r in E by (unfold VIC_MAX_NUM; lia). apply existsb_in in E.
  set (c1 := put_array VIC _ c). assert (Ea : ar c1 VIC = splice (ar c VIC) (sc c VIC_count) [v]) by reflexivity.
  assert (Ec : sc (put VIC_count (u32 (sc c1 VIC_count + 1)) c1) VIC_count = sc c VIC_count + 1).
  { cbn [put sc]. rewrite decide_True by done. change (sc c1 VIC_count) with (sc c VIC_count). apply u32_small. lia. }
  assert (Hs : length (splice (ar c VIC) (sc c VIC_count) [v]) = 512%nat) by (rewrite splice_length; cbn [length]; lia).
  split; [|intros f Hf; cbn [put sc]; rewrite decide_False; [done|intros ->; revert Hf; unfold tracked; rewrite !elem_of_cons, elem_of_nil; intuition discriminate]|lia|]; cycle 1.
  { unfold modes. rewrite Ec. change (ar (put _ _ c1) VIC) with (splice (ar c VIC) (sc c VIC_count) [v]).
    replace (Z.to_nat (sc c VIC_count + 1)) with (S (Z.to_nat (sc c VIC_count))) by lia.
    rewrite <- (Z2Nat.id (sc c VIC_count)) at 3 by lia. rewrite splice_take_S by lia. intros x Hx. apply elem_of_app. by left. }
  split; try done.
  - intros a. cbn. destruct (decide (a = VIC)) as [->|]; [done|apply G1].
  - change (bytes (ar c1 VIC)). rewrite Ea. apply bytes_splice; [done|]. by apply Forall_singleton.
  - lia.
  - rewrite Ec. change (ar (put _ _ c1) VIC) with (ar c1 VIC). rewrite Ea.
    replace (Z.to_nat (sc c VIC_count + 1)) with (S (Z.to_nat (sc c VIC_count))) by lia.
    rewrite <- (Z2Nat.id (sc c VIC_count)) at 2 by lia. rewrite splice_take_S by lia.
    apply NoDup_app. split; [done|]. split; [intros x Hx ->%list_elem_of_singleton; done|apply NoDup_singleton].
Qed.

Lemma store_vesa_safe v n : forall i c, good c -> 0 <= i -> i + Z.of_nat n <= 64 -> safe (R 0 c) (store_vesa n i v c).
Proof.
  induction n as [|n IH]; intros i c Hg Hi Hn; cbn [store_vesa]; [by apply R_refl|].
  eapply safe_bind'; [apply safe_aget; [done|cbn; lia]|]. intros x _. destruct (negb _); [apply safe_aset; [done|done|cbn; lia]|].
  destruct (_ =? _); [by apply R_refl|]. apply IH; [done|lia|lia].
Qed.
Lemma store_vesa_idx_safe c v : good c -> safe (R 0 c) (store_vesa_idx c v).
Proof. intros. apply store_vesa_safe; [done|lia|]. unfold VESA_MAX_TIMING. lia. Qed.

Lemma first_free_safe v n : forall i c, good c -> 0 <= i -> i + Z.of_nat n <= 32 -> safe (R 0 c) (first_free n i v c).
Proof.
  induction n as [|n IH]; intros i c Hg Hi Hn; cbn [first_free]; [by apply R_refl|].
  eapply safe_bind'; [apply safe_aget; [done|cbn; lia]|]. intros x _. destruct (_ =? _); [apply safe_aset; [done|done|cbn; lia]|].
  apply IH; [done|lia|lia].
Qed.
Lemma store_y420_safe c v : good c -> safe (R 0 c) (store_y420_idx c v).
Proof.
  intros. unfold store_y420_idx. destruct (existsb _ _); [by apply R_refl|]. apply first_free_safe; [done|lia|]. unfold Y420_VIC_MAX_NUM. lia.
Qed.

(** ** Automation *)

(** Goals [safe (R k c) m]: bytes that are read, plain members that are set,
    conditions; what is left are the calls. *)
Lemma safe_get_bind {B} (Q : B -> Prop) l i (k : Z -> outcome B) :
  bytes l -> 0 <= i < blen l -> (forall x, is_byte x -> safe Q (k x)) -> safe Q (obind (get l i) k).
Proof. intros. eapply safe_bind'; [by apply safe_get|done]. Qed.

Lemma get_nth l i : 0 <= i < blen l -> get l i = Done (nth (Z.to_nat i) l 0).
Proof.
  intros Hi. unfold get. rewrite rdn_Done by lia. cbn [obind]. f_equal. rewrite <- (Nat.add_0_r (Z.to_nat i)) at 2.
  rewrite <- nth_skipn. change (skipn (Z.to_nat i) l) with (drop (Z.to_nat i) l).
  destruct (drop (Z.to_nat i) l) as [|x l'] eqn:E; [|done].
  apply (f_equal length) in E. rewrite length_drop in E. cbn in E. lia.
Qed.
Lemma safe_get_bind_nth {B} (Q : B -> Prop) l i (k : Z -> outcome B) :
  bytes l -> 0 <= i < blen l -> safe Q (k (nth (Z.to_nat i) l 0)) -> safe Q (obind (get l i) k).
Proof. intros _ Hi Hk. by rewrite get_nth by done. Qed.

Lemma safe_rdn_bind {B} (Q : B -> Prop) l i n (k : list Z -> outcome B) :
  bytes l -> 0 <= i -> 0 <= n -> i + n <= blen l -> (forall d, blen d = n -> bytes d -> safe Q (k d)) -> safe Q (obind (rdn l i n) k).
Proof. intros ? ? ? ? Hk. eapply safe_bind'; [by apply safe_rdn|]. intros d [? ?]. by apply Hk. Qed.

Lemma safe_rdn0_bind {B} (Q : B -> Prop) l n (k : list Z -> outcome B) : 0 <= n <= blen l -> safe Q (k (take (Z.to_nat n) l)) -> safe Q (obind (rdn l 0 n) k).
Proof. intros. by rewrite rdn_Done by lia. Qed.

Lemma safe_R_bind k1 k2 k c (m : outcome rx_cap) (f : rx_cap -> outcome rx_cap) :
  safe (R k1 c) m -> (forall c', good c' -> safe (R k2 c') (f c')) -> k1 + k2 <= k -> safe (R k c) (obind m f).
Proof.
  intros Hm Hf Hk. eapply safe_bind'; [exact Hm|]. intros c' Hr. eapply safe_mono; [apply Hf, Hr|]. intros c2 Hr2. by eapply R_trans.
Qed.

(** Members set first. *)
Lemma safe_R_after k c c1 (m : outcome rx_cap) : R 0 c c1 -> (good c1 -> safe (R k c1) m) -> safe (R k c) m.
Proof. intros Hr Hm. eapply safe_mono; [apply Hm, Hr|]. intros c2 Hr2. eapply R_trans; [exact Hr|exact Hr2|lia]. Qed.

Lemma safe_le k k' c (m : outcome rx_cap) : k <= k' -> safe (R k c) m -> safe (R k' c) m.
Proof. intros Hk Hm. eapply safe_mono; [exact Hm|]. intros c'. by apply R_le. Qed.

Lemma safe_state_let k c e (m : rx_cap -> outcome rx_cap) : R 0 c e -> (forall c1, good c1 -> safe (R k c1) (m c1)) -> safe (R k c) (m e).
Proof. intros He Hm. eapply safe_R_after; [exact He|]. apply Hm. Qed.

Ltac room := first [assumption | apply bytes_adv; assumption
  | rewrite ?adv_length; unfold is_byte in *; cbn [array_size length]; lia ].
Ltac plain_puts := unfold putd, puth, puts_sbtm;
  first [apply R_refl; assumption | apply R_puts; [assumption|reflexivity] | apply R_plain; [assumption|reflexivity]
  | apply R_array; [assumption|reflexivity|discriminate] | case_match; plain_puts ].
(** The step that a let does, then the rest. *)
Ltac step_let := match goal with |- safe (R ?k ?c) (let x := ?e in @?b x) => refine (safe_state_let k c e b _ _) end.
Ltac step_val := match goal with |- safe ?Q (let x := ?a in @?b x) => change (safe Q (b a)); cbv beta end.
Ltac state_let m c := match m with
  | (let x := ?e in @?b x) =>
      lazymatch type of e with
      | rx_cap => match goal with |- safe (R ?k c) _ =>
          refine (safe_state_let k c e b _ _); [plain_puts|intros ? ?; cbv beta; try clear dependent c] end
      | _ => step_val
      end
  end.
Ltac go :=
  repeat first
    [ match goal with
      | |- safe ?Q (obind (get ?l ?i) ?k) => refine (safe_get_bind Q l i k _ _ _); [room|room|intros ? ?; cbv beta]
      | |- safe ?Q (obind (rdn ?l ?i ?n) ?k) => refine (safe_rdn_bind Q l i n k _ _ _ _ _); [room|room|room|room|intros ? ? ?; cbv beta]
      | |- safe (R _ ?c) (Done _) => cbn [safe]; apply R_le with 0; [lia|plain_puts]
      | |- safe (R _ ?c) (store_vesa_idx ?c _) => apply safe_le with 0; [lia|by apply store_vesa_idx_safe]
      | |- safe (R _ ?c) (store_cea_idx ?c _) => apply safe_le with 1; [lia|apply store_cea_safe; [assumption|]]
      | |- safe _ (if ?b then _ else _) => destruct b eqn:?
      | |- safe (R _ ?c) ?m => state_let m c
      end ].

(** Unfolds an operation without reducing its lets. *)
Tactic Notation "op" reference(f) := intros; cbv beta delta [f]; go.

Lemma safe_wr_array a i L c : good c -> a <> VIC -> 0 <= i -> i + blen L <= Z.of_nat (array_size a) ->
  safe (R 0 c) (let* l := wr (ar c a) i L in Done (put_array a l c)).
Proof.
  intros Hg Ha Hi Hl. eapply safe_bind'; [apply safe_wr; [done|]|].
  - by rewrite (g_arr _ Hg).
  - intros l Hle. cbn [safe]. apply R_array; [done| |done]. by rewrite Hle, (g_arr _ Hg).
Qed.

Lemma R_upd_dtds c l : good c -> length l = 16%nat -> R 0 c (with_dtds c l).
Proof. intros [] Hl. split; [by split|done|cbn; lia|done]. Qed.
Lemma R_upd_3d c l : good c -> length l = 512%nat -> R 0 c (with_3d c l).
Proof. intros [] Hl. split; [by split|done|cbn; lia|done]. Qed.
Lemma R_lumi c l : good c -> R 0 c (with_lumi c l).
Proof. intros []. split; [by split|done|cbn; lia|done]. Qed.

Lemma safe_upd_at {A} (l : list A) i g : 0 <= i < Z.of_nat (length l) -> safe (fun l' => length l' = length l) (upd_at l i g).
Proof.
  intros Hi. unfold upd_at. rewrite (proj2 (Z.ltb_ge _ _)) by lia. destruct (l !! Z.to_nat i) eqn:E.
  - cbn. apply length_insert.
  - apply lookup_ge_None in E. lia.
Qed.

Lemma safe_upd_forall {A} (P : A -> Prop) (l : list A) i g : 0 <= i < Z.of_nat (length l) -> Forall P l -> (forall x, P x -> P (g x)) ->
  safe (fun l' => length l' = length l /\ Forall P l') (upd_at l i g).
Proof.
  intros Hi Hl Hg. unfold upd_at. rewrite (proj2 (Z.ltb_ge _ _)) by lia. destruct (l !! Z.to_nat i) eqn:E.
  - cbn. split; [apply length_insert|]. apply Forall_insert; [done|]. apply Hg. by eapply Forall_lookup_1.
  - apply lookup_ge_None in E. lia.
Qed.

Section Leaves.
Context (odroid : bool) (custom : hdmi_timing) (voutmode : Z) (Hcustom : vic custom = 253).

(** ** The base block *)

Lemma manufacturer_safe c d : good c -> bytes d -> 2 <= blen d -> safe (R 0 c) (edid_parsing_id_manufacturer_name c d).
Proof. op edid_parsing_id_manufacturer_name. apply safe_wr_array; [done|done|lia|cbn; lia]. Qed.

Lemma product_safe c d : good c -> bytes d -> 2 <= blen d -> safe (R 0 c) (edid_parsing_id_product_code c d).
Proof. op edid_parsing_id_product_code. apply safe_wr_array; [done|done|lia|cbn; lia]. Qed.

Lemma serial_safe c d : good c -> bytes d -> 4 <= blen d -> safe (R 0 c) (edid_parsing_id_serial_number c d).
Proof. op edid_parsing_id_serial_number. apply safe_wr_array; [done|done|lia|]. rewrite length_rev. cbn. lia. Qed.

Lemma store_bits_safe d l : bytes d -> Forall (fun p => 0 <= p.1.1 < blen d) l -> forall c, good c -> safe (R 0 c) (store_bits l c d).
Proof.
  intros Hd. induction 1 as [|[[byte b] v] l Hp Hl IH]; intros c Hg; cbn [store_bits]; [by apply R_refl|]. cbn in Hp.
  apply safe_get_bind; [done|done|intros x Hx]. apply safe_R_bind with 0 0; [|done|lia]. destruct (has x b); go.
Qed.
Lemma established_safe c d : good c -> bytes d -> 2 <= blen d -> safe (R 0 c) (edid_established_timings c d).
Proof. intros. apply store_bits_safe; [done| |done]. repeat constructor; cbn; lia. Qed.
Lemma timing_iii_safe c d : good c -> bytes d -> 5 <= blen d -> safe (R 0 c) (edid_standard_timing_iii c d).
Proof. intros. apply store_bits_safe; [done| |done]. repeat constructor; cbn; lia. Qed.

Lemma calc_timing_safe c d : good c -> bytes d -> 2 <= blen d -> safe (R 0 c) (calc_timing c d).
Proof. op calc_timing. Qed.
Lemma standardtiming_safe n : forall c d, good c -> bytes d -> 2 * Z.of_nat n <= blen d -> safe (R 0 c) (edid_standardtiming n c d).
Proof.
  induction n as [|n IH]; intros c d Hg Hd Hl; cbn [edid_standardtiming]; [by apply R_refl|].
  apply safe_R_bind with 0 0; [apply calc_timing_safe; [done|done|lia]| |lia]. intros c' Hg'. apply IH; [done|room|].
  rewrite adv_length; lia.
Qed.

Lemma name_loop_safe d n : forall i c, good c -> bytes d -> 0 <= i -> i + Z.of_nat n <= 13 -> 13 <= blen d ->
  safe (fun p => R 0 c p.1 /\ 0 <= p.2 <= 13) (name_loop n i c d).
Proof.
  induction n as [|n IH]; intros i c Hg Hd Hi Hn Hl; cbn [name_loop]; [split; [by apply R_refl|cbn; lia]|].
  apply safe_get_bind; [done|lia|intros x Hx]. destruct (_ || _); [split; [by apply R_refl|cbn; lia]|].
  eapply safe_bind'; [apply safe_aset; [done|done|cbn; lia]|]. intros c' Hr. eapply safe_mono; [apply IH; [apply Hr|done|lia|lia|done]|].
  intros [c2 j] [H2 Hj]. split; [|done]. eapply R_trans; [exact Hr|exact H2|lia].
Qed.
Lemma name_safe c d : good c -> bytes d -> 13 <= blen d -> safe (R 0 c) (edid_receiverproductnameparse c d).
Proof.
  intros. unfold edid_receiverproductnameparse. eapply safe_bind'; [by apply name_loop_safe|]. intros [c' i] [Hr Hi]. cbn [fst snd] in *.
  eapply safe_R_after; [exact Hr|]. intros. apply safe_aset; [done|done|cbn; lia].
Qed.

Lemma date_safe c d : good c -> bytes d -> 2 <= blen d -> safe (R 0 c) (edid_manufacture_date_parse c d).
Proof. op edid_manufacture_date_parse. Qed.
Lemma version_safe c d : good c -> bytes d -> 2 <= blen d -> safe (R 0 c) (edid_version_parse c d).
Proof. op edid_version_parse. Qed.
Lemma physical_safe c d : good c -> bytes d -> 2 <= blen d -> safe (R 0 c) (edid_physical_size_parse c d).
Proof. op edid_physical_size_parse. Qed.

Lemma pmt_safe c d : good c -> bytes d -> 8 <= blen d -> safe (R 0 c) (edid_descriptor_pmt c d).
Proof.
  op edid_descriptor_pmt. Qed.
Lemma pmt2_safe c d : good c -> bytes d -> 8 <= blen d -> safe (R 0 c) (edid_descriptor_pmt2 c d).
Proof. op edid_descriptor_pmt2. Qed.

Lemma cvt_loop_safe n : forall c d, good c -> bytes d -> 3 * Z.of_nat n <= blen d -> safe (R 0 c) (cvt_loop n c d).
Proof.
  induction n as [|n IH]; intros c d Hg Hd Hl; cbn [cvt_loop]; [by apply R_refl|].
  eapply safe_bind' with (P := fun _ => True); [unfold edid_cvt_timing_3bytes; go; done|]. intros v _.
  apply safe_R_bind with 0 0; [go| |lia]. intros c' Hg'. apply IH; [done|room|]. rewrite adv_length; lia.
Qed.
Lemma cvt_safe c d : good c -> bytes d -> 12 <= blen d -> safe (R 0 c) (edid_cvt_timing c d).
Proof. intros. apply cvt_loop_safe; [done|done|lia]. Qed.

(** ** Vendor blocks *)

Lemma R_vsdb c : good c -> R 0 c (set_vsdb_dc_cap c).
Proof. intros. unfold set_vsdb_dc_cap. plain_puts. Qed.
Lemma R_vsdb_after k c c1 : R k c c1 -> R k c (set_vsdb_dc_cap c1).
Proof. intros Hr. eapply R_trans; [exact Hr|apply R_vsdb, Hr|lia]. Qed.
Lemma dc_420_safe c d : good c -> bytes d -> 7 <= blen d -> safe (R 0 c) (set_vsdb_dc_420_cap c d).
Proof. op set_vsdb_dc_420_cap. Qed.
Lemma latency_safe c d : good c -> bytes d -> 2 <= blen d -> safe (R 0 c) (get_latency c d).
Proof. op get_latency. Qed.
Lemma ilatency_safe c d : good c -> bytes d -> 2 <= blen d -> safe (R 0 c) (get_ilatency c d).
Proof. op get_ilatency. Qed.

Lemma hdmi14_vic_byte d v : hdmi14_vic d = Some v -> is_byte v.
Proof. unfold hdmi14_vic. repeat case_match; intros; simplify_eq; unfold is_byte; lia. Qed.
Lemma vic4k_safe n : forall c d, good c -> bytes d -> Z.of_nat n <= blen d -> safe (R (Z.of_nat n) c) (vic4k_loop n c d).
Proof.
  induction n as [|n IH]; intros c d Hg Hd Hl; cbn [vic4k_loop]; [by apply R_refl|].
  apply safe_get_bind; [done|lia|intros x Hx]. apply safe_R_bind with 1 (Z.of_nat n); [| |lia].
  - destruct (hdmi14_vic x) eqn:E; [apply store_cea_safe; [done|by eapply hdmi14_vic_byte]|go].
  - intros c' Hg'. apply IH; [done|room|]. rewrite adv_length; lia.
Qed.
Lemma parse_4k2k_safe c d size : good c -> bytes d -> 4 <= blen d -> safe (R 4 c) (hdmitx_edid_4k2k_parse c d size).
Proof.
  intros. unfold hdmitx_edid_4k2k_parse. destruct (_ || _) eqn:E; [go|]. apply orb_false_iff in E. destruct E as [?%Z.ltb_ge ?%Z.eqb_neq].
  destruct (Z.le_gt_cases size 0) as [Hs|Hs].
  - replace (Z.to_nat size) with 0%nat by lia. cbn. apply R_le with 0; [lia|by apply R_refl].
  - apply safe_le with (Z.of_nat (Z.to_nat size)); [lia|]. apply vic4k_safe; [done|done|lia].
Qed.

Lemma aget_vic c i : good c -> 0 <= i < 512 -> safe is_byte (aget VIC i c).
Proof.
  intros Hg Hi. unfold aget. eapply safe_bind'; [apply safe_rdn; [apply Hg|lia|lia|]|].
  - rewrite (g_arr _ Hg). cbn [array_size]. lia.
  - intros d [Hl Hb]. destruct d; [cbn in Hl; lia|]. by inversion Hb.
Qed.
Lemma set_3d_safe c g i : good c -> 0 <= i < 16 -> safe (R 0 c) (set_3d g i c).
Proof.
  intros Hg Hi. unfold set_3d. eapply safe_bind'; [apply aget_vic; [done|lia]|]. intros v Hv.
  eapply safe_bind'; [apply safe_upd_at|].
  - rewrite (g_3d _ Hg). unfold is_byte in Hv. lia.
  - intros l Hl. cbn [safe]. apply R_upd_3d; [done|]. by rewrite Hl, (g_3d _ Hg).
Qed.

Lemma safe_if k c (b : bool) m : good c -> safe (R k c) m -> 0 <= k -> safe (R k c) (if b then m else Done c).
Proof. intros. destruct b; [done|]. apply safe_le with 0; [done|]. by apply R_refl. Qed.

(** Steps that add no mode. *)
Lemma safe_seq k c (m : outcome rx_cap) (f : rx_cap -> outcome rx_cap) :
  safe (R 0 c) m -> (forall c', good c' -> safe (R k c') (f c')) -> safe (R k c) (obind m f).
Proof. intros. by apply safe_R_bind with 0 k. Qed.

Lemma update_3d_safe n : forall j c, good c -> 0 <= j -> j + Z.of_nat n <= 16 -> safe (R 0 c) (update_3d n j c).
Proof.
  induction n as [|n IH]; intros j c Hg Hj Hn; cbn [update_3d]; [by apply R_refl|].
  apply safe_seq; [|intros; apply IH; [done|lia|lia]]. apply safe_if; [done| |lia].
  apply safe_seq; [apply safe_if; [done|by apply set_3d_safe; [|lia]|lia]|intros].
  apply safe_seq; [apply safe_if; [done|by apply set_3d_safe; [|lia]|lia]|intros].
  apply safe_if; [done|by apply set_3d_safe; [|lia]|lia].
Qed.
Lemma all_3d_safe n : forall j c, good c -> 0 <= j -> j + Z.of_nat n <= 16 -> safe (R 0 c) (all_3d n j c).
Proof.
  induction n as [|n IH]; intros j c Hg Hj Hn; cbn [all_3d]; [by apply R_refl|]. apply safe_if; [done| |lia].
  do 3 (apply safe_seq; [by apply set_3d_safe; [|lia]|intros]). apply IH; [done|lia|lia].
Qed.

Lemma structures_safe d size f : forall c pos, good c -> bytes d -> 0 <= pos -> 0 <= size -> pos <= size + 30 -> size + 31 <= blen d ->
  (0 < f)%nat -> size - pos < Z.of_nat f -> safe (R 0 c) (structures_3d f c d pos size).
Proof.
  induction f as [|f IH]; intros c pos Hg Hd Hp Hs Hps Hl H0 Hf; [lia|]. cbn [structures_3d]. destruct (Z.ltb_spec pos size); [|go].
  apply safe_get_bind; [done|lia|intros x Hx; cbv beta zeta].
  assert (Hi : 0 <= (x .& 0xf0) >> 4 < 16).
  { unfold is_byte in Hx. pose proof (byte_land x 0xf0 ltac:(lia) ltac:(lia)). rewrite Z.shiftr_div_pow2 by lia. split; [apply Z.div_pos; lia|apply Z.div_lt_upper_bound; lia]. }
  destruct (x .& 15 <? 8).
  - apply safe_seq; [apply safe_if; [done|by apply set_3d_safe|lia]|intros].
    apply safe_seq; [apply safe_if; [done|by apply set_3d_safe|lia]|intros]. apply IH; [done|done|lia..].
  - apply safe_seq; [|intros; apply IH; [done|done|lia..]]. apply safe_if; [done| |lia]. go. by apply set_3d_safe.
Qed.

Lemma parse_3d_safe c d size : good c -> bytes d -> 0 <= size <= 24 -> 55 <= blen d -> safe (R 0 c) (hdmitx_edid_3d_parse c d size).
Proof.
  intros Hg Hd Hs Hl. unfold hdmitx_edid_3d_parse. apply safe_get_bind; [done|lia|intros x Hx; cbv beta].
  set (pos := _ + (if has x 6 then 2 else 0)). assert (Hp : 1 <= pos <= 5) by (subst pos; repeat case_match; lia). clearbody pos.
  eapply safe_bind' with (P := fun p : rx_cap * Z => R 0 c p.1 /\ 1 <= p.2 <= 19).
  - destruct (has x 5); [|split; [by apply R_refl|cbn; lia]].
    apply safe_get_bind; [done|lia|intros y Hy; cbv beta]. cbv zeta. apply safe_get_bind; [done|lia|intros z Hz; cbv beta].
    set (c1 := puts _ c). assert (R1 : R 0 c c1) by (subst c1; plain_puts). set (c2 := puts _ c1).
    assert (R2 : R 0 c c2) by (eapply R_trans; [exact R1|subst c2; apply R_puts; [apply R1|reflexivity]|lia]).
    assert (E : sc c2 hdmi_vic_LEN = z >> 5) by reflexivity. rewrite E.
    assert (Hz5 : 0 <= z >> 5 <= 7).
    { unfold is_byte in Hz. rewrite Z.shiftr_div_pow2 by lia. split; [apply Z.div_pos; lia|apply Z.lt_succ_r, Z.div_lt_upper_bound; lia]. }
    clearbody c1 c2. destruct (_ || _); [|split; [done|cbn; lia]].
    apply safe_get_bind; [done|lia|intros ? _; cbv beta]. apply safe_get_bind; [done|lia|intros ? _; cbv beta].
    destruct (_ =? _); [split; [|cbn; lia]|].
    + by repeat apply R_put_after.
    + apply safe_get_bind; [done|lia|intros ? _; cbv beta]. apply safe_get_bind; [done|lia|intros ? _; cbv beta]. split; [|cbn; lia].
      by repeat apply R_put_after.
  - intros [c1 p] [Hr Hpp]. cbn [fst snd] in *. apply safe_R_after with c1; [done|]. intros Hg1.
    apply safe_seq; [apply structures_safe; [done|done|lia..]|]. intros. destruct (_ =? _); [apply all_3d_safe|apply update_3d_safe]; (done || lia).
Qed.

Lemma hdmi14_safe c offset d count : good c -> bytes d -> 0 <= offset -> offset + 62 <= blen d -> 0 <= count <= 31 ->
  safe (R count c) (hdmitx_edid_parse_hdmi14 c offset d count).
Proof.
  intros Hg Hd Ho Hl Hc. cbv beta delta [hdmitx_edid_parse_hdmi14].
  step_let; [plain_puts|intros c1 Hg1; cbv beta].
  eapply safe_bind' with (P := fun _ => True); [destruct (5 <? count); [apply safe_get_any; room|done]|intros deep _].
  step_let; [apply R_vsdb_after; by apply R_plain|intros c2 Hg2; cbv beta].
  eapply safe_bind' with (P := fun _ => True); [destruct (6 <? count); [apply safe_get_any; room|done]|intros clk _].
  step_let; [plain_puts|intros c3 Hg3; cbv beta]. clear dependent c. clear dependent c1. clear dependent c2.
  destruct (Z.ltb_spec 7 count); [|go]. apply safe_get_bind; [done|lia|intros tmp _; cbv beta]. step_val.
  eapply safe_bind' with (P := fun p : rx_cap * Z => R 0 c3 p.1 /\ offset + 8 <= p.2 <= offset + 12).
  - destruct (has tmp 6); [|destruct (has tmp 7)].
    + eapply safe_bind'; [apply latency_safe; [done|room|room]|intros c1 R1]. eapply safe_bind'; [apply ilatency_safe; [apply R1|room|room]|intros c2 R2].
      split; [by eapply R_trans|cbn; lia].
    + eapply safe_bind'; [apply latency_safe; [done|room|room]|intros c1 R1]. split; [done|cbn; lia].
    + split; [by apply R_refl|cbn; lia].
  - intros [c1 i] [R1 Hi]. cbn [fst snd] in R1, Hi. cbv beta iota. eapply safe_R_after; [exact R1|]. intros Hg1. clear dependent c3.
    step_let; [plain_puts|intros c Hg; cbv beta]. clear dependent c1. destruct (has tmp 5); [|go]. step_val.
    apply safe_get_bind; [done|lia|intros x _; cbv beta]. apply safe_R_bind with 4 0; [| |lia].
    + destruct (truthy _); [apply parse_4k2k_safe; [done|room|room]|go].
    + intros c' Hg'. apply safe_get_bind; [done|lia|intros y _; cbv beta]. apply safe_if; [done| |lia].
      apply parse_3d_safe; [done|room|lia|room].
Qed.

Lemma hfscdb_safe c offset d count : good c -> bytes d -> 0 <= offset -> offset + 62 <= blen d ->
  safe (R 0 c) (hdmitx_edid_parse_hfscdb c offset d count).
Proof.
  op hdmitx_edid_parse_hfscdb. apply safe_seq; [apply dc_420_safe; [done|room|room]|]. intros. go.
Qed.

(** ** Vendor-specific video *)

Lemma R_clear_dv i c : good c -> R 0 c (clear_dv i c).
Proof.
  intros Hg. set (c1 := Cap (fun f => match f with Dv j _ => if bool_decide (i = j) then 0 else sc c f | _ => sc c f end)
    (ar c) (RxAudioCap c) (dtds c) (support_3d_format c) (dynamic_info c) (lumi c)).
  assert (H1 : R 0 c c1).
  { destruct Hg. split; [by split| |cbn; lia|done]. intros f Hf. unfold tracked in Hf. rewrite !elem_of_cons, elem_of_nil in Hf.
    destruct f; intuition discriminate || done. }
  eapply R_trans; [exact H1|apply (R_array (DvRaw i) _ c1); [apply H1|done|done]|lia].
Qed.

Lemma pair12_safe i x y d pos c : good c -> bytes d -> 0 <= pos -> pos + 3 <= blen d -> safe (R 0 c) (pair12 i x y d pos c).
Proof. op pair12. Qed.

Lemma dv_ver0_safe i d c : good c -> bytes d -> 32 <= blen d -> safe (R 0 c) (dv_ver0 i d c).
Proof. op dv_ver0. do 5 (apply safe_seq; [by apply pair12_safe; [done..|lia|lia]|intros]). go. Qed.
Lemma dv_ver1_safe i d c : good c -> bytes d -> 32 <= blen d -> safe (R 0 c) (dv_ver1 i d c).
Proof. op dv_ver1.
Qed.
Lemma dv_ver2_safe i d c : good c -> bytes d -> 32 <= blen d -> safe (R 0 c) (dv_ver2 i d c).
Proof. op dv_ver2. Qed.
Lemma cuva_safe i d c : good c -> bytes d -> 32 <= blen d -> safe (R 0 c) (parse_cuva i d c).
Proof.
  intros. unfold parse_cuva. apply safe_rdn_bind; [done|lia|lia|lia|]. intros raw Hl _. cbn [safe]. unfold puth.
  eapply R_trans; [apply (R_array (CuvaRaw i) raw); [done|cbn; lia|done]|apply R_puts; [|done]|done]. apply R_array; [done|cbn; lia|done].
Qed.

(** A Dolby Vision block is copied to 27 bytes. *)
Definition dv_fits (d : list Z) : bool :=
  let b k := nth k d 0 in
  negb (b 2%nat + (b 3%nat << 8) + (b 4%nat << 16) =? DV_IEEE_OUI) || (b 0%nat .& 0x1f <=? 26).

Lemma nth_take_lt (l : list Z) n k : (k < n)%nat -> nth k (take n l) 0 = nth k l 0.
Proof. intros. rewrite <- (take_drop n l) at 2. destruct (Nat.lt_ge_cases k (length (take n l))).
  - by rewrite app_nth1.
  - rewrite nth_overflow by done. rewrite length_take in *. rewrite nth_overflow; [done|]. rewrite take_drop. lia.
Qed.

Lemma vendspec1_safe i d c : good c -> bytes d -> 32 <= blen d -> dv_fits d = true -> safe (R 0 c) (_edid_parsingvendspec i c d).
Proof.
  intros Hg Hd Hl Hf. cbv beta delta [_edid_parsingvendspec]. apply safe_rdn0_bind; [lia|]. change (Z.to_nat 5) with 5%nat. cbv beta.
  rewrite !nth_take_lt by lia. set (b k := nth k d 0).
  change (negb (b 2%nat + (b 3%nat << 8) + (b 4%nat << 16) =? DV_IEEE_OUI) || (b 0%nat .& 0x1f <=? 26) = true) in Hf.
  change (nth 0 d 0) with (b 0%nat); change (nth 1 d 0) with (b 1%nat); change (nth 2 d 0) with (b 2%nat); change (nth 3 d 0) with (b 3%nat);
  change (nth 4 d 0) with (b 4%nat).
  assert (H0 : is_byte (b 0%nat)) by apply nth_byte, Hd. clearbody b. step_val. destruct (negb (b 1%nat =? 1)); [go|]. step_val.
  revert Hf. generalize (b 2%nat + (b 3%nat << 8) + (b 4%nat << 16)). intros oui Hf.
  destruct (oui =? HDR10_PLUS_IEEE_OUI); [go|]. destruct (oui =? CUVA_IEEEOUI); [by apply cuva_safe|].
  destruct (oui =? DV_IEEE_OUI); [|go]. cbn in Hf. apply Z.leb_le in Hf.
  pose proof (byte_land (b 0%nat) 0x1f ltac:(apply H0) ltac:(lia)) as Hlen.
  step_let; [unfold putd; eapply R_trans; [by apply R_clear_dv|apply R_puts; [by apply R_clear_dv|done]|done]|intros c1 Hg1; cbv beta].
  apply safe_rdn_bind; [done|lia|lia|lia|]. intros raw Hraw _. eapply safe_bind'; [apply safe_wr; [lia|]|].
  - rewrite (g_arr _ Hg1). cbn. lia.
  - intros l Hll. step_let; [apply R_array; [done|by rewrite Hll, (g_arr _ Hg1)|done]|intros c2 Hg2; cbv beta]. go.
    + by apply dv_ver0_safe.
    + by apply dv_ver1_safe.
    + by apply dv_ver2_safe.
Qed.
Lemma vendspec_safe c d : good c -> bytes d -> 32 <= blen d -> dv_fits d = true -> safe (R 0 c) (edid_parsingvendspec c d).
Proof. op edid_parsingvendspec. apply safe_seq; [by apply vendspec1_safe|]. intros. by apply vendspec1_safe. Qed.

(** ** Extended data blocks *)

Lemma length_field_small x : is_byte x -> 0 <= x .& 0x1f <= 31.
Proof. unfold is_byte. intros. apply byte_land; lia. Qed.

Lemma y420vdb_loop_safe n : forall c d pos, good c -> bytes d -> 0 <= pos -> pos + Z.of_nat n <= blen d ->
  safe (R (Z.of_nat n) c) (y420vdb_loop odroid custom n c d pos).
Proof.
  induction n as [|n IH]; intros c d pos Hg Hd Hp Hl; cbn [y420vdb_loop]; [by apply R_refl|].
  apply safe_R_bind with 1 (Z.of_nat n); [|intros; apply IH; [done|done|lia|lia]|lia].
  apply safe_if; [done| |lia]. apply safe_get_bind; [done|lia|intros v Hv; cbv beta]. apply safe_if; [done| |lia].
  apply safe_R_bind with 1 0; [by apply store_cea_safe|intros; by apply store_y420_safe|lia].
Qed.
Lemma y420vdb_safe c d n : good c -> bytes d -> 34 <= blen d -> nth 0 d 0 .& 0x1f = n -> safe (R n c) (edid_parsingy420vdb odroid custom c d).
Proof.
  intros Hg Hd Hl Hn. unfold edid_parsingy420vdb. apply safe_get_bind_nth; [done|lia|]. apply safe_get_bind; [done|lia|intros y _].
  pose proof (length_field_small _ (nth_byte d 0 Hd)). change (Z.to_nat 0) with 0%nat. rewrite Hn in *. cbv beta.
  destruct (_ || _); [apply safe_le with 0; [lia|by apply R_refl]|].
  apply safe_le with (Z.of_nat (Z.to_nat (n + 1 - 2))); [lia|]. apply y420vdb_loop_safe; [done|done|lia|lia].
Qed.

Lemma drmsb1_safe i c d : good c -> bytes d -> 32 <= blen d -> nth 0 d 0 .& 0x1f <= 6 -> safe (R 0 c) (_edid_parsedrmsb i c d).
Proof.
  intros Hg Hd Hl Hn. cbv beta delta [_edid_parsedrmsb]. apply safe_get_bind_nth; [done|lia|]. change (Z.to_nat 0) with 0%nat.
  pose proof (length_field_small _ (nth_byte d 0 Hd)). cbv beta. revert Hn H. generalize (nth 0 d 0 .& 0x1f). intros len Hn H. do 2 step_val.
  apply safe_rdn_bind; [done|lia|lia|lia|]. intros raw Hraw _. eapply safe_bind'; [apply safe_wr; [lia|rewrite length_replicate; lia]|].
  intros l Hll. rewrite length_replicate in Hll. step_let; [by apply R_array|intros c1 Hg1; cbv beta]. go.
  cbn [safe]. unfold puth. apply R_puts; [done|]. by destruct d0 as [|? [|? [|? ?]]].
Qed.
Lemma drmsb_safe c d : good c -> bytes d -> 32 <= blen d -> nth 0 d 0 .& 0x1f <= 6 -> safe (R 0 c) (edid_parsedrmsb c d).
Proof. intros. apply safe_seq; [by apply drmsb1_safe|]. intros. by apply drmsb1_safe. Qed.

(** The descriptors of dynamic metadata: each of 3 to 31 bytes, and they fill
    the block exactly. *)
Fixpoint dyn_fits (fuel : nat) (d : list Z) (pos data_end : Z) : bool :=
  match fuel with
  | O => false
  | S fuel =>
      if data_end =? 0 then true
      else
        let len := nth (Z.to_nat pos) d 0 in
        (3 <=? len) && (len <=? 31) && (len + 1 <=? data_end) && dyn_fits fuel d (pos + 1 + len) (data_end - (len + 1))
  end.
Definition dynamic_fits (d : list Z) : bool :=
  let len := nth 0 d 0 .& 0x1f in (1 <=? len) && dyn_fits 32 d 2 (len - 1).

Lemma optional_loop_safe d n f : forall pos j fields, bytes d -> 0 <= j -> 0 <= pos -> n <= 28 -> length fields = 28%nat -> j <= n -> pos + (n - j) <= blen d ->
  n - j < Z.of_nat f -> safe (fun p => length p.1 = 28%nat /\ p.2 = pos + (n - j)) (optional_loop f d pos j n fields).
Proof.
  induction f as [|f IH]; intros pos j fields Hd Hj Hp Hn Hf Hjn Hl Hfu; [lia|]. cbn [optional_loop].
  destruct (Z.ltb_spec j n); [|cbn; split; [done|lia]]. apply safe_get_bind; [done|lia|intros b _; cbv beta].
  eapply safe_bind'; [apply safe_wr; [lia|cbn [length]; lia]|]. intros l Hll. cbn beta in Hll.
  eapply safe_mono; [apply IH; [done|lia|lia|lia|lia|lia|lia|lia]|]. intros [l' p'] [? ?]. cbn in *. split; [done|lia].
Qed.

Definition info_ok (l : list hdr_dynamic) : Prop := length l = 4%nat /\ Forall (fun x => length (optional_fields x) = 28%nat) l.
Lemma slot_range t : 0 <= dynamic_slot t < 4.
Proof. unfold dynamic_slot. repeat case_match; lia. Qed.

Lemma drmdb_loop_safe g : forall f d pos data_end info, bytes d -> info_ok info -> 0 <= pos -> 0 <= data_end -> pos + data_end <= blen d -> data_end <= 30 ->
  data_end < Z.of_nat f -> dyn_fits g d pos data_end = true -> safe info_ok (drmdb_loop f d pos data_end info).
Proof.
  induction g as [|g IH]; [done|]. intros [|f] d pos e info Hd Hi Hp He Hl He30 Hfu Hf; [lia|]. cbn [drmdb_loop dyn_fits] in *.
  destruct (Z.eqb_spec e 0) as [->|He0]; [done|]. replace (truthy e) with true by (unfold truthy; destruct (Z.eqb_spec e 0); [lia|done]).
  rewrite !andb_true_iff, !Z.leb_le in Hf. destruct Hf as [[[H3 H31] Hfit] Hrest].
  apply safe_get_bind_nth; [done|lia|]. revert H3 H31 Hfit Hrest. generalize (nth (Z.to_nat pos) d 0). intros len H3 H31 Hfit Hrest.
  apply safe_get_bind; [done|lia|intros t0 _; cbv beta]. apply safe_get_bind; [done|lia|intros t1 _; cbv beta zeta].
  pose proof (slot_range ((t1 << 8) .| t0)) as Hs. set (num := dynamic_slot _) in *. clearbody num. destruct Hi as [Hi1 Hi2].
  destruct (info !! Z.to_nat num) as [old|] eqn:E; [|apply lookup_ge_None in E; lia]. pose proof (Forall_lookup_1 _ _ _ _ Hi2 E) as Hold. cbn beta in Hold.
  apply safe_get_bind; [done|lia|intros fl _; cbv beta]. cbn [obind]. rewrite u32_small by lia.
  eapply safe_bind'; [apply optional_loop_safe; [done|lia|lia|lia|done|lia|lia|lia]|].
  intros [fields p'] [Hfl Hp']. cbn [fst snd] in *. eapply safe_bind'; [apply (safe_upd_forall (fun x => length (optional_fields x) = 28%nat) info num); [lia|done|intros; exact Hfl]|]. intros info' [Hl' Ha'].
  rewrite u8_small by lia. apply IH; [done| |lia|lia|lia|lia|lia|]; cycle 1.
  - by replace p' with (pos + 1 + len) by lia.
  - by split; [rewrite Hl'|].
Qed.

Lemma R_dynamic i info c : good c -> info_ok info -> R 0 c (with_dynamic c (fun j => if bool_decide (j = i) then info else dynamic_info c j)).
Proof. intros [] Hi. split; [split|done|cbn; lia|done]; try done. intros j. cbn. by case_bool_decide. Qed.
Lemma drmdb1_safe i c d : good c -> bytes d -> 32 <= blen d -> dynamic_fits d = true -> safe (R 0 c) (_edid_parsedrmdb i c d).
Proof.
  intros Hg Hd Hl Hf. unfold _edid_parsedrmdb. apply safe_get_bind_nth; [done|lia|]. apply safe_get_bind; [done|lia|intros t _; cbv beta].
  change (Z.to_nat 0) with 0%nat. destruct (_ || _); [go|]. unfold dynamic_fits in Hf. apply andb_prop in Hf. destruct Hf as [H1%Z.leb_le Hf].
  pose proof (length_field_small _ (nth_byte d 0 Hd)). rewrite u8_small by lia.
  eapply safe_bind'; [eapply (drmdb_loop_safe 32); [done|apply (g_dyn c Hg)|lia|lia|lia|lia|lia|done]|]. intros info Hi. by apply R_dynamic.
Qed.
Lemma drmdb_safe c d : good c -> bytes d -> 32 <= blen d -> dynamic_fits d = true -> safe (R 0 c) (edid_parsedrmdb c d).
Proof. intros. apply safe_seq; [by apply drmdb1_safe|]. intros. by apply drmdb1_safe. Qed.

Lemma vfpdb_safe c d : good c -> bytes d -> 32 <= blen d -> safe (R 0 c) (edid_parsingvfpdb c d).
Proof.
  op edid_parsingvfpdb. apply andb_prop in Heqb1. destruct Heqb1 as [?%Z.leb_le ?%Z.leb_le].
  destruct (dtds c !! Z.to_nat (x1 - 129)) eqn:E; [go|]. apply lookup_ge_None in E. rewrite (g_dtds c) in E by done. lia.
Qed.
Lemma dolby_safe c d : good c -> bytes d -> 32 <= blen d -> safe (R 0 c) (edid_parsingdolbyvsadb c d).
Proof.
  op edid_parsingdolbyvsadb. cbn [safe]. eapply (R_trans 0 0); [apply (R_array dolby_rawdata (d0 ++ [0]) c); [done|rewrite length_app; cbn; lia|done]| |done].
  apply R_puts; [|reflexivity]. apply R_array; [done|rewrite length_app; cbn; lia|done].
Qed.

Lemma ifdb_loop_safe f : forall d s n, bytes d -> 0 <= s -> n <= 31 -> 64 <= blen d -> n - s < Z.of_nat f -> s <= 64 -> (0 < f)%nat -> safe (fun _ => True) (ifdb_loop f d s n).
Proof.
  induction f as [|f IH]; intros d s n Hd Hs Hn Hl Hf Hs2 Hf0; [lia|]. cbn [ifdb_loop]. destruct (Z.ltb_spec s n); [|done].
  apply safe_get_bind; [done|lia|intros x Hx; cbv beta zeta].
  assert (H7 : 0 <= (x >> 5) .& 7 <= 7) by (apply byte_land; [apply byte_shr; [done|lia]|lia]).
  revert H7. generalize ((x >> 5) .& 7). intros len H7. destruct (x .& 31 =? 1); rewrite u8_small by lia; (apply IH; [done|lia..]).
Qed.
Lemma ifdb_safe c d : good c -> bytes d -> 64 <= blen d -> safe (R 0 c) (hdmitx_edid_parse_ifdb c d).
Proof.
  op hdmitx_edid_parse_ifdb. pose proof (length_field_small _ H2).
  assert (H7 : 0 <= (x0 >> 5) .& 7 <= 7) by (apply byte_land; [apply byte_shr; [done|lia]|lia]).
  eapply safe_bind'; [apply ifdb_loop_safe; [done|lia..]|]. intros. go.
Qed.

Lemma sbtm_points_safe n : forall k d len c, good c -> bytes d -> 2 * Z.of_nat n <= blen d -> safe (R 0 c) (sbtm_points k n d len c).
Proof.
  induction n as [|n IH]; intros k d len c Hg Hd Hl; cbn [sbtm_points]; [by apply R_refl|].
  destruct (2 <=? len); [|apply IH; [done|done|lia]].
  apply safe_get_bind; [done|lia|intros a _; cbv beta]. apply safe_get_bind; [done|lia|intros b _; cbv beta].
  assert (H1 : R 0 c (puts_sbtm [(p_exp k, bits a 0 2); (p_mant k, bits a 2 6); (peak_bright_p k, b)] c)) by plain_puts.
  eapply safe_R_after; [exact H1|]. intros Hg1. apply IH; [done|room|rewrite adv_length; lia].
Qed.
Lemma sbtm_primaries_safe d l : forall i c, good c -> bytes d -> 0 <= i -> i + 2 * blen l <= blen d -> safe (R 0 c) (sbtm_primaries l i d c).
Proof.
  induction l as [|f l IH]; intros i c Hg Hd Hi Hl; cbn [sbtm_primaries]; [by apply R_refl|]. cbn [length] in Hl.
  eapply safe_bind' with (P := fun _ => True).
  - unfold get_2_bytes. apply safe_get_bind; [done|lia|intros a _; cbv beta]. by apply safe_get_bind; [done|lia|intros b _; cbv beta].
  - intros v _. assert (H1 : R 0 c (puts_sbtm [(f, v)] c)) by plain_puts. eapply safe_R_after; [exact H1|]. intros. apply IH; [done|done|lia|lia].
Qed.
Lemma sbtm_safe c offset d len : good c -> bytes d -> 0 <= offset -> offset + 48 <= blen d -> safe (R 0 c) (hdmitx21_edid_parse_sbtmdb c offset d len).
Proof.
  intros Hg Hd Ho Hl. cbv beta delta [hdmitx21_edid_parse_sbtmdb]. destruct (len <? 2); [go|]. do 2 step_val.
  assert (Hb : bytes (adv d (offset + 1))) by by apply bytes_adv. assert (Hbl : 40 <= blen (adv d (offset + 1))) by (rewrite adv_length; lia).
  revert Hb Hbl. generalize (adv d (offset + 1)). clear dependent d. intros d Hd Hl. go.
  all: assert (Hd2 : bytes (adv d 2)) by (by apply bytes_adv); assert (Hl2 : 38 <= blen (adv d 2)) by (rewrite adv_length; lia);
    revert Hd2 Hl2; generalize (adv d 2); clear dependent d; intros d Hd Hl.
  apply safe_seq; [apply safe_if; [done|apply sbtm_primaries_safe; [done|done|lia|cbn; lia]|lia]|]. intros c' Hg'.
  match goal with |- context [if ?b then (adv d 16, _) else _] => destruct b end; cbv beta iota.
  all: destruct (_ && _); go;
    match goal with |- safe (R _ ?c) (sbtm_points _ _ _ _ ?e) => apply (safe_R_after _ c e); [plain_puts|intros; apply sbtm_points_safe; [done|apply bytes_adv; room|]] end.
  all: rewrite !adv_length by (rewrite ?adv_length; lia); lia.
Qed.
End Leaves.
End EdidSafe.
