(* ===== verification/EdidParse.v ===== *)
(** * Which EDIDs are parsed

    The conditions under which the parser stays within its arrays, as a
    Boolean function of the EDID ([tame]), and the theorem that parsing a tame
    EDID returns with the capabilities in shape. *)

From S2P Require Import Prelude Mem HdmiMode Edid EdidSafe.
From stdpp Require Import base numbers list.
From Stdlib Require Import ZArith Lia.

Local Open Scope Z_scope.
Local Open Scope cint_scope.

Module EdidParse.
Import HdmiMode Edid EdidSafe.

Ltac trk := match goal with |- ?P => by apply (bool_decide_eq_true_1 P) end.

(** ** Descriptors *)

(** An empty descriptor, or one with a picture size. *)
Definition dtd_ok (d : list Z) : bool :=
  bool_decide (take 3 d = [0; 0; 0]) || negb (d_h_image_size (decode_dtd (take 18 d)) =? 0).

(** At most [k] descriptors more, and as many modes. *)
Record D (k : Z) (c c' : rx_cap) : Prop := {
  d_good : good c';
  d_idx : sc c dtd_idx <= sc c' dtd_idx <= sc c dtd_idx + k;
  d_count : sc c VIC_count <= sc c' VIC_count <= sc c VIC_count + k;
  d_check : sc c' edid_check = sc c edid_check;
  d_modes : modes c ⊆ modes c';
}.

Lemma D_refl c : good c -> D 0 c c.
Proof. intros. split; [done|lia|lia|done|done]. Qed.
Lemma D_trans k1 k2 k c1 c2 c3 : D k1 c1 c2 -> D k2 c2 c3 -> k1 + k2 <= k -> D k c1 c3.
Proof. intros [G1 I1 C1 E1 M1] [G2 I2 C2 E2 M2] Hk. split; [done|lia|lia|congruence|by etrans]. Qed.
Lemma D_le k k' c c' : k <= k' -> D k c c' -> D k' c c'.
Proof. intros ? []. split; [done|lia|lia|done|done]. Qed.
Lemma R_D k c c' : 0 <= k -> R k c c' -> D k c c'.
Proof. intros Hk [G K C M]. split; [done| |lia| |done]; rewrite K by trk; done || lia. Qed.

Lemma safe_D_bind k1 k2 k c (m : outcome rx_cap) (f : rx_cap -> outcome rx_cap) :
  safe (D k1 c) m -> (forall c', D k1 c c' -> safe (D k2 c') (f c')) -> k1 + k2 <= k -> safe (D k c) (obind m f).
Proof.
  intros Hm Hf Hk. eapply safe_bind'; [exact Hm|]. intros c' Hr. eapply safe_mono; [by apply Hf|]. intros c2 Hr2. by eapply D_trans.
Qed.
Lemma safe_R_D k k' c m : 0 <= k -> k <= k' -> safe (R k c) m -> safe (D k' c) m.
Proof. intros H0 Hk Hm. eapply safe_mono; [exact Hm|]. intros c' Hr. apply D_le with k; [done|]. by apply R_D. Qed.

(** The places of an extension block where descriptors are looked for. *)
Fixpoint places (fuel : nat) (off : Z) : Z :=
  match fuel with O => 0 | S f => if off + 18 <? 0x7f then 1 + places f (off + 18) else 0 end.
Fixpoint dtds_ok (fuel : nat) (buf : list Z) (off : Z) : bool :=
  match fuel with
  | O => false
  | S f => if off + 18 <? 0x7f then dtd_ok (adv buf off) && dtds_ok f buf (off + 18) else true
  end.

Lemma places_nonneg f : forall off, 0 <= places f off.
Proof. induction f as [|f IH]; intros off; cbn [places]; [done|]. case_match; [|done]. specialize (IH (off + 18)). lia. Qed.

(** ** Data blocks *)

Definition block_ok (first : bool) (p : list Z) : bool :=
  let tag := nth 0 p 0 >> 5 in
  let count := nth 0 p 0 .& 0x1f in
  let ext := nth 1 p 0 in
  if tag =? HDMI_EDID_BLOCK_TYPE_EXTENDED_TAG then
    if ext =? EXTENSION_VENDOR_SPECIFIC then dv_fits p
    else if ext =? EXTENSION_DRM_STATIC_TAG then count <=? 6
    else if ext =? EXTENSION_DRM_DYNAMIC_TAG then dynamic_fits p
    else if ext =? EXTENSION_Y420_CMDB_TAG then (count <=? 17) && (first || negb (count =? 1))
    else true
  else true.
Fixpoint blocks_ok (fuel : nat) (first : bool) (buf : list Z) (off end_ : Z) : bool :=
  match fuel with
  | O => false
  | S f =>
      if off <? end_ then
        let next := off + 1 + (nth (Z.to_nat off) buf 0 .& 0x1f) in
        (next <=? end_) && block_ok first (adv buf off) && blocks_ok f first buf next end_
      else true
  end.

(** The mode of a short video descriptor (CTA-861-G 7.5.1): 1 to 64 with a
    flag for the native mode in bit 7, or a number of eight bits.  Mode 1 is
    left out. *)
Definition has_flag (x : Z) : bool := (1 <=? x .& 0x7f) && (x .& 0x7f <=? 64).
Definition svd_mode (x : Z) : list Z := if has_flag x then if 1 <? x .& 0x7f then [x .& 0x7f] else [] else [x].

(** The modes of the video data blocks. *)
Definition block_modes (p : list Z) : list Z :=
  if nth 0 p 0 >> 5 =? HDMI_EDID_BLOCK_TYPE_VIDEO then flat_map svd_mode (take (Z.to_nat (nth 0 p 0 .& 0x1f)) (drop 1 p)) else [].
Fixpoint walk_modes (fuel : nat) (buf : list Z) (off end_ : Z) : list Z :=
  match fuel with
  | O => []
  | S f => if off <? end_ then block_modes (adv buf off) ++ walk_modes f buf (off + 1 + (nth (Z.to_nat off) buf 0 .& 0x1f)) end_ else []
  end.

(** At most [s] short descriptors and [m] new modes; [v], [i] and [chk] are
    the number of modes, the number of descriptors and the flags at the start,
    and [L] the modes found. *)
Record I (first : bool) (v i chk s m : Z) (L : list Z) (c : rx_cap) : Prop := {
  i_good : good c;
  i_svd : 0 <= sc c SVD_VIC_count <= s;
  i_vic : v <= sc c VIC_count <= v + m;
  i_idx : sc c dtd_idx = i;
  i_chk : sc c edid_check = chk;
  i_len : 0 <= sc c bitmap_length <= 16;
  i_all : sc c y420_all_vic = 1 -> first = true;
  i_modes : L ⊆ modes c;
}.

Lemma I_R first v i chk s m L k c c' : 0 <= k -> I first v i chk s m L c -> R k c c' -> I first v i chk s (m + k) L c'.
Proof. intros Hk [] [G K C M]. split; [done|..]; try (rewrite K by trk; done || lia); [lia|by etrans]. Qed.
Lemma I_le first v i chk s m L s' m' c : s <= s' -> m <= m' -> I first v i chk s m L c -> I first v i chk s' m' L c.
Proof. intros Hs Hm []. split; done || lia. Qed.
Lemma safe_I_R first v i chk s m L s' m' k c o : 0 <= k -> s <= s' -> m + k <= m' -> I first v i chk s m L c -> safe (R k c) o -> safe (I first v i chk s' m' L) o.
Proof.
  intros Hk Hs Hm Hi Ho. eapply safe_mono; [exact Ho|]. intros c' Hr. apply I_le with s (m + k); [lia|lia|]. by eapply I_R.
Qed.
Lemma safe_I_R_modes first v i chk s m L L' s' m' k c o : 0 <= k -> s <= s' -> m + k <= m' -> I first v i chk s m L c -> safe (R k c) o ->
  safe (fun c' => L' ⊆ modes c') o -> safe (I first v i chk s' m' (L ++ L')) o.
Proof.
  intros Hk Hs Hm Hi Ho Hn. destruct (safe_inv _ _ Ho) as (c' & -> & Hr). cbn [safe] in *.
  destruct (I_le _ _ _ _ _ _ _ s' m' _ Hs Hm (I_R _ _ _ _ _ _ _ _ _ _ Hk Hi Hr)). split; try done.
  intros x [Hx|Hx]%elem_of_app; auto.
Qed.
Lemma safe_I_R0 first v i chk s m L c o : I first v i chk s m L c -> safe (R 0 c) o -> safe (I first v i chk s m L) o.
Proof. intros Hi Ho. apply safe_I_R with s m 0 c; [lia|lia|lia|done|done]. Qed.

(** ** Blocks *)

(** [first]: only in the first extension block are the modes so far few
    enough for a map of all. *)
Definition cta_ok (first : bool) (buf : list Z) : bool :=
  let rev := nth 1 buf 0 in
  let end_ := nth 2 buf 0 in
  (127 <? end_) || (((rev <=? 2) || blocks_ok 128 first buf 4 end_) && dtds_ok 8 buf end_).
Definition cta_modes (buf : list Z) : list Z :=
  if (127 <? nth 2 buf 0) || (nth 1 buf 0 <=? 2) then [] else walk_modes 128 buf 4 (nth 2 buf 0).
Definition cta_places (buf : list Z) : Z := if 127 <? nth 2 buf 0 then 0 else places 8 (nth 2 buf 0).

(** What a block leaves: at most [p] descriptors more, and the modes [M]. *)
Record E (p : Z) (M : list Z) (c c' : rx_cap) : Prop := {
  e_good : good c';
  e_idx : sc c dtd_idx <= sc c' dtd_idx <= sc c dtd_idx + p;
  e_check : sc c' edid_check = sc c edid_check;
  e_modes : modes c ⊆ modes c';
  e_new : M ⊆ modes c';
}.
Lemma D_E p c c' : D p c c' -> E p [] c c'.
Proof. intros []. split; try done. apply list_subseteq_nil. Qed.
Lemma E_refl c : good c -> E 0 [] c c.
Proof. intros. split; [done|lia|done|done|apply list_subseteq_nil]. Qed.
Lemma E_trans p1 p2 p M1 M2 c1 c2 c3 : E p1 M1 c1 c2 -> E p2 M2 c2 c3 -> p1 + p2 <= p -> E p (M1 ++ M2) c1 c3.
Proof.
  intros [G1 I1 E1 S1 N1] [G2 I2 E2 S2 N2] Hk. split; [done|lia|congruence|by etrans|]. intros x [Hx|Hx]%elem_of_app; [|by apply N2].
  by apply S2, N1.
Qed.
Lemma E_new p M M' c c' : M' ⊆ M -> E p M c c' -> E p M' c c'.
Proof. intros HM []. split; try done. by etrans. Qed.
Lemma safe_E_nil p1 p2 p M c (m : outcome rx_cap) (f : rx_cap -> outcome rx_cap) :
  safe (E p1 M c) m -> (forall c', E p1 M c c' -> safe (E p2 [] c') (f c')) -> p1 + p2 <= p -> safe (E p M c) (obind m f).
Proof.
  intros Hm Hf Hk. eapply safe_bind'; [exact Hm|]. intros c' Hr. eapply safe_mono; [by apply Hf|]. intros c2 Hr2.
  apply E_new with (M ++ []); [by rewrite app_nil_r|]. by eapply E_trans.
Qed.
Lemma safe_E_bind p1 p2 p M1 M2 c (m : outcome rx_cap) (f : rx_cap -> outcome rx_cap) :
  safe (E p1 M1 c) m -> (forall c', E p1 M1 c c' -> safe (E p2 M2 c') (f c')) -> p1 + p2 <= p -> safe (E p (M1 ++ M2) c) (obind m f).
Proof.
  intros Hm Hf Hk. eapply safe_bind'; [exact Hm|]. intros c' Hr. eapply safe_mono; [by apply Hf|]. intros c2 Hr2. by eapply E_trans.
Qed.
Lemma safe_R_E k c m : safe (R k c) m -> safe (E 0 [] c) m.
Proof. intros Hm. eapply safe_mono; [exact Hm|]. intros c' [G K _ M]. split; [done| | |done|apply list_subseteq_nil]; rewrite K by trk; lia || done. Qed.

(** A checkable EDID: the extension blocks from the [i]th on, and their places
    for descriptors. *)
Fixpoint ctas_ok (n : nat) (i : Z) (check : Z) (edid : list Z) : bool :=
  match n with
  | O => true
  | S n =>
      let b := adv edid (i * 0x80) in
      (if (nth 0 b 0 =? 0x02) || truthy (check .& 0x01) then cta_ok (i =? 1) b else true) && ctas_ok n (i + 1) check edid
  end.
Fixpoint ctas_places (n : nat) (i : Z) (check : Z) (edid : list Z) : Z :=
  match n with
  | O => 0
  | S n =>
      let b := adv edid (i * 0x80) in
      (if (nth 0 b 0 =? 0x02) || truthy (check .& 0x01) then cta_places b else 0) + ctas_places n (i + 1) check edid
  end.
Fixpoint ctas_modes (n : nat) (i : Z) (check : Z) (edid : list Z) : list Z :=
  match n with
  | O => []
  | S n =>
      let b := adv edid (i * 0x80) in
      (if (nth 0 b 0 =? 0x02) || truthy (check .& 0x01) then cta_modes b else []) ++ ctas_modes n (i + 1) check edid
  end.
Definition tame (check : Z) (edid : list Z) : bool :=
  match hdmitx_edid_get_cta_block_count edid with
  | Done n =>
      (n <=? 6) && forallb (fun k => dtd_ok (adv edid (0x36 + 18 * k))) [0; 1; 2; 3] &&
      ctas_ok (Z.to_nat n) 1 check edid && (4 + ctas_places (Z.to_nat n) 1 check edid <=? 16)
  | _ => false
  end.

Section Parse.
Context (odroid : bool) (custom : hdmi_timing) (voutmode : Z) (Hcustom : vic custom = 253).

Lemma match_vic t : let v := vic (snd (hdmitx_mode_match_dtd_timing odroid custom t)) in 0 <= v < 255 \/ HDMITX_VESA_OFFSET <= v.
Proof.
  cbv zeta. unfold hdmitx_mode_match_dtd_timing. cbn [snd]. set (P (tm : hdmi_timing) := 0 <= vic tm < 255 \/ HDMITX_VESA_OFFSET <= vic tm).
  assert (H0 : forall l, forallb (fun tm => ((0 <=? vic tm) && (vic tm <? 255)) || (HDMITX_VESA_OFFSET <=? vic tm)) l = true -> Forall P l).
  { intros l Hl. rewrite forallb_forall in Hl. apply List.Forall_forall. intros x Hx. specialize (Hl x Hx). unfold P. lia. }
  assert (Ha : Forall P (all_timings odroid custom)).
  { unfold all_timings. repeat (apply Forall_app; split); [apply H0; by vm_compute..| |apply H0; by vm_compute].
    destruct odroid; [|constructor]. apply Forall_app. split; [apply H0; by vm_compute|]. constructor; [|constructor]. unfold P. rewrite Hcustom. lia. }
  generalize (if d_flags t >> 7 =? 1 then set_v_active t (d_v_active t * 2) else t). intros t'. destruct (List.find (dtd_matches t') _) as [tm|] eqn:E; cbn [default].
  - apply List.find_some in E. rewrite List.Forall_forall in Ha. apply Ha, E.
  - vm_compute. left. done.
Qed.

Lemma match_image t : d_h_image_size (fst (hdmitx_mode_match_dtd_timing odroid custom t)) = d_h_image_size t.
Proof. unfold hdmitx_mode_match_dtd_timing. cbn [fst]. by destruct (_ =? 1). Qed.
Lemma special_image t : d_h_image_size (special_480i (special_1080i t)) = d_h_image_size t.
Proof. unfold special_480i, special_1080i. by repeat (case_match; cbn). Qed.

Lemma dtd_vic_safe t v : d_h_image_size t <> 0 -> safe (fun v' => v' = v \/ v' = v + 1 /\ v <= 21) (dtd_vic t v).
Proof.
  intros Ht. unfold dtd_vic. destruct (is_4x3 v) eqn:E; [|by left]. destruct (Z.eqb_spec (d_h_image_size t) 0); [done|].
  cbn. unfold is_4x3 in E. cbn in E. destruct (_ <=? 2); [by left|right]. split; [done|lia].
Qed.

Lemma dtd_parsing_safe c d : good c -> bytes d -> 18 <= blen d -> 0 <= sc c dtd_idx < 16 -> dtd_ok d = true ->
  safe (D 1 c) (edid_dtd_parsing odroid custom c d).
Proof.
  intros Hg Hd Hl Hi Hok. unfold edid_dtd_parsing. apply safe_rdn0_bind; [lia|]. change (Z.to_nat 18) with 18%nat. rewrite take_take.
  change (3 `min` 18)%nat with 3%nat. unfold dtd_ok in Hok. destruct (bool_decide _); [by apply D_le with 0, D_refl|]. cbn [orb] in Hok.
  apply negb_true_iff, Z.eqb_neq in Hok. rewrite <- special_image, <- match_image in Hok.
  pose proof (match_vic (special_480i (special_1080i (decode_dtd (take 18 d))))) as Hv. cbv zeta in Hv.
  destruct (hdmitx_mode_match_dtd_timing _ _ _) as [t timing]. cbn [fst snd] in *.
  eapply safe_bind'; [apply (safe_upd_at (dtds c)); rewrite (g_dtds _ Hg); lia|]. intros l Hll. cbn beta in Hll. rewrite (g_dtds _ Hg) in Hll.
  assert (R1 : R 0 c (with_dtds c l)) by by apply R_upd_dtds. set (c1 := with_dtds c l) in *.
  destruct (negb _); [|by apply D_le with 0, R_D].
  eapply safe_bind'; [by apply dtd_vic_safe|]. intros v Hv'.
  eapply safe_bind'; [apply (safe_upd_at (dtds c1)); rewrite (g_dtds _ (r_good _ _ _ R1)); lia|]. intros l2 Hl2. cbn beta in Hl2.
  rewrite (g_dtds _ (r_good _ _ _ R1)) in Hl2. cbv zeta. set (pm := match dtds _ with t0 :: _ => _ | [] => _ end). clearbody pm.
  set (c2 := put preferred_mode pm (with_dtds c1 l2)).
  assert (R2 : R 0 c c2) by (apply R_put_after; [eapply (R_trans 0 0); [exact R1|by apply R_upd_dtds; [apply R1|]|done]|done]).
  assert (D3 : D 1 c (put dtd_idx (u8 (sc c dtd_idx + 1)) c2)).
  { assert (Hgd : good (put dtd_idx (u8 (sc c dtd_idx + 1)) c2)) by (destruct (r_good _ _ _ R2); by split).
    split; [done| | | |destruct R2; done]; cbn [put sc].
    - rewrite decide_True by done. rewrite u8_small by lia. lia.
    - rewrite decide_False by done. destruct R2. lia.
    - rewrite decide_False by done. destruct R2 as [_ K _ _]. change (sc c2 edid_check = sc c edid_check). apply K. trk. }
  set (c3 := put dtd_idx _ c2) in *. assert (E3 : sc c3 VIC_count = sc c VIC_count) by reflexivity. clearbody c3.
  destruct (Z.ltb_spec v HDMITX_VESA_OFFSET).
  - eapply safe_mono; [apply store_cea_safe; [apply D3|]|].
    + unfold is_byte, HDMITX_VESA_OFFSET in *. lia.
    + intros c4 [G4 K4 C4 M4]. destruct D3 as [_ I3 _ Ch3 M3]. split; [done| |lia| |by etrans]; rewrite K4 by trk; done.
  - eapply safe_mono; [apply store_vesa_idx_safe, D3|]. intros c4 [G4 K4 C4 M4]. destruct D3 as [_ I3 _ Ch3 M3].
    split; [done| |lia| |by etrans]; rewrite K4 by trk; done.
Qed.

Lemma ext_dtds_safe d f : forall off c, good c -> bytes d -> 0 <= off < 128 -> 128 <= blen d -> 0 <= sc c dtd_idx -> sc c dtd_idx + places f off <= 16 ->
  dtds_ok f d off = true -> safe (D (places f off) c) (ext_dtds odroid custom f c d off).
Proof.
  induction f as [|f IH]; intros off c Hg Hd Ho Hl Hi Hp Hok; [done|]. cbn [places dtds_ok ext_dtds] in *.
  destruct (Z.ltb_spec (off + 18) 127); [|by apply D_refl]. apply andb_prop in Hok. destruct Hok as [Hok1 Hok2].
  pose proof (places_nonneg f (off + 18)). rewrite u8_small by lia.
  apply safe_D_bind with 1 (places f (off + 18)); [apply dtd_parsing_safe; [done|room|room|lia|done]| |lia].
  intros c' [G' I' _ _ _]. apply IH; [done|done|lia|lia|lia|lia|done].
Qed.
Lemma dtd_loop_safe n : forall c d, good c -> bytes d -> 18 * Z.of_nat n <= blen d -> 0 <= sc c dtd_idx -> sc c dtd_idx + Z.of_nat n <= 16 ->
  (forall k, (k < n)%nat -> dtd_ok (adv d (18 * Z.of_nat k)) = true) -> safe (D (Z.of_nat n) c) (dtd_loop odroid custom n c d).
Proof.
  induction n as [|n IH]; intros c d Hg Hd Hl Hi Hn Hok; cbn [dtd_loop]; [by apply D_refl|].
  apply safe_D_bind with 1 (Z.of_nat n); [apply dtd_parsing_safe; [done|done|lia|lia|apply (Hok 0%nat); lia]| |lia].
  intros c' [G' I' _ _ _]. apply IH; [done|room|rewrite adv_length; lia|lia|lia|].
  intros k Hk. specialize (Hok (S k) ltac:(lia)). unfold adv in *. rewrite drop_drop.
  replace (Z.to_nat 18 + Z.to_nat (18 * Z.of_nat k))%nat with (Z.to_nat (18 * Z.of_nat (S k))) by lia. done.
Qed.

(** Short video descriptors. *)
Lemma put_svd_I first v i chk s m L c : I first v i chk s m L c -> s < 128 -> I first v i chk (s + 1) m L (put SVD_VIC_count (u32 (sc c SVD_VIC_count + 1)) c).
Proof.
  intros [] Ho. split; cbn [put sc]; try (rewrite decide_False by done); try done; try lia.
  - destruct i_good0. by split.
  - rewrite decide_True by done. rewrite u32_small by lia. lia.
Qed.
Lemma native_R (b : bool) x c : good c ->
  safe (R 0 c)
    (if b then
       let c := if truthy (sc c native_vic) && negb (truthy (sc c native_vic2)) then put native_vic2 x c else c in
       Done (if negb (truthy (sc c native_vic)) then put native_vic x c else c)
     else Done c).
Proof.
  intros Hg. destruct b; [|by apply R_refl]. cbn [safe].
  destruct (truthy (sc c native_vic)); cbn [andb negb]; [destruct (negb _)|]; repeat case_match; repeat (apply R_put_after; [|reflexivity]); by apply R_refl.
Qed.
(** Storing leaves the mode in the list. *)
Lemma store_cea_in c v : good c -> safe (fun c' => v ∈ modes c') (store_cea_idx c v).
Proof.
  intros Hg. pose proof (good_count c Hg). pose proof (g_count c Hg). unfold store_cea_idx, modes. rewrite Z.min_r by (unfold VIC_MAX_NUM; lia).
  destruct (existsb _ _) eqn:Ex; cbn [negb].
  - cbn [safe]. apply existsb_exists in Ex. destruct Ex as (x & Hx & ->%Z.eqb_eq). by apply list_elem_of_In.
  - assert (El : blen (ar c VIC) = 512) by by rewrite (g_arr _ Hg). unfold aset. rewrite wr_Done by (cbn [length]; lia). cbn [obind safe].
    set (c1 := put_array VIC _ c). cbn [put sc]. rewrite decide_True by done. change (sc c1 VIC_count) with (sc c VIC_count). rewrite u32_small by lia.
    change (ar (put _ _ c1) VIC) with (splice (ar c VIC) (sc c VIC_count) [v]).
    replace (Z.to_nat (sc c VIC_count + 1)) with (S (Z.to_nat (sc c VIC_count))) by lia.
    rewrite <- (Z2Nat.id (sc c VIC_count)) at 2 by lia. rewrite splice_take_S by lia. apply elem_of_app. right. by apply list_elem_of_singleton.
Qed.
Lemma store_vics_safe first v i chk s m L c x : I first v i chk s m L c -> s < 128 -> is_byte x ->
  safe (I first v i chk (s + 1) (m + 1) (L ++ svd_mode x)) (_store_vics c x).
Proof.
  intros Hi Ho Hx. unfold _store_vics, svd_mode. fold (has_flag x). pose proof Hi as [Hg Hs _ _ _ _ _ _].
  eapply safe_bind'; [apply safe_aset; [done|done|cbn; lia]|]. intros c1 Hr. pose proof (I_R _ _ _ _ _ _ _ 0 _ _ ltac:(lia) Hi Hr) as H1.
  rewrite Z.add_0_r in H1. pose proof (put_svd_I _ _ _ _ _ _ _ _ H1 Ho) as H2. cbv zeta.
  set (c2 := put SVD_VIC_count _ c1) in *. clearbody c2. clear dependent c. clear dependent c1. pose proof (i_good _ _ _ _ _ _ _ _ H2).
  assert (Hb : is_byte (x .& 0x7f)). { unfold is_byte in *. pose proof (byte_land x 0x7f ltac:(lia) ltac:(lia)). lia. }
  assert (Hone : forall y c', y ∈ modes c' -> [y] ⊆ modes c') by (intros y c' Hy z ->%list_elem_of_singleton; done).
  apply safe_I_R_modes with (s + 1) m 1 c2; [lia|lia|lia|done|..].
  - destruct (has_flag x); [|by apply store_cea_safe]. apply safe_R_bind with 1 0; [apply safe_if; [done|by apply store_cea_safe|lia]| |lia].
    intros c' Hc'. by apply native_R.
  - destruct (has_flag x); [|eapply safe_mono; [by apply store_cea_in|auto]].
    eapply safe_bind' with (P := fun c' => good c' /\ (if 1 <? x .& 127 then [x .& 127] else []) ⊆ modes c').
    { destruct (_ <? _); [|split; [done|apply list_subseteq_nil]].
      destruct (safe_inv _ _ (store_cea_safe c2 _ H Hb)) as (c' & E1 & [G' _ _ _]). destruct (safe_inv _ _ (store_cea_in c2 (x .& 127) H)) as (c'' & E2 & Hin).
      rewrite E1 in E2. injection E2 as <-. rewrite E1. split; [done|auto]. }
    intros c' [G' Hm]. eapply safe_mono; [by apply native_R|]. intros c3 [_ _ _ M3]. by etrans.
Qed.
Lemma nth_take_S (d : list Z) j n : 0 <= j -> j < blen d -> take (S n) (adv d j) = nth (Z.to_nat j) d 0 :: take n (adv d (j + 1)).
Proof.
  intros Hj Hl. unfold adv. replace (Z.to_nat (j + 1)) with (S (Z.to_nat j)) by lia. destruct (nth_lookup_or_length d (Z.to_nat j) 0) as [E|E]; [|lia].
  rewrite (drop_S d _ _ E). done.
Qed.
Lemma store_svds_safe first v i chk d n : forall s m L c j, I first v i chk s m L c -> s + Z.of_nat n <= 128 -> bytes d -> 0 <= j -> j + Z.of_nat n <= blen d ->
  safe (I first v i chk (s + Z.of_nat n) (m + Z.of_nat n) (L ++ flat_map svd_mode (take n (adv d j)))) (store_svds n c d j).
Proof.
  induction n as [|n IH]; intros s m L c j Hi Hs Hd Hj Hl; cbn [store_svds]; [by rewrite !Z.add_0_r, app_nil_r|].
  apply safe_get_bind_nth; [done|lia|]. eapply safe_bind'; [apply store_vics_safe; [exact Hi|lia|by apply nth_byte]|].
  intros c' Hi'. replace (s + Z.of_nat (S n)) with (s + 1 + Z.of_nat n) by lia. replace (m + Z.of_nat (S n)) with (m + 1 + Z.of_nat n) by lia.
  rewrite nth_take_S by lia. cbn [flat_map]. rewrite app_assoc. apply IH; [done|lia|done|lia|lia].
Qed.

(** The map of 4:2:0 modes. *)
Lemma put_good f x c : good c -> f <> VIC_count -> good (put f x c).
Proof. intros [] Hf. split; cbn [put sc ar]; try done; rewrite decide_False by congruence; done. Qed.
Lemma I_put_map first v i chk s m L c f x : I first v i chk s m L c -> f = bitmap_length \/ f = bitmap_valid \/ f = y420_all_vic ->
  (f = bitmap_length -> 0 <= x <= 16) -> (f = y420_all_vic -> x = 1 -> first = true) -> I first v i chk s m L (put f x c).
Proof.
  intros [] Hf Hl Ha. split; cbn [put sc]; try (rewrite decide_False by (intuition congruence)); try done.
  - apply put_good; [done|intuition congruence].
  - destruct (decide _); [auto|done].
  - destruct (decide _); [auto|done].
  - unfold modes. cbn [put sc ar]. by rewrite decide_False by (intuition congruence).
Qed.
Lemma bitmap_loop_safe d n : forall c pos j, good c -> bytes d -> 0 <= pos -> pos + Z.of_nat n <= blen d -> 0 <= j -> safe (R 0 c) (bitmap_loop n c d pos j).
Proof.
  induction n as [|n IH]; intros c pos j Hg Hd Hp Hl Hj; cbn [bitmap_loop]; [by apply R_refl|].
  apply safe_seq; [|intros; apply IH; [done|done|lia..]]. unfold Y420CMDB_MAX. destruct (Z.ltb_spec j 32); [|by apply R_refl].
  apply safe_get_bind; [done|lia|intros b _; cbv beta]. apply safe_aset; [done|done|cbn; lia].
Qed.
Lemma cmdb_safe first v i chk s m L c d : I first v i chk s m L c -> bytes d -> 34 <= blen d ->
  nth 0 d 0 .& 0x1f <= 17 -> (nth 0 d 0 .& 0x1f = 1 -> first = true) -> safe (I first v i chk s m L) (edid_parsingy420cmdb c d).
Proof.
  intros Hi Hd Hl H17 H1. unfold edid_parsingy420cmdb. apply safe_get_bind_nth; [done|lia|]. apply safe_get_bind; [done|lia|intros t _; cbv beta].
  pose proof (length_field_small _ (nth_byte d 0 Hd)) as Hn. change (Z.to_nat 0) with 0%nat. destruct (_ || _); [done|].
  revert H17 H1 Hn. generalize (nth 0 d 0 .& 0x1f). intros n H17 H1 Hn. destruct (Z.eqb_spec n 1) as [->|].
  - apply I_put_map; [done|tauto|done|auto].
  - cbv zeta. set (c1 := put_array _ _ _). assert (Hi1 : I first v i chk s m L c1).
    { assert (I first v i chk s m L (puts [(bitmap_length, 0); (bitmap_valid, 0)] c)) as H0
        by (cbn; apply I_put_map; [apply I_put_map; [done|tauto|lia|done]|tauto|done|done]).
      apply (safe_I_R0 _ _ _ _ _ _ _ _ (Done c1) H0). cbn [safe]. apply R_array; [apply H0|done|done]. }
    clearbody c1. set (c2 := if 0 <? n + 1 - 2 then _ else c1). assert (Hi2 : I first v i chk s m L c2).
    { subst c2. destruct (_ <? _) eqn:E; [|done]. cbn. apply I_put_map; [apply I_put_map; [done|tauto|lia|done]|tauto|done|done]. }
    clearbody c2. apply (safe_I_R0 _ _ _ _ _ _ _ _ _ Hi2). apply bitmap_loop_safe; [apply Hi2|done|lia..].
Qed.

(** ** The walk *)

Lemma adv_nth (l : list Z) off k : 0 <= off -> nth k (adv l off) 0 = nth (Z.to_nat off + k) l 0.
Proof. intros. unfold adv. by rewrite nth_skipn. Qed.

Lemma starts_safe l : forall d i, bytes d -> 0 <= i -> i + blen l <= blen d -> safe (fun _ => True) (starts d i l).
Proof.
  induction l as [|x l IH]; intros d i Hd Hi Hl; cbn [starts]; [done|]. cbn [length] in Hl.
  apply safe_get_bind; [done|lia|intros y _; cbv beta]. destruct (_ =? _); [|done]. apply IH; [done|lia|lia].
Qed.
Lemma vendor_safe c d off count : good c -> bytes d -> 0 <= off -> off + 64 <= blen d -> 0 <= count <= 31 -> safe (R count c) (vendor_block d c off count).
Proof.
  intros Hg Hd Ho Hl Hc. unfold vendor_block. eapply safe_bind'; [apply starts_safe; [done|lia|cbn; lia]|intros b _].
  destruct b; [apply hdmi14_safe; [done|done|lia..]|]. eapply safe_bind'; [apply starts_safe; [done|lia|cbn; lia]|intros b _].
  apply safe_if; [done| |lia]. apply safe_le with 0; [lia|]. apply hfscdb_safe; [done|done|lia..].
Qed.

Definition J first v i chk s m L (x : rx_cap * option Z) : Prop :=
  I first v i chk s m L (fst x) /\ match snd x with Some o => 0 <= o < 128 | None => True end.

Lemma keep_safe first v i chk s m L (vf : option Z) o : safe (I first v i chk s m L) o -> match vf with Some o => 0 <= o < 128 | None => True end ->
  safe (J first v i chk s m L) (let* c := o in Done (c, vf)).
Proof. intros Ho Hv. eapply safe_bind'; [exact Ho|]. intros c Hc. by split. Qed.

Lemma lumi_safe c d n : good c -> bytes d -> 0 <= n <= blen d -> safe (R 0 c) (let* x := rdn d 0 n in Done (with_lumi c (x :: lumi c))).
Proof. intros. apply safe_rdn_bind; [done|lia|lia|lia|]. intros x _ _. by apply R_lumi. Qed.

Lemma extended_safe first v i chk s m L c vf d off : J first v i chk s m L (c, vf) -> bytes d -> 0 <= off < 128 -> off + 64 <= blen d ->
  block_ok first (adv d off) = true -> nth 0 (adv d off) 0 >> 5 = HDMI_EDID_BLOCK_TYPE_EXTENDED_TAG ->
  let count := nth 0 (adv d off) 0 .& 0x1f in
  safe (J first v i chk s (m + count) L) (extended_block odroid custom d (c, vf) off count).
Proof.
  intros [Hi Hv] Hd Ho Hl Hok Htag count. cbn [fst snd] in *. unfold block_ok in Hok. rewrite Htag, Z.eqb_refl in Hok. fold count in Hok.
  assert (Hp : bytes (adv d off)) by by apply bytes_adv. assert (Hpl : 64 <= blen (adv d off)) by (rewrite adv_length; lia).
  pose proof (length_field_small _ (nth_byte (adv d off) 0 Hp)) as Hc. fold count in Hc. pose proof (i_good _ _ _ _ _ _ _ _ Hi) as Hg.
  unfold extended_block. apply safe_get_bind_nth; [done|lia|].
  replace (nth (Z.to_nat (off + 1)) d 0) with (nth 1 (adv d off) 0) by (rewrite adv_nth by lia; f_equal; lia).
  generalize dependent (nth 1 (adv d off) 0). intros ext Hok. cbv beta zeta.
  assert (Hk : forall o, safe (R 0 c) o -> safe (J first v i chk s (m + count) L) (let* c0 := o in Done (c0, vf))).
  { intros o Hr. apply keep_safe; [|done]. by apply safe_I_R with s m 0 c; [lia|lia|lia|done|]. }
  assert (Hself : J first v i chk s (m + count) L (c, vf)) by (split; [by apply I_le with s m; [lia|lia|]|done]).
  assert (Hput : forall l, forallb (fun p => plain (fst p)) l = true -> J first v i chk s (m + count) L (puts l c, vf)).
  { intros l Hpl'. split; [|done]. apply I_le with s (m + 0); [lia|lia|]. eapply I_R; [lia|exact Hi|by apply R_puts]. }
  destruct (ext =? EXTENSION_VENDOR_SPECIFIC); [apply Hk, vendspec_safe; (done || lia)|].
  destruct (ext =? EXTENSION_COLORMETRY_TAG).
  { apply safe_get_bind; [done|lia|intros x _; cbv beta]. by apply Hput. }
  destruct (ext =? EXTENSION_DRM_STATIC_TAG).
  { apply Z.leb_le in Hok. eapply safe_bind'; [apply drmsb_safe; [done|done|lia|done]|]. intros c' Hr.
    apply safe_rdn_bind; [done|lia|lia|lia|]. intros x _ _. split; [|done]. apply I_le with s (m + 0); [lia|lia|].
    eapply I_R; [lia|exact Hi|]. eapply (R_trans 0 0); [exact Hr|apply R_lumi, Hr|done]. }
  destruct (ext =? EXTENSION_DRM_DYNAMIC_TAG); [apply Hk, drmdb_safe; (done || lia)|].
  destruct (ext =? EXTENSION_VFPDB_TAG); [split; [apply Hself|done]|].
  destruct (ext =? EXTENSION_Y420_VDB_TAG).
  { apply keep_safe; [|done]. apply safe_I_R with s m count c; [lia|lia|lia|done|]. apply y420vdb_safe; (done || lia). }
  destruct (ext =? EXTENSION_Y420_CMDB_TAG).
  { apply andb_prop in Hok. destruct Hok as [H17%Z.leb_le H1]. apply keep_safe; [|done].
    eapply safe_mono; [apply cmdb_safe; [exact Hi|done|lia|done|]|intros c'; apply I_le; lia].
    fold count. intros ->. by rewrite orb_false_r in H1. }
  destruct (ext =? EXTENSION_SCDB_EXT_TAG); [apply Hk, hfscdb_safe; (done || lia)|].
  destruct (ext =? EXTENSION_SBTM_EXT_TAG); [apply Hk, sbtm_safe; (done || lia)|].
  destruct (ext =? EXTENSION_DOLBY_VSADB); [apply Hk, dolby_safe; (done || lia)|].
  destruct (ext =? EXTENSION_IFDB_TAG); [|done].
  apply Hk. apply (safe_R_after _ c (put ifdb_present 1 c)); [by apply R_plain|]. intros. apply ifdb_safe; (done || lia).
Qed.

Lemma data_block_safe first v i chk s m L x d off : J first v i chk s m L x -> bytes d -> 0 <= off < 128 -> off + 64 <= blen d ->
  block_ok first (adv d off) = true ->
  let tag := nth 0 (adv d off) 0 >> 5 in let count := nth 0 (adv d off) 0 .& 0x1f in s + count <= 128 ->
  safe (J first v i chk (s + count) (m + count) (L ++ block_modes (adv d off))) (data_block odroid custom d x tag off count).
Proof.
  intros HJ Hd Ho Hl Hok tag count Hs. destruct x as [c vf]. pose proof HJ as [Hi Hv]. cbn [fst snd] in *. unfold data_block. cbn [fst snd].
  assert (Hp : bytes (adv d off)) by by apply bytes_adv.
  pose proof (length_field_small _ (nth_byte (adv d off) 0 Hp)) as Hc. fold count in Hc. pose proof (i_good _ _ _ _ _ _ _ _ Hi) as Hg.
  unfold block_modes. fold tag count. destruct (tag =? HDMI_EDID_BLOCK_TYPE_VIDEO).
  { apply keep_safe; [|done]. pose proof (store_svds_safe first v i chk d (Z.to_nat count) s m L c (off + 1) Hi) as H.
    rewrite Z2Nat.id in H by lia. unfold adv in *. rewrite drop_drop. replace (Z.to_nat off + 1)%nat with (Z.to_nat (off + 1)) by lia. apply H; (done || lia). }
  rewrite app_nil_r.
  destruct (tag =? HDMI_EDID_BLOCK_TYPE_VENDER).
  { apply keep_safe; [|done]. apply safe_I_R with s m count c; [lia|lia|lia|done|]. apply vendor_safe; (done || lia). }
  destruct (tag =? HDMI_EDID_BLOCK_TYPE_SPEAKER).
  { apply keep_safe; [|done]. apply safe_I_R with s m 0 c; [lia|lia|lia|done|]. go. }
  destruct (tag =? HDMI_EDID_BLOCK_TYPE_EXTENDED_TAG) eqn:E.
  - apply Z.eqb_eq in E. eapply safe_mono; [apply (extended_safe first v i chk s m L c vf d off); (done || lia)|].
    intros x [Hx Hx']. split; [|done]. by apply I_le with s (m + count); [lia|lia|].
  - split; [|done]. by apply I_le with s m; [lia|lia|].
Qed.

Lemma walk_safe first v i chk d end_ g : forall f off L x, J first v i chk (off - 4) (off - 4) L x -> bytes d -> 4 <= off -> end_ <= 127 -> 192 <= blen d ->
  end_ - off < Z.of_nat f -> (0 < f)%nat -> blocks_ok g first d off end_ = true ->
  safe (J first v i chk (Z.max off end_ - 4) (Z.max off end_ - 4) (L ++ walk_modes g d off end_)) (walk (data_block odroid custom d) f d off end_ x).
Proof.
  induction g as [|g IH]; [done|]. intros [|f] off L x HJ Hd Ho He Hl Hf Hf0 Hok; [lia|]. cbn [walk walk_modes blocks_ok] in *.
  destruct (Z.ltb_spec off end_); [|by rewrite Z.max_l, app_nil_r by lia]. rewrite !andb_true_iff, Z.leb_le in Hok. destruct Hok as [[Hn Hb] Hrest].
  apply safe_get_bind_nth; [done|lia|]. pose proof (length_field_small _ (nth_byte d (Z.to_nat off) Hd)) as Hc.
  pose proof (data_block_safe first v i chk _ _ L x d off HJ Hd ltac:(lia) ltac:(lia) Hb) as HD. cbv zeta in HD.
  rewrite (adv_nth d off 0), Nat.add_0_r in HD by lia. cbv beta zeta. rewrite app_assoc. revert Hn Hc Hrest HD.
  generalize (block_modes (adv d off)), (nth (Z.to_nat off) d 0). intros bm b Hn Hc Hrest HD.
  eapply safe_bind'; [apply HD; lia|]. intros x' [HI' Hv']. rewrite u8_small by lia.
  replace (Z.max off end_) with (Z.max (off + 1 + (b .& 31)) end_) by lia. apply IH; [|done|lia..|done].
  split; [|done]. eapply I_le; [| |exact HI']; lia.
Qed.

(** ** An extension block *)

Lemma bits_loop_safe p i n : forall j c, good c -> 0 <= i * 8 + j -> i * 8 + j + Z.of_nat n <= 128 -> safe (R 0 c) (bits_loop odroid custom n p i j c).
Proof.
  induction n as [|n IH]; intros j c Hg Hj Hn; cbn [bits_loop]; [by apply R_refl|].
  eapply safe_bind'; [apply safe_aget; [done|cbn; lia]|intros w _]. apply safe_seq; [|intros; apply IH; [done|lia|lia]].
  apply safe_if; [done|by apply store_y420_safe|lia].
Qed.
Lemma bytes_loop_safe n : forall i c, good c -> 0 <= i -> i + Z.of_nat n <= 16 -> safe (R 0 c) (bytes_loop odroid custom n i c).
Proof.
  induction n as [|n IH]; intros i c Hg Hi Hn; cbn [bytes_loop]; [by apply R_refl|].
  eapply safe_bind'; [apply safe_aget; [done|cbn; lia]|intros w _]. apply safe_seq; [apply bits_loop_safe; [done|lia|lia]|].
  intros. apply IH; [done|lia|lia].
Qed.

Lemma D_put k c c1 f x : D k c c1 -> f <> VIC_count -> f <> dtd_idx -> f <> edid_check -> D k c (put f x c1).
Proof.
  intros [] H1 H2 H3. split; [by apply put_good|..]; unfold modes in *; cbn [put sc ar]; rewrite decide_False by congruence; done.
Qed.
Lemma fill_all_safe c : good c -> sc c VIC_count <= 128 -> safe (fun c' => D 0 c c' /\ (sc c' bitmap_length = sc c bitmap_length \/ 0 <= sc c' bitmap_length <= 16))
  (edid_y420cmdb_fill_all_vic c).
Proof.
  intros Hg Hv. unfold edid_y420cmdb_fill_all_vic. destruct (negb _); [split; [by apply D_refl|by left]|]. cbv zeta.
  set (n := sc c VIC_count) in *. assert (Hn : 0 <= n) by apply Hg. assert (H8 : 0 <= n / 8 <= 16) by (split; [apply Z.div_pos; lia|apply Z.div_le_upper_bound; lia]).
  assert (Hm : n / 8 = 16 -> n mod 8 = 0) by (intros; pose proof (Z.div_mod n 8 ltac:(lia)); pose proof (Z.mod_pos_bound n 8); lia).
  unfold Y420CMDB_MAX. rewrite Z.min_l by lia. eapply safe_bind'; [apply safe_wr; [lia|]|].
  - rewrite length_replicate, (g_arr _ Hg). cbn [array_size]. lia.
  - intros l Hl. cbn beta in Hl. rewrite (g_arr _ Hg) in Hl. assert (R1 : R 0 c (put_array y420cmdb_bitmap l c)) by by apply R_array.
    eapply safe_bind' with (P := R 0 c).
    + destruct (_ && _) eqn:E'; [|done]. eapply safe_R_after; [exact R1|]. intros. apply safe_aset; [done|done|cbn; lia].
    + intros c' R2. cbn [safe puts foldl fst snd]. split.
      * apply D_put; [apply D_put; [by apply R_D|done..]|done..].
      * right. cbn [put sc]. rewrite decide_False, decide_True by done.
        destruct (Z.eqb_spec (n mod 8) 0); rewrite u8_small by lia; [lia|]. assert (n / 8 <> 16) by auto. lia.
Qed.
Lemma postprocess_safe first v i chk s m L c : I first v i chk s m L c -> (first = true -> v + m <= 128) -> safe (D 0 c) (edid_y420cmdb_postprocess odroid custom c).
Proof.
  intros Hi Hf. unfold edid_y420cmdb_postprocess. pose proof Hi as [Hg _ Hv _ _ Hl Ha _].
  eapply safe_bind' with (P := fun c' => D 0 c c' /\ (sc c' bitmap_length = sc c bitmap_length \/ 0 <= sc c' bitmap_length <= 16)).
  - destruct (Z.eqb_spec (sc c y420_all_vic) 1); [|split; [by apply D_refl|by left]]. apply fill_all_safe; [done|]. specialize (Hf (Ha e)). lia.
  - intros c' [Hd Hb]. destruct (_ =? 0); [done|]. eapply safe_mono; [apply bytes_loop_safe; [apply Hd|lia|lia]|].
    intros c2 Hr. apply R_D in Hr; [|lia]. by eapply D_trans.
Qed.

Lemma cta_start first c buf_native n : good c ->
  I first (sc c VIC_count) (sc c dtd_idx) (sc c edid_check) 0 0 (modes c)
    (edid_y420cmdb_reset (put_array SVD_VIC (replicate 128 0) (put SVD_VIC_count 0 (put number_of_dtd n (put native_Mode buf_native c))))).
Proof.
  intros Hg. unfold edid_y420cmdb_reset. cbn [puts foldl fst snd].
  assert (Hgood : forall c, good c -> forall a l, length l = array_size a -> a <> VIC -> good (put_array a l c)) by (intros ? ? a l ? ?; by apply (R_array a l)).
  split; try (cbn; lia); try done; cycle 1.
  { match goal with |- _ <= ?x <= _ => change x with (sc c VIC_count) end. lia. }
  apply Hgood; [|done|done]. do 3 (apply put_good; [|done]). apply Hgood; [|done|done].
  by do 3 (apply put_good; [|done]).
Qed.

Lemma cta_walk first c c1 d end_ rev f :
  I first (sc c VIC_count) (sc c dtd_idx) (sc c edid_check) 0 0 (modes c) c1 -> bytes d -> 192 <= blen d -> 0 <= end_ <= 127 -> 128 <= Z.of_nat f ->
  (rev <=? 2) || blocks_ok f first d 4 end_ = true ->
  safe (J first (sc c VIC_count) (sc c dtd_idx) (sc c edid_check) (Z.max 4 end_ - 4) (Z.max 4 end_ - 4)
          (modes c ++ if rev <=? 2 then [] else walk_modes f d 4 end_))
    (if rev <=? 2 then Done (c1, None) else walk (data_block odroid custom d) f d 4 end_ (c1, None)).
Proof.
  intros Hs Hd Hl He Hf Hb. destruct (rev <=? 2) eqn:Er; cbn [orb] in Hb.
  - split; [|done]. rewrite app_nil_r. eapply I_le; [| |exact Hs]; lia.
  - apply walk_safe; [by split|done|lia|lia|done|lia|lia|exact Hb].
Qed.

Lemma cta_after first c c2 vf d end_ s M : J first (sc c VIC_count) (sc c dtd_idx) (sc c edid_check) s s (modes c ++ M) (c2, vf) ->
  bytes d -> 192 <= blen d -> 0 <= end_ <= 127 ->
  (first = true -> sc c VIC_count + s <= 128) -> 0 <= sc c dtd_idx -> sc c dtd_idx + places 8 end_ <= 16 -> dtds_ok 8 d end_ = true ->
  safe (E (places 8 end_) M c)
    (let* c := edid_y420cmdb_postprocess odroid custom c2 in
     let* c := ext_dtds odroid custom 8 c d end_ in
     match vf with Some o => edid_parsingvfpdb c (adv d o) | None => Done c end).
Proof.
  intros [H2 Hv] Hd Hl He Hf Hi Hp Hok. cbn [fst snd] in *.
  assert (E2 : E 0 M c c2).
  { destruct H2 as [G _ _ I' Ch _ _ Hm]. split; [done|lia|done| |]; intros x Hx; apply Hm, elem_of_app; auto. }
  assert (E3 : safe (E 0 M c) (edid_y420cmdb_postprocess odroid custom c2)).
  { eapply safe_mono; [eapply postprocess_safe; [exact H2|done]|]. intros c3 H3. apply E_new with (M ++ []); [by rewrite app_nil_r|].
    eapply E_trans; [exact E2|apply D_E; exact H3|done]. }
  apply safe_E_nil with 0 (places 8 end_); [exact E3| |lia]. intros c3 [G3 I3 Ch3 _ _].
  apply safe_E_nil with (places 8 end_) 0; [|intros c4 [G4 _ _ _ _]|lia].
  - eapply safe_mono; [apply ext_dtds_safe; [done|done|lia|lia|lia|lia|done]|]. intros c4. apply D_E.
  - destruct vf as [o|]; [|by apply E_refl]. apply safe_R_E with 0. apply vfpdb_safe; [done|room|rewrite adv_length; lia].
Qed.

Lemma cta_safe first c d : good c -> bytes d -> 192 <= blen d -> (first = true -> sc c VIC_count <= 4) ->
  0 <= sc c dtd_idx -> sc c dtd_idx + cta_places d <= 16 -> cta_ok first d = true ->
  safe (E (cta_places d) (cta_modes d) c) (hdmitx_edid_cta_block_parse odroid custom c d).
Proof.
  intros Hg Hd Hl Hf Hi Hp Hok. unfold hdmitx_edid_cta_block_parse. cbv beta zeta delta [cta_ok cta_places cta_modes] in *.
  apply safe_get_bind_nth; [done|lia|]. apply safe_get_bind_nth; [done|lia|]. apply safe_get_bind; [done|lia|intros b3 _; cbv beta zeta].
  change (Z.to_nat 1) with 1%nat. change (Z.to_nat 2) with 2%nat. pose proof (nth_byte d 2 Hd) as Hend. unfold is_byte in Hend.
  revert Hp Hok Hend. generalize (nth 2 d 0), (nth 1 d 0). intros end_ rev Hp Hok Hend.
  match goal with |- context [edid_y420cmdb_reset (put_array SVD_VIC _ (put SVD_VIC_count 0 (put number_of_dtd ?n (put native_Mode ?b c))))] =>
    pose proof (cta_start first c b n Hg) as Hs; generalize dependent (edid_y420cmdb_reset
      (put_array SVD_VIC (replicate 128 0) (put SVD_VIC_count 0 (put number_of_dtd n (put native_Mode b c))))) end.
  intros c1 Hs. destruct (Z.ltb_spec 127 end_); [destruct Hs; split; [done|lia|done|done|apply list_subseteq_nil]|].
  cbn [orb] in Hok |- *. apply andb_prop in Hok. destruct Hok as [Hb Hdtds].
  eapply safe_bind'; [apply (cta_walk first c c1 d end_ rev 128 Hs Hd Hl); [lia|done|exact Hb]|].
  intros [c2 vf] HJ. eapply cta_after; [exact HJ|done|done|lia| |done|done|done]. intros Hft. specialize (Hf Hft). lia.
Qed.

(** ** The base block *)

Lemma cta_places_nonneg d : 0 <= cta_places d.
Proof. unfold cta_places. destruct (_ <? _); [done|]. apply places_nonneg. Qed.
Lemma ctas_places_nonneg n : forall i chk d, 0 <= ctas_places n i chk d.
Proof.
  induction n as [|n IH]; intros i chk d; cbn [ctas_places]; [done|]. pose proof (IH (i + 1) chk d). pose proof (cta_places_nonneg (adv d (i * 128))).
  destruct (_ || _); lia.
Qed.

Lemma ctas_safe chk d n : forall i c, good c -> bytes d -> blen d = 1024 -> 1 <= i -> i + Z.of_nat n <= 7 -> sc c edid_check = chk ->
  (i = 1 -> sc c VIC_count <= 4) -> 0 <= sc c dtd_idx -> sc c dtd_idx + ctas_places n i chk d <= 16 -> ctas_ok n i chk d = true ->
  safe (E (ctas_places n i chk d) (ctas_modes n i chk d) c) (cta_blocks odroid custom n i c d).
Proof.
  induction n as [|n IH]; intros i c Hg Hd Hl Hi Hn Hc Hv Hx Hp Hok; cbn [cta_blocks ctas_places ctas_modes ctas_ok] in *; [by apply E_refl|].
  apply andb_prop in Hok. destruct Hok as [Hok Hrest]. apply safe_get_bind_nth; [done|lia|].
  replace (nth (Z.to_nat (i * 128)) d 0) with (nth 0 (adv d (i * 128)) 0) by (rewrite adv_nth, Nat.add_0_r by lia; done).
  pose proof (ctas_places_nonneg n (i + 1) chk d) as H0. rewrite Hc. set (b := adv d (i * 128)) in *.
  assert (Hb : bytes b) by by apply bytes_adv. assert (Hbl : 192 <= blen b) by (unfold b; rewrite adv_length; lia).
  pose proof (cta_places_nonneg b) as Hb0.
  set (p := if (nth 0 b 0 =? 2) || truthy (chk .& 1) then cta_places b else 0) in *.
  set (M := if (nth 0 b 0 =? 2) || truthy (chk .& 1) then cta_modes b else []).
  apply safe_E_bind with p (ctas_places n (i + 1) chk d).
  - subst p M. revert Hok Hp. destruct (_ || _); intros Hok Hp; [|by apply E_refl].
    apply cta_safe with (i =? 1); [done|done|done| |done|lia|done].
    intros He%Z.eqb_eq. by apply Hv.
  - intros c' [G' I' Ch' _ _]. apply IH; [done|done|done|lia|lia|congruence|lia|lia|lia|done].
  - lia.
Qed.

Lemma R_forced_oui k c c1 : R k c c1 -> R k c (forced_oui odroid voutmode c1).
Proof. intros. unfold forced_oui. repeat case_match; try apply R_put_after; done. Qed.

Lemma count_safe d : bytes d -> blen d = 1024 -> safe (fun n => 0 <= n <= 7) (hdmitx_edid_get_cta_block_count d).
Proof.
  intros Hd Hl. unfold hdmitx_edid_get_cta_block_count, EDID_MAX_BLOCK. apply safe_get_bind; [done|lia|intros n Hn; cbv beta].
  eapply safe_bind' with (P := is_byte); [|intros x Hx; unfold is_byte in Hx; cbn [safe]; lia]. destruct (truthy n); [|done].
  apply safe_get_bind; [done|lia|intros a _; cbv beta]. apply safe_get_bind; [done|lia|intros b _; cbv beta]. destruct (_ && _); [|done].
  apply safe_get; [done|lia].
Qed.

Lemma base_structure_safe c d : good c -> bytes d -> blen d = 1024 -> safe (R 0 c) (_edid_parse_base_structure odroid voutmode c d).
Proof.
  intros Hg Hd Hl. unfold _edid_parse_base_structure.
  assert (Hb : forall i, bytes (adv d i)) by (intros; by apply bytes_adv).
  assert (Hbl : forall i, 0 <= i <= 512 -> 512 <= blen (adv d i)) by (intros; rewrite adv_length; lia).
  assert (Hn : forall i, 0 <= i <= 512 -> 5 <= blen (adv d i) /\ 2 <= blen (adv d i) /\ 4 <= blen (adv d i)) by (intros i Hi; specialize (Hbl i Hi); lia).
  apply safe_seq; [apply manufacturer_safe; [done|done|apply Hn; lia]|clear c Hg; intros c Hg].
  apply safe_seq; [apply product_safe; [done|done|apply Hn; lia]|clear c Hg; intros c Hg].
  apply safe_seq; [apply serial_safe; [done|done|apply Hn; lia]|clear c Hg; intros c Hg].
  apply safe_seq; [apply established_safe; [done|done|apply Hn; lia]|clear c Hg; intros c Hg].
  apply safe_seq; [apply date_safe; [done|done|apply Hn; lia]|clear c Hg; intros c Hg].
  apply safe_seq; [apply version_safe; [done|done|apply Hn; lia]|clear c Hg; intros c Hg].
  apply safe_seq; [apply physical_safe; [done|done|apply Hn; lia]|clear c Hg; intros c Hg].
  apply safe_get_bind; [done|lia|intros chk _; cbv beta zeta]. eapply safe_bind'; [by apply count_safe|intros n _].
  assert (R1 : R 0 c (put blk0_chksum chk c)) by by apply R_plain. destruct (n =? 0); [|done].
  apply safe_rdn_bind; [done|lia|lia|lia|]. intros l _ _. apply R_forced_oui. destruct (_ <? _); repeat (apply R_put_after; [|done]); by apply R_refl.
Qed.

Lemma base_timings_safe c d : good c -> bytes d -> blen d = 1024 -> 0 <= sc c dtd_idx <= 12 -> forallb (fun k => dtd_ok (adv d (0x36 + 18 * k))) [0; 1; 2; 3] = true ->
  safe (D 4 c) (base_timings odroid custom c d).
Proof.
  intros Hg Hd Hl Hi Hok. rewrite forallb_forall in Hok. unfold base_timings, edid_parseceatiming.
  assert (H1 : forall c, good c -> 0 <= sc c dtd_idx <= 12 -> safe (D 4 c) (dtd_loop odroid custom 4 c (adv d 54))).
  { intros c' Hg' Hi'. apply (dtd_loop_safe 4); [done|room|rewrite adv_length; lia|lia|lia|]. intros k Hk. unfold adv. rewrite drop_drop.
    specialize (Hok (Z.of_nat k) ltac:(cbn; lia)). unfold adv in Hok. by replace (Z.to_nat 54 + Z.to_nat (18 * Z.of_nat k))%nat with (Z.to_nat (54 + 18 * Z.of_nat k)) by lia. }
  assert (H2 : forall c, good c -> safe (D 0 c) (edid_standardtiming 8 c (adv d 38))).
  { intros c' Hg'. apply safe_R_D with 0; [lia|lia|]. apply standardtiming_safe; [done|room|rewrite adv_length; lia]. }
  destruct odroid.
  - apply safe_D_bind with 4 0; [by apply H1|intros c' Hr; apply H2, Hr|lia].
  - apply safe_D_bind with 0 4; [by apply H2|intros c' [G' I' _ _ _]; apply H1; [done|lia]|lia].
Qed.

Lemma descriptors_safe d n : forall i c, good c -> bytes d -> blen d = 1024 -> 0 <= i -> i + Z.of_nat n <= 4 -> safe (R 0 c) (descriptors n i c d).
Proof.
  induction n as [|n IH]; intros i c Hg Hd Hl Hi Hn; cbn [descriptors]; [by apply R_refl|]. cbv zeta.
  set (p := adv d (54 + 18 * i)). assert (Hp : bytes p) by by apply bytes_adv. assert (Hpl : 128 <= blen p) by (unfold p; rewrite adv_length; lia).
  clearbody p. apply safe_get_bind; [done|lia|intros d0 _; cbv beta].
  eapply safe_bind' with (P := fun _ => True).
  { destruct (truthy d0); [|done]. by apply safe_get_bind; [done|lia|intros d1 _; cbv beta]. }
  intros timing _. apply safe_seq; [|intros; apply IH; [done|done|done|lia|lia]].
  destruct timing.
  - destruct (i =? 0); [apply pmt_safe; (done || lia)|]. destruct (i =? 1); [apply pmt2_safe; (done || lia)|by apply R_refl].
  - apply safe_get_bind; [done|lia|intros tag _; cbv beta].
    assert (Hb : forall k, bytes (adv p k)) by (intros; by apply bytes_adv). assert (Hbl : forall k, 0 <= k <= 8 -> 100 <= blen (adv p k)) by (intros; rewrite adv_length; lia).
    pose proof (Hbl 5 ltac:(lia)). pose proof (Hbl 6 ltac:(lia)).
    destruct (tag =? _); [apply standardtiming_safe; [done|done|lia]|]. destruct (tag =? _); [apply cvt_safe; [done|done|lia]|].
    destruct (tag =? _); [apply timing_iii_safe; [done|done|lia]|]. destruct (tag =? _); [apply name_safe; [done|done|lia]|by apply R_refl].
Qed.

(** ** Validity *)

Lemma block_sum_safe d : bytes d -> 128 <= blen d -> safe (fun _ => True) (block_sum d).
Proof. intros. unfold block_sum. by apply safe_rdn_bind; [done|lia|lia|lia|intros]. Qed.
Lemma chksum_safe chk d : bytes d -> 128 <= blen d -> safe (fun _ => True) (_check_edid_blk_chksum chk d).
Proof. intros. unfold _check_edid_blk_chksum. destruct (truthy _); [done|]. eapply safe_bind'; [by apply block_sum_safe|done]. Qed.
Lemma header_safe d : bytes d -> 128 <= blen d -> safe (fun _ => True) (header_bytes d).
Proof. intros. unfold header_bytes. by apply safe_rdn_bind; [done|lia|lia|lia|intros]. Qed.
Lemma base_check_safe chk d : bytes d -> 128 <= blen d -> safe (fun _ => True) (_check_base_structure chk d).
Proof.
  intros. unfold _check_base_structure. eapply safe_bind' with (P := fun _ => True); [destruct (negb _); [by apply header_safe|done]|].
  intros b _. destruct b; [by apply chksum_safe|done].
Qed.
Lemma ext_valid_safe chk n : forall d, bytes d -> 128 * Z.of_nat n <= blen d -> safe (fun _ => True) (ext_blocks_valid n chk d).
Proof.
  induction n as [|n IH]; intros d Hd Hl; cbn [ext_blocks_valid]; [done|].
  eapply safe_bind' with (P := fun _ => True); [destruct (negb _); [apply safe_get_bind; [done|lia|done]|done]|]. intros b _.
  destruct b; [|done]. eapply safe_bind'; [by apply chksum_safe; [|lia]|]. intros b _. destruct b; [|done].
  apply IH; [room|rewrite adv_length; lia].
Qed.
Lemma checksums_safe chk n : forall d, bytes d -> 128 * Z.of_nat n <= blen d -> safe (fun _ => True) (checksums_ok n chk d).
Proof.
  induction n as [|n IH]; intros d Hd Hl; cbn [checksums_ok]; [done|].
  eapply safe_bind'; [by apply chksum_safe; [|lia]|]. intros b _. destruct b; [|done]. apply IH; [room|rewrite adv_length; lia].
Qed.
Lemma valid_safe chk d : bytes d -> blen d = 1024 -> safe (fun _ => True) (hdmitx_edid_check_data_valid chk d).
Proof.
  intros Hd Hl. unfold hdmitx_edid_check_data_valid. eapply safe_bind' with (P := fun k => 1 <= k <= 8).
  { unfold hdmitx_edid_get_block_count. eapply safe_bind'; [by apply count_safe|]. intros n Hn. cbn [safe]. cbn beta in Hn. lia. }
  intros k Hk. eapply safe_bind'; [by apply base_check_safe; [|lia]|]. intros b _. destruct (negb b); [done|]. destruct (k =? 1); [done|].
  eapply safe_bind' with (P := fun _ => True).
  { destruct (negb _); [apply safe_get_bind; [done|lia|done]|done]. }
  intros ok _. destruct ok; [|done]. apply ext_valid_safe; [room|rewrite adv_length; lia].
Qed.
Lemma header_invalid_safe chk d : bytes d -> blen d = 1024 -> safe (fun _ => True) (hdmitx_edid_header_invalid chk d).
Proof.
  intros. unfold hdmitx_edid_header_invalid. destruct (truthy _); [done|]. eapply safe_bind'; [apply header_safe; [done|lia]|done].
Qed.

(** ** Defaults *)

(** The arrays, without the list of modes. *)
Definition shape (c : rx_cap) : Prop :=
  (forall a, length (ar c a) = array_size a) /\ length (dtds c) = 16%nat /\ length (support_3d_format c) = 512%nat /\
  (forall i, info_ok (dynamic_info c i)) /\ length (RxAudioCap c) = 60%nat /\ bytes (ar c VIC).
Lemma good_shape c : good c -> shape c.
Proof. by intros []. Qed.

(** Modes written over the first ones. *)
Lemma put_vics_spec l : forall i c, shape c -> bytes l -> 0 <= i -> i + blen l <= 512 ->
  safe (fun c' => shape c' /\ sc c' = sc c /\ ar c' VIC = splice (ar c VIC) i l) (put_vics l i c).
Proof.
  induction l as [|v l IH]; intros i c Hc Hb Hi Hl; cbn [put_vics].
  - cbn [safe]. repeat (split; [done|]). by rewrite splice_nil.
  - pose proof Hc as (Ha & Hd & H3 & Hy & Hu & Hv). inversion Hb as [|? ? Hb1 Hb2]; subst. cbn [length] in Hl.
    assert (E0 : blen (ar c VIC) = 512) by by rewrite Ha. unfold aset. rewrite wr_Done by (cbn [length]; lia). cbn [obind].
    set (c1 := put_array VIC _ c). assert (Hs : shape c1).
    { split; [|repeat (split; [done|])].
      - intros a. cbn. destruct (decide (a = VIC)) as [->|]; [|apply Ha]. rewrite splice_length by (cbn [length]; lia). apply Ha.
      - change (bytes (splice (ar c VIC) i [v])). apply bytes_splice; [done|]. by apply Forall_singleton. }
    eapply safe_mono; [apply IH; [done|done|lia|lia]|]. intros c' (H1 & H2 & H4). repeat (split; [done|]).
    rewrite H4. change (ar c1 VIC) with (splice (ar c VIC) i [v]). change (v :: l) with ([v] ++ l).
    rewrite <- splice_app by (cbn [length]; lia). done.
Qed.
Lemma vics_safe l c : shape c -> bytes l -> NoDup l -> blen l <= 512 -> sc c VIC_count = blen l ->
  safe (fun c' => good c' /\ sc c' = sc c /\ take (length l) (ar c' VIC) = l) (put_vics l 0 c).
Proof.
  intros Hc Hb Hn Hl Hk. eapply safe_mono; [by apply put_vics_spec|]. intros c' ((Ha & Hd & H3 & Hy & Hu & Hv) & Hs & Hvic).
  assert (Ht : take (length l) (ar c' VIC) = l) by (rewrite Hvic; unfold splice; change (take (Z.to_nat 0) (ar c VIC)) with (@nil Z); by rewrite app_nil_l, take_app_length).
  split; [|done]. split; try done; rewrite Hs, Hk; [lia|]. by rewrite Nat2Z.id, Ht.
Qed.

Lemma default_aud_safe c : good c -> safe (fun c' => good c' /\ (forall f, f <> AUD_count -> sc c' f = sc c f) /\ ar c' = ar c) (hdmitx_edid_set_default_aud c).
Proof.
  intros Hg. unfold hdmitx_edid_set_default_aud. destruct (truthy _); [done|]. eapply safe_bind'; [apply (safe_upd_at (RxAudioCap c)); rewrite (g_aud _ Hg); lia|].
  intros l Hl. cbn beta in Hl. rewrite (g_aud _ Hg) in Hl. cbn [safe]. split; [|split; [|done]].
  - pose proof (put_good AUD_count 1 c Hg ltac:(done)) as []. by split.
  - intros f Hf. cbn [with_aud put sc]. by rewrite decide_False.
Qed.

Lemma default_vic_safe c : good c -> safe good (hdmitx_edid_set_default_vic c).
Proof.
  intros Hg. unfold hdmitx_edid_set_default_vic. assert (Hs : shape (put VIC_count 4 c)) by by apply good_shape in Hg.
  assert (Hn : NoDup [3; 4; 5; 16]) by (apply (bool_decide_eq_true_1 (NoDup [3; 4; 5; 16])); reflexivity).
  assert (Hb : bytes [3; 4; 5; 16]) by (repeat constructor; done).
  eapply safe_bind'; [by apply vics_safe|]. intros c' (G & _ & _). by apply put_good.
Qed.

(** What an invalid EDID gives: 1080p60, 720p60 and 480p60 over HDMI. *)
Definition fallback (c : rx_cap) : Prop :=
  good c /\ sc c VIC_count = 3 /\ take 3 (ar c VIC) = [16; 4; 3] /\ sc c native_vic = 4 /\ sc c ieeeoui = HDMI_IEEE_OUI /\
  sc c Max_TMDS_Clock1 = DEFAULT_MAX_TMDS_CLK /\ sc c phy_valid = 0 /\ sc c dc_y444 = 0.
Lemma fallback_safe c : good c -> safe fallback (edid_set_fallback_mode c).
Proof.
  intros Hg. unfold edid_set_fallback_mode. cbv zeta. set (c1 := puts _ c). assert (Hs : shape c1) by by apply good_shape in Hg.
  assert (Hn : NoDup [16; 4; 3]) by (apply (bool_decide_eq_true_1 (NoDup [16; 4; 3])); reflexivity).
  assert (Hb : bytes [16; 4; 3]) by (repeat constructor; done).
  eapply safe_bind'; [by apply vics_safe|]. intros c2 (G & Hk & Ht).
  assert (G2 : good (put native_vic 4 c2)) by by apply put_good.
  eapply safe_mono; [by apply default_aud_safe|]. intros c' (G' & Hf & Ha).
  unfold fallback. rewrite Ha, !Hf by done. cbn [put sc ar]. rewrite Hk. by repeat (split; [done|]).
Qed.

(** ** The whole *)

Lemma search_safe d : bytes d -> 0x180 <= blen d -> safe (fun _ => True) (hdmitx_edid_search_IEEEOUI d).
Proof. intros. unfold hdmitx_edid_search_IEEEOUI. by apply safe_rdn_bind; [done|lia|lia|lia|intros]. Qed.
Lemma zero_safe d : bytes d -> 128 <= blen d -> safe (fun _ => True) (edid_zero_data d).
Proof. intros. unfold edid_zero_data. eapply safe_bind'; [by apply block_sum_safe|done]. Qed.
Lemma nonzero_safe n : forall d, bytes d -> 128 * Z.of_nat n <= blen d -> safe (fun _ => True) (nonzero_blocks n d).
Proof.
  induction n as [|n IH]; intros d Hd Hl; cbn [nonzero_blocks]; [done|]. eapply safe_bind'; [apply block_sum_safe; [done|lia]|]. intros x _.
  eapply safe_bind'; [apply IH; [room|rewrite adv_length; lia]|done].
Qed.
Lemma valid_num_safe d : bytes d -> blen d = 1024 -> safe (fun _ => True) (hdmitx_edid_valid_block_num d).
Proof.
  intros. unfold hdmitx_edid_valid_block_num. eapply safe_bind'; [apply nonzero_safe; [done|unfold EDID_MAX_BLOCK; lia]|]. intros n _.
  apply safe_get_bind; [done|lia|intros a _; cbv beta]. apply safe_get_bind; [done|lia|intros b _; cbv beta]. destruct (_ && _); [|done].
  by apply safe_get_bind; [done|lia|intros].
Qed.
Lemma update_chksum_safe c d : good c -> bytes d -> blen d = 1024 -> safe (R 0 c) (update_edid_chksum c d).
Proof.
  intros. unfold update_edid_chksum. do 4 (apply safe_get_bind; [done|lia|intros ? _; cbv beta]).
  eapply safe_bind'; [apply safe_wr; [lia|cbn; lia]|]. intros l Hl. by apply R_array.
Qed.
Lemma decide_oui_safe c d : good c -> bytes d -> blen d = 1024 -> safe (R 0 c) (decide_oui odroid voutmode c d).
Proof.
  intros Hg Hd Hl. unfold decide_oui. eapply safe_bind'; [apply search_safe; [room|rewrite adv_length; lia]|]. intros found _. cbv zeta.
  eapply safe_bind'; [by apply valid_safe|]. intros ok _. eapply safe_bind'; [apply zero_safe; [done|lia]|]. intros z _. apply R_forced_oui.
  destruct z; repeat (apply R_put_after; [|done]); apply R_forced_oui; apply R_put_after; [by apply R_refl|done|by apply R_refl|done].
Qed.

Lemma R_putd_after i l k c c1 : R k c c1 -> R k c (putd i l c1).
Proof. intros Hr. eapply R_trans; [exact Hr|unfold putd; apply R_puts; [apply Hr|]|apply Z.eq_le_incl, Z.add_0_r]. by induction l as [|[]]. Qed.
Lemma check_dv_safe i c : good c -> R 0 c (check_dv_truly_support i c).
Proof.
  intros Hg. unfold check_dv_truly_support. cbv zeta. repeat case_match; try apply R_putd_after; simplify_eq; try (apply R_put_after; [|done]); by apply R_refl.
Qed.

Lemma R_clear c : R 0 (hdmitx_edid_rxcap_clear c) (hdmitx_edid_rxcap_clear c) /\
  sc (hdmitx_edid_rxcap_clear c) VIC_count = 0 /\ sc (hdmitx_edid_rxcap_clear c) dtd_idx = 0 /\
  sc (hdmitx_edid_rxcap_clear c) edid_check = sc c edid_check.
Proof.
  split; [|done]. apply R_refl. split; try (cbn; lia); try done.
  - intros a. cbn. by rewrite length_replicate.
  - intros i. split; [done|]. apply (Forall_replicate (A := hdr_dynamic)), length_replicate.
  - by apply (Forall_replicate (A := Z)).
  - constructor.
Qed.

(** The part that collects modes. *)
Lemma collect_safe chk c d n : good c -> bytes d -> blen d = 1024 -> sc c VIC_count = 0 -> sc c dtd_idx = 0 -> sc c edid_check = chk ->
  hdmitx_edid_get_cta_block_count d = Done n -> tame chk d = true ->
  safe (E 16 (ctas_modes (Z.to_nat n) 1 chk d) c)
    (let* c := if odroid then base_timings odroid custom c d else Done c in
     let* c := cta_blocks odroid custom (Z.to_nat n) 1 c d in
     if odroid then Done c else base_timings odroid custom c d).
Proof.
  intros Hg Hd Hl Hv Hi Hc En Ht. unfold tame in Ht. rewrite En, !andb_true_iff, !Z.leb_le in Ht. destruct Ht as [[[H6 Hb] Hk] Hp].
  pose proof (ctas_places_nonneg (Z.to_nat n) 1 chk d) as H0. set (M := ctas_modes _ _ _ _). set (p := ctas_places _ _ _ _) in *.
  assert (Hct : forall c, good c -> sc c edid_check = chk -> sc c VIC_count <= 4 -> 0 <= sc c dtd_idx <= 4 -> safe (E p M c) (cta_blocks odroid custom (Z.to_nat n) 1 c d)).
  { intros c' ? ? ? ?. apply ctas_safe; (done || lia). }
  assert (Hbt : forall c, good c -> 0 <= sc c dtd_idx <= 12 -> safe (D 4 c) (base_timings odroid custom c d)) by (intros; by apply base_timings_safe).
  destruct odroid.
  - eapply safe_bind'; [apply Hbt; [done|lia]|]. intros c1 [G1 I1 V1 C1 S1]. eapply safe_bind'; [apply Hct; [done|congruence|lia|lia]|].
    intros c2 [G2 I2 C2 S2 N2]. cbn [safe]. split; [done|lia|congruence|by etrans|done].
  - cbn [obind]. eapply safe_bind'; [apply Hct; [done|done|lia|lia]|]. intros c2 [G2 I2 C2 S2 N2].
    eapply safe_mono; [apply Hbt; [done|lia]|]. intros c3 [G3 I3 V3 C3 S3]. split; [done|lia|congruence|by etrans|by etrans].
Qed.

(** Without a zero base block the modes found stay. *)
Definition kept (c : rx_cap) (d : list Z) (c' : rx_cap) : Prop := good c' /\ (edid_zero_data d = Done false -> modes c ⊆ modes c').

Lemma finish_safe c d : good c -> bytes d -> blen d = 1024 ->
  safe (kept c d)
    (let* zero := edid_zero_data d in
     if zero || (sc c VIC_count =? 0) then hdmitx_edid_set_default_vic c else Done c).
Proof.
  intros. destruct (safe_inv _ _ (zero_safe d H0 ltac:(lia))) as (z & Ez & _). rewrite Ez. cbn [obind].
  assert (Hd : (z = true \/ sc c VIC_count = 0) -> safe (kept c d) (hdmitx_edid_set_default_vic c)).
  { intros Hz. eapply safe_mono; [by apply default_vic_safe|]. intros c' G. split; [done|]. rewrite Ez. intros [= ->].
    destruct Hz as [|Hz]; [done|]. unfold modes. rewrite Hz. apply list_subseteq_nil. }
  destruct z; [by apply Hd; left|]. cbn [orb]. destruct (Z.eqb_spec (sc c VIC_count) 0); [by apply Hd; right|by split].
Qed.

Lemma safe_bind3 {A} (P Q : A -> Prop) (m1 : outcome A) (m2 m3 k : A -> outcome A) :
  safe P (let* c := m1 in let* c := m2 c in m3 c) -> (forall c, P c -> safe Q (k c)) ->
  safe Q (let* c := m1 in let* c := m2 c in let* c := m3 c in k c).
Proof. intros Hm Hk. destruct m1 as [a| |]; [|done..]. cbn in *. destruct (m2 a) as [b| |]; [|done..]. cbn in *. destruct (m3 b); [by apply Hk|done..]. Qed.

Lemma safe_bind_eq {A B} (Q : B -> Prop) (m : outcome A) (k : A -> outcome B) a : m = Done a -> safe Q (k a) -> safe Q (obind m k).
Proof. by intros ->. Qed.

(** The steps after the lists of modes. *)
Lemma late_safe c d : good c -> bytes d -> blen d = 1024 ->
  safe (kept c d)
    (let* v0 := aget VIC 0 c in
     let c := if (sc c flag_vfpdb =? 0) && negb (sc c preferred_mode =? v0) && (sc c number_of_dtd =? 0) then put preferred_mode v0 c else c in
     let* c := descriptors 4 0 c d in
     let* c := decide_oui odroid voutmode c d in
     let* c := update_edid_chksum c d in
     let* num := hdmitx_edid_valid_block_num d in
     let c := if num =? 0 then put ieeeoui HDMI_IEEE_OUI c else c in
     let c := check_dv_truly_support true (check_dv_truly_support false c) in
     let c :=
       if (sc c physical_width =? 0) || (sc c physical_height =? 0) then
         match dtds c with t :: _ => puts [(physical_width, d_h_image_size t); (physical_height, d_v_image_size t)] c | [] => c end
       else c in
     let* zero := edid_zero_data d in
     if zero || (sc c VIC_count =? 0) then hdmitx_edid_set_default_vic c else Done c).
Proof.
  intros Hg Hd Hl. eapply safe_bind'; [apply aget_vic; [done|lia]|]. intros v0 _. cbv zeta.
  set (c1 := if _ && _ && _ then _ else c). assert (R1 : R 0 c c1) by (subst c1; destruct (_ && _); [by apply R_plain|by apply R_refl]). clearbody c1.
  eapply safe_bind'; [apply descriptors_safe; [apply R1|done|done|lia|lia]|]. intros c2 R2. pose proof (r_good _ _ _ R2) as G2.
  eapply safe_bind'; [by apply decide_oui_safe|]. intros c3 R3. pose proof (r_good _ _ _ R3) as G3.
  eapply safe_bind'; [by apply update_chksum_safe|]. intros c4 R4. pose proof (r_good _ _ _ R4) as G4.
  eapply safe_bind'; [by apply valid_num_safe|]. intros num _. cbv beta.
  set (c5 := if num =? 0 then _ else c4). assert (R5 : R 0 c4 c5) by (subst c5; destruct (_ =? _); [by apply R_plain|by apply R_refl]).
  pose proof (r_good _ _ _ R5) as G5. clearbody c5. pose proof (check_dv_safe false c5 G5) as R6. pose proof (check_dv_safe true _ (r_good _ _ _ R6)) as R7.
  set (c6 := check_dv_truly_support true _) in *. clearbody c6. pose proof (r_good _ _ _ R7) as G6.
  set (c7 := if _ || _ then _ else c6). assert (R8 : R 0 c6 c7).
  { subst c7. destruct (_ || _); [|by apply R_refl]. destruct (dtds c6) as [|t l]; [by apply R_refl|]. by apply R_puts. }
  clearbody c7. eapply safe_mono; [apply finish_safe; [apply R8|done|done]|]. intros c' [G' Hm]. split; [done|]. intros Hz.
  rewrite (r_modes _ _ _ R1), (r_modes _ _ _ R2), (r_modes _ _ _ R3), (r_modes _ _ _ R4), (r_modes _ _ _ R5), (r_modes _ _ _ R6), (r_modes _ _ _ R7), (r_modes _ _ _ R8).
  by apply Hm.
Qed.

(** The modes that the video data blocks of all extension blocks list. *)
Definition edid_modes (chk : Z) (d : list Z) : list Z :=
  match hdmitx_edid_get_cta_block_count d with Done n => ctas_modes (Z.to_nat n) 1 chk d | _ => [] end.

(** The result of parsing, by the verdict on the EDID. *)
Definition parsed (chk : Z) (d : list Z) (c' : rx_cap) : Prop :=
  good c' /\
  match hdmitx_edid_check_data_valid chk d with
  | Done true => edid_zero_data d = Done false -> edid_modes chk d ⊆ modes c'
  | _ => fallback c'
  end.

Lemma parse_safe c d : good c -> bytes d -> blen d = 1024 -> sc c VIC_count = 0 -> sc c dtd_idx = 0 ->
  (hdmitx_edid_check_data_valid (sc c edid_check) d = Done true -> tame (sc c edid_check) d = true) ->
  safe (parsed (sc c edid_check) d) (hdmitx_edid_parse odroid custom voutmode c d).
Proof.
  intros Hg Hd Hl Hv Hi Ht. cbv beta delta [hdmitx_edid_parse]. step_val. unfold parsed, edid_modes.
  destruct (safe_inv _ _ (count_safe d Hd Hl)) as (n & En & Hn). apply (safe_bind_eq _ _ _ n En). rewrite En.
  destruct (safe_inv _ _ (valid_safe (sc c edid_check) d Hd Hl)) as (valid & Ev & _). apply (safe_bind_eq _ _ _ valid Ev). rewrite Ev in *.
  eapply safe_bind'; [by apply header_invalid_safe|]. intros bad _. cbv zeta. set (c1 := puts _ c).
  assert (R1 : R 0 c c1) by (subst c1; apply R_puts; done).
  eapply safe_bind'; [apply checksums_safe; [done|lia]|]. intros ok _. cbv beta. set (c2 := if ok then c1 else _).
  assert (R2 : R 0 c c2) by (subst c2; destruct ok; [done|by apply R_put_after]). clearbody c2. clear c1 R1.
  destruct valid; cbn [negb].
  - specialize (Ht eq_refl). eapply safe_bind'; [apply base_check_safe; [done|lia]|]. intros base _.
    eapply safe_bind' with (P := R 0 c).
    { destruct base; [|done]. eapply safe_R_after; [exact R2|]. intros. by apply base_structure_safe. }
    intros c3 [G3 K3 C3 _]. assert (Hk : sc c3 edid_check = sc c edid_check) by (apply K3; trk).
    eapply safe_bind3.
    + eapply (collect_safe (sc c edid_check)); [exact G3|done|done|lia| |exact Hk|exact En|exact Ht]. rewrite K3 by trk. done.
    + intros c4 [G4 _ _ _ N4]. eapply safe_mono; [by apply late_safe|]. intros c' [G' Hm]. split; [done|]. intros Hz. by rewrite N4, (Hm Hz).
  - eapply safe_mono; [apply fallback_safe, R2|]. intros c' Hf. split; [apply Hf|done].
Qed.
End Parse.

End EdidParse.
