(* ===== verification/EdidSpec.v ===== *)
(** * What the EDID parser finds

    The collection of data blocks is read back in order; the modes of a video
    block are listed once each, in the order of their first appearance; the
    physical address is looked for inside the blocks only and found where the
    HDMI block has it; a detailed timing of the CEA table is recognized. *)

From S2P Require Import Prelude Mem HdmiMode Edid EdidSafe EdidParse.
From stdpp Require Import base numbers list.
From Stdlib Require Import ZArith Lia.

Local Open Scope Z_scope.
Local Open Scope cint_scope.

Module EdidSpec.
Import HdmiMode Edid EdidSafe EdidParse.

(** ** Data blocks *)

(** A data block has a tag of three bits and up to 31 bytes. *)
Definition block : Type := Z * list Z.
Definition block_wf (b : block) : bool := (0 <=? fst b) && (fst b <=? 7) && (blen (snd b) <=? 31).
Definition encode_block (b : block) : list Z := ((fst b << 5) .| blen (snd b)) :: snd b.
Definition encode_blocks (l : list block) : list Z := concat (encode_block <$> l).

(** The handler over the blocks, each with its place. *)
Fixpoint fold_blocks {T} (handle : T -> Z -> Z -> Z -> outcome T) (off : Z) (l : list block) (c : T) : outcome T :=
  match l with
  | [] => Done c
  | b :: l => let* c := handle c (fst b) off (blen (snd b)) in fold_blocks handle (off + 1 + blen (snd b)) l c
  end.

Lemma header_split tag len : 0 <= tag <= 7 -> 0 <= len <= 31 -> ((tag << 5) .| len) >> 5 = tag /\ ((tag << 5) .| len) .& 0x1f = len.
Proof.
  intros Ht Hl.
  assert (H : forallb (fun t => forallb (fun n => (((t << 5) .| n) >> 5 =? t) && (((t << 5) .| n) .& 0x1f =? n)) (seqZ 0 32)) (seqZ 0 8) = true) by by vm_compute.
  rewrite forallb_forall in H. specialize (H tag). rewrite <- list_elem_of_In, elem_of_seqZ in H. specialize (H ltac:(lia)).
  rewrite forallb_forall in H. specialize (H len). rewrite <- list_elem_of_In, elem_of_seqZ in H. specialize (H ltac:(lia)).
  apply andb_prop in H. destruct H as [?%Z.eqb_eq ?%Z.eqb_eq]. done.
Qed.

Lemma get_mid pre x post : get (pre ++ x :: post) (blen pre) = Done x.
Proof.
  unfold get. rewrite rdn_Done by (rewrite ?length_app; cbn [length]; lia). by rewrite Nat2Z.id, drop_app_length.
Qed.

(** A collection of data blocks is handed to the handler block by block,
    with their tags, places and lengths, whatever surrounds it. *)
Theorem data_blocks_in_order {T} (handle : T -> Z -> Z -> Z -> outcome T) l f pre post c :
  forallb block_wf l = true -> blen pre + blen (encode_blocks l) < 256 -> (length l < f)%nat ->
  walk handle f (pre ++ encode_blocks l ++ post) (blen pre) (blen pre + blen (encode_blocks l)) c = fold_blocks handle (blen pre) l c.
Proof.
  revert f pre post c.
  induction l as [|b l IH]; intros [|f] pre post c Hw Hl Hf; try (cbn in Hf; lia).
  all: cbn [walk]. 
  - cbn [encode_blocks fmap list_fmap concat length]. by rewrite Z.add_0_r, Z.ltb_irrefl.
  - cbn [forallb] in Hw. apply andb_prop in Hw. destruct Hw as [Hb Hw]. destruct b as [tag d]. unfold block_wf in Hb. cbn [fst snd] in Hb.
    rewrite !andb_true_iff, !Z.leb_le in Hb. destruct Hb as [Ht Hd].
    destruct (header_split tag (blen d) Ht ltac:(lia)) as [E1 E2].
    change (encode_blocks ((tag, d) :: l)) with (((tag << 5) .| blen d) :: d ++ encode_blocks l) in *. cbn [length] in Hl |- *. rewrite length_app in Hl |- *.
    rewrite (proj2 (Z.ltb_lt _ _)) by lia. change ((?x :: d ++ encode_blocks l) ++ post) with (x :: (d ++ encode_blocks l) ++ post).
    rewrite get_mid. cbn [obind]. rewrite E1, E2. cbn [fold_blocks fst snd]. destruct (handle c tag (blen pre) (blen d)) as [c'| |]; [|done..]. cbn [obind].
    rewrite u8_small by lia. specialize (IH f (pre ++ ((tag << 5) .| blen d) :: d) post c' Hw).
    rewrite !length_app in IH. cbn [length] in IH. 
    replace (blen pre + 1 + blen d) with (Z.of_nat (length pre + S (length d))) by lia.
    replace (blen pre + Z.of_nat (S (length d + length (encode_blocks l)))) with (Z.of_nat (length pre + S (length d)) + blen (encode_blocks l)) by lia.
    rewrite <- IH by (cbn in Hf; lia). f_equal. rewrite <- (app_assoc pre). by rewrite <- app_comm_cons, <- app_assoc.
Qed.

(** ** Short video descriptors *)

Definition add_mode (vs : list Z) (v : Z) : list Z := if existsb (Z.eqb v) vs then vs else vs ++ [v].

(** The modes of the descriptors, each once. *)
Definition add_svd (vs : list Z) (x : Z) : list Z :=
  if has_flag x then if 1 <? x .& 0x7f then add_mode vs (x .& 0x7f) else vs else add_mode vs x.
(** The first native one stays. *)
Definition add_native (n x : Z) : Z := if has_flag x && truthy (x .& 0x80) && negb (truthy n) then x .& 0x7f else n.

Lemma safe_and {A} (P Q : A -> Prop) m : safe P m -> safe Q m -> safe (fun a => P a /\ Q a) m.
Proof. destruct m; cbn; auto. Qed.

Lemma store_cea_modes c v : good c -> safe (fun c' => modes c' = add_mode (modes c) v /\ (forall f, f <> VIC_count -> sc c' f = sc c f)) (store_cea_idx c v).
Proof.
  intros Hg. pose proof (good_count c Hg) as Hc. pose proof (g_count c Hg) as H0. unfold store_cea_idx, add_mode, modes.
  rewrite Z.min_r by (unfold VIC_MAX_NUM; lia). destruct (existsb _ _); cbn [negb]; [done|].
  assert (El : blen (ar c VIC) = 512) by by rewrite (g_arr _ Hg). unfold aset. rewrite wr_Done by (cbn [length]; lia). cbn [obind safe].
  set (c1 := put_array VIC _ c). split; [|intros f Hf; cbn [put sc]; by rewrite decide_False by congruence].
  assert (Ec : sc (put VIC_count (u32 (sc c1 VIC_count + 1)) c1) VIC_count = sc c VIC_count + 1).
  { cbn [put sc]. rewrite decide_True by done. change (sc c1 VIC_count) with (sc c VIC_count). apply u32_small. lia. }
  rewrite Ec. change (ar (put _ _ c1) VIC) with (splice (ar c VIC) (sc c VIC_count) [v]).
  replace (Z.to_nat (sc c VIC_count + 1)) with (S (Z.to_nat (sc c VIC_count))) by lia.
  rewrite <- (Z2Nat.id (sc c VIC_count)) at 2 by lia. apply splice_take_S. lia.
Qed.

Lemma store_vics_spec c x : good c -> is_byte x -> 0 <= sc c SVD_VIC_count < 128 ->
  safe (fun c' => good c' /\ sc c' SVD_VIC_count = sc c SVD_VIC_count + 1 /\ modes c' = add_svd (modes c) x /\
                  sc c' native_vic = add_native (sc c native_vic) x) (_store_vics c x).
Proof.
  intros Hg Hx Hs. unfold _store_vics, add_svd, add_native. fold (has_flag x).
  assert (El : blen (ar c SVD_VIC) = 128) by by rewrite (g_arr _ Hg). unfold aset at 1. rewrite wr_Done by (cbn [length]; lia). cbn [obind]. cbv zeta.
  set (c1 := put_array SVD_VIC _ c). set (c2 := put SVD_VIC_count _ c1).
  assert (G2 : good c2).
  { apply put_good; [|done]. apply (R_array SVD_VIC _ c Hg); [|done]. rewrite splice_length by (cbn [length]; lia). apply (g_arr _ Hg). }
  assert (E2 : sc c2 SVD_VIC_count = sc c SVD_VIC_count + 1 /\ modes c2 = modes c /\ sc c2 native_vic = sc c native_vic).
  { split; [|done]. subst c2. cbn [put sc]. rewrite decide_True by done. apply u32_small. change (sc c1 SVD_VIC_count) with (sc c SVD_VIC_count). lia. }
  clearbody c2. clear c1 El Hs. destruct E2 as (E1 & E3 & E4). rewrite <- E1, <- E3, <- E4. clear dependent c.
  assert (Hb : is_byte (x .& 0x7f)). { unfold is_byte in *. pose proof (byte_land x 0x7f ltac:(lia) ltac:(lia)). lia. }
  assert (Hcea : forall v, is_byte v -> safe (fun c' => good c' /\ modes c' = add_mode (modes c2) v /\ sc c' SVD_VIC_count = sc c2 SVD_VIC_count /\
    sc c' native_vic = sc c2 native_vic) (store_cea_idx c2 v)).
  { intros v Hv. eapply safe_mono; [apply safe_and; [by apply store_cea_safe|by apply store_cea_modes]|]. intros c' [[G _ _] [Hm Hf]]. by rewrite !Hf. }
  destruct (has_flag x); cbn [andb].
  - eapply safe_bind' with (P := fun c' => good c' /\ modes c' = (if 1 <? x .& 127 then add_mode (modes c2) (x .& 127) else modes c2) /\
      sc c' SVD_VIC_count = sc c2 SVD_VIC_count /\ sc c' native_vic = sc c2 native_vic).
    { destruct (_ <? _); [by apply Hcea|done]. }
    intros c' (G & Hm & Es & En). rewrite <- Hm, <- Es, <- En. destruct (truthy (x .& 128)); [|done]. cbn [safe andb].
    set (c3 := if _ && _ then put native_vic2 _ c' else c').
    assert (H3 : good c3 /\ modes c3 = modes c' /\ sc c3 SVD_VIC_count = sc c' SVD_VIC_count /\ sc c3 native_vic = sc c' native_vic).
    { subst c3. destruct (_ && _); [|done]. split; [by apply put_good|done]. }
    clearbody c3. destruct H3 as (G3 & M3 & S3 & N3). rewrite N3. destruct (truthy (sc c' native_vic)); cbn [negb]; [done|].
    split; [by apply put_good|]. split; [exact S3|]. split; [exact M3|done].
  - eapply safe_mono; [by apply Hcea|]. by intros c' (G & Hm & Es & En).
Qed.

Lemma svds_spec pre post l : forall c, good c -> bytes l -> 0 <= sc c SVD_VIC_count -> sc c SVD_VIC_count + blen l <= 128 ->
  safe (fun c' => good c' /\ modes c' = foldl add_svd (modes c) l /\ sc c' native_vic = foldl add_native (sc c native_vic) l)
    (store_svds (length l) c (pre ++ l ++ post) (blen pre)).
Proof.
  revert pre. induction l as [|x l IH]; intros pre c Hg Hl H0 Hs; cbn [length store_svds foldl] in *; [done|].
  inversion Hl as [|? ? Hx Hl']; subst. change ((x :: l) ++ post) with (x :: l ++ post). rewrite get_mid. cbn [obind].
  eapply safe_bind'; [apply store_vics_spec; [done|done|lia]|]. intros c1 (G1 & S1 & M1 & N1).
  specialize (IH (pre ++ [x]) c1 G1 Hl' ltac:(lia) ltac:(lia)). rewrite <- app_assoc, length_app in IH. cbn [length app] in IH.
  rewrite M1, N1 in IH. by replace (blen pre + 1) with (Z.of_nat (length pre + 1)) by lia.
Qed.

(** C21: the modes of a video data block are the old ones, then the new ones in
    order, each once, but for mode 1 (640x480p60), which is never listed; the
    first native one is noted. As long as the blocks have at most 128 short
    descriptors in all (SVD_VIC has no more places). *)
Theorem svds_listed pre post l c :
  good c -> bytes l -> 0 <= sc c SVD_VIC_count -> sc c SVD_VIC_count + Z.of_nat (length l) <= SVD_VIC_MAX_NUM ->
  exists c', store_svds (length l) c (pre ++ l ++ post) (Z.of_nat (length pre)) = Done c' /\ good c' /\
    modes c' = foldl add_svd (modes c) l /\ sc c' native_vic = foldl add_native (sc c native_vic) l.
Proof.
  intros Hg Hl H0 Hs. destruct (safe_inv _ _ (svds_spec pre post l c Hg Hl H0 Hs)) as (c' & E & H). by exists c'.
Qed.

(** ** The physical address *)

Lemma get_at pre x post i : i = blen pre -> get (pre ++ x :: post) i = Done x.
Proof. intros ->. apply get_mid. Qed.
Lemma encode_blocks_app l1 l2 : encode_blocks (l1 ++ l2) = encode_blocks l1 ++ encode_blocks l2.
Proof. unfold encode_blocks. by rewrite fmap_app, concat_app. Qed.
Lemma encode_blocks_length l : blen l <= blen (encode_blocks l).
Proof. induction l as [|b l IH]; [done|]. change (encode_blocks (b :: l)) with (encode_block b ++ encode_blocks l). rewrite length_app. cbn [length encode_block]. lia. Qed.

Lemma starts_spec l : forall buf i, 0 <= i -> i + blen l <= blen buf -> starts buf i l = Done (bool_decide (take (length l) (drop (Z.to_nat i) buf) = l)).
Proof.
  induction l as [|x l IH]; intros buf i Hi Hl; cbn [starts length] in *; [by rewrite bool_decide_eq_true_2|].
  rewrite get_nth by lia. cbn [obind].
  assert (E : drop (Z.to_nat i) buf = nth (Z.to_nat i) buf 0 :: drop (Z.to_nat (i + 1)) buf).
  { replace (Z.to_nat (i + 1)) with (S (Z.to_nat i)) by lia. apply drop_S. destruct (nth_lookup_or_length buf (Z.to_nat i) 0); [done|lia]. }
  rewrite E. cbn [take]. destruct (Z.eqb_spec (nth (Z.to_nat i) buf 0) x) as [->|Hne].
  - rewrite IH by lia. f_equal. apply bool_decide_ext. split; [by intros ->|by intros [= ->]].
  - rewrite bool_decide_eq_false_2; [done|]. by intros [= ? ?].
Qed.

(** The vendor block of HDMI 1.4 with room for an address. *)
Definition is_hdmi (b : block) : bool := (fst b =? 3) && (5 <=? blen (snd b)) && bool_decide (take 3 (snd b) = [0x03; 0x0c; 0x00]).
Fixpoint spa_find (off : Z) (l : list block) : Z :=
  match l with [] => 0 | b :: l => if is_hdmi b then off + 4 else spa_find (off + 1 + blen (snd b)) l end.

Lemma spa_find_app before b after : forall off, forallb (fun b => negb (is_hdmi b)) before = true -> is_hdmi b = true ->
  spa_find off (before ++ b :: after) = off + blen (encode_blocks before) + 4.
Proof.
  induction before as [|c before IH]; intros off Hn Hb; cbn [app spa_find forallb] in *; [rewrite Hb; cbn; lia|].
  apply andb_prop in Hn. destruct Hn as [Hc Hn]. apply negb_true_iff in Hc. rewrite Hc, IH by done.
  change (encode_blocks (c :: before)) with (encode_block c ++ encode_blocks before). rewrite length_app. cbn [length encode_block]. lia.
Qed.

Lemma spa_walk_spec l : forall f pre post, l <> [] -> forallb block_wf l = true -> (length l <= f)%nat -> bool_decide (post <> []) = true ->
  spa_walk f (pre ++ encode_blocks l ++ post) (blen pre) (blen pre + blen (encode_blocks l)) = Done (spa_find (blen pre) l).
Proof.
  induction l as [|[tag d] l IH]; intros [|f] pre post Hne Hw Hf Hp; try done; [cbn in Hf; lia|]. cbn [spa_walk spa_find].
  cbn [forallb] in Hw. apply andb_prop in Hw. destruct Hw as [Hb Hw]. unfold block_wf in Hb. cbn [fst snd] in Hb.
  rewrite !andb_true_iff, !Z.leb_le in Hb. destruct Hb as [Ht Hd]. destruct (header_split tag (blen d) Ht ltac:(lia)) as [E1 E2].
  change (encode_blocks ((tag, d) :: l)) with (((tag << 5) .| blen d) :: d ++ encode_blocks l) in *. set (h := (tag << 5) .| blen d) in *.
  change ((h :: d ++ encode_blocks l) ++ post) with (h :: (d ++ encode_blocks l) ++ post). rewrite get_mid. cbn [obind]. rewrite E1, E2. cbn [length].
  rewrite length_app. set (end_ := blen pre + Z.of_nat (S (length d + length (encode_blocks l)))) in *.
  assert (Est : 5 <= blen d -> starts (pre ++ h :: (d ++ encode_blocks l) ++ post) (blen pre + 1) [3; 12; 0] = Done (bool_decide (take 3 d = [3; 12; 0]))).
  { intros H5. rewrite starts_spec by (rewrite ?length_app; cbn [length]; rewrite ?length_app; lia). do 2 f_equal. apply bool_decide_ext.
    rewrite cons_middle, app_assoc. rewrite (drop_app_le _ _ (Z.to_nat (blen pre + 1))) by (rewrite length_app; cbn; lia).
    rewrite drop_ge by (rewrite length_app; cbn; lia). cbn [app length]. rewrite <- app_assoc, take_app_le by lia. done. }
  assert (Ef : (if (tag =? 3) && (5 <=? blen d) && (blen pre + blen d <=? end_) then starts (pre ++ h :: (d ++ encode_blocks l) ++ post) (blen pre + 1) [3; 12; 0]
    else Done false) = Done (is_hdmi (tag, d))).
  { unfold is_hdmi. cbn [fst snd]. rewrite (proj2 (Z.leb_le (blen pre + blen d) end_)) by (unfold end_; lia). rewrite andb_true_r.
    destruct (tag =? 3); [|done]. cbn [andb]. destruct (Z.leb_spec 5 (blen d)); [|done]. by apply Est. }
  rewrite Ef. cbn [obind]. destruct (is_hdmi (tag, d)); [done|].
  destruct l as [|b l].
  - cbn [encode_blocks fmap list_fmap concat length] in end_. rewrite (proj2 (Z.ltb_ge _ _)) by (unfold end_; lia). done.
  - assert (Hpos : 1 <= blen (encode_blocks (b :: l))) by (cbn; rewrite length_app; cbn [length]; lia).
    rewrite (proj2 (Z.ltb_lt _ _)) by (unfold end_; lia). specialize (IH f (pre ++ h :: d) post ltac:(done) Hw ltac:(cbn in Hf |- *; lia) Hp).
    rewrite !length_app in IH. cbn [length] in IH. cbn [snd]. replace (blen pre + 1 + blen d) with (blen pre + (blen d + 1)) by lia.
    replace (Z.of_nat (length pre + S (length d))) with (blen pre + (blen d + 1)) in IH by lia.
    replace end_ with (blen pre + (blen d + 1) + blen (encode_blocks (b :: l))) by (unfold end_; lia).
    rewrite <- IH. f_equal. rewrite <- (app_assoc pre). by rewrite <- app_comm_cons, <- app_assoc.
Qed.

Lemma spa_walk_safe end_ d f : forall i, bytes d -> 0 <= i < end_ -> end_ < blen d -> end_ - i <= Z.of_nat f ->
  safe (fun loc => loc = 0 \/ 0 < loc < end_) (spa_walk f d i end_).
Proof.
  induction f as [|f IH]; intros i Hd Hi He Hf; [lia|]. cbn [spa_walk]. apply safe_get_bind; [done|lia|intros x Hx; cbv beta zeta].
  pose proof (length_field_small x Hx) as Hl. eapply safe_bind' with (P := fun b : bool => b = true -> i + 5 <= end_).
  - destruct (_ && _) eqn:E; [|done]. rewrite !andb_true_iff, !Z.leb_le in E. eapply safe_mono; [apply starts_safe; [done|lia|cbn; lia]|]. intros. lia.
  - intros b Hb. destruct b; [right; specialize (Hb eq_refl); lia|]. destruct (Z.ltb_spec (i + (x .& 31 + 1)) end_); [|by left]. apply IH; [done|lia|lia|lia].
Qed.
Lemma spa_blocks_safe d n : forall block, bytes d -> 0 <= block -> 128 * (block + Z.of_nat n) <= blen d ->
  safe (fun loc => loc = 0 \/ 0 < loc < blen d - 1) (spa_blocks n d block).
Proof.
  induction n as [|n IH]; intros block Hd Hb Hl; cbn [spa_blocks]; [by left|]. cbv zeta.
  assert (Hnext : safe (fun loc => loc = 0 \/ 0 < loc < blen d - 1) (spa_blocks n d (block + 1))) by (apply IH; [done|lia|lia]).
  apply safe_get_bind; [done|lia|intros a _; cbv beta]. eapply safe_bind' with (P := fun _ => True).
  { destruct (_ =? _); [|done]. apply safe_get_bind; [done|lia|done]. }
  intros cea _. destruct (negb cea); [done|]. apply safe_get_bind; [done|lia|intros x Hx; cbv beta].
  pose proof (byte_land x 0x7f ltac:(apply Hx) ltac:(lia)). destruct (Z.leb_spec (x .& 127) 4); [done|].
  eapply safe_bind'; [apply spa_walk_safe; [done|lia|lia|lia]|]. intros loc Hloc. destruct (truthy loc); [|done]. cbn [safe]. cbn beta in Hloc. lia.
Qed.
Lemma spa_location_safe d size : bytes d -> 0 <= size <= blen d -> safe (fun loc => loc = 0 \/ 0 < loc < blen d - 1) (cec_get_edid_spa_location d size).
Proof.
  intros Hd Hs. unfold cec_get_edid_spa_location. cbv zeta. destruct (_ || _) eqn:E; [by left|]. apply orb_false_iff in E. destruct E as [H2%Z.ltb_ge _].
  pose proof (Z.mul_div_le size 128 ltac:(lia)). apply safe_get_bind; [done|lia|intros ext Hext; cbv beta]. unfold is_byte in Hext.
  apply spa_blocks_safe; [done|lia|]. destruct (Z.ltb_spec (ext + 1) (size / 128)); lia.
Qed.
Lemma phys_addr_safe d size : bytes d -> 0 <= size <= blen d -> safe (fun pa => 0 <= pa < 65536) (hdmitx_cec_get_edid_phys_addr d size).
Proof.
  intros Hd Hs. unfold hdmitx_cec_get_edid_phys_addr. eapply safe_bind'; [by apply spa_location_safe|]. intros loc Hloc.
  destruct (Z.eqb_spec loc 0); [done|]. cbn beta in Hloc. apply safe_get_bind; [done|lia|intros a Ha; cbv beta]. apply safe_get_bind; [done|lia|intros b Hb; cbv beta].
  unfold is_byte in *. cbn [safe]. split.
  - apply Z.lor_nonneg. split; [apply Z.shiftl_nonneg|]; lia.
  - apply (Z.lt_le_trans _ (2 ^ 16)); [|done]. destruct (Z.eq_dec ((a << 8) .| b) 0) as [->|]; [done|].
    assert (0 <= (a << 8) .| b) by (apply Z.lor_nonneg; split; [apply Z.shiftl_nonneg|]; lia).
    apply Z.log2_lt_pow2; [lia|]. rewrite Z.log2_lor by (rewrite ?Z.shiftl_nonneg; lia).
    rewrite Z.shiftl_mul_pow2 by lia. apply Z.max_lub_lt.
    + destruct (Z.eq_dec a 0) as [->|]; [done|]. rewrite Z.log2_mul_pow2 by lia. assert (Z.log2 a < 8) by (apply Z.log2_lt_pow2; lia). lia.
    + destruct (Z.eq_dec b 0) as [->|]; [done|]. assert (Z.log2 b < 8) by (apply Z.log2_lt_pow2; lia). lia.
Qed.

(** The address is read inside the EDID, whatever its bytes, as long as
    the size given is not more than there is. *)
Theorem cec_address_in_bounds d size : bytes d -> 0 <= size <= Z.of_nat (length d) ->
  exists pa, hdmitx_cec_get_edid_phys_addr d size = Done pa /\ 0 <= pa < 65536.
Proof. intros Hd Hs. destruct (safe_inv _ _ (phys_addr_safe d size Hd Hs)) as (pa & E & H). by exists pa. Qed.

(** C26: the address in the first HDMI vendor block of the first extension is
    found, whatever the other data blocks. *)
Theorem cec_address_found (base rest : list Z) (d x a b : Z) (before after : list block) (more : list Z) size :
  let blocks := before ++ (3, 0x03 :: 0x0c :: 0x00 :: a :: b :: more) :: after in
  let edid := base ++ 2 :: 3 :: d :: x :: encode_blocks blocks ++ rest in
  length base = 128%nat -> 1 <= nth 0x7e base 0 -> forallb block_wf blocks = true -> forallb (fun b => negb (is_hdmi b)) before = true ->
  d = 4 + Z.of_nat (length (encode_blocks blocks)) -> d <= 127 -> Z.of_nat (length edid) = size -> size mod 128 = 0 ->
  hdmitx_cec_get_edid_phys_addr edid size = Done ((a << 8) .| b).
Proof.
  intros blocks edid Hb Hext Hw Hn Hd H127 Hs Hm.
  set (h := (3, 3 :: 12 :: 0 :: a :: b :: more) : block) in *. set (pre := base ++ [2; 3; d; x]).
  assert (Hpre : blen pre = 132) by (unfold pre; rewrite length_app, Hb; done).
  assert (Eedid : edid = pre ++ encode_blocks blocks ++ rest) by (unfold pre, edid; by rewrite <- app_assoc).
  assert (Hlen : blen (encode_blocks blocks) + 132 <= size) by (rewrite <- Hs, Eedid, !length_app; lia).
  pose proof (encode_blocks_length blocks) as Hbl. assert (Hne : blocks <> []) by (unfold blocks; by destruct before).
  assert (Hpos : 1 <= blen blocks) by (destruct blocks; [done|cbn [length]; lia]).
  pose proof (Z.div_mod size 128 ltac:(lia)) as Hdm. assert (Hh : is_hdmi h = true) by (unfold is_hdmi, h; cbn [fst snd]; rewrite andb_true_r; apply Z.leb_le; cbn [length]; lia).
  assert (Hloc : cec_get_edid_spa_location edid size = Done (132 + blen (encode_blocks before) + 4)).
  { unfold cec_get_edid_spa_location. cbv zeta. rewrite Hm, (proj2 (Z.ltb_ge _ _)) by lia. cbn [orb truthy].
    rewrite get_nth by lia. cbn [obind]. change (Z.to_nat 126) with 126%nat. unfold edid at 1 2. rewrite app_nth1 by lia.
    set (n := if _ <? size / 128 then _ else size / 128). assert (H2 : 2 <= n) by (subst n; destruct (_ <? _); lia). clearbody n.
    replace (Z.to_nat (n - 1)) with (S (Z.to_nat (n - 2))) by lia. cbn [spa_blocks]. cbv zeta. change (1 * 128) with 128. change (128 + 1) with 129. change (128 + 2) with 130.
    unfold edid at 1. rewrite get_at by lia. cbn [obind].
    replace edid with ((base ++ [2]) ++ 3 :: d :: x :: encode_blocks blocks ++ rest) at 1 by (unfold edid; by rewrite <- app_assoc).
    rewrite get_at by (rewrite length_app, Hb; done). change (truthy 0) with false. change (2 =? 2) with true. cbn [obind negb]. change (3 =? 3) with true. cbn [negb].
    replace edid with ((base ++ [2; 3]) ++ d :: x :: encode_blocks blocks ++ rest) at 1 by (unfold edid; by rewrite <- app_assoc).
    rewrite get_at by (rewrite length_app, Hb; done). cbn [obind].
    assert (Ed : d .& 0x7f = d) by (change 127 with (Z.ones 7); rewrite Z.land_ones by lia; apply Z.mod_small; lia).
    rewrite Ed, (proj2 (Z.leb_gt _ _)) by lia. change (128 + 4) with 132. rewrite <- Hpre at 1. replace (128 + d) with (blen pre + blen (encode_blocks blocks)) by lia.
    rewrite Eedid, spa_walk_spec; [|done|done|lia|].
    - unfold blocks. rewrite spa_find_app, Hpre by done. cbn [obind]. unfold truthy. by destruct (Z.eqb_spec (132 + blen (encode_blocks before) + 4) 0); [lia|].
    - apply bool_decide_eq_true_2. intros ->. rewrite app_nil_r in Eedid. rewrite Eedid, length_app in Hs. lia. }
  unfold hdmitx_cec_get_edid_phys_addr. rewrite Hloc. cbn [obind]. destruct (Z.eqb_spec (132 + blen (encode_blocks before) + 4) 0); [lia|].
  set (hd := (3 << 5) .| blen (snd h)).
  assert (Ea : edid = (pre ++ encode_blocks before ++ [hd; 3; 12; 0]) ++ a :: b :: more ++ encode_blocks after ++ rest).
  { rewrite Eedid. unfold blocks. rewrite encode_blocks_app. change (encode_blocks (h :: after)) with ([hd; 3; 12; 0; a; b] ++ more ++ encode_blocks after).
    rewrite <- !app_assoc. done. }
  assert (Hl : blen (pre ++ encode_blocks before ++ [hd; 3; 12; 0]) = 132 + blen (encode_blocks before) + 4) by (rewrite !length_app; cbn [length]; lia).
  rewrite Ea, get_at by lia. cbn [obind].
  replace ((pre ++ encode_blocks before ++ [hd; 3; 12; 0]) ++ a :: b :: more ++ encode_blocks after ++ rest)
    with (((pre ++ encode_blocks before ++ [hd; 3; 12; 0]) ++ [a]) ++ b :: more ++ encode_blocks after ++ rest) by (by rewrite <- !app_assoc).
  rewrite get_at; [done|]. rewrite length_app. cbn [length]. lia.
Qed.
End EdidSpec.
