(* ===== verification/EdidTiming.v ===== *)
(** * Detailed timings and the tables of modes

    The descriptor of a mode of the CEA tables is recognized as this mode, but
    for those that two special cases for interlaced modes spoil; the tables
    agree with the lookups by number and with themselves. *)

From S2P Require Import Prelude Mem HdmiMode Edid EdidSafe EdidParse EdidSpec.
From stdpp Require Import base numbers list strings.
From Stdlib Require Import ZArith Lia String.

Local Open Scope Z_scope.
Local Open Scope cint_scope.

Module EdidTiming.
Import HdmiMode Edid EdidSafe EdidParse EdidSpec.

(** ** Descriptors *)

(** The 18 bytes of a detailed timing descriptor (VESA E-EDID 3.10.2), with a
    picture of [hs] by [vs] millimetres; the lines are those of one field. *)
Definition enc (t : hdmi_timing) (hs vs : Z) : list Z :=
  let pc := pixel_freq t / 10 in
  let interlaced := pi_mode t =? 0 in
  let va := if interlaced then v_active t / 2 else v_active t in
  [u8 pc; pc >> 8; u8 (h_active t); u8 (h_blank t); ((h_active t >> 8) << 4) .| (h_blank t >> 8);
   u8 va; u8 (v_blank t); ((va >> 8) << 4) .| (v_blank t >> 8);
   u8 (h_front t); u8 (h_sync t); ((v_front t .& 15) << 4) .| (v_sync t .& 15);
   ((h_front t >> 8) << 6) .| ((h_sync t >> 8) << 4) .| ((v_front t >> 4) << 2) .| (v_sync t >> 4);
   u8 hs; u8 vs; ((hs >> 8) << 4) .| (vs >> 8); 0; 0;
   (if interlaced then 128 else 0) .| 0x18 .| (if v_pol t =? 1 then 4 else 0) .| (if h_pol t =? 1 then 2 else 0)].
Definition representable (t : hdmi_timing) : bool :=
  (pixel_freq t / 10 <? 65536) && (h_active t <? 4096) && (h_blank t <? 4096) && (h_front t <? 1024) && (0 <? vic t).

(** Modes whose descriptor is not recognized: the lines of modes with 1440
    pixels and no separate synchronization, and of 1080 lines at 74.25 MHz,
    are halved, progressive or not. *)
Definition lost (v : Z) : bool :=
  existsb (Z.eqb v) [6; 7; 8; 9; 14; 15; 21; 22; 23; 24; 29; 30; 32; 33; 34; 44; 45; 50; 51; 54; 55; 58; 59; 72; 73; 74].
Definition cea_modes : list hdmi_timing := edid_cea_modes_0 ++ edid_cea_modes_193.

(** All that a descriptor says but the size of the picture. *)
Definition same_timing (a b : hdmi_timing) : bool :=
  (pixel_freq a =? pixel_freq b) && (pi_mode a =? pi_mode b) && (h_active a =? h_active b) && (v_active a =? v_active b) &&
  (h_front a =? h_front b) && (h_sync a =? h_sync b) && (h_blank a =? h_blank b) && (v_blank a =? v_blank b) &&
  (v_front a =? v_front b) && (v_sync a =? v_sync b) && (h_pol a =? h_pol b) && (v_pol a =? v_pol b).

Definition with_image (t : dtd) (hs vs : Z) : dtd :=
  Dtd (d_pixel_clock t) (d_h_active t) (d_h_blank t) (d_v_active t) (d_v_blank t) (d_h_sync_offset t) (d_h_sync t) (d_v_sync_offset t)
    (d_v_sync t) hs vs (d_flags t) (d_vic t).

Lemma nibbles a b : 0 <= a < 16 -> 0 <= b < 16 -> (((a << 4) .| b) >> 4) .& 0xf = a /\ ((a << 4) .| b) .& 0xf = b.
Proof.
  intros Ha Hb.
  assert (H : forallb (fun a => forallb (fun b => ((((a << 4) .| b) >> 4) .& 0xf =? a) && (((a << 4) .| b) .& 0xf =? b)) (seqZ 0 16)) (seqZ 0 16) = true) by by vm_compute.
  rewrite forallb_forall in H. specialize (H a). rewrite <- list_elem_of_In, elem_of_seqZ in H. specialize (H ltac:(lia)).
  rewrite forallb_forall in H. specialize (H b). rewrite <- list_elem_of_In, elem_of_seqZ in H. specialize (H ltac:(lia)).
  apply andb_prop in H. destruct H as [?%Z.eqb_eq ?%Z.eqb_eq]. done.
Qed.

Lemma decode_enc t hs vs : 0 <= hs < 4096 -> 0 <= vs < 4096 -> decode_dtd (enc t hs vs) = with_image (decode_dtd (enc t 0 0)) hs vs.
Proof.
  intros Hh Hv. unfold decode_dtd, with_image, enc. cbn [nth d_pixel_clock d_h_active d_h_blank d_v_active d_v_blank d_h_sync_offset d_h_sync d_v_sync_offset d_v_sync d_flags d_vic].
  assert (Hh8 : 0 <= hs >> 8 < 16) by (rewrite Z.shiftr_div_pow2 by lia; split; [apply Z.div_pos; lia|apply Z.div_lt_upper_bound; lia]).
  assert (Hv8 : 0 <= vs >> 8 < 16) by (rewrite Z.shiftr_div_pow2 by lia; split; [apply Z.div_pos; lia|apply Z.div_lt_upper_bound; lia]).
  destruct (nibbles _ _ Hh8 Hv8) as [-> ->].
  assert (Hs : forall x, (x >> 8 << 8) + u8 x = x).
  { intros x. unfold u8. rewrite Z.shiftl_mul_pow2, Z.shiftr_div_pow2 by lia. pose proof (Z.div_mod x 256 ltac:(lia)). change (2 ^ 8) with 256. lia. }
  by rewrite !Hs.
Qed.

Lemma special_with_image t hs vs : special_480i (special_1080i (with_image t hs vs)) = with_image (special_480i (special_1080i t)) hs vs.
Proof.
  unfold special_1080i. cbn [with_image d_pixel_clock d_h_active d_v_active]. destruct (_ && _); unfold special_480i, half_lines;
    cbn [with_image d_pixel_clock d_h_active d_h_blank d_v_active d_v_blank d_h_sync_offset d_h_sync d_v_sync_offset d_v_sync d_flags d_vic]; by destruct (_ && _).
Qed.
Lemma match_with_image custom t hs vs :
  hdmitx_mode_match_dtd_timing false custom (with_image t hs vs) =
  (with_image (fst (hdmitx_mode_match_dtd_timing false custom t)) hs vs, snd (hdmitx_mode_match_dtd_timing false custom t)).
Proof. unfold hdmitx_mode_match_dtd_timing. cbn [with_image d_flags fst snd]. by destruct (_ =? 1). Qed.

Definition find_vic (v : Z) : option hdmi_timing := List.find (fun t => vic t =? v) cea_modes.
Lemma find_vic_some v t : find_vic v = Some t -> In t cea_modes /\ vic t = v.
Proof. intros H. apply List.find_some in H. by rewrite Z.eqb_eq in H. Qed.

(** What the tables say of a descriptor, whatever its picture. *)
Definition same_as (t : hdmi_timing) (v : Z) : bool := match find_vic v with Some u => same_timing t u | None => false end.
Definition base_match (custom : hdmi_timing) (t : hdmi_timing) : Z :=
  vic (snd (hdmitx_mode_match_dtd_timing false custom (special_480i (special_1080i (decode_dtd (enc t 0 0)))))).
Definition base_ok (t : hdmi_timing) : bool :=
  let v := base_match t t in
  negb (bool_decide (take 3 (enc t 0 0) = [0; 0; 0])) && (0 <? v) && (v <? 255) && same_as t v && (if is_4x3 v then same_as t (v + 1) && negb (is_4x3 (v + 1)) else true).
Lemma bases_ok : forallb (fun t => negb (representable t) || lost (vic t) || base_ok t) cea_modes = true.
Proof. by vm_compute. Qed.

Lemma base_match_custom custom t u : base_match custom t = base_match u t.
Proof. unfold base_match, hdmitx_mode_match_dtd_timing, all_timings. reflexivity. Qed.

Lemma base_match_eq custom t :
  base_match custom t = vic (snd (hdmitx_mode_match_dtd_timing false custom (special_480i (special_1080i (decode_dtd (enc t 0 0)))))).
Proof. reflexivity. Qed.
Lemma base_ok_in t : In t cea_modes -> representable t = true -> lost (vic t) = false -> base_ok t = true.
Proof.
  pose proof bases_ok as H. rewrite forallb_forall in H. intros Hin Hr Hl. specialize (H t Hin). cbv beta in H. by rewrite Hr, Hl in H.
Qed.
Lemma base_facts custom t : base_ok t = true -> exists v, v = base_match custom t /\ bool_decide (take 3 (enc t 0 0) = [0; 0; 0]) = false /\
  0 < v < 255 /\ same_as t v = true /\ (is_4x3 v = true -> same_as t (v + 1) = true /\ is_4x3 (v + 1) = false).
Proof.
  unfold base_ok. rewrite (base_match_custom t t custom). generalize (base_match custom t). intros v H. exists v. split; [done|].
  rewrite !andb_true_iff, !Z.ltb_lt, negb_true_iff in H. destruct H as [[[[Hz H0] H255] Hs] H43]. repeat (split; [done|]).
  intros E. rewrite E in H43. apply andb_prop in H43. by rewrite negb_true_iff in H43.
Qed.

(** A recognized descriptor enters the list of modes. *)
Lemma store_dtd_spec c v : good c -> 0 <= sc c dtd_idx < 16 -> 0 < v < 256 ->
  safe (fun c' => good c' /\ sc c' dtd_idx = sc c dtd_idx + 1 /\ modes c' = add_mode (modes c) v)
    (let* l := upd_at (dtds c) (sc c dtd_idx) (fun t => set_vic t v) in
     let c2 := with_dtds c l in
     let c2 := put preferred_mode (match dtds c2 with t0 :: _ => d_vic t0 | [] => 0 end) c2 in
     let c2 := put dtd_idx (u8 (sc c dtd_idx + 1)) c2 in
     if v <? HDMITX_VESA_OFFSET then store_cea_idx c2 v else store_vesa_idx c2 v).
Proof.
  intros Hg Hi Hv. eapply safe_bind'; [apply safe_upd_at; rewrite (g_dtds _ Hg); lia|]. intros l Hl. cbn beta in Hl. rewrite (g_dtds _ Hg) in Hl. cbv zeta.
  rewrite (proj2 (Z.ltb_lt v HDMITX_VESA_OFFSET)) by (unfold HDMITX_VESA_OFFSET; lia).
  set (p := match dtds _ with t0 :: _ => _ | [] => _ end). clearbody p. set (c2 := put dtd_idx _ _).
  assert (G2 : good c2) by (do 2 (apply put_good; [|done]); apply (R_upd_dtds c l Hg Hl)).
  assert (E2 : sc c2 dtd_idx = sc c dtd_idx + 1) by (subst c2; cbn [put sc]; rewrite decide_True by done; apply u8_small; lia).
  assert (M2 : modes c2 = modes c) by reflexivity. clearbody c2. rewrite <- M2.
  eapply safe_mono; [apply safe_and; [apply store_cea_safe; [done|unfold is_byte; lia]|by apply store_cea_modes]|].
  intros c' [[G' _ _] [Hm Hf]]. by rewrite Hf, E2.
Qed.

(** C16: the descriptor of a mode of the CEA tables whose timing fits the
    descriptor's fields (pixel clock below 655.36 MHz, at most 4095 pixels a
    line), with a picture of 1 to 4095 mm width and 0 to 4095 mm height,
    enters a mode of the tables with the same timing in the list, one with
    ratio 4:3 only when the picture has it; fewer than 16 descriptors came
    before it, and the 26 lost modes aside, whose lines the special cases for
    interlaced modes halve. (A picture of width 0 is divided by.) This is the
    configuration without ODROID modes. *)
Theorem dtd_recognized custom c tm hs vs :
  good c -> 0 <= sc c dtd_idx < 16 -> In tm cea_modes -> representable tm = true -> lost (vic tm) = false -> 0 < hs < 4096 -> 0 <= vs < 4096 ->
  exists c' tm', edid_dtd_parsing false custom c (enc tm hs vs) = Done c' /\ good c' /\ sc c' dtd_idx = sc c dtd_idx + 1 /\
    In tm' cea_modes /\ same_timing tm tm' = true /\ modes c' = add_mode (modes c) (vic tm') /\
    (is_4x3 (vic tm') = true -> Z.abs (vs * 100 / hs - 75) <= 2).
Proof.
  intros Hg Hi Hin Hr Hlo Hh Hv. destruct (base_facts custom tm (base_ok_in tm Hin Hr Hlo)) as (v0 & Ev0 & Hz & H0255 & Hsame & H43).
  unfold edid_dtd_parsing. rewrite rdn_Done by done. cbn [obind]. change (take (Z.to_nat 18) (drop (Z.to_nat 0) (enc tm hs vs))) with (enc tm hs vs).
  change (take 3 (enc tm hs vs)) with (take 3 (enc tm 0 0)). rewrite Hz.
  rewrite decode_enc by lia. rewrite special_with_image, match_with_image.
  rewrite base_match_eq in Ev0. revert Ev0. generalize (hdmitx_mode_match_dtd_timing false custom (special_480i (special_1080i (decode_dtd (enc tm 0 0))))).
  intros [t timing] Ev0. cbn [fst snd] in *. rewrite <- Ev0. clear Ev0 timing. rename v0 into v.
  set (t1 := with_image t hs vs). 
  assert (Hu : upd_at (dtds c) (sc c dtd_idx) (fun _ => t1) = Done (<[Z.to_nat (sc c dtd_idx) := t1]> (dtds c))).
  { unfold upd_at. rewrite (proj2 (Z.ltb_ge _ _)) by lia. destruct (dtds c !! Z.to_nat (sc c dtd_idx)) eqn:E; [done|].
    apply lookup_ge_None in E. rewrite (g_dtds _ Hg) in E. lia. }
  rewrite Hu. cbn [obind]. rewrite (proj2 (Z.eqb_neq v HDMI_0_UNKNOWN)) by (unfold HDMI_0_UNKNOWN; lia). cbn [negb].
  set (c1 := with_dtds c _). assert (G1 : good c1) by (apply (R_upd_dtds c); [done|]; by rewrite length_insert, (g_dtds _ Hg)).
  unfold same_as in *. destruct (find_vic v) as [u|] eqn:Eu; [|done]. apply find_vic_some in Eu. destruct Eu as [Hu1 Hu2].
  assert (Hvic : exists v' u', dtd_vic t1 v = Done v' /\ 0 < v' < 256 /\ In u' cea_modes /\ same_timing tm u' = true /\ vic u' = v' /\
    (is_4x3 v' = true -> Z.abs (vs * 100 / hs - 75) <= 2)).
  { unfold dtd_vic. destruct (is_4x3 v) eqn:E43; [|exists v, u; split; [done|]; repeat (split; [done || lia|]); by rewrite E43].
    destruct (H43 eq_refl) as [Hs1 Hn1]. destruct (find_vic (v + 1)) as [u1|] eqn:Eu1; [|done].
    apply find_vic_some in Eu1. destruct Eu1 as [Hw1 Hw2]. change (d_h_image_size t1) with hs. change (d_v_image_size t1) with vs.
    rewrite (proj2 (Z.eqb_neq hs 0)) by lia. destruct (Z.leb_spec (Z.abs (vs * 100 / hs - 75)) 2).
    - exists v, u. split; [done|]. by repeat (split; [done || lia|]).
    - exists (v + 1), u1. split; [done|]. repeat (split; [done || lia|]). by rewrite Hn1. }
  destruct Hvic as (v' & u' & Ev & Hv' & Hin' & Hst & Hvu & Hasp). rewrite Ev. cbn [obind]. change (sc c dtd_idx) with (sc c1 dtd_idx) in Hi |- *.
  destruct (safe_inv _ _ (store_dtd_spec c1 v' G1 Hi Hv')) as (c' & Ec & G' & Hi' & Hm'). exists c', u'. rewrite Hvu. by split; [exact Ec|].
Qed.

(** ** Tables *)

(** The numbers of a table count from its start. *)
Definition numbered (start : Z) (tab : list hdmi_timing) : bool := bool_decide (vic <$> tab = seqZ start (Z.of_nat (List.length tab))).

Lemma numbered_lookup start tab i t : numbered start tab = true -> tab !! i = Some t -> vic t = start + Z.of_nat i.
Proof.
  unfold numbered. intros H%bool_decide_eq_true_1 Hi. assert (E : (vic <$> tab) !! i = Some (vic t)) by by rewrite list_lookup_fmap, Hi.
  rewrite H in E. by apply lookup_seqZ in E as [-> _].
Qed.
Lemma vic_from_spec l : Forall (fun r => numbered r.1.1 r.2 = true /\ r.1.2 = r.1.1 + Z.of_nat (List.length r.2) - 1) l -> forall v t,
  vic_from l v = Some t -> vic t = v.
Proof.
  induction 1 as [|[[s e] tab] l [Hn He] _ IH]; intros v t; cbn [vic_from]; [done|]. cbn [fst snd] in *.
  destruct ((s <=? v) && (v <=? e)) eqn:Er; [|by apply IH]. rewrite andb_true_iff, !Z.leb_le in Er. intros Hi.
  rewrite (numbered_lookup _ _ _ _ Hn Hi). lia.
Qed.
Lemma vic_from_total l : Forall (fun r => r.1.2 = r.1.1 + Z.of_nat (List.length r.2) - 1) l -> forall v,
  existsb (fun r => (r.1.1 <=? v) && (v <=? r.1.2)) l = true -> exists t, vic_from l v = Some t.
Proof.
  induction 1 as [|[[s e] tab] l He _ IH]; intros v; cbn [vic_from existsb]; [done|]. cbn [fst snd] in *.
  destruct ((s <=? v) && (v <=? e)) eqn:Er; [|by apply IH]. rewrite andb_true_iff, !Z.leb_le in Er. intros _.
  destruct (tab !! Z.to_nat (v - s)) eqn:E; [by eexists|]. apply lookup_ge_None in E. lia.
Qed.
Lemma ranges_ok odroid custom : vic custom = 253 ->
  Forall (fun r => numbered r.1.1 r.2 = true /\ r.1.2 = r.1.1 + Z.of_nat (List.length r.2) - 1) (vic_ranges odroid custom).
Proof.
  intros Hc. unfold vic_ranges. constructor; [by vm_compute|]. constructor; [by vm_compute|]. apply Forall_app. split; [|constructor; [by vm_compute|constructor]].
  destruct odroid; [|constructor]. constructor; [|constructor]. split; [|by vm_compute]. cbn [fst snd]. unfold numbered. apply bool_decide_eq_true_2.
  rewrite fmap_app. cbn [fmap list_fmap]. rewrite Hc. by vm_compute.
Qed.

(** What is found under a number has this number, and every number of the
    ranges is found. *)
Theorem vic_lookup_exact odroid custom v :
  vic custom = 253 ->
  match hdmitx_mode_vic_to_hdmi_timing odroid custom v with
  | Some t => vic t = v
  | None => existsb (fun r => (r.1.1 <=? v) && (v <=? r.1.2)) (vic_ranges odroid custom) = false
  end.
Proof.
  intros Hc. pose proof (ranges_ok odroid custom Hc) as Hr. unfold hdmitx_mode_vic_to_hdmi_timing.
  destruct (vic_from (vic_ranges odroid custom) v) as [t|] eqn:E; [by eapply vic_from_spec|].
  destruct (existsb _ _) eqn:Ex; [|done]. destruct (vic_from_total (vic_ranges odroid custom)) with (v := v) as [t Ht]; [|done|congruence].
  eapply Forall_impl; [exact Hr|]. by intros r [_ ?].
Qed.

(** The indices run through all tables. *)
Lemma index_from_spec l : forall i, 0 <= i -> index_from l i = List.concat l !! Z.to_nat i.
Proof.
  induction l as [|tab l IH]; intros i Hi; cbn [index_from List.concat]; [done|]. destruct (Z.leb_spec (Z.of_nat (List.length tab)) i).
  - rewrite IH by lia. rewrite lookup_app_r by lia. f_equal. lia.
  - rewrite lookup_app_l by lia. done.
Qed.
Lemma index_all odroid custom i : 0 <= i -> hdmitx_mode_index_to_hdmi_timing odroid custom i = all_timings odroid custom !! Z.to_nat i.
Proof.
  intros Hi. unfold hdmitx_mode_index_to_hdmi_timing. rewrite index_from_spec by done. unfold all_timings. f_equal. cbn [List.concat].
  by destruct odroid; cbn [app List.concat]; rewrite ?app_nil_r.
Qed.

(** The sums that hdmitx_mode_print_hdmi_timing checks, with the odd line of
    interlaced frames. *)
Definition consistent (t : hdmi_timing) : bool :=
  (h_total t =? h_active t + h_blank t) && (h_blank t =? h_front t + h_sync t + h_back t) &&
  (v_blank t =? v_front t + v_sync t + v_back t) &&
  if pi_mode t =? 1 then v_total t =? v_active t + v_blank t
  else (v_total t =? v_active t + 2 * v_blank t) || (v_total t =? v_active t + 2 * v_blank t + 1).
(** All but 1400x1050 (782). *)
Lemma tables_consistent : forallb (fun t => consistent t || (vic t =? 0) || (vic t =? 782)) (cea_modes ++ edid_odroid ++ vesa_modes) = true.
Proof. by vm_compute. Qed.
End EdidTiming.
