(* ===== verification/EdidAudio.v ===== *)
(** * Audio formats of an EDID

    The audio data blocks of all extension blocks are collected in an array of
    60 descriptors, without a look at its size: parsing returns when the
    blocks announce at most so many. *)

From S2P Require Import Prelude Mem HdmiMode Edid EdidSafe EdidParse.
From stdpp Require Import base numbers list.
From Stdlib Require Import ZArith Lia.

Local Open Scope Z_scope.
Local Open Scope cint_scope.

Module EdidAudio.
Import HdmiMode Edid EdidSafe EdidParse.

(** ** The descriptors announced *)

Fixpoint aud_total (fuel : nat) (buf : list Z) (off end_ : Z) : Z :=
  match fuel with
  | O => 0
  | S f =>
      if off <? end_ then
        let b := nth (Z.to_nat off) buf 0 in
        (if b >> 5 =? HDMI_EDID_BLOCK_TYPE_AUDIO then (b .& 0x1f) / 3 else 0) + aud_total f buf (off + 1 + (b .& 0x1f)) end_
      else 0
  end.
Definition block_auds (buf : list Z) : Z := if 127 <? nth 2 buf 0 then 0 else aud_total 128 buf 4 (nth 2 buf 0).
Fixpoint all_auds (n : nat) (i : Z) (check : Z) (edid : list Z) : Z :=
  match n with
  | O => 0
  | S n =>
      let b := adv edid (i * 0x80) in
      (if (nth 0 b 0 =? 0x02) || truthy (check .& 0x01) then block_auds b else 0) + all_auds n (i + 1) check edid
  end.
Definition tame_audio (check : Z) (edid : list Z) : bool :=
  match hdmitx_edid_get_cta_block_count edid with
  | Done n => (n <=? 6) && (all_auds (Z.to_nat n) 1 check edid <=? AUD_MAX_NUM)
  | _ => false
  end.

(** ** Collecting *)

(** [k] descriptors more. *)
Record A (k : Z) (c c' : rx_cap) : Prop := {
  a_len : length (RxAudioCap c') = 60%nat;
  a_count : sc c' AUD_count = sc c AUD_count + k;
  a_check : sc c' edid_check = sc c edid_check;
}.

Lemma store_auds_safe d n : forall c i idx, length (RxAudioCap c) = 60%nat -> bytes d -> 0 <= i -> i + 3 * Z.of_nat n <= blen d -> 0 <= idx -> idx + Z.of_nat n <= 60 ->
  safe (A 0 c) (store_auds n c d i idx).
Proof.
  induction n as [|n IH]; intros c i idx Hc Hd Hi Hl Hx Hn; cbn [store_auds]; [by split; [|lia|]|].
  apply safe_rdn_bind; [done|lia|lia|lia|]. intros x _ _. eapply safe_bind'; [apply (safe_upd_at (RxAudioCap c)); lia|]. intros l Hl'. cbn beta in Hl'.
  eapply safe_mono; [apply IH; [cbn; congruence|done|lia..]|]. intros c' []. by split.
Qed.

Lemma aud_total_nonneg d end_ g : bytes d -> forall off, 0 <= aud_total g d off end_.
Proof.
  intros Hd. induction g as [|g IH]; intros off; cbn [aud_total]; [done|]. destruct (_ <? _); [|done].
  pose proof (length_field_small _ (nth_byte d (Z.to_nat off) Hd)). specialize (IH (off + 1 + (nth (Z.to_nat off) d 0 .& 31))).
  pose proof (Z.div_pos (nth (Z.to_nat off) d 0 .& 31) 3 ltac:(lia) ltac:(lia)). destruct (_ =? _); lia.
Qed.

Lemma audio_walk_safe d end_ g : forall f off c, length (RxAudioCap c) = 60%nat -> bytes d -> 0 <= off -> end_ <= 127 -> 192 <= blen d ->
  end_ - off < Z.of_nat f -> (0 < f)%nat -> end_ - off < Z.of_nat g -> 0 <= sc c AUD_count -> sc c AUD_count + aud_total g d off end_ <= 60 ->
  safe (A (aud_total g d off end_) c) (walk (audio_block d) f d off end_ c).
Proof.
  induction g as [|g IH]; intros [|f] off c Hc Hd Ho He Hl Hf Hf0 Hg Hn Ht; try lia.
  { cbn [walk aud_total] in *. destruct (Z.ltb_spec off end_); [lia|]. by split; [|lia|]. }
  cbn [walk aud_total] in *. destruct (Z.ltb_spec off end_); [|by split; [|lia|]].
  apply safe_get_bind_nth; [done|lia|]. pose proof (nth_byte d (Z.to_nat off) Hd) as Hb. pose proof (length_field_small _ Hb) as Hlen.
  revert Hb Hlen Ht. generalize (nth (Z.to_nat off) d 0). intros b Hb Hlen Ht. cbv beta zeta in *.
  pose proof (aud_total_nonneg d end_ g Hd (off + 1 + (b .& 31))) as H1. set (k := if b >> 5 =? HDMI_EDID_BLOCK_TYPE_AUDIO then (b .& 31) / 3 else 0) in *.
  pose proof (Z.mul_div_le (b .& 31) 3 ltac:(lia)) as H3. pose proof (Z.div_pos (b .& 31) 3 ltac:(lia) ltac:(lia)) as H4.
  assert (Hk : safe (A k c) (audio_block d c (b >> 5) off (b .& 31))).
  { unfold audio_block. subst k. destruct (_ =? _); [|by split; [|lia|]]. cbv zeta. set (c1 := put AUD_count _ c).
    eapply safe_mono; [apply store_auds_safe; [done|done|lia..]|]. intros c' [L1 C1 K1]. split; [done| |by rewrite K1].
    rewrite C1. subst c1. cbn [put sc]. rewrite decide_True by done. rewrite u8_small by lia. lia. }
  eapply safe_bind'; [exact Hk|]. intros c1 [L1 C1 K1]. assert (Hk0 : 0 <= k) by (subst k; destruct (_ =? _); lia). rewrite u8_small by lia.
  eapply safe_mono; [apply IH; [done|done|lia..]|]. intros c2 [L2 C2 K2]. split; [done|lia|congruence].
Qed.

Lemma all_auds_nonneg chk d n : bytes d -> forall i, 0 <= all_auds n i chk d.
Proof.
  intros Hd. induction n as [|n IH]; intros i; cbn [all_auds]; [done|]. specialize (IH (i + 1)).
  assert (0 <= block_auds (adv d (i * 128))); [|destruct (_ || _); lia]. unfold block_auds. destruct (_ <? _); [done|].
  apply aud_total_nonneg. by apply bytes_adv.
Qed.

Lemma block_walk_safe d c f : length (RxAudioCap c) = 60%nat -> bytes d -> 192 <= blen d -> 128 <= Z.of_nat f -> nth 2 d 0 <= 127 ->
  0 <= sc c AUD_count -> sc c AUD_count + aud_total f d 4 (nth 2 d 0) <= 60 ->
  safe (A (aud_total f d 4 (nth 2 d 0)) c) (walk (audio_block d) f d 4 (nth 2 d 0) c).
Proof. intros. apply audio_walk_safe; (done || lia). Qed.
Lemma audio_block_parse_safe d c : length (RxAudioCap c) = 60%nat -> bytes d -> 192 <= blen d -> 0 <= sc c AUD_count -> sc c AUD_count + block_auds d <= 60 ->
  safe (A (block_auds d) c) (hdmitx_edid_audio_block_parse c d).
Proof.
  intros Hc Hd Hl H0 Ht. unfold hdmitx_edid_audio_block_parse. apply safe_get_bind_nth; [done|lia|]. unfold block_auds in *. change (Z.to_nat 2) with 2%nat.
  destruct (Z.ltb_spec 127 (nth 2 d 0)); [by split; [|lia|]|]. by apply block_walk_safe.
Qed.

Lemma audio_blocks_safe chk d n : forall i c, length (RxAudioCap c) = 60%nat -> bytes d -> blen d = 1024 -> 1 <= i -> i + Z.of_nat n <= 7 -> sc c edid_check = chk ->
  0 <= sc c AUD_count -> sc c AUD_count + all_auds n i chk d <= 60 -> safe (A (all_auds n i chk d) c) (audio_blocks n i c d).
Proof.
  induction n as [|n IH]; intros i c Hc Hd Hl Hi Hn Hk H0 Ht; cbn [audio_blocks all_auds] in *; [by split; [|lia|]|].
  apply safe_get_bind_nth; [done|lia|]. replace (nth (Z.to_nat (i * 128)) d 0) with (nth 0 (adv d (i * 128)) 0)
    by (unfold adv; rewrite nth_skipn, Nat.add_0_r; done).
  pose proof (all_auds_nonneg chk d n Hd (i + 1)) as H1. rewrite Hk. set (b := adv d (i * 128)) in *.
  assert (Hb : bytes b) by by apply bytes_adv. assert (Hbl : 192 <= blen b) by (unfold b; rewrite adv_length; lia).
  assert (H2 : 0 <= block_auds b) by (unfold block_auds; destruct (_ <? _); [done|by apply aud_total_nonneg]).
  eapply safe_bind' with (P := A (if (nth 0 b 0 =? 2) || truthy (chk .& 1) then block_auds b else 0) c).
  - revert Ht. destruct (_ || _); intros Ht; [|by split; [|lia|]]. apply audio_block_parse_safe; (done || lia).
  - intros c1 [L1 C1 K1]. assert (0 <= if (nth 0 b 0 =? 2) || truthy (chk .& 1) then block_auds b else 0) by (destruct (_ || _); lia).
    eapply safe_mono; [apply IH; [done|done|done|lia|lia|congruence|lia|lia]|]. intros c2 [L2 C2 K2]. split; [done|lia|congruence].
Qed.

Lemma second_pcm_safe l f n : forall i, 0 <= i -> i + Z.of_nat n <= Z.of_nat (length l) -> safe (fun _ => True) (second_pcm n l i f).
Proof.
  induction n as [|n IH]; intros i Hi Hn; cbn [second_pcm]; [done|]. destruct (l !! Z.to_nat i) eqn:E; [|apply lookup_ge_None in E; lia].
  destruct (_ =? _); [done|]. apply IH; lia.
Qed.
Lemma second_pcm_pos l f n : forall i k, second_pcm n l i f = Done k -> truthy k = true -> 1 <= Z.of_nat n.
Proof. destruct n; [|lia]. intros i k E. cbn in E. by injection E as <-. Qed.
Lemma pcm_safe c : length (RxAudioCap c) = 60%nat -> 1 <= sc c AUD_count <= 60 ->
  safe (fun c' => length (RxAudioCap c') = 60%nat /\ 1 <= sc c' AUD_count <= 60) (edid_check_pcm_declare c).
Proof.
  intros Hl Hc. unfold edid_check_pcm_declare. cbv zeta. destruct (negb _); [done|]. destruct (RxAudioCap c !! 0%nat) as [a0|] eqn:E0; [|apply lookup_ge_None in E0; lia].
  destruct (safe_inv _ _ (second_pcm_safe (RxAudioCap c) (audio_format_code a0) (Z.to_nat (sc c AUD_count - 1)) 1 ltac:(lia) ltac:(lia))) as (k & Ek & _).
  rewrite Ek. cbn [obind]. destruct (truthy k) eqn:Et; [|done]. pose proof (second_pcm_pos _ _ _ _ _ Ek Et) as H2.
  rewrite (proj2 (Z.ltb_ge _ _)) by lia. cbn [safe]. split.
  - cbn [put with_aud RxAudioCap]. rewrite length_app. cbn [length]. rewrite length_take, length_drop.
    destruct (RxAudioCap c) as [|a l]; [cbn in Hl; lia|]. cbn [tail length] in *. lia.
  - cbn [put with_aud sc]. rewrite decide_True by done. rewrite u8_small by lia. lia.
Qed.

(** C31: collecting the audio formats of a valid EDID of at most 6 extension
    blocks that announce at most 60 formats returns within the array, with at
    least one and at most 60 of them. *)
Theorem audio_parse_returns c d :
  length (RxAudioCap c) = 60%nat -> sc c AUD_count = 0 -> bytes d -> length d = 1024%nat ->
  hdmitx_edid_check_data_valid (sc c edid_check) d = Done true -> tame_audio (sc c edid_check) d = true ->
  exists c', hdmitx_audio_parse c d = Done c' /\ length (RxAudioCap c') = 60%nat /\ 1 <= sc c' AUD_count <= 60.
Proof.
  intros Hl H0 Hd Hd' Hv Ht. enough (safe (fun c' => length (RxAudioCap c') = 60%nat /\ 1 <= sc c' AUD_count <= 60) (hdmitx_audio_parse c d)) as H.
  { destruct (safe_inv _ _ H) as (c' & E & H'). by exists c'. }
  unfold hdmitx_audio_parse, tame_audio in *. rewrite Hv. cbn [obind negb].
  destruct (hdmitx_edid_get_cta_block_count d) as [n| |] eqn:En; [|done..]. rewrite andb_true_iff, !Z.leb_le in Ht. destruct Ht as [H6 Hs].
  cbn [obind]. assert (Hn : 0 <= n) by (pose proof (count_safe d Hd ltac:(lia)) as H; rewrite En in H; cbn in H; lia).
  pose proof (all_auds_nonneg (sc c edid_check) d (Z.to_nat n) Hd 1). unfold AUD_MAX_NUM in Hs.
  eapply safe_bind'; [apply audio_blocks_safe with (chk := sc c edid_check); (done || lia)|]. intros c1 [L1 C1 _].
  eapply safe_bind' with (P := fun c2 => length (RxAudioCap c2) = 60%nat /\ 1 <= sc c2 AUD_count <= 60).
  - destruct (truthy (sc c1 AUD_count)) eqn:Et; cbn [negb].
    + cbn [safe]. split; [done|]. unfold truthy in Et. apply negb_true_iff, Z.eqb_neq in Et. lia.
    + unfold hdmitx_edid_set_default_aud. rewrite Et. eapply safe_bind'; [apply (safe_upd_at (RxAudioCap c1)); lia|]. intros l Hl'. cbn beta in Hl'.
      cbn [safe with_aud put RxAudioCap sc]. rewrite decide_True by done. split; [congruence|lia].
  - intros c2 [L2 C2]. by apply pcm_safe.
Qed.
End EdidAudio.
