(* ===== verification/EdidDemo.v ===== *)
(** * EDIDs at work

    A sink with two extension blocks, to which the theorems apply, and EDIDs
    with right checksums on which the parser leaves its arrays. *)

From S2P Require Import Prelude Mem HdmiMode Edid EdidSafe EdidParse EdidSpec EdidTiming EdidAudio.
From stdpp Require Import base numbers list.
From Stdlib Require Import ZArith Lia.

Local Open Scope Z_scope.
Local Open Scope cint_scope.

Module EdidDemo.
Import HdmiMode Edid EdidSafe EdidParse EdidSpec EdidTiming EdidAudio.

(** ** Building *)

Definition nocustom : hdmi_timing := Timing 253 None None 0 0 0 0 0 0 0 0 0 0 0 0 0 0 0 0 0 0 0 0 0 0 0 0.
Definition pad (n : nat) (l : list Z) : list Z := take n (l ++ replicate n 0).
(** 127 bytes and their checksum. *)
Definition seal (l : list Z) : list Z := let l := pad 127 l in l ++ [(- sum l) mod 256].
Definition mode (v : Z) : hdmi_timing := default (invalid_timing) (find_vic v).
(** The base block with one descriptor. *)
Definition base (dtd : list Z) (ext : Z) : list Z :=
  seal (pad 126 (pad 54 [0; 255; 255; 255; 255; 255; 255; 0; 0x10; 0xac] ++ dtd) ++ [ext]).
Definition ext (blocks : list block) : list Z :=
  seal ([2; 3; 4 + Z.of_nat (length (encode_blocks blocks)); 0] ++ encode_blocks blocks).
Definition edid (dtd : list Z) (exts : list (list Z)) : list Z := pad 1024 (base dtd (Z.of_nat (length exts)) ++ concat exts).
Definition parse (d : list Z) : outcome rx_cap :=
  hdmitx_edid_parse false nocustom 0 (hdmitx_edid_rxcap_clear (Cap (fun _ => 0) (fun _ => []) [] [] [] (fun _ => []) [])) d.
Definition empty : rx_cap := hdmitx_edid_rxcap_clear (Cap (fun _ => 0) (fun _ => []) [] [] [] (fun _ => []) []).

Lemma empty_good : good empty.
Proof. apply R_clear. Qed.

(** ** A sink *)

(** Video: 1080p60 native, 720p60, 576p50, 2160p60; audio: linear PCM and
    AC-3; the HDMI block with address 1.0.0.0. *)
Definition video : block := (2, [0x90; 4; 17; 97]).
Definition audio : block := (1, [0x09; 0x07; 0x07; 0x15; 0x07; 0x50]).
Definition vendor : block := (3, [0x03; 0x0c; 0x00; 0x10; 0x00; 0x38; 0x2d]).
Definition sink : list Z := edid (enc (mode 4) 160 90) [ext [video; audio; vendor]; ext [(2, [16; 31; 0x84])]].

Example sink_modes : (let* c := parse sink in Done (modes c, sc c native_vic, sc c ieeeoui)) = Done ([16; 4; 17; 97; 31], 0, HDMI_IEEE_OUI).
Proof. by vm_compute. Qed.


Lemma dtd_recognized_witness : exists c' tm', edid_dtd_parsing false nocustom empty (enc (mode 2) 400 300) = Done c' /\ good c' /\
  sc c' dtd_idx = sc empty dtd_idx + 1 /\ In tm' cea_modes /\ same_timing (mode 2) tm' = true /\ modes c' = add_mode (modes empty) (vic tm') /\
  (is_4x3 (vic tm') = true -> Z.abs (300 * 100 / 400 - 75) <= 2).
Proof.
  apply (dtd_recognized nocustom empty (mode 2) 400 300); [apply empty_good|by vm_compute| |by vm_compute|by vm_compute|lia|lia].
  right. right. by left.
Defined.

Lemma svds_listed_witness : exists c', store_svds 4 empty [0x90; 4; 16; 1] 0 = Done c' /\ good c' /\ modes c' = [16; 4] /\ sc c' native_vic = 16.
Proof.
  apply (svds_listed [] [] [0x90; 4; 16; 1] empty); [apply empty_good|by apply bytes_bool|by vm_compute|by vm_compute].
Defined.

Lemma cec_address_found_witness : hdmitx_cec_get_edid_phys_addr (take 256 sink) 256 = Done 0x1000.
Proof.
  apply (cec_address_found (take 128 sink) (drop 152 (take 256 sink)) 24 0 0x10 0x00 [video; audio] [] [0x38; 0x2d] 256); by vm_compute.
Defined.

Lemma audio_parse_returns_witness : exists c', hdmitx_audio_parse empty sink = Done c' /\ length (RxAudioCap c') = 60%nat /\ 1 <= sc c' AUD_count <= 60.
Proof.
  apply audio_parse_returns; [by vm_compute|by vm_compute|by apply bytes_bool; vm_compute|by vm_compute|by vm_compute|by vm_compute].
Defined.

Lemma data_blocks_in_order_witness :
  walk (fun c tag off count => Done (c ++ [(tag, off, count)])) 128 ([2; 3; 24; 0] ++ encode_blocks [video; audio; vendor] ++ [0; 0]) 4 24 [] =
  Done [(2, 4, 4); (1, 9, 6); (3, 16, 7)].
Proof.
  apply (data_blocks_in_order (fun c tag off count => Done (c ++ [(tag, off, count)])) [video; audio; vendor] 128 [2; 3; 24; 0] [0; 0] []); [by vm_compute|by vm_compute|cbn; lia].
Defined.

(** ** Sinks that the parser does not survive *)

Definition accepted (d : list Z) : bool := match hdmitx_edid_check_data_valid 0 d with Done b => b | _ => false end.

(** A static metadata block of 8 bytes is copied to 7. *)
Example long_static_block : let d := edid [] [ext [(7, [6; 1; 1; 0; 0; 0; 0])]] in accepted d = true /\ parse d = Fault.
Proof. by vm_compute. Qed.
(** A Dolby Vision block of 28 bytes is copied to 27. *)
Example long_dv_block : let d := edid [] [ext [(7, [1; 0x46; 0xd0; 0] ++ replicate 23 0)]] in accepted d = true /\ parse d = Fault.
Proof. by vm_compute. Qed.
(** A descriptor of 480p60 without the size of the picture is divided by 0. *)
Example no_picture_size : let d := edid (enc (mode 2) 0 0) [] in accepted d = true /\ parse d = Fault.
Proof. by vm_compute. Qed.
(** A map of 4:2:0 modes with 17 bytes asks for modes behind the 128. *)
Example long_map : let d := edid [] [ext [(7, 15 :: replicate 17 0xff)]] in accepted d = true /\ parse d = Fault.
Proof. by vm_compute. Qed.
(** A descriptor of dynamic metadata with length 0 makes the parser read and
    write on. *)
Example short_dynamic : let d := edid [] [ext [(7, [7; 0; 1; 0; 0])]] in accepted d = true /\ parse d = Fault.
Proof. by vm_compute. Qed.
(** Video blocks of 149 descriptors, the last beyond the end of the collection. *)
Example hanging_block :
  let d := edid [] [seal ([2; 3; 127; 0] ++ concat (replicate 3 (0x5f :: replicate 31 16)) ++ (0x59 :: replicate 25 16) ++ [0x5f]); seal [2; 3; 4; 0]] in
  accepted d = true /\ parse d = Fault.
Proof. by vm_compute. Qed.
(** 80 audio descriptors in two blocks. *)
Example many_formats :
  let b := ext [(1, replicate 30 9); (1, replicate 30 9); (1, replicate 30 9); (1, replicate 24 9)] in
  let d := edid [] [b; b] in accepted d = true /\ hdmitx_audio_parse empty d = Fault.
Proof. by vm_compute. Qed.
(** The descriptor of 1080p24 is not recognized: its lines are halved. *)
Example cinema_lost : (let* c := edid_dtd_parsing false nocustom empty (enc (mode 32) 160 90) in Done (modes c, sc c dtd_idx)) = Done ([], 0).
Proof. by vm_compute. Qed.
(** The size given for the search of the address can be beyond the 1024 bytes
    that are there. *)
Example far_address :
  let d := pad 1024 (base [] 8 ++ concat (replicate 7 (ext []))) in
  accepted d = true /\ hdmitx_cec_phy_addr_parse empty d = Fault.
Proof. by vm_compute. Qed.
End EdidDemo.
